(* ===== verification/_CoqProject ===== *)
-Q . S2P
Prelude.v
GoText.v
Validate.v
Ulid.v
Exec.v
Steps.v
Authz.v
Registry.v
Production.v
EventStore.v
TypedStore.v
Rebuild.v
WorkQueue.v
Refresh.v
RateLimit.v
Sign.v
AuthGate.v
Interleave.v
Identity.v
Authorities.v
Crl.v
Tokens.v
Leaves.v
TrustStore.v
Rotation.v
RotationSpec.v
RotationGates.v
RotationProof.v
RotationRuns.v
Issuance.v
IssuanceProof.v
ServiceRuns.v
Users.v
Groups.v
Directory.v
DirectoryProof.v
DirectoryRebuild.v
Sessions.v
Pats.v
AccessStore.v
AccessProof.v
Continuity.v
AgentStore.v
AgentClient.v
AgentLoop.v
AgentProof.v
Redos.v
