(* ===== verification/Prelude.v ===== *)
(** * Power Manage, verified

    Power Manage is a server that manages fleets of devices through agents.  The
    repository is a Go monorepo: [contract] (the messages, their signatures and
    certificate identities), [sdk] (what every process uses on a host), [server]
    (control and gateway) and [agent].  This development translates its decision
    core into Gallina, function by function, and proves what the code relies on.

    ** How the parts interact

    Control is event sourced.  Every change of state is an event appended to a
    stream of [events] in a PostgreSQL transaction that also updates the
    projection tables ([server/internal/store]); a projection can be rebuilt by
    replaying its streams.  The public service of [server/internal/pki] enrolls,
    renews and revokes the certificates of agents and gateways, and a manager
    rotates the certificate authorities they are issued by, class by class, under
    advisory locks.  Follow-up work (publishing revocation lists) goes through a
    durable queue in the same transactions.  The directory of users, the groups
    and the roles are projections of the same kind; [server/internal/auth]
    authenticates a caller by session, personal access token or certificate and
    authorizes every call against the grants of [server/internal/authz].  On a
    device, the agent enrolls with a registration token, keeps its credentials in
    one file, renews them before they expire, and confirms to control which
    certificate authorities it has come to trust.

    ** The files

    Shared ground:
    - [Prelude]: Go's [(T, error)] as [result], error values with [errors.Is],
      machine integers, sorting, and the lemmas and hints on them;
    - [GoText]: Go strings as bytes, UTF-8, and the [strings] functions in use;
    - [Interleave]: programs of atomic actions, their schedules, and a
      rely-guarantee judgement [rg] sound for any number of threads.

    The SDK and the contract:
    - [Validate] ([sdk/validate]), [Ulid] ([sdk/ulidx]), [Exec] ([sdk/exec]),
      [Steps] ([sdk/narrow], [sdk/rollback]), [Redos] ([sdk/redos]);
    - [Sign] ([contract/sign], [contract/manifest]), [Identity]
      ([contract/identity]).

    The event store ([server/internal/store]):
    - [Registry] (the registration of events and projection targets, [store.go]
      and [classification.go]) and [Production] (the registry in production, as
      data);
    - [EventStore] (appends as transactions over the event table, statement by
      statement, with other writers between any two), and [TypedStore] (the same
      append as one atomic step over decoded events, which the components with
      streams of their own use);
    - [Rebuild] ([rebuild.go]), [WorkQueue] ([work.go]).

    Authentication and authorization ([server/internal/authz], [auth]):
    - [Authz] (grants and their resolution), [AuthGate] (the gate of every
      procedure), [RateLimit] (the ladder of failed authentications),
      [Refresh] (refresh-token families), [Sessions] (access tokens, [tokens.go],
      and their invalidation, [session_invalidation.go]), [Pats] (personal access
      tokens, [pats.go] and [store/personal_access_tokens.go]).

    The directory ([server/internal/store]):
    - [Users] ([users.go], [session_invalidation.go]) and [Groups] ([scim.go],
      [user_groups.go]): the tables, events and projectors of people and groups;
    - [Directory]: the abstract effect of each event, which the projectors
      implement; [DirectoryProof]: what every history keeps; [DirectoryRebuild]:
      what a replay gives;
    - [AccessStore] ([authorization.go], [last_admin.go]): roles, grants and the
      last administrator, over that directory; [AccessProof]: their theorems.

    Public key infrastructure ([server/internal/pki], [store]):
    - [Authorities] ([authorities.go]), [Crl] ([crl.go], both), [Tokens]
      ([registration_tokens.go], both), [Leaves] ([devices.go], [gateways.go]);
    - [TrustStore] ([store/ca_rotation.go]) and [Rotation] ([pki/rotation.go]):
      the durable rotation states and the manager's calls;
    - [RotationSpec]: the abstract machine, a graph of rotation states with a gate
      on every edge; [RotationGates], [RotationProof]: every call refines it;
      [RotationRuns]: calls that run alone, and a whole rotation evaluated;
    - [Issuance] ([enrollment.go], [gateway.go], [renewal.go], [revocation.go],
      [confirmation.go], [public_auth.go], [store/device_lifecycle.go]): the
      public service; [IssuanceProof]: its calls keep to the same machine;
      [ServiceRuns]: all of it interleaved.

    The agent ([agent/internal/enroll]):
    - [Continuity] ([continuity.go]): whether one trust bundle continues another;
      [AgentStore] ([store.go]): the credential file; [AgentClient]
      ([client.go]): enrollment and renewal; [AgentLoop] ([renewal_loop.go],
      [relay.go]); [AgentProof]: the agent's trust over its history.

    ** How the code is modelled

    A function of the code is a definition of the same name, and the comment
    before it names its file and lines; methods take their receiver first.
    Errors are values of [result]: [goerr] where the code tells errors apart with
    [errors.Is] or [errors.As], the message where it does not.  Integers are [Z]
    with their wrap-around written out ([wrap_u], [wrap_s]); byte strings and
    strings are [string].  SQL statements are functions on finite maps and lists,
    from the query files under [server/internal/store/queries].

    What a call cannot decide itself is an input.  The environments of statements
    ([AppendEnv], [PKIEnv], [TokenEnv], ...) say whether a statement or the
    commit fails, what the clock reads, which bytes the random source gives and
    whether the context has ended, afresh for every action; x509, ASN.1, the
    signature schemes, chain verification, address and URL parsing, JSON and PEM,
    the lower case of Unicode, password hashes and the database's collation are
    typeclasses ([X509], [X509CRL], [X509Issue], [VerifyOptions], [ChainVerify],
    [Schemes], [X25519], [ES256], [SessionJSON], [CredentialCodec], [RelayCodec],
    [NetIP], [URLs], [UnicodeLower], [Bcrypt], [Collation]), with the documented
    laws that a theorem needs in a class of their own ([CRLLaws],
    [ES256Correct], [SessionJSONCorrect], [CodecLaws]); the witnesses instantiate
    them by concrete functions.  A call that runs concurrently is a program
    ([prog]) of atomic actions on the shared world; [sched_step] runs one action
    of one thread, or a step of anything else that the theorem allows.

    In the theorems about the whole public key infrastructure, "anything else" is
    [outside] of IssuanceProof.v: another process's memory and locks, the lists
    and the work queue, and any event of a certificate, which if it issues comes
    while both fences are held.  These theorems are about the service with a
    rotation manager ([managed]), which the repository's constructors leave to
    be set: without one the service takes no fence.  The one statement the code commits without reading the
    rotation again under its fences is the control plane's own receipt; such a
    receipt may be about a rotation that has ended
    ([stale_control_receipt_is_recorded]), and the gates, which compare a
    receipt's generation, revision and roots, do not count it.

    ** What the theorems show

    - Public key infrastructure, interleaved: [server_refines_the_machine]
      (refinement of the rotation machine by every call of the manager and of the
      service), [released_certificates_are_accounted] (what is handed out is in
      the log, renewed from exactly the presented certificate),
      [trust_intent_is_ordered]; alone: [migration_gate_decides],
      [Retire_completes].
    - The agent, one call after another: [trust_descends_from_enrollment],
      [adoption_is_confirmed_or_pending], [credential_file_round_trips],
      [renewal_at_eighty_percent].
    - Certificates: [withdrawn_certificates_are_revoked],
      [revoked_identity_is_final], [withdrawal_is_handed_to_the_issuer],
      [crl_never_forgets]; tokens: [consume_never_exceeds_limit],
      [every_grant_was_authorized], [minted_token_is_consumed].
    - Events: [streams_stay_contiguous], [append_is_all_or_nothing],
      [pinned_append_has_one_winner], [last_admin_is_kept],
      [AppendEvent_terminates]; replay: [RebuildAll_replays_every_event],
      [rebuild_equals_live_order]; the queue: [RunOnce_processes_first_due],
      [work_rows_stay_valid], [nul_error_is_never_recorded].
    - Sessions and tokens: [refresh_token_is_single_use],
      [replay_revokes_family], [invalidated_sessions_stay_invalid],
      [AuthenticateAccess_decides_exactly], [minted_session_verifies],
      [revoked_token_authenticates_nobody], [Authenticate_decides_exactly],
      [minted_token_authenticates].
    - The directory: [directory_stays_consistent],
      [users_rebuild_restores_live], [former_members_block_managed_rebuild];
      roles: [an_administrator_remains], [counted_admins_are_resolved].
    - Access: [Resolve_reach_is_union],
      [global_only_needs_global_grant], [AuthorizeContext_decides_exactly],
      [handler_runs_only_authorized], [Allow_is_exact_sliding_window],
      [ResolveClientIP_first_untrusted].
    - Wire and host: [signing_input_is_injective], [VerifyCommand_accepts_exactly],
      [signed_envelopes_verify], [tls_accepts_exactly_class],
      [operand_grammars_argv_safe], [Vet_decides_the_shapes], [minted_ulids_canonical_and_time_sorted],
      [runner_exec_fail_closed], [child_environment_is_curated],
      [capture_is_longest_fitting_prefix], [Run_completes_or_unwinds].

    ** Fuel and bounds

    Recursion on data is structural.  Loops of the code that are not bounded by
    data take fuel, and a theorem says how much is enough: the pages of the
    migration report end with more fuel than there are certificates
    ([migration_gate_decides]; [Retire] passes it on), UTF-8 decoding and
    repairing recurse on the length of the string ([valid_fuel_enough]), the
    retries of appends, token reads and replays have the code's own bounds, and
    the agent's renewal loop, which never ends, counts down the renewals of the
    run that is looked at.

    ** What is not modelled

    - Generated code ([contract/gen], [store/generated]): the queries are modelled
      from the SQL they are generated from, the messages as records.
    - Wiring that construction rules out (nil receivers, nil dependencies, a
      service without a rotation manager where a theorem says [managed]).
    - The precision of stored timestamps, which the columns cut to microseconds
      where the model keeps them whole; a fault of PostgreSQL other than a
      failing statement or commit.
    - The transaction of a device's lifecycle commits with its one append.  Its
      lock is keyed by the identifier, where PostgreSQL takes a hash; a lock that
      is taken already fails the statement, as a context that ends while waiting.
    - The text of errors that cross no decision.
    - Calls of one agent that overlap: [AgentProof] runs them one after another,
      as the client's mutex does for renewals ([enrollment_undoes_renewal] runs
      an enrollment across one).
    - Network listeners and connections ([pki/server.go], the sockets of
      [relay.go]; of a TLS handshake only the verdict on the peer), the gateway's
      client ([server/internal/gateway]), the HTTP exchanges of SCIM and OIDC,
      package managers and file replacement ([sdk/pkg], [sdk/fsafe],
      [sdk/fetch]), configuration by reflection ([sdk/config]), command-line
      wiring: sequences of system calls with little decision of their own.

    ** Order of the plan

    The event store and the host kernels came first, then access, then the public
    key infrastructure from the stores up to the interleaved service, then the
    directory with its sessions and roles, then the agent.  What comes next: the
    request handlers of [server/internal/control] over their common kernel, the
    gateway's client, which continues trust as the agent does, and the
    bootstrap of the first administrator. *)

From Stdlib Require Import Ascii String ZArith Lia.
From stdpp Require Export base sorting numbers strings sets gmap.
From stdpp Require Export list_relations list_misc list_basics list.

#[global] Set Default Goal Selector "!".

(** ** Results: a Go function returning [(T, error)] *)

(** [Ok v] is the pair [(v, nil)]; [Err e] is a non-nil error, whose value
    result the callers of the modelled code never read. *)
Inductive result (E A : Type) : Type :=
| Ok (a : A)
| Err (e : E).
Arguments Ok {E A} a.
Arguments Err {E A} e.

#[export] Instance result_eq_dec `{EqDecision E, EqDecision A} : EqDecision (result E A).
Proof. solve_decision. Defined.

#[export] Instance result_ret E : MRet (result E) := fun A a => Ok a.
#[export] Instance result_bind E : MBind (result E) :=
  fun A B f m => match m with Ok a => f a | Err e => Err e end.
#[export] Instance result_fmap E : FMap (result E) :=
  fun A B f m => match m with Ok a => Ok (f a) | Err e => Err e end.

Definition is_ok {E A} (r : result E A) : bool :=
  match r with Ok _ => true | Err _ => false end.

(** [if cond { return err }] as the first half of a sequence. *)
Definition fail_if {E} (cond : bool) (e : E) : result E unit :=
  if cond then Err e else Ok tt.

(** [fmt.Errorf("...: %w", err)] around a failing call. *)
Definition wrap_err {E F A} (f : E -> F) (r : result E A) : result F A :=
  match r with Ok a => Ok a | Err e => Err (f e) end.

(** [x, ok := m[k]; if !ok { return err }]. *)
Definition or_err {E A} (o : option A) (e : E) : result E A :=
  match o with Some a => Ok a | None => Err e end.

(** A loop [for _, x := range l { if err := f(x); err != nil { return err } }]. *)
Fixpoint check_each {E A} (f : A -> result E unit) (l : list A) : result E unit :=
  match l with
  | [] => Ok tt
  | x :: l' => f x ≫= fun _ => check_each f l'
  end.

(** The same loop collecting the values [f] returns. *)
Fixpoint map_result {E A B} (f : A -> result E B) (l : list A) : result E (list B) :=
  match l with
  | [] => Ok []
  | x :: l' => f x ≫= fun y => map_result f l' ≫= fun ys => Ok (y :: ys)
  end.

(** The loop threading a state. *)
Fixpoint fold_result {E A S} (f : S -> A -> result E S) (s : S) (l : list A) : result E S :=
  match l with
  | [] => Ok s
  | x :: l' => f s x ≫= fun s' => fold_result f s' l'
  end.

(** ** Go error values *)

(** The error trees the server builds: a fresh message, a package sentinel, a
    Postgres error with its SQLSTATE and constraint name, [fmt.Errorf] with one
    [%w], and [errors.Join]. *)
Inductive goerr : Type :=
| EMsg (msg : string)
| ESentinel (name : string)
| EPg (code constraint : string)
| EWrap (msg : string) (e : goerr)
| EJoin (e1 e2 : goerr).

#[export] Instance goerr_eq_dec : EqDecision goerr.
Proof. solve_decision. Defined.

(** A statement may fail for reasons of the database's own. *)
Definition may_fault (fault : option goerr) : result goerr unit :=
  match fault with Some e => Err e | None => Ok tt end.

(** [errors.Is] against a package sentinel. *)
Fixpoint errors_is (name : string) (e : goerr) : bool :=
  match e with
  | ESentinel n => String.eqb n name
  | EWrap _ e => errors_is name e
  | EJoin e1 e2 => errors_is name e1 || errors_is name e2
  | _ => false
  end.

(** [errors.As] into a [*pgconn.PgError]: the first one in depth-first order. *)
Fixpoint as_pg_error (e : goerr) : option (string * string) :=
  match e with
  | EPg code constraint => Some (code, constraint)
  | EWrap _ e => as_pg_error e
  | EJoin e1 e2 => match as_pg_error e1 with Some p => Some p | None => as_pg_error e2 end
  | _ => None
  end.

(** [errors.Join] with an error that may be nil. *)
Definition join_opt (e1 e2 : option goerr) : option goerr :=
  match e1, e2 with
  | Some a, Some b => Some (EJoin a b)
  | Some a, None | None, Some a => Some a
  | None, None => None
  end.

(** ** Lists: [slices.Sort], [slices.Compact], [slices.IsSorted] *)

(** [slices.Sort] on strings: byte-wise lexicographic order, a total order, so
    every sorting algorithm returns the same list. *)
Definition sort_strings : list string -> list string := merge_sort String.le.

(** [slices.Compact]: drop every element equal to its predecessor. *)
Fixpoint compact {A} `{EqDecision A} (l : list A) : list A :=
  match l with
  | [] => []
  | x :: l' =>
      match l' with
      | [] => [x]
      | y :: _ => if decide (x = y) then compact l' else x :: compact l'
      end
  end.

(** [slices.IsSorted] on strings: no element below its predecessor. *)
Fixpoint is_sorted_strings (l : list string) : bool :=
  match l with
  | [] => true
  | x :: l' =>
      match l' with
      | [] => true
      | y :: _ => String.leb x y && is_sorted_strings l'
      end
  end.

(** [for i := 1..: if l[i] == l[i-1]]: a duplicate next to its predecessor. *)
Fixpoint adjacent_dup {A} `{EqDecision A} (l : list A) : bool :=
  match l with
  | [] => false
  | x :: l' =>
      match l' with
      | [] => false
      | y :: _ => bool_decide (x = y) || adjacent_dup l'
      end
  end.

(** [slices.Contains]. *)
Definition slice_contains {A} `{EqDecision A} (l : list A) (x : A) : bool :=
  bool_decide (x ∈ l).

(** ** Machine integers, time and lengths *)

Open Scope Z_scope.

Definition max_int64 : Z := 9223372036854775807.
Definition min_int64 : Z := -9223372036854775808.
Definition max_int32 : Z := 2147483647.
Definition max_uint64 : Z := 18446744073709551615.

(** Two's-complement wrap-around to [int64]/[int32] and [uint64]/[uint32]/[uint8]. *)
Definition wrap_u (w : Z) (z : Z) : Z := z mod 2 ^ w.
Definition wrap_s (w : Z) (z : Z) : Z := (z + 2 ^ (w - 1)) mod 2 ^ w - 2 ^ (w - 1).

(** [len(s)] of a Go string or byte slice. *)
Definition len (s : string) : Z := Z.of_nat (String.length s).

Definition zlen {A} (l : list A) : Z := Z.of_nat (length l).

(** A [time.Time] is its instant, in nanoseconds since the Unix epoch; the
    zero value is January 1 of year 1. *)
Definition time := Z.
Definition zero_time : time := -62135596800 * 1000000000.
Definition time_is_zero (t : time) : bool := t =? zero_time.
Definition nanosecond : Z := 1.
Definition millisecond : Z := 1000000.
Definition second : Z := 1000000000.
Definition minute : Z := 60 * second.
Definition hour : Z := 60 * minute.

(** [t.Sub(u)] saturates at the bounds of [time.Duration] (an [int64]). *)
Definition time_sub (t u : time) : Z :=
  Z.max min_int64 (Z.min max_int64 (t - u)).

(** [t.Unix()] and [t.UnixMilli()]: floor division. *)
Definition time_unix (t : time) : Z := t / second.
Definition time_unix_milli (t : time) : Z := t / millisecond.

(** Characters of a literal, for byte comparisons. *)
Definition byte_of (c : ascii) : Z := Z.of_N (N_of_ascii c).
Definition byte_between (lo hi c : ascii) : bool :=
  (byte_of lo <=? byte_of c) && (byte_of c <=? byte_of hi).

(** ** Automation *)

Create HintDb pm.

Lemma is_ok_inv {E A} (r : result E A) : is_ok r = true <-> exists a, r = Ok a.
Proof. destruct r; naive_solver. Qed.

Lemma bind_ok {E A B} (m : result E A) (f : A -> result E B) b :
  m ≫= f = Ok b <-> exists a, m = Ok a /\ f a = Ok b.
Proof. destruct m; simpl; naive_solver. Qed.

Lemma bind_err {E A B} (m : result E A) (f : A -> result E B) e :
  m ≫= f = Err e <-> m = Err e \/ exists a, m = Ok a /\ f a = Err e.
Proof. destruct m; simpl; naive_solver. Qed.

Lemma fail_if_ok {E} b (e : E) u : fail_if b e = Ok u <-> b = false.
Proof. destruct b, u; naive_solver. Qed.

Lemma fail_if_err {E} b (e e' : E) : fail_if b e = Err e' <-> b = true /\ e' = e.
Proof. destruct b; naive_solver. Qed.

Lemma wrap_err_ok {E F A} (f : E -> F) (r : result E A) a :
  wrap_err f r = Ok a <-> r = Ok a.
Proof. destruct r; naive_solver. Qed.

Lemma or_err_ok {E A} (o : option A) (e : E) a : or_err o e = Ok a <-> o = Some a.
Proof. destruct o; naive_solver. Qed.

Lemma check_each_ok {E A} (f : A -> result E unit) l :
  check_each f l = Ok tt <-> Forall (fun x => f x = Ok tt) l.
Proof.
  induction l as [|x l IH]; simpl; [naive_solver|].
  rewrite Forall_cons, <- IH, bind_ok. split; [intros ([] & ? & ?); done|].
  intros [? ?]. by exists tt.
Qed.

Lemma map_result_ok {E A B} (f : A -> result E B) l l' :
  map_result f l = Ok l' <-> Forall2 (fun x y => f x = Ok y) l l'.
Proof.
  revert l'. induction l as [|x l IH]; intros l'; simpl.
  - split; [intros [= <-]; constructor | by inversion 1].
  - rewrite bind_ok. setoid_rewrite bind_ok. setoid_rewrite IH. split.
    + intros (y & ? & ys & ? & [= <-]). by constructor.
    + inversion 1; subst. naive_solver.
Qed.

Lemma fold_result_app {E A S} (f : S -> A -> result E S) s l1 l2 :
  fold_result f s (l1 ++ l2) = fold_result f s l1 ≫= fun s' => fold_result f s' l2.
Proof.
  revert s. induction l1 as [|x l1 IH]; intros s; simpl; [done|].
  destruct (f s x); simpl; auto.
Qed.

(** An invariant that every step of a threaded loop keeps holds at its end. *)
Lemma fold_result_inv {E A S} (f : S -> A -> result E S) (P : S -> Prop) l s s' :
  (forall s x s', x ∈ l -> P s -> f s x = Ok s' -> P s') ->
  P s -> fold_result f s l = Ok s' -> P s'.
Proof.
  revert s. induction l as [|x l IH]; simpl; intros s Hstep HP; [naive_solver|].
  rewrite bind_ok. intros (s1 & H1 & H2).
  eapply (IH s1); [|eapply Hstep; [|exact HP|exact H1]; set_solver|exact H2].
  intros; eapply Hstep; eauto; set_solver.
Qed.

#[export] Hint Rewrite @bind_ok @bind_err @fail_if_ok @fail_if_err @wrap_err_ok
  @or_err_ok @check_each_ok @map_result_ok : result.

(** Split a hypothesis or goal made of monadic sequences into its steps. *)
Ltac inv_result :=
  repeat match goal with
  | H : @mbind (result _) _ _ _ _ _ = Ok _ |- _ =>
      apply bind_ok in H; destruct H as (? & ? & H)
  | H : fail_if _ _ = Ok _ |- _ => apply fail_if_ok in H
  | H : fail_if _ _ = Err _ |- _ => apply fail_if_err in H; destruct H as [? ->]
  | H : wrap_err _ _ = Ok _ |- _ => apply wrap_err_ok in H
  | H : or_err _ _ = Ok _ |- _ => apply or_err_ok in H
  | H : Ok _ = Ok _ |- _ => injection H as H; subst
  | H : Err _ = Err _ |- _ => injection H as H; subst
  | H : Ok _ = Err _ |- _ => discriminate H
  | H : Err _ = Ok _ |- _ => discriminate H
  end.

(** Turn boolean tests of the code into propositions. *)
Ltac prop_bools :=
  repeat match goal with
  | H : _ && _ = true |- _ => apply andb_true_iff in H; destruct H
  | H : _ || _ = false |- _ => apply orb_false_iff in H; destruct H
  | H : negb _ = true |- _ => apply negb_true_iff in H
  | H : negb _ = false |- _ => apply negb_false_iff in H
  | H : (_ =? _) = true |- _ => apply Z.eqb_eq in H
  | H : (_ =? _) = false |- _ => apply Z.eqb_neq in H
  | H : (_ <=? _) = true |- _ => apply Z.leb_le in H
  | H : (_ <=? _) = false |- _ => apply Z.leb_gt in H
  | H : (_ <? _) = true |- _ => apply Z.ltb_lt in H
  | H : (_ <? _) = false |- _ => apply Z.ltb_ge in H
  | H : (_ >? _) = true |- _ => rewrite Z.gtb_ltb in H; apply Z.ltb_lt in H
  | H : (_ >? _) = false |- _ => rewrite Z.gtb_ltb in H; apply Z.ltb_ge in H
  | H : String.eqb _ _ = true |- _ => apply String.eqb_eq in H
  | H : String.eqb _ _ = false |- _ => apply String.eqb_neq in H
  | H : bool_decide _ = true |- _ => apply bool_decide_eq_true in H
  | H : bool_decide _ = false |- _ => apply bool_decide_eq_false in H
  end.

(** ** Sorted string lists *)

Lemma sort_strings_perm l : sort_strings l ≡ₚ l.
Proof. apply merge_sort_Permutation. Qed.

Lemma sort_strings_sorted l : StronglySorted String.le (sort_strings l).
Proof. apply (StronglySorted_merge_sort String.le). Qed.

(** Two sorted lists with the same elements are the same list. *)
Lemma sorted_perm_eq (l k : list string) :
  StronglySorted String.le l -> StronglySorted String.le k -> l ≡ₚ k -> l = k.
Proof. intros. by eapply (StronglySorted_unique String.le). Qed.

Lemma is_sorted_strings_spec l : is_sorted_strings l = true <-> StronglySorted String.le l.
Proof.
  split.
  - intros H. apply Sorted_StronglySorted; [apply _|].
    induction l as [|x l IH]; [constructor|]. destruct l as [|y l]; [by repeat constructor|].
    change (String.leb x y && is_sorted_strings (y :: l) = true) in H.
    prop_bools. constructor; [auto|constructor; by apply Is_true_true].
  - intros H%StronglySorted_Sorted. induction H as [|x l Hs IH Hd]; [done|].
    destruct Hd as [|y l Hxy]; simpl; [done|]. apply andb_true_iff. split; [by apply Is_true_true in Hxy|exact IH].
Qed.

(** In a sorted list, "no two neighbours are equal" is "no duplicates". *)
Lemma adjacent_dup_nodup (l : list string) :
  StronglySorted String.le l -> adjacent_dup l = false <-> NoDup l.
Proof.
  induction 1 as [|x l Hs IH Hle]; [by split; constructor|].
  destruct l as [|y l].
  { split; [intros _; apply NoDup_singleton|done]. }
  change (adjacent_dup (x :: y :: l)) with (bool_decide (x = y) || adjacent_dup (y :: l)).
  rewrite orb_false_iff, bool_decide_eq_false, IH, (NoDup_cons x).
  split; [|intros [Hni ?]; split; [intros ->; apply Hni; left|done]].
  intros [Hne Hnd]. split; [|done]. intros [->|Hin]%elem_of_cons; [done|].
  inversion Hs as [|?? _ Hy]; subst. rewrite Forall_forall in Hle, Hy.
  apply Hne, (anti_symm String.le); [apply Hle; left|by apply Hy].
Qed.

Lemma compact_cons2 {A} `{EqDecision A} (x y : A) l :
  compact (x :: y :: l) = if decide (x = y) then compact (y :: l) else x :: compact (y :: l).
Proof. done. Qed.

Lemma elem_of_compact {A} `{EqDecision A} (l : list A) x : x ∈ compact l <-> x ∈ l.
Proof.
  induction l as [|y l IH]; [done|]. destruct l as [|z l]; [done|].
  rewrite compact_cons2. case_decide; set_solver.
Qed.

Lemma compact_sorted_nodup (l : list string) :
  StronglySorted String.le l -> StronglySorted String.le (compact l) /\ NoDup (compact l).
Proof.
  induction 1 as [|x l Hs IH Hle]; [split; constructor|].
  destruct l as [|y l]; [split; repeat constructor; set_solver|].
  destruct IH as [IH1 IH2]. rewrite compact_cons2.
  case_decide as Hxy; [by split|]. split.
  - constructor; [done|]. rewrite Forall_forall in *. intros z Hz.
    apply Hle. eapply elem_of_compact. exact Hz.
  - apply NoDup_cons. split; [|done]. rewrite elem_of_compact, elem_of_cons. intros [->|Hin]; [done|].
    inversion Hs as [|?? _ Hy]; subst. rewrite Forall_forall in Hle, Hy.
    apply Hxy, (anti_symm String.le); [apply Hle; left|by apply Hy].
Qed.

Lemma filter_all {A} (Q : A -> Prop) `{!forall x, Decision (Q x)} l : Forall Q l -> filter Q l = l.
Proof. induction 1; [done|]. rewrite filter_cons_True by done. by f_equal. Qed.

Lemma filter_none {A} (Q : A -> Prop) `{forall x, Decision (Q x)} l :
  (forall x, x ∈ l -> ~ Q x) -> filter Q l = [].
Proof.
  induction l as [|x l IH]; intros Hq; [done|]. rewrite filter_cons_False by (apply Hq; left).
  apply IH. intros y Hy. apply Hq. by right.
Qed.

Lemma prefix_sublist {A} (l k : list A) : l `prefix_of` k -> l `sublist_of` k.
Proof. intros [k' ->]. by apply sublist_inserts_r. Qed.

(** A key that does not repeat in a list determines its element. *)
Lemma nodup_key_inj {A K} (f : A -> K) (l : list A) x y :
  NoDup (f <$> l) -> x ∈ l -> y ∈ l -> f x = f y -> x = y.
Proof.
  intros Hnd Hx Hy Hf. induction l as [|z l IH]; [set_solver|].
  rewrite fmap_cons in Hnd. apply NoDup_cons in Hnd as [Hz Hnd].
  apply elem_of_cons in Hx as [->|Hx], Hy as [->|Hy]; auto.
  - destruct Hz. rewrite Hf. by apply list_elem_of_fmap_2.
  - destruct Hz. rewrite <- Hf. by apply list_elem_of_fmap_2.
Qed.

Lemma strongly_sorted_filter {A} (R : relation A) (Q : A -> Prop) `{!forall x, Decision (Q x)} (l : list A) :
  StronglySorted R l -> StronglySorted R (filter Q l).
Proof.
  induction 1 as [|x l Hs IH Hx]; [constructor|]. rewrite filter_cons. case_decide; [|done].
  constructor; [done|]. rewrite Forall_forall in *. intros y [_ Hy]%list_elem_of_filter. auto.
Qed.

(** Sorting commutes with filtering when the order has no ties in the list. *)
Lemma merge_sort_filter {A} (R : relation A) `{!RelDecision R, !Total R, !Transitive R}
    (Q : A -> Prop) `{!forall x, Decision (Q x)} (l : list A) :
  (forall x y, x ∈ l -> y ∈ l -> R x y -> R y x -> x = y) ->
  merge_sort R (filter Q l) = filter Q (merge_sort R l).
Proof.
  intros Hanti. apply (StronglySorted_unique_strong R).
  - intros x y Hx Hy. rewrite (merge_sort_Permutation R) in Hx.
    apply list_elem_of_filter in Hx as [_ Hx], Hy as [_ Hy]. rewrite (merge_sort_Permutation R) in Hy. auto.
  - apply (StronglySorted_merge_sort R).
  - apply strongly_sorted_filter, (StronglySorted_merge_sort R).
  - by rewrite !(merge_sort_Permutation R).
Qed.

(** ** Equality tests on strings *)

(** A machine integer in range is its own wrap. *)
Lemma wrap_s_id w z : 0 < w -> - 2 ^ (w - 1) <= z < 2 ^ (w - 1) -> wrap_s w z = z.
Proof.
  intros Hw Hz. unfold wrap_s. assert (2 ^ w = 2 * 2 ^ (w - 1)).
  { rewrite <- Z.pow_succ_r by lia. f_equal. lia. }
  rewrite Z.mod_small; lia.
Qed.

Lemma wrap_s64_id z : min_int64 <= z <= max_int64 -> wrap_s 64 z = z.
Proof. intros Hz. unfold min_int64, max_int64 in Hz. apply wrap_s_id; [lia|]. cbn. lia. Qed.

Lemma string_eqb_refl s : String.eqb s s = true.
Proof. apply String.eqb_refl. Qed.

Lemma len_nonneg s : 0 <= len s.
Proof. unfold len; lia. Qed.

Lemma string_append_cons a s t : (String a s +:+ t) = String a (s +:+ t).
Proof. done. Qed.

Lemma len_app s t : len (s +:+ t) = len s + len t.
Proof.
  unfold len. induction s as [|a s IH]; [done|].
  change (String a s +:+ t) with (String a (s +:+ t)). cbn [String.length]. lia.
Qed.

#[export] Hint Resolve sort_strings_sorted sort_strings_perm len_nonneg : pm.
