(* ===== verification/GoText.v ===== *)
(** * Go strings: bytes, UTF-8 runes and the [strings] functions the code uses

    A Go [string] (and a [[]byte] whose identity does not matter) is a Rocq
    [string], a sequence of bytes.  [for _, r := range s] and [utf8.ValidString]
    decode UTF-8 as the Go runtime does; everything else works on bytes. *)

From Stdlib Require Import Ascii String ZArith Lia.
From S2P Require Export Prelude.

(** ** Bytes *)

Definition bytes (s : string) : list Z := byte_of <$> list_ascii_of_string s.

Definition ascii_of_byte (z : Z) : ascii := ascii_of_N (Z.to_N z).

Definition string_of_bytes (l : list Z) : string :=
  string_of_list_ascii (ascii_of_byte <$> l).

(** ** UTF-8 decoding ([utf8.DecodeRuneInString]) *)

Definition rune_error : Z := 65533.

Definition in_range (lo hi b : Z) : bool := (lo <=? b) && (b <=? hi).

(** A continuation byte, and the tighter second-byte ranges of the leading
    bytes E0, ED, F0 and F4 (no overlong forms, no surrogates, at most 10FFFF). *)
Definition continuation (b : Z) : bool := in_range 128 191 b.

Definition second_byte_ok (b0 b1 : Z) : bool :=
  if b0 =? 224 then in_range 160 191 b1
  else if b0 =? 237 then in_range 128 159 b1
  else if b0 =? 240 then in_range 144 191 b1
  else if b0 =? 244 then in_range 128 143 b1
  else continuation b1.

(** The decoded rune and its width; an invalid sequence is [(RuneError, 1)]. *)
Definition decode_rune (bs : list Z) : Z * nat :=
  match bs with
  | [] => (rune_error, 0%nat)
  | b0 :: r =>
      if b0 <? 128 then (b0, 1%nat)
      else if in_range 194 223 b0 then
        match r with
        | b1 :: _ =>
            if continuation b1 then ((b0 - 192) * 64 + (b1 - 128), 2%nat)
            else (rune_error, 1%nat)
        | _ => (rune_error, 1%nat)
        end
      else if in_range 224 239 b0 then
        match r with
        | b1 :: b2 :: _ =>
            if second_byte_ok b0 b1 && continuation b2
            then ((b0 - 224) * 4096 + (b1 - 128) * 64 + (b2 - 128), 3%nat)
            else (rune_error, 1%nat)
        | _ => (rune_error, 1%nat)
        end
      else if in_range 240 244 b0 then
        match r with
        | b1 :: b2 :: b3 :: _ =>
            if second_byte_ok b0 b1 && continuation b2 && continuation b3
            then ((b0 - 240) * 262144 + (b1 - 128) * 4096 + (b2 - 128) * 64 + (b3 - 128), 4%nat)
            else (rune_error, 1%nat)
        | _ => (rune_error, 1%nat)
        end
      else (rune_error, 1%nat)
  end.

(** [for _, r := range s]; the byte count is enough fuel. *)
Fixpoint runes_fuel (fuel : nat) (bs : list Z) : list Z :=
  match fuel, bs with
  | S fuel', _ :: _ =>
      let '(r, k) := decode_rune bs in r :: runes_fuel fuel' (drop k bs)
  | _, _ => []
  end.

Definition runes (s : string) : list Z := runes_fuel (String.length s) (bytes s).

(** [utf8.ValidString]. *)
Fixpoint valid_utf8_fuel (fuel : nat) (bs : list Z) : bool :=
  match fuel, bs with
  | S fuel', _ :: _ =>
      let '(r, k) := decode_rune bs in
      negb ((r =? rune_error) && (k =? 1)%nat) && valid_utf8_fuel fuel' (drop k bs)
  | _, _ => true
  end.

Definition valid_utf8 (s : string) : bool := valid_utf8_fuel (String.length s) (bytes s).

(** [utf8.DecodeLastRuneInString]: look back at most four bytes for the start
    of a rune that ends exactly at the end of the string. *)
Definition rune_start (b : Z) : bool := negb (continuation b).

Definition last_rune_width (bs : list Z) : option nat :=
  let n := length bs in
  let starts k := (k <=? n)%nat && default false (rune_start <$> bs !! (n - k)%nat) in
  if starts 2%nat then Some 2%nat
  else if starts 3%nat then Some 3%nat
  else if starts 4%nat then Some 4%nat
  else if (n <=? 4)%nat then Some n
  else None.

Definition decode_last_rune (bs : list Z) : Z * nat :=
  match last bs with
  | None => (rune_error, 0%nat)
  | Some b =>
      if b <? 128 then (b, 1%nat)
      else match last_rune_width bs with
           | None => (rune_error, 1%nat)
           | Some k =>
               let '(r, size) := decode_rune (drop (length bs - k) bs) in
               if (size =? k)%nat then (r, size) else (rune_error, 1%nat)
           end
  end.

(** ** [strings.TrimSpace] *)

(** [unicode.IsSpace]. *)
Definition is_space (r : Z) : bool :=
  in_range 9 13 r || (r =? 32) || (r =? 133) || (r =? 160) || (r =? 5760)
  || in_range 8192 8202 r || (r =? 8232) || (r =? 8233) || (r =? 8239)
  || (r =? 8287) || (r =? 12288).

Fixpoint trim_left_fuel (fuel : nat) (bs : list Z) : list Z :=
  match fuel, bs with
  | S fuel', _ :: _ =>
      let '(r, k) := decode_rune bs in
      if is_space r then trim_left_fuel fuel' (drop k bs) else bs
  | _, _ => bs
  end.

Fixpoint trim_right_fuel (fuel : nat) (bs : list Z) : list Z :=
  match fuel, bs with
  | S fuel', _ :: _ =>
      let '(r, k) := decode_last_rune bs in
      if is_space r then trim_right_fuel fuel' (take (length bs - k) bs) else bs
  | _, _ => bs
  end.

Definition trim_space (s : string) : string :=
  let l := trim_left_fuel (String.length s) (bytes s) in
  string_of_bytes (trim_right_fuel (length l) l).

(** [strings.TrimSpace(s) == ""]. *)
Definition is_blank (s : string) : bool := String.eqb (trim_space s) "".

(** ** Other functions of [strings] *)

Definition has_prefix (p s : string) : bool := String.prefix p s.

Definition has_suffix (suf s : string) : bool :=
  (String.length suf <=? String.length s)%nat
  && String.eqb (String.substring (String.length s - String.length suf) (String.length suf) s) suf.

(** [strings.Contains]. *)
Fixpoint contains_sub (sub s : string) : bool :=
  String.prefix sub s ||
  match s with
  | EmptyString => false
  | String _ s' => contains_sub sub s'
  end.

(** [strings.IndexByte(s, c) >= 0], also [ContainsRune] for an ASCII rune. *)
Fixpoint contains_byte (c : ascii) (s : string) : bool :=
  match s with
  | EmptyString => false
  | String a s' => Ascii.eqb a c || contains_byte c s'
  end.

Fixpoint string_forallb (f : ascii -> bool) (s : string) : bool :=
  match s with
  | EmptyString => true
  | String a s' => f a && string_forallb f s'
  end.

(** [strings.Split(s, sep)] for a one-byte separator. *)
Fixpoint split_on (c : ascii) (s : string) : list string :=
  match s with
  | EmptyString => [""%string]
  | String a s' =>
      if Ascii.eqb a c then ""%string :: split_on c s'
      else match split_on c s' with
           | [] => [String a ""]
           | p :: ps => String a p :: ps
           end
  end.

(** [strings.Count(s, sep)] for a one-byte separator. *)
Fixpoint count_byte (c : ascii) (s : string) : Z :=
  match s with
  | EmptyString => 0
  | String a s' => (if Ascii.eqb a c then 1 else 0) + count_byte c s'
  end.

(** [strings.Cut(s, sep)] for a one-byte separator: the part before, the part
    after and whether the separator was found. *)
Fixpoint cut (c : ascii) (s : string) : string * string * bool :=
  match s with
  | EmptyString => (""%string, ""%string, false)
  | String a s' =>
      if Ascii.eqb a c then (""%string, s', true)
      else let '(b, r, ok) := cut c s' in (String a b, r, ok)
  end.

Definition is_lower (c : ascii) : bool := byte_between "a" "z" c.
Definition is_upper (c : ascii) : bool := byte_between "A" "Z" c.
Definition is_digit (c : ascii) : bool := byte_between "0" "9" c.

(** [strings.ToUpper] on an ASCII string (its [isASCII] branch); every caller
    modelled here has checked the string against an ASCII grammar first. *)
Definition upper_ascii (c : ascii) : ascii :=
  if is_lower c then ascii_of_byte (byte_of c - 32) else c.

Fixpoint to_upper (s : string) : string :=
  match s with
  | EmptyString => EmptyString
  | String a s' => String (upper_ascii a) (to_upper s')
  end.

(** ** Bytes and strings *)

Lemma byte_of_range c : 0 <= byte_of c < 256.
Proof.
  unfold byte_of. pose proof (N_ascii_bounded c) as H. lia.
Qed.

Lemma ascii_of_byte_of c : ascii_of_byte (byte_of c) = c.
Proof. unfold ascii_of_byte, byte_of. rewrite N2Z.id. apply ascii_N_embedding. Qed.

Lemma byte_of_ascii z : 0 <= z < 256 -> byte_of (ascii_of_byte z) = z.
Proof. intros. unfold ascii_of_byte, byte_of. rewrite N_ascii_embedding; lia. Qed.

Lemma byte_of_inj a b : byte_of a = byte_of b -> a = b.
Proof. intros H. by rewrite <- (ascii_of_byte_of a), H, ascii_of_byte_of. Qed.

Lemma string_of_bytes_of s : string_of_bytes (bytes s) = s.
Proof.
  unfold string_of_bytes, bytes. rewrite <- list_fmap_compose.
  rewrite (list_fmap_ext _ id).
  - rewrite list_fmap_id. apply string_of_list_ascii_of_string.
  - intros. apply ascii_of_byte_of.
Qed.

Lemma length_bytes s : length (bytes s) = String.length s.
Proof. unfold bytes. rewrite length_fmap. by induction s; simpl; f_equal. Qed.

Lemma bytes_range s : Forall (fun b => 0 <= b < 256) (bytes s).
Proof. apply Forall_fmap, Forall_true. intros. apply byte_of_range. Qed.

Lemma bytes_cons a s : bytes (String a s) = byte_of a :: bytes s.
Proof. done. Qed.

(** ** Decoding facts *)

Lemma decode_rune_low b r : 0 <= b < 128 -> decode_rune (b :: r) = (b, 1%nat).
Proof. intros. simpl. by replace (b <? 128) with true by (symmetry; apply Z.ltb_lt; lia). Qed.

Lemma in_range_spec lo hi b : in_range lo hi b = true <-> lo <= b <= hi.
Proof. unfold in_range. rewrite andb_true_iff, !Z.leb_le. lia. Qed.

Lemma second_byte_ok_spec b0 b1 :
  second_byte_ok b0 b1 = true ->
  128 <= b1 /\ (b0 = 224 -> 160 <= b1) /\ (b0 = 240 -> 144 <= b1).
Proof.
  unfold second_byte_ok, continuation.
  destruct (b0 =? 224) eqn:E1; [|destruct (b0 =? 237) eqn:E2;
    [|destruct (b0 =? 240) eqn:E3; [|destruct (b0 =? 244) eqn:E4]]];
    rewrite in_range_spec; prop_bools; lia.
Qed.

(** What a decoding step may return when the leading byte is not ASCII. *)
Definition high_step (bs : list Z) (d : Z * nat) : Prop :=
  128 <= d.1 /\ (1 <= d.2)%nat /\ Forall (fun x => 128 <= x) (take d.2 bs).

Lemma high_step_error b r : 128 <= b -> high_step (b :: r) (rune_error, 1%nat).
Proof. intros. unfold high_step, rune_error. simpl. repeat constructor; lia. Qed.

(** Any other leading byte decodes to a rune above ASCII and swallows only
    bytes above ASCII. *)
Lemma decode_rune_high b r : 128 <= b -> high_step (b :: r) (decode_rune (b :: r)).
Proof.
  intros Hb. pose proof (high_step_error b r Hb) as Herr. cbn [decode_rune].
  destruct (b <? 128) eqn:E0; [prop_bools; lia|].
  destruct (in_range 194 223 b) eqn:E1; [|destruct (in_range 224 239 b) eqn:E2;
    [|destruct (in_range 240 244 b) eqn:E3; [|done]]].
  - apply in_range_spec in E1. destruct r as [|b1 r]; [done|].
    destruct (continuation b1) eqn:C1; [|done]. apply in_range_spec in C1.
    unfold high_step; simpl. split_and!; [lia|lia|repeat constructor; lia].
  - apply in_range_spec in E2. destruct r as [|b1 [|b2 r]]; [done|done|].
    destruct (second_byte_ok b b1 && continuation b2) eqn:C; [|done]. prop_bools.
    apply second_byte_ok_spec in H as (? & ? & ?). apply in_range_spec in H0.
    unfold high_step; simpl. split_and!; [|lia|repeat constructor; lia].
    destruct (decide (b = 224)); lia.
  - apply in_range_spec in E3. destruct r as [|b1 [|b2 [|b3 r]]]; [done|done|done|].
    destruct (second_byte_ok b b1 && continuation b2 && continuation b3) eqn:C; [|done].
    prop_bools. apply second_byte_ok_spec in H as (? & ? & ?).
    apply in_range_spec in H0, H1.
    unfold high_step; simpl. split_and!; [|lia|repeat constructor; lia].
    destruct (decide (b = 240)); lia.
Qed.

Lemma existsb_false_forall {A} (f : A -> bool) l :
  Forall (fun x => f x = false) l -> existsb f l = false.
Proof. induction 1; simpl; [done|]. by rewrite orb_false_iff. Qed.

(** A test that only ASCII characters can satisfy sees the same characters in
    the runes of a string as in its bytes. *)
Lemma runes_fuel_low (f : Z -> bool) fuel bs :
  (forall r, 128 <= r -> f r = false) ->
  (length bs <= fuel)%nat -> Forall (fun b => 0 <= b < 256) bs ->
  existsb f (runes_fuel fuel bs) = existsb f bs.
Proof.
  intros Hf. revert bs. induction fuel as [|fuel IH]; intros [|b bs] Hlen Hb; simpl in Hlen;
    [done|lia|done|].
  destruct (decide (b < 128)).
  - cbn [runes_fuel]. rewrite decode_rune_low by (inversion Hb; lia). simpl. rewrite drop_0.
    f_equal. apply IH; [lia|by inversion Hb].
  - destruct (decode_rune_high b bs) as (Hr & Hk & Hall); [lia|].
    cbn [runes_fuel]. destruct (decode_rune (b :: bs)) as [r k]; simpl in *.
    rewrite Hf by done. simpl.
    rewrite IH; [|rewrite length_drop; simpl; lia|by apply Forall_drop].
    transitivity (existsb f (take k (b :: bs) ++ drop k (b :: bs))).
    + rewrite existsb_app, (existsb_false_forall f (take k _)); [done|].
      eapply Forall_impl; [exact Hall|]. simpl. auto.
    + by rewrite take_drop.
Qed.

Lemma runes_low (f : Z -> bool) s :
  (forall r, 128 <= r -> f r = false) -> existsb f (runes s) = existsb f (bytes s).
Proof.
  intros Hf. apply runes_fuel_low; [done| |apply bytes_range]. by rewrite length_bytes.
Qed.

(** ** [strings] facts *)

Lemma substring_full s : String.substring 0 (String.length s) s = s.
Proof. induction s; simpl; congruence. Qed.

Lemma has_prefix_spec p s : has_prefix p s = true <-> exists t, s = p +:+ t.
Proof.
  unfold has_prefix. revert s. induction p as [|a p IH]; intros s.
  - split; [intros _; by exists s|by destruct s].
  - destruct s as [|b s]; cbn [String.prefix]; [split; [done|by intros (t & ?)]|].
    destruct (ascii_dec a b) as [->|Hne].
    + rewrite IH. split; intros [t Ht]; exists t; [by rewrite Ht|by injection Ht].
    + split; [done|]. intros (t & Ht). by injection Ht.
Qed.

Lemma text_app_assoc a b c : (a +:+ b) +:+ c = a +:+ (b +:+ c).
Proof. induction a as [|x a IH]; [done|]. change (String x ((a +:+ b) +:+ c) = String x (a +:+ (b +:+ c))). by rewrite IH. Qed.

Lemma string_length_app s t : String.length (s +:+ t) = (String.length s + String.length t)%nat.
Proof.
  induction s as [|a s IH]; [done|].
  change (String a s +:+ t) with (String a (s +:+ t)). cbn [String.length]. by rewrite IH.
Qed.

Lemma substring_app_drop p t :
  String.substring (String.length p) (String.length (p +:+ t) - String.length p) (p +:+ t) = t.
Proof.
  rewrite string_length_app. replace (_ + _ - _)%nat with (String.length t) by lia.
  induction p as [|a p IH]; [apply substring_full|].
  change (String a p +:+ t) with (String a (p +:+ t)). exact IH.
Qed.

Lemma substring_app_take p t : String.substring 0 (String.length p) (p +:+ t) = p.
Proof.
  induction p as [|a p IH]; [by destruct t|].
  change (String a p +:+ t) with (String a (p +:+ t)). cbn [String.length String.substring].
  by rewrite IH.
Qed.

Lemma substring_split n s :
  (n <= String.length s)%nat ->
  s = String.substring 0 n s +:+ String.substring n (String.length s - n) s.
Proof.
  revert n. induction s as [|a s IH]; intros [|n] Hn; cbn [String.length] in *;
    [done|lia| |].
  - exact (eq_sym (substring_full (String a s))).
  - cbn [String.substring Nat.sub].
    change (String a s = String a (String.substring 0 n s +:+ String.substring n (String.length s - n) s)).
    f_equal. apply IH. lia.
Qed.

Lemma has_suffix_spec suf s : has_suffix suf s = true <-> exists t, s = t +:+ suf.
Proof.
  unfold has_suffix. split.
  - intros H. prop_bools. apply Nat.leb_le in H.
    exists (String.substring 0 (String.length s - String.length suf) s).
    rewrite (substring_split (String.length s - String.length suf) s) at 1 by lia.
    f_equal. etransitivity; [|exact H0]. f_equal. lia.
  - intros [t ->]. apply andb_true_iff. split.
    + apply Nat.leb_le. rewrite string_length_app. lia.
    + apply String.eqb_eq. rewrite string_length_app.
      replace (_ + _ - _)%nat with (String.length t) by lia.
      pose proof (substring_app_drop t suf) as Hd. rewrite string_length_app in Hd.
      by replace (_ + _ - _)%nat with (String.length suf) in Hd by lia.
Qed.

Lemma string_forallb_spec f s :
  string_forallb f s = true <-> Forall (fun c => f c = true) (list_ascii_of_string s).
Proof.
  induction s as [|a s IH]; simpl; [by split|]. by rewrite Forall_cons, andb_true_iff, IH.
Qed.

Lemma contains_byte_spec c s : contains_byte c s = true <-> c ∈ list_ascii_of_string s.
Proof.
  induction s as [|a s IH]; simpl; [set_solver|].
  rewrite orb_true_iff, elem_of_cons, IH, Ascii.eqb_eq. naive_solver.
Qed.

Lemma split_on_nonempty c s : split_on c s <> [].
Proof. destruct s; simpl; [done|]. by repeat case_match. Qed.

(** Joining the parts with the separator gives the string back. *)
Lemma split_on_concat c s : String.concat (String c "") (split_on c s) = s.
Proof.
  induction s as [|a s IH]; [done|]. cbn [split_on].
  pose proof (split_on_nonempty c s). destruct (split_on c s) as [|p ps]; [done|].
  destruct (Ascii.eqb a c) eqn:E.
  - apply Ascii.eqb_eq in E as ->. simpl in *. by rewrite <- IH.
  - destruct ps; simpl in *; by rewrite <- IH.
Qed.

Lemma split_on_no_sep c s p : p ∈ split_on c s -> contains_byte c p = false.
Proof.
  revert p. induction s as [|a s IH]; simpl; intros p Hp.
  - by apply list_elem_of_singleton in Hp as ->.
  - destruct (Ascii.eqb a c) eqn:E.
    + apply elem_of_cons in Hp as [->|Hp]; auto.
    + pose proof (split_on_nonempty c s). destruct (split_on c s) as [|q qs]; [done|].
      apply elem_of_cons in Hp as [->|Hp]; simpl.
      * rewrite E. apply IH. left.
      * apply IH. by right.
Qed.

Lemma upper_ascii_range c : is_lower (upper_ascii c) = false.
Proof.
  unfold upper_ascii, is_lower, byte_between. pose proof (byte_of_range c).
  change (byte_of "a") with 97. change (byte_of "z") with 122.
  destruct ((97 <=? byte_of c) && (byte_of c <=? 122)) eqn:E; [|done].
  prop_bools. rewrite byte_of_ascii by lia. apply andb_false_iff. left. apply Z.leb_gt. lia.
Qed.

Lemma upper_ascii_idem c : upper_ascii (upper_ascii c) = upper_ascii c.
Proof. unfold upper_ascii at 1. by rewrite upper_ascii_range. Qed.

Lemma to_upper_idem s : to_upper (to_upper s) = to_upper s.
Proof. induction s; simpl; [done|]. by rewrite upper_ascii_idem, IHs. Qed.

Lemma to_upper_length s : String.length (to_upper s) = String.length s.
Proof. induction s; simpl; auto. Qed.

Lemma cut_spec c s b r :
  cut c s = (b, r, true) -> s = b +:+ String c r /\ contains_byte c b = false.
Proof.
  revert b. induction s as [|a s IH]; simpl; intros b H; [done|].
  destruct (Ascii.eqb a c) eqn:E.
  - apply Ascii.eqb_eq in E as ->. by simplify_eq.
  - destruct (cut c s) as [[b' r'] ok] eqn:Ec. simplify_eq.
    destruct (IH b' eq_refl) as [-> ?]. simpl. by rewrite E.
Qed.

(** A text without white space at its ends is what [TrimSpace] leaves of it. *)
Definition visible (c : ascii) : bool := (33 <=? byte_of c) && (byte_of c <=? 126).

Lemma trim_visible s : string_forallb visible s = true -> trim_space s = s.
Proof.
  intros H%string_forallb_spec. assert (Forall (fun b => 33 <= b <= 126) (bytes s)) as Hb.
  { unfold bytes. apply Forall_fmap. eapply Forall_impl; [exact H|]. cbn. unfold visible. intros c Hc. lia. }
  assert (forall b, 33 <= b <= 126 -> is_space b = false) as Hsp.
  { intros b Hr. unfold is_space, in_range. lia. }
  transitivity (string_of_bytes (bytes s)); [|apply string_of_bytes_of]. unfold trim_space. f_equal.
  assert (trim_left_fuel (String.length s) (bytes s) = bytes s) as ->.
  { destruct s as [|a s]; [done|]. cbn [String.length]. rewrite bytes_cons in *. apply Forall_inv in Hb. cbn [trim_left_fuel].
    rewrite decode_rune_low by lia. by rewrite Hsp. }
  destruct (bytes s) as [|b l] eqn:E; [done|]. cbn [length trim_right_fuel]. unfold decode_last_rune.
  destruct (last (b :: l)) as [c|] eqn:El; [|by apply last_None in El].
  apply last_Some_elem_of in El. rewrite Forall_forall in Hb. specialize (Hb _ El).
  rewrite (proj2 (Z.ltb_lt _ _)) by lia. by rewrite Hsp.
Qed.

#[export] Hint Resolve byte_of_range bytes_range : pm.
