(* ===== verification/Validate.v ===== *)
(** * [sdk/validate]: intent grammars for operator strings

    One definition per exported validator of [names.go], [structured.go] and
    [system.go].  A validator returns [Ok tt] for the Go [nil] and
    [Err reason] for an error wrapping [ErrInvalid]; the reason is the fixed
    part of the message.  The three validators that call [url.Parse]
    ([GPGKeyRef], [RepoBaseURL], [Deb822URIField]) are not modelled. *)

From Stdlib Require Import Ascii String ZArith Lia.
From S2P Require Export GoText.

(** ** validate.go *)

(** sdk/validate/validate.go:25-27 [invalidf] *)
Definition invalidf (reason : string) : result string unit := Err reason.

(** sdk/validate/validate.go:32-37 [matchGrammar]; the regular expression is
    the boolean test it denotes (all of them are anchored). *)
Definition matchGrammar (field : string) (re : string -> bool) (s : string) : result string unit :=
  if negb (re s) then invalidf (field +:+ " is malformed") else Ok tt.

(** sdk/validate/validate.go:43-50 [hasControlChar] *)
Definition hasControlChar (s : string) : bool :=
  existsb (fun r => (r <? 32) || (r =? 127)) (runes s).

(** sdk/validate/validate.go:56-63 [hasControlOrSpace] *)
Definition hasControlOrSpace (s : string) : bool :=
  existsb (fun r => (r <=? 32) || (r =? 127)) (runes s).

(** sdk/validate/validate.go:68-70 [startsWithDash] *)
Definition startsWithDash (s : string) : bool := has_prefix "-" s.

(** sdk/validate/validate.go:74-81 [containsDotDot] *)
Definition containsDotDot (s : string) : bool :=
  existsb (fun part => String.eqb part "..") (split_on "/" s).

(** ** names.go *)

Definition is_alnum (c : ascii) : bool := is_lower c || is_upper c || is_digit c.

(** A bracket class: alphanumerics and the listed punctuation. *)
Definition class_of (extra : string) (c : ascii) : bool := is_alnum c || contains_byte c extra.

(** [^[a-zA-Z0-9][class]{0,max}$]. *)
Definition head_tail_grammar (extra : string) (max : Z) (s : string) : bool :=
  match s with
  | EmptyString => false
  | String a t => is_alnum a && string_forallb (class_of extra) t && (len t <=? max)
  end.

(** sdk/validate/names.go:20-21 [rePackageName] *)
Definition rePackageName : string -> bool := head_tail_grammar "._+:/@~-" 255.

(** sdk/validate/names.go:22-23 [rePackageVersion] *)
Definition rePackageVersion : string -> bool := head_tail_grammar "._+:~^-" 127.

(** sdk/validate/names.go:24-25 [reRpmPackageName] *)
Definition reRpmPackageName : string -> bool := head_tail_grammar "._+-" 255.

(** sdk/validate/names.go:26-27 [reRepoName] *)
Definition reRepoName : string -> bool := head_tail_grammar "._-" 127.

(** sdk/validate/names.go:28-28 [reFlatpakRemoteName] *)
Definition reFlatpakRemoteName : string -> bool := head_tail_grammar "._-" 127.

Definition unit_suffixes : list string :=
  ["service"; "socket"; "device"; "mount"; "automount"; "swap"; "target"; "path"; "timer";
   "slice"; "scope"]%string.

(** sdk/validate/names.go:29-30 [reSystemdUnitName]: some split of the name
    into a body, a dot and a known suffix. *)
Definition reSystemdUnitName (s : string) : bool :=
  existsb (fun suf =>
    let body := String.substring 0 (String.length s - String.length ("." +:+ suf)) s in
    has_suffix ("." +:+ suf) s
    && match body with
       | EmptyString => false
       | String a t => is_alnum a && string_forallb (class_of ":_.@-") t
       end) unit_suffixes.

(** sdk/validate/names.go:33-34 [systemdUnitNameMax] *)
Definition systemdUnitNameMax : Z := 256.

(** sdk/validate/names.go:36-38 [crockfordBase32] *)
Definition crockfordBase32 : string := "0123456789ABCDEFGHJKMNPQRSTVWXYZ".

(** sdk/validate/names.go:40-41 [ulidLen] *)
Definition ulidLen : Z := 26.

(** sdk/validate/names.go:43-46 [PackageName] *)
Definition PackageName (name : string) : result string unit :=
  matchGrammar "package name" rePackageName name.

(** sdk/validate/names.go:48-55 [PackageVersion] *)
Definition PackageVersion (version : string) : result string unit :=
  if String.eqb version "" then Ok tt
  else matchGrammar "package version" rePackageVersion version.

(** sdk/validate/names.go:57-70 [LocalPackagePath] *)
Definition LocalPackagePath (path : string) : result string unit :=
  if String.eqb path "" then invalidf "local package path is empty"
  else if hasControlChar path then invalidf "local package path contains a control character"
  else if negb (has_prefix "/" path) || containsDotDot path
  then invalidf "local package path must be absolute and non-traversing"
  else Ok tt.

(** sdk/validate/names.go:72-83 [SearchQuery] *)
Definition SearchQuery (query : string) : result string unit :=
  if startsWithDash query then invalidf "search query is flag-shaped"
  else if hasControlChar query then invalidf "search query contains a control character"
  else Ok tt.

(** sdk/validate/names.go:85-88 [RpmPackageName] *)
Definition RpmPackageName (name : string) : result string unit :=
  matchGrammar "rpm package name" reRpmPackageName name.

(** sdk/validate/names.go:90-93 [RepoName] *)
Definition RepoName (name : string) : result string unit :=
  matchGrammar "repo name" reRepoName name.

(** sdk/validate/names.go:95-98 [FlatpakRemoteName] *)
Definition FlatpakRemoteName (name : string) : result string unit :=
  matchGrammar "flatpak remote name" reFlatpakRemoteName name.

(** sdk/validate/names.go:178-196 [Username] *)
Definition Username (name : string) : result string unit :=
  if (len name <? 1) || (32 <? len name) then invalidf "username must be 1-32 characters"
  else match name with
       | EmptyString => invalidf "username must be 1-32 characters"
       | String a _ =>
           if negb (is_lower a) then invalidf "username must start with a lowercase letter"
           else if negb (string_forallb
                  (fun c => is_lower c || is_digit c || Ascii.eqb c "_" || Ascii.eqb c "-") name)
           then invalidf "username contains an illegal character"
           else Ok tt
       end.

(** sdk/validate/names.go:198-213 [SystemdUnitName] *)
Definition SystemdUnitName (name : string) : result string unit :=
  if String.eqb name "" then invalidf "systemd unit name is empty"
  else if systemdUnitNameMax <? len name then invalidf "systemd unit name exceeds 256 characters"
  else if negb (reSystemdUnitName name)
  then invalidf "systemd unit name is malformed or has an unknown type suffix"
  else Ok tt.

(** sdk/validate/names.go:215-241 [ULIDPathID] *)
Definition ULIDPathID (id : string) : result string unit :=
  if negb (len id =? ulidLen) then invalidf "ULID must be 26 characters"
  else if negb (string_forallb (fun c => contains_byte (upper_ascii c) crockfordBase32) id)
  then invalidf "ULID contains a non-Crockford-base32 character"
  else match id with
       | String a _ =>
           if negb (byte_between "0" "7" a)
           then invalidf "ULID overflows 128 bits (first character exceeds 7)"
           else Ok tt
       | EmptyString => Ok tt
       end.

(** ** structured.go *)

(** sdk/validate/structured.go:22-27 [rejectControl] *)
Definition rejectControl (field v : string) : result string unit :=
  if hasControlChar v then invalidf (field +:+ " contains a control character") else Ok tt.

(** sdk/validate/structured.go:29-33 [SSHDConfigValue] *)
Definition SSHDConfigValue (v : string) : result string unit :=
  rejectControl "sshd_config value" v.

(** sdk/validate/structured.go:35-49 [SudoersValue] *)
Definition SudoersValue (v : string) : result string unit :=
  rejectControl "sudoers value" v ≫= fun _ =>
  if has_suffix "\" v then invalidf "sudoers value must not end with a line continuation"
  else Ok tt.

(** sdk/validate/structured.go:51-55 [AuthorizedKeysValue] *)
Definition AuthorizedKeysValue (v : string) : result string unit :=
  rejectControl "authorized_keys entry" v.

(** sdk/validate/structured.go:57-61 [NMConnectionValue] *)
Definition NMConnectionValue (v : string) : result string unit :=
  rejectControl "NetworkManager value" v.

(** sdk/validate/structured.go:63-75 [GECOSField] *)
Definition GECOSField (v : string) : result string unit :=
  if hasControlChar v then invalidf "GECOS field contains a control character"
  else if contains_byte ":" v then invalidf "GECOS field contains ':'"
  else Ok tt.

(** sdk/validate/structured.go:77-88 [GroupList] *)
Definition GroupList (v : string) : result string unit :=
  if hasControlChar v then invalidf "group name contains a control character"
  else if contains_byte ":" v || contains_byte "," v
  then invalidf "group name contains a separator"
  else Ok tt.

(** sdk/validate/structured.go:123-151 [Deb822Source] *)
Definition Deb822Source (distribution : string) (components : list string) : result string unit :=
  fail_if (hasControlOrSpace distribution)
    "deb822 Suites contains whitespace or a control character"%string ≫= fun _ =>
  check_each (fun c =>
    if String.eqb c "" then invalidf "deb822 Components contains an empty entry"
    else if hasControlOrSpace c
    then invalidf "deb822 Component contains whitespace or a control character"
    else Ok tt) components ≫= fun _ =>
  let flat := String.eqb distribution "" || has_suffix "/" distribution in
  if flat && (0 <? zlen components)
  then invalidf "deb822 flat repository must not declare Components"
  else if negb flat && (zlen components =? 0)
  then invalidf "deb822 suite requires at least one Component"
  else Ok tt.

(** sdk/validate/structured.go:153-169 [ToolErrorNamesFile] *)
Definition ToolErrorNamesFile (toolOutput writtenPath : string) : bool :=
  if String.eqb writtenPath "" then false else contains_sub writtenPath toolOutput.

(** ** system.go *)

(** sdk/validate/system.go:13-18 [reLUKSDevicePath] *)
Definition reLUKSDevicePath (s : string) : bool :=
  has_prefix "/dev/" s
  && match String.substring 5 (String.length s - 5) s with
     | EmptyString => false
     | String a t => string_forallb (class_of "/_.-") (String a t)
     end.

(** sdk/validate/system.go:20-21 [flatpakAppIDMax] *)
Definition flatpakAppIDMax : Z := 255.

(** sdk/validate/system.go:23-30 [LUKSDevicePath] *)
Definition LUKSDevicePath (path : string) : result string unit :=
  if negb (reLUKSDevicePath path) || containsDotDot path
  then invalidf "LUKS device path must be an absolute /dev/ path with no '..'"
  else Ok tt.

(** sdk/validate/system.go:56-73 [validFlatpakElement] *)
Definition validFlatpakElement (e : string) : bool :=
  match e with
  | EmptyString => false
  | String c t =>
      (is_upper c || is_lower c || Ascii.eqb c "_")
      && string_forallb (fun c => is_upper c || is_lower c || is_digit c
                                  || Ascii.eqb c "_" || Ascii.eqb c "-") t
  end.

(** sdk/validate/system.go:32-54 [FlatpakAppID] *)
Definition FlatpakAppID (id : string) : result string unit :=
  if (len id =? 0) || (flatpakAppIDMax <? len id)
  then invalidf "flatpak app ID must be 1-255 characters"
  else
    let elements := split_on "." id in
    if zlen elements <? 2 then invalidf "flatpak app ID must be reverse-DNS"
    else check_each (fun e =>
           if negb (validFlatpakElement e)
           then invalidf "flatpak app ID has a malformed element" else Ok tt) elements.

(** sdk/validate/system.go:75-92 [readLoginShells]; [None] is a file that
    cannot be read. *)
Definition readLoginShells (etc_shells : option string) : result string (list string) :=
  match etc_shells with
  | None => Err "open /etc/shells"%string
  | Some b =>
      Ok (filter (fun line => negb (String.eqb line "" || has_prefix "#" line))
            (trim_space <$> split_on "010" b))
  end.

(** sdk/validate/system.go:94-116 [LoginShell] *)
Definition LoginShell (etc_shells : option string) (shell : string) : result string unit :=
  if negb (has_prefix "/" shell) then invalidf "login shell must be an absolute path"
  else if hasControlChar shell then invalidf "login shell contains a control character"
  else match readLoginShells etc_shells with
       | Err _ => invalidf "cannot verify login shell against /etc/shells"
       | Ok shells =>
           if existsb (String.eqb shell) shells then Ok tt
           else invalidf "login shell is not listed in /etc/shells"
       end.

(** ** Specifications *)

(** What a client may rely on for a grammar whose values reach an argument
    vector: an accepted value is never read as an option and carries no control
    character. *)
Class ArgvSafe (g : string -> result string unit) : Prop :=
  argv_safe : forall s, g s = Ok tt -> startsWithDash s = false /\ hasControlChar s = false.

(** The validators whose values become an operand. *)
Definition argv_grammars : list (string -> result string unit) :=
  [PackageName; PackageVersion; LocalPackagePath; SearchQuery; RpmPackageName; RepoName;
   FlatpakRemoteName; Username; SystemdUnitName; LUKSDevicePath; FlatpakAppID].

(** The validators of a value written into a line-oriented file. *)
Definition line_validators : list (string -> result string unit) :=
  [SSHDConfigValue; SudoersValue; AuthorizedKeysValue; NMConnectionValue; GECOSField; GroupList].

(** The number a ULID encodes: base 32, most significant symbol first. *)
Fixpoint index_of (c : ascii) (s : string) : Z :=
  match s with
  | EmptyString => 0
  | String a s' => if Ascii.eqb a c then 0 else 1 + index_of c s'
  end.

Definition crockford_digit (c : ascii) : Z := index_of (upper_ascii c) crockfordBase32.

Definition ulid_value (id : string) : Z :=
  foldl (fun acc c => acc * 32 + crockford_digit c) 0 (list_ascii_of_string id).

Definition is_crockford (c : ascii) : bool := contains_byte (upper_ascii c) crockfordBase32.

(** The characters of a flatpak ID element. *)
Definition flatpak_char (c : ascii) : bool :=
  is_upper c || is_lower c || is_digit c || Ascii.eqb c "_" || Ascii.eqb c "-".

(** ** Character classes *)


Definition graphic (c : ascii) : bool := (33 <=? byte_of c) && (byte_of c <=? 126).

Ltac all_chars := let c := fresh in intros c; destruct c as [[] [] [] [] [] [] [] []]; by vm_compute.

Lemma alnum_graphic : forall c, implb (is_alnum c) (graphic c && negb (Ascii.eqb c "-")) = true.
Proof. all_chars. Qed.

Lemma alnum_not_dash a : is_alnum a = true -> graphic a = true /\ a <> "-"%char.
Proof.
  intros H. pose proof (alnum_graphic a) as Hi. rewrite H in Hi. simpl in Hi. prop_bools.
  split; [done|]. by apply Ascii.eqb_neq.
Qed.

Lemma class_graphic extra c :
  string_forallb graphic extra = true -> class_of extra c = true -> graphic c = true.
Proof.
  intros He Hc. unfold class_of in Hc. apply orb_true_iff in Hc as [Hc|Hc].
  - by apply alnum_not_dash.
  - apply contains_byte_spec in Hc. apply string_forallb_spec in He.
    rewrite Forall_forall in He. auto.
Qed.

Lemma hasControlChar_bytes s :
  hasControlChar s = existsb (fun r => (r <? 32) || (r =? 127)) (bytes s).
Proof.
  apply runes_low. intros r Hr. apply orb_false_iff. split; [apply Z.ltb_ge|apply Z.eqb_neq]; lia.
Qed.

Lemma hasControlOrSpace_bytes s :
  hasControlOrSpace s = existsb (fun r => (r <=? 32) || (r =? 127)) (bytes s).
Proof.
  apply runes_low. intros r Hr. apply orb_false_iff. split; [apply Z.leb_gt|apply Z.eqb_neq]; lia.
Qed.

(** A control character is found wherever it stands, whatever surrounds it. *)
Lemma hasControlChar_false s :
  hasControlChar s = false <-> Forall (fun c => 32 <= byte_of c /\ byte_of c <> 127) (list_ascii_of_string s).
Proof.
  rewrite hasControlChar_bytes. unfold bytes.
  induction (list_ascii_of_string s) as [|a l IH]; simpl; [by split|].
  rewrite !orb_false_iff, IH, Forall_cons, Z.ltb_ge, Z.eqb_neq. done.
Qed.

Lemma graphic_no_control s : string_forallb graphic s = true -> hasControlChar s = false.
Proof.
  rewrite hasControlChar_false, string_forallb_spec. intros H.
  eapply Forall_impl; [exact H|]. unfold graphic. intros c Hc. simpl in Hc. prop_bools. lia.
Qed.

Lemma string_forallb_impl (f g : ascii -> bool) s :
  (forall c, f c = true -> g c = true) -> string_forallb f s = true -> string_forallb g s = true.
Proof. rewrite !string_forallb_spec. intros Hfg H. eapply Forall_impl; eauto. Qed.

Lemma no_control_byte c s :
  byte_of c < 32 -> hasControlChar s = false -> contains_byte c s = false.
Proof.
  rewrite hasControlChar_false, Forall_forall. intros Hc Hs.
  destruct (contains_byte c s) eqn:E; [|done].
  apply contains_byte_spec, Hs in E. lia.
Qed.

Lemma dash_head a s : startsWithDash (String a s) = Ascii.eqb "-" a.
Proof.
  unfold startsWithDash, has_prefix. cbn [String.prefix].
  destruct (ascii_dec "-" a) as [<-|Hne]; [by destruct s|].
  symmetry. by apply Ascii.eqb_neq.
Qed.

Lemma graphic_head_safe a s :
  graphic a = true -> a <> "-"%char -> string_forallb graphic s = true ->
  startsWithDash (String a s) = false /\ hasControlChar (String a s) = false.
Proof.
  intros Ha Hd Hs. split.
  - rewrite dash_head. apply Ascii.eqb_neq. congruence.
  - apply graphic_no_control. simpl. by rewrite Ha, Hs.
Qed.

(** ** Instances of the operand contract *)

Lemma head_tail_grammar_safe extra max s :
  string_forallb graphic extra = true -> head_tail_grammar extra max s = true ->
  startsWithDash s = false /\ hasControlChar s = false.
Proof.
  intros He H. destruct s as [|a t]; [done|]. simpl in H. prop_bools.
  destruct (alnum_not_dash a) as [? ?]; [done|]. apply graphic_head_safe; [done|done|].
  eapply string_forallb_impl; [|eassumption]. intros c. by apply class_graphic.
Qed.

Lemma matchGrammar_ok f re s : matchGrammar f re s = Ok tt <-> re s = true.
Proof. unfold matchGrammar, invalidf. by destruct (re s). Qed.

Ltac grammar_instance := intros s H; apply matchGrammar_ok in H; by eapply head_tail_grammar_safe in H.

#[export] Instance PackageName_safe : ArgvSafe PackageName.
Proof. grammar_instance. Qed.
#[export] Instance RpmPackageName_safe : ArgvSafe RpmPackageName.
Proof. grammar_instance. Qed.
#[export] Instance RepoName_safe : ArgvSafe RepoName.
Proof. grammar_instance. Qed.
#[export] Instance FlatpakRemoteName_safe : ArgvSafe FlatpakRemoteName.
Proof. grammar_instance. Qed.

#[export] Instance PackageVersion_safe : ArgvSafe PackageVersion.
Proof.
  intros s. unfold PackageVersion. destruct (String.eqb s "") eqn:E.
  - apply String.eqb_eq in E as ->. by vm_compute.
  - intros H. apply matchGrammar_ok in H. by eapply head_tail_grammar_safe in H.
Qed.

#[export] Instance SearchQuery_safe : ArgvSafe SearchQuery.
Proof. intros s. unfold SearchQuery. by destruct (startsWithDash s), (hasControlChar s). Qed.

#[export] Instance LocalPackagePath_safe : ArgvSafe LocalPackagePath.
Proof.
  intros s. unfold LocalPackagePath, invalidf. destruct s as [|a s]; [done|].
  rewrite dash_head. cbn [String.eqb].
  destruct (hasControlChar (String a s)); [done|]. unfold has_prefix. cbn [String.prefix].
  destruct (ascii_dec "/" a) as [<-|]; [|done]. by split.
Qed.

Lemma reLUKSDevicePath_shape s :
  reLUKSDevicePath s = true ->
  exists t, s = ("/dev/" +:+ t)%string /\ string_forallb (class_of "/_.-") t = true.
Proof.
  unfold reLUKSDevicePath. intros H. prop_bools. apply has_prefix_spec in H as [t ->].
  exists t. split; [done|]. revert H0.
  change 5%nat with (String.length "/dev/"). rewrite substring_app_drop. by destruct t.
Qed.

#[export] Instance LUKSDevicePath_safe : ArgvSafe LUKSDevicePath.
Proof.
  intros s. unfold LUKSDevicePath, invalidf.
  destruct (reLUKSDevicePath s) eqn:Hre; [intros _|done].
  apply reLUKSDevicePath_shape in Hre as (t & -> & Ht).
  apply graphic_head_safe; [done|done|]. cbn.
  eapply string_forallb_impl; [|exact Ht]. intros c. by apply class_graphic.
Qed.

#[export] Instance Username_safe : ArgvSafe Username.
Proof.
  intros s. unfold Username, invalidf. destruct (_ || _); [done|].
  destruct s as [|a s]; [done|].
  destruct (is_lower a) eqn:Ha; [|done].
  destruct (string_forallb _ (String a s)) eqn:E; [|done]. intros _. split.
  - rewrite dash_head. apply Ascii.eqb_neq. intros <-. by vm_compute in Ha.
  - apply graphic_no_control. eapply string_forallb_impl; [|exact E].
    clear. intros c H. assert (implb (is_lower c || is_digit c || Ascii.eqb c "_" || Ascii.eqb c "-")
      (graphic c) = true) as Hi by (revert c H; all_chars). by rewrite H in Hi.
Qed.

Lemma list_ascii_app s t :
  list_ascii_of_string (s +:+ t) = list_ascii_of_string s ++ list_ascii_of_string t.
Proof. induction s as [|a s IH]; [done|]. change (String a s +:+ t) with (String a (s +:+ t)). simpl. by f_equal. Qed.

Lemma string_forallb_app f s t :
  string_forallb f (s +:+ t) = string_forallb f s && string_forallb f t.
Proof.
  induction s as [|a s IH]; [done|]. change (String a s +:+ t) with (String a (s +:+ t)).
  simpl. by rewrite IH, andb_assoc.
Qed.

#[export] Instance SystemdUnitName_safe : ArgvSafe SystemdUnitName.
Proof.
  intros s. unfold SystemdUnitName, invalidf. destruct (String.eqb s ""); [done|].
  destruct (_ <? _); [done|]. destruct (reSystemdUnitName s) eqn:E; [intros _|done].
  unfold reSystemdUnitName in E. apply existsb_exists in E as (suf & Hin & E). prop_bools.
  apply has_suffix_spec in H as [t ->]. revert H0. rewrite string_length_app.
  replace (_ + _ - _)%nat with (String.length t) by lia. rewrite substring_app_take.
  destruct t as [|a t]; [done|]. intros H. prop_bools.
  destruct (alnum_not_dash a) as [Hg Hd]; [done|].
  apply (graphic_head_safe a (t +:+ ("." +:+ suf))); [done|done|].
  rewrite string_forallb_app. apply andb_true_iff. split.
  - eapply string_forallb_impl; [|eassumption]. intros c. by apply class_graphic.
  - assert (Forall (fun x => string_forallb graphic ("." +:+ x) = true) unit_suffixes) as Hall
      by (repeat constructor).
    rewrite Forall_forall in Hall. apply Hall. by apply list_elem_of_In.
Qed.

Lemma string_forallb_concat f sep l :
  f sep = true -> Forall (fun p => string_forallb f p = true) l ->
  string_forallb f (String.concat (String sep "") l) = true.
Proof.
  intros Hsep. induction 1 as [|p l Hp Hl IH]; [done|]. destruct l as [|q l]; [done|].
  change (string_forallb f (p +:+ (String sep "" +:+ String.concat (String sep "") (q :: l))) = true).
  rewrite !string_forallb_app, Hp, IH. cbn. by rewrite Hsep.
Qed.

Lemma flatpak_element_chars e : validFlatpakElement e = true -> string_forallb flatpak_char e = true.
Proof.
  destruct e as [|c t]; [done|]. cbn. intros H. prop_bools. apply andb_true_iff. split; [|done].
  unfold flatpak_char. apply orb_true_iff in H as [H|H]; by rewrite H, ?orb_true_r.
Qed.

Lemma FlatpakAppID_chars id :
  FlatpakAppID id = Ok tt ->
  string_forallb (fun c => flatpak_char c || Ascii.eqb c ".") id = true.
Proof.
  unfold FlatpakAppID, invalidf. destruct (_ || _); [done|]. destruct (_ <? _); [done|].
  rewrite check_each_ok. intros H. rewrite <- (split_on_concat "." id).
  apply string_forallb_concat; [done|]. eapply Forall_impl; [exact H|]. simpl. intros e He.
  destruct (validFlatpakElement e) eqn:E; [|done].
  eapply string_forallb_impl; [|by apply flatpak_element_chars]. intros c ->. done.
Qed.

#[export] Instance FlatpakAppID_safe : ArgvSafe FlatpakAppID.
Proof.
  intros s Hs. pose proof (FlatpakAppID_chars s Hs) as Hc. split.
  - destruct s as [|a s]; [done|]. rewrite dash_head. apply Ascii.eqb_neq. intros <-.
    unfold FlatpakAppID, invalidf in Hs. destruct (_ || _); [done|]. destruct (_ <? _); [done|].
    rewrite check_each_ok in Hs. cbn [split_on Ascii.eqb] in Hs.
    change (Ascii.eqb "-" ".") with false in Hs. cbn iota in Hs.
    destruct (split_on "." s) as [|p ps]; by inversion Hs.
  - apply graphic_no_control. eapply string_forallb_impl; [|exact Hc].
    clear. intros c H. assert (implb (flatpak_char c || Ascii.eqb c ".") (graphic c) = true) as Hi
      by (revert c H; all_chars). by rewrite H in Hi.
Qed.

(** ** ULIDs *)

Lemma crockford_digit_range c : 0 <= crockford_digit c.
Proof.
  unfold crockford_digit. generalize crockfordBase32 (upper_ascii c). clear.
  intros s a. induction s as [|b s IH]; simpl; [done|]. destruct (Ascii.eqb b a); lia.
Qed.

Lemma crockford_digit_facts :
  forall c, implb (is_crockford c)
              ((crockford_digit c <? 32)
               && Bool.eqb (byte_between "0" "7" c) (crockford_digit c <? 8)) = true.
Proof. all_chars. Qed.

Lemma is_crockford_digit c :
  is_crockford c = true ->
  0 <= crockford_digit c < 32 /\ (byte_between "0" "7" c = true <-> crockford_digit c < 8).
Proof.
  intros H. pose proof (crockford_digit_facts c) as Hf. rewrite H in Hf. simpl in Hf. prop_bools.
  apply eqb_prop in H1. pose proof (crockford_digit_range c).
  split; [lia|]. rewrite H1. apply Z.ltb_lt.
Qed.

Lemma ulid_fold_bounds l acc :
  Forall (fun c => is_crockford c = true) l ->
  acc * 32 ^ Z.of_nat (length l)
  <= foldl (fun acc c => acc * 32 + crockford_digit c) acc l
  < (acc + 1) * 32 ^ Z.of_nat (length l).
Proof.
  intros H. revert acc. induction H as [|c l Hc Hl IH]; intros acc; cbn [foldl length]; [lia|].
  apply is_crockford_digit in Hc as [Hc _].
  specialize (IH (acc * 32 + crockford_digit c)).
  rewrite Nat2Z.inj_succ, Z.pow_succ_r by lia.
  assert (0 < 32 ^ Z.of_nat (length l)) by (apply Z.pow_pos_nonneg; lia). nia.
Qed.

Lemma ulid_head_bound a s :
  String.length s = 25%nat -> is_crockford a = true -> string_forallb is_crockford s = true ->
  ulid_value (String a s) < 2 ^ 128 <-> crockford_digit a < 8.
Proof.
  intros Hl Ha Hs%string_forallb_spec. unfold ulid_value. cbn [list_ascii_of_string foldl].
  rewrite Z.mul_0_l, Z.add_0_l.
  pose proof (ulid_fold_bounds (list_ascii_of_string s) (crockford_digit a) Hs) as Hb.
  assert (length (list_ascii_of_string s) = 25%nat) as Hlen.
  { rewrite <- Hl. clear. by induction s; simpl; f_equal. }
  rewrite Hlen in Hb. change (32 ^ Z.of_nat 25) with 42535295865117307932921825928971026432 in Hb.
  change (2 ^ 128) with (8 * 42535295865117307932921825928971026432). lia.
Qed.

(** [ULIDPathID] accepts exactly the 26-symbol Crockford base-32 strings
    (either case) whose value fits in 128 bits: the first-symbol test of the
    code is the exact overflow test. *)
Theorem ULIDPathID_correct id :
  ULIDPathID id = Ok tt <->
  len id = 26 /\ string_forallb is_crockford id = true /\ ulid_value id < 2 ^ 128.
Proof.
  unfold ULIDPathID, invalidf, ulidLen. fold is_crockford.
  change (fun c : ascii => contains_byte (upper_ascii c) crockfordBase32) with is_crockford.
  destruct (len id =? 26) eqn:El; prop_bools; [|naive_solver]. simpl.
  destruct (string_forallb is_crockford id) eqn:Ec; [|naive_solver]. simpl.
  destruct id as [|a s]; [done|]. cbn [string_forallb] in Ec. prop_bools.
  pose proof (is_crockford_digit a) as [_ Hd]; [done|].
  rewrite (ulid_head_bound a s) by (done || (unfold len in El; cbn [String.length] in El; lia)).
  rewrite <- Hd. destruct (byte_between "0" "7" a); naive_solver.
Qed.

Lemma ULIDPathID_upper v : ULIDPathID v = Ok tt -> ULIDPathID (to_upper v) = Ok tt.
Proof.
  assert (forall a, implb (byte_between "0" "7" a) (byte_between "0" "7" (upper_ascii a)) = true) as Hhead
    by all_chars.
  unfold ULIDPathID, len. rewrite to_upper_length.
  destruct (negb _); [done|].
  assert (string_forallb (fun c => contains_byte (upper_ascii c) crockfordBase32) (to_upper v)
    = string_forallb (fun c => contains_byte (upper_ascii c) crockfordBase32) v) as ->.
  { clear. generalize crockfordBase32. intros k. induction v as [|a v IH]; [done|].
    cbn [to_upper string_forallb]. by rewrite upper_ascii_idem, IH. }
  destruct (negb _); [done|]. destruct v as [|a v]; [done|]. cbn [to_upper].
  specialize (Hhead a). by destruct (byte_between "0" "7" a); simpl in Hhead; rewrite ?Hhead.
Qed.

(** ** One value, one record *)

Lemma split_on_app_no_sep c v r :
  contains_byte c v = false -> split_on c (v +:+ String c r) = v :: split_on c r.
Proof.
  induction v as [|a v IH]; intros H.
  - change ((if Ascii.eqb c c then ""%string :: split_on c r
             else match split_on c r with [] => [String c ""] | p :: ps => String c p :: ps end)
            = ""%string :: split_on c r). by rewrite Ascii.eqb_refl.
  - change (String a v +:+ String c r) with (String a (v +:+ String c r)).
    cbn [contains_byte] in H. prop_bools. cbn [split_on]. by rewrite H, IH.
Qed.

Lemma line_validator_no_control g v :
  g ∈ line_validators -> g v = Ok tt -> hasControlChar v = false.
Proof.
  unfold line_validators. rewrite !elem_of_cons, elem_of_nil.
  intros [->|[->|[->|[->|[->|[->|[]]]]]]];
    unfold SSHDConfigValue, SudoersValue, AuthorizedKeysValue, NMConnectionValue, GECOSField,
      GroupList, rejectControl, invalidf; by destruct (hasControlChar v).
Qed.

(** A value accepted by one of the structured-file validators is exactly
    one record of the file it is rendered into: cutting the written text at
    newlines gives the value back as one line, whatever follows it; a sudoers
    value cannot splice the next line, and a GECOS or group field ends at the
    separator its writer put after it. *)
Theorem structured_value_one_record g v rest :
  g ∈ line_validators -> g v = Ok tt ->
  split_on "010" (v +:+ String "010" rest) = v :: split_on "010" rest
  /\ contains_byte "013" v = false /\ contains_byte "000" v = false
  /\ (SudoersValue v = Ok tt -> has_suffix "\" v = false)
  /\ (GECOSField v = Ok tt -> split_on ":" (v +:+ String ":" rest) = v :: split_on ":" rest)
  /\ (GroupList v = Ok tt -> split_on "," (v +:+ String "," rest) = v :: split_on "," rest).
Proof.
  intros Hg Hv. pose proof (line_validator_no_control g v Hg Hv) as Hc.
  split_and!.
  1: apply split_on_app_no_sep.
  1-3: by apply no_control_byte.
  - unfold SudoersValue, rejectControl. rewrite Hc. simpl. by destruct (has_suffix "\" v).
  - unfold GECOSField. rewrite Hc. intros H. apply split_on_app_no_sep.
    by destruct (contains_byte ":" v).
  - unfold GroupList. rewrite Hc. intros H. apply split_on_app_no_sep.
    destruct (contains_byte ":" v), (contains_byte "," v); done.
Qed.

Lemma structured_value_one_record_witness :
  split_on "010" ("AllowUsers alice bob" +:+ String "010" "PermitRootLogin no")
    = ["AllowUsers alice bob"; "PermitRootLogin no"]%string
  /\ SSHDConfigValue ("x" +:+ String "010" "PermitRootLogin yes") <> Ok tt.
Proof.
  split; [|by vm_compute].
  refine (proj1 (structured_value_one_record SSHDConfigValue "AllowUsers alice bob"
    "PermitRootLogin no" _ _)); [left|vm_compute; reflexivity].
Defined.

(** No accepted operand reaches an argument vector as an option or with a
    control character in it, for each of the eleven operand grammars. *)
Theorem operand_grammars_argv_safe g s :
  g ∈ argv_grammars -> g s = Ok tt -> startsWithDash s = false /\ hasControlChar s = false.
Proof.
  unfold argv_grammars. rewrite !elem_of_cons, elem_of_nil.
  intros Hg Hs. repeat (destruct Hg as [->|Hg]; [exact (argv_safe _ Hs)|]). done.
Qed.

Lemma operand_grammars_argv_safe_witness :
  startsWithDash "org.gimp.GIMP" = false /\ FlatpakAppID "--from" <> Ok tt.
Proof.
  split; [|by vm_compute].
  refine (proj1 (operand_grammars_argv_safe FlatpakAppID "org.gimp.GIMP" _ _));
    [|vm_compute; reflexivity].
  unfold argv_grammars. do 10 right. left.
Defined.

(** A deb822 stanza is accepted exactly when suite and components agree. *)
Lemma Deb822Source_correct distribution components :
  Deb822Source distribution components = Ok tt <->
  hasControlOrSpace distribution = false
  /\ Forall (fun c => c <> ""%string /\ hasControlOrSpace c = false) components
  /\ (components = [] <-> (distribution = "" \/ has_suffix "/" distribution = true)).
Proof.
  unfold Deb822Source, invalidf. rewrite bind_ok. setoid_rewrite bind_ok.
  setoid_rewrite fail_if_ok.
  assert (Forall (fun c => (if String.eqb c "" then Err "deb822 Components contains an empty entry"%string
      else if hasControlOrSpace c then Err "deb822 Component contains whitespace or a control character"%string
      else Ok tt) = Ok tt) components
    <-> Forall (fun c => c <> ""%string /\ hasControlOrSpace c = false) components) as Hc.
  { apply Forall_iff. intros c. destruct (String.eqb c "") eqn:E; prop_bools; [naive_solver|].
    destruct (hasControlOrSpace c); naive_solver. }
  rewrite <- Hc. clear Hc. rewrite <- check_each_ok.
  assert ((distribution = "" \/ has_suffix "/" distribution = true)
    <-> String.eqb distribution "" || has_suffix "/" distribution = true) as Hf
    by (rewrite orb_true_iff, String.eqb_eq; done).
  rewrite Hf. destruct (String.eqb distribution "" || has_suffix "/" distribution);
    destruct components as [|c cs]; simpl; split.
  all: try (intros (? & ? & [] & ? & ?); naive_solver).
  all: intros (? & ? & ?); try naive_solver.
Qed.
