(* ===== verification/Ulid.v ===== *)
(** * [sdk/ulidx]: minting ULIDs

    The 48-bit millisecond timestamp and ten entropy bytes, written in
    Crockford base 32.  The theorems: a minted ID satisfies the path grammar of
    [sdk/validate], decodes back to its 16 bytes, and sorts by time as text. *)

From Stdlib Require Import Ascii String ZArith Lia.
From S2P Require Export Validate.

(** sdk/ulidx/ulidx.go:12-15 [encodedLength, maxTimestampMS] *)
Definition encodedLength : Z := 26.
Definition maxTimestampMS : Z := Z.shiftl 1 48 - 1.

(** sdk/ulidx/ulidx.go:17-17 [alphabet] *)
Definition alphabet : string := "0123456789ABCDEFGHJKMNPQRSTVWXYZ".

(** [alphabet[value]] *)
Definition alphabet_at (value : Z) : ascii :=
  default "0"%char (String.get (Z.to_nat value) alphabet).

(** [(raw[bit/8] >> (7 - bit%8)) & 1] *)
Definition raw_bit (raw : list Z) (bit : Z) : Z :=
  Z.land (Z.shiftr (raw !!! Z.to_nat (bit / 8)) (7 - bit mod 8)) 1.

(** The inner loop of [encode]: one five-bit symbol. *)
Definition encode_symbol (raw : list Z) (output : Z) : Z :=
  foldl (fun value offset =>
    let value := wrap_u 8 (Z.shiftl value 1) in
    let bit := output * 5 + offset - 2 in
    if (0 <=? bit) && (bit <? zlen raw * 8) then Z.lor value (raw_bit raw bit) else value)
    0 [0; 1; 2; 3; 4].

(** sdk/ulidx/ulidx.go:47-61 [encode] *)
Definition encode (raw : list Z) : string :=
  string_of_list_ascii
    ((fun output => alphabet_at (encode_symbol raw output)) <$> seqZ 0 encodedLength).

(** The loop [raw[index] = byte(value); value >>= 8] from the last byte of the
    timestamp to the first. *)
Fixpoint put_big_endian (n : nat) (value : Z) : list Z :=
  match n with
  | O => []
  | S n' => put_big_endian n' (Z.shiftr value 8) ++ [wrap_u 8 value]
  end.

(** sdk/ulidx/ulidx.go:26-45 [NewWithReader]; an [io.Reader] is the bytes it
    still has ([None] for a nil reader), [io.ReadFull] takes exactly ten of
    them or fails. *)
Definition NewWithReader (now : time) (entropy : option (list Z)) : result string (string * list Z) :=
  match entropy with
  | None => Err "ulidx: entropy source is nil"%string
  | Some source =>
      let timestamp := time_unix_milli now in
      if (timestamp <? 0) || (maxTimestampMS <? timestamp)
      then Err "ulidx: time is outside the 48-bit timestamp range"%string
      else if (length source <? 10)%nat then Err "ulidx: read entropy"%string
      else Ok (encode (put_big_endian 6 (wrap_u 64 timestamp) ++ take 10 source), drop 10 source)
  end.

(** ** Specification: the big-endian value of a byte array *)

Definition be_value (raw : list Z) : Z := foldl (fun acc b => acc * 256 + b) 0 raw.

Definition is_byte (b : Z) : Prop := 0 <= b < 256.

Definition canonical_ulid (id : string) : Prop :=
  ULIDPathID id = Ok tt /\ to_upper id = id.

(** ** Symbols *)

(** A fact about every integer of a small range, checked by running it. *)
Lemma forallb_seqZ (f : Z -> bool) n v :
  forallb f (seqZ 0 n) = true -> 0 <= v < n -> f v = true.
Proof. rewrite forallb_forall. intros H Hv. apply H, list_elem_of_In, elem_of_seqZ. lia. Qed.

Lemma alphabet_at_digit v :
  0 <= v < 32 ->
  crockford_digit (alphabet_at v) = v /\ is_crockford (alphabet_at v) = true
  /\ upper_ascii (alphabet_at v) = alphabet_at v.
Proof.
  intros Hv.
  assert ((crockford_digit (alphabet_at v) =? v) && is_crockford (alphabet_at v)
    && Ascii.eqb (upper_ascii (alphabet_at v)) (alphabet_at v) = true) as H
    by (revert Hv; apply (forallb_seqZ (fun v => (crockford_digit (alphabet_at v) =? v)
      && is_crockford (alphabet_at v)
      && Ascii.eqb (upper_ascii (alphabet_at v)) (alphabet_at v))); by vm_compute).
  prop_bools. split_and!; [done|done|by apply Ascii.eqb_eq].
Qed.

Lemma raw_bit_range raw bit : 0 <= raw_bit raw bit <= 1.
Proof.
  unfold raw_bit. rewrite (Z.land_ones _ 1) by lia.
  pose proof (Z.mod_pos_bound (Z.shiftr (raw !!! Z.to_nat (bit / 8)) (7 - bit mod 8)) (2 ^ 1)). lia.
Qed.

(** A bit that may fall before the first byte of the array. *)
Definition padded_bit (raw : list Z) (bit : Z) : Z :=
  if (0 <=? bit) && (bit <? zlen raw * 8) then raw_bit raw bit else 0.

Lemma shift_in v b : 0 <= v < 16 -> 0 <= b <= 1 -> Z.lor (wrap_u 8 (Z.shiftl v 1)) b = 2 * v + b.
Proof.
  intros Hv Hb.
  assert ((Z.lor (wrap_u 8 (Z.shiftl v 1)) 0 =? 2 * v)
    && (Z.lor (wrap_u 8 (Z.shiftl v 1)) 1 =? 2 * v + 1) = true) as H
    by (revert Hv; apply (forallb_seqZ (fun v => (Z.lor (wrap_u 8 (Z.shiftl v 1)) 0 =? 2 * v)
      && (Z.lor (wrap_u 8 (Z.shiftl v 1)) 1 =? 2 * v + 1))); by vm_compute).
  prop_bools. destruct (decide (b = 0)) as [->|]; [lia|]. replace b with 1 by lia. lia.
Qed.

Lemma padded_bit_range raw bit : 0 <= padded_bit raw bit <= 1.
Proof. unfold padded_bit. case_match; [apply raw_bit_range|lia]. Qed.

(** One turn of the inner loop appends one bit. *)
Lemma symbol_step raw output v offset :
  0 <= v < 16 ->
  (let value := wrap_u 8 (Z.shiftl v 1) in
   let bit := output * 5 + offset - 2 in
   if (0 <=? bit) && (bit <? zlen raw * 8) then Z.lor value (raw_bit raw bit) else value)
  = 2 * v + padded_bit raw (output * 5 + offset - 2).
Proof.
  intros Hv. cbv zeta. unfold padded_bit. case_match.
  - apply shift_in; [done|apply raw_bit_range].
  - pose proof (shift_in v 0 Hv ltac:(lia)) as H0. by rewrite Z.lor_0_r in H0.
Qed.

Lemma symbol_fold raw output v offset l :
  0 <= v < 16 ->
  foldl (fun value offset =>
    let value := wrap_u 8 (Z.shiftl value 1) in
    let bit := output * 5 + offset - 2 in
    if (0 <=? bit) && (bit <? zlen raw * 8) then Z.lor value (raw_bit raw bit) else value)
    v (offset :: l)
  = foldl (fun value offset =>
    let value := wrap_u 8 (Z.shiftl value 1) in
    let bit := output * 5 + offset - 2 in
    if (0 <=? bit) && (bit <? zlen raw * 8) then Z.lor value (raw_bit raw bit) else value)
    (2 * v + padded_bit raw (output * 5 + offset - 2)) l.
Proof. intros Hv. cbn [foldl]. by rewrite symbol_step. Qed.

Lemma encode_symbol_bits raw output :
  encode_symbol raw output
  = 16 * padded_bit raw (output * 5 - 2) + 8 * padded_bit raw (output * 5 - 1)
    + 4 * padded_bit raw (output * 5) + 2 * padded_bit raw (output * 5 + 1)
    + padded_bit raw (output * 5 + 2).
Proof.
  unfold encode_symbol.
  pose proof (padded_bit_range raw (output * 5 + 0 - 2)).
  pose proof (padded_bit_range raw (output * 5 + 1 - 2)).
  pose proof (padded_bit_range raw (output * 5 + 2 - 2)).
  pose proof (padded_bit_range raw (output * 5 + 3 - 2)).
  do 5 (rewrite symbol_fold by lia). cbn [foldl].
  replace (output * 5 + 0 - 2) with (output * 5 - 2) by lia.
  replace (output * 5 + 1 - 2) with (output * 5 - 1) by lia.
  replace (output * 5 + 2 - 2) with (output * 5) by lia.
  replace (output * 5 + 3 - 2) with (output * 5 + 1) by lia.
  replace (output * 5 + 4 - 2) with (output * 5 + 2) by lia. lia.
Qed.

Lemma encode_symbol_range raw output : 0 <= encode_symbol raw output < 32.
Proof.
  rewrite encode_symbol_bits.
  pose proof (padded_bit_range raw (output * 5 - 2)).
  pose proof (padded_bit_range raw (output * 5 - 1)).
  pose proof (padded_bit_range raw (output * 5)).
  pose proof (padded_bit_range raw (output * 5 + 1)).
  pose proof (padded_bit_range raw (output * 5 + 2)). lia.
Qed.

(** ** Encoding is faithful *)

Lemma length_encode raw : String.length (encode raw) = 26%nat.
Proof. reflexivity. Qed.

Lemma list_ascii_encode raw :
  list_ascii_of_string (encode raw)
  = (fun output => alphabet_at (encode_symbol raw output)) <$> seqZ 0 encodedLength.
Proof. apply list_ascii_of_string_of_list_ascii. Qed.

Lemma ulid_value_encode_fold raw :
  ulid_value (encode raw)
  = foldl (fun acc o => acc * 32 + encode_symbol raw o) 0 (seqZ 0 encodedLength).
Proof.
  unfold ulid_value. rewrite list_ascii_encode.
  generalize 0 at 1 3 as acc. induction (seqZ 0 encodedLength) as [|o l IH]; intros acc; [done|].
  cbn [fmap list_fmap foldl].
  rewrite (proj1 (alphabet_at_digit _ (encode_symbol_range raw o))). apply IH.
Qed.

(** A byte is the number its eight bits spell. *)
Lemma byte_bits b :
  is_byte b ->
  b = 128 * Z.land (Z.shiftr b 7) 1 + 64 * Z.land (Z.shiftr b 6) 1
    + 32 * Z.land (Z.shiftr b 5) 1 + 16 * Z.land (Z.shiftr b 4) 1
    + 8 * Z.land (Z.shiftr b 3) 1 + 4 * Z.land (Z.shiftr b 2) 1
    + 2 * Z.land (Z.shiftr b 1) 1 + Z.land (Z.shiftr b 0) 1.
Proof.
  unfold is_byte. intros Hb. apply Z.eqb_eq. revert Hb.
  apply (forallb_seqZ (fun b => b =? 128 * Z.land (Z.shiftr b 7) 1 + 64 * Z.land (Z.shiftr b 6) 1
    + 32 * Z.land (Z.shiftr b 5) 1 + 16 * Z.land (Z.shiftr b 4) 1
    + 8 * Z.land (Z.shiftr b 3) 1 + 4 * Z.land (Z.shiftr b 2) 1
    + 2 * Z.land (Z.shiftr b 1) 1 + Z.land (Z.shiftr b 0) 1)). by vm_compute.
Qed.

(** Two zero bits, then the 128 bits of the array, five at a time. *)
Lemma ulid_value_encode raw :
  length raw = 16%nat -> Forall is_byte raw -> ulid_value (encode raw) = be_value raw.
Proof.
  intros Hl Hb. rewrite ulid_value_encode_fold.
  do 16 (destruct raw as [|? raw]; [done|]). destruct raw; [|done]. clear Hl.
  repeat match goal with H : Forall _ (_ :: _) |- _ => apply Forall_cons in H as [? H] end.
  change (seqZ 0 encodedLength) with [0;1;2;3;4;5;6;7;8;9;10;11;12;13;14;15;16;17;18;19;20;21;22;23;24;25].
  unfold be_value. cbn [foldl]. rewrite !encode_symbol_bits.
  repeat match goal with H : is_byte ?x |- _ => apply byte_bits in H end.
  repeat match goal with |- context [padded_bit ?r ?k] =>
    let t := eval cbv -[Z.land Z.shiftr] in (padded_bit r k) in change (padded_bit r k) with t
  end.
  lia.
Qed.

(** ** Big-endian values *)

Lemma be_value_acc raw acc :
  foldl (fun acc b => acc * 256 + b) acc raw = acc * 256 ^ zlen raw + be_value raw.
Proof.
  unfold be_value, zlen. revert acc. induction raw as [|b raw IH]; intros acc; cbn [foldl length]; [lia|].
  rewrite IH, (IH (0 * 256 + b)), Nat2Z.inj_succ, Z.pow_succ_r by lia. lia.
Qed.

Lemma be_value_app a b : be_value (a ++ b) = be_value a * 256 ^ zlen b + be_value b.
Proof. unfold be_value at 1. rewrite foldl_app. apply be_value_acc. Qed.

Lemma be_value_range raw : Forall is_byte raw -> 0 <= be_value raw < 256 ^ zlen raw.
Proof.
  induction raw as [|b raw IH]; intros H; [unfold be_value, zlen; simpl; lia|].
  apply Forall_cons in H as [Hb H]. specialize (IH H). unfold is_byte in Hb.
  change (b :: raw) with ([b] ++ raw). rewrite be_value_app.
  assert (be_value [b] = b) as -> by (unfold be_value; simpl; lia).
  unfold zlen in *. rewrite length_app, Nat2Z.inj_add, Z.pow_add_r by lia. simpl length.
  change (256 ^ Z.of_nat 1) with 256. nia.
Qed.

Lemma wrap_u_byte z : is_byte (wrap_u 8 z).
Proof. unfold is_byte, wrap_u. apply Z.mod_pos_bound. lia. Qed.

Lemma put_big_endian_bytes n v :
  Forall is_byte (put_big_endian n v) /\ length (put_big_endian n v) = n.
Proof.
  revert v. induction n as [|n IH]; intros v; cbn [put_big_endian]; [by split|].
  destruct (IH (Z.shiftr v 8)) as [Hb Hl]. split.
  - apply Forall_app. split; [done|]. repeat constructor; apply wrap_u_byte.
  - rewrite length_app, Hl. simpl. lia.
Qed.

Lemma put_big_endian_value n v :
  0 <= v < 256 ^ Z.of_nat n -> be_value (put_big_endian n v) = v.
Proof.
  revert v. induction n as [|n IH]; intros v Hv; [unfold be_value; simpl in *; lia|].
  cbn [put_big_endian]. rewrite be_value_app. rewrite Nat2Z.inj_succ, Z.pow_succ_r in Hv by lia.
  rewrite Z.shiftr_div_pow2 by lia. change (2 ^ 8) with 256.
  rewrite IH by (split; [apply Z.div_pos; lia|apply Z.div_lt_upper_bound; lia]).
  unfold be_value, zlen, wrap_u. cbn [foldl length]. change (256 ^ Z.of_nat 1) with 256.
  change (2 ^ 8) with 256. pose proof (Z.div_mod v 256). lia.
Qed.

Lemma be_value_inj a b :
  length a = length b -> Forall is_byte a -> Forall is_byte b -> be_value a = be_value b -> a = b.
Proof.
  revert b. induction a as [|x a IH]; intros [|y b] Hl Ha Hb Hv; try done.
  apply Forall_cons in Ha as [Hx Ha], Hb as [Hy Hb]. injection Hl as Hl.
  change (x :: a) with ([x] ++ a) in Hv. change (y :: b) with ([y] ++ b) in Hv.
  rewrite !be_value_app in Hv.
  assert (forall z, be_value [z] = z) as Hone by (intros; unfold be_value; simpl; lia).
  rewrite !Hone in Hv. pose proof (be_value_range a Ha). pose proof (be_value_range b Hb) as Hrb.
  unfold zlen in *. rewrite <- Hl in *. set (p := 256 ^ Z.of_nat (length a)) in *.
  assert (x = y) as -> by nia. f_equal. apply IH; [done|done|done|lia].
Qed.

(** ** Text order is numeric order *)

Definition canonical_char (c : ascii) : bool := is_crockford c && Ascii.eqb (upper_ascii c) c.

Lemma canonical_char_crockford c : canonical_char c = true -> is_crockford c = true.
Proof. unfold canonical_char. intros H. by prop_bools. Qed.

Lemma alphabet_at_of_digit c : canonical_char c = true -> alphabet_at (crockford_digit c) = c.
Proof.
  intros H. assert (implb (canonical_char c) (Ascii.eqb (alphabet_at (crockford_digit c)) c) = true) as Hi
    by (revert c H; all_chars). rewrite H in Hi. by apply Ascii.eqb_eq.
Qed.

Lemma digit_order_compare :
  forallb (fun i => forallb (fun j =>
    match Ascii.compare (alphabet_at i) (alphabet_at j), Z.compare i j with
    | Eq, Eq | Lt, Lt | Gt, Gt => true | _, _ => false end) (seqZ 0 32)) (seqZ 0 32) = true.
Proof. by vm_compute. Qed.

Lemma ascii_compare_digit c d :
  canonical_char c = true -> canonical_char d = true ->
  Ascii.compare c d = Z.compare (crockford_digit c) (crockford_digit d).
Proof.
  intros Hc Hd.
  destruct (is_crockford_digit c (canonical_char_crockford c Hc)) as [Rc _].
  destruct (is_crockford_digit d (canonical_char_crockford d Hd)) as [Rd _].
  pose proof (forallb_seqZ _ _ (crockford_digit c) digit_order_compare Rc) as Hi. cbv beta in Hi.
  pose proof (forallb_seqZ _ _ (crockford_digit d) Hi Rd) as Hj. cbv beta in Hj.
  rewrite !alphabet_at_of_digit in Hj by done. revert Hj.
  by destruct (Ascii.compare c d), (Z.compare (crockford_digit c) (crockford_digit d)).
Qed.

Lemma ulid_fold_acc l a b :
  Forall (fun c => is_crockford c = true) l ->
  a < b ->
  forall k, length k = length l -> Forall (fun c => is_crockford c = true) k ->
  foldl (fun acc c => acc * 32 + crockford_digit c) a l
  < foldl (fun acc c => acc * 32 + crockford_digit c) b k.
Proof.
  intros Hl Hab k Hlen Hk.
  pose proof (ulid_fold_bounds l a Hl). pose proof (ulid_fold_bounds k b Hk) as Hb.
  rewrite Hlen in Hb. assert (0 < 32 ^ Z.of_nat (length l)) by (apply Z.pow_pos_nonneg; lia). nia.
Qed.

(** Canonical ULIDs of one length compare as text the way their values compare. *)
Lemma ulid_text_order s t :
  String.length s = String.length t ->
  string_forallb canonical_char s = true -> string_forallb canonical_char t = true ->
  String.compare s t = Z.compare (ulid_value s) (ulid_value t).
Proof.
  unfold ulid_value. generalize 0 as acc. revert t.
  induction s as [|a s IH]; intros [|b t] acc Hl Hs Ht; [symmetry; apply Z.compare_refl|done|done|].
  cbn [string_forallb] in Hs, Ht. prop_bools. cbn [String.compare list_ascii_of_string foldl].
  rewrite (ascii_compare_digit a b) by done.
  assert (Forall (fun c => is_crockford c = true) (list_ascii_of_string s)
    /\ Forall (fun c => is_crockford c = true) (list_ascii_of_string t)) as [Fs Ft].
  { split; apply string_forallb_spec; eapply string_forallb_impl; try eassumption;
      apply canonical_char_crockford. }
  assert (length (list_ascii_of_string s) = length (list_ascii_of_string t)) as Hll.
  { assert (forall u, length (list_ascii_of_string u) = String.length u) as Hu
      by (clear; induction u; simpl; f_equal; auto). rewrite !Hu. by injection Hl. }
  destruct (Z.compare_spec (crockford_digit a) (crockford_digit b)) as [Heq|Hlt|Hgt].
  - rewrite Heq. apply IH; [by injection Hl|done|done].
  - symmetry. apply Z.compare_lt_iff. apply ulid_fold_acc; [done|lia|done|done].
  - symmetry. apply Z.compare_gt_iff. apply ulid_fold_acc; [done|lia|done|done].
Qed.

(** ** Minted identifiers *)

Lemma encode_chars raw : string_forallb canonical_char (encode raw) = true.
Proof.
  apply string_forallb_spec. rewrite list_ascii_encode, Forall_fmap. apply Forall_true.
  intros o. unfold canonical_char. simpl.
  destruct (alphabet_at_digit _ (encode_symbol_range raw o)) as (_ & -> & ->).
  by rewrite Ascii.eqb_refl.
Qed.

Lemma to_upper_canonical s : string_forallb canonical_char s = true -> to_upper s = s.
Proof.
  induction s as [|a s IH]; [done|]. cbn [string_forallb to_upper]. intros H. prop_bools.
  unfold canonical_char in H. prop_bools. apply Ascii.eqb_eq in H1. by rewrite H1, IH.
Qed.

Lemma encode_canonical raw :
  length raw = 16%nat -> Forall is_byte raw -> canonical_ulid (encode raw).
Proof.
  intros Hl Hb. split; [|apply to_upper_canonical, encode_chars].
  apply ULIDPathID_correct. split_and!.
  - unfold len. by rewrite length_encode.
  - eapply string_forallb_impl; [apply canonical_char_crockford|apply (encode_chars raw)].
  - rewrite ulid_value_encode by done. pose proof (be_value_range raw Hb) as H.
    unfold zlen in H. rewrite Hl in H. change (256 ^ Z.of_nat 16) with (2 ^ 128) in H. lia.
Qed.

(** What a successful mint encodes. *)
Lemma NewWithReader_value now source id rest :
  Forall is_byte source ->
  NewWithReader now (Some source) = Ok (id, rest) ->
  canonical_ulid id /\ rest = drop 10 source
  /\ ulid_value id = time_unix_milli now * 2 ^ 80 + be_value (take 10 source)
  /\ 0 <= be_value (take 10 source) < 2 ^ 80.
Proof.
  intros Hb. unfold NewWithReader; cbv zeta.
  destruct (_ || _) eqn:E; [done|]. destruct (_ <? _)%nat eqn:El; [done|]. intros [= <- <-].
  prop_bools. change maxTimestampMS with (2 ^ 48 - 1) in H0. apply Nat.ltb_ge in El.
  assert (wrap_u 64 (time_unix_milli now) = time_unix_milli now) as -> by
    (unfold wrap_u; rewrite Z.mod_small; [done|]; lia).
  destruct (put_big_endian_bytes 6 (time_unix_milli now)) as [Hpb Hpl].
  set (raw := put_big_endian 6 (time_unix_milli now) ++ take 10 source).
  assert (length (take 10 source) = 10%nat) as Ht by (rewrite length_take; lia).
  assert (length raw = 16%nat) as Hlr by (unfold raw; rewrite length_app; lia).
  assert (Forall is_byte raw) as Hbr by (apply Forall_app; split; [done|by apply Forall_take]).
  pose proof (be_value_range (take 10 source) ltac:(by apply Forall_take)) as Hr.
  unfold zlen in Hr. rewrite Ht in Hr. change (256 ^ Z.of_nat 10) with (2 ^ 80) in Hr.
  split_and!; [by apply (encode_canonical raw)|done| |lia|lia].
  transitivity (be_value raw); [by apply (ulid_value_encode raw)|].
  unfold raw. rewrite be_value_app, put_big_endian_value.
  - unfold zlen. by rewrite Ht.
  - change (256 ^ Z.of_nat 6) with (2 ^ 48). lia.
Qed.

Lemma minted_shape now source id rest :
  NewWithReader now (Some source) = Ok (id, rest) ->
  (10 <= length source)%nat /\ 0 <= time_unix_milli now
  /\ id = encode (put_big_endian 6 (wrap_u 64 (time_unix_milli now)) ++ take 10 source).
Proof.
  unfold NewWithReader; cbv zeta. destruct (_ || _) eqn:E; [done|].
  destruct (_ <? _)%nat eqn:El; [done|]. intros [= <- <-]. prop_bools. apply Nat.ltb_ge in El. done.
Qed.

(** C14. A minted ULID is always an identifier the rest of the system accepts
    and already canonical (upper case), and two IDs minted in different
    milliseconds sort as text in the order they were minted, whatever entropy
    they drew. *)
Theorem minted_ulids_canonical_and_time_sorted t1 t2 e1 e2 id1 id2 r1 r2 :
  Forall is_byte e1 -> Forall is_byte e2 ->
  NewWithReader t1 (Some e1) = Ok (id1, r1) ->
  NewWithReader t2 (Some e2) = Ok (id2, r2) ->
  canonical_ulid id1 /\ canonical_ulid id2
  /\ (time_unix_milli t1 < time_unix_milli t2 -> String.compare id1 id2 = Lt)
  /\ (time_unix_milli t1 = time_unix_milli t2 ->
      (id1 = id2 <-> take 10 e1 = take 10 e2)).
Proof.
  intros B1 B2 H1 H2.
  pose proof (NewWithReader_value _ _ _ _ B1 H1) as ([V1 U1] & _ & E1 & R1).
  pose proof (NewWithReader_value _ _ _ _ B2 H2) as ([V2 U2] & _ & E2 & R2).
  pose proof (minted_shape _ _ _ _ H1) as (L1 & S1 & ->).
  pose proof (minted_shape _ _ _ _ H2) as (L2 & S2 & ->).
  split_and!; [by split|by split| |].
  - intros Ht. rewrite ulid_text_order by (done || apply encode_chars).
    apply Z.compare_lt_iff. rewrite E1, E2. nia.
  - intros Ht. rewrite Ht in *. split; [|by intros ->].
    intros He. rewrite He in E1. rewrite E1 in E2.
    apply be_value_inj; [rewrite !length_take; lia|by apply Forall_take|by apply Forall_take|lia].
Qed.

Lemma minted_ulids_canonical_and_time_sorted_witness :
  exists id1 id2,
    NewWithReader 1700000000000000000 (Some (replicate 10 255)) = Ok (id1, [])
    /\ NewWithReader 1700000000001000000 (Some (replicate 10 0)) = Ok (id2, [])
    /\ String.compare id1 id2 = Lt.
Proof.
  eexists _, _. split; [vm_compute; reflexivity|]. split; [vm_compute; reflexivity|].
  refine (proj1 (proj2 (proj2 (minted_ulids_canonical_and_time_sorted
    1700000000000000000 1700000000001000000 (replicate 10 255) (replicate 10 0) _ _ [] [] _ _ _ _))) _);
    [repeat constructor; lia|repeat constructor; lia|vm_compute; reflexivity|vm_compute; reflexivity|
     vm_compute; reflexivity].
Defined.
