(* ===== verification/Exec.v ===== *)
(** * [sdk/exec]: the command-execution chokepoint

    Argument vectors, the bounded output buffer, the child environment, the
    escalation wrapper and the runner that composes them.  The host ([LookPath],
    [filepath.Abs], the process itself) is a parameter of [runner_exec]. *)

From Stdlib Require Import Ascii String ZArith Lia.
From S2P Require Export Validate.

(** ** argv.go *)

(** sdk/exec/argv.go:3-5 [EndOfOptions] *)
Definition EndOfOptions : string := "--".

(** sdk/exec/argv.go:7-25 [SeparatePositionals] *)
Definition SeparatePositionals (flags positionals : list string) : list string :=
  flags ++ [EndOfOptions] ++ positionals.

(** ** capped_buffer.go *)

(** sdk/exec/capped_buffer.go:9-12 [truncationMarker] *)
Definition truncationMarker : string := String "010" "[output truncated]".

(** sdk/exec/capped_buffer.go:26-31 [CappedBuffer] *)
Record CappedBuffer := mkCappedBuffer {
  cb_buf : list ascii;
  cb_cap : Z;
  cb_truncated : bool;
}.

(** sdk/exec/capped_buffer.go:33-39 [NewCappedBuffer] *)
Definition NewCappedBuffer (cap : Z) : CappedBuffer :=
  mkCappedBuffer [] (if cap <? 0 then 0 else cap) false.

(** sdk/exec/capped_buffer.go:41-62 [CappedBuffer.Write]; the new buffer and
    the count reported to the caller. *)
Definition CappedBuffer_Write (b : CappedBuffer) (p : list ascii) : CappedBuffer * Z :=
  let remaining := cb_cap b - zlen (cb_buf b) in
  if remaining <=? 0 then
    (mkCappedBuffer (cb_buf b) (cb_cap b)
       (if 0 <? zlen p then true else cb_truncated b), zlen p)
  else if remaining <? zlen p then
    (mkCappedBuffer (cb_buf b ++ take (Z.to_nat remaining) p) (cb_cap b) true, zlen p)
  else
    (mkCappedBuffer (cb_buf b ++ p) (cb_cap b) (cb_truncated b), zlen p).

(** sdk/exec/capped_buffer.go:64-69 [CappedBuffer.Truncated] *)
Definition CappedBuffer_Truncated (b : CappedBuffer) : bool := cb_truncated b.

(** sdk/exec/capped_buffer.go:71-80 [CappedBuffer.String] *)
Definition CappedBuffer_String (b : CappedBuffer) : string :=
  if cb_truncated b then string_of_list_ascii (cb_buf b) +:+ truncationMarker
  else string_of_list_ascii (cb_buf b).

(** sdk/exec/capped_buffer.go:82-95 [CappedBuffer.Bytes] *)
Definition CappedBuffer_Bytes (b : CappedBuffer) : list ascii :=
  if cb_truncated b then cb_buf b ++ list_ascii_of_string truncationMarker else cb_buf b.

(** ** env.go *)

(** The error sentinels of the package that the modelled code returns. *)
Inductive exec_error :=
| ErrInvalidEnvVar
| ErrBlockedEnvVar (name : string)
| ErrReservedEnvVar (name : string)
| ErrUnknownBackend (b : Z)
| ErrEscalationUnavailable (tool : string)
| ErrEscalationDenied (stderr : string)
| ErrBackendUnavailable (name : string)
| ErrCommandNameRequired
| ErrContext
| ErrRun (msg : string).

#[export] Instance exec_error_eq_dec : EqDecision exec_error.
Proof. solve_decision. Defined.

(** sdk/exec/env.go:29-39 [isReservedEnvVar] *)
Definition isReservedEnvVar (name : string) : bool :=
  let upper := to_upper name in
  if existsb (String.eqb upper) ["LANG"; "LANGUAGE"; "NO_COLOR"]%string then true
  else has_prefix "LC_" upper.

(** sdk/exec/env.go:41-45 [validEnvVarName] *)
Definition validEnvVarName (s : string) : bool :=
  match s with
  | EmptyString => false
  | String a t =>
      (is_lower a || is_upper a || Ascii.eqb a "_")
      && string_forallb (fun c => is_alnum c || Ascii.eqb c "_") t
  end.

(** sdk/exec/env.go:47-80 [blockedEnvVars] *)
Definition blockedEnvVars : list string :=
  ["GCONV_PATH"; "HOSTALIASES"; "RESOLV_HOST_CONF"; "GETCONF_DIR"; "NODE_OPTIONS"; "PYTHONPATH";
   "PYTHONHOME"; "PYTHONSTARTUP"; "PERL5OPT"; "PERL5LIB"; "RUBYLIB"; "RUBYOPT"; "PATH"; "IFS";
   "ENV"; "BASH_ENV"; "CDPATH"; "GLOBIGNORE"]%string.

(** sdk/exec/env.go:82-96 [IsAllowedEnvVar] *)
Definition IsAllowedEnvVar (name : string) : bool :=
  if negb (validEnvVarName name) then false
  else
    let upper := to_upper name in
    if existsb (String.eqb upper) blockedEnvVars then false
    else if has_prefix "LD_" upper || has_prefix "BASH_FUNC_" upper || has_prefix "DYLD_" upper
    then false
    else true.

(** sdk/exec/env.go:98-117 [validateEnvVars] *)
Definition validateEnvVars (envVars : list string) : result exec_error unit :=
  check_each (fun e =>
    let '(key, _, ok) := cut "=" e in
    if negb ok then Err ErrInvalidEnvVar
    else if negb (IsAllowedEnvVar key) then Err (ErrBlockedEnvVar key)
    else Ok tt) envVars.

(** sdk/exec/env.go:119-138 [ValidateCommandEnv] *)
Definition ValidateCommandEnv (env : list string) : result exec_error unit :=
  validateEnvVars env ≫= fun _ =>
  check_each (fun e =>
    let '(key, _, _) := cut "=" e in
    if isReservedEnvVar key then Err (ErrReservedEnvVar key) else Ok tt) env.

(** ** runner.go *)

(** sdk/exec/runner.go:12-27 [PrivilegeBackend]; the zero value and every other
    integer are invalid. *)
Inductive PrivilegeBackend := Sudo | Doas | Direct.

#[export] Instance backend_eq_dec : EqDecision PrivilegeBackend.
Proof. solve_decision. Defined.

(** sdk/exec/runner.go:29-33 [curatedPath] *)
Definition curatedPath : string := "/usr/local/sbin:/usr/local/bin:/usr/sbin:/usr/bin:/sbin:/bin".

(** sdk/exec/runner.go:44-52 [Command] *)
Record Command := mkCommand {
  cmd_Name : string;
  cmd_Args : list string;
  cmd_Dir : string;
  cmd_Env : list string;
  cmd_ChildPath : string;
  cmd_Escalate : bool;
}.

(** sdk/exec/types.go:15-20 [Result] *)
Record Result := mkResult { ExitCode : Z; Stdout : string; Stderr : string }.

(** sdk/exec/runner.go:73-83 [NewRunner] *)
Definition NewRunner (b : Z) : result exec_error PrivilegeBackend :=
  if b =? 1 then Ok Sudo
  else if b =? 2 then Ok Doas
  else if b =? 3 then Ok Direct
  else Err (ErrUnknownBackend b).

(** sdk/exec/runner.go:160-171 [escalationTool] *)
Definition escalationTool (b : PrivilegeBackend) : string :=
  match b with Sudo => "sudo" | Doas => "doas" | Direct => "" end.

(** sdk/exec/runner.go:173-186 [wrapEscalation] *)
Definition wrapEscalation (b : PrivilegeBackend) (escalate : bool) (absPath : string)
    (args : list string) : string * list string :=
  let tool := escalationTool b in
  if negb escalate || String.eqb tool "" then (absPath, args)
  else (tool, ["-n"%string; absPath] ++ args).

(** sdk/exec/runner.go:188-212 [detectEscalationDenied] *)
Definition detectEscalationDenied (b : PrivilegeBackend) (res : Result) : option exec_error :=
  if ExitCode res =? 0 then None
  else
    let s := Stderr res in
    match b with
    | Sudo =>
        if contains_sub "a password is required" s || contains_sub "a terminal is required" s
           || contains_sub "no askpass program" s
        then Some (ErrEscalationDenied (trim_space s)) else None
    | Doas =>
        if contains_sub "Authorization required" s || contains_sub "Authentication failed" s
        then Some (ErrEscalationDenied (trim_space s)) else None
    | Direct => None
    end.

(** sdk/exec/runner.go:214-220 [forcedEnv] *)
Definition forcedEnv : list string := ["LC_ALL=C"; "LANG=C"; "NO_COLOR=1"]%string.

(** sdk/exec/runner.go:222-245 [buildChildEnv] *)
Definition buildChildEnv (c : Command) : result exec_error (list string) :=
  ValidateCommandEnv (cmd_Env c) ≫= fun _ =>
  let path := if negb (String.eqb (cmd_ChildPath c) "") then cmd_ChildPath c else curatedPath in
  Ok (("PATH=" +:+ path)%string :: cmd_Env c ++ forcedEnv).

(** What the host does for one execution. *)
Record Host := mkHost {
  host_ctx_done : bool;                              (* ctx.Err() != nil *)
  LookPath : string -> option string;                (* exec.LookPath *)
  filepath_Abs : string -> option string;
  runStreaming : string -> list string -> list string -> string -> result string Result;
}.

(** sdk/exec/runner.go:147-158 [resolveAbsolute] *)
Definition resolveAbsolute (h : Host) (name : string) : option string :=
  LookPath h name ≫= filepath_Abs h.

(** sdk/exec/runner.go:95-145 [runner.exec] *)
Definition runner_exec (h : Host) (backend : PrivilegeBackend) (c : Command)
    : result exec_error Result :=
  fail_if (host_ctx_done h) ErrContext ≫= fun _ =>
  fail_if (String.eqb (cmd_Name c) "") ErrCommandNameRequired ≫= fun _ =>
  buildChildEnv c ≫= fun env =>
  or_err (resolveAbsolute h (cmd_Name c)) (ErrBackendUnavailable (cmd_Name c)) ≫= fun absPath =>
  let tool := escalationTool backend in
  fail_if (cmd_Escalate c && negb (String.eqb tool "")
           && negb (bool_decide (is_Some (LookPath h tool)))) (ErrEscalationUnavailable tool) ≫= fun _ =>
  let '(name, argv) := wrapEscalation backend (cmd_Escalate c) absPath (cmd_Args c) in
  wrap_err ErrRun (runStreaming h name argv env (cmd_Dir c)) ≫= fun res =>
  if cmd_Escalate c then
    match detectEscalationDenied backend res with
    | Some denied => Err denied
    | None => Ok res
    end
  else Ok res.

(** sdk/exec/detect.go:18-28 [Detect] *)
Definition Detect (h : Host) : list PrivilegeBackend :=
  (if bool_decide (is_Some (LookPath h "sudo"%string)) then [Sudo] else [])
  ++ (if bool_decide (is_Some (LookPath h "doas"%string)) then [Doas] else []).

(** ** exec.go: capturing one stream *)

(** sdk/exec/types.go:12-13 [MaxOutputBytes] *)
Definition MaxOutputBytes : Z := Z.shiftl 1 20.

(** One stream's share of the capture state of [runStreamingWithStdin]. *)
Record Capture := mkCapture { cap_lines : list string; cap_rawBytes : Z; cap_seq : Z }.

(** sdk/exec/exec.go:126-149 [recordLine]; the captured lines are kept apart,
    [bufs] is their concatenation with a newline after each.  The callback
    receives every line with its sequence number. *)
Definition recordLine (s : Capture) (line : string) : Capture * (string * Z) :=
  let raw := cap_rawBytes s + (len line + 1) in
  let lines := if raw <=? MaxOutputBytes then cap_lines s ++ [line] else cap_lines s in
  (mkCapture lines raw (cap_seq s + 1), ((line +:+ String "010" "")%string, cap_seq s)).

(** sdk/exec/exec.go:226-234 [runStreamingWithStdin]: the rendered stream. *)
Definition renderCapture (s : Capture) : string :=
  let out := String.concat "" ((fun l => (l +:+ String "010" "")%string) <$> cap_lines s) in
  if MaxOutputBytes <? cap_rawBytes s then out +:+ truncationMarker else out.

(** ** Specifications *)

(** A sequence of writes to one buffer. *)
Definition cb_writes (b : CappedBuffer) (ps : list (list ascii)) : CappedBuffer :=
  foldl (fun b p => (CappedBuffer_Write b p).1) b ps.

(** The variable an [execve] environment gives to [name]: of two entries with
    one name, [os/exec] keeps the last. *)
Definition env_name (e : string) : string := (cut "=" e).1.1.
Definition env_value (e : string) : string := (cut "=" e).1.2.

Definition env_lookup (name : string) (env : list string) : option string :=
  env_value <$> last (filter (fun e => env_name e = name) env).

(** The lines a stream of lines contributes to the capture. *)
Definition capture_all (lines : list string) : Capture :=
  foldl (fun s l => (recordLine s l).1) (mkCapture [] 0 0) lines.

Definition lines_size (l : list string) : Z := foldr (fun x acc => len x + 1 + acc) 0 l.

(** The process the runner is allowed to start for a command under a backend. *)
Definition started_as (h : Host) (b : PrivilegeBackend) (c : Command) (path : string)
    (argv : list string) (name : string) : Prop :=
  match cmd_Escalate c, b with
  | true, Sudo => is_Some (LookPath h "sudo") /\ name = "sudo"%string
                  /\ argv = "-n"%string :: path :: cmd_Args c
  | true, Doas => is_Some (LookPath h "doas") /\ name = "doas"%string
                  /\ argv = "-n"%string :: path :: cmd_Args c
  | _, _ => name = path /\ argv = cmd_Args c
  end.

(** The calls the line callback receives for a stream of lines. *)
Fixpoint capture_calls (s : Capture) (lines : list string) : list (string * Z) :=
  match lines with
  | [] => []
  | l :: rest => let '(s', call) := recordLine s l in call :: capture_calls s' rest
  end.

(** The names the allow-list is meant to stop. *)
Definition hijack_name (name : string) : Prop :=
  to_upper name ∈ blockedEnvVars \/ has_prefix "LD_" (to_upper name) = true
  \/ has_prefix "BASH_FUNC_" (to_upper name) = true \/ has_prefix "DYLD_" (to_upper name) = true.

Definition example_command : Command :=
  mkCommand "apt-get" ["update"]%string "" ["DEBIAN_FRONTEND=noninteractive"]%string "" false.

(** ** The bounded buffer *)

Lemma CappedBuffer_Write_inv b p (all : list ascii) :
  0 <= cb_cap b ->
  cb_buf b = take (Z.to_nat (cb_cap b)) all ->
  cb_truncated b = (cb_cap b <? zlen all) ->
  let b' := (CappedBuffer_Write b p).1 in
  cb_cap b' = cb_cap b /\ cb_buf b' = take (Z.to_nat (cb_cap b)) (all ++ p)
  /\ cb_truncated b' = (cb_cap b <? zlen (all ++ p))
  /\ (CappedBuffer_Write b p).2 = zlen p.
Proof.
  intros Hc Hb Ht. unfold CappedBuffer_Write. rewrite Hb, Ht.
  assert (zlen (take (Z.to_nat (cb_cap b)) all) = Z.min (cb_cap b) (zlen all)) as Hlen
    by (unfold zlen; rewrite length_take; lia).
  assert (zlen (all ++ p) = zlen all + zlen p) as Ha by (unfold zlen; rewrite length_app; lia).
  assert (0 <= zlen p /\ 0 <= zlen all) as [Hp Hall] by (unfold zlen; lia).
  rewrite Hlen, Ha, take_app.
  destruct (Z.leb_spec (cb_cap b - Z.min (cb_cap b) (zlen all)) 0) as [Hfull|Hroom]; simpl.
  - split_and!; [done| | |done].
    + replace (Z.to_nat (cb_cap b) - length all)%nat with 0%nat by (unfold zlen in *; lia).
      by rewrite take_0, app_nil_r.
    + destruct (Z.ltb_spec 0 (zlen p)); symmetry; [apply Z.ltb_lt; lia|].
      by replace (zlen all + zlen p) with (zlen all) by lia.
  - destruct (Z.ltb_spec (cb_cap b - Z.min (cb_cap b) (zlen all)) (zlen p)) as [Hover|Hfit]; simpl;
      (split_and!; [done| | |done]).
    + f_equal. f_equal. unfold zlen in *. lia.
    + symmetry. apply Z.ltb_lt. lia.
    + f_equal. rewrite (take_ge p); [done|]. unfold zlen in *. lia.
    + transitivity false; [apply Z.ltb_ge; lia|symmetry; apply Z.ltb_ge; lia].
Qed.

(** Whatever sequence of writes a child produces, the buffer holds exactly
    the first [cap] bytes of it, is marked truncated exactly when something was
    dropped, renders the marker once in that case, and every write reports all
    its bytes as consumed. *)
Theorem CappedBuffer_keeps_prefix cap ps :
  let b := cb_writes (NewCappedBuffer cap) ps in
  cb_buf b = take (Z.to_nat cap) (concat ps)
  /\ CappedBuffer_Truncated b = (Z.max 0 cap <? zlen (concat ps))
  /\ CappedBuffer_Bytes b = take (Z.to_nat cap) (concat ps)
       ++ (if Z.max 0 cap <? zlen (concat ps) then list_ascii_of_string truncationMarker else [])
  /\ (forall p, (CappedBuffer_Write b p).2 = zlen p).
Proof.
  assert (forall ps b all,
    0 <= cb_cap b -> cb_buf b = take (Z.to_nat (cb_cap b)) all ->
    cb_truncated b = (cb_cap b <? zlen all) ->
    let b' := cb_writes b ps in
    cb_cap b' = cb_cap b /\ cb_buf b' = take (Z.to_nat (cb_cap b)) (all ++ concat ps)
    /\ cb_truncated b' = (cb_cap b <? zlen (all ++ concat ps))) as Hgen.
  { clear. intros ps. induction ps as [|p ps IH]; intros b all Hc Hb Ht; simpl.
    - by rewrite app_nil_r.
    - destruct (CappedBuffer_Write_inv b p all Hc Hb Ht) as (Hc' & Hb' & Ht' & _).
      specialize (IH (CappedBuffer_Write b p).1 (all ++ p)). rewrite Hc' in IH.
      rewrite app_assoc. by apply IH. }
  specialize (Hgen ps (NewCappedBuffer cap) []). cbn in Hgen.
  assert ((if cap <? 0 then 0 else cap) = Z.max 0 cap) as Hmax by (case_match; prop_bools; lia).
  rewrite Hmax in Hgen.
  destruct Hgen as (Hc & Hb & Ht); [lia|by rewrite take_nil|symmetry; apply Z.ltb_ge; unfold zlen; simpl; lia|].
  replace (Z.to_nat (Z.max 0 cap)) with (Z.to_nat cap) in Hb by lia.
  cbv zeta. unfold CappedBuffer_Bytes, CappedBuffer_Truncated. rewrite Hb, Ht.
  split_and!; [done|done|destruct (Z.max 0 cap <? zlen (concat ps)); by rewrite ?app_nil_r|].
  intros p. unfold CappedBuffer_Write. by repeat case_match.
Qed.

(** ** The child environment *)

Lemma ValidateCommandEnv_ok env :
  ValidateCommandEnv env = Ok tt <->
  Forall (fun e => (cut "=" e).2 = true /\ IsAllowedEnvVar (env_name e) = true
                   /\ isReservedEnvVar (env_name e) = false) env.
Proof.
  unfold ValidateCommandEnv, validateEnvVars, env_name. rewrite bind_ok. split.
  - intros ([] & H1%check_each_ok & H2%check_each_ok). rewrite Forall_forall in *. intros e He.
    specialize (H1 e He). specialize (H2 e He). destruct (cut "=" e) as [[k v] []]; simpl in *; [|done].
    by destruct (IsAllowedEnvVar k), (isReservedEnvVar k).
  - intros H. exists tt. rewrite !check_each_ok, !Forall_forall in *. split; intros e He;
      destruct (H e He) as (Ho & Ha & Hr); destruct (cut "=" e) as [[k v] ok]; simpl in *; subst;
      [by rewrite Ha|by rewrite Hr].
Qed.

Lemma buildChildEnv_shape c env :
  buildChildEnv c = Ok env ->
  Forall (fun e => (cut "=" e).2 = true /\ IsAllowedEnvVar (env_name e) = true
                   /\ isReservedEnvVar (env_name e) = false) (cmd_Env c)
  /\ env = ("PATH=" +:+ (if String.eqb (cmd_ChildPath c) "" then curatedPath else cmd_ChildPath c))%string
            :: cmd_Env c ++ forcedEnv.
Proof.
  unfold buildChildEnv. rewrite bind_ok. intros ([] & Hv & He). simplify_eq.
  split; [by apply ValidateCommandEnv_ok|]. by destruct (String.eqb _ _).
Qed.

Lemma env_lookup_last name l e k :
  env_name e = name -> Forall (fun e => env_name e <> name) k ->
  env_lookup name (l ++ e :: k) = Some (env_value e).
Proof.
  intros He Hk. unfold env_lookup.
  replace (filter (fun e => env_name e = name) (l ++ e :: k))
    with (filter (fun e => env_name e = name) l ++ [e]); [by rewrite last_snoc|].
  rewrite filter_app, filter_cons_True by done. do 2 f_equal.
  induction Hk as [|e' k He' Hk IH]; [done|]. by rewrite filter_cons_False.
Qed.

Lemma allowed_not_hijack name : IsAllowedEnvVar name = true -> ~ hijack_name name.
Proof.
  unfold IsAllowedEnvVar, hijack_name. cbv zeta. generalize (to_upper name) as upper. intros upper.
  destruct (validEnvVarName name); [|done]. cbv iota beta delta [negb].
  case_match eqn:E; [done|]. case_match eqn:Ep; [done|]. prop_bools.
  intros _ [Hin|[?|[?|?]]]; try congruence.
  enough (existsb (String.eqb upper) blockedEnvVars = true) by congruence.
  apply existsb_exists. exists upper. split; [by apply list_elem_of_In|apply String.eqb_refl].
Qed.

(** Every child the runner starts sees the forced locale and the curated
    (or the caller's isolating) [PATH], whatever the command's own variables
    are: the last assignment of [LC_ALL], [LANG] and [NO_COLOR] is the forced
    one, [PATH] is assigned once, and no variable of the hijack list or the
    loader families reaches the child. *)
Theorem child_environment_is_curated c env :
  buildChildEnv c = Ok env ->
  env_lookup "LC_ALL" env = Some "C"%string
  /\ env_lookup "LANG" env = Some "C"%string
  /\ env_lookup "NO_COLOR" env = Some "1"%string
  /\ env_lookup "PATH" env
     = Some (if String.eqb (cmd_ChildPath c) "" then curatedPath else cmd_ChildPath c)
  /\ (forall e, e ∈ tail env -> ~ hijack_name (env_name e)).
Proof.
  intros (Henv & ->)%buildChildEnv_shape.
  set (path := if String.eqb (cmd_ChildPath c) "" then curatedPath else cmd_ChildPath c).
  assert (Forall (fun e => ~ hijack_name (env_name e)) (cmd_Env c ++ forcedEnv)) as Hsafe.
  { apply Forall_app. split.
    - eapply Forall_impl; [exact Henv|]. intros e (_ & Ha & _). by apply allowed_not_hijack.
    - repeat (apply Forall_cons; split; [by apply allowed_not_hijack; vm_compute|]). constructor. }
  assert (env_name ("PATH=" +:+ path) = "PATH"%string) as Hn by done.
  assert (env_value ("PATH=" +:+ path) = path) as Hv by done.
  split_and!.
  - apply (env_lookup_last _ (_ :: cmd_Env c) "LC_ALL=C"); [done|]. repeat (constructor; [done|]). constructor.
  - replace (cmd_Env c ++ forcedEnv)
      with ((cmd_Env c ++ ["LC_ALL=C"%string]) ++ ["LANG=C"; "NO_COLOR=1"]%string) by (by rewrite <- app_assoc).
    apply (env_lookup_last _ (_ :: _ ++ _) "LANG=C"); [done|]. repeat (constructor; [done|]). constructor.
  - replace (cmd_Env c ++ forcedEnv)
      with ((cmd_Env c ++ ["LC_ALL=C"; "LANG=C"]%string) ++ ["NO_COLOR=1"]%string) by (by rewrite <- app_assoc).
    apply (env_lookup_last _ (_ :: _ ++ _) "NO_COLOR=1"); [done|constructor].
  - etransitivity; [apply (env_lookup_last _ [] _ _ Hn)|by rewrite Hv].
    eapply Forall_impl; [exact Hsafe|]. intros e He He'. apply He. rewrite He'. left.
    unfold blockedEnvVars. do 12 right. left.
  - intros e He. rewrite Forall_forall in Hsafe. apply Hsafe. exact He.
Qed.

Lemma child_environment_is_curated_witness :
  exists env, buildChildEnv example_command = Ok env
  /\ env_lookup "PATH" env = Some curatedPath
  /\ is_ok (buildChildEnv (mkCommand "apt-get" [] "" ["LD_PRELOAD=/tmp/x.so"]%string "" false)) = false.
Proof.
  eexists. split; [vm_compute; reflexivity|]. split; [|reflexivity].
  refine (proj1 (proj2 (proj2 (proj2 (child_environment_is_curated example_command _ _))))).
  vm_compute. reflexivity.
Defined.

(** ** The runner *)

(** The runner returns a result exactly when the name resolves, the child
    environment is valid, the escalation tool is present where the command
    asks for escalation, and the one process started is the resolved binary
    (under the tool, non-interactively, when escalated) with the command's own
    arguments and the curated environment, and its output is no refusal of the
    tool: it never falls back to running unescalated. *)
Theorem runner_exec_fail_closed h b c res :
  runner_exec h b c = Ok res <->
  host_ctx_done h = false /\ cmd_Name c <> ""%string
  /\ exists path env name argv,
       resolveAbsolute h (cmd_Name c) = Some path
       /\ buildChildEnv c = Ok env
       /\ started_as h b c path argv name
       /\ runStreaming h name argv env (cmd_Dir c) = Ok res
       /\ (cmd_Escalate c = true -> detectEscalationDenied b res = None).
Proof.
  unfold runner_exec, started_as, wrapEscalation. split.
  - intros H. inv_result. prop_bools. split; [done|]. split; [done|].
    destruct (cmd_Escalate c) eqn:Ee.
    + destruct b; cbn -[detectEscalationDenied mbind] in *; inv_result; prop_bools;
        case_match; simplify_eq; naive_solver.
    + cbn in *. inv_result. naive_solver.
  - intros (Hctx & Hname & path & env & name & argv & Hp & He & Hs & Hr & Hd).
    rewrite Hctx, (proj2 (String.eqb_neq _ _) Hname), He, Hp. cbn -[detectEscalationDenied].
    destruct (cmd_Escalate c).
    + destruct b; destruct_and?; subst; cbn -[detectEscalationDenied];
        rewrite ?bool_decide_eq_true_2 by done; cbn -[detectEscalationDenied];
        rewrite Hr; cbn -[detectEscalationDenied]; by rewrite Hd.
    + destruct_and?; subst. cbn. by rewrite Hr.
Qed.

(** ** The capture *)

Lemma lines_size_app l k : lines_size (l ++ k) = lines_size l + lines_size k.
Proof. induction l as [|x l IH]; simpl; [done|]. unfold lines_size in *. simpl. lia. Qed.

Lemma lines_size_nonneg l : 0 <= lines_size l.
Proof. induction l as [|x l IH]; simpl; [done|]. pose proof (len_nonneg x). unfold lines_size in *. simpl. lia. Qed.

Lemma capture_all_snoc lines l :
  capture_all (lines ++ [l]) = (recordLine (capture_all lines) l).1.
Proof. unfold capture_all. by rewrite foldl_app. Qed.

Lemma capture_all_inv lines :
  let s := capture_all lines in
  cap_rawBytes s = lines_size lines /\ cap_seq s = zlen lines
  /\ exists k, (k <= length lines)%nat /\ cap_lines s = take k lines
       /\ lines_size (take k lines) <= MaxOutputBytes
       /\ ((k < length lines)%nat -> MaxOutputBytes < lines_size (take (S k) lines)).
Proof.
  induction lines as [|l lines IH] using rev_ind.
  { split_and!; [done|done|]. exists 0%nat. split_and!; [done|done|done|simpl; lia]. }
  cbv zeta in *. rewrite capture_all_snoc. destruct IH as (Hr & Hs & k & Hk & Hl & Hsz & Hmax).
  unfold recordLine. cbn [fst cap_rawBytes cap_seq cap_lines].
  assert (lines_size [l] = len l + 1) as Hone by (unfold lines_size; simpl; lia).
  split_and!; [rewrite lines_size_app; lia|unfold zlen in *; rewrite length_app; simpl; lia|].
  destruct (Z.leb_spec (cap_rawBytes (capture_all lines) + (len l + 1)) MaxOutputBytes) as [Hle|Hgt].
  - assert (k = length lines) as ->.
    { destruct (decide (k < length lines)%nat) as [Hlt|]; [|lia]. specialize (Hmax Hlt).
      assert (lines_size lines = lines_size (take (S k) lines) + lines_size (drop (S k) lines)) as Hcut
        by (by rewrite <- lines_size_app, take_drop).
      pose proof (lines_size_nonneg (drop (S k) lines)). pose proof (len_nonneg l). lia. }
    exists (length (lines ++ [l])). rewrite (take_ge (lines ++ [l])) by done.
    split_and!; [done| | |lia].
    + by rewrite Hl, take_ge by done.
    + rewrite lines_size_app. lia.
  - exists k. rewrite length_app. simpl. rewrite take_app_le by done.
    split_and!; [lia|done|done|]. intros _. destruct (decide (k < length lines)%nat) as [Hlt|Hge].
    + rewrite take_app_le by lia. auto.
    + rewrite take_ge by (rewrite length_app; simpl; lia). rewrite lines_size_app. lia.
Qed.

Lemma capture_calls_seq lines s :
  capture_calls s lines
  = imap (fun i l => ((l +:+ String "010" "")%string, cap_seq s + Z.of_nat i)) lines.
Proof.
  revert s. induction lines as [|l lines IH]; intros s; [done|].
  unfold capture_calls; fold capture_calls. unfold recordLine. rewrite IH. cbn [imap cap_seq].
  f_equal; [f_equal; lia|]. apply imap_ext. intros i x _. simpl. f_equal. lia.
Qed.

Lemma len_rendered_lines lines :
  len (String.concat "" ((fun l => (l +:+ String "010" "")%string) <$> lines)) = lines_size lines.
Proof.
  assert (forall x k, String.concat "" (x :: k) = (x +:+ String.concat "" k)%string) as Hc.
  { intros x [|y k]; simpl; [|done]. induction x; [done|]. by rewrite string_append_cons, <- IHx. }
  induction lines as [|l lines IH]; [done|]. rewrite fmap_cons, Hc, !len_app, IH.
  change (len (String "010" "")) with 1. unfold lines_size. simpl. lia.
Qed.

(** However much a child prints, what is kept of a stream is the longest
    prefix of whole lines that fits [MaxOutputBytes], the rendered text is that
    prefix with the marker appended exactly when a line was dropped (so its
    size is bounded), and the callback still sees every line, numbered 0, 1,
    2, ... *)
Theorem capture_is_longest_fitting_prefix lines :
  let s := capture_all lines in
  exists k, (k <= length lines)%nat /\ cap_lines s = take k lines
  /\ lines_size (take k lines) <= MaxOutputBytes
  /\ (forall j, (j <= length lines)%nat -> lines_size (take j lines) <= MaxOutputBytes -> (j <= k)%nat)
  /\ renderCapture s
     = (String.concat "" ((fun l => (l +:+ String "010" "")%string) <$> take k lines)
        +:+ if bool_decide (k = length lines) then "" else truncationMarker)%string
  /\ len (renderCapture s) <= MaxOutputBytes + len truncationMarker
  /\ capture_calls (mkCapture [] 0 0) lines
     = imap (fun i l => ((l +:+ String "010" "")%string, Z.of_nat i)) lines.
Proof.
  destruct (capture_all_inv lines) as (Hr & Hs & k & Hk & Hl & Hsz & Hmax). cbv zeta.
  assert (renderCapture (capture_all lines)
     = (String.concat "" ((fun l => (l +:+ String "010" "")%string) <$> take k lines)
        +:+ if bool_decide (k = length lines) then "" else truncationMarker)%string) as Hren.
  { unfold renderCapture. rewrite Hl, Hr. case_bool_decide as Hkl.
    - rewrite Hkl, take_ge in * by done. rewrite (proj2 (Z.ltb_ge _ _)) by done.
      generalize (String.concat "" ((fun l => (l +:+ String "010" "")%string) <$> lines)).
      intros x. induction x; [done|]. by rewrite string_append_cons, <- IHx.
    - rewrite (proj2 (Z.ltb_lt _ _)); [done|].
      specialize (Hmax ltac:(lia)). rewrite <- (take_drop (S k) lines), lines_size_app.
      pose proof (lines_size_nonneg (drop (S k) lines)). lia. }
  exists k. split_and!; [done|done|done| |exact Hren| |].
  - intros j Hj Hjs. destruct (decide (j <= k)%nat) as [|Hn]; [done|]. exfalso.
    specialize (Hmax ltac:(lia)).
    assert (take j lines = take (S k) lines ++ drop (S k) (take j lines)) as Hd.
    { rewrite <- (take_drop (S k) (take j lines)) at 1. f_equal. rewrite take_take. f_equal. lia. }
    rewrite Hd, lines_size_app in Hjs. pose proof (lines_size_nonneg (drop (S k) (take j lines))). lia.
  - rewrite Hren, len_app, len_rendered_lines. case_bool_decide; [change (len "") with 0|];
      pose proof (len_nonneg truncationMarker); lia.
  - by rewrite capture_calls_seq.
Qed.
