(* ===== verification/Steps.v ===== *)
(** * [sdk/narrow] and [sdk/rollback]: checked narrowing, compensated steps

    Two small kernels every executor of the SDK goes through: numeric
    conversions that either preserve the value or fail, and sequences of system
    mutations that are unwound when one of them fails. *)

From Stdlib Require Import String ZArith Lia.
From S2P Require Export Prelude.

(** ** sdk/narrow *)

(** sdk/narrow/narrow.go:15-20 [integer]; a built-in integer kind is its width
    and its signedness. *)
Record IntKind := mkIntKind { int_signed : bool; int_width : Z }.

Definition int8 := mkIntKind true 8.
Definition int16 := mkIntKind true 16.
Definition int32 := mkIntKind true 32.
Definition int64 := mkIntKind true 64.
Definition uint8 := mkIntKind false 8.
Definition uint16 := mkIntKind false 16.
Definition uint32 := mkIntKind false 32.
Definition uint64 := mkIntKind false 64.

(** The Go conversion [D(v)]: truncation to the width, two's complement. *)
Definition convert (k : IntKind) (v : Z) : Z :=
  if int_signed k then wrap_s (int_width k) v else wrap_u (int_width k) v.

(** sdk/narrow/narrow.go:12-13 [ErrOutOfRange] *)
Inductive narrow_error := ErrOutOfRange (v : Z).

(** sdk/narrow/narrow.go:22-32 [To] *)
Definition To (D S : IntKind) (v : Z) : result narrow_error Z :=
  let d := convert D v in
  if negb (convert S d =? v) || negb (Bool.eqb (d <? 0) (v <? 0))
  then Err (ErrOutOfRange v)
  else Ok d.

(** ** sdk/rollback *)

(** What the package reads of a [context.Context]: whether it is cancelled and
    the timeout it carries. *)
Record Ctx := mkCtx { ctx_cancelled : bool; ctx_timeout : option Z }.
Definition WithoutCancel (c : Ctx) : Ctx := mkCtx false None.
Definition WithTimeout (c : Ctx) (d : Z) : Ctx := mkCtx (ctx_cancelled c) (Some d).

(** sdk/rollback/rollback.go:13 [compensationTimeout] *)
Definition compensationTimeout : Z := 30 * second.

(** The errors of [Run]: [RbJoin] is the joined list, the cause first. *)
Inductive rollback_error :=
| RbContextRequired
| RbStepInvalid (i : Z)
| RbCause (name cause : string)
| RbJoin (name cause : string) (undo : list (string * string)).

(** sdk/rollback/rollback.go:15-20 [Step]; [None] is a nil function.  A function
    of a step changes the system, [World], and may fail after doing so. *)
Record Step (World : Type) := mkStep {
  step_Name : string;
  Apply : option (Ctx -> World -> World * option string);
  Rollback : option (Ctx -> World -> World * option string);
}.
Arguments mkStep {World}.
Arguments step_Name {World}.
Arguments Apply {World}.
Arguments Rollback {World}.

(** Calling a function of a step; a nil function panics in Go and is excluded
    by [validate_steps], so its image here is never reached. *)
Definition call {World} (f : option (Ctx -> World -> World * option string)) (c : Ctx) (w : World)
    : World * option string :=
  match f with Some g => g c w | None => (w, None) end.

(** sdk/rollback/rollback.go:28-32 [Run], the validation loop *)
Fixpoint validate_steps {World} (i : Z) (steps : list (Step World)) : result rollback_error unit :=
  match steps with
  | [] => Ok tt
  | s :: rest =>
      match String.eqb (step_Name s) "", Apply s, Rollback s with
      | false, Some _, Some _ => validate_steps (i + 1) rest
      | _, _, _ => Err (RbStepInvalid (i + 1))
      end
  end.

(** sdk/rollback/rollback.go:40-46 [Run], the compensation loop over
    [steps[i-1], ..., steps[0]], the list [done] *)
Fixpoint unwind {World} (ctx : Ctx) (done : list (Step World)) (w : World)
    : World * list (string * string) :=
  match done with
  | [] => (w, [])
  | s :: rest =>
      let '(w1, undoErr) := call (Rollback s) (WithTimeout (WithoutCancel ctx) compensationTimeout) w in
      let '(w2, errs) := unwind ctx rest w1 in
      (w2, match undoErr with Some e => (step_Name s, e) :: errs | None => errs end)
  end.

(** sdk/rollback/rollback.go:33-50 [Run], the loop that applies; [done] holds
    the completed steps, last first *)
Fixpoint apply_steps {World} (ctx : Ctx) (done steps : list (Step World)) (w : World)
    : World * option rollback_error :=
  match steps with
  | [] => (w, None)
  | s :: rest =>
      match call (Apply s) ctx w with
      | (w1, Some err) =>
          match done with
          | [] => (w1, Some (RbCause (step_Name s) err))
          | _ => let '(w2, errs) := unwind ctx done w1 in (w2, Some (RbJoin (step_Name s) err errs))
          end
      | (w1, None) => apply_steps ctx (s :: done) rest w1
      end
  end.

(** sdk/rollback/rollback.go:22-51 [Run]; [None] for a nil context *)
Definition Run {World} (ctx : option Ctx) (steps : list (Step World)) (w : World)
    : World * option rollback_error :=
  match ctx with
  | None => (w, Some RbContextRequired)
  | Some ctx =>
      match validate_steps 0 steps with
      | Err e => (w, Some e)
      | Ok _ => apply_steps ctx [] steps w
      end
  end.

(** ** Specifications *)

Definition in_range (k : IntKind) (v : Z) : Prop :=
  if int_signed k then - 2 ^ (int_width k - 1) <= v < 2 ^ (int_width k - 1)
  else 0 <= v < 2 ^ int_width k.

(** The steps complete in order, leading from [w] to [w']. *)
Fixpoint completes {World} (ctx : Ctx) (steps : list (Step World)) (w w' : World) : Prop :=
  match steps with
  | [] => w' = w
  | s :: rest => exists w1, call (Apply s) ctx w = (w1, None) /\ completes ctx rest w1 w'
  end.

Definition well_formed {World} (s : Step World) : Prop :=
  step_Name s <> ""%string /\ is_Some (Apply s) /\ is_Some (Rollback s).

(** A step whose compensation, under any context that is not cancelled,
    restores the state its application started from, and which leaves the
    state alone when it fails. *)
Definition compensatable {World} (s : Step World) : Prop :=
  (forall c c' w w', call (Apply s) c w = (w', None) ->
     ctx_cancelled c' = false -> call (Rollback s) c' w' = (w, None))
  /\ (forall c w w' e, call (Apply s) c w = (w', Some e) -> w' = w).

(** Three steps on a set of installed files; the last one fails. *)
Definition put_file (f : string) : Step (gset string) :=
  mkStep f
    (Some (fun c w => if bool_decide (f ∈ w) then (w, Some "exists"%string) else ({[f]} ∪ w, None)))
    (Some (fun c w => if ctx_cancelled c then (w, Some "cancelled"%string) else (w ∖ {[f]}, None))).

Definition example_steps : list (Step (gset string)) := [put_file "a"; put_file "b"; put_file "a"].

(** ** Narrowing *)

Lemma pow2_half w : 1 <= w -> 2 ^ w = 2 * 2 ^ (w - 1) /\ 0 < 2 ^ (w - 1).
Proof.
  intros Hw. split; [|apply Z.pow_pos_nonneg; lia].
  rewrite <- Z.pow_succ_r by lia. f_equal. lia.
Qed.

Lemma convert_spec k v :
  1 <= int_width k ->
  in_range k (convert k v) /\ exists q, convert k v = v + 2 ^ int_width k * q.
Proof.
  intros Hw. destruct (pow2_half _ Hw) as [Hp H0]. unfold in_range, convert, wrap_s, wrap_u.
  destruct (int_signed k).
  - pose proof (Z.mod_pos_bound (v + 2 ^ (int_width k - 1)) (2 ^ int_width k)) as Hb.
    split; [lia|]. exists (- ((v + 2 ^ (int_width k - 1)) / 2 ^ int_width k)).
    pose proof (Z.div_mod (v + 2 ^ (int_width k - 1)) (2 ^ int_width k)). lia.
  - pose proof (Z.mod_pos_bound v (2 ^ int_width k)).
    split; [lia|]. exists (- (v / 2 ^ int_width k)).
    pose proof (Z.div_mod v (2 ^ int_width k)). lia.
Qed.

Lemma multiple_in_gap p a b q : 0 < p -> a = b + p * q -> - p < a - b < p -> a = b.
Proof. intros. assert (q = 0) by nia. subst. lia. Qed.

Lemma convert_id k v : 1 <= int_width k -> in_range k v -> convert k v = v.
Proof.
  intros Hw Hv. destruct (convert_spec k v Hw) as [Hr [q Hq]]. destruct (pow2_half _ Hw).
  eapply (multiple_in_gap (2 ^ int_width k)); [lia|exact Hq|].
  unfold in_range in *. destruct (int_signed k); lia.
Qed.

(** A conversion between any two integer kinds succeeds exactly when the
    value is representable in the destination, and then returns the value
    unchanged: truncation and sign flips of every width combination are
    refused. *)
Theorem To_exact D S v :
  1 <= int_width D -> 1 <= int_width S -> in_range S v ->
  forall d, To D S v = Ok d <-> in_range D v /\ d = v.
Proof.
  intros HD HS Hv d. destruct (pow2_half _ HD), (pow2_half _ HS). unfold To.
  destruct (convert_spec D v HD) as [Hr [q Hq]]. split.
  - case_match eqn:E; [done|]. prop_bools. intros [= <-]. apply Bool.eqb_prop in H4.
    enough (convert D v = v) as Heq by (rewrite Heq in Hr; done).
    destruct (Z.le_gt_cases (int_width S) (int_width D)) as [Hle|Hlt].
    + eapply (multiple_in_gap (2 ^ int_width D)); [lia|exact Hq|].
      assert (2 ^ int_width S <= 2 ^ int_width D) by (apply Z.pow_le_mono_r; lia).
      unfold in_range in *.
      destruct (Z.ltb_spec (convert D v) 0), (Z.ltb_spec v 0), (int_signed D), (int_signed S); lia.
    + rewrite <- H3 at 2. symmetry. apply convert_id; [done|].
      assert (2 ^ int_width D <= 2 ^ (int_width S - 1)) by (apply Z.pow_le_mono_r; lia).
      unfold in_range in *.
      destruct (Z.ltb_spec (convert D v) 0), (Z.ltb_spec v 0), (int_signed D), (int_signed S); lia.
  - intros [Hd ->]. rewrite (convert_id D v) by done. rewrite (convert_id S v) by done.
    by rewrite Z.eqb_refl, Bool.eqb_reflx.
Qed.

Lemma To_exact_witness :
  To uint16 uint32 65536 = Err (ErrOutOfRange 65536)
  /\ To int8 uint16 65535 = Err (ErrOutOfRange 65535)
  /\ To uint16 int64 24 = Ok 24.
Proof.
  split; [reflexivity|]. split; [reflexivity|].
  refine (proj2 (To_exact uint16 int64 24 _ _ _ 24) _); unfold in_range; simpl; lia.
Defined.

(** ** Compensated steps *)

Lemma validate_steps_ok {World} (steps : list (Step World)) i :
  validate_steps i steps = Ok tt <-> Forall well_formed steps.
Proof.
  revert i. induction steps as [|s steps IH]; intros i; simpl.
  { split; [constructor|done]. }
  rewrite Forall_cons, <- (IH (i + 1)). unfold well_formed.
  destruct (String.eqb_spec (step_Name s) ""), (Apply s), (Rollback s); try naive_solver;
    split; try done; intros [(? & Ha & Hb) ?]; by destruct Ha, Hb.
Qed.

Lemma validate_steps_err {World} (steps : list (Step World)) i e :
  validate_steps i steps = Err e -> exists j, e = RbStepInvalid j.
Proof.
  revert i. induction steps as [|s steps IH]; intros i; simpl; [done|].
  destruct (String.eqb _ _), (Apply s), (Rollback s); naive_solver.
Qed.

Lemma apply_steps_ok {World} ctx (steps done : list (Step World)) w w' :
  apply_steps ctx done steps w = (w', None) <-> completes ctx steps w w'.
Proof.
  revert done w. induction steps as [|s steps IH]; intros done w; simpl; [naive_solver|].
  destruct (call (Apply s) ctx w) as [w1 [e|]].
  - split; [|naive_solver]. destruct done; [done|]. by destruct (unwind _ _ _).
  - rewrite IH. naive_solver.
Qed.

Lemma apply_steps_err {World} ctx (steps done : list (Step World)) w w' e :
  apply_steps ctx done steps w = (w', Some e) <->
  exists before failed rest w1 w2 cause,
    steps = before ++ failed :: rest /\ completes ctx before w w1
    /\ call (Apply failed) ctx w1 = (w2, Some cause)
    /\ match reverse before ++ done with
       | [] => w' = w2 /\ e = RbCause (step_Name failed) cause
       | undone => w' = (unwind ctx undone w2).1
                   /\ e = RbJoin (step_Name failed) cause (unwind ctx undone w2).2
       end.
Proof.
  revert done w. induction steps as [|s steps IH]; intros done w; simpl.
  { split; [done|]. intros (before & ? & ? & ? & ? & ? & Heq & _). by destruct before. }
  destruct (call (Apply s) ctx w) as [w1 [cause|]] eqn:Ea.
  - split.
    + intros H. exists [], s, steps, w, w1, cause. split_and!; [done|done|done|].
      rewrite reverse_nil. destruct done as [|d done]; [by simplify_eq|].
      cbn [app unwind] in H |- *. by repeat case_match; simplify_eq.
    + intros (before & failed & rest & w1' & w2 & cause' & Heq & Hc & Hf & Hend).
      destruct before as [|b before]; simplify_eq/=; [|destruct Hc as (? & ? & ?); congruence].
      rewrite Ea in Hf. simplify_eq. destruct done as [|d done]; cbn in Hend; destruct Hend as [-> ->]; [done|].
      by cbn; repeat case_match.
  - rewrite IH. split.
    + intros (before & failed & rest & w1' & w2 & cause & -> & Hc & Hf & Hend).
      exists (s :: before), failed, rest, w1', w2, cause. rewrite reverse_cons, <- app_assoc. naive_solver.
    + intros (before & failed & rest & w1' & w2 & cause' & Heq & Hc & Hf & Hend).
      destruct before as [|b before]; simplify_eq/=; [congruence|].
      destruct Hc as (w3 & Hb & Hc). rewrite Ea in Hb. simplify_eq.
      exists before, failed, rest, w1', w2, cause'. by rewrite reverse_cons, <- app_assoc in Hend.
Qed.

(** [Run] under a context and well-formed steps either completes every
    step in order, or stops at the first step that fails, runs the
    compensations of exactly the steps before it in reverse order, each under a
    context detached from the caller's cancellation, and reports the cause
    together with every compensation that failed; a missing context or a
    malformed step anywhere in the list stops it before any step runs. *)
Theorem Run_completes_or_unwinds {World} (ctx : option Ctx) (steps : list (Step World)) w w' :
  (Run ctx steps w = (w', None) <->
     exists c, ctx = Some c /\ Forall well_formed steps /\ completes c steps w w')
  /\ (forall name cause undo, Run ctx steps w = (w', Some (RbJoin name cause undo)) <->
     exists c before failed rest w1 w2,
       ctx = Some c /\ Forall well_formed steps /\ steps = before ++ failed :: rest /\ before <> []
       /\ completes c before w w1 /\ call (Apply failed) c w1 = (w2, Some cause)
       /\ name = step_Name failed /\ unwind c (reverse before) w2 = (w', undo))
  /\ (~ Forall well_formed steps \/ ctx = None -> exists e, Run ctx steps w = (w, Some e)).
Proof.
  unfold Run. destruct ctx as [c|]; [|split_and!; [naive_solver|naive_solver|eauto]].
  destruct (validate_steps 0 steps) as [[]|e] eqn:Ev.
  - apply validate_steps_ok in Ev. split_and!.
    + rewrite apply_steps_ok. naive_solver.
    + intros name cause undo. rewrite apply_steps_err. setoid_rewrite app_nil_r. split.
      * intros (before & failed & rest & w1 & w2 & cause' & -> & Hc & Hf & Hend).
        exists c, before, failed, rest, w1, w2. destruct (reverse before) eqn:Er.
        { destruct Hend; congruence. }
        destruct Hend as [-> [= -> -> ->]]. split_and!; try done; [by intros ->|apply surjective_pairing].
      * intros (c' & before & failed & rest & w1 & w2 & [= <-] & _ & -> & Hne & Hc & Hf & -> & Hu).
        exists before, failed, rest, w1, w2, cause. refine (conj eq_refl (conj Hc (conj Hf _))).
        revert Hu. destruct (reverse before) eqn:Er; [|intros Hu; cbv zeta; by rewrite Hu].
        by rewrite <- (reverse_involutive before), Er in Hne.
    + intros [?|?]; done.
  - assert (~ Forall well_formed steps) as Hn by (by rewrite <- (validate_steps_ok steps 0), Ev).
    split_and!; [|intros ? ? ?|eauto]; (split; [|naive_solver]); [done|].
    intros [= _ ->]. by apply validate_steps_err in Ev as [? [=]].
Qed.

Lemma unwind_restores {World} ctx (steps : list (Step World)) w w' :
  Forall compensatable steps -> completes ctx steps w w' -> unwind ctx (reverse steps) w' = (w, []).
Proof.
  revert w w'. induction steps as [|s steps IH] using rev_ind; intros w w' Hs Hc.
  { cbn in *. by subst. }
  apply Forall_app in Hs as [Hs [Hl _]%Forall_cons].
  assert (exists w1, completes ctx steps w w1 /\ call (Apply s) ctx w1 = (w', None)) as (w1 & H1 & H2).
  { clear -Hc. revert w Hc. induction steps as [|s' steps IH]; intros w Hc; simpl in *; [naive_solver|].
    destruct Hc as (w1 & ? & ?). naive_solver. }
  rewrite reverse_app. change (reverse [s]) with [s]. cbn [app unwind].
  rewrite (proj1 Hl _ (WithTimeout (WithoutCancel ctx) compensationTimeout) _ _ H2) by done.
  by rewrite (IH _ _ Hs H1).
Qed.

(** When every step's compensation undoes its application and a failing
    step changes nothing, a [Run] that reports an error has left the system
    exactly as it found it, with no compensation failing, even when the
    caller's context is cancelled midway. *)
Theorem Run_is_atomic {World} ctx (steps : list (Step World)) w w' e :
  Forall compensatable steps -> Run ctx steps w = (w', Some e) ->
  w' = w /\ (forall name cause undo, e = RbJoin name cause undo -> undo = []).
Proof.
  intros Hs H. unfold Run in H. destruct ctx as [c|]; [|naive_solver].
  destruct (validate_steps 0 steps) as [[]|e'] eqn:Ev.
  2:{ simplify_eq. split; [done|]. intros ? ? ? ->. by apply validate_steps_err in Ev as [? [=]]. }
  apply apply_steps_err in H as (before & failed & rest & w1 & w2 & cause & -> & Hc & Hf & Hend).
  apply Forall_app in Hs as [Hb [Hfail _]%Forall_cons].
  assert (w2 = w1) as -> by (by eapply (proj2 Hfail)).
  pose proof (unwind_restores c before w w1 Hb Hc) as Hu. rewrite app_nil_r in Hend.
  destruct (reverse before) eqn:Er.
  - destruct Hend as [-> ->]. cbn in Hu. by simplify_eq.
  - cbv zeta in Hend. rewrite Hu in Hend. destruct Hend as [-> ->]. naive_solver.
Qed.

Lemma put_file_compensatable f : compensatable (put_file f).
Proof.
  split; simpl.
  - intros c c' w w'. case_bool_decide; intros [= <-] ->. f_equal. set_solver.
  - intros c w w' e. case_bool_decide; intros; by simplify_eq.
Qed.

Lemma Run_is_atomic_witness :
  exists e, Run (Some (mkCtx true None)) example_steps {["z"%string]} = ({["z"%string]}, Some e).
Proof.
  destruct (Run (Some (mkCtx true None)) example_steps {["z"%string]}) as [w' [e|]] eqn:E.
  - exists e. rewrite (proj1 (Run_is_atomic _ example_steps _ w' e
      ltac:(repeat (constructor; [apply put_file_compensatable|]); constructor) E)). reflexivity.
  - exfalso. revert E. vm_compute. discriminate.
Defined.
