(* ===== verification/Authz.v ===== *)
(** * [server/internal/authz]: the permission catalog, grants and effective access

    Permissions, scope classes, scope kinds and principal types are Go string
    types, so every string is a value of them; the constants are the ones the
    package names. *)

From Stdlib Require Import Ascii String ZArith Lia Permutation.
From S2P Require Export Validate.

(** ** catalog.go *)

(** server/internal/authz/catalog.go:11-11 [maxPermissionNameBytes] *)
Definition maxPermissionNameBytes : Z := 128.

(** server/internal/authz/catalog.go:13-19 [errCatalogEmpty];
    server/internal/authz/grants.go:17-22 [ErrInvalidRole] *)
Inductive authz_error :=
| errCatalogEmpty
| errPermissionNameInvalid (name : string)
| errCatalogOrderInvalid (name previous : string)
| errGlobalRationaleRequired (name : string)
| errPermissionClassInvalid (name : string)
| ErrInvalidRole (reason : string)
| ErrInvalidGrant (reason : string).

#[export] Instance authz_error_eq_dec : EqDecision authz_error.
Proof. solve_decision. Defined.

(** server/internal/authz/catalog.go:27-32 [Confinable] *)
Definition Confinable : string := "confinable".
Definition GlobalOnly : string := "global-only".

(** server/internal/authz/catalog.go:34-39 [CatalogEntry] *)
Record CatalogEntry := mkCatalogEntry { ce_Name : string; ce_Class : string; ce_Rationale : string }.

#[export] Instance catalog_entry_eq_dec : EqDecision CatalogEntry.
Proof. solve_decision. Defined.

(** server/internal/authz/catalog.go:41-85 [permissionCatalog] *)
Definition permissionCatalog : list CatalogEntry :=
  [mkCatalogEntry "action_sets.manage" Confinable "";
   mkCatalogEntry "actions.manage" Confinable "";
   mkCatalogEntry "audit.read" Confinable "";
   mkCatalogEntry "audit_retention.manage" GlobalOnly
     "audit and retention policy changes affect the whole control plane";
   mkCatalogEntry "devices.manage" Confinable "";
   mkCatalogEntry "executions.read" Confinable "";
   mkCatalogEntry "identity_providers.manage" GlobalOnly
     "identity-provider trust configuration controls global sign-in";
   mkCatalogEntry "logs.read" Confinable "";
   mkCatalogEntry "pki.manage" GlobalOnly
     "certificate-authority operations alter global machine trust";
   mkCatalogEntry "roles.manage" GlobalOnly
     "role and grant definitions alter global authorization";
   mkCatalogEntry "scim_configuration.manage" GlobalOnly
     "SCIM provisioning configuration controls global identity state";
   mkCatalogEntry "server_settings.manage" GlobalOnly
     "server settings alter control-plane-wide behavior";
   mkCatalogEntry "user_group_memberships.manage" GlobalOnly
     "membership changes can alter authorization reach across scopes";
   mkCatalogEntry "user_groups.manage" Confinable "";
   mkCatalogEntry "users.manage" Confinable ""].

(** server/internal/authz/catalog.go:87-90 [Catalog] *)
Definition Catalog : list CatalogEntry := permissionCatalog.

(** One segment of a permission name: a lower-case letter, then lower-case
    letters, digits and underscores. *)
Definition valid_segment (segment : string) : bool :=
  match segment with
  | EmptyString => false
  | String a t => is_lower a && string_forallb (fun c => is_lower c || is_digit c || Ascii.eqb c "_") t
  end.

(** server/internal/authz/catalog.go:136-163 [validPermissionName] *)
Definition validPermissionName (value : string) : bool :=
  if (len value =? 0) || (maxPermissionNameBytes <? len value) then false
  else
    let segments := split_on "." value in
    if (length segments <? 2)%nat then false
    else
      let last := default ""%string (last segments) in
      if String.eqb last "self" || String.eqb last "assigned" then false
      else forallb valid_segment segments.

(** server/internal/authz/catalog.go:92-103 [Lookup] *)
Definition Lookup (name : string) : option CatalogEntry :=
  if validPermissionName name
  then find (fun entry => String.eqb (ce_Name entry) name) permissionCatalog
  else None.

(** server/internal/authz/catalog.go:110-132 [validateCatalog], the loop;
    [previous] is [None] at index 0 *)
Fixpoint validate_entries (previous : option string) (entries : list CatalogEntry)
    : result authz_error unit :=
  match entries with
  | [] => Ok tt
  | entry :: rest =>
      fail_if (negb (validPermissionName (ce_Name entry))) (errPermissionNameInvalid (ce_Name entry)) ≫= fun _ =>
      match previous with
      | Some p => fail_if (String.leb (ce_Name entry) p) (errCatalogOrderInvalid (ce_Name entry) p)
      | None => Ok tt
      end ≫= fun _ =>
      (if String.eqb (ce_Class entry) Confinable then Ok tt
       else if String.eqb (ce_Class entry) GlobalOnly
       then fail_if (is_blank (ce_Rationale entry)) (errGlobalRationaleRequired (ce_Name entry))
       else Err (errPermissionClassInvalid (ce_Name entry))) ≫= fun _ =>
      validate_entries (Some (ce_Name entry)) rest
  end.

(** server/internal/authz/catalog.go:105-134 [validateCatalog] *)
Definition validateCatalog (entries : list CatalogEntry) : result authz_error unit :=
  match entries with
  | [] => Err errCatalogEmpty
  | _ => validate_entries None entries
  end.

(** ** grants.go *)

(** server/internal/authz/grants.go:12-15 [maxRoleNameBytes] *)
Definition maxRoleNameBytes : Z := 64.
Definition maxScopeIDs : Z := 1000.

(** server/internal/authz/grants.go:27-30 [PrincipalUser] *)
Definition PrincipalUser : string := "user".
Definition PrincipalUserGroup : string := "user-group".

(** server/internal/authz/grants.go:35-40 [ScopeGlobal] *)
Definition ScopeGlobal : string := "global".
Definition ScopeDeviceGroups : string := "device-groups".
Definition ScopeUserGroups : string := "user-groups".
Definition ScopeSelf : string := "self".

(** server/internal/authz/grants.go:42-46 [Scope] *)
Record Scope := mkScope { sc_Kind : string; sc_IDs : list string }.

(** server/internal/authz/grants.go:48-53 [Role] *)
Record Role := mkRole { role_ID : string; role_Name : string; role_Permissions : list string }.

(** server/internal/authz/grants.go:55-63 [Grant] *)
Record Grant := mkGrant {
  g_ID : string;
  g_PrincipalType : string;
  g_PrincipalID : string;
  g_RoleID : string;
  g_Permissions : list string;
  g_Scope : Scope;
}.

(** server/internal/authz/grants.go:65-70 [GrantAccess] *)
Record GrantAccess := mkGrantAccess {
  ga_GrantID : string;
  ActivePermissions : list string;
  StrippedPermissions : list string;
}.

(** server/internal/authz/grants.go:72-78 [Reach] *)
Record Reach := mkReach {
  Global : bool;
  DeviceGroupIDs : list string;
  UserGroupIDs : list string;
  Self : bool;
}.

(** server/internal/authz/grants.go:80-84 [EffectiveAccess] *)
Record EffectiveAccess := mkEffectiveAccess {
  ea_Grants : list GrantAccess;
  ea_Permissions : gmap string Reach;
}.

#[export] Instance scope_eq_dec : EqDecision Scope.
Proof. solve_decision. Defined.
#[export] Instance grant_eq_dec : EqDecision Grant.
Proof. solve_decision. Defined.
#[export] Instance grant_access_eq_dec : EqDecision GrantAccess.
Proof. solve_decision. Defined.
#[export] Instance reach_eq_dec : EqDecision Reach.
Proof. solve_decision. Defined.

(** server/internal/authz/grants.go:254-259 [canonicalULID] *)
Definition canonicalULID (value : string) : result string string :=
  ULIDPathID value ≫= fun _ => Ok (to_upper value).

(** server/internal/authz/grants.go:261-275 [validRoleName] *)
Definition validRoleName (name : string) : bool :=
  if String.eqb name "" || negb (String.eqb name (trim_space name)) || (maxRoleNameBytes <? len name)
  then false
  else match name with
       | EmptyString => false
       | String a t =>
           is_lower a
           && string_forallb (fun c => is_lower c || is_digit c || contains_byte c "-_.") t
       end.

(** server/internal/authz/grants.go:243-251 [normalizePermissions], the loop;
    [previous] is [None] at index 0 *)
Fixpoint check_permissions (previous : option string) (l : list string) : result string unit :=
  match l with
  | [] => Ok tt
  | permission :: rest =>
      match Lookup permission with
      | None => Err ("unknown permission " +:+ permission)%string
      | Some _ =>
          if bool_decide (previous = Some permission)
          then Err ("duplicate permission " +:+ permission)%string
          else check_permissions (Some permission) rest
      end
  end.

(** server/internal/authz/grants.go:237-252 [normalizePermissions] *)
Definition normalizePermissions (permissions : list string) : result string (list string) :=
  match permissions with
  | [] => Err "permission set is empty"%string
  | _ =>
      let normalized := sort_strings permissions in
      check_permissions None normalized ≫= fun _ => Ok normalized
  end.

(** server/internal/authz/grants.go:277-281 [unionStrings] *)
Definition unionStrings (existing additions : list string) : list string :=
  compact (sort_strings (existing ++ additions)).

(** server/internal/authz/grants.go:86-100 [NormalizeRole] *)
Definition NormalizeRole (role : Role) : result authz_error Role :=
  wrap_err ErrInvalidRole (canonicalULID (role_ID role)) ≫= fun id =>
  fail_if (negb (validRoleName (role_Name role))) (ErrInvalidRole "name") ≫= fun _ =>
  wrap_err ErrInvalidRole (normalizePermissions (role_Permissions role)) ≫= fun permissions =>
  Ok (mkRole id (role_Name role) permissions).

(** server/internal/authz/grants.go:102-114 [NormalizePrincipal] *)
Definition NormalizePrincipal (kind id : string) : result authz_error string :=
  fail_if (negb (String.eqb kind PrincipalUser || String.eqb kind PrincipalUserGroup))
    (ErrInvalidGrant "principal type") ≫= fun _ =>
  wrap_err ErrInvalidGrant (canonicalULID id).

(** server/internal/authz/grants.go:116-152 [NormalizeScope] *)
Definition NormalizeScope (scope : Scope) : result authz_error Scope :=
  if String.eqb (sc_Kind scope) ScopeGlobal || String.eqb (sc_Kind scope) ScopeSelf then
    fail_if (negb (zlen (sc_IDs scope) =? 0)) (ErrInvalidGrant "scope carries IDs") ≫= fun _ =>
    Ok (mkScope (sc_Kind scope) [])
  else if String.eqb (sc_Kind scope) ScopeDeviceGroups || String.eqb (sc_Kind scope) ScopeUserGroups then
    fail_if ((zlen (sc_IDs scope) =? 0) || (maxScopeIDs <? zlen (sc_IDs scope)))
      (ErrInvalidGrant "scope must carry 1..1000 IDs") ≫= fun _ =>
    map_result (fun id => wrap_err ErrInvalidGrant (canonicalULID id)) (sc_IDs scope) ≫= fun ids =>
    let ids := sort_strings ids in
    fail_if (adjacent_dup ids) (ErrInvalidGrant "duplicate scope ID") ≫= fun _ =>
    Ok (mkScope (sc_Kind scope) ids)
  else Err (ErrInvalidGrant "scope kind").

(** server/internal/authz/grants.go:154-184 [NormalizeGrant] *)
Definition NormalizeGrant (grant : Grant) : result authz_error Grant :=
  wrap_err ErrInvalidGrant (canonicalULID (g_ID grant)) ≫= fun id =>
  NormalizePrincipal (g_PrincipalType grant) (g_PrincipalID grant) ≫= fun principalID =>
  wrap_err ErrInvalidGrant (canonicalULID (g_RoleID grant)) ≫= fun roleID =>
  wrap_err ErrInvalidGrant (normalizePermissions (g_Permissions grant)) ≫= fun permissions =>
  NormalizeScope (g_Scope grant) ≫= fun scope =>
  Ok (mkGrant id (g_PrincipalType grant) principalID roleID permissions scope).

(** What [slices.SortFunc] by ID promises: the same grants, in ID order.  Its
    order among equal IDs is unspecified. *)
Class SortsByID (sort : list Grant -> list Grant) : Prop := {
  sort_perm gs : sort gs ≡ₚ gs;
  sort_sorted gs : Sorted (fun a b => String.leb (g_ID a) (g_ID b) = true) (sort gs);
}.

(** server/internal/authz/grants.go:213-229 [Resolve], the reach one active
    permission gains from a grant's scope *)
Definition merge_scope (reach : Reach) (scope : Scope) : Reach :=
  if String.eqb (sc_Kind scope) ScopeGlobal then mkReach true [] [] false
  else if String.eqb (sc_Kind scope) ScopeDeviceGroups then
    if Global reach then reach
    else mkReach (Global reach) (unionStrings (DeviceGroupIDs reach) (sc_IDs scope))
           (UserGroupIDs reach) (Self reach)
  else if String.eqb (sc_Kind scope) ScopeUserGroups then
    if Global reach then reach
    else mkReach (Global reach) (DeviceGroupIDs reach)
           (unionStrings (UserGroupIDs reach) (sc_IDs scope)) (Self reach)
  else if String.eqb (sc_Kind scope) ScopeSelf then
    if Global reach then reach
    else mkReach (Global reach) (DeviceGroupIDs reach) (UserGroupIDs reach) true
  else reach.

Definition zero_reach : Reach := mkReach false [] [] false.

(** server/internal/authz/grants.go:207-208 [Resolve], the test that strips a
    permission from a scoped grant *)
Definition stripped (grant : Grant) (permission : string) : bool :=
  negb (String.eqb (sc_Kind (g_Scope grant)) ScopeGlobal)
  && match Lookup permission with
     | Some entry => String.eqb (ce_Class entry) GlobalOnly
     | None => false
     end.

(** server/internal/authz/grants.go:206-231 [Resolve], the loop over one
    grant's permissions *)
Definition resolve_permission (grant : Grant) (st : GrantAccess * gmap string Reach)
    (permission : string) : GrantAccess * gmap string Reach :=
  let '(access, perms) := st in
  if stripped grant permission
  then (mkGrantAccess (ga_GrantID access) (ActivePermissions access)
          (StrippedPermissions access ++ [permission]), perms)
  else
    let reach := default zero_reach (perms !! permission) in
    (mkGrantAccess (ga_GrantID access) (ActivePermissions access ++ [permission])
       (StrippedPermissions access),
     <[permission := merge_scope reach (g_Scope grant)]> perms).

(** server/internal/authz/grants.go:204-233 [Resolve], the loop over the grants *)
Definition resolve_grant (effective : EffectiveAccess) (grant : Grant) : EffectiveAccess :=
  let '(access, perms) :=
    foldl (resolve_permission grant) (mkGrantAccess (g_ID grant) [] [], ea_Permissions effective)
      (g_Permissions grant) in
  mkEffectiveAccess (ea_Grants effective ++ [access]) perms.

(** server/internal/authz/grants.go:186-235 [Resolve] *)
Definition Resolve (sort : list Grant -> list Grant) (grants : list Grant)
    : result authz_error EffectiveAccess :=
  map_result NormalizeGrant grants ≫= fun normalized =>
  Ok (foldl resolve_grant (mkEffectiveAccess [] ∅) (sort normalized)).

(** ** Specifications *)

Definition by_id (a b : Grant) : Prop := String.leb (g_ID a) (g_ID b) = true.

#[export] Instance by_id_dec : RelDecision by_id.
Proof. intros a b. unfold by_id. apply _. Defined.
#[export] Instance by_id_total : Total by_id.
Proof. intros a b. unfold by_id. destruct (String.leb_total (g_ID a) (g_ID b)); auto. Qed.

Definition sort_by_id : list Grant -> list Grant := merge_sort by_id.

#[export] Instance sort_by_id_sorts : SortsByID sort_by_id.
Proof. split; [apply merge_sort_Permutation|apply (Sorted_merge_sort by_id)]. Qed.

(** A list in the one order [slices.Sort] leaves, without duplicates. *)
Definition canonical_set (l : list string) : Prop := StronglySorted String.le l /\ NoDup l.

(** The scopes that contribute permission [p]: one per grant that carries it
    and does not strip it. *)
Definition contributions (gs : list Grant) (p : string) : list Scope :=
  mbind (fun g => (fun _ => g_Scope g)
                  <$> filter (fun q => q = p /\ stripped g q = false) (g_Permissions g)) gs.

(** The union of a list of scopes: global reach absorbs every other. *)
Definition is_union (scopes : list Scope) (r : Reach) : Prop :=
  (Global r = true <-> exists s, s ∈ scopes /\ sc_Kind s = ScopeGlobal)
  /\ (Global r = true -> r = mkReach true [] [] false)
  /\ canonical_set (DeviceGroupIDs r) /\ canonical_set (UserGroupIDs r)
  /\ (Global r = false ->
       (forall id, id ∈ DeviceGroupIDs r <->
          exists s, s ∈ scopes /\ sc_Kind s = ScopeDeviceGroups /\ id ∈ sc_IDs s)
       /\ (forall id, id ∈ UserGroupIDs r <->
          exists s, s ∈ scopes /\ sc_Kind s = ScopeUserGroups /\ id ∈ sc_IDs s)
       /\ (Self r = true <-> exists s, s ∈ scopes /\ sc_Kind s = ScopeSelf)).

(** A permission has no reach, or the union of what contributes to it. *)
Definition reach_ok (scopes : list Scope) (o : option Reach) : Prop :=
  match o with
  | None => scopes = []
  | Some r => scopes <> [] /\ is_union scopes r
  end.

(** What one grant activates and what it strips. *)
Definition access_of (g : Grant) : GrantAccess :=
  mkGrantAccess (g_ID g) (filter (fun p => stripped g p = false) (g_Permissions g))
    (filter (fun p => stripped g p = true) (g_Permissions g)).

Definition example_ulid (n : string) : string := ("0000000000000000000000000" +:+ n)%string.

(** A scoped grant and a self grant of one role, and a global grant. *)
Definition example_grants : list Grant :=
  [mkGrant (example_ulid "2") PrincipalUser (example_ulid "a") (example_ulid "r")
     ["pki.manage"; "devices.manage"]%string (mkScope ScopeDeviceGroups [example_ulid "z"; example_ulid "g"]);
   mkGrant (example_ulid "1") PrincipalUserGroup (example_ulid "b") (example_ulid "r")
     ["devices.manage"]%string (mkScope ScopeSelf []);
   mkGrant (example_ulid "3") PrincipalUser (example_ulid "a") (example_ulid "r")
     ["logs.read"]%string (mkScope ScopeGlobal [])].

(** ** The catalog *)

Lemma find_spec (name : string) l e :
  NoDup (ce_Name <$> l) ->
  find (fun entry => String.eqb (ce_Name entry) name) l = Some e <-> e ∈ l /\ ce_Name e = name.
Proof.
  intros Hnd. induction l as [|x l IH]; simpl; [set_solver|].
  rewrite fmap_cons in Hnd. apply NoDup_cons in Hnd as [Hx Hnd]. specialize (IH Hnd).
  destruct (String.eqb_spec (ce_Name x) name) as [Heq|Hne].
  - split; [intros [= ->]; set_solver|]. intros [[->|Hin]%elem_of_cons He]; [done|].
    destruct Hx. rewrite Heq, <- He. by apply list_elem_of_fmap_2.
  - rewrite IH, elem_of_cons. naive_solver.
Qed.

Lemma catalog_names_nodup : NoDup (ce_Name <$> permissionCatalog).
Proof. apply (bool_decide_unpack _). by vm_compute. Qed.

Lemma catalog_names_valid :
  forallb (fun e => validPermissionName (ce_Name e)) permissionCatalog = true.
Proof. by vm_compute. Qed.

Lemma Lookup_spec name e : Lookup name = Some e <-> e ∈ permissionCatalog /\ ce_Name e = name.
Proof.
  unfold Lookup. rewrite <- (find_spec name _ e catalog_names_nodup).
  destruct (validPermissionName name) eqn:E; [done|]. split; [done|].
  rewrite (find_spec _ _ _ catalog_names_nodup). intros [Hin He].
  assert (validPermissionName (ce_Name e) = true); [|congruence].
  pose proof catalog_names_valid as H. rewrite forallb_forall in H.
  by apply H, list_elem_of_In.
Qed.

(** The shipped permission catalog passes its own validation, and [Lookup]
    is its exact index: it finds an entry for a name exactly when the catalog
    lists that name, never by default. *)
Theorem permissionCatalog_valid :
  validateCatalog Catalog = Ok tt
  /\ forall name e, Lookup name = Some e <-> e ∈ Catalog /\ ce_Name e = name.
Proof. split; [by vm_compute|]. apply Lookup_spec. Qed.

(** ** Normal forms *)

Lemma sorted_nodup_ext l k :
  canonical_set l -> canonical_set k -> (forall x, x ∈ l <-> x ∈ k) -> l = k.
Proof.
  intros [Hl Hln] [Hk Hkn] Heq. apply sorted_perm_eq; [done|done|]. by apply NoDup_Permutation.
Qed.

Lemma canonical_set_nil : canonical_set [].
Proof. split; constructor. Qed.

Lemma sort_canonical l : canonical_set l -> sort_strings l = l.
Proof.
  intros [Hs _]. apply sorted_perm_eq; [apply sort_strings_sorted|done|apply sort_strings_perm].
Qed.

Lemma canonicalULID_idem v id : canonicalULID v = Ok id -> canonicalULID id = Ok id /\ id = to_upper v.
Proof.
  unfold canonicalULID. intros ([] & H%ULIDPathID_upper & [= <-])%bind_ok. by rewrite H, to_upper_idem.
Qed.

Lemma check_permissions_ok previous l :
  check_permissions previous l = Ok tt <->
  Forall (fun p => is_Some (Lookup p)) l
  /\ adjacent_dup (match previous with Some p => p :: l | None => l end) = false.
Proof.
  revert previous. induction l as [|x l IH]; intros previous; simpl.
  { destruct previous; split; try done; by split. }
  rewrite Forall_cons. destruct (Lookup x) as [e|]; [|naive_solver (eauto using is_Some_None)].
  case_bool_decide as Hp.
  - subst. split; [done|]. intros [_ H]. simpl in H. by rewrite bool_decide_eq_true_2 in H.
  - rewrite IH. destruct previous as [p|]; [|naive_solver].
    change (adjacent_dup (p :: x :: l)) with (bool_decide (p = x) || adjacent_dup (x :: l)).
    rewrite bool_decide_eq_false_2 by congruence. naive_solver.
Qed.

Lemma normalizePermissions_ok l l' :
  normalizePermissions l = Ok l' <->
  l <> [] /\ l' ≡ₚ l /\ canonical_set l' /\ Forall (fun p => is_Some (Lookup p)) l'.
Proof.
  unfold normalizePermissions, canonical_set. destruct l as [|x l]; [naive_solver|].
  rewrite bind_ok. split.
  - intros ([] & H%check_permissions_ok & [= <-]). destruct H as [Hf Hd].
    apply adjacent_dup_nodup in Hd; [|apply sort_strings_sorted].
    split_and!; auto with pm.
  - intros (_ & Hp & [Hs Hn] & Hf).
    assert (sort_strings (x :: l) = l') as Heq.
    { apply sorted_perm_eq; auto with pm. by rewrite sort_strings_perm. }
    exists tt. rewrite Heq. split; [|done]. apply check_permissions_ok. split; [done|].
    by apply adjacent_dup_nodup.
Qed.

Lemma map_result_idem {E} (f : string -> result E string) l l' :
  (forall x y, f x = Ok y -> f y = Ok y) -> map_result f l = Ok l' -> Forall (fun y => f y = Ok y) l'.
Proof.
  intros Hf H%map_result_ok. induction H; constructor; eauto.
Qed.

Lemma map_result_fixed {E} (f : string -> result E string) l :
  Forall (fun y => f y = Ok y) l -> map_result f l = Ok l.
Proof. intros H. apply map_result_ok. induction H; constructor; auto. Qed.

(** The shape of a normalized scope. *)
Lemma NormalizeScope_ok s s' :
  NormalizeScope s = Ok s' ->
  NormalizeScope s' = Ok s' /\ sc_Kind s' = sc_Kind s /\ canonical_set (sc_IDs s')
  /\ sc_IDs s' ≡ₚ to_upper <$> sc_IDs s
  /\ ((sc_Kind s = ScopeGlobal \/ sc_Kind s = ScopeSelf) /\ sc_IDs s' = []
      \/ (sc_Kind s = ScopeDeviceGroups \/ sc_Kind s = ScopeUserGroups) /\ sc_IDs s' <> []).
Proof.
  unfold NormalizeScope. destruct s as [kind ids]. cbn [sc_Kind sc_IDs].
  destruct (String.eqb kind ScopeGlobal || String.eqb kind ScopeSelf) eqn:E1.
  - intros H. inv_result. prop_bools. destruct ids; [|by unfold zlen in *]. cbn [sc_Kind sc_IDs].
    rewrite E1. split_and!; [done|done|apply canonical_set_nil|done|].
    left. split; [|done]. apply orb_true_iff in E1. rewrite !String.eqb_eq in E1. done.
  - destruct (String.eqb kind ScopeDeviceGroups || String.eqb kind ScopeUserGroups) eqn:E2; [|done].
    intros (u & Hlen & (canon & Hm & (u' & Hd & [= <-])%bind_ok)%bind_ok)%bind_ok.
    apply fail_if_ok in Hlen, Hd. apply orb_false_iff in Hlen as [Hne Hmax]. cbn [sc_Kind sc_IDs].
    pose proof (sort_strings_perm canon) as Hp.
    assert (Hcan : canonical_set (sort_strings canon))
      by (split; [auto with pm|apply adjacent_dup_nodup; auto with pm]).
    assert (length canon = length ids) as Hl
      by (apply map_result_ok, Forall2_length in Hm; done).
    assert (canon = to_upper <$> ids) as Hup.
    { clear -Hm. apply map_result_ok in Hm. induction Hm as [|x y xs ys Hxy Hm IH]; [done|].
      apply wrap_err_ok, canonicalULID_idem in Hxy as [_ ->]. rewrite fmap_cons. by f_equal. }
    split_and!.
    + rewrite E1, E2. unfold zlen in *. rewrite !(Permutation_length Hp), Hl, Hne, Hmax. cbn [orb fail_if].
      cbn [mbind result_bind]. rewrite map_result_fixed; [cbn [mbind result_bind]|].
      * rewrite sort_canonical, Hd by done. done.
      * rewrite Hp. eapply map_result_idem; [|exact Hm].
        intros x y H%wrap_err_ok%canonicalULID_idem. by rewrite (proj1 H).
    + done.
    + done.
    + by rewrite Hp, Hup.
    + right. split; [|intros Hnil; rewrite Hnil in Hp; apply Permutation_nil_l in Hp; subst;
        destruct ids; [by prop_bools|done]].
      apply orb_true_iff in E2. rewrite !String.eqb_eq in E2. done.
Qed.

Lemma NormalizeScope_ids s s' :
  NormalizeScope s = Ok s' -> Forall (fun id => ULIDPathID id = Ok tt /\ to_upper id = id) (sc_IDs s').
Proof.
  unfold NormalizeScope. destruct s as [kind ids]. cbn [sc_Kind sc_IDs].
  destruct (_ || _).
  { intros H. inv_result. constructor. }
  destruct (_ || _); [|done].
  intros (u & _ & (canon & Hm & (u' & _ & [= <-])%bind_ok)%bind_ok)%bind_ok. cbn [sc_IDs].
  rewrite (sort_strings_perm canon). apply map_result_ok in Hm. induction Hm as [|x y xs ys Hxy Hm IH]; constructor; [|done].
  apply wrap_err_ok, canonicalULID_idem in Hxy as [Hy Hup]. unfold canonicalULID in Hy.
  apply bind_ok in Hy as ([] & H & [= Heq]). by rewrite H.
Qed.

Lemma NormalizeGrant_ok g g' :
  NormalizeGrant g = Ok g' ->
  NormalizeGrant g' = Ok g' /\ g_ID g' = to_upper (g_ID g)
  /\ g_PrincipalType g' = g_PrincipalType g /\ g_PrincipalID g' = to_upper (g_PrincipalID g)
  /\ g_RoleID g' = to_upper (g_RoleID g)
  /\ canonical_set (g_Permissions g') /\ g_Permissions g' ≡ₚ g_Permissions g
  /\ Forall (fun p => is_Some (Lookup p)) (g_Permissions g')
  /\ NormalizeScope (g_Scope g) = Ok (g_Scope g').
Proof.
  unfold NormalizeGrant, NormalizePrincipal. destruct g as [id pt pid rid ps sc]. cbn.
  intros (id' & [Hid Hid']%wrap_err_ok%canonicalULID_idem & H)%bind_ok.
  apply bind_ok in H as (pid' & (u & Hpt & [Hpid Hpid']%wrap_err_ok%canonicalULID_idem)%bind_ok & H).
  apply bind_ok in H as (rid' & [Hrid Hrid']%wrap_err_ok%canonicalULID_idem & H).
  apply bind_ok in H as (ps' & Hps%wrap_err_ok & H). apply bind_ok in H as (sc' & Hsc & [= <-]).
  pose proof (proj1 (normalizePermissions_ok _ _) Hps) as (Hne & Hp & Hcan & Hin).
  cbn. split_and!; try done.
  apply fail_if_ok in Hpt. rewrite Hid, Hpt. cbn. rewrite Hpid. cbn. rewrite Hrid. cbn.
  destruct (NormalizeScope_ok _ _ Hsc) as [Hsc' _]. rewrite Hsc'.
  rewrite (proj2 (normalizePermissions_ok ps' ps')); [done|].
  split_and!; try done. intros ->. by apply Permutation_nil_l in Hp.
Qed.

(** Normalizing a grant either refuses it or returns its one normal form:
    the identifiers upper-cased, the same permissions and scope IDs as sorted
    duplicate-free lists of catalog permissions, IDs present exactly for the
    group scopes; and the normal form is a fixed point, so persisted grants are
    stable. *)
Theorem NormalizeGrant_canonical g g' :
  NormalizeGrant g = Ok g' ->
  NormalizeGrant g' = Ok g'
  /\ g_ID g' = to_upper (g_ID g) /\ g_PrincipalID g' = to_upper (g_PrincipalID g)
  /\ canonical_set (g_Permissions g') /\ g_Permissions g' ≡ₚ g_Permissions g
  /\ Forall (fun p => exists e, e ∈ Catalog /\ ce_Name e = p) (g_Permissions g')
  /\ canonical_set (sc_IDs (g_Scope g')) /\ sc_IDs (g_Scope g') ≡ₚ to_upper <$> sc_IDs (g_Scope g)
  /\ (sc_IDs (g_Scope g') = [] <->
       sc_Kind (g_Scope g) = ScopeGlobal \/ sc_Kind (g_Scope g) = ScopeSelf).
Proof.
  intros H. destruct (NormalizeGrant_ok _ _ H) as (Hn & Hid & Hpt & Hpid & Hrid & Hc & Hp & Hin & Hsc).
  destruct (NormalizeScope_ok _ _ Hsc) as (_ & _ & Hcs & Hps & Hkind).
  split_and!; try done.
  - eapply Forall_impl; [exact Hin|]. intros p [e He]. exists e. by apply Lookup_spec.
  - split; [intros Hnil; by destruct Hkind as [[? _]|[_ Hne]]|]. intros Hk. destruct Hkind as [[_ ?]|[Hk' _]]; [done|].
    destruct Hk as [Hk|Hk]; rewrite Hk in Hk'; by destruct Hk'.
Qed.

Lemma NormalizeGrant_canonical_witness :
  exists g', NormalizeGrant (nth 0 example_grants (mkGrant "" "" "" "" [] (mkScope "" []))) = Ok g'
  /\ sc_IDs (g_Scope g') = [example_ulid "G"; example_ulid "Z"] /\ NormalizeGrant g' = Ok g'.
Proof.
  eexists. split; [vm_compute; reflexivity|]. split; [reflexivity|].
  refine (proj1 (NormalizeGrant_canonical (nth 0 example_grants (mkGrant "" "" "" "" [] (mkScope "" []))) _ _)).
  vm_compute. reflexivity.
Defined.

(** ** Effective access *)

Lemma unionStrings_spec l k :
  canonical_set (unionStrings l k) /\ forall x, x ∈ unionStrings l k <-> x ∈ l \/ x ∈ k.
Proof.
  unfold unionStrings. split.
  - apply compact_sorted_nodup, sort_strings_sorted.
  - intros x. by rewrite elem_of_compact, sort_strings_perm, elem_of_app.
Qed.

Lemma is_union_nil : is_union [] zero_reach.
Proof.
  split_and!; try done; try apply canonical_set_nil.
  - split; [done|]. intros (s & Hs & _). set_solver.
  - intros _. simpl. set_solver.
Qed.

Lemma exists_snoc {A} (P : A -> Prop) l x : (exists y, y ∈ l ++ [x] /\ P y) <-> (exists y, y ∈ l /\ P y) \/ P x.
Proof.
  setoid_rewrite elem_of_app. setoid_rewrite list_elem_of_singleton. split; [|naive_solver].
  intros (y & [Hy| ->] & HP); eauto.
Qed.

(** Adding one more contribution to a union. *)
Lemma is_union_snoc ss r s : is_union ss r -> is_union (ss ++ [s]) (merge_scope r s).
Proof.
  destruct s as [kind ids]. intros (Hg & Hglob & Hd & Hu & Hrest). unfold merge_scope, is_union.
  setoid_rewrite exists_snoc. cbn [sc_Kind sc_IDs].
  destruct (String.eqb_spec kind ScopeGlobal) as [->|Hng].
  { cbn. split_and!; try done; try apply canonical_set_nil. naive_solver. }
  assert (forall P Q, (P <-> Q) -> (P <-> Q \/ kind = ScopeGlobal)) as Hor by tauto.
  destruct (Global r) eqn:Er.
  { rewrite (Hglob eq_refl). cbn.
    repeat case_match; cbn; split_and!; try done; try apply canonical_set_nil; naive_solver. }
  destruct (Hrest eq_refl) as (Hrd & Hru & Hrs).
  destruct (unionStrings_spec (DeviceGroupIDs r) ids) as [Hcd Hed].
  destruct (unionStrings_spec (UserGroupIDs r) ids) as [Hcu Heu].
  destruct (String.eqb_spec kind ScopeDeviceGroups) as [->|Hnd]; [|
  destruct (String.eqb_spec kind ScopeUserGroups) as [->|Hnu]; [|
  destruct (String.eqb_spec kind ScopeSelf) as [->|Hns]]].
  all: cbn; rewrite ?Er; split; [by apply Hor|]; split; [done|]; split; [done|]; split; [done|]; intros _.
  all: rewrite ?Hrs; setoid_rewrite Hed || idtac; setoid_rewrite Heu || idtac;
       setoid_rewrite Hrd; setoid_rewrite Hru.
  all: split_and!; try (intros id); unfold ScopeDeviceGroups, ScopeUserGroups, ScopeSelf in *; naive_solver.
Qed.

Definition add_scope (o : option Reach) (s : Scope) : option Reach :=
  Some (merge_scope (default zero_reach o) s).

Lemma resolve_permissions_fold g l acc perms :
  let r := foldl (resolve_permission g) (acc, perms) l in
  r.1 = mkGrantAccess (ga_GrantID acc)
          (ActivePermissions acc ++ filter (fun p => stripped g p = false) l)
          (StrippedPermissions acc ++ filter (fun p => stripped g p = true) l)
  /\ forall p, r.2 !! p
       = foldl add_scope (perms !! p)
           ((fun _ => g_Scope g) <$> filter (fun q => q = p /\ stripped g q = false) l).
Proof.
  revert acc perms. induction l as [|q l IH]; intros acc perms.
  { cbn. rewrite !app_nil_r. by destruct acc. }
  cbn [foldl]. unfold resolve_permission at 2 4. destruct (stripped g q) eqn:Es.
  - destruct (IH (mkGrantAccess (ga_GrantID acc) (ActivePermissions acc)
      (StrippedPermissions acc ++ [q])) perms) as [H1 H2]. split.
    + rewrite H1, !filter_cons. cbn [ga_GrantID ActivePermissions StrippedPermissions].
      repeat case_decide; try congruence. by rewrite <- app_assoc.
    + intros p. rewrite H2, filter_cons. case_decide; [naive_solver congruence|done].
  - destruct (IH (mkGrantAccess (ga_GrantID acc) (ActivePermissions acc ++ [q])
      (StrippedPermissions acc))
      (<[q := merge_scope (default zero_reach (perms !! q)) (g_Scope g)]> perms)) as [H1 H2]. split.
    + rewrite H1, !filter_cons. cbn [ga_GrantID ActivePermissions StrippedPermissions].
      repeat case_decide; try congruence. by rewrite <- app_assoc.
    + intros p. rewrite H2. destruct (decide (q = p)) as [->|Hne].
      * rewrite lookup_insert_eq, filter_cons. case_decide; [done|naive_solver].
      * rewrite lookup_insert_ne, filter_cons by done. case_decide; [naive_solver|done].
Qed.

Lemma resolve_grants_fold gs eff :
  let r := foldl resolve_grant eff gs in
  ea_Grants r = ea_Grants eff ++ (access_of <$> gs)
  /\ forall p, ea_Permissions r !! p = foldl add_scope (ea_Permissions eff !! p) (contributions gs p).
Proof.
  revert eff. induction gs as [|g gs IH]; intros eff; [by cbn; rewrite app_nil_r|].
  cbn [foldl]. destruct (resolve_permissions_fold g (g_Permissions g) (mkGrantAccess (g_ID g) [] [])
    (ea_Permissions eff)) as [H1 H2].
  assert (ea_Grants (resolve_grant eff g) = ea_Grants eff ++ [access_of g]
    /\ ea_Permissions (resolve_grant eff g)
      = (foldl (resolve_permission g) (mkGrantAccess (g_ID g) [] [], ea_Permissions eff) (g_Permissions g)).2)
    as [Hgr Hpe].
  { unfold resolve_grant. destruct (foldl _ _ (g_Permissions g)) as [access perms]. cbn in *. by subst. }
  destruct (IH (resolve_grant eff g)) as [H3 H4]. cbv zeta. split.
  - by rewrite H3, Hgr, <- app_assoc.
  - intros p. rewrite H4, Hpe, H2. unfold contributions. cbn [mbind list_bind]. by rewrite foldl_app.
Qed.

Lemma add_scopes_ok ss o ss' : reach_ok ss o -> reach_ok (ss ++ ss') (foldl add_scope o ss').
Proof.
  revert ss o. induction ss' as [|s ss' IH]; intros ss o Ho; simpl; [by rewrite app_nil_r|].
  rewrite (cons_middle s ss ss'), (app_assoc ss [s] ss'). apply IH. unfold add_scope. split; [by destruct ss|].
  apply is_union_snoc. destruct o as [r|]; simpl in *; [apply Ho|]. subst. apply is_union_nil.
Qed.

Lemma Resolve_ok sort gs eff :
  Resolve sort gs = Ok eff ->
  exists ns, map_result NormalizeGrant gs = Ok ns /\ ea_Grants eff = access_of <$> sort ns
  /\ forall p, reach_ok (contributions (sort ns) p) (ea_Permissions eff !! p).
Proof.
  unfold Resolve. intros (ns & Hn & [= <-])%bind_ok. exists ns.
  destruct (resolve_grants_fold (sort ns) (mkEffectiveAccess [] ∅)) as [H1 H2].
  split_and!; [done|done|]. intros p. rewrite H2. by apply (add_scopes_ok []).
Qed.

Lemma elem_of_contributions gs p s :
  s ∈ contributions gs p <-> exists g, g ∈ gs /\ p ∈ g_Permissions g /\ stripped g p = false /\ s = g_Scope g.
Proof.
  unfold contributions. rewrite list_elem_of_bind.
  setoid_rewrite list_elem_of_fmap. setoid_rewrite list_elem_of_filter. naive_solver.
Qed.

(** Two lists of scopes with the same members have the same union. *)
Lemma is_union_unique ss ss' r r' :
  is_union ss r -> is_union ss' r' -> (forall s, s ∈ ss <-> s ∈ ss') -> r = r'.
Proof.
  intros (Hg & Hglob & Hd & Hu & Hrest) (Hg' & Hglob' & Hd' & Hu' & Hrest') Hss.
  assert (Global r = Global r') as Heq.
  { apply eq_true_iff_eq. rewrite Hg, Hg'. by setoid_rewrite Hss. }
  destruct (Global r) eqn:Er.
  { rewrite Hglob by done. by rewrite Hglob' by (by rewrite <- Heq). }
  destruct (Hrest eq_refl) as (H1 & H2 & H3). destruct (Hrest' (eq_sym Heq)) as (H1' & H2' & H3').
  destruct r as [gl d u se], r' as [gl' d' u' se']. cbn in *. f_equal; [congruence|..].
  - apply sorted_nodup_ext; [done|done|]. intros x. rewrite H1, H1'. by setoid_rewrite Hss.
  - apply sorted_nodup_ext; [done|done|]. intros x. rewrite H2, H2'. by setoid_rewrite Hss.
  - apply eq_true_iff_eq. rewrite H3, H3'. by setoid_rewrite Hss.
Qed.

(** Of a permission: what [Resolve] reports is the union of what contributes. *)
Lemma Resolve_union sort `{!SortsByID sort} gs eff :
  Resolve sort gs = Ok eff ->
  exists ns, map_result NormalizeGrant gs = Ok ns
  /\ forall p,
       (is_Some (ea_Permissions eff !! p) <->
        exists g, g ∈ ns /\ p ∈ g_Permissions g /\ stripped g p = false)
       /\ (forall r, ea_Permissions eff !! p = Some r -> is_union (contributions ns p) r).
Proof.
  intros (ns & Hn & _ & Hp)%Resolve_ok. exists ns. pose proof (sort_perm ns) as Hperm.
  assert (forall p s, s ∈ contributions (sort ns) p <-> s ∈ contributions ns p) as Hc.
  { intros p s. rewrite !elem_of_contributions. by setoid_rewrite Hperm. }
  split; [done|]. intros p. specialize (Hp p). split.
  - transitivity (exists s, s ∈ contributions ns p).
    + setoid_rewrite <- Hc. destruct (ea_Permissions eff !! p) as [r|]; simpl in Hp.
      * destruct Hp as [Hne _]. destruct (contributions (sort ns) p); [done|]. split; [|eauto].
        intros _. eexists. left.
      * rewrite Hp. split; [by intros []|]. intros [s Hs]. set_solver.
    + setoid_rewrite elem_of_contributions. naive_solver.
  - intros r Hr. rewrite Hr in Hp. destruct Hp as [_ Hu]. unfold is_union in *.
    by setoid_rewrite <- Hc.
Qed.

(** C11. The reach [Resolve] reports for a permission is exactly the union of
    the scopes of the grants that carry it without stripping it, with global
    reach absorbing every other scope, and a permission is listed exactly when
    some grant contributes it; each grant's access splits its permissions into
    the ones it activates and the global-only ones its scope strips. *)
Theorem Resolve_reach_is_union sort `{!SortsByID sort} gs eff :
  Resolve sort gs = Ok eff ->
  exists ns, map_result NormalizeGrant gs = Ok ns
  /\ ea_Grants eff ≡ₚ access_of <$> ns
  /\ forall p,
       (is_Some (ea_Permissions eff !! p) <->
        exists g, g ∈ ns /\ p ∈ g_Permissions g /\ stripped g p = false)
       /\ (forall r, ea_Permissions eff !! p = Some r -> is_union (contributions ns p) r).
Proof.
  intros H. destruct (Resolve_union sort gs eff H) as (ns & Hn & Hp). exists ns. split_and!; [done| |exact Hp].
  destruct (Resolve_ok sort gs eff H) as (ns' & Hn' & -> & _). rewrite Hn in Hn'. injection Hn' as <-.
  by rewrite (sort_perm ns).
Qed.

Lemma Resolve_reach_is_union_witness :
  exists eff, Resolve sort_by_id example_grants = Ok eff
  /\ ea_Permissions eff !! "pki.manage"%string = None
  /\ ea_Permissions eff !! "devices.manage"%string
     = Some (mkReach false [example_ulid "G"; example_ulid "Z"] [] true)
  /\ exists ns, map_result NormalizeGrant example_grants = Ok ns.
Proof.
  eexists. split; [vm_compute; reflexivity|]. split; [reflexivity|]. split; [reflexivity|].
  edestruct (Resolve_reach_is_union sort_by_id example_grants) as (ns & Hn & _).
  { vm_compute. reflexivity. }
  exists ns. exact Hn.
Defined.

Lemma map_result_perm {E A B} (f : A -> result E B) l l' k :
  l ≡ₚ l' -> map_result f l = Ok k -> exists k', map_result f l' = Ok k' /\ k ≡ₚ k'.
Proof.
  intros Hp Hk%map_result_ok.
  destruct (Permutation.Permutation_Forall2 Hp Hk) as (k' & Hk' & Hf).
  exists k'. split; [by apply map_result_ok|done].
Qed.

Lemma by_id_unique l k :
  NoDup (g_ID <$> l) -> l ≡ₚ k -> Sorted by_id l -> Sorted by_id k -> l = k.
Proof.
  intros Hnd Hp Hl Hk.
  assert (g_ID <$> l = g_ID <$> k) as Hids.
  { apply sorted_perm_eq; [| |by rewrite Hp].
    all: apply Sorted_StronglySorted; [apply _|]; eapply Sorted_fmap; [|eassumption].
    all: intros a b; apply Is_true_true. }
  apply list_eq. intros i. apply (f_equal (fun x => x !! i)) in Hids. rewrite !list_lookup_fmap in Hids.
  destruct (l !! i) as [a|] eqn:Ha, (k !! i) as [b|] eqn:Hb; try done. simpl in Hids. f_equal.
  eapply (nodup_key_inj g_ID); [done|by eapply list_elem_of_lookup_2|rewrite Hp; by eapply list_elem_of_lookup_2|congruence].
Qed.

(** Effective access does not depend on the order in which the grants are
    read from the database, nor on how [slices.SortFunc] arranges equal IDs:
    the per-permission reach is the same map, and with distinct grant IDs the
    per-grant report is the same list. *)
Theorem Resolve_order_independent s1 s2 `{!SortsByID s1, !SortsByID s2} gs1 gs2 e1 :
  gs1 ≡ₚ gs2 -> Resolve s1 gs1 = Ok e1 ->
  exists e2, Resolve s2 gs2 = Ok e2 /\ ea_Permissions e2 = ea_Permissions e1
  /\ (NoDup (ga_GrantID <$> ea_Grants e1) -> ea_Grants e2 = ea_Grants e1).
Proof.
  intros Hp H1. destruct (Resolve_ok _ _ _ H1) as (ns1 & Hn1 & Hg1 & Hr1).
  destruct (map_result_perm _ _ _ _ Hp Hn1) as (ns2 & Hn2 & Hns).
  assert (exists e2, Resolve s2 gs2 = Ok e2) as [e2 H2] by (unfold Resolve; rewrite Hn2; eexists; done).
  exists e2. destruct (Resolve_ok _ _ _ H2) as (ns2' & Hn2' & Hg2 & Hr2).
  rewrite Hn2 in Hn2'. injection Hn2' as <-. split; [done|].
  assert (s1 ns1 ≡ₚ s2 ns2) as Hs by (by rewrite !sort_perm).
  split.
  - apply map_eq. intros p. specialize (Hr1 p). specialize (Hr2 p).
    assert (forall s, s ∈ contributions (s2 ns2) p <-> s ∈ contributions (s1 ns1) p) as Hc.
    { intros s. rewrite !elem_of_contributions. by setoid_rewrite Hs. }
    destruct (ea_Permissions e2 !! p) as [r2|], (ea_Permissions e1 !! p) as [r1|]; simpl in *.
    + f_equal. eapply is_union_unique; [apply Hr2|apply Hr1|done].
    + destruct Hr2 as [Hne _]. rewrite Hr1 in Hc.
      destruct (contributions (s2 ns2) p); [done|]. exfalso. specialize (Hc s). set_solver.
    + destruct Hr1 as [Hne _]. rewrite Hr2 in Hc.
      destruct (contributions (s1 ns1) p); [done|]. exfalso. specialize (Hc s). set_solver.
    + done.
  - rewrite Hg1, Hg2. intros Hnd. f_equal. symmetry. apply by_id_unique; [|done|apply sort_sorted..].
    rewrite <- list_fmap_compose in Hnd. exact Hnd.
Qed.

Lemma Resolve_order_independent_witness :
  exists e, Resolve sort_by_id (reverse example_grants) = Ok e.
Proof.
  edestruct (Resolve_order_independent sort_by_id sort_by_id example_grants (reverse example_grants))
    as (e2 & H2 & _); [|vm_compute; reflexivity|exists e2; exact H2].
  symmetry. apply reverse_Permutation.
Defined.

(** A permission the catalog marks global-only is never in force through a
    scoped grant: whenever it is in force, its reach is global and one of the
    grants given to [Resolve] carries it with global scope, and a grant with
    any other scope reports it as stripped, never as active. *)
Theorem global_only_needs_global_grant sort `{!SortsByID sort} gs eff p e :
  Resolve sort gs = Ok eff -> Lookup p = Some e -> ce_Class e = GlobalOnly ->
  (forall r, ea_Permissions eff !! p = Some r ->
     r = mkReach true [] [] false
     /\ exists g, g ∈ gs /\ p ∈ g_Permissions g /\ sc_Kind (g_Scope g) = ScopeGlobal)
  /\ (forall g, g ∈ gs -> p ∈ g_Permissions g -> sc_Kind (g_Scope g) <> ScopeGlobal ->
     exists a, a ∈ ea_Grants eff /\ ga_GrantID a = to_upper (g_ID g)
       /\ p ∈ StrippedPermissions a /\ p ∉ ActivePermissions a).
Proof.
  intros (ns & Hn%map_result_ok & Hg & Hr)%Resolve_ok Hl Hc. pose proof (sort_perm ns) as Hperm.
  assert (forall g, stripped g p = negb (String.eqb (sc_Kind (g_Scope g)) ScopeGlobal)) as Hst.
  { intros g. unfold stripped. rewrite Hl, Hc. apply andb_true_r. }
  split.
  - intros r Hpr. specialize (Hr p). rewrite Hpr in Hr. destruct Hr as [Hne (Hgl & Habs & _)].
    destruct (contributions (sort ns) p) as [|s ss] eqn:Hcs; [done|].
    assert (s ∈ contributions (sort ns) p) as Hs by (rewrite Hcs; left).
    apply elem_of_contributions in Hs as (g' & Hg' & Hp & Hnst & ->).
    rewrite Hst in Hnst. prop_bools. split.
    + apply Habs, Hgl. eexists. split; [left|done].
    + rewrite Hperm in Hg'. apply list_elem_of_lookup in Hg' as [i Hi].
      destruct (Forall2_lookup_r _ _ _ _ _ Hn Hi) as (g & Hgi & Hng).
      apply NormalizeGrant_ok in Hng as (_ & _ & _ & _ & _ & _ & Hpp & _ & Hsc).
      apply NormalizeScope_ok in Hsc as (_ & Hk & _).
      exists g. split; [by eapply list_elem_of_lookup_2|]. rewrite <- Hpp, <- Hk. done.
  - intros g Hin Hp Hk. apply list_elem_of_lookup in Hin as [i Hi].
    destruct (Forall2_lookup_l _ _ _ _ _ Hn Hi) as (g' & Hgi & Hng).
    apply NormalizeGrant_ok in Hng as (_ & Hid & _ & _ & _ & _ & Hpp & _ & Hsc).
    apply NormalizeScope_ok in Hsc as (_ & Hkk & _).
    assert (stripped g' p = true) as Hs.
    { rewrite Hst, Hkk. by apply negb_true_iff, String.eqb_neq. }
    exists (access_of g'). split_and!.
    + rewrite Hg. apply list_elem_of_fmap_2. rewrite Hperm. by eapply list_elem_of_lookup_2.
    + done.
    + apply list_elem_of_filter. split; [done|]. by rewrite Hpp.
    + intros [? _]%list_elem_of_filter. congruence.
Qed.

Lemma global_only_needs_global_grant_witness :
  exists eff a, Resolve sort_by_id example_grants = Ok eff /\ a ∈ ea_Grants eff
  /\ "pki.manage"%string ∈ StrippedPermissions a.
Proof.
  destruct (Resolve sort_by_id example_grants) as [eff|e] eqn:E; [|revert E; vm_compute; discriminate].
  pose proof (global_only_needs_global_grant sort_by_id example_grants eff "pki.manage"
    (mkCatalogEntry "pki.manage" GlobalOnly "certificate-authority operations alter global machine trust")
    E eq_refl eq_refl) as [_ H].
  destruct (H (nth 0 example_grants (mkGrant "" "" "" "" [] (mkScope "" [])))) as (a & Ha & _ & Hs & _).
  - left.
  - left.
  - discriminate.
  - exists eff, a. split; [reflexivity|]. split; [exact Ha|exact Hs].
Defined.
