(* ===== verification/Registry.v ===== *)
(** * [server/internal/store]: events, projection targets and their registry

    The data of the event store, the construction of its registry ([New] with
    the ownership claims over tables, streams and event types), the last-admin
    classification of events and the classification of tables.  [P] is the
    contents of every table but [events]. *)

From Stdlib Require Import Ascii String ZArith Lia.
From S2P Require Export Authz.

(** server/internal/store/store.go:39-46 [Event]; a nil payload is [None] *)
Record Event := mkEvent {
  StreamType : string;
  StreamID : string;
  EventType : string;
  PayloadVersion : Z;
  Payload : option string;
}.

#[export] Instance event_eq_dec : EqDecision Event.
Proof. solve_decision. Defined.

(** server/internal/store/store.go:48-53 [PersistedEvent] *)
Record PersistedEvent := mkPersistedEvent {
  pe_Event : Event;
  StreamVersion : Z;
  CreatedAt : time;
}.

#[export] Instance persisted_event_eq_dec : EqDecision PersistedEvent.
Proof. solve_decision. Defined.

(** server/internal/store/store.go:63-67 [projectionTx]; the queries it carries
    are the state a projector is given *)
Record projectionTx := mkProjectionTx { sourceEvent : option PersistedEvent; skipWork : bool }.

(** server/internal/store/store.go:75-76 [Projector] *)
Definition Projector (P : Type) : Type := projectionTx -> P -> PersistedEvent -> result goerr P.

(** server/internal/store/store.go:78-85 [RebuildTarget]; a nil reset is [None] *)
Record RebuildTarget (P : Type) := mkRebuildTarget {
  Tables : list string;
  SharedTables : list string;
  StreamTypes : list string;
  EventTypes : list string;
  Reset : option (projectionTx -> P -> result goerr P);
}.
Arguments mkRebuildTarget {P}.
Arguments Tables {P}.
Arguments SharedTables {P}.
Arguments StreamTypes {P}.
Arguments EventTypes {P}.
Arguments Reset {P}.

(** server/internal/store/store.go:87-94 [Store] *)
Record Store (P : Type) := mkStore {
  projectors : gmap string (Projector P);
  rebuildTargets : gmap string (RebuildTarget P);
  eventTargets : gmap string string;
  lastAdminReductionEvents : gset string;
}.
Arguments mkStore {P}.
Arguments projectors {P}.
Arguments rebuildTargets {P}.
Arguments eventTargets {P}.
Arguments lastAdminReductionEvents {P}.

(** [slices.Sorted(maps.Keys(m))]. *)
Definition sorted_keys {A} (m : gmap string A) : list string := sort_strings (map_to_list m).*1.

(** server/internal/store/store.go:250-276 [claimRebuildValues]; the owners map
    is threaded *)
Definition claimRebuildValues (targetName kind : string) (values : list string)
    (owners : gmap string string) : result goerr (list string * gmap string string) :=
  fail_if (zlen values =? 0) (EMsg "store: rebuild target has no values") ≫= fun _ =>
  fold_result (fun owners value =>
    fail_if (is_blank value) (EMsg "store: rebuild target has an empty value") ≫= fun _ =>
    match owners !! value with
    | Some _ => Err (EMsg "store: rebuild value is owned by two targets")
    | None => Ok (<[value := targetName]> owners)
    end) owners values ≫= fun owners' =>
  Ok (values, owners').

(** server/internal/store/store.go:214-225 [claimRebuildTables], the exclusive
    tables *)
Definition claim_exclusive (targetName : string) (sharedOwners : gmap string (gset string))
    (owners : gmap string string) (table : string) : result goerr (gmap string string) :=
  fail_if (is_blank table) (EMsg "store: rebuild target has an empty table") ≫= fun _ =>
  match owners !! table with
  | Some _ => Err (EMsg "store: rebuild table is owned by two targets")
  | None =>
      fail_if (negb (bool_decide (default ∅ (sharedOwners !! table) = (∅ : gset string))))
        (EMsg "store: rebuild table is both exclusive and shared") ≫= fun _ =>
      Ok (<[table := targetName]> owners)
  end.

(** server/internal/store/store.go:226-242 [claimRebuildTables], the shared
    tables; the state is [seen] and the shared owners *)
Definition claim_shared (targetName : string) (owners : gmap string string)
    (st : gset string * gmap string (gset string)) (table : string)
    : result goerr (gset string * gmap string (gset string)) :=
  let '(seen, sharedOwners) := st in
  fail_if (is_blank table) (EMsg "store: rebuild target has an empty shared table") ≫= fun _ =>
  fail_if (bool_decide (table ∈ seen)) (EMsg "store: rebuild target repeats a shared table") ≫= fun _ =>
  match owners !! table with
  | Some _ => Err (EMsg "store: rebuild table is both exclusive and shared")
  | None =>
      Ok ({[table]} ∪ seen,
          <[table := {[targetName]} ∪ default ∅ (sharedOwners !! table)]> sharedOwners)
  end.

(** server/internal/store/store.go:202-244 [claimRebuildTables] *)
Definition claimRebuildTables (targetName : string) (tables sharedTables : list string)
    (owners : gmap string string) (sharedOwners : gmap string (gset string))
    : result goerr (gmap string string * gmap string (gset string)) :=
  fail_if (zlen tables + zlen sharedTables =? 0) (EMsg "store: rebuild target has no tables") ≫= fun _ =>
  fold_result (claim_exclusive targetName sharedOwners) owners tables ≫= fun owners' =>
  fold_result (claim_shared targetName owners') (∅, sharedOwners) sharedTables ≫= fun st =>
  Ok (owners', st.2).

(** server/internal/store/store.go:246-248 [rebuildTargetTables] *)
Definition rebuildTargetTables {P} (target : RebuildTarget P) : list string :=
  Tables target ++ SharedTables target.

(** The owner maps [copyRebuildTargets] threads, and the registry it builds. *)
Record Owners (P : Type) := mkOwners {
  tableOwners : gmap string string;
  sharedTableOwners : gmap string (gset string);
  streamOwners : gmap string string;
  eventOwners : gmap string string;
  registry : gmap string (RebuildTarget P);
}.
Arguments mkOwners {P}.
Arguments tableOwners {P}.
Arguments sharedTableOwners {P}.
Arguments streamOwners {P}.
Arguments eventOwners {P}.
Arguments registry {P}.

(** server/internal/store/store.go:154-192 [copyRebuildTargets], the body of
    the loop over the target names *)
Definition claim_target {P} (projs : gmap string (Projector P)) (targets : gmap string (RebuildTarget P))
    (o : Owners P) (name : string) : result goerr (Owners P) :=
  or_err (targets !! name) (EMsg "missing") ≫= fun target =>
  fail_if (is_blank name) (EMsg "store: rebuild target name is empty") ≫= fun _ =>
  fail_if (match Reset target with None => true | Some _ => false end)
    (EMsg "store: rebuild target has nil reset") ≫= fun _ =>
  claimRebuildTables name (Tables target) (SharedTables target) (tableOwners o) (sharedTableOwners o)
    ≫= fun '(tables, shared) =>
  claimRebuildValues name "stream type" (StreamTypes target) (streamOwners o) ≫= fun '(streams, streamOwners') =>
  claimRebuildValues name "event type" (EventTypes target) (eventOwners o) ≫= fun '(events, eventOwners') =>
  check_each (fun eventType =>
    fail_if (bool_decide (projs !! eventType = None))
      (EMsg "store: rebuild target references event type without a projector")) events ≫= fun _ =>
  Ok (mkOwners tables shared streamOwners' eventOwners'
       (<[name := mkRebuildTarget (Tables target) (SharedTables target) streams events (Reset target)]>
          (registry o))).

(** server/internal/store/store.go:140-200 [copyRebuildTargets] *)
Definition copyRebuildTargets {P} (projs : gmap string (Projector P))
    (targets : gmap string (RebuildTarget P)) : result goerr (gmap string (RebuildTarget P)) :=
  fail_if (bool_decide (targets = ∅)) (EMsg "store: projector event type has no rebuild target") ≫= fun _ =>
  fold_result (claim_target projs targets) (mkOwners ∅ ∅ ∅ ∅ ∅) (sorted_keys targets) ≫= fun o =>
  check_each (fun eventType =>
    fail_if (bool_decide (eventOwners o !! eventType = None))
      (EMsg "store: projector event type has no rebuild target")) (sorted_keys projs) ≫= fun _ =>
  Ok (registry o).

(** server/internal/store/store.go:111-120 [New], the body of the loop over the
    projectors *)
Definition copy_projector {P} (projs : gmap string (option (Projector P)))
    (reg : gmap string (Projector P)) (eventType : string) : result goerr (gmap string (Projector P)) :=
  fail_if (is_blank eventType) (EMsg "store: projector event type is empty") ≫= fun _ =>
  or_err (projs !! eventType ≫= id) (EMsg "store: projector for event type is nil") ≫= fun projector =>
  Ok (<[eventType := projector]> reg).

(** server/internal/store/store.go:110-120 [New], the projector registry *)
Definition copy_projectors {P} (projs : gmap string (option (Projector P)))
    : result goerr (gmap string (Projector P)) :=
  fold_result (copy_projector projs) ∅ (sorted_keys projs).

(** server/internal/store/store.go:127-131 [New], one target of the index *)
Definition index_target {P} (m : gmap string string) (entry : string * RebuildTarget P) : gmap string string :=
  foldl (fun m eventType => <[eventType := entry.1]> m) m (EventTypes entry.2).

(** server/internal/store/store.go:126-131 [New], the event-to-target index *)
Definition index_targets {P} (targets : gmap string (RebuildTarget P)) : gmap string string :=
  foldl index_target ∅ (map_to_list targets).

(** server/internal/store/store.go:96-138 [New]; [pool] is [false] for nil *)
Definition New {P} (pool : bool) (projs : gmap string (option (Projector P)))
    (targets : gmap string (RebuildTarget P)) : result goerr (Store P) :=
  fail_if (negb pool) (EMsg "store: nil Postgres pool") ≫= fun _ =>
  fail_if (bool_decide (projs = ∅)) (EMsg "store: projector registry is empty") ≫= fun _ =>
  copy_projectors projs ≫= fun reg =>
  copyRebuildTargets reg targets ≫= fun targets' =>
  Ok (mkStore reg targets' (index_targets targets') ∅).

(** ** last_admin.go: the classification of events *)

(** server/internal/store/last_admin.go:16-16 [lastAdminPermission] *)
Definition lastAdminPermission : string := "roles.manage".

(** server/internal/store/last_admin.go:25-31 [lastAdminEffect] *)
Inductive lastAdminEffect := lastAdminEffectUnknown | lastAdminUnaffected | lastAdminMayReduce.

#[export] Instance last_admin_effect_eq_dec : EqDecision lastAdminEffect.
Proof. solve_decision. Defined.

(** server/internal/store/inventory.go:38-44 [eventDefinition]; the payload type
    and the projector are the Go names, the golden payload, which only the
    corpus check reads, is left out *)
Record eventDefinition := mkEventDefinition {
  ed_PayloadVersion : Z;
  ed_PayloadType : string;
  ed_Projector : string;
  ed_LastAdminEffect : lastAdminEffect;
}.

#[export] Instance event_definition_eq_dec : EqDecision eventDefinition.
Proof. solve_decision. Defined.

(** server/internal/store/last_admin.go:62-75 [lastAdminProjectionTable] *)
Definition lastAdminProjectionTable (table : string) : bool :=
  existsb (String.eqb table)
    ["authorization_grants"; "authorization_roles"; "managed_user_group_members";
     "managed_user_groups"; "scim_group_members"; "scim_groups"; "users"]%string.

(** server/internal/store/last_admin.go:33-60 [lastAdminSensitiveEventDefinitions] *)
Definition lastAdminSensitiveEventDefinitions {P} (definitions : gmap string eventDefinition)
    (targets : gmap string (RebuildTarget P)) : result goerr (gmap string eventDefinition) :=
  fold_result (fun res '(targetName, target) =>
    if negb (existsb lastAdminProjectionTable (rebuildTargetTables target)) then Ok res
    else fold_result (fun res eventType =>
           or_err (definitions !! eventType)
             (EWrap "target references unknown event" (ESentinel "errInvalidLastAdminPolicy")) ≫= fun d =>
           Ok (<[eventType := d]> res)) res (EventTypes target))
    ∅ (map_to_list targets).

(** server/internal/store/last_admin.go:77-106 [validateLastAdminEffects] *)
Definition validateLastAdminEffects (definitions : gmap string eventDefinition) : result goerr unit :=
  let invalid msg := EWrap msg (ESentinel "errInvalidLastAdminPolicy") in
  fail_if (bool_decide (definitions = ∅)) (invalid "event definitions are empty"%string) ≫= fun _ =>
  match Lookup lastAdminPermission with
  | Some entry =>
      fail_if (negb (String.eqb (ce_Class entry) GlobalOnly))
        (invalid "permission is not cataloged as global-only"%string)
  | None => Err (invalid "permission is not cataloged as global-only"%string)
  end ≫= fun _ =>
  fold_result (fun reducing eventType =>
    match ed_LastAdminEffect <$> definitions !! eventType with
    | Some lastAdminUnaffected => Ok reducing
    | Some lastAdminMayReduce => Ok (reducing + 1)
    | _ => Err (invalid "event has no valid effect classification"%string)
    end) 0 (sorted_keys definitions) ≫= fun reducing =>
  fail_if (reducing =? 0) (invalid "no reducing events"%string).

(** server/internal/store/last_admin.go:108-119 [lastAdminReductionEventTypes] *)
Definition lastAdminReductionEventTypes (definitions : gmap string eventDefinition) : list string :=
  sort_strings (filter (fun e => ed_LastAdminEffect e.2 = lastAdminMayReduce) (map_to_list definitions)).*1.

(** server/internal/store/last_admin.go:121-130 [lastAdminReductionEventSet] *)
Definition lastAdminReductionEventSet (definitions : gmap string eventDefinition) : gset string :=
  list_to_set (lastAdminReductionEventTypes definitions).

(** server/internal/store/inventory.go:51-86 [NewProduction], after the corpus
    and payload-type checks *)
Definition new_with_policy {P} (pool : bool) (projectorOf : string -> Projector P)
    (definitions : gmap string eventDefinition) (targets : gmap string (RebuildTarget P))
    : result goerr (Store P) :=
  lastAdminSensitiveEventDefinitions definitions targets ≫= fun lastAdminDefinitions =>
  validateLastAdminEffects lastAdminDefinitions ≫= fun _ =>
  New pool ((fun d => Some (projectorOf (ed_Projector d))) <$> definitions) targets ≫= fun s =>
  Ok (mkStore (projectors s) (rebuildTargets s) (eventTargets s)
       (lastAdminReductionEventSet lastAdminDefinitions)).

(** ** classification.go *)

(** server/internal/store/classification.go:15-24 [TableClassification] *)
Record TableClassification := mkTableClassification {
  tc_Events : list string;
  tc_Projections : list string;
  tc_Work : list string;
  tc_Operational : list string;
  tc_Artifacts : list string;
  tc_Migrations : list string;
  tc_Exceptions : list string;
}.

(** server/internal/store/classification.go:26-64 [ProductionTableClassification] *)
Definition ProductionTableClassification : TableClassification :=
  mkTableClassification ["events"]%string
    ["authorization_grants"; "authorization_roles"; "assignments"; "bootstrap_logins"; "ca_rotation_state";
     "certificate_revocations"; "device_groups"; "devices"; "gateways"; "inventory_snapshots";
     "managed_user_group_members"; "managed_user_groups"; "managed_action_sets"; "managed_actions";
     "oidc_providers"; "personal_access_tokens"; "refresh_families"; "refresh_tokens";
     "registration_tokens"; "scim_group_members"; "scim_groups"; "scim_identities"; "scim_providers";
     "server_settings"; "compliance_policies"; "oidc_identities"; "users"]%string
    ["work_items"]%string
    ["crl_state"; "crl_work_receipts"; "execution_output_chunks"; "execution_outputs"; "oidc_login_states"]%string
    [] ["goose_db_version"]%string ["user_encryption_keys"]%string.

(** server/internal/store/classification.go:92-105 [validateTableClassification],
    the classes with their names and whether the schema must have them *)
Definition table_classes (c : TableClassification) : list (string * list string * bool) :=
  [("events", tc_Events c, true); ("projection", tc_Projections c, true); ("work", tc_Work c, true);
   ("operational telemetry", tc_Operational c, true); ("artifact", tc_Artifacts c, true);
   ("migration", tc_Migrations c, true); ("exception", tc_Exceptions c, false)]%string.

(** server/internal/store/classification.go:106-121 [validateTableClassification],
    the loop that claims each table for one class *)
Definition claim_class (st : gmap string string * gset string) (class : string * list string * bool)
    : result goerr (gmap string string * gset string) :=
  let '(name, tables, required) := class in
  fold_result (fun '(owners, req) table =>
    fail_if (is_blank table) (EMsg "class contains an empty table name") ≫= fun _ =>
    match owners !! table with
    | Some _ => Err (EMsg "table belongs to two classes")
    | None => Ok (<[table := name]> owners, if (required : bool) then {[table]} ∪ req else req)
    end) st tables.

(** server/internal/store/classification.go:88-147 [validateTableClassification] *)
Definition validateTableClassification (discovered : list string) (c : TableClassification)
    : result goerr unit :=
  fail_if (zlen discovered =? 0) (EMsg "zero public tables discovered") ≫= fun _ =>
  fold_result claim_class (∅, ∅) (table_classes c) ≫= fun '(owners, required) =>
  fail_if (bool_decide (owners = ∅)) (EMsg "table classification registry is empty") ≫= fun _ =>
  let unclassified := filter (fun t => owners !! t = None) discovered in
  fail_if (0 <? zlen unclassified) (EMsg "unclassified public tables") ≫= fun _ =>
  let missing := filter (fun t => t ∉ discovered) (elements required) in
  fail_if (0 <? zlen missing) (EMsg "classified tables missing from public schema").

(** ** Specifications *)

(** Values that can be claimed: none blank, none repeated, none owned. *)
Definition claimable (owners : gmap string string) (values : list string) : Prop :=
  Forall (fun v => is_blank v = false) values /\ NoDup values /\ Forall (fun v => owners !! v = None) values.

Definition claim_all (name : string) (owners : gmap string string) (values : list string) : gmap string string :=
  foldl (fun m v => <[v := name]> m) owners values.

Definition class_tables (cs : list (string * list string * bool)) : list string :=
  mbind (fun c => c.1.2) cs.

Definition required_tables (cs : list (string * list string * bool)) : list string :=
  mbind (fun c => c.1.2) (filter (fun c => c.2 = true) cs).

(** Every claim of the registry has exactly one owner, the one that lists it. *)
Definition owned_once {P} (targets : gmap string (RebuildTarget P)) (claims : RebuildTarget P -> list string) : Prop :=
  forall n1 n2 t1 t2 v, targets !! n1 = Some t1 -> targets !! n2 = Some t2 ->
    v ∈ claims t1 -> v ∈ claims t2 -> n1 = n2.

(** One target that owns the table of two event types. *)
Definition example_projectors : gmap string (option (Projector unit)) :=
  {["Created"%string := Some (fun _ p _ => Ok p); "Deleted"%string := Some (fun _ p _ => Ok p)]}.
Definition example_targets : gmap string (RebuildTarget unit) :=
  {["things"%string := mkRebuildTarget ["things"]%string ["shared"]%string ["thing"]%string
      ["Created"; "Deleted"]%string (Some (fun _ p => Ok p))]}.

(** ** Claims *)

Lemma lookup_claim_all name owners values v :
  claim_all name owners values !! v = if decide (v ∈ values) then Some name else owners !! v.
Proof.
  unfold claim_all. revert owners. induction values as [|x l IH]; intros owners; cbn [foldl]; [done|].
  rewrite IH. destruct (decide (v ∈ l)) as [Hl|Hl].
  - by rewrite decide_True by set_solver.
  - destruct (decide (v = x)) as [->|Hne].
    + by rewrite lookup_insert_eq, decide_True by set_solver.
    + by rewrite lookup_insert_ne, decide_False by set_solver.
Qed.

Lemma claimable_cons name owners v l :
  claimable owners (v :: l) <->
  is_blank v = false /\ owners !! v = None /\ claimable (<[v := name]> owners) l.
Proof.
  unfold claimable. rewrite !Forall_cons, (NoDup_cons v). split.
  - intros ([Hb Hbl] & [Hn Hnd] & [Ho Hol]). split_and!; try done.
    rewrite Forall_forall in *. intros x Hx. rewrite lookup_insert_ne by (intros ->; done). auto.
  - intros (Hb & Ho & Hbl & Hnd & Hol). rewrite Forall_forall in Hol.
    assert (v ∉ l) as Hv by (intros Hin; specialize (Hol v Hin); by rewrite lookup_insert_eq in Hol).
    split_and!; try done. rewrite Forall_forall. intros x Hx. specialize (Hol x Hx).
    by rewrite lookup_insert_ne in Hol by (intros ->; done).
Qed.

(** A loop whose every step claims one value for [name] and may refuse for a
    reason of its own: the state carries the owners under [get]. *)
Lemma claim_loop {S} (get : S -> gmap string string) (name : string)
    (f : S -> string -> result goerr S) (values : list string) (s s' : S) :
  (forall s v s', f s v = Ok s' ->
     is_blank v = false /\ get s !! v = None /\ get s' = <[v := name]> (get s)) ->
  fold_result f s values = Ok s' ->
  claimable (get s) values /\ get s' = claim_all name (get s) values.
Proof.
  intros Hf. revert s. induction values as [|v l IH]; intros s; cbn [fold_result].
  { intros [= <-]. repeat split; constructor. }
  intros (s1 & H1 & H2)%bind_ok. destruct (Hf _ _ _ H1) as (Hb & Hn & Hg).
  destruct (IH _ H2) as [Hc Ha]. rewrite Hg in Hc, Ha. split; [|done].
  by apply (claimable_cons name).
Qed.

Lemma claimRebuildValues_ok name kind values owners values' owners' :
  claimRebuildValues name kind values owners = Ok (values', owners') ->
  values' = values /\ claimable owners values /\ owners' = claim_all name owners values.
Proof.
  unfold claimRebuildValues. intros (u & _ & (o & Hf & [= <- <-])%bind_ok)%bind_ok.
  split; [done|]. apply (claim_loop id name) in Hf; [done|].
  intros s v s' (u' & Hb%fail_if_ok & H)%bind_ok. unfold id. destruct (s !! v); [done|]. by injection H as <-.
Qed.

Lemma claim_exclusive_ok name shared owners tables owners' :
  fold_result (claim_exclusive name shared) owners tables = Ok owners' ->
  claimable owners tables /\ owners' = claim_all name owners tables
  /\ Forall (fun t => default ∅ (shared !! t) = (∅ : gset string)) tables.
Proof.
  intros Hf.
  assert (claimable owners tables /\ owners' = claim_all name owners tables) as [Hc Ho].
  { apply (claim_loop id name) in Hf; [done|]. intros s v s' (u & Hb%fail_if_ok & H)%bind_ok.
    unfold id. destruct (s !! v); [done|]. by apply bind_ok in H as (u' & _ & [= <-]). }
  split_and!; [done|done|]. clear Hc Ho.
  revert owners Hf.
  induction tables as [|t l IH]; intros owners Hf; [constructor|].
  cbn [fold_result] in Hf. apply bind_ok in Hf as (o & H & Hf). constructor; [|by eapply IH].
  unfold claim_exclusive in H. apply bind_ok in H as (u & _ & H). destruct (owners !! t); [done|].
  apply bind_ok in H as (u' & H%fail_if_ok & _). by prop_bools.
Qed.

Lemma claim_shared_ok name owners tables seen shared seen' shared' :
  fold_result (claim_shared name owners) (seen, shared) tables = Ok (seen', shared') ->
  Forall (fun t => owners !! t = None) tables
  /\ forall t n, n ∈ default ∅ (shared' !! t) <-> n ∈ default ∅ (shared !! t) \/ n = name /\ t ∈ tables.
Proof.
  revert seen shared. induction tables as [|x l IH]; intros seen shared; cbn [fold_result].
  { intros [= _ <-]. split; [constructor|]. set_solver. }
  intros ([seen1 shared1] & H & Hf)%bind_ok. apply IH in Hf as [Ho Hs]. unfold claim_shared in H.
  apply bind_ok in H as (u & _ & H). apply bind_ok in H as (u' & _ & H). destruct (owners !! x) eqn:Ex; [done|].
  injection H as _ <-. split; [by constructor|]. intros t n. rewrite Hs.
  destruct (decide (x = t)) as [->|Hne]; [rewrite lookup_insert_eq|rewrite lookup_insert_ne by done]; set_solver.
Qed.

(** ** The registry of rebuild targets *)

(** The ownership maps say exactly what the registered targets list. *)
Record owners_ok {P} (projs : gmap string (Projector P)) (targets : gmap string (RebuildTarget P))
    (o : Owners P) : Prop := {
  ok_registry n t : registry o !! n = Some t ->
    targets !! n = Some t /\ is_Some (Reset t) /\ Forall (fun e => is_Some (projs !! e)) (EventTypes t);
  ok_events e n : eventOwners o !! e = Some n <-> exists t, registry o !! n = Some t /\ e ∈ EventTypes t;
  ok_streams s n : streamOwners o !! s = Some n <-> exists t, registry o !! n = Some t /\ s ∈ StreamTypes t;
  ok_tables tb n : tableOwners o !! tb = Some n <-> exists t, registry o !! n = Some t /\ tb ∈ Tables t;
  ok_shared tb n : n ∈ default ∅ (sharedTableOwners o !! tb)
    <-> exists t, registry o !! n = Some t /\ tb ∈ SharedTables t;
  ok_exclusive tb : is_Some (tableOwners o !! tb) -> default ∅ (sharedTableOwners o !! tb) = ∅;
}.

Lemma owners_ok_empty {P} projs (targets : gmap string (RebuildTarget P)) :
  owners_ok projs targets (mkOwners ∅ ∅ ∅ ∅ ∅).
Proof. split; cbn; set_solver. Qed.

(** One more target claims its values: the ownership map stays exact. *)
Lemma claim_exact {P} (reg : gmap string (RebuildTarget P)) (claims : RebuildTarget P -> list string)
    (owners : gmap string string) name t :
  (forall v n, owners !! v = Some n <-> exists t, reg !! n = Some t /\ v ∈ claims t) ->
  reg !! name = None -> claimable owners (claims t) ->
  forall v n, claim_all name owners (claims t) !! v = Some n
    <-> exists t', <[name := t]> reg !! n = Some t' /\ v ∈ claims t'.
Proof.
  intros Ho Hnone (_ & _ & Hfree) v n. rewrite lookup_claim_all. rewrite Forall_forall in Hfree.
  destruct (decide (n = name)) as [->|Hne].
  - rewrite lookup_insert_eq. case_decide as Hv; [naive_solver|]. rewrite Ho. naive_solver.
  - rewrite lookup_insert_ne by done. rewrite <- Ho. case_decide as Hv; [|done].
    rewrite (Hfree v Hv). naive_solver.
Qed.

Lemma claim_target_ok {P} projs (targets : gmap string (RebuildTarget P)) o name o' :
  registry o !! name = None -> owners_ok projs targets o -> claim_target projs targets o name = Ok o' ->
  owners_ok projs targets o' /\ exists t, targets !! name = Some t /\ registry o' = <[name := t]> (registry o).
Proof.
  intros Hnone Hok. unfold claim_target.
  intros (t & Ht%or_err_ok & (u & _ & (u' & Hr%fail_if_ok & H)%bind_ok)%bind_ok)%bind_ok.
  apply bind_ok in H as ([tables shared] & Htab & H).
  apply bind_ok in H as ([streams so] & (-> & Hsc & ->)%claimRebuildValues_ok & H).
  apply bind_ok in H as ([events eo] & (-> & Hec & ->)%claimRebuildValues_ok & H).
  apply bind_ok in H as ([] & Hproj%check_each_ok & [= <-]).
  unfold claimRebuildTables in Htab. apply bind_ok in Htab as (u2 & _ & Htab).
  apply bind_ok in Htab as (owners1 & (Hcl & -> & Hexc)%claim_exclusive_ok & Htab).
  apply bind_ok in Htab as ([seen sh] & [Hfree Hsh]%claim_shared_ok & [= <- <-]).
  assert (mkRebuildTarget (Tables t) (SharedTables t) (StreamTypes t) (EventTypes t) (Reset t) = t) as ->
    by (by destruct t).
  split; [|by exists t]. destruct Hok as [H1 H2 H3 H4 H5 H6]. split; cbn.
  - intros n t'. destruct (decide (n = name)) as [->|Hne].
    + rewrite lookup_insert_eq. intros [= <-]. split; [done|]. split; [by destruct (Reset t)|].
      eapply Forall_impl; [exact Hproj|]. intros e He%fail_if_ok. prop_bools. by apply not_eq_None_Some.
    + rewrite lookup_insert_ne by done. apply H1.
  - by apply claim_exact.
  - by apply claim_exact.
  - by apply claim_exact.
  - intros tb n. rewrite Hsh, H5. destruct (decide (n = name)) as [->|Hne].
    + rewrite lookup_insert_eq, Hnone. naive_solver.
    + rewrite lookup_insert_ne by done. naive_solver.
  - intros tb Hx. rewrite lookup_claim_all in Hx. apply elem_of_equiv_empty_L. intros n Hn.
    apply Hsh in Hn. rewrite Forall_forall in Hexc, Hfree. case_decide as Htb.
    + rewrite (Hexc tb Htb) in Hn. destruct Hn as [Hn|[_ Hn]]; [set_solver|].
      specialize (Hfree _ Hn). by rewrite lookup_claim_all, decide_True in Hfree.
    + destruct Hn as [Hn|[_ Hn]]; [rewrite (H6 tb Hx) in Hn; set_solver|].
      specialize (Hfree _ Hn). rewrite lookup_claim_all, decide_False in Hfree by done.
      rewrite Hfree in Hx. by destruct Hx.
Qed.

Lemma claim_targets_ok {P} projs (targets : gmap string (RebuildTarget P)) names o o' :
  NoDup names -> Forall (fun n => registry o !! n = None) names -> owners_ok projs targets o ->
  fold_result (claim_target projs targets) o names = Ok o' ->
  owners_ok projs targets o' /\ forall n, is_Some (registry o' !! n) <-> n ∈ names \/ is_Some (registry o !! n).
Proof.
  revert o. induction names as [|x l IH]; intros o Hnd Hnone Hok; cbn [fold_result].
  { intros [= <-]. split; [done|]. set_solver. }
  intros (o1 & H1 & H2)%bind_ok. apply NoDup_cons in Hnd as [Hx Hnd].
  apply Forall_cons in Hnone as [Hxn Hnone].
  destruct (claim_target_ok _ _ _ _ _ Hxn Hok H1) as (Hok1 & t & Ht & Hreg).
  destruct (IH o1 Hnd) as [Hok' Hdom]; [|done|done|].
  - rewrite Hreg. eapply Forall_impl; [apply Forall_and; split; [exact Hnone|exact (proj2 (Forall_forall (fun n => n <> x) l) ltac:(set_solver))]|].
    intros n [Hn Hne]. by rewrite lookup_insert_ne.
  - split; [done|]. intros n. rewrite Hdom, Hreg, elem_of_cons.
    destruct (decide (n = x)) as [->|Hne].
    + rewrite lookup_insert_eq. split; [by left; left|]. intros _. right. by eexists.
    + rewrite lookup_insert_ne by done. naive_solver.
Qed.

Lemma elem_of_sorted_keys {A} (m : gmap string A) k : k ∈ sorted_keys m <-> is_Some (m !! k).
Proof.
  unfold sorted_keys. rewrite sort_strings_perm. rewrite list_elem_of_fmap. split.
  - intros ([k' v] & -> & Hin%elem_of_map_to_list). by eexists.
  - intros [v Hv]. exists (k, v). split; [done|]. by apply elem_of_map_to_list.
Qed.

Lemma sorted_keys_nodup {A} (m : gmap string A) : NoDup (sorted_keys m).
Proof. unfold sorted_keys. rewrite sort_strings_perm. apply NoDup_fst_map_to_list. Qed.

Lemma copyRebuildTargets_ok {P} projs (targets targets' : gmap string (RebuildTarget P)) :
  copyRebuildTargets projs targets = Ok targets' ->
  targets' = targets /\ exists o, owners_ok projs targets o /\ registry o = targets
  /\ forall e, is_Some (projs !! e) -> is_Some (eventOwners o !! e).
Proof.
  unfold copyRebuildTargets. intros (u & _ & (o & Hf & ([] & Hp%check_each_ok & [= <-])%bind_ok)%bind_ok)%bind_ok.
  apply claim_targets_ok in Hf as [Hok Hdom].
  - assert (registry o = targets) as Hreg.
    { apply map_eq. intros n. destruct (registry o !! n) as [t|] eqn:E.
      - symmetry. by apply Hok in E as [? _].
      - destruct (targets !! n) as [t|] eqn:Et; [|done].
        assert (is_Some (registry o !! n)) as [? ?]; [|congruence].
        apply Hdom. left. apply elem_of_sorted_keys. by eexists. }
    split; [done|]. exists o. split_and!; [done|done|]. intros e He%elem_of_sorted_keys.
    rewrite Forall_forall in Hp. apply Hp, fail_if_ok in He. prop_bools. by apply not_eq_None_Some.
  - apply sorted_keys_nodup.
  - apply Forall_forall. done.
  - apply owners_ok_empty.
Qed.

Lemma index_targets_fold {P} (l : list (string * RebuildTarget P)) m e :
  let r := foldl index_target m l in
  (forall n, r !! e = Some n -> m !! e = Some n \/ exists t, (n, t) ∈ l /\ e ∈ EventTypes t)
  /\ (is_Some (m !! e) \/ (exists n t, (n, t) ∈ l /\ e ∈ EventTypes t) -> is_Some (r !! e)).
Proof.
  revert m. induction l as [|[n0 t0] l IH]; intros m; cbn [foldl].
  { split; [auto|]. intros [?|(? & ? & ? & _)]; [done|set_solver]. }
  destruct (IH (claim_all n0 m (EventTypes t0))) as [H1 H2]. cbv zeta. split.
  - intros n Hn. apply H1 in Hn as [Hn|(t & Ht & He)]; [|set_solver].
    rewrite lookup_claim_all in Hn. case_decide; [|by left]. right. exists t0. set_solver.
  - intros Hcase. apply H2. rewrite lookup_claim_all. case_decide as He; [left; by eexists|].
    destruct Hcase as [?|(n & t & Hin & Het)]; [by left|]. right.
    apply elem_of_cons in Hin as [[= -> ->]|Hin]; [done|]. eauto.
Qed.

Lemma copy_projectors_fold {P} (projs : gmap string (option (Projector P))) l reg reg' :
  fold_result (copy_projector projs) reg l = Ok reg' ->
  forall e, reg' !! e = if decide (e ∈ l) then projs !! e ≫= id else reg !! e.
Proof.
  revert reg. induction l as [|x l IH]; intros reg; cbn [fold_result]; [by intros [= <-]|].
  intros (r1 & (u & _ & (p & Hp%or_err_ok & [= <-])%bind_ok)%bind_ok & Hf)%bind_ok e.
  rewrite (IH _ Hf). destruct (decide (e ∈ l)) as [Hl|Hl]; [by rewrite decide_True by set_solver|].
  destruct (decide (e = x)) as [->|Hne].
  - by rewrite lookup_insert_eq, decide_True by set_solver.
  - by rewrite lookup_insert_ne, decide_False by set_solver.
Qed.

Lemma New_ok {P} pool (projs : gmap string (option (Projector P))) targets s :
  New pool projs targets = Ok s ->
  rebuildTargets s = targets
  /\ (forall e p, projectors s !! e = Some p <-> projs !! e = Some (Some p))
  /\ (forall e, is_Some (projs !! e) <-> is_Some (eventTargets s !! e))
  /\ (forall e n, eventTargets s !! e = Some n <-> exists t, targets !! n = Some t /\ e ∈ EventTypes t)
  /\ exists o, owners_ok (projectors s) targets o /\ registry o = targets.
Proof.
  unfold New, copy_projectors.
  intros (u & _ & (u' & _ & (reg & Hreg & (tg & Htg & [= <-])%bind_ok)%bind_ok)%bind_ok)%bind_ok.
  apply copyRebuildTargets_ok in Htg as (-> & o & Hok & Hro & Hcover). cbn.
  pose proof (copy_projectors_fold _ _ _ _ Hreg) as Hlook.
  assert (forall e, reg !! e = projs !! e ≫= id) as Hl.
  { intros e. rewrite Hlook. case_decide as Hin; [done|]. rewrite lookup_empty.
    destruct (projs !! e) eqn:E; [|done]. destruct Hin. apply elem_of_sorted_keys. by eexists. }
  assert (forall e, is_Some (projs !! e) -> is_Some (reg !! e)) as Hnn.
  { intros e He%elem_of_sorted_keys. clear -Hreg He.
    revert Hreg. generalize (∅ : gmap string (Projector P)). induction (sorted_keys projs) as [|x l IH]; [set_solver|].
    intros r0 Hf. pose proof (copy_projectors_fold _ _ _ _ Hf e) as Hlk. rewrite decide_True in Hlk by done.
    cbn [fold_result] in Hf. apply bind_ok in Hf as (r1 & (u & _ & (p & Hp%or_err_ok & _)%bind_ok)%bind_ok & Hf).
    apply elem_of_cons in He as [->|He]; [rewrite Hlk, Hp; by eexists|by eapply IH]. }
  pose proof Hok as [H1 H2 _ _ _ _]. rewrite Hro in H1. setoid_rewrite Hro in H2.
  assert (forall e n, index_targets targets !! e = Some n
            <-> exists t, targets !! n = Some t /\ e ∈ EventTypes t) as Hidx.
  { intros e n. destruct (index_targets_fold (map_to_list targets) ∅ e) as [Ha Hb].
    unfold index_targets. setoid_rewrite elem_of_map_to_list in Ha. setoid_rewrite elem_of_map_to_list in Hb. split.
    - intros Hn. destruct (Ha n Hn) as [Hm|?]; [by rewrite lookup_empty in Hm|done].
    - intros (t & Ht & He). destruct Hb as [n' Hn']; [right; by exists n, t|].
      rewrite Hn'. destruct (Ha n' Hn') as [Hm|(t' & Ht' & He')]; [by rewrite lookup_empty in Hm|].
      assert (eventOwners o !! e = Some n) by (apply H2; eauto).
      assert (eventOwners o !! e = Some n') by (apply H2; eauto). congruence. }
  split_and!; [done| | |done|by exists o].
  - intros e p. rewrite Hl. destruct (projs !! e) as [[q|]|]; simpl; naive_solver.
  - intros e. split.
    + intros He%Hnn%Hcover. destruct He as [n Hn]. exists n. apply Hidx. by apply H2.
    + intros [n (t & Ht & He)%Hidx]. apply H1 in Ht as (_ & _ & Hf). rewrite Forall_forall in Hf.
      destruct (Hf e He) as [p Hp]. rewrite Hl in Hp. destruct (projs !! e) as [q|]; [by exists q|done].
Qed.

(** A store that [New] returns has a registry that partitions the data: the
    registered targets are the ones given, every event type with a projector
    belongs to exactly one of them and every event type a target lists has a
    projector, no stream type and no exclusive table belongs to two targets,
    and no exclusive table is shared, so resetting one target cannot touch what
    another one replays. *)
Theorem New_partitions_registry {P} pool (projs : gmap string (option (Projector P))) targets s :
  New pool projs targets = Ok s ->
  rebuildTargets s = targets
  /\ (forall e, is_Some (projs !! e) <-> exists n t, targets !! n = Some t /\ e ∈ EventTypes t)
  /\ (forall e n, eventTargets s !! e = Some n <-> exists t, targets !! n = Some t /\ e ∈ EventTypes t)
  /\ owned_once targets EventTypes /\ owned_once targets StreamTypes /\ owned_once targets Tables
  /\ (forall n1 n2 t1 t2 tb, targets !! n1 = Some t1 -> targets !! n2 = Some t2 ->
        tb ∈ Tables t1 -> tb ∉ SharedTables t2).
Proof.
  intros (Ht & _ & Hcov & Hidx & o & [H1 H2 H3 H4 H5 H6] & Hr)%New_ok. rewrite Hr in *.
  split_and!; [done| |done|..].
  - intros e. rewrite Hcov. unfold is_Some. setoid_rewrite Hidx. naive_solver.
  - intros n1 n2 t1 t2 v Hn1 Hn2 Hv1 Hv2.
    assert (eventOwners o !! v = Some n1) by (apply H2; eauto).
    assert (eventOwners o !! v = Some n2) by (apply H2; eauto). congruence.
  - intros n1 n2 t1 t2 v Hn1 Hn2 Hv1 Hv2.
    assert (streamOwners o !! v = Some n1) by (apply H3; eauto).
    assert (streamOwners o !! v = Some n2) by (apply H3; eauto). congruence.
  - intros n1 n2 t1 t2 v Hn1 Hn2 Hv1 Hv2.
    assert (tableOwners o !! v = Some n1) by (apply H4; eauto).
    assert (tableOwners o !! v = Some n2) by (apply H4; eauto). congruence.
  - intros n1 n2 t1 t2 tb Hn1 Hn2 Hv1 Hv2.
    assert (is_Some (tableOwners o !! tb)) as Hx by (exists n1; apply H4; eauto).
    assert (n2 ∈ default ∅ (sharedTableOwners o !! tb)) as Hin by (apply H5; eauto).
    rewrite (H6 _ Hx) in Hin. set_solver.
Qed.

Lemma New_partitions_registry_witness :
  exists s, New true example_projectors example_targets = Ok s
  /\ rebuildTargets s = example_targets.
Proof.
  destruct (New true example_projectors example_targets) as [s|e] eqn:E; [|revert E; vm_compute; discriminate].
  exists s. split; [reflexivity|].
  exact (proj1 (New_partitions_registry true example_projectors example_targets s E)).
Defined.

(** ** The table classification *)

Definition claim_class_state (st : gmap string string * gset string) (class : string * list string * bool) :=
  (claim_all class.1.1 st.1 class.1.2, if class.2 then list_to_set class.1.2 ∪ st.2 else st.2).

Lemma claim_class_ok st class st' :
  claim_class st class = Ok st' <-> claimable st.1 class.1.2 /\ st' = claim_class_state st class.
Proof.
  destruct class as [[name tables] required], st as [owners req]. unfold claim_class, claim_class_state.
  cbn [fst snd]. revert owners req. induction tables as [|t l IH]; intros owners req; cbn [fold_result].
  { assert (forall A (x : A), (if required then x else x) = x) as Hi by (by destruct required).
    cbn. rewrite union_empty_l_L, Hi. split; [intros [= <-]; repeat split; constructor|by intros [_ ->]]. }
  rewrite (claimable_cons name), bind_ok. split.
  - intros ([o1 r1] & (u & Hb%fail_if_ok & H)%bind_ok & Hf).
    destruct (owners !! t) eqn:Et; [done|]. injection H as <- <-. apply IH in Hf as [Hc ->].
    split; [done|]. unfold claim_all. cbn [foldl list_to_set foldr]. f_equal. destruct required; [set_solver|done].
  - intros ((Hb & Ht & Hc) & ->). exists (<[t:=name]> owners, if required then {[t]} ∪ req else req).
    rewrite Hb, Ht. split; [done|]. apply IH. split; [done|].
    unfold claim_all. cbn [foldl]. f_equal. destruct required; [set_solver|done].
Qed.

Lemma claim_classes_ok (cs : list (string * list string * bool)) owners req owners' req' :
  fold_result claim_class (owners, req) cs = Ok (owners', req') ->
  claimable owners (class_tables cs)
  /\ (forall t, is_Some (owners' !! t) <-> is_Some (owners !! t) \/ t ∈ class_tables cs)
  /\ (forall t, t ∈ req' <-> t ∈ req \/ t ∈ required_tables cs).
Proof.
  revert owners req. induction cs as [|c cs IH]; intros owners req; cbn [fold_result].
  { intros [= <- <-]. unfold class_tables, required_tables. cbn. split_and!; [repeat split; constructor|set_solver..]. }
  intros ([o1 r1] & [Hc [= -> ->]]%claim_class_ok & Hf)%bind_ok. cbn [fst snd] in *.
  apply IH in Hf as ((Hb & Hn & Hfree) & Ho & Hr).
  assert (class_tables (c :: cs) = c.1.2 ++ class_tables cs) as -> by done.
  assert (forall t, t ∈ required_tables (c :: cs)
            <-> (c.2 = true /\ t ∈ c.1.2) \/ t ∈ required_tables cs) as Hreq.
  { intros t. unfold required_tables. rewrite filter_cons. case_decide; set_solver. }
  destruct Hc as (Hb1 & Hn1 & Hf1). rewrite Forall_forall in Hfree.
  assert (forall t, t ∈ class_tables cs -> t ∉ c.1.2 /\ owners !! t = None) as Hsplit.
  { intros t Ht. specialize (Hfree t Ht). rewrite lookup_claim_all in Hfree. by case_decide. }
  split_and!.
  - unfold claimable. rewrite !Forall_app, NoDup_app. split_and!; try done.
    + intros t Ht Ht'. by apply Hsplit in Ht' as [? _].
    + apply Forall_forall. intros t Ht. by apply Hsplit.
  - intros t. rewrite Ho, lookup_claim_all, elem_of_app.
    pose proof (mk_is_Some (Some c.1.1) _ eq_refl). case_decide; tauto.
  - intros t. rewrite Hr, Hreq. destruct c.2; set_solver.
Qed.

Lemma claim_classes_total (cs : list (string * list string * bool)) owners req :
  claimable owners (class_tables cs) -> exists st, fold_result claim_class (owners, req) cs = Ok st.
Proof.
  revert owners req. induction cs as [|c cs IH]; intros owners req; cbn [fold_result]; [by eexists|].
  assert (class_tables (c :: cs) = c.1.2 ++ class_tables cs) as -> by done.
  intros (Hb & Hn & Hfree). apply Forall_app in Hb as [Hb1 Hb2], Hfree as [Hf1 Hf2].
  apply NoDup_app in Hn as (Hn1 & Hd & Hn2).
  rewrite (proj2 (claim_class_ok (owners, req) c _) (conj (conj Hb1 (conj Hn1 Hf1)) eq_refl)).
  apply IH. split_and!; [done|done|]. rewrite Forall_forall in *. intros t Ht. cbn.
  rewrite lookup_claim_all, decide_False; [auto|]. intros Hc. by apply (Hd t).
Qed.

(** The schema check passes exactly when every public table is classified
    once: the classification names no blank table and no table twice (in any
    class), every discovered table is in it, and every table of a class other
    than the exceptions exists. *)
Theorem validateTableClassification_exact discovered c :
  let all := class_tables (table_classes c) in
  validateTableClassification discovered c = Ok tt <->
  discovered <> [] /\ all <> [] /\ NoDup all /\ Forall (fun t => is_blank t = false) all
  /\ (forall t, t ∈ discovered -> t ∈ all)
  /\ (forall t, t ∈ required_tables (table_classes c) -> t ∈ discovered).
Proof.
  cbv zeta. unfold validateTableClassification. rewrite bind_ok.
  assert (forall A (l : list A), (zlen l =? 0) = false <-> l <> []) as Hz
    by (intros A []; unfold zlen; simpl; split; intros; try done; by apply Z.eqb_neq).
  assert (forall A (l : list A), (0 <? zlen l) = false <-> l = []) as Hz0
    by (intros A []; unfold zlen; simpl; split; intros; try done).
  split.
  - intros (u & Hd%fail_if_ok & ([owners req] & Hf & H)%bind_ok).
    apply bind_ok in H as (u1 & Hne%fail_if_ok & H). apply bind_ok in H as (u2 & Hun%fail_if_ok & Hmi%fail_if_ok).
    apply claim_classes_ok in Hf as ((Hb & Hn & _) & Ho & Hr). apply Hz in Hd. apply Hz0 in Hun, Hmi.
    split_and!; try done.
    + intros Hnil. rewrite Hnil in Ho. prop_bools. apply Hne. apply map_empty. intros t.
      apply eq_None_not_Some. rewrite Ho. intros [[? Hx]|Hx]; [by rewrite lookup_empty in Hx|set_solver].
    + intros t Ht. destruct (owners !! t) as [n|] eqn:E.
      * assert (is_Some (owners !! t)) as Hs by (rewrite E; by eexists).
        apply Ho in Hs as [[? Hx]|Hx]; [by rewrite lookup_empty in Hx|done].
      * assert (t ∈ filter (fun t => owners !! t = None) discovered) as Hx by (by apply list_elem_of_filter).
        rewrite Hun in Hx. set_solver.
    + intros t Ht. destruct (decide (t ∈ discovered)) as [|Hnd]; [done|]. exfalso.
      assert (t ∈ filter (fun t => t ∉ discovered) (elements req)) as Hx.
      { apply list_elem_of_filter. split; [done|]. apply elem_of_elements, Hr. by right. }
      rewrite Hmi in Hx. set_solver.
  - intros (Hd & Hne & Hn & Hb & Hall & Hreq). exists tt. split; [by apply fail_if_ok, Hz|].
    destruct (claim_classes_total (table_classes c) ∅ ∅) as [[owners req] Hf].
    { split_and!; [done|done|]. apply Forall_forall. done. }
    rewrite Hf. apply claim_classes_ok in Hf as (_ & Ho & Hr). cbn [mbind result_bind].
    rewrite bool_decide_eq_false_2.
    2:{ intros ->. destruct (class_tables (table_classes c)) as [|t l]; [done|].
        assert (is_Some ((∅ : gmap string string) !! t)) as [? Hx]; [apply Ho; right; left|].
        by rewrite lookup_empty in Hx. }
    cbn [fail_if mbind result_bind].
    rewrite (proj2 (Hz0 _ (filter (fun t => owners !! t = None) discovered))).
    2:{ apply filter_none. intros t Ht Hnone.
        assert (is_Some (owners !! t)) as [? ?] by (apply Ho; right; auto). congruence. }
    cbn [fail_if mbind result_bind]. rewrite (proj2 (Hz0 _ (filter (fun t => t ∉ discovered) (elements req)))); [done|].
    apply filter_none. intros t Ht%elem_of_elements Hnd. apply Hr in Ht as [Ht|Ht]; [set_solver|auto].
Qed.
