(* ===== verification/Production.v ===== *)
(** * The production registry of [server/internal/store]

    Every event definition and rebuild target the server registers, as data:
    the event types, their payload versions and last-admin classification, the
    streams, tables and events of each rebuild target.  Projectors and resets
    are named, not modelled, here. *)

From Stdlib Require Import Ascii String ZArith Lia.
From S2P Require Export Registry.

(** ** Stream types, event types and target names *)

Definition ActionRebuildTarget : string := "managed-actions".
Definition ActionSetRebuildTarget : string := "managed-action-sets".
Definition AssignmentRebuildTarget : string := "assignments".
Definition AuthorizationRebuildTarget : string := "authorization".
Definition BootstrapLoginRebuildTarget : string := "bootstrap-logins".
Definition CARotationRebuildTarget : string := "ca-rotation".
Definition CompliancePolicyRebuildTarget : string := "compliance-policies".
Definition DeviceGroupRebuildTarget : string := "device-groups".
Definition DeviceRebuildTarget : string := "devices".
Definition GatewayRebuildTarget : string := "gateways".
Definition InventoryRebuildTarget : string := "inventory".
Definition OIDCProviderConfigRebuildTarget : string := "oidc-provider-configs".
Definition PersonalAccessTokenRebuildTarget : string := "personal-access-tokens".
Definition RefreshFamilyRebuildTarget : string := "refresh-families".
Definition RegistrationTokenRebuildTarget : string := "registration-tokens".
Definition SCIMGroupRebuildTarget : string := "scim-groups".
Definition SCIMProviderRebuildTarget : string := "scim-providers".
Definition ServerSettingRebuildTarget : string := "server-settings".
Definition UserGroupRebuildTarget : string := "managed-user-groups".
Definition UserRebuildTarget : string := "users".
Definition actionCreatedType : string := "ManagedActionCreated".
Definition actionDeletedType : string := "ManagedActionDeleted".
Definition actionPayloadVersion : Z := 1.
Definition actionSetCreatedType : string := "ManagedActionSetCreated".
Definition actionSetDeletedType : string := "ManagedActionSetDeleted".
Definition actionSetPayloadVersion : Z := 1.
Definition actionSetStreamType : string := "managed-action-set".
Definition actionSetUpdatedType : string := "ManagedActionSetUpdated".
Definition actionStreamType : string := "managed-action".
Definition actionUpdatedType : string := "ManagedActionUpdated".
Definition agentCertificateRenewedEventType : string := "AgentCertificateRenewed".
Definition agentCertificateRevokedEventType : string := "AgentCertificateRevoked".
Definition agentConsumerTrustConfirmedEventType : string := "AgentConsumerTrustConfirmed".
Definition agentDeletedEventType : string := "AgentDeleted".
Definition agentEnrolledEventType : string := "AgentEnrolled".
Definition agentForceRenewalRequiredEventType : string := "AgentCertificateForceRenewalRequired".
Definition agentLeafTrustConfirmedEventType : string := "AgentLeafTrustConfirmed".
Definition agentOwnerUpdatedEventType : string := "AgentOwnerUpdated".
Definition assignmentCreatedType : string := "AssignmentCreated".
Definition assignmentDeletedType : string := "AssignmentDeleted".
Definition assignmentPayloadVersion : Z := 1.
Definition assignmentStreamType : string := "assignment".
Definition authorizationGrantCreatedType : string := "AuthorizationGrantCreated".
Definition authorizationGrantDeletedType : string := "AuthorizationGrantDeleted".
Definition authorizationGrantStreamType : string := "authorization-grant".
Definition authorizationGrantUpdatedType : string := "AuthorizationGrantUpdated".
Definition authorizationPayloadVersion : Z := 1.
Definition authorizationRoleCreatedType : string := "AuthorizationRoleCreated".
Definition authorizationRoleDeletedType : string := "AuthorizationRoleDeleted".
Definition authorizationRoleStreamType : string := "authorization-role".
Definition authorizationRoleUpdatedType : string := "AuthorizationRoleUpdated".
Definition bootstrapAdminGrantedType : string := "BootstrapAdminRoleGranted".
Definition bootstrapLoginConsumedEventType : string := "BootstrapLoginConsumed".
Definition bootstrapLoginMintedEventType : string := "BootstrapLoginMinted".
Definition bootstrapLoginPayloadVersion : Z := 1.
Definition bootstrapLoginStreamType : string := "bootstrap-login".
Definition caRotationAbortedEventType : string := "CARotationAborted".
Definition caRotationMigrationBegunEventType : string := "CARotationMigrationBegun".
Definition caRotationNormalizedEventType : string := "CARotationNormalized".
Definition caRotationPayloadVersion : Z := 1.
Definition caRotationRetiredEventType : string := "CARotationRetired".
Definition caRotationStreamType : string := "ca-rotation".
Definition caRotationTrustBegunEventType : string := "CARotationTrustBegun".
Definition caTrustConfirmationStreamType : string := "ca-trust-confirmation".
Definition compliancePolicyCreatedType : string := "CompliancePolicyCreated".
Definition compliancePolicyDeletedType : string := "CompliancePolicyDeleted".
Definition compliancePolicyPayloadVersion : Z := 1.
Definition compliancePolicyStreamType : string := "compliance-policy".
Definition compliancePolicyUpdatedType : string := "CompliancePolicyUpdated".
Definition controlTrustStateRecordedEventType : string := "ControlTrustStateRecorded".
Definition deviceGroupCreatedEventType : string := "DeviceGroupCreated".
Definition deviceGroupDeletedEventType : string := "DeviceGroupDeleted".
Definition deviceGroupPayloadVersion : Z := 1.
Definition deviceGroupStreamType : string := "device-group".
Definition deviceGroupUpdatedEventType : string := "DeviceGroupUpdated".
Definition devicePayloadVersion : Z := 1.
Definition deviceStreamType : string := "device".
Definition gatewayCertificateRenewedEventType : string := "GatewayCertificateRenewed".
Definition gatewayCertificateRevokedEventType : string := "GatewayCertificateRevoked".
Definition gatewayConsumerTrustConfirmedEventType : string := "GatewayConsumerTrustConfirmed".
Definition gatewayEnrolledEventType : string := "GatewayEnrolled".
Definition gatewayLeafTrustConfirmedEventType : string := "GatewayLeafTrustConfirmed".
Definition gatewayPayloadVersion : Z := 1.
Definition gatewayStreamType : string := "gateway".
Definition gatewayTokenMintedEventType : string := "GatewayRegistrationTokenMinted".
Definition inventoryPayloadVersion : Z := 1.
Definition inventorySnapshotEventType : string := "InventorySnapshotReplaced".
Definition inventoryStreamType : string := "inventory".
Definition inventoryTombstoneEventType : string := "InventorySnapshotDeleted".
Definition oidcIdentityLinkedEventType : string := "OIDCIdentityLinked".
Definition oidcIdentityUnlinkedEventType : string := "OIDCIdentityUnlinked".
Definition oidcProviderConfigCreatedType : string := "OIDCProviderConfigCreated".
Definition oidcProviderConfigDeletedType : string := "OIDCProviderConfigDeleted".
Definition oidcProviderConfigStreamType : string := "oidc-provider-config".
Definition oidcProviderConfigUpdatedType : string := "OIDCProviderConfigUpdated".
Definition oidcProviderPayloadVersion : Z := 1.
Definition personalAccessTokenDeletedEventType : string := "PersonalAccessTokenDeleted".
Definition personalAccessTokenMintedEventType : string := "PersonalAccessTokenMinted".
Definition personalAccessTokenPayloadVersion : Z := 1.
Definition personalAccessTokenRevokedEventType : string := "PersonalAccessTokenRevoked".
Definition personalAccessTokenStreamType : string := "personal-access-token".
Definition personalAccessTokenUpdatedEventType : string := "PersonalAccessTokenUpdated".
Definition refreshFamilyPayloadVersion : Z := 1.
Definition refreshFamilyRevokedEventType : string := "RefreshFamilyRevoked".
Definition refreshFamilyStartedEventType : string := "RefreshFamilyStarted".
Definition refreshFamilyStreamType : string := "refresh-family".
Definition refreshTokenRotatedEventType : string := "RefreshTokenRotated".
Definition registrationTokenConsumedEventType : string := "RegistrationTokenConsumed".
Definition registrationTokenDeletedEventType : string := "RegistrationTokenDeleted".
Definition registrationTokenDisabledEventType : string := "RegistrationTokenDisabled".
Definition registrationTokenMintedEventType : string := "RegistrationTokenMinted".
Definition registrationTokenPayloadVersion : Z := 1.
Definition registrationTokenStreamType : string := "registration-token".
Definition registrationTokenUpdatedEventType : string := "RegistrationTokenUpdated".
Definition roleRevokedEventType : string := "RoleRevoked".
Definition scimGroupCreatedEventType : string := "SCIMGroupCreated".
Definition scimGroupDeletedEventType : string := "SCIMGroupDeleted".
Definition scimGroupMembershipsEventType : string := "SCIMGroupMembershipsReplaced".
Definition scimGroupStreamType : string := "scim-group".
Definition scimGroupUpdatedEventType : string := "SCIMGroupUpdated".
Definition scimIdentityLinkedEventType : string := "SCIMIdentityLinked".
Definition scimIdentityUnlinkedEventType : string := "SCIMIdentityUnlinked".
Definition scimPayloadVersion : Z := 1.
Definition scimProviderCreatedEventType : string := "SCIMProviderCreated".
Definition scimProviderDeletedEventType : string := "SCIMProviderDeleted".
Definition scimProviderDisabledEventType : string := "SCIMProviderDisabled".
Definition scimProviderStreamType : string := "scim-provider".
Definition scimProviderTokenRotatedEventType : string := "SCIMProviderTokenRotated".
Definition scimUserDeprovisionedEventType : string := "SCIMUserDeprovisioned".
Definition serverSettingCreatedType : string := "ServerSettingCreated".
Definition serverSettingDeletedType : string := "ServerSettingDeleted".
Definition serverSettingPayloadVersion : Z := 1.
Definition serverSettingStreamType : string := "server-setting".
Definition serverSettingUpdatedType : string := "ServerSettingUpdated".
Definition userCreatedEventType : string := "UserCreated".
Definition userDisabledEventType : string := "UserDisabled".
Definition userGroupCreatedEventType : string := "ManagedUserGroupCreated".
Definition userGroupDeletedEventType : string := "ManagedUserGroupDeleted".
Definition userGroupMetadataUpdatedEventType : string := "ManagedUserGroupMetadataUpdated".
Definition userGroupPayloadVersion : Z := 1.
Definition userGroupStreamType : string := "managed-user-group".
Definition userGroupUpdatedEventType : string := "ManagedUserGroupUpdated".
Definition userManagedDeletedEventType : string := "UserManagedDeleted".
Definition userManagedUpdatedEventType : string := "UserManagedUpdated".
Definition userPayloadVersion : Z := 1.
Definition userStreamType : string := "user".

(** ** Event definitions *)

(** server/internal/store/scim.go:794-822 [scimUserEventDefinitions] *)
Definition scimUserEventDefinitions : gmap string eventDefinition :=
  list_to_map
    [(scimIdentityLinkedEventType, mkEventDefinition scimPayloadVersion "scimIdentityLinkedPayload" "projectSCIMIdentityLinked" lastAdminUnaffected);
     (scimIdentityUnlinkedEventType, mkEventDefinition scimPayloadVersion "scimIdentityUnlinkedPayload" "projectSCIMIdentityUnlinked" lastAdminUnaffected)].

(** server/internal/store/session_invalidation.go:94-137 [sessionInvalidationEventDefinitions] *)
Definition sessionInvalidationEventDefinitions : gmap string eventDefinition :=
  list_to_map
    [(userDisabledEventType, mkEventDefinition userPayloadVersion "userDisabledPayload" "projectSessionInvalidation" lastAdminMayReduce);
     (roleRevokedEventType, mkEventDefinition userPayloadVersion "roleRevokedPayload" "projectSessionInvalidation" lastAdminMayReduce);
     (oidcIdentityUnlinkedEventType, mkEventDefinition userPayloadVersion "oidcIdentityUnlinkedPayload" "projectSessionInvalidation" lastAdminUnaffected);
     (scimUserDeprovisionedEventType, mkEventDefinition scimPayloadVersion "scimUserDeprovisionedPayload" "projectSessionInvalidation" lastAdminMayReduce)].

(** server/internal/store/registration_tokens.go:505-572 [registrationTokenEventDefinitions] *)
Definition registrationTokenEventDefinitions : gmap string eventDefinition :=
  list_to_map
    [(registrationTokenMintedEventType, mkEventDefinition registrationTokenPayloadVersion "registrationTokenMintedPayload" "projectRegistrationTokenMint" lastAdminEffectUnknown);
     (gatewayTokenMintedEventType, mkEventDefinition registrationTokenPayloadVersion "gatewayRegistrationTokenMintedPayload" "projectRegistrationTokenMint" lastAdminEffectUnknown);
     (registrationTokenConsumedEventType, mkEventDefinition registrationTokenPayloadVersion "registrationTokenConsumedPayload" "projectRegistrationTokenConsume" lastAdminEffectUnknown);
     (registrationTokenDisabledEventType, mkEventDefinition registrationTokenPayloadVersion "registrationTokenDisabledPayload" "projectRegistrationTokenDisable" lastAdminEffectUnknown);
     (registrationTokenUpdatedEventType, mkEventDefinition registrationTokenPayloadVersion "registrationTokenUpdatedPayload" "projectRegistrationTokenUpdate" lastAdminEffectUnknown);
     (registrationTokenDeletedEventType, mkEventDefinition registrationTokenPayloadVersion "registrationTokenDeletedPayload" "projectRegistrationTokenDelete" lastAdminEffectUnknown)].

(** server/internal/store/personal_access_tokens.go:368-413 [personalAccessTokenEventDefinitions] *)
Definition personalAccessTokenEventDefinitions : gmap string eventDefinition :=
  list_to_map
    [(personalAccessTokenMintedEventType, mkEventDefinition personalAccessTokenPayloadVersion "personalAccessTokenMintedPayload" "projectPersonalAccessTokenMint" lastAdminEffectUnknown);
     (personalAccessTokenRevokedEventType, mkEventDefinition personalAccessTokenPayloadVersion "personalAccessTokenRevokedPayload" "projectPersonalAccessTokenRevocation" lastAdminEffectUnknown);
     (personalAccessTokenUpdatedEventType, mkEventDefinition personalAccessTokenPayloadVersion "personalAccessTokenUpdatedPayload" "projectPersonalAccessTokenUpdate" lastAdminEffectUnknown);
     (personalAccessTokenDeletedEventType, mkEventDefinition personalAccessTokenPayloadVersion "personalAccessTokenDeletedPayload" "projectPersonalAccessTokenDelete" lastAdminEffectUnknown)].

(** server/internal/store/users.go:449-509 [userEventDefinitions] *)
Definition userEventDefinitions : gmap string eventDefinition :=
  
    sessionInvalidationEventDefinitions ∪ scimUserEventDefinitions ∪ list_to_map
    [(userCreatedEventType, mkEventDefinition userPayloadVersion "userCreatedPayload" "projectUserCreation" lastAdminUnaffected);
     (userManagedUpdatedEventType, mkEventDefinition userPayloadVersion "userCreatedPayload" "projectManagedUserUpdate" lastAdminUnaffected);
     (userManagedDeletedEventType, mkEventDefinition userPayloadVersion "userManagedDeletedPayload" "projectManagedUserDeletion" lastAdminMayReduce);
     (bootstrapAdminGrantedType, mkEventDefinition userPayloadVersion "bootstrapAdminRoleGrantedPayload" "projectBootstrapAdminRoleGrant" lastAdminUnaffected);
     (oidcIdentityLinkedEventType, mkEventDefinition userPayloadVersion "oidcIdentityLinkedPayload" "projectOIDCIdentityLink" lastAdminUnaffected)].

(** server/internal/store/user_groups.go:268-316 [userGroupEventDefinitions] *)
Definition userGroupEventDefinitions : gmap string eventDefinition :=
  list_to_map
    [(userGroupCreatedEventType, mkEventDefinition userGroupPayloadVersion "userGroupPayload" "projectUserGroupCreated" lastAdminUnaffected);
     (userGroupUpdatedEventType, mkEventDefinition userGroupPayloadVersion "userGroupPayload" "projectUserGroupUpdated" lastAdminMayReduce);
     (userGroupMetadataUpdatedEventType, mkEventDefinition userGroupPayloadVersion "userGroupPayload" "projectUserGroupMetadataUpdated" lastAdminUnaffected);
     (userGroupDeletedEventType, mkEventDefinition userGroupPayloadVersion "userGroupDeletedPayload" "projectUserGroupDeleted" lastAdminMayReduce)].

(** server/internal/store/bootstrap_admin.go:128-160 [bootstrapLoginEventDefinitions] *)
Definition bootstrapLoginEventDefinitions : gmap string eventDefinition :=
  list_to_map
    [(bootstrapLoginMintedEventType, mkEventDefinition bootstrapLoginPayloadVersion "bootstrapLoginMintedPayload" "projectBootstrapLoginMint" lastAdminEffectUnknown);
     (bootstrapLoginConsumedEventType, mkEventDefinition bootstrapLoginPayloadVersion "bootstrapLoginConsumedPayload" "projectBootstrapLoginConsume" lastAdminEffectUnknown)].

(** server/internal/store/refresh_families.go:182-219 [refreshFamilyEventDefinitions] *)
Definition refreshFamilyEventDefinitions : gmap string eventDefinition :=
  list_to_map
    [(refreshFamilyStartedEventType, mkEventDefinition refreshFamilyPayloadVersion "refreshFamilyStartedPayload" "projectRefreshFamilyStart" lastAdminEffectUnknown);
     (refreshTokenRotatedEventType, mkEventDefinition refreshFamilyPayloadVersion "refreshTokenRotatedPayload" "projectRefreshTokenRotation" lastAdminEffectUnknown);
     (refreshFamilyRevokedEventType, mkEventDefinition refreshFamilyPayloadVersion "refreshFamilyRevokedPayload" "projectRefreshFamilyRevocation" lastAdminEffectUnknown)].

(** server/internal/store/devices.go:412-472 [deviceEventDefinitions] *)
Definition deviceEventDefinitions : gmap string eventDefinition :=
  list_to_map
    [(agentEnrolledEventType, mkEventDefinition devicePayloadVersion "agentEnrolledPayload" "projectAgentEnrollment" lastAdminEffectUnknown);
     (agentCertificateRenewedEventType, mkEventDefinition devicePayloadVersion "agentCertificateRenewedPayload" "projectAgentCertificateRenewal" lastAdminEffectUnknown);
     (agentCertificateRevokedEventType, mkEventDefinition devicePayloadVersion "agentCertificateLifecyclePayload" "projectAgentCertificateRevocation" lastAdminEffectUnknown);
     (agentForceRenewalRequiredEventType, mkEventDefinition devicePayloadVersion "agentCertificateLifecyclePayload" "projectAgentForceRenewal" lastAdminEffectUnknown);
     (agentOwnerUpdatedEventType, mkEventDefinition devicePayloadVersion "agentOwnerUpdatedPayload" "projectAgentOwnerUpdate" lastAdminEffectUnknown);
     (agentDeletedEventType, mkEventDefinition devicePayloadVersion "agentCertificateLifecyclePayload" "projectAgentDeletion" lastAdminEffectUnknown)].

(** server/internal/store/device_groups.go:294-327 [deviceGroupEventDefinitions] *)
Definition deviceGroupEventDefinitions : gmap string eventDefinition :=
  list_to_map
    [(deviceGroupCreatedEventType, mkEventDefinition deviceGroupPayloadVersion "deviceGroupPayload" "projectDeviceGroupCreated" lastAdminEffectUnknown);
     (deviceGroupUpdatedEventType, mkEventDefinition deviceGroupPayloadVersion "deviceGroupPayload" "projectDeviceGroupUpdated" lastAdminEffectUnknown);
     (deviceGroupDeletedEventType, mkEventDefinition deviceGroupPayloadVersion "deviceGroupDeletedPayload" "projectDeviceGroupDeleted" lastAdminEffectUnknown)].

(** server/internal/store/gateways.go:194-221 [gatewayEventDefinitions] *)
Definition gatewayEventDefinitions : gmap string eventDefinition :=
  list_to_map
    [(gatewayEnrolledEventType, mkEventDefinition gatewayPayloadVersion "gatewayEnrolledPayload" "projectGatewayEnrollment" lastAdminEffectUnknown);
     (gatewayCertificateRenewedEventType, mkEventDefinition gatewayPayloadVersion "gatewayCertificateRenewedPayload" "projectGatewayRenewal" lastAdminEffectUnknown);
     (gatewayCertificateRevokedEventType, mkEventDefinition gatewayPayloadVersion "gatewayCertificateRevokedPayload" "projectGatewayRevocation" lastAdminEffectUnknown)].

(** server/internal/store/ca_rotation.go:774-780 [confirmationEventDefinition] *)
Definition confirmationEventDefinition (payloadType : string) : eventDefinition :=
  mkEventDefinition caRotationPayloadVersion payloadType "projectTrustConfirmation" lastAdminEffectUnknown.

(** server/internal/store/ca_rotation.go:751-772 [caRotationEventDefinitions] *)
Definition caRotationEventDefinitions : gmap string eventDefinition :=
  list_to_map ((fun eventType =>
      (eventType, mkEventDefinition caRotationPayloadVersion "CARotationState" "projectCARotationState"
                    lastAdminEffectUnknown))
    <$> [caRotationTrustBegunEventType; caRotationAbortedEventType; caRotationMigrationBegunEventType;
         caRotationRetiredEventType; caRotationNormalizedEventType])
  ∪ list_to_map
    [(agentLeafTrustConfirmedEventType, confirmationEventDefinition "leafTrustConfirmationPayload");
     (gatewayLeafTrustConfirmedEventType, confirmationEventDefinition "leafTrustConfirmationPayload");
     (agentConsumerTrustConfirmedEventType, confirmationEventDefinition "consumerTrustConfirmationPayload");
     (gatewayConsumerTrustConfirmedEventType, confirmationEventDefinition "consumerTrustConfirmationPayload");
     (controlTrustStateRecordedEventType,
      mkEventDefinition caRotationPayloadVersion "controlTrustConfirmationPayload" "projectTrustConfirmation"
        lastAdminEffectUnknown)].

(** server/internal/store/scim.go:724-766 [scimProviderEventDefinitions] *)
Definition scimProviderEventDefinitions : gmap string eventDefinition :=
  list_to_map
    [(scimProviderCreatedEventType, mkEventDefinition scimPayloadVersion "scimProviderPayload" "projectSCIMProviderCreated" lastAdminEffectUnknown);
     (scimProviderTokenRotatedEventType, mkEventDefinition scimPayloadVersion "scimProviderPayload" "projectSCIMProviderTokenRotated" lastAdminEffectUnknown);
     (scimProviderDisabledEventType, mkEventDefinition scimPayloadVersion "scimProviderPayload" "projectSCIMProviderDisabled" lastAdminEffectUnknown);
     (scimProviderDeletedEventType, mkEventDefinition scimPayloadVersion "scimProviderPayload" "projectSCIMProviderDeleted" lastAdminEffectUnknown)].

(** server/internal/store/scim.go:841-885 [scimGroupEventDefinitions] *)
Definition scimGroupEventDefinitions : gmap string eventDefinition :=
  list_to_map
    [(scimGroupCreatedEventType, mkEventDefinition scimPayloadVersion "scimGroupPayload" "projectSCIMGroupCreated" lastAdminUnaffected);
     (scimGroupUpdatedEventType, mkEventDefinition scimPayloadVersion "scimGroupPayload" "projectSCIMGroupUpdated" lastAdminUnaffected);
     (scimGroupMembershipsEventType, mkEventDefinition scimPayloadVersion "scimGroupMembershipsPayload" "projectSCIMGroupMembershipsReplaced" lastAdminMayReduce);
     (scimGroupDeletedEventType, mkEventDefinition scimPayloadVersion "scimGroupDeletedPayload" "projectSCIMGroupDeleted" lastAdminMayReduce)].

(** server/internal/store/authorization.go:403-478 [authorizationEventDefinitions] *)
Definition authorizationEventDefinitions : gmap string eventDefinition :=
  list_to_map
    [(authorizationRoleCreatedType, mkEventDefinition authorizationPayloadVersion "authorizationRoleCreatedPayload" "projectAuthorizationRoleCreated" lastAdminUnaffected);
     (authorizationRoleUpdatedType, mkEventDefinition authorizationPayloadVersion "authorizationRoleCreatedPayload" "projectAuthorizationRoleUpdated" lastAdminMayReduce);
     (authorizationRoleDeletedType, mkEventDefinition authorizationPayloadVersion "authorizationDeletedPayload" "projectAuthorizationRoleDeleted" lastAdminMayReduce);
     (authorizationGrantCreatedType, mkEventDefinition authorizationPayloadVersion "authorizationGrantCreatedPayload" "projectAuthorizationGrantCreated" lastAdminUnaffected);
     (authorizationGrantUpdatedType, mkEventDefinition authorizationPayloadVersion "authorizationGrantCreatedPayload" "projectAuthorizationGrantUpdated" lastAdminMayReduce);
     (authorizationGrantDeletedType, mkEventDefinition authorizationPayloadVersion "authorizationDeletedPayload" "projectAuthorizationGrantDeleted" lastAdminMayReduce)].

(** server/internal/store/oidc_providers.go:286-329 [oidcProviderConfigEventDefinitions] *)
Definition oidcProviderConfigEventDefinitions : gmap string eventDefinition :=
  list_to_map
    [(oidcProviderConfigCreatedType, mkEventDefinition oidcProviderPayloadVersion "oidcProviderConfigPayload" "projectOIDCProviderConfigCreate" lastAdminEffectUnknown);
     (oidcProviderConfigUpdatedType, mkEventDefinition oidcProviderPayloadVersion "oidcProviderConfigPayload" "projectOIDCProviderConfigUpdate" lastAdminEffectUnknown);
     (oidcProviderConfigDeletedType, mkEventDefinition oidcProviderPayloadVersion "oidcProviderConfigDeletedPayload" "projectOIDCProviderConfigDelete" lastAdminEffectUnknown)].

(** server/internal/store/server_settings.go:186-212 [serverSettingEventDefinitions] *)
Definition serverSettingEventDefinitions : gmap string eventDefinition :=
  list_to_map
    [(serverSettingCreatedType, mkEventDefinition serverSettingPayloadVersion "serverSettingPayload" "projectServerSettingCreate" lastAdminEffectUnknown);
     (serverSettingUpdatedType, mkEventDefinition serverSettingPayloadVersion "serverSettingPayload" "projectServerSettingUpdate" lastAdminEffectUnknown);
     (serverSettingDeletedType, mkEventDefinition serverSettingPayloadVersion "serverSettingDeletedPayload" "projectServerSettingDelete" lastAdminEffectUnknown)].

(** server/internal/store/actions.go:233-261 [actionEventDefinitions] *)
Definition actionEventDefinitions : gmap string eventDefinition :=
  list_to_map
    [(actionCreatedType, mkEventDefinition actionPayloadVersion "actionPayload" "projectManagedActionCreate" lastAdminEffectUnknown);
     (actionUpdatedType, mkEventDefinition actionPayloadVersion "actionPayload" "projectManagedActionUpdate" lastAdminEffectUnknown);
     (actionDeletedType, mkEventDefinition actionPayloadVersion "actionDeletedPayload" "projectManagedActionDelete" lastAdminEffectUnknown)].

(** server/internal/store/action_sets.go:218-244 [actionSetEventDefinitions] *)
Definition actionSetEventDefinitions : gmap string eventDefinition :=
  list_to_map
    [(actionSetCreatedType, mkEventDefinition actionSetPayloadVersion "actionSetPayload" "projectManagedActionSetCreate" lastAdminEffectUnknown);
     (actionSetUpdatedType, mkEventDefinition actionSetPayloadVersion "actionSetPayload" "projectManagedActionSetUpdate" lastAdminEffectUnknown);
     (actionSetDeletedType, mkEventDefinition actionSetPayloadVersion "actionSetDeletedPayload" "projectManagedActionSetDelete" lastAdminEffectUnknown)].

(** server/internal/store/assignments.go:267-293 [assignmentEventDefinitions] *)
Definition assignmentEventDefinitions : gmap string eventDefinition :=
  list_to_map
    [(assignmentCreatedType, mkEventDefinition assignmentPayloadVersion "assignmentPayload" "projectAssignmentCreate" lastAdminEffectUnknown);
     (assignmentDeletedType, mkEventDefinition assignmentPayloadVersion "assignmentDeletedPayload" "projectAssignmentDelete" lastAdminEffectUnknown)].

(** server/internal/store/compliance_policies.go:211-243 [compliancePolicyEventDefinitions] *)
Definition compliancePolicyEventDefinitions : gmap string eventDefinition :=
  list_to_map
    [(compliancePolicyCreatedType, mkEventDefinition compliancePolicyPayloadVersion "compliancePolicyPayload" "projectCompliancePolicyCreate" lastAdminEffectUnknown);
     (compliancePolicyUpdatedType, mkEventDefinition compliancePolicyPayloadVersion "compliancePolicyPayload" "projectCompliancePolicyUpdate" lastAdminEffectUnknown);
     (compliancePolicyDeletedType, mkEventDefinition compliancePolicyPayloadVersion "compliancePolicyDeletedPayload" "projectCompliancePolicyDelete" lastAdminEffectUnknown)].

(** server/internal/store/inventory.go:369-446 [productionEventDefinitions]; a later map overrides an earlier one *)
Definition productionEventDefinitions : gmap string eventDefinition :=
  compliancePolicyEventDefinitions ∪
  assignmentEventDefinitions ∪
  actionSetEventDefinitions ∪
  actionEventDefinitions ∪
  serverSettingEventDefinitions ∪
  oidcProviderConfigEventDefinitions ∪
  authorizationEventDefinitions ∪
  scimGroupEventDefinitions ∪
  scimProviderEventDefinitions ∪
  caRotationEventDefinitions ∪
  gatewayEventDefinitions ∪
  deviceGroupEventDefinitions ∪
  deviceEventDefinitions ∪
  refreshFamilyEventDefinitions ∪
  bootstrapLoginEventDefinitions ∪
  userGroupEventDefinitions ∪
  userEventDefinitions ∪
  personalAccessTokenEventDefinitions ∪
  registrationTokenEventDefinitions ∪
  list_to_map
    [(inventorySnapshotEventType, mkEventDefinition inventoryPayloadVersion "inventorySnapshotPayload" "projectInventorySnapshot" lastAdminEffectUnknown);
     (inventoryTombstoneEventType, mkEventDefinition inventoryPayloadVersion "inventoryTombstonePayload" "projectInventoryTombstone" lastAdminEffectUnknown)].

(** server/internal/store/inventory.go:93-320 [productionRebuildTargets]; [resetOf] gives the reset function
    of a Go name *)
Definition productionRebuildTargets {P} (resetOf : string -> projectionTx -> P -> result goerr P)
    : gmap string (RebuildTarget P) :=
  list_to_map
    [(ActionRebuildTarget,
      mkRebuildTarget ["managed_actions"]%string []%string [actionStreamType]
        [actionCreatedType; actionUpdatedType; actionDeletedType]
        (Some (resetOf "resetManagedActions")));
     (ActionSetRebuildTarget,
      mkRebuildTarget ["managed_action_sets"]%string []%string [actionSetStreamType]
        [actionSetCreatedType; actionSetUpdatedType; actionSetDeletedType]
        (Some (resetOf "resetManagedActionSets")));
     (AssignmentRebuildTarget,
      mkRebuildTarget ["assignments"]%string []%string [assignmentStreamType]
        [assignmentCreatedType; assignmentDeletedType]
        (Some (resetOf "resetAssignments")));
     (AuthorizationRebuildTarget,
      mkRebuildTarget ["authorization_grants"; "authorization_roles"]%string []%string [authorizationGrantStreamType; authorizationRoleStreamType]
        [authorizationGrantCreatedType; authorizationGrantUpdatedType; authorizationGrantDeletedType; authorizationRoleCreatedType; authorizationRoleUpdatedType; authorizationRoleDeletedType]
        (Some (resetOf "resetAuthorization")));
     (InventoryRebuildTarget,
      mkRebuildTarget ["inventory_snapshots"]%string []%string [inventoryStreamType]
        [inventorySnapshotEventType; inventoryTombstoneEventType]
        (Some (resetOf "resetInventorySnapshots")));
     (OIDCProviderConfigRebuildTarget,
      mkRebuildTarget ["oidc_providers"]%string []%string [oidcProviderConfigStreamType]
        [oidcProviderConfigCreatedType; oidcProviderConfigUpdatedType; oidcProviderConfigDeletedType]
        (Some (resetOf "resetOIDCProviderConfigs")));
     (PersonalAccessTokenRebuildTarget,
      mkRebuildTarget ["personal_access_tokens"]%string []%string [personalAccessTokenStreamType]
        [personalAccessTokenMintedEventType; personalAccessTokenRevokedEventType; personalAccessTokenUpdatedEventType; personalAccessTokenDeletedEventType]
        (Some (resetOf "resetPersonalAccessTokens")));
     (UserRebuildTarget,
      mkRebuildTarget ["users"; "oidc_identities"; "scim_identities"]%string []%string [userStreamType]
        [userCreatedEventType; userManagedUpdatedEventType; userManagedDeletedEventType; bootstrapAdminGrantedType; oidcIdentityLinkedEventType; oidcIdentityUnlinkedEventType; roleRevokedEventType; scimIdentityLinkedEventType; scimIdentityUnlinkedEventType; scimUserDeprovisionedEventType; userDisabledEventType]
        (Some (resetOf "resetUsers")));
     (UserGroupRebuildTarget,
      mkRebuildTarget ["managed_user_groups"; "managed_user_group_members"]%string []%string [userGroupStreamType]
        [userGroupCreatedEventType; userGroupUpdatedEventType; userGroupMetadataUpdatedEventType; userGroupDeletedEventType]
        (Some (resetOf "resetUserGroups")));
     (SCIMProviderRebuildTarget,
      mkRebuildTarget ["scim_providers"]%string []%string [scimProviderStreamType]
        [scimProviderCreatedEventType; scimProviderTokenRotatedEventType; scimProviderDisabledEventType; scimProviderDeletedEventType]
        (Some (resetOf "resetSCIMProviders")));
     (SCIMGroupRebuildTarget,
      mkRebuildTarget ["scim_groups"; "scim_group_members"]%string []%string [scimGroupStreamType]
        [scimGroupCreatedEventType; scimGroupUpdatedEventType; scimGroupMembershipsEventType; scimGroupDeletedEventType]
        (Some (resetOf "resetSCIMGroups")));
     (ServerSettingRebuildTarget,
      mkRebuildTarget ["server_settings"]%string []%string [serverSettingStreamType]
        [serverSettingCreatedType; serverSettingUpdatedType; serverSettingDeletedType]
        (Some (resetOf "resetServerSettings")));
     (BootstrapLoginRebuildTarget,
      mkRebuildTarget ["bootstrap_logins"]%string []%string [bootstrapLoginStreamType]
        [bootstrapLoginMintedEventType; bootstrapLoginConsumedEventType]
        (Some (resetOf "resetBootstrapLogins")));
     (RegistrationTokenRebuildTarget,
      mkRebuildTarget ["registration_tokens"]%string []%string [registrationTokenStreamType]
        [registrationTokenMintedEventType; gatewayTokenMintedEventType; registrationTokenConsumedEventType; registrationTokenDisabledEventType; registrationTokenUpdatedEventType; registrationTokenDeletedEventType]
        (Some (resetOf "resetRegistrationTokens")));
     (RefreshFamilyRebuildTarget,
      mkRebuildTarget ["refresh_families"; "refresh_tokens"]%string []%string [refreshFamilyStreamType]
        [refreshFamilyStartedEventType; refreshTokenRotatedEventType; refreshFamilyRevokedEventType]
        (Some (resetOf "resetRefreshFamilies")));
     (DeviceRebuildTarget,
      mkRebuildTarget ["devices"]%string ["certificate_revocations"]%string [deviceStreamType]
        [agentEnrolledEventType; agentCertificateRenewedEventType; agentCertificateRevokedEventType; agentForceRenewalRequiredEventType; agentOwnerUpdatedEventType; agentDeletedEventType]
        (Some (resetOf "resetDevices")));
     (DeviceGroupRebuildTarget,
      mkRebuildTarget ["device_groups"]%string []%string [deviceGroupStreamType]
        [deviceGroupCreatedEventType; deviceGroupUpdatedEventType; deviceGroupDeletedEventType]
        (Some (resetOf "resetDeviceGroups")));
     (GatewayRebuildTarget,
      mkRebuildTarget ["gateways"]%string ["certificate_revocations"]%string [gatewayStreamType]
        [gatewayEnrolledEventType; gatewayCertificateRenewedEventType; gatewayCertificateRevokedEventType]
        (Some (resetOf "resetGateways")));
     (CARotationRebuildTarget,
      mkRebuildTarget ["ca_rotation_state"]%string []%string [caRotationStreamType; caTrustConfirmationStreamType]
        [caRotationTrustBegunEventType; caRotationAbortedEventType; caRotationMigrationBegunEventType; caRotationRetiredEventType; caRotationNormalizedEventType; agentLeafTrustConfirmedEventType; agentConsumerTrustConfirmedEventType; gatewayLeafTrustConfirmedEventType; gatewayConsumerTrustConfirmedEventType; controlTrustStateRecordedEventType]
        (Some (resetOf "resetCARotationState")));
     (CompliancePolicyRebuildTarget,
      mkRebuildTarget ["compliance_policies"]%string []%string [compliancePolicyStreamType]
        [compliancePolicyCreatedType; compliancePolicyUpdatedType; compliancePolicyDeletedType]
        (Some (resetOf "resetCompliancePolicies")))].

(** server/internal/store/inventory.go:88-91 [ProductionRebuildTargetNames] *)
Definition ProductionRebuildTargetNames : list string :=
  sorted_keys (productionRebuildTargets (P := unit) (fun _ _ p => Ok p)).

(** ** The registry the server starts with *)

(** The events after which fewer administrators may be enabled. *)
Definition reducing_events : list string :=
  [authorizationGrantDeletedType; authorizationGrantUpdatedType; authorizationRoleDeletedType;
   authorizationRoleUpdatedType; roleRevokedEventType; scimGroupDeletedEventType;
   scimGroupMembershipsEventType; scimUserDeprovisionedEventType; userDisabledEventType;
   userGroupDeletedEventType; userGroupUpdatedEventType; userManagedDeletedEventType].

(** The production registry is accepted by its own checks, whatever the
    projectors and resets do: every event type with a definition belongs to a
    rebuild target and has a positive payload version, the tables the targets
    reset are exactly the tables classified as projections, every event of a
    target that can change administrators has a last-admin classification, and
    the events guarded by the last-admin lock are exactly the listed ones. *)
Theorem production_registry_sound P (projectorOf : string -> Projector P)
    (resetOf : string -> projectionTx -> P -> result goerr P) :
  let targets := productionRebuildTargets resetOf in
  lastAdminReductionEvents <$> new_with_policy true projectorOf productionEventDefinitions targets
  = Ok (list_to_set reducing_events)
  /\ dom (index_targets targets) = dom productionEventDefinitions
  /\ map_Forall (fun _ d => 0 < ed_PayloadVersion d) productionEventDefinitions
  /\ list_to_set (map_to_list targets ≫= fun t => rebuildTargetTables t.2)
     = (list_to_set (tc_Projections ProductionTableClassification) : gset string)
  /\ map_Forall (fun _ t => existsb lastAdminProjectionTable (rebuildTargetTables t) = true ->
       Forall (fun e => (ed_LastAdminEffect <$> productionEventDefinitions !! e) <> Some lastAdminEffectUnknown)
         (EventTypes t)) targets.
Proof.
  cbv zeta. split_and!; apply (bool_decide_unpack _); vm_compute; exact I.
Qed.
