(* ===== verification/EventStore.v ===== *)
(** * [server/internal/store/store.go]: appending events

    The append operations over a Postgres transaction.  The database is the
    list of committed events, in insertion order, and the contents [P] of every
    other table.  Other writers may commit between any two statements of a
    transaction (the isolation level is Read Committed) and any statement may
    fail: both are inputs of the operations.  [CountEnabledAdmins] is the SQL
    query of that name. *)

From Stdlib Require Import Ascii String ZArith Lia.
From S2P Require Export Production.

(** server/internal/store/store.go:26-32 [eventsStreamVersionConstraint] *)
Definition eventsStreamVersionConstraint : string := "events_stream_version_key".
Definition appendRetryBaseDelay : Z := millisecond.
Definition appendRetryMaxDelay : Z := 50 * millisecond.

(** server/internal/store/store.go:34-37 [errVersionConflict] *)
Definition errVersionConflict : goerr := ESentinel "store: version conflict".
Definition errVersionOverflow : goerr := ESentinel "store: version overflow".

(** server/internal/store/last_admin.go:18-23 [ErrLastAdmin] *)
Definition ErrLastAdmin : goerr := ESentinel "store: at least one enabled administrator is required".

(** server/internal/store/store.go:69-73 [preparedEvent] *)
Record preparedEvent (P : Type) := mkPreparedEvent {
  pr_Event : Event;
  pr_projector : Projector P;
  pr_protectLastAdmin : bool;
}.
Arguments mkPreparedEvent {P}.
Arguments pr_Event {P}.
Arguments pr_projector {P}.
Arguments pr_protectLastAdmin {P}.

(** ** The database and its other users *)

Record DB (P : Type) := mkDB { db_events : list PersistedEvent; db_state : P }.
Arguments mkDB {P}.
Arguments db_events {P}.
Arguments db_state {P}.

(** What other transactions commit while one of ours is open: events, which
    every writer appends at the next version of their stream, and any change of
    the other tables. *)
Record Others (P : Type) := mkOthers { others_events : list (Event * time); others_state : P -> P }.
Arguments mkOthers {P}.
Arguments others_events {P}.
Arguments others_state {P}.

Definition no_others {P} : Others P := mkOthers [] id.

(** Our open transaction: what is committed, and what it sees, its own writes
    included. *)
Record Tx (P : Type) := mkTx { tx_committed : DB P; tx_view : DB P }.
Arguments mkTx {P}.
Arguments tx_committed {P}.
Arguments tx_view {P}.

(** The statements of an append that may fail. *)
Inductive stmt := SBegin | SRead | SLock | SCountBefore | SInsert | SCountAfter | SRollback.

(** The environment of one event's statements: the others' commits before its
    version read and before its insert (while it waits for a lock), the
    failures, and the transaction timestamp. *)
Record StepEnv (P : Type) := mkStepEnv {
  before_read : Others P;
  before_insert : Others P;
  step_fault : stmt -> option goerr;
  step_now : time;
}.
Arguments mkStepEnv {P}.
Arguments before_read {P}.
Arguments before_insert {P}.
Arguments step_fault {P}.
Arguments step_now {P}.

(** What [tx.Commit] does: commit, fail without committing, or commit and lose
    the acknowledgement. *)
Inductive commit_outcome := Committed | CommitFailed (e : goerr) | CommitLost (e : goerr).

(** The environment of one transaction; missing steps are undisturbed. *)
Record AttemptEnv (P : Type) := mkAttemptEnv {
  tx_fault : stmt -> option goerr;
  tx_steps : list (StepEnv P);
  before_commit : Others P;
  at_commit : commit_outcome;
}.
Arguments mkAttemptEnv {P}.
Arguments tx_fault {P}.
Arguments tx_steps {P}.
Arguments before_commit {P}.
Arguments at_commit {P}.

Definition no_fault (s : stmt) : option goerr := None.
Definition quiet_step {P} : StepEnv P := mkStepEnv no_others no_others no_fault 0.

(** ** Statements *)

Definition in_stream (stype sid : string) (e : PersistedEvent) : Prop :=
  StreamType (pe_Event e) = stype /\ StreamID (pe_Event e) = sid.
#[export] Instance in_stream_dec stype sid e : Decision (in_stream stype sid e).
Proof. unfold in_stream. apply _. Defined.

Definition stream_of (stype sid : string) (log : list PersistedEvent) : list PersistedEvent :=
  filter (in_stream stype sid) log.

(** server/internal/store/queries/events.sql:1-4 [CurrentStreamVersion] *)
Definition CurrentStreamVersion {P} (db : DB P) (stype sid : string) : Z :=
  foldr Z.max 0 (StreamVersion <$> stream_of stype sid (db_events db)).

Definition pg_conflict : goerr := EPg "23505" eventsStreamVersionConstraint.

(** server/internal/store/queries/events.sql:6-16 [InsertEvent] under the
    positivity check and the unique constraint on the stream version *)
Definition InsertEvent {P} (db : DB P) (row : PersistedEvent) : result goerr (DB P) :=
  if StreamVersion row <=? 0 then Err (EPg "23514" "events_stream_version_check")
  else if bool_decide (StreamVersion row
                  ∈ StreamVersion <$> stream_of (StreamType (pe_Event row)) (StreamID (pe_Event row)) (db_events db))
  then Err pg_conflict
  else Ok (mkDB (db_events db ++ [row]) (db_state db)).

(** Another writer's event: committed at the next version of its stream, seen
    by our transaction too; while our uncommitted rows hold that stream's next
    version the other writer waits for us instead, and a version past the
    column's range is refused. *)
Definition next_row {P} (db : DB P) (ev : Event * time) : PersistedEvent :=
  mkPersistedEvent ev.1 (CurrentStreamVersion db (StreamType ev.1) (StreamID ev.1) + 1) ev.2.

Definition add_row {P} (db : DB P) (row : PersistedEvent) : DB P :=
  mkDB (db_events db ++ [row]) (db_state db).

Definition other_event {P} (tx : Tx P) (ev : Event * time) : Tx P :=
  if bool_decide (stream_of (StreamType ev.1) (StreamID ev.1) (db_events (tx_view tx))
                  = stream_of (StreamType ev.1) (StreamID ev.1) (db_events (tx_committed tx)))
     && (CurrentStreamVersion (tx_committed tx) (StreamType ev.1) (StreamID ev.1) <? max_int64)
  then let row := next_row (tx_committed tx) ev in
       mkTx (add_row (tx_committed tx) row) (add_row (tx_view tx) row)
  else tx.

Definition set_state {P} (f : P -> P) (db : DB P) : DB P := mkDB (db_events db) (f (db_state db)).

Definition others_in_tx {P} (o : Others P) (tx : Tx P) : Tx P :=
  let tx := foldl other_event tx (others_events o) in
  mkTx (set_state (others_state o) (tx_committed tx)) (set_state (others_state o) (tx_view tx)).
Arguments others_in_tx : simpl never.

(** server/internal/store/store.go:756-761 [isStreamVersionConflict] *)
Definition isStreamVersionConflict (e : goerr) : bool :=
  match as_pg_error e with
  | Some (code, constraint) =>
      String.eqb code "23505" && String.eqb constraint eventsStreamVersionConstraint
  | None => false
  end.

(** server/internal/store/store.go:605-608 [IsVersionConflict] *)
Definition IsVersionConflict (e : goerr) : bool := errors_is "store: version conflict" e.

(** server/internal/store/last_admin.go:171-174 [IsLastAdmin] *)
Definition IsLastAdmin (e : goerr) : bool :=
  errors_is "store: at least one enabled administrator is required" e.

(** ** Validation *)

(** server/internal/store/crl.go:21-26 [CertificateClass] *)
Definition CertificateClassAgent : string := "agent".
Definition CertificateClassGateway : string := "gateway".

(** server/internal/store/store.go:735-754 [validateEvent] *)
Definition validateEvent (event : Event) : result goerr unit :=
  fail_if (is_blank (StreamType event)) (EMsg "store: stream type is empty") ≫= fun _ =>
  let rotationClassID :=
    String.eqb (StreamType event) caRotationStreamType
    && (String.eqb (StreamID event) CertificateClassAgent || String.eqb (StreamID event) CertificateClassGateway) in
  fail_if (negb (is_ok (ULIDPathID (StreamID event))) && negb rotationClassID)
    (EMsg "store: invalid stream ID") ≫= fun _ =>
  fail_if (is_blank (EventType event)) (EMsg "store: event type is empty") ≫= fun _ =>
  fail_if (PayloadVersion event <=? 0) (EMsg "store: payload version must be positive") ≫= fun _ =>
  fail_if (bool_decide (Payload event = None)) (EMsg "store: payload is nil").

(** server/internal/store/store.go:620-649 [prepareEvent] *)
Definition prepareEvent {P} (s : Store P) (event : Event) : result goerr (preparedEvent P) :=
  validateEvent event ≫= fun _ =>
  let event :=
    if negb (String.eqb (StreamType event) caRotationStreamType)
    then mkEvent (StreamType event) (to_upper (StreamID event)) (EventType event)
           (PayloadVersion event) (Payload event)
    else event in
  or_err (projectors s !! EventType event) (EMsg "store: no projector registered for event type") ≫= fun projector =>
  or_err (eventTargets s !! EventType event)
    (EMsg "store: no rebuild target registered for event type") ≫= fun targetName =>
  fail_if (negb (slice_contains (default [] (StreamTypes <$> rebuildTargets s !! targetName)) (StreamType event)))
    (EMsg "store: stream type is outside rebuild target") ≫= fun _ =>
  Ok (mkPreparedEvent event projector (bool_decide (EventType event ∈ lastAdminReductionEvents s))).

(** server/internal/store/store.go:763-773 [waitAppendRetry], the delay *)
Definition append_retry_delay (attempt : Z) : Z :=
  let steps := Z.min (Z.max attempt 0) 6 in
  let delay := Nat.iter (Z.to_nat steps) (fun d => wrap_s 64 (d * 2)) appendRetryBaseDelay in
  if appendRetryMaxDelay <? delay then appendRetryMaxDelay else delay.

Section Append.
Context {P : Type} (CountEnabledAdmins : P -> string -> Z).

(** A statement that may fail. *)
Definition may_fail (env : StepEnv P) (s : stmt) (wrap : goerr -> goerr) : result goerr unit :=
  match step_fault env s with Some e => Err (wrap e) | None => Ok tt end.

(** server/internal/store/last_admin.go:132-169 [protectLastAdminMutation] *)
Definition protectLastAdminMutation (env : StepEnv P) (protect : bool)
    (mutate : DB P -> result goerr (DB P)) (view : DB P) : result goerr (DB P) :=
  if negb protect then mutate view
  else
    may_fail env SLock (EWrap "store: acquire last-admin mutation lock") ≫= fun _ =>
    may_fail env SCountBefore (EWrap "store: count enabled administrators before mutation") ≫= fun _ =>
    let before := CountEnabledAdmins (db_state view) lastAdminPermission in
    mutate view ≫= fun view' =>
    if before =? 0 then Ok view'
    else
      may_fail env SCountAfter (EWrap "store: count enabled administrators after mutation") ≫= fun _ =>
      let after := CountEnabledAdmins (db_state view') lastAdminPermission in
      if after =? 0 then Err ErrLastAdmin else Ok view'.

(** server/internal/store/store.go:686-733 [appendPrepared]; [persistedEvent]
    is the identity on rows *)
Definition appendPrepared (env : StepEnv P) (event : preparedEvent P) (streamVersion : Z)
    (view : DB P) : result goerr (DB P) :=
  protectLastAdminMutation env (pr_protectLastAdmin event) (fun view =>
    may_fail env SInsert (EWrap "insert event") ≫= fun _ =>
    let row := mkPersistedEvent (pr_Event event) streamVersion (step_now env) in
    wrap_err (EWrap "insert event") (InsertEvent view row) ≫= fun view' =>
    wrap_err (EWrap "project event")
      (pr_projector event (mkProjectionTx (Some row) false) (db_state view') row) ≫= fun p =>
    Ok (mkDB (db_events view') p)) view.

(** server/internal/store/store.go:783-790 [rollbackTx]: what a failing path
    leaves, and its error joined with a rollback failure *)
Definition rollbackTx (env : AttemptEnv P) : option goerr :=
  EWrap "store: roll back transaction" <$> tx_fault env SRollback.

Definition fail_tx {A} (env : AttemptEnv P) (tx : Tx P) (e : goerr) : DB P * result goerr A :=
  (tx_committed tx, Err (match rollbackTx env with Some r => EJoin e r | None => e end)).

(** A failed [tx.Commit] closes the transaction, so no rollback follows. *)
Definition commit_tx {A} (env : AttemptEnv P) (tx : Tx P) (msg : string) (a : A)
    : DB P * result goerr A :=
  let tx := others_in_tx (before_commit env) tx in
  match at_commit env with
  | Committed => (tx_view tx, Ok a)
  | CommitFailed e => (tx_committed tx, Err (EWrap msg e))
  | CommitLost e => (tx_view tx, Err (EWrap msg e))
  end.

(** One version read and one insert; [None] for the version means "the one
    read plus one". *)
Definition read_version (env : StepEnv P) (event : preparedEvent P) (msg : string) (tx : Tx P)
    : Tx P * result goerr Z :=
  let tx := others_in_tx (before_read env) tx in
  (tx, may_fail env SRead (EWrap msg) ≫= fun _ =>
       Ok (CurrentStreamVersion (tx_view tx) (StreamType (pr_Event event)) (StreamID (pr_Event event)))).

Definition insert_at (env : StepEnv P) (event : preparedEvent P) (version : Z) (tx : Tx P)
    : Tx P * result goerr unit :=
  let tx := others_in_tx (before_insert env) tx in
  match appendPrepared env event version (tx_view tx) with
  | Ok view' => (mkTx (tx_committed tx) view', Ok tt)
  | Err e => (tx, Err e)
  end.

(** server/internal/store/store.go:664-678 [appendAutoBatchOnce], the loop;
    [Ok true] asks for a retry *)
Fixpoint auto_steps (envs : list (StepEnv P)) (events : list (preparedEvent P)) (tx : Tx P)
    : Tx P * result goerr bool :=
  match events with
  | [] => (tx, Ok false)
  | event :: rest =>
      let env := hd quiet_step envs in
      match read_version env event "read stream version" tx with
      | (tx, Err e) => (tx, Err e)
      | (tx, Ok currentVersion) =>
          match insert_at env event (wrap_s 64 (currentVersion + 1)) tx with
          | (tx, Err e) => (tx, if isStreamVersionConflict e then Ok true else Err (EWrap "event" e))
          | (tx, Ok _) => auto_steps (tl envs) rest tx
          end
      end
  end.

(** server/internal/store/store.go:651-684 [appendAutoBatchOnce] *)
Definition appendAutoBatchOnce (env : AttemptEnv P) (events : list (preparedEvent P)) (db : DB P)
    : DB P * result goerr bool :=
  match tx_fault env SBegin with
  | Some e => (db, Err (EWrap "begin append transaction" e))
  | None =>
      match auto_steps (tx_steps env) events (mkTx db db) with
      | (tx, Err e) => fail_tx env tx e
      | (tx, Ok true) =>
          (tx_committed tx, match rollbackTx env with Some e => Err e | None => Ok true end)
      | (tx, Ok false) => commit_tx env tx "commit append transaction" false
      end
  end.

(** server/internal/store/store.go:610-618 [validateAppendCall]; [None] is a
    nil store, [ctx] is [false] for a nil context *)
Definition validateAppendCall (s : option (Store P)) (ctx : bool) : result goerr (Store P) :=
  or_err s (EMsg "store: nil store") ≫= fun s =>
  fail_if (negb ctx) (EMsg "store: nil append context") ≫= fun _ => Ok s.

(** server/internal/store/store.go:322-336 [AppendEvent], the retry loop;
    [waits n] is the error of the wait after attempt [n] when the context ends
    first *)
Fixpoint append_loop (fuel : nat) (attempt : nat) (envs : nat -> AttemptEnv P)
    (waits : nat -> option goerr) (prepared : preparedEvent P) (db : DB P)
    : option (DB P * result goerr unit) :=
  match fuel with
  | O => None
  | S fuel =>
      match appendAutoBatchOnce (envs attempt) [prepared] db with
      | (db, Err e) => Some (db, Err (EWrap "store: append event" e))
      | (db, Ok false) => Some (db, Ok tt)
      | (db, Ok true) =>
          match waits attempt with
          | Some e => Some (db, Err (EWrap "store: wait to retry stream-version conflict" e))
          | None => append_loop fuel (S attempt) envs waits prepared db
          end
      end
  end.

(** server/internal/store/store.go:310-337 [AppendEvent] *)
Definition AppendEvent (fuel : nat) (s : option (Store P)) (ctx : bool) (event : Event)
    (envs : nat -> AttemptEnv P) (waits : nat -> option goerr) (db : DB P)
    : option (DB P * result goerr unit) :=
  match validateAppendCall s ctx ≫= fun s => prepareEvent s event with
  | Err e => Some (db, Err e)
  | Ok prepared => append_loop fuel 0 envs waits prepared db
  end.

(** server/internal/store/store.go:386-412 [AppendEvents] *)
Definition AppendEvents (s : option (Store P)) (ctx : bool) (events : list Event)
    (env : AttemptEnv P) (db : DB P) : DB P * result goerr unit :=
  match validateAppendCall s ctx with
  | Err e => (db, Err e)
  | Ok s =>
      match events with
      | [] => (db, Ok tt)
      | _ =>
          match wrap_err (EWrap "store: prepare batch event") (map_result (prepareEvent s) events) with
          | Err e => (db, Err e)
          | Ok prepared =>
              match appendAutoBatchOnce env prepared db with
              | (db, Err e) => (db, Err (EWrap "store: append events" e))
              | (db, Ok true) => (db, Err (EWrap "batch stream changed concurrently" errVersionConflict))
              | (db, Ok false) => (db, Ok tt)
              end
          end
      end
  end.

(** server/internal/store/store.go:475-483 [AppendEventsWithVersion], the
    loop; [version] is [expectedVersion + index] *)
Fixpoint pinned_steps (envs : list (StepEnv P)) (events : list (preparedEvent P)) (version : Z)
    (tx : Tx P) : Tx P * result goerr unit :=
  match events with
  | [] => (tx, Ok tt)
  | event :: rest =>
      match insert_at (hd quiet_step envs) event (wrap_s 64 (version + 1)) tx with
      | (tx, Err e) =>
          (tx, Err (if isStreamVersionConflict e then EWrap "expected" errVersionConflict
                    else EWrap "store: version-pinned append" e))
      | (tx, Ok _) => pinned_steps (tl envs) rest (version + 1) tx
      end
  end.

(** server/internal/store/store.go:353-383 [AppendEventWithVersion] and
    447-487 [AppendEventsWithVersion]: the pinned transaction *)
Definition append_pinned (env : AttemptEnv P) (first : preparedEvent P) (events : list (preparedEvent P))
    (expectedVersion : Z) (db : DB P) : DB P * result goerr unit :=
  match tx_fault env SBegin with
  | Some e => (db, Err (EWrap "store: begin version-pinned append transaction" e))
  | None =>
      match read_version (hd quiet_step (tx_steps env)) first "store: read stream version" (mkTx db db) with
      | (tx, Err e) => fail_tx env tx e
      | (tx, Ok currentVersion) =>
          if negb (currentVersion =? expectedVersion)
          then fail_tx env tx (EWrap "expected" errVersionConflict)
          else match pinned_steps (tx_steps env) events expectedVersion tx with
               | (tx, Err e) => fail_tx env tx e
               | (tx, Ok _) => commit_tx env tx "store: commit version-pinned append transaction" tt
               end
      end
  end.

(** server/internal/store/store.go:339-384 [AppendEventWithVersion] *)
Definition AppendEventWithVersion (s : option (Store P)) (ctx : bool) (event : Event)
    (expectedVersion : Z) (env : AttemptEnv P) (db : DB P) : DB P * result goerr unit :=
  match validateAppendCall s ctx ≫= fun s =>
        fail_if (expectedVersion <? 0) (EMsg "store: expected version must not be negative") ≫= fun _ =>
        prepareEvent s event with
  | Err e => (db, Err e)
  | Ok prepared => append_pinned env prepared [prepared] expectedVersion db
  end.

(** server/internal/store/store.go:440-442 [AppendEventsWithVersion], the
    same-stream test *)
Definition same_stream (first event : preparedEvent P) : bool :=
  String.eqb (StreamType (pr_Event event)) (StreamType (pr_Event first))
  && String.eqb (StreamID (pr_Event event)) (StreamID (pr_Event first)).

(** server/internal/store/store.go:433-445 [AppendEventsWithVersion], the
    preparation loop; [first] is the first prepared event *)
Fixpoint prepare_pinned (s : Store P) (first : option (preparedEvent P)) (events : list Event)
    : result goerr (list (preparedEvent P)) :=
  match events with
  | [] => Ok []
  | event :: rest =>
      wrap_err (EWrap "store: prepare version-pinned batch event") (prepareEvent s event) ≫= fun prepared =>
      fail_if (match first with Some f => negb (same_stream f prepared) | None => false end)
        (EMsg "store: version-pinned batch events must share one stream") ≫= fun _ =>
      prepare_pinned s (Some (default prepared first)) rest ≫= fun others =>
      Ok (prepared :: others)
  end.

(** server/internal/store/store.go:414-488 [AppendEventsWithVersion] *)
Definition AppendEventsWithVersion (s : option (Store P)) (ctx : bool) (events : list Event)
    (expectedVersion : Z) (env : AttemptEnv P) (db : DB P) : DB P * result goerr unit :=
  match validateAppendCall s ctx ≫= fun s =>
        fail_if (expectedVersion <? 0) (EMsg "store: expected version must not be negative") ≫= fun _ => Ok s with
  | Err e => (db, Err e)
  | Ok s =>
      match events with
      | [] => (db, Ok tt)
      | _ =>
          match fail_if (max_int64 - expectedVersion <? zlen events)
                  (EWrap "version-pinned batch" errVersionOverflow) ≫= fun _ =>
                prepare_pinned s None events with
          | Err e => (db, Err e)
          | Ok [] => (db, Ok tt)
          | Ok (first :: rest) => append_pinned env first (first :: rest) expectedVersion db
          end
      end
  end.

(** server/internal/store/store.go:490-531 [AppendEventBeforeCommit];
    [beforeCommit] is the callback's result, [None] for a nil callback *)
Definition AppendEventBeforeCommit (s : option (Store P)) (ctx : bool) (event : Event)
    (beforeCommit : option (result goerr unit)) (env : AttemptEnv P) (db : DB P)
    : DB P * result goerr unit :=
  match validateAppendCall s ctx ≫= fun s =>
        or_err beforeCommit (EMsg "store: nil before-commit callback") ≫= fun cb =>
        prepareEvent s event ≫= fun prepared => Ok (cb, prepared) with
  | Err e => (db, Err e)
  | Ok (cb, prepared) =>
      match tx_fault env SBegin with
      | Some e => (db, Err (EWrap "store: begin callback append transaction" e))
      | None =>
          let step := hd quiet_step (tx_steps env) in
          match read_version step prepared "store: read callback append stream version" (mkTx db db) with
          | (tx, Err e) => fail_tx env tx e
          | (tx, Ok currentVersion) =>
              match insert_at step prepared (wrap_s 64 (currentVersion + 1)) tx with
              | (tx, Err e) => fail_tx env tx (EWrap "store: callback append" e)
              | (tx, Ok _) =>
                  match cb with
                  | Err e => fail_tx env tx (EWrap "store: before-commit callback" e)
                  | Ok _ => commit_tx env tx "store: commit callback append transaction" tt
                  end
              end
          end
      end
  end.
End Append.

(** ** Specifications *)

(** Every stream holds the versions 1, 2, 3, ... in insertion order. *)
Definition contiguous (log : list PersistedEvent) : Prop :=
  forall stype sid, StreamVersion <$> stream_of stype sid log = seqZ 1 (zlen (stream_of stype sid log)).

(** One commit of another writer, and any number of them. *)
Definition others_step {P} (db db' : DB P) : Prop :=
  (exists ev, CurrentStreamVersion db (StreamType ev.1) (StreamID ev.1) < max_int64
              /\ db' = add_row db (next_row db ev))
  \/ (exists f, db' = set_state f db).
Definition others_only {P} : DB P -> DB P -> Prop := rtc others_step.

(** The calls a writer can make on a store. *)
Inductive append_call (P : Type) :=
| CallAppendEvent (fuel : nat) (event : Event) (envs : nat -> AttemptEnv P) (waits : nat -> option goerr)
| CallAppendEvents (events : list Event) (env : AttemptEnv P)
| CallAppendEventWithVersion (event : Event) (expectedVersion : Z) (env : AttemptEnv P)
| CallAppendEventsWithVersion (events : list Event) (expectedVersion : Z) (env : AttemptEnv P)
| CallAppendEventBeforeCommit (event : Event) (beforeCommit : option (result goerr unit)) (env : AttemptEnv P).
Arguments CallAppendEvent {P}.
Arguments CallAppendEvents {P}.
Arguments CallAppendEventWithVersion {P}.
Arguments CallAppendEventsWithVersion {P}.
Arguments CallAppendEventBeforeCommit {P}.

Definition run_call {P} (count : P -> string -> Z) (s : option (Store P)) (ctx : bool)
    (c : append_call P) (db : DB P) : option (DB P * result goerr unit) :=
  match c with
  | CallAppendEvent fuel event envs waits => AppendEvent count fuel s ctx event envs waits db
  | CallAppendEvents events env => Some (AppendEvents count s ctx events env db)
  | CallAppendEventWithVersion event v env => Some (AppendEventWithVersion count s ctx event v env db)
  | CallAppendEventsWithVersion events v env => Some (AppendEventsWithVersion count s ctx events v env db)
  | CallAppendEventBeforeCommit event cb env => Some (AppendEventBeforeCommit count s ctx event cb env db)
  end.

(** The commit whose acknowledgement is lost, the only one a caller cannot
    tell from a failure. *)
Definition ack_lost {P} (env : AttemptEnv P) : Prop := exists e, at_commit env = CommitLost e.

(** A history of one log: calls of this store and commits of other writers. *)
Inductive history {P} (count : P -> string -> Z) (s : option (Store P)) : DB P -> DB P -> Prop :=
| history_refl db : history count s db db
| history_call db db1 db2 ctx c r :
    history count s db db1 -> run_call count s ctx c db1 = Some (db2, r) -> history count s db db2
| history_others db db1 db2 :
    history count s db db1 -> others_only db1 db2 -> history count s db db2.

(** The stream versions fit their [bigint] column. *)
Definition versions_fit (log : list PersistedEvent) : Prop :=
  forall stype sid, zlen (stream_of stype sid log) <= max_int64.

(** A step nobody else's event interferes with between its read and its
    insert, and whose failures are not version conflicts. *)
Definition calm {P} (se : StepEnv P) : Prop :=
  others_events (before_insert se) = []
  /\ forall s e, step_fault se s = Some e -> isStreamVersionConflict e = false.

(** A store with one stream, whose projection counts the administrators. *)
Definition example_store : Store Z :=
  mkStore {["Granted"%string := fun _ n _ => Ok (n + 1)]} 
    {["admins"%string := mkRebuildTarget ["users"]%string [] ["user"]%string ["Granted"]%string None]}
    {["Granted"%string := "admins"%string]} {["Granted"%string]}.
Definition example_event : Event :=
  mkEvent "user" "01ARZ3NDEKTSV4RRFFQ69G5FAV" "Granted" 1 (Some "{}"%string).
Definition example_count (n : Z) (_ : string) : Z := Z.max 0 n.
Definition quiet_env : AttemptEnv Z := mkAttemptEnv no_fault [] no_others Committed.
Definition empty_db : DB Z := mkDB [] 1.
Definition example_row (v now : Z) : PersistedEvent := mkPersistedEvent example_event v now.

(** Another writer appends to the same stream between our read and insert. *)
Definition busy_env : AttemptEnv Z :=
  mkAttemptEnv no_fault [mkStepEnv no_others (mkOthers [(example_event, 7)] id) no_fault 9] no_others Committed.

(** ** Streams *)

Lemma stream_of_app stype sid l k : stream_of stype sid (l ++ k) = stream_of stype sid l ++ stream_of stype sid k.
Proof. apply filter_app. Qed.

Lemma stream_of_one stype sid row :
  stream_of stype sid [row] = if decide (in_stream stype sid row) then [row] else [].
Proof. unfold stream_of. rewrite filter_cons, filter_nil. by case_decide. Qed.

Lemma foldr_max_seqZ n : 0 <= n -> foldr Z.max 0 (seqZ 1 n) = n.
Proof.
  intros Hn. pattern n. apply Z.right_induction with (z := 0); [solve_proper|done| |done].
  intros m Hm IH. replace (Z.succ m) with (m + 1) by lia.
  rewrite seqZ_app by lia. rewrite foldr_app. change (seqZ (1 + m) 1) with [1 + m]. cbn [foldr].
  assert (forall l a, 0 <= a -> foldr Z.max a l = Z.max a (foldr Z.max 0 l)) as Hacc.
  { intros l. induction l as [|x l IHl]; intros a Ha; simpl; [lia|]. rewrite IHl by done. lia. }
  rewrite Hacc, IH; lia.
Qed.

Lemma contiguous_version {P} (db : DB P) stype sid :
  contiguous (db_events db) -> CurrentStreamVersion db stype sid = zlen (stream_of stype sid (db_events db)).
Proof. intros Hc. unfold CurrentStreamVersion. rewrite Hc. apply foldr_max_seqZ. unfold zlen. lia. Qed.

Lemma contiguous_nil : contiguous [].
Proof. intros stype sid. done. Qed.

Lemma contiguous_snoc log row :
  contiguous log ->
  StreamVersion row
    = zlen (stream_of (StreamType (pe_Event row)) (StreamID (pe_Event row)) log) + 1 ->
  contiguous (log ++ [row]).
Proof.
  intros Hc Hv stype sid. rewrite stream_of_app, stream_of_one. case_decide as Hin.
  - destruct Hin as [<- <-]. rewrite fmap_app, Hc. unfold zlen in *. rewrite length_app, Nat2Z.inj_add.
    rewrite seqZ_app by lia. f_equal. change (Z.of_nat (length [row])) with 1.
    rewrite seqZ_cons by lia. cbn. f_equal. lia.
  - by rewrite app_nil_r.
Qed.

Lemma contiguous_versions log stype sid v :
  contiguous log ->
  v ∈ StreamVersion <$> stream_of stype sid log <-> 1 <= v <= zlen (stream_of stype sid log).
Proof. intros Hc. rewrite Hc, elem_of_seqZ. lia. Qed.

(** ** Other writers *)

Lemma next_row_contiguous {P} (db : DB P) ev : contiguous (db_events db) -> contiguous (db_events (add_row db (next_row db ev))).
Proof. intros Hc. apply contiguous_snoc; [done|]. cbn. by rewrite contiguous_version. Qed.

Lemma others_only_contiguous {P} (db db' : DB P) :
  others_only db db' -> contiguous (db_events db) -> contiguous (db_events db').
Proof.
  induction 1 as [|db db1 db2 Hs _ IH]; [done|]. intros Hc. apply IH.
  destruct Hs as [(ev & _ & ->)|[f ->]]; [by apply next_row_contiguous|done].
Qed.

Lemma others_only_prefix {P} (db db' : DB P) : others_only db db' -> db_events db `prefix_of` db_events db'.
Proof.
  induction 1 as [|db db1 db2 Hs _ IH]; [done|]. etransitivity; [|exact IH].
  destruct Hs as [(ev & _ & ->)|[f ->]]; [by eexists|done].
Qed.

(** What an open transaction keeps true: both logs are contiguous, and what is
    committed is only what others committed since it began. *)
Record tx_ok {P} (db : DB P) (tx : Tx P) : Prop := {
  tx_committed_ok : contiguous (db_events (tx_committed tx));
  tx_view_ok : contiguous (db_events (tx_view tx));
  tx_others : others_only db (tx_committed tx);
  tx_grows : db_events db `prefix_of` db_events (tx_view tx);
  tx_behind stype sid : zlen (stream_of stype sid (db_events (tx_committed tx)))
                        <= zlen (stream_of stype sid (db_events (tx_view tx)));
}.

(** Others never change a stream we have written, and leave every stream we
    have not written the same for us and for them. *)
Definition others_respect {P} (tx tx' : Tx P) : Prop :=
  forall stype sid,
    let view t := stream_of stype sid (db_events (tx_view t)) in
    let committed t := stream_of stype sid (db_events (tx_committed t)) in
    (view tx = committed tx -> view tx' = committed tx' /\ view tx `prefix_of` view tx')
    /\ (view tx <> committed tx -> view tx' = view tx /\ committed tx' = committed tx).

Lemma others_respect_trans {P} (tx1 tx2 tx3 : Tx P) :
  others_respect tx1 tx2 -> others_respect tx2 tx3 -> others_respect tx1 tx3.
Proof.
  intros H12 H23 stype sid. specialize (H12 stype sid). specialize (H23 stype sid). cbv zeta in *.
  destruct H12 as [He Hn], H23 as [He' Hn']. split.
  - intros H. destruct (He H) as [H2 Hp]. destruct (He' H2) as [? ?]. split; [done|]. by etransitivity.
  - intros H. destruct (Hn H) as [Hv Hc]. destruct Hn' as [Hv' Hc']; [congruence|].
    split; congruence.
Qed.

Lemma other_event_ok {P} (db : DB P) tx ev :
  tx_ok db tx -> tx_ok db (other_event tx ev) /\ others_respect tx (other_event tx ev).
Proof.
  intros [Hc Hv Ho Hg Hb]. unfold other_event.
  destruct (bool_decide _ && _) eqn:E; [|split; [done|split; [done|done]]].
  apply andb_true_iff in E as [Heq%bool_decide_eq_true Hmax%Z.ltb_lt].
  set (row := next_row (tx_committed tx) ev). split.
  - split; cbn [tx_committed tx_view]; [by apply next_row_contiguous| | | |]; unfold add_row; cbn [db_events].
    + apply contiguous_snoc; [done|]. unfold row, next_row. cbn [StreamVersion pe_Event].
      by rewrite contiguous_version, Heq.
    + eapply rtc_r; [exact Ho|]. left. by exists ev.
    + by apply prefix_app_r.
    + intros stype sid. rewrite !stream_of_app. specialize (Hb stype sid). unfold zlen in *.
      rewrite !length_app. lia.
  - intros stype sid. cbv zeta. unfold add_row. cbn [tx_view tx_committed db_events].
    rewrite !stream_of_app, stream_of_one. case_decide as Hin.
    + destruct Hin as [<- <-]. unfold row in *. cbn [pe_Event next_row] in *. split; [|done].
      intros _. rewrite Heq. split; [done|by eexists].
    + rewrite !app_nil_r. done.
Qed.

Lemma others_in_tx_ok {P} (db : DB P) o tx :
  tx_ok db tx -> tx_ok db (others_in_tx o tx) /\ others_respect tx (others_in_tx o tx).
Proof.
  intros Hok. unfold others_in_tx.
  assert (tx_ok db (foldl other_event tx (others_events o))
          /\ others_respect tx (foldl other_event tx (others_events o))) as [[Hc Hv Ho Hg Hb] Hr].
  { generalize (others_events o) as evs. intros evs. revert tx Hok. induction evs as [|ev evs IH]; intros tx Hok; cbn [foldl].
    - split; [done|]. intros stype sid. done.
    - destruct (other_event_ok db tx ev Hok) as [Hok' Hr]. destruct (IH _ Hok') as [Hok2 Hr2].
      split; [done|]. by eapply others_respect_trans. }
  split; [|exact Hr]. split; [exact Hc|exact Hv| |exact Hg|exact Hb].
  eapply rtc_r; [exact Ho|]. right. by eexists.
Qed.

Lemma others_respect_view {P} (tx tx' : Tx P) stype sid :
  others_respect tx tx' ->
  stream_of stype sid (db_events (tx_view tx)) `prefix_of` stream_of stype sid (db_events (tx_view tx')).
Proof.
  intros H. destruct (H stype sid) as [He Hn].
  destruct (decide (stream_of stype sid (db_events (tx_view tx)) = stream_of stype sid (db_events (tx_committed tx))))
    as [Hd|Hd]; [by apply He|]. by rewrite (proj1 (Hn Hd)).
Qed.

Lemma prefix_zlen {A} (l k : list A) : l `prefix_of` k -> zlen l <= zlen k.
Proof. intros H%prefix_length. unfold zlen. lia. Qed.

(** ** One insert *)

Lemma wrap_s_le x : 0 <= x -> wrap_s 64 x <= x.
Proof.
  intros Hx. unfold wrap_s. change (2 ^ (64 - 1)) with 9223372036854775808.
  change (2 ^ 64) with 18446744073709551616.
  pose proof (Z.mod_le (x + 9223372036854775808) 18446744073709551616). lia.
Qed.

(** Inserting at the version after one seen earlier succeeds only if the
    stream has not moved since. *)
Lemma InsertEvent_next {P} (db db' : DB P) event v now :
  let stream := stream_of (StreamType event) (StreamID event) (db_events db) in
  contiguous (db_events db) -> 0 <= v <= zlen stream ->
  InsertEvent db (mkPersistedEvent event (wrap_s 64 (v + 1)) now) = Ok db' ->
  v = zlen stream /\ wrap_s 64 (v + 1) = v + 1
  /\ db' = add_row db (mkPersistedEvent event (v + 1) now) /\ contiguous (db_events db').
Proof.
  cbv zeta. intros Hc Hv. unfold InsertEvent. cbn [StreamVersion pe_Event].
  destruct (Z.leb_spec (wrap_s 64 (v + 1)) 0) as [|Hpos]; [done|].
  case_bool_decide as Hin; [done|]. intros [= <-]. rewrite contiguous_versions in Hin by done.
  pose proof (wrap_s_le (v + 1)). assert (wrap_s 64 (v + 1) = v + 1) as Heq by lia.
  rewrite Heq in *. split_and!; [lia|done|done|]. cbn. apply contiguous_snoc; [done|]. cbn. lia.
Qed.

Section Append_proofs.
Context {P : Type} (count : P -> string -> Z).

Lemma appendPrepared_ok env (event : preparedEvent P) v view view' :
  appendPrepared count env event v view = Ok view' ->
  exists db', InsertEvent view (mkPersistedEvent (pr_Event event) v (step_now env)) = Ok db'
  /\ db_events view' = db_events db'
  /\ (pr_protectLastAdmin event = true -> count (db_state view) lastAdminPermission <> 0 ->
       count (db_state view') lastAdminPermission <> 0).
Proof.
  unfold appendPrepared, protectLastAdminMutation.
  assert (forall view', (may_fail env SInsert (EWrap "insert event") ≫= fun _ =>
      let row := mkPersistedEvent (pr_Event event) v (step_now env) in
      wrap_err (EWrap "insert event") (InsertEvent view row) ≫= fun view' =>
      wrap_err (EWrap "project event")
        (pr_projector event (mkProjectionTx (Some row) false) (db_state view') row) ≫= fun p =>
      Ok (mkDB (db_events view') p)) = Ok view' ->
    exists db', InsertEvent view (mkPersistedEvent (pr_Event event) v (step_now env)) = Ok db'
    /\ db_events view' = db_events db') as Hmut.
  { intros view2 (u & _ & (db' & Hi%wrap_err_ok & (p & _ & [= <-])%bind_ok)%bind_ok)%bind_ok. by exists db'. }
  destruct (pr_protectLastAdmin event); cbn [negb].
  - intros (u & _ & (u' & _ & (view2 & Hm & H)%bind_ok)%bind_ok)%bind_ok.
    destruct (Hmut _ Hm) as (db' & Hi & He). exists db'. split; [done|]. revert H.
    destruct (Z.eqb_spec (count (db_state view) lastAdminPermission) 0) as [H0|H0].
    + intros [= <-]. split; [done|]. congruence.
    + intros (u2 & _ & H)%bind_ok. destruct (Z.eqb_spec (count (db_state view2) lastAdminPermission) 0); [done|].
      injection H as <-. done.
  - intros Hm. destruct (Hmut _ Hm) as (db' & Hi & He). exists db'. done.
Qed.

(** One version read and insert: the row goes after everything the stream
    holds, or the transaction is as the others left it. *)
Lemma insert_at_ok db env (event : preparedEvent P) v tx tx' r :
  let stream t := stream_of (StreamType (pr_Event event)) (StreamID (pr_Event event)) (db_events (tx_view t)) in
  tx_ok db tx -> 0 <= v <= zlen (stream tx) ->
  insert_at count env event (wrap_s 64 (v + 1)) tx = (tx', r) ->
  tx_ok db tx'
  /\ match r with
     | Ok _ =>
         exists o, let tx1 := others_in_tx o tx in
         zlen (stream tx1) = v /\ tx_committed tx' = tx_committed tx1
         /\ db_events (tx_view tx')
            = db_events (tx_view tx1) ++ [mkPersistedEvent (pr_Event event) (v + 1) (step_now env)]
     | Err _ => True
     end.
Proof.
  cbv zeta. intros Hok Hv. unfold insert_at.
  destruct (others_in_tx_ok db (before_insert env) tx Hok) as [[Hc Hvw Ho Hg Hb] Hr].
  pose proof (prefix_zlen _ _ (others_respect_view _ _ (StreamType (pr_Event event)) (StreamID (pr_Event event)) Hr)).
  assert (exists o, others_in_tx (before_insert env) tx = others_in_tx o tx) as [o Heqo] by eauto.
  revert Hc Hvw Ho Hg Hb Hr H Heqo. generalize (others_in_tx (before_insert env) tx) as tx1.
  intros tx1 Hc Hvw Ho Hg Hb Hr Hlong Heqo.
  destruct (appendPrepared count env event _ _) as [view'|e] eqn:Ea; intros [= <- <-]; [|done].
  apply appendPrepared_ok in Ea as (db' & Hi & He & _).
  apply InsertEvent_next in Hi as (Hlen & Hw & -> & Hc'); [|done|lia].
  split; [|exists o; rewrite <- Heqo; cbn; by rewrite He].
  split; cbn [tx_committed tx_view db_events]; rewrite ?He; [done|done|done|by apply prefix_app_r|].
  intros stype sid. unfold add_row. cbn [db_events]. rewrite stream_of_app. specialize (Hb stype sid).
  unfold zlen in *. rewrite length_app. lia.
Qed.

Lemma read_version_ok db env (event : preparedEvent P) msg tx tx' r :
  tx_ok db tx -> read_version env event msg tx = (tx', r) ->
  tx_ok db tx'
  /\ match r with
     | Ok v => v = zlen (stream_of (StreamType (pr_Event event)) (StreamID (pr_Event event))
                           (db_events (tx_view tx')))
     | Err _ => True
     end.
Proof.
  intros Hok. unfold read_version. destruct (others_in_tx_ok db (before_read env) tx Hok) as [Hok' _].
  intros [= <- <-]. split; [done|]. unfold may_fail.
  destruct (step_fault env SRead); [done|]. cbn [mbind result_bind].
  apply contiguous_version, Hok'.
Qed.

Lemma others_in_tx_grows o (tx : Tx P) : db_events (tx_view tx) `prefix_of` db_events (tx_view (others_in_tx o tx)).
Proof.
  unfold others_in_tx. generalize (others_events o) as evs. intros evs. revert tx.
  induction evs as [|ev evs IH]; intros tx; [done|]. cbn [foldl]. etransitivity; [|apply IH].
  unfold other_event. case_match; [|done]. by eexists.
Qed.

(** What a stretch of a transaction added of ours: the rows of [events], in
    order and after everything the view held, and nothing else that is not
    committed for everybody. *)
Definition ours (mine : list PersistedEvent) (tx : Tx P) : Prop :=
  db_events (tx_view tx) ≡ₚ db_events (tx_committed tx) ++ mine.

Definition recorded (events : list (preparedEvent P)) (tx tx' : Tx P) : Prop :=
  exists rows, pe_Event <$> rows = pr_Event <$> events
  /\ (db_events (tx_view tx) ++ rows) `sublist_of` db_events (tx_view tx')
  /\ forall mine, ours mine tx -> ours (mine ++ rows) tx'.

Lemma recorded_refl tx : recorded [] tx tx.
Proof. exists []. rewrite app_nil_r. split_and!; [done..|]. intros mine. by rewrite app_nil_r. Qed.

Lemma recorded_trans events1 events2 tx1 tx2 tx3 :
  recorded events1 tx1 tx2 -> recorded events2 tx2 tx3 -> recorded (events1 ++ events2) tx1 tx3.
Proof.
  intros (rows1 & He1 & Hs1 & Ho1) (rows2 & He2 & Hs2 & Ho2). exists (rows1 ++ rows2).
  rewrite !fmap_app, He1, He2. split_and!; [done| |].
  - rewrite app_assoc. etransitivity; [|exact Hs2]. by apply sublist_app.
  - intros mine Hm. rewrite app_assoc. auto.
Qed.

Lemma others_in_tx_recorded o (tx : Tx P) : recorded [] tx (others_in_tx o tx).
Proof.
  exists []. split_and!; [done| |].
  - rewrite app_nil_r. apply prefix_sublist, others_in_tx_grows.
  - intros mine. rewrite app_nil_r. unfold others_in_tx, ours. cbn [tx_view tx_committed set_state db_events].
    revert tx. induction (others_events o) as [|ev evs IH]; intros tx Hm; [done|]. cbn [foldl]. apply IH.
    unfold other_event. case_match; [|done]. cbn. rewrite Hm, <- !app_assoc.
    by rewrite (Permutation_app_comm mine).
Qed.

Lemma insert_at_recorded db env (event : preparedEvent P) v tx tx' u :
  tx_ok db tx ->
  0 <= v <= zlen (stream_of (StreamType (pr_Event event)) (StreamID (pr_Event event)) (db_events (tx_view tx))) ->
  insert_at count env event (wrap_s 64 (v + 1)) tx = (tx', Ok u) ->
  tx_ok db tx' /\ recorded [event] tx tx'.
Proof.
  intros Hok Hv Hi. destruct (insert_at_ok db env event v tx tx' _ Hok Hv Hi) as [Hok' (o & _ & Hc & Hev)].
  split; [done|]. apply (recorded_trans [] [event] _ (others_in_tx o tx)); [apply others_in_tx_recorded|].
  eexists [_]. split_and!; [|rewrite Hev; reflexivity|]; [done|].
  intros mine Hm. unfold ours in *. by rewrite Hev, Hc, Hm, app_assoc.
Qed.

Lemma read_version_recorded env (event : preparedEvent P) msg tx tx' r :
  read_version env event msg tx = (tx', r) -> recorded [] tx tx'.
Proof. intros [= <- _]. apply others_in_tx_recorded. Qed.

Lemma auto_steps_ok db envs (events : list (preparedEvent P)) tx tx' r :
  tx_ok db tx -> auto_steps count envs events tx = (tx', r) ->
  tx_ok db tx' /\ (r = Ok false -> recorded events tx tx').
Proof.
  revert envs tx. induction events as [|event events IH]; intros envs tx Hok; cbn [auto_steps].
  { intros [= <- <-]. split; [done|]. intros _. apply recorded_refl. }
  destruct (read_version (hd quiet_step envs) event "read stream version" tx) as [tx1 [v|e]] eqn:Er.
  2:{ intros [= <- <-]. split; [|done]. by apply (read_version_ok _ _ _ _ _ _ _ Hok Er). }
  destruct (read_version_ok _ _ _ _ _ _ _ Hok Er) as [Hok1 Hv].
  assert (0 <= v <= v) as Hvv by (unfold zlen in *; lia). rewrite Hv in Hvv at 3.
  destruct (insert_at count (hd quiet_step envs) event (wrap_s 64 (v + 1)) tx1) as [tx2 [u|e]] eqn:Ei.
  - destruct (insert_at_recorded db _ event v tx1 tx2 u Hok1 Hvv Ei) as [Hok2 Hrec].
    intros Hs. destruct (IH _ _ Hok2 Hs) as [Hok' Hrest]. split; [done|]. intros Hr.
    apply (recorded_trans [] (event :: events) _ tx1); [by eapply read_version_recorded|].
    by apply (recorded_trans [event] events _ tx2); [|apply Hrest].
  - intros Hs. assert (tx' = tx2) as -> by (by repeat case_match; simplify_eq).
    split; [|intros ->; by repeat case_match].
    by apply (insert_at_ok db _ event v tx1 tx2 _ Hok1 Hvv Ei).
Qed.

(** A call's result: exactly the rows of [events] beside what others
    committed, in order and after what the log held. *)
Definition written (events : list (preparedEvent P)) (db db' : DB P) : Prop :=
  exists rows db_o, pe_Event <$> rows = pr_Event <$> events
  /\ (db_events db ++ rows) `sublist_of` db_events db'
  /\ others_only db db_o /\ db_events db' ≡ₚ db_events db_o ++ rows.

Lemma written_nil (db : DB P) : written [] db db.
Proof. exists [], db. rewrite app_nil_r. split_and!; [done..|apply rtc_refl|done]. Qed.

Lemma written_before events (db0 db db' : DB P) :
  others_only db0 db -> written events db db' -> written events db0 db'.
Proof.
  intros Ho (rows & db_o & Hr & Hs & Hd & Hp). exists rows, db_o. split_and!; [done| | |done].
  - etransitivity; [|exact Hs]. apply sublist_app; [|done]. by apply prefix_sublist, others_only_prefix.
  - by etransitivity.
Qed.

Lemma recorded_written events db tx :
  tx_ok db tx -> recorded events (mkTx db db) tx -> written events db (tx_view tx).
Proof.
  intros Hok (rows & Hr & Hs & Ho). exists rows, (tx_committed tx).
  split_and!; [done|done|apply Hok|]. apply (Ho []). unfold ours. cbn. by rewrite app_nil_r.
Qed.

(** What one call did to the log. *)
Definition outcome_ok {A} (db : DB P) (events : list (preparedEvent P)) (lost success : Prop)
    (res : DB P * result goerr A) : Prop :=
  contiguous (db_events res.1) /\ db_events db `prefix_of` db_events res.1
  /\ match res.2 with
     | Ok _ => success -> written events db res.1
     | Err _ => lost \/ others_only db res.1
     end.

Lemma fail_tx_ok {A} db env tx e events lost success :
  tx_ok db tx -> outcome_ok db events lost success (fail_tx (A := A) env tx e).
Proof.
  intros [Hc Hv Ho Hg Hb]. unfold fail_tx, outcome_ok. cbn.
  split_and!; [done|by apply others_only_prefix|by right].
Qed.

Lemma commit_tx_ok {A} db env tx msg (a : A) events (success : Prop) :
  tx_ok db tx -> (success -> recorded events (mkTx db db) tx) ->
  outcome_ok db events (ack_lost env) success (commit_tx env tx msg a).
Proof.
  intros Hok Hrec. destruct (others_in_tx_ok db (before_commit env) tx Hok) as [Hok' _].
  pose proof Hok' as [Hc Hv Ho Hg Hb]. unfold commit_tx, outcome_ok.
  destruct (at_commit env) eqn:Ec; cbn.
  - split_and!; [done|done|]. intros Hs. apply recorded_written; [done|].
    rewrite <- (app_nil_r events). eapply recorded_trans; [by apply Hrec|apply others_in_tx_recorded].
  - split_and!; [done|by apply others_only_prefix|by right].
  - split_and!; [done|done|]. left. by eexists.
Qed.

Lemma unchanged_ok {A} (db : DB P) e events lost success :
  contiguous (db_events db) -> outcome_ok (A := A) db events lost success (db, Err e).
Proof. intros Hc. split_and!; [done|done|]. right. apply rtc_refl. Qed.

Lemma tx_ok_begin (db : DB P) : contiguous (db_events db) -> tx_ok db (mkTx db db).
Proof. intros Hc. by split; try done; apply rtc_refl. Qed.

Lemma appendAutoBatchOnce_ok env (events : list (preparedEvent P)) db :
  contiguous (db_events db) ->
  let res := appendAutoBatchOnce count env events db in
  outcome_ok db events (ack_lost env) (res.2 = Ok false) res
  /\ (res.2 = Ok true -> others_only db res.1).
Proof.
  intros Hc. cbv zeta. unfold appendAutoBatchOnce. destruct (tx_fault env SBegin) as [e|].
  { split; [by apply unchanged_ok|done]. }
  destruct (auto_steps count (tx_steps env) events (mkTx db db)) as [tx r] eqn:Es.
  destruct (auto_steps_ok db _ _ _ _ _ (tx_ok_begin db Hc) Es) as [Hok Hrec].
  destruct r as [[]|e].
  - pose proof Hok as [Hc' Hv Ho Hg Hb].
    assert (forall r, r <> Ok false ->
      outcome_ok db events (ack_lost env) (r = Ok false) (tx_committed tx, r)) as Hout.
    { intros r Hr. split_and!; [done|by apply others_only_prefix|]. cbn. destruct r; [done|by right]. }
    destruct (rollbackTx env); split; auto; by apply Hout.
  - split; [apply commit_tx_ok; auto|]. unfold commit_tx. by destruct (at_commit env).
  - split; [by apply fail_tx_ok|done].
Qed.

(** Pinned inserts into one stream extend exactly the stream that was read. *)
Lemma pinned_steps_ok db envs (events : list (preparedEvent P)) stype sid v tx tx' r :
  let stream t := stream_of stype sid (db_events (tx_view t)) in
  Forall (fun e => StreamType (pr_Event e) = stype /\ StreamID (pr_Event e) = sid) events ->
  tx_ok db tx -> zlen (stream tx) = v ->
  pinned_steps count envs events v tx = (tx', r) ->
  tx_ok db tx'
  /\ (r = Ok tt ->
      recorded events tx tx'
      /\ exists rows, pe_Event <$> rows = pr_Event <$> events
           /\ StreamVersion <$> rows = seqZ (v + 1) (zlen events)
           /\ stream tx' = stream tx ++ rows
           /\ (events <> [] -> stream tx' <> stream_of stype sid (db_events (tx_committed tx')))).
Proof.
  cbv zeta. revert envs v tx. induction events as [|event events IH]; intros envs v tx Hsame Hok Hv; cbn [pinned_steps].
  { intros [= <- <-]. split; [done|]. intros _. split; [apply recorded_refl|].
    exists []. rewrite app_nil_r. done. }
  apply Forall_cons in Hsame as [[Ht Hi] Hsame].
  destruct (insert_at count (hd quiet_step envs) event (wrap_s 64 (v + 1)) tx) as [tx2 [u|e]] eqn:Ei.
  - assert (0 <= v <= zlen (stream_of (StreamType (pr_Event event)) (StreamID (pr_Event event)) (db_events (tx_view tx))))
      as Hvv by (rewrite Ht, Hi; unfold zlen in *; lia).
    destruct (insert_at_ok db _ event v tx tx2 _ Hok Hvv Ei) as [Hok2 (o & Hlen & Hcom & Hev)].
    rewrite Ht, Hi in Hlen.
    destruct (others_in_tx_ok db o tx Hok) as [[_ _ _ _ Hbehind] Hresp].
    pose proof (others_respect_view _ _ stype sid Hresp) as Hpre.
    assert (stream_of stype sid (db_events (tx_view (others_in_tx o tx)))
            = stream_of stype sid (db_events (tx_view tx))) as Hst.
    { symmetry. apply prefix_length_eq; [done|]. unfold zlen in *. lia. }
    set (row := mkPersistedEvent (pr_Event event) (v + 1) (step_now (hd quiet_step envs))) in *.
    assert (stream_of stype sid (db_events (tx_view tx2)) = stream_of stype sid (db_events (tx_view tx)) ++ [row]) as Hst2.
    { rewrite Hev, stream_of_app, Hst, stream_of_one, decide_True; done. }
    intros Hs. pose proof Hs as Hs0. apply IH in Hs as [Hok' Hrest]; [|done|done|].
    2:{ rewrite Hst2. unfold zlen in *. rewrite length_app. simpl. lia. }
    split; [done|]. intros Hr. destruct (Hrest Hr) as (Hrec & rows & Hev' & Hver & Hstr & Hne). split.
    + eapply (recorded_trans [event]); [|exact Hrec].
      by apply (insert_at_recorded db _ event v tx tx2 u Hok Hvv Ei).
    + exists (row :: rows). rewrite !fmap_cons, Hev', Hver, Hstr, Hst2.
      split_and!; [done| |by rewrite <- app_assoc|].
      * replace (zlen (event :: events)) with (1 + zlen events) by (unfold zlen; simpl; lia).
        rewrite seqZ_app by (unfold zlen; lia). rewrite (seqZ_cons (v + 1) 1) by lia. done.
      * intros _. destruct events as [|event2 events]; [|rewrite <- Hst2, <- Hstr; by apply Hne].
        cbn in Hs0. injection Hs0 as -> _. specialize (Hbehind stype sid). intros Heq.
        rewrite Hcom in Heq. rewrite Hst in Hbehind. apply (f_equal zlen) in Heq. revert Heq.
        unfold zlen in *. rewrite !length_app. cbn [length]. lia.
  - intros [= <- <-]. split; [|done].
    eapply (insert_at_ok db _ event v tx tx2 _ Hok _ Ei).
    Unshelve. rewrite Ht, Hi. unfold zlen in *. lia.
Qed.

(** What a pinned append that succeeded read and left. *)
Definition pinned_success (events : list (preparedEvent P)) (stype sid : string) (expected : Z)
    (db db' : DB P) : Prop :=
  exists before rows,
    zlen before = expected
    /\ stream_of stype sid (db_events db) `prefix_of` before
    /\ stream_of stype sid (db_events db') = before ++ rows
    /\ pe_Event <$> rows = pr_Event <$> events
    /\ StreamVersion <$> rows = seqZ (expected + 1) (zlen events).

Lemma stream_of_prefix stype sid l k : l `prefix_of` k -> stream_of stype sid l `prefix_of` stream_of stype sid k.
Proof. intros [k' ->]. rewrite stream_of_app. by eexists. Qed.

Lemma append_pinned_ok env first (events : list (preparedEvent P)) expected db :
  contiguous (db_events db) -> events <> [] ->
  Forall (fun e => StreamType (pr_Event e) = StreamType (pr_Event first)
                   /\ StreamID (pr_Event e) = StreamID (pr_Event first)) events ->
  let res := append_pinned count env first events expected db in
  outcome_ok db events (ack_lost env) True res
  /\ (res.2 = Ok tt -> pinned_success events (StreamType (pr_Event first)) (StreamID (pr_Event first)) expected db res.1).
Proof.
  intros Hc Hne Hsame. cbv zeta. unfold append_pinned. destruct (tx_fault env SBegin) as [e|].
  { split; [by apply unchanged_ok|done]. }
  destruct (read_version (hd quiet_step (tx_steps env)) first "store: read stream version" (mkTx db db))
    as [tx [v|e]] eqn:Er.
  2:{ split; [|done]. apply fail_tx_ok. by apply (read_version_ok _ _ _ _ _ _ _ (tx_ok_begin db Hc) Er). }
  destruct (read_version_ok _ _ _ _ _ _ _ (tx_ok_begin db Hc) Er) as [Hok Hv].
  destruct (Z.eqb_spec v expected) as [->|Hvne]; cbn [negb]; [|split; [by apply fail_tx_ok|done]].
  destruct (pinned_steps count (tx_steps env) events expected tx) as [tx' [u|e]] eqn:Ep.
  2:{ split; [|done]. apply fail_tx_ok.
      by apply (pinned_steps_ok db _ _ _ _ _ _ _ _ Hsame Hok (eq_sym Hv) Ep). }
  destruct (pinned_steps_ok db _ _ _ _ _ _ _ _ Hsame Hok (eq_sym Hv) Ep) as [Hok' Hrest].
  destruct u. destruct (Hrest eq_refl) as (Hrec & rows & Hev & Hver & Hstr & Hdiff). split.
  - apply commit_tx_ok; [done|]. intros _.
    eapply (recorded_trans []); [by eapply read_version_recorded|exact Hrec].
  - unfold commit_tx. destruct (at_commit env); [|done|done]. intros _. cbn [fst].
    destruct (others_in_tx_ok db (before_commit env) tx' Hok') as [_ Hr].
    destruct (Hr (StreamType (pr_Event first)) (StreamID (pr_Event first))) as [_ Hkeep].
    destruct (Hkeep (Hdiff Hne)) as [Hview _].
    exists (stream_of (StreamType (pr_Event first)) (StreamID (pr_Event first)) (db_events (tx_view tx))), rows.
    split_and!; [done|apply stream_of_prefix, Hok| |done|done]. by rewrite Hview, Hstr.
Qed.

Lemma prepare_pinned_ok (s : Store P) first events prepared :
  prepare_pinned s first events = Ok prepared ->
  Forall2 (fun e p => prepareEvent s e = Ok p) events prepared
  /\ match first, prepared with
     | Some f, _ => Forall (fun e => StreamType (pr_Event e) = StreamType (pr_Event f)
                                     /\ StreamID (pr_Event e) = StreamID (pr_Event f)) prepared
     | None, f :: _ => Forall (fun e => StreamType (pr_Event e) = StreamType (pr_Event f)
                                     /\ StreamID (pr_Event e) = StreamID (pr_Event f)) prepared
     | None, [] => True
     end.
Proof.
  revert first prepared. induction events as [|event events IH]; intros first prepared; cbn [prepare_pinned].
  { intros [= <-]. split; [constructor|]. by destruct first. }
  intros (p & Hp%wrap_err_ok & (u & Hs%fail_if_ok & (rest & Hr & [= <-])%bind_ok)%bind_ok)%bind_ok.
  apply IH in Hr as [Hf Hall]. split; [by constructor|]. destruct first as [f|].
  - constructor; [|exact Hall]. apply negb_false_iff in Hs. unfold same_stream in Hs. prop_bools. done.
  - constructor; [done|]. exact Hall.
Qed.
End Append_proofs.

Definition call_events {P} (c : append_call P) : list Event :=
  match c with
  | CallAppendEvent _ event _ _ | CallAppendEventWithVersion event _ _
  | CallAppendEventBeforeCommit event _ _ => [event]
  | CallAppendEvents events _ | CallAppendEventsWithVersion events _ _ => events
  end.

Definition call_ack_lost {P} (c : append_call P) : Prop :=
  match c with
  | CallAppendEvent _ _ envs _ => exists n, ack_lost (envs n)
  | CallAppendEvents _ env | CallAppendEventWithVersion _ _ env
  | CallAppendEventsWithVersion _ _ env | CallAppendEventBeforeCommit _ _ env => ack_lost env
  end.

Section Calls.
Context {P : Type} (count : P -> string -> Z).

(** A call records all its events, prepared and in order, or none of them. *)
Definition call_ok (s : option (Store P)) (c : append_call P) (db : DB P)
    (res : DB P * result goerr unit) : Prop :=
  contiguous (db_events res.1) /\ db_events db `prefix_of` db_events res.1
  /\ match res.2 with
     | Ok _ => exists st prepared, s = Some st
               /\ Forall2 (fun e p => prepareEvent st e = Ok p) (call_events c) prepared
               /\ written prepared db res.1
     | Err _ => call_ack_lost c \/ others_only db res.1
     end.

Lemma unchanged_call_ok s c db e : contiguous (db_events db) -> call_ok s c db (db, Err e).
Proof. intros Hc. split_and!; [done|done|]. right. apply rtc_refl. Qed.

Lemma outcome_call_ok s st c db prepared lost res :
  s = Some st -> Forall2 (fun e p => prepareEvent st e = Ok p) (call_events c) prepared ->
  (lost -> call_ack_lost c) -> outcome_ok db prepared lost True res -> call_ok s c db res.
Proof.
  intros Hs Hp Hl (Hc & Hg & Hr). split_and!; [done|done|]. destruct res as [db' [u|e]]; cbn in *.
  - exists st, prepared. auto.
  - destruct Hr; auto.
Qed.

Lemma append_loop_ok s st event prepared fuel fuel0 n envs waits db db0 res :
  s = Some st -> prepareEvent st event = Ok prepared -> contiguous (db_events db) ->
  others_only db0 db ->
  append_loop count fuel n envs waits prepared db = Some res ->
  call_ok s (CallAppendEvent fuel0 event envs waits) db0 res.
Proof.
  intros Hs Hp. revert n db. induction fuel as [|fuel IH]; intros n db Hc Ho; [done|]. cbn [append_loop].
  destruct (appendAutoBatchOnce_ok count (envs n) [prepared] db Hc) as [(Hc' & Hg & Hr) Hretry].
  assert (db_events db0 `prefix_of` db_events db) as Hg0 by (by apply others_only_prefix).
  destruct (appendAutoBatchOnce count (envs n) [prepared] db) as [db1 [[]|e]]; cbn [fst snd] in *.
  - specialize (Hretry eq_refl). destruct (waits n) as [w|].
    + intros [= <-]. split_and!; [done|by etransitivity|]. right. by etransitivity.
    + apply IH; [done|]. by etransitivity.
  - intros [= <-]. split_and!; [done|by etransitivity|]. exists st, [prepared].
    split_and!; [done|by repeat constructor|]. eapply written_before; [exact Ho|]. by apply Hr.
  - intros [= <-]. split_and!; [done|by etransitivity|].
    destruct Hr; [left; by exists n|right; by etransitivity].
Qed.

Lemma run_call_ok s ctx c db res :
  contiguous (db_events db) -> run_call count s ctx c db = Some res -> call_ok s c db res.
Proof.
  intros Hc. destruct c as [fuel event envs waits|events env|event v env|events v env|event cb env]; cbn [run_call].
  - unfold AppendEvent. destruct (validateAppendCall s ctx ≫= _) as [p|e] eqn:Ev.
    + apply bind_ok in Ev as (st & Hv & Hp). unfold validateAppendCall in Hv.
      apply bind_ok in Hv as (st' & Hs%or_err_ok & (u & _ & [= <-])%bind_ok).
      intros H. eapply append_loop_ok; [done|done|exact Hc|apply rtc_refl|exact H].
    + intros [= <-]. by apply unchanged_call_ok.
  - intros [= <-]. unfold AppendEvents. destruct (validateAppendCall s ctx) as [st|e] eqn:Ev.
    2:{ by apply unchanged_call_ok. }
    unfold validateAppendCall in Ev. apply bind_ok in Ev as (st' & Hs%or_err_ok & (u & _ & [= <-])%bind_ok).
    destruct events as [|event events].
    { split_and!; [done|done|]. exists st', []. split_and!; [done|constructor|apply written_nil]. }
    destruct (wrap_err _ _) as [prepared|e] eqn:Ep; [|by apply unchanged_call_ok].
    apply wrap_err_ok, map_result_ok in Ep.
    destruct (appendAutoBatchOnce_ok count env prepared db Hc) as [(Hc' & Hg & Hr) Hretry].
    destruct (appendAutoBatchOnce count env prepared db) as [db1 [[]|e]]; cbn [fst snd] in *.
    + split_and!; [done|done|]. right. by apply Hretry.
    + split_and!; [done|done|]. exists st', prepared. split_and!; [done|done|by apply Hr].
    + done.
  - intros [= <-]. unfold AppendEventWithVersion. destruct (_ ≫= _) as [p|e] eqn:Ev; [|by apply unchanged_call_ok].
    apply bind_ok in Ev as (st & Hv & (u & _ & Hp)%bind_ok).
    unfold validateAppendCall in Hv. apply bind_ok in Hv as (st' & Hs%or_err_ok & (u' & _ & [= <-])%bind_ok).
    eapply outcome_call_ok; [done|by repeat constructor|done|].
    apply append_pinned_ok; [done|done|]. by repeat constructor.
  - intros [= <-]. unfold AppendEventsWithVersion. destruct (_ ≫= _) as [st|e] eqn:Ev; [|by apply unchanged_call_ok].
    apply bind_ok in Ev as (st' & Hv & (u & _ & [= <-])%bind_ok).
    unfold validateAppendCall in Hv. apply bind_ok in Hv as (st & Hs%or_err_ok & (u' & _ & [= <-])%bind_ok).
    destruct events as [|event events].
    { split_and!; [done|done|]. exists st, []. split_and!; [done|constructor|apply written_nil]. }
    destruct (fail_if _ _ ≫= _) as [prepared|e] eqn:Ep; [|by apply unchanged_call_ok].
    apply bind_ok in Ep as (u2 & _ & Hp). apply prepare_pinned_ok in Hp as [Hf Hall].
    destruct prepared as [|first rest]; [by inversion Hf|].
    eapply outcome_call_ok; [done|exact Hf|done|]. by apply append_pinned_ok.
  - intros [= <-]. unfold AppendEventBeforeCommit.
    destruct (_ ≫= _) as [[cbr p]|e] eqn:Ev; [|by apply unchanged_call_ok].
    apply bind_ok in Ev as (st & Hv & (cb' & Hcb%or_err_ok & (p' & Hp & [= <- <-])%bind_ok)%bind_ok).
    unfold validateAppendCall in Hv. apply bind_ok in Hv as (st' & Hs%or_err_ok & (u' & _ & [= <-])%bind_ok).
    destruct (tx_fault env SBegin) as [e|]; [by apply unchanged_call_ok|].
    eapply (outcome_call_ok _ st' _ _ [p'] (ack_lost env)); [done|by repeat constructor|done|].
    destruct (read_version (hd quiet_step (tx_steps env)) p' _ (mkTx db db)) as [tx [v|e]] eqn:Er.
    2:{ apply fail_tx_ok. by apply (read_version_ok _ _ _ _ _ _ _ (tx_ok_begin db Hc) Er). }
    destruct (read_version_ok _ _ _ _ _ _ _ (tx_ok_begin db Hc) Er) as [Hok Hv].
    assert (0 <= v <= v) as Hvv by (unfold zlen in *; lia). rewrite Hv in Hvv at 3.
    destruct (insert_at count _ p' (wrap_s 64 (v + 1)) tx) as [tx' [u|e]] eqn:Ei.
    2:{ apply fail_tx_ok. eapply (insert_at_ok count db); [exact Hok|exact Hvv|exact Ei]. }
    destruct (insert_at_recorded count db _ p' v tx tx' u Hok Hvv Ei) as [Hok' Hrec].
    destruct cb' as [u2|e]; [|by apply fail_tx_ok].
    apply commit_tx_ok; [done|]. intros _.
    eapply (recorded_trans []); [by eapply read_version_recorded|exact Hrec].
Qed.

Lemma history_ok s db db' :
  history count s db db' -> contiguous (db_events db) ->
  contiguous (db_events db') /\ db_events db `prefix_of` db_events db'.
Proof.
  induction 1 as [db|db db1 db2 ctx c r _ IH Hr|db db1 db2 _ IH Ho]; intros Hc; [done|..].
  - destruct (IH Hc) as [Hc1 Hp]. apply run_call_ok in Hr as (Hc2 & Hp2 & _); [|done].
    split; [done|]. by etransitivity.
  - destruct (IH Hc) as [Hc1 Hp]. split; [by eapply others_only_contiguous|].
    etransitivity; [exact Hp|by apply others_only_prefix].
Qed.
End Calls.

(** ** Properties *)

(** C6. Whatever sequence of append calls, interleaved commits of other
    writers, failures and lost acknowledgements a log goes through, every
    stream holds exactly the versions 1, 2, 3, ... in order, and events are
    only ever added at the end of the log. *)
Theorem streams_stay_contiguous {P} (count : P -> string -> Z) s p db db' :
  history count s (mkDB [] p) db -> history count s db db' ->
  contiguous (db_events db) /\ contiguous (db_events db') /\ db_events db `prefix_of` db_events db'.
Proof.
  intros H1 H2. destruct (history_ok count s _ _ H1 contiguous_nil) as [Hc _].
  destruct (history_ok count s _ _ H2 Hc) as [Hc' Hp]. done.
Qed.


(** A version-pinned batch is a compare-and-swap: when it succeeds, the
    stream was exactly at the expected version when the batch went in, the
    batch follows it immediately with the next consecutive versions and nothing
    of another writer slips in between; on a stream that is already past the
    expected version it never succeeds. *)
Theorem version_pinned_batch_is_compare_and_swap {P} (count : P -> string -> Z) s ctx events expected env db db' :
  contiguous (db_events db) -> events <> [] ->
  AppendEventsWithVersion count s ctx events expected env db = (db', Ok tt) ->
  exists st prepared stype sid before rows, s = Some st
  /\ Forall2 (fun e p => prepareEvent st e = Ok p) events prepared
  /\ Forall (fun p => StreamType (pr_Event p) = stype /\ StreamID (pr_Event p) = sid) prepared
  /\ stream_of stype sid (db_events db) `prefix_of` before /\ zlen before = expected
  /\ stream_of stype sid (db_events db') = before ++ rows
  /\ pe_Event <$> rows = pr_Event <$> prepared
  /\ StreamVersion <$> rows = seqZ (expected + 1) (zlen events)
  /\ CurrentStreamVersion db stype sid <= expected.
Proof.
  intros Hc Hne. unfold AppendEventsWithVersion. destruct (_ ≫= _) as [st|e] eqn:Ev; [|done].
  apply bind_ok in Ev as (st' & Hv & (u & _ & [= <-])%bind_ok).
  unfold validateAppendCall in Hv. apply bind_ok in Hv as (st & Hs%or_err_ok & (u' & _ & [= <-])%bind_ok).
  destruct events as [|event events]; [done|].
  destruct (fail_if _ _ ≫= _) as [prepared|e] eqn:Ep; [|done].
  apply bind_ok in Ep as (u2 & _ & Hp). apply prepare_pinned_ok in Hp as [Hf Hall].
  destruct prepared as [|first rest]; [by inversion Hf|]. intros Ha.
  destruct (append_pinned_ok count env first (first :: rest) expected db Hc ltac:(done) Hall) as [_ Hsucc].
  rewrite Ha in Hsucc. destruct (Hsucc eq_refl) as (before & rows & Hlen & Hpre & Hstr & Hev & Hver).
  exists st, (first :: rest), (StreamType (pr_Event first)), (StreamID (pr_Event first)), before, rows.
  split_and!; try done.
  - rewrite Hver. f_equal. apply Forall2_length in Hf. unfold zlen. by rewrite Hf.
  - rewrite contiguous_version by done. apply prefix_zlen in Hpre. lia.
Qed.

(** Of two version-pinned appends to one stream at one expected version, in
    any history, at most one succeeds: a bounded-use fact is consumed once. *)
Theorem pinned_append_has_one_winner {P} (count : P -> string -> Z) st ctx1 ctx2 e1 e2 p1 p2 v env1 env2 db db1 db2 :
  contiguous (db_events db) ->
  prepareEvent st e1 = Ok p1 -> prepareEvent st e2 = Ok p2 ->
  StreamType (pr_Event p1) = StreamType (pr_Event p2) -> StreamID (pr_Event p1) = StreamID (pr_Event p2) ->
  AppendEventWithVersion count (Some st) ctx1 e1 v env1 db = (db1, Ok tt) ->
  history count (Some st) db1 db2 ->
  forall db3, AppendEventWithVersion count (Some st) ctx2 e2 v env2 db2 <> (db3, Ok tt).
Proof.
  assert (forall ctx e p env (d d' : DB P), contiguous (db_events d) -> prepareEvent st e = Ok p ->
    AppendEventWithVersion count (Some st) ctx e v env d = (d', Ok tt) ->
    contiguous (db_events d') /\ pinned_success [p] (StreamType (pr_Event p)) (StreamID (pr_Event p)) v d d') as Hone.
  { intros ctx e p env d d' Hc Hp. unfold AppendEventWithVersion. destruct (_ ≫= _) as [q|] eqn:Ev; [|done].
    apply bind_ok in Ev as (st' & Hv & (u & _ & Hq)%bind_ok). intros Ha.
    unfold validateAppendCall in Hv. apply bind_ok in Hv as (st2 & Hs%or_err_ok & (u' & _ & [= <-])%bind_ok).
    injection Hs as <-. rewrite Hp in Hq. injection Hq as <-.
    destruct (append_pinned_ok count env p [p] v d Hc ltac:(done) ltac:(by repeat constructor)) as [(Hc' & _) Hs].
    rewrite Ha in Hc', Hs. auto. }
  intros Hc Hp1 Hp2 Ht Hi Ha1 Hh db3 Ha2.
  destruct (Hone _ _ _ _ _ _ Hc Hp1 Ha1) as [Hc1 (b1 & r1 & Hl1 & _ & Hs1 & He1 & _)].
  destruct (history_ok count _ _ _ Hh Hc1) as [Hc2 Hpre].
  destruct (Hone _ _ _ _ _ _ Hc2 Hp2 Ha2) as [_ (b2 & r2 & Hl2 & Hp & _)].
  rewrite Ht, Hi in Hs1. apply (stream_of_prefix (StreamType (pr_Event p2)) (StreamID (pr_Event p2))) in Hpre.
  assert (stream_of (StreamType (pr_Event p2)) (StreamID (pr_Event p2)) (db_events db1) `prefix_of` b2) as Hp'
    by (by etransitivity).
  rewrite Hs1 in Hp'. apply prefix_zlen in Hp'. apply (f_equal length) in He1. rewrite !length_fmap in He1.
  unfold zlen in *. rewrite length_app in Hp'. simpl in He1. lia.
Qed.

(** ** State invariants of the projections *)

Section Invariant.
Context {P : Type} (count : P -> string -> Z) (st : Store P) (I : P -> Prop).

Definition keeps (o : Others P) : Prop := forall p, I p -> I (others_state o p).

Definition env_keeps (env : AttemptEnv P) : Prop :=
  Forall (fun se => keeps (before_read se) /\ keeps (before_insert se)) (tx_steps env)
  /\ keeps (before_commit env).

Definition call_keeps (c : append_call P) : Prop :=
  match c with
  | CallAppendEvent _ _ envs _ => forall n, env_keeps (envs n)
  | CallAppendEvents _ env | CallAppendEventWithVersion _ _ env
  | CallAppendEventsWithVersion _ _ env | CallAppendEventBeforeCommit _ _ env => env_keeps env
  end.

Context (Happend : forall env event prepared v view view', prepareEvent st event = Ok prepared ->
  I (db_state view) -> appendPrepared count env prepared v view = Ok view' -> I (db_state view')).

Definition prepared_ok (p : preparedEvent P) : Prop := exists e, prepareEvent st e = Ok p.

Definition inv_tx (tx : Tx P) : Prop := I (db_state (tx_committed tx)) /\ I (db_state (tx_view tx)).

Lemma others_inv o tx : keeps o -> inv_tx tx -> inv_tx (others_in_tx o tx).
Proof.
  intros Hk Hi. unfold others_in_tx.
  assert (inv_tx (foldl other_event tx (others_events o))) as [Hc Hv].
  { revert tx Hi. induction (others_events o) as [|ev evs IH]; intros tx Hi; [done|]. cbn [foldl]. apply IH.
    unfold other_event. case_match; [|done]. exact Hi. }
  split; cbn; auto.
Qed.

Lemma hd_keeps steps :
  Forall (fun se => keeps (before_read se) /\ keeps (before_insert se)) steps ->
  keeps (before_read (hd quiet_step steps)) /\ keeps (before_insert (hd quiet_step steps)).
Proof. intros H. destruct H as [|x l Hx _]; [split; intros p Hp; exact Hp|exact Hx]. Qed.

Lemma read_inv env event msg tx tx' r :
  keeps (before_read env) -> inv_tx tx -> read_version env event msg tx = (tx', r) -> inv_tx tx'.
Proof. intros Hk Hi. unfold read_version. intros [= <- _]. by apply others_inv. Qed.

Lemma insert_inv env event v tx tx' r :
  keeps (before_insert env) -> prepared_ok event -> inv_tx tx ->
  insert_at count env event v tx = (tx', r) -> inv_tx tx'.
Proof.
  intros Hk [e He] Hi. unfold insert_at. pose proof (others_inv _ _ Hk Hi) as [Hc Hv].
  destruct (appendPrepared _ _ _ _ _) as [view'|err] eqn:Ea; intros [= <- _]; [|done].
  split; [exact Hc|]. eapply Happend; eauto.
Qed.

Lemma auto_inv envs events tx tx' r :
  Forall (fun se => keeps (before_read se) /\ keeps (before_insert se)) envs ->
  Forall prepared_ok events -> inv_tx tx -> auto_steps count envs events tx = (tx', r) -> inv_tx tx'.
Proof.
  revert envs tx. induction events as [|event events IH]; intros envs tx Hk Hp Hi; cbn [auto_steps].
  { by intros [= <- _]. }
  destruct (hd_keeps envs Hk) as [Hkr Hki]. apply Forall_cons in Hp as [Hpe Hp].
  destruct (read_version _ _ _ _) as [tx1 [v|e]] eqn:Er; [|intros [= <- _]; by eapply read_inv].
  assert (inv_tx tx1) as Hi1 by (by eapply read_inv).
  destruct (insert_at _ _ _ _ _) as [tx2 [u|e]] eqn:Ei.
  - apply IH; [by destruct Hk|done|by eapply insert_inv].
  - intros [= <- _]. by eapply insert_inv.
Qed.

Lemma pinned_inv envs events v tx tx' r :
  Forall (fun se => keeps (before_read se) /\ keeps (before_insert se)) envs ->
  Forall prepared_ok events -> inv_tx tx -> pinned_steps count envs events v tx = (tx', r) -> inv_tx tx'.
Proof.
  revert envs v tx. induction events as [|event events IH]; intros envs v tx Hk Hp Hi; cbn [pinned_steps].
  { by intros [= <- _]. }
  destruct (hd_keeps envs Hk) as [_ Hki]. apply Forall_cons in Hp as [Hpe Hp].
  destruct (insert_at _ _ _ _ _) as [tx2 [u|e]] eqn:Ei.
  - apply IH; [by destruct Hk|done|by eapply insert_inv].
  - intros [= <- _]. by eapply insert_inv.
Qed.

Lemma commit_inv {A} env tx msg (a : A) :
  keeps (before_commit env) -> inv_tx tx -> I (db_state (commit_tx env tx msg a).1).
Proof. intros Hk Hi. destruct (others_inv _ _ Hk Hi). unfold commit_tx. by destruct (at_commit env). Qed.

Lemma auto_once_inv env events db :
  env_keeps env -> Forall prepared_ok events -> I (db_state db) ->
  I (db_state (appendAutoBatchOnce count env events db).1).
Proof.
  intros [Hk Hkc] Hp Hi. unfold appendAutoBatchOnce. destruct (tx_fault env SBegin); [done|].
  destruct (auto_steps _ _ _ _) as [tx [[]|e]] eqn:Es; apply auto_inv in Es; try done; try apply Es.
  by apply commit_inv.
Qed.

Lemma pinned_call_inv env first events v db :
  env_keeps env -> Forall prepared_ok events -> I (db_state db) ->
  I (db_state (append_pinned count env first events v db).1).
Proof.
  intros [Hk Hkc] Hp Hi. unfold append_pinned. destruct (tx_fault env SBegin); [done|].
  destruct (hd_keeps _ Hk) as [Hkr _].
  destruct (read_version _ _ _ _) as [tx [cv|e]] eqn:Er; eapply read_inv in Er; try done; [|apply Er].
  case_match; [apply Er|].
  destruct (pinned_steps _ _ _ _ _) as [tx' [u|e]] eqn:Es; eapply pinned_inv in Es; try done; [|apply Es].
  by apply commit_inv.
Qed.

Lemma forall2_prepared events ps :
  Forall2 (fun e p => prepareEvent st e = Ok p) events ps -> Forall prepared_ok ps.
Proof. induction 1; constructor; [by eexists|done]. Qed.

Lemma validate_same ctx x : validateAppendCall (P := P) (Some st) ctx = Ok x -> x = st.
Proof.
  unfold validateAppendCall. intros (x' & [= <-]%or_err_ok & (u & _ & [= <-])%bind_ok)%bind_ok. done.
Qed.

Lemma run_call_inv ctx c db db' r :
  call_keeps c -> I (db_state db) -> run_call count (Some st) ctx c db = Some (db', r) -> I (db_state db').
Proof.
  destruct c as [fuel event envs waits|events env|event v env|events v env|event cb env]; cbn [run_call call_keeps];
    intros Hk Hi.
  - unfold AppendEvent. destruct (_ ≫= _) as [p|e] eqn:Ev; [|by intros [= <- _]].
    apply bind_ok in Ev as (x & ->%validate_same & Hp). generalize 0%nat as n. revert db Hi.
    induction fuel as [|fuel IH]; intros db Hi n; [done|]. cbn [append_loop].
    pose proof (auto_once_inv (envs n) [p] db (Hk n) ltac:(by repeat econstructor) Hi) as Hi1.
    destruct (appendAutoBatchOnce _ _ _ _) as [db1 [[]|e]]; cbn in Hi1; [|by intros [= <- _]..].
    destruct (waits n); [by intros [= <- _]|]. by apply IH.
  - intros [= Hr]. revert Hr. unfold AppendEvents. destruct (validateAppendCall _ _) as [x|e] eqn:Ev; [|by intros [= <- _]].
    apply validate_same in Ev as ->. destruct events as [|e0 events]; [by intros [= <- _]|].
    destruct (wrap_err _ _) as [ps|e] eqn:Ep; [|by intros [= <- _]].
    apply wrap_err_ok, map_result_ok, forall2_prepared in Ep.
    pose proof (auto_once_inv env ps db Hk Ep Hi) as Hi1.
    by destruct (appendAutoBatchOnce _ _ _ _) as [db1 [[]|e]]; cbn in Hi1; intros [= <- _].
  - intros [= Hr]. revert Hr. unfold AppendEventWithVersion. destruct (_ ≫= _) as [p|e] eqn:Ev; [|by intros [= <- _]].
    apply bind_ok in Ev as (x & ->%validate_same & (u & _ & Hp)%bind_ok).
    pose proof (pinned_call_inv env p [p] v db Hk ltac:(by repeat econstructor) Hi) as H.
    intros Hr. by rewrite Hr in H.
  - intros [= Hr]. revert Hr. unfold AppendEventsWithVersion. destruct (_ ≫= _) as [x|e] eqn:Ev; [|by intros [= <- _]].
    apply bind_ok in Ev as (x' & ->%validate_same & (u & _ & [= <-])%bind_ok).
    destruct events as [|e0 events]; [by intros [= <- _]|].
    destruct (fail_if _ _ ≫= _) as [ps|e] eqn:Ep; [|by intros [= <- _]].
    apply bind_ok in Ep as (u2 & _ & [Hps _]%prepare_pinned_ok). apply forall2_prepared in Hps.
    destruct ps as [|p ps]; [by intros [= <- _]|].
    pose proof (pinned_call_inv env p (p :: ps) v db Hk Hps Hi) as H. intros Hr. by rewrite Hr in H.
  - intros [= Hr]. revert Hr. unfold AppendEventBeforeCommit. destruct (_ ≫= _) as [[cb' p]|e] eqn:Ev; [|by intros [= <- _]].
    apply bind_ok in Ev as (x & ->%validate_same & (cb2 & _ & (p2 & Hp & [= <- <-])%bind_ok)%bind_ok).
    destruct (tx_fault env SBegin); [by intros [= <- _]|]. destruct Hk as [Hks Hkc].
    destruct (hd_keeps _ Hks) as [Hkr Hki].
    destruct (read_version _ _ _ _) as [tx [cv|e]] eqn:Er; eapply read_inv in Er; try done; [|intros [= <- _]; apply Er].
    destruct (insert_at _ _ _ _ _) as [tx' [u|e]] eqn:Ei; eapply insert_inv in Ei; try done; try (by eexists);
      [|intros [= <- _]; apply Ei].
    destruct cb2 as [u2|e]; [|intros [= <- _]; apply Ei].
    pose proof (commit_inv env tx' "store: commit callback append transaction" tt Hkc Ei) as H.
    intros Hr. by rewrite Hr in H.
Qed.
End Invariant.

(** An enabled administrator always remains: whatever append call is made,
    succeeds or fails, a state with at least one enabled administrator is
    followed by one with at least one, as long as the events classified as not
    reducing do not remove the last one and the other writers, who go through
    the same lock, do not either. *)
Theorem last_admin_is_kept {P} (count : P -> string -> Z) (st : Store P) ctx c db db' r :
  let has_admin p := 0 < count p lastAdminPermission in
  (forall p, 0 <= count p lastAdminPermission) ->
  (forall e projector ptx p row p', projectors st !! e = Some projector ->
     e ∉ lastAdminReductionEvents st -> projector ptx p row = Ok p' -> has_admin p -> has_admin p') ->
  call_keeps has_admin c -> has_admin (db_state db) ->
  run_call count (Some st) ctx c db = Some (db', r) -> has_admin (db_state db').
Proof.
  cbv zeta. intros Hnn Hsafe Hk Hi Hr.
  refine (run_call_inv count st (fun p => 0 < count p lastAdminPermission) _ ctx c db db' r Hk Hi Hr).
  intros env event prepared v view view' Hp Hv Ha.
  destruct (pr_protectLastAdmin prepared) eqn:Epr.
  - apply appendPrepared_ok in Ha as (_ & _ & _ & Hkeep). specialize (Hnn (db_state view')).
    specialize (Hkeep Epr ltac:(lia)). lia.
  - unfold prepareEvent in Hp. apply bind_ok in Hp as (u & _ & (projector & Hproj%or_err_ok & Hp)%bind_ok).
    apply bind_ok in Hp as (t & _ & (u2 & _ & [= <-])%bind_ok). cbn in Epr. prop_bools.
    unfold appendPrepared, protectLastAdminMutation in Ha. cbn in Ha. rewrite bool_decide_eq_false_2 in Ha by done.
    cbn in Ha. apply bind_ok in Ha as (u3 & _ & (db2 & Hins%wrap_err_ok & (p' & Hpp%wrap_err_ok & [= <-])%bind_ok)%bind_ok).
    cbn. eapply Hsafe; [exact Hproj|done|exact Hpp|].
    unfold InsertEvent in Hins. destruct (_ <=? 0); [done|].
    case_bool_decide; [done|]. by injection Hins as <-.
Qed.

(** ** Termination of the retry loop *)

Lemma others_only_fit {P} (db db' : DB P) :
  others_only db db' -> contiguous (db_events db) -> versions_fit (db_events db) -> versions_fit (db_events db').
Proof.
  induction 1 as [|db db1 db2 Hs _ IH]; [done|]. intros Hc Hf.
  destruct Hs as [(ev & Hlt & ->)|[f ->]]; [|by apply IH].
  apply IH; [by apply next_row_contiguous|]. intros stype sid. unfold add_row. cbn [db_events].
  rewrite stream_of_app, stream_of_one. rewrite contiguous_version in Hlt by done. specialize (Hf stype sid).
  case_decide as Hin; [|by rewrite app_nil_r]. destruct Hin as [<- <-]. cbn in *. unfold zlen in *.
  rewrite length_app. simpl. lia.
Qed.

Lemma no_conflict_insert {P} (view : DB P) event v now e :
  contiguous (db_events view) ->
  v = zlen (stream_of (StreamType event) (StreamID event) (db_events view)) -> v <= max_int64 ->
  InsertEvent view (mkPersistedEvent event (wrap_s 64 (v + 1)) now) = Err e -> isStreamVersionConflict e = false.
Proof.
  intros Hc Hv Hmax. unfold InsertEvent. cbn [StreamVersion pe_Event].
  destruct (Z.leb_spec (wrap_s 64 (v + 1)) 0) as [|Hpos]; [by intros [= <-]|].
  case_bool_decide as Hin; [|done]. exfalso. rewrite contiguous_versions in Hin by done.
  rewrite <- Hv in Hin. assert (v = max_int64 \/ v < max_int64) as [->|Hlt] by lia; [vm_compute in Hpos; discriminate|].
  assert (wrap_s 64 (v + 1) = v + 1); [|lia]. unfold wrap_s, max_int64 in *.
  change (2 ^ (64 - 1)) with 9223372036854775808. change (2 ^ 64) with 18446744073709551616.
  rewrite Z.mod_small; [lia|]. unfold zlen in *. lia.
Qed.

Lemma calm_append {P} (count : P -> string -> Z) env (prepared : preparedEvent P) view v e :
  (forall s e, step_fault env s = Some e -> isStreamVersionConflict e = false) ->
  (forall ptx p row e, pr_projector prepared ptx p row = Err e -> isStreamVersionConflict e = false) ->
  (forall e, InsertEvent view (mkPersistedEvent (pr_Event prepared) v (step_now env)) = Err e ->
     isStreamVersionConflict e = false) ->
  appendPrepared count env prepared v view = Err e -> isStreamVersionConflict e = false.
Proof.
  intros Hf Hp Hi.
  assert (forall s m u, may_fail env s (EWrap m) = Err u -> isStreamVersionConflict u = false) as Hmf.
  { intros s m u. unfold may_fail. destruct (step_fault env s) as [e0|] eqn:E; [|done].
    intros [= <-]. exact (Hf s e0 E). }
  assert (forall A m (r : result goerr A) u, (forall e, r = Err e -> isStreamVersionConflict e = false) ->
    wrap_err (EWrap m) r = Err u -> isStreamVersionConflict u = false) as Hw.
  { intros A m r u Hr. destruct r as [|e0]; [done|].
    intros [= <-]. exact (Hr e0 eq_refl). }
  assert (forall u, (may_fail env SInsert (EWrap "insert event") ≫= fun _ =>
      let row := mkPersistedEvent (pr_Event prepared) v (step_now env) in
      wrap_err (EWrap "insert event") (InsertEvent view row) ≫= fun view' =>
      wrap_err (EWrap "project event")
        (pr_projector prepared (mkProjectionTx (Some row) false) (db_state view') row) ≫= fun p =>
      Ok (mkDB (db_events view') p)) = Err u -> isStreamVersionConflict u = false) as Hm.
  { intros u [H|(x & _ & H)]%bind_err; [by eapply Hmf|]. cbv zeta in H.
    apply bind_err in H as [H|(v' & _ & H)]; [eapply Hw; [exact Hi|exact H]|].
    apply bind_err in H as [H|(p & _ & H)]; [|done]. eapply Hw; [|exact H]. eauto. }
  unfold appendPrepared, protectLastAdminMutation. destruct (pr_protectLastAdmin prepared); cbn [negb]; [|apply Hm].
  intros [H|(x & _ & H)]%bind_err; [by eapply Hmf|].
  apply bind_err in H as [H|(y & _ & H)]; [by eapply Hmf|]. cbv zeta in H.
  apply bind_err in H as [H|(v' & _ & H)]; [by apply Hm|]. destruct (_ =? 0); [done|].
  apply bind_err in H as [H|(z & _ & H)]; [by eapply Hmf|]. destruct (_ =? 0); [|done]. by injection H as <-.
Qed.

Lemma calm_attempt {P} (count : P -> string -> Z) env (prepared : preparedEvent P) db :
  contiguous (db_events db) -> versions_fit (db_events db) -> calm (hd quiet_step (tx_steps env)) ->
  (forall ptx p row e, pr_projector prepared ptx p row = Err e -> isStreamVersionConflict e = false) ->
  (appendAutoBatchOnce count env [prepared] db).2 <> Ok true.
Proof.
  intros Hc Hf [Hno Hfault] Hp. unfold appendAutoBatchOnce. destruct (tx_fault env SBegin); [done|].
  cbn [auto_steps].
  destruct (read_version (hd quiet_step (tx_steps env)) prepared "read stream version" (mkTx db db)) as [tx [v|e]] eqn:Er;
    [|done].
  destruct (read_version_ok _ _ _ _ _ _ _ (tx_ok_begin db Hc) Er) as [[Hcc Hcv Ho _ _] Hv].
  unfold insert_at.
  assert (db_events (tx_view (others_in_tx (before_insert (hd quiet_step (tx_steps env))) tx)) = db_events (tx_view tx)) as Hev
    by (unfold others_in_tx; by rewrite Hno).
  destruct (appendPrepared count _ prepared _ _) as [view'|e] eqn:Ea.
  { unfold commit_tx. by destruct (at_commit env). }
  replace (isStreamVersionConflict e) with false; [done|]. symmetry.
  eapply calm_append; [exact Hfault|exact Hp| |exact Ea]. intros e' Hi.
  eapply no_conflict_insert; [by rewrite Hev|by rewrite Hev| |exact Hi].
  assert (others_respect (mkTx db db) tx) as Hresp.
  { unfold read_version in Er. injection Er as <- _. by apply (others_in_tx_ok db), tx_ok_begin. }
  destruct (Hresp (StreamType (pr_Event prepared)) (StreamID (pr_Event prepared))) as [Heq _].
  destruct (Heq eq_refl) as [Hvc _]. rewrite Hv, Hvc. by apply (others_only_fit _ _ Ho).
Qed.

(** [AppendEvent] returns as soon as one attempt is not disturbed: if at
    some attempt within the bound no other writer commits between the version
    read and the insert, or the caller's context has ended at the wait after
    it, the loop returns by that attempt, whatever the other writers did before;
    the delay between attempts is between 1 and 50 milliseconds. *)
Theorem AppendEvent_terminates {P} (count : P -> string -> Z) st ctx event envs waits db n fuel :
  contiguous (db_events db) -> versions_fit (db_events db) ->
  (forall e projector ptx p row err, projectors st !! e = Some projector ->
     projector ptx p row = Err err -> isStreamVersionConflict err = false) ->
  (calm (hd quiet_step (tx_steps (envs n))) \/ waits n <> None) -> (n < fuel)%nat ->
  (exists res, AppendEvent count fuel (Some st) ctx event envs waits db = Some res)
  /\ forall attempt, appendRetryBaseDelay <= append_retry_delay attempt <= appendRetryMaxDelay.
Proof.
  intros Hc Hf Hp Hn Hfuel. split.
  - unfold AppendEvent. destruct (_ ≫= _) as [prepared|e] eqn:Ev; [|by eexists].
    apply bind_ok in Ev as (x & ->%validate_same & Hprep).
    assert (forall ptx p row e, pr_projector prepared ptx p row = Err e -> isStreamVersionConflict e = false) as Hproj.
    { unfold prepareEvent in Hprep. apply bind_ok in Hprep as (u & _ & (projector & Hpr%or_err_ok & H)%bind_ok).
      apply bind_ok in H as (t & _ & (u2 & _ & [= <-])%bind_ok). cbn. intros. by eapply Hp. }
    assert (forall fuel k db, contiguous (db_events db) -> versions_fit (db_events db) -> (k <= n)%nat ->
      (n - k < fuel)%nat -> exists res, append_loop count fuel k envs waits prepared db = Some res) as Hloop.
    { clear Hc Hf db fuel Hfuel. intros fuel. induction fuel as [|fuel IH]; intros k db Hc Hf Hk Hlt; [lia|].
      cbn [append_loop]. destruct (appendAutoBatchOnce_ok count (envs k) [prepared] db Hc) as [(Hc1 & _) Hretry].
      destruct (decide (k = n)) as [->|Hkn].
      - destruct Hn as [Hcalm|Hw].
        + pose proof (calm_attempt count (envs n) prepared db Hc Hf Hcalm Hproj) as Hne.
          destruct (appendAutoBatchOnce count (envs n) [prepared] db) as [db1 [[]|e]]; eauto. done.
        + destruct (appendAutoBatchOnce count (envs n) [prepared] db) as [db1 [[]|e]]; eauto.
          destruct (waits n); [eauto|done].
      - destruct (appendAutoBatchOnce count (envs k) [prepared] db) as [db1 [[]|e]]; eauto.
        destruct (waits k); [eauto|]. cbn in *. apply IH; [done| |lia|lia].
        eapply others_only_fit; [by apply Hretry|done|done]. }
    apply Hloop; [done|done|lia|lia].
  - intros attempt. unfold append_retry_delay.
    assert (Z.min (Z.max attempt 0) 6 ∈ [0; 1; 2; 3; 4; 5; 6]) as Hin.
    { apply list_elem_of_In. assert (0 <= Z.min (Z.max attempt 0) 6 <= 6) as Hb by lia. revert Hb.
      generalize (Z.min (Z.max attempt 0) 6). intros z Hb. cbn. lia. }
    revert Hin. generalize (Z.min (Z.max attempt 0) 6). intros z Hin.
    repeat (apply elem_of_cons in Hin as [->|Hin]; [vm_compute; split; discriminate|]). set_solver.
Qed.

(** ** Witnesses *)

Lemma streams_stay_contiguous_witness :
  contiguous [example_row 1 7; example_row 2 0; example_row 3 0].
Proof.
  refine (proj1 (proj2 (streams_stay_contiguous example_count (Some example_store) 1
    (mkDB [] 1) (mkDB [example_row 1 7; example_row 2 0; example_row 3 0] 3) _ _))).
  - apply history_refl.
  - eapply (history_call _ _ _ (mkDB [example_row 1 7] 1) _ true
      (CallAppendEvents [example_event; example_event] quiet_env)).
    + eapply (history_call _ _ _ (mkDB [] 1) _ true (CallAppendEvents [example_event] busy_env));
        [apply history_refl|vm_compute; reflexivity].
    + vm_compute. reflexivity.
Defined.


Lemma version_pinned_batch_is_compare_and_swap_witness :
  (AppendEventsWithVersion example_count (Some example_store) true [example_event; example_event] 0 busy_env empty_db).2
    = Err (EWrap "expected" errVersionConflict)
  /\ CurrentStreamVersion empty_db "user" "01ARZ3NDEKTSV4RRFFQ69G5FAV" <= 0.
Proof.
  split; [vm_compute; reflexivity|].
  destruct (version_pinned_batch_is_compare_and_swap example_count (Some example_store) true
    [example_event; example_event] 0 quiet_env empty_db (mkDB [example_row 1 0; example_row 2 0] 3))
    as (st & prepared & stype & sid & before & rows & _ & Hp & Hall & _ & Hb & Hs & He & _ & Hle).
  - apply contiguous_nil.
  - discriminate.
  - vm_compute. reflexivity.
  - vm_compute. discriminate.
Defined.

Lemma pinned_append_has_one_winner_witness :
  (AppendEventWithVersion example_count (Some example_store) true example_event 0 quiet_env empty_db).2 = Ok tt
  /\ forall db3, AppendEventWithVersion example_count (Some example_store) true example_event 0 quiet_env
                   (mkDB [example_row 1 0] 2) <> (db3, Ok tt).
Proof.
  split; [vm_compute; reflexivity|].
  destruct (prepareEvent example_store example_event) as [p|e] eqn:E; [|revert E; vm_compute; discriminate].
  refine (pinned_append_has_one_winner example_count example_store true true example_event example_event p p 0
    quiet_env quiet_env empty_db (mkDB [example_row 1 0] 2) (mkDB [example_row 1 0] 2) contiguous_nil E E
    eq_refl eq_refl _ _).
  - vm_compute. reflexivity.
  - apply history_refl.
Defined.

(** Removing the last administrator is refused, adding one is not. *)
Definition revoking_store : Store Z :=
  mkStore {["Revoked"%string := fun _ n _ => Ok (n - 1)]}
    {["admins"%string := mkRebuildTarget ["users"]%string [] ["user"]%string ["Revoked"]%string None]}
    {["Revoked"%string := "admins"%string]} {["Revoked"%string]}.

Definition revoking_call : append_call Z :=
  CallAppendEventWithVersion
    (mkEvent "user" "01ARZ3NDEKTSV4RRFFQ69G5FAV" "Revoked" 1 (Some "{}"%string)) 0 quiet_env.

Lemma last_admin_is_kept_witness :
  run_call example_count (Some revoking_store) true revoking_call empty_db = Some (empty_db, Err (EWrap "store: version-pinned append" ErrLastAdmin))
  /\ 0 < example_count (db_state empty_db) lastAdminPermission.
Proof.
  assert (run_call example_count (Some revoking_store) true revoking_call empty_db
          = Some (empty_db, Err (EWrap "store: version-pinned append" ErrLastAdmin))) as Hr by (vm_compute; reflexivity).
  split; [exact Hr|].
  refine (last_admin_is_kept example_count revoking_store true revoking_call empty_db empty_db _ _ _ _ _ Hr).
  - intros p. unfold example_count. lia.
  - intros e projector ptx p row p' Hp Hn. exfalso. unfold revoking_store in Hp, Hn. cbn in Hp, Hn.
    apply lookup_singleton_Some in Hp as [<- _]. set_solver.
  - split; [constructor|]. intros p Hp. exact Hp.
  - vm_compute. reflexivity.
Defined.

Lemma AppendEvent_terminates_witness :
  exists res, AppendEvent example_count 3 (Some example_store) true example_event
    (fun n => if (n <? 2)%nat then busy_env else quiet_env) (fun _ => None) empty_db = Some res.
Proof.
  refine (proj1 (AppendEvent_terminates example_count example_store true example_event
    (fun n => if (n <? 2)%nat then busy_env else quiet_env) (fun _ => None) empty_db 2 3 _ _ _ _ _)).
  - apply contiguous_nil.
  - intros stype sid. vm_compute. discriminate.
  - intros e projector ptx p row err Hp. unfold example_store in Hp. cbn in Hp.
    apply lookup_singleton_Some in Hp as [_ <-]. discriminate.
  - left. split; [reflexivity|discriminate].
  - lia.
Defined.
