(* ===== verification/TypedStore.v ===== *)
(** * Event streams with decoded payloads

    The components that keep their own streams and tables are modelled over a
    log of decoded events: [P] is the type of their payloads and [T] the
    contents of their tables.  An append is one transaction that inserts the
    event at the next version of its stream and projects it: atomic, as
    EventStore.v shows, and pinned to an expected version or not. *)

From Stdlib Require Import Ascii String ZArith Lia.
From S2P Require Export EventStore.

(** server/internal/store/errors.go:13-19 [IsNotFound] *)
Definition IsNotFound (e : goerr) : bool :=
  errors_is "store: resource not found" e || errors_is "pgx.ErrNoRows" e || errors_is "sql.ErrNoRows" e.
Definition ErrNoRows : goerr := ESentinel "pgx.ErrNoRows".

(** What the database does to one append: a failure before the commit, or the
    commit's outcome; and the transaction timestamp. *)
Record AppendEnv := mkAppendEnv {
  ae_fault : option goerr;
  ae_commit : commit_outcome;
  ae_now : time;
}.

Section Typed.
Context {P T : Type}.

(** An event of a stream, and the row of a committed one; the position of a
    row in the log is its global position. *)
Record TypedEvent := mkTypedEvent { te_StreamType : string; te_StreamID : string; te_Payload : P }.
Record TypedRow := mkTypedRow { ty_Event : TypedEvent; ty_Version : Z; ty_CreatedAt : time }.
Record TypedDB := mkTypedDB { td_log : list TypedRow; td_tables : T }.

Definition of_stream (stype sid : string) (row : TypedRow) : Prop :=
  te_StreamType (ty_Event row) = stype /\ te_StreamID (ty_Event row) = sid.
#[export] Instance of_stream_dec stype sid row : Decision (of_stream stype sid row).
Proof. unfold of_stream. apply _. Defined.

Definition typed_stream (stype sid : string) (log : list TypedRow) : list TypedRow := filter (of_stream stype sid) log.

(** The version of a stream: that of its last row. *)
Definition typed_version (stype sid : string) (log : list TypedRow) : Z :=
  foldr Z.max 0 (ty_Version <$> typed_stream stype sid log).

Context (project : TypedRow -> T -> result goerr T).

(** The insert and the projection of an event at a version. *)
Definition insert_typed (now : time) (event : TypedEvent) (version : Z) (db : TypedDB) : result goerr TypedDB :=
  fail_if ((version <=? 0) || (max_int64 <? version)) (EPg "23514" "events_stream_version_check") ≫= fun _ =>
  let row := mkTypedRow event version now in
  wrap_err (EWrap "project event") (project row (td_tables db)) ≫= fun tables =>
  Ok (mkTypedDB (td_log db ++ [row]) tables).

(** How a transaction ends. *)
Definition commit_typed (env : AppendEnv) (db db' : TypedDB) : TypedDB * result goerr unit :=
  match ae_commit env with
  | Committed => (db', Ok tt)
  | CommitFailed e => (db, Err (EWrap "commit" e))
  | CommitLost e => (db', Err (EWrap "commit" e))
  end.

(** One transaction of [AppendEventWithVersion]. *)
Definition AppendPinned (env : AppendEnv) (event : TypedEvent) (expected : Z) (db : TypedDB)
    : TypedDB * result goerr unit :=
  match may_fault (ae_fault env) ≫= fun _ =>
        fail_if (expected <? 0) (EMsg "store: expected version must not be negative") ≫= fun _ =>
        fail_if (negb (typed_version (te_StreamType event) (te_StreamID event) (td_log db) =? expected))
          (EWrap "expected" errVersionConflict) ≫= fun _ =>
        insert_typed (ae_now env) event (expected + 1) db with
  | Err e => (db, Err e)
  | Ok db' => commit_typed env db db'
  end.

(** One call of [AppendEvent], whose retries end in one transaction or in a
    failure. *)
Definition AppendNext (env : AppendEnv) (event : TypedEvent) (db : TypedDB) : TypedDB * result goerr unit :=
  match may_fault (ae_fault env) ≫= fun _ =>
        insert_typed (ae_now env) event
          (typed_version (te_StreamType event) (te_StreamID event) (td_log db) + 1) db with
  | Err e => (db, Err e)
  | Ok db' => commit_typed env db db'
  end.

(** ** Facts *)

(** Every stream holds the versions 1, 2, 3, ... *)
Definition typed_contiguous (log : list TypedRow) : Prop :=
  forall stype sid, ty_Version <$> typed_stream stype sid log = seqZ 1 (zlen (typed_stream stype sid log)).

Lemma typed_stream_app stype sid l k : typed_stream stype sid (l ++ k) = typed_stream stype sid l ++ typed_stream stype sid k.
Proof. apply filter_app. Qed.

Lemma typed_stream_one stype sid row :
  typed_stream stype sid [row] = if decide (of_stream stype sid row) then [row] else [].
Proof. unfold typed_stream. by rewrite filter_cons, filter_nil. Qed.

Lemma typed_stream_cons stype sid row log :
  typed_stream stype sid (row :: log)
  = if decide (of_stream stype sid row) then row :: typed_stream stype sid log else typed_stream stype sid log.
Proof. apply filter_cons. Qed.

Lemma typed_contiguous_version stype sid log :
  typed_contiguous log -> typed_version stype sid log = zlen (typed_stream stype sid log).
Proof. intros H. unfold typed_version. rewrite H. apply foldr_max_seqZ. unfold zlen. lia. Qed.

Lemma typed_version_ge row log :
  row ∈ log -> ty_Version row <= typed_version (te_StreamType (ty_Event row)) (te_StreamID (ty_Event row)) log.
Proof.
  unfold typed_version. intros Hin. assert (row ∈ typed_stream (te_StreamType (ty_Event row)) (te_StreamID (ty_Event row)) log) as H
    by (by apply list_elem_of_filter).
  revert H. generalize (typed_stream (te_StreamType (ty_Event row)) (te_StreamID (ty_Event row)) log). intros l H.
  induction l as [|r l IH]; [by apply elem_of_nil in H|]. apply elem_of_cons in H as [->|H]; cbn; [|specialize (IH H)]; lia.
Qed.

Lemma typed_version_nonneg stype sid log : 0 <= typed_version stype sid log.
Proof. unfold typed_version. induction (ty_Version <$> _); cbn; lia. Qed.

Lemma typed_version_app stype sid log rows : typed_version stype sid log <= typed_version stype sid (log ++ rows).
Proof.
  pose proof (typed_version_nonneg stype sid rows) as Hz. unfold typed_version in *. rewrite typed_stream_app, fmap_app, foldr_app.
  revert Hz. generalize (foldr Z.max 0 (ty_Version <$> typed_stream stype sid rows)). intros z Hz.
  induction (ty_Version <$> typed_stream stype sid log) as [|v l IH]; cbn; lia.
Qed.

Lemma typed_contiguous_nil : typed_contiguous [].
Proof. by intros stype sid. Qed.

Lemma typed_version_pos row log :
  typed_contiguous log -> row ∈ log -> 0 < typed_version (te_StreamType (ty_Event row)) (te_StreamID (ty_Event row)) log.
Proof.
  intros Hc Hin. rewrite typed_contiguous_version by done.
  assert (row ∈ typed_stream (te_StreamType (ty_Event row)) (te_StreamID (ty_Event row)) log) as H
    by (by apply list_elem_of_filter).
  unfold zlen. destruct (typed_stream _ _ _); [by apply elem_of_nil in H|cbn; lia].
Qed.

(** Appending at the next version keeps the streams contiguous. *)
Lemma typed_contiguous_snoc log event now :
  typed_contiguous log ->
  typed_contiguous (log ++ [mkTypedRow event (typed_version (te_StreamType event) (te_StreamID event) log + 1) now]).
Proof.
  intros H stype sid. rewrite typed_stream_app, typed_stream_one, fmap_app.
  destruct (decide _) as [[H1 H2]|Hn]; cbn [ty_Event] in *.
  - subst. rewrite H, typed_contiguous_version by done. unfold zlen. rewrite length_app, Nat2Z.inj_add.
    cbn [length fmap list_fmap]. change (Z.of_nat 1) with 1.
    rewrite (seqZ_app 1 _ 1) by lia. f_equal. by rewrite Z.add_comm.
  - by rewrite app_nil_r, app_nil_r, H.
Qed.

Lemma typed_version_snoc log stype sid event version now :
  typed_contiguous log -> version = typed_version (te_StreamType event) (te_StreamID event) log + 1 ->
  typed_version stype sid (log ++ [mkTypedRow event version now])
  = if decide (of_stream stype sid (mkTypedRow event version now)) then version else typed_version stype sid log.
Proof.
  intros Hc ->. rewrite !(typed_contiguous_version _ _ (_ ++ _)) by (by apply typed_contiguous_snoc).
  rewrite typed_stream_app, typed_stream_one. unfold zlen. rewrite length_app.
  destruct (decide _) as [[H1 H2]|H]; cbn [ty_Event length] in *; [subst|];
    rewrite !typed_contiguous_version by done; unfold zlen; lia.
Qed.

(** What an append leaves: the database it found, or the event inserted at the
    next version and projected; success means the latter. *)
Definition appended (event : TypedEvent) (db db' : TypedDB) : Prop :=
  exists now tables,
    let version := typed_version (te_StreamType event) (te_StreamID event) (td_log db) + 1 in
    0 < version <= max_int64
    /\ project (mkTypedRow event version now) (td_tables db) = Ok tables
    /\ db' = mkTypedDB (td_log db ++ [mkTypedRow event version now]) tables.

Lemma insert_typed_ok now event version db db' :
  insert_typed now event version db = Ok db' ->
  version = typed_version (te_StreamType event) (te_StreamID event) (td_log db) + 1 -> appended event db db'.
Proof.
  unfold insert_typed. intros (u & Hf%fail_if_ok & H)%bind_ok Hv. apply orb_false_iff in Hf as [H1%Z.leb_gt H2%Z.ltb_ge].
  apply bind_ok in H as (tables & Hp%wrap_err_ok & [= <-]). exists now, tables. subst version. auto.
Qed.

Lemma commit_typed_ok env db db' db2 r :
  commit_typed env db db' = (db2, r) -> db2 = db /\ is_ok r = false \/ db2 = db'.
Proof. unfold commit_typed. destruct (ae_commit env); intros [= <- <-]; auto. Qed.

Lemma AppendNext_ok env event db db' r :
  AppendNext env event db = (db', r) -> db' = db /\ is_ok r = false \/ appended event db db'.
Proof.
  unfold AppendNext. destruct (_ ≫= _) as [db1|e] eqn:E; [|intros [= <- <-]; by left].
  intros [[-> Hr]| ->]%commit_typed_ok; [by left|right].
  apply bind_ok in E as (u & _ & Hi). by apply insert_typed_ok in Hi.
Qed.

(** A pinned append succeeds only on exactly the expected version. *)
Lemma AppendPinned_ok env event expected db db' r :
  AppendPinned env event expected db = (db', r) ->
  db' = db /\ is_ok r = false
  \/ typed_version (te_StreamType event) (te_StreamID event) (td_log db) = expected /\ appended event db db'.
Proof.
  unfold AppendPinned. destruct (_ ≫= _) as [db1|e] eqn:E; [|intros [= <- <-]; by left].
  intros [[-> Hr]| ->]%commit_typed_ok; [by left|right].
  apply bind_ok in E as (u & _ & E). apply bind_ok in E as (u2 & _ & E).
  apply bind_ok in E as (u3 & Hv%fail_if_ok & Hi). apply negb_false_iff, Z.eqb_eq in Hv. split; [done|].
  apply insert_typed_ok in Hi; [done|by rewrite Hv].
Qed.

Lemma appended_contiguous event db db' : typed_contiguous (td_log db) -> appended event db db' -> typed_contiguous (td_log db').
Proof. intros H (now & tables & _ & _ & ->). by apply typed_contiguous_snoc. Qed.
End Typed.

Arguments TypedEvent : clear implicits.
Arguments TypedRow : clear implicits.
Arguments TypedDB : clear implicits.
