(* ===== verification/Rebuild.v ===== *)
(** * [server/internal/store/rebuild.go]: replaying a projection

    [RebuildAll] resets one target and replays its streams in pages, in one
    transaction.  The order of text keys in the database is its collation, a
    parameter. *)

From Stdlib Require Import Ascii String ZArith Lia.
From S2P Require Export EventStore.

(** server/internal/store/rebuild.go:15-15 [replayPageSize] *)
Definition replayPageSize : Z := 100.

(** What the text order of the database promises. *)
Class Collation (le : string -> string -> bool) : Prop := {
  collation_total x y : le x y = true \/ le y x = true;
  collation_trans x y z : le x y = true -> le y z = true -> le x z = true;
  collation_antisym x y : le x y = true -> le y x = true -> x = y;
  collation_empty x : le "" x = true;
}.

(** A replay cursor, the key of the last event of a page. *)
Definition Key : Type := string * string * Z.
Definition key_of (e : PersistedEvent) : Key :=
  (StreamType (pe_Event e), StreamID (pe_Event e), StreamVersion e).

Section Replay.
Context {P : Type} (le : string -> string -> bool).

(** The SQL row comparison [(a, b, c) <= (a', b', c')]. *)
Definition text_lt (x y : string) : bool := le x y && negb (String.eqb x y).

Definition key_ltb (k1 k2 : Key) : bool :=
  let '(t1, i1, v1) := k1 in
  let '(t2, i2, v2) := k2 in
  text_lt t1 t2 || (String.eqb t1 t2 && (text_lt i1 i2 || (String.eqb i1 i2 && (v1 <? v2)))).

Definition row_le (a b : PersistedEvent) : Prop := key_ltb (key_of b) (key_of a) = false.

#[export] Instance row_le_dec : RelDecision row_le.
Proof. intros a b. unfold row_le. apply _. Defined.

(** server/internal/store/queries/events.sql:18-29 [ListEventsForReplayPage] *)
Definition ListEventsForReplayPage (streamTypes : list string) (after : Key) (pageSize : Z)
    (log : list PersistedEvent) : list PersistedEvent :=
  take (Z.to_nat pageSize)
    (merge_sort row_le
      (filter (fun e => StreamType (pe_Event e) ∈ streamTypes /\ key_ltb after (key_of e) = true) log)).

(** The transaction of a replayed projector: no work is enqueued. *)
Definition replayTx : projectionTx := mkProjectionTx None true.

(** server/internal/store/rebuild.go:101-135 [replayEvent] *)
Definition replayEvent (s : Store P) (target : RebuildTarget P) (state : P) (row : PersistedEvent)
    : result goerr P :=
  fail_if (negb (slice_contains (EventTypes target) (EventType (pe_Event row))))
    (EMsg "store: replay event is outside rebuild target") ≫= fun _ =>
  or_err (projectors s !! EventType (pe_Event row))
    (EMsg "store: replay event has no registered projector") ≫= fun projector =>
  wrap_err (EWrap "store: replay event") (projector replayTx state row).

(** server/internal/store/rebuild.go:56-93 [RebuildAll], the page loop;
    [fault n] is the failure of the query for page [n] *)
Fixpoint replay_loop (fuel page : nat) (s : Store P) (target : RebuildTarget P)
    (fault : nat -> option goerr) (log : list PersistedEvent) (after : Key) (state : P)
    : option (result goerr P) :=
  match fuel with
  | O => None
  | S fuel =>
      match fault page with
      | Some e => Some (Err (EWrap "store: load events for rebuild target" e))
      | None =>
          let events := ListEventsForReplayPage (StreamTypes target) after replayPageSize log in
          match fold_result (replayEvent s target) state events with
          | Err e => Some (Err e)
          | Ok state' =>
              if zlen events <? replayPageSize then Some (Ok state')
              else match last events with
                   | Some row => replay_loop fuel (S page) s target fault log (key_of row) state'
                   | None => Some (Ok state')
                   end
          end
      end
  end.

(** server/internal/store/rebuild.go:137-174 [validateRebuildClosure] *)
Definition validateRebuildClosure (targetTables closure : list string) : result goerr unit :=
  let dependents := filter (fun table => table ∉ targetTables) closure in
  fail_if (0 <? zlen dependents) (EMsg "store: rebuild target excludes FK-dependent tables") ≫= fun _ =>
  let missing := filter (fun table => table ∉ closure) targetTables in
  fail_if (0 <? zlen missing) (EMsg "store: rebuild target references missing tables").

(** What the database does during one rebuild. *)
Record RebuildEnv := mkRebuildEnv {
  rb_begin : option goerr;
  rb_closure : result goerr (list string);
  rb_page : nat -> option goerr;
  rb_commit : option goerr;
  rb_rollback : option goerr;
}.

(** server/internal/store/rebuild.go:44-99 [RebuildAll], inside the
    transaction; the snapshot it reads is fixed (Repeatable Read) *)
Definition rebuild_in_tx (fuel : nat) (s : Store P) (target : RebuildTarget P) (env : RebuildEnv)
    (db : DB P) : option (result goerr P) :=
  match wrap_err (EWrap "store: inspect rebuild target FK closure") (rb_closure env) ≫= fun closure =>
        validateRebuildClosure (rebuildTargetTables target) closure ≫= fun _ =>
        or_err (Reset target) (EMsg "nil reset") ≫= fun reset =>
        wrap_err (EWrap "store: reset rebuild target") (reset replayTx (db_state db)) with
  | Err e => Some (Err e)
  | Ok state =>
      match replay_loop fuel 0 s target (rb_page env) (db_events db) ("", "", 0)%string state with
      | Some (Ok state') =>
          Some (match rb_commit env with
                | Some e => Err (EWrap "store: commit rebuild target" e)
                | None => Ok state'
                end)
      | r => r
      end
  end.

(** server/internal/store/rebuild.go:17-99 [RebuildAll] *)
Definition RebuildAll (fuel : nat) (s : option (Store P)) (ctx : bool) (targetName : string)
    (env : RebuildEnv) (db : DB P) : option (DB P * result goerr unit) :=
  match or_err s (EMsg "store: nil store") ≫= fun s =>
        fail_if (negb ctx) (EMsg "store: nil rebuild context") ≫= fun _ =>
        fail_if (is_blank targetName) (EMsg "store: rebuild target name is empty") ≫= fun _ =>
        or_err (rebuildTargets s !! targetName) (EMsg "store: rebuild target is not registered") ≫= fun target =>
        match rb_begin env with
        | Some e => Err (EWrap "store: begin rebuild transaction" e)
        | None => Ok (s, target)
        end with
  | Err e => Some (db, Err e)
  | Ok (s, target) =>
      match rebuild_in_tx fuel s target env db with
      | None => None
      | Some (Ok state) => Some (mkDB (db_events db) state, Ok tt)
      | Some (Err e) =>
          Some (db, Err (match rb_rollback env with
                         | Some r => EJoin e (EWrap "store: roll back transaction" r)
                         | None => e
                         end))
      end
  end.

(** ** Specification *)

(** All events of the target's streams, in key order. *)
Definition replay_order (target : RebuildTarget P) (log : list PersistedEvent) : list PersistedEvent :=
  merge_sort row_le (filter (fun e => StreamType (pe_Event e) ∈ StreamTypes target) log).
End Replay.

(** Two rows of one target commute: applying them in either order succeeds with
    the same state. *)
Definition commute {P} (step : P -> PersistedEvent -> result goerr P) (x y : PersistedEvent) : Prop :=
  forall p p', (step p x ≫= fun p1 => step p1 y) = Ok p' <-> (step p y ≫= fun p1 => step p1 x) = Ok p'.

Definition same_stream_rows (x y : PersistedEvent) : Prop :=
  StreamType (pe_Event x) = StreamType (pe_Event y) /\ StreamID (pe_Event x) = StreamID (pe_Event y).

(** A target that keeps the last version seen of each stream, and a log that
    interleaves two streams. *)
Definition latest_store : Store (gmap string Z) :=
  mkStore
    {["Set"%string := fun _ m e => Ok (<[StreamID (pe_Event e) := StreamVersion e]> m)]}
    {["latest"%string := mkRebuildTarget ["latest"]%string [] ["thing"]%string ["Set"]%string
        (Some (fun _ _ => Ok ∅))]} ∅ ∅.
Definition set_event (sid : string) (v : Z) : PersistedEvent :=
  mkPersistedEvent (mkEvent "thing" sid "Set" 1 (Some "{}"%string)) v 0.
Definition interleaved_log : list PersistedEvent :=
  [set_event "B" 1; set_event "A" 1; set_event "B" 2; set_event "A" 2; set_event "B" 3].
Definition quiet_rebuild : RebuildEnv :=
  mkRebuildEnv None (Ok ["latest"]%string) (fun _ => None) None None.

(** Byte order, the "C" collation. *)
#[export] Instance byte_order_collation : Collation String.leb.
Proof.
  split.
  - apply String.leb_total.
  - intros x y z H1 H2. apply Is_true_true. etransitivity; by apply Is_true_true.
  - apply String.leb_antisym.
  - by intros [].
Qed.

(** ** The key order *)

Section Order.
Context {P : Type} (le : string -> string -> bool) `{!Collation le}.

Lemma text_lt_spec x y : text_lt le x y = true <-> le x y = true /\ x <> y.
Proof. unfold text_lt. rewrite andb_true_iff, negb_true_iff, String.eqb_neq. done. Qed.

Lemma key_ltb_spec k1 k2 :
  key_ltb le k1 k2 = true <->
  (le k1.1.1 k2.1.1 = true /\ k1.1.1 <> k2.1.1)
  \/ (k1.1.1 = k2.1.1 /\ ((le k1.1.2 k2.1.2 = true /\ k1.1.2 <> k2.1.2)
                          \/ (k1.1.2 = k2.1.2 /\ k1.2 < k2.2))).
Proof.
  destruct k1 as [[t1 i1] v1], k2 as [[t2 i2] v2]. cbn.
  rewrite !orb_true_iff, !andb_true_iff, !orb_true_iff, !andb_true_iff, !text_lt_spec, !String.eqb_eq, Z.ltb_lt. tauto.
Qed.

Lemma key_ltb_irrefl k : key_ltb le k k = false.
Proof. apply not_true_iff_false. rewrite key_ltb_spec. intros [[_ ?]|[_ [[_ ?]|[_ ?]]]]; [done..|lia]. Qed.

Lemma key_trichotomy k1 k2 : key_ltb le k1 k2 = true \/ k1 = k2 \/ key_ltb le k2 k1 = true.
Proof.
  destruct k1 as [[t1 i1] v1], k2 as [[t2 i2] v2]. rewrite !key_ltb_spec. cbn.
  destruct (decide (t1 = t2)) as [->|Ht].
  2:{ destruct (collation_total (le := le) t1 t2); [left; left; auto|right; right; left; auto]. }
  destruct (decide (i1 = i2)) as [->|Hi].
  2:{ destruct (collation_total (le := le) i1 i2); [left; right; auto|].
      right. right. right. split; [done|]. left. auto. }
  destruct (Z.lt_trichotomy v1 v2) as [?|[->|?]]; [left; right; auto|by right; left|right; right; right; auto].
Qed.

Lemma key_ltb_trans k1 k2 k3 : key_ltb le k1 k2 = true -> key_ltb le k2 k3 = true -> key_ltb le k1 k3 = true.
Proof.
  destruct k1 as [[t1 i1] v1], k2 as [[t2 i2] v2], k3 as [[t3 i3] v3]. rewrite !key_ltb_spec. cbn.
  assert (forall x y z, le x y = true -> x <> y -> le y z = true -> y <> z -> le x z = true /\ x <> z) as Hstr.
  { intros x y z H1 Hn1 H2 Hn2. split; [by eapply collation_trans|]. intros ->.
    by apply Hn1, (collation_antisym (le := le)). }
  intros [[A1 A2]|[-> A]] [[B1 B2]|[-> B]].
  - left. eauto.
  - left. eauto.
  - left. eauto.
  - right. split; [done|]. destruct A as [[A1 A2]|[-> A]], B as [[B1 B2]|[-> B]].
    + left. eauto.
    + left. eauto.
    + left. eauto.
    + right. split; [done|]. lia.
Qed.

#[local] Instance row_le_total : Total (row_le le).
Proof.
  intros a b. unfold row_le. destruct (key_trichotomy (key_of a) (key_of b)) as [H|[H|H]].
  - left. apply not_true_iff_false. intros H'. pose proof (key_ltb_trans _ _ _ H H') as Hc.
    by rewrite key_ltb_irrefl in Hc.
  - left. rewrite H. apply key_ltb_irrefl.
  - right. apply not_true_iff_false. intros H'. pose proof (key_ltb_trans _ _ _ H H') as Hc.
    by rewrite key_ltb_irrefl in Hc.
Qed.

#[local] Instance row_le_trans : Transitive (row_le le).
Proof.
  intros a b c Hab Hbc. unfold row_le in *. apply not_true_iff_false. intros Hca.
  destruct (key_trichotomy (key_of b) (key_of a)) as [H|[H|H]]; [congruence| |].
  - rewrite H in Hbc. congruence.
  - pose proof (key_ltb_trans _ _ _ Hca H). congruence.
Qed.

Lemma row_le_antisym_log log x y :
  contiguous log -> x ∈ log -> y ∈ log -> row_le le x y -> row_le le y x -> x = y.
Proof.
  intros Hc Hx Hy Hxy Hyx. unfold row_le in *.
  destruct (key_trichotomy (key_of x) (key_of y)) as [H|[H|H]]; [congruence| |congruence].
  unfold key_of in H. injection H as Ht Hi Hv.
  apply (nodup_key_inj StreamVersion (stream_of (StreamType (pe_Event x)) (StreamID (pe_Event x)) log)); [|..|done].
  - rewrite Hc. apply NoDup_seqZ.
  - by apply list_elem_of_filter.
  - by apply list_elem_of_filter.
Qed.

Lemma contiguous_nodup log : contiguous log -> NoDup log.
Proof.
  intros Hc. assert (forall stype sid, NoDup (stream_of stype sid log)) as Hnd.
  { intros stype sid. apply (NoDup_fmap_1 StreamVersion). rewrite Hc. apply NoDup_seqZ. }
  clear Hc. induction log as [|x l IH]; [constructor|]. apply NoDup_cons. split.
  - intros Hx. specialize (Hnd (StreamType (pe_Event x)) (StreamID (pe_Event x))). unfold stream_of in Hnd.
    rewrite filter_cons_True in Hnd by done. apply NoDup_cons in Hnd as [Hn _]. apply Hn.
    by apply list_elem_of_filter.
  - apply IH. intros stype sid. specialize (Hnd stype sid). unfold stream_of in Hnd. rewrite filter_cons in Hnd.
    case_decide; [by apply NoDup_cons in Hnd as [_ ?]|done].
Qed.

Lemma page_of_order (target : RebuildTarget P) after n log :
  contiguous log ->
  ListEventsForReplayPage le (StreamTypes target) after n log
  = take (Z.to_nat n) (filter (fun e => key_ltb le after (key_of e) = true) (replay_order le target log)).
Proof.
  intros Hc. unfold ListEventsForReplayPage, replay_order. f_equal.
  rewrite <- (merge_sort_filter (row_le le)).
  - f_equal. rewrite list_filter_filter. apply list_filter_iff. intros e. tauto.
  - intros x y Hx Hy. apply list_elem_of_filter in Hx as [_ Hx], Hy as [_ Hy]. by eapply row_le_antisym_log.
Qed.

(** What follows the last row of a page is the rest of the order. *)
Lemma after_cursor (l1 l2 : list PersistedEvent) x :
  StronglySorted (row_le le) (l1 ++ x :: l2) ->
  (forall y, y ∈ l2 -> row_le le y x -> y = x) -> NoDup (l1 ++ x :: l2) ->
  filter (fun e => key_ltb le (key_of x) (key_of e) = true) (l1 ++ x :: l2) = l2.
Proof.
  intros Hs Hties Hnd. rewrite filter_app, filter_cons_False by (rewrite key_ltb_irrefl; done).
  apply NoDup_app in Hnd as (_ & _ & Hnd). apply NoDup_cons in Hnd as [Hx _].
  rewrite filter_none.
  - rewrite filter_all; [done|]. apply Forall_forall. intros y Hy.
    destruct (key_ltb le (key_of x) (key_of y)) eqn:E; [done|]. destruct Hx.
    by rewrite <- (Hties y Hy E).
  - intros y Hy Hlt. clear Hties Hx. induction l1 as [|z l1 IH]; [set_solver|].
    inversion Hs as [|? ? Hs' Hz]; subst. apply elem_of_cons in Hy as [->|Hy]; [|by apply IH].
    rewrite Forall_forall in Hz. unfold row_le in Hz. rewrite (Hz x) in Hlt; [done|set_solver].
Qed.

Lemma replay_loop_ok s (target : RebuildTarget P) fault log fuel page done rest state after :
  contiguous log -> replay_order le target log = done ++ rest ->
  filter (fun e => key_ltb le after (key_of e) = true) (replay_order le target log) = rest ->
  (length rest < fuel * 100)%nat ->
  exists r, replay_loop le fuel page s target fault log after state = Some r
  /\ (forall state', r = Ok state' -> fold_result (replayEvent s target) state rest = Ok state')
  /\ ((forall n, fault n = None) -> r = fold_result (replayEvent s target) state rest).
Proof.
  intros Hc. revert page done rest state after.
  induction fuel as [|fuel IH]; intros page done rest state after Hall Hrest Hlen; [lia|]. cbn [replay_loop].
  destruct (fault page) as [e|] eqn:Ef.
  { eexists. split; [reflexivity|]. split; [discriminate|]. intros Hn. by rewrite Hn in Ef. }
  rewrite page_of_order, Hrest by done. change (Z.to_nat replayPageSize) with 100%nat.
  assert (fold_result (replayEvent s target) state rest
          = fold_result (replayEvent s target) state (take 100 rest) ≫= fun state' =>
            fold_result (replayEvent s target) state' (drop 100 rest)) as Hsplit
    by (by rewrite <- fold_result_app, take_drop).
  destruct (fold_result (replayEvent s target) state (take 100 rest)) as [state1|e] eqn:Efold; rewrite Hsplit; cbn [mbind result_bind].
  2:{ eexists. split; [reflexivity|]. by split. }
  destruct (Z.ltb_spec (zlen (take 100 rest)) replayPageSize) as [Hshort|Hfull].
  { unfold zlen, replayPageSize in Hshort. rewrite length_take in Hshort.
    rewrite drop_ge by lia. eexists. split; [reflexivity|]. by split. }
  unfold zlen, replayPageSize in Hfull. rewrite length_take in Hfull.
  destruct (last (take 100 rest)) as [row|] eqn:Elast.
  2:{ apply last_None, (f_equal length) in Elast. rewrite length_take in Elast. cbn [length] in Elast. lia. }
  apply last_Some in Elast as [page_rows Hpage].
  assert (replay_order le target log = (done ++ page_rows) ++ row :: drop 100 rest) as Hnow.
  { rewrite Hall, <- (take_drop 100 rest) at 1. by rewrite Hpage, <- !app_assoc. }
  apply (IH (S page) (done ++ page_rows ++ [row]) (drop 100 rest)).
  - rewrite Hnow, <- !app_assoc. done.
  - rewrite Hnow. apply after_cursor.
    + rewrite <- Hnow. apply (StronglySorted_merge_sort (row_le le)).
    + intros y Hy Hle.
      assert (forall z, z ∈ (done ++ page_rows) ++ row :: drop 100 rest -> z ∈ log) as Hin.
      { intros z. rewrite <- Hnow. unfold replay_order. rewrite (merge_sort_Permutation (row_le le)).
        by intros [_ ?]%list_elem_of_filter. }
      eapply row_le_antisym_log; [exact Hc|apply Hin; set_solver|apply Hin; set_solver|exact Hle|].
      pose proof (StronglySorted_merge_sort (row_le le) (filter (fun e => StreamType (pe_Event e) ∈ StreamTypes target) log)) as Hs.
      change (StronglySorted (row_le le) (replay_order le target log)) in Hs. rewrite Hnow in Hs.
      clear -Hs Hy. induction (done ++ page_rows) as [|z l1 IH]; inversion Hs; subst; [|auto].
      by eapply Forall_forall; [eassumption|].
    + rewrite <- Hnow. unfold replay_order. rewrite (merge_sort_Permutation (row_le le)).
      by apply NoDup_filter, contiguous_nodup.
  - rewrite length_drop. lia.
Qed.
End Order.

(** ** Replays *)

Section Replays.
Context {P : Type} (le : string -> string -> bool) `{!Collation le}.

Lemma replay_from_start (target : RebuildTarget P) log :
  contiguous log ->
  filter (fun e => key_ltb le ("", "", 0)%string (key_of e) = true) (replay_order le target log)
  = replay_order le target log.
Proof.
  intros Hc. apply filter_all, Forall_forall. intros e He. unfold replay_order in He.
  rewrite (merge_sort_Permutation (row_le le)) in He by (apply row_le_total || apply row_le_trans).
  apply list_elem_of_filter in He as [_ He].
  assert (StreamVersion e ∈ StreamVersion <$> stream_of (StreamType (pe_Event e)) (StreamID (pe_Event e)) log) as Hv.
  { apply list_elem_of_fmap_2, list_elem_of_filter. done. }
  apply contiguous_versions in Hv; [|done]. apply (key_ltb_spec le). cbn.
  destruct (decide (StreamType (pe_Event e) = ""%string)) as [->|Ht].
  - right. split; [done|]. destruct (decide (StreamID (pe_Event e) = ""%string)) as [->|Hi].
    + right. split; [done|lia].
    + left. split; [apply collation_empty|done].
  - left. split; [apply collation_empty|done].
Qed.

(** Each stream of a replay is the stream of the log, in version order. *)
Lemma replay_order_streams (target : RebuildTarget P) log stype sid :
  contiguous log ->
  stream_of stype sid (replay_order le target log)
  = if decide (stype ∈ StreamTypes target) then stream_of stype sid log else [].
Proof.
  intros Hc.
  assert (Total (row_le le)) as Htot by (by apply row_le_total).
  assert (Transitive (row_le le)) as Htr by (by apply row_le_trans).
  unfold stream_of, replay_order. case_decide as Hin.
  - apply (StronglySorted_unique_strong (row_le le)).
    + intros x y Hx Hy. apply list_elem_of_filter in Hx as [_ Hx].
      rewrite (merge_sort_Permutation (row_le le)) in Hx.
      apply list_elem_of_filter in Hx as [_ Hx], Hy as [_ Hy]. by eapply row_le_antisym_log.
    + apply strongly_sorted_filter, (StronglySorted_merge_sort (row_le le)).
    + pose proof (Hc stype sid) as Hv. fold (stream_of stype sid log).
      assert (StronglySorted Z.lt (StreamVersion <$> stream_of stype sid log)) as Hs.
      { rewrite Hv. clear. generalize (zlen (stream_of stype sid log)) as n. intros n.
        unfold seqZ. apply StronglySorted_fmap with (R1 := lt); [lia|].
        generalize 0%nat as k. induction (Z.to_nat n) as [|m IH]; intros k; [constructor|].
        cbn. constructor; [apply IH|]. apply Forall_forall. intros x Hx%elem_of_seq. lia. }
      assert (Forall (in_stream stype sid) (stream_of stype sid log)) as Hall.
      { apply Forall_forall. by intros x [? _]%list_elem_of_filter. }
      revert Hs Hall. generalize (stream_of stype sid log). clear. intros l.
      induction l as [|x l IH]; [constructor|]. rewrite fmap_cons. intros Hs Hall.
      inversion Hs as [|? ? Hs' Hx]; subst. apply Forall_cons in Hall as [[Ht Hi] Hall].
      constructor; [by apply IH|]. apply Forall_forall. intros y Hy.
      rewrite Forall_forall in Hall. rewrite Forall_forall in Hx. destruct (Hall y Hy) as [Ht' Hi'].
      assert (StreamVersion x < StreamVersion y) by (apply Hx; by apply list_elem_of_fmap_2).
      unfold row_le. apply not_true_iff_false. rewrite key_ltb_spec. unfold key_of. cbn.
      rewrite Ht, Hi, Ht', Hi'. intros [[_ ?]|[_ [[_ ?]|[_ ?]]]]; [done..|lia].
    + rewrite (merge_sort_Permutation (row_le le)), list_filter_filter.
      erewrite list_filter_iff; [reflexivity|]. intros e. unfold in_stream. simpl. naive_solver.
  - apply filter_none. intros e He [<- _]. rewrite (merge_sort_Permutation (row_le le)) in He.
    by apply list_elem_of_filter in He as [? _].
Qed.
End Replays.

(** Moving a row before rows it commutes with. *)
Lemma commute_to_front {P} (step : P -> PersistedEvent -> result goerr P) l1 x l2 p p' :
  Forall (fun y => commute step x y) l1 ->
  fold_result step p (l1 ++ x :: l2) = Ok p' <-> fold_result step p (x :: l1 ++ l2) = Ok p'.
Proof.
  revert p. induction l1 as [|y l1 IH]; intros p Hc; [done|]. apply Forall_cons in Hc as [Hxy Hc].
  cbn [fold_result app]. transitivity (exists p1, step p y = Ok p1 /\ fold_result step p1 (x :: l1 ++ l2) = Ok p').
  - rewrite bind_ok. split; intros (p1 & H1 & H2); exists p1; (split; [done|]); by apply IH.
  - assert ((exists p1, step p y = Ok p1 /\ fold_result step p1 (x :: l1 ++ l2) = Ok p')
            <-> exists p2, (step p y ≫= fun p1 => step p1 x) = Ok p2 /\ fold_result step p2 (l1 ++ l2) = Ok p') as ->.
    { cbn [fold_result]. setoid_rewrite bind_ok. naive_solver. }
    setoid_rewrite <- (Hxy p). setoid_rewrite bind_ok. cbn [fold_result]. setoid_rewrite bind_ok. naive_solver.
Qed.

(** Two arrangements of the same streams replay to the same state when rows of
    different streams commute. *)
Lemma stream_equivalent_replays {P} (step : P -> PersistedEvent -> result goerr P) (Q : PersistedEvent -> Prop) l1 l2 p p' :
  (forall x y, Q x -> Q y -> ~ same_stream_rows x y -> commute step x y) -> Forall Q l1 -> Forall Q l2 ->
  (forall stype sid, stream_of stype sid l1 = stream_of stype sid l2) ->
  fold_result step p l1 = Ok p' <-> fold_result step p l2 = Ok p'.
Proof.
  intros Hcomm. revert l2 p. induction l1 as [|x l1 IH]; intros l2 p HQ1 HQ2 Hs.
  { destruct l2 as [|y l2]; [done|]. specialize (Hs (StreamType (pe_Event y)) (StreamID (pe_Event y))).
    unfold stream_of in Hs. rewrite filter_cons_True in Hs by done. done. }
  assert (exists a b, l2 = a ++ x :: b /\ Forall (fun y => ~ same_stream_rows x y) a) as (a & b & -> & Ha).
  { specialize (Hs (StreamType (pe_Event x)) (StreamID (pe_Event x))). unfold stream_of in Hs.
    rewrite filter_cons_True in Hs by done. clear -Hs.
    induction l2 as [|y l2 IH]; [done|]. rewrite filter_cons in Hs. case_decide as Hy.
    - injection Hs as <- _. exists [], l2. by split.
    - destruct (IH Hs) as (a & b & -> & Ha). exists (y :: a), b. split; [done|]. constructor; [|done].
      intros [H1 H2]. by apply Hy. }
  rewrite (commute_to_front step a x b).
  2:{ apply Forall_app in HQ2 as [HQa _]. apply Forall_cons in HQ1 as [HQx _]. rewrite Forall_forall in *.
      intros y Hy. apply Hcomm; auto. }
  apply Forall_cons in HQ1 as [_ HQ1]. apply Forall_app in HQ2 as [HQa [_ HQb]%Forall_cons].
  cbn [fold_result]. rewrite !bind_ok. setoid_rewrite (IH (a ++ b)); [done|done|by apply Forall_app|].
  intros stype sid. specialize (Hs stype sid). rewrite stream_of_app in *. unfold stream_of in *.
  rewrite !filter_cons in Hs. case_decide as Hx; [|done].
  rewrite (filter_none (in_stream stype sid) a) in *; [by injection Hs as Hs|..].
  all: intros y Hy Hin; rewrite Forall_forall in Ha; apply (Ha y Hy); unfold in_stream, same_stream_rows in *; naive_solver congruence.
Qed.

(** C8. [RebuildAll] always returns, leaves the event log alone, and either
    changes nothing or leaves the projection that resetting the target and
    applying every event of its streams, one after another in stream and
    version order, gives: the pages of 100 rows neither skip nor repeat an
    event, whatever the text order of the database. *)
Theorem RebuildAll_replays_every_event {P} le `{!Collation le} fuel (s : option (Store P)) ctx targetName env db :
  contiguous (db_events db) -> (length (db_events db) < fuel * 100)%nat ->
  exists db' r, RebuildAll le fuel s ctx targetName env db = Some (db', r)
  /\ db_events db' = db_events db
  /\ match r with
     | Err _ => db' = db
     | Ok _ => exists st target reset p0, s = Some st /\ rebuildTargets st !! targetName = Some target
         /\ Reset target = Some reset /\ reset replayTx (db_state db) = Ok p0
         /\ fold_result (replayEvent st target) p0 (replay_order le target (db_events db)) = Ok (db_state db')
         /\ (forall stype sid, stype ∈ StreamTypes target ->
               stream_of stype sid (replay_order le target (db_events db)) = stream_of stype sid (db_events db))
     end.
Proof.
  intros Hc Hlen. unfold RebuildAll. destruct (_ ≫= _) as [[st target]|e] eqn:Ev; [|by exists db, (Err e)].
  apply bind_ok in Ev as (st' & Hs%or_err_ok & (u & _ & (u2 & _ & (t & Ht%or_err_ok & Hb)%bind_ok)%bind_ok)%bind_ok).
  destruct (rb_begin env); [done|]. injection Hb as <- <-.
  assert (exists r, rebuild_in_tx le fuel st' t env db = Some r /\ forall p, r = Ok p ->
    exists reset p0, Reset t = Some reset /\ reset replayTx (db_state db) = Ok p0
    /\ fold_result (replayEvent st' t) p0 (replay_order le t (db_events db)) = Ok p) as (r & Hr & Hok).
  { unfold rebuild_in_tx. destruct (_ ≫= _) as [p0|e] eqn:Ep; [|by exists (Err e)].
    apply bind_ok in Ep as (cl & _ & (u3 & _ & (reset & Hreset%or_err_ok & Hp0%wrap_err_ok)%bind_ok)%bind_ok).
    destruct (replay_loop_ok le st' t (rb_page env) (db_events db) fuel 0 [] (replay_order le t (db_events db)) p0
      ("", "", 0)%string Hc eq_refl (replay_from_start le t _ Hc)) as (r & Hr & Hok & _).
    - unfold replay_order. rewrite (Permutation_length (merge_sort_Permutation _ _)).
      pose proof (length_filter (fun e => StreamType (pe_Event e) ∈ StreamTypes t) (db_events db)). lia.
    - rewrite Hr. destruct r as [p|e]; [|by exists (Err e)]. eexists. split; [reflexivity|].
      intros p' Hp'. destruct (rb_commit env); [done|]. injection Hp' as <-. exists reset, p0. auto. }
  rewrite Hr. destruct r as [p|e]; [|by exists db; eexists].
  exists (mkDB (db_events db) p), (Ok tt). split_and!; [done|done|].
  destruct (Hok p eq_refl) as (reset & p0 & H1 & H2 & H3). exists st', t, reset, p0.
  split_and!; try done. intros stype sid Hst. by rewrite replay_order_streams, decide_True.
Qed.

(** When the rows of different streams commute, rebuilding a target in
    stream order reaches the state that applying its events in the order they
    were appended reaches: a rebuilt projection is the live one. *)
Theorem rebuild_equals_live_order {P} le `{!Collation le} (st : Store P) target log p p' :
  contiguous log ->
  (forall x y, StreamType (pe_Event x) ∈ StreamTypes target -> StreamType (pe_Event y) ∈ StreamTypes target ->
     ~ same_stream_rows x y -> commute (replayEvent st target) x y) ->
  fold_result (replayEvent st target) p (replay_order le target log) = Ok p'
  <-> fold_result (replayEvent st target) p (filter (fun e => StreamType (pe_Event e) ∈ StreamTypes target) log) = Ok p'.
Proof.
  intros Hc Hcomm.
  assert (Forall (fun e => StreamType (pe_Event e) ∈ StreamTypes target)
            (filter (fun e => StreamType (pe_Event e) ∈ StreamTypes target) log)) as Hall
    by (apply Forall_forall; by intros e [? _]%list_elem_of_filter).
  apply (stream_equivalent_replays _ (fun e => StreamType (pe_Event e) ∈ StreamTypes target)); [done| |done|].
  { unfold replay_order. by rewrite (merge_sort_Permutation (row_le le)). }
  intros stype sid.
  rewrite replay_order_streams by done. unfold stream_of. rewrite list_filter_filter. case_decide as Hin.
  - apply list_filter_iff. intros e. unfold in_stream. naive_solver.
  - symmetry. apply filter_none. intros e _. unfold in_stream. naive_solver.
Qed.

Lemma interleaved_log_contiguous : contiguous interleaved_log.
Proof.
  pose (a := set_event "B" 1). pose (b := set_event "A" 1). pose (c := set_event "B" 2). pose (d := set_event "A" 2).
  exact (contiguous_snoc [a; b; c; d] (set_event "B" 3)
    (contiguous_snoc [a; b; c] d (contiguous_snoc [a; b] c
      (contiguous_snoc [a] b (contiguous_snoc [] a contiguous_nil eq_refl) eq_refl) eq_refl) eq_refl) eq_refl).
Qed.

Lemma RebuildAll_replays_every_event_witness :
  RebuildAll String.leb 1 (Some latest_store) true "latest" quiet_rebuild
    (mkDB interleaved_log {["stale"%string := 9]})
  = Some (mkDB interleaved_log {["A"%string := 2; "B"%string := 3]}, Ok tt)
  /\ exists db' r, RebuildAll String.leb 1 (Some latest_store) true "latest" quiet_rebuild
      (mkDB interleaved_log {["stale"%string := 9]}) = Some (db', r).
Proof.
  split; [vm_compute; reflexivity|].
  destruct (RebuildAll_replays_every_event String.leb 1 (Some latest_store) true "latest" quiet_rebuild
    (mkDB interleaved_log {["stale"%string := 9]}) interleaved_log_contiguous ltac:(cbn; lia)) as (db' & r & Hr & _).
  exists db', r. exact Hr.
Defined.

Definition latest_target : RebuildTarget (gmap string Z) :=
  mkRebuildTarget ["latest"]%string [] ["thing"]%string ["Set"]%string (Some (fun _ _ => Ok ∅)).

Lemma latest_replay m e m' :
  replayEvent latest_store latest_target m e = Ok m' <->
  EventType (pe_Event e) = "Set"%string /\ m' = <[StreamID (pe_Event e) := StreamVersion e]> m.
Proof.
  unfold replayEvent. destruct (decide (EventType (pe_Event e) = "Set"%string)) as [->|Hne].
  - change (Ok (E := goerr) (<[StreamID (pe_Event e) := StreamVersion e]> m) = Ok m'
      <-> "Set"%string = "Set"%string /\ m' = <[StreamID (pe_Event e) := StreamVersion e]> m).
    split; [by intros [= <-]|by intros [_ ->]].
  - unfold slice_contains. rewrite bool_decide_eq_false_2 by (cbn; set_solver). cbn. naive_solver.
Qed.

Lemma latest_commutes x y :
  StreamType (pe_Event x) = "thing"%string -> StreamType (pe_Event y) = "thing"%string ->
  ~ same_stream_rows x y -> commute (replayEvent latest_store latest_target) x y.
Proof.
  intros Hx Hy Hd p p'. rewrite !bind_ok. setoid_rewrite latest_replay.
  assert (StreamID (pe_Event x) <> StreamID (pe_Event y)) as Hid by (intros Heq; apply Hd; split; congruence).
  split; intros (m & (Ha & ->) & Hb & ->); eexists; (split; [by split|]); (split; [done|]);
    by rewrite insert_insert_ne.
Qed.

Lemma rebuild_equals_live_order_witness :
  fold_result (replayEvent latest_store latest_target) ∅ (replay_order String.leb latest_target interleaved_log)
  = Ok {["A"%string := 2; "B"%string := 3]}.
Proof.
  refine (proj2 (rebuild_equals_live_order String.leb latest_store latest_target interleaved_log ∅ _ _ _) _).
  - apply interleaved_log_contiguous.
  - intros x y Hx Hy. apply latest_commutes; set_solver.
  - vm_compute. reflexivity.
Defined.
