(* ===== verification/WorkQueue.v ===== *)
(** * [server/internal/store/work.go]: the durable work queue

    Work items are rows keyed by their source event and kind.  A worker runs
    one transaction: it takes the queue lock, claims the first due row, calls
    the handler, and either deletes the row or records the failure with a
    growing delay. *)

From Stdlib Require Import Ascii String ZArith Lia.
From S2P Require Export Rebuild.

(** server/internal/store/work.go:18-28 [workRetryBaseDelay] *)
Definition workRetryBaseDelay : Z := 5 * second.
Definition workRetryMaxDelay : Z := hour.
Definition maxWorkAttempts : Z := 100.
Definition maxWorkKindBytes : Z := 128.
Definition maxWorkPayloadBytes : Z := Z.shiftl 2 20.
Definition maxWorkErrorBytes : Z := 4096.

(** server/internal/store/work.go:30-37 [Work]; a nil payload is [None] *)
Record Work := mkWork {
  w_Kind : string;
  w_PayloadVersion : Z;
  w_Payload : option string;
  w_RunAt : time;
  w_MaxAttempts : Z;
}.

#[export] Instance work_eq_dec : EqDecision Work.
Proof. solve_decision. Defined.

(** The primary key of a work item: the source event and the kind. *)
Definition WorkKey : Type := Key * string.

(** server/internal/store/migrations/002_work_items.sql:5-39 [work_items], the
    columns that are not the key *)
Record WorkRow := mkWorkRow {
  wr_Work : Work;
  wr_Attempts : Z;
  wr_NextAttemptAt : option time;
  wr_LastError : option string;
  wr_CreatedAt : time;
}.

#[export] Instance work_row_eq_dec : EqDecision WorkRow.
Proof. solve_decision. Defined.

Definition WorkTable : Type := gmap WorkKey WorkRow.

(** server/internal/store/work.go:39-48 [WorkItem]; what a handler reads *)
Definition WorkItem : Type := WorkKey * WorkRow.

(** ** Validation and enqueueing *)

(** server/internal/store/work.go:266-277 [validateWorkKind] *)
Definition validateWorkKind (kind : string) : result goerr unit :=
  fail_if (is_blank kind) (EMsg "store: work kind is empty") ≫= fun _ =>
  fail_if (maxWorkKindBytes <? len kind) (EMsg "store: work kind exceeds 128 bytes") ≫= fun _ =>
  fail_if (negb (valid_utf8 kind)) (EMsg "store: work kind is not valid UTF-8").

(** server/internal/store/work.go:244-264 [validateWork] *)
Definition validateWork (work : Work) : result goerr unit :=
  validateWorkKind (w_Kind work) ≫= fun _ =>
  fail_if (w_PayloadVersion work <=? 0) (EMsg "store: work payload version must be positive") ≫= fun _ =>
  or_err (w_Payload work) (EMsg "store: work payload is nil") ≫= fun payload =>
  fail_if (maxWorkPayloadBytes <? len payload) (EMsg "store: work payload exceeds the limit") ≫= fun _ =>
  fail_if (time_is_zero (w_RunAt work)) (EMsg "store: work run time is zero") ≫= fun _ =>
  fail_if ((w_MaxAttempts work <=? 0) || (maxWorkAttempts <? w_MaxAttempts work))
    (EMsg "store: work maximum attempts must be between 1 and 100").

(** A Postgres [text] value holds no NUL character: the server rejects such a
    parameter with SQLSTATE 22021. *)
Definition text_param (s : string) : result goerr unit :=
  fail_if (contains_byte "000" s) (EPg "22021" "").

(** server/internal/store/work.go:109-120 [projectionTx.EnqueueWork]: the insert
    for a source event; [now] is the transaction timestamp *)
Definition insert_work (fault : option goerr) (now : time) (key : WorkKey) (work : Work) (tbl : WorkTable)
    : result goerr WorkTable :=
  wrap_err (EWrap "store: enqueue work")
    (may_fault fault ≫= fun _ =>
     text_param (w_Kind work) ≫= fun _ =>
     match tbl !! key with
     | Some _ => Err (EPg "23505" "work_items_pkey")
     | None => Ok (<[key := mkWorkRow work 0 None None now]> tbl)
     end).

(** server/internal/store/work.go:95-123 [projectionTx.EnqueueWork] *)
Definition EnqueueWork (tx : projectionTx) (ctx : bool) (fault : option goerr) (now : time) (work : Work)
    (tbl : WorkTable)
    : result goerr WorkTable :=
  fail_if (negb ctx) (EMsg "store: nil enqueue-work context") ≫= fun _ =>
  if skipWork tx then Ok tbl
  else
    or_err (sourceEvent tx) (EMsg "store: work enqueue is outside an event projector") ≫= fun event =>
    validateWork work ≫= fun _ =>
    insert_work fault now (key_of event, w_Kind work) work tbl.

(** server/internal/store/work.go:69-93 [NewWorkQueue]; a nil handler is
    [None] *)
Definition NewWorkQueue {H} (pool : bool) (handlers : gmap string (option H)) : result goerr (gmap string H) :=
  fail_if (negb pool) (EMsg "store: nil Postgres pool") ≫= fun _ =>
  fail_if (bool_decide (dom handlers = (∅ : gset string))) (EMsg "store: work handler registry is empty") ≫= fun _ =>
  fold_result (fun reg kind =>
    wrap_err (EWrap "store: invalid work handler kind") (validateWorkKind kind) ≫= fun _ =>
    or_err (handlers !! kind ≫= id) (EMsg "store: work handler is nil") ≫= fun h =>
    Ok (<[kind := h]> reg)) ∅ (sorted_keys handlers).

(** ** Delays and error texts *)

(** The loop from [current = 1]; each turn doubles the delay, so ten turns
    reach the cap. *)
Fixpoint retry_delay_loop (fuel : nat) (current attempt delay : Z) : Z :=
  match fuel with
  | O => delay
  | S fuel =>
      if (current <? attempt) && (delay <? workRetryMaxDelay) then
        let delay := delay * 2 in
        if workRetryMaxDelay <? delay then workRetryMaxDelay
        else retry_delay_loop fuel (current + 1) attempt delay
      else delay
  end.

(** server/internal/store/work.go:311-320 [workRetryDelay] *)
Definition workRetryDelay (attempt : Z) : Z := retry_delay_loop 12 1 attempt workRetryBaseDelay.

(** [strings.ToValidUTF8(s, U+FFFD)]: each run of invalid bytes becomes one
    replacement character. *)
Definition replacement : list Z := [239; 191; 189].

Fixpoint to_valid_fuel (fuel : nat) (invalid : bool) (bs : list Z) : list Z :=
  match fuel, bs with
  | S fuel', b :: _ =>
      let '(_, k) := decode_rune bs in
      if (128 <=? b) && (k =? 1)%nat
      then (if invalid then [] else replacement) ++ to_valid_fuel fuel' true (drop 1 bs)
      else take k bs ++ to_valid_fuel fuel' false (drop k bs)
  | _, _ => []
  end.

Definition to_valid_utf8 (bs : list Z) : list Z := to_valid_fuel (length bs) false bs.

Definition valid_bytes (bs : list Z) : bool := valid_utf8_fuel (length bs) bs.

(** The loop that cuts bytes off the end until the text is valid; the empty
    text is. *)
Fixpoint cut_until_valid (fuel : nat) (bs : list Z) : list Z :=
  match fuel with
  | O => bs
  | S fuel => if valid_bytes bs then bs else cut_until_valid fuel (take (length bs - 1) bs)
  end.

(** server/internal/store/work.go:322-332 [boundedWorkError], on the bytes of
    the error's text *)
Definition boundedWorkError (text : list Z) : list Z :=
  let message := to_valid_utf8 text in
  if zlen message <=? maxWorkErrorBytes then message
  else
    let message := take (Z.to_nat maxWorkErrorBytes) message in
    cut_until_valid (length message) message.

(** ** One run of a worker *)

(** What a handler does; a panic is recovered by [invokeWorkHandler]. *)
Inductive HandlerOutcome := HandlerOk | HandlerErr (text : string) | HandlerPanic.

(** server/internal/store/work.go:302-309 [invokeWorkHandler] *)
Definition invokeWorkHandler (o : HandlerOutcome) : option string :=
  match o with
  | HandlerOk => None
  | HandlerErr text => Some text
  | HandlerPanic => Some "work handler panicked"%string
  end.

(** A row is due: it may still be attempted and both of its times have come. *)
Definition due (now : time) (r : WorkRow) : bool :=
  (wr_Attempts r <? w_MaxAttempts (wr_Work r)) && (w_RunAt (wr_Work r) <=? now)
  && match wr_NextAttemptAt r with None => true | Some t => t <=? now end.

(** The [ORDER BY] of the claim, ties broken in the database's text order. *)
Definition claim_lt (le : string -> string -> bool) (a b : WorkItem) : bool :=
  let ta := default (w_RunAt (wr_Work a.2)) (wr_NextAttemptAt a.2) in
  let tb := default (w_RunAt (wr_Work b.2)) (wr_NextAttemptAt b.2) in
  (ta <? tb)
  || ((ta =? tb) && ((wr_CreatedAt a.2 <? wr_CreatedAt b.2)
      || ((wr_CreatedAt a.2 =? wr_CreatedAt b.2)
          && (key_ltb le a.1.1 b.1.1 || (bool_decide (a.1.1 = b.1.1) && text_lt le a.1.2 b.1.2))))).

(** [ORDER BY ... LIMIT 1]. *)
Definition first_claim (le : string -> string -> bool) : list WorkItem -> option WorkItem :=
  foldr (fun i best => match best with
                       | None => Some i
                       | Some b => if claim_lt le b i then Some b else Some i
                       end) None.

(** server/internal/store/queries/work.sql:16-26 [ClaimDueWork]; [locked] are
    the rows other transactions hold *)
Definition ClaimDueWork (le : string -> string -> bool) (now : time) (locked : WorkKey -> bool)
    (tbl : WorkTable) : option WorkItem :=
  let candidates := filter (fun i => due now i.2 = true /\ locked i.1 = false) (map_to_list tbl) in
  first_claim le candidates.

(** server/internal/store/queries/work.sql:35-46 [RecordWorkFailure] *)
Definition RecordWorkFailure (now : time) (delaySeconds : Z) (text : string) (key : WorkKey)
    (tbl : WorkTable) : result goerr (Z * WorkTable) :=
  text_param text ≫= fun _ =>
  or_err (tbl !! key) (ESentinel "ErrNoRows") ≫= fun r =>
  let r' := mkWorkRow (wr_Work r) (wr_Attempts r + 1) (Some (now + delaySeconds * second))
              (Some text) (wr_CreatedAt r) in
  Ok (wr_Attempts r', <[key := r']> tbl).

(** server/internal/store/queries/work.sql:28-33 [CompleteWork] *)
Definition CompleteWork (key : WorkKey) (tbl : WorkTable) : Z * WorkTable :=
  (if bool_decide (tbl !! key = None) then 0 else 1, delete key tbl).

(** What the database and the clock do during one run; the row lock keeps
    other writers off the claimed row. *)
Record RunEnv := mkRunEnv {
  re_ctx_err : option goerr;
  re_begin : option goerr;
  re_lock : result goerr bool;
  re_claim_fault : option goerr;
  re_claim_at : time;
  re_locked : WorkKey -> bool;
  re_finish_fault : option goerr;
  re_finish_at : time;
  re_commit : commit_outcome;
  re_rollback : option goerr;
}.

(** The state after a run, whether an item was processed, and the error. *)
Definition RunResult : Type := WorkTable * (bool * option goerr).

(** A return before the commit: the deferred rollback discards the
    transaction and its own failure is joined. *)
Definition run_rolled (env : RunEnv) (tbl : WorkTable) (processed : bool) (e : option goerr) : RunResult :=
  (tbl, (processed, join_opt e (EWrap "store: roll back transaction" <$> re_rollback env))).

(** A return after [tx.Commit]: the transaction is closed. *)
Definition run_commit (env : RunEnv) (tbl tbl' : WorkTable) (ok : option goerr) (failed : goerr -> goerr)
    : RunResult :=
  match re_commit env with
  | Committed => (tbl', (true, ok))
  | CommitFailed e => (tbl, (true, Some (failed e)))
  | CommitLost e => (tbl', (true, Some (failed e)))
  end.

(** The registered handler's error, or the one of a kind without a handler. *)
Definition handle_item (handlers : gmap string (WorkItem -> HandlerOutcome)) (item : WorkItem) : option string :=
  match handlers !! item.1.2 with
  | None => Some ("store: no work handler registered for kind " +:+ item.1.2)
  | Some handler => invokeWorkHandler (handler item)
  end.

(** server/internal/store/work.go:175-205 [WorkQueue.RunOnce]: the handler failed *)
Definition run_failure (env : RunEnv) (tbl : WorkTable) (item : WorkItem) (text : string) : RunResult :=
  let failure := EWrap "store: process work" (EMsg text) in
  let delay := workRetryDelay (wr_Attempts item.2 + 1) / second in
  let recorded :=
    may_fault (re_finish_fault env) ≫= fun _ =>
    RecordWorkFailure (re_finish_at env) delay (string_of_bytes (boundedWorkError (bytes text))) item.1 tbl in
  match recorded with
  | Err e => run_rolled env tbl true (Some (EJoin failure (EWrap "store: record work failure" e)))
  | Ok (attempts, tbl') =>
      if negb (attempts =? wr_Attempts item.2 + 1)
      then run_rolled env tbl true (Some (EMsg "store: record work failure advanced attempts"))
      else run_commit env tbl tbl' (Some failure) (fun e => EJoin failure (EWrap "store: commit work failure" e))
  end.

(** server/internal/store/work.go:207-226 [WorkQueue.RunOnce]: the handler succeeded *)
Definition run_success (env : RunEnv) (tbl : WorkTable) (item : WorkItem) : RunResult :=
  let '(deleted, tbl') := CompleteWork item.1 tbl in
  match re_finish_fault env with
  | Some e => run_rolled env tbl true (Some (EWrap "store: complete work" e))
  | None =>
      if negb (deleted =? 1)
      then run_rolled env tbl true (Some (EMsg "store: complete work deleted other than 1 row"))
      else run_commit env tbl tbl' None (EWrap "store: commit completed work")
  end.

(** server/internal/store/work.go:125-174 [WorkQueue.RunOnce]; [q] is [false]
    for a nil queue or pool, [ctx] for a nil context *)
Definition RunOnce (le : string -> string -> bool) (handlers : gmap string (WorkItem -> HandlerOutcome))
    (q ctx : bool) (env : RunEnv) (tbl : WorkTable) : RunResult :=
  if negb q then (tbl, (false, Some (EMsg "store: nil work queue")))
  else if negb ctx then (tbl, (false, Some (EMsg "store: nil work-queue context")))
  else match re_ctx_err env with
  | Some e => (tbl, (false, Some (EWrap "store: work-queue context" e)))
  | None =>
  match re_begin env with
  | Some e => (tbl, (false, Some (EWrap "store: begin work transaction" e)))
  | None =>
  match re_lock env with
  | Err e => run_rolled env tbl false (Some (EWrap "store: acquire work-queue advisory lock" e))
  | Ok false => run_rolled env tbl false None
  | Ok true =>
  match re_claim_fault env with
  | Some e => run_rolled env tbl false (Some (EWrap "store: claim due work" e))
  | None =>
  match ClaimDueWork le (re_claim_at env) (re_locked env) tbl with
  | None => run_rolled env tbl false None
  | Some item =>
      match handle_item handlers item with
      | Some text => run_failure env tbl item text
      | None => run_success env tbl item
      end
  end end end end end.

(** server/internal/store/work.go:229-242 [WorkQueue.Stats] *)
Definition Stats (tbl : WorkTable) : Z * Z :=
  (zlen (map_to_list tbl),
   zlen (filter (fun i => w_MaxAttempts (wr_Work i.2) <= wr_Attempts i.2) (map_to_list tbl))).

(** ** UTF-8 of the stored error text *)

Lemma valid_fuel_enough m n bs :
  (length bs <= m)%nat -> (length bs <= n)%nat -> valid_utf8_fuel n bs = valid_utf8_fuel m bs.
Proof.
  revert n bs. induction m as [|m IH]; intros n [|b bs] Hm Hn; cbn [length] in Hm, Hn; try lia;
    [by destruct n..|].
  destruct n as [|n]; [lia|]. cbn [valid_utf8_fuel].
  destruct (decode_rune (b :: bs)) as [r k] eqn:E. f_equal.
  assert (1 <= k)%nat.
  { destruct (decide (b < 128)) as [Hlt|Hge].
    - revert E. cbn [decode_rune]. rewrite (proj2 (Z.ltb_lt _ _) Hlt). intros [= <- <-]. lia.
    - destruct (decode_rune_high b bs) as (_ & H & _); [lia|]. by rewrite E in H. }
  apply IH; rewrite length_drop; cbn [length]; lia.
Qed.

Lemma valid_fuel_ge n bs : (length bs <= n)%nat -> valid_utf8_fuel n bs = valid_bytes bs.
Proof. intros. by apply valid_fuel_enough. Qed.

(** A decoding step either reports one invalid byte or consumes a whole rune,
    and then what follows the rune does not matter. *)
Definition whole_rune (bs : list Z) (r : Z) (k : nat) : Prop :=
  (1 <= k <= length bs)%nat /\ forall rest, decode_rune (take k bs ++ rest) = (r, k).

Lemma decode_rune_cases b bs r k :
  decode_rune (b :: bs) = (r, k) ->
  (128 <= b /\ r = rune_error /\ k = 1%nat)
  \/ (whole_rune (b :: bs) r k /\ (b < 128 /\ k = 1%nat \/ 128 <= b /\ (2 <= k)%nat)).
Proof.
  intros E. assert (rune_error = r /\ 1%nat = k -> b <? 128 = false ->
    128 <= b /\ r = rune_error /\ k = 1%nat) as Herr by (intros [<- <-] ?; prop_bools; auto).
  unfold whole_rune. revert E. cbn [decode_rune]. destruct (b <? 128) eqn:E0.
  { intros [= <- <-]. right. split; [|prop_bools; auto].
    split; [cbn; lia|]. intros rest. cbn. by rewrite E0. }
  assert (128 <= b) as Hb by (prop_bools; lia).
  destruct (in_range 194 223 b) eqn:E1; [|destruct (in_range 224 239 b) eqn:E2;
    [|destruct (in_range 240 244 b) eqn:E3]].
  - destruct bs as [|b1 bs]; [intros [= ? ?]; left; auto|].
    destruct (continuation b1) eqn:C; [|intros [= ? ?]; left; auto]. intros [= <- <-].
    right. split; [split; [cbn; lia|]|auto]. intros rest. cbn. by rewrite E0, E1, C.
  - destruct bs as [|b1 [|b2 bs]]; [intros [= ? ?]; left; auto..|].
    destruct (second_byte_ok b b1 && continuation b2) eqn:C; [|intros [= ? ?]; left; auto]. intros [= <- <-].
    right. split; [split; [cbn; lia|]|auto]. intros rest. cbn [take app decode_rune]. by rewrite E0, E1, E2, C.
  - destruct bs as [|b1 [|b2 [|b3 bs]]]; [intros [= ? ?]; left; auto..|].
    destruct (second_byte_ok b b1 && continuation b2 && continuation b3) eqn:C; [|intros [= ? ?]; left; auto].
    intros [= <- <-]. right. split; [split; [cbn; lia|]|auto]. intros rest.
    cbn [take app decode_rune]. by rewrite E0, E1, E2, E3, C.
  - intros [= ? ?]. left. auto.
Qed.

Lemma decode_width b bs r k : decode_rune (b :: bs) = (r, k) -> (1 <= k)%nat.
Proof. intros [(_ & _ & ->)|[[? _] _]]%decode_rune_cases; lia. Qed.

Lemma valid_bytes_step bs r k :
  whole_rune bs r k -> (r, k) <> (rune_error, 1%nat) ->
  forall rest, valid_bytes (take k bs ++ rest) = valid_bytes rest.
Proof.
  intros [Hk Hd] Hne rest. unfold valid_bytes at 1.
  destruct (take k bs ++ rest) as [|b l] eqn:El.
  { apply (f_equal length) in El. rewrite length_app, length_take in El. cbn in El. lia. }
  cbn [length valid_utf8_fuel]. rewrite <- El, Hd.
  replace (negb ((r =? rune_error) && (k =? 1)%nat)) with true.
  2:{ symmetry. apply negb_true_iff, andb_false_iff.
      destruct (r =? rune_error) eqn:E1, (k =? 1)%nat eqn:E2; auto.
      apply Z.eqb_eq in E1. apply Nat.eqb_eq in E2. by subst. }
  rewrite drop_app_length'. 2:{ rewrite length_take; lia. } apply valid_fuel_ge.
  apply (f_equal length) in El. rewrite length_app, length_take in El. cbn [length] in El. lia.
Qed.

Lemma to_valid_fuel_valid n inv bs : valid_bytes (to_valid_fuel n inv bs) = true.
Proof.
  revert inv bs. induction n as [|n IH]; intros inv [|b bs]; [done..|].
  cbn [to_valid_fuel]. destruct (decode_rune (b :: bs)) as [r k] eqn:E.
  destruct ((128 <=? b) && (k =? 1)%nat) eqn:C.
  - destruct inv; [apply IH|].
    change replacement with (take 3 replacement).
    rewrite (valid_bytes_step replacement 65533 3%nat); [apply IH| |done]. split; [cbn; lia|done].
  - apply decode_rune_cases in E as [(Hb & _ & ->)|[Hw Hk]].
    { rewrite (proj2 (Z.leb_le _ _) Hb) in C. done. }
    rewrite (valid_bytes_step (b :: bs) r k); [apply IH|done|].
    intros [= -> ->]. destruct Hk as [[Hb _]|[_ ?]]; [|lia].
    destruct Hw as [_ Hw]. specialize (Hw []). cbn in Hw.
    rewrite (proj2 (Z.ltb_lt _ _) Hb) in Hw. injection Hw as ->. done.
Qed.

(** A text that is valid already is kept as it is. *)
Lemma to_valid_fuel_id n inv bs :
  (length bs <= n)%nat -> valid_bytes bs = true -> to_valid_fuel n inv bs = bs.
Proof.
  revert inv bs. induction n as [|n IH]; intros inv [|b bs] Hn Hv; cbn [length] in Hn; try done; try lia.
  cbn [to_valid_fuel]. unfold valid_bytes in Hv. cbn [length valid_utf8_fuel] in Hv.
  destruct (decode_rune (b :: bs)) as [r k] eqn:E. prop_bools.
  pose proof (decode_width _ _ _ _ E) as Hk1.
  apply decode_rune_cases in E as [(Hb & -> & ->)|[Hw Hk]]; [done|].
  replace ((128 <=? b) && (k =? 1)%nat) with false.
  2:{ symmetry. apply andb_false_iff. destruct Hk as [[? _]|[_ ?]];
      [left; apply Z.leb_gt; lia|right; apply Nat.eqb_neq; lia]. }
  rewrite IH; [apply take_drop|rewrite length_drop; cbn [length]; lia|].
  rewrite valid_fuel_ge in H0; [done|]. rewrite length_drop. cbn [length]. lia.
Qed.

Lemma cut_until_valid_ok n bs :
  (length bs <= n)%nat ->
  valid_bytes (cut_until_valid n bs) = true /\ cut_until_valid n bs `prefix_of` bs.
Proof.
  revert bs. induction n as [|n IH]; intros bs Hn; cbn [cut_until_valid].
  { by destruct bs; [|cbn in Hn; lia]. }
  destruct (valid_bytes bs) eqn:E; [done|].
  assert (0 < length bs)%nat by (destruct bs; [done|cbn; lia]).
  destruct (IH (take (length bs - 1) bs)) as [? Hp]; [rewrite length_take; lia|].
  split; [done|]. etrans; [exact Hp|apply prefix_take].
Qed.

(** ** Retry delays *)

Lemma retry_delay_loop_spec fuel current attempt delay :
  0 < delay <= workRetryMaxDelay -> current <= attempt ->
  workRetryMaxDelay <= delay * 2 ^ Z.of_nat fuel ->
  retry_delay_loop fuel current attempt delay
  = Z.min workRetryMaxDelay (delay * 2 ^ (attempt - current)).
Proof.
  revert current delay. induction fuel as [|fuel IH]; intros current delay Hd Hc Hf; cbn [retry_delay_loop].
  { rewrite Z.pow_0_r in Hf. assert (0 < 2 ^ (attempt - current)) by (apply Z.pow_pos_nonneg; lia). nia. }
  rewrite Nat2Z.inj_succ, Z.pow_succ_r in Hf by lia.
  destruct (current <? attempt) eqn:E1; cbn [andb]; prop_bools.
  2:{ replace (attempt - current) with 0 by lia. lia. }
  assert (2 ^ (attempt - current) = 2 * 2 ^ (attempt - (current + 1))) as Hp.
  { rewrite <- Z.pow_succ_r by lia. f_equal. lia. }
  assert (0 < 2 ^ (attempt - (current + 1))) by (apply Z.pow_pos_nonneg; lia).
  destruct (delay <? workRetryMaxDelay) eqn:E2; prop_bools; [|nia]. cbv zeta.
  destruct (workRetryMaxDelay <? delay * 2) eqn:E3; prop_bools; [nia|].
  rewrite IH by lia. f_equal. rewrite Hp. lia.
Qed.

Lemma workRetryDelay_seconds attempt : workRetryDelay attempt / second * second = workRetryDelay attempt.
Proof.
  destruct (decide (1 <= attempt)) as [Ha|Ha].
  - unfold workRetryDelay. rewrite retry_delay_loop_spec; [|done|done|by vm_compute].
    assert (0 < 2 ^ (attempt - 1)) by (apply Z.pow_pos_nonneg; lia).
    change workRetryMaxDelay with (3600 * second). change workRetryBaseDelay with (5 * second).
    assert (Z.min (3600 * second) (5 * second * 2 ^ (attempt - 1))
            = Z.min 3600 (5 * 2 ^ (attempt - 1)) * second) as ->; [|by rewrite Z.div_mul].
    unfold second. lia.
  - unfold workRetryDelay. cbn [retry_delay_loop].
    destruct (1 <? attempt) eqn:E; prop_bools; [lia|]. by cbn [andb].
Qed.

(** The delay after the k-th failed attempt is 5 s doubled k-1 times and
    capped at one hour: for every attempt count the loop computes exactly
    min(1 h, 5 s * 2^(k-1)), it never shrinks from one attempt to the next, and
    it is a whole number of seconds, so the truncating division that hands it
    to the database loses nothing. *)
Theorem workRetryDelay_exact (attempt : Z) :
  1 <= attempt ->
  workRetryDelay attempt = Z.min workRetryMaxDelay (workRetryBaseDelay * 2 ^ (attempt - 1))
  /\ workRetryBaseDelay <= workRetryDelay attempt <= workRetryMaxDelay
  /\ workRetryDelay attempt <= workRetryDelay (attempt + 1)
  /\ workRetryDelay attempt / second * second = workRetryDelay attempt.
Proof.
  intros Ha. assert (forall a, 1 <= a ->
    workRetryDelay a = Z.min workRetryMaxDelay (workRetryBaseDelay * 2 ^ (a - 1))) as Hex.
  { intros a Ha'. apply retry_delay_loop_spec; [done|done|]. by vm_compute. }
  assert (0 < 2 ^ (attempt - 1)) by (apply Z.pow_pos_nonneg; lia).
  rewrite !Hex by lia. split_and!; [done| | | |].
  - change workRetryMaxDelay with 3600000000000. change workRetryBaseDelay with 5000000000. lia.
  - lia.
  - replace (attempt + 1 - 1) with (Z.succ (attempt - 1)) by lia. rewrite Z.pow_succ_r by lia.
    change workRetryBaseDelay with 5000000000. lia.
  - rewrite <- Hex by lia. apply workRetryDelay_seconds.
Qed.

Lemma workRetryDelay_exact_witness : workRetryDelay 4 / second * second = 40 * second.
Proof. etransitivity; [apply (workRetryDelay_exact 4); lia|reflexivity]. Defined.

(** ** The stored error text *)

Lemma boundedWorkError_length text : zlen (boundedWorkError text) <= maxWorkErrorBytes.
Proof.
  unfold boundedWorkError. cbv zeta. destruct (zlen (to_valid_utf8 text) <=? maxWorkErrorBytes) eqn:E; prop_bools; [done|].
  set (m := take (Z.to_nat maxWorkErrorBytes) (to_valid_utf8 text)).
  assert (zlen m <= maxWorkErrorBytes).
  { unfold zlen, m. rewrite length_take. change (Z.to_nat maxWorkErrorBytes) with 4096%nat.
    unfold maxWorkErrorBytes. lia. }
  destruct (cut_until_valid_ok _ m (le_n _)) as [_ Hp%prefix_length]. unfold zlen in *. lia.
Qed.

Lemma boundedWorkError_valid text : valid_bytes (boundedWorkError text) = true.
Proof.
  unfold boundedWorkError. cbv zeta. destruct (zlen (to_valid_utf8 text) <=? maxWorkErrorBytes).
  - apply to_valid_fuel_valid.
  - by apply cut_until_valid_ok.
Qed.

Lemma boundedWorkError_id text :
  valid_bytes text = true -> zlen text <= maxWorkErrorBytes -> boundedWorkError text = text.
Proof.
  intros Hv Hl. unfold boundedWorkError, to_valid_utf8. rewrite (to_valid_fuel_id _ _ text) by done. cbv zeta.
  by rewrite (proj2 (Z.leb_le _ _) Hl).
Qed.

(** ** The claim picks the first due row *)

Section Claim.
Context (le : string -> string -> bool) `{!Collation le}.

Definition claim_time (i : WorkItem) : time := default (w_RunAt (wr_Work i.2)) (wr_NextAttemptAt i.2).

Lemma claim_lt_spec a b :
  claim_lt le a b = true <->
  claim_time a < claim_time b
  \/ (claim_time a = claim_time b /\
      (wr_CreatedAt a.2 < wr_CreatedAt b.2
       \/ (wr_CreatedAt a.2 = wr_CreatedAt b.2 /\
           (key_ltb le a.1.1 b.1.1 = true
            \/ (a.1.1 = b.1.1 /\ le a.1.2 b.1.2 = true /\ a.1.2 <> b.1.2))))).
Proof.
  unfold claim_lt. fold (claim_time a) (claim_time b). cbv zeta.
  rewrite !orb_true_iff, !andb_true_iff, !orb_true_iff, !andb_true_iff, !orb_true_iff, !andb_true_iff,
    bool_decide_eq_true, text_lt_spec, !Z.ltb_lt, !Z.eqb_eq. done.
Qed.

Lemma claim_lt_irrefl a : claim_lt le a a = false.
Proof.
  apply not_true_iff_false. rewrite claim_lt_spec, key_ltb_irrefl. intuition (lia || congruence).
Qed.

Lemma claim_lt_trans a b c : claim_lt le a b = true -> claim_lt le b c = true -> claim_lt le a c = true.
Proof.
  rewrite !claim_lt_spec. intros [?|(? & [?|(? & Hab)])] [?|(? & [?|(? & Hbc)])]; try (left; lia).
  - right. split; [lia|]. left. lia.
  - right. split; [lia|]. left. lia.
  - right. split; [lia|]. left. lia.
  - right. split; [lia|]. right. split; [lia|].
    destruct Hab as [Hab|(Eab & Hab & Nab)], Hbc as [Hbc|(Ebc & Hbc & Nbc)].
    + left. by eapply key_ltb_trans.
    + left. by rewrite <- Ebc.
    + left. by rewrite Eab.
    + right. split; [congruence|]. split; [by eapply collation_trans|]. intros Heq. rewrite Heq in *.
      by apply Nab, (collation_antisym (le := le)).
Qed.

Lemma claim_trichotomy a b : claim_lt le a b = true \/ a.1 = b.1 \/ claim_lt le b a = true.
Proof.
  rewrite !claim_lt_spec. destruct (Z.lt_trichotomy (claim_time a) (claim_time b)) as [?|[Et|?]]; [left; auto| |right; right; auto].
  destruct (Z.lt_trichotomy (wr_CreatedAt a.2) (wr_CreatedAt b.2)) as [?|[Ec|?]]; [left; auto| |right; right; auto].
  destruct (key_trichotomy le a.1.1 b.1.1) as [?|[Ek|?]]; [left; auto 6| |right; right; auto 8].
  destruct (decide (a.1.2 = b.1.2)) as [En|Hn].
  { right. left. destruct a as [[] ?], b as [[] ?]. cbn in *. by subst. }
  destruct (collation_total (le := le) a.1.2 b.1.2); [left; auto 10|right; right; right; auto 12].
Qed.

(** The fold keeps an item that no other item precedes. *)
Lemma claim_fold_least (l : list WorkItem) :
  NoDup l.*1 ->
  match first_claim le l with
  | None => l = []
  | Some b => b ∈ l /\ forall x, x ∈ l -> claim_lt le x b = false
  end.
Proof.
  assert (forall a b, claim_lt le a b = true -> claim_lt le b a = false) as Hasym.
  { intros a b H. apply not_true_iff_false. intros H'. pose proof (claim_lt_trans _ _ _ H H') as Hc.
    by rewrite claim_lt_irrefl in Hc. }
  induction l as [|i l IH]; [done|]. rewrite fmap_cons. intros [Hi Hnd]%NoDup_cons. unfold first_claim. cbn [foldr]. fold (first_claim le l).
  specialize (IH Hnd). destruct (first_claim le l) as [b|].
  2:{ subst l. split; [left|]. intros x ->%list_elem_of_singleton. apply claim_lt_irrefl. }
  destruct IH as [Hin Hmin]. destruct (claim_lt le b i) eqn:E.
  - split; [by right|]. intros x [->|Hx]%elem_of_cons; auto.
  - split; [left|]. intros x [->|Hx]%elem_of_cons; [apply claim_lt_irrefl|].
    apply not_true_iff_false. intros Hxi. destruct (claim_trichotomy i b) as [H|[H|H]].
    + pose proof (claim_lt_trans _ _ _ Hxi H) as Hc. by rewrite Hmin in Hc.
    + apply Hi. rewrite H. by apply list_elem_of_fmap_2.
    + by rewrite E in H.
Qed.

(** What the claim returns: a due row nobody holds, before all others. *)
Definition first_due (now : time) (locked : WorkKey -> bool) (tbl : WorkTable) (item : WorkItem) : Prop :=
  tbl !! item.1 = Some item.2 /\ due now item.2 = true /\ locked item.1 = false
  /\ forall k r, tbl !! k = Some r -> due now r = true -> locked k = false -> claim_lt le (k, r) item = false.

Lemma ClaimDueWork_spec now locked tbl :
  match ClaimDueWork le now locked tbl with
  | Some item => first_due now locked tbl item
  | None => forall k r, tbl !! k = Some r -> locked k = false -> due now r = false
  end.
Proof.
  unfold ClaimDueWork. set (l := filter _ _).
  assert (forall k r, (k, r) ∈ l <-> (due now r = true /\ locked k = false) /\ tbl !! k = Some r) as Hl.
  { intros k r. unfold l. rewrite list_elem_of_filter.
    pose proof (elem_of_map_to_list (M := gmap WorkKey) tbl k r). naive_solver. }
  assert (NoDup l.*1) as Hnd.
  { apply (sublist_NoDup _ (map_to_list tbl).*1); [|apply fmap_sublist, sublist_filter].
    apply (NoDup_fst_map_to_list (M := gmap WorkKey)). }
  pose proof (claim_fold_least l Hnd) as Hf. destruct (first_claim le l) as [[k r]|].
  - destruct Hf as [Hin Hmin]. apply Hl in Hin as [[? ?] ?].
    split_and!; [done..|]. intros k' r' ???. apply Hmin, Hl. auto.
  - intros k r Hk Hn. apply not_true_iff_false. intros Hd.
    assert ((k, r) ∈ l) as H by (by apply Hl). rewrite Hf in H. set_solver.
Qed.
End Claim.

(** ** What one run does *)

(** The row after a failed attempt. *)
Definition failed_row (env : RunEnv) (text : string) (r : WorkRow) : WorkRow :=
  mkWorkRow (wr_Work r) (wr_Attempts r + 1)
    (Some (re_finish_at env + workRetryDelay (wr_Attempts r + 1)))
    (Some (string_of_bytes (boundedWorkError (bytes text)))) (wr_CreatedAt r).

(** The two ends of a run that claimed an item: the state is the old one or
    the one its commit installs. *)
Lemma run_failure_state env tbl item text tbl' p err :
  tbl !! item.1 = Some item.2 ->
  run_failure env tbl item text = (tbl', (p, err)) ->
  p = true /\ is_Some err
  /\ (tbl' = tbl \/ tbl' = <[item.1 := failed_row env text item.2]> tbl)
  /\ (re_finish_fault env = None -> re_commit env = Committed ->
      contains_byte "000" (string_of_bytes (boundedWorkError (bytes text))) = false ->
      tbl' = <[item.1 := failed_row env text item.2]> tbl).
Proof.
  intros Hk. unfold run_failure, RecordWorkFailure. cbv zeta. rewrite Hk.
  destruct (re_finish_fault env) as [e|] eqn:Ef.
  { intros [= <- <- <-]. split_and!; [done|by destruct (re_rollback env)|by left|done]. }
  unfold text_param. destruct (contains_byte _ _) eqn:Ec; cbn [mbind result_bind may_fault fail_if or_err].
  { intros [= <- <- <-]. split_and!; [done|by destruct (re_rollback env)|by left|done]. }
  cbn [wr_Attempts]. rewrite Z.eqb_refl. cbn [negb]. rewrite workRetryDelay_seconds.
  fold (failed_row env text item.2). unfold run_commit.
  destruct (re_commit env); intros [= <- <- <-]; split_and!; eauto; done.
Qed.

Lemma run_success_state env tbl item tbl' p err :
  tbl !! item.1 = Some item.2 ->
  run_success env tbl item = (tbl', (p, err)) ->
  p = true /\ (tbl' = tbl \/ tbl' = delete item.1 tbl) /\ (err = None -> tbl' = delete item.1 tbl)
  /\ (re_finish_fault env = None -> re_commit env = Committed -> err = None).
Proof.
  intros Hk. unfold run_success, CompleteWork. rewrite bool_decide_false by congruence.
  destruct (re_finish_fault env) as [e|] eqn:Ef; cbn [Z.eqb Pos.eqb negb].
  { intros [= <- <- <-]. split_and!; [done|by left|by destruct (re_rollback env)|done]. }
  unfold run_commit. destruct (re_commit env); intros [= <- <- <-]; split_and!; auto; done.
Qed.

(** C16. One run of a worker claims at most one item, and only a due row that no
    other transaction holds and that comes before every other such row; if
    such a row exists, the lock was free and the database answered, it does
    claim one.  Rows other than the claimed one never change.  The claimed row
    is deleted only after its handler returned nil (delivery is at least
    once), it certainly is deleted when the run reports success, and a handler
    that failed, panicked or is not registered leaves the row in place:
    unchanged, or with one more attempt and its next attempt a full retry delay
    away.  A run that processed nothing changes nothing. *)
Theorem RunOnce_processes_first_due (le : string -> string -> bool) (Hle : Collation le)
    (handlers : gmap string (WorkItem -> HandlerOutcome)) (q ctx : bool) (env : RunEnv) (tbl tbl' : WorkTable)
    (processed : bool) (err : option goerr) :
  RunOnce le handlers q ctx env tbl = (tbl', (processed, err)) ->
  (processed = false -> tbl' = tbl)
  /\ (processed = true -> exists item,
       first_due le (re_claim_at env) (re_locked env) tbl item
       /\ (forall k, k <> item.1 -> tbl' !! k = tbl !! k)
       /\ match handle_item handlers item with
          | None => (tbl' = tbl \/ tbl' = delete item.1 tbl) /\ (err = None -> tbl' = delete item.1 tbl)
                    /\ (re_finish_fault env = None -> re_commit env = Committed -> err = None)
          | Some text =>
              is_Some err /\ (tbl' = tbl \/ tbl' = <[item.1 := failed_row env text item.2]> tbl)
              /\ (re_finish_fault env = None -> re_commit env = Committed ->
                  contains_byte "000" (string_of_bytes (boundedWorkError (bytes text))) = false ->
                  tbl' = <[item.1 := failed_row env text item.2]> tbl)
          end)
  /\ (q = true -> ctx = true -> re_ctx_err env = None -> re_begin env = None -> re_lock env = Ok true ->
      re_claim_fault env = None ->
      (exists k r, tbl !! k = Some r /\ re_locked env k = false /\ due (re_claim_at env) r = true) ->
      processed = true).
Proof.
  unfold RunOnce, run_rolled. intros Hrun.
  destruct q; cbn [negb] in Hrun; [|by simplify_eq]. destruct ctx; cbn [negb] in Hrun; [|by simplify_eq].
  destruct (re_ctx_err env); [by simplify_eq|]. destruct (re_begin env); [by simplify_eq|].
  destruct (re_lock env) as [[]|]; [|by simplify_eq..]. destruct (re_claim_fault env); [by simplify_eq|].
  pose proof (ClaimDueWork_spec le (re_claim_at env) (re_locked env) tbl) as Hclaim.
  destruct (ClaimDueWork le (re_claim_at env) (re_locked env) tbl) as [item|].
  2:{ simplify_eq. split_and!; [done..|]. intros _ _ _ _ _ _ (k & r & Hk & Hl & Hd). by rewrite (Hclaim k r) in Hd. }
  assert (tbl !! item.1 = Some item.2) as Hk by apply Hclaim. revert Hrun.
  destruct (handle_item handlers item) as [text|] eqn:Hh.
  - intros (-> & He & Hst & Hok)%run_failure_state; [|done]. split_and!; [done| |done].
    intros _. exists item. rewrite Hh. split; [done|]. split; [|auto].
    intros k Hne. destruct Hst as [->| ->]; [done|]. by apply (lookup_insert_ne (M := gmap WorkKey)).
  - intros (-> & Hst & He & Hok)%run_success_state; [|done]. split_and!; [done| |done].
    intros _. exists item. rewrite Hh. split; [done|]. split; [|auto].
    intros k Hne. destruct Hst as [->| ->]; [done|]. by apply (lookup_delete_ne (M := gmap WorkKey)).
Qed.

(** ** Every row a history of the queue reaches *)

Lemma bytes_string_of_bytes l : Forall (fun b => 0 <= b < 256) l -> bytes (string_of_bytes l) = l.
Proof.
  induction 1 as [|b l Hb _ IH]; [done|]. unfold string_of_bytes in *. cbn [fmap list_fmap string_of_list_ascii].
  rewrite bytes_cons, byte_of_ascii by done. by f_equal.
Qed.

Lemma boundedWorkError_range text :
  Forall (fun b => 0 <= b < 256) text -> Forall (fun b => 0 <= b < 256) (boundedWorkError text).
Proof.
  intros Ht. assert (forall n inv bs, Forall (fun b => 0 <= b < 256) bs ->
    Forall (fun b => 0 <= b < 256) (to_valid_fuel n inv bs)) as Hv.
  { induction n as [|n IH]; intros inv [|b bs] Hb; cbn [to_valid_fuel]; [constructor..|].
    destruct (decode_rune (b :: bs)) as [r k]. case_match; apply Forall_app; split;
      [destruct inv; repeat constructor; lia| |by apply Forall_take|]; by apply IH, Forall_drop. }
  unfold boundedWorkError. cbv zeta. case_match; [by apply Hv|].
  destruct (cut_until_valid_ok _ (take (Z.to_nat maxWorkErrorBytes) (to_valid_utf8 text)) (le_n _)) as [_ [t Ht']].
  assert (Forall (fun b => 0 <= b < 256) (take (Z.to_nat maxWorkErrorBytes) (to_valid_utf8 text))) as Hall
    by (by apply Forall_take, Hv).
  rewrite Ht' in Hall. by apply Forall_app in Hall as [? _].
Qed.

(** The stored text of any error fits the column and is valid UTF-8. *)
Lemma stored_error_ok text :
  let s := string_of_bytes (boundedWorkError (bytes text)) in len s <= maxWorkErrorBytes /\ valid_utf8 s = true.
Proof.
  intros s. assert (bytes s = boundedWorkError (bytes text)) as Hs.
  { apply bytes_string_of_bytes, boundedWorkError_range, bytes_range. }
  pose proof (boundedWorkError_length (bytes text)). pose proof (boundedWorkError_valid (bytes text)).
  unfold valid_utf8, len. rewrite <- length_bytes, Hs. done.
Qed.

(** The CHECK constraints of the table, and the fields that agree with them. *)
Definition row_ok (k : WorkKey) (r : WorkRow) : Prop :=
  w_Kind (wr_Work r) = k.2 /\ validateWork (wr_Work r) = Ok tt
  /\ 0 <= wr_Attempts r <= w_MaxAttempts (wr_Work r)
  /\ (wr_NextAttemptAt r = None <-> wr_Attempts r = 0)
  /\ match wr_LastError r with
     | None => wr_Attempts r = 0
     | Some t => 0 < wr_Attempts r /\ len t <= maxWorkErrorBytes /\ valid_utf8 t = true
     end.

(** A history of the queue: projectors enqueue, workers run. *)
Inductive work_history (le : string -> string -> bool) (handlers : gmap string (WorkItem -> HandlerOutcome))
    : WorkTable -> Prop :=
| work_empty : work_history le handlers ∅
| work_enqueued tbl tx ctx fault now work tbl' :
    work_history le handlers tbl -> EnqueueWork tx ctx fault now work tbl = Ok tbl' ->
    work_history le handlers tbl'
| work_ran tbl q ctx env :
    work_history le handlers tbl -> work_history le handlers (RunOnce le handlers q ctx env tbl).1.

Lemma failed_row_ok env text k r now :
  row_ok k r -> due now r = true -> row_ok k (failed_row env text r).
Proof.
  intros (? & ? & ? & ? & ?) Hd. unfold due in Hd. prop_bools. unfold row_ok.
  cbn [failed_row wr_Work wr_Attempts wr_NextAttemptAt wr_LastError].
  split_and!; try done; try lia; [split; [done|lia]|apply stored_error_ok..].
Qed.

Lemma RunOnce_rows le `{!Collation le} handlers q ctx env tbl k r :
  (forall k r, tbl !! k = Some r -> row_ok k r) ->
  (RunOnce le handlers q ctx env tbl).1 !! k = Some r -> row_ok k r.
Proof.
  intros Hok. assert (forall p e, (run_rolled env tbl p e).1 = tbl) as Hroll by done.
  unfold RunOnce. destruct q; cbn [negb]; [|by apply Hok]. destruct ctx; cbn [negb]; [|by apply Hok].
  destruct (re_ctx_err env); [by apply Hok|]. destruct (re_begin env); [by apply Hok|].
  destruct (re_lock env) as [[]|]; [|by apply Hok..]. destruct (re_claim_fault env); [by apply Hok|].
  pose proof (ClaimDueWork_spec le (re_claim_at env) (re_locked env) tbl) as Hclaim.
  destruct (ClaimDueWork le (re_claim_at env) (re_locked env) tbl) as [item|]; [|by apply Hok].
  destruct Hclaim as (Hk & Hd & _). destruct (handle_item handlers item) as [text|].
  - destruct (run_failure env tbl item text) as [tbl' [p err]] eqn:E.
    apply run_failure_state in E as (_ & _ & [->| ->] & _); [by apply Hok| |done]. cbn [fst].
    intros [[<- <-]|[_ Hr]]%(lookup_insert_Some (M := gmap WorkKey)); [|by apply Hok].
    eapply failed_row_ok; eauto.
  - destruct (run_success env tbl item) as [tbl' [p err]] eqn:E.
    apply run_success_state in E as (_ & [->| ->] & _); [by apply Hok| |done]. cbn [fst].
    intros [_ Hr]%(lookup_delete_Some (M := gmap WorkKey)). by apply Hok.
Qed.

(** In every state that enqueueing and worker runs can reach, whatever the
    handlers return and wherever the database fails, each row satisfies the
    table's CHECK constraints: it is filed under its own kind, its payload and
    version passed validation, its attempts are between 0 and its maximum
    (itself between 1 and 100), it has a next attempt time and an error text
    exactly when an attempt has failed, and that text is valid UTF-8 of at most
    4096 bytes.  So no row is ever attempted more often than its maximum. *)
Theorem work_rows_stay_valid (le : string -> string -> bool) (Hle : Collation le)
    (handlers : gmap string (WorkItem -> HandlerOutcome)) (tbl : WorkTable) (k : WorkKey) (r : WorkRow) :
  work_history le handlers tbl -> tbl !! k = Some r ->
  row_ok k r /\ 1 <= w_MaxAttempts (wr_Work r) <= maxWorkAttempts.
Proof.
  intros Hh Hk. assert (row_ok k r) as Hok.
  { revert k r Hk. induction Hh as [|tbl tx ctx fault now work tbl' _ IH Hen|tbl q ctx env _ IH]; intros k r Hk.
    - by apply (lookup_empty_Some (M := gmap WorkKey)) in Hk.
    - unfold EnqueueWork, insert_work in Hen. destruct (skipWork tx); inv_result; [by apply IH|].
      destruct (tbl !! _) eqn:Et; inv_result.
      apply (lookup_insert_Some (M := gmap WorkKey)) in Hk as [[<- <-]|[_ Hk]]; [|by apply IH].
      destruct x1. unfold row_ok. cbn. split_and!; try done.
      + unfold validateWork in H1. inv_result. prop_bools. lia.
    - by eapply RunOnce_rows. }
  split; [done|]. destruct Hok as (_ & Hv & _). unfold validateWork in Hv. inv_result. prop_bools. lia.
Qed.

(** A handler error whose text contains a NUL byte is never recorded: the
    sanitised text is still no Postgres text value, the failing update rolls
    the run back, and so, whatever the environment, the row keeps its attempt
    count and its due time and is claimed again by the next run. *)
Theorem nul_error_is_never_recorded (le : string -> string -> bool)
    (handlers : gmap string (WorkItem -> HandlerOutcome)) (q ctx : bool) (env : RunEnv) (tbl : WorkTable) :
  (forall item, ClaimDueWork le (re_claim_at env) (re_locked env) tbl = Some item ->
   exists text, handle_item handlers item = Some text
     /\ valid_utf8 text = true /\ len text <= maxWorkErrorBytes /\ contains_byte "000" text = true) ->
  (RunOnce le handlers q ctx env tbl).1 = tbl.
Proof.
  intros Hnul. unfold RunOnce. destruct q; cbn [negb]; [|done]. destruct ctx; cbn [negb]; [|done].
  destruct (re_ctx_err env); [done|]. destruct (re_begin env); [done|].
  destruct (re_lock env) as [[]|]; [|done..]. destruct (re_claim_fault env); [done|].
  destruct (ClaimDueWork le (re_claim_at env) (re_locked env) tbl) as [item|]; [|done].
  destruct (Hnul item eq_refl) as (text & -> & Hv & Hl & Hc). unfold run_failure. cbv zeta.
  destruct (re_finish_fault env); [done|].
  rewrite boundedWorkError_id, string_of_bytes_of.
  - unfold RecordWorkFailure, text_param. by rewrite Hc.
  - unfold valid_utf8 in Hv. rewrite <- length_bytes in Hv. exact Hv.
  - unfold zlen. rewrite length_bytes. exact Hl.
Qed.

(** ** Concrete runs *)

(** One due row of kind [k], a handler that fails, and an undisturbed run. *)
Definition sample_key : WorkKey := (("device", "d1", 1), "revoke")%string.
Definition sample_work : Work := mkWork "revoke" 1 (Some "{}"%string) 10 3.
Definition sample_row : WorkRow := mkWorkRow sample_work 0 None None 5.
Definition sample_table : WorkTable := {[ sample_key := sample_row ]}.
Definition sample_env : RunEnv :=
  mkRunEnv None None (Ok true) None 20 (fun _ => false) None 21 Committed None.
Definition sample_handlers (o : HandlerOutcome) : gmap string (WorkItem -> HandlerOutcome) :=
  {[ "revoke"%string := fun _ => o ]}.

Lemma RunOnce_processes_first_due_witness :
  (RunOnce String.leb (sample_handlers (HandlerErr "boom")) true true sample_env sample_table).2.1 = true.
Proof.
  refine (proj2 (proj2 (RunOnce_processes_first_due String.leb byte_order_collation
    (sample_handlers (HandlerErr "boom")) true true sample_env sample_table _ _ _
    (eq_trans (surjective_pairing _) (f_equal (pair _) (surjective_pairing _))))) _ _ _ _ _ _ _);
    [reflexivity..|].
  exists sample_key, sample_row. split; [reflexivity|]. split; reflexivity.
Defined.

Lemma work_rows_stay_valid_witness :
  row_ok sample_key (failed_row sample_env "boom" sample_row).
Proof.
  refine (proj1 (work_rows_stay_valid String.leb byte_order_collation (sample_handlers (HandlerErr "boom"))
    (RunOnce String.leb (sample_handlers (HandlerErr "boom")) true true sample_env sample_table).1 _ _ _ _)).
  - apply work_ran.
    apply (work_enqueued _ _ ∅ (mkProjectionTx (Some (mkPersistedEvent (mkEvent "device" "d1" "DeviceRevoked" 1 None) 1 0)) false)
      true None 5 sample_work); [constructor|reflexivity].
  - reflexivity.
Defined.

Lemma nul_error_is_never_recorded_witness :
  (RunOnce String.leb (sample_handlers (HandlerErr (String "000" "boom"))) true true sample_env sample_table).1
  = sample_table.
Proof.
  refine (nul_error_is_never_recorded String.leb (sample_handlers (HandlerErr (String "000" "boom")))
    true true sample_env sample_table _).
  intros item Hi. exists (String "000" "boom").
  assert (Some item = Some (sample_key, sample_row)) as [= ->] by (rewrite <- Hi; reflexivity).
  split; [reflexivity|]. split; [reflexivity|]. split; [vm_compute; discriminate|reflexivity].
Defined.
