(* ===== verification/Refresh.v ===== *)
(** * [server/internal/store/refresh_families.go], [server/internal/auth/refresh.go]:
    rotating refresh tokens

    The two refresh tables and the projectors of the refresh-family events, then
    the service: [StartSession] and [Rotate] as programs whose reads, clock
    readings, mints and pinned appends are explicit operations, so that any
    number of calls can be interleaved, one operation at a time, over one
    database.  An append is the atomic compare-and-swap that EventStore.v shows
    a version-pinned append to be.  Event payloads are the decoded payload
    structs; hashes are byte strings. *)

From Stdlib Require Import Ascii String ZArith Lia.
From S2P Require Export WorkQueue TypedStore.

(** server/internal/store/refresh_families.go:18-25 [refreshFamilyStreamType] *)
Definition refreshFamilyStreamType : string := "refresh-family".
Definition maxRefreshSubjectBytes : Z := 1024.
Definition sha256_Size : Z := 32.

(** ** The tables *)

(** server/internal/store/migrations/014_refresh_families.sql:5-22 [refresh_families] *)
Record Family := mkFamily {
  fam_Subject : string;
  fam_ProjectionVersion : Z;
  fam_ActiveTokenHash : string;
  fam_Revoked : bool;
  fam_UpdatedAt : time;
}.

(** server/internal/store/migrations/014_refresh_families.sql:24-36 [refresh_tokens] *)
Record Token := mkToken {
  tok_FamilyID : string;
  tok_ExpiresAt : time;
  tok_Superseded : bool;
}.

(** The payloads of the three event types. *)
(** server/internal/store/refresh_families.go:42-56 [refreshFamilyStartedPayload] *)
Inductive refreshPayload :=
| refreshFamilyStartedPayload (Subject TokenHash : string) (ExpiresAt : time)
| refreshTokenRotatedPayload (PreviousTokenHash NextTokenHash : string) (ExpiresAt : time)
| refreshFamilyRevokedPayload (ReplayedTokenHash : string).

(** An event of a refresh-family stream, and the row of a committed one. *)
Record RefreshEvent := mkRefreshEvent { rf_FamilyID : string; rf_Payload : refreshPayload }.
Record RefreshRow := mkRefreshRow { rr_Event : RefreshEvent; rr_Version : Z; rr_CreatedAt : time }.

(** The part of the database this component owns. *)
Record RefreshDB := mkRefreshDB {
  rd_events : list RefreshRow;
  rd_families : gmap string Family;
  rd_tokens : gmap string Token;
}.

Definition empty_refresh_db : RefreshDB := mkRefreshDB [] ∅ ∅.

(** server/internal/store/refresh_families.go:30-40 [RefreshFamilyToken] *)
Record RefreshFamilyToken := mkRefreshFamilyToken {
  rft_FamilyID : string;
  rft_Subject : string;
  rft_Hash : string;
  rft_ActiveHash : string;
  rft_ExpiresAt : time;
  rft_Superseded : bool;
  rft_Revoked : bool;
  rft_ProjectionVersion : Z;
}.

(** ** Queries *)

Definition set_families (f : gmap string Family) (db : RefreshDB) : RefreshDB :=
  mkRefreshDB (rd_events db) f (rd_tokens db).
Definition set_tokens (t : gmap string Token) (db : RefreshDB) : RefreshDB :=
  mkRefreshDB (rd_events db) (rd_families db) t.

(** A unique constraint on the active hash. *)
Definition active_hash_taken (db : RefreshDB) (id hash : string) : bool :=
  bool_decide (Exists (fun p => p.1 <> id /\ fam_ActiveTokenHash p.2 = hash) (map_to_list (rd_families db))).

(** server/internal/store/queries/refresh_families.sql:1-16 [InsertRefreshFamily]
    under the table's constraints *)
Definition InsertRefreshFamily (id subject : string) (version : Z) (hash : string) (updatedAt : time)
    (db : RefreshDB) : result goerr RefreshDB :=
  fail_if (negb (is_ok (ULIDPathID id) && String.eqb (to_upper id) id))
    (EPg "23514" "refresh_families_family_id_ulid_check") ≫= fun _ =>
  fail_if (bool_decide (is_Some (rd_families db !! id))) (EPg "23505" "refresh_families_pkey") ≫= fun _ =>
  fail_if (active_hash_taken db id hash) (EPg "23505" "refresh_families_active_token_hash_key") ≫= fun _ =>
  Ok (set_families (<[id := mkFamily subject version hash false updatedAt]> (rd_families db)) db).

(** server/internal/store/queries/refresh_families.sql:18-29 [InsertRefreshToken] *)
Definition InsertRefreshToken (hash id : string) (expiresAt : time) (db : RefreshDB) : result goerr RefreshDB :=
  fail_if (bool_decide (is_Some (rd_tokens db !! hash))) (EPg "23505" "refresh_tokens_pkey") ≫= fun _ =>
  fail_if (bool_decide (rd_families db !! id = None)) (EPg "23503" "refresh_tokens_family_id_fkey") ≫= fun _ =>
  Ok (set_tokens (<[hash := mkToken id expiresAt false]> (rd_tokens db)) db).

(** server/internal/store/queries/refresh_families.sql:31-39
    [ProjectRefreshFamilyRotation]: the state and the affected rows *)
Definition ProjectRefreshFamilyRotation (id prev next : string) (version : Z) (updatedAt : time)
    (db : RefreshDB) : result goerr (RefreshDB * Z) :=
  match rd_families db !! id with
  | Some f =>
      if (fam_ProjectionVersion f <? version) && String.eqb (fam_ActiveTokenHash f) prev && negb (fam_Revoked f)
      then fail_if (active_hash_taken db id next) (EPg "23505" "refresh_families_active_token_hash_key") ≫= fun _ =>
           Ok (set_families (<[id := mkFamily (fam_Subject f) version next (fam_Revoked f) updatedAt]>
                               (rd_families db)) db, 1)
      else Ok (db, 0)
  | None => Ok (db, 0)
  end.

(** server/internal/store/queries/refresh_families.sql:41-46
    [ProjectRefreshTokenSuperseded] *)
Definition ProjectRefreshTokenSuperseded (id hash : string) (db : RefreshDB) : RefreshDB * Z :=
  match rd_tokens db !! hash with
  | Some t =>
      if String.eqb (tok_FamilyID t) id && negb (tok_Superseded t)
      then (set_tokens (<[hash := mkToken (tok_FamilyID t) (tok_ExpiresAt t) true]> (rd_tokens db)) db, 1)
      else (db, 0)
  | None => (db, 0)
  end.

(** server/internal/store/queries/refresh_families.sql:48-55
    [ProjectRefreshFamilyRevocation] *)
Definition ProjectRefreshFamilyRevocation (id : string) (version : Z) (updatedAt : time) (db : RefreshDB)
    : RefreshDB * Z :=
  match rd_families db !! id with
  | Some f =>
      if (fam_ProjectionVersion f <? version) && negb (fam_Revoked f)
      then (set_families (<[id := mkFamily (fam_Subject f) version (fam_ActiveTokenHash f) true updatedAt]>
                            (rd_families db)) db, 1)
      else (db, 0)
  | None => (db, 0)
  end.

(** The row [GetRefreshFamilyToken] joins. *)
(** server/internal/store/queries/refresh_families.sql:62-74 [GetRefreshFamilyToken] *)
Definition GetRefreshFamilyToken (hash : string) (db : RefreshDB) : option (string * Family * Token) :=
  rd_tokens db !! hash ≫= fun t =>
  rd_families db !! tok_FamilyID t ≫= fun f => Some (tok_FamilyID t, f, t).

(** ** Event constructors *)

(** server/internal/store/refresh_families.go:160-165 [canonicalRefreshFamilyID] *)
Definition canonicalRefreshFamilyID (familyID : string) : result goerr string :=
  wrap_err (fun m => EWrap "store: invalid refresh-family ID" (EMsg m)) (ULIDPathID familyID) ≫= fun _ =>
  Ok (to_upper familyID).

(** server/internal/store/refresh_families.go:167-173 [validateRefreshSubject] *)
Definition validateRefreshSubject (subject : string) : result goerr unit :=
  fail_if ((len subject =? 0) || (maxRefreshSubjectBytes <? len subject) || negb (valid_utf8 subject)
           || contains_byte "000" subject) (EMsg "store: refresh-family subject is invalid").

(** server/internal/store/refresh_families.go:175-180 [validateRefreshExpiry] *)
Definition validateRefreshExpiry (expiresAt : time) : result goerr unit :=
  fail_if (time_is_zero expiresAt || (time_unix expiresAt <=? 0)) (EMsg "store: refresh-token expiry is invalid").

(** server/internal/store/refresh_families.go:58-84 [RefreshFamilyStartedEvent];
    encoding the payload fails for a year past 9999 *)
Definition RefreshFamilyStartedEvent (familyID subject tokenHash : string) (expiresAt : time)
    (encoding : option goerr) : result goerr RefreshEvent :=
  canonicalRefreshFamilyID familyID ≫= fun familyID =>
  validateRefreshSubject subject ≫= fun _ =>
  validateRefreshExpiry expiresAt ≫= fun _ =>
  wrap_err (EWrap "store: encode refresh-family start") (may_fault encoding) ≫= fun _ =>
  Ok (mkRefreshEvent familyID (refreshFamilyStartedPayload subject tokenHash expiresAt)).

(** server/internal/store/refresh_families.go:86-112 [RefreshTokenRotatedEvent] *)
Definition RefreshTokenRotatedEvent (familyID previousTokenHash nextTokenHash : string) (expiresAt : time)
    (encoding : option goerr) : result goerr RefreshEvent :=
  canonicalRefreshFamilyID familyID ≫= fun familyID =>
  fail_if (String.eqb previousTokenHash nextTokenHash)
    (EMsg "store: refresh-token rotation hashes are identical") ≫= fun _ =>
  validateRefreshExpiry expiresAt ≫= fun _ =>
  wrap_err (EWrap "store: encode refresh-token rotation") (may_fault encoding) ≫= fun _ =>
  Ok (mkRefreshEvent familyID (refreshTokenRotatedPayload previousTokenHash nextTokenHash expiresAt)).

(** server/internal/store/refresh_families.go:114-130 [RefreshFamilyRevokedEvent];
    a payload of one byte string always encodes *)
Definition RefreshFamilyRevokedEvent (familyID replayedTokenHash : string) : result goerr RefreshEvent :=
  canonicalRefreshFamilyID familyID ≫= fun familyID =>
  Ok (mkRefreshEvent familyID (refreshFamilyRevokedPayload replayedTokenHash)).

(** ** Projectors *)

(** [if affected != 1 { return err }]. *)
Definition affected_one (p : RefreshDB * Z) (msg : string) : result goerr RefreshDB :=
  fail_if (negb (p.2 =? 1)) (EMsg msg) ≫= fun _ => Ok p.1.

(** server/internal/store/refresh_families.go:244-287 [projectRefreshFamilyStart] *)
Definition projectRefreshFamilyStart (id : string) (version : Z) (createdAt : time)
    (subject tokenHash : string) (expiresAt : time) (db : RefreshDB) : result goerr RefreshDB :=
  fail_if (negb (version =? 1)) (EMsg "store: refresh-family start must be stream version 1") ≫= fun _ =>
  validateRefreshSubject subject ≫= fun _ =>
  fail_if (negb (len tokenHash =? sha256_Size))
    (EMsg "store: refresh-family start payload has an invalid hash") ≫= fun _ =>
  validateRefreshExpiry expiresAt ≫= fun _ =>
  wrap_err (EWrap "store: project refresh-family start")
    (InsertRefreshFamily id subject version tokenHash createdAt db) ≫= fun db =>
  wrap_err (EWrap "store: project initial refresh token") (InsertRefreshToken tokenHash id expiresAt db).

(** The family read both later projectors start with. *)
Definition inspect_family (id : string) (version : Z) (missing revoked : string) (db : RefreshDB)
    : result goerr Family :=
  or_err (rd_families db !! id) (EMsg missing) ≫= fun family =>
  fail_if (negb (fam_ProjectionVersion family =? version - 1))
    (EMsg "store: refresh-family projection version is inconsistent") ≫= fun _ =>
  fail_if (fam_Revoked family) (EMsg revoked) ≫= fun _ => Ok family.

(** server/internal/store/refresh_families.go:289-358 [projectRefreshTokenRotation] *)
Definition projectRefreshTokenRotation (id : string) (version : Z) (createdAt : time)
    (previousTokenHash nextTokenHash : string) (expiresAt : time) (db : RefreshDB) : result goerr RefreshDB :=
  fail_if (version <=? 1) (EMsg "store: refresh-token rotation requires a prior family start") ≫= fun _ =>
  fail_if (negb (len previousTokenHash =? sha256_Size) || negb (len nextTokenHash =? sha256_Size))
    (EMsg "store: refresh-token rotation payload has an invalid hash") ≫= fun _ =>
  fail_if (String.eqb previousTokenHash nextTokenHash)
    (EMsg "store: refresh-token rotation hashes are identical") ≫= fun _ =>
  validateRefreshExpiry expiresAt ≫= fun _ =>
  inspect_family id version "store: refresh-token rotation requires a prior family start"
    "store: cannot rotate a revoked refresh family" db ≫= fun family =>
  fail_if (negb (String.eqb (fam_ActiveTokenHash family) previousTokenHash))
    (EMsg "store: refresh-token rotation does not match the active token") ≫= fun _ =>
  wrap_err (EWrap "store: project refresh-family rotation")
    (ProjectRefreshFamilyRotation id previousTokenHash nextTokenHash version createdAt db) ≫= fun p =>
  affected_one p "store: refresh-token rotation affected other than one family" ≫= fun db =>
  affected_one (ProjectRefreshTokenSuperseded id previousTokenHash db)
    "store: refresh-token rotation affected other than one prior token" ≫= fun db =>
  wrap_err (EWrap "store: project rotated refresh token") (InsertRefreshToken nextTokenHash id expiresAt db).

(** server/internal/store/refresh_families.go:360-410 [projectRefreshFamilyRevocation] *)
Definition projectRefreshFamilyRevocation (id : string) (version : Z) (createdAt : time)
    (replayedTokenHash : string) (db : RefreshDB) : result goerr RefreshDB :=
  fail_if (version <=? 1) (EMsg "store: refresh-family revocation requires a prior family start") ≫= fun _ =>
  fail_if (negb (len replayedTokenHash =? sha256_Size))
    (EMsg "store: refresh-family revocation payload has an invalid hash") ≫= fun _ =>
  inspect_family id version "store: refresh-family revocation requires a prior family start"
    "store: refresh family is already revoked" db ≫= fun _ =>
  or_err (GetRefreshFamilyToken replayedTokenHash db)
    (EMsg "store: refresh-family revocation token is not in the family") ≫= fun '(familyID, _, replayed) =>
  fail_if (negb (String.eqb familyID id))
    (EMsg "store: refresh-family revocation token belongs to another family") ≫= fun _ =>
  fail_if (negb (tok_Superseded replayed))
    (EMsg "store: refresh-family revocation token is not superseded") ≫= fun _ =>
  affected_one (ProjectRefreshFamilyRevocation id version createdAt db)
    "store: refresh-family revocation affected other than one family".

(** server/internal/store/refresh_families.go:182-219 [refreshFamilyEventDefinitions]:
    the projector of each event type *)
Definition project (row : RefreshRow) : RefreshDB -> result goerr RefreshDB :=
  let id := rf_FamilyID (rr_Event row) in
  match rf_Payload (rr_Event row) with
  | refreshFamilyStartedPayload subject hash expiresAt =>
      projectRefreshFamilyStart id (rr_Version row) (rr_CreatedAt row) subject hash expiresAt
  | refreshTokenRotatedPayload prev next expiresAt =>
      projectRefreshTokenRotation id (rr_Version row) (rr_CreatedAt row) prev next expiresAt
  | refreshFamilyRevokedPayload hash =>
      projectRefreshFamilyRevocation id (rr_Version row) (rr_CreatedAt row) hash
  end.

(** server/internal/store/refresh_families.go:412-439 [refreshFamilyTokenFromRow] *)
Definition refreshFamilyTokenFromRow (hash : string) (row : string * Family * Token)
    : result goerr RefreshFamilyToken :=
  let '(id, f, t) := row in
  wrap_err (fun _ => EMsg "store: refresh-family projection has an invalid family ID")
    (canonicalRefreshFamilyID id) ≫= fun _ =>
  wrap_err (EWrap "store: invalid refresh-family projection") (validateRefreshSubject (fam_Subject f)) ≫= fun _ =>
  fail_if (fam_ProjectionVersion f <=? 0)
    (EMsg "store: refresh-family projection has an invalid version") ≫= fun _ =>
  fail_if (negb (len hash =? sha256_Size) || negb (len (fam_ActiveTokenHash f) =? sha256_Size))
    (EMsg "store: refresh-family projection has an invalid hash") ≫= fun _ =>
  wrap_err (EWrap "store: invalid refresh-token projection") (validateRefreshExpiry (tok_ExpiresAt t)) ≫= fun _ =>
  Ok (mkRefreshFamilyToken id (fam_Subject f) hash (fam_ActiveTokenHash f) (tok_ExpiresAt t)
        (tok_Superseded t) (fam_Revoked f) (fam_ProjectionVersion f)).

(** server/internal/store/refresh_families.go:133-148 [Store.RefreshFamilyToken] *)
Definition ReadRefreshFamilyToken (fault : option goerr) (hash : string) (db : RefreshDB)
    : result goerr RefreshFamilyToken :=
  wrap_err (EWrap "store: read refresh-family token")
    (may_fault fault ≫= fun _ => or_err (GetRefreshFamilyToken hash db) ErrNoRows) ≫= fun row =>
  refreshFamilyTokenFromRow hash row.

(** server/internal/store/refresh_families.go:441-446 [resetRefreshFamilies];
    deleting a family deletes its tokens *)
Definition resetRefreshFamilies (db : RefreshDB) : RefreshDB := mkRefreshDB (rd_events db) ∅ ∅.

(** ** Pinned appends *)

Definition in_family (id : string) (row : RefreshRow) : Prop := rf_FamilyID (rr_Event row) = id.
#[export] Instance in_family_dec id row : Decision (in_family id row).
Proof. unfold in_family. apply _. Defined.

Definition FamilyVersion (db : RefreshDB) (id : string) : Z :=
  foldr Z.max 0 (rr_Version <$> filter (in_family id) (rd_events db)).

(** One transaction of [AppendEventWithVersion] on a refresh-family stream: it
    inserts the event at the next version, when the stream is at the expected
    one, and projects it. *)
Definition AppendRefresh (env : AppendEnv) (event : RefreshEvent) (expected : Z) (db : RefreshDB)
    : RefreshDB * result goerr unit :=
  match ae_fault env with
  | Some e => (db, Err e)
  | None =>
      if negb (FamilyVersion db (rf_FamilyID event) =? expected)
      then (db, Err (EWrap "expected" errVersionConflict))
      else
        let row := mkRefreshRow event (expected + 1) (ae_now env) in
        match project row (mkRefreshDB (rd_events db ++ [row]) (rd_families db) (rd_tokens db)) with
        | Err e => (db, Err (EWrap "project event" e))
        | Ok db' =>
            match ae_commit env with
            | Committed => (db', Ok tt)
            | CommitFailed e => (db, Err (EWrap "store: commit version-pinned append transaction" e))
            | CommitLost e => (db', Err (EWrap "store: commit version-pinned append transaction" e))
            end
        end
  end.

(** ** The service *)

(** server/internal/auth/refresh.go:17-29 [ErrRefreshRejected] *)
Definition ErrRefreshRejected : goerr := ESentinel "refresh token rejected".
Definition ErrRefreshUnavailable : goerr := ESentinel "refresh service unavailable".
Definition refreshRevocationAttempts : nat := 8.
Definition refreshRevocationBaseBackoff : Z := 5 * millisecond.
Definition refreshTokenLifetime : Z := 7 * 24 * hour.

(** server/internal/auth/refresh.go:32-37 [SessionTokens] *)
Record SessionTokens := mkSessionTokens { AccessToken : string; RefreshToken : string }.

(** server/internal/auth/tokens.go:42-46 [Claims] *)
Record Claims := mkClaims { cl_Subject : string; cl_SessionVersion : Z }.

(** server/internal/store/users.go:36-43 [User], the fields the service reads *)
Record User := mkUser { us_SessionVersion : Z; us_Disabled : bool }.

(** server/internal/auth/tokens.go:261-263 [validSubject] *)
Definition validSubject (subject : string) : bool :=
  (0 <? len subject) && (len subject <=? 1024) && valid_utf8 subject.

(** server/internal/auth/tokens.go:265-267 [validTime] *)
Definition validTime (value : time) : bool := negb (time_is_zero value) && (0 <? time_unix value).

(** A call as a program of the operations other goroutines can come between. *)
Inductive prog (A : Type) : Type :=
| Ret (a : A)
| Now (k : time -> prog A)
| VerifyRefresh (token : string) (k : option Claims -> prog A)
| ReadToken (hash : string) (k : result goerr RefreshFamilyToken -> prog A)
| ReadUser (id : string) (k : result goerr User -> prog A)
| NewFamilyID (now : time) (k : option string -> prog A)
| MintTokens (subject : string) (version : Z) (k : option SessionTokens -> prog A)
| Encode (k : option goerr -> prog A)
| Append (event : RefreshEvent) (expected : Z) (k : result goerr unit -> prog A)
| Wait (delay : Z) (k : bool -> prog A).
Arguments Ret {A}.
Arguments Now {A}.
Arguments VerifyRefresh {A}.
Arguments ReadToken {A}.
Arguments ReadUser {A}.
Arguments NewFamilyID {A}.
Arguments MintTokens {A}.
Arguments Encode {A}.
Arguments Append {A}.
Arguments Wait {A}.

#[export] Instance prog_ret : MRet prog := fun A a => Ret a.
#[export] Instance prog_bind : MBind prog :=
  fun A B f => fix bind m :=
    match m with
    | Ret a => f a
    | Now k => Now (fun x => bind (k x))
    | VerifyRefresh t k => VerifyRefresh t (fun x => bind (k x))
    | ReadToken h k => ReadToken h (fun x => bind (k x))
    | ReadUser i k => ReadUser i (fun x => bind (k x))
    | NewFamilyID n k => NewFamilyID n (fun x => bind (k x))
    | MintTokens s v k => MintTokens s v (fun x => bind (k x))
    | Encode k => Encode (fun x => bind (k x))
    | Append e v k => Append e v (fun x => bind (k x))
    | Wait d k => Wait d (fun x => bind (k x))
    end.

Definition unavailable {A} (msg : string) : result goerr A := Err (EWrap msg ErrRefreshUnavailable).

Section Service.
Context (sha256 : string -> string).

(** server/internal/auth/refresh.go:284-296 [rejectRefresh]: the rejection is
    padded to a minimum duration *)
Definition rejectRefresh {A} : prog (result goerr A) :=
  Wait (25 * millisecond) (fun waited =>
    Ret (if waited then Err ErrRefreshRejected else unavailable "rejection wait interrupted")).

(** server/internal/auth/refresh.go:261-273 [waitRefreshRevocationBackoff] *)
Definition waitRefreshRevocationBackoff (delay : Z) : prog (result goerr unit) :=
  if delay <=? 0 then Ret (unavailable "invalid revocation backoff")
  else Wait delay (fun waited =>
    Ret (if waited then Ok tt else unavailable "revocation backoff interrupted")).

(** The loop of the revocation; [attempts] counts the turns left. *)
Fixpoint revokeReplayed_loop (attempts : nat) (backoff : Z) (replayedHash : string) : prog (result goerr unit) :=
  match attempts with
  | O => Ret (unavailable "refresh-family revocation contention")
  | S attempts =>
      ReadToken replayedHash (fun r =>
        match r with
        | Err e => Ret (if IsNotFound e then Ok tt else unavailable "reread replayed refresh token")
        | Ok state =>
            if rft_Revoked state || negb (rft_Superseded state) then Ret (Ok tt)
            else
              match RefreshFamilyRevokedEvent (rft_FamilyID state) replayedHash with
              | Err _ => Ret (unavailable "create refresh-family revocation")
              | Ok event =>
                  Append event (rft_ProjectionVersion state) (fun r =>
                    match r with
                    | Ok _ => Ret (Ok tt)
                    | Err e =>
                        if IsVersionConflict e then
                          match attempts with
                          | O => revokeReplayed_loop attempts backoff replayedHash
                          | S _ =>
                              waitRefreshRevocationBackoff backoff ≫= fun w =>
                              match w with
                              | Err e => Ret (Err e)
                              | Ok _ => revokeReplayed_loop attempts (backoff * 2) replayedHash
                              end
                          end
                        else Ret (unavailable "persist refresh-family revocation")
                    end)
              end
        end)
  end.

(** server/internal/auth/refresh.go:222-259 [revokeReplayed] *)
Definition revokeReplayed (replayedHash : string) : prog (result goerr unit) :=
  revokeReplayed_loop refreshRevocationAttempts refreshRevocationBaseBackoff replayedHash.

(** The revocation, then the static rejection. *)
Definition revoke_and_reject (presentedHash : string) : prog (result goerr SessionTokens) :=
  revokeReplayed presentedHash ≫= fun r =>
  match r with Err e => Ret (Err e) | Ok _ => rejectRefresh end.

(** server/internal/auth/refresh.go:211-220 [activeAt], given the clock *)
Definition activeAt (now : time) (state : RefreshFamilyToken) (presentedHash : string) : bool :=
  negb (rft_Superseded state) && validTime now && (now <? rft_ExpiresAt state)
  && String.eqb presentedHash (rft_ActiveHash state).

(** server/internal/auth/refresh.go:161-168 [Rotate]: the rejecting branch *)
Definition rotate_reject (state : result goerr RefreshFamilyToken) (presentedHash : string)
    : prog (result goerr SessionTokens) :=
  match state with
  | Ok st => if rft_Superseded st && negb (rft_Revoked st) then revoke_and_reject presentedHash else rejectRefresh
  | Err _ => rejectRefresh
  end.

(** server/internal/auth/refresh.go:170-190 [Rotate]: minting and persisting *)
Definition rotate_active (state : RefreshFamilyToken) (user : User) (presentedHash : string)
    : prog (result goerr SessionTokens) :=
  MintTokens (rft_Subject state) (us_SessionVersion user) (fun minted =>
  match minted with
  | None => Ret (unavailable "mint rotated session tokens")
  | Some tokens =>
      Now (fun now => Encode (fun encoding =>
      let expiresAt := time_unix (now + refreshTokenLifetime) * second in
      match RefreshTokenRotatedEvent (rft_FamilyID state) presentedHash (sha256 (RefreshToken tokens))
              expiresAt encoding with
      | Err _ => Ret (unavailable "create refresh rotation")
      | Ok event =>
          Append event (rft_ProjectionVersion state) (fun r =>
          match r with
          | Ok _ => Ret (Ok tokens)
          | Err e => if IsVersionConflict e then revoke_and_reject presentedHash
                     else Ret (unavailable "persist refresh rotation")
          end)
      end))
  end).

(** server/internal/auth/refresh.go:150-160 [Rotate]: the tests after the user
    is read, in evaluation order; the clock is read only by the last *)
Definition rotate_checked (claims : Claims) (state : RefreshFamilyToken) (user : User) (presentedHash : string)
    : prog (result goerr SessionTokens) :=
  if negb (cl_SessionVersion claims =? us_SessionVersion user) || us_Disabled user || rft_Revoked state
  then rotate_reject (Ok state) presentedHash
  else Now (fun now =>
    if negb (activeAt now state presentedHash) then rotate_reject (Ok state) presentedHash
    else rotate_active state user presentedHash).

(** server/internal/auth/refresh.go:126-191 [Rotate]; [wired] is [false] for a
    service or context that is not wired *)
Definition Rotate (wired : bool) (presented : string) : prog (result goerr SessionTokens) :=
  if negb wired then Ret (Err ErrRefreshUnavailable)
  else
    let presented := trim_space presented in
    let presentedHash := sha256 presented in
    VerifyRefresh presented (fun claims =>
    ReadToken presentedHash (fun state =>
    match state with
    | Err e => if IsNotFound e then rotate_reject state presentedHash
               else Ret (unavailable "read refresh family")
    | Ok st =>
        match claims with
        | None => rotate_reject state presentedHash
        | Some claims =>
            if String.eqb (cl_Subject claims) (rft_Subject st) then
              ReadUser (rft_Subject st) (fun user =>
              match user with
              | Err e => if IsNotFound e then rotate_reject state presentedHash
                         else Ret (unavailable "read refresh session user")
              | Ok user => rotate_checked claims st user presentedHash
              end)
            else rotate_reject state presentedHash
        end
    end)).

(** server/internal/auth/refresh.go:87-124 [StartSession] *)
Definition StartSession (wired : bool) (subject : string) : prog (result goerr SessionTokens) :=
  if negb wired || negb (validSubject subject) then Ret (Err ErrRefreshUnavailable)
  else Now (fun now =>
    if negb (validTime now) then Ret (Err ErrRefreshUnavailable)
    else ReadUser subject (fun user =>
      match user with
      | Err e => Ret (if IsNotFound e then Err ErrRefreshRejected else unavailable "read session user")
      | Ok user =>
          if us_Disabled user then Ret (Err ErrRefreshRejected)
          else NewFamilyID now (fun familyID =>
            match familyID with
            | None => Ret (unavailable "mint family ID")
            | Some familyID =>
                MintTokens subject (us_SessionVersion user) (fun minted =>
                match minted with
                | None => Ret (unavailable "mint session tokens")
                | Some tokens => Encode (fun encoding =>
                    let expiresAt := time_unix (now + refreshTokenLifetime) * second in
                    match RefreshFamilyStartedEvent familyID subject (sha256 (RefreshToken tokens))
                            expiresAt encoding with
                    | Err _ => Ret (unavailable "create family start")
                    | Ok event => Append event 0 (fun r =>
                        Ret (match r with Ok _ => Ok tokens | Err _ => unavailable "persist family start" end))
                    end)
                end)
            end)
      end)).

(** ** Execution *)

(** What the environment answers to the next operation of a call. *)
Record Answer := mkAnswer {
  an_now : time;
  an_claims : option Claims;
  an_read_fault : option goerr;
  an_user : result goerr User;
  an_family : option string;
  an_minted : option SessionTokens;
  an_encoding : option goerr;
  an_append : AppendEnv;
  an_waited : bool;
}.

(** One operation; a finished call stays as it is. *)
Definition step_prog {A} (a : Answer) (db : RefreshDB) (p : prog A) : RefreshDB * prog A :=
  match p with
  | Ret x => (db, Ret x)
  | Now k => (db, k (an_now a))
  | VerifyRefresh t k => (db, k (an_claims a))
  | ReadToken h k => (db, k (ReadRefreshFamilyToken (an_read_fault a) h db))
  | ReadUser i k => (db, k (an_user a))
  | NewFamilyID n k => (db, k (an_family a))
  | MintTokens s v k => (db, k (an_minted a))
  | Encode k => (db, k (an_encoding a))
  | Append e v k => let '(db', r) := AppendRefresh (an_append a) e v db in (db', k r)
  | Wait d k => (db, k (an_waited a))
  end.

(** A call running alone. *)
Definition exec {A} (answers : list Answer) (db : RefreshDB) (p : prog A) : RefreshDB * prog A :=
  fold_left (fun s a => step_prog a s.1 s.2) answers (db, p).

(** The calls the service receives. *)
Inductive Call := CallRotate (wired : bool) (presented : string) | CallStart (wired : bool) (subject : string).

Definition start_call (c : Call) : prog (result goerr SessionTokens) :=
  match c with CallRotate w t => Rotate w t | CallStart w s => StartSession w s end.

(** A schedule of any number of calls: the next operation of call [i], or an
    append by another process. *)
Inductive Action :=
| ActStep (i : nat) (a : Answer)
| ActOther (env : AppendEnv) (event : RefreshEvent) (expected : Z).

Definition Threads : Type := list (prog (result goerr SessionTokens)).

Definition act (s : RefreshDB * Threads) (x : Action) : RefreshDB * Threads :=
  match x with
  | ActStep i a =>
      match s.2 !! i with
      | None => s
      | Some p => let '(db', p') := step_prog a s.1 p in (db', <[i := p']> s.2)
      end
  | ActOther env event expected => ((AppendRefresh env event expected s.1).1, s.2)
  end.

Definition run_schedule (calls : list Call) (schedule : list Action) : RefreshDB * Threads :=
  fold_left act schedule (empty_refresh_db, start_call <$> calls).
End Service.

(** ** What the projectors do to the tables *)

Definition canonical_family (id : string) : Prop := ULIDPathID id = Ok tt /\ to_upper id = id.

Lemma project_start_inv id v now subject h exp db db' :
  projectRefreshFamilyStart id v now subject h exp db = Ok db' ->
  v = 1 /\ validateRefreshSubject subject = Ok tt /\ len h = sha256_Size /\ validateRefreshExpiry exp = Ok tt
  /\ canonical_family id /\ rd_families db !! id = None /\ rd_tokens db !! h = None
  /\ db' = mkRefreshDB (rd_events db) (<[id := mkFamily subject 1 h false now]> (rd_families db))
             (<[h := mkToken id exp false]> (rd_tokens db)).
Proof.
  unfold projectRefreshFamilyStart, InsertRefreshFamily, InsertRefreshToken. intros H.
  destruct (validateRefreshSubject subject) as [[]|] eqn:Hs, (validateRefreshExpiry exp) as [[]|] eqn:He;
    inv_result. prop_bools. subst.
  split_and!; try done; try by apply eq_None_not_Some. split; [|done].
  destruct (ULIDPathID id) as [[]|]; done.
Qed.

(** The update of a family's active token. *)
Definition rotate_tables (id prev next : string) (v : Z) (now exp : time) (F : Family) (t : Token)
    (db : RefreshDB) : RefreshDB :=
  mkRefreshDB (rd_events db)
    (<[id := mkFamily (fam_Subject F) v next false now]> (rd_families db))
    (<[next := mkToken id exp false]> (<[prev := mkToken id (tok_ExpiresAt t) true]> (rd_tokens db))).

Lemma inspect_family_ok id v m1 m2 db F :
  inspect_family id v m1 m2 db = Ok F <->
  rd_families db !! id = Some F /\ fam_ProjectionVersion F = v - 1 /\ fam_Revoked F = false.
Proof.
  unfold inspect_family. split.
  - intros H. inv_result. prop_bools. auto.
  - intros (-> & Hv & Hr). cbn. rewrite Hv, Z.eqb_refl, Hr. done.
Qed.

Lemma affected_one_ok p msg db : affected_one p msg = Ok db <-> p.2 = 1 /\ db = p.1.
Proof.
  unfold affected_one. split; [intros H; inv_result; prop_bools; auto|].
  intros [-> ->]. done.
Qed.

Lemma ProjectRefreshFamilyRotation_one id prev next v now db p :
  ProjectRefreshFamilyRotation id prev next v now db = Ok p -> p.2 = 1 ->
  exists F, rd_families db !! id = Some F /\ fam_ActiveTokenHash F = prev /\ fam_Revoked F = false
  /\ p.1 = set_families (<[id := mkFamily (fam_Subject F) v next false now]> (rd_families db)) db.
Proof.
  unfold ProjectRefreshFamilyRotation. intros H Hp.
  destruct (rd_families db !! id) as [F|]; [|by inv_result]. destruct (_ && negb _) eqn:E; inv_result; [|done].
  prop_bools. exists F. cbn. by replace (fam_Revoked F) with false by done.
Qed.

Lemma ProjectRefreshTokenSuperseded_one id hash db :
  (ProjectRefreshTokenSuperseded id hash db).2 = 1 ->
  exists t, rd_tokens db !! hash = Some t /\ tok_FamilyID t = id /\ tok_Superseded t = false
  /\ (ProjectRefreshTokenSuperseded id hash db).1
    = set_tokens (<[hash := mkToken id (tok_ExpiresAt t) true]> (rd_tokens db)) db.
Proof.
  unfold ProjectRefreshTokenSuperseded. destruct (rd_tokens db !! hash) as [t|]; [|done].
  destruct (_ && _) eqn:E; [|done]. intros _. prop_bools. subst. by exists t.
Qed.

Lemma ProjectRefreshFamilyRevocation_one id v now db :
  (ProjectRefreshFamilyRevocation id v now db).2 = 1 ->
  exists F, rd_families db !! id = Some F
  /\ (ProjectRefreshFamilyRevocation id v now db).1
    = set_families (<[id := mkFamily (fam_Subject F) v (fam_ActiveTokenHash F) true now]> (rd_families db)) db.
Proof.
  unfold ProjectRefreshFamilyRevocation. destruct (rd_families db !! id) as [F|]; [|done].
  destruct (_ && _) eqn:E; [|done]. intros _. by exists F.
Qed.

Lemma project_rotation_inv id v now prev next exp db db' :
  projectRefreshTokenRotation id v now prev next exp db = Ok db' ->
  exists F t, rd_families db !! id = Some F /\ fam_ProjectionVersion F = v - 1 /\ fam_Revoked F = false
  /\ fam_ActiveTokenHash F = prev /\ 1 < v /\ prev <> next /\ len next = sha256_Size
  /\ validateRefreshExpiry exp = Ok tt
  /\ rd_tokens db !! prev = Some t /\ tok_FamilyID t = id /\ tok_Superseded t = false
  /\ rd_tokens db !! next = None /\ db' = rotate_tables id prev next v now exp F t db.
Proof.
  unfold projectRefreshTokenRotation, InsertRefreshToken. intros H.
  destruct (validateRefreshExpiry exp) as [[]|] eqn:He; inv_result. prop_bools.
  apply inspect_family_ok in H4 as (HF & Hv & Hr).
  apply affected_one_ok in H7 as [Ha ->], H8 as [Hb ->].
  apply ProjectRefreshFamilyRotation_one in H6 as (F & HF' & Hact & _ & Hp1); [|done].
  apply ProjectRefreshTokenSuperseded_one in Hb as (t & Ht & Hid & Hs & Hp2).
  rewrite Hp2 in *. rewrite Hp1 in *. cbn in *. assert (F = x3) as -> by congruence.
  match goal with Hn : ~ is_Some _ |- _ => apply eq_None_not_Some in Hn; rewrite lookup_insert_ne in Hn by congruence end.
  exists x3, t. split_and!; try done.
Qed.

Lemma project_revocation_inv id v now h db db' :
  projectRefreshFamilyRevocation id v now h db = Ok db' ->
  exists F t, rd_families db !! id = Some F /\ fam_ProjectionVersion F = v - 1 /\ fam_Revoked F = false
  /\ 1 < v /\ rd_tokens db !! h = Some t /\ tok_FamilyID t = id /\ tok_Superseded t = true
  /\ db' = set_families (<[id := mkFamily (fam_Subject F) v (fam_ActiveTokenHash F) true now]>
                          (rd_families db)) db.
Proof.
  unfold projectRefreshFamilyRevocation, GetRefreshFamilyToken. intros H. inv_result. prop_bools.
  apply inspect_family_ok in H2 as (HF & Hv & Hr). destruct x2 as [[id' F'] t]. inv_result. prop_bools.
  apply affected_one_ok in H as [Ha ->]. apply ProjectRefreshFamilyRevocation_one in Ha as (F & HF' & ->).
  apply bind_Some in H3 as (t' & Ht & (F2 & HF2 & [= <- <- <-])%bind_Some).
  assert (F = x1) as -> by congruence. exists x1, t'. split_and!; done.
Qed.

(** ** The invariant of the two tables *)

Definition family_ok (db : RefreshDB) (id : string) (F : Family) : Prop :=
  (exists t, rd_tokens db !! fam_ActiveTokenHash F = Some t /\ tok_FamilyID t = id /\ tok_Superseded t = false)
  /\ fam_ProjectionVersion F = FamilyVersion db id /\ 1 <= fam_ProjectionVersion F
  /\ canonical_family id /\ validateRefreshSubject (fam_Subject F) = Ok tt
  /\ len (fam_ActiveTokenHash F) = sha256_Size.

Definition token_ok (db : RefreshDB) (h : string) (t : Token) : Prop :=
  len h = sha256_Size /\ validateRefreshExpiry (tok_ExpiresAt t) = Ok tt
  /\ exists F, rd_families db !! tok_FamilyID t = Some F
     /\ (tok_Superseded t = false -> fam_ActiveTokenHash F = h).

(** Every family has exactly one token that is not superseded, its active one;
    the projection version is the version of the family's stream. *)
Definition refresh_ok (db : RefreshDB) : Prop :=
  (forall id F, rd_families db !! id = Some F -> family_ok db id F)
  /\ (forall h t, rd_tokens db !! h = Some t -> token_ok db h t)
  /\ (forall id, rd_families db !! id = None -> FamilyVersion db id = 0).

(** Nothing is forgotten: families and tokens stay, a revoked family stays
    revoked with its last active token, a superseded token stays superseded. *)
Definition refresh_grows (db db' : RefreshDB) : Prop :=
  (forall id F, rd_families db !! id = Some F -> exists F', rd_families db' !! id = Some F'
     /\ fam_Subject F' = fam_Subject F /\ fam_ProjectionVersion F <= fam_ProjectionVersion F'
     /\ (fam_Revoked F = true -> F' = F))
  /\ (forall h t, rd_tokens db !! h = Some t -> exists t', rd_tokens db' !! h = Some t'
     /\ tok_FamilyID t' = tok_FamilyID t /\ tok_ExpiresAt t' = tok_ExpiresAt t
     /\ (tok_Superseded t = true -> tok_Superseded t' = true)).

#[export] Instance refresh_grows_preorder : PreOrder refresh_grows.
Proof.
  split.
  - intros db. split; [intros id F H; exists F; auto with lia|intros h t H; exists t; auto].
  - intros d1 d2 d3 [A1 B1] [A2 B2]. split.
    + intros id F H. apply A1 in H as (F1 & H1 & ? & ? & Hr1). apply A2 in H1 as (F2 & ? & ? & ? & Hr2).
      exists F2. split_and!; [done|congruence|lia|]. intros Hr. specialize (Hr1 Hr) as ->. auto.
    + intros h t H. apply B1 in H as (t1 & H1 & ? & ? & ?). apply B2 in H1 as (t2 & ? & ? & ? & ?).
      exists t2. split_and!; [done|congruence|congruence|auto].
Qed.

Lemma FamilyVersion_snoc events fams toks row id :
  let db := mkRefreshDB events fams toks in
  rr_Version row = FamilyVersion db (rf_FamilyID (rr_Event row)) + 1 ->
  forall fams' toks', FamilyVersion (mkRefreshDB (events ++ [row]) fams' toks') id
  = if decide (rf_FamilyID (rr_Event row) = id) then rr_Version row else FamilyVersion db id.
Proof.
  intros db Hv fams' toks'. unfold FamilyVersion in *. cbn [rd_events db] in *.
  assert (forall l n, foldr Z.max 0 (l ++ [n]) = Z.max (foldr Z.max 0 l) (Z.max n 0)) as Hmax.
  { induction l as [|x l IH]; intros n; cbn; [lia|]. rewrite IH. lia. }
  rewrite filter_app. destruct (decide (rf_FamilyID (rr_Event row) = id)) as [<-|Hne].
  - rewrite filter_cons_True, filter_nil by done. rewrite fmap_app. cbn [fmap list_fmap]. rewrite Hmax.
    assert (forall l, 0 <= foldr Z.max 0 l) as Hpos by (induction l; cbn; lia).
    specialize (Hpos (rr_Version <$> filter (in_family (rf_FamilyID (rr_Event row))) events)). lia.
  - rewrite filter_cons_False, filter_nil by done. by rewrite app_nil_r.
Qed.

(** [db'] is [db] with one more event, version [v] of family [id]. *)
Definition next_version (db db' : RefreshDB) (id : string) (v : Z) : Prop :=
  forall id', FamilyVersion db' id' = if decide (id = id') then v else FamilyVersion db id'.

Lemma start_tables_ok db events id v subject h exp now :
  let db' := mkRefreshDB events (<[id := mkFamily subject 1 h false now]> (rd_families db))
               (<[h := mkToken id exp false]> (rd_tokens db)) in
  refresh_ok db -> next_version db db' id v -> v = 1 ->
  validateRefreshSubject subject = Ok tt -> len h = sha256_Size -> validateRefreshExpiry exp = Ok tt ->
  canonical_family id -> rd_families db !! id = None -> rd_tokens db !! h = None ->
  refresh_ok db' /\ refresh_grows db db'.
Proof.
  intros db' (Hfam & Htok & Hnone) Hver -> Hs Hl He Hc HF HT.
  split; [split_and!|split].
  - intros id' F HF'. unfold family_ok. rewrite Hver. cbn [rd_families rd_tokens db'] in *.
    apply lookup_insert_Some in HF' as [[<- <-]|[Hne HF']]; cbn [fam_ActiveTokenHash fam_ProjectionVersion fam_Subject].
    + rewrite decide_True by done. split_and!; try done. eexists. by rewrite lookup_insert_eq.
    + rewrite decide_False by done. apply Hfam in HF' as ((t & Ht & Hrest) & ?). split; [|done].
      exists t. rewrite lookup_insert_ne; [done|]. intros ->. congruence.
  - intros h' t HT'. unfold token_ok. cbn [rd_families rd_tokens db'] in *.
    apply lookup_insert_Some in HT' as [[<- <-]|[Hne HT']]; cbn [tok_FamilyID tok_ExpiresAt tok_Superseded].
    + split_and!; [done..|]. eexists. rewrite lookup_insert_eq. eauto.
    + apply Htok in HT' as (? & ? & F & HF' & ?). split_and!; [done..|]. exists F.
      rewrite lookup_insert_ne; [done|congruence].
  - intros id' HN. rewrite Hver. cbn [rd_families db'] in HN. apply lookup_insert_None in HN as [HN Hne].
    rewrite decide_False by congruence. auto.
  - intros id' F HF'. exists F. cbn [rd_families db']. rewrite lookup_insert_ne by congruence. auto with lia.
  - intros h' t HT'. exists t. cbn [rd_tokens db']. rewrite lookup_insert_ne by congruence. auto.
Qed.

Lemma rotate_tables_ok db dbv id v prev next exp now F t :
  let db' := rotate_tables id prev next v now exp F t dbv in
  refresh_ok db -> rd_families dbv = rd_families db -> rd_tokens dbv = rd_tokens db ->
  next_version db db' id v ->
  rd_families db !! id = Some F -> fam_ProjectionVersion F = v - 1 -> fam_Revoked F = false ->
  fam_ActiveTokenHash F = prev -> prev <> next -> len next = sha256_Size -> validateRefreshExpiry exp = Ok tt ->
  rd_tokens db !! prev = Some t -> tok_FamilyID t = id -> rd_tokens db !! next = None ->
  refresh_ok db' /\ refresh_grows db db'.
Proof.
  intros db' (Hfam & Htok & Hnone) Ef Et Hver HF Hv Hr Hact Hpn Hl He HT Hid HN.
  unfold db', rotate_tables in *. clear db'. rewrite Ef, Et in *. clear Ef Et.
  pose proof (Hfam id F HF) as (_ & _ & Hv1 & Hc & Hs & Hla). pose proof (Htok prev t HT) as (Hlp & Hep & _).
  split; [split_and!|split]; cbn [rd_families rd_tokens] in *.
  - intros id' G HG. unfold family_ok. rewrite Hver. cbn [rd_tokens].
    apply lookup_insert_Some in HG as [[<- <-]|[Hne HG]]; cbn [fam_ActiveTokenHash fam_ProjectionVersion fam_Subject].
    + rewrite decide_True by done. split_and!; try done; [|lia]. eexists. by rewrite lookup_insert_eq.
    + rewrite decide_False by done. apply Hfam in HG as ((t' & Ht' & Hid' & Hs') & ?). split; [|done].
      exists t'. rewrite !lookup_insert_ne; [done|congruence|congruence].
  - intros h t' HT'. unfold token_ok. cbn [rd_families].
    apply lookup_insert_Some in HT' as [[<- <-]|[Hne HT']]; cbn [tok_FamilyID tok_ExpiresAt tok_Superseded].
    { split_and!; [done..|]. eexists. rewrite lookup_insert_eq. eauto. }
    apply lookup_insert_Some in HT' as [[<- <-]|[Hne' HT']]; cbn [tok_FamilyID tok_ExpiresAt tok_Superseded].
    { split_and!; [done..|]. eexists. by rewrite lookup_insert_eq. }
    apply Htok in HT' as (? & ? & G & HG & Hact'). split_and!; [done..|].
    destruct (decide (tok_FamilyID t' = id)) as [Heq|Hneq].
    + rewrite Heq in *. rewrite HF in HG. injection HG as <-. eexists. rewrite lookup_insert_eq.
      split; [done|]. intros Hsup. exfalso. apply Hne'. rewrite <- Hact. auto.
    + exists G. rewrite lookup_insert_ne by congruence. auto.
  - intros id' HN'. rewrite Hver. apply lookup_insert_None in HN' as [HN' Hne].
    rewrite decide_False by congruence. auto.
  - intros id' G HG. destruct (decide (id' = id)) as [->|Hne].
    + rewrite HF in HG. injection HG as <-. eexists. rewrite lookup_insert_eq.
      split_and!; [done|done|cbn; lia|by rewrite Hr].
    + exists G. rewrite lookup_insert_ne by congruence. auto with lia.
  - intros h t' HT'. rewrite lookup_insert_ne by congruence. destruct (decide (h = prev)) as [->|Hne].
    + eexists. rewrite lookup_insert_eq. split; [done|]. cbn. rewrite HT in HT'. by injection HT' as <-.
    + exists t'. rewrite lookup_insert_ne by congruence. auto.
Qed.

Lemma revoke_tables_ok db events id v now F :
  let db' := mkRefreshDB events
    (<[id := mkFamily (fam_Subject F) v (fam_ActiveTokenHash F) true now]> (rd_families db)) (rd_tokens db) in
  refresh_ok db -> next_version db db' id v ->
  rd_families db !! id = Some F -> fam_ProjectionVersion F = v - 1 -> fam_Revoked F = false ->
  refresh_ok db' /\ refresh_grows db db'.
Proof.
  intros db' (Hfam & Htok & Hnone) Hver HF Hv Hr. unfold db' in *. clear db'.
  pose proof (Hfam id F HF) as (Hact & _ & Hv1 & Hc & Hs & Hla).
  split; [split_and!|split]; cbn [rd_families rd_tokens] in *.
  - intros id' G HG. unfold family_ok. rewrite Hver. cbn [rd_tokens].
    apply lookup_insert_Some in HG as [[<- <-]|[Hne HG]]; cbn [fam_ActiveTokenHash fam_ProjectionVersion fam_Subject].
    + rewrite decide_True by done. split_and!; try done; lia.
    + rewrite decide_False by done. by apply Hfam in HG.
  - intros h t HT. apply Htok in HT as (? & ? & G & HG & Hact'). unfold token_ok. split_and!; [done..|].
    cbn [rd_families]. destruct (decide (tok_FamilyID t = id)) as [Heq|Hneq].
    + rewrite Heq in *. rewrite HF in HG. injection HG as <-. eexists. by rewrite lookup_insert_eq.
    + exists G. rewrite lookup_insert_ne by congruence. auto.
  - intros id' HN'. rewrite Hver. apply lookup_insert_None in HN' as [HN' Hne].
    rewrite decide_False by congruence. auto.
  - intros id' G HG. destruct (decide (id' = id)) as [->|Hne].
    + rewrite HF in HG. injection HG as <-. eexists. rewrite lookup_insert_eq.
      split_and!; [done|done|cbn; lia|by rewrite Hr].
    + exists G. rewrite lookup_insert_ne by congruence. auto with lia.
  - intros h t HT. exists t. auto.
Qed.

(** A committed event keeps the invariant and forgets nothing. *)
Lemma project_ok row events fams toks db' :
  let db := mkRefreshDB events fams toks in
  refresh_ok db -> rr_Version row = FamilyVersion db (rf_FamilyID (rr_Event row)) + 1 ->
  project row (mkRefreshDB (events ++ [row]) fams toks) = Ok db' ->
  refresh_ok db' /\ refresh_grows db db'.
Proof.
  intros db Hok Hv Hp.
  assert (forall f t, next_version db (mkRefreshDB (events ++ [row]) f t) (rf_FamilyID (rr_Event row)) (rr_Version row))
    as Hnext by (intros f t id'; by apply FamilyVersion_snoc).
  destruct row as [[id payload] v now]. unfold project in Hp.
  cbn [rr_Event rr_Version rf_FamilyID rf_Payload rr_CreatedAt] in *. clear Hv.
  destruct payload as [subject h exp|prev next exp|h].
  - apply project_start_inv in Hp as (Hv & Hs & Hl & He & Hc & HF & HT & ->).
    by apply (start_tables_ok db _ id v).
  - apply project_rotation_inv in Hp as (F & t & HF & Hv & Hr & Ha & _ & Hpn & Hl & He & HT & Hid & _ & HN & ->).
    apply (rotate_tables_ok db); try done. apply Hnext.
  - apply project_revocation_inv in Hp as (F & t & HF & Hv & Hr & _ & _ & _ & _ & ->).
    by apply (revoke_tables_ok db).
Qed.

Lemma empty_refresh_ok : refresh_ok empty_refresh_db.
Proof. split_and!; [intros ??; cbn; by rewrite lookup_empty..|done]. Qed.

Lemma AppendRefresh_ok env event expected db :
  refresh_ok db ->
  refresh_ok (AppendRefresh env event expected db).1 /\ refresh_grows db (AppendRefresh env event expected db).1.
Proof.
  intros Hok. unfold AppendRefresh. destruct (ae_fault env); [done|].
  destruct (FamilyVersion db (rf_FamilyID event) =? expected) eqn:Ev; cbn [negb]; [|done]. cbv zeta.
  destruct (project _ _) as [db'|] eqn:Ep; [|done]. prop_bools. destruct db as [events fams toks].
  apply project_ok in Ep; [|done|by cbn; subst]. by destruct (ae_commit env).
Qed.

(** ** Single use *)

Definition rotates (h : string) (event : RefreshEvent) : bool :=
  match rf_Payload event with
  | refreshTokenRotatedPayload prev _ _ => String.eqb prev h
  | _ => false
  end.

(** The call presenting hash [h] is still to be decided: it can only succeed
    right after its own rotation of [h] has been committed. *)
Fixpoint pending (h : string) (p : prog (result goerr SessionTokens)) : Prop :=
  match p with
  | Ret r => is_ok r = false
  | Now k => forall x, pending h (k x)
  | VerifyRefresh _ k => forall x, pending h (k x)
  | ReadToken _ k => forall x, pending h (k x)
  | ReadUser _ k => forall x, pending h (k x)
  | NewFamilyID _ k => forall x, pending h (k x)
  | MintTokens _ _ k => forall x, pending h (k x)
  | Encode k => forall x, pending h (k x)
  | Append e _ k =>
      (forall x, pending h (k (Err x)))
      /\ if rotates h e then exists tokens, k (Ok tt) = Ret (Ok tokens) else pending h (k (Ok tt))
  | Wait _ k => forall x, pending h (k x)
  end.

Section Rotations.
Context (sha256 : string -> string) (h : string).

Lemma revokeReplayed_loop_pending n backoff hash (f : result goerr unit -> prog (result goerr SessionTokens)) :
  (forall r, pending h (f r)) -> pending h (revokeReplayed_loop n backoff hash ≫= f).
Proof.
  intros Hf. revert backoff. induction n as [|n IH]; intros backoff; [apply Hf|].
  cbn [revokeReplayed_loop mbind prog_bind pending]. intros r. destruct r as [state|e]; [|apply Hf].
  destruct (_ || _); [apply Hf|]. destruct (RefreshFamilyRevokedEvent _ _) as [event|] eqn:E; [|apply Hf].
  cbn [pending]. split.
  - intros e. destruct (IsVersionConflict e); [|apply Hf]. destruct n as [|n]; [apply IH|].
    unfold waitRefreshRevocationBackoff. destruct (backoff <=? 0); [apply Hf|].
    intros w. destruct w; [apply IH|apply Hf].
  - unfold RefreshFamilyRevokedEvent in E. inv_result. apply Hf.
Qed.

Lemma rejectRefresh_pending : pending h rejectRefresh.
Proof. intros w. by destruct w. Qed.

Lemma revoke_and_reject_pending : pending h (revoke_and_reject h).
Proof. apply revokeReplayed_loop_pending. intros [|]; [apply rejectRefresh_pending|done]. Qed.

Lemma rotate_reject_pending state : pending h (rotate_reject state h).
Proof.
  destruct state as [st|]; [|apply rejectRefresh_pending]. unfold rotate_reject.
  destruct (_ && _); [apply revoke_and_reject_pending|apply rejectRefresh_pending].
Qed.

Lemma rotate_active_pending state user : pending h (rotate_active sha256 state user h).
Proof.
  intros minted. destruct minted as [tokens|]; [|done]. intros now encoding. cbv zeta.
  destruct (RefreshTokenRotatedEvent _ _ _ _ _) as [event|] eqn:E; [|done]. cbn [pending]. split.
  - intros e. destruct (IsVersionConflict e); [apply revoke_and_reject_pending|done].
  - assert (rotates h event = true) as ->; [|by exists tokens].
    unfold RefreshTokenRotatedEvent in E. inv_result. apply String.eqb_refl.
Qed.
End Rotations.

Lemma Rotate_pending sha256 wired presented :
  pending (sha256 (trim_space presented)) (Rotate sha256 wired presented).
Proof.
  unfold Rotate. destruct wired; [|done]. cbn [negb]. cbv zeta. intros claims state.
  destruct state as [st|e].
  2:{ destruct (IsNotFound e); [apply rotate_reject_pending|done]. }
  destruct claims as [claims|]; [|apply rotate_reject_pending].
  destruct (String.eqb _ _); [|apply rotate_reject_pending]. intros user. destruct user as [user|e].
  2:{ destruct (IsNotFound e); [apply rotate_reject_pending|done]. }
  unfold rotate_checked. destruct (_ || _); [apply rotate_reject_pending|]. intros now.
  destruct (negb _); [apply rotate_reject_pending|apply rotate_active_pending].
Qed.

(** A committed rotation finds its token active and leaves it superseded. *)
Definition superseded (db : RefreshDB) (h : string) : Prop :=
  exists t, rd_tokens db !! h = Some t /\ tok_Superseded t = true.

(** A token nobody can use any more: superseded, or of a revoked family. *)
Definition dead (db : RefreshDB) (h : string) : Prop :=
  exists t F, rd_tokens db !! h = Some t /\ rd_families db !! tok_FamilyID t = Some F
  /\ (tok_Superseded t = true \/ fam_Revoked F = true).

Lemma AppendRefresh_rotates env event expected db db' h :
  AppendRefresh env event expected db = (db', Ok tt) -> rotates h event = true ->
  ~ dead db h /\ superseded db' h.
Proof.
  unfold AppendRefresh, rotates. destruct (ae_fault env); [done|]. destruct (negb _); [done|]. cbv zeta.
  destruct (project _ _) as [d|] eqn:Ep; [|done]. destruct (ae_commit env); [|done..]. intros [= <-].
  destruct event as [id [|prev next exp|]]; cbn [rf_Payload]; [done| |done]. intros ->%String.eqb_eq.
  apply project_rotation_inv in Ep as (F & t & HF & _ & Hr & _ & _ & Hpn & _ & _ & HT & Hid & Hs & _ & ->).
  cbn [rd_tokens rd_families] in HT, HF. split.
  - intros (t' & F' & HT' & HF' & Hd). assert (t' = t) as -> by congruence. rewrite Hid in HF'.
    assert (F' = F) as -> by congruence. destruct Hd; congruence.
  - unfold superseded, rotate_tables. cbn [rd_tokens]. rewrite lookup_insert_ne by done.
    eexists. by rewrite lookup_insert_eq.
Qed.

Lemma superseded_grows db db' h : refresh_grows db db' -> superseded db h -> superseded db' h.
Proof. intros [_ Hg] (t & Ht & Hs). apply Hg in Ht as (t' & ? & _ & _ & ?). exists t'. auto. Qed.

Lemma dead_grows db db' h : refresh_grows db db' -> dead db h -> dead db' h.
Proof.
  intros [Hf Ht] (t & F & HT & HF & Hd). apply Ht in HT as (t' & HT' & Hid & _ & Hs).
  apply Hf in HF as (F' & HF' & _ & _ & Hr). exists t', F'. rewrite Hid. split_and!; [done..|].
  destruct Hd as [Hd|Hd]; [auto|]. right. rewrite Hr; done.
Qed.

Lemma superseded_dead db h : refresh_ok db -> superseded db h -> dead db h.
Proof. intros (_ & Htok & _) (t & HT & Hs). destruct (Htok h t HT) as (_ & _ & F & HF & _). exists t, F. auto. Qed.

Section Interleaving.
Context (sha256 : string -> string).

(** The hash a call presents. *)
Definition presents (calls : list Call) (i : nat) (h : string) : Prop :=
  exists w t, calls !! i = Some (CallRotate w t) /\ h = sha256 (trim_space t).

Definition succeeded (threads : Threads) (i : nat) : Prop := exists tokens, threads !! i = Some (Ret (Ok tokens)).

(** A call either is still pending or has succeeded, and then its token is
    superseded; no two calls have succeeded with one token. *)
Definition schedule_ok (calls : list Call) (s : RefreshDB * Threads) : Prop :=
  refresh_ok s.1
  /\ (forall i h p, presents calls i h -> s.2 !! i = Some p ->
      pending h p \/ (succeeded s.2 i /\ superseded s.1 h))
  /\ (forall i j h, presents calls i h -> presents calls j h -> succeeded s.2 i -> succeeded s.2 j -> i = j).

(** One operation of one call. *)
Lemma step_prog_ok h a db p db' p' :
  refresh_ok db -> pending h p -> step_prog a db p = (db', p') ->
  refresh_ok db' /\ refresh_grows db db'
  /\ (pending h p' \/ (exists tokens, p' = Ret (Ok tokens)) /\ ~ dead db h /\ superseded db' h).
Proof.
  intros Hok Hp. destruct p as [x|k|t k|x k|i k|n k|s v k|k|e v k|d k]; cbn [step_prog pending] in *;
    try (intros [= <- <-]; split_and!; [done|done|by left; apply Hp]).
  destruct (AppendRefresh (an_append a) e v db) as [d [[]|err]] eqn:E; intros [= <- <-];
    pose proof (AppendRefresh_ok (an_append a) e v db Hok) as Hd; rewrite E in Hd; destruct Hd as [Hd Hg].
  - destruct Hp as [_ Hp]. destruct (rotates h e) eqn:Er; [|by auto].
    split_and!; [done..|]. right. split; [done|]. by eapply AppendRefresh_rotates.
  - destruct Hp as [Hp _]. auto.
Qed.

Lemma step_prog_grows {A} a db (p : prog A) :
  refresh_ok db -> refresh_ok (step_prog a db p).1 /\ refresh_grows db (step_prog a db p).1.
Proof.
  intros Hok. destruct p as [x|k|t k|x k|i k|n k|s v k|k|e v k|d k]; cbn [step_prog]; try done.
  destruct (AppendRefresh (an_append a) e v db) as [d r] eqn:E.
  pose proof (AppendRefresh_ok (an_append a) e v db Hok) as Hd. by rewrite E in Hd.
Qed.

Lemma pending_not_succeeded h p tokens : pending h p -> p <> Ret (Ok tokens).
Proof. by intros Hp ->. Qed.

(** Every action keeps the invariant; a call that it makes succeed presented a
    live token. *)
Lemma act_ok calls s x :
  schedule_ok calls s ->
  schedule_ok calls (act s x) /\ refresh_grows s.1 (act s x).1
  /\ (forall i h, presents calls i h -> succeeded (act s x).2 i -> succeeded s.2 i \/ ~ dead s.1 h).
Proof.
  destruct s as [db threads]. intros (Hok & Hthr & Huniq). cbn [fst snd] in *. destruct x as [i a|env event expected]; cbn [act fst snd].
  2:{ destruct (AppendRefresh_ok env event expected db Hok) as [Hok' Hg]. split_and!; [|done|by auto].
      split_and!; [done| |done]. intros i h p Hi Hp. destruct (Hthr i h p Hi Hp) as [?|[? Hs]]; [by left|].
      right. split; [done|]. by eapply superseded_grows. }
  destruct (threads !! i) as [p|] eqn:Ei; [|by split_and!; auto].
  destruct (step_prog a db p) as [db' p'] eqn:Es.
  pose proof (step_prog_grows a db p Hok) as [Hok' Hg]. rewrite Es in Hok', Hg. cbn [fst snd] in *.
  assert (forall j, j <> i -> succeeded (<[i:=p']> threads) j <-> succeeded threads j) as Hother.
  { intros j Hj. unfold succeeded. by setoid_rewrite list_lookup_insert_ne. }
  assert (succeeded (<[i:=p']> threads) i <-> exists tokens, p' = Ret (Ok tokens)) as Hself.
  { unfold succeeded. setoid_rewrite list_lookup_insert_eq; [naive_solver|by eapply lookup_lt_Some]. }
  assert (forall h, presents calls i h ->
    (pending h p' \/ (exists tokens, p' = Ret (Ok tokens)) /\ superseded db' h)
    /\ (succeeded (<[i:=p']> threads) i -> succeeded threads i \/ ~ dead db h)) as Hi.
  { intros h Hh. destruct (Hthr i h p Hh Ei) as [Hp|[[tokens Hsucc] Hsup]].
    - destruct (step_prog_ok h a db p db' p' Hok Hp Es) as (_ & _ & [Hp'|(Htok & Hnd & Hsup)]).
      + split; [by left|]. rewrite Hself. intros [tokens ->]. by apply pending_not_succeeded with (tokens := tokens) in Hp'.
      + split; [by right|]. by right.
    - rewrite Ei in Hsucc. injection Hsucc as ->. cbn in Es. injection Es as <- <-.
      split; [right; eauto|]. intros _. left. by exists tokens. }
  split_and!; [split_and!| |]; cbn [fst snd].
  - done.
  - intros j h q Hj Hq. destruct (decide (j = i)) as [->|Hne].
    + setoid_rewrite list_lookup_insert_eq in Hq; [|by eapply lookup_lt_Some]. injection Hq as <-.
      rewrite Hself. by apply Hi.
    + setoid_rewrite list_lookup_insert_ne in Hq; [|done]. rewrite Hother by done.
      destruct (Hthr j h q Hj Hq) as [?|[? Hs]]; [by left|]. right. split; [done|]. by eapply superseded_grows.
  - assert (forall j h, j <> i -> presents calls i h -> presents calls j h ->
      succeeded (<[i:=p']> threads) i -> succeeded threads j -> i = j) as Hcase.
    { intros j h Hne Hpi Hpj Hsi [tokens Hsj]. destruct (Hi h Hpi) as [_ Hlive].
      destruct (Hlive Hsi) as [Hold|Hlive']; [by apply (Huniq i j h); [..|exists tokens]|].
      destruct (Hthr j h _ Hpj Hsj) as [Hp|[_ Hsup]]; [done|]. destruct Hlive'. by apply superseded_dead. }
    intros j k h Hpj Hpk Hsj Hsk. destruct (decide (j = i)) as [->|Hj], (decide (k = i)) as [->|Hk]; [done|..].
    + rewrite Hother in Hsk by done. by eapply Hcase.
    + rewrite Hother in Hsj by done. symmetry. by eapply Hcase.
    + rewrite Hother in Hsj, Hsk by done. by eapply Huniq.
  - done.
  - intros j h Hj Hsj. destruct (decide (j = i)) as [->|Hne]; [by apply Hi|].
    rewrite Hother in Hsj by done. by left.
Qed.

Lemma schedule_start calls : schedule_ok calls (empty_refresh_db, start_call sha256 <$> calls).
Proof.
  assert (forall i h p, presents calls i h -> (start_call sha256 <$> calls) !! i = Some p -> pending h p) as Hp.
  { intros i h p (w & t & Hc & ->). rewrite list_lookup_fmap, Hc. intros [= <-]. apply Rotate_pending. }
  split_and!; cbn [fst snd].
  - apply empty_refresh_ok.
  - intros i h p Hi Hip. left. by eapply Hp.
  - intros i j h Hi _ [tokens Hs] _. by pose proof (Hp i h _ Hi Hs).
Qed.

Lemma schedule_ok_run calls schedule s :
  schedule_ok calls s ->
  schedule_ok calls (fold_left act schedule s) /\ refresh_grows s.1 (fold_left act schedule s).1
  /\ (forall i h, presents calls i h -> dead s.1 h -> succeeded (fold_left act schedule s).2 i -> succeeded s.2 i).
Proof.
  revert s. induction schedule as [|x schedule IH]; intros s Hs; [done|]. cbn [fold_left].
  destruct (act_ok calls s x Hs) as (Hs' & Hg & Hlive). destruct (IH _ Hs') as (Hend & Hg' & Hdead).
  split_and!; [done|by etrans|]. intros i h Hi Hd Hsucc.
  destruct (Hlive i h Hi) as [?|Hn]; [|done..]. eapply Hdead; eauto. by eapply dead_grows.
Qed.

End Interleaving.

(** ** Replay revokes *)

(** An answer of a healthy environment; users may be missing. *)
Definition calm (a : Answer) : Prop :=
  an_read_fault a = None /\ ae_fault (an_append a) = None /\ ae_commit (an_append a) = Committed
  /\ an_waited a = true /\ (forall e, an_user a = Err e -> IsNotFound e = true).

(** Alone and in a healthy environment, [p] ends within [n] operations in a
    state and with a result that satisfy [Post]. *)
Definition calmly {A} (n : nat) (db : RefreshDB) (p : prog A) (Post : RefreshDB -> A -> Prop) : Prop :=
  forall answers, Forall calm answers -> (n <= length answers)%nat ->
  exists db' r, exec answers db p = (db', Ret r) /\ Post db' r.

Lemma calmly_ret {A} n db (r : A) (Post : RefreshDB -> A -> Prop) : Post db r -> calmly n db (Ret r) Post.
Proof.
  intros HP answers _ _. exists db, r. split; [|done]. unfold exec. by induction answers.
Qed.

Lemma calmly_step {A} n db (p : prog A) Post :
  (forall a, calm a -> calmly n (step_prog a db p).1 (step_prog a db p).2 Post) -> calmly (S n) db p Post.
Proof.
  intros Hs [|a answers] Hc Hn; cbn [length] in Hn; [lia|].
  apply Forall_cons in Hc as [Ha Hc]. destruct (Hs a Ha answers Hc ltac:(lia)) as (db' & r & He & HP).
  exists db', r. split; [|done]. unfold exec in *. cbn [fold_left fst snd]. by rewrite <- surjective_pairing in He.
Qed.

(** Under the invariant the validating read returns the joined row. *)
Lemma ReadRefreshFamilyToken_ok db h t :
  refresh_ok db -> rd_tokens db !! h = Some t ->
  exists F, rd_families db !! tok_FamilyID t = Some F
  /\ ReadRefreshFamilyToken None h db
     = Ok (mkRefreshFamilyToken (tok_FamilyID t) (fam_Subject F) h (fam_ActiveTokenHash F)
             (tok_ExpiresAt t) (tok_Superseded t) (fam_Revoked F) (fam_ProjectionVersion F)).
Proof.
  intros (Hfam & Htok & _) HT. destruct (Htok h t HT) as (Hl & He & F & HF & _).
  destruct (Hfam _ F HF) as (_ & _ & Hv & [Hu _] & Hs & Hla). exists F. split; [done|].
  unfold ReadRefreshFamilyToken, GetRefreshFamilyToken, refreshFamilyTokenFromRow, canonicalRefreshFamilyID.
  rewrite HT. cbn [mbind option_bind result_bind may_fault or_err wrap_err]. rewrite HF.
  cbn [mbind option_bind result_bind may_fault or_err wrap_err]. rewrite Hu.
  cbn [mbind result_bind wrap_err]. rewrite Hs, He. cbn [mbind result_bind wrap_err].
  rewrite Hl, Hla, (proj2 (Z.leb_gt _ _)) by lia. done.
Qed.

(** A pinned revocation of a live family for one of its superseded tokens is
    committed. *)
Lemma revocation_commits db a h t F :
  refresh_ok db -> calm a -> rd_tokens db !! h = Some t -> tok_Superseded t = true ->
  rd_families db !! tok_FamilyID t = Some F -> fam_Revoked F = false ->
  exists db', AppendRefresh (an_append a) (mkRefreshEvent (tok_FamilyID t) (refreshFamilyRevokedPayload h))
                (fam_ProjectionVersion F) db = (db', Ok tt)
  /\ exists F', rd_families db' !! tok_FamilyID t = Some F' /\ fam_Revoked F' = true.
Proof.
  intros (Hfam & Htok & _) (_ & Hf & Hc & _) HT Hs HF Hr.
  destruct (Hfam _ F HF) as (_ & Hv & Hv1 & _). destruct (Htok h t HT) as (Hl & _).
  unfold AppendRefresh. rewrite Hf. cbn [rf_FamilyID]. rewrite <- Hv, Z.eqb_refl. cbn [negb]. cbv zeta.
  unfold project. cbn [rr_Event rr_Version rr_CreatedAt rf_FamilyID rf_Payload].
  unfold projectRefreshFamilyRevocation, inspect_family, GetRefreshFamilyToken, ProjectRefreshFamilyRevocation.
  cbn [rd_families rd_tokens]. rewrite (proj2 (Z.leb_gt _ _)) by lia. rewrite Hl.
  cbn [fail_if mbind result_bind negb sha256_Size Z.eqb Pos.eqb]. rewrite HF. cbn [or_err mbind result_bind].
  rewrite Z.add_simpl_r, Z.eqb_refl, Hr. cbn [fail_if mbind result_bind negb]. rewrite HT.
  cbn [mbind option_bind]. rewrite HF. cbn [mbind option_bind or_err result_bind].
  rewrite String.eqb_refl, Hs. cbn [fail_if mbind result_bind negb].
  rewrite (proj2 (Z.ltb_lt _ _)) by lia. cbn [andb affected_one fst snd]. rewrite Hc. eexists. split; [done|].
  eexists. split; [apply lookup_insert_eq|done].
Qed.

(** The revocation of a replayed token: read, append. *)
Lemma revokeReplayed_calm db h t F n (f : result goerr unit -> prog (result goerr SessionTokens)) Post :
  refresh_ok db -> rd_tokens db !! h = Some t -> tok_Superseded t = true ->
  rd_families db !! tok_FamilyID t = Some F -> fam_Revoked F = false ->
  (forall db' F', rd_families db' !! tok_FamilyID t = Some F' -> fam_Revoked F' = true ->
     calmly n db' (f (Ok tt)) Post) ->
  calmly (S (S n)) db (revokeReplayed h ≫= f) Post.
Proof.
  intros Hok HT Hs HF Hr Hf. destruct (ReadRefreshFamilyToken_ok db h t Hok HT) as (F' & HF' & Hread).
  assert (F' = F) as -> by congruence. destruct Hok as [Hfam Hok]. destruct (Hfam _ F HF) as (_ & _ & _ & [Hu Hup] & _).
  apply calmly_step. intros a (Hfault & _). unfold revokeReplayed, refreshRevocationAttempts.
  cbn [revokeReplayed_loop mbind prog_bind step_prog fst snd]. rewrite Hfault, Hread.
  cbn [rft_Revoked rft_Superseded rft_FamilyID rft_ProjectionVersion]. rewrite Hr, Hs. cbn [orb negb].
  unfold RefreshFamilyRevokedEvent, canonicalRefreshFamilyID. rewrite Hu. cbn [wrap_err mbind result_bind]. rewrite Hup.
  apply calmly_step. intros a' Ha'. cbn [step_prog prog_bind mbind].
  destruct (revocation_commits db a' h t F (conj Hfam Hok) Ha' HT Hs HF Hr) as (db' & -> & F' & HF2 & Hr2).
  cbn [fst snd]. by eapply Hf.
Qed.

Definition rejected_and_revoked (id : string) (db : RefreshDB) (r : result goerr SessionTokens) : Prop :=
  r = Err ErrRefreshRejected /\ exists F, rd_families db !! id = Some F /\ fam_Revoked F = true.

Lemma rejectRefresh_calm n db id F :
  rd_families db !! id = Some F -> fam_Revoked F = true ->
  calmly (S n) db rejectRefresh (rejected_and_revoked id).
Proof.
  intros HF Hr. apply calmly_step. intros a (_ & _ & _ & Hw & _). cbn. rewrite Hw. apply calmly_ret.
  split; [done|]. by exists F.
Qed.

(** Every rejecting path of a superseded token of a live family revokes it. *)
Lemma rotate_reject_calm db h t F st :
  refresh_ok db -> rd_tokens db !! h = Some t -> tok_Superseded t = true ->
  rd_families db !! tok_FamilyID t = Some F -> fam_Revoked F = false ->
  rft_Superseded st = true -> rft_Revoked st = false ->
  calmly 3 db (rotate_reject (Ok st) h) (rejected_and_revoked (tok_FamilyID t)).
Proof.
  intros Hok HT Hs HF Hr Hss Hsr. unfold rotate_reject. rewrite Hss, Hsr. cbn [andb negb].
  eapply revokeReplayed_calm; eauto. intros db' F' HF' Hr'. by eapply rejectRefresh_calm.
Qed.

Lemma calmly_weaken {A} n m db (p : prog A) Post : (n <= m)%nat -> calmly n db p Post -> calmly m db p Post.
Proof. intros Hnm Hp answers Hc Hm. apply Hp; [done|lia]. Qed.

Section Interleaved.
Context (sha256 : string -> string).

(** Every state that any interleaving of session starts, rotations and
    other processes' appends can reach, through any failure of the database,
    keeps the two refresh tables consistent: each family has exactly one token
    that is not superseded, the one it names as active; every token belongs to
    a family; the projection version of a family is the version of its event
    stream; and all hashes, subjects and expiries pass the validation that the
    reads repeat.  Later steps never forget: revoked families stay revoked with
    an unchanged row and superseded tokens stay superseded. *)
Theorem refresh_tables_stay_consistent (calls : list Call) (schedule1 schedule2 : list Action) :
  let s1 := run_schedule sha256 calls schedule1 in
  let s2 := run_schedule sha256 calls (schedule1 ++ schedule2) in
  refresh_ok s2.1 /\ refresh_grows s1.1 s2.1
  /\ (forall h t, rd_tokens s2.1 !! h = Some t ->
      exists F, ReadRefreshFamilyToken None h s2.1
        = Ok (mkRefreshFamilyToken (tok_FamilyID t) (fam_Subject F) h (fam_ActiveTokenHash F)
                (tok_ExpiresAt t) (tok_Superseded t) (fam_Revoked F) (fam_ProjectionVersion F))).
Proof.
  unfold run_schedule. cbv zeta. rewrite fold_left_app.
  destruct (schedule_ok_run sha256 calls schedule1 _ (schedule_start sha256 calls)) as (H1 & _).
  destruct (schedule_ok_run sha256 calls schedule2 _ H1) as ((Hok & _) & Hg & _). split_and!; [done..|].
  intros h t HT. destruct (ReadRefreshFamilyToken_ok _ h t Hok HT) as (F & _ & ?). by exists F.
Qed.

(** C9. A refresh token is used once: whatever the interleaving of concurrent
    calls, retries, failures and appends of other processes, two rotations that
    both return new tokens were presented different tokens, and the token a
    successful rotation consumed is superseded from then on. *)
Theorem refresh_token_is_single_use (calls : list Call) (schedule : list Action)
    i j w1 w2 t1 t2 tokens1 tokens2 :
  let s := run_schedule sha256 calls schedule in
  i <> j ->
  calls !! i = Some (CallRotate w1 t1) -> calls !! j = Some (CallRotate w2 t2) ->
  s.2 !! i = Some (Ret (Ok tokens1)) -> s.2 !! j = Some (Ret (Ok tokens2)) ->
  sha256 (trim_space t1) <> sha256 (trim_space t2) /\ superseded s.1 (sha256 (trim_space t1)).
Proof.
  intros s Hne Hi Hj Hsi Hsj.
  destruct (schedule_ok_run sha256 calls schedule _ (schedule_start sha256 calls)) as ((_ & Hthr & Huniq) & _).
  change (fold_left act schedule _) with s in Hthr, Huniq. split.
  - intros Heq. apply Hne, (Huniq i j (sha256 (trim_space t1))); [by exists w1, t1|by exists w2, t2|by exists tokens1|by exists tokens2].
  - destruct (Hthr i (sha256 (trim_space t1)) _ ltac:(by exists w1, t1) Hsi) as [Hp|[_ ?]]; [|done].
    by apply (pending_not_succeeded _ _ tokens1) in Hp.
Qed.

(** Once a token is superseded or its family is revoked it is dead for
    good: no call presenting it, not even one already in flight, returns tokens
    unless it had already done so before. *)
Theorem dead_token_is_never_accepted (calls : list Call) (schedule1 schedule2 : list Action) i w t :
  let s1 := run_schedule sha256 calls schedule1 in
  let s2 := run_schedule sha256 calls (schedule1 ++ schedule2) in
  calls !! i = Some (CallRotate w t) -> dead s1.1 (sha256 (trim_space t)) ->
  (exists tokens, s2.2 !! i = Some (Ret (Ok tokens))) -> exists tokens, s1.2 !! i = Some (Ret (Ok tokens)).
Proof.
  intros s1 s2 Hi Hd Hs2. unfold s2, run_schedule in Hs2. rewrite fold_left_app in Hs2.
  destruct (schedule_ok_run sha256 calls schedule1 _ (schedule_start sha256 calls)) as (H1 & _).
  destruct (schedule_ok_run sha256 calls schedule2 _ H1) as (_ & _ & Hdead).
  by apply (Hdead i (sha256 (trim_space t))); [exists w, t|..].
Qed.

(** C10. Presenting a superseded token of a live family is detected as replay:
    in any reachable state, whatever the clock, the token's signature check and
    the user lookup say, a [Rotate] call in a healthy environment ends with the
    static rejection and leaves the whole family revoked. *)
Theorem replay_revokes_family (calls : list Call) (schedule : list Action) presented t F answers :
  let db := (run_schedule sha256 calls schedule).1 in
  let h := sha256 (trim_space presented) in
  rd_tokens db !! h = Some t -> tok_Superseded t = true ->
  rd_families db !! tok_FamilyID t = Some F -> fam_Revoked F = false ->
  Forall calm answers -> (7 <= length answers)%nat ->
  exists db', exec answers db (Rotate sha256 true presented) = (db', Ret (Err ErrRefreshRejected))
  /\ exists F', rd_families db' !! tok_FamilyID t = Some F' /\ fam_Revoked F' = true.
Proof.
  intros db h HT Hs HF Hr Hc Hn.
  destruct (schedule_ok_run sha256 calls schedule _ (schedule_start sha256 calls)) as ((Hok & _) & _).
  fold (run_schedule sha256 calls schedule) in Hok. fold db in Hok.
  enough (calmly 7 db (Rotate sha256 true presented) (rejected_and_revoked (tok_FamilyID t))) as Hcalm.
  { destruct (Hcalm answers Hc Hn) as (db' & r & He & -> & HF'). by exists db'. }
  destruct (ReadRefreshFamilyToken_ok db h t Hok HT) as (F' & HF' & Hread). assert (F' = F) as -> by congruence.
  pose proof (rotate_reject_calm db h t F) as Hreject.
  unfold Rotate. cbn [negb]. cbv zeta. fold h.
  apply calmly_step. intros a1 _. cbn [step_prog fst snd].
  apply calmly_step. intros a2 (Hfault & _). cbn [step_prog fst snd]. rewrite Hfault, Hread.
  destruct (an_claims a1) as [claims|]; [|apply (calmly_weaken 3); [lia|by apply Hreject]].
  destruct (String.eqb _ _); [|apply (calmly_weaken 3); [lia|by apply Hreject]].
  apply calmly_step. intros a3 (_ & _ & _ & _ & Hu). cbn [step_prog fst snd].
  destruct (an_user a3) as [user|e]; [|rewrite Hu by done; apply (calmly_weaken 3); [lia|by apply Hreject]].
  unfold rotate_checked. destruct (_ || _); [apply (calmly_weaken 3); [lia|by apply Hreject]|].
  apply calmly_step. intros a4 _. cbn [step_prog fst snd]. unfold activeAt. cbn [rft_Superseded]. rewrite Hs.
  by apply Hreject.
Qed.
End Interleaved.

(** ** Concrete runs *)

(** A stand-in digest of 32 bytes, injective on the short texts used here. *)
Definition toy_digest (s : string) : string :=
  String.substring 0 32 (s +:+ "--------------------------------").

Definition sample_answer (minted : string) : Answer :=
  mkAnswer (1800000000 * second) (Some (mkClaims "01K0QJ3E5E8R4M0D8EV3Y4N6J7" 1)) None (Ok (mkUser 1 false))
    (Some "01K0QJ3E5E8R4M0D8EV3Y4N6J8"%string) (Some (mkSessionTokens "access" minted)) None
    (mkAppendEnv None Committed (1800000000 * second)) true.

(** A session is started with token "one", which is rotated to "two", which is
    rotated to "three". *)
Definition sample_calls : list Call :=
  [CallStart true "01K0QJ3E5E8R4M0D8EV3Y4N6J7"; CallRotate true "one"; CallRotate true " two "; CallRotate true "one"].
Definition sample_schedule1 : list Action :=
  repeat (ActStep 0 (sample_answer "one")) 6 ++ repeat (ActStep 1 (sample_answer "two")) 8.
Definition sample_schedule2 : list Action := repeat (ActStep 2 (sample_answer "three")) 8.

Definition sample_family : string := "01K0QJ3E5E8R4M0D8EV3Y4N6J8".

Lemma refresh_token_is_single_use_witness : toy_digest "one" <> toy_digest "two".
Proof.
  refine (proj1 (refresh_token_is_single_use toy_digest sample_calls (sample_schedule1 ++ sample_schedule2)
    1%nat 2%nat true true "one" " two " (mkSessionTokens "access" "two") (mkSessionTokens "access" "three")
    _ _ _ _ _)); [lia|vm_compute; reflexivity..].
Defined.

Lemma dead_token_is_never_accepted_witness :
  exists tokens, (run_schedule toy_digest sample_calls sample_schedule1).2 !! 1%nat = Some (Ret (Ok tokens)).
Proof.
  refine (dead_token_is_never_accepted toy_digest sample_calls sample_schedule1 sample_schedule2
    1%nat true "one" _ _ _).
  - reflexivity.
  - exists (mkToken sample_family (1800604800 * second) true),
      (mkFamily "01K0QJ3E5E8R4M0D8EV3Y4N6J7" 2 (toy_digest "two") false (1800000000 * second)).
    split; [vm_compute; reflexivity|]. split; [vm_compute; reflexivity|]. by left.
  - exists (mkSessionTokens "access" "two"). vm_compute. reflexivity.
Defined.

Lemma replay_revokes_family_witness :
  exists db', exec (repeat (sample_answer "four") 7) (run_schedule toy_digest sample_calls sample_schedule1).1
    (Rotate toy_digest true "one") = (db', Ret (Err ErrRefreshRejected))
  /\ exists F', rd_families db' !! sample_family = Some F' /\ fam_Revoked F' = true.
Proof.
  refine (replay_revokes_family toy_digest sample_calls sample_schedule1 "one"
    (mkToken sample_family (1800604800 * second) true)
    (mkFamily "01K0QJ3E5E8R4M0D8EV3Y4N6J7" 2 (toy_digest "two") false (1800000000 * second))
    (repeat (sample_answer "four") 7) _ _ _ _ _ _); [vm_compute; reflexivity..| |cbn; lia].
  repeat constructor; intros e He; discriminate He.
Defined.
