(* ===== verification/RateLimit.v ===== *)
(** * [server/internal/auth/ratelimit.go]: failed-authentication limits and
    client addresses

    The per-process failure ladder, a map from (procedure, value, dimension) to
    the recent failures of that key, and the resolution of the client address
    behind trusted proxies.  [ParseAddr] and the textual form of an address are
    package [net/netip]'s. *)

From Stdlib Require Import Ascii String ZArith Lia.
From S2P Require Export GoText.

Definition failureBucketCapacity : Z := 4096.
Definition maxAccountKeyBytes : Z := 512.
Definition maxForwardedForHops : Z := 32.

(** ** Addresses *)

(** [netip.Addr]: the zero value, an IPv4 address, an IPv6 address and its
    zone. *)
Inductive Addr := NoAddr | Addr4 (a : Z) | Addr6 (a : Z) (zone : string).

#[export] Instance addr_eq_dec : EqDecision Addr.
Proof. solve_decision. Defined.

Definition addr_valid (a : Addr) : bool := match a with NoAddr => false | _ => true end.

(** [Addr.Is4In6] and [Addr.Unmap]: [::ffff:a.b.c.d], whose zone is dropped. *)
Definition is4in6 (a : Addr) : bool :=
  match a with Addr6 n _ => Z.shiftr n 32 =? 65535 | _ => false end.
Definition unmap (a : Addr) : Addr :=
  match a with Addr6 n _ => if is4in6 a then Addr4 (Z.land n (Z.ones 32)) else a | _ => a end.

(** [netip.Prefix] and its methods. *)
Record Prefix := mkPrefix { pf_Addr : Addr; pf_Bits : Z }.

Definition addr_bits (a : Addr) : Z := match a with NoAddr => 0 | Addr4 _ => 32 | Addr6 _ _ => 128 end.

Definition prefix_valid (p : Prefix) : bool :=
  match pf_Addr p with
  | NoAddr => false
  | Addr6 _ zone => String.eqb zone "" && (0 <=? pf_Bits p) && (pf_Bits p <=? 128)
  | Addr4 _ => (0 <=? pf_Bits p) && (pf_Bits p <=? 32)
  end.

Definition top_bits (n width bits : Z) : Z := Z.shiftr n (width - bits).

(** [p == p.Masked()] for a valid prefix: no bit below the prefix is set. *)
Definition prefix_masked (p : Prefix) : bool :=
  match pf_Addr p with
  | NoAddr => true
  | Addr4 n => Z.land n (Z.ones (32 - pf_Bits p)) =? 0
  | Addr6 n _ => Z.land n (Z.ones (128 - pf_Bits p)) =? 0
  end.

(** [Prefix.Contains]: same family, no zone, equal leading bits. *)
Definition prefix_contains (p : Prefix) (a : Addr) : bool :=
  prefix_valid p &&
  match pf_Addr p, a with
  | Addr4 n, Addr4 m => top_bits n 32 (pf_Bits p) =? top_bits m 32 (pf_Bits p)
  | Addr6 n _, Addr6 m zone =>
      String.eqb zone "" && (top_bits n 128 (pf_Bits p) =? top_bits m 128 (pf_Bits p))
  | _, _ => false
  end.

(** ** Policies and attempts *)

(** server/internal/auth/ratelimit.go:20-24 [FailureLimit] *)
Record FailureLimit := mkFailureLimit { fl_Attempts : Z; fl_Window : Z }.

(** server/internal/auth/ratelimit.go:26-30 [RateLimitPolicy] *)
Record RateLimitPolicy := mkRateLimitPolicy { PerIP : FailureLimit; PerAccount : FailureLimit }.

(** server/internal/auth/ratelimit.go:32-38 [AuthenticationAttempt] *)
Record AuthenticationAttempt := mkAuthenticationAttempt {
  at_Procedure : string;
  at_ClientIP : Addr;
  at_AccountKey : string;
  at_Succeeded : bool;
}.

(** server/internal/auth/ratelimit.go:48-59 [failureBucketKey]: procedure,
    value and dimension (1 for the address, 2 for the account) *)
Definition failureBucketKey : Type := string * string * Z.
Definition failureDimensionIP : Z := 1.
Definition failureDimensionAccount : Z := 2.

(** server/internal/auth/ratelimit.go:61-64 [failureBucket] *)
Record failureBucket := mkFailureBucket { fb_attempts : list time; fb_window : Z }.

(** server/internal/auth/ratelimit.go:40-46 [FailureLadder] *)
Record FailureLadder := mkFailureLadder {
  policies : gmap string RateLimitPolicy;
  buckets : gmap failureBucketKey failureBucket;
  nextSweep : time;
}.

(** server/internal/auth/ratelimit.go:85-87 [validFailureLimit] *)
Definition validFailureLimit (limit : FailureLimit) : bool := (0 <? fl_Attempts limit) && (0 <? fl_Window limit).

(** server/internal/auth/ratelimit.go:66-83 [NewFailureLadder] *)
Definition NewFailureLadder (policies : gmap string RateLimitPolicy) : result string FailureLadder :=
  fail_if (bool_decide (policies = ∅)) "rate-limit policy registry is empty"%string ≫= fun _ =>
  check_each (fun '(procedure, policy) =>
    fail_if (String.eqb procedure "") "rate-limit policy procedure is empty"%string ≫= fun _ =>
    fail_if (negb (validFailureLimit (PerIP policy)) || negb (validFailureLimit (PerAccount policy)))
      "rate-limit policy is invalid"%string) (map_to_list policies) ≫= fun _ =>
  Ok (mkFailureLadder policies ∅ zero_time).

(** server/internal/auth/ratelimit.go:148-155 [validAuthenticationAttempt] *)
Definition validAuthenticationAttempt (attempt : AuthenticationAttempt) : bool :=
  negb (String.eqb (at_Procedure attempt) "") && addr_valid (at_ClientIP attempt)
  && negb (String.eqb (at_AccountKey attempt) "") && (len (at_AccountKey attempt) <=? maxAccountKeyBytes)
  && valid_utf8 (at_AccountKey attempt) && negb (contains_byte "000" (at_AccountKey attempt)).

(** server/internal/auth/ratelimit.go:194-200 [currentFailures] *)
Fixpoint currentFailures (attempts : list time) (cutoff : time) : list time :=
  match attempts with
  | [] => []
  | t :: rest => if cutoff <? t then attempts else currentFailures rest cutoff
  end.

(** server/internal/auth/ratelimit.go:183-192 [prune] *)
Definition prune (now : time) (b : gmap failureBucketKey failureBucket) : gmap failureBucketKey failureBucket :=
  omap (fun bucket =>
    match currentFailures (fb_attempts bucket) (now - fb_window bucket) with
    | [] => None
    | attempts => Some (mkFailureBucket attempts (fb_window bucket))
    end) b.

(** server/internal/auth/ratelimit.go:167-181 [pruneKeys]: one key and its limit *)
Definition pruneKey (now : time) (kl : failureBucketKey * FailureLimit)
    (b : gmap failureBucketKey failureBucket) : gmap failureBucketKey failureBucket :=
  match b !! kl.1 with
  | None => b
  | Some bucket =>
      match currentFailures (fb_attempts bucket) (now - fl_Window kl.2) with
      | [] => delete kl.1 b
      | attempts => <[kl.1 := mkFailureBucket attempts (fl_Window kl.2)]> b
      end
  end.

(** server/internal/auth/ratelimit.go:157-165 [newBucketCount] *)
Definition newBucketCount (keys : list failureBucketKey) (b : gmap failureBucketKey failureBucket) : Z :=
  zlen (filter (fun k => b !! k = None) keys).

Definition over_capacity (keys : list failureBucketKey) (b : gmap failureBucketKey failureBucket) : bool :=
  failureBucketCapacity <? newBucketCount keys b + Z.of_nat (size b).

(** server/internal/auth/ratelimit.go:131-145 [Allow]: recording one key; a full
    bucket drops its oldest failure *)
Definition record_failure (now : time) (kl : failureBucketKey * FailureLimit)
    (s : bool * gmap failureBucketKey failureBucket) : bool * gmap failureBucketKey failureBucket :=
  let '(allowed, b) := s in
  let bucket := default (mkFailureBucket [] 0) (b !! kl.1) in
  if fl_Attempts kl.2 <=? zlen (fb_attempts bucket)
  then (false, <[kl.1 := mkFailureBucket (drop 1 (fb_attempts bucket) ++ [now]) (fl_Window kl.2)]> b)
  else (allowed, <[kl.1 := mkFailureBucket (fb_attempts bucket ++ [now]) (fl_Window kl.2)]> b).

Section Ladder.
Context (addr_string : Addr -> string).

(** The two keys of an attempt with their limits. *)
Definition attempt_keys (attempt : AuthenticationAttempt) (policy : RateLimitPolicy)
    : list (failureBucketKey * FailureLimit) :=
  [((at_Procedure attempt, addr_string (unmap (at_ClientIP attempt)), failureDimensionIP), PerIP policy);
   ((at_Procedure attempt, at_AccountKey attempt, failureDimensionAccount), PerAccount policy)].

(** server/internal/auth/ratelimit.go:105-130 [Allow]: sweeping and pruning
    before the attempt is recorded; the buckets and the next sweep *)
Definition prepare_buckets (ladder : FailureLadder) (keys : list (failureBucketKey * FailureLimit)) (now : time)
    : gmap failureBucketKey failureBucket * time :=
  let sweep := time_is_zero (nextSweep ladder) || (nextSweep ladder <=? now) in
  let b := if sweep then prune now (buckets ladder) else buckets ladder in
  let b := fold_left (fun b kl => pruneKey now kl b) keys b in
  (if over_capacity keys.*1 b then prune now b else b, if sweep then now + minute else nextSweep ladder).

(** server/internal/auth/ratelimit.go:89-146 [Allow]; a nil ladder is [None] *)
Definition Allow (l : option FailureLadder) (attempt : AuthenticationAttempt) (now : time)
    : option FailureLadder * bool :=
  match l with
  | None => (None, false)
  | Some ladder =>
      match policies ladder !! at_Procedure attempt with
      | None => (l, false)
      | Some policy =>
          if negb (validAuthenticationAttempt attempt) then (l, false)
          else if at_Succeeded attempt then (l, true)
          else
            let keys := attempt_keys attempt policy in
            let '(b, next) := prepare_buckets ladder keys now in
            if over_capacity keys.*1 b then (Some (mkFailureLadder (policies ladder) b next), false)
            else
              let '(allowed, b) := fold_left (fun s kl => record_failure now kl s) keys (true, b) in
              (Some (mkFailureLadder (policies ladder) b next), allowed)
      end
  end.
End Ladder.

(** ** The client address *)

Section ClientIP.
Context (ParseAddr : string -> option Addr).

(** server/internal/auth/ratelimit.go:207-215 [NewClientIPResolver] *)
Definition NewClientIPResolver (trusted : list Prefix) : result string (list Prefix) :=
  check_each (fun p => fail_if (negb (prefix_valid p) || negb (prefix_masked p) || is4in6 (pf_Addr p))
    "trusted proxy prefix is invalid"%string) trusted ≫= fun _ => Ok trusted.

(** server/internal/auth/ratelimit.go:241-248 [isTrusted] *)
Definition isTrusted (trusted : list Prefix) (a : Addr) : bool := existsb (fun p => prefix_contains p a) trusted.

(** The walk over the hops, the last one first. *)
Fixpoint walk_hops (trusted : list Prefix) (current : Addr) (hops : list string) : result string Addr :=
  match hops with
  | [] => Ok current
  | hop :: rest =>
      if isTrusted trusted current then
        or_err (ParseAddr (trim_space hop)) "trusted proxy chain is invalid"%string ≫= fun a =>
        walk_hops trusted (unmap a) rest
      else Ok current
  end.

(** server/internal/auth/ratelimit.go:217-239 [Resolve]; a nil resolver is
    [None] *)
Definition ResolveClientIP (r : option (list Prefix)) (peer : Addr) (forwardedFor : string) : result string Addr :=
  match r with
  | None => Err "client IP peer is invalid"%string
  | Some trusted =>
      fail_if (negb (addr_valid peer)) "client IP peer is invalid"%string ≫= fun _ =>
      let current := unmap peer in
      if String.eqb forwardedFor "" || negb (isTrusted trusted current) then Ok current
      else
        fail_if (maxForwardedForHops <=? count_byte "," forwardedFor) "trusted proxy chain is invalid"%string ≫= fun _ =>
        walk_hops trusted current (reverse (split_on "," forwardedFor))
  end.
End ClientIP.

(** ** The recorded failures of one key *)

Definition times_of (k : failureBucketKey) (h : list (failureBucketKey * time)) : list time :=
  (filter (fun e => e.1 = k) h).*2.

Definition bucket_times (b : gmap failureBucketKey failureBucket) (k : failureBucketKey) : list time :=
  default [] (fb_attempts <$> b !! k).

(** The failures of the last [w] before [now]. *)
Definition recent (now w : Z) (l : list time) : list time := filter (fun t => now - w < t) l.

(** A bucket holds the newest recorded failures: all that are still inside the
    window, or as many as the limit. *)
Definition newest (limit : FailureLimit) (now : time) (kept all : list time) : Prop :=
  exists dropped, all = dropped ++ kept /\ zlen kept <= fl_Attempts limit
  /\ (zlen kept = fl_Attempts limit \/ Forall (fun t => t <= now - fl_Window limit) dropped).

Lemma currentFailures_split l c :
  exists pre, l = pre ++ currentFailures l c /\ Forall (fun t => t <= c) pre
  /\ (StronglySorted Z.le l -> Forall (fun t => c < t) (currentFailures l c)).
Proof.
  induction l as [|t l IH]; [by exists []|]. cbn [currentFailures].
  destruct (c <? t) eqn:E; prop_bools.
  - exists []. split_and!; [done|done|]. intros Hs. inversion Hs as [|?? _ Hf]; subst.
    constructor; [done|]. eapply Forall_impl; [exact Hf|]. cbn. lia.
  - destruct IH as (pre & Heq & Hpre & Hcur). exists (t :: pre). split_and!; [by rewrite <- app_comm_cons, <- Heq|by constructor|].
    intros Hs. inversion Hs; subst. auto.
Qed.

Lemma newest_current limit now now' kept all :
  StronglySorted Z.le all -> now <= now' -> newest limit now kept all ->
  newest limit now' (currentFailures kept (now' - fl_Window limit)) all
  /\ Forall (fun t => now' - fl_Window limit < t) (currentFailures kept (now' - fl_Window limit)).
Proof.
  intros Hs Hle (dropped & -> & Hlen & Hor).
  destruct (currentFailures_split kept (now' - fl_Window limit)) as (pre & Heq & Hpre & Hcur).
  apply StronglySorted_app in Hs as (Hcross & _ & Hsk). split; [|auto].
  exists (dropped ++ pre). rewrite <- (assoc_L (++)), <- Heq. split; [done|].
  assert (zlen kept = zlen pre + zlen (currentFailures kept (now' - fl_Window limit))) as Hz.
  { pose proof (f_equal length Heq) as Hl. rewrite length_app in Hl. unfold zlen. lia. }
  split; [unfold zlen in *; lia|]. destruct pre as [|t pre].
  - rewrite app_nil_r. destruct Hor as [?|Hd]; [left; unfold zlen in *; cbn [length] in Hz; lia|right].
    eapply Forall_impl; [exact Hd|]. cbn. lia.
  - right. apply Forall_app. split; [|done]. apply Forall_forall. intros x Hx.
    inversion Hpre; subst. etransitivity; [|exact H1]. apply Hcross; [done|]. rewrite Heq. left.
Qed.

Lemma newest_record limit now kept all :
  0 < fl_Attempts limit -> newest limit now kept all ->
  newest limit now (if fl_Attempts limit <=? zlen kept then drop 1 kept ++ [now] else kept ++ [now]) (all ++ [now]).
Proof.
  intros Hpos (dropped & -> & Hlen & Hor). destruct (fl_Attempts limit <=? zlen kept) eqn:E; prop_bools.
  - destruct kept as [|t kept]; [unfold zlen in *; cbn in *; lia|]. exists (dropped ++ [t]).
    rewrite <- !(assoc_L (++)). cbn [drop app]. rewrite drop_0. split; [done|].
    unfold zlen in *. rewrite length_app. cbn [length] in *. split; [lia|left; lia].
  - exists dropped. rewrite (assoc_L (++)). split; [done|]. unfold zlen in *. rewrite length_app. cbn [length].
    split; [lia|]. destruct Hor as [?|Hd]; [lia|by right].
Qed.

(** With only current failures kept, the bucket is full exactly when the
    window holds at least as many failures as the limit. *)
Lemma newest_full limit now kept all :
  newest limit now kept all -> Forall (fun t => now - fl_Window limit < t) kept ->
  fl_Attempts limit <= zlen kept <-> fl_Attempts limit <= zlen (recent now (fl_Window limit) all).
Proof.
  intros (dropped & -> & Hlen & Hor) Hcur.
  assert (recent now (fl_Window limit) (dropped ++ kept) = recent now (fl_Window limit) dropped ++ kept) as ->.
  { unfold recent. rewrite filter_app. f_equal. clear -Hcur.
    induction Hcur as [|t l Ht _ IH]; [done|]. by rewrite filter_cons_True, IH. }
  destruct Hor as [Heq|Hd].
  - unfold zlen in *. rewrite length_app. lia.
  - unfold recent. rewrite filter_none; [done|]. intros t Ht. rewrite Forall_forall in Hd. specialize (Hd t Ht). lia.
Qed.

(** ** The invariant of the ladder *)

(** The limit a key is subject to. *)
Definition limit_of (pol : gmap string RateLimitPolicy) (k : failureBucketKey) : option FailureLimit :=
  let '(procedure, _, dimension) := k in
  (fun p => if dimension =? failureDimensionIP then PerIP p else PerAccount p) <$> pol !! procedure.

Record buckets_ok (pol : gmap string RateLimitPolicy) (b : gmap failureBucketKey failureBucket)
    (h : list (failureBucketKey * time)) (now : time) : Prop := {
  bo_newest k limit : limit_of pol k = Some limit -> newest limit now (bucket_times b k) (times_of k h);
  bo_window k bucket : b !! k = Some bucket ->
    fb_attempts bucket <> [] /\ exists limit, limit_of pol k = Some limit /\ fb_window bucket = fl_Window limit;
  bo_sorted k : StronglySorted Z.le (times_of k h);
  bo_past k t : t ∈ times_of k h -> t <= now;
}.

Definition policies_ok (pol : gmap string RateLimitPolicy) : Prop :=
  forall p policy, pol !! p = Some policy ->
  validFailureLimit (PerIP policy) = true /\ validFailureLimit (PerAccount policy) = true.

Lemma limit_positive pol k limit : policies_ok pol -> limit_of pol k = Some limit -> 0 < fl_Attempts limit /\ 0 < fl_Window limit.
Proof.
  intros Hp. destruct k as [[p v] d]. cbn. intros (policy & Hpol & ->)%fmap_Some. apply Hp in Hpol as [H1 H2].
  unfold validFailureLimit in *. prop_bools. by destruct (d =? failureDimensionIP).
Qed.

Lemma newest_later limit now now' kept all : now <= now' -> newest limit now kept all -> newest limit now' kept all.
Proof.
  intros Hle (dropped & -> & Hlen & Hor). exists dropped. split_and!; [done..|].
  destruct Hor as [?|Hd]; [by left|right]. eapply Forall_impl; [exact Hd|]. cbn. lia.
Qed.

Lemma buckets_ok_later pol b h now now' : now <= now' -> buckets_ok pol b h now -> buckets_ok pol b h now'.
Proof.
  intros Hle [Hn Hw Hs Hp]. split; [|done..|].
  - intros k limit Hk. eapply newest_later; eauto.
  - intros k t Ht. specialize (Hp k t Ht). lia.
Qed.

Lemma bucket_times_prune now b k :
  bucket_times (prune now b) k
  = match b !! k with
    | None => []
    | Some bucket => currentFailures (fb_attempts bucket) (now - fb_window bucket)
    end.
Proof.
  unfold bucket_times, prune. rewrite lookup_omap. destruct (b !! k) as [bucket|]; [|done]. cbn.
  by destruct (currentFailures _ _).
Qed.

Lemma prune_ok pol b h now : buckets_ok pol b h now -> buckets_ok pol (prune now b) h now.
Proof.
  intros [Hn Hw Hs Hp]. split; [| |done..].
  - intros k limit Hk. specialize (Hn k limit Hk). rewrite bucket_times_prune. unfold bucket_times in Hn.
    destruct (b !! k) as [bucket|] eqn:Ek; [|done]. destruct (Hw k bucket Ek) as (_ & limit' & Hk' & ->).
    assert (limit' = limit) as -> by congruence. by apply (newest_current limit now now).
  - intros k bucket. unfold prune. rewrite lookup_omap. intros (bucket0 & Hk & Hb)%bind_Some.
    destruct (Hw k bucket0 Hk) as (_ & limit & ? & ?). destruct (currentFailures _ _) as [|t l]; [done|].
    injection Hb as <-. split; [done|]. by exists limit.
Qed.

(** Only failures inside the key's window are kept. *)
Definition key_current (b : gmap failureBucketKey failureBucket) (now : time) (kl : failureBucketKey * FailureLimit) : Prop :=
  Forall (fun t => now - fl_Window kl.2 < t) (bucket_times b kl.1).

Lemma bucket_times_pruneKey now kl b k :
  bucket_times (pruneKey now kl b) k
  = if decide (kl.1 = k) then currentFailures (bucket_times b k) (now - fl_Window kl.2) else bucket_times b k.
Proof.
  unfold pruneKey, bucket_times. destruct (b !! kl.1) as [bucket|] eqn:Ek.
  - destruct (currentFailures (fb_attempts bucket) _) as [|t l] eqn:Ec; case_decide as Hk; subst;
      rewrite ?lookup_delete_eq, ?lookup_delete_ne, ?lookup_insert_eq, ?lookup_insert_ne, ?Ek by done; cbn; by rewrite ?Ec.
  - case_decide as Hk; [|done]. subst. by rewrite Ek.
Qed.

Lemma pruneKey_ok pol b h now kl :
  buckets_ok pol b h now -> limit_of pol kl.1 = Some kl.2 ->
  buckets_ok pol (pruneKey now kl b) h now /\ key_current (pruneKey now kl b) now kl.
Proof.
  intros [Hn Hw Hs Hp] Hlim.
  destruct (newest_current kl.2 now now (bucket_times b kl.1) (times_of kl.1 h)) as [Hnew Hcur]; [auto|lia|auto|].
  split; [split; [| |done..]|].
  - intros k limit Hk. rewrite bucket_times_pruneKey. case_decide as Heq; [|auto]. subst k.
    assert (limit = kl.2) as -> by congruence. done.
  - intros k bucket. unfold pruneKey. destruct (b !! kl.1) as [bucket0|] eqn:Ek; [|apply Hw].
    destruct (currentFailures (fb_attempts bucket0) _) as [|t l] eqn:Ec.
    + intros [_ Hk]%lookup_delete_Some. by apply Hw.
    + intros [[<- <-]|[_ Hk]]%lookup_insert_Some; [|by apply Hw]. split; [done|]. by exists kl.2.
  - unfold key_current. rewrite bucket_times_pruneKey, decide_True by done. done.
Qed.

Lemma current_suffix (P : time -> Prop) l c : Forall P l -> Forall P (currentFailures l c).
Proof.
  destruct (currentFailures_split l c) as (pre & Heq & _). rewrite Heq at 1. by intros [_ ?]%Forall_app.
Qed.

Lemma key_current_pruneKey b now kl kl' : key_current b now kl -> key_current (pruneKey now kl' b) now kl.
Proof. unfold key_current. rewrite bucket_times_pruneKey. case_decide; [apply current_suffix|done]. Qed.

Lemma key_current_prune b now kl : key_current b now kl -> key_current (prune now b) now kl.
Proof.
  unfold key_current. rewrite bucket_times_prune. unfold bucket_times. destruct (b !! kl.1); [apply current_suffix|done].
Qed.

Lemma prepare_ok pol ladder h now keys :
  buckets_ok pol (buckets ladder) h now -> Forall (fun kl => limit_of pol kl.1 = Some kl.2) keys ->
  buckets_ok pol (prepare_buckets ladder keys now).1 h now
  /\ Forall (key_current (prepare_buckets ladder keys now).1 now) keys.
Proof.
  intros Hok Hlim. unfold prepare_buckets. cbv zeta. cbn [fst].
  set (b0 := if _ || _ then prune now (buckets ladder) else buckets ladder).
  assert (buckets_ok pol b0 h now) as Hok0 by (unfold b0; case_match; [by apply prune_ok|done]).
  clearbody b0. clear Hok.
  assert (forall done b, buckets_ok pol b h now -> Forall (key_current b now) done ->
    buckets_ok pol (fold_left (fun b kl => pruneKey now kl b) keys b) h now
    /\ Forall (key_current (fold_left (fun b kl => pruneKey now kl b) keys b) now) (done ++ keys)) as Hfold.
  { clear b0 Hok0. induction keys as [|kl keys IH]; intros before b Hb Hd; [by rewrite app_nil_r|].
    apply Forall_cons in Hlim as [Hkl Hlim]. cbn [fold_left].
    destruct (pruneKey_ok pol b h now kl Hb Hkl) as [Hb' Hcur].
    destruct (IH Hlim (before ++ [kl]) (pruneKey now kl b) Hb') as [H1 H2].
    { apply Forall_app. split; [|by constructor]. eapply Forall_impl; [exact Hd|]. intros. by apply key_current_pruneKey. }
    split; [done|]. by rewrite <- (assoc_L (++)) in H2. }
  destruct (Hfold [] b0 Hok0 (Forall_nil_2 _)) as [H1 H2]. cbn [app] in H2.
  case_match; [|done]. split; [by apply prune_ok|]. eapply Forall_impl; [exact H2|]. intros. by apply key_current_prune.
Qed.

(** ** Recording *)

Lemma record_failure_eq now kl allowed b :
  record_failure now kl (allowed, b)
  = (allowed && negb (fl_Attempts kl.2 <=? zlen (bucket_times b kl.1)),
     <[kl.1 := mkFailureBucket (if fl_Attempts kl.2 <=? zlen (bucket_times b kl.1)
                                then drop 1 (bucket_times b kl.1) ++ [now]
                                else bucket_times b kl.1 ++ [now]) (fl_Window kl.2)]> b).
Proof.
  unfold record_failure, bucket_times. destruct (b !! kl.1) as [bucket|]; cbn [default fmap option_fmap option_map fb_attempts];
    destruct (fl_Attempts kl.2 <=? _); by rewrite ?andb_true_r, ?andb_false_r.
Qed.

Lemma times_of_snoc k k' t h : times_of k (h ++ [(k', t)]) = if decide (k' = k) then times_of k h ++ [t] else times_of k h.
Proof.
  unfold times_of. rewrite filter_app, fmap_app. case_decide as Hk.
  - by rewrite filter_cons_True, filter_nil by done.
  - rewrite filter_cons_False, filter_nil by done. by rewrite app_nil_r.
Qed.

Lemma bucket_times_insert b k k' bucket :
  bucket_times (<[k := bucket]> b) k' = if decide (k = k') then fb_attempts bucket else bucket_times b k'.
Proof.
  unfold bucket_times. case_decide; subst; by rewrite ?lookup_insert_eq, ?lookup_insert_ne by done.
Qed.

Lemma record_ok pol b h now kl allowed :
  policies_ok pol -> buckets_ok pol b h now -> limit_of pol kl.1 = Some kl.2 ->
  buckets_ok pol (record_failure now kl (allowed, b)).2 (h ++ [(kl.1, now)]) now.
Proof.
  intros Hpol [Hn Hw Hs Hp] Hlim. rewrite record_failure_eq. cbn [snd]. split.
  - intros k limit Hk. rewrite bucket_times_insert, times_of_snoc. cbn [fb_attempts]. case_decide as Heq; [|auto].
    subst k. assert (limit = kl.2) as -> by congruence. apply newest_record; [|auto]. by eapply limit_positive.
  - intros k bucket [[<- <-]|[_ Hk]]%lookup_insert_Some; [|by apply Hw]. cbn [fb_attempts fb_window].
    split; [|by exists kl.2]. destruct (_ <=? _); by apply app_not_nil_r || intros [_ ?]%app_eq_nil.
  - intros k. rewrite times_of_snoc. case_decide; [|auto]. apply StronglySorted_app_2; [|auto|by repeat constructor].
    intros x1 x2 Hx1 ->%list_elem_of_singleton. by apply (Hp k).
  - intros k t. rewrite times_of_snoc. case_decide; [|apply Hp]. rewrite elem_of_app, list_elem_of_singleton.
    intros [?| ->]; [by apply (Hp k)|lia].
Qed.

(** ** The ladder against its history *)

Lemma size_prune now b : (size (prune now b) <= size b)%nat.
Proof.
  rewrite <- !size_dom. apply subseteq_size. unfold prune. intros k. rewrite !elem_of_dom, lookup_omap.
  intros [v (bucket & -> & _)%bind_Some]. eauto.
Qed.

Lemma size_pruneKey now kl b : (size (pruneKey now kl b) <= size b)%nat.
Proof.
  unfold pruneKey. destruct (b !! kl.1) as [bucket|] eqn:Ek; [|done].
  destruct (currentFailures _ _); [rewrite map_size_delete, Ek; cbn; lia|rewrite map_size_insert, Ek; done].
Qed.

Lemma size_prepare ladder keys now : (size (prepare_buckets ladder keys now).1 <= size (buckets ladder))%nat.
Proof.
  unfold prepare_buckets. cbv zeta. cbn [fst]. set (b0 := if _ || _ then prune now (buckets ladder) else _).
  assert (size b0 <= size (buckets ladder))%nat as Hb0 by (unfold b0; case_match; [apply size_prune|done]).
  clearbody b0. assert (size (fold_left (fun b kl => pruneKey now kl b) keys b0) <= size b0)%nat as Hf.
  { clear Hb0. revert b0. induction keys as [|kl keys IH]; intros b0; [done|]. cbn [fold_left].
    etransitivity; [apply IH|apply size_pruneKey]. }
  case_match; [etransitivity; [apply size_prune|]; lia|lia].
Qed.

Section Limits.
Context (addr_string : Addr -> string) (pol : gmap string RateLimitPolicy).

(** The failures an attempt leaves on record: one for each of its keys, unless
    it is refused before recording. *)
Definition recorded (l : FailureLadder) (attempt : AuthenticationAttempt) (now : time)
    : list (failureBucketKey * time) :=
  match policies l !! at_Procedure attempt with
  | None => []
  | Some policy =>
      let keys := attempt_keys addr_string attempt policy in
      if validAuthenticationAttempt attempt && negb (at_Succeeded attempt)
         && negb (over_capacity keys.*1 (prepare_buckets l keys now).1)
      then (fun k => (k, now)) <$> keys.*1 else []
  end.

(** A ladder and the failures recorded so far, the clock never going back. *)
Inductive ladder_history : FailureLadder -> list (failureBucketKey * time) -> time -> Prop :=
| ladder_new l t : NewFailureLadder pol = Ok l -> ladder_history l [] t
| ladder_allow l h t attempt now l' ok :
    ladder_history l h t -> t <= now -> Allow addr_string (Some l) attempt now = (Some l', ok) ->
    ladder_history l' (h ++ recorded l attempt now) now.

Definition ladder_ok (l : FailureLadder) (h : list (failureBucketKey * time)) (now : time) : Prop :=
  policies l = pol /\ policies_ok pol /\ buckets_ok pol (buckets l) h now
  /\ Z.of_nat (size (buckets l)) <= failureBucketCapacity.

(** Below the limit of each of its keys, counting the window before [now]. *)
Definition below_limits (h : list (failureBucketKey * time)) (now : time) (keys : list (failureBucketKey * FailureLimit)) : Prop :=
  Forall (fun kl => zlen (recent now (fl_Window kl.2) (times_of kl.1 h)) < fl_Attempts kl.2) keys.

Lemma attempt_keys_limits attempt policy :
  pol !! at_Procedure attempt = Some policy ->
  Forall (fun kl => limit_of pol kl.1 = Some kl.2) (attempt_keys addr_string attempt policy).
Proof. intros Hp. repeat constructor; cbn; by rewrite Hp. Qed.

(** Recording the two keys of one attempt. *)
Lemma record_both b h now k1 l1 k2 l2 :
  k1 <> k2 -> policies_ok pol -> buckets_ok pol b h now ->
  limit_of pol k1 = Some l1 -> limit_of pol k2 = Some l2 ->
  key_current b now (k1, l1) -> key_current b now (k2, l2) -> over_capacity [k1; k2] b = false ->
  let r := fold_left (fun s kl => record_failure now kl s) [(k1, l1); (k2, l2)] (true, b) in
  buckets_ok pol r.2 (h ++ [(k1, now); (k2, now)]) now
  /\ Z.of_nat (size r.2) <= failureBucketCapacity
  /\ (r.1 = true <-> below_limits h now [(k1, l1); (k2, l2)]).
Proof.
  intros Hne Hpol Hok H1 H2 Hc1 Hc2 Hcap. cbn [fold_left]. cbv zeta.
  assert (forall kl, limit_of pol kl.1 = Some kl.2 -> key_current b now kl ->
    fl_Attempts kl.2 <= zlen (bucket_times b kl.1)
    <-> fl_Attempts kl.2 <= zlen (recent now (fl_Window kl.2) (times_of kl.1 h))) as Hfull.
  { intros kl Hl Hc. apply newest_full; [|done]. by apply Hok. }
  pose proof (Hfull (k1, l1) H1 Hc1) as Hf1. pose proof (Hfull (k2, l2) H2 Hc2) as Hf2. cbn [fst snd] in Hf1, Hf2.
  destruct (record_failure now (k1, l1) (true, b)) as [a1 b1] eqn:E1.
  pose proof (record_ok pol b h now (k1, l1) true Hpol Hok H1) as Hb1. rewrite E1 in Hb1. cbn [fst snd] in Hb1.
  pose proof (record_ok pol b1 _ now (k2, l2) a1 Hpol Hb1 H2) as Hb2. rewrite <- (assoc_L (++)) in Hb2.
  rewrite record_failure_eq in E1. cbn [fst snd andb] in E1. injection E1 as <- <-.
  split; [done|]. rewrite record_failure_eq. cbn [fst snd]. rewrite bucket_times_insert, decide_False by done. split.
  - unfold over_capacity, newBucketCount in Hcap. prop_bools. rewrite !map_size_insert, lookup_insert_ne by done.
    revert Hcap. rewrite !filter_cons, filter_nil.
    destruct (b !! k1) eqn:K1, (b !! k2) eqn:K2; repeat case_decide; try done; unfold zlen; cbn; lia.
  - rewrite andb_true_iff, !negb_true_iff, !Z.leb_gt. unfold below_limits.
    rewrite !Forall_cons, Forall_nil. cbn [fst snd]. lia.
Qed.

Lemma Allow_step l h now attempt l' ok :
  ladder_ok l h now -> Allow addr_string (Some l) attempt now = (Some l', ok) ->
  ladder_ok l' (h ++ recorded l attempt now) now
  /\ (ok = true <-> exists policy, pol !! at_Procedure attempt = Some policy
      /\ validAuthenticationAttempt attempt = true
      /\ (at_Succeeded attempt = true
          \/ recorded l attempt now <> [] /\ below_limits h now (attempt_keys addr_string attempt policy))).
Proof.
  intros (Hpol & Hpok & Hok & Hsize). unfold Allow, recorded. rewrite Hpol.
  destruct (pol !! at_Procedure attempt) as [policy|] eqn:Ep.
  2:{ intros [= <- <-]. rewrite app_nil_r. split; [done|]. split; [done|]. by intros (? & ? & _). }
  destruct (validAuthenticationAttempt attempt) eqn:Ev; cbn [negb andb].
  2:{ intros [= <- <-]. rewrite app_nil_r. split; [done|]. split; [done|]. by intros (? & _ & ? & _). }
  destruct (at_Succeeded attempt) eqn:Es; cbn [negb andb].
  { intros [= <- <-]. rewrite app_nil_r. split; [done|]. split; [|done]. intros _. exists policy. auto. }
  pose proof (attempt_keys_limits attempt policy Ep) as Hlim.
  destruct (prepare_ok pol l h now _ Hok Hlim) as [Hb Hcur].
  pose proof (size_prepare l (attempt_keys addr_string attempt policy) now) as Hsz. cbv zeta.
  destruct (prepare_buckets l (attempt_keys addr_string attempt policy) now) as [b next]. cbn [fst] in *.
  destruct (over_capacity _ b) eqn:Ecap; cbn [negb andb].
  { intros [= <- <-]. rewrite app_nil_r. split; [split_and!; cbn; try done; lia|]. split; [done|].
    intros (? & _ & _ & [?|[? _]]); done. }
  unfold attempt_keys in *. set (k1 := (at_Procedure attempt, addr_string _, _)) in *.
  set (k2 := (at_Procedure attempt, at_AccountKey attempt, _)) in *.
  rewrite !Forall_cons in Hlim, Hcur. destruct Hlim as (H1 & H2 & _), Hcur as (Hc1 & Hc2 & _).
  destruct (record_both b h now k1 (PerIP policy) k2 (PerAccount policy)) as (Hr & Hs & Hiff); try done.
  destruct (fold_left _ _ _) as [allowed b'] eqn:Ef. cbn [fst snd] in *. intros [= <- <-].
  split; [done|]. rewrite Hiff. split.
  - intros Hbelow. exists policy. auto.
  - intros (policy' & [= <-] & _ & [?|[_ ?]]); done.
Qed.

Lemma NewFailureLadder_ok l t : NewFailureLadder pol = Ok l -> ladder_ok l [] t.
Proof.
  unfold NewFailureLadder. intros Hnew. inv_result. destruct x0.
  assert (policies_ok pol) as Hpok.
  { intros p policy Hp. apply check_each_ok in H0. rewrite Forall_forall in H0.
    specialize (H0 (p, policy) (proj2 (elem_of_map_to_list _ _ _) Hp)). cbn in H0. inv_result. prop_bools. done. }
  split_and!; [done..| |done]. split; cbn.
  - intros k limit Hk. unfold bucket_times. rewrite lookup_empty. exists []. split; [done|].
    apply limit_positive in Hk as [Hk _]; [|done]. change (zlen _) with 0. split; [lia|by right].
  - intros k bucket. by rewrite lookup_empty.
  - constructor.
  - intros k y Hy. by apply not_elem_of_nil in Hy.
Qed.

Lemma ladder_history_ok l h t : ladder_history l h t -> ladder_ok l h t.
Proof.
  induction 1 as [l t Hnew|l h t attempt now l' ok _ IH Hle Hallow]; [by apply NewFailureLadder_ok|].
  apply (Allow_step l h now attempt l' ok); [|done].
  destruct IH as (? & ? & ? & ?). split_and!; [done..| |done]. by eapply buckets_ok_later.
Qed.
End Limits.

(** C15. The failure ladder is an exact sliding-window counter with bounded
    memory.  After any sequence of attempts with a clock that never goes back,
    an attempt is allowed if and only if its procedure has a policy, it is
    structurally valid, and it either succeeded (whatever failures are on
    record) or could be recorded and both its client address and its account
    had fewer failures recorded inside their windows than their limits allow,
    although each bucket remembers at most its limit of failures.  There are
    never more than 4096 buckets, none of them empty. *)
Theorem Allow_is_exact_sliding_window (addr_string : Addr -> string) (pol : gmap string RateLimitPolicy)
    (l : FailureLadder) (h : list (failureBucketKey * time)) (t now : time) (attempt : AuthenticationAttempt)
    (l' : option FailureLadder) (ok : bool) :
  ladder_history addr_string pol l h t -> t <= now -> Allow addr_string (Some l) attempt now = (l', ok) ->
  (ok = true <-> exists policy, pol !! at_Procedure attempt = Some policy
     /\ validAuthenticationAttempt attempt = true
     /\ (at_Succeeded attempt = true
         \/ recorded addr_string l attempt now <> []
            /\ below_limits h now (attempt_keys addr_string attempt policy)))
  /\ exists l2, l' = Some l2 /\ Z.of_nat (size (buckets l2)) <= failureBucketCapacity
     /\ forall k bucket, buckets l2 !! k = Some bucket -> exists limit, limit_of pol k = Some limit
        /\ 0 < zlen (fb_attempts bucket) <= fl_Attempts limit.
Proof.
  intros Hh Hle Hallow. assert (exists l2, l' = Some l2) as [l2 ->].
  { revert Hallow. unfold Allow. repeat case_match; intros [= <- _]; eauto. }
  assert (ladder_ok pol l h now) as Hok.
  { apply ladder_history_ok in Hh as (? & ? & ? & ?). split_and!; [done..| |done]. by eapply buckets_ok_later. }
  destruct (Allow_step addr_string pol l h now attempt l2 ok Hok Hallow) as [(_ & _ & Hb & Hs) Hiff].
  split; [done|]. exists l2. split_and!; [done..|]. intros k bucket Hk.
  destruct (bo_window _ _ _ _ Hb k bucket Hk) as (Hne & limit & Hlim & _). exists limit. split; [done|].
  destruct (bo_newest _ _ _ _ Hb k limit Hlim) as (_ & _ & Hlen & _). unfold bucket_times in Hlen.
  rewrite Hk in Hlen. cbn in Hlen. split; [|done]. unfold zlen. destruct (fb_attempts bucket); [done|]. cbn. lia.
Qed.

(** ** The resolved address *)

(** A client cannot choose its address by sending a header.  For a peer
    that is not a trusted proxy the result is the peer, whatever
    [X-Forwarded-For] says.  Otherwise the result is the peer or one of the
    hops such that the peer and every hop to its right are trusted proxies, and
    it is itself not a trusted proxy unless every hop of the chain is: what
    stands left of the first untrusted hop is never even parsed. *)
Theorem ResolveClientIP_first_untrusted (ParseAddr : string -> option Addr) (trusted : list Prefix)
    (peer : Addr) (forwardedFor : string) (a : Addr) :
  ResolveClientIP ParseAddr (Some trusted) peer forwardedFor = Ok a ->
  (isTrusted trusted (unmap peer) = false -> a = unmap peer)
  /\ exists ignored used addrs,
       split_on "," forwardedFor = ignored ++ reverse used
       /\ Forall2 (fun hop x => unmap <$> ParseAddr (trim_space hop) = Some x) used addrs
       /\ Forall (fun x => isTrusted trusted x = true) (take (length addrs) (unmap peer :: addrs))
       /\ last (unmap peer :: addrs) = Some a
       /\ (isTrusted trusted a = true -> forwardedFor <> "" -> ignored = []).
Proof.
  unfold ResolveClientIP. intros H. inv_result. clear x H0.
  destruct (String.eqb forwardedFor "") eqn:Ee; cbn [orb] in H.
  { apply String.eqb_eq in Ee as ->. inv_result. split; [done|]. exists [""%string], [], []. by split_and!. }
  assert (forall hops current, walk_hops ParseAddr trusted current hops = Ok a ->
    exists used rest addrs, hops = used ++ rest
    /\ Forall2 (fun hop x => unmap <$> ParseAddr (trim_space hop) = Some x) used addrs
    /\ Forall (fun x => isTrusted trusted x = true) (take (length addrs) (current :: addrs))
    /\ last (current :: addrs) = Some a /\ (isTrusted trusted a = true -> rest = [])) as Hwalk.
  { clear H. induction hops as [|hop hops IH]; intros current H; cbn [walk_hops] in H.
    - injection H as ->. exists [], [], []. by split_and!.
    - destruct (isTrusted trusted current) eqn:Et.
      + apply bind_ok in H as (x & Hx%or_err_ok & H). apply IH in H as (used & rest & addrs & -> & H1 & H2 & H3 & H4).
        exists (hop :: used), rest, (unmap x :: addrs). split_and!; [done| | | |done].
        * constructor; [by rewrite Hx|done].
        * cbn [length take]. by constructor.
        * by rewrite last_cons_cons.
      + injection H as ->. exists [], (hop :: hops), []. split_and!; try done. congruence. }
  destruct (isTrusted trusted (unmap peer)) eqn:Et; cbn [negb] in H.
  - split; [done|]. inv_result. apply Hwalk in H as (used & rest & addrs & Hs & H1 & H2 & H3 & H4).
    exists (reverse rest), used, addrs. split_and!; [|done..|].
    + rewrite <- reverse_app, <- Hs. by rewrite reverse_involutive.
    + intros Ht _. by rewrite H4.
  - inv_result. split; [done|]. exists (split_on "," forwardedFor), [], [].
    split_and!; [by rewrite app_nil_r|done..|]. congruence.
Qed.

(** ** Concrete runs *)

Definition sample_policies : gmap string RateLimitPolicy :=
  {[ "/Login"%string := mkRateLimitPolicy (mkFailureLimit 2 minute) (mkFailureLimit 1 minute) ]}.
Definition sample_ladder : FailureLadder := mkFailureLadder sample_policies ∅ zero_time.
Definition sample_attempt : AuthenticationAttempt :=
  mkAuthenticationAttempt "/Login" (Addr4 2130706433) "admin@example.com" false.
Definition sample_addr_string (a : Addr) : string :=
  match a with NoAddr => "invalid" | Addr4 _ => "v4" | Addr6 _ _ => "v6" end.

Lemma Allow_is_exact_sliding_window_witness :
  (Allow sample_addr_string (Some sample_ladder) sample_attempt 1000).2 = true.
Proof.
  refine (proj2 (proj1 (Allow_is_exact_sliding_window sample_addr_string sample_policies sample_ladder [] 0 1000
    sample_attempt _ _ (ladder_new _ _ _ 0 _) _ (surjective_pairing _))) _); [reflexivity|done|].
  exists (mkRateLimitPolicy (mkFailureLimit 2 minute) (mkFailureLimit 1 minute)).
  split; [reflexivity|]. split; [reflexivity|]. right. split; [vm_compute; discriminate|].
  repeat constructor.
Defined.

(** A trusted proxy at 10.0.0.1 and a parser of the one address the chain
    holds. *)
Definition sample_trusted : list Prefix := [mkPrefix (Addr4 167772160) 8].
Definition sample_parse (s : string) : option Addr :=
  if String.eqb s "203.0.113.7" then Some (Addr4 3405803783) else None.

Lemma ResolveClientIP_first_untrusted_witness :
  Addr4 3405803783 = Addr4 3405803783
  /\ (isTrusted sample_trusted (unmap (Addr4 167772161)) = false -> Addr4 3405803783 = unmap (Addr4 167772161)).
Proof.
  split; [reflexivity|].
  refine (proj1 (ResolveClientIP_first_untrusted sample_parse sample_trusted (Addr4 167772161)
    "garbage, 203.0.113.7" (Addr4 3405803783) _)). reflexivity.
Defined.
