(* ===== verification/Sign.v ===== *)
(** * [contract/sign], [contract/identity], [contract/manifest]: signed envelopes

    The framing of commands, device results and trust-state claims, their
    signing and verification, the ULID test of certificate identities and the
    manifest ordering.  Signature schemes and SHA-256 are parameters; a key is
    what [ValidateSigningKey] can find out about it. *)

From Stdlib Require Import Ascii String ZArith Lia.
From S2P Require Export GoText.

(** ** Framing *)

(** [binary.BigEndian]: the [k] low bytes of [n], the highest first. *)
Fixpoint big_endian (k : nat) (n : Z) : list Z :=
  match k with
  | O => []
  | S k => Z.land (Z.shiftr n (8 * Z.of_nat k)) 255 :: big_endian k n
  end.

(** contract/sign/sign.go:236-241 [lp]: what it appends to the buffer *)
Definition lp (x : list Z) : list Z := big_endian 8 (zlen x) ++ x.

(** contract/sign/sign.go:243-248 [tsBytes] *)
Definition tsBytes (seconds nanos : Z) : list Z :=
  big_endian 8 (wrap_u 64 seconds) ++ big_endian 4 (wrap_u 32 nanos).

(** contract/sign/trust_state.go:159-163 [uint64Bytes] *)
Definition uint64Bytes (value : Z) : list Z := big_endian 8 value.

(** [google.protobuf.Timestamp], [int64] seconds and [int32] nanoseconds, and
    its [AsTime]: [time.Unix] moves whole seconds out of the nanoseconds and
    keeps seconds since year 1 in an [int64]. *)
Record Timestamp := mkTimestamp { ts_Seconds : Z; ts_Nanos : Z }.

#[export] Instance timestamp_eq_dec : EqDecision Timestamp.
Proof. solve_decision. Defined.

Definition year1_offset : Z := 62135596800.

Definition AsTime (t : Timestamp) : time :=
  (wrap_s 64 (ts_Seconds t + ts_Nanos t / second + year1_offset) - year1_offset) * second + ts_Nanos t mod second.

(** ** Envelopes *)

(** contract/proto/powermanage/v1/signed_command.proto:21-47 [SignedCommand] *)
Record SignedCommand := mkSignedCommand {
  sc_Payload : string;
  sc_CommandType : string;
  sc_TargetDeviceId : string;
  sc_IssuedAt : option Timestamp;
  sc_ExpiresAt : option Timestamp;
  sc_Signature : string;
}.

(** contract/proto/powermanage/v1/device_signed.proto:22-39 [DeviceSigned] *)
Record DeviceSigned := mkDeviceSigned {
  ds_Payload : string;
  ds_ResultType : string;
  ds_DeviceId : string;
  ds_IssuedAt : option Timestamp;
  ds_Signature : string;
}.

(** contract/sign/trust_state.go:22-33 [TrustStateClaim] *)
Record TrustStateClaim := mkTrustStateClaim {
  tc_ReporterClass : string;
  tc_ClaimedClass : string;
  tc_ReporterCertificateFingerprint : string;
  tc_Generation : Z;
  tc_Revision : Z;
  tc_RootFingerprints : list string;
  tc_CRLIssuerFingerprint : string;
  tc_CRLSequence : Z;
}.

(** contract/sign/sign.go:59-71 [commandDomains] *)
Definition commandDomains : list (string * string) :=
  [("action", "power-manage:cmd:action:v1");
   ("osquery", "power-manage:cmd:osquery:v1");
   ("logquery", "power-manage:cmd:logquery:v1");
   ("inventory", "power-manage:cmd:inventory:v1");
   ("luks-revoke", "power-manage:cmd:luks-revoke:v1");
   ("lps-pubkey", "power-manage:cmd:lps-pubkey:v1");
   ("terminal-grant", "power-manage:cmd:terminal-grant:v1");
   ("sync-manifest", "power-manage:cmd:sync-manifest:v1")]%string.

(** contract/sign/result.go:37-47 [resultDomains] *)
Definition resultDomains : list (string * string) :=
  [("execution", "power-manage:result:execution:v1");
   ("compliance", "power-manage:result:compliance:v1");
   ("inventory", "power-manage:result:inventory:v1");
   ("alert", "power-manage:result:alert:v1");
   ("osquery", "power-manage:result:osquery:v1");
   ("logquery", "power-manage:result:logquery:v1")]%string.

Definition TrustStateSignatureDomain : string := "power-manage:trust-state:v1".
Definition MaxInstantWindow : Z := 15 * minute.
Definition MaxTerminalGrantWindow : Z := 60 * second.
Definition MaxFutureClockSkew : Z := 5 * minute.
Definition terminalGrantType : string := "terminal-grant".
Definition sha256FingerprintSize : Z := 32.

Definition domain_of (table : list (string * string)) (type : string) : option string :=
  snd <$> find (fun p => String.eqb p.1 type) table.

(** contract/identity/identity.go:35-50 [IsCanonicalULID] *)
Definition IsCanonicalULID (id : string) : bool :=
  (len id =? 26) &&
  match id with
  | EmptyString => false
  | String a rest =>
      byte_between "0" "7" a
      && string_forallb (fun c => is_digit c || (is_upper c && negb (Ascii.eqb c "I") && negb (Ascii.eqb c "L")
                                                 && negb (Ascii.eqb c "O") && negb (Ascii.eqb c "U"))) rest
  end.

(** contract/sign/sign.go:86-94 [CommandDomain] *)
Definition CommandDomain (commandType : string) : result string string :=
  or_err (domain_of commandDomains commandType) "unknown command_type"%string.

(** contract/sign/result.go:72-88 [isResultType] *)
Definition isResultType (s : string) : bool :=
  negb (String.eqb s "") && string_forallb (fun c => is_lower c || is_digit c || Ascii.eqb c "-") s.

(** contract/sign/result.go:57-70 [ResultDomain] *)
Definition ResultDomain (resultType : string) : result string string :=
  fail_if (negb (isResultType resultType)) "result_type violates the [a-z0-9-]+ grammar"%string ≫= fun _ =>
  or_err (domain_of resultDomains resultType) "result_type is not in the closed set"%string.

Definition ts_field (t : Timestamp) : list Z := tsBytes (ts_Seconds t) (ts_Nanos t).

(** contract/sign/sign.go:205-234 [CommandPreimage] *)
Definition CommandPreimage (cmd : SignedCommand) : result string (list Z) :=
  CommandDomain (sc_CommandType cmd) ≫= fun domain =>
  fail_if (len (sc_Payload cmd) =? 0) "empty payload"%string ≫= fun _ =>
  match sc_IssuedAt cmd, sc_ExpiresAt cmd with
  | Some issued, Some expires =>
      fail_if (negb (IsCanonicalULID (sc_TargetDeviceId cmd))) "target_device_id is not a ULID"%string ≫= fun _ =>
      Ok (lp (bytes domain) ++ lp (bytes (sc_CommandType cmd)) ++ lp (bytes (sc_TargetDeviceId cmd))
          ++ lp (ts_field issued) ++ lp (ts_field expires) ++ lp (bytes (sc_Payload cmd)))
  | _, _ => Err "issued_at and expires_at are required covered fields"%string
  end.

(** contract/sign/result.go:90-117 [ResultPreimage] *)
Definition ResultPreimage (env : DeviceSigned) : result string (list Z) :=
  ResultDomain (ds_ResultType env) ≫= fun domain =>
  fail_if (len (ds_Payload env) =? 0) "empty payload"%string ≫= fun _ =>
  or_err (ds_IssuedAt env) "issued_at is a required covered field"%string ≫= fun issued =>
  fail_if (negb (IsCanonicalULID (ds_DeviceId env))) "device_id is not a ULID"%string ≫= fun _ =>
  Ok (lp (bytes domain) ++ lp (bytes (ds_ResultType env)) ++ lp (bytes (ds_DeviceId env))
      ++ lp (ts_field issued) ++ lp (bytes (ds_Payload env))).

(** [for index, fingerprint := range claim.RootFingerprints]: each of SHA-256
    size and distinct from the earlier ones. *)
Fixpoint check_roots (earlier rest : list string) : result string unit :=
  match rest with
  | [] => Ok tt
  | fingerprint :: rest =>
      fail_if (negb (len fingerprint =? sha256FingerprintSize)) "root fingerprint must be a SHA-256 fingerprint"%string ≫= fun _ =>
      fail_if (existsb (String.eqb fingerprint) earlier) "root fingerprints must be distinct"%string ≫= fun _ =>
      check_roots (earlier ++ [fingerprint]) rest
  end.

Definition machine_class (s : string) : bool := String.eqb s "agent" || String.eqb s "gateway".

(** contract/sign/trust_state.go:97-140 [validateTrustStateClaim] *)
Definition validateTrustStateClaim (claim : TrustStateClaim) (rejectForbiddenReceipt : bool) : result string unit :=
  fail_if (negb (machine_class (tc_ReporterClass claim))) "reporter class must be agent or gateway"%string ≫= fun _ =>
  fail_if (negb (machine_class (tc_ClaimedClass claim))) "claimed class must be agent or gateway"%string ≫= fun _ =>
  fail_if (negb (len (tc_ReporterCertificateFingerprint claim) =? sha256FingerprintSize))
    "reporter certificate fingerprint must be a SHA-256 fingerprint"%string ≫= fun _ =>
  fail_if (tc_Generation claim =? 0) "generation must be greater than zero"%string ≫= fun _ =>
  fail_if (tc_Revision claim =? 0) "revision must be greater than zero"%string ≫= fun _ =>
  fail_if ((zlen (tc_RootFingerprints claim) <? 1) || (2 <? zlen (tc_RootFingerprints claim)))
    "root fingerprints must contain one or two entries"%string ≫= fun _ =>
  check_roots [] (tc_RootFingerprints claim) ≫= fun _ =>
  let requiresReceipt := String.eqb (tc_ReporterClass claim) "gateway" && String.eqb (tc_ClaimedClass claim) "agent" in
  let hasIssuer := negb (len (tc_CRLIssuerFingerprint claim) =? 0) in
  let hasSequence := negb (tc_CRLSequence claim =? 0) in
  fail_if (xorb hasIssuer hasSequence || (hasIssuer && negb (len (tc_CRLIssuerFingerprint claim) =? sha256FingerprintSize)))
    "crl receipt requires a SHA-256 issuer fingerprint and non-zero sequence"%string ≫= fun _ =>
  fail_if (requiresReceipt && negb hasIssuer) "crl receipt is required when a gateway confirms agent trust"%string ≫= fun _ =>
  fail_if (rejectForbiddenReceipt && negb requiresReceipt && hasIssuer)
    "crl receipt is forbidden for this reporter and claimed class"%string.

(** contract/sign/trust_state.go:142-157 [trustStatePreimage] *)
Definition trustStatePreimage (claim : TrustStateClaim) : list Z :=
  lp (bytes TrustStateSignatureDomain) ++ lp (bytes (tc_ReporterClass claim)) ++ lp (bytes (tc_ClaimedClass claim))
  ++ lp (bytes (tc_ReporterCertificateFingerprint claim))
  ++ lp (uint64Bytes (tc_Generation claim)) ++ lp (uint64Bytes (tc_Revision claim))
  ++ lp (uint64Bytes (zlen (tc_RootFingerprints claim)))
  ++ concat ((fun f => lp (bytes f)) <$> tc_RootFingerprints claim)
  ++ lp (bytes (tc_CRLIssuerFingerprint claim)) ++ lp (uint64Bytes (tc_CRLSequence claim)).

(** contract/sign/trust_state.go:35-42 [TrustStatePreimage] *)
Definition TrustStatePreimage (claim : TrustStateClaim) : result string (list Z) :=
  validateTrustStateClaim claim true ≫= fun _ => Ok (trustStatePreimage claim).

(** ** Keys *)

(** What a library call that may panic does; the panics are recovered. *)
Inductive outcome := Fine | Fails | Panics.

Inductive Curve := P224 | P256 | P384 | P521 | OtherCurve.

(** [*ecdsa.PublicKey]: its curve, what [Bytes] does on it, its identity. *)
Record ECDSAPublicKey := mkECDSAPublicKey { ep_Curve : Curve; ep_Bytes : outcome; ep_Point : string }.

(** [*ecdsa.PrivateKey]: what [Bytes] and [ParseRawPrivateKey] do, and the
    public key of the parsed scalar. *)
Record ECDSAPrivateKey := mkECDSAPrivateKey {
  ek_Public : ECDSAPublicKey; ek_Bytes : outcome; ek_Parse : outcome; ek_Derived : string }.

(** [*rsa.PublicKey] and [*rsa.PrivateKey] with what [Validate] does. *)
Record RSAPublicKey := mkRSAPublicKey { rp_N : option Z; rp_E : Z }.
Record RSAPrivateKey := mkRSAPrivateKey { rk_Public : RSAPublicKey; rk_Validate : outcome }.

(** A [crypto.PublicKey] or [crypto.Signer]; [None] is a typed nil. *)
Inductive SigningKey :=
| KeyNil
| KeyECDSAPublic (k : option ECDSAPublicKey)
| KeyECDSAPrivate (k : option ECDSAPrivateKey)
| KeyRSAPublic (k : option RSAPublicKey)
| KeyRSAPrivate (k : option RSAPrivateKey)
| KeyEd25519
| KeySigner (typed_nil : bool) (public : SigningKey)
| KeyOther.

Definition fine (o : outcome) (e : string) : result string unit :=
  match o with Fine => Ok tt | _ => Err e end.

(** contract/sign/sign.go:191-203 [validateECDSAPoint] *)
Definition validateECDSAPoint (k : ECDSAPublicKey) : result string unit :=
  fine (ep_Bytes k) "invalid ECDSA public key".

(** contract/sign/sign.go:159-177 [validateECDSAPrivateKey] *)
Definition validateECDSAPrivateKey (k : ECDSAPrivateKey) : result string unit :=
  fine (ek_Bytes k) "invalid ECDSA private key" ≫= fun _ =>
  fine (ek_Parse k) "invalid ECDSA private key" ≫= fun _ =>
  fail_if (negb (String.eqb (ek_Derived k) (ep_Point (ek_Public k))))
    "private scalar does not match public point"%string.

(** contract/sign/sign.go:179-189 [validateRSAPrivateKey] *)
Definition validateRSAPrivateKey (k : RSAPrivateKey) : result string unit :=
  fine (rk_Validate k) "invalid RSA private key".

Definition validate_ecdsa_public (k : option ECDSAPublicKey) : result string unit :=
  or_err k "nil ECDSA public key"%string ≫= fun k =>
  match ep_Curve k with
  | P256 | P384 | P521 => validateECDSAPoint k
  | _ => Err "unsupported ECDSA curve"%string
  end.

Definition validate_rsa_public (k : option RSAPublicKey) : result string unit :=
  or_err k "nil RSA public key"%string ≫= fun k =>
  fail_if (match rp_N k with
           | None => true
           | Some n => (n <=? 0) || (Z.log2 n + 1 <? 2048) || negb (Z.testbit n 0)
           end || (rp_E k <? 3) || (Z.rem (rp_E k) 2 =? 0)) "invalid RSA public key"%string.

(** contract/sign/sign.go:96-157 [ValidateSigningKey] *)
Fixpoint ValidateSigningKey (key : SigningKey) : result string unit :=
  match key with
  | KeyNil => Err "nil command-signing key"%string
  | KeyECDSAPrivate k =>
      or_err k "nil ECDSA private key"%string ≫= fun k =>
      validate_ecdsa_public (Some (ek_Public k)) ≫= fun _ => validateECDSAPrivateKey k
  | KeyRSAPrivate k =>
      or_err k "nil RSA private key"%string ≫= fun k =>
      validate_rsa_public (Some (rk_Public k)) ≫= fun _ => validateRSAPrivateKey k
  | KeyECDSAPublic k => validate_ecdsa_public k
  | KeyRSAPublic k => validate_rsa_public k
  | KeyEd25519 => Err "ed25519 keys are refused for command signing"%string
  | KeySigner typed_nil public => if typed_nil then Err "nil signing key"%string else ValidateSigningKey public
  | KeyOther => Err "unsupported command-signing key type"%string
  end.

(** ** Signing and verifying *)

(** contract/sign/sign.go:73-84 [VerifyOptions] *)
Record VerifyOptions := mkVerifyOptions { vo_DeviceID : string; vo_Now : time; vo_Instant : bool }.

(** The signature schemes: [crypto.Signer.Sign] on a digest, [VerifyASN1],
    [VerifyPKCS1v15] and [asn1.Unmarshal] into a pair of integers. *)
Class Schemes := {
  sha256 : list Z -> string;
  signDigest : SigningKey -> string -> result string string;
  verifyASN1 : ECDSAPublicKey -> string -> string -> bool;
  verifyPKCS1v15 : RSAPublicKey -> string -> string -> bool;
  parsesASN1 : string -> bool;
}.

Section Schemed.
Context `{Schemes}.

(** The switch over the verifying key's type. *)
Definition verify_digest (pub : SigningKey) (digest signature : string) : result string unit :=
  match pub with
  | KeyECDSAPublic (Some k) => fail_if (negb (verifyASN1 k digest signature)) "signature does not verify"%string
  | KeyRSAPublic (Some k) => fail_if (negb (verifyPKCS1v15 k digest signature)) "signature does not verify"%string
  | _ => Err "unsupported verifying key type"%string
  end.

Definition with_signature (signature : string) (cmd : SignedCommand) : SignedCommand :=
  mkSignedCommand (sc_Payload cmd) (sc_CommandType cmd) (sc_TargetDeviceId cmd) (sc_IssuedAt cmd)
    (sc_ExpiresAt cmd) signature.

(** contract/sign/sign.go:250-268 [SignCommand] *)
Definition SignCommand (key : SigningKey) (cmd : SignedCommand) : result string SignedCommand :=
  ValidateSigningKey key ≫= fun _ =>
  CommandPreimage cmd ≫= fun preimage =>
  signDigest key (sha256 preimage) ≫= fun signature => Ok (with_signature signature cmd).

(** contract/sign/sign.go:304-325 [VerifyCommand]: the checks of the times *)
Definition verify_times (cmd : SignedCommand) (opts : VerifyOptions) (issued expires : time) : result string unit :=
  let now := vo_Now opts in
  fail_if (expires <? issued) "issued_at is after expires_at"%string ≫= fun _ =>
  fail_if ((now <? issued) && (MaxFutureClockSkew <? time_sub issued now)) "issued_at is in the future"%string ≫= fun _ =>
  fail_if (expires <? now) "command expired"%string ≫= fun _ =>
  let window := time_sub expires issued in
  fail_if (vo_Instant opts && (MaxInstantWindow <? window)) "instant command window exceeds the maximum"%string ≫= fun _ =>
  fail_if (String.eqb (sc_CommandType cmd) terminalGrantType && (MaxTerminalGrantWindow <? window))
    "terminal-grant window exceeds the maximum"%string.

(** contract/sign/sign.go:270-326 [VerifyCommand] *)
Definition VerifyCommand (pub : SigningKey) (cmd : SignedCommand) (opts : VerifyOptions) : result string string :=
  fail_if (time_is_zero (vo_Now opts)) "VerifyOptions.Now is unset"%string ≫= fun _ =>
  ValidateSigningKey pub ≫= fun _ =>
  CommandPreimage cmd ≫= fun preimage =>
  fail_if (negb (String.eqb (sc_TargetDeviceId cmd) (vo_DeviceID opts)))
    "target_device_id is not the verifying device"%string ≫= fun _ =>
  verify_digest pub (sha256 preimage) (sc_Signature cmd) ≫= fun _ =>
  match sc_IssuedAt cmd, sc_ExpiresAt cmd with
  | Some issued, Some expires =>
      verify_times cmd opts (AsTime issued) (AsTime expires) ≫= fun _ => Ok (sc_Payload cmd)
  | _, _ => Err "unreachable: CommandPreimage requires both"%string
  end.

(** contract/sign/result.go:119-137 [SignResult] *)
Definition SignResult (key : SigningKey) (env : DeviceSigned) : result string DeviceSigned :=
  ValidateSigningKey key ≫= fun _ =>
  ResultPreimage env ≫= fun preimage =>
  signDigest key (sha256 preimage) ≫= fun signature =>
  Ok (mkDeviceSigned (ds_Payload env) (ds_ResultType env) (ds_DeviceId env) (ds_IssuedAt env) signature).

(** contract/sign/result.go:139-170 [VerifyResult] *)
Definition VerifyResult (pub : SigningKey) (env : DeviceSigned) (deviceID : string) : result string string :=
  ValidateSigningKey pub ≫= fun _ =>
  ResultPreimage env ≫= fun preimage =>
  fail_if (negb (String.eqb (ds_DeviceId env) deviceID)) "device_id is not the expected reporter"%string ≫= fun _ =>
  verify_digest pub (sha256 preimage) (ds_Signature env) ≫= fun _ => Ok (ds_Payload env).

(** contract/sign/trust_state.go:44-60 [SignTrustState] *)
Definition SignTrustState (key : SigningKey) (claim : TrustStateClaim) : result string string :=
  ValidateSigningKey key ≫= fun _ =>
  TrustStatePreimage claim ≫= fun preimage => signDigest key (sha256 preimage).

(** contract/sign/trust_state.go:62-95 [VerifyTrustState] *)
Definition VerifyTrustState (pub : SigningKey) (claim : TrustStateClaim) (signature : string) : result string unit :=
  ValidateSigningKey pub ≫= fun _ =>
  fail_if (len signature =? 0) "trust-state signature is empty"%string ≫= fun _ =>
  validateTrustStateClaim claim false ≫= fun _ =>
  fail_if (match pub with KeyECDSAPublic (Some _) => negb (parsesASN1 signature) | _ => false end)
    "trust-state signature is malformed"%string ≫= fun _ =>
  verify_digest pub (sha256 (trustStatePreimage claim)) signature ≫= fun _ =>
  validateTrustStateClaim claim true.
End Schemed.

(** contract/manifest/manifest.go:8-16 [Newer] *)
Definition Newer (epoch generation lastEpoch lastGeneration : Z) : bool :=
  if negb (epoch =? lastEpoch) then lastEpoch <? epoch else lastGeneration <? generation.

(** ** The framing is injective *)

Fixpoint from_big_endian (l : list Z) : Z :=
  match l with
  | [] => 0
  | b :: l => b * 2 ^ (8 * zlen l) + from_big_endian l
  end.

Lemma length_big_endian k n : length (big_endian k n) = k.
Proof. induction k as [|k IH]; cbn; auto. Qed.

Lemma big_endian_value k n : from_big_endian (big_endian k n) = n mod 2 ^ (8 * Z.of_nat k).
Proof.
  induction k as [|k IH]; cbn [big_endian from_big_endian]; [by rewrite Z.mod_1_r|].
  rewrite IH. unfold zlen. rewrite length_big_endian.
  change 255 with (Z.ones 8). rewrite Z.land_ones, Z.shiftr_div_pow2 by lia.
  replace (8 * Z.of_nat (S k)) with (8 * Z.of_nat k + 8) by lia. rewrite Z.pow_add_r by lia.
  rewrite Z.rem_mul_r by (try apply Z.pow_nonzero; try apply Z.pow_pos_nonneg; lia). lia.
Qed.

Lemma big_endian_inj k n m :
  0 <= n < 2 ^ (8 * Z.of_nat k) -> 0 <= m < 2 ^ (8 * Z.of_nat k) -> big_endian k n = big_endian k m -> n = m.
Proof.
  intros Hn Hm He. apply (f_equal from_big_endian) in He. rewrite !big_endian_value in He.
  by rewrite !Z.mod_small in He.
Qed.

Lemma wrap_u_s w n : 0 < w -> - 2 ^ (w - 1) <= n < 2 ^ (w - 1) -> wrap_s w (wrap_u w n) = n.
Proof.
  intros Hw Hn. unfold wrap_u, wrap_s. rewrite Zplus_mod_idemp_l.
  assert (2 ^ w = 2 * 2 ^ (w - 1)) as Hp by (rewrite <- Z.pow_succ_r by lia; f_equal; lia).
  rewrite Z.mod_small; lia.
Qed.

Definition ts_typed (t : Timestamp) : Prop :=
  - 2 ^ 63 <= ts_Seconds t < 2 ^ 63 /\ - 2 ^ 31 <= ts_Nanos t < 2 ^ 31.

Lemma ts_field_inj t u : ts_typed t -> ts_typed u -> ts_field t = ts_field u -> t = u.
Proof.
  intros [Hs Hn] [Hs' Hn'] He. unfold ts_field, tsBytes in He.
  apply app_inj_1 in He as [H1 H2]; [|by rewrite !length_big_endian].
  apply big_endian_inj in H1; [|apply Z.mod_pos_bound; lia..].
  apply big_endian_inj in H2; [|apply Z.mod_pos_bound; lia..].
  destruct t as [s n], u as [s' n']; cbn in *. f_equal.
  - rewrite <- (wrap_u_s 64 s), <- (wrap_u_s 64 s'), H1; [done|lia..].
  - rewrite <- (wrap_u_s 32 n), <- (wrap_u_s 32 n'), H2; [done|lia..].
Qed.

Definition fits (x : list Z) : Prop := zlen x <= max_int64.

Lemma lp_inj x y r s : fits x -> fits y -> lp x ++ r = lp y ++ s -> x = y /\ r = s.
Proof.
  unfold lp, fits. intros Hx Hy He. rewrite <- !(assoc_L (++)) in He.
  apply app_inj_1 in He as [Hl He]; [|by rewrite !length_big_endian].
  apply big_endian_inj in Hl; [|unfold zlen, max_int64 in *; lia..].
  apply app_inj_1 in He; [done|]. unfold zlen in Hl. lia.
Qed.

(** A sequence of length-prefixed fields determines the fields. *)
Lemma lps_inj (l k : list (list Z)) :
  Forall fits l -> Forall fits k -> concat (lp <$> l) = concat (lp <$> k) -> l = k.
Proof.
  intros Hl. revert k. induction Hl as [|x l Hx Hl IH]; intros k Hk He; destruct Hk as [|y k Hy Hk]; try done.
  rewrite !fmap_cons in He. cbn [concat] in He.
  apply lp_inj in He as [-> He]; [|done..]. f_equal. by apply IH.
Qed.

#[local] Arguments lp : simpl never.
#[local] Arguments big_endian : simpl never.

Lemma bytes_inj s t : bytes s = bytes t -> s = t.
Proof. intros He. by rewrite <- (string_of_bytes_of s), He, string_of_bytes_of. Qed.

(** ** One preimage, one meaning *)

Inductive Envelope := ECommand (c : SignedCommand) | EResult (r : DeviceSigned) | ETrustState (t : TrustStateClaim).

Definition preimage (e : Envelope) : result string (list Z) :=
  match e with
  | ECommand c => CommandPreimage c
  | EResult r => ResultPreimage r
  | ETrustState t => TrustStatePreimage t
  end.

(** The ranges of the Go types: slice lengths, [int64], [int32], [uint64]. *)
Definition envelope_typed (e : Envelope) : Prop :=
  match e with
  | ECommand c => len (sc_Payload c) <= max_int64
      /\ from_option ts_typed True (sc_IssuedAt c) /\ from_option ts_typed True (sc_ExpiresAt c)
  | EResult r => len (ds_Payload r) <= max_int64 /\ from_option ts_typed True (ds_IssuedAt r)
  | ETrustState t => 0 <= tc_Generation t <= max_uint64 /\ 0 <= tc_Revision t <= max_uint64
      /\ 0 <= tc_CRLSequence t <= max_uint64 /\ len (tc_CRLIssuerFingerprint t) <= max_int64
  end.

(** Everything but the signature. *)
Definition covered (e : Envelope) : Envelope :=
  match e with
  | ECommand c => ECommand (with_signature "" c)
  | EResult r => EResult (mkDeviceSigned (ds_Payload r) (ds_ResultType r) (ds_DeviceId r) (ds_IssuedAt r) "")
  | ETrustState t => ETrustState t
  end.

(** The framed fields. *)
Definition fields (e : Envelope) : list (list Z) :=
  match e with
  | ECommand c =>
      [bytes (default ""%string (domain_of commandDomains (sc_CommandType c))); bytes (sc_CommandType c);
       bytes (sc_TargetDeviceId c); from_option ts_field [] (sc_IssuedAt c);
       from_option ts_field [] (sc_ExpiresAt c); bytes (sc_Payload c)]
  | EResult r =>
      [bytes (default ""%string (domain_of resultDomains (ds_ResultType r))); bytes (ds_ResultType r);
       bytes (ds_DeviceId r); from_option ts_field [] (ds_IssuedAt r); bytes (ds_Payload r)]
  | ETrustState t =>
      [bytes TrustStateSignatureDomain; bytes (tc_ReporterClass t); bytes (tc_ClaimedClass t);
       bytes (tc_ReporterCertificateFingerprint t); uint64Bytes (tc_Generation t); uint64Bytes (tc_Revision t);
       uint64Bytes (zlen (tc_RootFingerprints t))] ++ (bytes <$> tc_RootFingerprints t)
      ++ [bytes (tc_CRLIssuerFingerprint t); uint64Bytes (tc_CRLSequence t)]
  end.

Lemma fits_bytes s : len s <= max_int64 -> fits (bytes s).
Proof. unfold fits, zlen, len. by rewrite length_bytes. Qed.

Lemma fits_be k n : (k <= 8)%nat -> fits (big_endian k n).
Proof. intros. unfold fits, zlen, max_int64. rewrite length_big_endian. lia. Qed.

Lemma fits_ts t : fits (ts_field t).
Proof. unfold fits, zlen, max_int64, ts_field, tsBytes. rewrite length_app, !length_big_endian. lia. Qed.

Lemma find_in (table : list (string * string)) type d :
  domain_of table type = Some d -> (type, d) ∈ table.
Proof.
  unfold domain_of. intros (p & Hf & ->)%fmap_Some. apply find_some in Hf as [Hin He].
  apply String.eqb_eq in He as <-. apply list_elem_of_In. by destruct p.
Qed.

(** Every registered type and its domain are short. *)
Lemma table_fits table type d :
  forallb (fun p => (len p.1 <=? 64) && (len p.2 <=? 64)) table = true ->
  (type, d) ∈ table -> fits (bytes type) /\ fits (bytes d).
Proof.
  rewrite forallb_forall. intros Hall Hin%list_elem_of_In. specialize (Hall _ Hin). cbn in Hall. prop_bools.
  split; apply fits_bytes; unfold max_int64; lia.
Qed.

Lemma canonical_ulid_fits id : IsCanonicalULID id = true -> fits (bytes id).
Proof. unfold IsCanonicalULID. intros H. prop_bools. apply fits_bytes. unfold max_int64. lia. Qed.

Lemma check_roots_ok earlier l :
  check_roots earlier l = Ok tt -> Forall (fun f => len f = sha256FingerprintSize) l.
Proof.
  revert earlier. induction l as [|f l IH]; intros earlier H; [constructor|]. cbn [check_roots] in H. inv_result.
  prop_bools. constructor; [done|]. destruct x, x0. by eapply IH.
Qed.

Lemma machine_class_fits s : machine_class s = true -> fits (bytes s).
Proof.
  unfold machine_class. intros [->%String.eqb_eq| ->%String.eqb_eq]%orb_true_iff; apply fits_bytes; by vm_compute.
Qed.

(** A preimage is the framing of the fields, each short enough to be framed. *)
Lemma preimage_fields e p :
  envelope_typed e -> preimage e = Ok p -> p = concat (lp <$> fields e) /\ Forall fits (fields e).
Proof.
  destruct e as [c|r|t]; cbn [envelope_typed preimage].
  - unfold CommandPreimage, CommandDomain. intros (Hp & _) H. cbn [fields].
    destruct (domain_of commandDomains (sc_CommandType c)) as [d|] eqn:D; [|by inv_result].
    apply find_in, table_fits in D as [Ht Hd]; [|by vm_compute]. cbn [default]. inv_result.
    destruct (sc_IssuedAt c) as [i|], (sc_ExpiresAt c) as [e|]; try done. inv_result. prop_bools.
    simplify_eq. split; [cbn [fmap list_fmap concat from_option]; by rewrite app_nil_r|].
    repeat constructor; try done; try apply fits_ts; [by apply canonical_ulid_fits|by apply fits_bytes].
  - unfold ResultPreimage, ResultDomain. intros (Hp & _) H. cbn [fields].
    destruct (domain_of resultDomains (ds_ResultType r)) as [d|] eqn:D; [|by inv_result].
    apply find_in, table_fits in D as [Ht Hd]; [|by vm_compute]. cbn [default]. inv_result.
    destruct (ds_IssuedAt r) as [i|]; [|done]. simplify_eq. prop_bools.
    split; [cbn [fmap list_fmap concat from_option]; by rewrite app_nil_r|].
    repeat constructor; try done; try apply fits_ts; [by apply canonical_ulid_fits|by apply fits_bytes].
  - unfold TrustStatePreimage, validateTrustStateClaim. intros (_ & _ & _ & Hc) H. inv_result. prop_bools.
    destruct x6. split.
    + unfold trustStatePreimage. cbn [fields app fmap list_fmap concat]. rewrite fmap_app, concat_app, <- list_fmap_compose.
      cbn [fmap list_fmap concat]. by rewrite app_nil_r.
    + cbn [fields app]. repeat (apply Forall_cons; split); try by apply machine_class_fits.
      * apply fits_bytes. by vm_compute.
      * apply fits_bytes. rewrite H3. by vm_compute.
      * by apply fits_be.
      * by apply fits_be.
      * by apply fits_be.
      * apply Forall_app. split; [|repeat constructor; [by apply fits_bytes|by apply fits_be]].
        apply check_roots_ok in H7. apply Forall_fmap. eapply Forall_impl; [exact H7|].
        intros f Hf. apply fits_bytes. rewrite Hf. by vm_compute.
Qed.

Lemma uint64_inj n m : 0 <= n <= max_uint64 -> 0 <= m <= max_uint64 -> uint64Bytes n = uint64Bytes m -> n = m.
Proof.
  intros Hn Hm. assert (2 ^ (8 * Z.of_nat 8) = max_uint64 + 1) as Hw by done.
  apply (big_endian_inj 8); lia.
Qed.

Lemma preimage_times e p : preimage e = Ok p ->
  match e with
  | ECommand c => is_Some (sc_IssuedAt c) /\ is_Some (sc_ExpiresAt c)
  | EResult r => is_Some (ds_IssuedAt r)
  | ETrustState _ => True
  end.
Proof.
  destruct e as [c|r|t]; cbn [preimage]; [| |done]; intros H.
  - unfold CommandPreimage in H. inv_result. destruct (sc_IssuedAt c), (sc_ExpiresAt c); done.
  - unfold ResultPreimage in H. inv_result. destruct (ds_IssuedAt r); done.
Qed.

Lemma cons_eq_inv {A} (x y : A) l k : x :: l = y :: k -> x = y /\ l = k.
Proof. by intros [= -> ->]. Qed.

Lemma fields_covered e1 e2 p1 p2 :
  envelope_typed e1 -> envelope_typed e2 -> preimage e1 = Ok p1 -> preimage e2 = Ok p2 ->
  fields e1 = fields e2 -> covered e1 = covered e2.
Proof.
  intros T1 T2 H1%preimage_times H2%preimage_times He. pose proof (f_equal length He) as Hlen.
  destruct e1 as [c1|r1|t1], e2 as [c2|r2|t2]; cbn [fields envelope_typed covered] in *;
    rewrite ?length_app, ?length_fmap in Hlen; cbn [length] in Hlen; try lia.
  - destruct H1 as [[i1 E1] [x1 F1]], H2 as [[i2 E2] [x2 F2]]. rewrite E1, F1, E2, F2 in *. cbn [from_option] in *.
    apply cons_eq_inv in He as (_ & (Ht & (Hd & (Hi & (Hx & (Hp & _)%cons_eq_inv)%cons_eq_inv)%cons_eq_inv)%cons_eq_inv)%cons_eq_inv).
    apply bytes_inj in Ht, Hd, Hp. destruct T1 as (_ & ? & ?), T2 as (_ & ? & ?).
    apply ts_field_inj in Hi, Hx; [|done..]. unfold with_signature. by rewrite Ht, Hd, Hp, E1, F1, E2, F2, Hi, Hx.
  - destruct H1 as [i1 E1], H2 as [i2 E2]. rewrite E1, E2 in *. cbn [from_option] in *.
    apply cons_eq_inv in He as (_ & (Ht & (Hd & (Hi & (Hp & _)%cons_eq_inv)%cons_eq_inv)%cons_eq_inv)%cons_eq_inv).
    apply bytes_inj in Ht, Hd, Hp. destruct T1 as (_ & ?), T2 as (_ & ?).
    apply ts_field_inj in Hi; [|done..]. by rewrite Ht, Hd, Hp, Hi.
  - destruct t1 as [rc1 cc1 fp1 g1 v1 roots1 ci1 cs1], t2 as [rc2 cc2 fp2 g2 v2 roots2 ci2 cs2]. cbn in *.
    apply cons_eq_inv in He as (_ & (Hrc & (Hcc & (Hfp & (Hg & (Hv & (_ & He)%cons_eq_inv)%cons_eq_inv)%cons_eq_inv)%cons_eq_inv)%cons_eq_inv)%cons_eq_inv).
    apply bytes_inj in Hrc, Hcc, Hfp.
    destruct T1 as (? & ? & ? & _), T2 as (? & ? & ? & _). apply uint64_inj in Hg, Hv; [|done..].
    apply app_inj_1 in He as [Hr He]; [|rewrite !length_fmap; lia]. apply cons_eq_inv in He as (Hci & (Hcs & _)%cons_eq_inv).
    apply bytes_inj in Hci. apply uint64_inj in Hcs; [|done..].
    assert (Inj (=) (=) bytes) by (intros s t; apply bytes_inj). apply (list_fmap_eq_inj bytes) in Hr; [by subst|done].
Qed.

(** C19. A signing input has one meaning.  Two envelopes of any kinds (command,
    device result, trust-state claim) that frame the same signing input agree
    on their kind and on every covered field: type, device, both timestamps to
    the nanosecond, payload, and all fields of a trust-state claim. *)
Theorem signing_input_is_injective (e1 e2 : Envelope) (p : list Z) :
  envelope_typed e1 -> envelope_typed e2 -> preimage e1 = Ok p -> preimage e2 = Ok p ->
  covered e1 = covered e2.
Proof.
  intros T1 T2 H1 H2. destruct (preimage_fields e1 p T1 H1) as [-> F1].
  destruct (preimage_fields e2 _ T2 H2) as [He F2]. apply lps_inj in He; [|done..].
  by eapply fields_covered.
Qed.

(** ** Verification *)

Lemma time_sub_exceeds w t u : 0 <= w < max_int64 -> (w <? time_sub t u) = (w <? t - u).
Proof.
  intros Hw. unfold time_sub, min_int64, max_int64 in *. apply Bool.eq_iff_eq_true. rewrite !Z.ltb_lt. lia.
Qed.

(** What [VerifyCommand] asks of the times of a command. *)
Definition times_fresh (opts : VerifyOptions) (type : string) (issued expires : time) : Prop :=
  issued <= expires /\ issued <= vo_Now opts + MaxFutureClockSkew /\ vo_Now opts <= expires
  /\ (vo_Instant opts = true -> expires - issued <= MaxInstantWindow)
  /\ (type = terminalGrantType -> expires - issued <= MaxTerminalGrantWindow).

Lemma verify_times_ok cmd opts issued expires :
  verify_times cmd opts issued expires = Ok tt <-> times_fresh opts (sc_CommandType cmd) issued expires.
Proof.
  unfold verify_times, times_fresh. cbv zeta. rewrite !time_sub_exceeds by (by vm_compute).
  split.
  - intros H. apply bind_ok in H as ([] & H1%fail_if_ok & H).
    apply bind_ok in H as ([] & H2%fail_if_ok & H). apply bind_ok in H as ([] & H3%fail_if_ok & H).
    apply bind_ok in H as ([] & H4%fail_if_ok & H5%fail_if_ok).
    apply andb_false_iff in H2, H4, H5. assert (0 <= MaxFutureClockSkew) by (by vm_compute). prop_bools.
    split_and!; [done| |done| |].
    + destruct H2 as [H2|H2]; prop_bools; lia.
    + intros Hi. destruct H4 as [H4|H4]; prop_bools; [congruence|done].
    + intros Ht. destruct H5 as [H5|H5]; prop_bools; [congruence|done].
  - intros (H1 & H2 & H3 & H4 & H5). apply bind_ok. exists tt. split; [apply fail_if_ok, Z.ltb_ge; done|].
    apply bind_ok. exists tt. split; [apply fail_if_ok, andb_false_iff; right; apply Z.ltb_ge; lia|].
    apply bind_ok. exists tt. split; [apply fail_if_ok, Z.ltb_ge; done|].
    apply bind_ok. exists tt. split; apply fail_if_ok, andb_false_iff.
    + destruct (vo_Instant opts); [right; apply Z.ltb_ge; auto|by left].
    + destruct (String.eqb _ _) eqn:E; [right; apply Z.ltb_ge; prop_bools; auto|by left].
Qed.

Section Verified.
Context `{Schemes}.

(** The checks of the envelope itself. *)
Definition command_framable (cmd : SignedCommand) (issued expires : Timestamp) (p : list Z) : Prop :=
  (exists domain, (sc_CommandType cmd, domain) ∈ commandDomains)
  /\ sc_Payload cmd <> ""%string /\ IsCanonicalULID (sc_TargetDeviceId cmd) = true
  /\ sc_IssuedAt cmd = Some issued /\ sc_ExpiresAt cmd = Some expires /\ CommandPreimage cmd = Ok p.

Lemma CommandPreimage_framable cmd p :
  CommandPreimage cmd = Ok p -> exists issued expires, command_framable cmd issued expires p.
Proof.
  intros Hp. pose proof Hp as H0. unfold CommandPreimage, CommandDomain in H0.
  destruct (domain_of commandDomains (sc_CommandType cmd)) as [d|] eqn:D; [|by inv_result].
  apply find_in in D. inv_result. destruct (sc_IssuedAt cmd) as [i|] eqn:Ei, (sc_ExpiresAt cmd) as [e|] eqn:Ee; try done.
  inv_result. prop_bools. exists i, e. split_and!; [by exists d| |done..]. intros Hs. by rewrite Hs in *.
Qed.

(** C18. [VerifyCommand] returns a payload exactly when every check holds, and
    then it is the signed payload: the clock is set, the key is an acceptable
    ECDSA or RSA key, the command type is in the closed set, the envelope is
    addressed to this device, the signature verifies over the digest of the
    framed fields, and the times are fresh: not issued more than five minutes
    ahead, not expired, at most fifteen minutes wide for instant commands and
    at most sixty seconds wide for every terminal grant. *)
Theorem VerifyCommand_accepts_exactly (pub : SigningKey) (cmd : SignedCommand) (opts : VerifyOptions) (payload : string) :
  VerifyCommand pub cmd opts = Ok payload <->
  exists issued expires p,
    command_framable cmd issued expires p /\ vo_Now opts <> zero_time /\ ValidateSigningKey pub = Ok tt
    /\ sc_TargetDeviceId cmd = vo_DeviceID opts /\ verify_digest pub (sha256 p) (sc_Signature cmd) = Ok tt
    /\ times_fresh opts (sc_CommandType cmd) (AsTime issued) (AsTime expires)
    /\ payload = sc_Payload cmd.
Proof.
  unfold VerifyCommand. split.
  - intros Hv. apply bind_ok in Hv as ([] & Hnow%fail_if_ok & Hv). apply bind_ok in Hv as ([] & Hkey & Hv).
    apply bind_ok in Hv as (p & Hp & Hv). apply bind_ok in Hv as ([] & Hid%fail_if_ok & Hv).
    apply bind_ok in Hv as ([] & Hsig & Hv). apply CommandPreimage_framable in Hp as (i & e & Hf).
    pose proof Hf as (_ & _ & _ & Hi & He & _). rewrite Hi, He in Hv.
    apply bind_ok in Hv as ([] & Ht%verify_times_ok & [= <-]). exists i, e, p. unfold time_is_zero in Hnow. prop_bools.
    split_and!; done.
  - intros (i & e & p & Hf & Hnow & Hkey & Hid & Hsig & Ht & ->). destruct Hf as (_ & _ & _ & Hi & He & Hp).
    apply bind_ok. exists tt. split; [apply fail_if_ok, Z.eqb_neq; done|].
    apply bind_ok. exists tt. split; [done|]. apply bind_ok. exists p. split; [done|].
    apply bind_ok. exists tt. split; [apply fail_if_ok, negb_false_iff, String.eqb_eq; done|].
    apply bind_ok. exists tt. split; [done|]. rewrite Hi, He. apply bind_ok. exists tt.
    split; [by apply verify_times_ok|done].
Qed.

(** What is signed verifies.  With a key pair of a scheme whose signatures
    verify, a command that [SignCommand] accepts is returned by [VerifyCommand]
    at its target device at any time in its validity window (within the window
    limits of its class); the same holds for device results, without times, and
    for trust-state claims. *)
Theorem signed_envelopes_verify (key pub : SigningKey) :
  ValidateSigningKey pub = Ok tt ->
  (forall digest s, signDigest key digest = Ok s ->
     verify_digest pub digest s = Ok tt /\ len s <> 0 /\ parsesASN1 s = true) ->
  (forall cmd signed issued expires opts, SignCommand key cmd = Ok signed ->
     sc_IssuedAt cmd = Some issued -> sc_ExpiresAt cmd = Some expires ->
     vo_Now opts <> zero_time -> vo_DeviceID opts = sc_TargetDeviceId cmd ->
     times_fresh opts (sc_CommandType cmd) (AsTime issued) (AsTime expires) ->
     VerifyCommand pub signed opts = Ok (sc_Payload cmd))
  /\ (forall env signed, SignResult key env = Ok signed ->
     VerifyResult pub signed (ds_DeviceId env) = Ok (ds_Payload env))
  /\ (forall claim s, SignTrustState key claim = Ok s -> VerifyTrustState pub claim s = Ok tt).
Proof.
  intros Hpub Hscheme. split_and!.
  - intros cmd signed issued expires opts Hs Hi He Hnow Hid Ht. unfold SignCommand in Hs.
    apply bind_ok in Hs as ([] & _ & Hs). apply bind_ok in Hs as (p & Hp & Hs).
    apply bind_ok in Hs as (s & Hsig & [= <-]). apply Hscheme in Hsig as (Hver & _ & _).
    unfold VerifyCommand. apply bind_ok. exists tt. split; [apply fail_if_ok, Z.eqb_neq; done|].
    rewrite Hpub. cbn [mbind result_bind].
    change (CommandPreimage (with_signature s cmd)) with (CommandPreimage cmd). rewrite Hp. cbn [mbind result_bind].
    unfold with_signature. cbn [sc_TargetDeviceId sc_Signature sc_IssuedAt sc_ExpiresAt sc_Payload].
    rewrite Hid, String.eqb_refl, Hver, Hi, He. cbn [negb fail_if mbind result_bind].
    apply bind_ok. exists tt. split; [by apply verify_times_ok|done].
  - intros env signed Hs. unfold SignResult in Hs. apply bind_ok in Hs as ([] & _ & Hs).
    apply bind_ok in Hs as (p & Hp & Hs). apply bind_ok in Hs as (s & Hsig & [= <-]).
    apply Hscheme in Hsig as (Hver & _ & _). unfold VerifyResult. rewrite Hpub. cbn [mbind result_bind].
    change (ResultPreimage _) with (ResultPreimage env). rewrite Hp. cbn [mbind result_bind ds_DeviceId ds_Signature].
    rewrite String.eqb_refl, Hver. done.
  - intros claim s Hs. unfold SignTrustState, TrustStatePreimage in Hs. apply bind_ok in Hs as ([] & _ & Hs).
    apply bind_ok in Hs as (p & Hp & Hsig). apply bind_ok in Hp as ([] & Hval & [= <-]).
    apply Hscheme in Hsig as (Hver & Hlen & Hasn). unfold VerifyTrustState. rewrite Hpub. cbn [mbind result_bind].
    rewrite (proj2 (Z.eqb_neq _ _)) by done. cbn [fail_if mbind result_bind].
    assert (validateTrustStateClaim claim false = Ok tt) as ->.
    { revert Hval. unfold validateTrustStateClaim. cbv zeta. intros Hval.
      repeat (apply bind_ok in Hval as ([] & ? & Hval); apply bind_ok; exists tt; split; [done|]). done. }
    cbn [mbind result_bind]. rewrite Hasn, Hver, Hval. by destruct pub as [|[]| | | | | |].
Qed.
End Verified.

(** ** Concrete runs *)

(** A toy scheme: the digest is the input, a signature is the tagged digest. *)
Definition toy_schemes : Schemes := {|
  sha256 := string_of_bytes;
  signDigest := fun _ digest => Ok ("sig:" +:+ digest);
  verifyASN1 := fun _ digest s => String.eqb s ("sig:" +:+ digest);
  verifyPKCS1v15 := fun _ digest s => String.eqb s ("sig:" +:+ digest);
  parsesASN1 := fun _ => true;
|}.

Definition sample_pub : ECDSAPublicKey := mkECDSAPublicKey P256 Fine "point".
Definition sample_key : ECDSAPrivateKey := mkECDSAPrivateKey sample_pub Fine Fine "point".
Definition sample_command : SignedCommand :=
  mkSignedCommand "lock" "terminal-grant" "01K0QJ3E5E8R4M0D8EV3Y4N6J7"
    (Some (mkTimestamp 1800000000 5)) (Some (mkTimestamp 1800000060 5)) "".
Definition sample_options : VerifyOptions :=
  mkVerifyOptions "01K0QJ3E5E8R4M0D8EV3Y4N6J7" (1800000030 * second) true.

Lemma signing_input_is_injective_witness :
  covered (ECommand sample_command) = covered (ECommand (with_signature "other" sample_command)).
Proof.
  eapply (signing_input_is_injective (ECommand sample_command) (ECommand (with_signature "other" sample_command)));
    [split_and!; by vm_compute..|reflexivity|reflexivity].
Defined.

Lemma signed_envelopes_verify_witness : exists signed,
  @SignCommand toy_schemes (KeyECDSAPrivate (Some sample_key)) sample_command = Ok signed
  /\ @VerifyCommand toy_schemes (KeyECDSAPublic (Some sample_pub)) signed sample_options = Ok "lock"%string.
Proof.
  eexists. split; [reflexivity|].
  refine (proj1 (@signed_envelopes_verify toy_schemes (KeyECDSAPrivate (Some sample_key))
    (KeyECDSAPublic (Some sample_pub)) _ _) sample_command _ (mkTimestamp 1800000000 5) (mkTimestamp 1800000060 5)
    sample_options eq_refl eq_refl eq_refl _ eq_refl _).
  - reflexivity.
  - intros digest s [= <-]. split; [|by split].
    unfold verify_digest, verifyASN1, toy_schemes. by rewrite String.eqb_refl.
  - by vm_compute.
  - split_and!; by vm_compute.
Defined.
