(* ===== verification/AuthGate.v ===== *)
(** * [server/internal/auth/authorization.go], [interceptors.go], [pats.go]:
    the authorization gate

    The policy registry of all procedures, the principals a request may carry,
    the gate that interceptor and handlers share, and its composition with the
    access resolution of [authz.Resolve].  The effective-access resolver is an
    interface of the code and a class here; the store's resolver is an instance
    over the rows of its query. *)

From Stdlib Require Import Ascii String ZArith Lia FunctionalExtensionality.
From S2P Require Export Refresh.

(** ** The registry *)

(** server/internal/auth/interceptors.go:24-31 [ProcedureClass] *)
Definition ProcedurePublic : Z := 1.
Definition ProcedurePermissionGated : Z := 2.
Definition ProcedureAltAuth : Z := 3.

(** server/internal/auth/interceptors.go:33-37 [ProcedureAuthorization] *)
Record ProcedureAuthorization := mkProcedureAuthorization { pa_Class : Z; pa_Permission : string }.

Definition gated (procedure permission : string) : string * ProcedureAuthorization :=
  (procedure, mkProcedureAuthorization ProcedurePermissionGated permission).

(** server/internal/auth/interceptors.go:39-135 [procedureAuthorizations] *)
Definition procedureAuthorizations : list (string * ProcedureAuthorization) :=
  [
   ("/powermanage.v1.AgentService/Stream", mkProcedureAuthorization ProcedureAltAuth "");
   ("/powermanage.v1.ControlService/CompleteOidcSession", mkProcedureAuthorization ProcedurePublic "");
   gated "/powermanage.v1.ControlService/CreateAction" "actions.manage";
   gated "/powermanage.v1.ControlService/CreateActionSet" "action_sets.manage";
   gated "/powermanage.v1.ControlService/CreateApiToken" "users.manage";
   gated "/powermanage.v1.ControlService/CreateAssignment" "actions.manage";
   gated "/powermanage.v1.ControlService/CreateCompliancePolicy" "actions.manage";
   gated "/powermanage.v1.ControlService/CreateGrant" "roles.manage";
   gated "/powermanage.v1.ControlService/CreateIdentityProvider" "identity_providers.manage";
   gated "/powermanage.v1.ControlService/CreateRole" "roles.manage";
   gated "/powermanage.v1.ControlService/CreateScimConfiguration" "scim_configuration.manage";
   gated "/powermanage.v1.ControlService/CreateServerSetting" "server_settings.manage";
   gated "/powermanage.v1.ControlService/CreateRegistrationToken" "pki.manage";
   gated "/powermanage.v1.ControlService/CreateUser" "users.manage";
   gated "/powermanage.v1.ControlService/CreateUserGroup" "user_groups.manage";
   gated "/powermanage.v1.ControlService/CreateDeviceGroup" "devices.manage";
   gated "/powermanage.v1.ControlService/DeleteApiToken" "users.manage";
   gated "/powermanage.v1.ControlService/DeleteAction" "actions.manage";
   gated "/powermanage.v1.ControlService/DeleteActionSet" "action_sets.manage";
   gated "/powermanage.v1.ControlService/DeleteAssignment" "actions.manage";
   gated "/powermanage.v1.ControlService/DeleteCompliancePolicy" "actions.manage";
   gated "/powermanage.v1.ControlService/DeleteGrant" "roles.manage";
   gated "/powermanage.v1.ControlService/DeleteIdentityProvider" "identity_providers.manage";
   gated "/powermanage.v1.ControlService/DeleteRole" "roles.manage";
   gated "/powermanage.v1.ControlService/DeleteScimConfiguration" "scim_configuration.manage";
   gated "/powermanage.v1.ControlService/DeleteServerSetting" "server_settings.manage";
   gated "/powermanage.v1.ControlService/DeleteRegistrationToken" "pki.manage";
   gated "/powermanage.v1.ControlService/DeleteUser" "users.manage";
   gated "/powermanage.v1.ControlService/DeleteUserGroup" "user_groups.manage";
   gated "/powermanage.v1.ControlService/DeleteDeviceGroup" "devices.manage";
   gated "/powermanage.v1.ControlService/DeleteDevice" "devices.manage";
   gated "/powermanage.v1.ControlService/GetApiToken" "users.manage";
   gated "/powermanage.v1.ControlService/GetAction" "actions.manage";
   gated "/powermanage.v1.ControlService/GetActionSet" "action_sets.manage";
   gated "/powermanage.v1.ControlService/GetAssignment" "actions.manage";
   gated "/powermanage.v1.ControlService/GetCompliancePolicy" "actions.manage";
   gated "/powermanage.v1.ControlService/GetGrant" "roles.manage";
   gated "/powermanage.v1.ControlService/GetIdentityProvider" "identity_providers.manage";
   gated "/powermanage.v1.ControlService/GetRole" "roles.manage";
   gated "/powermanage.v1.ControlService/GetScimConfiguration" "scim_configuration.manage";
   gated "/powermanage.v1.ControlService/GetServerSetting" "server_settings.manage";
   gated "/powermanage.v1.ControlService/GetRegistrationToken" "pki.manage";
   gated "/powermanage.v1.ControlService/GetUser" "users.manage";
   gated "/powermanage.v1.ControlService/GetUserGroup" "user_groups.manage";
   gated "/powermanage.v1.ControlService/GetDeviceGroup" "devices.manage";
   gated "/powermanage.v1.ControlService/GetDevice" "devices.manage";
   gated "/powermanage.v1.ControlService/GetExecution" "executions.read";
   gated "/powermanage.v1.ControlService/GetGateway" "pki.manage";
   gated "/powermanage.v1.ControlService/GetInventorySnapshot" "devices.manage";
   gated "/powermanage.v1.ControlService/ListApiTokens" "users.manage";
   gated "/powermanage.v1.ControlService/ListActions" "actions.manage";
   gated "/powermanage.v1.ControlService/ListActionSets" "action_sets.manage";
   gated "/powermanage.v1.ControlService/ListAssignments" "actions.manage";
   gated "/powermanage.v1.ControlService/ListCompliancePolicies" "actions.manage";
   gated "/powermanage.v1.ControlService/ListGrants" "roles.manage";
   gated "/powermanage.v1.ControlService/ListIdentityProviders" "identity_providers.manage";
   gated "/powermanage.v1.ControlService/ListRoles" "roles.manage";
   gated "/powermanage.v1.ControlService/ListScimConfigurations" "scim_configuration.manage";
   gated "/powermanage.v1.ControlService/ListServerSettings" "server_settings.manage";
   gated "/powermanage.v1.ControlService/ListRegistrationTokens" "pki.manage";
   gated "/powermanage.v1.ControlService/ListUsers" "users.manage";
   gated "/powermanage.v1.ControlService/ListUserGroups" "user_groups.manage";
   gated "/powermanage.v1.ControlService/ListDeviceGroups" "devices.manage";
   gated "/powermanage.v1.ControlService/ListDevices" "devices.manage";
   gated "/powermanage.v1.ControlService/ListAuditEvents" "audit.read";
   gated "/powermanage.v1.ControlService/ListExecutions" "executions.read";
   gated "/powermanage.v1.ControlService/ListGateways" "pki.manage";
   gated "/powermanage.v1.ControlService/ListInventorySnapshots" "devices.manage";
   ("/powermanage.v1.ControlService/RefreshSession", mkProcedureAuthorization ProcedurePublic "");
   ("/powermanage.v1.ControlService/StartOidcSession", mkProcedureAuthorization ProcedurePublic "");
   gated "/powermanage.v1.ControlService/UpdateApiToken" "users.manage";
   gated "/powermanage.v1.ControlService/UpdateAction" "actions.manage";
   gated "/powermanage.v1.ControlService/UpdateActionSet" "action_sets.manage";
   gated "/powermanage.v1.ControlService/UpdateCompliancePolicy" "actions.manage";
   gated "/powermanage.v1.ControlService/UpdateGrant" "roles.manage";
   gated "/powermanage.v1.ControlService/UpdateIdentityProvider" "identity_providers.manage";
   gated "/powermanage.v1.ControlService/UpdateRole" "roles.manage";
   gated "/powermanage.v1.ControlService/UpdateScimConfiguration" "scim_configuration.manage";
   gated "/powermanage.v1.ControlService/UpdateServerSetting" "server_settings.manage";
   gated "/powermanage.v1.ControlService/UpdateRegistrationToken" "pki.manage";
   gated "/powermanage.v1.ControlService/UpdateUser" "users.manage";
   gated "/powermanage.v1.ControlService/UpdateUserGroup" "user_groups.manage";
   gated "/powermanage.v1.ControlService/UpdateDeviceGroup" "devices.manage";
   gated "/powermanage.v1.ControlService/UpdateDevice" "devices.manage";
   ("/powermanage.v1.InternalService/Stream", mkProcedureAuthorization ProcedureAltAuth "");
   ("/powermanage.v1.InternalService/ValidateTerminalToken", mkProcedureAuthorization ProcedureAltAuth "");
   ("/powermanage.v1.PkiService/EnrollAgent", mkProcedureAuthorization ProcedurePublic "");
   ("/powermanage.v1.PkiService/RenewAgent", mkProcedureAuthorization ProcedurePublic "");
   ("/powermanage.v1.PkiService/RevokeAgent", mkProcedureAuthorization ProcedurePublic "");
   ("/powermanage.v1.PkiService/ForceRenewAgent", mkProcedureAuthorization ProcedurePublic "");
   ("/powermanage.v1.PkiService/EnrollGateway", mkProcedureAuthorization ProcedurePublic "");
   ("/powermanage.v1.PkiService/RenewGateway", mkProcedureAuthorization ProcedurePublic "");
   ("/powermanage.v1.PkiService/RevokeGateway", mkProcedureAuthorization ProcedurePublic "");
   ("/powermanage.v1.PkiService/ConfirmAgentTrustState", mkProcedureAuthorization ProcedurePublic "");
   ("/powermanage.v1.PkiService/ConfirmGatewayTrustState", mkProcedureAuthorization ProcedurePublic "")]%string.

(** server/internal/auth/interceptors.go:158-161 [classifyProcedureAuthorization] *)
Definition classifyProcedureAuthorization (procedure : string) : option ProcedureAuthorization :=
  snd <$> find (fun p => String.eqb p.1 procedure) procedureAuthorizations.

(** server/internal/auth/interceptors.go:152-156 [ClassifyProcedure] *)
Definition ClassifyProcedure (procedure : string) : Z * bool :=
  match classifyProcedureAuthorization procedure with
  | Some policy => (pa_Class policy, true)
  | None => (0, false)
  end.

(** server/internal/auth/authorization.go:272-307 [validateProcedureAuthorization] *)
Definition validateProcedureAuthorization (procedure : string) (policy : ProcedureAuthorization) : result string unit :=
  fail_if (is_blank procedure || negb (has_prefix "/" procedure)) "invalid procedure"%string ≫= fun _ =>
  if (pa_Class policy =? ProcedurePublic) || (pa_Class policy =? ProcedureAltAuth) then
    fail_if (negb (String.eqb (pa_Permission policy) "")) "non-permission procedure names a permission"%string
  else if pa_Class policy =? ProcedurePermissionGated then
    or_err (Lookup (pa_Permission policy)) "procedure names an unknown permission"%string ≫= fun _ => Ok tt
  else Err "procedure has an unknown class"%string.

(** server/internal/auth/authorization.go:258-270 [validateProcedureAuthorizations] *)
Definition validateProcedureAuthorizations (policies : list (string * ProcedureAuthorization)) : result string unit :=
  fail_if (zlen policies =? 0) "registry is empty"%string ≫= fun _ =>
  check_each (fun '(procedure, policy) => validateProcedureAuthorization procedure policy) policies.

(** ** Errors, principals and contexts *)

(** server/internal/auth/authorization.go:17-23 [errAuthenticationRequired];
    370-380 the connect codes they travel under *)
Inductive gate_error :=
| authenticationRequired
| permissionDenied
| authorizationUnavailable
| errAuthenticatedPrincipal
| errAuthorizationGateNotWired
| boundaryNotWiredError.

#[export] Instance gate_error_eq_dec : EqDecision gate_error.
Proof. solve_decision. Defined.

(** server/internal/auth/authorization.go:33-39 [AuthorizationDecision] *)
Record AuthorizationDecision := mkAuthorizationDecision {
  ad_Subject : string;
  ad_AuditIdentity : string;
  ad_RequiredPermission : string;
  ad_EffectiveAccess : EffectiveAccess;
}.

(** server/internal/auth/authorization.go:41-46 [authenticatedPrincipal] *)
Record authenticatedPrincipal := mkAuthenticatedPrincipal {
  pr_subject : string;
  pr_auditIdentity : string;
  pr_patScopes : gset string;
  pr_isPAT : bool;
}.

(** The values of a request context this package stores under its own keys. *)
Record Ctx := mkCtx { cx_principal : option authenticatedPrincipal; cx_decision : option AuthorizationDecision }.

(** server/internal/auth/pats.go:46-52 [PATPrincipal] *)
Record PATPrincipal := mkPATPrincipal {
  pp_Subject : string; pp_TokenID : string; pp_Scopes : list string; pp_AuditIdentity : string }.

Definition maxPATScopes : Z := 64.
Definition maxPATScopeBytes : Z := 128.

(** server/internal/auth/pats.go:247-261 [validPATScope] *)
Definition validPATScope (scope : string) : bool :=
  negb ((len scope =? 0) || (maxPATScopeBytes <? len scope)) &&
  match scope with
  | EmptyString => false
  | String a rest =>
      is_lower a && string_forallb (fun c => is_lower c || is_digit c || Ascii.eqb c "." || Ascii.eqb c "_"
                                            || Ascii.eqb c "-") rest
  end.

(** server/internal/auth/pats.go:227-245 [canonicalPATScopes] *)
Definition canonicalPATScopes (scopes : list string) : result string (list string) :=
  fail_if ((zlen scopes =? 0) || (maxPATScopes <? zlen scopes)) "ErrPATInvalid"%string ≫= fun _ =>
  map_result (fun scope =>
    fail_if (negb (validPATScope (trim_space scope))) "ErrPATInvalid"%string ≫= fun _ => Ok (trim_space scope)) scopes ≫= fun canonical =>
  let canonical := compact (sort_strings canonical) in
  fail_if (zlen canonical =? 0) "ErrPATInvalid"%string ≫= fun _ => Ok canonical.

(** server/internal/auth/authorization.go:329-331 [validAuthorizationSubject] *)
Definition validAuthorizationSubject (subject : string) : bool :=
  is_ok (ULIDPathID subject) && String.eqb subject (to_upper subject).

(** server/internal/auth/authorization.go:84-94 [ContextWithSessionClaims] *)
Definition ContextWithSessionClaims (ctx : option Ctx) (claims : Claims) : result gate_error Ctx :=
  or_err ctx errAuthenticatedPrincipal ≫= fun ctx =>
  fail_if (negb (validAuthorizationSubject (cl_Subject claims)) || (cl_SessionVersion claims <=? 0))
    errAuthenticatedPrincipal ≫= fun _ =>
  Ok (mkCtx (Some (mkAuthenticatedPrincipal (cl_Subject claims) "" ∅ false)) (cx_decision ctx)).

(** server/internal/auth/authorization.go:96-122 [ContextWithPATPrincipal] *)
Definition ContextWithPATPrincipal (ctx : option Ctx) (principal : PATPrincipal) : result gate_error Ctx :=
  or_err ctx errAuthenticatedPrincipal ≫= fun ctx =>
  fail_if (negb (validAuthorizationSubject (pp_Subject principal))
           || negb (is_ok (ULIDPathID (pp_TokenID principal)))
           || negb (String.eqb (pp_TokenID principal) (to_upper (pp_TokenID principal)))
           || negb (String.eqb (pp_AuditIdentity principal) ("pat:" +:+ pp_TokenID principal)))
    errAuthenticatedPrincipal ≫= fun _ =>
  wrap_err (fun _ => errAuthenticatedPrincipal) (canonicalPATScopes (pp_Scopes principal)) ≫= fun scopes =>
  fail_if (negb (bool_decide (scopes = pp_Scopes principal))) errAuthenticatedPrincipal ≫= fun _ =>
  Ok (mkCtx (Some (mkAuthenticatedPrincipal (pp_Subject principal) (pp_AuditIdentity principal)
                     (list_to_set scopes) true)) (cx_decision ctx)).

(** server/internal/auth/authorization.go:347-368 [cloneEffectiveAccess] *)
Definition cloneEffectiveAccess (access : EffectiveAccess) : EffectiveAccess :=
  mkEffectiveAccess
    ((fun g => mkGrantAccess (ga_GrantID g) (ActivePermissions g) (StrippedPermissions g)) <$> ea_Grants access)
    ((fun r => mkReach (Global r) (DeviceGroupIDs r) (UserGroupIDs r) (Self r)) <$> ea_Permissions access).

(** server/internal/auth/authorization.go:124-137 [AuthorizationDecisionFromContext] *)
Definition AuthorizationDecisionFromContext (ctx : option Ctx) : option AuthorizationDecision :=
  (ctx ≫= cx_decision) ≫= fun d =>
  Some (mkAuthorizationDecision (ad_Subject d) (ad_AuditIdentity d) (ad_RequiredPermission d)
          (cloneEffectiveAccess (ad_EffectiveAccess d))).

(** ** Reaches *)

(** server/internal/auth/authorization.go:333-345 [validReachIDs] *)
Definition validReachIDs (ids : list string) : bool :=
  is_sorted_strings ids
  && forallb (fun id => is_ok (ULIDPathID id) && String.eqb id (to_upper id)) ids
  && negb (adjacent_dup ids).

(** server/internal/auth/authorization.go:309-327 [validReach] *)
Definition validReach (permission : string) (reach : Reach) : bool :=
  match Lookup permission with
  | None => false
  | Some entry =>
      if Global reach then
        negb (Self reach) && (zlen (DeviceGroupIDs reach) =? 0) && (zlen (UserGroupIDs reach) =? 0)
      else if String.eqb (ce_Class entry) GlobalOnly then false
      else (Self reach || (0 <? zlen (DeviceGroupIDs reach)) || (0 <? zlen (UserGroupIDs reach)))
           && validReachIDs (DeviceGroupIDs reach) && validReachIDs (UserGroupIDs reach)
  end.

(** ** The gate *)

(** server/internal/auth/authorization.go:26-29 [EffectiveAccessResolver] *)
Class EffectiveAccessResolver := ResolveEffectiveAccess : string -> result goerr EffectiveAccess.

(** server/internal/auth/authorization.go:51-56 [AuthorizationGate]; a nil
    resolver or lookup is [None] *)
Record AuthorizationGate := mkAuthorizationGate {
  ag_resolver : option EffectiveAccessResolver;
  ag_lookup : option (string -> option ProcedureAuthorization);
}.

(** server/internal/auth/authorization.go:66-74 [newAuthorizationGate] *)
Definition newAuthorizationGate (resolver : option EffectiveAccessResolver)
    (lookup : option (string -> option ProcedureAuthorization)) : result gate_error AuthorizationGate :=
  match resolver, lookup with
  | Some r, Some l => Ok (mkAuthorizationGate (Some r) (Some l))
  | _, _ => Err errAuthorizationGateNotWired
  end.

(** server/internal/auth/authorization.go:58-64 [NewAuthorizationGate] *)
Definition NewAuthorizationGate (resolver : option EffectiveAccessResolver) : result gate_error AuthorizationGate :=
  wrap_err (fun _ => errAuthorizationGateNotWired) (validateProcedureAuthorizations procedureAuthorizations) ≫= fun _ =>
  newAuthorizationGate resolver (Some classifyProcedureAuthorization).

(** server/internal/auth/authorization.go:76-82 [ValidateWiring]: the resolver
    and the lookup of a wired gate *)
Definition gate_parts (g : option AuthorizationGate)
    : option (EffectiveAccessResolver * (string -> option ProcedureAuthorization)) :=
  g ≫= fun g => match ag_resolver g, ag_lookup g with Some r, Some l => Some (r, l) | _, _ => None end.

Definition ValidateWiring (g : option AuthorizationGate) : result gate_error unit :=
  or_err (gate_parts g) errAuthorizationGateNotWired ≫= fun _ => Ok tt.

(** server/internal/auth/authorization.go:171-182 [AuthorizeContext]: a decision
    the context already carries *)
Definition check_decision (principal : authenticatedPrincipal) (permission : string) (decision : AuthorizationDecision)
    : bool :=
  String.eqb (ad_Subject decision) (pr_subject principal)
  && String.eqb (ad_AuditIdentity decision) (pr_auditIdentity principal)
  && String.eqb (ad_RequiredPermission decision) permission
  && match ea_Permissions (ad_EffectiveAccess decision) !! permission with
     | Some reach => validReach permission reach
     | None => false
     end.

(** server/internal/auth/authorization.go:183-200 [AuthorizeContext]: a fresh
    decision *)
Definition decide_access (resolver : EffectiveAccessResolver) (principal : authenticatedPrincipal) (permission : string)
    (ctx : Ctx) : result gate_error Ctx :=
  wrap_err (fun _ => authorizationUnavailable) (resolver (pr_subject principal)) ≫= fun effective =>
  or_err (ea_Permissions effective !! permission) permissionDenied ≫= fun reach =>
  fail_if (negb (validReach permission reach)) authorizationUnavailable ≫= fun _ =>
  Ok (mkCtx (cx_principal ctx) (Some (mkAuthorizationDecision (pr_subject principal) (pr_auditIdentity principal)
                                        permission (cloneEffectiveAccess effective)))).

(** server/internal/auth/authorization.go:139-201 [AuthorizeContext] *)
Definition AuthorizeContext (g : option AuthorizationGate) (ctx : option Ctx) (procedure : string)
    : result gate_error Ctx :=
  match gate_parts g, ctx with
  | Some (resolver, lookup), Some ctx =>
      or_err (lookup procedure) permissionDenied ≫= fun policy =>
      wrap_err (fun _ => authorizationUnavailable) (validateProcedureAuthorization procedure policy) ≫= fun _ =>
      if (pa_Class policy =? ProcedurePublic) || (pa_Class policy =? ProcedureAltAuth) then Ok ctx
      else if negb (pa_Class policy =? ProcedurePermissionGated) then Err authorizationUnavailable
      else
        or_err (cx_principal ctx) authenticationRequired ≫= fun principal =>
        fail_if (negb (validAuthorizationSubject (pr_subject principal))) authenticationRequired ≫= fun _ =>
        fail_if (pr_isPAT principal && negb (bool_decide (pa_Permission policy ∈ pr_patScopes principal)))
          permissionDenied ≫= fun _ =>
        match cx_decision ctx with
        | Some decision =>
            fail_if (negb (check_decision principal (pa_Permission policy) decision)) authorizationUnavailable ≫= fun _ =>
            Ok ctx
        | None => decide_access resolver principal (pa_Permission policy) ctx
        end
  | _, _ => Err authorizationUnavailable
  end.

(** ** Interceptors *)

(** A unary handler: a context, and a request whose procedure matters. *)
Definition UnaryFunc (Req Resp : Type) : Type := option Ctx -> option (string * Req) -> result gate_error Resp.

(** server/internal/auth/authorization.go:203-220 [WrapUnary] *)
Definition GateWrapUnary {Req Resp} (g : option AuthorizationGate) (next : option (UnaryFunc Req Resp))
    : UnaryFunc Req Resp :=
  match ValidateWiring g, next with
  | Ok _, Some next => fun ctx request =>
      or_err request permissionDenied ≫= fun r =>
      AuthorizeContext g ctx r.1 ≫= fun authorized => next (Some authorized) request
  | _, _ => fun _ _ => Err authorizationUnavailable
  end.

(** server/internal/auth/interceptors.go:163-167 [InterceptorChain]: three
    interceptors and the gate, which wiring requires to be the last stage *)
Record InterceptorChain (Req Resp : Type) := mkInterceptorChain {
  ic_validate : option (UnaryFunc Req Resp -> UnaryFunc Req Resp);
  ic_authenticate : option (UnaryFunc Req Resp -> UnaryFunc Req Resp);
  ic_rateLimit : option (UnaryFunc Req Resp -> UnaryFunc Req Resp);
  ic_authorize : option AuthorizationGate;
}.
Arguments mkInterceptorChain {Req Resp}.
Arguments ic_validate {Req Resp}.
Arguments ic_authenticate {Req Resp}.
Arguments ic_rateLimit {Req Resp}.
Arguments ic_authorize {Req Resp}.

(** server/internal/auth/interceptors.go:185-213 [WrapUnary] after
    [ValidateWiring] *)
Definition ChainWrapUnary {Req Resp} (c : option (InterceptorChain Req Resp)) (next : option (UnaryFunc Req Resp))
    : UnaryFunc Req Resp :=
  match c, next with
  | Some c, Some next =>
      match ic_validate c, ic_authenticate c, ic_rateLimit c, ValidateWiring (ic_authorize c) with
      | Some validate, Some authenticate, Some rateLimit, Ok _ =>
          validate (authenticate (rateLimit (GateWrapUnary (ic_authorize c) (Some next))))
      | _, _, _, _ => fun _ _ => Err boundaryNotWiredError
      end
  | _, _ => fun _ _ => Err boundaryNotWiredError
  end.

(** ** The store's resolver *)

(** server/internal/store/authorization.go:63-70 and the rows of
    [ListResolvedAuthorizationGrants]: what the database holds about a user *)
Record AccessRows := mkAccessRows {
  ar_user : string -> result goerr (string * bool);
  ar_grants : string -> result goerr (list Grant);
}.

Definition ErrUserDisabled : goerr := ESentinel "store: user is disabled".

(** server/internal/store/authorization.go:356-401 [ResolveEffectiveAccess] *)
Definition StoreResolveEffectiveAccess (sort : list Grant -> list Grant) (rows : AccessRows) : EffectiveAccessResolver :=
  fun userID =>
    ar_user rows userID ≫= fun '(id, disabled) =>
    fail_if disabled ErrUserDisabled ≫= fun _ =>
    wrap_err (EWrap "store: list resolved authorization grants") (ar_grants rows id) ≫= fun grants =>
    wrap_err (fun _ => EMsg "store: resolve authorization grants") (Resolve sort grants).

(** ** What [Resolve] produces passes the gate's own check *)

Lemma validReachIDs_canonical ids :
  canonical_set ids -> Forall (fun id => ULIDPathID id = Ok tt /\ to_upper id = id) ids -> validReachIDs ids = true.
Proof.
  intros [Hs Hn] Hall. unfold validReachIDs. rewrite (proj2 (is_sorted_strings_spec ids)) by done.
  rewrite (proj2 (adjacent_dup_nodup ids Hs)) by done. rewrite andb_true_r. cbn [andb].
  apply forallb_forall. intros id Hid%list_elem_of_In. rewrite Forall_forall in Hall.
  destruct (Hall id Hid) as [Hu Hup]. by rewrite Hu, Hup, String.eqb_refl.
Qed.

(** What normalisation guarantees of a grant. *)
Lemma NormalizeGrant_facts g g' :
  NormalizeGrant g = Ok g' ->
  (forall p, p ∈ g_Permissions g' -> is_Some (Lookup p))
  /\ (sc_Kind (g_Scope g') = ScopeGlobal \/ sc_Kind (g_Scope g') = ScopeSelf
      \/ (sc_Kind (g_Scope g') = ScopeDeviceGroups \/ sc_Kind (g_Scope g') = ScopeUserGroups) /\ sc_IDs (g_Scope g') <> [])
  /\ Forall (fun id => ULIDPathID id = Ok tt /\ to_upper id = id) (sc_IDs (g_Scope g')).
Proof.
  intros (_ & _ & _ & _ & _ & _ & _ & Hl & Hs)%NormalizeGrant_ok.
  split; [by apply Forall_forall|]. destruct (NormalizeScope_ok _ _ Hs) as (Hfix & Hk & _ & _ & Hcase).
  rewrite Hk. split; [tauto|]. eapply NormalizeScope_ids; exact Hfix.
Qed.

Lemma normalized_member gs ns g : map_result NormalizeGrant gs = Ok ns -> g ∈ ns -> exists g0, NormalizeGrant g0 = Ok g.
Proof.
  intros H%map_result_ok Hg. apply list_elem_of_lookup in Hg as [i Hi].
  destruct (Forall2_lookup_r _ _ _ _ _ H Hi) as (g0 & _ & H0). by exists g0.
Qed.

(** A contributing scope is that of a normalized grant. *)
Lemma contribution_facts gs ns p s :
  map_result NormalizeGrant gs = Ok ns -> s ∈ contributions ns p ->
  (exists e, Lookup p = Some e /\ (ce_Class e = GlobalOnly -> sc_Kind s = ScopeGlobal))
  /\ (sc_Kind s = ScopeGlobal \/ sc_Kind s = ScopeSelf
      \/ (sc_Kind s = ScopeDeviceGroups \/ sc_Kind s = ScopeUserGroups) /\ exists id, id ∈ sc_IDs s)
  /\ Forall (fun id => ULIDPathID id = Ok tt /\ to_upper id = id) (sc_IDs s).
Proof.
  intros Hn (g & Hg & Hp & Hst & ->)%elem_of_contributions.
  destruct (normalized_member _ _ _ Hn Hg) as (g0 & H0).
  destruct (NormalizeGrant_facts _ _ H0) as (Hl & Hk & Hids). destruct (Hl p Hp) as [e He].
  split_and!; [exists e; split; [done|]| |done].
  - intros Hc. unfold stripped in Hst. rewrite He, Hc, String.eqb_refl, andb_true_r in Hst.
    apply negb_false_iff in Hst. by apply String.eqb_eq.
  - destruct Hk as [?|[?|[? Hne]]]; [by left|by right; left|]. right; right. split; [done|].
    destruct (sc_IDs (g_Scope g)) as [|id l]; [done|]. exists id. left.
Qed.

(** Every reach [Resolve] reports passes the gate's own check, so the gate's
    last line of defence never refuses an access that resolution produced. *)
Lemma Resolve_reach_valid sort gs eff p r :
  SortsByID sort -> Resolve sort gs = Ok eff -> ea_Permissions eff !! p = Some r -> validReach p r = true.
Proof.
  intros Hsort (ns & Hn & _ & Hok)%Resolve_ok Hr. specialize (Hok p). rewrite Hr in Hok.
  destruct Hok as [Hne (Hg & Hglob & Hd & Hu & Hrest)].
  assert (Hall : forall s, s ∈ contributions (sort ns) p -> s ∈ contributions ns p).
  { intros s. rewrite !elem_of_contributions. setoid_rewrite sort_perm. done. }
  destruct (contributions (sort ns) p) as [|s ss] eqn:Ec; [done|].
  destruct (contribution_facts _ _ _ s Hn (Hall s ltac:(left))) as ((e & He & Hclass) & Hkind & _).
  unfold validReach. rewrite He. destruct (Global r) eqn:Egr.
  { rewrite (Hglob eq_refl). reflexivity. }
  destruct (Hrest eq_refl) as (H1 & H2 & H3).
  assert (String.eqb (ce_Class e) GlobalOnly = false) as ->.
  { apply String.eqb_neq. intros Hc. enough (false = true) by done. apply Hg. exists s. split; [left|auto]. }
  assert (Hsub : forall ids K, (forall id, id ∈ ids <-> exists s0, s0 ∈ s :: ss /\ sc_Kind s0 = K /\ id ∈ sc_IDs s0) ->
            Forall (fun id => ULIDPathID id = Ok tt /\ to_upper id = id) ids).
  { intros ids K Hids. apply Forall_forall. intros id (s0 & Hs0 & _ & Hin)%Hids.
    destruct (contribution_facts _ _ _ s0 Hn (Hall s0 Hs0)) as (_ & _ & Hf). rewrite Forall_forall in Hf. auto. }
  rewrite !validReachIDs_canonical, !andb_true_r by eauto.
  assert (Hpos : forall (ids : list string) id, id ∈ ids -> (0 <? zlen ids) = true).
  { intros ids id Hin. unfold zlen. destruct ids; [set_solver|]. apply Z.ltb_lt. cbn [length]. lia. }
  rewrite !orb_true_iff. destruct Hkind as [Hk|[Hk|[[Hk|Hk] [id Hid]]]].
  - enough (false = true) by done. apply Hg. exists s. split; [left|done].
  - left; left. apply H3. exists s. split; [left|done].
  - left; right. apply (Hpos _ id), H1. exists s. split; [left|done].
  - right. apply (Hpos _ id), H2. exists s. split; [left|done].
Qed.

(** The policy registry is well-formed. *)
Lemma procedureAuthorizations_valid : validateProcedureAuthorizations procedureAuthorizations = Ok tt.
Proof. by vm_compute. Qed.

Lemma procedureAuthorizations_keys : NoDup (fst <$> procedureAuthorizations).
Proof. apply (bool_decide_unpack _). by vm_compute. Qed.

Lemma classify_spec procedure policy :
  classifyProcedureAuthorization procedure = Some policy <-> (procedure, policy) ∈ procedureAuthorizations.
Proof.
  unfold classifyProcedureAuthorization. generalize procedureAuthorizations_keys.
  induction procedureAuthorizations as [|[k v] l IH]; cbn [find fmap list_fmap fst]; [set_solver|].
  intros [Hk Hnd]%NoDup_cons. rewrite elem_of_cons. destruct (String.eqb_spec k procedure) as [->|Hne].
  - cbn. split; [naive_solver|]. intros [[= ->]|Hin]; [done|]. exfalso. apply Hk.
    apply list_elem_of_fmap. by exists (procedure, policy).
  - rewrite (IH Hnd). naive_solver.
Qed.

Lemma classified_valid procedure policy :
  classifyProcedureAuthorization procedure = Some policy -> validateProcedureAuthorization procedure policy = Ok tt.
Proof.
  intros Hin%classify_spec%list_elem_of_In. pose proof procedureAuthorizations_valid as H.
  unfold validateProcedureAuthorizations in H. apply bind_ok in H as (u & _ & H).
  apply check_each_ok in H. rewrite List.Forall_forall in H. exact (H _ Hin).
Qed.

(** ** The gate's decision *)

(** A wired gate over the production registry. *)
Definition wired_gate (resolver : EffectiveAccessResolver) : AuthorizationGate :=
  mkAuthorizationGate (Some resolver) (Some classifyProcedureAuthorization).

Lemma NewAuthorizationGate_wired resolver : NewAuthorizationGate (Some resolver) = Ok (wired_gate resolver).
Proof. unfold NewAuthorizationGate. by rewrite procedureAuthorizations_valid. Qed.

Lemma NewAuthorizationGate_inv resolver g : NewAuthorizationGate (Some resolver) = Ok g -> g = wired_gate resolver.
Proof. rewrite NewAuthorizationGate_wired. congruence. Qed.

(** What the rows of the store entitle a subject to. *)
Definition entitled (rows : AccessRows) (subject permission : string) : Prop :=
  exists id gs ns grant,
    ar_user rows subject = Ok (id, false) /\ ar_grants rows id = Ok gs /\ map_result NormalizeGrant gs = Ok ns
    /\ grant ∈ ns /\ permission ∈ g_Permissions grant /\ stripped grant permission = false.

(** What a principal may present to a procedure gated on [permission]. *)
Definition presentable (pr : authenticatedPrincipal) (permission : string) : Prop :=
  validAuthorizationSubject (pr_subject pr) = true /\ (pr_isPAT pr = true -> permission ∈ pr_patScopes pr).

Lemma AuthorizeContext_gated resolver c procedure permission :
  gated procedure permission ∈ procedureAuthorizations ->
  AuthorizeContext (Some (wired_gate resolver)) (Some c) procedure =
    (or_err (cx_principal c) authenticationRequired ≫= fun principal =>
     fail_if (negb (validAuthorizationSubject (pr_subject principal))) authenticationRequired ≫= fun _ =>
     fail_if (pr_isPAT principal && negb (bool_decide (permission ∈ pr_patScopes principal))) permissionDenied ≫= fun _ =>
     match cx_decision c with
     | Some decision => fail_if (negb (check_decision principal permission decision)) authorizationUnavailable ≫= fun _ => Ok c
     | None => decide_access resolver principal permission c
     end).
Proof.
  intros Hc%classify_spec. unfold AuthorizeContext. cbn [gate_parts wired_gate ag_resolver ag_lookup mbind option_bind].
  rewrite Hc. cbn [or_err mbind result_bind]. rewrite (classified_valid _ _ Hc). reflexivity.
Qed.

Lemma StoreResolve_entitled sort rows subject permission :
  SortsByID sort ->
  entitled rows subject permission <->
  exists eff r, StoreResolveEffectiveAccess sort rows subject = Ok eff /\ ea_Permissions eff !! permission = Some r
                /\ validReach permission r = true.
Proof.
  intros Hsort. unfold entitled, StoreResolveEffectiveAccess. split.
  - intros (id & gs & ns & g & Hu & Hg & Hn & Hin & Hp & Hst). rewrite Hu. cbn. rewrite Hg. cbn.
    destruct (Resolve sort gs) as [eff|e] eqn:HR; [|unfold Resolve in HR; by rewrite Hn in HR].
    destruct (Resolve_union sort gs eff HR) as (ns' & Hn' & Hall). rewrite Hn in Hn'.
    injection Hn' as <-. destruct (proj1 (Hall permission)) as [_ [r Hr]]; [by exists g|].
    exists eff, r. split_and!; [done|done|exact (Resolve_reach_valid sort gs eff _ _ Hsort HR Hr)].
  - intros (eff & r & H & Hr & _). apply bind_ok in H as ([id dis] & Hu & H).
    apply bind_ok in H as (u & Hd%fail_if_ok & H). subst dis. apply bind_ok in H as (gs & Hg%wrap_err_ok & HR%wrap_err_ok).
    destruct (Resolve_union sort gs eff HR) as (ns & Hn & Hall).
    destruct (proj1 (proj1 (Hall permission)) ltac:(eauto)) as (g & Hin & Hp & Hst). exists id, gs, ns, g. by split_and!.
Qed.

(** The reach that the store's rows give a user for a permission. *)
Definition reaches (rows : AccessRows) (subject permission : string) (r : Reach) : Prop :=
  exists id gs ns, ar_user rows subject = Ok (id, false) /\ ar_grants rows id = Ok gs /\ map_result NormalizeGrant gs = Ok ns
    /\ is_union (contributions ns permission) r.

Lemma StoreResolve_reaches sort rows subject permission eff r :
  SortsByID sort -> StoreResolveEffectiveAccess sort rows subject = Ok eff -> ea_Permissions eff !! permission = Some r ->
  reaches rows subject permission r.
Proof.
  intros Hsort H Hr. apply bind_ok in H as ([id dis] & Hu & H). apply bind_ok in H as (u & Hd%fail_if_ok & H). subst dis.
  apply bind_ok in H as (gs & Hg%wrap_err_ok & HR%wrap_err_ok). destruct (Resolve_union sort gs eff HR) as (ns & Hn & Hall).
  exists id, gs, ns. split_and!; [done..|]. by apply Hall.
Qed.

(** C20. A procedure that needs a permission is let through by the gate over the
    store's resolver, under a context that carries no decision yet, exactly for
    an authenticated principal with a canonical subject, whose access token (if
    that is how it authenticated) is scoped to the permission, who is an existing
    and enabled user, and one of whose normalized grants carries the permission
    in a scope that may carry it; the context the handler then receives is bound
    to that subject, identity and permission, with a reach for it that is the
    union of the scopes of the grants that contribute it, and that the catalog
    allows. *)
Theorem AuthorizeContext_decides_exactly sort rows g c procedure permission :
  SortsByID sort -> NewAuthorizationGate (Some (StoreResolveEffectiveAccess sort rows)) = Ok g ->
  gated procedure permission ∈ procedureAuthorizations -> cx_decision c = None ->
  (is_ok (AuthorizeContext (Some g) (Some c) procedure) = true <->
   exists pr, cx_principal c = Some pr /\ presentable pr permission /\ entitled rows (pr_subject pr) permission)
  /\ forall c', AuthorizeContext (Some g) (Some c) procedure = Ok c' ->
     exists pr d r, cx_principal c = Some pr /\ AuthorizationDecisionFromContext (Some c') = Some d
       /\ ad_Subject d = pr_subject pr /\ ad_AuditIdentity d = pr_auditIdentity pr
       /\ ad_RequiredPermission d = permission
       /\ ea_Permissions (ad_EffectiveAccess d) !! permission = Some r /\ validReach permission r = true
       /\ reaches rows (pr_subject pr) permission r.
Proof.
  intros Hsort ->%NewAuthorizationGate_inv Hin Hd.
  rewrite (AuthorizeContext_gated _ _ _ _ Hin), Hd. unfold presentable.
  setoid_rewrite (StoreResolve_entitled sort rows _ permission Hsort). split.
  - rewrite is_ok_inv. split.
    + intros (c' & H). apply bind_ok in H as (pr & Hpr%or_err_ok & H).
      apply bind_ok in H as (u1 & Hs%fail_if_ok%negb_false_iff & H). apply bind_ok in H as (u2 & Hp%fail_if_ok & H).
      apply bind_ok in H as (eff & Heff%wrap_err_ok & H). apply bind_ok in H as (r & Hr%or_err_ok & H).
      apply bind_ok in H as (u3 & Hv%fail_if_ok%negb_false_iff & _). exists pr.
      split_and!; [done|done| |eauto]. intros Hpat. rewrite Hpat in Hp. by case_bool_decide.
    + intros (pr & Hpr & [Hs Hp] & eff & r & Heff & Hr & Hv). rewrite Hpr. cbn [or_err mbind result_bind].
      rewrite Hs. cbn [negb fail_if mbind result_bind].
      replace (pr_isPAT pr && _) with false
        by (destruct (pr_isPAT pr); [by rewrite bool_decide_eq_true_2 by auto|done]).
      unfold decide_access. rewrite Heff. cbn. rewrite Hr. cbn. rewrite Hv. eauto.
  - intros c' H. apply bind_ok in H as (pr & Hpr%or_err_ok & H). apply bind_ok in H as (u1 & _ & H).
    apply bind_ok in H as (u2 & _ & H). apply bind_ok in H as (eff & Heff%wrap_err_ok & H).
    apply bind_ok in H as (r & Hr%or_err_ok & H). apply bind_ok in H as (u3 & Hv%fail_if_ok & [= <-]).
    apply negb_false_iff in Hv. pose proof (StoreResolve_reaches _ _ _ _ _ _ Hsort Heff Hr) as Hreach.
    exists pr. eexists _, r. split_and!; try reflexivity; [done| |done|done].
    cbn. rewrite !lookup_fmap, Hr. by destruct r.
Qed.

(** A decision cannot travel: once a context carries one, a gated call under
    it is let through exactly when the decision names the context's own
    principal and the very permission that procedure needs, with a reach the
    catalog allows, and the context is then returned unchanged; in particular a
    handler that re-checks its own procedure is never refused and never resolves
    access again, and a decision for one permission never opens a procedure that
    needs another. *)
Theorem decision_is_bound resolver g c procedure permission d :
  NewAuthorizationGate (Some resolver) = Ok g ->
  gated procedure permission ∈ procedureAuthorizations -> cx_decision c = Some d ->
  (forall c', AuthorizeContext (Some g) (Some c) procedure = Ok c' <->
     c' = c /\ exists pr reach, cx_principal c = Some pr /\ presentable pr permission
       /\ ad_Subject d = pr_subject pr /\ ad_AuditIdentity d = pr_auditIdentity pr
       /\ ad_RequiredPermission d = permission
       /\ ea_Permissions (ad_EffectiveAccess d) !! permission = Some reach /\ validReach permission reach = true)
  /\ (forall c0, cx_decision c0 = None -> AuthorizeContext (Some g) (Some c0) procedure = Ok c ->
        AuthorizeContext (Some g) (Some c) procedure = Ok c).
Proof.
  intros ->%NewAuthorizationGate_inv Hin Hd.
  setoid_rewrite (AuthorizeContext_gated _ _ _ _ Hin). rewrite Hd. unfold presentable, check_decision. split.
  - intros c'. rewrite bind_ok. setoid_rewrite or_err_ok. split.
    + intros (pr & Hpr & (u1 & Hs%fail_if_ok%negb_false_iff & (u2 & Hp%fail_if_ok & H)%bind_ok)%bind_ok).
      apply bind_ok in H as (u3 & Hc%fail_if_ok%negb_false_iff & [= <-]). split; [done|].
      prop_bools. destruct (ea_Permissions (ad_EffectiveAccess d) !! permission) as [reach|] eqn:Er; [|done].
      exists pr, reach. split_and!; try done. intros Hpat. rewrite Hpat in Hp. by case_bool_decide.
    + intros [-> (pr & reach & Hpr & [Hs Hp] & H1 & H2 & H3 & H4 & H5)]. exists pr. split; [done|].
      rewrite Hs, H1, H2, H3, H4, H5, !String.eqb_refl. destruct (pr_isPAT pr); [|done].
      by rewrite bool_decide_eq_true_2 by auto.
  - intros c0 H0 H. rewrite H0 in H. apply bind_ok in H as (pr & Hpr%or_err_ok & H).
    apply bind_ok in H as (u1 & Hs & H). apply bind_ok in H as (u2 & Hp & H).
    apply bind_ok in H as (eff & _ & H). apply bind_ok in H as (r & Hr%or_err_ok & H).
    apply bind_ok in H as (u3 & Hv%fail_if_ok%negb_false_iff & [= <-]). cbn [cx_decision cx_principal] in *.
    injection Hd as <-. rewrite Hpr. cbn [or_err mbind result_bind]. rewrite Hs, Hp.
    cbn [mbind result_bind ad_Subject ad_AuditIdentity ad_RequiredPermission ad_EffectiveAccess cloneEffectiveAccess ea_Permissions].
    rewrite !String.eqb_refl, lookup_fmap, Hr. cbn [fmap option_fmap option_map andb]. destruct r as [gl dg ug se].
    cbn [Global DeviceGroupIDs UserGroupIDs Self]. rewrite Hv. reflexivity.
Qed.

(** C21. Behind the interceptor chain of a wired gate a handler runs only under
    contexts the gate produced for the request's own procedure: two handlers
    that agree on those are indistinguishable, whatever the validation,
    authentication and rate-limit interceptors do; and with any stage missing
    no handler runs at all. *)
Theorem handler_runs_only_authorized {Req Resp} (chain : option (InterceptorChain Req Resp))
    (next1 next2 : UnaryFunc Req Resp) :
  (forall c g ctx procedure request authorized,
     chain = Some c -> ic_authorize c = Some g ->
     AuthorizeContext (Some g) ctx procedure = Ok authorized ->
     next1 (Some authorized) (Some (procedure, request)) = next2 (Some authorized) (Some (procedure, request))) ->
  forall ctx request,
    ChainWrapUnary chain (Some next1) ctx request = ChainWrapUnary chain (Some next2) ctx request
    /\ ((forall c, chain = Some c -> ic_validate c = None \/ ic_authenticate c = None \/ ic_rateLimit c = None
                                     \/ gate_parts (ic_authorize c) = None) ->
        ChainWrapUnary chain (Some next1) ctx request = Err boundaryNotWiredError).
Proof.
  intros Hagree ctx request. unfold ChainWrapUnary. destruct chain as [c|]; [|done].
  specialize (Hagree c). unfold ValidateWiring. split.
  - destruct (ic_validate c) as [v|], (ic_authenticate c) as [a|], (ic_rateLimit c) as [l|]; try done.
    destruct (gate_parts (ic_authorize c)) eqn:Hp; [cbn [or_err mbind result_bind]|done]. do 3 f_equal.
    destruct (ic_authorize c) as [g|]; [|done]. extensionality ctx'. extensionality request'.
    unfold GateWrapUnary, ValidateWiring. rewrite Hp. cbn [or_err mbind result_bind].
    destruct request' as [[procedure r]|]; [|done]. cbn [or_err mbind result_bind fst].
    destruct (AuthorizeContext (Some g) ctx' procedure) as [authorized|] eqn:Ha; [|done]. by eapply Hagree.
  - intros H. specialize (H c eq_refl). revert H.
    destruct (ic_validate c), (ic_authenticate c), (ic_rateLimit c), (gate_parts (ic_authorize c)); try done.
    by intros [?|[?|[?|?]]].
Qed.

(** ** Examples *)

Definition example_subject : string := example_ulid "S".

(** A store that knows one enabled user with the example grants. *)
Definition example_rows : AccessRows :=
  mkAccessRows
    (fun id => if String.eqb id example_subject then Ok (id, false) else Err (ESentinel "no rows"))
    (fun _ => Ok example_grants).

Definition example_context : Ctx :=
  mkCtx (Some (mkAuthenticatedPrincipal example_subject ("pat:" +:+ example_ulid "T") {["devices.manage"%string]} true)) None.

Definition example_procedure : string := "/powermanage.v1.ControlService/DeleteDevice".

Definition example_gate : AuthorizationGate := wired_gate (StoreResolveEffectiveAccess sort_by_id example_rows).

Definition example_decided : result gate_error Ctx :=
  AuthorizeContext (Some example_gate) (Some example_context) example_procedure.

Lemma AuthorizeContext_decides_exactly_witness :
  NewAuthorizationGate (Some (StoreResolveEffectiveAccess sort_by_id example_rows)) = Ok example_gate
  /\ is_ok example_decided = true
  /\ exists pr, cx_principal example_context = Some pr /\ presentable pr "devices.manage"
                /\ entitled example_rows (pr_subject pr) "devices.manage".
Proof.
  split; [apply NewAuthorizationGate_wired|]. split; [vm_compute; reflexivity|].
  refine (proj1 (proj1 (AuthorizeContext_decides_exactly sort_by_id example_rows example_gate example_context
    example_procedure "devices.manage" _ _ _ _)) _).
  - apply NewAuthorizationGate_wired.
  - apply classify_spec. vm_compute. reflexivity.
  - reflexivity.
  - vm_compute. reflexivity.
Defined.

Definition example_authorized : Ctx := match example_decided with Ok c => c | Err _ => example_context end.

Definition example_decision : AuthorizationDecision :=
  default (mkAuthorizationDecision "" "" "" (mkEffectiveAccess [] ∅)) (cx_decision example_authorized).

Lemma decision_is_bound_witness :
  cx_decision example_authorized = Some example_decision
  /\ AuthorizeContext (Some example_gate) (Some example_authorized) example_procedure = Ok example_authorized
  /\ AuthorizeContext (Some example_gate) (Some example_authorized) "/powermanage.v1.ControlService/ListUsers"
     = Err permissionDenied.
Proof.
  assert (Hd : cx_decision example_authorized = Some example_decision) by (vm_compute; reflexivity).
  split; [exact Hd|]. split; [|vm_compute; reflexivity].
  refine (proj2 (decision_is_bound (StoreResolveEffectiveAccess sort_by_id example_rows) example_gate example_authorized
    example_procedure "devices.manage" example_decision _ _ Hd) example_context eq_refl _).
  - apply NewAuthorizationGate_wired.
  - apply classify_spec. vm_compute. reflexivity.
  - vm_compute. reflexivity.
Defined.

(** A wired chain, and two handlers that differ only where no decision was made. *)
Definition wired_chain : InterceptorChain unit nat := mkInterceptorChain (Some id) (Some id) (Some id) (Some example_gate).
Definition trusting_handler : UnaryFunc unit nat := fun _ _ => Ok 1%nat.
Definition checking_handler : UnaryFunc unit nat := fun ctx request =>
  match request, ctx with
  | Some (procedure, _), Some c =>
      if String.eqb procedure example_procedure then match cx_decision c with Some _ => Ok 1%nat | None => Ok 2%nat end else Ok 1%nat
  | _, _ => Ok 1%nat
  end.

Lemma example_gated : gated example_procedure "devices.manage" ∈ procedureAuthorizations.
Proof. apply classify_spec. vm_compute. reflexivity. Qed.

Lemma authorized_decided ctx c : AuthorizeContext (Some example_gate) ctx example_procedure = Ok c -> is_Some (cx_decision c).
Proof.
  destruct ctx as [ctx|]; [|done]. unfold example_gate. rewrite (AuthorizeContext_gated _ _ _ _ example_gated).
  intros (pr & _ & H)%bind_ok. do 2 (apply bind_ok in H as (? & _ & H)). destruct (cx_decision ctx) as [d|] eqn:Hd.
  - apply bind_ok in H as (? & _ & [= <-]). by rewrite Hd.
  - apply bind_ok in H as (? & _ & H). do 2 (apply bind_ok in H as (? & _ & H)). injection H as <-. by eexists.
Qed.

Lemma handlers_agree ctx procedure request c :
  AuthorizeContext (Some example_gate) ctx procedure = Ok c ->
  checking_handler (Some c) (Some (procedure, request)) = trusting_handler (Some c) (Some (procedure, request)).
Proof.
  intros H. cbn. destruct (String.eqb_spec procedure example_procedure) as [->|]; [|done].
  by apply authorized_decided in H as [d ->].
Qed.

(** Behind the wired chain the handler runs for the authorized call, and is never
    seen to meet an undecided one. *)
Lemma handler_runs_only_authorized_witness :
  ChainWrapUnary (Some wired_chain) (Some checking_handler) (Some example_context) (Some (example_procedure, tt)) = Ok 1%nat
  /\ checking_handler (Some example_context) (Some (example_procedure, tt)) = Ok 2%nat
  /\ (forall ctx request, ChainWrapUnary (Some wired_chain) (Some checking_handler) ctx request
                         = ChainWrapUnary (Some wired_chain) (Some trusting_handler) ctx request)
  /\ ChainWrapUnary (Some (mkInterceptorChain (Some id) (Some id) (Some id) None)) (Some trusting_handler) None None
     = Err boundaryNotWiredError.
Proof.
  split; [vm_compute; reflexivity|]. split; [vm_compute; reflexivity|]. split.
  - intros ctx request.
    refine (proj1 (handler_runs_only_authorized (Some wired_chain) checking_handler trusting_handler _ ctx request)).
    intros c g ctx' procedure r authorized [= <-] [= <-]. apply handlers_agree.
  - refine (proj2 (handler_runs_only_authorized _ trusting_handler trusting_handler _ None None) _); [done|].
    intros c [= <-]. right; right; right. reflexivity.
Defined.
