(* ===== verification/Interleave.v ===== *)
(** * Calls that interleave

    A call is a sequence of atomic actions on a shared state; each action also
    receives what its environment decides (failures, clocks).  Calls of any
    number of threads interleave with each other and with other changes of the
    state.  [rg] is a rely-guarantee judgement: every action of the call keeps
    the invariant and moves the state along its guarantee, and its assertions
    survive any move of the other parties. *)

From S2P Require Export Prelude.

Section Programs.
Context {Env St : Type}.

Inductive prog (A : Type) : Type :=
| Ret (a : A)
| Act (X : Type) (op : Env -> St -> St * X) (k : X -> prog A).
Arguments Ret {A}.
Arguments Act {A X}.

Fixpoint bind_prog {A B} (p : prog A) (f : A -> prog B) : prog B :=
  match p with
  | Ret a => f a
  | Act op k => Act op (fun x => bind_prog (k x) f)
  end.

(** An action that only reads the state. *)
Definition look {X} (q : Env -> St -> X) : prog X := Act (fun env s => (s, q env s)) Ret.

(** An action that changes it. *)
Definition act {X} (op : Env -> St -> St * X) : prog X := Act op Ret.

(** Continue on success, stop on an error. *)
Definition try_prog {E A B} (p : prog (result E A)) (f : A -> prog (result E B)) : prog (result E B) :=
  bind_prog p (fun r => match r with Ok a => f a | Err e => Ret (Err e) end).

Definition step_prog {A} (env : Env) (s : St) (p : prog A) : St * prog A :=
  match p with
  | Ret a => (s, Ret a)
  | Act op k => let '(s', x) := op env s in (s', k x)
  end.

(** A call running alone, with one environment per action. *)
Definition exec {A} (envs : list Env) (s : St) (p : prog A) : St * prog A :=
  fold_left (fun c env => step_prog env c.1 c.2) envs (s, p).

(** A call running alone to its end, in one environment. *)
Fixpoint run_prog {A} (env : Env) (s : St) (p : prog A) : St * A :=
  match p with
  | Ret a => (s, a)
  | Act op k => let '(s', x) := op env s in run_prog env s' (k x)
  end.

Lemma run_bind {A B} env s (p : prog A) (f : A -> prog B) :
  run_prog env s (bind_prog p f) = let '(s', a) := run_prog env s p in run_prog env s' (f a).
Proof. revert s. induction p as [a|X op k IH]; intros s; cbn; [done|]. destruct (op env s) as [s' x]. apply IH. Qed.

Lemma run_try {E A B} env s (p : prog (result E A)) (f : A -> prog (result E B)) s' a :
  run_prog env s p = (s', Ok a) -> run_prog env s (try_prog p f) = run_prog env s' (f a).
Proof. intros H. unfold try_prog. by rewrite run_bind, H. Qed.

(** [for _, x := range l { if err := f(x); err != nil { return err } }] *)
Fixpoint each_prog {E A} (f : A -> prog (result E unit)) (l : list A) : prog (result E unit) :=
  match l with
  | [] => Ret (Ok tt)
  | x :: rest => try_prog (f x) (fun _ => each_prog f rest)
  end.

(** The loop that collects the values. *)
Fixpoint map_prog {E A B} (f : A -> prog (result E B)) (l : list A) : prog (result E (list B)) :=
  match l with
  | [] => Ret (Ok [])
  | x :: rest => try_prog (f x) (fun y => try_prog (map_prog f rest) (fun ys => Ret (Ok (y :: ys))))
  end.

Lemma run_each {E A} env s (f : A -> prog (result E unit)) l :
  (forall x, x ∈ l -> run_prog env s (f x) = (s, Ok tt)) -> run_prog env s (each_prog f l) = (s, Ok tt).
Proof.
  induction l as [|x l IH]; intros H; cbn [each_prog]; [done|].
  rewrite (run_try _ _ _ _ s tt) by (apply H; set_solver). apply IH. intros y Hy. apply H. set_solver.
Qed.

Lemma run_map {E A B} env s (f : A -> prog (result E B)) (g : A -> B) l :
  (forall x, x ∈ l -> run_prog env s (f x) = (s, Ok (g x))) -> run_prog env s (map_prog f l) = (s, Ok (g <$> l)).
Proof.
  induction l as [|x l IH]; intros H; cbn [map_prog]; [done|].
  rewrite (run_try _ _ _ _ s (g x)) by (apply H; set_solver).
  rewrite (run_try _ _ _ _ s (g <$> l)) by (apply IH; intros y Hy; apply H; set_solver). done.
Qed.

(** Running alone in one environment is executing enough steps. *)
Lemma run_exec {A} env s (p : prog A) :
  exists n, exec (replicate n env) s p = ((run_prog env s p).1, Ret (run_prog env s p).2).
Proof.
  revert s. induction p as [a|X op k IH]; intros s; [by exists 0%nat|].
  cbn [run_prog]. destruct (op env s) as [s' x] eqn:Hop. destruct (IH x s') as [n Hn]. exists (S n).
  unfold exec in *. cbn [replicate fold_left fst snd step_prog]. rewrite Hop. exact Hn.
Qed.

(** Any number of calls, and the other changes [Other] of the state. *)
Inductive sched_step {A} (Other : St -> St -> Prop) : St * list (prog A) -> St * list (prog A) -> Prop :=
| step_thread s ts i p env :
    ts !! i = Some p -> sched_step Other (s, ts) ((step_prog env s p).1, <[i := (step_prog env s p).2]> ts)
| step_other s s' ts : Other s s' -> sched_step Other (s, ts) (s', ts).

(** One call running while the others wait is one of the schedules. *)
Lemma exec_schedule_at {A} (Other : St -> St -> Prop) envs s (p : prog A) ts i :
  ts !! i = Some p -> rtc (sched_step Other) (s, ts) ((exec envs s p).1, <[i := (exec envs s p).2]> ts).
Proof.
  unfold exec. revert s p ts. induction envs as [|env envs IH]; intros s p ts Hi; cbn [fold_left fst snd].
  - rewrite list_insert_id by done. apply rtc_refl.
  - eapply rtc_l; [by apply (step_thread Other s ts i p env)|]. destruct (step_prog env s p) as [s' p'] eqn:E. cbn [fst snd].
    rewrite <- (list_insert_insert_eq ts i (fold_left (fun c env => step_prog env c.1 c.2) envs (s', p')).2 p').
    apply IH, list_lookup_insert_eq. by eapply lookup_lt_Some.
Qed.

(** Calls one after the other. *)
Fixpoint run_all {A} (env : Env) (s : St) (ps : list (prog A)) : St * list A :=
  match ps with
  | [] => (s, [])
  | p :: rest => let '(s, a) := run_prog env s p in let '(s, l) := run_all env s rest in (s, a :: l)
  end.

(** They are one of the schedules. *)
Lemma run_all_schedule {A} (Other : St -> St -> Prop) env s (before : list A) (ps : list (prog A)) :
  rtc (sched_step Other) (s, (Ret <$> before) ++ ps)
    ((run_all env s ps).1, (Ret <$> before) ++ (Ret <$> (run_all env s ps).2)).
Proof.
  revert s before. induction ps as [|p ps IH]; intros s before; cbn [run_all]; [apply rtc_refl|].
  destruct (run_exec env s p) as [n Hn]. destruct (run_prog env s p) as [s1 a] eqn:E.
  etrans.
  { apply (exec_schedule_at Other (replicate n env) s p _ (length before)). by rewrite lookup_app_r, length_fmap, Nat.sub_diag by by rewrite length_fmap. }
  rewrite Hn. cbn [fst snd]. specialize (IH s1 (before ++ [a])).
  replace (length before) with (length (@Ret A <$> before) + 0)%nat by (rewrite length_fmap; lia).
  rewrite insert_app_r. cbn [list_insert insert]. destruct (run_all env s1 ps) as [s2 l]. cbn [fst snd] in *.
  rewrite !fmap_app, <- !app_assoc in IH. exact IH.
Qed.

(** A call running alone is one of the schedules. *)
Lemma exec_schedule {A} (Other : St -> St -> Prop) envs s (p : prog A) :
  rtc (sched_step Other) (s, [p]) ((exec envs s p).1, [(exec envs s p).2]).
Proof. by apply (exec_schedule_at Other envs s p [p] 0). Qed.

(** *** Results earned by the step that ends the call *)

Section Earned.
Context {A : Type} (G : St -> St -> Prop) (W : A -> St -> St -> Prop).

(** Every step of a call moves the state along [G], and the step that ends the
    call relates its result to the states before and after. *)
Fixpoint earns (p : prog A) : Prop :=
  match p with
  | Ret _ => True
  | Act op k => forall env s s' x, op env s = (s', x) -> G s s' /\ (forall a, k x = Ret a -> W a s s') /\ earns (k x)
  end.

Context (won : A -> bool) (M : St -> nat).

Definition finished_won (p : prog A) : bool := match p with Ret a => won a | Act _ _ => false end.

Definition wins (ts : list (prog A)) : nat := length (filter (fun p => finished_won p = true) ts).

Lemma wins_insert ts i p p' :
  ts !! i = Some p -> (finished_won p = true -> p' = p) ->
  (wins (<[i:=p']> ts) = wins ts + (if finished_won p' && negb (finished_won p) then 1 else 0))%nat.
Proof.
  unfold wins. revert i. induction ts as [|q ts IH]; intros [|i] Hi Hw; [done..| |].
  - injection Hi as ->. cbn [list_insert insert]. rewrite !filter_cons.
    destruct (finished_won p) eqn:E; [rewrite (Hw eq_refl), E; case_decide; cbn; lia|].
    destruct (finished_won p'); repeat case_decide; cbn; congruence || lia.
  - cbn [list_insert insert]. rewrite !filter_cons. specialize (IH i Hi Hw). cbn [insert list_insert] in IH.
    destruct (decide (finished_won q = true)); cbn [length]; unfold insert in *; lia.
Qed.

(** Each call that ends a winner has moved the measure. *)
Lemma earns_count Other (c c' : St * list (prog A)) :
  (forall s s', G s s' -> M s <= M s')%nat -> (forall s s', Other s s' -> M s <= M s')%nat ->
  (forall a s s', W a s s' -> won a = true -> M s < M s')%nat ->
  rtc (sched_step Other) c c' -> Forall earns c.2 -> Forall earns c'.2 /\ (wins c'.2 + M c.1 <= wins c.2 + M c'.1)%nat.
Proof.
  intros HG HO HW Hr. induction Hr as [c|c1 c2 c3 Hstep Hr IH]; intros Hall; [done|].
  assert (Forall earns c2.2 /\ (wins c2.2 + M c1.1 <= wins c1.2 + M c2.1)%nat) as [Hall2 H12].
  { destruct Hstep as [s ts i p env Hi|s s' ts Hs]; cbn [fst snd] in *; [|split; [done|specialize (HO _ _ Hs); lia]].
    pose proof (Forall_lookup_1 _ _ _ _ Hall Hi) as Hp. destruct p as [a|X op k]; cbn [step_prog fst snd].
    - rewrite list_insert_id by done. done.
    - destruct (op env s) as [s' x] eqn:Hop. cbn [fst snd]. destruct (Hp env s s' x Hop) as (HGs & HWs & Hk).
      split; [by apply Forall_insert|]. rewrite (wins_insert _ _ _ _ Hi) by done. specialize (HG _ _ HGs).
      destruct (k x) as [a|Y op' k'] eqn:Ek; cbn [finished_won]; [|cbn; lia].
      destruct (won a) eqn:Ea; cbn; [|lia]. specialize (HW a s s' (HWs a eq_refl) Ea). lia. }
  destruct (IH Hall2) as [Hall3 H23]. split; [done|lia].
Qed.
End Earned.

Lemma earns_bind {A B} G (W : A -> St -> St -> Prop) (W' : B -> St -> St -> Prop) p (f : A -> prog B) :
  earns G W p -> (forall a s s' b, W a s s' -> f a = Ret b -> W' b s s') -> (forall a, earns G W' (f a)) ->
  earns G W' (bind_prog p f).
Proof.
  intros Hp HW Hf. induction p as [a|X op k IH]; cbn in *; [done|].
  intros env s s' x Hop. destruct (Hp env s s' x Hop) as (HG & Ha & Hk). split_and!; [done| |by apply IH].
  intros b Hb. destruct (k x) as [a|Y op' k'] eqn:E; [|done]. eapply HW; [by apply Ha|done].
Qed.

Section RelyGuarantee.
Context (Inv : St -> Prop) (Rely Guar : St -> St -> Prop) `{!PreOrder Rely, !Reflexive Guar}.

Definition stable (P : St -> Prop) : Prop := forall s s', Inv s -> Inv s' -> Rely s s' -> P s -> P s'.

Fixpoint rg {A} (Q : A -> St -> Prop) (P : St -> Prop) (p : prog A) : Prop :=
  match p with
  | Ret a => forall s, Inv s -> P s -> Q a s
  | Act op k => forall env s s' x, Inv s -> P s -> op env s = (s', x) ->
      Guar s s' /\ Inv s' /\ exists P', stable P' /\ P' s' /\ rg Q P' (k x)
  end.

Lemma rg_weaken {A} (Q : A -> St -> Prop) (P P' : St -> Prop) p :
  (forall s, Inv s -> P' s -> P s) -> rg Q P p -> rg Q P' p.
Proof. intros Hw. destruct p as [a|X op k]; cbn; [eauto|]. intros H env s s' x HI HP. by apply H; auto. Qed.

Lemma rg_post {A} (Q Q' : A -> St -> Prop) (P : St -> Prop) p :
  (forall a s, Inv s -> Q a s -> Q' a s) -> rg Q P p -> rg Q' P p.
Proof.
  intros Hw. revert P. induction p as [a|X op k IH]; intros P; cbn; [eauto|].
  intros H env s s' x HI HP Hop. destruct (H env s s' x HI HP Hop) as (HR & HI' & P' & Hst & HP' & Hk). eauto 10.
Qed.

Lemma rg_bind {A B} (Q : A -> St -> Prop) (Q' : B -> St -> Prop) P p f :
  rg Q P p -> (forall a, rg Q' (Q a) (f a)) -> rg Q' P (bind_prog p f).
Proof.
  revert P. induction p as [a|X op k IH]; intros P Hp Hf; cbn in *.
  - eapply rg_weaken; [|apply Hf]. exact Hp.
  - intros env s s' x HI HP Hop. destruct (Hp env s s' x HI HP Hop) as (HR & HI' & P' & Hst & HP' & Hk). eauto 10.
Qed.

Lemma rg_try {E A B} (Q : A -> St -> Prop) (Q' : result E B -> St -> Prop) P p f :
  rg (fun r s => match r with Ok a => Q a s | Err e => Q' (Err e) s end) P p ->
  (forall a, rg Q' (Q a) (f a)) -> rg Q' P (try_prog p f).
Proof.
  intros Hp Hf. eapply rg_bind; [exact Hp|]. intros [a|e]; [apply Hf|]. by intros s _ H.
Qed.

(** A read keeps the state: what is learned must be stable. *)
Lemma rg_look {X} (q : Env -> St -> X) (Q : X -> St -> Prop) (P : St -> Prop) :
  (forall x, stable (Q x)) -> (forall env s, Inv s -> P s -> Q (q env s) s) -> rg Q P (look q).
Proof.
  intros Hst Hq env s s' x HI HP [= <- <-]. split_and!; [reflexivity|done|].
  exists (Q (q env s)). split_and!; [apply Hst|by apply Hq|]. by intros s1 _ H.
Qed.

Lemma rg_act {X} (op : Env -> St -> St * X) (Q : X -> St -> Prop) (P : St -> Prop) :
  (forall x, stable (Q x)) ->
  (forall env s s' x, Inv s -> P s -> op env s = (s', x) -> Guar s s' /\ Inv s' /\ Q x s') -> rg Q P (act op).
Proof.
  intros Hst Hop env s s' x HI HP Heq. destruct (Hop env s s' x HI HP Heq) as (HR & HI' & HQ).
  split_and!; [done|done|]. exists (Q x). split_and!; [apply Hst|done|]. by intros s1 _ H.
Qed.

Lemma stable_and (P P' : St -> Prop) : stable P -> stable P' -> stable (fun s => P s /\ P' s).
Proof. intros H H' s s' HI HI' HR [HP HP']. split; eauto. Qed.

Lemma stable_const (P : Prop) : stable (fun _ => P).
Proof. by intros s s' _ _ _ H. Qed.

(** A fallible step continues with what it learned; an error ends the call. *)
Definition fails_freely {E B} (Q : result E B -> St -> Prop) : Prop := forall e s, Q (Err e) s.

Lemma rg_look_try {E X B} (q : Env -> St -> result E X) (Q : X -> St -> Prop) (Q' : result E B -> St -> Prop) P f :
  fails_freely Q' -> (forall x, stable (Q x)) -> (forall env s x, Inv s -> P s -> q env s = Ok x -> Q x s) ->
  (forall x, rg Q' (Q x) (f x)) -> rg Q' P (try_prog (look q) f).
Proof.
  intros He Hst Hq Hf. eapply rg_bind with (Q := fun r s => match r with Ok x => Q x s | Err _ => True end).
  - apply rg_look; [by intros [x|e]; [apply Hst|apply stable_const]|]. intros env s HI HP.
    destruct (q env s) as [x|e] eqn:Eq; [by eapply Hq|done].
  - intros [x|e]; [apply Hf|]. intros s _ _. apply He.
Qed.

Lemma rg_act_try {E X B} (op : Env -> St -> St * result E X) (Q : X -> St -> Prop) (Q' : result E B -> St -> Prop) P f :
  fails_freely Q' -> (forall x, stable (Q x)) ->
  (forall env s s' r, Inv s -> P s -> op env s = (s', r) ->
     Guar s s' /\ Inv s' /\ match r with Ok x => Q x s' | Err _ => True end) ->
  (forall x, rg Q' (Q x) (f x)) -> rg Q' P (try_prog (act op) f).
Proof.
  intros He Hst Hop Hf. eapply rg_bind with (Q := fun r s => match r with Ok x => Q x s | Err _ => True end).
  - apply rg_act; [by intros [x|e]; [apply Hst|apply stable_const]|done].
  - intros [x|e]; [apply Hf|]. intros s _ _. apply He.
Qed.

Lemma rg_pure_try {E X B} (r : result E X) (Q' : result E B -> St -> Prop) P f :
  fails_freely Q' -> (forall x, r = Ok x -> rg Q' P (f x)) -> rg Q' P (try_prog (Ret r) f).
Proof. intros He Hf. unfold try_prog. cbn [bind_prog]. destruct r as [x|e]; [by apply Hf|]. intros s _ _. apply He. Qed.

(** A fact that does not depend on the state may be assumed. *)
Lemma rg_pure_pre {A} (Q : A -> St -> Prop) (F : Prop) (P : St -> Prop) p :
  (F -> rg Q P p) -> rg Q (fun s => F /\ P s) p.
Proof.
  intros H. destruct p as [a|X op k]; cbn in *.
  - intros s HI [HF HP]. by apply H.
  - intros env s s' x HI [HF HP]. by apply H.
Qed.

(** Sequencing associates. *)
Lemma rg_assoc {A B C} (Q : C -> St -> Prop) P (p : prog A) (g : A -> prog B) (h : B -> prog C) :
  rg Q P (bind_prog p (fun a => bind_prog (g a) h)) -> rg Q P (bind_prog (bind_prog p g) h).
Proof.
  revert P. induction p as [a|X op k IH]; intros P; cbn; [done|]. intros H env s s' x HI HP Hop.
  destruct (H env s s' x HI HP Hop) as (HR & HI' & P' & Hst & HP' & Hk). eauto 10.
Qed.

(** A value that the precondition knows. *)
Lemma rg_exists {A X} (Q : A -> St -> Prop) (P : X -> St -> Prop) p :
  (forall x, rg Q (P x) p) -> rg Q (fun s => exists x, P x s) p.
Proof.
  intros H. destruct p as [a|Y op k]; cbn in *.
  - intros s HI [x HP]. by apply (H x).
  - intros env s s' y HI [x HP]. by apply (H x).
Qed.

(** A fact that all parties, the call included, leave true. *)
Definition kept (F : St -> Prop) : Prop :=
  forall s s', Inv s -> Inv s' -> Guar s s' \/ Rely s s' -> F s -> F s'.

Lemma kept_stable F : kept F -> stable F.
Proof. intros H s s' H1 H2 H3. eapply H; eauto. Qed.

Lemma rg_frame {A} (F : St -> Prop) (Q : A -> St -> Prop) (P : St -> Prop) p :
  kept F -> rg Q P p -> rg (fun a s => Q a s /\ F s) (fun s => P s /\ F s) p.
Proof.
  intros HF. revert P. induction p as [a|X op k IH]; intros P; cbn; [naive_solver|].
  intros H env s s' x HI [HP Hs] Hop. destruct (H env s s' x HI HP Hop) as (HG & HI' & P' & Hst & HP' & Hk).
  split; [done|]. split; [done|]. exists (fun s => P' s /\ F s). split; [by apply stable_and; [|apply kept_stable]|].
  split; [split; [done|by eapply HF; eauto]|]. by apply IH.
Qed.

Lemma rg_done {E B} (r : result E B) (Q : result E B -> St -> Prop) (P : St -> Prop) :
  (forall s, Inv s -> P s -> Q r s) -> rg Q P (Ret r).
Proof. done. Qed.

(** A call that is where its judgement says. *)
Definition on_track {A} (s : St) (Q : A -> St -> Prop) (p : prog A) : Prop :=
  exists P, stable P /\ P s /\ rg Q P p.

Lemma on_track_step {A} (Q : A -> St -> Prop) env s p :
  Inv s -> on_track s Q p ->
  Inv (step_prog env s p).1 /\ Guar s (step_prog env s p).1 /\ on_track (step_prog env s p).1 Q (step_prog env s p).2.
Proof.
  intros HI (P & Hst & HP & Hp). destruct p as [a|X op k]; cbn [step_prog].
  - cbn [fst snd]. split_and!; [done|reflexivity|by exists P].
  - destruct (op env s) as [s' x] eqn:Hop. cbn [fst snd].
    destruct (Hp env s s' x HI HP Hop) as (HR & HI' & P' & Hst' & HP' & Hk). split_and!; [done|done|by exists P'].
Qed.

Lemma on_track_move {A} (Q : A -> St -> Prop) s s' p :
  Inv s -> Inv s' -> Rely s s' -> on_track s Q p -> on_track s' Q p.
Proof. intros H1 H2 HR (P & Hst & HP & Hp). exists P. eauto. Qed.

(** Whatever the interleaving, the invariant holds, the state has moved along
    the relation, and every call is where its judgement says. *)
Lemma rg_sound {A} (Qs : list (A -> St -> Prop)) Other (c c' : St * list (prog A)) :
  (forall s s', Guar s s' -> Rely s s') ->
  (forall s s', Inv s -> Other s s' -> Rely s s' /\ Inv s') ->
  rtc (sched_step Other) c c' -> Inv c.1 -> Forall2 (on_track c.1) Qs c.2 ->
  Inv c'.1 /\ Rely c.1 c'.1 /\ Forall2 (on_track c'.1) Qs c'.2.
Proof.
  intros Hgr Ho Hr. induction Hr as [c|c1 c2 c3 Hstep Hr IH]; intros HI Hall; [done|].
  assert (Inv c2.1 /\ Rely c1.1 c2.1 /\ Forall2 (on_track c2.1) Qs c2.2) as (HI2 & HR2 & H2).
  { assert (Hkeep : forall s' ts, Inv s' -> Rely c1.1 s' -> Forall2 (on_track c1.1) Qs ts -> Forall2 (on_track s') Qs ts).
    { intros s' ts H2 HR HF. eapply Forall2_impl; [exact HF|]. intros Q p. by apply on_track_move. }
    destruct Hstep as [s ts i p env Hi|s s' ts Hs]; cbn [fst snd] in *.
    - destruct (Forall2_lookup_r _ _ _ _ _ Hall Hi) as (Q & HQ & Hp).
      destruct (on_track_step Q env s p HI Hp) as (HI' & HR%Hgr & Hp'). split_and!; [done|done|].
      rewrite <- (list_insert_id Qs i Q HQ). apply Forall2_insert; [|done]. by apply Hkeep.
    - destruct (Ho s s' HI Hs) as [HR HI']. split_and!; [done|done|]. by apply Hkeep. }
  destruct (IH HI2 H2) as (HI3 & HR3 & H3). split_and!; [done|by transitivity c2.1|done].
Qed.

(** One call among the moves of the others: whatever it has done so far, every
    step was its guarantee or a move of the others. *)
Lemma rg_alone {A} (Q : A -> St -> Prop) Other (c c' : St * list (prog A)) :
  (forall s s', Inv s -> Other s s' -> Rely s s' /\ Inv s') ->
  rtc (sched_step Other) c c' -> Inv c.1 -> forall p, c.2 = [p] -> on_track c.1 Q p ->
  Inv c'.1 /\ rtc (fun s s' => Inv s /\ Inv s' /\ (Guar s s' \/ Rely s s')) c.1 c'.1 /\ exists p', c'.2 = [p'] /\ on_track c'.1 Q p'.
Proof.
  intros Ho Hr. induction Hr as [c|c1 c2 c3 Hstep Hr IH]; intros HI p Hp Ht; [split_and!; [done|apply rtc_refl|eauto]|].
  assert (Inv c2.1 /\ (Guar c1.1 c2.1 \/ Rely c1.1 c2.1) /\ exists p2, c2.2 = [p2] /\ on_track c2.1 Q p2) as (HI2 & HG & p2 & Hp2 & Ht2).
  { destruct Hstep as [s ts i p0 env Hi|s s' ts Hs]; cbn [fst snd] in *; subst ts.
    - destruct i as [|i]; [|done]. injection Hi as ->.
      destruct (on_track_step Q env s p0 HI Ht) as (HI' & HG & Ht'). split_and!; [done|by left|]. by eexists.
    - destruct (Ho s s' HI Hs) as [HR HI']. split_and!; [done|by right|]. exists p. split; [done|]. exact (on_track_move Q _ _ p HI HI' HR Ht). }
  destruct (IH HI2 p2 Hp2 Ht2) as (HI3 & HG3 & H3). split_and!; [done| |done].
  eapply rtc_l; [|exact HG3]. done.
Qed.

(** A loop keeps its assertion and establishes, item by item, what survives. *)
Lemma rg_each {E A} (f : A -> prog (result E unit)) (R : A -> St -> Prop) (P : St -> Prop) l :
  (forall x, kept (R x)) ->
  (forall x, x ∈ l -> rg (fun r s => match r with Ok _ => P s /\ R x s | Err _ => True end) P (f x)) ->
  rg (fun r s => match r with Ok _ => P s /\ forall x, x ∈ l -> R x s | Err _ => True end) P (each_prog f l).
Proof.
  intros HR Hf.
  assert (forall done0, (forall x, x ∈ l -> rg (fun r s => match r with Ok _ => P s /\ R x s | Err _ => True end) P (f x)) ->
    rg (fun r s => match r with Ok _ => P s /\ forall x, x ∈ done0 ++ l -> R x s | Err _ => True end)
       (fun s => P s /\ forall x, x ∈ done0 -> R x s) (each_prog f l)) as H.
  { clear Hf. induction l as [|x l IH]; intros d Hf; cbn [each_prog].
    - intros s _ [H1 H2]. split; [done|]. intros x. rewrite app_nil_r. apply H2.
    - eapply (rg_bind (fun r s => match r with Ok _ => P s /\ (forall y, y ∈ d ++ [x] -> R y s) | Err _ => True end)).
      + specialize (Hf x ltac:(set_solver)). apply (rg_frame (fun s => forall y, y ∈ d -> R y s)) in Hf.
        * eapply rg_post; [|exact Hf].
          intros [u|e] s _; [|done]. intros [[H1 H2] H3]. split; [done|]. intros y [Hy|Hy]%elem_of_app; [by apply H3|by apply list_elem_of_singleton in Hy as ->].
        * intros s s' H1 H2 H3 H4 y Hy. exact (HR y s s' H1 H2 H3 (H4 y Hy)).
      + intros [u|e]; [|by intros s _ _].
        eapply rg_post; [|apply (IH (d ++ [x])); intros y Hy; apply Hf; set_solver].
        intros [v|e] s _; [|done]. by rewrite <- app_assoc. }
  eapply rg_weaken; [|apply (H [] Hf)]. intros s _ H1. split; [done|]. intros x Hx. by apply elem_of_nil in Hx.
Qed.

(** A finished call satisfies its postcondition. *)
Lemma on_track_done {A} (Q : A -> St -> Prop) s a : Inv s -> on_track s Q (Ret a) -> Q a s.
Proof. intros HI (P & _ & HP & H). by apply H. Qed.
End RelyGuarantee.
(** ** Calls that differ in what they rely on

    Each call has an index; what one guarantees is what the others rely on. *)
Section Indexed.
Context {I : Type} (Inv : St -> Prop) (Rely Guar : I -> St -> St -> Prop).
Context `{!forall i, PreOrder (Rely i)} `{!forall i, Reflexive (Guar i)}.

Definition all_on_track {A} (s : St) (iQs : list (I * (A -> St -> Prop))) (ts : list (prog A)) : Prop :=
  Forall2 (fun iQ p => on_track Inv (Rely iQ.1) (Guar iQ.1) s iQ.2 p) iQs ts.

(** Every step of a schedule is one call's guarantee or a move of the others. *)
Definition indexed_move (is_ : list I) (Other : St -> St -> Prop) (s s' : St) : Prop :=
  Inv s /\ Inv s' /\ ((exists i, i ∈ is_ /\ Guar i s s') \/ Other s s').

Lemma rg_sound_indexed {A} (iQs : list (I * (A -> St -> Prop))) Other (c c' : St * list (prog A)) :
  NoDup iQs.*1 ->
  (forall i j s s', i ∈ iQs.*1 -> j ∈ iQs.*1 -> i <> j -> Inv s -> Inv s' -> Guar i s s' -> Rely j s s') ->
  (forall s s', Inv s -> Other s s' -> Inv s' /\ forall i, i ∈ iQs.*1 -> Rely i s s') ->
  rtc (sched_step Other) c c' -> Inv c.1 -> all_on_track c.1 iQs c.2 ->
  Inv c'.1 /\ rtc (indexed_move iQs.*1 Other) c.1 c'.1 /\ all_on_track c'.1 iQs c'.2.
Proof.
  intros Hnd Hgr Ho Hr. induction Hr as [c|c1 c2 c3 Hstep Hr IH]; intros HI Hall; [by split; [|split; [apply rtc_refl|]]|].
  assert (Inv c2.1 /\ indexed_move iQs.*1 Other c1.1 c2.1 /\ all_on_track c2.1 iQs c2.2) as (HI2 & HM & H2).
  { destruct Hstep as [s ts i p env Hi|s s' ts Hs]; cbn [fst snd] in *.
    - destruct (Forall2_lookup_r _ _ _ _ _ Hall Hi) as (iQ & HQ & Hp).
      destruct (on_track_step Inv (Rely iQ.1) (Guar iQ.1) iQ.2 env s p HI Hp) as (HI' & HG & Hp').
      assert (iQ.1 ∈ iQs.*1) as Hin by (apply list_elem_of_fmap_2; by apply list_elem_of_lookup_2 in HQ).
      split; [done|]. split; [by split_and!; [..|left; eauto]|].
      apply Forall2_same_length_lookup. split; [by rewrite length_insert, (Forall2_length _ _ _ Hall)|].
      intros j jQ q HjQ Hq. destruct (decide (i = j)) as [<-|Hne].
      + rewrite HQ in HjQ. injection HjQ as <-. rewrite list_lookup_insert_eq in Hq by (by eapply lookup_lt_Some).
        by injection Hq as <-.
      + rewrite list_lookup_insert_ne in Hq by done. pose proof (Forall2_lookup_lr _ _ _ _ _ _ Hall HjQ Hq) as Hj.
        eapply on_track_move; [exact HI|exact HI'| |exact Hj]. apply (Hgr iQ.1 jQ.1); [done| | |done..].
        * apply list_elem_of_fmap_2. by apply list_elem_of_lookup_2 in HjQ.
        * intros Heq. apply Hne. eapply (NoDup_lookup iQs.*1); [done| |]; rewrite list_lookup_fmap; [by rewrite HQ|by rewrite HjQ, Heq].
    - destruct (Ho s s' HI Hs) as [HI' HR]. split; [done|]. split; [by split_and!; [..|right]|].
      apply Forall2_same_length_lookup. split; [by apply Forall2_length in Hall|]. intros j jQ q HjQ Hq.
      eapply on_track_move; [exact HI|exact HI'| |exact (Forall2_lookup_lr _ _ _ _ _ _ Hall HjQ Hq)].
      apply HR, list_elem_of_fmap_2. by apply list_elem_of_lookup_2 in HjQ. }
  destruct (IH HI2 H2) as (HI3 & HM3 & H3). split; [done|]. split; [by eapply rtc_l|done].
Qed.
End Indexed.
End Programs.

Arguments prog : clear implicits.
Arguments Ret {Env St A}.
Arguments Act {Env St A X}.
Create HintDb rg.
#[export] Hint Resolve stable_and stable_const : rg.
