(* ===== verification/Identity.v ===== *)
(** * [contract/identity]: the certificate identity profile

    Certificates and templates are the [x509.Certificate] fields the program
    reads; parsing, signature checks and ASN.1 decoding are the interface
    [X509] of the standard library's packages.  A URI is what its [String]
    method returns.  A TLS configuration keeps the fields the package sets (the
    others, [InsecureSkipVerify] among them, keep their zero value), and the
    part of the handshake that reads them is written as [crypto/tls] documents
    it, over the interface [VerifyOptions] of [x509.Certificate.Verify]. *)

From Stdlib Require Import Ascii String ZArith Lia.
From S2P Require Export Sign.

(** ** Certificates *)

Definition OID : Type := list Z.

(** [pkix.Extension] and [asn1.RawValue]. *)
Record Extension := mkExtension { ext_Id : OID; ext_Value : string }.
Record RawValue := mkRawValue { rv_Class : Z; rv_Tag : Z; rv_IsCompound : bool }.

(** The fields of an [x509.Certificate] the program reads or writes; a nil
    element of [URIs] is [None]. *)
Record Certificate := mkCertificate {
  Raw : string;
  RawSubject : string;
  RawIssuer : string;
  CommonName : string;
  ExtraNames : list OID;
  SerialNumber : option Z;
  SubjectKeyId : string;
  AuthorityKeyId : string;
  IsCA : bool;
  BasicConstraintsValid : bool;
  MaxPathLen : Z;
  MaxPathLenZero : bool;
  KeyUsage : Z;
  UnhandledCriticalExtensions : list OID;
  NotBefore : time;
  NotAfter : time;
  PublicKey : SigningKey;
  URIs : list (option string);
  Extensions : list Extension;
  ExtraExtensions : list Extension;
  ExtKeyUsage : list Z;
  UnknownExtKeyUsage : list OID;
  DNSNames : list string;
  EmailAddresses : list string;
  IPAddresses : list string;
}.

(** [x509.KeyUsageDigitalSignature], [KeyUsageCertSign], [KeyUsageCRLSign];
    [x509.ExtKeyUsageServerAuth], [ExtKeyUsageClientAuth]. *)
Definition KeyUsageDigitalSignature : Z := Z.shiftl 1 0.
Definition KeyUsageCertSign : Z := Z.shiftl 1 5.
Definition KeyUsageCRLSign : Z := Z.shiftl 1 6.
Definition ExtKeyUsageServerAuth : Z := 1.
Definition ExtKeyUsageClientAuth : Z := 2.

(** What the program uses of [crypto/x509] and [encoding/asn1]. *)
Class X509 := {
  ParseCertificate : string -> option Certificate;
  CheckSignatureFrom : Certificate -> Certificate -> bool;
  MarshalPKIXPublicKey : SigningKey -> option string;
  unmarshalRawValues : string -> option (list RawValue * string);
}.

(** ** The identity profile *)

(** contract/identity/identity.go:19-23 [AgentSPIFFEURI] *)
Definition AgentSPIFFEURI : string := "spiffe://power-manage/agent".
Definition GatewaySPIFFEURI : string := "spiffe://power-manage/gateway".
Definition ControlSPIFFEURI : string := "spiffe://power-manage/control".

(** contract/identity/identity.go:26-32 [Class] *)
Definition AgentClass : string := "agent".
Definition GatewayClass : string := "gateway".
Definition ControlClass : string := "control".

(** contract/identity/identity.go:248-259 [classURI] *)
Definition classURI (class : string) : result string string :=
  if String.eqb class AgentClass then Ok AgentSPIFFEURI
  else if String.eqb class GatewayClass then Ok GatewaySPIFFEURI
  else if String.eqb class ControlClass then Ok ControlSPIFFEURI
  else Err "identity: unsupported certificate class"%string.

(** contract/identity/identity.go:261-272 [classFromURI] *)
Definition classFromURI (uri : string) : result string string :=
  if String.eqb uri AgentSPIFFEURI then Ok AgentClass
  else if String.eqb uri GatewaySPIFFEURI then Ok GatewayClass
  else if String.eqb uri ControlSPIFFEURI then Ok ControlClass
  else Err "identity: unsupported SPIFFE URI SAN"%string.

Definition commonNameOID : OID := [2; 5; 4; 3].
Definition subjectAlternativeNameOID : OID := [2; 5; 29; 17].

Definition with_identity (template : Certificate) (name uri : string) : Certificate :=
  mkCertificate (Raw template) (RawSubject template) (RawIssuer template) name (ExtraNames template)
    (SerialNumber template) (SubjectKeyId template) (AuthorityKeyId template) (IsCA template)
    (BasicConstraintsValid template) (MaxPathLen template) (MaxPathLenZero template) (KeyUsage template)
    (UnhandledCriticalExtensions template) (NotBefore template) (NotAfter template) (PublicKey template)
    [Some uri] (Extensions template) (ExtraExtensions template) (ExtKeyUsage template) (UnknownExtKeyUsage template)
    (DNSNames template) (EmailAddresses template) (IPAddresses template).

(** contract/identity/identity.go:54-85 [StampCertificateIdentity]: the stamped
    template; [url.Parse] accepts the three constants and prints them back *)
Definition StampCertificateIdentity (template : option Certificate) (class instanceID : string)
    : result string Certificate :=
  or_err template "identity: nil certificate template"%string ≫= fun template =>
  fail_if (negb (len (RawSubject template) =? 0)) "identity: RawSubject overrides subject"%string ≫= fun _ =>
  fail_if (existsb (fun id => bool_decide (id = commonNameOID)) (ExtraNames template))
    "identity: Subject.ExtraNames overrides common name"%string ≫= fun _ =>
  fail_if (existsb (fun e => bool_decide (ext_Id e = subjectAlternativeNameOID)) (ExtraExtensions template))
    "identity: ExtraExtensions overrides subjectAltName"%string ≫= fun _ =>
  classURI class ≫= fun uri =>
  fail_if (negb (IsCanonicalULID instanceID)) "identity: instance ID is not a canonical ULID"%string ≫= fun _ =>
  Ok (with_identity template instanceID uri).

(** contract/identity/identity.go:89-104 [ParseCertificateIdentity] *)
Definition ParseCertificateIdentity (cert : option Certificate) : result string (string * string) :=
  or_err cert "identity: nil certificate"%string ≫= fun cert =>
  fail_if (negb (IsCanonicalULID (CommonName cert)))
    "identity: certificate common name is not a canonical ULID"%string ≫= fun _ =>
  match URIs cert with
  | [Some uri] => classFromURI uri ≫= fun class => Ok (class, CommonName cert)
  | _ => Err "identity: certificate must contain exactly one SPIFFE URI SAN"%string
  end.

(** contract/identity/identity.go:147-159 [RequireCertificateClass] *)
Definition RequireCertificateClass (cert : option Certificate) (expected : string) : result string unit :=
  classURI expected ≫= fun _ =>
  ParseCertificateIdentity cert ≫= fun '(actual, _) =>
  fail_if (negb (String.eqb actual expected)) "identity: certificate class is not required class"%string.

Section Parsed.
Context `{X509}.

(** contract/identity/identity.go:133-137 [RequireDNSAndURISANs]: one name *)
Definition supportedGeneralName (name : RawValue) : bool :=
  (rv_Class name =? 2) && negb (rv_IsCompound name) && ((rv_Tag name =? 2) || (rv_Tag name =? 6)).

(** contract/identity/identity.go:114-138 [RequireDNSAndURISANs]: the loop *)
Fixpoint check_sans (found : bool) (extensions : list Extension) : result string bool :=
  match extensions with
  | [] => Ok found
  | extension :: rest =>
      if negb (bool_decide (ext_Id extension = subjectAlternativeNameOID)) then check_sans found rest
      else
        fail_if found "identity: certificate contains duplicate subjectAltName extensions"%string ≫= fun _ =>
        match unmarshalRawValues (ext_Value extension) with
        | Some (names, EmptyString) =>
            fail_if (zlen names =? 0) "identity: certificate subjectAltName extension is empty"%string ≫= fun _ =>
            fail_if (negb (forallb supportedGeneralName names))
              "identity: certificate subjectAltName contains an unsupported GeneralName"%string ≫= fun _ =>
            check_sans true rest
        | _ => Err "identity: certificate subjectAltName extension is malformed"%string
        end
  end.

(** contract/identity/identity.go:110-143 [RequireDNSAndURISANs] *)
Definition RequireDNSAndURISANs (cert : option Certificate) : result string unit :=
  or_err cert "identity: nil certificate"%string ≫= fun cert =>
  check_sans false (Extensions cert) ≫= fun found =>
  fail_if (negb found) "identity: certificate subjectAltName extension is missing"%string.

(** ** TLS *)

(** [tls.Certificate]: its chain, and whether it has a private key. *)
Record TLSCertificate := mkTLSCertificate { tls_Chain : list string; tls_HasKey : bool }.

(** [tls.ClientAuthType]. *)
Inductive ClientAuthType :=
| NoClientCert | RequestClientCert | RequireAnyClientCert | VerifyClientCertIfGiven | RequireAndVerifyClientCert.

(** [tls.Config]; a nil pool or callback is [None], [VerifyConnection] sees the
    peer's certificates. *)
Record TLSConfig := mkTLSConfig {
  MinVersion : Z;
  Certificates : list TLSCertificate;
  ClientAuth : ClientAuthType;
  ClientCAs : option (list Certificate);
  RootCAs : option (list Certificate);
  ServerName : string;
  VerifyConnection : option (list Certificate -> result string unit);
}.

Definition VersionTLS13 : Z := 772.

(** [x509.Certificate.Verify] of a peer's first certificate with the others as
    intermediates: the pool of roots (the host's when it is nil), the DNS name
    (none when it is empty) and the extended key usage asked for. *)
Class VerifyOptions := Verify : option (list Certificate) -> string -> Z -> list Certificate -> bool.

(** What [crypto/tls] does with a configuration, as it documents it.  A
    connection has a version between the configured minimum and TLS 1.3, the
    newest it speaks, and [VerifyConnection] runs after the certificates. *)
Section Handshake.
Context {options : VerifyOptions}.

Definition version_spoken (config : TLSConfig) (version : Z) : bool :=
  (MinVersion config <=? version) && (version <=? VersionTLS13).

Definition connection_verified (config : TLSConfig) (peers : list Certificate) : bool :=
  match VerifyConnection config with Some verify => is_ok (verify peers) | None => true end.

(** A server sends its certificate, asks the client for one and verifies it as
    [ClientAuth] says, against [ClientCAs] for client authentication. *)
Definition client_certificates_accepted (config : TLSConfig) (peers : list Certificate) : bool :=
  let verified := Verify (ClientCAs config) "" ExtKeyUsageClientAuth peers in
  let given := negb (zlen peers =? 0) in
  match ClientAuth config with
  | NoClientCert => true
  | RequestClientCert => true
  | RequireAnyClientCert => given
  | VerifyClientCertIfGiven => negb given || verified
  | RequireAndVerifyClientCert => given && verified
  end.

Definition server_completes (config : TLSConfig) (version : Z) (peers : list Certificate) : bool :=
  let peers := match ClientAuth config with NoClientCert => [] | _ => peers end in
  negb (zlen (Certificates config) =? 0) && version_spoken config version
  && client_certificates_accepted config peers && connection_verified config peers.

(** A client refuses a configuration without a name to verify, and always
    verifies the server's chain against [RootCAs] for that name. *)
Definition client_completes (config : TLSConfig) (version : Z) (peers : list Certificate) : bool :=
  negb (String.eqb (ServerName config) "") && version_spoken config version
  && negb (zlen peers =? 0) && Verify (RootCAs config) (ServerName config) ExtKeyUsageServerAuth peers
  && connection_verified config peers.
End Handshake.

(** contract/identity/identity.go:274-279 [validateTLSCertificate] *)
Definition validateTLSCertificate (certificate : TLSCertificate) : result string unit :=
  fail_if ((zlen (tls_Chain certificate) =? 0) || negb (tls_HasKey certificate))
    "identity: TLS certificate or private key is missing"%string.

(** contract/identity/identity.go:281-283 [certPoolEmpty] *)
Definition certPoolEmpty (pool : option (list Certificate)) : bool :=
  match pool with None | Some [] => true | Some _ => false end.

(** contract/identity/identity.go:285-290 [requirePeerClass] *)
Definition requirePeerClass (peers : list Certificate) (expected : string) : result string unit :=
  match peers with
  | [] => Err "identity: peer certificate is missing"%string
  | leaf :: _ => RequireCertificateClass (Some leaf) expected
  end.

(** contract/identity/identity.go:163-182 [ServerTLSConfig] *)
Definition ServerTLSConfig (certificate : TLSCertificate) (clientCAs : option (list Certificate)) (clientClass : string)
    : result string TLSConfig :=
  validateTLSCertificate certificate ≫= fun _ =>
  fail_if (certPoolEmpty clientCAs) "identity: client CA pool is empty"%string ≫= fun _ =>
  classURI clientClass ≫= fun _ =>
  Ok (mkTLSConfig VersionTLS13 [certificate] RequireAndVerifyClientCert clientCAs None ""
        (Some (fun peers => requirePeerClass peers clientClass))).

(** contract/identity/identity.go:186-208 [ClientTLSConfig] *)
Definition ClientTLSConfig (certificate : TLSCertificate) (rootCAs : option (list Certificate))
    (serverName serverClass : string) : result string TLSConfig :=
  validateTLSCertificate certificate ≫= fun _ =>
  fail_if (certPoolEmpty rootCAs) "identity: root CA pool is empty"%string ≫= fun _ =>
  fail_if (String.eqb serverName "") "identity: TLS server name is empty"%string ≫= fun _ =>
  classURI serverClass ≫= fun _ =>
  Ok (mkTLSConfig VersionTLS13 [certificate] NoClientCert None rootCAs serverName
        (Some (fun peers => requirePeerClass peers serverClass))).

(** contract/identity/identity.go:227-244 [RejectPeerIntermediates]: the callback *)
Definition reject_denied (previous : option (list Certificate -> result string unit)) (denied : list string)
    (peers : list Certificate) : result string unit :=
  (match previous with Some verify => verify peers | None => Ok tt end) ≫= fun _ =>
  fail_if (existsb (fun peer => existsb (String.eqb (Raw peer)) denied) (tl peers))
    "identity: CA transition proof is forbidden as a peer-chain intermediate"%string.

(** contract/identity/identity.go:213-246 [RejectPeerIntermediates] *)
Definition RejectPeerIntermediates (config : option TLSConfig) (certificateDER : list string)
    : result string TLSConfig :=
  or_err config "identity: nil TLS config"%string ≫= fun config =>
  map_result (fun der =>
    match ParseCertificate der with
    | Some certificate => fail_if (negb (String.eqb (Raw certificate) der)) "identity: not exact DER"%string ≫= fun _ => Ok der
    | None => Err "identity: not exact DER"%string
    end) certificateDER ≫= fun denied =>
  Ok (mkTLSConfig (MinVersion config) (Certificates config) (ClientAuth config) (ClientCAs config)
        (RootCAs config) (ServerName config) (Some (reject_denied (VerifyConnection config) denied))).
End Parsed.

(** ** What a connection proves *)

(** The exact profile of a class and an instance. *)
Definition has_profile (class id : string) (cert : Certificate) : Prop :=
  IsCanonicalULID id = true /\ CommonName cert = id /\ exists uri, classURI class = Ok uri /\ URIs cert = [Some uri].

Lemma classURI_iff class uri : classURI class = Ok uri <-> classFromURI uri = Ok class.
Proof.
  unfold classURI, classFromURI. split.
  - destruct (String.eqb_spec class AgentClass) as [->|]; [by intros [= <-]|].
    destruct (String.eqb_spec class GatewayClass) as [->|]; [by intros [= <-]|].
    destruct (String.eqb_spec class ControlClass) as [->|]; [by intros [= <-]|done].
  - destruct (String.eqb_spec uri AgentSPIFFEURI) as [->|]; [by intros [= <-]|].
    destruct (String.eqb_spec uri GatewaySPIFFEURI) as [->|]; [by intros [= <-]|].
    destruct (String.eqb_spec uri ControlSPIFFEURI) as [->|]; [by intros [= <-]|done].
Qed.

Lemma ParseCertificateIdentity_iff cert class id :
  ParseCertificateIdentity (Some cert) = Ok (class, id) <-> has_profile class id cert.
Proof.
  unfold ParseCertificateIdentity, has_profile. cbn [or_err mbind result_bind]. split.
  - intros (u & Hc%fail_if_ok%negb_false_iff & H)%bind_ok.
    destruct (URIs cert) as [|[uri|] [|]]; try done. apply bind_ok in H as (c & Hu & [= <- <-]).
    split_and!; [done|done|]. exists uri. split; [by apply classURI_iff|done].
  - intros (Hid & <- & uri & Hu & ->). rewrite Hid. cbn [negb fail_if mbind result_bind].
    apply classURI_iff in Hu. by rewrite Hu.
Qed.

Lemma RequireCertificateClass_iff cert class :
  RequireCertificateClass (Some cert) class = Ok tt <-> exists id, has_profile class id cert.
Proof.
  unfold RequireCertificateClass. setoid_rewrite <- ParseCertificateIdentity_iff. split.
  - intros (uri & _ & ([actual id] & Hp & Heq%fail_if_ok%negb_false_iff%String.eqb_eq)%bind_ok)%bind_ok.
    subst actual. by exists id.
  - intros [id Hp]. pose proof (proj1 (ParseCertificateIdentity_iff _ _ _) Hp) as (_ & _ & uri & Hu & _).
    rewrite Hu, Hp. cbn. by rewrite String.eqb_refl.
Qed.

Lemma stamped_profile template class id cert :
  StampCertificateIdentity template class id = Ok cert -> has_profile class id cert.
Proof.
  unfold StampCertificateIdentity. intros (t & _ & H)%bind_ok.
  apply bind_ok in H as (u1 & _ & H). apply bind_ok in H as (u2 & _ & H). apply bind_ok in H as (u3 & _ & H).
  apply bind_ok in H as (uri & Hu & H). apply bind_ok in H as (u4 & Hid%fail_if_ok%negb_false_iff & [= <-]).
  split_and!; [done|done|by exists uri].
Qed.

(** The accepted subject-alternative-name encodings. *)
Definition exact_san `{X509} (e : Extension) : Prop :=
  exists names, unmarshalRawValues (ext_Value e) = Some (names, EmptyString) /\ names <> []
  /\ Forall (fun n => supportedGeneralName n = true) names.

Definition is_san (e : Extension) : Prop := ext_Id e = subjectAlternativeNameOID.
#[export] Instance is_san_dec e : Decision (is_san e).
Proof. unfold is_san. apply _. Defined.

Lemma check_sans_cons `{X509} found e l :
  check_sans found (e :: l) =
    (if decide (is_san e) then
       fail_if found "identity: certificate contains duplicate subjectAltName extensions"%string ≫= fun _ =>
       match unmarshalRawValues (ext_Value e) with
       | Some (names, EmptyString) =>
           fail_if (zlen names =? 0) "identity: certificate subjectAltName extension is empty"%string ≫= fun _ =>
           fail_if (negb (forallb supportedGeneralName names))
             "identity: certificate subjectAltName contains an unsupported GeneralName"%string ≫= fun _ =>
           check_sans true l
       | _ => Err "identity: certificate subjectAltName extension is malformed"%string
       end
     else check_sans found l).
Proof.
  cbn [check_sans]. unfold is_san. case_bool_decide as Hs; destruct (decide _); done.
Qed.

Lemma check_sans_iff `{X509} found l :
  check_sans found l = Ok true <->
  if found then filter is_san l = [] else exists e, filter is_san l = [e] /\ exact_san e.
Proof.
  revert found. induction l as [|e l IH]; intros found.
  { cbn. destruct found; [done|]. split; [done|]. by intros (e & ? & _). }
  rewrite check_sans_cons. destruct (decide (is_san e)) as [Hs|Hs].
  2:{ rewrite IH. rewrite filter_cons_False by done. done. }
  rewrite filter_cons_True by done. destruct found; cbn [fail_if mbind result_bind]; [done|].
  split.
  - destruct (unmarshalRawValues (ext_Value e)) as [[names [|a rest]]|] eqn:Eu; try done.
    intros (u1 & Hn%fail_if_ok & (u2 & Hg%fail_if_ok%negb_false_iff & Hr)%bind_ok)%bind_ok.
    apply IH in Hr. exists e. rewrite Hr. split; [done|]. exists names. split_and!; [done| |].
    + intros ->. by cbn in Hn.
    + apply Forall_forall. intros n Hin%list_elem_of_In.
      rewrite forallb_forall in Hg. by apply Hg.
  - intros (e' & [= <- Hnil] & names & -> & Hne & Hall).
    destruct names as [|n names]; [done|]. cbn [fail_if]. replace (zlen (n :: names) =? 0) with false
      by (symmetry; apply Z.eqb_neq; unfold zlen; cbn [length]; lia).
    cbn [fail_if mbind result_bind].
    replace (forallb supportedGeneralName (n :: names)) with true.
    + cbn [negb fail_if mbind result_bind]. by apply IH.
    + symmetry. apply forallb_forall. intros x Hx%list_elem_of_In. rewrite Forall_forall in Hall. by apply Hall.
Qed.

(** [RequireDNSAndURISANs] accepts exactly the certificates with one
    subject-alternative-name extension, non-empty and of DNS names and URIs only. *)
Lemma RequireDNSAndURISANs_iff `{X509} cert :
  RequireDNSAndURISANs (Some cert) = Ok tt <-> exists e, filter is_san (Extensions cert) = [e] /\ exact_san e.
Proof.
  unfold RequireDNSAndURISANs. cbn [or_err mbind result_bind]. rewrite <- (check_sans_iff false). split.
  - intros (found & Hf & Hn%fail_if_ok%negb_false_iff)%bind_ok. by rewrite Hf, Hn.
  - by intros ->.
Qed.

(** The peers a configuration for [class] accepts once their chain verifies. *)
Definition peers_of_class (class : string) (denied : list string) (peers : list Certificate) : Prop :=
  exists leaf rest id, peers = leaf :: rest /\ has_profile class id leaf /\ forall peer, peer ∈ rest -> Raw peer ∉ denied.

Lemma reject_denied_iff `{X509} class denied peers :
  reject_denied (Some (fun peers => requirePeerClass peers class)) denied peers = Ok tt
  <-> peers_of_class class denied peers.
Proof.
  unfold reject_denied, requirePeerClass, peers_of_class. destruct peers as [|leaf rest]; cbn [tl].
  { split; [done|]. by intros (? & ? & ? & ? & _). }
  rewrite bind_ok. setoid_rewrite fail_if_ok. split.
  - intros ([] & (id & Hp)%RequireCertificateClass_iff & Hx). exists leaf, rest, id. split_and!; [done|done|].
    intros peer Hin Hden. apply not_true_iff_false in Hx. apply Hx. apply existsb_exists.
    exists peer. split; [by apply list_elem_of_In|]. apply existsb_exists. exists (Raw peer).
    split; [by apply list_elem_of_In|apply String.eqb_refl].
  - intros (? & ? & id & [= <- <-] & Hp & Hden). exists tt. split; [apply RequireCertificateClass_iff; by exists id|].
    apply not_true_iff_false. intros (peer & Hin%list_elem_of_In & Hx)%existsb_exists.
    apply existsb_exists in Hx as (d & Hd'%list_elem_of_In & Heq%String.eqb_eq). subst d. by apply (Hden peer).
Qed.

Lemma requirePeerClass_iff `{X509} class peers :
  requirePeerClass peers class = Ok tt <-> peers_of_class class [] peers.
Proof.
  rewrite <- reject_denied_iff. unfold reject_denied. rewrite bind_ok. setoid_rewrite fail_if_ok.
  assert (existsb (fun peer => existsb (String.eqb (Raw peer)) []) (tl peers) = false) as Hno.
  { apply not_true_iff_false. by intros (x & _ & ?)%existsb_exists. }
  split; [by exists tt|by intros ([] & ? & _)].
Qed.

(** The configuration handed to [crypto/tls]: as built, or with the transition
    proofs denied as intermediates. *)
Definition with_denied `{X509} (config : TLSConfig) (denied : list string) (final : TLSConfig) : Prop :=
  (denied = [] /\ final = config) \/ RejectPeerIntermediates (Some config) denied = Ok final.

(** Denying intermediates changes [VerifyConnection] alone. *)
Lemma with_denied_ok `{X509} config denied final class :
  with_denied config denied final ->
  VerifyConnection config = Some (fun peers => requirePeerClass peers class) ->
  (forall peers, connection_verified final peers = true <-> peers_of_class class denied peers)
  /\ exists verify, final = mkTLSConfig (MinVersion config) (Certificates config) (ClientAuth config)
                             (ClientCAs config) (RootCAs config) (ServerName config) verify.
Proof.
  assert (forall r : result string unit, is_ok r = true <-> r = Ok tt) as Hok by (by intros [[]|]).
  intros [[-> ->]|Hr] Hver.
  - split; [|destruct config; by eexists]. intros peers. unfold connection_verified.
    by rewrite Hver, Hok, requirePeerClass_iff.
  - unfold RejectPeerIntermediates in Hr. cbn [or_err mbind result_bind] in Hr.
    apply bind_ok in Hr as (ders & Hd & [= <-]). split; [|by eexists].
    assert (ders = denied) as ->.
    { apply map_result_ok in Hd. induction Hd as [|x y xs ys Hxy _ IH]; [done|]. rewrite IH. f_equal.
      destruct (ParseCertificate x); [|done]. by apply bind_ok in Hxy as (u & _ & [= <-]). }
    intros peers. unfold connection_verified. cbn [VerifyConnection]. by rewrite Hver, Hok, reject_denied_iff.
Qed.

Lemma given_iff {A} (peers : list A) : negb (zlen peers =? 0) = true <-> peers <> [].
Proof. unfold zlen. destruct peers; simpl; [done|]. split; [done|]. intros _. by destruct (Z.eqb_spec (Z.of_nat (S (length peers))) 0); [lia|]. Qed.

Lemma version13_iff config version :
  MinVersion config = VersionTLS13 -> version_spoken config version = true <-> version = VersionTLS13.
Proof. intros Hm. unfold version_spoken. rewrite Hm, andb_true_iff, !Z.leb_le. unfold VersionTLS13. lia. Qed.

Lemma peers_given class denied peers : peers_of_class class denied peers -> peers <> [].
Proof. by intros (? & ? & ? & -> & _). Qed.

(** C22. With whom a mutual-TLS handshake completes.  A server configured by
    [ServerTLSConfig] presents the given certificate and completes exactly with
    a TLS 1.3 client whose chain verifies for client authentication against the
    given pool, and a client configured by [ClientTLSConfig] exactly with a TLS
    1.3 server whose chain verifies for server authentication against the given
    pool under the given name, in both cases only when the peer's leaf carries
    the one SPIFFE URI of the expected class and a canonical ULID as its common
    name and, after [RejectPeerIntermediates], none of its intermediates is a
    denied transition proof.  A certificate stamped by
    [StampCertificateIdentity] for a class and an instance reads back as exactly
    them and passes this check for that class and for no other. *)
Theorem tls_accepts_exactly_class `{X509} `{VerifyOptions} cert pool name class denied config final :
  with_denied config denied final ->
  (ServerTLSConfig cert pool class = Ok config ->
     Certificates final = [cert]
     /\ forall version peers, server_completes final version peers = true <->
          version = VersionTLS13 /\ Verify pool "" ExtKeyUsageClientAuth peers = true
          /\ peers_of_class class denied peers)
  /\ (ClientTLSConfig cert pool name class = Ok config ->
     Certificates final = [cert]
     /\ forall version peers, client_completes final version peers = true <->
          version = VersionTLS13 /\ Verify pool name ExtKeyUsageServerAuth peers = true
          /\ peers_of_class class denied peers)
  /\ (forall template other id stamped, StampCertificateIdentity template other id = Ok stamped ->
        ParseCertificateIdentity (Some stamped) = Ok (other, id)
        /\ (peers_of_class class denied [stamped] <-> other = class)).
Proof.
  intros Hd. split_and!.
  - intros Hc. unfold ServerTLSConfig in Hc. inv_result.
    eapply (with_denied_ok _ _ _ class) in Hd as [Hver [verify ->]]; [|done]. split; [done|]. intros version peers.
    unfold server_completes, client_certificates_accepted. cbn [ClientAuth ClientCAs Certificates].
    rewrite !andb_true_iff, Hver, !given_iff, version13_iff by done.
    pose proof (peers_given class denied peers). assert ([cert] <> []) by done. tauto.
  - intros Hc. unfold ClientTLSConfig in Hc. inv_result.
    eapply (with_denied_ok _ _ _ class) in Hd as [Hver [verify ->]]; [|done]. split; [done|]. intros version peers.
    unfold client_completes. cbn [ServerName RootCAs].
    rewrite !andb_true_iff, Hver, given_iff, version13_iff by done.
    pose proof (peers_given class denied peers).
    match goal with Hname : String.eqb name _ = false |- _ => rewrite Hname end. cbn [negb]. tauto.
  - intros template other id stamped Hs%stamped_profile. split; [by apply ParseCertificateIdentity_iff|]. split.
    + intros (leaf & rest & id' & [= <- <-] & Hp & _).
      apply ParseCertificateIdentity_iff in Hs, Hp. congruence.
    + intros ->. exists stamped, [], id. split_and!; [done|done|set_solver].
Qed.

(** ** Examples *)

(** Certificates are their own names here. *)
Definition example_certificate (der name uri : string) : Certificate :=
  mkCertificate der "" "" name [] (Some 1) "" "" false false 0 false 0 [] 0 0 KeyOther [Some uri] [] []
    [] [] [] [] [].

#[local] Instance example_x509 : X509 := {|
  ParseCertificate der := Some (example_certificate der "" "");
  CheckSignatureFrom _ _ := true;
  MarshalPKIXPublicKey _ := Some ""%string;
  unmarshalRawValues _ := None;
|}.

(** A chain verifies when its certificates are named by the pool. *)
#[local] Instance example_options : VerifyOptions := fun roots name usage peers =>
  match roots, peers with
  | Some roots, leaf :: _ => existsb (fun root => String.eqb (Raw root) (RawIssuer leaf)) roots
  | _, _ => false
  end.

Definition example_tls : TLSCertificate := mkTLSCertificate ["chain"]%string true.

Definition example_issued (issuer : string) : Certificate :=
  mkCertificate "leaf" "" issuer "01ARZ3NDEKTSV4RRFFQ69G5FAV" [] (Some 1) "" "" false false 0 false 0 [] 0 0 KeyOther
    [Some AgentSPIFFEURI] [] [] [] [] [] [] [].

Definition example_pool : option (list Certificate) := Some [example_certificate "root" "" ""].

Definition example_server : result string TLSConfig := ServerTLSConfig example_tls example_pool AgentClass.

(** The server completes with an agent of its pool; not with one of another
    root, without a certificate, below TLS 1.3 or through a denied proof. *)
Lemma tls_accepts_exactly_class_witness :
  exists config final,
    example_server = Ok config /\ RejectPeerIntermediates (Some config) ["transition"%string] = Ok final
    /\ server_completes final VersionTLS13 [example_issued "root"] = true
    /\ server_completes final VersionTLS13 [example_issued "rogue"] = false
    /\ server_completes final VersionTLS13 [] = false
    /\ server_completes final 771 [example_issued "root"] = false
    /\ server_completes final VersionTLS13 [example_issued "root"; example_certificate "transition" "" ""] = false
    /\ VersionTLS13 = VersionTLS13 /\ Verify example_pool "" ExtKeyUsageClientAuth [example_issued "root"] = true
    /\ peers_of_class AgentClass ["transition"%string] [example_issued "root"].
Proof.
  do 2 eexists. do 7 (split; [reflexivity|]).
  refine (proj1 (proj2 (proj1 (tls_accepts_exactly_class example_tls example_pool "" AgentClass ["transition"%string] _ _ _)
    _) VersionTLS13 [example_issued "root"]) _).
  - right. reflexivity.
  - reflexivity.
  - reflexivity.
Defined.
