(* ===== verification/Authorities.v ===== *)
(** * [server/internal/pki/authorities.go]: the signing authorities

    The certificate authorities a process holds, by class and by fingerprint,
    with the selected issuer of each class.  Signing itself is the standard
    library's; [time.Now] is an argument.  Each operation runs under the
    structure's mutex, so it is atomic. *)

From Stdlib Require Import Ascii String ZArith Lia.
From S2P Require Export Identity EventStore.

(** [crypto.Signer.Public]. *)
Definition signer_public (signer : SigningKey) : SigningKey :=
  match signer with
  | KeyECDSAPrivate (Some k) => KeyECDSAPublic (Some (ek_Public k))
  | KeyRSAPrivate (Some k) => KeyRSAPublic (Some (rk_Public k))
  | KeySigner _ public => public
  | other => other
  end.

(** server/internal/pki/authorities.go:21-25 [certificateAuthority] *)
Record certificateAuthority := mkCertificateAuthority {
  ca_certificate : Certificate;
  ca_signer : SigningKey;
  ca_publicKey : string;
}.

(** server/internal/pki/authorities.go:34-41 [Authorities]: made by
    [NewAuthorities] only, so its certificate and signers are never nil *)
Record Authorities := mkAuthorities {
  agentCA : certificateAuthority;
  gatewayCA : certificateAuthority;
  commandSigner : SigningKey;
  agentIssuers : gmap string certificateAuthority;
  gatewayIssuers : gmap string certificateAuthority;
}.

(** [x509.RevocationListEntry] and the template or parsed form of an
    [x509.RevocationList]; extensions are kept as their identifiers. *)
Record RevocationListEntry := mkRevocationListEntry { re_Serial : Z; re_Time : time; re_Reason : Z }.

Record RevocationList := mkRevocationList {
  rl_Entries : list RevocationListEntry;
  rl_Number : option Z;
  rl_ThisUpdate : time;
  rl_NextUpdate : time;
  rl_ExtraExtensions : list OID;
}.

#[export] Instance revocation_entry_eq_dec : EqDecision RevocationListEntry.
Proof. solve_decision. Defined.

(** What the program uses of [crypto/x509] for revocation lists: parsing gives
    the list and whether its [Raw] is the whole input. *)
Class X509CRL := {
  ParseRevocationList : string -> option (RevocationList * string);
  CreateRevocationList : RevocationList -> Certificate -> SigningKey -> result string string;
  ListCheckSignatureFrom : string -> Certificate -> bool;
}.

(** server/internal/pki/authorities.go:27-30 [reservedCRLExtensions] *)
Definition reservedCRLExtensions : list OID := [[2; 5; 29; 20]; [2; 5; 29; 35]].

Section WithX509.
Context {x509 : X509} {schemes : Schemes} {x509crl : X509CRL}.

(** [sha256.Sum256] of DER bytes. *)
Definition Sum256 (der : string) : string := sha256 (bytes der).

(** server/internal/pki/authorities.go:125-127 [authorityFingerprint] *)
Definition authorityFingerprint (der : string) : string := Sum256 der.

(** server/internal/pki/authorities.go:303-313 [parseExactCertificate] *)
Definition parseExactCertificate (der : string) : result string Certificate :=
  or_err (ParseCertificate der) "x509: malformed certificate"%string ≫= fun certificate =>
  fail_if (negb (String.eqb (Raw certificate) der)) "certificate DER contains trailing data"%string ≫= fun _ =>
  Ok certificate.

(** server/internal/pki/authorities.go:315-321 [marshalPublicKey] *)
Definition marshalPublicKey (key : SigningKey) : result string string :=
  or_err (MarshalPKIXPublicKey key) "x509: unsupported public key type"%string.

(** server/internal/pki/authorities.go:221-264 [newCertificateAuthority] *)
Definition newCertificateAuthority (now : time) (certificateDER : string) (signer : SigningKey)
    : result string certificateAuthority :=
  parseExactCertificate certificateDER ≫= fun certificate =>
  fail_if ((now <? NotBefore certificate) || (NotAfter certificate <? now)) "CA certificate is not currently valid"%string ≫= fun _ =>
  fail_if (negb (BasicConstraintsValid certificate) || negb (IsCA certificate)) "CA certificate is not a CA"%string ≫= fun _ =>
  fail_if (Z.land (KeyUsage certificate) KeyUsageCertSign =? 0) "CA certificate lacks certificate-signing key usage"%string ≫= fun _ =>
  fail_if (Z.land (KeyUsage certificate) KeyUsageCRLSign =? 0) "CA certificate lacks CRL-signing key usage"%string ≫= fun _ =>
  fail_if (len (SubjectKeyId certificate) =? 0) "CA certificate lacks subject key ID"%string ≫= fun _ =>
  ValidateSigningKey (PublicKey certificate) ≫= fun _ =>
  ValidateSigningKey signer ≫= fun _ =>
  marshalPublicKey (PublicKey certificate) ≫= fun certificatePublicKey =>
  marshalPublicKey (signer_public signer) ≫= fun signerPublicKey =>
  fail_if (negb (String.eqb certificatePublicKey signerPublicKey)) "CA signer does not match certificate"%string ≫= fun _ =>
  Ok (mkCertificateAuthority certificate signer certificatePublicKey).

(** server/internal/pki/authorities.go:44-85 [NewAuthorities] *)
Definition NewAuthorities (now : time) (agentDER : string) (agentSigner : SigningKey) (gatewayDER : string)
    (gatewaySigner command : SigningKey) : result string Authorities :=
  newCertificateAuthority now agentDER agentSigner ≫= fun agent =>
  newCertificateAuthority now gatewayDER gatewaySigner ≫= fun gateway =>
  ValidateSigningKey command ≫= fun _ =>
  marshalPublicKey (signer_public command) ≫= fun commandPublicKey =>
  fail_if (String.eqb (ca_publicKey agent) (ca_publicKey gateway)) "agent and gateway CA keys are reused"%string ≫= fun _ =>
  fail_if (String.eqb commandPublicKey (ca_publicKey agent)) "command key reuses agent CA key"%string ≫= fun _ =>
  fail_if (String.eqb commandPublicKey (ca_publicKey gateway)) "command key reuses gateway CA key"%string ≫= fun _ =>
  Ok (mkAuthorities agent gateway command
        {[authorityFingerprint (Raw (ca_certificate agent)) := agent]}
        {[authorityFingerprint (Raw (ca_certificate gateway)) := gateway]}).

(** server/internal/pki/authorities.go:129-143 [currentAuthority] *)
Definition currentAuthority (a : Authorities) (class : string) : option certificateAuthority :=
  if String.eqb class CertificateClassAgent then Some (agentCA a)
  else if String.eqb class CertificateClassGateway then Some (gatewayCA a)
  else None.

(** The issuers of a class. *)
Definition issuers (a : Authorities) (class : string) : gmap string certificateAuthority :=
  if String.eqb class CertificateClassAgent then agentIssuers a
  else if String.eqb class CertificateClassGateway then gatewayIssuers a
  else ∅.

(** server/internal/pki/authorities.go:145-160 [authorityForIssuer] *)
Definition authorityForIssuer (a : Authorities) (class fingerprint : string) : option certificateAuthority :=
  issuers a class !! fingerprint.

Definition with_issuers (a : Authorities) (class : string) (m : gmap string certificateAuthority) : Authorities :=
  if String.eqb class CertificateClassAgent
  then mkAuthorities (agentCA a) (gatewayCA a) (commandSigner a) m (gatewayIssuers a)
  else if String.eqb class CertificateClassGateway
  then mkAuthorities (agentCA a) (gatewayCA a) (commandSigner a) (agentIssuers a) m
  else a.

Definition with_current (a : Authorities) (class : string) (c : certificateAuthority) : Authorities :=
  if String.eqb class CertificateClassAgent
  then mkAuthorities c (gatewayCA a) (commandSigner a) (agentIssuers a) (gatewayIssuers a)
  else if String.eqb class CertificateClassGateway
  then mkAuthorities (agentCA a) c (commandSigner a) (agentIssuers a) (gatewayIssuers a)
  else a.

(** server/internal/store/crl.go:421-423 [validCertificateClass] *)
Definition validCertificateClass (class : string) : bool :=
  String.eqb class CertificateClassAgent || String.eqb class CertificateClassGateway.

(** server/internal/pki/authorities.go:162-181 [installAuthority] *)
Definition installAuthority (now : time) (a : Authorities) (class certificateDER : string) (signer : SigningKey)
    : Authorities * result string unit :=
  match newCertificateAuthority now certificateDER signer with
  | Err e => (a, Err e)
  | Ok authority =>
      if validCertificateClass class
      then (with_issuers a class (<[authorityFingerprint certificateDER := authority]> (issuers a class)), Ok tt)
      else (a, Err "invalid certificate class"%string)
  end.

(** server/internal/pki/authorities.go:183-206 [selectAuthority] *)
Definition selectAuthority (a : Authorities) (class fingerprint : string) : Authorities * result string unit :=
  if validCertificateClass class then
    match issuers a class !! fingerprint with
    | None => (a, Err "issuer is not installed"%string)
    | Some authority => (with_current a class authority, Ok tt)
    end
  else (a, Err "invalid certificate class"%string).

(** server/internal/pki/authorities.go:208-219 [removeAuthority] *)
Definition removeAuthority (a : Authorities) (class fingerprint : string) : Authorities :=
  with_issuers a class (delete fingerprint (issuers a class)).

(** server/internal/pki/authorities.go:266-282 [signRevocationList] *)
Definition signRevocationList (a : certificateAuthority) (template : option RevocationList) : result string string :=
  or_err template "CRL template is nil"%string ≫= fun template =>
  fail_if (existsb (fun id => bool_decide (id ∈ reservedCRLExtensions)) (rl_ExtraExtensions template))
    "CRL template contains reserved CRL extension"%string ≫= fun _ =>
  CreateRevocationList template (ca_certificate a) (ca_signer a).

(** server/internal/pki/authorities.go:96-102 [SignAgentRevocationList] *)
Definition SignClassRevocationList (a : Authorities) (class : string) (template : RevocationList) : result string string :=
  or_err (currentAuthority a class) "CRL signer is not wired"%string ≫= fun authority =>
  signRevocationList authority (Some template).

(** server/internal/pki/authorities.go:113-123 [signRevocationListForIssuer] *)
Definition signRevocationListForIssuer (a : Authorities) (class issuer : string) (template : RevocationList)
    : result string string :=
  or_err (authorityForIssuer a class issuer) "CRL issuer is not wired"%string ≫= fun authority =>
  signRevocationList authority (Some template).

(** server/internal/pki/authorities.go:88-93 [SignCommand] *)
Definition AuthoritiesSignCommand (a : option Authorities) (command : SignedCommand) : result string SignedCommand :=
  or_err a "command signer is not wired"%string ≫= fun a => SignCommand (commandSigner a) command.

(** server/internal/pki/authorities.go:291-301 [DERResultVerifier.VerifyResult] *)
Definition DERVerifyResult (certificateDER : string) (envelope : DeviceSigned) (deviceID : string) : result string string :=
  parseExactCertificate certificateDER ≫= fun certificate =>
  VerifyResult (PublicKey certificate) envelope deviceID.
End WithX509.
