(* ===== verification/Crl.v ===== *)
(** * [server/internal/store/crl.go], [server/internal/pki/crl.go]: revocation lists

    The tables of revocations, of signed lists and of work receipts with the
    statements over them, and the issuer that turns revocations into numbered
    signed lists.  An issuer is a program of atomic statements that interleave
    with other issuers and with the projection of new revocations.  Rotation
    snapshots are a parameter here; [Rotation] provides them. *)

From Stdlib Require Import Ascii String ZArith Lia.
From S2P Require Export Interleave Authorities.

(** A parsed list has the entries it was made with, and nothing is not a
    certificate. *)
Class CRLLaws {x509 : X509} {x509crl : X509CRL} : Prop := {
  created_entries template authority signer der list raw :
    CreateRevocationList template authority signer = Ok der ->
    ParseRevocationList der = Some (list, raw) -> rl_Entries list = rl_Entries template;
  empty_certificate : ParseCertificate EmptyString = None;
}.

(** ** Rows *)

(** server/internal/store/crl.go:54-58 [CRLSource] *)
Record CRLSource := mkCRLSource { src_StreamType : string; src_StreamID : string; src_StreamVersion : Z }.

#[export] Instance crl_source_eq_dec : EqDecision CRLSource.
Proof. solve_decision. Defined.

#[export] Instance crl_source_countable : Countable CRLSource.
Proof.
  refine (inj_countable' (fun s => (src_StreamType s, src_StreamID s, src_StreamVersion s))
            (fun t => mkCRLSource t.1.1 t.1.2 t.2) _); by intros [].
Defined.

Definition zero_source : CRLSource := mkCRLSource "" "" 0.

(** server/internal/store/crl.go:29-40 [CertificateRevocation]; also the row of
    [certificate_revocations] *)
Record CertificateRevocation := mkCertificateRevocation {
  cv_Class : string;
  cv_CertificateDER : string;
  cv_Fingerprint : string;
  cv_IssuerIdentifier : string;
  cv_SerialNumber : list Z;
  cv_RevokedAt : time;
  cv_ReasonCode : Z;
  cv_Source : CRLSource;
}.

(** server/internal/store/crl.go:43-50 [SignedCRL] *)
Record SignedCRL := mkSignedCRL {
  sl_Class : string;
  sl_IssuerFingerprint : string;
  sl_Sequence : Z;
  sl_DER : string;
  sl_IssuedAt : time;
  sl_Source : CRLSource;
}.

(** A row of [crl_state]; the source columns are null together. *)
Record CRLRow := mkCRLRow {
  cr_Sequence : Z;
  cr_DER : string;
  cr_IssuedAt : option time;
  cr_Source : option CRLSource;
}.

(** The tables; [published] are the lists handed to the publisher so far. *)
Record CRLTables := mkCRLTables {
  t_crl : gmap (string * string) CRLRow;
  t_receipts : gmap (string * string * CRLSource) Z;
  t_revocations : list CertificateRevocation;
  t_published : list SignedCRL;
}.

(** What decides one action: a failing statement, the clock, the end of the
    context, and the publisher's answer. *)
Record CRLEnv := mkCRLEnv {
  ce_fault : option goerr;
  ce_now : time;
  ce_ctx : option goerr;
  ce_publish : option goerr;
}.

(** ** Numbers *)

(** [big.Int.SetBytes] and [Bytes] of a non-negative number. *)
Definition SetBytes (l : list Z) : Z := fold_left (fun n b => n * 256 + b) l 0.
Definition BigBytes (n : Z) : list Z := if n =? 0 then [] else big_endian (S (Z.to_nat (Z.log2 n / 8))) n.

(** [Time.Truncate(time.Second)]. *)
Definition truncate_second (t : time) : time := t - t mod second.

(** The zero of a [[sha256.Size]byte]. *)
Definition zero_fingerprint : string := string_of_list_ascii (repeat (ascii_of_nat 0) 32).

(** ** Validation *)

(** server/internal/store/crl.go:413-415 [CRLSource.isZero] *)
Definition source_is_zero (s : CRLSource) : bool :=
  String.eqb (src_StreamType s) "" && String.eqb (src_StreamID s) "" && (src_StreamVersion s =? 0).

(** server/internal/store/crl.go:417-419 [validCRLSource] *)
Definition validCRLSource (s : CRLSource) : bool :=
  negb (String.eqb (src_StreamType s) "") && negb (String.eqb (src_StreamID s) "") && (0 <? src_StreamVersion s).

(** server/internal/store/crl.go:425-432 [validReasonCode] *)
Definition validReasonCode (code : Z) : bool := bool_decide (code ∈ [0; 1; 2; 3; 4; 5; 6; 8; 9; 10]).

(** An argument of a variadic [...any] call. *)
Inductive any_arg :=
| AFingerprint (f : string)
| AInt (n : Z)
| AInt64 (n : Z)
| AUint64 (n : Z)
| ABytes (der : string)
| ATime (t : time)
| ASource (s : CRLSource)
| AOther.

(** server/internal/store/crl.go:397-411 [integerSequence] *)
Definition integerSequence (value : any_arg) : option Z :=
  match value with
  | AInt n | AInt64 n => Some n
  | AUint64 n => if n <=? max_int64 then Some n else None
  | _ => None
  end.

(** server/internal/store/crl.go:363-375 [parseCRLReceiptArgs] *)
Definition parseCRLReceiptArgs (args : list any_arg) : option (string * CRLSource) :=
  match args with
  | [ASource s] => Some (zero_fingerprint, s)
  | [AFingerprint f; ASource s] => Some (f, s)
  | _ => None
  end.

(** server/internal/store/crl.go:377-395 [parseCRLCompareAndSwapArgs] *)
Definition parseCRLCompareAndSwapArgs (args : list any_arg) : option (string * Z * string * time * CRLSource) :=
  let '(issuer, args) :=
    match args with
    | [a; b; c; d; e] => (match a with AFingerprint f => Some f | _ => None end, [b; c; d; e])
    | _ => (Some zero_fingerprint, args)
    end in
  issuer ≫= fun issuer =>
  match args with
  | [expected; ABytes der; ATime issuedAt; ASource source] =>
      integerSequence expected ≫= fun n => Some (issuer, n, der, issuedAt, source)
  | _ => None
  end.

Section WithX509.
Context {x509 : X509} {schemes : Schemes} {x509crl : X509CRL}.

(** server/internal/store/crl.go:349-361 [validateCRLMaterial] *)
Definition validateCRLMaterial (der : string) (sequence : Z) (issuedAt : time) : result goerr unit :=
  match ParseRevocationList der with
  | Some (list, raw) =>
      fail_if (negb (String.eqb raw der)) (EMsg "revocation-list DER is invalid") ≫= fun _ =>
      fail_if (negb (bool_decide (rl_Number list = Some sequence)) || negb ((min_int64 <=? sequence) && (sequence <=? max_int64)))
        (EMsg "revocation-list number does not match sequence") ≫= fun _ =>
      fail_if (negb (rl_ThisUpdate list =? issuedAt) || negb (rl_ThisUpdate list <? rl_NextUpdate list))
        (EMsg "revocation-list validity does not match issued-at")
  | None => Err (EMsg "revocation-list DER is invalid")
  end.

(** server/internal/store/crl.go:86-120 [certificateRevocation] *)
Definition certificateRevocation (row : CertificateRevocation) : result goerr CertificateRevocation :=
  fail_if (negb (validCertificateClass (cv_Class row)) || negb (len (cv_Fingerprint row) =? 32)
           || time_is_zero (cv_RevokedAt row) || (src_StreamVersion (cv_Source row) <=? 0)
           || String.eqb (src_StreamType (cv_Source row)) "" || String.eqb (src_StreamID (cv_Source row)) ""
           || negb (validReasonCode (cv_ReasonCode row)))
    (EMsg "store: invalid certificate revocation projection") ≫= fun _ =>
  or_err (ParseCertificate (cv_CertificateDER row))
    (EMsg "store: certificate revocation contains invalid certificate material") ≫= fun certificate =>
  fail_if (negb (String.eqb (Raw certificate) (cv_CertificateDER row))
           || match SerialNumber certificate with
              | None => true
              | Some n => (n <=? 0) || negb (bool_decide (BigBytes n = cv_SerialNumber row))
              end
           || (len (AuthorityKeyId certificate) =? 0)
           || negb (String.eqb (AuthorityKeyId certificate) (cv_IssuerIdentifier row)))
    (EMsg "store: certificate revocation contains invalid certificate material") ≫= fun _ =>
  wrap_err (fun _ => EMsg "store: certificate revocation class does not match certificate identity")
    (ParseCertificateIdentity (Some certificate)) ≫= fun '(identityClass, _) =>
  fail_if (String.eqb (cv_Class row) CertificateClassAgent && negb (String.eqb identityClass AgentClass)
           || String.eqb (cv_Class row) CertificateClassGateway && negb (String.eqb identityClass GatewayClass))
    (EMsg "store: certificate revocation class does not match certificate identity") ≫= fun _ =>
  fail_if (negb (String.eqb (Sum256 (cv_CertificateDER row)) (cv_Fingerprint row)))
    (EMsg "store: certificate revocation fingerprint is mismatched") ≫= fun _ =>
  Ok row.

(** The order of [ListCertificateRevocations]. *)
Definition revocation_le (a b : CertificateRevocation) : Prop :=
  cv_RevokedAt a < cv_RevokedAt b \/ cv_RevokedAt a = cv_RevokedAt b /\ String.leb (cv_Fingerprint a) (cv_Fingerprint b) = true.

#[local] Instance revocation_le_dec : RelDecision revocation_le.
Proof. intros a b. unfold revocation_le. apply _. Defined.

(** server/internal/store/queries/crl.sql:24-31 [ListCertificateRevocations] *)
Definition ListCertificateRevocations (class : string) (t : CRLTables) : list CertificateRevocation :=
  merge_sort revocation_le (filter (fun r => cv_Class r = class) (t_revocations t)).

(** A statement that may fail. *)
Definition statement (env : CRLEnv) (msg : string) : result goerr unit :=
  match ce_fault env with Some e => Err (EWrap msg e) | None => Ok tt end.

(** server/internal/store/crl.go:61-84 [CertificateRevocations] *)
Definition CertificateRevocations (class : string) (env : CRLEnv) (t : CRLTables)
    : result goerr (list CertificateRevocation) :=
  fail_if (negb (validCertificateClass class)) (EMsg "store: invalid certificate class") ≫= fun _ =>
  statement env "store: list certificate revocations" ≫= fun _ =>
  map_result certificateRevocation (ListCertificateRevocations class t).

(** server/internal/store/crl.go:124-179 [LatestCRL] *)
Definition LatestCRL (class : string) (issuer : list string) (env : CRLEnv) (t : CRLTables) : result goerr SignedCRL :=
  fail_if (negb (validCertificateClass class)) (EMsg "store: invalid certificate class") ≫= fun _ =>
  fail_if (1 <? zlen issuer) (EMsg "store: invalid CRL issuer fingerprint") ≫= fun _ =>
  let issuerFingerprint := default zero_fingerprint (head issuer) in
  statement env "store: read CRL state" ≫= fun _ =>
  match t_crl t !! (class, issuerFingerprint) with
  | None => Ok (mkSignedCRL class issuerFingerprint 0 "" zero_time zero_source)
  | Some row =>
      if cr_Sequence row =? 0 then
        fail_if (negb (len (cr_DER row) =? 0) || negb (bool_decide (cr_IssuedAt row = None)))
          (EMsg "store: empty CRL state contains publication material") ≫= fun _ =>
        Ok (mkSignedCRL class issuerFingerprint 0 "" zero_time zero_source)
      else
        fail_if ((cr_Sequence row <? 0) || (len (cr_DER row) =? 0)) (EMsg "store: invalid CRL state projection") ≫= fun _ =>
        or_err (cr_IssuedAt row) (EMsg "store: invalid CRL state projection") ≫= fun issuedAt =>
        fail_if (time_is_zero issuedAt) (EMsg "store: invalid CRL state projection") ≫= fun _ =>
        wrap_err (EWrap "store: invalid CRL state projection")
          (validateCRLMaterial (cr_DER row) (cr_Sequence row) issuedAt) ≫= fun _ =>
        match cr_Source row with
        | None => Ok (mkSignedCRL class issuerFingerprint (cr_Sequence row) (cr_DER row) issuedAt zero_source)
        | Some source =>
            fail_if (negb (validCRLSource source)) (EMsg "store: invalid CRL source event") ≫= fun _ =>
            Ok (mkSignedCRL class issuerFingerprint (cr_Sequence row) (cr_DER row) issuedAt source)
        end
  end.

(** server/internal/store/queries/crl.sql:48-52 [ListCurrentCRLIssuers] *)
Definition ListCurrentCRLIssuers (class : string) (t : CRLTables) : list string :=
  sort_strings ((fun p => p.1.2) <$> filter (fun p => p.1.1 = class /\ 0 < cr_Sequence p.2) (map_to_list (t_crl t))).

(** server/internal/store/crl.go:182-210 [CurrentCRLs]: the reads of one call
    see the same table here *)
Definition CurrentCRLs (class : string) (env : CRLEnv) (t : CRLTables) : result goerr (list SignedCRL) :=
  fail_if (negb (validCertificateClass class)) (EMsg "store: invalid certificate class") ≫= fun _ =>
  statement env "store: list current CRL issuers" ≫= fun _ =>
  map_result (fun raw =>
    fail_if (negb (len raw =? 32)) (EMsg "store: current CRL issuer fingerprint is invalid") ≫= fun _ =>
    LatestCRL class [raw] env t) (ListCurrentCRLIssuers class t).

(** server/internal/store/crl.go:214-246 [CRLWorkReceipt]: a missing receipt is
    [None] *)
Definition CRLWorkReceipt (class : string) (args : list any_arg) (env : CRLEnv) (t : CRLTables) : result goerr (option Z) :=
  match parseCRLReceiptArgs args with
  | Some (issuer, source) =>
      fail_if (negb (validCertificateClass class) || negb (validCRLSource source))
        (EMsg "store: invalid CRL-work-receipt input") ≫= fun _ =>
      statement env "store: read CRL work receipt" ≫= fun _ =>
      match t_receipts t !! (class, issuer, source) with
      | None => Ok None
      | Some sequence =>
          fail_if (sequence <=? 0) (EMsg "store: invalid CRL work receipt") ≫= fun _ => Ok (Some sequence)
      end
  | None => Err (EMsg "store: invalid CRL-work-receipt input")
  end.

(** ** Statements that write *)

Definition with_crl (t : CRLTables) (m : gmap (string * string) CRLRow) : CRLTables :=
  mkCRLTables m (t_receipts t) (t_revocations t) (t_published t).

Definition with_receipts (t : CRLTables) (m : gmap (string * string * CRLSource) Z) : CRLTables :=
  mkCRLTables (t_crl t) m (t_revocations t) (t_published t).

(** server/internal/store/queries/crl.sql:54-76 [CompareAndSwapCRLState]; the
    table's check constraint refuses a published row with no positive sequence *)
Definition CompareAndSwapCRLState (class issuer : string) (next : Z) (der : string) (issuedAt : time)
    (source : option CRLSource) (expected : Z) (t : CRLTables) : result goerr (CRLTables * Z) :=
  let row := mkCRLRow next der (Some issuedAt) source in
  let store := fail_if (next <=? 0) (EPg "23514" "crl_state_publication_material_check") ≫= fun _ =>
               Ok (with_crl t (<[(class, issuer) := row]> (t_crl t)), 1) in
  match t_crl t !! (class, issuer) with
  | None => if expected =? 0 then store else Ok (t, 0)
  | Some current => if cr_Sequence current =? expected then store else Ok (t, 0)
  end.

(** server/internal/store/queries/crl.sql:78-118 [CompareAndSwapCRLStateForWork]:
    the receipt's primary key refuses a second receipt, and with it the whole
    statement *)
Definition CompareAndSwapCRLStateForWork (class issuer : string) (next : Z) (der : string) (issuedAt : time)
    (source : CRLSource) (expected : Z) (t : CRLTables) : result goerr (CRLTables * Z) :=
  CompareAndSwapCRLState class issuer next der issuedAt (Some source) expected t ≫= fun '(t', affected) =>
  if affected =? 0 then Ok (t, 0)
  else
    match t_receipts t !! (class, issuer, source) with
    | Some _ => Err (EPg "23505" "crl_work_receipts_pkey")
    | None => Ok (with_receipts t' (<[(class, issuer, source) := next]> (t_receipts t')), affected)
    end.

(** server/internal/store/crl.go:282-336 [CompareAndSwapCRL] *)
Definition CompareAndSwapCRL (class : string) (args : list any_arg) (env : CRLEnv) (t : CRLTables)
    : CRLTables * result goerr bool :=
  match parseCRLCompareAndSwapArgs args with
  | None => (t, Err (EMsg "store: invalid CRL compare-and-swap input"))
  | Some (issuer, expected, der, issuedAt, source) =>
      let issuerScoped := zlen args =? 5 in
      if negb (validCertificateClass class) || (expected <? 0) || (len der =? 0) || time_is_zero issuedAt
         || (source_is_zero source && negb (expected =? 0) && negb issuerScoped)
         || (negb (source_is_zero source) && negb (validCRLSource source))
      then (t, Err (EMsg "store: invalid CRL compare-and-swap input"))
      else
        let next := wrap_s 64 (expected + 1) in
        match validateCRLMaterial der next issuedAt ≫= fun _ => statement env "store: compare and swap CRL state" with
        | Err e => (t, Err e)
        | Ok _ =>
            match (if source_is_zero source
                   then CompareAndSwapCRLState class issuer next der issuedAt None expected t
                   else CompareAndSwapCRLStateForWork class issuer next der issuedAt source expected t) with
            | Err e => (t, Err (EWrap "store: compare and swap CRL state" e))
            | Ok (t', affected) => (t', Ok (affected =? 1))
            end
        end
  end.

(** server/internal/store/crl.go:339-347 [InitializeCRL] *)
Definition InitializeCRL (class issuer der : string) (issuedAt : time) (env : CRLEnv) (t : CRLTables)
    : CRLTables * result goerr bool :=
  CompareAndSwapCRL class [AFingerprint issuer; AInt64 0; ABytes der; ATime issuedAt; ASource zero_source] env t.

(** server/internal/store/queries/crl.sql:129-154 [RecordCoveredCRLWorkReceipt] *)
Definition RecordCovered (class issuer : string) (source : CRLSource) (publication : Z) (env : CRLEnv) (t : CRLTables)
    : CRLTables * result goerr unit :=
  match statement env "store: record covered CRL work receipt" with
  | Err e => (t, Err e)
  | Ok _ =>
      match t_crl t !! (class, issuer), t_receipts t !! (class, issuer, source) with
      | Some row, None =>
          if publication <=? cr_Sequence row
          then (with_receipts t (<[(class, issuer, source) := publication]> (t_receipts t)), Ok tt)
          else (t, Ok tt)
      | _, _ => (t, Ok tt)
      end
  end.

(** server/internal/store/crl.go:250-279 [RecordCoveredCRLWorkReceipt] *)
Definition RecordCoveredCRLWorkReceipt (class issuer : string) (source : CRLSource) (publication : Z)
    : prog CRLEnv CRLTables (result goerr unit) :=
  if negb (validCertificateClass class) || negb (validCRLSource source) || (publication <=? 0)
  then Ret (Err (EMsg "store: invalid covered CRL-work-receipt input"))
  else
    try_prog (act (RecordCovered class issuer source publication)) (fun _ =>
    try_prog (look (CRLWorkReceipt class [AFingerprint issuer; ASource source])) (fun found =>
    Ret (match found with
         | Some _ => Ok tt
         | None => Err (EMsg "store: covered CRL work receipt was not recorded")
         end))).

(** ** The issuer *)

(** server/internal/pki/rotation.go:26-34 [RotationPhase] *)
Definition RotationPhaseStable : string := "stable".
Definition RotationPhaseTrust : string := "trust".
Definition RotationPhaseMigrate : string := "migrate".
Definition RotationPhaseRetire : string := "retire".

(** server/internal/pki/rotation.go:49-62 [AuthoritySnapshot] *)
Record AuthoritySnapshot := mkAuthoritySnapshot {
  as_Class : string;
  as_Phase : string;
  as_Generation : Z;
  as_Revision : Z;
  as_DesiredRootDER : list string;
  as_IssuingRootDER : string;
  as_SuccessorRootDER : string;
  as_PredecessorRootDER : string;
  as_TransitionCertificateDER : string;
  as_RequiredCRLIssuerFingerprint : string;
  as_RequiredCRLSequence : Z;
  as_PublishedCRLSequence : Z;
}.

(** server/internal/pki/rotation.go:815-820 [activeCRLRoots] *)
Definition activeCRLRoots (snapshot : AuthoritySnapshot) : list string :=
  if String.eqb (as_Phase snapshot) RotationPhaseRetire || String.eqb (as_Phase snapshot) RotationPhaseStable
  then [as_IssuingRootDER snapshot]
  else as_DesiredRootDER snapshot.

(** [RotationManager.Snapshot], when the issuer has a rotation manager. *)
Definition SnapshotView : Type := option (string -> CRLEnv -> CRLTables -> result goerr AuthoritySnapshot).

(** server/internal/pki/crl.go:18-23 [DefaultCRLMaxAge] *)
Definition DefaultCRLMaxAge : Z := 7 * 24 * hour.
Definition crlStateCASAttempts : nat := 16.

(** server/internal/pki/crl.go:336-353 [revocationListEntries] *)
Definition revocationListEntries (revocations : list CertificateRevocation) : result goerr (list RevocationListEntry) :=
  map_result (fun r =>
    fail_if ((zlen (cv_SerialNumber r) =? 0) || time_is_zero (cv_RevokedAt r))
      (EMsg "pki: invalid projected certificate revocation") ≫= fun _ =>
    fail_if (SetBytes (cv_SerialNumber r) <=? 0) (EMsg "pki: revoked certificate serial is not positive") ≫= fun _ =>
    Ok (mkRevocationListEntry (SetBytes (cv_SerialNumber r)) (truncate_second (cv_RevokedAt r)) (cv_ReasonCode r)))
    revocations.

(** The revocations an authority issued. *)
Definition issued_by (authority : Certificate) (r : CertificateRevocation) : result goerr (option CertificateRevocation) :=
  wrap_err (fun _ => EMsg "pki: parse revoked certificate") (parseExactCertificate (cv_CertificateDER r)) ≫= fun certificate =>
  Ok (if String.eqb (cv_IssuerIdentifier r) (SubjectKeyId authority) && CheckSignatureFrom certificate authority
      then Some r else None).

(** server/internal/pki/crl.go:355-379 [revocationListEntriesForIssuer] *)
Definition revocationListEntriesForIssuer (revocations : list CertificateRevocation) (authority : Certificate)
    : result goerr (list RevocationListEntry * list CRLSource) :=
  map_result (issued_by authority) revocations ≫= fun kept =>
  let filtered := omap id kept in
  revocationListEntries filtered ≫= fun entries => Ok (entries, cv_Source <$> filtered).

(** server/internal/pki/crl.go:406-416 [parseExactRevocationList] *)
Definition parseExactRevocationList (der : string) : result goerr RevocationList :=
  match ParseRevocationList der with
  | Some (list, raw) =>
      fail_if (negb (String.eqb raw der)) (EMsg "revocation-list DER contains trailing data") ≫= fun _ => Ok list
  | None => Err (EMsg "x509: malformed crl")
  end.

(** server/internal/pki/crl.go:381-404 [validateIssuedCRL] *)
Definition validateIssuedCRL (der : string) (authority : Certificate) (sequence : Z) (issuedAt : time) (entryCount : Z)
    : result goerr unit :=
  wrap_err (EWrap "pki: parse issued CRL") (parseExactRevocationList der) ≫= fun list =>
  fail_if (negb (ListCheckSignatureFrom der authority)) (EMsg "pki: issued CRL signature is invalid") ≫= fun _ =>
  fail_if (negb (bool_decide (rl_Number list = Some sequence)) || negb (rl_ThisUpdate list =? issuedAt)
           || negb (zlen (rl_Entries list) =? entryCount)) (EMsg "pki: issued CRL content is mismatched").

(** server/internal/pki/crl.go:32-38 [CRLIssuer]: its authorities and its
    rotation manager's view *)
Record CRLIssuer := mkCRLIssuer { ci_authorities : Authorities; ci_rotation : SnapshotView }.

Definition zero_crl : SignedCRL := mkSignedCRL "" "" 0 "" zero_time zero_source.

Definition CRLProg (A : Type) : Type := prog CRLEnv CRLTables (result goerr A).

(** The root among the candidates that signed a certificate. *)
Definition signing_root (certificate : Certificate) (candidates : list string) : option string :=
  find (fun candidate => match parseExactCertificate candidate with
                         | Ok root => CheckSignatureFrom certificate root
                         | Err _ => false
                         end) candidates.

(** server/internal/pki/crl.go:287-304 [crlAuthority]: the root that issued the
    certificate of a source event, among the active ones *)
Definition source_root (snapshot : AuthoritySnapshot) (source : CRLSource) (revocations : list CertificateRevocation)
    : result goerr (option string) :=
  match find (fun r => bool_decide (cv_Source r = source)) revocations with
  | None => Ok None
  | Some r =>
      wrap_err EMsg (parseExactCertificate (cv_CertificateDER r)) ≫= fun certificate =>
      Ok (signing_root certificate (activeCRLRoots snapshot))
  end.

(** server/internal/pki/crl.go:309-314 [crlAuthority]: the installed authority
    of a root; an empty root is inactive *)
Definition installed_authority (i : CRLIssuer) (class : string) (root : option string)
    : result goerr (option (string * Certificate)) :=
  match root with
  | None | Some EmptyString => Ok None
  | Some der =>
      or_err (authorityForIssuer (ci_authorities i) class (Sum256 der))
        (EMsg "pki: active CRL authority is not wired") ≫= fun authority =>
      Ok (Some (Sum256 der, ca_certificate authority))
  end.

(** server/internal/pki/crl.go:264-315 [crlAuthority]: [None] when no active
    authority issued the source's certificate *)
Definition crlAuthority (i : CRLIssuer) (class : string) (source : CRLSource)
    : CRLProg (option (string * Certificate)) :=
  match ci_rotation i with
  | None =>
      Ret (or_err (currentAuthority (ci_authorities i) class) (EMsg "pki: current CRL authority is not wired") ≫= fun authority =>
           Ok (Some (zero_fingerprint, ca_certificate authority)))
  | Some Snapshot =>
      try_prog (look (Snapshot class)) (fun snapshot =>
      if 0 <? src_StreamVersion source then
        try_prog (look (CertificateRevocations class)) (fun revocations =>
        Ret (source_root snapshot source revocations ≫= installed_authority i class))
      else
        Ret (or_err (authorityForIssuer (ci_authorities i) class (Sum256 (as_IssuingRootDER snapshot)))
               (EMsg "pki: active CRL authority is not wired") ≫= fun authority =>
             Ok (Some (Sum256 (as_IssuingRootDER snapshot), ca_certificate authority))))
  end.

(** The publisher's call. *)
Definition Publish (msg : string) (crl : SignedCRL) : CRLProg unit :=
  act (fun env t =>
    match ce_publish env with
    | Some e => (t, Err (EWrap msg e))
    | None => (mkCRLTables (t_crl t) (t_receipts t) (t_revocations t) (t_published t ++ [crl]), Ok tt)
    end).

(** server/internal/pki/crl.go:193-212 [sign]: the choice of signer *)
Definition sign_list (i : CRLIssuer) (class fingerprint : string) (template : RevocationList) : result goerr string :=
  wrap_err EMsg
    (if validCertificateClass class then
       match ci_rotation i with
       | None => SignClassRevocationList (ci_authorities i) class template
       | Some _ => signRevocationListForIssuer (ci_authorities i) class fingerprint template
       end
     else Err "pki: invalid CRL certificate class"%string).

(** server/internal/pki/crl.go:226-232 [sign]: receipts for every covered source *)
Fixpoint record_all (class fingerprint : string) (sources : list CRLSource) (sequence : Z) : CRLProg unit :=
  match sources with
  | [] => Ret (Ok tt)
  | source :: rest =>
      try_prog (RecordCoveredCRLWorkReceipt class fingerprint source sequence) (fun _ =>
      record_all class fingerprint rest sequence)
  end.

(** server/internal/pki/crl.go:147-170 [sign]: a source whose receipt exists *)
Definition already_covered (class : string) (source : CRLSource) (current : SignedCRL) (receipt : Z) : CRLProg SignedCRL :=
  if sl_Sequence current <? receipt then Ret (Err (EMsg "pki: CRL state precedes its durable work receipt"))
  else if receipt <? sl_Sequence current then Ret (Ok current)
  else if negb (bool_decide (sl_Source current = source)) then Ret (Ok current)
  else try_prog (Publish "pki: republish CRL" current) (fun _ => Ret (Ok current)).

(** server/internal/pki/crl.go:171-241 [sign]: the next list and its commit *)
Definition issue_next (i : CRLIssuer) (class fingerprint : string) (authority : Certificate) (source : CRLSource)
    (current : SignedCRL) (retry : CRLProg SignedCRL) : CRLProg SignedCRL :=
  try_prog (look (CertificateRevocations class)) (fun revocations =>
  bind_prog (look (fun env _ => truncate_second (ce_now env))) (fun now =>
  if time_is_zero now then Ret (Err (EMsg "pki: CRL clock returned zero time"))
  else
    let issuedAt := if now <? sl_IssuedAt current then sl_IssuedAt current else now in
    let sequence := wrap_s 64 (sl_Sequence current + 1) in
    try_prog (Ret (revocationListEntriesForIssuer revocations authority)) (fun '(entries, coveredSources) =>
    let template := mkRevocationList entries (Some sequence) issuedAt (issuedAt + DefaultCRLMaxAge) [] in
    try_prog (Ret (sign_list i class fingerprint template)) (fun der =>
    try_prog (Ret (validateIssuedCRL der authority sequence issuedAt (zlen entries))) (fun _ =>
    try_prog (act (CompareAndSwapCRL class
                     [AFingerprint fingerprint; AInt64 (sl_Sequence current); ABytes der; ATime issuedAt; ASource source]))
      (fun stored =>
    if negb stored then
      try_prog (look (fun env _ => match ce_ctx env with Some e => Err e | None => Ok tt end)) (fun _ => retry)
    else
      try_prog (record_all class fingerprint coveredSources sequence) (fun _ =>
      let result := mkSignedCRL class fingerprint sequence der issuedAt source in
      try_prog (Publish "pki: publish CRL" result) (fun _ => Ret (Ok result))))))))).

(** server/internal/pki/crl.go:135-242 [sign]: the attempts under the fence *)
Fixpoint sign_attempts (attempts : nat) (i : CRLIssuer) (class fingerprint : string) (authority : Certificate)
    (source : CRLSource) : CRLProg SignedCRL :=
  match attempts with
  | O => Ret (Err (EMsg "pki: CRL state remained contended"))
  | S attempts =>
      try_prog (look (fun env _ => match ce_ctx env with Some e => Err e | None => Ok tt end)) (fun _ =>
      try_prog (look (LatestCRL class [fingerprint])) (fun current =>
      if bool_decide (source = zero_source) && (0 <? sl_Sequence current) then Ret (Ok current)
      else
        try_prog (if 0 <? src_StreamVersion source
                  then look (CRLWorkReceipt class [AFingerprint fingerprint; ASource source])
                  else Ret (Ok None)) (fun found =>
        match found with
        | Some receipt => already_covered class source current receipt
        | None => issue_next i class fingerprint authority source current
                    (sign_attempts attempts i class fingerprint authority source)
        end)))
  end.

(** server/internal/pki/rotation.go:967-976 [rotationFenceKey], which
    [withCRLIssuerFence] locks in shared mode *)
Definition fence (i : CRLIssuer) (class : string) : CRLProg unit :=
  match ci_rotation i with
  | None => Ret (Ok tt)
  | Some _ =>
      if validCertificateClass class then look (fun env _ => statement env "store: acquire advisory lock")
      else Ret (Err (EMsg "pki: invalid CA rotation fence class"))
  end.

(** server/internal/pki/crl.go:119-248 [sign]; releasing the fence may turn a
    result into an error *)
Definition sign (i : CRLIssuer) (class : string) (source : CRLSource) : CRLProg SignedCRL :=
  try_prog (fence i class) (fun _ =>
  bind_prog
    (try_prog (crlAuthority i class source) (fun selected =>
     match selected with
     | None => Ret (Ok zero_crl)
     | Some (fingerprint, authority) => sign_attempts crlStateCASAttempts i class fingerprint authority source
     end)) (fun r =>
  bind_prog (look (fun env _ => statement env "store: release advisory lock")) (fun released =>
  Ret (match ci_rotation i, released with
       | Some _, Err e => Err (match r with Err e0 => EJoin e0 e | Ok _ => e end)
       | _, _ => r
       end)))).

(** server/internal/store/work.go:40-48 [WorkItem]: the fields a handler reads *)
Record CRLWork := mkCRLWork {
  cw_Kind : string; cw_PayloadVersion : Z; cw_Payload : string; cw_Source : CRLSource }.

(** server/internal/store/devices.go:38-40 [PublishAgentCRLWorkKind] *)
Definition PublishAgentCRLWorkKind : string := "publish-agent-crl".

(** server/internal/store/gateways.go:33-34 [PublishGatewayCRLWorkKind] *)
Definition PublishGatewayCRLWorkKind : string := "publish-gateway-crl".

(** server/internal/pki/crl.go:76-98 [handleCRLWork] *)
Definition handleCRLWork (i : CRLIssuer) (item : CRLWork) (wantKind wantStreamType class : string) : CRLProg unit :=
  if negb (String.eqb (cw_Kind item) wantKind) || negb (cw_PayloadVersion item =? 1)
     || negb (String.eqb (cw_Payload item) "{}") || negb (String.eqb (src_StreamType (cw_Source item)) wantStreamType)
     || negb (IsCanonicalULID (src_StreamID (cw_Source item))) || (src_StreamVersion (cw_Source item) <? 2)
  then Ret (Err (EMsg "pki: invalid CRL work item"))
  else try_prog (sign i class (cw_Source item)) (fun _ => Ret (Ok tt)).

(** server/internal/pki/crl.go:67-69 [HandleAgentCRLWork] *)
Definition HandleAgentCRLWork (i : CRLIssuer) (item : CRLWork) : CRLProg unit :=
  handleCRLWork i item PublishAgentCRLWorkKind "device" CertificateClassAgent.

(** server/internal/pki/crl.go:72-74 [HandleGatewayCRLWork] *)
Definition HandleGatewayCRLWork (i : CRLIssuer) (item : CRLWork) : CRLProg unit :=
  handleCRLWork i item PublishGatewayCRLWorkKind "gateway" CertificateClassGateway.

(** server/internal/pki/crl.go:101-109 [EnsureCurrent] *)
Definition EnsureCurrent (i : CRLIssuer) (class : string) : CRLProg SignedCRL := sign i class zero_source.

(** ** What the tables promise *)

(** The serial numbers a stored list revokes. *)
Definition serials (row : CRLRow) : list Z :=
  if cr_Sequence row =? 0 then []
  else match ParseRevocationList (cr_DER row) with Some (list, _) => re_Serial <$> rl_Entries list | None => [] end.

(** A revocation that belongs on the list of an authority. *)
Definition listed (authority : Certificate) (r : CertificateRevocation) : Prop :=
  issued_by authority r = Ok (Some r).

(** A later state of a row: the same, or a higher sequence that revokes at
    least as much. *)
Definition row_le (o o' : option CRLRow) : Prop :=
  forall row, o = Some row -> exists row', o' = Some row'
    /\ (row' = row \/ cr_Sequence row < cr_Sequence row' /\ serials row ⊆ serials row').

(** A new revocation is projected; its source event is new. *)
Definition project_revocation (t t' : CRLTables) : Prop :=
  exists r, (forall r0, r0 ∈ t_revocations t -> cv_Source r0 <> cv_Source r)
    /\ t' = mkCRLTables (t_crl t) (t_receipts t) (t_revocations t ++ [r]) (t_published t).

(** The [past] events are those projected before the calls began, whose work
    is being answered; [auth] is the certificate agreed for each fingerprint. *)
Section Covered.
Context {laws : CRLLaws} (past : CRLSource -> Prop) (auth : string -> string -> Certificate).

(** What every party may do to the tables: events projected from now on are
    new ones. *)
Record grows (t t' : CRLTables) : Prop := {
  grows_revocations : t_revocations t ⊆ t_revocations t';
  grows_sources : forall r, r ∈ t_revocations t' -> r ∈ t_revocations t
    \/ (forall r0, r0 ∈ t_revocations t -> cv_Source r0 <> cv_Source r) /\ ~ past (cv_Source r);
  grows_rows : forall key, row_le (t_crl t !! key) (t_crl t' !! key);
  grows_receipts : t_receipts t ⊆ t_receipts t';
}.

Definition project_later (t t' : CRLTables) : Prop :=
  project_revocation t t' /\ forall r, r ∈ t_revocations t' -> r ∈ t_revocations t \/ ~ past (cv_Source r).

(** An event that withdrew nothing new: the certificate it withdraws had been
    withdrawn before, or it withdraws none. *)
Definition unrecorded (src : CRLSource) (t : CRLTables) : Prop :=
  past src /\ forall r, r ∈ t_revocations t -> cv_Source r <> src.

(** A source's certificate is on a list of its issuer, if it recorded one. *)
Definition on_list (class fp : string) (row : CRLRow) (src : CRLSource) (t : CRLTables) : Prop :=
  unrecorded src t
  \/ exists r, r ∈ t_revocations t /\ cv_Source r = src /\ cv_Class r = class /\ listed (auth class fp) r
             /\ SetBytes (cv_SerialNumber r) ∈ serials row.

(** Every list revokes only projected revocations of its issuer, every receipt
    is covered by the list of its issuer, and an event records one revocation. *)
Record crl_inv (t : CRLTables) : Prop := {
  inv_rows : forall class fp row, t_crl t !! (class, fp) = Some row ->
    0 <= cr_Sequence row <= max_int64
    /\ forall s, s ∈ serials row -> exists r, r ∈ t_revocations t /\ cv_Class r = class /\ listed (auth class fp) r
                                        /\ SetBytes (cv_SerialNumber r) = s;
  inv_receipts : forall class fp src m, t_receipts t !! (class, fp, src) = Some m ->
    exists row, t_crl t !! (class, fp) = Some row /\ m <= cr_Sequence row /\ on_list class fp row src t;
  inv_sources : forall r r', r ∈ t_revocations t -> r' ∈ t_revocations t -> cv_Source r = cv_Source r' -> r = r';
}.

#[global] Instance grows_preorder : PreOrder grows.
Proof.
  split.
  - intros t. split; [done|by left| |done]. intros key row Hr. exists row. auto.
  - intros t1 t2 t3 [A1 B1 C1 D1] [A2 B2 C2 D2]. split.
    + set_solver.
    + intros r Hr. destruct (B2 r Hr) as [H12|[H12 Hp]]; [by apply B1|]. right. split; [|done]. intros r0 H0. apply H12. by apply A1.
    + intros key row Hr. destruct (C1 key row Hr) as (row2 & H2 & Hle). destruct (C2 key row2 H2) as (row3 & H3 & Hle').
      exists row3. split; [done|]. destruct Hle as [->|[Hs Hl]]; [done|].
      destruct Hle' as [->|[Hs' Hl']]; [by right|]. right. split; [lia|set_solver].
    + by transitivity (t_receipts t2).
Qed.

Lemma grows_row t t' key row :
  grows t t' -> t_crl t !! key = Some row ->
  exists row', t_crl t' !! key = Some row' /\ cr_Sequence row <= cr_Sequence row' /\ serials row ⊆ serials row'.
Proof.
  intros Hg Hr. destruct (grows_rows _ _ Hg key row Hr) as (row' & H' & [Heq|[Hs Hl]]); exists row'; [subst row'|];
    split_and!; try done; lia.
Qed.

(** What a past event recorded does not change. *)
Lemma past_fixed t t' r : grows t t' -> past (cv_Source r) -> r ∈ t_revocations t' <-> r ∈ t_revocations t.
Proof.
  intros Hg Hp. split; [|apply (grows_revocations _ _ Hg)]. intros Hr.
  by destruct (grows_sources _ _ Hg r Hr) as [?|[_ ?]].
Qed.

Lemma unrecorded_stable src : stable crl_inv grows (unrecorded src).
Proof.
  intros t t' _ _ Hg [Hp Hno]. split; [done|]. intros r Hr <-. apply (Hno r); [|done]. by apply (past_fixed t t').
Qed.

Lemma on_list_grows t t' class fp row row' src :
  crl_inv t -> crl_inv t' -> grows t t' -> serials row ⊆ serials row' -> on_list class fp row src t -> on_list class fp row' src t'.
Proof.
  intros HI HI' Hg Hs [H|(r & Hr & H1 & H2 & H3 & H4)]; [left; by apply (unrecorded_stable src t t')|right].
  exists r. split_and!; [by apply (grows_revocations _ _ Hg)|done|done|done|by apply Hs].
Qed.

(** *** Reading the tables *)

Lemma certificateRevocation_ok row r :
  certificateRevocation row = Ok r ->
  r = row /\ exists cert, parseExactCertificate (cv_CertificateDER row) = Ok cert
             /\ AuthorityKeyId cert = cv_IssuerIdentifier row.
Proof.
  unfold certificateRevocation. intros (u1 & _ & H)%bind_ok. apply bind_ok in H as (cert & Hc%or_err_ok & H).
  apply bind_ok in H as (u2 & Hf%fail_if_ok & H). apply bind_ok in H as ([ic iid] & _ & H).
  apply bind_ok in H as (u3 & _ & H). apply bind_ok in H as (u4 & _ & [= <-]). split; [done|].
  apply orb_false_iff in Hf as [Hf Haki%negb_false_iff%String.eqb_eq].
  apply orb_false_iff in Hf as [Hf _]. apply orb_false_iff in Hf as [Hraw%negb_false_iff _].
  exists cert. split; [|done]. unfold parseExactCertificate. rewrite Hc. cbn. by rewrite Hraw.
Qed.

Lemma CertificateRevocations_ok class env t rs :
  CertificateRevocations class env t = Ok rs ->
  forall r, r ∈ rs <-> r ∈ t_revocations t /\ cv_Class r = class.
Proof.
  unfold CertificateRevocations. intros (u1 & _ & H)%bind_ok. apply bind_ok in H as (u2 & _ & H).
  apply map_result_ok in H. assert (rs = ListCertificateRevocations class t) as ->.
  { induction H as [|x y xs ys [-> _]%certificateRevocation_ok _ IH]; [done|]. by rewrite IH. }
  intros r. unfold ListCertificateRevocations. rewrite (merge_sort_Permutation revocation_le).
  rewrite list_elem_of_filter. tauto.
Qed.

Lemma LatestCRL_ok class fp env t c :
  LatestCRL class [fp] env t = Ok c ->
  match t_crl t !! (class, fp) with None => sl_Sequence c = 0 | Some row => sl_Sequence c = cr_Sequence row end.
Proof.
  unfold LatestCRL. intros (u1 & _ & H)%bind_ok. apply bind_ok in H as (u2 & _ & H). cbv zeta in H.
  change (default zero_fingerprint (head [fp])) with fp in H.
  apply bind_ok in H as (u3 & _ & H). destruct (t_crl t !! (class, fp)) as [row|]; [|by injection H as <-].
  destruct (cr_Sequence row =? 0) eqn:E0.
  - apply bind_ok in H as (u4 & _ & [= <-]). cbn. symmetry. by apply Z.eqb_eq.
  - apply bind_ok in H as (u4 & _ & H). apply bind_ok in H as (issued & _ & H). apply bind_ok in H as (u5 & _ & H).
    apply bind_ok in H as (u6 & _ & H). destruct (cr_Source row); [|by injection H as <-].
    by apply bind_ok in H as (u7 & _ & [= <-]).
Qed.

Lemma CRLWorkReceipt_ok class fp src env t m :
  CRLWorkReceipt class [AFingerprint fp; ASource src] env t = Ok (Some m) -> t_receipts t !! (class, fp, src) = Some m.
Proof.
  unfold CRLWorkReceipt. cbn [parseCRLReceiptArgs]. intros (u1 & _ & H)%bind_ok. apply bind_ok in H as (u2 & _ & H).
  destruct (t_receipts t !! (class, fp, src)) as [n|]; [|done]. by apply bind_ok in H as (u3 & _ & [= <-]).
Qed.

(** The entries of a list are the revocations of its issuer. *)
Lemma entries_ok rs authority entries sources :
  revocationListEntriesForIssuer rs authority = Ok (entries, sources) ->
  (forall s, s ∈ re_Serial <$> entries <-> exists r, r ∈ rs /\ listed authority r /\ SetBytes (cv_SerialNumber r) = s)
  /\ (forall src, src ∈ sources <-> exists r, r ∈ rs /\ listed authority r /\ cv_Source r = src).
Proof.
  unfold revocationListEntriesForIssuer. intros (kept & Hk%map_result_ok & H)%bind_ok.
  apply bind_ok in H as (es & He%map_result_ok & [= <- <-]).
  assert (Hin : forall r, r ∈ omap id kept <-> r ∈ rs /\ listed authority r).
  { intros r. rewrite list_elem_of_omap. unfold id. setoid_rewrite list_elem_of_lookup. split.
    - intros (o & [k Hko] & ->). destruct (Forall2_lookup_r _ _ _ _ _ Hk Hko) as (r0 & Hr0 & Hi).
      pose proof Hi as Hi'. unfold issued_by in Hi'. apply bind_ok in Hi' as (c & _ & [= Hif]).
      destruct (_ && _) in Hif; [|done]. injection Hif as ->. split; [by exists k|exact Hi].
    - intros [[k Hkr] Hl]. destruct (Forall2_lookup_l _ _ _ _ _ Hk Hkr) as (o & Ho & Hi).
      unfold listed in Hl. rewrite Hl in Hi. injection Hi as <-. exists (Some r). split; [by exists k|done]. }
  assert (re_Serial <$> es = (fun r => SetBytes (cv_SerialNumber r)) <$> omap id kept) as ->.
  { clear -He. induction He as [|x y xs ys Hxy _ IH]; [done|]. rewrite !fmap_cons, IH. f_equal.
    apply bind_ok in Hxy as (u1 & _ & H). by apply bind_ok in H as (u2 & _ & [= <-]). }
  split; intros x; rewrite list_elem_of_fmap; setoid_rewrite Hin; naive_solver.
Qed.

(** *** Writing the tables *)

(** What [CompareAndSwapCRL] commits when it answers true: exactly the next
    sequence over exactly the expected one, with the receipt of its source. *)
Lemma CompareAndSwapCRL_ok class fp expected der issuedAt source env t t' r :
  0 <= expected <= max_int64 ->
  CompareAndSwapCRL class [AFingerprint fp; AInt64 expected; ABytes der; ATime issuedAt; ASource source] env t = (t', r) ->
  t' = t /\ r <> Ok true
  \/ r = Ok true /\ expected < max_int64
     /\ match t_crl t !! (class, fp) with None => expected = 0 | Some row => cr_Sequence row = expected end
     /\ t_crl t' = <[(class, fp) := mkCRLRow (expected + 1) der (Some issuedAt) (if source_is_zero source then None else Some source)]> (t_crl t)
     /\ t_revocations t' = t_revocations t
     /\ (if source_is_zero source then t_receipts t' = t_receipts t
         else t_receipts t !! (class, fp, source) = None
              /\ t_receipts t' = <[(class, fp, source) := expected + 1]> (t_receipts t)).
Proof.
  intros Hb. unfold CompareAndSwapCRL. cbn [parseCRLCompareAndSwapArgs mbind option_bind integerSequence].
  destruct (_ || _); [intros [= <- <-]; by left|].
  destruct (validateCRLMaterial _ _ _ ≫= _) as [u|e]; [|intros [= <- <-]; by left].
  assert (Hc : forall src q, CompareAndSwapCRLState class fp (wrap_s 64 (expected + 1)) der issuedAt src expected t = Ok q ->
     q = (t, 0) \/ (expected < max_int64 /\ q = (with_crl t (<[(class, fp) := mkCRLRow (expected + 1) der (Some issuedAt) src]> (t_crl t)), 1)
        /\ match t_crl t !! (class, fp) with None => expected = 0 | Some row => cr_Sequence row = expected end)).
  { intros src q. unfold CompareAndSwapCRLState. cbv zeta.
    assert (Hs : forall x, fail_if (wrap_s 64 (expected + 1) <=? 0) (EPg "23514" "crl_state_publication_material_check") ≫=
       (fun _ => Ok (with_crl t (<[(class, fp) := mkCRLRow (wrap_s 64 (expected + 1)) der (Some issuedAt) src]> (t_crl t)), 1)) = Ok x ->
       expected < max_int64 /\ x = (with_crl t (<[(class, fp) := mkCRLRow (expected + 1) der (Some issuedAt) src]> (t_crl t)), 1)).
    { intros x (u1 & Hp%fail_if_ok%Z.leb_gt & [= <-])%bind_ok. 
      destruct (Z.eq_dec expected max_int64) as [->|Hne]; [by vm_compute in Hp|].
      split; [lia|]. by rewrite wrap_s64_id by (unfold min_int64; lia). }
    destruct (t_crl t !! (class, fp)) as [row|].
    - destruct (Z.eqb_spec (cr_Sequence row) expected); [intros [? ?]%Hs; by right|intros [= <-]; by left].
    - destruct (Z.eqb_spec expected 0); [intros [? ?]%Hs; by right|intros [= <-]; by left]. }
  destruct (source_is_zero source).
  - destruct (CompareAndSwapCRLState _ _ _ _ _ None _ _) as [[q n]|e] eqn:E; [|intros [= <- <-]; by left].
    destruct (Hc None _ E) as [[= -> ->]|(Hlt & [= -> ->] & Hrow)]; intros [= <- <-]; [by left|]. right. by split_and!.
  - unfold CompareAndSwapCRLStateForWork.
    destruct (CompareAndSwapCRLState _ _ _ _ _ (Some source) _ _) as [[q n]|e] eqn:E; cbn [mbind result_bind];
      [|intros [= <- <-]; by left].
    destruct (Hc (Some source) _ E) as [[= -> ->]|(Hlt & [= -> ->] & Hrow)]; [intros [= <- <-]; by left|].
    cbn [Z.eqb]. destruct (t_receipts t !! (class, fp, source)) eqn:Er; intros [= <- <-]; [by left|]. right.
    rewrite wrap_s64_id by (unfold min_int64; lia). by split_and!.
Qed.

(** *** What an issuer knows between its statements *)

Section Issuer.
Context (class fp : string).

(** The list of the issuer has reached sequence [n]. *)
Definition seen (n : Z) (t : CRLTables) : Prop :=
  0 <= n <= max_int64 /\ (n = 0 \/ exists row, t_crl t !! (class, fp) = Some row /\ n <= cr_Sequence row).

(** While the list is still number [n], the revocations [rs] explain it. *)
Definition fresh (n : Z) (rs : list CertificateRevocation) (t : CRLTables) : Prop :=
  seen n t /\ (forall r, r ∈ rs -> r ∈ t_revocations t /\ cv_Class r = class)
  /\ forall row, t_crl t !! (class, fp) = Some row -> cr_Sequence row = n ->
     forall s, s ∈ serials row -> exists r, r ∈ rs /\ listed (auth class fp) r /\ SetBytes (cv_SerialNumber r) = s.

(** The list reached [n] and revokes the certificates of these sources. *)
Definition revokes (n : Z) (sources : list CRLSource) (t : CRLTables) : Prop :=
  exists row, t_crl t !! (class, fp) = Some row /\ n <= cr_Sequence row
  /\ forall src, src ∈ sources -> on_list class fp row src t.

(** A source whose certificate, if it recorded one, belongs on the issuer's
    list. *)
Definition pending (src : CRLSource) (t : CRLTables) : Prop :=
  src = zero_source \/ unrecorded src t
  \/ exists r, r ∈ t_revocations t /\ cv_Source r = src /\ cv_Class r = class /\ listed (auth class fp) r.

(** The same once the revocations [rs] have been read. *)
Definition due (rs : list CertificateRevocation) (src : CRLSource) (t : CRLTables) : Prop :=
  src = zero_source \/ unrecorded src t \/ exists r, r ∈ rs /\ cv_Source r = src /\ listed (auth class fp) r.

(** A source that has its receipt. *)
Definition receipted (src : CRLSource) (t : CRLTables) : Prop :=
  src = zero_source \/ is_Some (t_receipts t !! (class, fp, src)).

Lemma seen_stable n : stable (crl_inv) grows (seen n).
Proof.
  intros t t' _ _ Hg [Hb [->|(row & Hr & Hn)]]; (split; [done|]); [by left|right].
  destruct (grows_row _ _ _ _ Hg Hr) as (row' & H' & Hs & _). exists row'. split; [done|lia].
Qed.

Lemma fresh_stable n rs : stable (crl_inv) grows (fresh n rs).
Proof.
  intros t t' HI HI' Hg (Hs & Hrs & Hrow). split; [|split].
  - exact (seen_stable n t t' HI HI' Hg Hs).
  - intros r Hr. destruct (Hrs r Hr). split; [by apply (grows_revocations _ _ Hg)|done].
  - intros row' Hr' Hn s Hin. destruct (Z.eq_dec n 0) as [->|Hn0].
    { unfold serials in Hin. rewrite Hn in Hin. cbn in Hin. set_solver. }
    destruct Hs as [_ [?|(row & Hr & Hle)]]; [done|].
    destruct (grows_rows _ _ Hg _ _ Hr) as (row2 & Hr2 & Hcase). rewrite Hr' in Hr2. injection Hr2 as <-.
    destruct Hcase as [->|[Hlt _]]; [by eapply Hrow|lia].
Qed.

Lemma revokes_stable n sources : stable (crl_inv) grows (revokes n sources).
Proof.
  intros t t' HI HI' Hg (row & Hr & Hn & Hall). destruct (grows_row _ _ _ _ Hg Hr) as (row' & H' & Hs & Hser).
  exists row'. split_and!; [done|lia|]. intros src Hsrc. eapply (on_list_grows t t'); eauto.
Qed.

Lemma pending_stable src : stable (crl_inv) grows (pending src).
Proof.
  intros t t' HI HI' Hg [?|[?|(r & Hr & ?)]]; [by left|right; left; by apply (unrecorded_stable src t t')|].
  right; right. exists r. split; [by apply (grows_revocations _ _ Hg)|done].
Qed.

Lemma due_stable rs src : stable (crl_inv) grows (due rs src).
Proof.
  intros t t' HI HI' Hg [?|[?|?]]; [by left|right; left; by apply (unrecorded_stable src t t')|by right; right].
Qed.

Lemma receipted_stable src : stable (crl_inv) grows (receipted src).
Proof.
  intros t t' _ _ Hg [?|[m Hm]]; [by left|]. right. exists m. by apply (lookup_weaken _ _ _ _ Hm), grows_receipts.
Qed.

Lemma source_is_zero_iff s : source_is_zero s = true <-> s = zero_source.
Proof.
  destruct s as [a b c]. unfold source_is_zero, zero_source. cbn. rewrite !andb_true_iff, !String.eqb_eq, Z.eqb_eq.
  split; [by intros [[-> ->] ->]|by intros [= -> -> ->]].
Qed.

(** What is known of a freshly signed list. *)
Definition signed_from (rs : list CertificateRevocation) (der : string) (covered : list CRLSource) : Prop :=
  (exists list raw, ParseRevocationList der = Some (list, raw)
     /\ forall s, s ∈ re_Serial <$> rl_Entries list <->
          exists r, r ∈ rs /\ listed (auth class fp) r /\ SetBytes (cv_SerialNumber r) = s)
  /\ forall src, src ∈ covered <-> exists r, r ∈ rs /\ listed (auth class fp) r /\ cv_Source r = src.

Lemma new_row_serials rs der covered n issued src s :
  signed_from rs der covered -> 0 <= n ->
  s ∈ serials (mkCRLRow (n + 1) der issued src) <->
  exists r, r ∈ rs /\ listed (auth class fp) r /\ SetBytes (cv_SerialNumber r) = s.
Proof.
  intros [(list & raw & Hp & Hs) _] Hn. unfold serials. cbn [cr_Sequence cr_DER]. rewrite Hp.
  destruct (Z.eqb_spec (n + 1) 0); [lia|]. apply Hs.
Qed.

Lemma cas_step n rs der covered issued source env t t' r :
  crl_inv t -> fresh n rs t -> signed_from rs der covered ->
  due rs source t ->
  CompareAndSwapCRL class [AFingerprint fp; AInt64 n; ABytes der; ATime issued; ASource source] env t = (t', r) ->
  grows t t' /\ crl_inv t' /\ (r = Ok true -> 0 <= n < max_int64 /\ revokes (n + 1) covered t' /\ receipted source t').
Proof.
  intros HI Hf Hsig Hsrc Hop. destruct Hf as ((Hn & Hseen) & Hrs & Hrow).
  destruct (CompareAndSwapCRL_ok _ _ _ _ _ _ _ _ _ _ Hn Hop) as [[-> Hne]|(-> & Hlt & Hexp & Hcrl & Hrev & Hrec)].
  { split_and!; [reflexivity|done|done]. }
  set (new := mkCRLRow (n + 1) der (Some issued) (if source_is_zero source then None else Some source)) in *.
  assert (Hnew : forall s, s ∈ serials new <-> exists r, r ∈ rs /\ listed (auth class fp) r /\ SetBytes (cv_SerialNumber r) = s)
    by (intros s; apply (new_row_serials _ _ _ _ _ _ _ Hsig); lia).
  assert (Hold : row_le (t_crl t !! (class, fp)) (Some new)).
  { intros row Hr. rewrite Hr in Hexp. exists new. split; [done|]. right. split; [cbn; lia|].
    intros s Hin. apply Hnew. by apply (Hrow row Hr Hexp). }
  assert (Hrecs : t_receipts t ⊆ t_receipts t').
  { destruct (source_is_zero source); [by rewrite Hrec|]. destruct Hrec as [Hno ->]. by apply insert_subseteq. }
  assert (Hg : grows t t').
  { split; [by rewrite Hrev|rewrite Hrev; by left| |done]. intros key. rewrite Hcrl.
    destruct (decide (key = (class, fp))) as [->|Hk]; [by rewrite lookup_insert_eq|].
    rewrite lookup_insert_ne by done. intros row Hr. exists row. auto. }
  assert (Hcov : revokes (n + 1) covered t').
  { exists new. rewrite Hcrl, lookup_insert_eq. split_and!; [done|cbn; lia|]. intros src Hin.
    apply (proj2 Hsig) in Hin as (r & Hr & Hl & Hs). right. exists r. rewrite Hrev.
    destruct (Hrs r Hr) as [? ?]. split_and!; [done|done|done|done|]. apply Hnew. by exists r. }
  split_and!; [done| |intros _; split; [lia|split; [done|]]].
  - split; [| |rewrite Hrev; apply HI].
    + intros c f row Hr. rewrite Hcrl in Hr. rewrite Hrev. apply lookup_insert_Some in Hr as [[[= <- <-] <-]|[_ Hr]].
      * split; [cbn; lia|]. intros s (r & Hr & Hl & Hs)%Hnew. exists r. destruct (Hrs r Hr). by split_and!.
      * by apply (inv_rows t HI).
    + intros c f src m Hm.
      assert (t_receipts t !! (c, f, src) = Some m \/ (c, f, src) = (class, fp, source) /\ m = n + 1 /\ source <> zero_source) as [Hm'|([= -> -> ->] & -> & Hnz)].
      { destruct (source_is_zero source) eqn:Ez; [left; by rewrite Hrec in Hm|]. destruct Hrec as [_ Hrec].
        rewrite Hrec in Hm. apply lookup_insert_Some in Hm as [[? <-]|[_ ?]]; [right|by left].
        split_and!; [done|done|]. intros Hz%source_is_zero_iff. congruence. }
      * destruct (inv_receipts t HI _ _ _ _ Hm') as (row & Hr & Hle & Hon).
        destruct (grows_row _ _ _ _ Hg Hr) as (row' & Hr' & Hseq & Hsub). exists row'.
        split_and!; [done|lia|]. unfold on_list, unrecorded in *. rewrite Hrev. naive_solver.
      * destruct Hcov as (row & Hr & Hle & Hall). exists row. split_and!; [done|done|].
        destruct Hsrc as [?|[Hun|(r & Hr0 & Hs & Hl)]]; [done| |].
        -- left. unfold unrecorded. by rewrite Hrev.
        -- apply Hall. apply (proj2 Hsig). by exists r.
  - unfold receipted. destruct (source_is_zero source) eqn:Ez; [left; by apply source_is_zero_iff|]. right.
    destruct Hrec as [_ ->]. rewrite lookup_insert_eq. eauto.
Qed.

Lemma record_step n sources source env t t' r :
  crl_inv t -> revokes n sources t -> source ∈ sources ->
  RecordCovered class fp source n env t = (t', r) ->
  grows t t' /\ crl_inv t' /\ revokes n sources t'.
Proof.
  intros HI Hc Hin. unfold RecordCovered.
  destruct (statement _ _); [|intros [= <- <-]; split_and!; [reflexivity|done|done]].
  destruct Hc as (row & Hr & Hle & Hall). rewrite Hr.
  destruct (t_receipts t !! (class, fp, source)) eqn:Er; [intros [= <- <-]; split_and!; [reflexivity|done|by exists row]|].
  destruct (n <=? cr_Sequence row); intros [= <- <-]; [|split_and!; [reflexivity|done|by exists row]].
  assert (Hg : grows t (with_receipts t (<[(class, fp, source):=n]> (t_receipts t)))).
  { split; [done|by left| |by apply insert_subseteq]. intros key row' Hr'. exists row'. auto. }
  split_and!; [done| |by exists row]. split; [apply (inv_rows t HI)| |apply HI].
  intros c f src m Hm. cbn [t_receipts with_receipts] in Hm.
  apply lookup_insert_Some in Hm as [[[= <- <- <-] <-]|[_ Hm]]; [|by apply (inv_receipts t HI)].
  exists row. split_and!; [done|done|by apply Hall].
Qed.

(** *** The issuer keeps the promise *)

Notation rgp := (rg crl_inv grows grows).

(** A result that was answered only with the source's receipt in place. *)
Definition acked (src : CRLSource) {A} (r : result goerr A) (t : CRLTables) : Prop :=
  match r with Ok _ => receipted src t | Err _ => True end.

Lemma acked_free src {A} : fails_freely (@acked src A).
Proof. by intros e t. Qed.

Lemma publish_rg {A} (P : CRLTables -> Prop) Q msg crl (f : unit -> CRLProg A) :
  fails_freely Q -> stable crl_inv grows P ->
  (forall u, rgp Q P (f u)) -> rgp Q P (try_prog (Publish msg crl) f).
Proof.
  intros Hfree Hst Hf. unfold Publish. eapply (rg_act_try _ _ _ _ (fun _ => P)); [done|done| |exact Hf].
  intros env t t' r HI HP Hop. destruct (ce_publish env).
  - injection Hop as <- <-. split_and!; [reflexivity|done|done].
  - injection Hop as <- <-.
    assert (Hg : grows t (mkCRLTables (t_crl t) (t_receipts t) (t_revocations t) (t_published t ++ [crl]))).
    { split; [done|by left| |done]. intros key row Hr. exists row. auto. }
    assert (HI' : crl_inv (mkCRLTables (t_crl t) (t_receipts t) (t_revocations t) (t_published t ++ [crl])))
      by (destruct HI; by split).
    split_and!; [done|done|exact (Hst _ _ HI HI' Hg HP)].
Qed.

Lemma record_all_rg n covered src sources :
  sources ⊆ covered ->
  rgp (fun r t => match r with Ok _ => revokes n covered t /\ receipted src t | Err _ => True end)
      (fun t => revokes n covered t /\ receipted src t) (record_all class fp sources n).
Proof.
  induction sources as [|s rest IH]; intros Hsub; cbn [record_all].
  { apply rg_done. auto. }
  eapply (rg_bind _ _ _ (fun r t => match r with Ok _ => revokes n covered t /\ receipted src t | Err _ => True end)).
  - unfold RecordCoveredCRLWorkReceipt. destruct (_ || _); [by apply rg_done|].
    eapply (rg_act_try _ _ _ _ (fun _ t => revokes n covered t /\ receipted src t)); [done| | |].
    + intros _. apply stable_and; [apply revokes_stable|apply receipted_stable].
    + intros env t t' r HI [Hc Hr] Hop. destruct (record_step n covered s env t t' r HI Hc ltac:(set_solver) Hop) as (Hg & HI' & Hc').
      split_and!; [done|done|]. destruct r; [|done]. split; [done|]. exact (receipted_stable src t t' HI HI' Hg Hr).
    + intros _. eapply (rg_look_try _ _ _ _ (fun _ t => revokes n covered t /\ receipted src t)); [done| | |].
      * intros _. apply stable_and; [apply revokes_stable|apply receipted_stable].
      * auto.
      * intros [m|]; by apply rg_done.
  - intros [u|e]; [apply IH; set_solver|]. by apply rg_done.
Qed.

Lemma sign_list_ok i template der :
  sign_list i class fp template = Ok der -> exists cert signer, CreateRevocationList template cert signer = Ok der.
Proof.
  unfold sign_list. intros H%wrap_err_ok. destruct (validCertificateClass class); [|done].
  assert (Hs : forall a, signRevocationList a (Some template) = Ok der -> exists cert signer, CreateRevocationList template cert signer = Ok der).
  { intros a. unfold signRevocationList. cbn [or_err mbind result_bind]. intros (u & _ & Hc)%bind_ok. eauto. }
  destruct (ci_rotation i); unfold SignClassRevocationList, signRevocationListForIssuer in H;
    apply bind_ok in H as (a & _ & H); by apply (Hs a).
Qed.

Lemma issue_next_rg i src current retry :
  rgp (acked src) (pending src) retry ->
  rgp (acked src) (fun t => seen (sl_Sequence current) t /\ pending src t)
      (issue_next i class fp (auth class fp) src current retry).
Proof.
  intros Hretry. unfold issue_next. set (n := sl_Sequence current).
  set (K := fun rs t => (fresh n rs t /\ pending src t) /\ due rs src t).
  assert (HK : forall rs, stable crl_inv grows (K rs))
    by (intros rs; apply stable_and; [apply stable_and; [apply fresh_stable|apply pending_stable]|apply due_stable]).
  eapply (rg_look_try _ _ _ _ K); [apply acked_free|exact HK| |].
  { intros env t rs HI [Hs Hp] Hr. pose proof (CertificateRevocations_ok _ _ _ _ Hr) as Hin. split; [split; [split; [exact Hs|split]|exact Hp]|].
    - intros r Hrin. by apply Hin.
    - intros row Hrow Hseq s Hser. destruct (inv_rows t HI _ _ _ Hrow) as [_ Hall].
      destruct (Hall s Hser) as (r & ? & ? & ? & ?). exists r. split_and!; [by apply Hin|done|done].
    - destruct Hp as [?|[?|(r & ? & ? & ? & ?)]]; [by left|by right; left|]. right; right. exists r.
      split_and!; [by apply Hin|done|done]. }
  intros rs. eapply (rg_bind _ _ _ (fun _ => K rs)).
  { apply (rg_look _ _ _); [by intros _|by intros env t _ ?]. }
  intros now.
  destruct (time_is_zero now); [by apply rg_done|]. cbv zeta.
  apply rg_pure_try; [apply acked_free|]. intros [entries covered] He. destruct (entries_ok _ _ _ _ He) as [Hent Hcov].
  apply rg_pure_try; [apply acked_free|]. intros der Hder. destruct (sign_list_ok _ _ _ Hder) as (cert & signer & Hcreate).
  apply rg_pure_try; [apply acked_free|]. intros [] Hval.
  assert (Hsig : signed_from rs der covered).
  { split; [|exact Hcov]. unfold validateIssuedCRL in Hval. apply bind_ok in Hval as (list & Hl%wrap_err_ok & _).
    unfold parseExactRevocationList in Hl. destruct (ParseRevocationList der) as [[l raw]|] eqn:Ep; [|done].
    exists l, raw. split; [done|]. by rewrite (created_entries _ _ _ _ _ _ Hcreate Ep). }
  eapply (rg_act_try _ _ _ _ (fun (b : bool) t =>
    if b then 0 <= n < max_int64 /\ revokes (n + 1) covered t /\ receipted src t else pending src t)); [apply acked_free| | |].
  - intros [|]; [|apply pending_stable].
    apply stable_and; [apply stable_const|]. apply stable_and; [apply revokes_stable|apply receipted_stable].
  - intros env t t' r HI [[Hf Hp] Hsrc] Hop.
    destruct (cas_step _ _ _ _ _ _ _ _ _ _ HI Hf Hsig Hsrc Hop) as (Hg & HI' & Hok). split_and!; [done|done|].
    destruct r as [[|]|]; [by apply Hok| |done]. exact (pending_stable src t t' HI HI' Hg Hp).
  - intros [|]; cbn [negb].
    + apply rg_pure_pre. intros Hmax. rewrite wrap_s64_id by (unfold min_int64; lia).
      eapply rg_bind; [by apply record_all_rg|]. intros [u|e]; [|by apply rg_done].
      eapply rg_weaken; [|apply (publish_rg (receipted src))]; [by intros t _ [_ ?]|apply acked_free|apply receipted_stable|].
      intros _. by apply rg_done.
    + eapply (rg_look_try _ _ _ _ (fun _ => pending src)); [apply acked_free|intros _; apply pending_stable|auto|].
      intros _. exact Hretry.
Qed.

Lemma sign_attempts_rg attempts i src :
  rgp (acked src) (pending src) (sign_attempts attempts i class fp (auth class fp) src).
Proof.
  induction attempts as [|attempts IH]; cbn [sign_attempts]; [by apply rg_done|].
  eapply (rg_look_try _ _ _ _ (fun _ => pending src)); [apply acked_free|intros _; apply pending_stable|auto|]. intros _.
  eapply (rg_look_try _ _ _ _ (fun c t => seen (sl_Sequence c) t /\ pending src t)); [apply acked_free| | |].
  { intros c. apply stable_and; [apply seen_stable|apply pending_stable]. }
  { intros env t c HI Hp Hc%LatestCRL_ok. split; [|done]. unfold seen.
    destruct (t_crl t !! (class, fp)) as [row|] eqn:Er; rewrite Hc; [|by split; [done|left]].
    destruct (inv_rows t HI _ _ _ Er) as [Hb _]. split; [done|]. right. exists row. split; [done|lia]. }
  intros c. case_bool_decide as Hz; cbn [andb].
  { destruct (0 <? sl_Sequence c); [apply rg_done; intros t _ _; by left|].
    destruct (Z.ltb_spec 0 (src_StreamVersion src)) as [Hv|_]; [rewrite Hz in Hv; cbn in Hv; lia|].
    apply rg_pure_try; [apply acked_free|]. intros f [= <-]. by apply issue_next_rg. }
  set (K := fun (found : option Z) t => (seen (sl_Sequence c) t /\ pending src t)
              /\ match found with Some _ => receipted src t | None => True end).
  assert (HK : forall f, rgp (acked src) (K f) (match f with
      | Some receipt => already_covered class src c receipt
      | None => issue_next i class fp (auth class fp) src c (sign_attempts attempts i class fp (auth class fp) src)
      end)).
  { intros [m|].
    - eapply rg_weaken; [intros t _ [_ H]; exact H|]. unfold already_covered.
      destruct (_ <? _); [by apply rg_done|]. destruct (_ <? _); [by apply rg_done|].
      destruct (negb _); [by apply rg_done|].
      apply publish_rg; [apply acked_free|apply receipted_stable|]. intros _. by apply rg_done.
    - eapply rg_weaken; [intros t _ [H _]; exact H|]. by apply issue_next_rg. }
  destruct (0 <? src_StreamVersion src).
  - eapply (rg_look_try _ _ _ _ K); [apply acked_free| | |exact HK].
    + intros f. apply stable_and; [apply stable_and; [apply seen_stable|apply pending_stable]|].
      destruct f; [apply receipted_stable|apply stable_const].
    + intros env t f HI Hp Hf. split; [done|]. destruct f as [m|]; [|done]. right. exists m.
      by apply CRLWorkReceipt_ok in Hf.
  - apply rg_pure_try; [apply acked_free|]. intros f [= <-]. eapply rg_weaken; [|apply (HK None)]. by intros t _ H; split.
Qed.
End Issuer.

(** *** A whole call *)

(** The issuer certificates of a call are the agreed ones: what is installed
    under a fingerprint is the certificate with that fingerprint. *)
Definition agrees (i : CRLIssuer) (class : string) : Prop :=
  (forall fp c, authorityForIssuer (ci_authorities i) class fp = Some c -> ca_certificate c = auth class fp)
  /\ (forall c, currentAuthority (ci_authorities i) class = Some c -> ca_certificate c = auth class zero_fingerprint)
  /\ (forall der root, parseExactCertificate der = Ok root -> auth class (Sum256 der) = root).

(** The certificate a source event recorded names the issuer that signed it:
    without a rotation manager the current authority, with one any root. *)
Definition names_issuer (i : CRLIssuer) (class : string) (r : CertificateRevocation) : Prop :=
  match ci_rotation i with
  | None => listed (auth class zero_fingerprint) r
  | Some _ => forall cert root, parseExactCertificate (cv_CertificateDER r) = Ok cert ->
                CheckSignatureFrom cert root = true -> cv_IssuerIdentifier r = SubjectKeyId root
  end.

(** A call keeps the list current, or answers the work of an event of the past,
    of the class of the certificate it recorded, if it recorded one. *)
Definition call_ready (i : CRLIssuer) (class : string) (src : CRLSource) (t : CRLTables) : Prop :=
  src = zero_source
  \/ 0 < src_StreamVersion src /\ past src
     /\ forall r, r ∈ t_revocations t -> cv_Source r = src -> cv_Class r = class /\ names_issuer i class r.

Lemma call_ready_stable i class src : stable crl_inv grows (call_ready i class src).
Proof.
  intros t t' _ _ Hg [?|(Hv & Hp & Hall)]; [by left|]. right. split_and!; [done|done|].
  intros r Hr Hs. apply Hall; [|done]. apply (past_fixed t t' r Hg); [by rewrite Hs|done].
Qed.

(** The snapshot of the rotation that the call read, somewhere between the
    first tables and these. *)
Definition snapshot_read (i : CRLIssuer) (class : string) (t0 t : CRLTables) (snapshot : AuthoritySnapshot) : Prop :=
  exists Snapshot env t', ci_rotation i = Some Snapshot /\ Snapshot class env t' = Ok snapshot /\ grows t0 t' /\ grows t' t.

(** No root that was active then signed the certificate. *)
Definition unsigned (i : CRLIssuer) (class : string) (t0 : CRLTables) (r : CertificateRevocation) (t : CRLTables) : Prop :=
  exists snapshot cert, snapshot_read i class t0 t snapshot /\ parseExactCertificate (cv_CertificateDER r) = Ok cert
  /\ forall der root, der ∈ activeCRLRoots snapshot -> parseExactCertificate der = Ok root ->
       CheckSignatureFrom cert root = false.

(** What the call's result says about the tables. *)
Definition answered (i : CRLIssuer) (class : string) (src : CRLSource) (t0 : CRLTables) (r : result goerr SignedCRL)
    (t : CRLTables) : Prop :=
  match r with
  | Ok _ => (exists fp, receipted class fp src t) \/ unrecorded src t
            \/ exists r, r ∈ t_revocations t /\ cv_Source r = src /\ unsigned i class t0 r t
  | Err _ => True
  end.

Lemma snapshot_read_stable i class t0 snapshot :
  stable crl_inv grows (fun t => snapshot_read i class t0 t snapshot).
Proof.
  intros t t' _ _ Hg (S & env & t1 & ? & ? & ? & ?). exists S, env, t1. split_and!; [done..|]. by etransitivity.
Qed.

Lemma answered_stable i class src t0 r : stable crl_inv grows (answered i class src t0 r).
Proof.
  intros t t' HI HI' Hg. destruct r as [crl|]; [|done]. intros [[fp H]|[H|(r & Hr & Hs & snapshot & cert & Hread & H)]].
  - left. exists fp. exact (receipted_stable class fp src t t' HI HI' Hg H).
  - right; left. exact (unrecorded_stable src t t' HI HI' Hg H).
  - right; right. exists r. split_and!; [by apply (grows_revocations _ _ Hg)|done|]. exists snapshot, cert.
    split; [exact (snapshot_read_stable i class t0 snapshot t t' HI HI' Hg Hread)|done].
Qed.

(** The outcome of choosing an authority. *)
Definition chosen (i : CRLIssuer) (class : string) (src : CRLSource) (t0 : CRLTables)
    (r : result goerr (option (string * Certificate))) (t : CRLTables) : Prop :=
  match r with
  | Ok (Some (fp, authority)) => authority = auth class fp /\ pending class fp src t
  | Ok None => answered i class src t0 (Ok zero_crl) t
  | Err _ => True
  end.

(** What a call knows once it has read the revocations of its class. *)
Definition read_for (i : CRLIssuer) (class : string) (src : CRLSource) (t0 : CRLTables) (snapshot : AuthoritySnapshot)
    (rs : list CertificateRevocation) (t : CRLTables) : Prop :=
  past src /\ snapshot_read i class t0 t snapshot
  /\ forall r, cv_Source r = src -> (r ∈ rs <-> r ∈ t_revocations t) /\ (r ∈ rs -> cv_Class r = class /\ names_issuer i class r).

Lemma read_for_stable i class src t0 snapshot rs : stable crl_inv grows (read_for i class src t0 snapshot rs).
Proof.
  intros t t' HI HI' Hg (Hp & Hs & Hall). split_and!; [done|exact (snapshot_read_stable _ _ _ _ t t' HI HI' Hg Hs)|].
  intros r Hr. destruct (Hall r Hr) as [Hin Hn]. split; [|exact Hn]. rewrite Hin. symmetry.
  apply (past_fixed t t' r Hg). by rewrite Hr.
Qed.

(** The root of a source, and why the source belongs on its list. *)
Lemma source_root_chosen i class src t0 snapshot rs t Snapshot :
  agrees i class -> ci_rotation i = Some Snapshot -> read_for i class src t0 snapshot rs t ->
  chosen i class src t0 (source_root snapshot src rs ≫= installed_authority i class) t.
Proof.
  intros (Hfor & _ & Hexact) Hrot (Hp & Hread & Hall). unfold source_root.
  destruct (find _ rs) as [r|] eqn:Ef.
  2:{ cbn [mbind result_bind installed_authority]. right; left. split; [done|]. intros r Hr Hs.
      apply (Hall r Hs) in Hr. apply list_elem_of_In in Hr. apply (find_none _ _ Ef) in Hr.
      by apply bool_decide_eq_false in Hr. }
  apply find_some in Ef as [Hin%list_elem_of_In Hsrc%bool_decide_eq_true]. destruct (Hall r Hsrc) as [Hrev Hname].
  destruct (parseExactCertificate (cv_CertificateDER r)) as [cert|e] eqn:Ec; [|done]. cbn [mbind result_bind wrap_err].
  unfold signing_root. destruct (find _ (activeCRLRoots snapshot)) as [der|] eqn:Ed.
  - apply find_some in Ed as [_ Hsig]. destruct der as [|a rest].
    { unfold parseExactCertificate in Hsig. by rewrite empty_certificate in Hsig. }
    cbn [installed_authority]. set (d := String a rest) in *.
    destruct (authorityForIssuer _ _ _) as [c|] eqn:Ea; [|done]. cbn. split; [by apply Hfor|].
    destruct (parseExactCertificate d) as [root|] eqn:Eroot; [|done].
    destruct (Hname Hin) as [Hcl Hn]. right; right. exists r. split_and!; [by apply Hrev|done|done|].
    unfold names_issuer in Hn. rewrite Hrot in Hn. unfold listed, issued_by. rewrite Ec. cbn.
    by rewrite (Hexact _ _ Eroot), (Hn _ _ Ec Hsig), String.eqb_refl, Hsig.
  - cbn [installed_authority chosen]. right; right. exists r. split_and!; [by apply Hrev|done|]. exists snapshot, cert.
    split_and!; [done|done|]. intros der root Hder Hroot%eq_sym. apply list_elem_of_In in Hder.
    apply (find_none _ _ Ed) in Hder. by rewrite <- Hroot in Hder.
Qed.

(** The authority chosen for a call, and why the source belongs on its list. *)
Lemma crlAuthority_rg i class src t0 :
  agrees i class ->
  rg crl_inv grows grows (chosen i class src t0) (fun t => call_ready i class src t /\ grows t0 t) (crlAuthority i class src).
Proof.
  intros Ha. pose proof Ha as (Hfor & Hcur & _). unfold crlAuthority. destruct (ci_rotation i) as [Snapshot|] eqn:Erot.
  - eapply (rg_look_try _ _ _ _ (fun snapshot t => call_ready i class src t /\ snapshot_read i class t0 t snapshot)); [done| | |].
    + intros snapshot. apply stable_and; [apply call_ready_stable|apply snapshot_read_stable].
    + intros env t snapshot _ [Hr Hg] Hs. split; [done|]. by exists Snapshot, env, t.
    + intros snapshot. destruct (Z.ltb_spec 0 (src_StreamVersion src)) as [Hv|Hv].
      * eapply (rg_look_try _ _ _ _ (read_for i class src t0 snapshot)); [done|apply read_for_stable| |].
        -- intros env t rs _ [Hready Hread] Hrs. destruct Hready as [->|(_ & Hp & Hall)]; [by cbn in Hv|].
           split_and!; [done|done|]. intros r Hr. rewrite (CertificateRevocations_ok _ _ _ _ Hrs r). naive_solver.
        -- intros rs. apply rg_done. intros t _ H. by eapply source_root_chosen.
      * apply rg_done. intros t _ [Hready _].
        destruct (authorityForIssuer _ class _) as [c|] eqn:Ea; [|done]. cbn. split; [by apply Hfor|].
        destruct Hready as [->|[? _]]; [by left|lia].
  - apply rg_done. intros t _ [Hready _]. destruct (currentAuthority _ class) as [c|] eqn:Ec; [|done]. cbn.
    split; [by apply Hcur|]. destruct Hready as [->|(_ & Hp & Hall)]; [by left|]. right.
    destruct (decide (Exists (fun r => cv_Source r = src) (t_revocations t))) as [(r & Hr & Hs)%Exists_exists|Hno].
    + right. exists r. destruct (Hall r Hr Hs) as [Hcl Hn]. unfold names_issuer in Hn. rewrite Erot in Hn. by split_and!.
    + left. split; [done|]. intros r Hr Hs. apply Hno, Exists_exists. by exists r.
Qed.

Lemma sign_rg i class src t0 :
  agrees i class ->
  rg crl_inv grows grows (answered i class src t0) (fun t => call_ready i class src t /\ grows t0 t) (sign i class src).
Proof.
  intros Ha. unfold sign. set (P := fun t => call_ready i class src t /\ grows t0 t).
  assert (HP : stable crl_inv grows P).
  { apply stable_and; [apply call_ready_stable|]. intros t t' _ _ Hg H. by etransitivity. }
  eapply (rg_bind _ _ _ (fun (r : result goerr unit) t => P t)).
  { unfold fence. destruct (ci_rotation i); [|by apply rg_done]. destruct (validCertificateClass class); [|by apply rg_done].
    apply (rg_look _ _ _); [by intros _|auto]. }
  intros [u|e]; [|by apply rg_done].
  eapply (rg_bind _ _ _ (answered i class src t0)).
  - eapply (rg_bind _ _ _ (chosen i class src t0)); [by apply crlAuthority_rg|].
    intros [[[fp authority]|]|e]; [|by apply rg_done..].
    apply rg_pure_pre. intros ->.
    eapply rg_post; [|apply sign_attempts_rg]. intros [crl|e] t HI H; [|done]. left. by exists fp.
  - intros r. eapply (rg_bind _ _ _ (fun _ => answered i class src t0 r)).
    { apply (rg_look _ _ _); [intros _; apply answered_stable|auto]. }
    intros [u2|e]; apply rg_done; intros t _ H; destruct (ci_rotation i); done.
Qed.

(** A call of [sign], as the work handlers and [EnsureCurrent] make it. *)
Definition sign_call (c : CRLIssuer * string * CRLSource) : CRLProg SignedCRL := sign c.1.1 c.1.2 c.2.

Lemma projection_grows t t' : crl_inv t -> project_later t t' -> grows t t' /\ crl_inv t'.
Proof.
  intros HI [(r & Hnew & ->) Hlater]. cbn in Hlater.
  assert (Hg : grows t (mkCRLTables (t_crl t) (t_receipts t) (t_revocations t ++ [r]) (t_published t))).
  { split; cbn; [set_solver| |intros key row Hr; exists row; auto|done].
    intros r' Hr'. destruct (Hlater r' Hr') as [?|Hp]; [by left|]. apply elem_of_app in Hr' as [?|Hr']; [by left|].
    apply list_elem_of_singleton in Hr' as ->. by right. }
  split; [done|]. split; cbn.
  - intros class fp row Hr. destruct (inv_rows t HI _ _ _ Hr) as [Hb Hall]. split; [done|].
    intros s Hs. destruct (Hall s Hs) as (r0 & ? & ?). exists r0. split; [set_solver|done].
  - intros class fp src m Hm. destruct (inv_receipts t HI _ _ _ _ Hm) as (row & Hr & Hle & Hon).
    exists row. split_and!; [done|done|]. destruct Hon as [[Hp Hno]|(r0 & ? & ?)].
    + left. split; [done|]. cbn. intros r' Hr' <-. apply (Hno r'); [|done]. by apply (past_fixed _ _ _ Hg Hp).
    + right. exists r0. cbn. split; [set_solver|done].
  - intros r1 r2 H1 H2 Hs. apply elem_of_app in H1 as [H1| ->%list_elem_of_singleton];
      apply elem_of_app in H2 as [H2| ->%list_elem_of_singleton]; [by apply (inv_sources t HI)| | |done].
    + by destruct (Hnew r1 H1).
    + by destruct (Hnew r2 H2).
Qed.
End Covered.

End WithX509.

(** ** Example: one revoked agent certificate *)

Module CrlExample.

Definition certificate (der name uri ski aki : string) (serial : Z) : Certificate :=
  mkCertificate der "" "" name [] (Some serial) ski aki false false 0 false 0 [] 0 0 KeyOther [Some uri] [] []
    [] [] [] [] [].

Definition root : Certificate := certificate "root" "" "" "ki" "ki" 1.
Definition leaf : Certificate := certificate "leaf" (example_ulid "D") AgentSPIFFEURI "" "ki" 5.

#[export] Instance x509 : X509 := {|
  ParseCertificate der := if String.eqb der "root" then Some root else if String.eqb der "leaf" then Some leaf else None;
  CheckSignatureFrom c p := String.eqb (AuthorityKeyId c) (SubjectKeyId p);
  MarshalPKIXPublicKey _ := None;
  unmarshalRawValues _ := None;
|}.

Definition digest (a : ascii) : string := string_of_list_ascii (repeat a 32).

#[export] Instance schemes : Schemes := {|
  sha256 l := if bool_decide (l = bytes "root") then digest "r" else if bool_decide (l = bytes "leaf") then digest "l" else "";
  signDigest _ _ := Err ""%string;
  verifyASN1 _ _ _ := false;
  verifyPKCS1v15 _ _ _ := false;
  parsesASN1 _ := false;
|}.

Definition entry : RevocationListEntry := mkRevocationListEntry 5 second 1.
Definition made : RevocationList := mkRevocationList [entry] (Some 1) (5 * second) (5 * second + DefaultCRLMaxAge) [].

#[export] Instance x509crl : X509CRL := {|
  ParseRevocationList der := if String.eqb der "crl" then Some (made, "crl"%string) else None;
  CreateRevocationList template _ _ := if bool_decide (rl_Entries template = [entry]) then Ok "crl"%string else Err ""%string;
  ListCheckSignatureFrom _ _ := true;
|}.

#[export] Instance laws : CRLLaws.
Proof.
  split; [|reflexivity]. intros template authority signer der list raw. cbn. case_bool_decide as He; [|done]. intros [= <-]. cbn.
  intros [= <- _]. by rewrite He.
Qed.

Definition auth (class fp : string) : Certificate := if String.eqb fp (digest "l") then leaf else root.

Definition issuer : CRLIssuer :=
  let ca := mkCertificateAuthority root KeyOther "" in mkCRLIssuer (mkAuthorities ca ca KeyOther ∅ ∅) None.

Definition source : CRLSource := mkCRLSource "device" (example_ulid "D") 2.

Definition revoked : CertificateRevocation :=
  mkCertificateRevocation CertificateClassAgent "leaf" (digest "l") "ki" [5] second 1 source.

Definition start : CRLTables := mkCRLTables ∅ ∅ [revoked] [].
Definition env : CRLEnv := mkCRLEnv None (5 * second) None None.
Definition run : CRLTables * CRLProg SignedCRL :=
  exec (repeat env 12) start (sign_call (issuer, CertificateClassAgent, source)).

Definition issued : SignedCRL :=
  mkSignedCRL CertificateClassAgent zero_fingerprint 1 "crl" (5 * second) source.

Lemma issuer_agrees : agrees auth issuer CertificateClassAgent.
Proof.
  split_and!; [by intros fp c|by intros c [= <-]|]. intros der r. unfold parseExactCertificate. cbn.
  destruct (String.eqb_spec der "root") as [->|]; [by intros [= <-]|].
  destruct (String.eqb_spec der "leaf") as [->|]; [by intros [= <-]|done].
Qed.
End CrlExample.

Import CrlExample.

