(* ===== verification/Tokens.v ===== *)
(** * [server/internal/store/registration_tokens.go],
    [server/internal/pki/registration_tokens.go]: registration tokens

    The token table with its projectors, and the service that mints, consumes
    and disables tokens: programs of reads, clock readings, waits and pinned
    appends that interleave.  Event payloads are the decoded payload structs,
    a secret and its entropy are byte lists, and instants keep the precision they
    are given: the microseconds to which a timestamptz column cuts an expiry are
    not modelled. *)

From Stdlib Require Import Ascii String ZArith Lia.
From S2P Require Export TypedStore Interleave Sign Ulid.

(** server/internal/store/registration_tokens.go:19-31 [registrationTokenStreamType] *)
Definition registrationTokenStreamType : string := "registration-token".
Definition maxRegistrationTokenOwnerBytes : Z := 256.
Definition maxGatewayDNSNames : Z := 16.
Definition maxDNSNameBytes : Z := 253.

(** server/internal/store/registration_tokens.go:36-41 [RegistrationTokenPurpose] *)
Definition RegistrationTokenPurposeAgent : string := "agent".
Definition RegistrationTokenPurposeGateway : string := "gateway".

(** server/internal/store/registration_tokens.go:45-56 [RegistrationToken], and
    the row of [registration_tokens] it is read from *)
Record RegistrationToken := mkRegistrationToken {
  rt_Hash : string;
  rt_Purpose : string;
  rt_DNSNames : list string;
  rt_MaxUses : Z;
  rt_Uses : Z;
  rt_ExpiresAt : time;
  rt_Owner : string;
  rt_Disabled : bool;
  rt_ProjectionVersion : Z;
}.

(** server/internal/store/registration_tokens.go:71-95 [registrationTokenMintedPayload]:
    the payloads of the six event types *)
Inductive tokenPayload :=
| registrationTokenMinted (TokenHash : string) (MaxUses : Z) (ExpiresAt : time) (Owner : string)
| gatewayTokenMinted (TokenHash : string) (MaxUses : Z) (ExpiresAt : time) (Owner : string) (DNSNames : list string)
| registrationTokenConsumed
| registrationTokenDisabled
| registrationTokenUpdated (MaxUses : Z) (ExpiresAt : time) (Owner : string) (Disabled : bool)
| registrationTokenDeleted.

Notation TokenTable := (gmap string RegistrationToken).
Definition TokenEvent : Type := TypedEvent tokenPayload.
Definition TokenRow : Type := TypedRow tokenPayload.
Definition TokenDB : Type := TypedDB tokenPayload TokenTable.

(** ** Validation *)

(** server/internal/store/registration_tokens.go:427-432 [canonicalRegistrationTokenID] *)
Definition canonicalRegistrationTokenID (tokenID : string) : result goerr string :=
  wrap_err (fun m => EWrap "store: invalid registration-token ID" (EMsg m)) (ULIDPathID tokenID) ≫= fun _ =>
  Ok (to_upper tokenID).

(** server/internal/store/registration_tokens.go:444-452 [validateRegistrationTokenOwner] *)
Definition validateRegistrationTokenOwner (owner : string) : result goerr unit :=
  fail_if (negb (valid_utf8 owner) || contains_byte "000" owner)
    (EMsg "store: registration-token owner is invalid") ≫= fun _ =>
  fail_if (maxRegistrationTokenOwnerBytes <? len owner) (EMsg "store: registration-token owner exceeds the limit").

(** server/internal/store/registration_tokens.go:434-442 [validateRegistrationTokenMetadata] *)
Definition validateRegistrationTokenMetadata (maxUses : Z) (expiresAt : time) (owner : string) : result goerr unit :=
  fail_if (maxUses <=? 0) (EMsg "store: registration-token max uses must be positive") ≫= fun _ =>
  fail_if (time_is_zero expiresAt) (EMsg "store: registration-token expiry is zero") ≫= fun _ =>
  validateRegistrationTokenOwner owner.

(** One field of a dotted-decimal address: at most 255, no leading zero. *)
Definition ipv4_field (field : string) : bool :=
  match list_ascii_of_string field with
  | [] => false
  | [c] => is_digit c
  | c :: cs => negb (Ascii.eqb c "0") && forallb is_digit (c :: cs)
               && (fold_left (fun n d => n * 10 + (byte_of d - 48)) (c :: cs) 0 <=? 255)
  end.

(** [net.ParseIP(name) != nil] of a name without colons; one with a colon is
    refused by the label check in any case. *)
Definition is_ip (name : string) : bool :=
  let fields := split_on "." name in (zlen fields =? 4) && forallb ipv4_field fields.

(** One character of a label. *)
Definition label_char (c : ascii) : bool := is_lower c || is_upper c || is_digit c || Ascii.eqb c "-".

Definition trim_dot (name : string) : string :=
  if has_suffix "." name then String.substring 0 (String.length name - 1) name else name.

(** server/internal/store/registration_tokens.go:483-503 [validGatewayDNSName] *)
Definition validGatewayDNSName (name : string) : bool :=
  negb ((len name =? 0) || (maxDNSNameBytes <? len name) || is_ip name)
  && (let trimmed := trim_dot name in
      negb (len trimmed =? 0)
      && forallb (fun label =>
           negb ((len label =? 0) || (63 <? len label) || has_prefix "-" label || has_suffix "-" label)
           && string_forallb label_char label) (split_on "." trimmed)).

Definition lower_ascii (c : ascii) : ascii := if is_upper c then ascii_of_byte (byte_of c + 32) else c.
Definition to_lower (s : string) : string := string_of_list_ascii (lower_ascii <$> list_ascii_of_string s).

(** server/internal/store/registration_tokens.go:470-480 [validateRegistrationTokenPurpose]:
    the loop, over the names seen so far *)
Fixpoint check_dns_names (seen : gset string) (names : list string) : result goerr unit :=
  match names with
  | [] => Ok tt
  | name :: rest =>
      fail_if (negb (validGatewayDNSName name)) (EMsg "store: invalid gateway DNS name") ≫= fun _ =>
      let key := to_lower (trim_dot name) in
      fail_if (bool_decide (key ∈ seen)) (EMsg "store: duplicate gateway DNS name") ≫= fun _ =>
      check_dns_names ({[key]} ∪ seen) rest
  end.

(** server/internal/store/registration_tokens.go:454-481 [validateRegistrationTokenPurpose] *)
Definition validateRegistrationTokenPurpose (purpose : string) (dnsNames : list string) : result goerr (list string) :=
  if String.eqb purpose RegistrationTokenPurposeAgent then
    fail_if (negb (zlen dnsNames =? 0)) (EMsg "store: agent registration token must not contain DNS names") ≫= fun _ =>
    Ok []
  else if String.eqb purpose RegistrationTokenPurposeGateway then
    fail_if ((zlen dnsNames =? 0) || (maxGatewayDNSNames <? zlen dnsNames))
      (EMsg "store: gateway registration token must contain DNS names") ≫= fun _ =>
    check_dns_names ∅ dnsNames ≫= fun _ => Ok dnsNames
  else Err (EMsg "store: registration-token purpose is invalid").

(** [Time.MarshalJSON] refuses a year outside 0..9999. *)
Definition marshal_time (t : time) : result goerr unit :=
  fail_if ((t <? -62167219200 * second) || (253402300800 * second <=? t))
    (EMsg "Time.MarshalJSON: year outside of range [0,9999]").

(** ** Events *)

Definition registrationTokenEvent (tokenID : string) (payload : tokenPayload) : TokenEvent :=
  mkTypedEvent registrationTokenStreamType tokenID payload.

(** server/internal/store/registration_tokens.go:99-123 [RegistrationTokenMintedEvent] *)
Definition RegistrationTokenMintedEvent (tokenID hash : string) (maxUses : Z) (expiresAt : time) (owner : string)
    : result goerr TokenEvent :=
  canonicalRegistrationTokenID tokenID ≫= fun tokenID =>
  validateRegistrationTokenMetadata maxUses expiresAt owner ≫= fun _ =>
  wrap_err (EWrap "store: encode registration-token mint") (marshal_time expiresAt) ≫= fun _ =>
  Ok (registrationTokenEvent tokenID (registrationTokenMinted hash maxUses expiresAt owner)).

(** server/internal/store/registration_tokens.go:127-157 [GatewayRegistrationTokenMintedEvent] *)
Definition GatewayRegistrationTokenMintedEvent (tokenID hash : string) (maxUses : Z) (expiresAt : time)
    (owner : string) (dnsNames : list string) : result goerr TokenEvent :=
  canonicalRegistrationTokenID tokenID ≫= fun tokenID =>
  validateRegistrationTokenMetadata maxUses expiresAt owner ≫= fun _ =>
  validateRegistrationTokenPurpose RegistrationTokenPurposeGateway dnsNames ≫= fun dnsNames =>
  wrap_err (EWrap "store: encode gateway registration-token mint") (marshal_time expiresAt) ≫= fun _ =>
  Ok (registrationTokenEvent tokenID (gatewayTokenMinted hash maxUses expiresAt owner dnsNames)).

(** server/internal/store/registration_tokens.go:160-170 [RegistrationTokenConsumedEvent] *)
Definition RegistrationTokenConsumedEvent (tokenID : string) : result goerr TokenEvent :=
  canonicalRegistrationTokenID tokenID ≫= fun tokenID => Ok (registrationTokenEvent tokenID registrationTokenConsumed).

(** server/internal/store/registration_tokens.go:173-183 [RegistrationTokenDisabledEvent] *)
Definition RegistrationTokenDisabledEvent (tokenID : string) : result goerr TokenEvent :=
  canonicalRegistrationTokenID tokenID ≫= fun tokenID => Ok (registrationTokenEvent tokenID registrationTokenDisabled).

(** server/internal/store/registration_tokens.go:187-211 [RegistrationTokenUpdatedEvent] *)
Definition RegistrationTokenUpdatedEvent (tokenID : string) (maxUses : Z) (expiresAt : time) (owner : string)
    (disabled : bool) : result goerr TokenEvent :=
  canonicalRegistrationTokenID tokenID ≫= fun tokenID =>
  validateRegistrationTokenMetadata maxUses expiresAt owner ≫= fun _ =>
  wrap_err (EWrap "store: encode registration-token update") (marshal_time expiresAt) ≫= fun _ =>
  Ok (registrationTokenEvent tokenID (registrationTokenUpdated maxUses expiresAt owner disabled)).

(** server/internal/store/registration_tokens.go:214-224 [RegistrationTokenDeletedEvent] *)
Definition RegistrationTokenDeletedEvent (tokenID : string) : result goerr TokenEvent :=
  canonicalRegistrationTokenID tokenID ≫= fun tokenID => Ok (registrationTokenEvent tokenID registrationTokenDeleted).

(** ** Queries *)

(** server/internal/store/queries/registration_tokens.sql:1-26 [UpsertRegistrationToken]
    under the unique constraint on the hash *)
Definition UpsertRegistrationToken (id : string) (version : Z) (hash purpose : string) (dnsNames : list string)
    (maxUses : Z) (expiresAt : time) (owner : string) (t : TokenTable) : result goerr (TokenTable * Z) :=
  let row := mkRegistrationToken hash purpose dnsNames maxUses 0 expiresAt owner false version in
  fail_if (bool_decide (Exists (fun p => p.1 <> id /\ rt_Hash p.2 = hash) (map_to_list t)))
    (EPg "23505" "registration_tokens_token_hash_key") ≫= fun _ =>
  match t !! id with
  | Some old => if rt_ProjectionVersion old <? version then Ok (<[id := row]> t, 1) else Ok (t, 0)
  | None => Ok (<[id := row]> t, 1)
  end.

(** server/internal/store/queries/registration_tokens.sql:28-36 [ProjectRegistrationTokenConsume] *)
Definition ProjectRegistrationTokenConsume (id : string) (version : Z) (t : TokenTable) : TokenTable * Z :=
  match t !! id with
  | Some r =>
      if (rt_ProjectionVersion r <? version) && negb (rt_Disabled r) && (rt_Uses r <? rt_MaxUses r)
      then (<[id := mkRegistrationToken (rt_Hash r) (rt_Purpose r) (rt_DNSNames r) (rt_MaxUses r) (rt_Uses r + 1)
                      (rt_ExpiresAt r) (rt_Owner r) (rt_Disabled r) version]> t, 1)
      else (t, 0)
  | None => (t, 0)
  end.

(** server/internal/store/queries/registration_tokens.sql:38-45 [ProjectRegistrationTokenDisable] *)
Definition ProjectRegistrationTokenDisable (id : string) (version : Z) (t : TokenTable) : TokenTable * Z :=
  match t !! id with
  | Some r =>
      if (rt_ProjectionVersion r <? version) && negb (rt_Disabled r)
      then (<[id := mkRegistrationToken (rt_Hash r) (rt_Purpose r) (rt_DNSNames r) (rt_MaxUses r) (rt_Uses r)
                      (rt_ExpiresAt r) (rt_Owner r) true version]> t, 1)
      else (t, 0)
  | None => (t, 0)
  end.

(** server/internal/store/queries/registration_tokens.sql:66-76 [ReplaceRegistrationTokenMetadata] *)
Definition ReplaceRegistrationTokenMetadata (id : string) (version : Z) (maxUses : Z) (expiresAt : time)
    (owner : string) (disabled : bool) (t : TokenTable) : TokenTable * Z :=
  match t !! id with
  | Some r =>
      if (rt_ProjectionVersion r =? version - 1) && (rt_Uses r <=? maxUses)
      then (<[id := mkRegistrationToken (rt_Hash r) (rt_Purpose r) (rt_DNSNames r) maxUses (rt_Uses r)
                      expiresAt owner (rt_Disabled r || disabled) version]> t, 1)
      else (t, 0)
  | None => (t, 0)
  end.

(** server/internal/store/queries/registration_tokens.sql:78-81 [DeleteRegistrationTokenProjection] *)
Definition DeleteRegistrationTokenProjection (id : string) (version : Z) (t : TokenTable) : TokenTable * Z :=
  match t !! id with
  | Some r => if rt_ProjectionVersion r =? version - 1 then (delete id t, 1) else (t, 0)
  | None => (t, 0)
  end.

(** ** Projectors *)

Definition errRegistrationTokenExists : goerr := ESentinel "store: registration token already exists".

(** server/internal/store/registration_tokens.go:796-820 [validateRegistrationTokenProjectionResult] *)
Definition validateRegistrationTokenProjectionResult (id : string) (version : Z) (p : TokenTable * Z)
    : result goerr TokenTable :=
  let '(t, affected) := p in
  if affected =? 1 then Ok t
  else
    or_err (t !! id) (EMsg "store: registration token has no minted projection") ≫= fun row =>
    fail_if (rt_ProjectionVersion row <? version)
      (EMsg "store: registration-token event is invalid for the current state") ≫= fun _ => Ok t.

(** server/internal/store/registration_tokens.go:607-674 [projectRegistrationTokenMint] *)
Definition projectRegistrationTokenMint (id : string) (version : Z) (hash purpose : string) (dnsNames : list string)
    (maxUses : Z) (expiresAt : time) (owner : string) (t : TokenTable) : result goerr TokenTable :=
  fail_if (negb (version =? 1))
    (EWrap "store: registration-token mint must be stream version 1" errRegistrationTokenExists) ≫= fun _ =>
  fail_if (negb (len hash =? 32)) (EMsg "store: registration-token mint payload has an invalid hash") ≫= fun _ =>
  validateRegistrationTokenMetadata maxUses expiresAt owner ≫= fun _ =>
  validateRegistrationTokenPurpose purpose dnsNames ≫= fun dnsNames =>
  wrap_err (EWrap "store: project registration-token mint")
    (UpsertRegistrationToken id version hash purpose dnsNames maxUses expiresAt owner t) ≫= fun p =>
  validateRegistrationTokenProjectionResult id version p.

(** server/internal/store/registration_tokens.go:676-695 [projectRegistrationTokenConsume] *)
Definition projectRegistrationTokenConsume (id : string) (version : Z) (t : TokenTable) : result goerr TokenTable :=
  fail_if (version <=? 1) (EMsg "store: registration-token consume requires a prior mint") ≫= fun _ =>
  validateRegistrationTokenProjectionResult id version (ProjectRegistrationTokenConsume id version t).

(** server/internal/store/registration_tokens.go:697-716 [projectRegistrationTokenDisable] *)
Definition projectRegistrationTokenDisable (id : string) (version : Z) (t : TokenTable) : result goerr TokenTable :=
  fail_if (version <=? 1) (EMsg "store: registration-token disable requires a prior mint") ≫= fun _ =>
  validateRegistrationTokenProjectionResult id version (ProjectRegistrationTokenDisable id version t).

(** server/internal/store/registration_tokens.go:718-761 [projectRegistrationTokenUpdate] *)
Definition projectRegistrationTokenUpdate (id : string) (version : Z) (maxUses : Z) (expiresAt : time)
    (owner : string) (disabled : bool) (t : TokenTable) : result goerr TokenTable :=
  fail_if (version <=? 1) (EMsg "store: registration-token update requires a prior mint") ≫= fun _ =>
  validateRegistrationTokenMetadata maxUses expiresAt owner ≫= fun _ =>
  or_err (t !! id) (EWrap "store: inspect registration token before update" ErrNoRows) ≫= fun current =>
  fail_if (maxUses <? rt_Uses current)
    (EMsg "store: registration-token max uses cannot be lower than current uses") ≫= fun _ =>
  validateRegistrationTokenProjectionResult id version
    (ReplaceRegistrationTokenMetadata id version maxUses expiresAt owner disabled t).

(** server/internal/store/registration_tokens.go:763-787 [projectRegistrationTokenDelete] *)
Definition projectRegistrationTokenDelete (id : string) (version : Z) (t : TokenTable) : result goerr TokenTable :=
  fail_if (version <=? 1) (EMsg "store: registration-token deletion requires a prior mint") ≫= fun _ =>
  let '(t, affected) := DeleteRegistrationTokenProjection id version t in
  fail_if (negb (affected =? 1)) (EMsg "store: registration-token deletion affected other than one row") ≫= fun _ => Ok t.

(** server/internal/store/registration_tokens.go:505-572 [registrationTokenEventDefinitions]:
    the projector of each event type *)
Definition projectToken (row : TokenRow) : TokenTable -> result goerr TokenTable :=
  let id := te_StreamID (ty_Event row) in
  let version := ty_Version row in
  match te_Payload (ty_Event row) with
  | registrationTokenMinted hash maxUses expiresAt owner =>
      projectRegistrationTokenMint id version hash RegistrationTokenPurposeAgent [] maxUses expiresAt owner
  | gatewayTokenMinted hash maxUses expiresAt owner dnsNames =>
      projectRegistrationTokenMint id version hash RegistrationTokenPurposeGateway dnsNames maxUses expiresAt owner
  | registrationTokenConsumed => projectRegistrationTokenConsume id version
  | registrationTokenDisabled => projectRegistrationTokenDisable id version
  | registrationTokenUpdated maxUses expiresAt owner disabled =>
      projectRegistrationTokenUpdate id version maxUses expiresAt owner disabled
  | registrationTokenDeleted => projectRegistrationTokenDelete id version
  end.

(** ** Reads *)

(** server/internal/store/registration_tokens.go:363-400 [registrationTokenFromRow] *)
Definition registrationTokenFromRow (row : RegistrationToken) : result goerr RegistrationToken :=
  fail_if (rt_ProjectionVersion row <=? 0)
    (EMsg "store: registration-token projection has an invalid version") ≫= fun _ =>
  fail_if (negb (len (rt_Hash row) =? 32)) (EMsg "store: registration-token projection has an invalid hash") ≫= fun _ =>
  wrap_err (EWrap "store: invalid registration-token projection")
    (validateRegistrationTokenMetadata (rt_MaxUses row) (rt_ExpiresAt row) (rt_Owner row)) ≫= fun _ =>
  wrap_err (EWrap "store: invalid registration-token projection")
    (validateRegistrationTokenPurpose (rt_Purpose row) (rt_DNSNames row)) ≫= fun _ =>
  fail_if ((rt_Uses row <? 0) || (rt_MaxUses row <? rt_Uses row))
    (EMsg "store: registration-token projection has an invalid use count") ≫= fun _ => Ok row.

(** server/internal/store/registration_tokens.go:227-248 [Store.RegistrationToken]:
    the canonical identifier and the state *)
Definition ReadRegistrationToken (fault : option goerr) (tokenID : string) (t : TokenTable)
    : result goerr (string * RegistrationToken) :=
  canonicalRegistrationTokenID tokenID ≫= fun tokenID =>
  wrap_err (EWrap "store: read registration token") (may_fault fault ≫= fun _ => or_err (t !! tokenID) ErrNoRows) ≫= fun row =>
  registrationTokenFromRow row ≫= fun state => Ok (tokenID, state).

(** server/internal/store/registration_tokens.go:311-348 [registrationTokenMetadataFromValues]:
    what management sees of a row *)
Definition registrationTokenMetadataFromValues (tokenID : string) (row : RegistrationToken)
    : result goerr (string * string * list string * Z * Z * time * string * bool * Z) :=
  match canonicalRegistrationTokenID tokenID with
  | Ok canonicalID =>
      fail_if (negb (String.eqb canonicalID tokenID) || (rt_ProjectionVersion row <=? 0))
        (EMsg "store: registration-token metadata is invalid")
  | Err _ => Err (EMsg "store: registration-token metadata is invalid")
  end ≫= fun _ =>
  wrap_err (EWrap "store: invalid registration-token metadata")
    (validateRegistrationTokenMetadata (rt_MaxUses row) (rt_ExpiresAt row) (rt_Owner row)) ≫= fun _ =>
  wrap_err (EWrap "store: invalid registration-token metadata")
    (validateRegistrationTokenPurpose (rt_Purpose row) (rt_DNSNames row)) ≫= fun dnsNames =>
  fail_if ((rt_Uses row <? 0) || (rt_MaxUses row <? rt_Uses row))
    (EMsg "store: registration-token metadata has an invalid use count") ≫= fun _ =>
  Ok (tokenID, rt_Purpose row, dnsNames, rt_MaxUses row, rt_Uses row, rt_ExpiresAt row, rt_Owner row,
      rt_Disabled row, rt_ProjectionVersion row).

(** server/internal/store/registration_tokens.go:280-309 [ListRegistrationTokens];
    [registration_tokens.sql:58-63] orders by identifier *)
Definition ListRegistrationTokens (fault : option goerr) (limit : Z) (t : TokenTable) :=
  fail_if ((limit <? 1) || (200 <? limit)) (EMsg "store: invalid registration-token list") ≫= fun _ =>
  wrap_err (EWrap "store: list registration tokens") (may_fault fault) ≫= fun _ =>
  let ids := take (Z.to_nat limit) (sort_strings (map_to_list t).*1) in
  map_result (fun id => or_err (t !! id) ErrNoRows ≫= registrationTokenMetadataFromValues id) ids.

(** server/internal/store/registration_tokens.go:789-794 [resetRegistrationTokens] *)
Definition resetRegistrationTokens (_ : TokenTable) : TokenTable := ∅.

(** ** The service *)

(** server/internal/pki/registration_tokens.go:20-34 [registrationTokenSecretBytes] *)
Definition registrationTokenSecretBytes : Z := 32.
Definition registrationTokenEntropyBytes : Z := 10.
Definition registrationTokenMaterialBytes : Z := registrationTokenEntropyBytes + registrationTokenSecretBytes.
Definition registrationTokenWireLen : Z := 26 + 1 + 43.
Definition maxRegistrationCASAttempts : nat := 1024.
Definition maxULIDTimestamp : Z := Z.shiftl 1 48 - 1.
Definition dummyRegistrationTokenID : string := "00000000000000000000000000".
Definition ulidAlphabet : string := "0123456789ABCDEFGHJKMNPQRSTVWXYZ".

(** server/internal/pki/registration_tokens.go:36-40 [ErrInvalidRegistrationToken] *)
Definition ErrInvalidRegistrationToken : goerr := ESentinel "registration token rejected".

(** *** Base64 *)

Definition base64url : string := "ABCDEFGHIJKLMNOPQRSTUVWXYZabcdefghijklmnopqrstuvwxyz0123456789-_".

Definition sextet (c : ascii) : option Z :=
  (fun p => Z.of_nat p.1) <$> list_find (c =.) (list_ascii_of_string base64url).

(** [base64.RawURLEncoding] without its line breaks: groups of four characters
    hold three bytes; two or three left over hold one or two, and the spare bits
    are not looked at. *)
Fixpoint decode_groups (cs : list Z) : option (list Z) :=
  match cs with
  | [] => Some []
  | a :: b :: c :: d :: rest =>
      (fun l => Z.lor (Z.shiftl a 2) (Z.shiftr b 4) :: Z.lor (Z.shiftl (Z.land b 15) 4) (Z.shiftr c 2)
                :: Z.lor (Z.shiftl (Z.land c 3) 6) d :: l) <$> decode_groups rest
  | [a; b; c] => Some [Z.lor (Z.shiftl a 2) (Z.shiftr b 4); Z.lor (Z.shiftl (Z.land b 15) 4) (Z.shiftr c 2)]
  | [a; b] => Some [Z.lor (Z.shiftl a 2) (Z.shiftr b 4)]
  | [_] => None
  end.

Definition RawURLDecode (s : string) : option (list Z) :=
  mapM sextet (filter (fun c => c <> "010"%char /\ c <> "013"%char) (list_ascii_of_string s)) ≫= decode_groups.

Definition sextet_char (v : Z) : ascii := default "A"%char (list_ascii_of_string base64url !! Z.to_nat v).

Fixpoint encode_groups (bs : list Z) : list Z :=
  match bs with
  | [] => []
  | a :: b :: c :: rest =>
      Z.shiftr a 2 :: Z.lor (Z.shiftl (Z.land a 3) 4) (Z.shiftr b 4)
      :: Z.lor (Z.shiftl (Z.land b 15) 2) (Z.shiftr c 6) :: Z.land c 63 :: encode_groups rest
  | [a; b] => [Z.shiftr a 2; Z.lor (Z.shiftl (Z.land a 3) 4) (Z.shiftr b 4); Z.shiftl (Z.land b 15) 2]
  | [a] => [Z.shiftr a 2; Z.shiftl (Z.land a 3) 4]
  end.

Definition RawURLEncode (bs : list Z) : string := string_of_list_ascii (sextet_char <$> encode_groups bs).

(** *** Identifiers *)

(** server/internal/pki/registration_tokens.go:392-401 [encodeULID]: the inner
    loop; twelve bits hold at most two symbols *)
Fixpoint drain (fuel : nat) (buffer bits : Z) (out : list ascii) : Z * Z * list ascii :=
  match fuel with
  | O => (buffer, bits, out)
  | S fuel =>
      if bits <? 5 then (buffer, bits, out)
      else
        let symbol := default "0"%char
          (list_ascii_of_string ulidAlphabet !! Z.to_nat (Z.land (Z.shiftr buffer (bits - 5)) 31)) in
        let bits := bits - 5 in
        drain fuel (if bits =? 0 then 0 else Z.land buffer (Z.shiftl 1 bits - 1)) bits (out ++ [symbol])
  end.

(** server/internal/pki/registration_tokens.go:387-410 [encodeULID] *)
Definition encodeULID (raw : list Z) : string :=
  let '(_, _, out) :=
    fold_left (fun '(buffer, bits, out) value =>
      drain 3 (Z.lor (wrap_u 32 (Z.shiftl buffer 8)) value) (bits + 8) out) raw (0, 2, []) in
  string_of_list_ascii out.

(** server/internal/pki/registration_tokens.go:368-385 [newRegistrationTokenID] *)
Definition newRegistrationTokenID (now : time) (entropy : list Z) : result goerr string :=
  fail_if (negb (zlen entropy =? registrationTokenEntropyBytes))
    (EMsg "pki: registration-token ULID entropy has the wrong length") ≫= fun _ =>
  let milliseconds := time_unix_milli now in
  fail_if ((milliseconds <? 0) || (maxULIDTimestamp <? milliseconds))
    (EMsg "pki: registration-token time is outside the ULID range") ≫= fun _ =>
  Ok (encodeULID (((fun shift => wrap_u 8 (Z.shiftr milliseconds shift)) <$> [40; 32; 24; 16; 8; 0]) ++ entropy)).

(** server/internal/pki/registration_tokens.go:350-366 [parseRegistrationToken]: the
    identifier and secret to look up, and whether the token is well formed *)
Definition parseRegistrationToken (rawToken : string) : string * list Z * bool :=
  let bad := (dummyRegistrationTokenID, repeat 0 32, false) in
  if negb (len rawToken =? registrationTokenWireLen)
     || negb (bool_decide (String.get 26 rawToken = Some "."%char)) then bad
  else
    let tokenID := String.substring 0 26 rawToken in
    if negb (IsCanonicalULID tokenID) then bad
    else match RawURLDecode (String.substring 27 43 rawToken) with
         | Some decoded => if zlen decoded =? registrationTokenSecretBytes then (tokenID, decoded, true) else bad
         | None => bad
         end.

(** server/internal/pki/registration_tokens.go:51-57 [RegistrationTokenOptions] *)
Record RegistrationTokenOptions := mkRegistrationTokenOptions {
  ro_Purpose : string; ro_MaxUses : Z; ro_ExpiresAt : time; ro_Owner : string; ro_DNSNames : list string }.

(** server/internal/pki/registration_tokens.go:60-63 [MintedRegistrationToken] *)
Record MintedRegistrationToken := mkMintedRegistrationToken { mt_TokenID : string; mt_Token : string }.

(** server/internal/pki/registration_tokens.go:66-71 [RegistrationTokenGrant] *)
Record RegistrationTokenGrant := mkRegistrationTokenGrant {
  rg_TokenID : string; rg_Owner : string; rg_Purpose : string; rg_DNSNames : list string }.

(** server/internal/pki/registration_tokens.go:229-261 [registrationTokenMintedEvent] *)
Definition registrationTokenMintedEvent (tokenID hash : string) (options : RegistrationTokenOptions)
    : result goerr TokenEvent :=
  if String.eqb (ro_Purpose options) RegistrationTokenPurposeAgent then
    fail_if (negb (zlen (ro_DNSNames options) =? 0))
      (EMsg "pki: agent registration token must not contain DNS names") ≫= fun _ =>
    RegistrationTokenMintedEvent tokenID hash (ro_MaxUses options) (ro_ExpiresAt options) (ro_Owner options)
  else if String.eqb (ro_Purpose options) RegistrationTokenPurposeGateway then
    fail_if (zlen (ro_DNSNames options) =? 0)
      (EMsg "pki: gateway registration token must contain at least one DNS name") ≫= fun _ =>
    GatewayRegistrationTokenMintedEvent tokenID hash (ro_MaxUses options) (ro_ExpiresAt options) (ro_Owner options)
      (ro_DNSNames options)
  else Err (EMsg "pki: registration-token purpose is invalid").

(** What decides one action: the append's outcome, a failing read, the clock,
    the random bytes, and a wait that ends early or a context that has ended. *)
Record TokenEnv := mkTokenEnv {
  tn_append : AppendEnv;
  tn_read : option goerr;
  tn_now : time;
  tn_random : option (list Z);
  tn_wait : option goerr;
}.

Definition TokenProg (A : Type) : Type := prog TokenEnv TokenDB (result goerr A).

Definition now_prog : prog TokenEnv TokenDB time := look (fun env _ => tn_now env).
Definition append_token (event : TokenEvent) (expected : Z) : TokenProg unit :=
  act (fun env db => AppendPinned projectToken (tn_append env) event expected db).
Definition wait_prog : TokenProg unit := look (fun env _ => may_fault (tn_wait env)).

(** [io.ReadFull] of the 42 bytes of material. *)
Definition read_material : TokenProg (list Z) :=
  look (fun env _ =>
    match tn_random env with
    | Some material => if zlen material <? registrationTokenMaterialBytes
                       then Err (EMsg "pki: generate registration token") else Ok (take 42 material)
    | None => Err (EMsg "pki: generate registration token")
    end).

Section Service.
Context {schemes : Schemes}.

(** server/internal/pki/registration_tokens.go:115-160 [RegistrationTokens.Mint] *)
Definition Mint (options : RegistrationTokenOptions) : TokenProg MintedRegistrationToken :=
  bind_prog now_prog (fun now =>
  if ro_ExpiresAt options <=? now then Ret (Err (EMsg "pki: registration-token expiry must be in the future"))
  else
    try_prog (Ret (wrap_err (EWrap "pki: validate registration-token options")
                     (registrationTokenMintedEvent dummyRegistrationTokenID (string_of_bytes (repeat 0 32)) options))) (fun _ =>
    try_prog read_material (fun material =>
    try_prog (Ret (newRegistrationTokenID now (take 10 material))) (fun tokenID =>
    let secret := drop 10 material in
    try_prog (Ret (wrap_err (EWrap "pki: create registration-token mint event")
                     (registrationTokenMintedEvent tokenID (sha256 secret) options))) (fun event =>
    bind_prog (append_token event 0) (fun r =>
    Ret (wrap_err (EWrap "pki: persist registration-token mint") r ≫= fun _ =>
         Ok (mkMintedRegistrationToken tokenID (tokenID +:+ "." +:+ RawURLEncode secret))))))))).

(** server/internal/pki/registration_tokens.go:329-341 [registrationTokenState]: the
    dummy state of an unknown token never matches, whatever its hash *)
Definition registrationTokenState (tokenID : string) : TokenProg (option (string * RegistrationToken)) :=
  look (fun env db =>
    match ReadRegistrationToken (tn_read env) tokenID (td_tables db) with
    | Ok state => Ok (Some state)
    | Err e => if IsNotFound e then Ok None else Err (EWrap "pki: read registration token" e)
    end).

(** server/internal/pki/registration_tokens.go:343-348 [reject] *)
Definition reject {A} : TokenProg A := try_prog wait_prog (fun _ => Ret (Err ErrInvalidRegistrationToken)).

(** server/internal/pki/registration_tokens.go:305-317 [waitForCASRetry]; [last] is
    the test on the attempt number *)
Definition waitForCASRetry (last : bool) : TokenProg unit :=
  try_prog wait_prog (fun _ =>
  if last then Ret (Err (EMsg "pki: registration token exceeded CAS retry limit")) else wait_prog).

(** server/internal/pki/registration_tokens.go:178-226 [Consume]: the attempts *)
Fixpoint consume_attempts (attempts : nat) (tokenID : string) (secret : list Z) (wellFormed : bool)
    (expectedPurpose : string) : TokenProg RegistrationTokenGrant :=
  match attempts with
  | O => Ret (Err (EMsg "pki: registration-token consume exceeded CAS retry limit"))
  | S attempts =>
      try_prog (registrationTokenState tokenID) (fun found =>
      match found with
      | None => reject
      | Some (id, state) =>
          if negb (wellFormed && String.eqb (sha256 secret) (rt_Hash state)) then reject
          else if rt_Disabled state then reject
          else bind_prog now_prog (fun now =>
            if rt_ExpiresAt state <=? now then reject
            else if rt_MaxUses state <=? rt_Uses state then reject
            else if negb (String.eqb (rt_Purpose state) expectedPurpose) then reject
            else
              try_prog (Ret (wrap_err (EWrap "pki: create registration-token consume event")
                               (RegistrationTokenConsumedEvent id))) (fun event =>
              bind_prog (append_token event (rt_ProjectionVersion state)) (fun r =>
              match r with
              | Ok _ => Ret (Ok (mkRegistrationTokenGrant id (rt_Owner state) (rt_Purpose state) (rt_DNSNames state)))
              | Err e =>
                  if IsVersionConflict e
                  then try_prog (waitForCASRetry (Nat.eqb attempts 0)) (fun _ =>
                       consume_attempts attempts tokenID secret wellFormed expectedPurpose)
                  else Ret (Err (EWrap "pki: persist registration-token consume" e))
              end)))
      end)
  end.

(** server/internal/pki/registration_tokens.go:163-227 [RegistrationTokens.Consume] *)
Definition Consume (rawToken expectedPurpose : string) : TokenProg RegistrationTokenGrant :=
  if negb (String.eqb expectedPurpose RegistrationTokenPurposeAgent)
     && negb (String.eqb expectedPurpose RegistrationTokenPurposeGateway)
  then Ret (Err (EMsg "pki: invalid expected registration-token purpose"))
  else
    let '(tokenID, secret, wellFormed) := parseRegistrationToken rawToken in
    consume_attempts maxRegistrationCASAttempts tokenID secret wellFormed expectedPurpose.

(** server/internal/pki/registration_tokens.go:264-293 [RegistrationTokens.Disable] *)
Fixpoint disable_attempts (attempts : nat) (tokenID : string) : TokenProg unit :=
  match attempts with
  | O => Ret (Err (EMsg "pki: registration-token disable exceeded CAS retry limit"))
  | S attempts =>
      try_prog (look (fun env db => wrap_err (EWrap "pki: read registration token for disable")
                                      (ReadRegistrationToken (tn_read env) tokenID (td_tables db)))) (fun '(id, state) =>
      if rt_Disabled state then Ret (Ok tt)
      else
        try_prog (Ret (wrap_err (EWrap "pki: create registration-token disable event")
                         (RegistrationTokenDisabledEvent id))) (fun event =>
        bind_prog (append_token event (rt_ProjectionVersion state)) (fun r =>
        match r with
        | Ok _ => Ret (Ok tt)
        | Err e =>
            if IsVersionConflict e
            then try_prog (waitForCASRetry (Nat.eqb attempts 0)) (fun _ => disable_attempts attempts tokenID)
            else Ret (Err (EWrap "pki: persist registration-token disable" e))
        end)))
  end.

Definition Disable (tokenID : string) : TokenProg unit := disable_attempts maxRegistrationCASAttempts tokenID.
End Service.

(** ** The life of a token *)

Definition with_uses (r : RegistrationToken) (uses version : Z) : RegistrationToken :=
  mkRegistrationToken (rt_Hash r) (rt_Purpose r) (rt_DNSNames r) (rt_MaxUses r) uses (rt_ExpiresAt r) (rt_Owner r)
    (rt_Disabled r) version.

(** What one event does to its token: it is minted once, used within its bound
    while it is enabled, disabled for ever, updated within its uses, deleted. *)
Inductive token_step : tokenPayload -> Z -> option RegistrationToken -> option RegistrationToken -> Prop :=
| step_mint payload hash purpose dnsNames maxUses expiresAt owner :
    payload = registrationTokenMinted hash maxUses expiresAt owner
      /\ purpose = RegistrationTokenPurposeAgent /\ dnsNames = []
    \/ payload = gatewayTokenMinted hash maxUses expiresAt owner dnsNames
      /\ purpose = RegistrationTokenPurposeGateway ->
    len hash = 32 -> 0 < maxUses ->
    token_step payload 1 None (Some (mkRegistrationToken hash purpose dnsNames maxUses 0 expiresAt owner false 1))
| step_consume r version :
    rt_Disabled r = false -> rt_Uses r < rt_MaxUses r ->
    token_step registrationTokenConsumed version (Some r) (Some (with_uses r (rt_Uses r + 1) version))
| step_disable r version :
    token_step registrationTokenDisabled version (Some r)
      (Some (mkRegistrationToken (rt_Hash r) (rt_Purpose r) (rt_DNSNames r) (rt_MaxUses r) (rt_Uses r)
               (rt_ExpiresAt r) (rt_Owner r) true version))
| step_update r version maxUses expiresAt owner disabled :
    rt_Uses r <= maxUses ->
    token_step (registrationTokenUpdated maxUses expiresAt owner disabled) version (Some r)
      (Some (mkRegistrationToken (rt_Hash r) (rt_Purpose r) (rt_DNSNames r) maxUses (rt_Uses r)
               expiresAt owner (rt_Disabled r || disabled) version))
| step_delete r version : token_step registrationTokenDeleted version (Some r) None.

Definition is_consumed (payload : tokenPayload) : bool :=
  match payload with registrationTokenConsumed => true | _ => false end.

(** The uses of a token its stream records. *)
Definition consumed_count (id : string) (log : list TokenRow) : nat :=
  length (filter (fun row => of_stream registrationTokenStreamType id row /\ is_consumed (te_Payload (ty_Event row)) = true) log).

Definition replay_tokens (log : list TokenRow) : result goerr TokenTable :=
  fold_result (fun t row => projectToken row t) ∅ log.

(** The table is what the streams say. *)
Record tok_inv (db : TokenDB) : Prop := {
  ti_contiguous : typed_contiguous (td_log db);
  ti_streams : Forall (fun row => te_StreamType (ty_Event row) = registrationTokenStreamType) (td_log db);
  ti_rows : forall id r, td_tables db !! id = Some r ->
    0 < rt_ProjectionVersion r /\ rt_ProjectionVersion r = typed_version registrationTokenStreamType id (td_log db)
    /\ rt_Uses r = Z.of_nat (consumed_count id (td_log db)) /\ rt_Uses r <= rt_MaxUses r /\ len (rt_Hash r) = 32;
  ti_replay : replay_tokens (td_log db) = Ok (td_tables db);
}.

(** Another writer's token event. *)
Definition token_append (db db' : TokenDB) : Prop :=
  exists event, te_StreamType event = registrationTokenStreamType /\ appended projectToken event db db'.

Lemma result_affected id version p t :
  validateRegistrationTokenProjectionResult id version p = Ok t ->
  t = p.1 /\ (p.2 = 1 \/ exists r, p.1 !! id = Some r /\ version <= rt_ProjectionVersion r).
Proof.
  destruct p as [t1 affected]. unfold validateRegistrationTokenProjectionResult. cbn [fst snd].
  destruct (affected =? 1) eqn:E; [intros [= <-]; split; [done|left; by apply Z.eqb_eq]|].
  intros (r & Hr%or_err_ok & H)%bind_ok. apply bind_ok in H as (u & Hv%fail_if_ok & [= <-]).
  split; [done|right]. exists r. split; [done|]. by apply Z.ltb_ge.
Qed.

Lemma mint_ok id version hash purpose dnsNames maxUses expiresAt owner t t' :
  projectRegistrationTokenMint id version hash purpose dnsNames maxUses expiresAt owner t = Ok t' ->
  version = 1 /\ len hash = 32 /\ 0 < maxUses
  /\ exists names, validateRegistrationTokenPurpose purpose dnsNames = Ok names
     /\ (t' = <[id := mkRegistrationToken hash purpose names maxUses 0 expiresAt owner false 1]> t
          /\ (forall r, t !! id = Some r -> rt_ProjectionVersion r < 1)
         \/ exists r, t !! id = Some r /\ version <= rt_ProjectionVersion r).
Proof.
  unfold projectRegistrationTokenMint. intros (u1 & Hv%fail_if_ok%negb_false_iff%Z.eqb_eq & H)%bind_ok.
  apply bind_ok in H as (u2 & Hh%fail_if_ok%negb_false_iff%Z.eqb_eq & H). apply bind_ok in H as (u3 & Hm & H).
  apply bind_ok in H as (names & Hp & H). apply bind_ok in H as ([t1 n] & Hu%wrap_err_ok & H).
  apply bind_ok in Hm as (u4 & Hm%fail_if_ok%Z.leb_gt & _). split_and!; [done..|]. exists names. split; [done|].
  apply result_affected in H as [-> Ha]. cbn [fst snd] in *. unfold UpsertRegistrationToken in Hu.
  apply bind_ok in Hu as (u5 & _ & Hu). cbv zeta in Hu. subst version.
  destruct (t !! id) as [old|] eqn:Eo.
  - destruct (rt_ProjectionVersion old <? 1) eqn:Ep; injection Hu as <- <-.
    + left. split; [done|]. intros r [= <-]. by apply Z.ltb_lt.
    + right. exists old. split; [done|]. by apply Z.ltb_ge.
  - injection Hu as <- <-. by left.
Qed.

Lemma validate_purpose_names purpose dnsNames names :
  validateRegistrationTokenPurpose purpose dnsNames = Ok names ->
  purpose = RegistrationTokenPurposeAgent /\ names = [] \/ purpose = RegistrationTokenPurposeGateway /\ names = dnsNames.
Proof.
  unfold validateRegistrationTokenPurpose. destruct (String.eqb purpose _) eqn:E; [|destruct (String.eqb purpose RegistrationTokenPurposeGateway) eqn:E2].
  - intros (u & _ & [= <-])%bind_ok. left. by apply String.eqb_eq in E.
  - intros (u & _ & H)%bind_ok. apply bind_ok in H as (u2 & _ & [= <-]). right. by apply String.eqb_eq in E2.
  - done.
Qed.

(** A projection on a row that is older than the event. *)
Lemma projectToken_ok row t t' :
  let id := te_StreamID (ty_Event row) in
  (forall r, t !! id = Some r -> 0 < rt_ProjectionVersion r < ty_Version row) ->
  projectToken row t = Ok t' ->
  token_step (te_Payload (ty_Event row)) (ty_Version row) (t !! id) (t' !! id)
  /\ (forall r, t' !! id = Some r -> rt_ProjectionVersion r = ty_Version row)
  /\ forall j, j <> id -> t' !! j = t !! j.
Proof.
  intros id Hpv. assert (Hold : forall r, t !! id = Some r -> ty_Version row <= rt_ProjectionVersion r -> False)
    by (intros r Hr; specialize (Hpv r Hr); lia).
  unfold projectToken. fold id. destruct (te_Payload (ty_Event row)) as [h m x o|h m x o ns| | |m x o d|].
  1,2: intros (Hv & Hh & Hm & names & Hn%validate_purpose_names & [[-> Hfresh]|(r & Hr & Hle)])%mint_ok;
    [|by destruct (Hold r Hr Hle)]; rewrite lookup_insert_eq, Hv;
    (assert (t !! id = None) as -> by
      (destruct (t !! id) as [r|]; [|done]; specialize (Hpv r eq_refl); specialize (Hfresh r eq_refl); lia));
    (split; [|split; [by intros r [= <-]|intros j Hj; by apply lookup_insert_ne]]);
    destruct Hn as [[Hp ->]|[Hp ->]]; try done.
  - by apply step_mint; [left|..].
  - by apply step_mint; [right|..].
  - intros (u1 & _ & H)%bind_ok. apply result_affected in H as [-> Ha]. revert Ha. unfold ProjectRegistrationTokenConsume.
    destruct (t !! id) as [r|] eqn:Er; [|intros [?|(r' & Hr' & _)]; cbn in *; congruence].
    destruct (_ && _) eqn:E; cbn [fst snd]; [|intros [?|(r' & Hr' & Hle)]; [done|by destruct (Hold r' ltac:(congruence) Hle)]].
    intros _. apply andb_true_iff in E as [E Hu%Z.ltb_lt]. apply andb_true_iff in E as [_ Hd%negb_true_iff].
    rewrite lookup_insert_eq. split; [by apply (step_consume r)|].
    split; [by intros r' [= <-]|intros j Hj; by apply lookup_insert_ne].
  - intros (u1 & _ & H)%bind_ok. apply result_affected in H as [-> Ha]. revert Ha. unfold ProjectRegistrationTokenDisable.
    destruct (t !! id) as [r|] eqn:Er; [|intros [?|(r' & Hr' & _)]; cbn in *; congruence].
    destruct (_ && _) eqn:E; cbn [fst snd]; [|intros [?|(r' & Hr' & Hle)]; [done|by destruct (Hold r' ltac:(congruence) Hle)]].
    intros _. rewrite lookup_insert_eq. split; [by apply step_disable|].
    split; [by intros r' [= <-]|intros j Hj; by apply lookup_insert_ne].
  - intros (u1 & _ & H)%bind_ok. apply bind_ok in H as (u2 & _ & H). apply bind_ok in H as (r & Hr%or_err_ok & H).
    apply bind_ok in H as (u3 & _ & H). apply result_affected in H as [-> Ha]. revert Ha.
    unfold ReplaceRegistrationTokenMetadata. rewrite Hr.
    destruct (_ && _) eqn:E; cbn [fst snd]; [|intros [?|(r' & Hr' & Hle)]; [done|by destruct (Hold r' ltac:(congruence) Hle)]].
    intros _. apply andb_true_iff in E as [_ Hu%Z.leb_le]. rewrite lookup_insert_eq. split; [by apply step_update|].
    split; [by intros r' [= <-]|intros j Hj; by apply lookup_insert_ne].
  - unfold projectRegistrationTokenDelete, DeleteRegistrationTokenProjection. intros (u1 & _ & H)%bind_ok. revert H.
    destruct (t !! id) as [r|] eqn:Er; [|done]. destruct (_ =? _); [|done].
    intros (u2 & _ & [= <-])%bind_ok. rewrite lookup_delete_eq. split; [by apply (step_delete r)|].
    split; [done|]. intros j Hj. by apply lookup_delete_ne.
Qed.

Lemma consumed_count_snoc id log row :
  consumed_count id (log ++ [row])
  = (consumed_count id log
     + if bool_decide (of_stream registrationTokenStreamType id row) && is_consumed (te_Payload (ty_Event row)) then 1 else 0)%nat.
Proof.
  unfold consumed_count. rewrite filter_app, length_app, filter_cons, filter_nil. f_equal.
  case_decide as H; case_bool_decide; destruct (is_consumed _); cbn; naive_solver.
Qed.

Lemma consumed_count_fresh id log :
  typed_contiguous log -> typed_version registrationTokenStreamType id log = 0 -> consumed_count id log = 0%nat.
Proof.
  intros Hc. rewrite typed_contiguous_version by done. unfold zlen, typed_stream, consumed_count. intros H.
  assert (filter (of_stream registrationTokenStreamType id) log = []) as Hnil by (apply length_zero_iff_nil; lia).
  clear -Hnil. induction log as [|row log IH]; [done|]. rewrite filter_cons in Hnil |- *.
  destruct (decide (of_stream _ _ _)); [done|]. rewrite decide_False by naive_solver. by apply IH.
Qed.

Lemma token_step_uses payload version old new :
  token_step payload version old (Some new) ->
  rt_Uses new = match old with Some r => rt_Uses r | None => 0 end + (if is_consumed payload then 1 else 0)
  /\ (match old with Some r => rt_Uses r <= rt_MaxUses r | None => version = 1 end -> rt_Uses new <= rt_MaxUses new)
  /\ match old with Some r => rt_Hash new = rt_Hash r | None => len (rt_Hash new) = 32 end.
Proof. intros H. inversion H as [p h pu ns m x o [[-> _]|[-> _]]| | | |]; subst; cbn; split_and!; try done; lia. Qed.

Lemma token_step_fresh payload version new : token_step payload version None (Some new) -> version = 1.
Proof. by inversion 1. Qed.

Lemma appended_inv event db db' :
  te_StreamType event = registrationTokenStreamType -> tok_inv db -> appended projectToken event db db' -> tok_inv db'.
Proof.
  intros Hs [Hc Hst Hr Hrep] (now & tables & Hv & Hp & ->). cbv zeta in Hv, Hp.
  set (version := typed_version _ _ _ + 1) in *. set (row := mkTypedRow event version now) in *.
  assert (Hpv : forall r, td_tables db !! te_StreamID event = Some r -> 0 < rt_ProjectionVersion r < version).
  { intros r H. destruct (Hr _ _ H) as (Hpos & Heq & _). unfold version. rewrite Hs, <- Heq. lia. }
  destruct (projectToken_ok row (td_tables db) tables Hpv Hp) as (Hstep & Hver & Hother). cbn [ty_Event ty_Version row] in *.
  split; cbn [td_log td_tables].
  - by apply typed_contiguous_snoc.
  - apply Forall_app. split; [done|]. by apply Forall_singleton.
  - intros id r H. rewrite (typed_version_snoc _ _ _ event version now Hc eq_refl), consumed_count_snoc.
    destruct (decide (id = te_StreamID event)) as [->|Hne].
    + rewrite decide_True by done. rewrite bool_decide_true by done. cbn [andb].
      rewrite H in Hstep. rewrite (Hver r H). destruct (token_step_uses _ _ _ _ Hstep) as (Hu & Hle & Hh).
      destruct (td_tables db !! te_StreamID event) as [old|] eqn:Eo.
      * destruct (Hr _ _ Eo) as (_ & _ & Hu0 & Hle0 & Hh0). rewrite Hh.
        split_and!; [lia|done| |by apply Hle|done]. rewrite Hu, Hu0. destruct (is_consumed _); lia.
      * apply token_step_fresh in Hstep as Hv1. pose proof (consumed_count_fresh (te_StreamID event) _ Hc) as H0.
        rewrite H0 by (unfold version in Hv1; rewrite Hs in Hv1; lia).
        split_and!; [lia|done| |by apply Hle|done]. rewrite Hu. destruct (is_consumed _); lia.
    + rewrite decide_False by (intros [_ ?]; cbn in *; congruence).
      rewrite bool_decide_false by (intros [_ ?]; cbn in *; congruence). cbn [andb].
      rewrite (Hother id Hne) in H. rewrite Nat.add_0_r. by apply Hr.
  - unfold replay_tokens in *. rewrite fold_result_app, Hrep. cbn [mbind result_bind fold_result]. by rewrite Hp.
Qed.

Lemma tok_inv_empty : tok_inv (mkTypedDB [] ∅).
Proof. split; [apply typed_contiguous_nil|constructor| |done]. intros id r H. cbn in H. by rewrite lookup_empty in H. Qed.

(** ** Bounded use *)

Definition consumed_event (id : string) : TokenEvent := registrationTokenEvent id registrationTokenConsumed.

(** A grant is earned by the append of a use of its token. *)
Definition grant_earned (r : result goerr RegistrationTokenGrant) (db db' : TokenDB) : Prop :=
  match r with Ok g => appended projectToken (consumed_event (rg_TokenID g)) db db' | Err _ => True end.

Definition token_move (db db' : TokenDB) : Prop := db' = db \/ token_append db db'.

Definition granted (id : string) (r : result goerr RegistrationTokenGrant) : bool :=
  match r with Ok g => String.eqb (rg_TokenID g) id | Err _ => false end.

Definition no_grant {A} (p : TokenProg A) : Prop := forall g, p <> Ret (Ok g).

Definition earning (p : TokenProg RegistrationTokenGrant) : Prop := no_grant p /\ earns token_move grant_earned p.

Lemma earning_err e : earning (Ret (Err e)).
Proof. by split; [intros g|]. Qed.

Lemma earning_read {A} (q : TokenEnv -> TokenDB -> A) f :
  (forall env db, earning (f (q env db))) -> earning (bind_prog (look q) f).
Proof.
  intros Hf. split; [by intros g|]. intros env s s' x [= <- <-]. destruct (Hf env s) as [Hn He].
  split_and!; [by left| |done]. intros [g|e] Hr; [|done]. by destruct (Hn _ Hr).
Qed.

Lemma earning_read_try {A} (q : TokenEnv -> TokenDB -> result goerr A) f :
  (forall env db x, q env db = Ok x -> earning (f x)) -> earning (try_prog (look q) f).
Proof.
  intros Hf. apply earning_read. intros env db. destruct (q env db) as [x|e] eqn:E; [by eapply Hf|apply earning_err].
Qed.

(** An append that ends the call with a grant, or lets it go on. *)
Lemma earning_append event expected grant (go : goerr -> TokenProg RegistrationTokenGrant) :
  te_StreamType event = registrationTokenStreamType -> event = consumed_event (rg_TokenID grant) ->
  (forall e, earning (go e)) ->
  earning (bind_prog (append_token event expected) (fun r => match r with Ok _ => Ret (Ok grant) | Err e => go e end)).
Proof.
  intros Hs Hev Hgo. split; [by intros g|]. intros env s s' r Hop.
  assert (token_move s s') as Hmove.
  { destruct (AppendPinned_ok _ _ _ _ _ _ _ Hop) as [[-> _]|[_ Ha]]; [by left|right; by exists event]. }
  split; [done|]. destruct r as [u|e].
  - split; [|done]. intros a [= <-]. cbn. rewrite <- Hev.
    by destruct (AppendPinned_ok _ _ _ _ _ _ _ Hop) as [[_ ?]|[_ Ha]].
  - destruct (Hgo e) as [Hn He]. split; [|done]. intros [g|e'] Hr; [|done]. by destruct (Hn _ Hr).
Qed.

Lemma ReadRegistrationToken_id fault tokenID t id state :
  ReadRegistrationToken fault tokenID t = Ok (id, state) ->
  canonicalRegistrationTokenID id = Ok id /\ t !! id = Some state /\ id = to_upper tokenID.
Proof.
  unfold ReadRegistrationToken. intros (id0 & Hc & H)%bind_ok. apply bind_ok in H as (row & Hr%wrap_err_ok & H).
  apply bind_ok in H as (st & Hst & [= -> ->]). apply bind_ok in Hr as (u & _ & Hrow%or_err_ok).
  unfold canonicalRegistrationTokenID in Hc. apply bind_ok in Hc as (u2 & Hv%wrap_err_ok & [= <-]).
  assert (state = row) as ->.
  { unfold registrationTokenFromRow in Hst. repeat apply bind_ok in Hst as (? & _ & Hst). by injection Hst. }
  split_and!; [|done|done]. destruct u2. apply ULIDPathID_upper in Hv.
  unfold canonicalRegistrationTokenID. by rewrite Hv, to_upper_idem.
Qed.

Section Counting.
Context {schemes : Schemes}.

Lemma earning_reject : earning reject.
Proof. apply earning_read_try. intros env db x _. apply earning_err. Qed.
Hint Resolve earning_reject earning_err : core.

Lemma earning_wait last (f : unit -> TokenProg RegistrationTokenGrant) :
  (forall u, earning (f u)) -> earning (try_prog (waitForCASRetry last) f).
Proof.
  intros Hf. apply (earning_read (fun env _ => may_fault (tn_wait env))). intros env db.
  destruct (may_fault (tn_wait env)) as [u|e]; [|apply earning_err]. destruct last; [apply earning_err|].
  by apply (earning_read_try (fun env _ => may_fault (tn_wait env))).
Qed.

Lemma consume_attempts_earning attempts tokenID secret wellFormed purpose :
  earning (consume_attempts attempts tokenID secret wellFormed purpose).
Proof.
  induction attempts as [|attempts IH]; cbn [consume_attempts]; [done|].
  apply earning_read_try. intros env db [[id state]|] Hq; [|done].
  assert (RegistrationTokenConsumedEvent id = Ok (consumed_event id)) as Hev.
  { destruct (ReadRegistrationToken _ _ _) as [p|e] eqn:E in Hq; [injection Hq as ->|by case_match].
    apply ReadRegistrationToken_id in E as (Hc & _). unfold RegistrationTokenConsumedEvent. by rewrite Hc. }
  destruct (negb _); [done|]. destruct (rt_Disabled state); [done|]. apply earning_read. intros env' db'.
  destruct (rt_ExpiresAt state <=? _); [done|]. destruct (rt_MaxUses state <=? _); [done|].
  destruct (negb (String.eqb (rt_Purpose state) _)); [done|]. rewrite Hev. cbn [wrap_err try_prog bind_prog].
  apply (earning_append _ _ (mkRegistrationTokenGrant id _ _ _)); [done..|]. intros e. destruct (IsVersionConflict e); [|done].
  by apply earning_wait.
Qed.

Lemma Consume_earning raw purpose : earning (Consume raw purpose).
Proof.
  unfold Consume. destruct (_ && _); [done|]. destruct (parseRegistrationToken raw) as [[tokenID secret] wf].
  apply consume_attempts_earning.
Qed.

Lemma token_append_count id db db' :
  token_append db db' -> (consumed_count id (td_log db) <= consumed_count id (td_log db'))%nat.
Proof. intros (event & _ & now & tables & _ & _ & ->). cbn [td_log]. rewrite consumed_count_snoc. lia. Qed.

Lemma token_move_count id db db' :
  token_move db db' -> (consumed_count id (td_log db) <= consumed_count id (td_log db'))%nat.
Proof. intros [->|H]; [done|by apply token_append_count]. Qed.

Lemma calls_no_win id (calls : list (string * string)) : wins (granted id) ((fun c => Consume c.1 c.2) <$> calls) = 0%nat.
Proof.
  unfold wins. rewrite length_zero_iff_nil. apply filter_none. intros p (c & -> & _)%list_elem_of_fmap.
  destruct (Consume c.1 c.2) as [[g|e]|] eqn:E; cbn; try done. destruct (proj1 (Consume_earning c.1 c.2) g E).
Qed.

Lemma token_append_inv db db' : tok_inv db -> token_append db db' -> tok_inv db'.
Proof. intros H (event & Hs & Ha). by eapply appended_inv. Qed.

Lemma moves_inv Other (c c' : TokenDB * list (TokenProg RegistrationTokenGrant)) :
  (forall db db', Other db db' -> token_append db db') ->
  rtc (sched_step Other) c c' -> Forall (earns token_move grant_earned) c.2 -> tok_inv c.1 -> tok_inv c'.1.
Proof.
  intros HO Hr. induction Hr as [c|c1 c2 c3 Hstep Hr IH]; intros Hall HI; [done|].
  destruct Hstep as [s ts i p env Hi|s s' ts Hs]; cbn [fst snd] in *.
  - pose proof (Forall_lookup_1 _ _ _ _ Hall Hi) as Hp. destruct p as [a|X op k]; cbn [step_prog] in *.
    + rewrite list_insert_id in IH by done. by apply IH.
    + destruct (op env s) as [s' x] eqn:Hop. destruct (Hp env s s' x Hop) as (HG & _ & Hk).
      apply IH; [by apply Forall_insert|]. destruct HG as [->|Ha]; [done|by eapply token_append_inv].
  - apply IH; [done|]. eapply token_append_inv; [done|by apply HO].
Qed.
End Counting.

(** C35. However any number of consume calls interleave with each other and with
    other writers, the calls that end with a grant of a token are at most the
    uses its row records, which never exceed the limit its row has then (an
    update may raise it): a registration token admits no more enrollments than
    its limit, and the uses recorded before the calls count too. *)
Theorem consume_never_exceeds_limit {schemes : Schemes} (calls : list (string * string)) db db' ts id row :
  tok_inv db ->
  rtc (sched_step token_append) (db, (fun c => Consume c.1 c.2) <$> calls) (db', ts) ->
  td_tables db' !! id = Some row ->
  Z.of_nat (wins (granted id) ts) + Z.of_nat (consumed_count id (td_log db)) <= rt_Uses row <= rt_MaxUses row.
Proof.
  intros HI Hr Hrow. assert (Forall (earns token_move grant_earned) ((fun c => Consume c.1 c.2) <$> calls)) as Hall.
  { apply Forall_fmap, Forall_forall. intros c _. apply Consume_earning. }
  assert (tok_inv db') as HI' by (by eapply (moves_inv token_append (_, _) (_, _))).
  destruct (ti_rows _ HI' _ _ Hrow) as (_ & _ & Hu & Hle & _). split; [|done]. rewrite Hu.
  assert (HW : forall r s s', grant_earned r s s' -> granted id r = true ->
    (consumed_count id (td_log s) < consumed_count id (td_log s'))%nat).
  { intros [g|e] s s' Hg Hw; [|done]. cbn in Hg, Hw. apply String.eqb_eq in Hw as Hid.
    destruct Hg as (now & tables & _ & _ & ->). cbn [td_log]. rewrite consumed_count_snoc, Hid.
    rewrite bool_decide_true by done. cbn. lia. }
  destruct (earns_count token_move grant_earned (granted id) (fun db => consumed_count id (td_log db)) token_append _ _
    (token_move_count id) (token_append_count id) HW Hr Hall) as [_ Hc]. cbn [fst snd] in Hc. rewrite calls_no_win in Hc. lia.
Qed.

(** ** Authorized use *)

(** What a read learns of a token: while its stream stays at that version, the
    row stays. *)
Definition token_known (id : string) (st : RegistrationToken) (db : TokenDB) : Prop :=
  rt_ProjectionVersion st <= typed_version registrationTokenStreamType id (td_log db)
  /\ (typed_version registrationTokenStreamType id (td_log db) = rt_ProjectionVersion st -> td_tables db !! id = Some st).

Section Authorized.
Context {schemes : Schemes}.

(** The use a grant stands for: recorded at a point of the history at which the
    token was enabled, unexhausted and minted for the purpose with this secret. *)
Definition authorized_use (secret : list Z) (purpose : string) (g : RegistrationTokenGrant) (db : TokenDB) : Prop :=
  exists pre row post t st,
    td_log db = pre ++ row :: post /\ ty_Event row = consumed_event (rg_TokenID g) /\ replay_tokens pre = Ok t
    /\ t !! rg_TokenID g = Some st /\ rt_Disabled st = false /\ rt_Uses st < rt_MaxUses st
    /\ rt_Hash st = sha256 secret /\ rt_Purpose st = purpose
    /\ g = mkRegistrationTokenGrant (rg_TokenID g) (rt_Owner st) (rt_Purpose st) (rt_DNSNames st).

Lemma token_append_known id st db db' :
  tok_inv db -> token_append db db' -> token_known id st db -> token_known id st db'.
Proof.
  intros [Hc Hst Hr _] (event & Hs & now & tables & Hv & Hp & ->) [Hle Hk]. cbv zeta in *. set (version := typed_version _ _ _ + 1) in *.
  unfold token_known. cbn [td_log td_tables]. rewrite (typed_version_snoc _ _ _ event version now Hc eq_refl).
  destruct (decide _) as [[H1 H2]|Hne]; cbn [ty_Event te_StreamType te_StreamID] in *.
  - subst id. unfold version. rewrite Hs. split; lia.
  - split; [done|]. intros Heq. rewrite <- (Hk Heq).
    apply (projectToken_ok (mkTypedRow event version now)); cbn [ty_Event ty_Version]; [|done|].
    + intros r H. destruct (Hr _ _ H) as (Hpos & Hpv & _). unfold version. rewrite Hs, <- Hpv. lia.
    + intros ->. by apply Hne.
Qed.

Lemma authorized_prefix secret purpose g db db' :
  (exists k, td_log db' = td_log db ++ k) -> authorized_use secret purpose g db -> authorized_use secret purpose g db'.
Proof.
  intros [k Hk] (pre & row & post & t & st & Hl & H). exists pre, row, (post ++ k), t, st.
  split; [|done]. by rewrite Hk, Hl, <- app_assoc.
Qed.

Lemma token_append_prefix db db' : token_append db db' -> exists k, td_log db' = td_log db ++ k.
Proof. intros (event & _ & now & tables & _ & _ & ->). by eexists. Qed.

Notation moves := (rtc token_append).
Notation trg := (rg tok_inv moves moves).

Lemma moves_keep (P : TokenDB -> Prop) :
  (forall db db', tok_inv db -> token_append db db' -> P db -> P db') -> stable tok_inv moves P.
Proof.
  intros HP db db' HI _ Hm. induction Hm as [db|db1 db2 db3 H12 H23 IH]; [done|]. intros H.
  apply IH; [by eapply token_append_inv|by eapply HP].
Qed.

Lemma known_stable id st : stable tok_inv moves (token_known id st).
Proof. apply moves_keep. apply token_append_known. Qed.

Definition grant_ok (secret : list Z) (wf : bool) (purpose : string) (r : result goerr RegistrationTokenGrant) (db : TokenDB) : Prop :=
  match r with Ok g => wf = true /\ authorized_use secret purpose g db | Err _ => True end.

Lemma reject_trg secret wf purpose (P : TokenDB -> Prop) : stable tok_inv moves P -> trg (grant_ok secret wf purpose) P reject.
Proof. intros Hst. by eapply (rg_look_try _ _ _ _ (fun _ => P)). Qed.

Lemma consume_attempts_trg attempts tokenID secret wf purpose :
  trg (grant_ok secret wf purpose) (fun _ => True) (consume_attempts attempts tokenID secret wf purpose).
Proof.
  assert (HT : stable tok_inv moves (fun _ => True)) by apply stable_const.
  induction attempts as [|attempts IH]; cbn [consume_attempts]; [done|].
  eapply (rg_look_try _ _ _ _ (fun found db => match found with
    | Some (id, st) => token_known id st db /\ RegistrationTokenConsumedEvent id = Ok (consumed_event id)
    | None => True end)); [done| | |].
  - intros [[id st]|]; [|done]. apply stable_and; [apply known_stable|apply stable_const].
  - intros env db [[id st]|] HI _ Hq; [|done].
    destruct (ReadRegistrationToken _ _ _) as [p|e] eqn:E in Hq; [injection Hq as ->|by case_match].
    apply ReadRegistrationToken_id in E as (Hc & Hrow & _). unfold RegistrationTokenConsumedEvent. rewrite Hc.
    split; [|done]. destruct (ti_rows _ HI _ _ Hrow) as (_ & Hpv & _). split; [lia|done].
  - intros [[id st]|]; [|by apply reject_trg].
    assert (HK : stable tok_inv moves (fun db => token_known id st db /\ RegistrationTokenConsumedEvent id = Ok (consumed_event id)))
      by (apply stable_and; [apply known_stable|apply stable_const]).
    destruct (wf && _) eqn:Ewf; [|by apply reject_trg]. destruct (rt_Disabled st) eqn:Ed; [by apply reject_trg|].
    apply andb_true_iff in Ewf as [-> Eh%String.eqb_eq]. cbn [negb].
    eapply (rg_bind _ _ _ (fun _ db => token_known id st db /\ RegistrationTokenConsumedEvent id = Ok (consumed_event id))).
    { apply (rg_look _ _ _); [done|]. by intros env db _ H. }
    intros now. destruct (rt_ExpiresAt st <=? now); [by apply reject_trg|].
    destruct (rt_MaxUses st <=? rt_Uses st) eqn:Eu; [by apply reject_trg|]. apply Z.leb_gt in Eu.
    destruct (String.eqb (rt_Purpose st) purpose) eqn:Ep; [|by apply reject_trg]. apply String.eqb_eq in Ep. cbn [negb].
    eapply rg_weaken; [|apply (rg_pure_pre _ _ _ _ (RegistrationTokenConsumedEvent id = Ok (consumed_event id)) (token_known id st))];
      [by intros db _ [H1 H2]|].
    intros ->. cbn [wrap_err try_prog bind_prog].
    set (grant := mkRegistrationTokenGrant id (rt_Owner st) (rt_Purpose st) (rt_DNSNames st)).
    eapply (rg_bind _ _ _ (fun (r : result goerr unit) db => match r with Ok _ => authorized_use secret purpose grant db | Err _ => True end)).
    + apply (rg_act _ _ _).
      * intros [u|e]; [|done]. intros db db' _ _ Hm. apply authorized_prefix.
        clear -Hm. induction Hm as [db|db1 db2 db3 H12%token_append_prefix H23 IH]; [exists []; by rewrite app_nil_r|].
        destruct H12 as [k1 H1], IH as [k2 H2]. exists (k1 ++ k2). by rewrite H2, H1, <- app_assoc.
      * intros env db db' r HI [Hle Hk] Hop.
        destruct (AppendPinned_ok _ _ _ _ _ _ _ Hop) as [[-> Hr]|[Hv Ha]]; [split_and!; [done|done|by destruct r]|].
        assert (Hta : token_append db db') by (by exists (consumed_event id)).
        split_and!; [by apply rtc_once|by eapply token_append_inv|]. destruct r as [u|e]; [|done].
        destruct Ha as (now' & tables & _ & _ & ->). exists (td_log db). eexists _, [], (td_tables db), st.
        cbn [td_log ty_Event]. split_and!; try done; [by apply ti_replay|by apply Hk].
    + intros [u|e]; [by apply rg_done|]. destruct (IsVersionConflict e); [|by apply rg_done].
      eapply rg_weaken; [|apply (rg_try _ _ _ (fun _ _ => True))]; [done| |by intros _].
      eapply (rg_look_try _ _ _ _ (fun _ _ => True)); [done|done|done|]. intros _.
      destruct (Nat.eqb attempts 0); [by apply rg_done|]. apply (rg_look _ _ _); [by intros [|]|by intros env db _ _; case_match].
  Unshelve. all: typeclasses eauto.
Qed.
End Authorized.

Definition call_grant_ok {schemes : Schemes} (c : string * string) : result goerr RegistrationTokenGrant -> TokenDB -> Prop :=
  let '(_, secret, wf) := parseRegistrationToken c.1 in grant_ok secret wf c.2.

Lemma Consume_trg {schemes : Schemes} (c : string * string) :
  rg tok_inv (rtc token_append) (rtc token_append) (call_grant_ok c) (fun _ => True) (Consume c.1 c.2).
Proof.
  unfold Consume, call_grant_ok. destruct (parseRegistrationToken c.1) as [[tokenID secret] wf].
  destruct (_ && _); [by intros db _ _|]. apply consume_attempts_trg.
Qed.

Lemma token_append_moves db db' :
  tok_inv db -> token_append db db' -> rtc token_append db db' /\ tok_inv db'.
Proof. intros H Ha. split; [by apply rtc_once|by eapply token_append_inv]. Qed.

(** C36. Whatever interleaves with it, a consume call that ends with a grant was
    given a well-formed token, and its use is in the history at a point where
    the token was enabled, had uses left, was minted for the expected purpose
    and had the hash of exactly the presented secret; the grant carries that
    token's metadata.  A token disabled before the recorded use is never
    granted. *)
Theorem every_grant_was_authorized {schemes : Schemes} (calls : list (string * string)) db db' ts i raw purpose g :
  tok_inv db ->
  rtc (sched_step token_append) (db, (fun c => Consume c.1 c.2) <$> calls) (db', ts) ->
  calls !! i = Some (raw, purpose) -> ts !! i = Some (Ret (Ok g)) ->
  exists id secret, parseRegistrationToken raw = (id, secret, true) /\ authorized_use secret purpose g db'.
Proof.
  intros HI Hr Hc Ht.
  assert (H0 : Forall2 (on_track tok_inv (rtc token_append) (rtc token_append) db) (call_grant_ok <$> calls)
                 ((fun c => Consume c.1 c.2) <$> calls)).
  { apply Forall2_fmap, Forall_Forall2_diag, Forall_forall. intros c _. exists (fun _ => True).
    split_and!; [apply stable_const|done|apply Consume_trg]. }
  destruct (rg_sound _ _ _ _ _ _ _ (fun _ _ H => H) token_append_moves Hr HI H0) as (HI' & _ & Hall).
  destruct (Forall2_lookup_r _ _ _ _ _ Hall Ht) as (Q & HQ & Htr). rewrite list_lookup_fmap, Hc in HQ. injection HQ as <-.
  apply on_track_done in Htr; [|done]. unfold call_grant_ok in Htr. cbn [fst snd] in Htr.
  destruct (parseRegistrationToken raw) as [[id secret] wf]. destruct Htr as [-> Hau]. by exists id, secret.
Qed.

(** ** The wire format *)

(** Disjoint bits add up. *)
Lemma lor_shift x y n : 0 <= n -> 0 <= y < 2 ^ n -> Z.lor (Z.shiftl x n) y = x * 2 ^ n + y.
Proof.
  intros Hn Hy. rewrite Z.shiftl_mul_pow2 by done.
  assert (Z.land (x * 2 ^ n) y = 0) as H0.
  { apply Z.bits_inj_0. intros i. rewrite Z.land_spec. destruct (Z.ltb_spec i n) as [H|H].
    - by rewrite Z.mul_pow2_bits_low.
    - rewrite andb_false_iff. right. rewrite <- (Z.mod_small y (2 ^ n)) by done. by apply Z.mod_pow2_bits_high. }
  by rewrite <- Z.lxor_lor, <- Z.add_nocarry_lxor.
Qed.

Lemma land_mod x n : 0 <= n -> Z.land x (2 ^ n - 1) = x mod 2 ^ n.
Proof. intros Hn. rewrite <- Z.land_ones by done. f_equal. by rewrite Z.ones_equiv. Qed.

Definition symbol_at (v : Z) : ascii := default "0"%char (list_ascii_of_string ulidAlphabet !! Z.to_nat v).

Lemma symbol_at_alphabet v : 0 <= v < 32 -> symbol_at v = alphabet_at v.
Proof.
  intros Hv. apply Ascii.eqb_eq. revert Hv. apply (forallb_seqZ (fun v => Ascii.eqb (symbol_at v) (alphabet_at v))).
  by vm_compute.
Qed.

(** The buffer's bits, after [drain], are split into whole symbols and a rest. *)
Lemma drain_spec fuel buffer bits out :
  0 <= bits < 5 * Z.of_nat fuel + 5 -> 0 <= buffer < 2 ^ bits ->
  exists buffer' syms,
    drain fuel buffer bits out = (buffer', bits mod 5, out ++ (alphabet_at <$> syms))
    /\ 0 <= buffer' < 2 ^ (bits mod 5) /\ Forall (fun v => 0 <= v < 32) syms /\ zlen syms = bits / 5
    /\ forall v, foldl (fun acc d => acc * 32 + d) v syms * 2 ^ (bits mod 5) + buffer' = v * 2 ^ bits + buffer.
Proof.
  revert buffer bits out. induction fuel as [|fuel IH]; intros buffer bits out Hb Hbuf; cbn [drain].
  - exists buffer, []. rewrite Z.mod_small, Z.div_small by lia. cbn [fmap list_fmap foldl]. rewrite app_nil_r.
    repeat split; done || lia || constructor.
  - destruct (Z.ltb_spec bits 5) as [H5|H5].
    { exists buffer, []. rewrite Z.mod_small, Z.div_small by lia. cbn [fmap list_fmap foldl]. rewrite app_nil_r.
    repeat split; done || lia || constructor. }
    set (sym := Z.shiftr buffer (bits - 5)).
    assert (Hsplit : 2 ^ bits = 32 * 2 ^ (bits - 5)) by (change 32 with (2 ^ 5); rewrite <- Z.pow_add_r by lia; f_equal; lia).
    assert (0 < 2 ^ (bits - 5)) by (apply Z.pow_pos_nonneg; lia).
    assert (Hsym : sym = buffer / 2 ^ (bits - 5)) by (unfold sym; apply Z.shiftr_div_pow2; lia).
    assert (0 <= sym < 32) by (rewrite Hsym; split; [apply Z.div_pos; lia|apply Z.div_lt_upper_bound; lia]).
    assert (Z.land sym 31 = sym) as -> by (change 31 with (2 ^ 5 - 1); rewrite land_mod by lia; by apply Z.mod_small).
    set (rest := if bits - 5 =? 0 then 0 else Z.land buffer (Z.shiftl 1 (bits - 5) - 1)).
    assert (Hrest : rest = buffer mod 2 ^ (bits - 5)).
    { unfold rest. destruct (Z.eqb_spec (bits - 5) 0) as [E|E].
      - rewrite E. by rewrite Z.mod_1_r.
      - rewrite Z.shiftl_1_l. apply land_mod. lia. }
    pose proof (Z.mod_pos_bound buffer (2 ^ (bits - 5)) ltac:(lia)) as Hmod. rewrite <- Hrest in Hmod.
    pose proof (Z.div_mod buffer (2 ^ (bits - 5)) ltac:(lia)) as Hdm. rewrite <- Hsym, <- Hrest in Hdm.
    destruct (IH rest (bits - 5) (out ++ [symbol_at sym]) ltac:(lia) Hmod) as (buffer' & syms & Hd & Hb' & Hs & Hl & Hv).
    assert (Hm : (bits - 5) mod 5 = bits mod 5) by (rewrite <- (Z.mod_add bits (-1) 5) by lia; f_equal; lia).
    assert (Hdv : bits / 5 = (bits - 5) / 5 + 1) by (rewrite <- Z.div_add by lia; f_equal; lia).
    rewrite Hm in *. exists buffer', (sym :: syms). split; [|split; [done|split; [by constructor|split]]].
    + rewrite (symbol_at_alphabet sym) in Hd by done. rewrite <- app_assoc in Hd. exact Hd.
    + unfold zlen in *. cbn [length]. lia.
    + intros v. cbn [foldl]. rewrite Hv, Hsplit. lia.
Qed.

(** The identifier encoder of this package is that of [sdk/ulidx]. *)
Lemma encodeULID_fold raw out bits buffer v :
  Forall is_byte raw -> 0 <= bits < 5 -> 0 <= buffer < 2 ^ bits ->
  Forall (fun c => canonical_char c = true) out ->
  foldl (fun acc c => acc * 32 + crockford_digit c) 0 out * 2 ^ bits + buffer = v ->
  exists bits' buffer' out',
    fold_left (fun '(buffer, bits, out) value =>
      drain 3 (Z.lor (wrap_u 32 (Z.shiftl buffer 8)) value) (bits + 8) out) raw (buffer, bits, out) = (buffer', bits', out')
    /\ 0 <= bits' < 5 /\ 0 <= buffer' < 2 ^ bits'
    /\ Forall (fun c => canonical_char c = true) out'
    /\ 5 * zlen out' + bits' = 5 * zlen out + bits + 8 * zlen raw
    /\ foldl (fun acc c => acc * 32 + crockford_digit c) 0 out' * 2 ^ bits' + buffer' = v * 256 ^ zlen raw + be_value raw.
Proof.
  revert out bits buffer v. induction raw as [|b raw IH]; intros out bits buffer v Hraw Hbits Hbuf Hout Hv; cbn [fold_left].
  - exists bits, buffer, out. unfold be_value, zlen. cbn [length foldl]. change (256 ^ Z.of_nat 0) with 1. split_and!; done || lia.
  - apply Forall_cons in Hraw as [Hb Hraw]. unfold is_byte in Hb.
    assert (2 ^ bits <= 2 ^ 4) by (apply Z.pow_le_mono_r; lia).
    assert (Hbuf8 : Z.lor (wrap_u 32 (Z.shiftl buffer 8)) b = buffer * 256 + b).
    { assert (wrap_u 32 (Z.shiftl buffer 8) = Z.shiftl buffer 8) as -> by
        (unfold wrap_u; rewrite Z.shiftl_mul_pow2 by lia; apply Z.mod_small; lia).
      by rewrite lor_shift by lia. }
    rewrite Hbuf8. assert (Hp : 2 ^ (bits + 8) = 2 ^ bits * 256) by (by rewrite Z.pow_add_r by lia).
    destruct (drain_spec 3 (buffer * 256 + b) (bits + 8) out ltac:(lia) ltac:(rewrite Hp; lia)) as (buffer' & syms & -> & Hb' & Hs & Hl & Hval).
    pose proof (Z.mod_pos_bound (bits + 8) 5 ltac:(lia)) as Hm.
    assert (Hdig : forall acc, foldl (fun acc c => acc * 32 + crockford_digit c) acc (alphabet_at <$> syms)
                               = foldl (fun acc d => acc * 32 + d) acc syms).
    { clear -Hs. induction Hs as [|d syms Hd _ IH]; intros acc; [done|]. cbn [fmap list_fmap foldl].
      by rewrite (proj1 (alphabet_at_digit d Hd)), IH. }
    destruct (IH (out ++ (alphabet_at <$> syms)) ((bits + 8) mod 5) buffer' (v * 256 + b)) as (bits2 & buffer2 & out2 & H1 & H2 & H3 & H4 & H5 & H6);
      [done|done|done| | |].
    + apply Forall_app. split; [done|]. apply Forall_fmap. eapply Forall_impl; [exact Hs|]. intros d Hd.
      destruct (alphabet_at_digit d Hd) as (_ & Hc & Hu). unfold compose, canonical_char. by rewrite Hu, Hc, Ascii.eqb_refl.
    + rewrite foldl_app, Hdig, Hval, Hp. lia.
    + exists bits2, buffer2, out2. split_and!; [done|lia|lia|lia|lia|done| |].
      * unfold zlen in *. rewrite length_app, length_fmap, Nat2Z.inj_add in H5. cbn [length].
        pose proof (Z.div_mod (bits + 8) 5 ltac:(lia)). lia.
      * rewrite H6. change (b :: raw) with ([b] ++ raw). rewrite (be_value_app [b]).
        assert (be_value [b] = b) as -> by (unfold be_value; cbn; lia).
        unfold zlen. rewrite length_app, Nat2Z.inj_add, Z.pow_add_r by lia. cbn [length].
        change (256 ^ Z.of_nat 1) with 256. lia.
Qed.

Lemma length_string_of_list l : String.length (string_of_list_ascii l) = length l.
Proof. induction l as [|a l IH]; cbn; [done|]. by f_equal. Qed.

Lemma encodeULID_encode raw : length raw = 16%nat -> Forall is_byte raw -> encodeULID raw = encode raw.
Proof.
  intros Hl Hb. unfold encodeULID.
  destruct (encodeULID_fold raw [] 2 0 0 Hb ltac:(lia) ltac:(lia) ltac:(by constructor) ltac:(done))
    as (bits & buffer & out & -> & Hbits & Hbuf & Hout & Hlen & Hv).
  unfold zlen in Hlen, Hv. rewrite Hl in Hlen, Hv. cbn [length] in Hlen.
  assert (bits = 0) as -> by lia. assert (length out = 26%nat) as Hlo by lia.
  change (2 ^ 0) with 1 in *. assert (buffer = 0) as -> by lia.
  apply String.compare_eq_iff. rewrite ulid_text_order.
  - rewrite ulid_value_encode by done. unfold ulid_value. rewrite list_ascii_of_string_of_list_ascii.
    apply Z.compare_eq_iff. lia.
  - by rewrite length_string_of_list, Hlo, length_encode.
  - apply string_forallb_spec. by rewrite list_ascii_of_string_of_list_ascii.
  - apply encode_chars.
Qed.

(** *** Base64 round trip *)

Lemma sextet_of_char v :
  0 <= v < 64 -> sextet (sextet_char v) = Some v /\ sextet_char v <> "010"%char /\ sextet_char v <> "013"%char.
Proof.
  set (ok := fun v => match sextet (sextet_char v) with Some w => w =? v | None => false end
                      && negb (Ascii.eqb (sextet_char v) "010") && negb (Ascii.eqb (sextet_char v) "013")).
  intros Hv. assert (ok v = true) as H by (revert Hv; apply forallb_seqZ; by vm_compute).
  unfold ok in H. prop_bools. destruct (sextet (sextet_char v)) as [w|]; [|done]. apply Z.eqb_eq in H as ->.
  split; [done|]. split; by apply Ascii.eqb_neq.
Qed.

(** Bit operations on the parts of bytes and sextets, as arithmetic. *)
Ltac bits_arith :=
  repeat match goal with
  | |- context [Z.land ?x 3] => change (Z.land x 3) with (Z.land x (2 ^ 2 - 1)); rewrite (land_mod x 2) by lia
  | |- context [Z.land ?x 15] => change (Z.land x 15) with (Z.land x (2 ^ 4 - 1)); rewrite (land_mod x 4) by lia
  | |- context [Z.land ?x 63] => change (Z.land x 63) with (Z.land x (2 ^ 6 - 1)); rewrite (land_mod x 6) by lia
  | |- context [Z.shiftr ?x ?n] => rewrite (Z.shiftr_div_pow2 x n) by lia
  end;
  change (2 ^ 2) with 4 in *; change (2 ^ 4) with 16 in *; change (2 ^ 6) with 64 in *.

Lemma encode_parts a b c :
  is_byte a -> is_byte b -> is_byte c ->
  Z.shiftr a 2 = a / 4
  /\ Z.lor (Z.shiftl (Z.land a 3) 4) (Z.shiftr b 4) = a mod 4 * 16 + b / 16
  /\ Z.lor (Z.shiftl (Z.land b 15) 2) (Z.shiftr c 6) = b mod 16 * 4 + c / 64
  /\ Z.land c 63 = c mod 64 /\ Z.shiftl (Z.land b 15) 2 = b mod 16 * 4.
Proof.
  unfold is_byte. intros Ha Hb Hc. bits_arith. rewrite !lor_shift, Z.shiftl_mul_pow2;
    change (2 ^ 2) with 4 in *; change (2 ^ 4) with 16 in *; try (Z.div_mod_to_equations; lia).
Qed.

Lemma decode_parts w x y z :
  0 <= w < 64 -> 0 <= x < 64 -> 0 <= y < 64 -> 0 <= z < 64 ->
  Z.lor (Z.shiftl w 2) (Z.shiftr x 4) = w * 4 + x / 16
  /\ Z.lor (Z.shiftl (Z.land x 15) 4) (Z.shiftr y 2) = x mod 16 * 16 + y / 4
  /\ Z.lor (Z.shiftl (Z.land y 3) 6) z = y mod 4 * 64 + z.
Proof.
  intros Hw Hx Hy Hz. bits_arith. rewrite !lor_shift;
    change (2 ^ 2) with 4 in *; change (2 ^ 4) with 16 in *; change (2 ^ 6) with 64 in *; try (Z.div_mod_to_equations; lia).
Qed.

Lemma bytes_groups (P : list Z -> Prop) :
  P [] -> (forall a, P [a]) -> (forall a b, P [a; b]) -> (forall a b c bs, P bs -> P (a :: b :: c :: bs)) ->
  forall bs, P bs.
Proof.
  intros H0 H1 H2 H3 bs. assert (P bs /\ (forall a, P (a :: bs)) /\ forall a b, P (a :: b :: bs)) as [H _]; [|done].
  induction bs as [|c bs (IH0 & IH1 & IH2)]; [by split_and!|]. split_and!; [apply IH1|intros a; apply IH2|].
  intros a b. by apply H3.
Qed.

Lemma encode_groups_ok bs :
  Forall is_byte bs ->
  Forall (fun v => 0 <= v < 64) (encode_groups bs) /\ decode_groups (encode_groups bs) = Some bs.
Proof.
  induction bs as [|a|a b|a b c bs IH] using bytes_groups; cbn [encode_groups].
  - done.
  - intros Ha%Forall_inv. assert (H0 : is_byte 0) by (unfold is_byte; lia). destruct (encode_parts a 0 0 Ha H0 H0) as (H1 & H2 & H3 & H4 & H5).
    change (Z.lor (Z.shiftl (Z.land a 3) 4) (Z.shiftr 0 4)) with (Z.lor (Z.shiftl (Z.land a 3) 4) 0) in H2.
    rewrite Z.lor_0_r in H2. rewrite H1, H2. unfold is_byte in Ha.
    split; [repeat constructor; Z.div_mod_to_equations; lia|]. cbn [decode_groups].
    rewrite (proj1 (decode_parts (a / 4) (a mod 4 * 16 + 0 / 16) 0 0 ltac:(Z.div_mod_to_equations; lia) ltac:(Z.div_mod_to_equations; lia) ltac:(lia) ltac:(lia))).
    do 2 f_equal. Z.div_mod_to_equations; lia.
  - intros [Ha Hb%Forall_inv]%Forall_cons. assert (H0 : is_byte 0) by (unfold is_byte; lia). destruct (encode_parts a b 0 Ha Hb H0) as (H1 & H2 & H3 & H4 & H5).
    rewrite H1, H2, H5. unfold is_byte in *. split; [repeat constructor; Z.div_mod_to_equations; lia|]. cbn [decode_groups].
    destruct (decode_parts (a / 4) (a mod 4 * 16 + b / 16) (b mod 16 * 4) 0) as (-> & -> & _); [Z.div_mod_to_equations; lia..|].
    do 2 f_equal; [|f_equal]; Z.div_mod_to_equations; lia.
  - intros [Ha [Hb [Hc H]%Forall_cons]%Forall_cons]%Forall_cons. destruct (IH H) as [Hr Hd].
    destruct (encode_parts a b c) as (-> & -> & -> & -> & _); [done..|]. unfold is_byte in *.
    split; [repeat (constructor; [Z.div_mod_to_equations; lia|]); done|]. cbn [decode_groups]. rewrite Hd. cbn [fmap option_fmap option_map].
    destruct (decode_parts (a / 4) (a mod 4 * 16 + b / 16) (b mod 16 * 4 + c / 64) (c mod 64)) as (-> & -> & ->); [Z.div_mod_to_equations; lia..|].
    do 2 f_equal; [|f_equal; [|f_equal]]; Z.div_mod_to_equations; lia.
Qed.

Lemma RawURLDecode_encode bs : Forall is_byte bs -> RawURLDecode (RawURLEncode bs) = Some bs.
Proof.
  intros H. destruct (encode_groups_ok bs H) as [Hr Hd]. unfold RawURLDecode, RawURLEncode.
  rewrite list_ascii_of_string_of_list_ascii, filter_all.
  - assert (mapM sextet (sextet_char <$> encode_groups bs) = Some (encode_groups bs)) as ->; [|done].
    apply mapM_Some. apply Forall2_fmap_l, Forall_Forall2_diag. eapply Forall_impl; [exact Hr|].
    intros v Hv. apply (sextet_of_char v Hv).
  - apply Forall_fmap. eapply Forall_impl; [exact Hr|]. intros v Hv. apply (sextet_of_char v Hv).
Qed.

Lemma length_encode_groups bs : zlen (encode_groups bs) = (zlen bs * 4 + 2) / 3.
Proof.
  induction bs as [|a|a b|a b c bs IH] using bytes_groups; cbn [encode_groups]; [done..|].
  unfold zlen in *. cbn [length]. rewrite !Nat2Z.inj_succ, IH. Z.div_mod_to_equations; lia.
Qed.

(** *** A minted token is the one that is consumed *)

(** Nothing fails, and the transaction commits. *)
Definition quiet_append (env : AppendEnv) : Prop := ae_fault env = None /\ ae_commit env = Committed.
Definition quiet (env : TokenEnv) : Prop := quiet_append (tn_append env) /\ tn_read env = None /\ tn_wait env = None.

Lemma AppendPinned_quiet {P T} (project : TypedRow P -> T -> result goerr T) env event expected db tables :
  quiet_append env -> 0 <= expected < max_int64 ->
  typed_version (te_StreamType event) (te_StreamID event) (td_log db) = expected ->
  project (mkTypedRow event (expected + 1) (ae_now env)) (td_tables db) = Ok tables ->
  AppendPinned project env event expected db
  = (mkTypedDB (td_log db ++ [mkTypedRow event (expected + 1) (ae_now env)]) tables, Ok tt).
Proof.
  intros [Hf Hc] He Hv Hp. unfold AppendPinned, insert_typed. rewrite Hf, Hv, Z.eqb_refl. cbn [may_fault mbind result_bind negb fail_if].
  rewrite (proj2 (Z.ltb_ge expected 0)) by lia. cbn [fail_if mbind result_bind].
  rewrite (proj2 (Z.leb_gt (expected + 1) 0)) by lia. rewrite (proj2 (Z.ltb_ge max_int64 (expected + 1))) by lia.
  cbn [orb fail_if mbind result_bind]. rewrite Hp. cbn [wrap_err mbind result_bind]. unfold commit_typed. by rewrite Hc.
Qed.

Section RoundTrip.
Context {schemes : Schemes}.

(** The token a mint's options describe. *)
Definition fresh_token (hash : string) (options : RegistrationTokenOptions) : RegistrationToken :=
  mkRegistrationToken hash (ro_Purpose options) (ro_DNSNames options) (ro_MaxUses options) 0 (ro_ExpiresAt options)
    (ro_Owner options) false 1.

Lemma canonical_ulid_id id :
  canonical_ulid id -> canonicalRegistrationTokenID id = Ok id /\ IsCanonicalULID id = true /\ String.length id = 26%nat.
Proof.
  intros [Hv Hu]. unfold canonicalRegistrationTokenID. rewrite Hv, Hu. split; [done|].
  unfold ULIDPathID, invalidf, ulidLen in Hv. fold is_crockford in Hv.
  assert (forall c, implb (is_crockford c && Ascii.eqb (upper_ascii c) c)
    (is_digit c || (is_upper c && negb (Ascii.eqb c "I") && negb (Ascii.eqb c "L")
                    && negb (Ascii.eqb c "O") && negb (Ascii.eqb c "U"))) = true) as Hc by all_chars.
  unfold IsCanonicalULID. destruct (len id =? 26) eqn:El; [|done]. destruct (string_forallb _ id) eqn:Ec in Hv; [|done].
  destruct id as [|a id]; [done|]. destruct (byte_between "0" "7" a); [|done]. split; [|apply Z.eqb_eq in El; unfold len in El; lia].
  cbn [andb]. injection Hu as _ Hu. cbn [string_forallb] in Ec. apply andb_true_iff in Ec as [_ Ec]. clear -Hc Hu Ec.
  induction id as [|c id IH]; [done|]. injection Hu as Hu1 Hu2. cbn [string_forallb] in *. apply andb_true_iff in Ec as [Ec1 Ec2].
  specialize (Hc c). rewrite Hu1, Ascii.eqb_refl, andb_true_r, Ec1 in Hc. cbn [implb] in Hc.
  rewrite Hc. by apply IH.
Qed.

Lemma pki_ulid_bytes milliseconds :
  0 <= milliseconds < 2 ^ 48 ->
  (fun shift => wrap_u 8 (Z.shiftr milliseconds shift)) <$> [40; 32; 24; 16; 8; 0]
  = put_big_endian 6 (wrap_u 64 milliseconds).
Proof.
  intros H. assert (wrap_u 64 milliseconds = milliseconds) as -> by (unfold wrap_u; apply Z.mod_small; lia).
  cbn [put_big_endian fmap list_fmap app]. rewrite !Z.shiftr_shiftr by lia. by rewrite Z.shiftr_0_r.
Qed.

Lemma newRegistrationTokenID_minted now entropy id :
  Forall is_byte entropy ->
  newRegistrationTokenID now entropy = Ok id <-> zlen entropy = 10 /\ NewWithReader now (Some entropy) = Ok (id, []).
Proof.
  intros Hb. unfold newRegistrationTokenID, NewWithReader; cbv zeta.
  change maxULIDTimestamp with (2 ^ 48 - 1). change maxTimestampMS with (2 ^ 48 - 1).
  change registrationTokenEntropyBytes with 10. destruct (zlen entropy =? 10) eqn:El; [|apply Z.eqb_neq in El; naive_solver].
  apply Z.eqb_eq in El. cbn [negb fail_if mbind result_bind].
  assert (length entropy = 10%nat) as Hl by (unfold zlen in El; lia).
  destruct (_ || _) eqn:E; [naive_solver|]. apply orb_false_iff in E as [H1%Z.ltb_ge H2%Z.ltb_ge].
  rewrite Hl, (take_ge entropy), (drop_ge entropy), pki_ulid_bytes by lia. cbn [fail_if mbind result_bind Nat.ltb Nat.leb].
  destruct (put_big_endian_bytes 6 (wrap_u 64 (time_unix_milli now))) as [Hpb Hpl].
  rewrite encodeULID_encode; [naive_solver| |by apply Forall_app].
  by rewrite length_app, Hpl, Hl.
Qed.

Lemma registrationTokenMintedEvent_ok id hash options event :
  canonical_ulid id -> registrationTokenMintedEvent id hash options = Ok event ->
  event = registrationTokenEvent id
    (if String.eqb (ro_Purpose options) RegistrationTokenPurposeAgent
     then registrationTokenMinted hash (ro_MaxUses options) (ro_ExpiresAt options) (ro_Owner options)
     else gatewayTokenMinted hash (ro_MaxUses options) (ro_ExpiresAt options) (ro_Owner options) (ro_DNSNames options))
  /\ validateRegistrationTokenMetadata (ro_MaxUses options) (ro_ExpiresAt options) (ro_Owner options) = Ok tt
  /\ validateRegistrationTokenPurpose (ro_Purpose options) (ro_DNSNames options) = Ok (ro_DNSNames options).
Proof.
  intros (Hc & _)%canonical_ulid_id. unfold registrationTokenMintedEvent.
  destruct (String.eqb (ro_Purpose options) RegistrationTokenPurposeAgent) eqn:Ea.
  - intros (u & Hn & H)%bind_ok. unfold RegistrationTokenMintedEvent in H. rewrite Hc in H. cbn [mbind result_bind] in H.
    apply bind_ok in H as ([] & Hm & H). apply bind_ok in H as (u3 & _ & [= <-]). split_and!; [done..|].
    unfold validateRegistrationTokenPurpose. apply fail_if_ok in Hn. rewrite Ea, Hn. cbn.
    apply negb_false_iff, Z.eqb_eq in Hn. unfold zlen in Hn. by destruct (ro_DNSNames options).
  - destruct (String.eqb (ro_Purpose options) RegistrationTokenPurposeGateway) eqn:Eg; [|done].
    intros (u & Hn & H)%bind_ok. unfold GatewayRegistrationTokenMintedEvent in H. rewrite Hc in H. cbn [mbind result_bind] in H.
    apply bind_ok in H as ([] & Hm & H). apply bind_ok in H as (names & Hp & H). apply bind_ok in H as (u3 & _ & [= <-]).
    apply String.eqb_eq in Eg. rewrite Eg. apply validate_purpose_names in Hp as Hn'. destruct Hn' as [[? _]|[_ ->]]; [done|]. done.
Qed.

Lemma parse_minted id secret :
  canonical_ulid id -> Forall is_byte secret -> zlen secret = 32 ->
  parseRegistrationToken (id +:+ "." +:+ RawURLEncode secret) = (id, secret, true).
Proof.
  intros (_ & Hc & Hl)%canonical_ulid_id Hb Hs. unfold parseRegistrationToken.
  assert (Hlb : String.length (RawURLEncode secret) = 43%nat).
  { unfold RawURLEncode. rewrite length_string_of_list, length_fmap. pose proof (length_encode_groups secret) as H.
    rewrite Hs in H. change ((32 * 4 + 2) / 3) with 43 in H. unfold zlen in H. lia. }
  assert (len (id +:+ "." +:+ RawURLEncode secret) = registrationTokenWireLen) as ->.
  { unfold len. rewrite !string_length_app, Hl, Hlb. done. }
  assert (forall s t, String.length s = 26%nat -> String.get 26 (s +:+ String "." t) = Some "."%char) as Hget.
  { clear. intros s t H. change 26%nat with (26 + 0)%nat. rewrite <- H. induction s in |- *; done. }
  change (id +:+ "." +:+ RawURLEncode secret) with (id +:+ String "." (RawURLEncode secret)).
  rewrite Hget by done. cbn [bool_decide negb orb]. rewrite bool_decide_true by done. cbn [negb orb].
  pose proof (substring_app_take id (String "." (RawURLEncode secret))) as Ht. rewrite Hl in Ht. rewrite Ht, Hc.
  pose proof (substring_app_drop (id +:+ ".") (RawURLEncode secret)) as Hd.
  rewrite !string_length_app, Hl, Hlb in Hd. change (26 + String.length ".")%nat with 27%nat in Hd.
  assert (forall s t u : string, (s +:+ t) +:+ u = s +:+ (t +:+ u)) as Happ by
    (clear; intros s t u; induction s as [|a s IH]; [done|]; by rewrite !string_append_cons, IH).
  rewrite Happ in Hd. change (27 + 43 - 27)%nat with 43%nat in Hd.
  change ("." +:+ RawURLEncode secret) with (String "." (RawURLEncode secret)) in Hd.
  rewrite Hd, RawURLDecode_encode, Hs by done. done.
Qed.

Lemma mint_row id hash options now t t' :
  validateRegistrationTokenPurpose (ro_Purpose options) (ro_DNSNames options) = Ok (ro_DNSNames options) ->
  projectToken (mkTypedRow (registrationTokenEvent id
    (if String.eqb (ro_Purpose options) RegistrationTokenPurposeAgent
     then registrationTokenMinted hash (ro_MaxUses options) (ro_ExpiresAt options) (ro_Owner options)
     else gatewayTokenMinted hash (ro_MaxUses options) (ro_ExpiresAt options) (ro_Owner options) (ro_DNSNames options)))
    (0 + 1) now) t = Ok t' ->
  (forall r, t !! id = Some r -> False) -> t' !! id = Some (fresh_token hash options).
Proof.
  intros Hp. unfold projectToken, fresh_token. cbn [ty_Event te_Payload te_StreamID registrationTokenEvent ty_Version].
  destruct (String.eqb (ro_Purpose options) RegistrationTokenPurposeAgent) eqn:Ea; cbn [te_Payload].
  - apply String.eqb_eq in Ea. intros (_ & _ & _ & names & Hn & [[-> _]|(r & Hr & _)])%mint_ok Hfresh; [|by destruct (Hfresh r)].
    rewrite lookup_insert_eq, Ea. rewrite Ea in Hp. apply validate_purpose_names in Hp as [[_ ->]|[? _]]; [|done].
    by apply validate_purpose_names in Hn as [[_ ->]|[? _]].
  - destruct (validate_purpose_names _ _ _ Hp) as [[E _]|[E _]]; [by rewrite E in Ea|]. rewrite E in Hp |- *.
    intros (_ & _ & _ & names & Hn & [[-> _]|(r & Hr & _)])%mint_ok Hfresh; [|by destruct (Hfresh r)].
    rewrite lookup_insert_eq. rewrite Hp in Hn. by injection Hn as <-.
Qed.

(** What a mint that succeeds leaves. *)
Lemma Mint_ok env options db db' m :
  tok_inv db -> (forall material, tn_random env = Some material -> Forall is_byte material) ->
  run_prog env db (Mint options) = (db', Ok m) ->
  exists secret,
    parseRegistrationToken (mt_Token m) = (mt_TokenID m, secret, true)
    /\ canonical_ulid (mt_TokenID m)
    /\ td_tables db' !! mt_TokenID m = Some (fresh_token (sha256 secret) options)
    /\ validateRegistrationTokenMetadata (ro_MaxUses options) (ro_ExpiresAt options) (ro_Owner options) = Ok tt
    /\ validateRegistrationTokenPurpose (ro_Purpose options) (ro_DNSNames options) = Ok (ro_DNSNames options)
    /\ tok_inv db'.
Proof.
  intros HI Hrandom. unfold Mint, now_prog, read_material, append_token, look, act. cbn [run_prog bind_prog try_prog].
  destruct (ro_ExpiresAt options <=? tn_now env); [done|]. cbn [bind_prog try_prog].
  destruct (wrap_err _ (registrationTokenMintedEvent _ _ _)) as [u|e]; [|done]. cbn [run_prog bind_prog try_prog].
  destruct (tn_random env) as [material|] eqn:Em; [|done]. destruct (zlen material <? _) eqn:El; [done|].
  apply Z.ltb_ge in El. specialize (Hrandom _ eq_refl). cbn [bind_prog try_prog].
  destruct (newRegistrationTokenID _ _) as [id|e] eqn:Eid; [|done]. cbn [bind_prog try_prog].
  destruct (registrationTokenMintedEvent id _ options) as [event|e] eqn:Eev; [|done]. cbn [run_prog wrap_err bind_prog try_prog].
  destruct (AppendPinned _ _ event 0 db) as [db1 r] eqn:Ea. intros H. injection H as <- H.
  apply bind_ok in H as (u2 & Hr%wrap_err_ok & [= <-]). cbn [mt_TokenID mt_Token].
  assert (Hlen : zlen (take 10 (take 42 material)) = 10 /\ zlen (drop 10 (take 42 material)) = 32).
  { change registrationTokenMaterialBytes with 42 in El. unfold zlen in *. rewrite length_drop, !length_take. lia. }
  assert (Hid : canonical_ulid id).
  { assert (Forall is_byte (take 10 (take 42 material))) as Hb by (by do 2 apply Forall_take).
    apply (newRegistrationTokenID_minted _ _ _ Hb) in Eid as [_ Hid]. by apply (NewWithReader_value _ _ _ _ Hb) in Hid as [? _]. }
  apply (registrationTokenMintedEvent_ok _ _ _ _ Hid) in Eev as (-> & Hm & Hp).
  destruct (AppendPinned_ok _ _ _ _ _ _ _ Ea) as [[_ Hf]|[Hv Happ]]; [by rewrite Hr in Hf|]. cbn [te_StreamID registrationTokenEvent] in Hv.
  exists (drop 10 (take 42 material)). split; [|split; [done|split; [|split; [done|split; [done|]]]]].
  - apply parse_minted; [done|by apply Forall_drop, Forall_take|lia].
  - destruct Happ as (now & tables & _ & Hproj & ->). cbv zeta in Hproj. cbn [te_StreamType te_StreamID registrationTokenEvent] in *.
    rewrite Hv in Hproj. cbn [td_tables].
    assert (Hfresh : forall r, td_tables db !! id = Some r -> False).
    { intros old Hrow. destruct (ti_rows _ HI _ _ Hrow) as (H1 & H2 & _). lia. }
    by apply (mint_row _ _ _ _ _ _ Hp Hproj).
  - revert Happ. by apply appended_inv.
Qed.

(** A consume call of a live token that nothing disturbs. *)
Lemma Consume_live env db raw id secret st :
  tok_inv db -> quiet env -> parseRegistrationToken raw = (id, secret, true) -> canonical_ulid id ->
  td_tables db !! id = Some st -> registrationTokenFromRow st = Ok st -> rt_Hash st = sha256 secret ->
  rt_Disabled st = false -> tn_now env < rt_ExpiresAt st -> rt_Uses st < rt_MaxUses st ->
  rt_ProjectionVersion st < max_int64 -> validateRegistrationTokenPurpose (rt_Purpose st) (rt_DNSNames st) = Ok (rt_DNSNames st) ->
  exists db', run_prog env db (Consume raw (rt_Purpose st))
    = (db', Ok (mkRegistrationTokenGrant id (rt_Owner st) (rt_Purpose st) (rt_DNSNames st)))
    /\ td_tables db' !! id = Some (with_uses st (rt_Uses st + 1) (rt_ProjectionVersion st + 1)).
Proof.
  intros HI (Hqa & Hqr & Hqw) Hparse (Hc & _)%canonical_ulid_id Hrow Hread Hh Hd Ht Hu Hv Hp. unfold Consume.
  assert (negb (String.eqb (rt_Purpose st) RegistrationTokenPurposeAgent)
          && negb (String.eqb (rt_Purpose st) RegistrationTokenPurposeGateway) = false) as ->.
  { by apply validate_purpose_names in Hp as [[-> _]|[-> _]]. }
  rewrite Hparse. destruct maxRegistrationCASAttempts as [|n] eqn:E; [by unfold maxRegistrationCASAttempts in E|]. clear E. cbn [consume_attempts].
  unfold registrationTokenState, now_prog, append_token, look, act. cbn [run_prog bind_prog try_prog].
  unfold ReadRegistrationToken. rewrite Hc, Hqr. cbn [mbind result_bind may_fault].
  rewrite Hrow. cbn [or_err wrap_err mbind result_bind]. rewrite Hread. cbn [mbind result_bind run_prog bind_prog try_prog].
  rewrite Hh, String.eqb_refl, Hd. cbn [negb andb run_prog bind_prog try_prog].
  rewrite (proj2 (Z.leb_gt _ _) Ht), (proj2 (Z.leb_gt _ _) Hu), String.eqb_refl. cbn [negb].
  unfold RegistrationTokenConsumedEvent. rewrite Hc. cbn [mbind result_bind wrap_err run_prog bind_prog try_prog].
  destruct (ti_rows _ HI _ _ Hrow) as (Hpos & Hver & _).
  rewrite (AppendPinned_quiet projectToken _ _ _ _ (<[id := with_uses st (rt_Uses st + 1) (rt_ProjectionVersion st + 1)]> (td_tables db)));
    [|done|lia|done|].
  - cbn [run_prog]. eexists. split; [done|]. cbn [td_tables]. by rewrite lookup_insert_eq.
  - change (projectRegistrationTokenConsume id (rt_ProjectionVersion st + 1) (td_tables db)
      = Ok (<[id := with_uses st (rt_Uses st + 1) (rt_ProjectionVersion st + 1)]> (td_tables db))).
    unfold projectRegistrationTokenConsume, ProjectRegistrationTokenConsume.
    rewrite (proj2 (Z.leb_gt _ 1)) by lia. rewrite Hrow, Hd, (proj2 (Z.ltb_lt _ _) Hu), (proj2 (Z.ltb_lt (rt_ProjectionVersion st) _)) by lia.
    cbn. unfold with_uses. by rewrite Hd.
Qed.
End RoundTrip.

(** A token that was minted is the token that enrols: whatever else the
    database holds, the text a successful mint hands out parses back to the
    identifier and secret it was made of, the stored row carries the requested
    options under the hash of that secret and no use, and while the token has
    not expired an undisturbed consume call for its purpose grants exactly the
    requested owner, purpose and names and records the first use. *)
Theorem minted_token_is_consumed {schemes : Schemes} options env env' db db1 m :
  tok_inv db -> (forall material, tn_random env = Some material -> Forall is_byte material) ->
  run_prog env db (Mint options) = (db1, Ok m) ->
  quiet env' -> tn_now env' < ro_ExpiresAt options ->
  exists secret db2,
    parseRegistrationToken (mt_Token m) = (mt_TokenID m, secret, true)
    /\ td_tables db1 !! mt_TokenID m = Some (fresh_token (sha256 secret) options)
    /\ run_prog env' db1 (Consume (mt_Token m) (ro_Purpose options))
       = (db2, Ok (mkRegistrationTokenGrant (mt_TokenID m) (ro_Owner options) (ro_Purpose options) (ro_DNSNames options)))
    /\ td_tables db2 !! mt_TokenID m = Some (with_uses (fresh_token (sha256 secret) options) 1 2).
Proof.
  intros HI Hr (secret & Hparse & Hid & Hrow & Hm & Hp & HI1)%Mint_ok Hq Hnow; [|done|done].
  exists secret. destruct (ti_rows _ HI1 _ _ Hrow) as (_ & _ & _ & _ & Hlen). unfold fresh_token in Hlen; cbn [rt_Hash] in Hlen.
  assert (Hmax : 0 < ro_MaxUses options) by (by apply bind_ok in Hm as (u & Hm%fail_if_ok%Z.leb_gt & _)).
  destruct (Consume_live env' db1 (mt_Token m) (mt_TokenID m) secret (fresh_token (sha256 secret) options)) as (db2 & Hc & Hrow2);
    try done.
  - unfold registrationTokenFromRow, fresh_token. cbn [rt_Hash rt_Purpose rt_DNSNames rt_MaxUses rt_Uses rt_ExpiresAt rt_Owner rt_ProjectionVersion].
    rewrite Hlen, Hm, Hp. cbn. by rewrite (proj2 (Z.ltb_ge _ 0)) by lia.
  - by exists db2.
Qed.

(** ** Witnesses *)

(** A hash of 32 bytes. *)
#[local] Instance example_schemes : Schemes := {|
  sha256 material := string_of_bytes (take 32 (material ++ repeat 0 32));
  signDigest _ _ := Err "no key"%string;
  verifyASN1 _ _ _ := false;
  verifyPKCS1v15 _ _ _ := false;
  parsesASN1 _ := false;
|}.

Definition example_env : TokenEnv :=
  mkTokenEnv (mkAppendEnv None Committed 0) None (1700000000 * second) (Some (seqZ 0 42)) None.
Definition example_options : RegistrationTokenOptions :=
  mkRegistrationTokenOptions RegistrationTokenPurposeGateway 1 (1800000000 * second) "ops" ["gw.example.org"].
Definition example_minted : TokenDB * result goerr MintedRegistrationToken :=
  run_prog example_env (mkTypedDB [] ∅) (Mint example_options).
Definition example_raw : string :=
  Eval vm_compute in match example_minted.2 with Ok m => mt_Token m | Err _ => "" end.
Definition example_id : string := Eval vm_compute in String.substring 0 26 example_raw.
Definition example_db : TokenDB := Eval vm_compute in example_minted.1.

Lemma example_mint : run_prog example_env (mkTypedDB [] ∅) (Mint example_options)
  = (example_db, Ok (mkMintedRegistrationToken example_id example_raw)).
Proof. vm_compute. reflexivity. Qed.

Lemma example_inv : tok_inv example_db.
Proof.
  destruct (Mint_ok example_env example_options (mkTypedDB [] ∅) example_db
    (mkMintedRegistrationToken example_id example_raw) tok_inv_empty) as (secret & _ & _ & _ & _ & _ & H);
    [|exact example_mint|exact H].
  intros material [= <-]. apply Forall_forall. intros v Hv%elem_of_seqZ. unfold is_byte. lia.
Qed.

(** The same call twice: the first run to its grant, the second told that the
    token is used up. *)
Definition example_calls : list (string * string) :=
  [(example_raw, RegistrationTokenPurposeGateway); (example_raw, RegistrationTokenPurposeGateway)].
Definition example_grant : RegistrationTokenGrant :=
  mkRegistrationTokenGrant example_id "ops" RegistrationTokenPurposeGateway ["gw.example.org"].
Definition example_db2 : TokenDB :=
  Eval vm_compute in (exec (replicate 3 example_env) example_db (Consume example_raw RegistrationTokenPurposeGateway)).1.

Lemma example_consumed :
  exec (replicate 3 example_env) example_db (Consume example_raw RegistrationTokenPurposeGateway)
  = (example_db2, Ret (Ok example_grant)).
Proof. vm_compute. reflexivity. Qed.

Lemma example_rejected :
  exec (replicate 3 example_env) example_db2 (Consume example_raw RegistrationTokenPurposeGateway)
  = (example_db2, Ret (Err ErrInvalidRegistrationToken)).
Proof. vm_compute. reflexivity. Qed.

Lemma example_schedule :
  rtc (sched_step token_append) (example_db, (fun c => Consume c.1 c.2) <$> example_calls)
    (example_db2, [Ret (Ok example_grant); Ret (Err ErrInvalidRegistrationToken)]).
Proof.
  set (p := Consume example_raw RegistrationTokenPurposeGateway).
  pose proof (exec_schedule_at token_append (replicate 3 example_env) example_db p [p; p] 0 eq_refl) as H1.
  unfold p in H1 at 2 4. rewrite example_consumed in H1. cbn [fst snd list_insert insert] in H1.
  pose proof (exec_schedule_at token_append (replicate 3 example_env) example_db2 p [Ret (Ok example_grant); p] 1 eq_refl) as H2.
  unfold p in H2 at 2 3. rewrite example_rejected in H2. cbn [fst snd list_insert insert] in H2.
  by etrans.
Qed.

Lemma consume_never_exceeds_limit_witness :
  exists row, td_tables example_db2 !! example_id = Some row
    /\ Z.of_nat (wins (granted example_id) ([Ret (Ok example_grant); Ret (Err ErrInvalidRegistrationToken)]
                     : list (TokenProg RegistrationTokenGrant)))
       + Z.of_nat (consumed_count example_id (td_log example_db)) <= rt_Uses row <= rt_MaxUses row.
Proof.
  destruct (td_tables example_db2 !! example_id) as [row|] eqn:E; [|vm_compute in E; discriminate E].
  exists row. split; [reflexivity|].
  exact (consume_never_exceeds_limit example_calls example_db example_db2 _ example_id row example_inv example_schedule E).
Defined.

Lemma every_grant_was_authorized_witness :
  exists id secret, parseRegistrationToken example_raw = (id, secret, true)
    /\ authorized_use secret RegistrationTokenPurposeGateway example_grant example_db2.
Proof.
  exact (every_grant_was_authorized example_calls example_db example_db2 _ 0 example_raw RegistrationTokenPurposeGateway
    example_grant example_inv example_schedule eq_refl eq_refl).
Defined.

Lemma minted_token_is_consumed_witness :
  exists secret db2, parseRegistrationToken example_raw = (example_id, secret, true)
    /\ td_tables example_db !! example_id = Some (fresh_token (sha256 secret) example_options)
    /\ run_prog example_env example_db (Consume example_raw RegistrationTokenPurposeGateway) = (db2, Ok example_grant)
    /\ td_tables db2 !! example_id = Some (with_uses (fresh_token (sha256 secret) example_options) 1 2).
Proof.
  apply (minted_token_is_consumed example_options example_env example_env (mkTypedDB [] ∅) example_db
    (mkMintedRegistrationToken example_id example_raw) tok_inv_empty).
  - intros material [= <-]. apply Forall_forall. intros v Hv%elem_of_seqZ. unfold is_byte. lia.
  - exact example_mint.
  - repeat split.
  - reflexivity.
Defined.
