(* ===== verification/Leaves.v ===== *)
(** * [server/internal/store/devices.go], [gateways.go]: leaf certificates

    Devices and gateways are projections of their own event streams.  Every
    event that replaces, revokes or removes a certificate also records its
    revocation and enqueues the publication of a revocation list, in the same
    transaction. *)

From Stdlib Require Import Ascii String ZArith Lia.
From S2P Require Export WorkQueue Tokens Crl.

(** server/internal/store/devices.go:21-33 [deviceStreamType] *)
Definition deviceStreamType : string := "device".
Definition maxCertificateDERBytes : Z := 65536.
Definition reasonCodeUnspecified : Z := 0.
Definition reasonCodeSuperseded : Z := 4.

(** server/internal/store/gateways.go:21-28 [gatewayStreamType] *)
Definition gatewayStreamType : string := "gateway".
Definition gatewayCertificateLifetime : Z := 45 * 24 * hour.

(** server/internal/store/devices.go:42-50 [DeviceLifecycleState] *)
Definition DeviceLifecycleActive : string := "active".
Definition DeviceLifecycleForceRenewal : string := "force_renewal".
Definition DeviceLifecycleRevoked : string := "revoked".

(** server/internal/store/gateways.go:36-42 [GatewayLifecycleState] *)
Definition GatewayLifecycleActive : string := "active".
Definition GatewayLifecycleRevoked : string := "revoked".

(** server/internal/store/devices.go:66-71 [agentEnrolledPayload] *)
Record agentEnrolledPayload := mkAgentEnrolledPayload {
  ae_CertificateDER : string;
  ae_SealingPublicKey : list Z;
  ae_RegistrationTokenID : string;
  ae_Owner : string;
}.

(** server/internal/store/devices.go:73-77 [agentCertificateRenewedPayload] *)
Record agentCertificateRenewedPayload := mkAgentCertificateRenewedPayload {
  ar_CertificateDER : string;
  ar_SealingPublicKey : list Z;
  ar_SupersededCertificateDER : string;
}.

(** server/internal/store/gateways.go:57-62 [gatewayEnrolledPayload] *)
Record gatewayEnrolledPayload := mkGatewayEnrolledPayload {
  ge_CertificateDER : string;
  ge_RegistrationTokenID : string;
  ge_Owner : string;
  ge_DNSNames : list string;
}.

(** server/internal/store/gateways.go:64-67 [gatewayCertificateRenewedPayload] *)
Record gatewayCertificateRenewedPayload := mkGatewayCertificateRenewedPayload {
  gr_CertificateDER : string;
  gr_SupersededCertificateDER : string;
}.

(** server/internal/store/devices.go:84-90 [agentCertificateLifecyclePayload]:
    the payloads of the nine event types *)
Inductive leafPayload :=
| agentEnrolled (p : agentEnrolledPayload)
| agentCertificateRenewed (p : agentCertificateRenewedPayload)
| agentCertificateRevoked (CertificateDER : string)
| agentForceRenewalRequired (CertificateDER : string)
| agentOwnerUpdated (Owner : string)
| agentDeleted (CertificateDER : string)
| gatewayEnrolled (p : gatewayEnrolledPayload)
| gatewayCertificateRenewed (p : gatewayCertificateRenewedPayload)
| gatewayCertificateRevoked (CertificateDER : string).

(** server/internal/store/migrations/006_devices.sql:5-22 [devices], the columns
    besides the key; the previous certificate is null at first *)
Record DeviceRow := mkDeviceRow {
  dr_ProjectionVersion : Z;
  dr_CertificateDer : string;
  dr_CertificateFingerprint : string;
  dr_SealingPublicKey : list Z;
  dr_RegistrationTokenID : string;
  dr_Owner : string;
  dr_LifecycleState : string;
  dr_UpdatedAt : time;
  dr_PreviousCertificateDer : string;
}.

(** server/internal/store/migrations/011_gateway_identity.sql:22-47 [gateways] *)
Record GatewayRow := mkGatewayRow {
  gt_ProjectionVersion : Z;
  gt_CertificateDer : string;
  gt_CertificateFingerprint : string;
  gt_PreviousCertificateDer : string;
  gt_RegistrationTokenID : string;
  gt_Owner : string;
  gt_DnsNames : list string;
  gt_LifecycleState : string;
  gt_UpdatedAt : time;
}.

(** server/internal/store/devices.go:54-64 [Device] *)
Record Device := mkDevice {
  DeviceID : string;
  dv_CertificateDER : string;
  dv_CertificateFingerprint : string;
  dv_SealingPublicKey : list Z;
  dv_PreviousCertificateDER : string;
  dv_RegistrationTokenID : string;
  dv_Owner : string;
  dv_LifecycleState : string;
  dv_ProjectionVersion : Z;
}.

(** server/internal/store/gateways.go:45-55 [Gateway] *)
Record Gateway := mkGateway {
  GatewayID : string;
  gw_CertificateDER : string;
  gw_CertificateFingerprint : string;
  gw_PreviousCertificateDER : string;
  gw_RegistrationTokenID : string;
  gw_Owner : string;
  gw_DNSNames : list string;
  gw_LifecycleState : string;
  gw_ProjectionVersion : Z;
}.

(** The tables the projectors write. *)
Record LeafTables := mkLeafTables {
  lf_devices : gmap string DeviceRow;
  lf_gateways : gmap string GatewayRow;
  lf_crl : CRLTables;
  lf_work : WorkTable;
}.

Definition LeafEvent : Type := TypedEvent leafPayload.
Definition LeafRow : Type := TypedRow leafPayload.
Definition LeafDB : Type := TypedDB leafPayload LeafTables.

Definition with_devices (t : LeafTables) (m : gmap string DeviceRow) : LeafTables :=
  mkLeafTables m (lf_gateways t) (lf_crl t) (lf_work t).
Definition with_gateways (t : LeafTables) (m : gmap string GatewayRow) : LeafTables :=
  mkLeafTables (lf_devices t) m (lf_crl t) (lf_work t).

(** [crypto/ecdh]: whether an encoding is a public key, and whether the fixed
    scalar derives a usable secret from it. *)
Class X25519 := {
  NewPublicKey : list Z -> bool;
  ECDH_usable : list Z -> bool;
}.

Section Leaves.
Context {x509 : X509} {schemes : Schemes} {x25519 : X25519}.

(** ** Validation *)

(** contract/seal/x25519.go:22-42 [ValidateX25519PublicKey] *)
Definition ValidateX25519PublicKey (encoded : list Z) : result goerr unit :=
  fail_if (negb (zlen encoded =? 32))
    (EWrap "must be exactly 32 bytes" (ESentinel "seal: invalid X25519 public key")) ≫= fun _ =>
  fail_if (negb (NewPublicKey encoded)) (ESentinel "seal: invalid X25519 public key") ≫= fun _ =>
  fail_if (negb (ECDH_usable encoded)) (ESentinel "seal: X25519 public key is low-order").

(** server/internal/store/devices.go:946-951 [canonicalDeviceID] *)
Definition canonicalDeviceID (deviceID : string) : result goerr string :=
  wrap_err (fun m => EWrap "store: invalid device ID" (EMsg m)) (ULIDPathID deviceID) ≫= fun _ => Ok (to_upper deviceID).

(** server/internal/store/devices.go:909-944 [validateAgentCertificate]: the
    canonical identifier and the parsed certificate; the DER is the argument *)
Definition validateAgentCertificate (deviceID der : string) : result goerr (string * Certificate) :=
  canonicalDeviceID deviceID ≫= fun deviceID =>
  fail_if ((len der =? 0) || (maxCertificateDERBytes <? len der))
    (EMsg "store: certificate DER must contain 1..65536 bytes") ≫= fun _ =>
  or_err (ParseCertificate der) (EMsg "store: parse certificate DER") ≫= fun certificate =>
  fail_if (negb (String.eqb (Raw certificate) der)) (EMsg "store: certificate DER contains trailing data") ≫= fun _ =>
  wrap_err (fun m => EWrap "store: parse certificate identity" (EMsg m))
    (ParseCertificateIdentity (Some certificate)) ≫= fun '(class, certificateID) =>
  fail_if (negb (String.eqb class AgentClass)) (EMsg "store: certificate class is not agent") ≫= fun _ =>
  fail_if (negb (String.eqb certificateID deviceID))
    (EMsg "store: certificate identity is mismatched with device ID") ≫= fun _ =>
  fail_if (IsCA certificate || negb (BasicConstraintsValid certificate)
           || (Z.land (KeyUsage certificate) KeyUsageDigitalSignature =? 0)
           || negb (bool_decide (ExtKeyUsage certificate = [ExtKeyUsageClientAuth]))
           || negb (NotBefore certificate <? NotAfter certificate))
    (EMsg "store: certificate DER has an invalid agent profile") ≫= fun _ =>
  wrap_err (fun m => EWrap "store: validate certificate public key" (EMsg m))
    (ValidateSigningKey (PublicKey certificate)) ≫= fun _ =>
  Ok (deviceID, certificate).

(** server/internal/store/devices.go:843-864 [validateAgentEnrollment] *)
Definition validateAgentEnrollment (deviceID : string) (payload : agentEnrolledPayload)
    : result goerr (string * agentEnrolledPayload) :=
  validateAgentCertificate deviceID (ae_CertificateDER payload) ≫= fun '(deviceID, certificate) =>
  ValidateX25519PublicKey (ae_SealingPublicKey payload) ≫= fun _ =>
  wrap_err (EWrap "store: invalid registration token ID")
    (canonicalRegistrationTokenID (ae_RegistrationTokenID payload)) ≫= fun tokenID =>
  wrap_err (EWrap "store: invalid device owner")
    (validateRegistrationTokenMetadata 1 (NotAfter certificate) (ae_Owner payload)) ≫= fun _ =>
  Ok (deviceID, mkAgentEnrolledPayload (ae_CertificateDER payload) (ae_SealingPublicKey payload) tokenID (ae_Owner payload)).

(** server/internal/store/devices.go:866-871 [validateDeviceOwner] *)
Definition validateDeviceOwner (owner : string) : result goerr unit :=
  wrap_err (fun _ => EMsg "store: device owner is invalid") (validateRegistrationTokenOwner owner).

(** server/internal/store/devices.go:873-907 [validateAgentCertificateRenewal] *)
Definition validateAgentCertificateRenewal (deviceID : string) (payload : agentCertificateRenewedPayload)
    : result goerr string :=
  validateAgentCertificate deviceID (ar_CertificateDER payload) ≫= fun '(deviceID, certificate) =>
  wrap_err (EWrap "store: invalid superseded certificate")
    (validateAgentCertificate deviceID (ar_SupersededCertificateDER payload)) ≫= fun '(_, superseded) =>
  fail_if (String.eqb (ar_CertificateDER payload) (ar_SupersededCertificateDER payload))
    (EMsg "store: renewed certificate equals the superseded certificate") ≫= fun _ =>
  or_err (MarshalPKIXPublicKey (PublicKey certificate))
    (EMsg "store: marshal renewed certificate public key") ≫= fun certificateKey =>
  or_err (MarshalPKIXPublicKey (PublicKey superseded))
    (EMsg "store: marshal superseded certificate public key") ≫= fun supersededKey =>
  fail_if (negb (String.eqb certificateKey supersededKey))
    (EMsg "store: renewed certificate public key differs from superseded certificate") ≫= fun _ =>
  ValidateX25519PublicKey (ar_SealingPublicKey payload) ≫= fun _ => Ok deviceID.

(** server/internal/store/gateways.go:440-445 [canonicalGatewayID] *)
Definition canonicalGatewayID (gatewayID : string) : result goerr string :=
  wrap_err (fun m => EWrap "store: invalid gateway ID" (EMsg m)) (ULIDPathID gatewayID) ≫= fun _ => Ok (to_upper gatewayID).

(** server/internal/store/gateways.go:436-438 [exactGatewayExtendedKeyUsage] *)
Definition exactGatewayExtendedKeyUsage (usages : list Z) : bool :=
  (zlen usages =? 2) && bool_decide (ExtKeyUsageServerAuth ∈ usages) && bool_decide (ExtKeyUsageClientAuth ∈ usages).

(** server/internal/store/gateways.go:401-434 [validateGatewayCertificate] *)
Definition validateGatewayCertificate (gatewayID der : string) : result goerr (string * Certificate) :=
  canonicalGatewayID gatewayID ≫= fun gatewayID =>
  fail_if ((len der =? 0) || (maxCertificateDERBytes <? len der))
    (EMsg "store: gateway certificate DER size is invalid") ≫= fun _ =>
  or_err (ParseCertificate der) (EMsg "store: gateway certificate DER is invalid") ≫= fun certificate =>
  fail_if (negb (String.eqb (Raw certificate) der)) (EMsg "store: gateway certificate DER is invalid") ≫= fun _ =>
  wrap_err (fun _ => EMsg "store: gateway certificate identity is invalid")
    (ParseCertificateIdentity (Some certificate)) ≫= fun '(class, certificateID) =>
  fail_if (negb (String.eqb class GatewayClass) || negb (String.eqb certificateID gatewayID))
    (EMsg "store: gateway certificate identity is invalid") ≫= fun _ =>
  fail_if (IsCA certificate || negb (BasicConstraintsValid certificate)
           || (Z.land (KeyUsage certificate) KeyUsageDigitalSignature =? 0)
           || negb (NotAfter certificate - NotBefore certificate =? gatewayCertificateLifetime)
           || negb (exactGatewayExtendedKeyUsage (ExtKeyUsage certificate))
           || negb (zlen (UnknownExtKeyUsage certificate) =? 0)
           || negb (zlen (EmailAddresses certificate) =? 0) || negb (zlen (IPAddresses certificate) =? 0))
    (EMsg "store: gateway certificate profile is invalid") ≫= fun _ =>
  wrap_err (fun m => EWrap "store: gateway certificate profile is invalid" (EMsg m))
    (RequireDNSAndURISANs (Some certificate)) ≫= fun _ =>
  validateRegistrationTokenPurpose RegistrationTokenPurposeGateway (DNSNames certificate) ≫= fun _ =>
  wrap_err (fun m => EWrap "store: validate gateway certificate key" (EMsg m))
    (ValidateSigningKey (PublicKey certificate)) ≫= fun _ =>
  Ok (gatewayID, certificate).

(** server/internal/store/gateways.go:356-376 [validateGatewayEnrollment] *)
Definition validateGatewayEnrollment (gatewayID : string) (payload : gatewayEnrolledPayload)
    : result goerr (string * gatewayEnrolledPayload) :=
  validateGatewayCertificate gatewayID (ge_CertificateDER payload) ≫= fun '(gatewayID, certificate) =>
  validateRegistrationTokenPurpose RegistrationTokenPurposeGateway (ge_DNSNames payload) ≫= fun dnsNames =>
  fail_if (negb (bool_decide (DNSNames certificate = dnsNames)))
    (EMsg "store: gateway certificate DNS names differ from token metadata") ≫= fun _ =>
  canonicalRegistrationTokenID (ge_RegistrationTokenID payload) ≫= fun tokenID =>
  validateRegistrationTokenMetadata 1 (NotAfter certificate) (ge_Owner payload) ≫= fun _ =>
  Ok (gatewayID, mkGatewayEnrolledPayload (ge_CertificateDER payload) tokenID (ge_Owner payload) dnsNames).

(** server/internal/store/gateways.go:378-399 [validateGatewayRenewal] *)
Definition validateGatewayRenewal (gatewayID : string) (payload : gatewayCertificateRenewedPayload) : result goerr string :=
  validateGatewayCertificate gatewayID (gr_CertificateDER payload) ≫= fun '(gatewayID, certificate) =>
  wrap_err (EWrap "store: invalid superseded gateway certificate")
    (validateGatewayCertificate gatewayID (gr_SupersededCertificateDER payload)) ≫= fun '(_, superseded) =>
  fail_if (String.eqb (gr_CertificateDER payload) (gr_SupersededCertificateDER payload)
           || negb (bool_decide (DNSNames certificate = DNSNames superseded)))
    (EMsg "store: gateway renewal certificate continuity is invalid") ≫= fun _ =>
  or_err (MarshalPKIXPublicKey (PublicKey certificate)) (EMsg "x509: unsupported public key type") ≫= fun currentKey =>
  or_err (MarshalPKIXPublicKey (PublicKey superseded))
    (EMsg "store: renewed gateway public key differs from predecessor") ≫= fun previousKey =>
  fail_if (negb (String.eqb currentKey previousKey))
    (EMsg "store: renewed gateway public key differs from predecessor") ≫= fun _ => Ok gatewayID.

(** ** Events *)

Definition deviceEvent (deviceID : string) (payload : leafPayload) : LeafEvent :=
  mkTypedEvent deviceStreamType deviceID payload.
Definition gatewayEvent (gatewayID : string) (payload : leafPayload) : LeafEvent :=
  mkTypedEvent gatewayStreamType gatewayID payload.

(** server/internal/store/devices.go:89-119 [AgentEnrolledEvent] *)
Definition AgentEnrolledEvent (deviceID certificateDER : string) (sealingPublicKey : list Z)
    (registrationTokenID owner : string) : result goerr LeafEvent :=
  validateAgentEnrollment deviceID
    (mkAgentEnrolledPayload certificateDER sealingPublicKey registrationTokenID owner) ≫= fun '(deviceID, payload) =>
  Ok (deviceEvent deviceID (agentEnrolled payload)).

(** server/internal/store/devices.go:124-149 [AgentCertificateRenewedEvent] *)
Definition AgentCertificateRenewedEvent (deviceID certificateDER : string) (sealingPublicKey : list Z)
    (supersededCertificateDER : string) : result goerr LeafEvent :=
  let payload := mkAgentCertificateRenewedPayload certificateDER sealingPublicKey supersededCertificateDER in
  validateAgentCertificateRenewal deviceID payload ≫= fun deviceID =>
  Ok (deviceEvent deviceID (agentCertificateRenewed payload)).

(** server/internal/store/devices.go:185-201 [agentCertificateLifecycleEvent] *)
Definition agentCertificateLifecycleEvent (deviceID certificateDER : string) (eventType : string -> leafPayload)
    : result goerr LeafEvent :=
  validateAgentCertificate deviceID certificateDER ≫= fun '(deviceID, _) =>
  Ok (deviceEvent deviceID (eventType certificateDER)).

(** server/internal/store/devices.go:153-155 [AgentCertificateRevokedEvent] *)
Definition AgentCertificateRevokedEvent (deviceID certificateDER : string) : result goerr LeafEvent :=
  agentCertificateLifecycleEvent deviceID certificateDER agentCertificateRevoked.

(** server/internal/store/devices.go:159-161 [AgentCertificateForceRenewalRequiredEvent] *)
Definition AgentCertificateForceRenewalRequiredEvent (deviceID certificateDER : string) : result goerr LeafEvent :=
  agentCertificateLifecycleEvent deviceID certificateDER agentForceRenewalRequired.

(** server/internal/store/devices.go:164-177 [AgentOwnerUpdatedEvent] *)
Definition AgentOwnerUpdatedEvent (deviceID owner : string) : result goerr LeafEvent :=
  canonicalDeviceID deviceID ≫= fun deviceID =>
  validateDeviceOwner owner ≫= fun _ => Ok (deviceEvent deviceID (agentOwnerUpdated owner)).

(** server/internal/store/devices.go:181-183 [AgentDeletedEvent] *)
Definition AgentDeletedEvent (deviceID certificateDER : string) : result goerr LeafEvent :=
  agentCertificateLifecycleEvent deviceID certificateDER agentDeleted.

(** server/internal/store/gateways.go:74-95 [GatewayEnrolledEvent] *)
Definition GatewayEnrolledEvent (gatewayID certificateDER registrationTokenID owner : string) (dnsNames : list string)
    : result goerr LeafEvent :=
  validateGatewayEnrollment gatewayID
    (mkGatewayEnrolledPayload certificateDER registrationTokenID owner dnsNames) ≫= fun '(gatewayID, payload) =>
  Ok (gatewayEvent gatewayID (gatewayEnrolled payload)).

(** server/internal/store/gateways.go:98-111 [GatewayCertificateRenewedEvent] *)
Definition GatewayCertificateRenewedEvent (gatewayID certificateDER supersededDER : string) : result goerr LeafEvent :=
  let payload := mkGatewayCertificateRenewedPayload certificateDER supersededDER in
  validateGatewayRenewal gatewayID payload ≫= fun gatewayID =>
  Ok (gatewayEvent gatewayID (gatewayCertificateRenewed payload)).

(** server/internal/store/gateways.go:114-124 [GatewayCertificateRevokedEvent] *)
Definition GatewayCertificateRevokedEvent (gatewayID certificateDER : string) : result goerr LeafEvent :=
  validateGatewayCertificate gatewayID certificateDER ≫= fun '(gatewayID, _) =>
  Ok (gatewayEvent gatewayID (gatewayCertificateRevoked certificateDER)).

(** ** Queries *)

(** server/internal/store/queries/devices.sql:1-12 [UpsertDeviceEnrollment] *)
Definition UpsertDeviceEnrollment (id : string) (row : DeviceRow) (m : gmap string DeviceRow) : gmap string DeviceRow * Z :=
  match m !! id with Some _ => (m, 0) | None => (<[id := row]> m, 1) end.

(** server/internal/store/queries/devices.sql:71-83 [UpdateDeviceRenewal] *)
Definition UpdateDeviceRenewal (id : string) (version : Z) (certificateDER fingerprint : string) (sealing : list Z)
    (superseded : string) (updatedAt : time) (m : gmap string DeviceRow) : gmap string DeviceRow * Z :=
  match m !! id with
  | Some r =>
      if (dr_ProjectionVersion r =? version - 1) && String.eqb (dr_CertificateDer r) superseded
         && (String.eqb (dr_LifecycleState r) "active" || String.eqb (dr_LifecycleState r) "force_renewal")
      then (<[id := mkDeviceRow version certificateDER fingerprint sealing (dr_RegistrationTokenID r) (dr_Owner r)
                      "active" updatedAt superseded]> m, 1)
      else (m, 0)
  | None => (m, 0)
  end.

(** server/internal/store/queries/devices.sql:85-99 [UpdateDeviceLifecycleState] *)
Definition UpdateDeviceLifecycleState (id : string) (version : Z) (state certificateDER previousState : string)
    (allowForceRenewal : bool) (updatedAt : time) (m : gmap string DeviceRow) : gmap string DeviceRow * Z :=
  match m !! id with
  | Some r =>
      if (dr_ProjectionVersion r =? version - 1) && String.eqb (dr_CertificateDer r) certificateDER
         && (String.eqb (dr_LifecycleState r) previousState
             || allowForceRenewal && String.eqb (dr_LifecycleState r) "force_renewal")
      then (<[id := mkDeviceRow version (dr_CertificateDer r) (dr_CertificateFingerprint r) (dr_SealingPublicKey r)
                      (dr_RegistrationTokenID r) (dr_Owner r) state updatedAt (dr_PreviousCertificateDer r)]> m, 1)
      else (m, 0)
  | None => (m, 0)
  end.

(** server/internal/store/queries/devices.sql:55-61 [UpdateDeviceOwner] *)
Definition UpdateDeviceOwner (id : string) (version : Z) (owner : string) (updatedAt : time) (m : gmap string DeviceRow)
    : gmap string DeviceRow * Z :=
  match m !! id with
  | Some r =>
      if dr_ProjectionVersion r =? version - 1
      then (<[id := mkDeviceRow version (dr_CertificateDer r) (dr_CertificateFingerprint r) (dr_SealingPublicKey r)
                      (dr_RegistrationTokenID r) owner (dr_LifecycleState r) updatedAt (dr_PreviousCertificateDer r)]> m, 1)
      else (m, 0)
  | None => (m, 0)
  end.

(** server/internal/store/queries/devices.sql:63-66 [DeleteDeviceProjection] *)
Definition DeleteDeviceProjection (id : string) (version : Z) (m : gmap string DeviceRow) : gmap string DeviceRow * Z :=
  match m !! id with
  | Some r => if dr_ProjectionVersion r =? version then (delete id m, 1) else (m, 0)
  | None => (m, 0)
  end.

(** server/internal/store/queries/gateways.sql:1-12 [UpsertGatewayEnrollment] *)
Definition UpsertGatewayEnrollment (id : string) (row : GatewayRow) (m : gmap string GatewayRow) : gmap string GatewayRow * Z :=
  match m !! id with Some _ => (m, 0) | None => (<[id := row]> m, 1) end.

(** server/internal/store/queries/gateways.sql:21-31 [UpdateGatewayRenewal] *)
Definition UpdateGatewayRenewal (id : string) (version : Z) (certificateDER fingerprint superseded : string)
    (updatedAt : time) (m : gmap string GatewayRow) : gmap string GatewayRow * Z :=
  match m !! id with
  | Some r =>
      if (gt_ProjectionVersion r =? version - 1) && String.eqb (gt_CertificateDer r) superseded
         && String.eqb (gt_LifecycleState r) "active"
      then (<[id := mkGatewayRow version certificateDER fingerprint superseded (gt_RegistrationTokenID r) (gt_Owner r)
                      (gt_DnsNames r) (gt_LifecycleState r) updatedAt]> m, 1)
      else (m, 0)
  | None => (m, 0)
  end.

(** server/internal/store/queries/gateways.sql:33-41 [UpdateGatewayLifecycleState] *)
Definition UpdateGatewayLifecycleState (id : string) (version : Z) (certificateDER : string) (updatedAt : time)
    (m : gmap string GatewayRow) : gmap string GatewayRow * Z :=
  match m !! id with
  | Some r =>
      if (gt_ProjectionVersion r =? version - 1) && String.eqb (gt_CertificateDer r) certificateDER
         && String.eqb (gt_LifecycleState r) "active"
      then (<[id := mkGatewayRow version (gt_CertificateDer r) (gt_CertificateFingerprint r) (gt_PreviousCertificateDer r)
                      (gt_RegistrationTokenID r) (gt_Owner r) (gt_DnsNames r) "revoked" updatedAt]> m, 1)
      else (m, 0)
  | None => (m, 0)
  end.

(** server/internal/store/queries/crl.sql:1-14 [InsertCertificateRevocation] with the
    table's constraints ([migrations/009_certificate_revocations.sql:13-51],
    [013_issuer_scoped_crl_state.sql:15-31]): a known certificate is left alone,
    a known serial number or source event is a violation *)
Definition InsertCertificateRevocation (r : CertificateRevocation) (t : CRLTables) : result goerr (CRLTables * Z) :=
  fail_if (negb (validCertificateClass (cv_Class r)) || negb (len (cv_Fingerprint r) =? 32)
           || (len (cv_CertificateDER r) <? 1) || (65536 <? len (cv_CertificateDER r))
           || (zlen (cv_SerialNumber r) <? 1) || (20 <? zlen (cv_SerialNumber r))
           || (len (cv_IssuerIdentifier r) <? 1) || (64 <? len (cv_IssuerIdentifier r))
           || negb (validReasonCode (cv_ReasonCode r))) (EPg "23514" "certificate_revocations") ≫= fun _ =>
  if existsb (fun r0 => String.eqb (cv_Class r0) (cv_Class r) && String.eqb (cv_Fingerprint r0) (cv_Fingerprint r)) (t_revocations t)
  then Ok (t, 0)
  else
    fail_if (existsb (fun r0 => String.eqb (cv_Class r0) (cv_Class r)
                                && String.eqb (cv_IssuerIdentifier r0) (cv_IssuerIdentifier r)
                                && bool_decide (cv_SerialNumber r0 = cv_SerialNumber r)) (t_revocations t))
      (EPg "23505" "certificate_revocations_issuer_serial_key") ≫= fun _ =>
    fail_if (existsb (fun r0 => bool_decide (cv_Source r0 = cv_Source r)) (t_revocations t))
      (EPg "23505" "certificate_revocations_source_event_key") ≫= fun _ =>
    Ok (mkCRLTables (t_crl t) (t_receipts t) (t_revocations t ++ [r]) (t_published t), 1).

(** server/internal/store/queries/crl.sql:16-22 [GetCertificateRevocation] *)
Definition GetCertificateRevocation (class fingerprint : string) (t : CRLTables) : result goerr CertificateRevocation :=
  or_err (find (fun r => String.eqb (cv_Class r) class && String.eqb (cv_Fingerprint r) fingerprint) (t_revocations t)) ErrNoRows.

(** ** Reads *)

(** server/internal/store/devices.go:839-841 [validDeviceLifecycleState] *)
Definition validDeviceLifecycleState (state : string) : bool :=
  String.eqb state DeviceLifecycleActive || String.eqb state DeviceLifecycleForceRenewal
  || String.eqb state DeviceLifecycleRevoked.

(** server/internal/store/devices.go:331-395 [deviceFromValues] *)
Definition deviceFromValues (deviceID rowDeviceID : string) (row : DeviceRow) (requireDerivedFingerprint : bool)
    : result goerr Device :=
  fail_if (dr_ProjectionVersion row <=? 0) (EMsg "store: device projection has an invalid version") ≫= fun _ =>
  wrap_err (EWrap "store: invalid device projection")
    (validateAgentEnrollment rowDeviceID
       (mkAgentEnrolledPayload (dr_CertificateDer row) (dr_SealingPublicKey row) (dr_RegistrationTokenID row)
          (dr_Owner row))) ≫= fun '(canonicalID, payload) =>
  fail_if (negb (String.eqb canonicalID deviceID)) (EMsg "store: device projection returned a mismatched ID") ≫= fun _ =>
  fail_if (negb (len (dr_CertificateFingerprint row) =? 32))
    (EMsg "store: device projection has an invalid certificate fingerprint") ≫= fun _ =>
  fail_if (negb (validDeviceLifecycleState (dr_LifecycleState row)))
    (EMsg "store: device projection has an invalid lifecycle state") ≫= fun _ =>
  fail_if (requireDerivedFingerprint
           && negb (String.eqb (dr_CertificateFingerprint row) (Sum256 (ae_CertificateDER payload))))
    (EMsg "store: device projection has a mismatched certificate fingerprint") ≫= fun _ =>
  (if 0 <? len (dr_PreviousCertificateDer row) then
     wrap_err (EWrap "store: invalid previous certificate projection")
       (validateAgentCertificateRenewal canonicalID
          (mkAgentCertificateRenewedPayload (ae_CertificateDER payload) (ae_SealingPublicKey payload)
             (dr_PreviousCertificateDer row))) ≫= fun _ => Ok (dr_PreviousCertificateDer row)
   else Ok ""%string) ≫= fun previous =>
  Ok (mkDevice canonicalID (ae_CertificateDER payload) (dr_CertificateFingerprint row) (ae_SealingPublicKey payload)
        previous (ae_RegistrationTokenID payload) (ae_Owner payload) (dr_LifecycleState row) (dr_ProjectionVersion row)).

(** server/internal/store/devices.go:205-221 [Store.Device] *)
Definition ReadDevice (fault : option goerr) (deviceID : string) (t : LeafTables) : result goerr Device :=
  canonicalDeviceID deviceID ≫= fun deviceID =>
  wrap_err (EWrap "store: read device")
    (may_fault fault ≫= fun _ => or_err (lf_devices t !! deviceID) ErrNoRows) ≫= fun row =>
  deviceFromValues deviceID deviceID row true.

(** server/internal/store/device_groups.go:280-292 [normalizeDeviceGroupScope];
    [canonicalDeviceGroupID] is the same upper-casing of a checked ULID *)
Definition normalizeDeviceGroupScope (ids : list string) : result goerr (list string) :=
  map_result (fun id => wrap_err (fun m => EWrap "store: device-group ID is invalid" (EMsg m)) (ULIDPathID id) ≫= fun _ =>
                        Ok (to_upper id)) ids ≫= fun normalized =>
  Ok (compact (sort_strings normalized)).

(** server/internal/store/queries/devices.sql:22-37 [GetScopedDevice]: the row is
    visible globally or through a static group; [groups] is the static
    membership that [device_groups.go] projects *)
Definition in_scope (groups : gmap string (list string)) (global : bool) (groupIDs : list string) (deviceID : string) : bool :=
  global || existsb (fun g => match groups !! g with Some ids => bool_decide (deviceID ∈ ids) | None => false end) groupIDs.

(** server/internal/store/devices.go:224-262 [Store.ScopedDevice] *)
Definition ScopedDevice (fault : option goerr) (groups : gmap string (list string)) (deviceID : string) (global : bool)
    (deviceGroupIDs : list string) (t : LeafTables) : result goerr Device :=
  canonicalDeviceID deviceID ≫= fun deviceID =>
  normalizeDeviceGroupScope deviceGroupIDs ≫= fun deviceGroupIDs =>
  wrap_err (EWrap "store: read scoped device")
    (may_fault fault ≫= fun _ =>
     or_err (if in_scope groups global deviceGroupIDs deviceID then lf_devices t !! deviceID else None) ErrNoRows) ≫= fun row =>
  deviceFromValues deviceID deviceID row true.

(** server/internal/store/devices.go:265-309 [Store.ListScopedDevices] *)
Definition ListScopedDevices (fault : option goerr) (groups : gmap string (list string)) (global : bool)
    (deviceGroupIDs : list string) (limit : Z) (t : LeafTables) : result goerr (list Device) :=
  fail_if ((limit <? 1) || (200 <? limit)) (EMsg "store: invalid scoped device list") ≫= fun _ =>
  normalizeDeviceGroupScope deviceGroupIDs ≫= fun deviceGroupIDs =>
  wrap_err (EWrap "store: list scoped devices") (may_fault fault) ≫= fun _ =>
  let ids := take (Z.to_nat limit)
    (sort_strings (filter (fun id => in_scope groups global deviceGroupIDs id = true) (map_to_list (lf_devices t)).*1)) in
  map_result (fun id => or_err (lf_devices t !! id) ErrNoRows ≫= fun row => deviceFromValues id id row true) ids.

(** server/internal/store/gateways.go:145-188 [gatewayFromRow] *)
Definition gatewayFromRow (gatewayID rowGatewayID : string) (row : GatewayRow) (requireDerivedFingerprint : bool)
    : result goerr Gateway :=
  fail_if (gt_ProjectionVersion row <=? 0) (EMsg "store: gateway projection has an invalid version") ≫= fun _ =>
  wrap_err (EWrap "store: invalid gateway projection")
    (validateGatewayEnrollment rowGatewayID
       (mkGatewayEnrolledPayload (gt_CertificateDer row) (gt_RegistrationTokenID row) (gt_Owner row)
          (gt_DnsNames row))) ≫= fun '(canonicalID, payload) =>
  fail_if (negb (String.eqb canonicalID gatewayID) || negb (len (gt_CertificateFingerprint row) =? 32))
    (EMsg "store: gateway projection identity or fingerprint is invalid") ≫= fun _ =>
  fail_if (requireDerivedFingerprint
           && negb (String.eqb (gt_CertificateFingerprint row) (Sum256 (ge_CertificateDER payload))))
    (EMsg "store: gateway projection has a mismatched certificate fingerprint") ≫= fun _ =>
  fail_if (negb (String.eqb (gt_LifecycleState row) GatewayLifecycleActive)
           && negb (String.eqb (gt_LifecycleState row) GatewayLifecycleRevoked))
    (EMsg "store: gateway projection has an invalid lifecycle state") ≫= fun _ =>
  (if negb (len (gt_PreviousCertificateDer row) =? 0) then
     wrap_err (EWrap "store: invalid previous gateway certificate")
       (validateGatewayRenewal canonicalID
          (mkGatewayCertificateRenewedPayload (ge_CertificateDER payload) (gt_PreviousCertificateDer row))) ≫= fun _ =>
     Ok (gt_PreviousCertificateDer row)
   else Ok ""%string) ≫= fun previous =>
  Ok (mkGateway canonicalID (ge_CertificateDER payload) (gt_CertificateFingerprint row) previous
        (ge_RegistrationTokenID payload) (ge_Owner payload) (ge_DNSNames payload) (gt_LifecycleState row)
        (gt_ProjectionVersion row)).

(** server/internal/store/gateways.go:127-143 [Store.Gateway] *)
Definition ReadGateway (fault : option goerr) (gatewayID : string) (t : LeafTables) : result goerr Gateway :=
  canonicalGatewayID gatewayID ≫= fun gatewayID =>
  wrap_err (EWrap "store: read gateway")
    (may_fault fault ≫= fun _ => or_err (lf_gateways t !! gatewayID) ErrNoRows) ≫= fun row =>
  gatewayFromRow gatewayID gatewayID row true.

(** ** Projectors *)

(** server/internal/store/devices.go:825-827 [compatibleRevocationReason] *)
Definition compatibleRevocationReason (existing next : Z) : bool :=
  (existing =? next) || (existing =? reasonCodeSuperseded) && (next =? reasonCodeUnspecified).

Definition row_source (row : LeafRow) : CRLSource :=
  mkCRLSource (te_StreamType (ty_Event row)) (te_StreamID (ty_Event row)) (ty_Version row).

(** The work item of a source event ([skip] when replaying). *)
Definition enqueue_leaf_work (skip : bool) (row : LeafRow) (workKind : string) (t : LeafTables) : result goerr LeafTables :=
  if skip then Ok t
  else
    let work := mkWork workKind 1 (Some "{}"%string) (ty_CreatedAt row) maxWorkAttempts in
    validateWork work ≫= fun _ =>
    insert_work None (ty_CreatedAt row)
      ((te_StreamType (ty_Event row), te_StreamID (ty_Event row), ty_Version row), workKind) work (lf_work t) ≫= fun tbl =>
    Ok (mkLeafTables (lf_devices t) (lf_gateways t) (lf_crl t) tbl).

(** server/internal/store/devices.go:755-823 [projectCertificateRevocation] *)
Definition projectCertificateRevocation (skip : bool) (row : LeafRow) (certificateDER : string) (reasonCode : Z)
    (class workKind : string) (t : LeafTables) : result goerr LeafTables :=
  fail_if (negb (validCertificateClass class)
           || String.eqb class CertificateClassAgent && negb (String.eqb workKind PublishAgentCRLWorkKind)
           || String.eqb class CertificateClassGateway && negb (String.eqb workKind PublishGatewayCRLWorkKind))
    (EMsg "store: invalid certificate revocation class or work kind") ≫= fun _ =>
  or_err (ParseCertificate certificateDER) (EMsg "store: revoked certificate DER is invalid") ≫= fun certificate =>
  fail_if (negb (String.eqb (Raw certificate) certificateDER)) (EMsg "store: revoked certificate DER is invalid") ≫= fun _ =>
  or_err (SerialNumber certificate) (EMsg "store: revoked certificate DER is invalid") ≫= fun serial =>
  fail_if ((serial <=? 0) || (len (AuthorityKeyId certificate) =? 0))
    (EMsg "store: revoked certificate DER is invalid") ≫= fun _ =>
  let fingerprint := Sum256 certificateDER in
  wrap_err (EWrap "store: project certificate revocation")
    (InsertCertificateRevocation
       (mkCertificateRevocation class certificateDER fingerprint (AuthorityKeyId certificate) (BigBytes serial)
          (ty_CreatedAt row) reasonCode (row_source row)) (lf_crl t)) ≫= fun '(crl, affected) =>
  let t := mkLeafTables (lf_devices t) (lf_gateways t) crl (lf_work t) in
  if affected =? 0 then
    wrap_err (EWrap "store: inspect certificate revocation")
      (GetCertificateRevocation class fingerprint crl) ≫= fun existing =>
    fail_if (negb (String.eqb (cv_CertificateDER existing) certificateDER)
             || negb (String.eqb (cv_IssuerIdentifier existing) (AuthorityKeyId certificate))
             || negb (bool_decide (cv_SerialNumber existing = BigBytes serial))
             || negb (compatibleRevocationReason (cv_ReasonCode existing) reasonCode))
      (EMsg "store: certificate revocation conflicts with existing material") ≫= fun _ =>
    if bool_decide (cv_Source existing = row_source row) then
      fail_if (negb (cv_ReasonCode existing =? reasonCode))
        (EMsg "store: certificate revocation source event has a mismatched reason") ≫= fun _ => Ok t
    else enqueue_leaf_work skip row workKind t
  else enqueue_leaf_work skip row workKind t.

(** server/internal/store/devices.go:507-553 [projectAgentEnrollment] *)
Definition projectAgentEnrollment (row : LeafRow) (payload : agentEnrolledPayload) (t : LeafTables)
    : result goerr LeafTables :=
  fail_if (negb (ty_Version row =? 1)) (EMsg "store: agent enrollment must be stream version 1") ≫= fun _ =>
  validateAgentEnrollment (te_StreamID (ty_Event row)) payload ≫= fun '(deviceID, payload) =>
  let fingerprint := Sum256 (ae_CertificateDER payload) in
  let '(devices, affected) := UpsertDeviceEnrollment deviceID
    (mkDeviceRow (ty_Version row) (ae_CertificateDER payload) fingerprint (ae_SealingPublicKey payload)
       (ae_RegistrationTokenID payload) (ae_Owner payload) DeviceLifecycleActive (ty_CreatedAt row) "") (lf_devices t) in
  if affected =? 1 then Ok (with_devices t devices)
  else
    or_err (lf_devices t !! deviceID) (EWrap "store: inspect agent enrollment projection" ErrNoRows) ≫= fun current =>
    fail_if (negb ((dr_ProjectionVersion current =? ty_Version row)
                   && String.eqb (dr_CertificateDer current) (ae_CertificateDER payload)
                   && String.eqb (dr_CertificateFingerprint current) fingerprint
                   && bool_decide (dr_SealingPublicKey current = ae_SealingPublicKey payload)
                   && (len (dr_PreviousCertificateDer current) =? 0)
                   && String.eqb (dr_RegistrationTokenID current) (ae_RegistrationTokenID payload)
                   && String.eqb (dr_Owner current) (ae_Owner payload)
                   && String.eqb (dr_LifecycleState current) DeviceLifecycleActive))
      (EMsg "store: agent enrollment conflicts with the current device projection") ≫= fun _ => Ok t.

(** server/internal/store/devices.go:555-600 [projectAgentCertificateRenewal] *)
Definition projectAgentCertificateRenewal (skip : bool) (row : LeafRow) (payload : agentCertificateRenewedPayload)
    (t : LeafTables) : result goerr LeafTables :=
  fail_if (ty_Version row <=? 1) (EMsg "store: agent certificate renewal must follow enrollment") ≫= fun _ =>
  validateAgentCertificateRenewal (te_StreamID (ty_Event row)) payload ≫= fun deviceID =>
  let fingerprint := Sum256 (ar_CertificateDER payload) in
  let '(devices, affected) := UpdateDeviceRenewal deviceID (ty_Version row) (ar_CertificateDER payload) fingerprint
    (ar_SealingPublicKey payload) (ar_SupersededCertificateDER payload) (ty_CreatedAt row) (lf_devices t) in
  (if affected =? 1 then Ok tt
   else
     or_err (lf_devices t !! deviceID) (EWrap "store: inspect agent certificate renewal projection" ErrNoRows) ≫= fun current =>
     fail_if (negb ((dr_ProjectionVersion current =? ty_Version row)
                    && String.eqb (dr_CertificateDer current) (ar_CertificateDER payload)
                    && String.eqb (dr_CertificateFingerprint current) fingerprint
                    && bool_decide (dr_SealingPublicKey current = ar_SealingPublicKey payload)
                    && String.eqb (dr_PreviousCertificateDer current) (ar_SupersededCertificateDER payload)
                    && String.eqb (dr_LifecycleState current) DeviceLifecycleActive))
       (EMsg "store: agent certificate renewal conflicts with the current device projection")) ≫= fun _ =>
  projectCertificateRevocation skip row (ar_SupersededCertificateDER payload) reasonCodeSuperseded
    CertificateClassAgent PublishAgentCRLWorkKind (with_devices t devices).

(** server/internal/store/devices.go:707-753 [projectAgentLifecycleState] *)
Definition projectAgentLifecycleState (skip : bool) (row : LeafRow) (certificateDER nextState : string) (reasonCode : Z)
    (allowForceRenewal : bool) (t : LeafTables) : result goerr LeafTables :=
  fail_if (ty_Version row <=? 1) (EMsg "store: agent certificate lifecycle event must follow enrollment") ≫= fun _ =>
  validateAgentCertificate (te_StreamID (ty_Event row)) certificateDER ≫= fun '(deviceID, _) =>
  let '(devices, affected) := UpdateDeviceLifecycleState deviceID (ty_Version row) nextState certificateDER
    DeviceLifecycleActive allowForceRenewal (ty_CreatedAt row) (lf_devices t) in
  (if affected =? 0 then
     or_err (lf_devices t !! deviceID) (EWrap "store: inspect agent lifecycle projection" ErrNoRows) ≫= fun current =>
     fail_if (negb (dr_ProjectionVersion current =? ty_Version row)
              || negb (String.eqb (dr_LifecycleState current) nextState)
              || negb (String.eqb (dr_CertificateDer current) certificateDER))
       (EMsg "store: agent certificate lifecycle event conflicts with the current device projection")
   else Ok tt) ≫= fun _ =>
  projectCertificateRevocation skip row certificateDER reasonCode CertificateClassAgent PublishAgentCRLWorkKind
    (with_devices t devices).

(** server/internal/store/devices.go:602-604 [projectAgentCertificateRevocation] *)
Definition projectAgentCertificateRevocation (skip : bool) (row : LeafRow) (certificateDER : string) :=
  projectAgentLifecycleState skip row certificateDER DeviceLifecycleRevoked reasonCodeUnspecified true.

(** server/internal/store/devices.go:606-608 [projectAgentForceRenewal] *)
Definition projectAgentForceRenewal (skip : bool) (row : LeafRow) (certificateDER : string) :=
  projectAgentLifecycleState skip row certificateDER DeviceLifecycleForceRenewal reasonCodeSuperseded false.

(** server/internal/store/devices.go:610-649 [projectAgentOwnerUpdate] *)
Definition projectAgentOwnerUpdate (row : LeafRow) (owner : string) (t : LeafTables) : result goerr LeafTables :=
  fail_if (ty_Version row <=? 1) (EMsg "store: device owner update must follow enrollment") ≫= fun _ =>
  canonicalDeviceID (te_StreamID (ty_Event row)) ≫= fun deviceID =>
  validateDeviceOwner owner ≫= fun _ =>
  let '(devices, affected) := UpdateDeviceOwner deviceID (ty_Version row) owner (ty_CreatedAt row) (lf_devices t) in
  if affected =? 1 then Ok (with_devices t devices)
  else
    or_err (lf_devices t !! deviceID) (EWrap "store: inspect device owner update" ErrNoRows) ≫= fun current =>
    fail_if (negb ((dr_ProjectionVersion current =? ty_Version row) && String.eqb (dr_Owner current) owner))
      (EMsg "store: device owner update conflicts with the current projection") ≫= fun _ => Ok t.

(** server/internal/store/devices.go:651-705 [projectAgentDeletion] *)
Definition projectAgentDeletion (skip : bool) (row : LeafRow) (certificateDER : string) (t : LeafTables)
    : result goerr LeafTables :=
  fail_if (ty_Version row <=? 1) (EMsg "store: device deletion must follow enrollment") ≫= fun _ =>
  validateAgentCertificate (te_StreamID (ty_Event row)) certificateDER ≫= fun '(deviceID, _) =>
  or_err (lf_devices t !! deviceID) (EWrap "store: read device for deletion" ErrNoRows) ≫= fun current =>
  fail_if (negb (dr_ProjectionVersion current =? ty_Version row - 1)
           || negb (String.eqb (dr_CertificateDer current) certificateDER))
    (EMsg "store: device deletion conflicts with the current projection") ≫= fun _ =>
  (if String.eqb (dr_LifecycleState current) DeviceLifecycleActive
      || String.eqb (dr_LifecycleState current) DeviceLifecycleForceRenewal
   then projectCertificateRevocation skip row certificateDER reasonCodeUnspecified CertificateClassAgent
          PublishAgentCRLWorkKind t
   else if String.eqb (dr_LifecycleState current) DeviceLifecycleRevoked then Ok t
   else Err (EMsg "store: device deletion found an invalid lifecycle state")) ≫= fun t =>
  let '(devices, affected) := DeleteDeviceProjection deviceID (ty_Version row - 1) (lf_devices t) in
  fail_if (negb (affected =? 1)) (EMsg "store: device deletion affected other than one row") ≫= fun _ =>
  Ok (with_devices t devices).

(** server/internal/store/gateways.go:231-272 [projectGatewayEnrollment] *)
Definition projectGatewayEnrollment (row : LeafRow) (payload : gatewayEnrolledPayload) (t : LeafTables)
    : result goerr LeafTables :=
  fail_if (negb (ty_Version row =? 1)) (EMsg "store: gateway enrollment must be stream version 1") ≫= fun _ =>
  validateGatewayEnrollment (te_StreamID (ty_Event row)) payload ≫= fun '(gatewayID, payload) =>
  let fingerprint := Sum256 (ge_CertificateDER payload) in
  let '(gateways, affected) := UpsertGatewayEnrollment gatewayID
    (mkGatewayRow (ty_Version row) (ge_CertificateDER payload) fingerprint "" (ge_RegistrationTokenID payload)
       (ge_Owner payload) (ge_DNSNames payload) GatewayLifecycleActive (ty_CreatedAt row)) (lf_gateways t) in
  if affected =? 1 then Ok (with_gateways t gateways)
  else
    or_err (lf_gateways t !! gatewayID) (EWrap "store: inspect gateway enrollment projection" ErrNoRows) ≫= fun current =>
    match gatewayFromRow gatewayID gatewayID current true with
    | Ok g =>
        fail_if (negb ((gw_ProjectionVersion g =? ty_Version row)
                       && String.eqb (gw_CertificateDER g) (ge_CertificateDER payload)
                       && String.eqb (gw_CertificateFingerprint g) fingerprint
                       && (len (gw_PreviousCertificateDER g) =? 0)
                       && String.eqb (gw_RegistrationTokenID g) (ge_RegistrationTokenID payload)
                       && String.eqb (gw_Owner g) (ge_Owner payload)
                       && bool_decide (gw_DNSNames g = ge_DNSNames payload)
                       && String.eqb (gw_LifecycleState g) GatewayLifecycleActive
                       && (gt_UpdatedAt current =? ty_CreatedAt row)))
          (EMsg "store: gateway enrollment conflicts with the current projection") ≫= fun _ => Ok t
    | Err _ => Err (EMsg "store: gateway enrollment conflicts with the current projection")
    end.

(** server/internal/store/gateways.go:274-309 [projectGatewayRenewal] *)
Definition projectGatewayRenewal (skip : bool) (row : LeafRow) (payload : gatewayCertificateRenewedPayload)
    (t : LeafTables) : result goerr LeafTables :=
  fail_if (ty_Version row <=? 1) (EMsg "store: gateway renewal requires prior enrollment") ≫= fun _ =>
  validateGatewayRenewal (te_StreamID (ty_Event row)) payload ≫= fun gatewayID =>
  let fingerprint := Sum256 (gr_CertificateDER payload) in
  let '(gateways, affected) := UpdateGatewayRenewal gatewayID (ty_Version row) (gr_CertificateDER payload) fingerprint
    (gr_SupersededCertificateDER payload) (ty_CreatedAt row) (lf_gateways t) in
  (if affected =? 0 then
     wrap_err (fun _ => EMsg "store: gateway renewal conflicts with the current projection")
       (or_err (lf_gateways t !! gatewayID) ErrNoRows ≫= fun current =>
        gatewayFromRow gatewayID gatewayID current true ≫= fun g =>
        fail_if (negb (gw_ProjectionVersion g =? ty_Version row)
                 || negb (String.eqb (gw_CertificateDER g) (gr_CertificateDER payload))
                 || negb (String.eqb (gw_CertificateFingerprint g) fingerprint)
                 || negb (String.eqb (gw_PreviousCertificateDER g) (gr_SupersededCertificateDER payload))
                 || negb (String.eqb (gw_LifecycleState g) GatewayLifecycleActive)
                 || negb (gt_UpdatedAt current =? ty_CreatedAt row))
          (EMsg "store: gateway renewal conflicts with the current projection"))
   else Ok tt) ≫= fun _ =>
  projectCertificateRevocation skip row (gr_SupersededCertificateDER payload) reasonCodeSuperseded
    CertificateClassGateway PublishGatewayCRLWorkKind (with_gateways t gateways).

(** server/internal/store/gateways.go:311-344 [projectGatewayRevocation] *)
Definition projectGatewayRevocation (skip : bool) (row : LeafRow) (certificateDER : string) (t : LeafTables)
    : result goerr LeafTables :=
  fail_if (ty_Version row <=? 1) (EMsg "store: gateway revocation requires prior enrollment") ≫= fun _ =>
  validateGatewayCertificate (te_StreamID (ty_Event row)) certificateDER ≫= fun '(gatewayID, _) =>
  let '(gateways, affected) := UpdateGatewayLifecycleState gatewayID (ty_Version row) certificateDER (ty_CreatedAt row)
    (lf_gateways t) in
  (if affected =? 0 then
     wrap_err (fun _ => EMsg "store: gateway revocation conflicts with the current projection")
       (or_err (lf_gateways t !! gatewayID) ErrNoRows ≫= fun current =>
        gatewayFromRow gatewayID gatewayID current true ≫= fun g =>
        fail_if (negb (gw_ProjectionVersion g =? ty_Version row)
                 || negb (String.eqb (gw_LifecycleState g) GatewayLifecycleRevoked)
                 || negb (String.eqb (gw_CertificateDER g) certificateDER)
                 || negb (String.eqb (gw_CertificateFingerprint g) (Sum256 certificateDER))
                 || negb (gt_UpdatedAt current =? ty_CreatedAt row))
          (EMsg "store: gateway revocation conflicts with the current projection"))
   else Ok tt) ≫= fun _ =>
  projectCertificateRevocation skip row certificateDER reasonCodeUnspecified CertificateClassGateway
    PublishGatewayCRLWorkKind (with_gateways t gateways).

(** server/internal/store/devices.go:412-472 [deviceEventDefinitions]: the projector
    of each event type, with those of [gatewayEventDefinitions] *)
Definition projectLeaf (skip : bool) (row : LeafRow) : LeafTables -> result goerr LeafTables :=
  match te_Payload (ty_Event row) with
  | agentEnrolled payload => projectAgentEnrollment row payload
  | agentCertificateRenewed payload => projectAgentCertificateRenewal skip row payload
  | agentCertificateRevoked der => projectAgentCertificateRevocation skip row der
  | agentForceRenewalRequired der => projectAgentForceRenewal skip row der
  | agentOwnerUpdated owner => projectAgentOwnerUpdate row owner
  | agentDeleted der => projectAgentDeletion skip row der
  | gatewayEnrolled payload => projectGatewayEnrollment row payload
  | gatewayCertificateRenewed payload => projectGatewayRenewal skip row payload
  | gatewayCertificateRevoked der => projectGatewayRevocation skip row der
  end.

Definition without_revocations (class : string) (t : CRLTables) : CRLTables :=
  mkCRLTables (t_crl t) (t_receipts t) (filter (fun r => cv_Class r <> class) (t_revocations t)) (t_published t).

(** server/internal/store/devices.go:829-837 [resetDevices] *)
Definition resetDevices (t : LeafTables) : LeafTables :=
  mkLeafTables ∅ (lf_gateways t) (without_revocations CertificateClassAgent (lf_crl t)) (lf_work t).

(** server/internal/store/gateways.go:346-354 [resetGateways] *)
Definition resetGateways (t : LeafTables) : LeafTables :=
  mkLeafTables (lf_devices t) ∅ (without_revocations CertificateClassGateway (lf_crl t)) (lf_work t).
End Leaves.

(** ** What one event does *)

Section Facts.
Context {x509 : X509} {schemes : Schemes} {x25519 : X25519}.

Definition is_agent (payload : leafPayload) : bool :=
  match payload with
  | gatewayEnrolled _ | gatewayCertificateRenewed _ | gatewayCertificateRevoked _ => false
  | _ => true
  end.

Definition class_of (payload : leafPayload) : string :=
  if is_agent payload then CertificateClassAgent else CertificateClassGateway.
Definition stream_of (payload : leafPayload) : string :=
  if is_agent payload then deviceStreamType else gatewayStreamType.
Definition kind_of (payload : leafPayload) : string :=
  if is_agent payload then PublishAgentCRLWorkKind else PublishGatewayCRLWorkKind.

(** The events the constructors make: on the stream of their kind, under a
    canonical identifier. *)
Definition leaf_typed (event : LeafEvent) : Prop :=
  te_StreamType event = stream_of (te_Payload event) /\ canonical_ulid (te_StreamID event).

(** The certificate an event takes out of use. *)
Definition withdrawn (payload : leafPayload) : option string :=
  match payload with
  | agentCertificateRenewed p => Some (ar_SupersededCertificateDER p)
  | agentCertificateRevoked der | agentForceRenewalRequired der | agentDeleted der => Some der
  | gatewayCertificateRenewed p => Some (gr_SupersededCertificateDER p)
  | gatewayCertificateRevoked der => Some der
  | agentEnrolled _ | agentOwnerUpdated _ | gatewayEnrolled _ => None
  end.

(** A certificate of a class has its revocation. *)
Definition revoked_in (class der : string) (t : LeafTables) : Prop :=
  exists r, r ∈ t_revocations (lf_crl t) /\ cv_Class r = class /\ cv_CertificateDER r = der.

(** The life of a device: enrolled once, renewed while it is not revoked,
    revoked for good, deleted for good. *)
Inductive device_step : leafPayload -> Z -> option DeviceRow -> option DeviceRow -> Prop :=
| device_enrolls p r :
    dr_CertificateDer r = ae_CertificateDER p -> dr_LifecycleState r = DeviceLifecycleActive ->
    dr_PreviousCertificateDer r = ""%string -> dr_ProjectionVersion r = 1 ->
    device_step (agentEnrolled p) 1 None (Some r)
| device_renews p version r r' :
    dr_CertificateDer r = ar_SupersededCertificateDER p -> dr_LifecycleState r <> DeviceLifecycleRevoked ->
    dr_CertificateDer r' = ar_CertificateDER p -> dr_LifecycleState r' = DeviceLifecycleActive ->
    dr_PreviousCertificateDer r' = ar_SupersededCertificateDER p -> dr_ProjectionVersion r' = version ->
    device_step (agentCertificateRenewed p) version (Some r) (Some r')
| device_withdraws payload state version r r' :
    payload = agentCertificateRevoked (dr_CertificateDer r) /\ state = DeviceLifecycleRevoked
    \/ payload = agentForceRenewalRequired (dr_CertificateDer r) /\ state = DeviceLifecycleForceRenewal ->
    dr_LifecycleState r <> DeviceLifecycleRevoked ->
    dr_CertificateDer r' = dr_CertificateDer r -> dr_LifecycleState r' = state ->
    dr_PreviousCertificateDer r' = dr_PreviousCertificateDer r -> dr_ProjectionVersion r' = version ->
    device_step payload version (Some r) (Some r')
| device_owner owner version r r' :
    dr_CertificateDer r' = dr_CertificateDer r -> dr_LifecycleState r' = dr_LifecycleState r ->
    dr_PreviousCertificateDer r' = dr_PreviousCertificateDer r -> dr_ProjectionVersion r' = version ->
    device_step (agentOwnerUpdated owner) version (Some r) (Some r')
| device_deleted version r : device_step (agentDeleted (dr_CertificateDer r)) version (Some r) None.

(** The life of a gateway. *)
Inductive gateway_step : leafPayload -> Z -> option GatewayRow -> option GatewayRow -> Prop :=
| gateway_enrolls p r :
    gt_CertificateDer r = ge_CertificateDER p -> gt_LifecycleState r = GatewayLifecycleActive ->
    gt_PreviousCertificateDer r = ""%string -> gt_ProjectionVersion r = 1 ->
    gateway_step (gatewayEnrolled p) 1 None (Some r)
| gateway_renews p version r r' :
    gt_CertificateDer r = gr_SupersededCertificateDER p -> gt_LifecycleState r = GatewayLifecycleActive ->
    gt_CertificateDer r' = gr_CertificateDER p -> gt_LifecycleState r' = GatewayLifecycleActive ->
    gt_PreviousCertificateDer r' = gr_SupersededCertificateDER p -> gt_ProjectionVersion r' = version ->
    gateway_step (gatewayCertificateRenewed p) version (Some r) (Some r')
| gateway_revoked version r r' :
    gt_LifecycleState r = GatewayLifecycleActive -> gt_CertificateDer r' = gt_CertificateDer r ->
    gt_LifecycleState r' = GatewayLifecycleRevoked ->
    gt_PreviousCertificateDer r' = gt_PreviousCertificateDer r -> gt_ProjectionVersion r' = version ->
    gateway_step (gatewayCertificateRevoked (gt_CertificateDer r)) version (Some r) (Some r').

Lemma canonical_device id : canonical_ulid id -> canonicalDeviceID id = Ok id /\ canonicalGatewayID id = Ok id.
Proof. intros [Hv Hu]. unfold canonicalDeviceID, canonicalGatewayID. by rewrite Hv, Hu. Qed.

Lemma validateAgentCertificate_id id der id' c :
  canonical_ulid id -> validateAgentCertificate id der = Ok (id', c) -> id' = id.
Proof.
  intros [Hc _]%canonical_device. unfold validateAgentCertificate. rewrite Hc. cbn [mbind result_bind].
  intros H. repeat (apply bind_ok in H as (? & _ & H) || case_match || by injection H).
Qed.

Lemma validateGatewayCertificate_id id der id' c :
  canonical_ulid id -> validateGatewayCertificate id der = Ok (id', c) -> id' = id.
Proof.
  intros [_ Hc]%canonical_device. unfold validateGatewayCertificate. rewrite Hc. cbn [mbind result_bind].
  intros H. repeat (apply bind_ok in H as (? & _ & H) || case_match || by injection H).
Qed.

Lemma validateAgentEnrollment_ok id p id' p' :
  canonical_ulid id -> validateAgentEnrollment id p = Ok (id', p') -> id' = id /\ ae_CertificateDER p' = ae_CertificateDER p.
Proof.
  intros Hid ((i & c) & Hv & H)%bind_ok. apply validateAgentCertificate_id in Hv as ->; [|done].
  apply bind_ok in H as (? & _ & H). apply bind_ok in H as (? & _ & H). by apply bind_ok in H as (? & _ & [= <- <-]).
Qed.

Lemma validateAgentCertificateRenewal_ok id p id' :
  canonical_ulid id -> validateAgentCertificateRenewal id p = Ok id' -> id' = id.
Proof.
  intros Hid ((i & c) & Hv & H)%bind_ok. apply validateAgentCertificate_id in Hv as ->; [|done].
  apply bind_ok in H as ([i2 c2] & _ & H). repeat apply bind_ok in H as (? & _ & H). by injection H.
Qed.

Lemma validateGatewayEnrollment_ok id p id' p' :
  canonical_ulid id -> validateGatewayEnrollment id p = Ok (id', p') -> id' = id /\ ge_CertificateDER p' = ge_CertificateDER p.
Proof.
  intros Hid ((i & c) & Hv & H)%bind_ok. apply validateGatewayCertificate_id in Hv as ->; [|done].
  repeat apply bind_ok in H as (? & _ & H). by injection H as <- <-.
Qed.

Lemma validateGatewayRenewal_ok id p id' :
  canonical_ulid id -> validateGatewayRenewal id p = Ok id' -> id' = id.
Proof.
  intros Hid ((i & c) & Hv & H)%bind_ok. apply validateGatewayCertificate_id in Hv as ->; [|done].
  apply bind_ok in H as ([i2 c2] & _ & H). repeat apply bind_ok in H as (? & _ & H). by injection H.
Qed.

(** What a revocation leaves: the certificate is in the table, by this event or
    by an earlier one, and the event's work is queued. *)
Record revocation_recorded (skip : bool) (row : LeafRow) (class der kind : string) (t t' : LeafTables) : Prop := {
  rr_devices : lf_devices t' = lf_devices t;
  rr_gateways : lf_gateways t' = lf_gateways t;
  rr_revoked : revoked_in class der t';
  rr_crl : lf_crl t' = lf_crl t
    \/ project_revocation (lf_crl t) (lf_crl t')
       /\ exists r, t_revocations (lf_crl t') = t_revocations (lf_crl t) ++ [r]
                    /\ cv_Class r = class /\ cv_CertificateDER r = der /\ cv_Source r = row_source row;
  rr_work : skip = false -> (forall r, r ∈ t_revocations (lf_crl t) -> cv_Source r <> row_source row) ->
    lf_work t' = <[((te_StreamType (ty_Event row), te_StreamID (ty_Event row), ty_Version row), kind)
                   := mkWorkRow (mkWork kind 1 (Some "{}"%string) (ty_CreatedAt row) maxWorkAttempts) 0 None None (ty_CreatedAt row)]>
                 (lf_work t);
}.

Lemma enqueue_ok skip row kind t t' :
  enqueue_leaf_work skip row kind t = Ok t' ->
  lf_devices t' = lf_devices t /\ lf_gateways t' = lf_gateways t /\ lf_crl t' = lf_crl t
  /\ (skip = false ->
      lf_work t' = <[((te_StreamType (ty_Event row), te_StreamID (ty_Event row), ty_Version row), kind)
                     := mkWorkRow (mkWork kind 1 (Some "{}"%string) (ty_CreatedAt row) maxWorkAttempts) 0 None None (ty_CreatedAt row)]>
                   (lf_work t)).
Proof.
  unfold enqueue_leaf_work. destruct skip; [intros [= <-]; by split_and!|]. intros (u & _ & H)%bind_ok.
  apply bind_ok in H as (tbl & Hi%wrap_err_ok & [= <-]). split_and!; [done..|]. intros _.
  apply bind_ok in Hi as (u2 & _ & Hi). apply bind_ok in Hi as (u3 & _ & Hi).
  destruct (lf_work t !! _); [done|]. by injection Hi as <-.
Qed.

Lemma InsertCertificateRevocation_ok r t t' n :
  InsertCertificateRevocation r t = Ok (t', n) ->
  n = 0 /\ t' = t
  \/ n = 1 /\ (forall r0, r0 ∈ t_revocations t -> cv_Source r0 <> cv_Source r)
     /\ t' = mkCRLTables (t_crl t) (t_receipts t) (t_revocations t ++ [r]) (t_published t).
Proof.
  unfold InsertCertificateRevocation. intros (u & _ & H)%bind_ok. destruct (existsb _ _); [injection H as <- <-; by left|].
  apply bind_ok in H as (u2 & _ & H). apply bind_ok in H as (u3 & Hs%fail_if_ok & [= <- <-]). right.
  split_and!; [done| |done]. intros r0 Hr0 Heq. apply not_true_iff_false in Hs. apply Hs, existsb_exists.
  exists r0. split; [by apply list_elem_of_In|]. by apply bool_decide_eq_true.
Qed.

Lemma GetCertificateRevocation_ok class fp t r :
  GetCertificateRevocation class fp t = Ok r -> r ∈ t_revocations t /\ cv_Class r = class.
Proof.
  unfold GetCertificateRevocation. intros [Hin Hf%andb_true_iff]%or_err_ok%find_some.
  split; [by apply list_elem_of_In|]. destruct Hf as [Hc _]. by apply String.eqb_eq.
Qed.

Lemma projectCertificateRevocation_ok skip row der reason class kind t t' :
  projectCertificateRevocation skip row der reason class kind t = Ok t' ->
  revocation_recorded skip row class der kind t t'.
Proof.
  unfold projectCertificateRevocation. intros (u1 & _ & H)%bind_ok. apply bind_ok in H as (cert & _ & H).
  apply bind_ok in H as (u2 & _ & H). apply bind_ok in H as (serial & _ & H). apply bind_ok in H as (u3 & _ & H).
  apply bind_ok in H as ([crl n] & Hi%wrap_err_ok%InsertCertificateRevocation_ok & H). cbv zeta in H.
  destruct Hi as [[-> ->]|(-> & Hnew & ->)].
  - change (0 =? 0) with true in H. cbn iota in H.
    apply bind_ok in H as (existing & Hg%wrap_err_ok%GetCertificateRevocation_ok & H). destruct Hg as [Hin Hc].
    apply bind_ok in H as (u4 & Hf%fail_if_ok & H).
    assert (Hder : cv_CertificateDER existing = der).
    { apply orb_false_iff in Hf as [Hf _]. apply orb_false_iff in Hf as [Hf _]. apply orb_false_iff in Hf as [Hf _].
      by apply negb_false_iff, String.eqb_eq in Hf. }
    assert (Hrev : forall t2, lf_crl t2 = lf_crl t -> revoked_in class der t2).
    { intros t2 Ht2. exists existing. by rewrite Ht2. }
    destruct (bool_decide (cv_Source existing = row_source row)) eqn:Es.
    + apply bind_ok in H as (u5 & _ & [= <-]). split; cbn; [done|done|by apply Hrev|by left|].
      intros _ Hn. apply bool_decide_eq_true in Es. by destruct (Hn existing Hin).
    + apply enqueue_ok in H as (Hd & Hgw & Hcrl & Hw). cbn in *. split; [done|done|by apply Hrev|by left|by auto].
  - change (1 =? 0) with false in H. cbn iota in H. apply enqueue_ok in H as (Hd & Hgw & Hcrl & Hw). cbn in *.
    split; [done|done| | |by auto].
    + eexists. rewrite Hcrl. cbn. split; [apply elem_of_app; right; by left|]. done.
    + right. rewrite Hcrl. set (r := mkCertificateRevocation _ _ _ _ _ _ _ _). by split; exists r.
Qed.

(** A device row that one event replaced. *)
Definition devices_moved (row : LeafRow) (m m' : gmap string DeviceRow) : Prop :=
  let id := te_StreamID (ty_Event row) in
  device_step (te_Payload (ty_Event row)) (ty_Version row) (m !! id) (m' !! id) /\ forall j, j <> id -> m' !! j = m !! j.
Definition gateways_moved (row : LeafRow) (m m' : gmap string GatewayRow) : Prop :=
  let id := te_StreamID (ty_Event row) in
  gateway_step (te_Payload (ty_Event row)) (ty_Version row) (m !! id) (m' !! id) /\ forall j, j <> id -> m' !! j = m !! j.

(** The effect of an event on the tables. *)
Record leaf_effect (skip : bool) (row : LeafRow) (t t' : LeafTables) : Prop := {
  le_devices : if is_agent (te_Payload (ty_Event row)) then devices_moved row (lf_devices t) (lf_devices t')
               else lf_devices t' = lf_devices t;
  le_gateways : if is_agent (te_Payload (ty_Event row)) then lf_gateways t' = lf_gateways t
                else gateways_moved row (lf_gateways t) (lf_gateways t');
  le_crl : match withdrawn (te_Payload (ty_Event row)) with
    | None => lf_crl t' = lf_crl t /\ lf_work t' = lf_work t
    | Some der =>
        (exists t1, lf_crl t1 = lf_crl t /\ lf_work t1 = lf_work t /\ exists t2, lf_crl t' = lf_crl t2 /\ lf_work t' = lf_work t2
           /\ revocation_recorded skip row (class_of (te_Payload (ty_Event row))) der (kind_of (te_Payload (ty_Event row))) t1 t2)
        \/ te_Payload (ty_Event row) = agentDeleted der /\ lf_crl t' = lf_crl t /\ lf_work t' = lf_work t
           /\ exists r, lf_devices t !! te_StreamID (ty_Event row) = Some r /\ dr_LifecycleState r = DeviceLifecycleRevoked
                        /\ dr_CertificateDer r = der
    end;
}.

Lemma moved_insert row (m : gmap string DeviceRow) r' :
  device_step (te_Payload (ty_Event row)) (ty_Version row) (m !! te_StreamID (ty_Event row)) (Some r') ->
  devices_moved row m (<[te_StreamID (ty_Event row) := r']> m).
Proof. intros H. split; [by rewrite lookup_insert_eq|]. intros j Hj. by apply lookup_insert_ne. Qed.

Lemma gateways_insert row (m : gmap string GatewayRow) r' :
  gateway_step (te_Payload (ty_Event row)) (ty_Version row) (m !! te_StreamID (ty_Event row)) (Some r') ->
  gateways_moved row m (<[te_StreamID (ty_Event row) := r']> m).
Proof. intros H. split; [by rewrite lookup_insert_eq|]. intros j Hj. by apply lookup_insert_ne. Qed.

Lemma gatewayFromRow_version id id' row b g : gatewayFromRow id id' row b = Ok g -> gw_ProjectionVersion g = gt_ProjectionVersion row.
Proof.
  unfold gatewayFromRow. intros (u & _ & H)%bind_ok. apply bind_ok in H as ([i p] & _ & H).
  repeat apply bind_ok in H as (? & _ & H). by injection H as <-.
Qed.

Section OneEvent.
Context (skip : bool) (row : LeafRow) (t : LeafTables).
Notation id := (te_StreamID (ty_Event row)).
Context (Hid : canonical_ulid id)
  (Hold : is_agent (te_Payload (ty_Event row)) = true ->
     forall r, lf_devices t !! id = Some r -> dr_ProjectionVersion r < ty_Version row)
  (Hgold : is_agent (te_Payload (ty_Event row)) = false ->
     forall r, lf_gateways t !! id = Some r -> gt_ProjectionVersion r < ty_Version row).

Lemma no_current r :
  is_agent (te_Payload (ty_Event row)) = true -> lf_devices t !! id = Some r ->
  (dr_ProjectionVersion r =? ty_Version row) = true -> False.
Proof. intros Ha H%(Hold Ha) He%Z.eqb_eq. lia. Qed.

Lemma no_current_gateway r :
  is_agent (te_Payload (ty_Event row)) = false -> lf_gateways t !! id = Some r ->
  (gt_ProjectionVersion r =? ty_Version row) = true -> False.
Proof. intros Ha H%(Hgold Ha) He%Z.eqb_eq. lia. Qed.

Lemma enrollment_effect p t' :
  te_Payload (ty_Event row) = agentEnrolled p -> projectAgentEnrollment row p t = Ok t' -> leaf_effect skip row t t'.
Proof.
  intros Hp. unfold projectAgentEnrollment. intros (u & Hv%fail_if_ok%negb_false_iff%Z.eqb_eq & H)%bind_ok.
  apply bind_ok in H as ([i p'] & He & H). apply (validateAgentEnrollment_ok _ _ _ _ Hid) in He as [-> Hder].
  cbv zeta in H. unfold UpsertDeviceEnrollment in H. destruct (lf_devices t !! id) as [r|] eqn:Er in H |- *.
  - change (0 =? 1) with false in H. cbn iota in H. apply bind_ok in H as (cur & Hc%or_err_ok & H).
    apply bind_ok in H as (u2 & Hf%fail_if_ok%negb_false_iff & _). repeat apply andb_true_iff in Hf as [Hf _].
    destruct (no_current cur ltac:(by rewrite Hp) ltac:(congruence) Hf).
  - change (1 =? 1) with true in H. cbn iota in H. injection H as <-. split; rewrite Hp; cbn; [|done|done].
    apply moved_insert. rewrite Er, Hp, Hv. by apply device_enrolls.
Qed.

Lemma renewal_effect p t' :
  te_Payload (ty_Event row) = agentCertificateRenewed p -> projectAgentCertificateRenewal skip row p t = Ok t' ->
  leaf_effect skip row t t'.
Proof.
  intros Hp. unfold projectAgentCertificateRenewal. intros (u & Hv & H)%bind_ok.
  apply bind_ok in H as (i & He & H). apply (validateAgentCertificateRenewal_ok _ _ _ Hid) in He as ->.
  cbv zeta in H. unfold UpdateDeviceRenewal in H. destruct (lf_devices t !! id) as [r|] eqn:Er in H |- *; [|by cbn in H].
  destruct (_ && _ && _) eqn:Ew in H.
  - change (1 =? 1) with true in H. cbn [mbind result_bind] in H. apply projectCertificateRevocation_ok in H as Hr.
    apply andb_true_iff in Ew as [Ew Hs]. apply andb_true_iff in Ew as [_ Hc%String.eqb_eq].
    split; rewrite Hp; cbn [is_agent withdrawn class_of kind_of].
    + rewrite (rr_devices _ _ _ _ _ _ _ Hr). cbn. apply moved_insert. rewrite Er, Hp. apply device_renews; try done.
      intros Hl. by rewrite Hl in Hs.
    + by rewrite (rr_gateways _ _ _ _ _ _ _ Hr).
    + left. eexists. split; [|split; [|exists t'; split; [done|split; [done|exact Hr]]]]; done.
  - change (0 =? 1) with false in H. cbn iota in H. apply bind_ok in H as (u2 & H2 & _).
    apply bind_ok in H2 as (cur & Hc%or_err_ok & Hf%fail_if_ok%negb_false_iff).
    repeat apply andb_true_iff in Hf as [Hf _]. destruct (no_current cur ltac:(by rewrite Hp) ltac:(congruence) Hf).
Qed.

(** The effect of a withdrawal that went through [projectCertificateRevocation]. *)
Lemma recorded_effect der t1 t' :
  withdrawn (te_Payload (ty_Event row)) = Some der -> lf_crl t1 = lf_crl t -> lf_work t1 = lf_work t ->
  revocation_recorded skip row (class_of (te_Payload (ty_Event row))) der (kind_of (te_Payload (ty_Event row))) t1 t' ->
  (if is_agent (te_Payload (ty_Event row)) then devices_moved row (lf_devices t) (lf_devices t1)
   else lf_devices t1 = lf_devices t) ->
  (if is_agent (te_Payload (ty_Event row)) then lf_gateways t1 = lf_gateways t
   else gateways_moved row (lf_gateways t) (lf_gateways t1)) ->
  leaf_effect skip row t t'.
Proof.
  intros Hw Hcrl Hwork Hr Hd Hg. split; [by rewrite (rr_devices _ _ _ _ _ _ _ Hr)|by rewrite (rr_gateways _ _ _ _ _ _ _ Hr)|].
  rewrite Hw. left. exists t1. split_and!; [done..|]. by exists t'.
Qed.

Lemma lifecycle_effect der state reason force t' :
  te_Payload (ty_Event row) = agentCertificateRevoked der /\ state = DeviceLifecycleRevoked
  \/ te_Payload (ty_Event row) = agentForceRenewalRequired der /\ state = DeviceLifecycleForceRenewal ->
  projectAgentLifecycleState skip row der state reason force t = Ok t' -> leaf_effect skip row t t'.
Proof.
  intros Hp. unfold projectAgentLifecycleState. intros (u & Hv & H)%bind_ok.
  apply bind_ok in H as ([i c] & He & H). apply (validateAgentCertificate_id _ _ _ _ Hid) in He as ->.
  unfold UpdateDeviceLifecycleState in H. destruct (lf_devices t !! id) as [r|] eqn:Er in H |- *; [|by cbn in H].
  destruct (_ && _ && _) eqn:Ew in H.
  - change (1 =? 0) with false in H. cbn [mbind result_bind] in H. apply projectCertificateRevocation_ok in H as Hr.
    apply andb_true_iff in Ew as [Ew Hs]. apply andb_true_iff in Ew as [_ Hc%String.eqb_eq].
    assert (Hlive : dr_LifecycleState r <> DeviceLifecycleRevoked).
    { intros Hl. rewrite Hl, andb_comm in Hs. by cbn in Hs. }
    eapply recorded_effect; [| | |destruct Hp as [[-> _]|[-> _]]; exact Hr| |]; try done.
    + by destruct Hp as [[-> _]|[-> _]].
    + destruct Hp as [[Hp Hst]|[Hp Hst]]; rewrite Hp; apply moved_insert; rewrite Er, Hp, <- Hc;
        (eapply device_withdraws; [|done..]); [left|right]; by rewrite ?Hc.
    + by destruct Hp as [[-> _]|[-> _]].
  - change (0 =? 0) with true in H. cbn iota in H. apply bind_ok in H as (u2 & H2 & _).
    apply bind_ok in H2 as (cur & Hc%or_err_ok & Hf%fail_if_ok).
    apply orb_false_iff in Hf as [Hf _]. apply orb_false_iff in Hf as [Hf%negb_false_iff _].
    destruct (no_current cur ltac:(by destruct Hp as [[-> _]|[-> _]]) ltac:(congruence) Hf).
Qed.

Lemma owner_effect owner t' :
  te_Payload (ty_Event row) = agentOwnerUpdated owner -> projectAgentOwnerUpdate row owner t = Ok t' -> leaf_effect skip row t t'.
Proof.
  intros Hp. unfold projectAgentOwnerUpdate. intros (u & Hv & H)%bind_ok. destruct (canonical_device _ Hid) as [Hc _].
  rewrite Hc in H. cbn [mbind result_bind] in H. apply bind_ok in H as (u2 & _ & H). unfold UpdateDeviceOwner in H.
  destruct (lf_devices t !! id) as [r|] eqn:Er in H |- *; [|by cbn in H].
  destruct (dr_ProjectionVersion r =? _) in H.
  - change (1 =? 1) with true in H. cbn iota in H. injection H as <-. split; rewrite Hp; cbn; [|done|done].
    apply moved_insert. rewrite Er, Hp. by apply device_owner.
  - change (0 =? 1) with false in H. cbn iota in H.
    apply bind_ok in H as (cur & Hcur%or_err_ok & H). apply bind_ok in H as (u3 & Hf%fail_if_ok%negb_false_iff & _).
    apply andb_true_iff in Hf as [Hf _]. destruct (no_current cur ltac:(by rewrite Hp) ltac:(congruence) Hf).
Qed.

Lemma deletion_effect der t' :
  te_Payload (ty_Event row) = agentDeleted der -> projectAgentDeletion skip row der t = Ok t' -> leaf_effect skip row t t'.
Proof.
  intros Hp. unfold projectAgentDeletion. intros (u & Hv & H)%bind_ok.
  apply bind_ok in H as ([i c] & He & H). apply (validateAgentCertificate_id _ _ _ _ Hid) in He as ->.
  apply bind_ok in H as (r & Er%or_err_ok & H). apply bind_ok in H as (u2 & Hf%fail_if_ok & H).
  apply orb_false_iff in Hf as [_ Hder%negb_false_iff%String.eqb_eq].
  apply bind_ok in H as (t1 & H1 & H). unfold DeleteDeviceProjection in H.
  assert (Hmoved : forall m, m = lf_devices t -> devices_moved row (lf_devices t) (delete id m)).
  { intros m ->. split; [|intros j Hj; by apply lookup_delete_ne]. rewrite lookup_delete_eq, Er, Hp, <- Hder. apply device_deleted. }
  assert (Ht' : t' = with_devices t1 (delete id (lf_devices t1))).
  { destruct (lf_devices t1 !! id); [|by cbn in H]. destruct (_ =? _) in H; cbn in H; congruence. }
  clear H. destruct (String.eqb (dr_LifecycleState r) DeviceLifecycleActive || _).
  - apply projectCertificateRevocation_ok in H1 as Hr. split; rewrite Hp; cbn [is_agent withdrawn class_of kind_of].
    + rewrite Ht'. cbn. apply Hmoved. by rewrite (rr_devices _ _ _ _ _ _ _ Hr).
    + rewrite Ht'. cbn. by rewrite (rr_gateways _ _ _ _ _ _ _ Hr).
    + left. exists t. split_and!; [done..|]. exists t1. rewrite Ht'. by split_and!.
  - destruct (String.eqb (dr_LifecycleState r) DeviceLifecycleRevoked) eqn:Es; [|done]. injection H1 as ->.
    split; rewrite Hp, Ht'; cbn; [by apply Hmoved|done|]. right. split; [done|]. split_and!; [done..|]. exists r.
    split_and!; [done|by apply String.eqb_eq|done].
Qed.

Lemma gateway_enrollment_effect p t' :
  te_Payload (ty_Event row) = gatewayEnrolled p -> projectGatewayEnrollment row p t = Ok t' -> leaf_effect skip row t t'.
Proof.
  intros Hp. unfold projectGatewayEnrollment. intros (u & Hv%fail_if_ok%negb_false_iff%Z.eqb_eq & H)%bind_ok.
  apply bind_ok in H as ([i p'] & He & H). apply (validateGatewayEnrollment_ok _ _ _ _ Hid) in He as [-> Hder].
  cbv zeta in H. unfold UpsertGatewayEnrollment in H. destruct (lf_gateways t !! id) as [r|] eqn:Er in H |- *.
  - change (0 =? 1) with false in H. cbn iota in H. apply bind_ok in H as (cur & Hc%or_err_ok & H).
    destruct (gatewayFromRow _ _ _ _) as [g|e] eqn:Eg; [|done]. apply bind_ok in H as (u2 & Hf%fail_if_ok%negb_false_iff & _).
    repeat apply andb_true_iff in Hf as [Hf _]. apply gatewayFromRow_version in Eg. rewrite Eg in Hf.
    destruct (no_current_gateway cur ltac:(by rewrite Hp) ltac:(congruence) Hf).
  - change (1 =? 1) with true in H. cbn iota in H. injection H as <-. split; rewrite Hp; cbn; [done| |done].
    apply gateways_insert. rewrite Er, Hp, Hv. by apply gateway_enrolls.
Qed.

Lemma gateway_renewal_effect p t' :
  te_Payload (ty_Event row) = gatewayCertificateRenewed p -> projectGatewayRenewal skip row p t = Ok t' ->
  leaf_effect skip row t t'.
Proof.
  intros Hp. unfold projectGatewayRenewal. intros (u & Hv & H)%bind_ok.
  apply bind_ok in H as (i & He & H). apply (validateGatewayRenewal_ok _ _ _ Hid) in He as ->.
  cbv zeta in H. unfold UpdateGatewayRenewal in H. destruct (lf_gateways t !! id) as [r|] eqn:Er in H |- *; [|by cbn in H].
  destruct (_ && _ && _) eqn:Ew in H.
  - change (1 =? 0) with false in H. cbn [mbind result_bind] in H. apply projectCertificateRevocation_ok in H as Hr.
    apply andb_true_iff in Ew as [Ew Hs%String.eqb_eq]. apply andb_true_iff in Ew as [_ Hc%String.eqb_eq].
    eapply recorded_effect; [| | |rewrite Hp; exact Hr| |]; rewrite ?Hp; try done.
    apply gateways_insert. rewrite Er, Hp. by apply gateway_renews.
  - change (0 =? 0) with true in H. cbn iota in H. apply bind_ok in H as (u2 & H2%wrap_err_ok & _).
    apply bind_ok in H2 as (cur & Hc%or_err_ok & H2). apply bind_ok in H2 as (g & Hg%gatewayFromRow_version & Hf%fail_if_ok).
    repeat apply orb_false_iff in Hf as [Hf _]. apply negb_false_iff in Hf. rewrite Hg in Hf.
    destruct (no_current_gateway cur ltac:(by rewrite Hp) ltac:(congruence) Hf).
Qed.

Lemma gateway_revocation_effect der t' :
  te_Payload (ty_Event row) = gatewayCertificateRevoked der -> projectGatewayRevocation skip row der t = Ok t' ->
  leaf_effect skip row t t'.
Proof.
  intros Hp. unfold projectGatewayRevocation. intros (u & Hv & H)%bind_ok.
  apply bind_ok in H as ([i c] & He & H). apply (validateGatewayCertificate_id _ _ _ _ Hid) in He as ->.
  unfold UpdateGatewayLifecycleState in H. destruct (lf_gateways t !! id) as [r|] eqn:Er in H |- *; [|by cbn in H].
  destruct (_ && _ && _) eqn:Ew in H.
  - change (1 =? 0) with false in H. cbn [mbind result_bind] in H. apply projectCertificateRevocation_ok in H as Hr.
    apply andb_true_iff in Ew as [Ew Hs%String.eqb_eq]. apply andb_true_iff in Ew as [_ Hc%String.eqb_eq].
    eapply recorded_effect; [| | |rewrite Hp; exact Hr| |]; rewrite ?Hp; try done.
    apply gateways_insert. rewrite Er, Hp, <- Hc. by apply gateway_revoked.
  - change (0 =? 0) with true in H. cbn iota in H. apply bind_ok in H as (u2 & H2%wrap_err_ok & _).
    apply bind_ok in H2 as (cur & Hc%or_err_ok & H2). apply bind_ok in H2 as (g & Hg%gatewayFromRow_version & Hf%fail_if_ok).
    repeat apply orb_false_iff in Hf as [Hf _]. apply negb_false_iff in Hf. rewrite Hg in Hf.
    destruct (no_current_gateway cur ltac:(by rewrite Hp) ltac:(congruence) Hf).
Qed.

Lemma projectLeaf_effect t' : projectLeaf skip row t = Ok t' -> leaf_effect skip row t t'.
Proof.
  unfold projectLeaf. destruct (te_Payload (ty_Event row)) eqn:Hp in |- *.
  - by apply enrollment_effect.
  - by apply renewal_effect.
  - apply lifecycle_effect. by left.
  - apply lifecycle_effect. by right.
  - by apply owner_effect.
  - by apply deletion_effect.
  - by apply gateway_enrollment_effect.
  - by apply gateway_renewal_effect.
  - by apply gateway_revocation_effect.
Qed.
End OneEvent.

(** ** Histories *)

Definition device_final (payload : leafPayload) : bool :=
  match payload with agentCertificateRevoked _ | agentDeleted _ | gatewayCertificateRevoked _ => true | _ => false end.

(** The identity of an event's stream is out of service: its row is gone, or
    revoked with the same certificate. *)
Definition out_of_service (row : LeafRow) (t : LeafTables) : Prop :=
  if is_agent (te_Payload (ty_Event row))
  then forall r, lf_devices t !! te_StreamID (ty_Event row) = Some r ->
         dr_LifecycleState r = DeviceLifecycleRevoked
         /\ te_Payload (ty_Event row) = agentCertificateRevoked (dr_CertificateDer r)
  else exists r, lf_gateways t !! te_StreamID (ty_Event row) = Some r
         /\ gt_LifecycleState r = GatewayLifecycleRevoked
         /\ te_Payload (ty_Event row) = gatewayCertificateRevoked (gt_CertificateDer r).

(** A certificate that is no longer the active one of its row is revoked. *)
Definition device_covered (r : DeviceRow) (t : LeafTables) : Prop :=
  (dr_LifecycleState r <> DeviceLifecycleActive -> revoked_in CertificateClassAgent (dr_CertificateDer r) t)
  /\ (dr_PreviousCertificateDer r <> ""%string -> revoked_in CertificateClassAgent (dr_PreviousCertificateDer r) t).
Definition gateway_covered (r : GatewayRow) (t : LeafTables) : Prop :=
  (gt_LifecycleState r <> GatewayLifecycleActive -> revoked_in CertificateClassGateway (gt_CertificateDer r) t)
  /\ (gt_PreviousCertificateDer r <> ""%string -> revoked_in CertificateClassGateway (gt_PreviousCertificateDer r) t).

Record leaf_inv (db : LeafDB) : Prop := {
  vi_contiguous : typed_contiguous (td_log db);
  vi_typed : forall row, row ∈ td_log db -> leaf_typed (ty_Event row);
  vi_devices : forall id r, lf_devices (td_tables db) !! id = Some r ->
    0 < dr_ProjectionVersion r /\ dr_ProjectionVersion r = typed_version deviceStreamType id (td_log db)
    /\ device_covered r (td_tables db);
  vi_gateways : forall id r, lf_gateways (td_tables db) !! id = Some r ->
    0 < gt_ProjectionVersion r /\ gt_ProjectionVersion r = typed_version gatewayStreamType id (td_log db)
    /\ gateway_covered r (td_tables db);
  vi_withdrawn : forall row der, row ∈ td_log db -> withdrawn (te_Payload (ty_Event row)) = Some der ->
    revoked_in (class_of (te_Payload (ty_Event row))) der (td_tables db);
  vi_sources : forall r, r ∈ t_revocations (lf_crl (td_tables db)) -> exists row, row ∈ td_log db
    /\ row_source row = cv_Source r /\ class_of (te_Payload (ty_Event row)) = cv_Class r
    /\ withdrawn (te_Payload (ty_Event row)) = Some (cv_CertificateDER r);
  vi_final : forall row, row ∈ td_log db -> device_final (te_Payload (ty_Event row)) = true ->
    out_of_service row (td_tables db);
}.

(** A leaf event, or anything that leaves the leaves and their revocations
    alone: revocation lists, finished work. *)
Definition leaf_append (db db' : LeafDB) : Prop :=
  exists event, leaf_typed event /\ appended (projectLeaf false) event db db'.
Definition leaf_other (db db' : LeafDB) : Prop :=
  td_log db' = td_log db /\ lf_devices (td_tables db') = lf_devices (td_tables db)
  /\ lf_gateways (td_tables db') = lf_gateways (td_tables db)
  /\ t_revocations (lf_crl (td_tables db')) = t_revocations (lf_crl (td_tables db)).
Definition leaf_move (db db' : LeafDB) : Prop := leaf_append db db' \/ leaf_other db db'.

Definition empty_leaves : LeafDB := mkTypedDB [] (mkLeafTables ∅ ∅ (mkCRLTables ∅ ∅ [] []) ∅).

Lemma leaf_inv_empty : leaf_inv empty_leaves.
Proof. split; try by intros; set_solver. apply typed_contiguous_nil. Qed.

Lemma revoked_in_sub class der t t' :
  t_revocations (lf_crl t) ⊆ t_revocations (lf_crl t') -> revoked_in class der t -> revoked_in class der t'.
Proof. intros Hs (r & Hr & H). exists r. auto. Qed.

Lemma leaf_inv_other db db' : leaf_inv db -> leaf_other db db' -> leaf_inv db'.
Proof.
  intros [H1 H2 H3 H4 H5 H6 H7] (Hl & Hd & Hg & Hr).
  assert (HR : forall class der, revoked_in class der (td_tables db) -> revoked_in class der (td_tables db'))
    by (intros class der; apply revoked_in_sub; by rewrite Hr).
  split; rewrite ?Hl, ?Hd, ?Hg, ?Hr; [done|done| | |by eauto|done|].
  - intros id r Hid. destruct (H3 id r Hid) as (? & ? & ? & ?). split_and!; [done|done|split; auto].
  - intros id r Hid. destruct (H4 id r Hid) as (? & ? & ? & ?). split_and!; [done|done|split; auto].
  - intros row Hin Hf. specialize (H7 row Hin Hf). unfold out_of_service in *. by rewrite Hd, Hg.
Qed.

(** What a leaf event keeps and adds to the revocations. *)
Lemma effect_revocations skip row t t' :
  leaf_effect skip row t t' ->
  t_revocations (lf_crl t) ⊆ t_revocations (lf_crl t')
  /\ (forall r, r ∈ t_revocations (lf_crl t') -> r ∈ t_revocations (lf_crl t)
       \/ row_source row = cv_Source r /\ class_of (te_Payload (ty_Event row)) = cv_Class r
          /\ withdrawn (te_Payload (ty_Event row)) = Some (cv_CertificateDER r))
  /\ forall der, withdrawn (te_Payload (ty_Event row)) = Some der ->
       revoked_in (class_of (te_Payload (ty_Event row))) der t'
       \/ te_Payload (ty_Event row) = agentDeleted der
          /\ exists r, lf_devices t !! te_StreamID (ty_Event row) = Some r /\ dr_LifecycleState r = DeviceLifecycleRevoked
                      /\ dr_CertificateDer r = der.
Proof.
  intros [_ _ Hc]. destruct (withdrawn (te_Payload (ty_Event row))) as [der|]; [|destruct Hc as [-> _]; by split_and!; [|left|]].
  destruct Hc as [(t1 & H1 & _ & t2 & H2 & _ & Hr)|(Hdel & -> & _ & Hrow)].
  - rewrite H2. destruct (rr_crl _ _ _ _ _ _ _ Hr) as [Heq|(_ & r & Heq & Hc1 & Hc2 & Hc3)]; rewrite H1 in Heq.
    + rewrite Heq. split_and!; [done|by left|]. intros d [= <-]. left.
      eapply revoked_in_sub; [|apply (rr_revoked _ _ _ _ _ _ _ Hr)]. by rewrite H2.
    + rewrite Heq. split_and!; [set_solver| |].
      * intros r' [?|Hr']%elem_of_app; [by left|]. apply list_elem_of_singleton in Hr' as ->. right. by rewrite Hc1, Hc2.
      * intros d [= <-]. left. eapply revoked_in_sub; [|apply (rr_revoked _ _ _ _ _ _ _ Hr)]. by rewrite H2.
  - split_and!; [done|by left|]. intros d [= <-]. by right.
Qed.

Lemma device_step_covered payload version old new r t :
  device_step payload version old new -> new = Some r -> 0 < version ->
  (forall r0, old = Some r0 -> device_covered r0 t) ->
  (forall der, withdrawn payload = Some der -> revoked_in CertificateClassAgent der t) ->
  0 < dr_ProjectionVersion r /\ dr_ProjectionVersion r = version /\ device_covered r t.
Proof.
  intros Hs Hr Hv Hold Hw. unfold device_covered in *.
  destruct Hs as [p r1 Hc Hl Hp Hpv|p version r0 r1 Hc0 Hl0 Hc Hl Hp Hpv|payload state version r0 r1 Hpay Hl0 Hc Hl Hp Hpv
    |owner version r0 r1 Hc Hl Hp Hpv|]; try done; injection Hr as <-; rewrite Hpv, Hl, Hp; (split; [done|split; [done|]]).
  - done.
  - split; [done|]. intros _. by apply Hw.
  - split; [|by apply Hold]. intros _. rewrite Hc. apply Hw. by destruct Hpay as [[-> _]|[-> _]].
  - rewrite Hc. by apply Hold.
Qed.

Lemma gateway_step_covered payload version old new r t :
  gateway_step payload version old new -> new = Some r -> 0 < version ->
  (forall r0, old = Some r0 -> gateway_covered r0 t) ->
  (forall der, withdrawn payload = Some der -> revoked_in CertificateClassGateway der t) ->
  0 < gt_ProjectionVersion r /\ gt_ProjectionVersion r = version /\ gateway_covered r t.
Proof.
  intros Hs Hr Hv Hold Hw. unfold gateway_covered in *.
  destruct Hs as [p r1 Hc Hl Hp Hpv|p version r0 r1 Hc0 Hl0 Hc Hl Hp Hpv|version r0 r1 Hl0 Hc Hl Hp Hpv];
    injection Hr as <-; rewrite Hpv, Hl, Hp; (split; [done|split; [done|]]).
  - done.
  - split; [done|]. intros _. by apply Hw.
  - split; [|by apply Hold]. intros _. rewrite Hc. by apply Hw.
Qed.

Section Append.
Context (event : LeafEvent) (now : time) (db : LeafDB) (tables : LeafTables).
Notation version := (typed_version (te_StreamType event) (te_StreamID event) (td_log db) + 1).
Notation row := (mkTypedRow event version now).
Context (Htyped : leaf_typed event) (HI : leaf_inv db) (Heff : leaf_effect false row (td_tables db) tables).

Lemma append_revoked_in class der : revoked_in class der (td_tables db) -> revoked_in class der tables.
Proof. apply revoked_in_sub, (effect_revocations _ _ _ _ Heff). Qed.

Lemma append_withdrawn der :
  withdrawn (te_Payload event) = Some der -> revoked_in (class_of (te_Payload event)) der tables.
Proof.
  intros Hw. destruct (proj2 (proj2 (effect_revocations _ _ _ _ Heff)) der Hw) as [?|(Hdel & r & Hr & Hl & Hder)]; [done|].
  cbn [ty_Event] in *. destruct (vi_devices _ HI _ _ Hr) as (_ & _ & [Hrev _]). apply append_revoked_in.
  rewrite Hdel, <- Hder. apply Hrev. by rewrite Hl.
Qed.

Lemma append_devices id r :
  lf_devices tables !! id = Some r ->
  0 < dr_ProjectionVersion r /\ dr_ProjectionVersion r = typed_version deviceStreamType id (td_log db ++ [row])
  /\ device_covered r tables.
Proof.
  intros Hr. rewrite (typed_version_snoc _ _ _ event version now (vi_contiguous _ HI) eq_refl).
  pose proof (typed_version_nonneg (te_StreamType event) (te_StreamID event) (td_log db)) as Hpos.
  destruct Htyped as [Hst Hid]. pose proof (le_devices _ _ _ _ Heff) as Hd. pose proof append_withdrawn as Hw.
  unfold stream_of, class_of in *. cbn [ty_Event ty_Version] in *. destruct (is_agent (te_Payload event)) eqn:Ea.
  - destruct Hd as [Hstep Hothers]. cbn [ty_Event ty_Version] in *. destruct (decide (id = te_StreamID event)) as [->|Hne].
    + rewrite decide_True by (by split). rewrite Hr in Hstep.
      assert (Hcov : forall r0, lf_devices (td_tables db) !! te_StreamID event = Some r0 -> device_covered r0 tables).
      { intros r0 Hr0. destruct (vi_devices _ HI _ _ Hr0) as (_ & _ & [Hc1 Hc2]). split; intros Hn; apply append_revoked_in; auto. }
      apply (device_step_covered _ _ _ _ _ _ Hstep); [done|lia|done..].
    + rewrite decide_False by (intros [_ Hx]; by apply Hne). rewrite Hothers in Hr by done.
      destruct (vi_devices _ HI _ _ Hr) as (? & ? & [Hc1 Hc2]). split_and!; [done|done|].
      split; intros Hn; apply append_revoked_in; auto.
  - rewrite decide_False by (intros [Hx _]; cbn in Hx; by rewrite Hst in Hx). rewrite Hd in Hr.
    destruct (vi_devices _ HI _ _ Hr) as (? & ? & [Hc1 Hc2]). split_and!; [done|done|].
    split; intros Hn; apply append_revoked_in; auto.
Qed.

Lemma append_gateways id r :
  lf_gateways tables !! id = Some r ->
  0 < gt_ProjectionVersion r /\ gt_ProjectionVersion r = typed_version gatewayStreamType id (td_log db ++ [row])
  /\ gateway_covered r tables.
Proof.
  intros Hr. rewrite (typed_version_snoc _ _ _ event version now (vi_contiguous _ HI) eq_refl).
  pose proof (typed_version_nonneg (te_StreamType event) (te_StreamID event) (td_log db)) as Hpos.
  destruct Htyped as [Hst Hid]. pose proof (le_gateways _ _ _ _ Heff) as Hd. pose proof append_withdrawn as Hw.
  unfold stream_of, class_of in *. cbn [ty_Event ty_Version] in *. destruct (is_agent (te_Payload event)) eqn:Ea.
  - rewrite decide_False by (intros [Hx _]; cbn in Hx; by rewrite Hst in Hx). rewrite Hd in Hr.
    destruct (vi_gateways _ HI _ _ Hr) as (? & ? & [Hc1 Hc2]). split_and!; [done|done|].
    split; intros Hn; apply append_revoked_in; auto.
  - destruct Hd as [Hstep Hothers]. cbn [ty_Event ty_Version] in *. destruct (decide (id = te_StreamID event)) as [->|Hne].
    + rewrite decide_True by (by split). rewrite Hr in Hstep.
      assert (Hcov : forall r0, lf_gateways (td_tables db) !! te_StreamID event = Some r0 -> gateway_covered r0 tables).
      { intros r0 Hr0. destruct (vi_gateways _ HI _ _ Hr0) as (_ & _ & [Hc1 Hc2]). split; intros Hn; apply append_revoked_in; auto. }
      apply (gateway_step_covered _ _ _ _ _ _ Hstep); [done|lia|done..].
    + rewrite decide_False by (intros [_ Hx]; by apply Hne). rewrite Hothers in Hr by done.
      destruct (vi_gateways _ HI _ _ Hr) as (? & ? & [Hc1 Hc2]). split_and!; [done|done|].
      split; intros Hn; apply append_revoked_in; auto.
Qed.

(** An identity that left service stays out of it. *)
Lemma device_final_step (row0 : LeafRow) old new :
  device_step (te_Payload event) version old new -> (0 < version - 1) ->
  (forall r, old = Some r -> dr_LifecycleState r = DeviceLifecycleRevoked
     /\ te_Payload (ty_Event row0) = agentCertificateRevoked (dr_CertificateDer r)) ->
  forall r, new = Some r -> dr_LifecycleState r = DeviceLifecycleRevoked
     /\ te_Payload (ty_Event row0) = agentCertificateRevoked (dr_CertificateDer r).
Proof.
  intros Hs Hv Hold r Hr.
  destruct Hs as [p r1 Hc Hl Hp Hpv|p v r0 r1 Hc0 Hl0 Hc Hl Hp Hpv|payload state v r0 r1 Hpay Hl0 Hc Hl Hp Hpv
    |owner v r0 r1 Hc Hl Hp Hpv|]; try done.
  - by destruct Hl0, (Hold r0 eq_refl).
  - by destruct Hl0, (Hold r0 eq_refl).
  - injection Hr as <-. rewrite Hc, Hl. by apply Hold.
Qed.

Lemma append_final row0 :
  row0 ∈ td_log db ++ [row] -> device_final (te_Payload (ty_Event row0)) = true -> out_of_service row0 tables.
Proof.
  pose proof (le_devices _ _ _ _ Heff) as Hd. pose proof (le_gateways _ _ _ _ Heff) as Hg.
  destruct Htyped as [Hst Hid]. unfold stream_of in Hst. cbn [ty_Event ty_Version] in *.
  intros [Hin|Hin]%elem_of_app Hf.
  - pose proof (vi_final _ HI row0 Hin Hf) as Hout. pose proof (typed_version_pos row0 _ (vi_contiguous _ HI) Hin) as Hpos.
    destruct (vi_typed _ HI row0 Hin) as [Hst0 _]. unfold stream_of in Hst0. unfold out_of_service in *.
    destruct (is_agent (te_Payload (ty_Event row0))) eqn:E0, (is_agent (te_Payload event)) eqn:E1; rewrite ?Hd, ?Hg; try done.
    + destruct Hd as [Hstep Hothers]. cbn [ty_Event ty_Version] in *.
      destruct (decide (te_StreamID (ty_Event row0) = te_StreamID event)) as [He|Hne]; [|by rewrite Hothers].
      rewrite He in *. apply (device_final_step row0 _ _ Hstep); [|done]. rewrite Hst, <- Hst0. lia.
    + destruct Hg as [Hstep Hothers]. cbn [ty_Event ty_Version] in *.
      destruct (decide (te_StreamID (ty_Event row0) = te_StreamID event)) as [He|Hne]; [|by rewrite Hothers].
      destruct Hout as (r & Hr & Hrev & _). rewrite He in Hr. rewrite Hr in Hstep.
      by inversion Hstep as [|? ? ? ? ? Hl|? ? ? Hl]; rewrite Hrev in Hl.
  - apply list_elem_of_singleton in Hin as ->. unfold out_of_service. cbn [ty_Event] in *.
    destruct (is_agent (te_Payload event)) eqn:E1.
    + destruct Hd as [Hstep _]. cbn [ty_Event ty_Version] in Hstep. intros r Hr. rewrite Hr in Hstep.
      remember (Some r) as new. destruct Hstep as [| |payload state v r0 r1 [[-> ->]|[-> ->]] Hl0 Hc Hl Hp Hpv| |]; try done.
      injection Heqnew as ->. by rewrite Hl, Hc.
    + destruct Hg as [Hstep _]. cbn [ty_Event ty_Version] in Hstep. remember (lf_gateways tables !! _) as new.
      destruct Hstep as [| |v r0 r1 Hl0 Hc Hl Hp Hpv]; try done. exists r1. by rewrite Hc.
Qed.

Lemma append_sources r :
  r ∈ t_revocations (lf_crl tables) -> exists row0, row0 ∈ td_log db ++ [row] /\ row_source row0 = cv_Source r
    /\ class_of (te_Payload (ty_Event row0)) = cv_Class r
    /\ withdrawn (te_Payload (ty_Event row0)) = Some (cv_CertificateDER r).
Proof.
  intros Hr. destruct (proj1 (proj2 (effect_revocations _ _ _ _ Heff)) r Hr) as [Hold|Hnew].
  - destruct (vi_sources _ HI r Hold) as (row0 & Hin & H). exists row0. split; [apply elem_of_app; by left|done].
  - exists row. split; [apply elem_of_app; right; by left|done].
Qed.

Lemma append_inv : leaf_inv (mkTypedDB (td_log db ++ [row]) tables).
Proof.
  split; cbn [td_log td_tables].
  - apply typed_contiguous_snoc, HI.
  - intros r [Hr|Hr]%elem_of_app; [by apply HI|]. by apply list_elem_of_singleton in Hr as ->.
  - apply append_devices.
  - apply append_gateways.
  - intros r der [Hr|Hr]%elem_of_app Hw; [by apply append_revoked_in, (vi_withdrawn _ HI)|].
    apply list_elem_of_singleton in Hr as ->. by apply append_withdrawn.
  - apply append_sources.
  - apply append_final.
Qed.

(** The source event of a new row is nobody's yet. *)
Lemma append_source_new r : r ∈ t_revocations (lf_crl (td_tables db)) -> cv_Source r <> row_source row.
Proof.
  intros Hr Heq. destruct (vi_sources _ HI r Hr) as (row0 & Hin & Hs & _). rewrite Heq in Hs. injection Hs as H1 H2 H3.
  pose proof (typed_version_ge row0 _ Hin) as Hge. rewrite H1, H2, H3 in Hge. lia.
Qed.
End Append.

Lemma appended_effect event db now tables :
  let row := mkTypedRow event (typed_version (te_StreamType event) (te_StreamID event) (td_log db) + 1) now in
  leaf_inv db -> leaf_typed event -> projectLeaf false row (td_tables db) = Ok tables ->
  leaf_effect false row (td_tables db) tables.
Proof.
  intros row HI [Hst Hid] Hp. unfold stream_of in Hst. apply (projectLeaf_effect false) in Hp; [done|done|intros Ha r Hr..];
    unfold row; cbn [ty_Event ty_Version row] in *; rewrite Hst, Ha in *.
  - destruct (vi_devices _ HI _ _ Hr) as (_ & -> & _). lia.
  - destruct (vi_gateways _ HI _ _ Hr) as (_ & -> & _). lia.
Qed.

Lemma leaf_move_inv db db' : leaf_inv db -> leaf_move db db' -> leaf_inv db'.
Proof.
  intros HI [(event & Ht & now & tables & Hv & Hp & ->)|Ho]; [|by eapply leaf_inv_other].
  apply append_inv; [done|done|]. by apply appended_effect.
Qed.

Lemma leaf_history_inv db db' : leaf_inv db -> rtc leaf_move db db' -> leaf_inv db'.
Proof. intros HI Hm. induction Hm as [db|db1 db2 db3 H12 H23 IH]; [done|]. by apply IH, (leaf_move_inv db1). Qed.

(** C39. Whatever the history of leaf events and of everything around them, a
    certificate that was superseded, revoked, put up for forced renewal or
    deleted with its device is in the revocation table of its class, and stays
    there; conversely the table holds nothing but certificates some event
    withdrew; and a row whose certificate is not active, or that remembers a
    predecessor, has that certificate revoked. *)
Theorem withdrawn_certificates_are_revoked db :
  rtc leaf_move empty_leaves db ->
  (forall row der, row ∈ td_log db -> withdrawn (te_Payload (ty_Event row)) = Some der ->
     revoked_in (class_of (te_Payload (ty_Event row))) der (td_tables db))
  /\ (forall r, r ∈ t_revocations (lf_crl (td_tables db)) -> exists row, row ∈ td_log db
        /\ row_source row = cv_Source r /\ class_of (te_Payload (ty_Event row)) = cv_Class r
        /\ withdrawn (te_Payload (ty_Event row)) = Some (cv_CertificateDER r))
  /\ (forall id r, lf_devices (td_tables db) !! id = Some r -> device_covered r (td_tables db))
  /\ forall id r, lf_gateways (td_tables db) !! id = Some r -> gateway_covered r (td_tables db).
Proof.
  intros HI%(leaf_history_inv _ _ leaf_inv_empty). split_and!.
  - apply HI.
  - apply HI.
  - intros id r Hr. by apply (vi_devices _ HI id r Hr).
  - intros id r Hr. by apply (vi_gateways _ HI id r Hr).
Qed.

(** C40. Leaving service is final: once an identity's certificate was revoked
    or its device deleted, no later history of renewals, updates or new
    enrollments brings the identity back; its row is gone, or stays revoked
    with the certificate that was revoked. *)
Theorem revoked_identity_is_final db db' row :
  leaf_inv db -> rtc leaf_move db db' -> row ∈ td_log db -> device_final (te_Payload (ty_Event row)) = true ->
  out_of_service row (td_tables db').
Proof.
  intros HI Hm Hin Hf. assert (HI' : leaf_inv db') by (by eapply leaf_history_inv).
  apply (vi_final _ HI'); [|done]. clear -Hm Hin. induction Hm as [db|db1 db2 db3 H12 H23 IH]; [done|]. apply IH.
  destruct H12 as [(event & _ & now & tables & _ & _ & ->)|(-> & _)]; [|done]. apply elem_of_app. by left.
Qed.

(** ** From a withdrawal to the issuer *)

(** What the queue hands to a handler. *)
Definition crl_item (key : WorkKey) (w : WorkRow) : CRLWork :=
  mkCRLWork key.2 (w_PayloadVersion (wr_Work w)) (default "" (w_Payload (wr_Work w)))
    (mkCRLSource key.1.1.1 key.1.1.2 key.1.2).

Definition class_handler {x509crl : X509CRL} (payload : leafPayload) : CRLIssuer -> CRLWork -> CRLProg unit :=
  if is_agent payload then HandleAgentCRLWork else HandleGatewayCRLWork.

Lemma withdrawal_follows row old_version (t t' : LeafTables) der :
  leaf_effect false row t t' -> withdrawn (te_Payload (ty_Event row)) = Some der ->
  (forall r, lf_devices t !! te_StreamID (ty_Event row) = Some r -> is_agent (te_Payload (ty_Event row)) = true -> old_version > 0) ->
  (forall r, lf_gateways t !! te_StreamID (ty_Event row) = Some r -> is_agent (te_Payload (ty_Event row)) = false -> old_version > 0) ->
  old_version > 0.
Proof.
  intros [Hd Hg _] Hw H1 H2. destruct (is_agent (te_Payload (ty_Event row))) eqn:Ea.
  - destruct Hd as [Hs _]. cbv zeta in Hs. remember (lf_devices t !! _) as old.
    destruct Hs; try done; by eapply H1.
  - destruct Hg as [Hs _]. cbv zeta in Hs. remember (lf_gateways t !! _) as old.
    destruct Hs; try done; by eapply H2.
Qed.

(** A withdrawal reaches the issuer of revocation lists: the transaction of
    the event leaves the certificate revoked, by at most one new row that the
    issuer's invariant allows, and queues one work item under the event's own
    key, which the handler of its class does not refuse but answers by signing
    for that source; only the deletion of a device that was already revoked
    queues nothing new. *)
Theorem withdrawal_is_handed_to_the_issuer {x509crl : X509CRL} db db' event der (i : CRLIssuer) :
  leaf_inv db -> leaf_typed event -> appended (projectLeaf false) event db db' ->
  withdrawn (te_Payload event) = Some der ->
  let version := typed_version (te_StreamType event) (te_StreamID event) (td_log db) + 1 in
  let source := mkCRLSource (te_StreamType event) (te_StreamID event) version in
  let key := ((te_StreamType event, te_StreamID event, version), kind_of (te_Payload event)) in
  revoked_in (class_of (te_Payload event)) der (td_tables db')
  /\ ((lf_crl (td_tables db') = lf_crl (td_tables db) \/ project_revocation (lf_crl (td_tables db)) (lf_crl (td_tables db')))
      /\ (exists w, lf_work (td_tables db') !! key = Some w
           /\ class_handler (te_Payload event) i (crl_item key w)
              = try_prog (sign i (class_of (te_Payload event)) source) (fun _ => Ret (Ok tt)))
      \/ te_Payload event = agentDeleted der /\ lf_crl (td_tables db') = lf_crl (td_tables db)
         /\ lf_work (td_tables db') = lf_work (td_tables db)).
Proof.
  intros HI Ht (now & tables & Hv & Hp & ->) Hw version source key. cbv zeta in Hv, Hp. cbn [td_tables].
  pose proof (appended_effect event db now tables HI Ht Hp) as Heff. fold version in Heff, Hp.
  split; [by apply (append_withdrawn event now db tables HI Heff)|].
  assert (Hversion : 2 <= version).
  { assert (version - 1 > 0); [|lia]. apply (withdrawal_follows _ _ _ _ der Heff Hw); cbn [ty_Event]; intros r Hr Ha;
      destruct Ht as [Hst _]; unfold stream_of in Hst; rewrite Ha in Hst; unfold version; rewrite Hst.
    - destruct (vi_devices _ HI _ _ Hr) as (? & ? & _). lia.
    - destruct (vi_gateways _ HI _ _ Hr) as (? & ? & _). lia. }
  pose proof (le_crl _ _ _ _ Heff) as Hc. cbn [ty_Event] in Hc. rewrite Hw in Hc.
  destruct Hc as [(t1 & H1 & H1w & t2 & H2 & H2w & Hrec)|(Hdel & Hcrl & Hwork & _)]; [left|by right]. split.
  - rewrite H2, <- H1. destruct (rr_crl _ _ _ _ _ _ _ Hrec) as [?|[? _]]; auto.
  - pose proof (rr_work _ _ _ _ _ _ _ Hrec eq_refl) as Hq. rewrite H1, H1w in Hq. rewrite H2w, Hq; clear Hq.
    2: { intros r Hr. by apply (append_source_new event now db HI). }
    eexists. split; [by apply lookup_insert_eq|]. subst source key. destruct Ht as [Hst (_ & Hulid & _)%canonical_ulid_id].
    unfold class_handler, HandleAgentCRLWork, HandleGatewayCRLWork, handleCRLWork, crl_item, kind_of, class_of, stream_of in *.
    destruct (is_agent (te_Payload event));
      cbn [cw_Kind cw_PayloadVersion cw_Payload cw_Source src_StreamType src_StreamID src_StreamVersion fst snd
           wr_Work w_PayloadVersion w_Payload default]; by rewrite Hst, Hulid, (proj2 (Z.ltb_ge version 2)) by done.
Qed.
End Facts.

(** ** Example: a device that is renewed, then revoked *)

Module LeafExample.

Definition device : string := "01ARZ3NDEKTSV4RRFFQ69G5FAV".
Definition certificate (der : string) (serial : Z) : Certificate :=
  mkCertificate der "" "" device [] (Some serial) "" "ki" false true 0 false 1 [] 0 hour
    (KeyECDSAPublic (Some sample_pub)) [Some AgentSPIFFEURI] [] [] [ExtKeyUsageClientAuth] [] [] [] [].

#[export] Instance x509 : X509 := {|
  ParseCertificate der := if String.eqb der "first" then Some (certificate "first" 5)
                          else if String.eqb der "second" then Some (certificate "second" 6) else None;
  CheckSignatureFrom _ _ := false;
  MarshalPKIXPublicKey _ := Some "key"%string;
  unmarshalRawValues _ := None;
|}.

#[export] Instance schemes : Schemes := example_schemes.
#[export] Instance x25519 : X25519 := {| NewPublicKey _ := true; ECDH_usable _ := true |}.
#[export] Instance x509crl : X509CRL := {|
  ParseRevocationList _ := None;
  CreateRevocationList _ _ _ := Err "unused"%string;
  ListCheckSignatureFrom _ _ := false;
|}.

Definition env (now : time) : AppendEnv := mkAppendEnv None Committed now.
Definition sealing : list Z := repeat 9 32.

Definition enrolled_event : LeafEvent :=
  deviceEvent device (agentEnrolled (mkAgentEnrolledPayload "first" sealing device "ops")).
Definition renewed_event : LeafEvent :=
  deviceEvent device (agentCertificateRenewed (mkAgentCertificateRenewedPayload "second" sealing "first")).
Definition revoked_event : LeafEvent := deviceEvent device (agentCertificateRevoked "second").

Definition enrolled : LeafDB := (AppendNext (projectLeaf false) (env second) enrolled_event empty_leaves).1.
Definition renewed : LeafDB := (AppendNext (projectLeaf false) (env (2 * second)) renewed_event enrolled).1.
Definition revoked : LeafDB := (AppendNext (projectLeaf false) (env (3 * second)) revoked_event renewed).1.

Lemma appended_run event now db :
  (AppendNext (projectLeaf false) (env now) event db).2 = Ok tt ->
  appended (projectLeaf false) event db (AppendNext (projectLeaf false) (env now) event db).1.
Proof.
  destruct (AppendNext _ _ _ _) as [db' r] eqn:E. cbn [fst snd]. intros ->.
  by apply AppendNext_ok in E as [[_ ?]|?].
Qed.

Lemma typed event : te_StreamType event = stream_of (te_Payload event) -> te_StreamID event = device -> leaf_typed event.
Proof. intros H1 H2. split; [done|]. rewrite H2. by split; vm_compute. Qed.

Lemma enroll_move : leaf_move empty_leaves enrolled.
Proof. left. exists enrolled_event. split; [by apply typed|]. apply appended_run. by vm_compute. Qed.

Lemma renew_appended : appended (projectLeaf false) renewed_event enrolled renewed.
Proof. apply appended_run. by vm_compute. Qed.

Lemma renew_move : leaf_move enrolled renewed.
Proof. left. exists renewed_event. split; [by apply typed|exact renew_appended]. Qed.

Lemma revoke_move : leaf_move renewed revoked.
Proof. left. exists revoked_event. split; [by apply typed|]. apply appended_run. by vm_compute. Qed.

Lemma history : rtc leaf_move empty_leaves revoked.
Proof. eapply rtc_l; [exact enroll_move|]. eapply rtc_l; [exact renew_move|]. apply rtc_once, revoke_move. Qed.

Lemma enrolled_inv : leaf_inv enrolled.
Proof. apply (leaf_move_inv empty_leaves); [apply leaf_inv_empty|exact enroll_move]. Qed.
Lemma revoked_inv : leaf_inv revoked.
Proof. exact (leaf_history_inv _ _ leaf_inv_empty history). Qed.
End LeafExample.

Import LeafExample.

Lemma withdrawn_certificates_are_revoked_witness :
  revoked_in CertificateClassAgent "first" (td_tables LeafExample.revoked)
  /\ revoked_in CertificateClassAgent "second" (td_tables LeafExample.revoked).
Proof.
  pose proof (proj1 (withdrawn_certificates_are_revoked LeafExample.revoked LeafExample.history)) as H. split.
  - refine (H (mkTypedRow LeafExample.renewed_event 2 (2 * second)) "first"%string _ eq_refl).
    vm_compute. right. left.
  - refine (H (mkTypedRow LeafExample.revoked_event 3 (3 * second)) "second"%string _ eq_refl).
    vm_compute. right. right. left.
Defined.

Lemma revoked_identity_is_final_witness :
  out_of_service (mkTypedRow LeafExample.revoked_event 3 (3 * second)) (td_tables LeafExample.revoked).
Proof.
  apply (revoked_identity_is_final LeafExample.revoked LeafExample.revoked); [exact LeafExample.revoked_inv|apply rtc_refl| |reflexivity].
  vm_compute. right. right. left.
Defined.

Definition example_issuer : CRLIssuer :=
  let ca := mkCertificateAuthority (LeafExample.certificate "first" 5) KeyOther "" in
  mkCRLIssuer (mkAuthorities ca ca KeyOther ∅ ∅) None.

Lemma withdrawal_is_handed_to_the_issuer_witness :
  revoked_in CertificateClassAgent "first" (td_tables LeafExample.renewed)
  /\ exists w, lf_work (td_tables LeafExample.renewed)
               !! (((deviceStreamType, LeafExample.device, 2), PublishAgentCRLWorkKind) : WorkKey) = Some w
     /\ HandleAgentCRLWork example_issuer (crl_item ((deviceStreamType, LeafExample.device, 2), PublishAgentCRLWorkKind) w)
        = try_prog (sign example_issuer CertificateClassAgent (mkCRLSource deviceStreamType LeafExample.device 2))
            (fun _ => Ret (Ok tt)).
Proof.
  destruct (withdrawal_is_handed_to_the_issuer LeafExample.enrolled LeafExample.renewed LeafExample.renewed_event "first"
    example_issuer LeafExample.enrolled_inv) as [Hr [[_ Hw]|[Hd _]]];
    [by apply LeafExample.typed|exact LeafExample.renew_appended|reflexivity| |discriminate Hd].
  split; [exact Hr|exact Hw].
Defined.
