(* ===== verification/TrustStore.v ===== *)
(** * [server/internal/store/ca_rotation.go]: the durable state of CA rotation

    One event stream per certificate class holds its rotation states, and the
    stream of every reporter holds the receipts it signed.  The reads decide
    who still trusts or uses which root. *)

From Stdlib Require Import Ascii String ZArith Lia.
From S2P Require Export Leaves.

(** server/internal/store/ca_rotation.go:19-35 [caRotationStreamType] *)
Definition caRotationStreamType : string := "ca-rotation".
Definition caTrustConfirmationStreamType : string := "ca-trust-confirmation".
Definition agentLeafTrustConfirmedEventType : string := "AgentLeafTrustConfirmed".
Definition agentConsumerTrustConfirmedEventType : string := "AgentConsumerTrustConfirmed".
Definition gatewayLeafTrustConfirmedEventType : string := "GatewayLeafTrustConfirmed".
Definition gatewayConsumerTrustConfirmedEventType : string := "GatewayConsumerTrustConfirmed".
Definition controlTrustStateRecordedEventType : string := "ControlTrustStateRecorded".
Definition controlReporterID : string := "00000000000000000000000000".
Definition MaxCAMigrationReportPageSize : Z := 500.

(** server/internal/store/ca_rotation.go:42-48 [LeafTrustConfirmation], and the
    payload it is stored as *)
Record LeafTrustConfirmation := mkLeafTrustConfirmation {
  lt_CertificateClass : string;
  lt_ReporterID : string;
  lt_ReporterCertificateDER : string;
  lt_Generation : Z;
  lt_IssuerFingerprint : string;
}.

(** server/internal/store/ca_rotation.go:52-62 [ConsumerTrustConfirmation], and the
    payload it is stored as *)
Record ConsumerTrustConfirmation := mkConsumerTrustConfirmation {
  ct_ReporterClass : string;
  ct_ClaimedClass : string;
  ct_ReporterID : string;
  ct_ReporterCertificateDER : string;
  ct_Generation : Z;
  ct_Revision : Z;
  ct_RootFingerprints : list string;
  ct_CRLIssuerFingerprint : string;
  ct_CRLSequence : Z;
}.

(** server/internal/store/ca_rotation.go:65-72 [ControlTrustConfirmation], and the
    payload it is stored as *)
Record ControlTrustConfirmation := mkControlTrustConfirmation {
  nt_ClaimedClass : string;
  nt_Generation : Z;
  nt_Revision : Z;
  nt_RootFingerprints : list string;
  nt_CRLIssuerFingerprint : string;
  nt_CRLSequence : Z;
}.

(** server/internal/store/ca_rotation.go:75-79 [TrustConsumer] *)
Record TrustConsumer := mkTrustConsumer {
  ac_ReporterID : string; ac_ReporterClass : string; ac_ReporterCertificateDER : string }.

(** server/internal/store/ca_rotation.go:82-95 [CARotationState] *)
Record CARotationState := mkCARotationState {
  cs_CertificateClass : string;
  cs_Phase : string;
  cs_Generation : Z;
  cs_Revision : Z;
  cs_CurrentRootDER : string;
  cs_CurrentFromSuccessor : bool;
  cs_SuccessorRootDER : string;
  cs_DiscardedRootDER : string;
  cs_TransitionCertificateDER : string;
  cs_RequiredCRLIssuerFingerprint : string;
  cs_RequiredCRLSequence : Z;
  cs_ProjectionVersion : Z;
}.

#[export] Instance rotation_state_eq_dec : EqDecision CARotationState.
Proof. solve_decision. Defined.
#[export] Instance leaf_confirmation_eq_dec : EqDecision LeafTrustConfirmation.
Proof. solve_decision. Defined.
#[export] Instance consumer_confirmation_eq_dec : EqDecision ConsumerTrustConfirmation.
Proof. solve_decision. Defined.
#[export] Instance control_confirmation_eq_dec : EqDecision ControlTrustConfirmation.
Proof. solve_decision. Defined.

(** The payloads of the certificate streams: leaf events, rotation states under
    their operation's event type, and receipts under theirs. *)
Inductive pkiPayload :=
| PLeaf (p : leafPayload)
| PRotation (eventType : string) (state : CARotationState)
| PLeafTrust (eventType : string) (p : LeafTrustConfirmation)
| PConsumerTrust (eventType : string) (p : ConsumerTrustConfirmation)
| PControlTrust (p : ControlTrustConfirmation).

(** A row of [ca_rotation_state]. *)
Record RotationRow := mkRotationRow { ro_Version : Z; ro_State : CARotationState; ro_UpdatedAt : time }.

Record PKITables := mkPKITables { pk_leaves : LeafTables; pk_rotation : gmap string RotationRow }.

Definition PKIEvent : Type := TypedEvent pkiPayload.
Definition PKIRow : Type := TypedRow pkiPayload.
Definition PKIDB : Type := TypedDB pkiPayload PKITables.

(** ** States *)

(** server/internal/store/ca_rotation.go:244-280 [validateCARotationState] *)
Definition validateCARotationState (s : CARotationState) : result goerr unit :=
  fail_if (negb (validCertificateClass (cs_CertificateClass s)))
    (EMsg "store: invalid CA rotation certificate class") ≫= fun _ =>
  fail_if ((cs_Generation s =? 0) || (cs_Revision s =? 0) || (len (cs_CurrentRootDER s) =? 0))
    (EMsg "store: incomplete CA rotation state") ≫= fun _ =>
  fail_if ((maxCertificateDERBytes <? len (cs_CurrentRootDER s)) || (maxCertificateDERBytes <? len (cs_SuccessorRootDER s))
           || (maxCertificateDERBytes <? len (cs_DiscardedRootDER s))
           || (maxCertificateDERBytes <? len (cs_TransitionCertificateDER s)))
    (EMsg "store: oversized CA rotation certificate material") ≫= fun _ =>
  fail_if (negb (len (cs_RequiredCRLIssuerFingerprint s) =? 0) && negb (len (cs_RequiredCRLIssuerFingerprint s) =? 32)
           || (cs_RequiredCRLSequence s <? 0))
    (EMsg "store: invalid CA rotation CRL baseline") ≫= fun _ =>
  if String.eqb (cs_Phase s) "stable" then
    fail_if (negb (len (cs_SuccessorRootDER s) =? 0) || negb (len (cs_DiscardedRootDER s) =? 0)
             || negb (len (cs_TransitionCertificateDER s) =? 0))
      (EMsg "store: stable CA rotation state contains overlap material")
  else if String.eqb (cs_Phase s) "trust" then
    fail_if ((len (cs_SuccessorRootDER s) =? 0) && (len (cs_DiscardedRootDER s) =? 0))
      (EMsg "store: trust CA rotation state lacks successor or discarded root")
  else if String.eqb (cs_Phase s) "migrate" then
    fail_if ((len (cs_SuccessorRootDER s) =? 0) || (len (cs_TransitionCertificateDER s) =? 0))
      (EMsg "store: migrate CA rotation state lacks successor material")
  else if String.eqb (cs_Phase s) "retire" then
    fail_if (len (cs_SuccessorRootDER s) =? 0) (EMsg "store: retire CA rotation state lacks successor material")
  else Err (EMsg "store: invalid CA rotation phase").

Definition with_version (s : CARotationState) (version : Z) : CARotationState :=
  mkCARotationState (cs_CertificateClass s) (cs_Phase s) (cs_Generation s) (cs_Revision s) (cs_CurrentRootDER s)
    (cs_CurrentFromSuccessor s) (cs_SuccessorRootDER s) (cs_DiscardedRootDER s) (cs_TransitionCertificateDER s)
    (cs_RequiredCRLIssuerFingerprint s) (cs_RequiredCRLSequence s) version.

(** server/internal/store/ca_rotation.go:131-137 [CARotationStateEvent]: the
    event type of an operation *)
Definition rotation_event_type (operation : string) : option string :=
  if String.eqb operation "begin-trust" then Some "CARotationTrustBegun"%string
  else if String.eqb operation "abort" then Some "CARotationAborted"%string
  else if String.eqb operation "migrate" then Some "CARotationMigrationBegun"%string
  else if String.eqb operation "retire" then Some "CARotationRetired"%string
  else if String.eqb operation "normalize" then Some "CARotationNormalized"%string
  else None.

(** server/internal/store/ca_rotation.go:127-150 [CARotationStateEvent] *)
Definition CARotationStateEvent (operation : string) (state : CARotationState) : result goerr PKIEvent :=
  validateCARotationState state ≫= fun _ =>
  or_err (rotation_event_type operation) (EMsg "store: invalid CA rotation operation") ≫= fun eventType =>
  Ok (mkTypedEvent caRotationStreamType (cs_CertificateClass state) (PRotation eventType (with_version state 0))).

Section TrustStore.
Context {x509 : X509} {schemes : Schemes} {x25519 : X25519}.

(** server/internal/store/queries/ca_rotation.sql:80-91 [UpsertCARotationState] *)
Definition UpsertCARotationState (class : string) (version : Z) (state : CARotationState) (updatedAt : time)
    (m : gmap string RotationRow) : gmap string RotationRow * Z :=
  match m !! class with
  | Some r => if ro_Version r =? version - 1 then (<[class := mkRotationRow version state updatedAt]> m, 1) else (m, 0)
  | None => (<[class := mkRotationRow version state updatedAt]> m, 1)
  end.

(** server/internal/store/ca_rotation.go:836-862 [projectCARotationState] *)
Definition projectCARotationState (row : PKIRow) (state : CARotationState) (t : PKITables) : result goerr PKITables :=
  validateCARotationState state ≫= fun _ =>
  fail_if (negb (String.eqb (cs_CertificateClass state) (te_StreamID (ty_Event row))))
    (EMsg "store: CA rotation event stream identity is mismatched") ≫= fun _ =>
  let '(m, affected) := UpsertCARotationState (cs_CertificateClass state) (ty_Version row) state (ty_CreatedAt row)
    (pk_rotation t) in
  fail_if (negb (affected =? 1)) (EMsg "store: CA rotation projection version conflict") ≫= fun _ =>
  Ok (mkPKITables (pk_leaves t) m).

(** The leaf event of a row. *)
Definition leaf_row (row : PKIRow) (p : leafPayload) : LeafRow :=
  mkTypedRow (mkTypedEvent (te_StreamType (ty_Event row)) (te_StreamID (ty_Event row)) p) (ty_Version row) (ty_CreatedAt row).

(** server/internal/store/ca_rotation.go:751-772 [caRotationEventDefinitions]: the
    projector of each event type; a receipt projects nothing *)
Definition projectPKI (skip : bool) (row : PKIRow) (t : PKITables) : result goerr PKITables :=
  match te_Payload (ty_Event row) with
  | PLeaf p => projectLeaf skip (leaf_row row p) (pk_leaves t) ≫= fun leaves => Ok (mkPKITables leaves (pk_rotation t))
  | PRotation _ state => projectCARotationState row state t
  | PLeafTrust _ _ | PConsumerTrust _ _ | PControlTrust _ => Ok t
  end.

(** server/internal/store/ca_rotation.go:880-885 [resetCARotationState] *)
Definition resetCARotationState (t : PKITables) : PKITables := mkPKITables (pk_leaves t) ∅.

(** server/internal/store/ca_rotation.go:153-179 [Store.CARotationState] *)
Definition ReadCARotationState (fault : option goerr) (class : string) (t : PKITables) : result goerr CARotationState :=
  fail_if (negb (validCertificateClass class)) (EMsg "store: invalid CA rotation certificate class") ≫= fun _ =>
  wrap_err (EWrap "store: read CA rotation state")
    (may_fault fault ≫= fun _ => or_err (pk_rotation t !! class) ErrNoRows) ≫= fun row =>
  wrap_err (EWrap "store: invalid CA rotation projection") (validateCARotationState (ro_State row)) ≫= fun _ =>
  fail_if (negb (String.eqb (cs_CertificateClass (ro_State row)) class) || (ro_Version row <=? 0))
    (EMsg "store: CA rotation projection identity or version is invalid") ≫= fun _ =>
  Ok (with_version (ro_State row) (ro_Version row)).

(** The rotation states of a class among rows of the log, with their versions. *)
Definition rotation_rows (class : string) (log : list PKIRow) : list (CARotationState * Z) :=
  omap (fun row => match te_Payload (ty_Event row) with
                   | PRotation _ s => if bool_decide (of_stream caRotationStreamType class row) then Some (s, ty_Version row) else None
                   | _ => None
                   end) log.

(** server/internal/store/ca_rotation.go:204-241 [Store.CARotationStatesAtEvent]: one
    class at the position of a lifecycle event *)
Definition state_at (class : string) (before after : list PKIRow) : result goerr (option CARotationState) :=
  match last (rotation_rows class before) with
  | Some (state, version) =>
      match validateCARotationState state with
      | Ok _ =>
          fail_if (negb (String.eqb (cs_CertificateClass state) class))
            (EMsg "store: invalid historical CA rotation state") ≫= fun _ => Ok (Some (with_version state version))
      | Err _ => Err (EMsg "store: invalid historical CA rotation state")
      end
  | None =>
      match head (rotation_rows class after) with
      | None => Ok None
      | Some (first, _) =>
          fail_if (negb (String.eqb (cs_CertificateClass first) class) || (len (cs_CurrentRootDER first) =? 0))
            (EMsg "store: invalid first historical CA rotation state") ≫= fun _ =>
          Ok (Some (mkCARotationState class "stable" 1 1 (cs_CurrentRootDER first) false "" "" "" "" 0 0))
      end
  end.

(** server/internal/store/ca_rotation.go:183-242 [Store.CARotationStatesAtEvent]: the
    agent and the gateway state; the position in the log is the global position *)
Definition CARotationStatesAtEvent (fault : option goerr) (streamType streamID : string) (streamVersion : Z)
    (log : list PKIRow) : result goerr (option CARotationState * option CARotationState) :=
  fail_if (negb (String.eqb streamType deviceStreamType) && negb (String.eqb streamType gatewayStreamType)
           || negb (is_ok (ULIDPathID streamID)) || (streamVersion <=? 0))
    (EMsg "store: invalid historical CA rotation event") ≫= fun _ =>
  wrap_err (EWrap "store: read lifecycle event position")
    (may_fault fault ≫= fun _ =>
     or_err (list_find (fun row => of_stream streamType (to_upper streamID) row /\ ty_Version row = streamVersion) log)
       ErrNoRows) ≫= fun '(position, _) =>
  let before := take (S position) log in
  let after := drop (S position) log in
  state_at CertificateClassAgent before after ≫= fun agent =>
  state_at CertificateClassGateway before after ≫= fun gateway => Ok (agent, gateway).

(** ** Receipts *)

(** What decides one action of the public service besides: the outcomes of its
    token statements, the bytes that its random source gives, and the verdict of
    the operators' authorizer. *)
Record ServiceEnv := mkServiceEnv {
  sn_tokens : TokenEnv;
  sn_random : option (list Z);
  sn_authorize : option goerr;
}.

(** What decides one action on the certificate streams: the append's outcome, a
    failing read, the clock, the end of the context, and the publisher. *)
Record PKIEnv := mkPKIEnv {
  pe_append : AppendEnv;
  pe_read : option goerr;
  pe_now : time;
  pe_ctx : option goerr;
  pe_publish : option goerr;
  pe_service : ServiceEnv;
}.

Definition TrustProg (A : Type) : Type := prog PKIEnv PKIDB (result goerr A).

(** server/internal/store/ca_rotation.go:590-608 [validateConfirmationReporter] *)
Definition validateConfirmationReporter (class reporterID certificateDER : string) : result goerr (string * Certificate) :=
  wrap_err (fun m => EWrap "store: invalid confirmation reporter ID" (EMsg m)) (ULIDPathID reporterID) ≫= fun _ =>
  let reporterID := to_upper reporterID in
  or_err (ParseCertificate certificateDER) (EMsg "store: invalid confirmation reporter certificate DER") ≫= fun certificate =>
  fail_if (negb (String.eqb (Raw certificate) certificateDER))
    (EMsg "store: invalid confirmation reporter certificate DER") ≫= fun _ =>
  let wantClass := if String.eqb class CertificateClassGateway then GatewayClass else AgentClass in
  wrap_err (fun _ => EMsg "store: confirmation reporter certificate identity is mismatched")
    (ParseCertificateIdentity (Some certificate)) ≫= fun '(gotClass, gotID) =>
  fail_if (negb (String.eqb gotClass wantClass) || negb (String.eqb gotID reporterID))
    (EMsg "store: confirmation reporter certificate identity is mismatched") ≫= fun _ => Ok (reporterID, certificate).

(** The event types of a class's receipts. *)
Definition leaf_event_type (class : string) : string :=
  if String.eqb class CertificateClassGateway then gatewayLeafTrustConfirmedEventType else agentLeafTrustConfirmedEventType.
Definition consumer_event_type (class : string) : string :=
  if String.eqb class CertificateClassGateway then gatewayConsumerTrustConfirmedEventType
  else agentConsumerTrustConfirmedEventType.

(** server/internal/store/ca_rotation.go:535-558 [validatedLeafTrustConfirmation] *)
Definition validatedLeafTrustConfirmation (value : LeafTrustConfirmation) : result goerr (LeafTrustConfirmation * string) :=
  fail_if (negb (validCertificateClass (lt_CertificateClass value)))
    (EMsg "store: invalid leaf confirmation certificate class") ≫= fun _ =>
  validateConfirmationReporter (lt_CertificateClass value) (lt_ReporterID value)
    (lt_ReporterCertificateDER value) ≫= fun '(reporterID, certificate) =>
  fail_if ((lt_Generation value =? 0) || String.eqb (lt_IssuerFingerprint value) zero_fingerprint)
    (EMsg "store: invalid leaf confirmation generation or issuer fingerprint") ≫= fun _ =>
  fail_if (CheckSignatureFrom certificate certificate) (EMsg "store: leaf confirmation certificate is a CA") ≫= fun _ =>
  Ok (mkLeafTrustConfirmation (lt_CertificateClass value) reporterID (lt_ReporterCertificateDER value) (lt_Generation value)
        (lt_IssuerFingerprint value), leaf_event_type (lt_CertificateClass value)).

(** server/internal/store/ca_rotation.go:560-588 [validatedConsumerTrustConfirmation] *)
Definition validatedConsumerTrustConfirmation (value : ConsumerTrustConfirmation)
    : result goerr (ConsumerTrustConfirmation * string) :=
  fail_if (negb (validCertificateClass (ct_ReporterClass value)) || negb (validCertificateClass (ct_ClaimedClass value)))
    (EMsg "store: invalid consumer confirmation certificate class") ≫= fun _ =>
  validateConfirmationReporter (ct_ReporterClass value) (ct_ReporterID value)
    (ct_ReporterCertificateDER value) ≫= fun '(reporterID, _) =>
  fail_if ((ct_Generation value =? 0) || (ct_Revision value =? 0) || (zlen (ct_RootFingerprints value) =? 0))
    (EMsg "store: invalid consumer confirmation trust revision") ≫= fun _ =>
  fail_if (existsb (fun f => String.eqb f zero_fingerprint) (ct_RootFingerprints value))
    (EMsg "store: invalid consumer confirmation root fingerprint") ≫= fun _ =>
  Ok (mkConsumerTrustConfirmation (ct_ReporterClass value) (ct_ClaimedClass value) reporterID (ct_ReporterCertificateDER value)
        (ct_Generation value) (ct_Revision value) (ct_RootFingerprints value) (ct_CRLIssuerFingerprint value)
        (ct_CRLSequence value), consumer_event_type (ct_ReporterClass value)).

(** server/internal/store/ca_rotation.go:393-397 [Store.RecordControlTrustConfirmation]:
    the receipt's checks, which [HasControlTrustConfirmation] repeats *)
Definition valid_control (c : ControlTrustConfirmation) : bool :=
  negb (negb (String.eqb (nt_ClaimedClass c) CertificateClassGateway) || (nt_Generation c =? 0) || (nt_Revision c =? 0)
        || (zlen (nt_RootFingerprints c) =? 0) || negb (String.eqb (nt_CRLIssuerFingerprint c) zero_fingerprint)
        || negb (nt_CRLSequence c =? 0)).

(** A query that answers [x], unless it fails. *)
Definition answer {A} (msg : string) (fault : option goerr) (x : A) : result goerr A :=
  wrap_err (EWrap msg) (may_fault fault) ≫= fun _ => Ok x.

(** server/internal/store/queries/ca_rotation.sql:45-51 [ListTrustConfirmationPayloads]:
    the receipts of a stream, by event type *)
Definition leaf_receipts (streamID eventType : string) (log : list PKIRow) : list LeafTrustConfirmation :=
  omap (fun row => match te_Payload (ty_Event row) with
                   | PLeafTrust t p => if String.eqb t eventType && bool_decide (of_stream caTrustConfirmationStreamType streamID row)
                                       then Some p else None
                   | _ => None
                   end) log.

(** server/internal/store/queries/ca_rotation.sql:45-51 [ListTrustConfirmationPayloads] *)
Definition consumer_receipts (streamID eventType : string) (log : list PKIRow) : list ConsumerTrustConfirmation :=
  omap (fun row => match te_Payload (ty_Event row) with
                   | PConsumerTrust t p => if String.eqb t eventType && bool_decide (of_stream caTrustConfirmationStreamType streamID row)
                                           then Some p else None
                   | _ => None
                   end) log.

(** server/internal/store/queries/ca_rotation.sql:53-61 [TrustConfirmationEventExists] *)
Definition control_receipts (log : list PKIRow) : list ControlTrustConfirmation :=
  omap (fun row => match te_Payload (ty_Event row) with
                   | PControlTrust p => if bool_decide (of_stream caTrustConfirmationStreamType controlReporterID row)
                                        then Some p else None
                   | _ => None
                   end) log.

(** server/internal/store/ca_rotation.go:522-533 [Store.confirmationEventExists], of a
    payload that [found] decides *)
Definition confirmationEventExists (found : list PKIRow -> bool) : TrustProg bool :=
  look (fun env db => answer "store: inspect trust confirmation" (pe_read env) (found (td_log db))).

Definition append_receipt (reporterID : string) (payload : pkiPayload) : TrustProg unit :=
  act (fun env db => AppendNext (projectPKI false) (pe_append env)
                       (mkTypedEvent caTrustConfirmationStreamType (to_upper reporterID) payload) db).

(** server/internal/store/ca_rotation.go:328-348 [Store.RecordLeafTrustConfirmation] *)
Definition RecordLeafTrustConfirmation (confirmation : LeafTrustConfirmation) : TrustProg unit :=
  try_prog (Ret (validatedLeafTrustConfirmation confirmation)) (fun '(payload, eventType) =>
  try_prog (confirmationEventExists (fun log =>
              bool_decide (payload ∈ leaf_receipts (to_upper (lt_ReporterID confirmation)) eventType log))) (fun found =>
  if found then Ret (Ok tt) else append_receipt (lt_ReporterID confirmation) (PLeafTrust eventType payload))).

(** server/internal/store/ca_rotation.go:351-371 [Store.RecordConsumerTrustConfirmation] *)
Definition RecordConsumerTrustConfirmation (confirmation : ConsumerTrustConfirmation) : TrustProg unit :=
  try_prog (Ret (validatedConsumerTrustConfirmation confirmation)) (fun '(payload, eventType) =>
  try_prog (confirmationEventExists (fun log =>
              bool_decide (payload ∈ consumer_receipts (to_upper (ct_ReporterID confirmation)) eventType log))) (fun found =>
  if found then Ret (Ok tt) else append_receipt (ct_ReporterID confirmation) (PConsumerTrust eventType payload))).

(** server/internal/store/ca_rotation.go:374-386 [Store.RecordValidatedTrustConfirmation] *)
Definition RecordValidatedTrustConfirmation (leaf : option LeafTrustConfirmation)
    (consumer : option ConsumerTrustConfirmation) : TrustProg unit :=
  match leaf, consumer with
  | Some leaf, None => RecordLeafTrustConfirmation leaf
  | None, Some consumer => RecordConsumerTrustConfirmation consumer
  | _, _ => Ret (Err (EMsg "store: trust confirmation must contain exactly one receipt kind"))
  end.

(** server/internal/store/ca_rotation.go:389-414 [Store.RecordControlTrustConfirmation] *)
Definition RecordControlTrustConfirmation (confirmation : ControlTrustConfirmation) : TrustProg unit :=
  if negb (valid_control confirmation) then Ret (Err (EMsg "store: invalid control trust confirmation"))
  else
    try_prog (confirmationEventExists (fun log => bool_decide (confirmation ∈ control_receipts log))) (fun found =>
    if found then Ret (Ok tt) else append_receipt controlReporterID (PControlTrust confirmation)).

(** ** Who still has to follow *)

(** server/internal/store/queries/ca_rotation.sql:29-43 [ListActiveTrustConsumers] *)
Definition ListActiveTrustConsumers (claimedClass : string) (t : LeafTables) : list TrustConsumer :=
  if String.eqb claimedClass CertificateClassAgent then
    (fun id => mkTrustConsumer id "gateway" (from_option gt_CertificateDer "" (lf_gateways t !! id))) <$>
      sort_strings (filter (fun p => gt_LifecycleState p.2 <> "revoked"%string) (map_to_list (lf_gateways t))).*1
  else if String.eqb claimedClass CertificateClassGateway then
    (fun id => mkTrustConsumer id "agent" (from_option dr_CertificateDer "" (lf_devices t !! id))) <$>
      sort_strings (filter (fun p => dr_LifecycleState p.2 <> "revoked"%string) (map_to_list (lf_devices t))).*1
  else [].

(** server/internal/store/ca_rotation.go:417-440 [Store.ActiveTrustConsumers] *)
Definition ActiveTrustConsumers (fault : option goerr) (claimedClass : string) (db : PKIDB) : result goerr (list TrustConsumer) :=
  fail_if (negb (validCertificateClass claimedClass)) (EMsg "store: invalid active trust-consumer request") ≫= fun _ =>
  wrap_err (EWrap "store: list active trust consumers") (may_fault fault) ≫= fun _ =>
  map_result (fun c => fail_if (negb (validCertificateClass (ac_ReporterClass c)))
                         (EMsg "store: invalid active trust-consumer class") ≫= fun _ => Ok c)
    (ListActiveTrustConsumers claimedClass (pk_leaves (td_tables db))).

(** server/internal/store/ca_rotation.go:443-453 [Store.HasConsumerTrustConfirmation] *)
Definition HasConsumerTrustConfirmation (fault : option goerr) (confirmation : ConsumerTrustConfirmation) (db : PKIDB)
    : result goerr bool :=
  validatedConsumerTrustConfirmation confirmation ≫= fun '(payload, eventType) =>
  answer "store: inspect trust confirmation" fault
    (bool_decide (payload ∈ consumer_receipts (to_upper (ct_ReporterID confirmation)) eventType (td_log db))).

(** A receipt of the same state whose list lies in an interval. *)
Definition same_trust_state (payload candidate : ConsumerTrustConfirmation) (least greatest : Z) : bool :=
  String.eqb (ct_ReporterClass candidate) (ct_ReporterClass payload)
  && String.eqb (ct_ClaimedClass candidate) (ct_ClaimedClass payload)
  && String.eqb (ct_ReporterID candidate) (ct_ReporterID payload)
  && (ct_Generation candidate =? ct_Generation payload) && (ct_Revision candidate =? ct_Revision payload)
  && String.eqb (ct_ReporterCertificateDER candidate) (ct_ReporterCertificateDER payload)
  && bool_decide (ct_RootFingerprints candidate = ct_RootFingerprints payload)
  && String.eqb (ct_CRLIssuerFingerprint candidate) (ct_CRLIssuerFingerprint payload)
  && (least <=? ct_CRLSequence candidate) && (ct_CRLSequence candidate <=? greatest).

(** server/internal/store/ca_rotation.go:457-490 [Store.HasConsumerTrustState] *)
Definition HasConsumerTrustState (fault : option goerr) (confirmation : ConsumerTrustConfirmation)
    (maximumCRLSequence : Z) (db : PKIDB) : result goerr bool :=
  validatedConsumerTrustConfirmation confirmation ≫= fun '(payload, eventType) =>
  fail_if (maximumCRLSequence <? ct_CRLSequence confirmation)
    (EMsg "store: invalid consumer confirmation CRL interval") ≫= fun _ =>
  answer "store: query consumer trust confirmations" fault
    (existsb (fun candidate => same_trust_state payload candidate (ct_CRLSequence confirmation) maximumCRLSequence)
       (consumer_receipts (ct_ReporterID payload) eventType (td_log db))).

(** server/internal/store/ca_rotation.go:497-512 [Store.HasControlTrustConfirmation] *)
Definition HasControlTrustConfirmation (fault : option goerr) (confirmation : ControlTrustConfirmation) (db : PKIDB)
    : result goerr bool :=
  fail_if (negb (valid_control confirmation)) (EMsg "store: invalid control trust confirmation lookup") ≫= fun _ =>
  answer "store: inspect trust confirmation" fault (bool_decide (confirmation ∈ control_receipts (td_log db))).

(** ** The migration report *)

Definition CAMigrationStatusCurrentIssued : string := "current-issued".
Definition CAMigrationStatusSuccessorIssued : string := "successor-issued".
Definition CAMigrationStatusSuccessorConfirmed : string := "successor-confirmed".
Definition CAMigrationStatusRevoked : string := "revoked".
Definition CAMigrationStatusInvalidIssuerSignature : string := "invalid-issuer-signature".

(** server/internal/store/ca_rotation.go:303-312 [CAMigrationReportQuery] *)
Record CAMigrationReportQuery := mkCAMigrationReportQuery {
  mq_CertificateClass : string;
  mq_Generation : Z;
  mq_CurrentIssuerFingerprint : string;
  mq_SuccessorIssuerFingerprint : string;
  mq_CurrentRootDER : string;
  mq_SuccessorRootDER : string;
  mq_Cursor : string;
  mq_Limit : Z;
}.

(** server/internal/store/ca_rotation.go:315-319 [CAMigrationReportEntry] *)
Record CAMigrationReportEntry := mkCAMigrationReportEntry {
  me_ReporterID : string; me_ReporterCertificateDER : string; me_Status : string }.

(** server/internal/store/ca_rotation.go:322-325 [CAMigrationReportPage] *)
Record CAMigrationReportPage := mkCAMigrationReportPage {
  mp_Entries : list CAMigrationReportEntry; mp_NextCursor : string }.

(** server/internal/store/ca_rotation.go:677-686 [validateReportRoot] *)
Definition validateReportRoot (name der fingerprint : string) : result goerr Certificate :=
  or_err (ParseCertificate der) (EMsg ("store: invalid " ++ name ++ " root certificate")) ≫= fun root =>
  fail_if (negb (String.eqb (Raw root) der) || negb (IsCA root) || negb (CheckSignatureFrom root root))
    (EMsg ("store: invalid " ++ name ++ " root certificate")) ≫= fun _ =>
  fail_if (negb (String.eqb (Sum256 der) fingerprint))
    (EMsg ("store: " ++ name ++ " fingerprint does not match root")) ≫= fun _ => Ok root.

(** server/internal/store/ca_rotation.go:648-675 [validateCAMigrationReportQuery] *)
Definition validateCAMigrationReportQuery (query : CAMigrationReportQuery) : result goerr (Certificate * Certificate) :=
  fail_if (negb (validCertificateClass (mq_CertificateClass query)))
    (EMsg "store: invalid CA migration report certificate class") ≫= fun _ =>
  fail_if (mq_Generation query =? 0) (EMsg "store: invalid CA migration report generation") ≫= fun _ =>
  fail_if ((mq_Limit query <=? 0) || (MaxCAMigrationReportPageSize <? mq_Limit query))
    (EMsg "store: invalid CA migration report limit") ≫= fun _ =>
  (if String.eqb (mq_Cursor query) "" then Ok tt
   else wrap_err (fun m => EWrap "store: invalid CA migration report cursor" (EMsg m)) (ULIDPathID (mq_Cursor query))) ≫= fun _ =>
  fail_if (String.eqb (mq_CurrentIssuerFingerprint query) (mq_SuccessorIssuerFingerprint query))
    (EMsg "store: CA migration report fingerprints must differ") ≫= fun _ =>
  validateReportRoot "current" (mq_CurrentRootDER query) (mq_CurrentIssuerFingerprint query) ≫= fun current =>
  validateReportRoot "successor" (mq_SuccessorRootDER query) (mq_SuccessorIssuerFingerprint query) ≫= fun successor =>
  Ok (current, successor).

(** A row of the report's query. *)
Record LeafEntry := mkLeafEntry { le_ReporterID : string; le_CertificateDer : string; le_LifecycleState : string }.

(** The identifiers of a table after a cursor, in order. *)
Definition keys_after {A} (cursor : string) (m : gmap string A) : list string :=
  sort_strings (filter (fun id => String.ltb cursor id = true) (map_to_list m).*1).

(** The rows of a class after a cursor, in order. *)
Definition report_rows (class cursor : string) (t : LeafTables) : list LeafEntry :=
  if String.eqb class CertificateClassAgent then
    omap (fun id => (fun d => mkLeafEntry id (dr_CertificateDer d) (dr_LifecycleState d)) <$> lf_devices t !! id)
      (keys_after cursor (lf_devices t))
  else if String.eqb class CertificateClassGateway then
    omap (fun id => (fun g => mkLeafEntry id (gt_CertificateDer g) (gt_LifecycleState g)) <$> lf_gateways t !! id)
      (keys_after cursor (lf_gateways t))
  else [].

(** server/internal/store/queries/ca_rotation.sql:63-78 [ListCAMigrationReportEntries] *)
Definition ListCAMigrationReportEntries (pageSize : Z) (class cursor : string) (t : LeafTables) : list LeafEntry :=
  take (Z.to_nat pageSize) (report_rows class cursor t).

(** server/internal/store/ca_rotation.go:720-749 [Store.hasLeafTrustConfirmation] *)
Definition hasLeafTrustConfirmation (class reporterID certificateDER : string) (generation : Z) (issuer : string)
    : TrustProg bool :=
  look (fun env db =>
    answer "store: query leaf trust confirmations" (pe_read env)
      (existsb (fun p => String.eqb (lt_CertificateClass p) class && String.eqb (lt_ReporterID p) reporterID
                         && (lt_Generation p =? generation) && String.eqb (lt_ReporterCertificateDER p) certificateDER
                         && String.eqb (lt_IssuerFingerprint p) issuer)
         (leaf_receipts reporterID (leaf_event_type class) (td_log db)))).

(** server/internal/store/ca_rotation.go:688-718 [Store.classifyCAMigrationEntry] *)
Definition classifyCAMigrationEntry (query : CAMigrationReportQuery) (entry : LeafEntry) (current successor : Certificate)
    : TrustProg string :=
  if String.eqb (le_LifecycleState entry) "revoked" then Ret (Ok CAMigrationStatusRevoked)
  else
    match ParseCertificate (le_CertificateDer entry) with
    | Some certificate =>
        if negb (String.eqb (Raw certificate) (le_CertificateDer entry)) then Ret (Ok CAMigrationStatusInvalidIssuerSignature)
        else if CheckSignatureFrom certificate successor then
          try_prog (hasLeafTrustConfirmation (mq_CertificateClass query) (le_ReporterID entry) (le_CertificateDer entry)
                      (mq_Generation query) (mq_SuccessorIssuerFingerprint query)) (fun confirmed =>
          Ret (Ok (if confirmed then CAMigrationStatusSuccessorConfirmed else CAMigrationStatusSuccessorIssued)))
        else if CheckSignatureFrom certificate current then Ret (Ok CAMigrationStatusCurrentIssued)
        else Ret (Ok CAMigrationStatusInvalidIssuerSignature)
    | None => Ret (Ok CAMigrationStatusInvalidIssuerSignature)
    end.

(** server/internal/store/ca_rotation.go:611-646 [Store.CAMigrationReport] *)
Definition CAMigrationReport (query : CAMigrationReportQuery) : TrustProg CAMigrationReportPage :=
  try_prog (Ret (validateCAMigrationReportQuery query)) (fun '(current, successor) =>
  try_prog (look (fun env db =>
    answer "store: query CA migration report" (pe_read env)
      (ListCAMigrationReportEntries (wrap_s 32 (mq_Limit query + 1)) (mq_CertificateClass query)
         (to_upper (mq_Cursor query)) (pk_leaves (td_tables db))))) (fun rows =>
  try_prog (map_prog (fun entry =>
              try_prog (classifyCAMigrationEntry query entry current successor) (fun status =>
              Ret (Ok (mkCAMigrationReportEntry (le_ReporterID entry) (le_CertificateDer entry) status)))) rows) (fun entries =>
  Ret (Ok (if mq_Limit query <? zlen entries
           then let page := take (Z.to_nat (mq_Limit query)) entries in
                mkCAMigrationReportPage page (from_option me_ReporterID "" (last page))
           else mkCAMigrationReportPage entries ""))))).
End TrustStore.
