(* ===== verification/Rotation.v ===== *)
(** * [server/internal/pki/rotation.go]: the rotation manager

    The calls of one control process on the shared database: programs of
    atomic statements on a [World], which also holds the advisory locks that
    PostgreSQL keeps per session, the process's authorities and signers, and
    the bundles it published.  Every call has a session of its own. *)

From Stdlib Require Import Ascii String ZArith Lia.
From S2P Require Export TrustStore RateLimit.

(** server/internal/pki/rotation.go:65-72 [TrustBundlePublication] *)
Record TrustBundlePublication := mkTrustBundlePublication {
  tb_Class : string;
  tb_Generation : Z;
  tb_Revision : Z;
  tb_RootCertificateDER : list string;
  tb_TransitionCertificateDER : string;
  tb_CRLIssuerFingerprints : list string;
}.

(** server/internal/pki/rotation.go:98-102 [TrustStateConfirmation] *)
Record TrustStateConfirmation := mkTrustStateConfirmation {
  tf_ReporterCertificateDER : string; tf_Claim : TrustStateClaim; tf_Signature : string }.

(** server/internal/pki/rotation.go:105-112 [ControlTrustStateConfirmation] *)
Record ControlTrustStateConfirmation := mkControlTrustStateConfirmation {
  tn_ClaimedClass : string;
  tn_Generation : Z;
  tn_Revision : Z;
  tn_RootFingerprints : list string;
  tn_CRLIssuerFingerprint : string;
  tn_CRLSequence : Z;
}.

(** A granted advisory lock: its session, its key, and whether it is shared. *)
Record AdvisoryLock := mkAdvisoryLock { al_session : nat; al_key : Z; al_shared : bool }.

#[export] Instance advisory_lock_eq_dec : EqDecision AdvisoryLock.
Proof. solve_decision. Defined.

(** What the public service adds: the token tables, the process's failure
    ladder, and the lifecycle locks of open transactions, by session and leaf. *)
Record ServiceState := mkServiceState {
  sv_tokens : TokenDB;
  sv_ladder : option FailureLadder;
  sv_lifecycle : list (nat * string);
}.

(** server/internal/pki/rotation.go:88-95 [RotationManager]: the manager's memory, with
    the database it shares and what it published *)
Record World := mkWorld {
  w_db : PKIDB;
  w_locks : list AdvisoryLock;
  w_authorities : Authorities;
  w_signers : gmap string SigningKey;
  w_bundles : list TrustBundlePublication;
  w_service : ServiceState;
}.

Definition with_db (w : World) (db : PKIDB) : World :=
  mkWorld db (w_locks w) (w_authorities w) (w_signers w) (w_bundles w) (w_service w).
Definition with_locks (w : World) (l : list AdvisoryLock) : World :=
  mkWorld (w_db w) l (w_authorities w) (w_signers w) (w_bundles w) (w_service w).
Definition with_authorities (w : World) (a : Authorities) : World :=
  mkWorld (w_db w) (w_locks w) a (w_signers w) (w_bundles w) (w_service w).
Definition with_signers (w : World) (m : gmap string SigningKey) : World :=
  mkWorld (w_db w) (w_locks w) (w_authorities w) m (w_bundles w) (w_service w).
Definition with_bundles (w : World) (l : list TrustBundlePublication) : World :=
  mkWorld (w_db w) (w_locks w) (w_authorities w) (w_signers w) l (w_service w).
Definition with_service (w : World) (s : ServiceState) : World :=
  mkWorld (w_db w) (w_locks w) (w_authorities w) (w_signers w) (w_bundles w) s.

Definition w_tables (w : World) : PKITables := td_tables (w_db w).
Definition w_crl (w : World) : CRLTables := lf_crl (pk_leaves (w_tables w)).

Definition with_crl_tables (w : World) (t : CRLTables) : World :=
  let leaves := pk_leaves (w_tables w) in
  with_db w (mkTypedDB (td_log (w_db w))
    (mkPKITables (mkLeafTables (lf_devices leaves) (lf_gateways leaves) t (lf_work leaves)) (pk_rotation (w_tables w)))).

Definition RotProg (A : Type) : Type := prog PKIEnv World (result goerr A).

(** The environment of a statement on revocation lists. *)
Definition crl_env (env : PKIEnv) : CRLEnv := mkCRLEnv (pe_read env) (pe_now env) (pe_ctx env) (pe_publish env).

(** server/internal/pki/rotation.go:45-46 [ErrTrustStateRejected] *)
Definition ErrTrustStateRejected : goerr := ESentinel "trust state confirmation rejected".

(** ** The fences *)

(** server/internal/pki/rotation.go:40-43 [agentRotationFenceKey] *)
Definition agentRotationFenceKey : Z := 1611005953.
Definition gatewayRotationFenceKey : Z := 1611005954.

(** server/internal/pki/rotation.go:967-976 [rotationFenceKey] *)
Definition rotationFenceKey (class : string) : result goerr Z :=
  if String.eqb class CertificateClassAgent then Ok agentRotationFenceKey
  else if String.eqb class CertificateClassGateway then Ok gatewayRotationFenceKey
  else Err (EMsg "pki: invalid CA rotation fence class").

(** A lock is granted unless another session's lock on the key conflicts. *)
Definition grants (key : Z) (shared : bool) (locks : list AdvisoryLock) : bool :=
  forallb (fun l => negb (al_key l =? key) || (shared && al_shared l)) locks.

(** A request waits until the lock is granted or its context ends. *)
Definition acquire_lock (session : nat) (shared : bool) (key : Z) : RotProg unit :=
  act (fun env w =>
    match pe_ctx env with
    | Some e => (w, Err (EWrap "store: acquire advisory lock" e))
    | None => if grants key shared (w_locks w) then (with_locks w (mkAdvisoryLock session key shared :: w_locks w), Ok tt)
              else (w, Err (EWrap "store: acquire advisory lock" (ESentinel "context.DeadlineExceeded")))
    end).

(** Releasing drops the lock also when it reports an error: the connection is
    closed then, and the session with it. *)
Definition release_lock (session : nat) (key : Z) : RotProg unit :=
  act (fun env w =>
    (with_locks w (filter (fun l => ~ (al_session l = session /\ al_key l = key)) (w_locks w)),
     wrap_err (EWrap "store: release advisory lock") (may_fault (pe_read env)))).

(** [errors.Join] of a result and of a release's error. *)
Definition join_result {A} (r : result goerr A) (released : result goerr unit) : result goerr A :=
  match released, r with
  | Ok _, _ => r
  | Err e, Ok _ => Err e
  | Err e, Err e0 => Err (EJoin e0 e)
  end.

(** server/internal/store/store.go:572-584 [Store.WithAdvisoryLocks]: the locking loop:
    keys are taken in order, and those taken are released in reverse *)
Fixpoint locked_action {A} (session : nat) (shared : bool) (keys : list Z) (action : RotProg A) : RotProg A :=
  match keys with
  | [] => action
  | key :: rest =>
      try_prog (acquire_lock session shared key) (fun _ =>
      bind_prog (locked_action session shared rest action) (fun r =>
      bind_prog (release_lock session key) (fun released => Ret (join_result r released))))
  end.

#[local] Instance Z_le_rel_dec : RelDecision Z.le := Z_le_dec.

(** server/internal/store/store.go:534-585 [Store.WithAdvisoryLocks] *)
Definition WithAdvisoryLocks {A} (session : nat) (keys : list Z) (shared : bool) (action : RotProg A) : RotProg A :=
  if zlen keys =? 0 then Ret (Err (EMsg "store: invalid advisory-lock request"))
  else
    try_prog (look (fun env _ => wrap_err (EWrap "store: acquire advisory-lock connection") (may_fault (pe_read env)))) (fun _ =>
    locked_action session shared (compact (merge_sort Z.le keys)) action).

(** server/internal/pki/rotation.go:978-984 [withExclusiveRotationFence] *)
Definition withExclusiveRotationFence {A} (session : nat) (class : string) (action : RotProg A) : RotProg A :=
  try_prog (Ret (rotationFenceKey class)) (fun key => WithAdvisoryLocks session [key] false action).

(** server/internal/pki/rotation.go:1006-1021 [withTrustStateFences] *)
Definition withTrustStateFences {A} (session : nat) (reporterClass claimedClass : string) (action : RotProg A) : RotProg A :=
  try_prog (Ret (rotationFenceKey reporterClass)) (fun reporterKey =>
  try_prog (Ret (rotationFenceKey claimedClass)) (fun claimedKey =>
  WithAdvisoryLocks session [reporterKey; claimedKey] true action)).

(** server/internal/pki/rotation.go:1023-1029 [withCRLIssuerFence] *)
Definition withCRLIssuerFence {A} (session : nat) (class : string) (action : RotProg A) : RotProg A :=
  try_prog (Ret (rotationFenceKey class)) (fun key => WithAdvisoryLocks session [key] true action).

Section Rotation.
Context {x509 : X509} {schemes : Schemes} {x509crl : X509CRL} {x25519 : X25519}.

(** ** Memory *)

(** server/internal/pki/rotation.go:918-922 [successorSigner] *)
Definition successorSigner (class : string) : prog PKIEnv World (option SigningKey) :=
  look (fun _ w => w_signers w !! class).

(** server/internal/pki/rotation.go:924-928 [setSuccessorSigner] *)
Definition setSuccessorSigner (class : string) (signer : SigningKey) : prog PKIEnv World unit :=
  act (fun _ w => (with_signers w (<[class := signer]> (w_signers w)), tt)).

(** One call on the process's authorities. *)
Definition on_authorities (msg : string) (op : time -> Authorities -> Authorities * result string unit) : RotProg unit :=
  act (fun env w => let '(a, r) := op (pe_now env) (w_authorities w) in
                    (with_authorities w a, wrap_err (fun m => EWrap msg (EMsg m)) r)).

Definition install_authority (msg class der : string) (signer : SigningKey) : RotProg unit :=
  on_authorities msg (fun now a => installAuthority now a class der signer).
Definition select_authority (msg class fingerprint : string) : RotProg unit :=
  on_authorities msg (fun _ a => selectAuthority a class fingerprint).

(** Installing a durable root with the configured successor signer. *)
Definition install_durable (missing binding class der : string) : RotProg unit :=
  bind_prog (successorSigner class) (fun signer =>
  match signer with
  | None => Ret (Err (EMsg missing))
  | Some signer => install_authority binding class der signer
  end).

(** server/internal/pki/rotation.go:877-916 [restoreAuthorities] *)
Definition restoreAuthorities (state : CARotationState) : RotProg unit :=
  let class := cs_CertificateClass state in
  try_prog
    (if String.eqb (cs_Phase state) RotationPhaseStable && cs_CurrentFromSuccessor state
     then install_durable ("pki: no signer configured for durable " ++ class ++ " current root")
            "pki: durable current signer binding" class (cs_CurrentRootDER state)
     else look (fun _ w => fail_if (bool_decide (authorityForIssuer (w_authorities w) class (Sum256 (cs_CurrentRootDER state)) = None))
                  (EMsg ("pki: configured " ++ class ++ " current authority does not match durable state")))) (fun _ =>
  try_prog
    (if len (cs_SuccessorRootDER state) =? 0 then Ret (Ok tt)
     else install_durable ("pki: no successor signer configured for durable " ++ class ++ " rotation")
            "pki: durable successor signer binding" class (cs_SuccessorRootDER state)) (fun _ =>
  try_prog
    (if len (cs_DiscardedRootDER state) =? 0 then Ret (Ok tt)
     else install_durable ("pki: no discarded successor signer configured for durable " ++ class ++ " rotation")
            "pki: durable discarded successor signer binding" class (cs_DiscardedRootDER state)) (fun _ =>
  select_authority "pki: restore durable signer selection" class
    (Sum256 (if String.eqb (cs_Phase state) RotationPhaseMigrate || String.eqb (cs_Phase state) RotationPhaseRetire
             then cs_SuccessorRootDER state else cs_CurrentRootDER state))))).

(** ** Snapshots *)

(** server/internal/pki/rotation.go:465-498 [snapshotFromState]: before the
    publication of the required issuer is read *)
Definition snapshot_of (state : CARotationState) : result goerr AuthoritySnapshot :=
  let fill desired issuing successor predecessor :=
    let fingerprint := cs_RequiredCRLIssuerFingerprint state in
    if String.eqb (cs_CertificateClass state) CertificateClassAgent && (len fingerprint =? 0)
    then mkAuthoritySnapshot (cs_CertificateClass state) (cs_Phase state) (cs_Generation state) (cs_Revision state)
           desired issuing successor predecessor (cs_TransitionCertificateDER state) (Sum256 issuing) 1 0
    else mkAuthoritySnapshot (cs_CertificateClass state) (cs_Phase state) (cs_Generation state) (cs_Revision state)
           desired issuing successor predecessor (cs_TransitionCertificateDER state) fingerprint
           (wrap_u 64 (cs_RequiredCRLSequence state)) 0 in
  let current := cs_CurrentRootDER state in
  let successor := cs_SuccessorRootDER state in
  if String.eqb (cs_Phase state) RotationPhaseStable then Ok (fill [current] current "" "")
  else if String.eqb (cs_Phase state) RotationPhaseTrust then
    Ok (if len successor =? 0 then fill [current] current "" "" else fill [current; successor] current successor "")
  else if String.eqb (cs_Phase state) RotationPhaseMigrate then Ok (fill [current; successor] successor successor "")
  else if String.eqb (cs_Phase state) RotationPhaseRetire then Ok (fill [successor] successor successor current)
  else Err (EMsg "pki: invalid durable CA rotation phase").

Definition with_published (s : AuthoritySnapshot) (sequence : Z) : AuthoritySnapshot :=
  mkAuthoritySnapshot (as_Class s) (as_Phase s) (as_Generation s) (as_Revision s) (as_DesiredRootDER s)
    (as_IssuingRootDER s) (as_SuccessorRootDER s) (as_PredecessorRootDER s) (as_TransitionCertificateDER s)
    (as_RequiredCRLIssuerFingerprint s) (as_RequiredCRLSequence s) sequence.

(** A read of the published list of an issuer. *)
Definition latest_crl (class issuer : string) : RotProg SignedCRL :=
  look (fun env w => LatestCRL class [issuer] (crl_env env) (w_crl w)).

(** server/internal/pki/rotation.go:464-509 [snapshotFromState] *)
Definition snapshotFromState (state : CARotationState) : RotProg AuthoritySnapshot :=
  try_prog (Ret (snapshot_of state)) (fun snapshot =>
  if len (as_RequiredCRLIssuerFingerprint snapshot) =? 32 then
    try_prog (latest_crl (cs_CertificateClass state) (as_RequiredCRLIssuerFingerprint snapshot)) (fun crl =>
    Ret (Ok (with_published snapshot (wrap_u 64 (sl_Sequence crl)))))
  else Ret (Ok snapshot)).

(** server/internal/pki/rotation.go:864-875 [validateCall]: the class and the
    end of the context *)
Definition check_call (class : string) (ctx : option goerr) : result goerr unit :=
  fail_if (negb (String.eqb class CertificateClassAgent) && negb (String.eqb class CertificateClassGateway))
    (EMsg "pki: invalid CA rotation certificate class") ≫= fun _ => may_fault ctx.

Definition validateCall (class : string) : RotProg unit := look (fun env _ => check_call class (pe_ctx env)).

Definition initial_state (class root : string) : CARotationState :=
  mkCARotationState class RotationPhaseStable 1 1 root false "" "" "" "" 0 0.

(** The durable state of a class, if it has rotated; a failing statement is not
    a missing row. *)
Definition durable_state (fault : option goerr) (class : string) (t : PKITables) : result goerr (option CARotationState) :=
  wrap_err (EWrap "store: read CA rotation state") (may_fault fault) ≫= fun _ =>
  match ReadCARotationState None class t with
  | Ok state => Ok (Some state)
  | Err e => if IsNotFound e then Ok None else Err e
  end.

Definition read_state (class : string) : RotProg (option CARotationState) :=
  look (fun env w => durable_state (pe_read env) class (w_tables w)).

(** server/internal/pki/rotation.go:160-182 [Snapshot] *)
Definition Snapshot (class : string) : RotProg AuthoritySnapshot :=
  try_prog (validateCall class) (fun _ =>
  try_prog (read_state class) (fun found =>
  match found with
  | None =>
      try_prog (look (fun _ w => or_err (currentAuthority (w_authorities w) class)
                                   (EMsg "pki: current CA authority is not wired"))) (fun authority =>
      snapshotFromState (initial_state class (Raw (ca_certificate authority))))
  | Some state => try_prog (restoreAuthorities state) (fun _ => snapshotFromState state)
  end)).

(** server/internal/pki/rotation.go:184-210 [snapshotsAtLifecycleEvent] *)
Definition snapshotsAtLifecycleEvent (streamType streamID : string) (streamVersion : Z)
    : RotProg (AuthoritySnapshot * AuthoritySnapshot) :=
  let at_state (class : string) (state : option CARotationState) :=
    match state with Some state => snapshotFromState state | None => Snapshot class end in
  try_prog (look (fun env w => CARotationStatesAtEvent (pe_read env) streamType streamID streamVersion (td_log (w_db w))))
    (fun '(agent, gateway) =>
  try_prog (at_state CertificateClassAgent agent) (fun agent =>
  try_prog (at_state CertificateClassGateway gateway) (fun gateway => Ret (Ok (agent, gateway))))).

(** server/internal/pki/rotation.go:843-862 [withIssuanceFences]: a manager's *)
Definition withIssuanceFences {A} (session : nat) (action : AuthoritySnapshot -> AuthoritySnapshot -> RotProg A) : RotProg A :=
  WithAdvisoryLocks session [agentRotationFenceKey; gatewayRotationFenceKey] true
    (try_prog (Snapshot CertificateClassAgent) (fun agent =>
     try_prog (Snapshot CertificateClassGateway) (fun gateway => action agent gateway))).

(** ** Revocation lists *)

(** server/internal/pki/rotation.go:511-521 [requiredCRLBaseline] *)
Definition requiredCRLBaseline (class rootDER : string) : RotProg (string * Z) :=
  if negb (String.eqb class CertificateClassAgent) then Ret (Ok (EmptyString, 0))
  else
    try_prog (latest_crl class (Sum256 rootDER)) (fun state => Ret (Ok (Sum256 rootDER, sl_Sequence state))).

(** The first list of an issuer, signed at the clock's second. *)
Definition initial_list (authority : certificateAuthority) (now : time) : result goerr (string * time) :=
  let issuedAt := truncate_second now in
  wrap_err EMsg (signRevocationList authority
    (Some (mkRevocationList [] (Some 1) issuedAt (issuedAt + DefaultCRLMaxAge) []))) ≫= fun der => Ok (der, issuedAt).

(** server/internal/pki/rotation.go:523-552 [ensureInitialCRL] *)
Definition ensureInitialCRL (class : string) (authority : certificateAuthority) : RotProg unit :=
  let fingerprint := Sum256 (Raw (ca_certificate authority)) in
  try_prog (latest_crl class fingerprint) (fun current =>
  if 0 <? sl_Sequence current then Ret (Ok tt)
  else
    try_prog (look (fun env _ => initial_list authority (pe_now env))) (fun '(der, issuedAt) =>
    try_prog (act (fun env w => let '(t, r) := InitializeCRL class fingerprint der issuedAt (crl_env env) (w_crl w) in
                                (with_crl_tables w t, r))) (fun stored =>
    if stored : bool then Ret (Ok tt)
    else
      bind_prog (latest_crl class fingerprint) (fun current =>
      Ret (match current with
           | Ok crl => fail_if (sl_Sequence crl =? 0) (EMsg "pki: initial CRL remained unavailable")
           | Err _ => Err (EMsg "pki: initial CRL remained unavailable")
           end))))).

(** ** Publication *)

(** server/internal/pki/rotation.go:800-813 [publishSnapshot] *)
Definition publishSnapshot (snapshot : AuthoritySnapshot) (alreadyPublished : bool) : RotProg unit :=
  if alreadyPublished then Ret (Ok tt)
  else
    act (fun env w =>
      match pe_publish env with
      | Some e => (w, Err e)
      | None =>
          let publication := mkTrustBundlePublication (as_Class snapshot) (as_Generation snapshot) (as_Revision snapshot)
            (as_DesiredRootDER snapshot) (as_TransitionCertificateDER snapshot) (Sum256 <$> activeCRLRoots snapshot) in
          (with_bundles w (w_bundles w ++ [publication]), Ok tt)
      end).

(** The insert of an event at its stream's next version, in a transaction that
    is still open. *)
Definition open_append (env : AppendEnv) (event : PKIEvent) (db : PKIDB) : result goerr Z :=
  let version := typed_version (te_StreamType event) (te_StreamID event) (td_log db) in
  may_fault (ae_fault env) ≫= fun _ =>
  wrap_err (EWrap "store: callback append")
    (insert_typed (projectPKI false) (ae_now env) event (version + 1) db) ≫= fun _ => Ok version.

(** server/internal/store/store.go:492-531 [Store.AppendEventBeforeCommit]: the event
    is inserted at the stream's next version, the callback runs, and the commit
    makes the event visible if no other event took its version *)
Definition AppendEventBeforeCommit (event : PKIEvent) (beforeCommit : RotProg unit) : RotProg unit :=
  try_prog (look (fun env w => open_append (pe_append env) event (w_db w))) (fun version =>
  try_prog (bind_prog beforeCommit (fun r => Ret (wrap_err (EWrap "store: before-commit callback") r))) (fun _ =>
  act (fun env w => let '(db, r) := AppendPinned (projectPKI false) (pe_append env) event version (w_db w) in (with_db w db, r)))).

(** ** Gates *)

(** server/internal/pki/rotation.go:724-730 [rootFingerprintArrays] *)
Definition rootFingerprintArrays (roots : list string) : list string := Sum256 <$> roots.

(** server/internal/pki/rotation.go:711-722 [equalRootFingerprintBytes] *)
Definition equalRootFingerprintBytes (got roots : list string) : bool := bool_decide (got = Sum256 <$> roots).

(** [copy] into a zero fingerprint. *)
Definition copy_fingerprint (s : string) : string := substring 0 32 (s ++ substring (String.length s) 32 zero_fingerprint).

(** A read of the store. *)
Definition store_read {A} (q : option goerr -> PKIDB -> result goerr A) : RotProg A :=
  look (fun env w => q (pe_read env) (w_db w)).

(** server/internal/pki/rotation.go:737-747 [requireConsumerConfirmations]: the
    receipt a consumer must have left *)
Definition required_receipt (snapshot : AuthoritySnapshot) (consumer : TrustConsumer) : ConsumerTrustConfirmation :=
  let over_agents := String.eqb (ac_ReporterClass consumer) CertificateClassGateway
                     && String.eqb (as_Class snapshot) CertificateClassAgent in
  mkConsumerTrustConfirmation (ac_ReporterClass consumer) (as_Class snapshot) (ac_ReporterID consumer)
    (ac_ReporterCertificateDER consumer) (as_Generation snapshot) (as_Revision snapshot)
    (rootFingerprintArrays (as_DesiredRootDER snapshot))
    (if over_agents then copy_fingerprint (as_RequiredCRLIssuerFingerprint snapshot) else zero_fingerprint)
    (if over_agents then wrap_s 64 (as_RequiredCRLSequence snapshot) else 0).

Definition required_control (snapshot : AuthoritySnapshot) : ControlTrustConfirmation :=
  mkControlTrustConfirmation (as_Class snapshot) (as_Generation snapshot) (as_Revision snapshot)
    (rootFingerprintArrays (as_DesiredRootDER snapshot)) zero_fingerprint 0.

(** server/internal/pki/rotation.go:732-770 [requireConsumerConfirmations] *)
Definition requireConsumerConfirmations (snapshot : AuthoritySnapshot) : RotProg unit :=
  try_prog (store_read (fun fault => ActiveTrustConsumers fault (as_Class snapshot))) (fun consumers =>
  try_prog (each_prog (fun consumer =>
    try_prog (store_read (fun fault => HasConsumerTrustState fault (required_receipt snapshot consumer)
                                         (wrap_s 64 (as_PublishedCRLSequence snapshot)))) (fun found =>
    Ret (if found : bool then Ok tt
         else Err (EMsg ("pki: trust confirmation required from " ++ ac_ReporterID consumer))))) consumers) (fun _ =>
  if String.eqb (as_Class snapshot) CertificateClassGateway then
    try_prog (store_read (fun fault => HasControlTrustConfirmation fault (required_control snapshot))) (fun found =>
    Ret (if found : bool then Ok tt else Err (EMsg "pki: trust confirmation required from control")))
  else Ret (Ok tt))).

(** A program of the store, run on the manager's database. *)
Fixpoint lift_store {A} (p : prog PKIEnv PKIDB A) : prog PKIEnv World A :=
  match p with
  | Ret a => Ret a
  | Act op k => Act (fun env w => let '(db, x) := op env (w_db w) in (with_db w db, x)) (fun x => lift_store (k x))
  end.

(** server/internal/pki/rotation.go:788-792 [requireLeafMigration]: the entries
    of a page *)
Definition check_entries (entries : list CAMigrationReportEntry) : result goerr unit :=
  match find (fun e => negb (String.eqb (me_Status e) CAMigrationStatusSuccessorConfirmed)
                       && negb (String.eqb (me_Status e) CAMigrationStatusRevoked)) entries with
  | Some e => Err (EMsg ("pki: leaf migration required from " ++ me_ReporterID e))
  | None => Ok tt
  end.

Definition with_cursor (q : CAMigrationReportQuery) (cursor : string) : CAMigrationReportQuery :=
  mkCAMigrationReportQuery (mq_CertificateClass q) (mq_Generation q) (mq_CurrentIssuerFingerprint q)
    (mq_SuccessorIssuerFingerprint q) (mq_CurrentRootDER q) (mq_SuccessorRootDER q) cursor (mq_Limit q).

Definition out_of_pages : goerr := EMsg "out of pages".

(** server/internal/pki/rotation.go:783-797 [requireLeafMigration]: the loop over
    the pages; every page but the last has a cursor beyond its own *)
Fixpoint migration_pages (fuel : nat) (query : CAMigrationReportQuery) : RotProg unit :=
  match fuel with
  | O => Ret (Err out_of_pages)
  | S fuel =>
      try_prog (lift_store (CAMigrationReport query)) (fun page =>
      try_prog (Ret (check_entries (mp_Entries page))) (fun _ =>
      if String.eqb (mp_NextCursor page) "" then Ret (Ok tt)
      else migration_pages fuel (with_cursor query (mp_NextCursor page))))
  end.

Definition migration_query (snapshot : AuthoritySnapshot) : CAMigrationReportQuery :=
  let current := default ""%string (head (as_DesiredRootDER snapshot)) in
  mkCAMigrationReportQuery (as_Class snapshot) (as_Generation snapshot) (Sum256 current)
    (Sum256 (as_SuccessorRootDER snapshot)) current (as_SuccessorRootDER snapshot) "" MaxCAMigrationReportPageSize.

(** server/internal/pki/rotation.go:772-798 [requireLeafMigration] *)
Definition requireLeafMigration (fuel : nat) (snapshot : AuthoritySnapshot) : RotProg unit :=
  if negb (zlen (as_DesiredRootDER snapshot) =? 2) || (len (as_SuccessorRootDER snapshot) =? 0)
  then Ret (Err (EMsg "pki: migrate snapshot lacks exact root pair"))
  else migration_pages fuel (migration_query snapshot).

(** server/internal/pki/rotation.go:930-965 [validateRotationSuccessor] *)
Definition validateRotationSuccessor (currentDER successorDER transitionDER : string) (signer : SigningKey) (now : time)
    : result goerr unit :=
  wrap_err (fun m => EWrap "pki: parse current rotation root" (EMsg m)) (parseExactCertificate currentDER) ≫= fun current =>
  wrap_err (fun m => EWrap "pki: parse successor rotation root" (EMsg m)) (parseExactCertificate successorDER) ≫= fun successor =>
  fail_if (String.eqb (Raw current) (Raw successor) || negb (CheckSignatureFrom successor successor)
           || negb (IsCA successor) || negb (BasicConstraintsValid successor)
           || (Z.land (KeyUsage successor) KeyUsageCertSign =? 0) || (Z.land (KeyUsage successor) KeyUsageCRLSign =? 0)
           || (len (SubjectKeyId successor) =? 0) || String.eqb (SubjectKeyId current) (SubjectKeyId successor)
           || (now <? NotBefore successor) || (NotAfter successor <? now))
    (EMsg "pki: invalid successor rotation root") ≫= fun _ =>
  wrap_err (fun m => EWrap "pki: successor signer binding" (EMsg m)) (newCertificateAuthority now successorDER signer) ≫= fun _ =>
  wrap_err (fun m => EWrap "pki: parse rotation transition proof" (EMsg m)) (parseExactCertificate transitionDER) ≫= fun transition =>
  match MarshalPKIXPublicKey (PublicKey successor), MarshalPKIXPublicKey (PublicKey transition) with
  | Some successorKey, Some transitionKey =>
      fail_if (negb (String.eqb successorKey transitionKey)
               || negb (String.eqb (RawSubject transition) (RawSubject successor))
               || negb (String.eqb (SubjectKeyId transition) (SubjectKeyId successor))
               || negb (String.eqb (RawIssuer transition) (RawSubject current))
               || negb (String.eqb (AuthorityKeyId transition) (SubjectKeyId current))
               || negb (Bool.eqb (IsCA transition) (IsCA successor))
               || negb (Bool.eqb (BasicConstraintsValid transition) (BasicConstraintsValid successor))
               || negb (MaxPathLen transition =? MaxPathLen successor)
               || negb (Bool.eqb (MaxPathLenZero transition) (MaxPathLenZero successor))
               || negb (KeyUsage transition =? KeyUsage successor)
               || negb (zlen (UnhandledCriticalExtensions transition) =? 0)
               || (now <? NotBefore transition) || (NotAfter transition <? now)
               || negb (CheckSignatureFrom transition current))
        (EMsg "pki: invalid rotation transition proof")
  | _, _ => Err (EMsg "pki: invalid rotation transition proof")
  end.

(** ** The operations *)

(** The end of every transition: the event, published before it commits. *)
Definition append_state (operation : string) (state : CARotationState) (beforeCommit : RotProg unit) : RotProg unit :=
  try_prog (Ret (CARotationStateEvent operation state)) (fun event => AppendEventBeforeCommit event beforeCommit).

Definition with_published_at_least (s : AuthoritySnapshot) (sequence : Z) : AuthoritySnapshot :=
  if as_PublishedCRLSequence s <? wrap_u 64 sequence then with_published s (wrap_u 64 sequence) else s.

(** server/internal/pki/rotation.go:213-282 [BeginTrust] *)
Definition BeginTrust (session : nat) (class successorRootDER transitionCertificateDER : string) (successorSigner : SigningKey)
    : RotProg unit :=
  try_prog (validateCall class) (fun _ =>
  try_prog (withExclusiveRotationFence session class
    (try_prog (Snapshot class) (fun current =>
     if negb (String.eqb (as_Phase current) RotationPhaseStable)
     then Ret (Err (EMsg "pki: BeginTrust requires stable phase"))
     else
       try_prog (look (fun env _ => validateRotationSuccessor (as_IssuingRootDER current) successorRootDER
                                      transitionCertificateDER successorSigner (pe_now env))) (fun _ =>
       try_prog (requiredCRLBaseline class successorRootDER) (fun '(requiredFingerprint, requiredSequence) =>
       let requiredSequence := if String.eqb class CertificateClassAgent && (requiredSequence =? 0) then 1
                               else requiredSequence in
       let state := mkCARotationState class RotationPhaseTrust (wrap_u 64 (as_Generation current + 1)) 1
         (as_IssuingRootDER current) false successorRootDER "" transitionCertificateDER requiredFingerprint
         requiredSequence 0 in
       try_prog (snapshotFromState state) (fun next =>
       let next := with_published_at_least next requiredSequence in
       try_prog (append_state "begin-trust" state
         (try_prog (publishSnapshot next false) (fun _ =>
          if negb (String.eqb class CertificateClassAgent) then Ret (Ok tt)
          else
            try_prog (look (fun env _ => wrap_err EMsg (newCertificateAuthority (pe_now env) successorRootDER successorSigner)))
              (fun authority => ensureInitialCRL class authority)))) (fun _ =>
       Ret (Ok next)))))))) (fun next =>
  try_prog (install_authority "pki: install committed successor signer" class successorRootDER successorSigner) (fun _ =>
  bind_prog (setSuccessorSigner class successorSigner) (fun _ =>
  publishSnapshot next true)))).

(** server/internal/pki/rotation.go:285-323 [Abort] *)
Definition Abort (session : nat) (class : string) : RotProg unit :=
  try_prog (withExclusiveRotationFence session class
    (try_prog (Snapshot class) (fun current =>
     if negb (String.eqb (as_Phase current) RotationPhaseTrust) || (len (as_SuccessorRootDER current) =? 0)
     then Ret (Err (EMsg "pki: Abort requires active trust phase"))
     else
       try_prog (requiredCRLBaseline class (as_IssuingRootDER current)) (fun '(requiredFingerprint, requiredSequence) =>
       let state := mkCARotationState class RotationPhaseTrust (as_Generation current) (wrap_u 64 (as_Revision current + 1))
         (as_IssuingRootDER current) false "" (as_SuccessorRootDER current) "" requiredFingerprint requiredSequence 0 in
       try_prog (snapshotFromState state) (fun next =>
       try_prog (append_state "abort" state (publishSnapshot next false)) (fun _ => Ret (Ok next))))))) (fun next =>
  publishSnapshot next true).

(** server/internal/pki/rotation.go:326-366 [Migrate] *)
Definition Migrate (session : nat) (class : string) : RotProg unit :=
  try_prog (withExclusiveRotationFence session class
    (try_prog (Snapshot class) (fun current =>
     if negb (String.eqb (as_Phase current) RotationPhaseTrust) || (len (as_SuccessorRootDER current) =? 0)
     then Ret (Err (EMsg "pki: Migrate requires active trust phase"))
     else
       try_prog (requireConsumerConfirmations current) (fun _ =>
       let state := mkCARotationState class RotationPhaseMigrate (as_Generation current) (as_Revision current)
         (as_IssuingRootDER current) false (as_SuccessorRootDER current) "" (as_TransitionCertificateDER current)
         (as_RequiredCRLIssuerFingerprint current) (wrap_s 64 (as_RequiredCRLSequence current)) 0 in
       try_prog (snapshotFromState state) (fun next =>
       try_prog (append_state "migrate" state (publishSnapshot next false)) (fun _ => Ret (Ok next))))))) (fun next =>
  try_prog (select_authority "pki: select committed successor signer" class (Sum256 (as_IssuingRootDER next))) (fun _ =>
  publishSnapshot next true)).

(** server/internal/pki/rotation.go:369-411 [Retire] *)
Definition Retire (fuel session : nat) (class : string) : RotProg unit :=
  try_prog (withExclusiveRotationFence session class
    (try_prog (Snapshot class) (fun current =>
     if negb (String.eqb (as_Phase current) RotationPhaseMigrate)
     then Ret (Err (EMsg "pki: Retire requires migrate phase"))
     else
       try_prog (requireLeafMigration fuel current) (fun _ =>
       try_prog (requiredCRLBaseline class (as_SuccessorRootDER current)) (fun '(requiredFingerprint, requiredSequence) =>
       let state := mkCARotationState class RotationPhaseRetire (as_Generation current) (wrap_u 64 (as_Revision current + 1))
         (default ""%string (head (as_DesiredRootDER current))) false (as_SuccessorRootDER current) "" ""
         requiredFingerprint requiredSequence 0 in
       try_prog (snapshotFromState state) (fun next =>
       try_prog (append_state "retire" state (publishSnapshot next false)) (fun _ => Ret (Ok next)))))))) (fun next =>
  try_prog (select_authority "pki: select retired successor signer" class (Sum256 (as_IssuingRootDER next))) (fun _ =>
  publishSnapshot next true)).

(** [removeAuthority] on the process's authorities. *)
Definition remove_authority (class fingerprint : string) : prog PKIEnv World unit :=
  act (fun _ w => (with_authorities w (removeAuthority (w_authorities w) class fingerprint), tt)).

(** server/internal/pki/rotation.go:414-462 [Normalize] *)
Definition Normalize (session : nat) (class : string) : RotProg unit :=
  try_prog (withExclusiveRotationFence session class
    (try_prog (Snapshot class) (fun current =>
     try_prog (look (fun env w => ReadCARotationState (pe_read env) class (w_tables w))) (fun state =>
     let retired := String.eqb (as_Phase current) RotationPhaseRetire in
     if negb retired && negb (String.eqb (as_Phase current) RotationPhaseTrust && (len (as_SuccessorRootDER current) =? 0)
                              && negb (len (cs_DiscardedRootDER state) =? 0))
     then Ret (Err (EMsg "pki: Normalize requires pending abort or retire phase"))
     else
       try_prog (requireConsumerConfirmations current) (fun _ =>
       let removeFingerprint := Sum256 (if retired then as_PredecessorRootDER current else cs_DiscardedRootDER state) in
       let normalized := mkCARotationState class RotationPhaseStable (as_Generation current) (as_Revision current)
         (as_IssuingRootDER current) retired "" "" "" "" 0 0 in
       try_prog (snapshotFromState normalized) (fun next =>
       try_prog (append_state "normalize" normalized (publishSnapshot next false)) (fun _ =>
       Ret (Ok (next, removeFingerprint))))))))) (fun '(next, removeFingerprint) =>
  bind_prog (remove_authority class removeFingerprint) (fun _ => publishSnapshot next true)).

(** ** Receipts *)

(** server/internal/pki/rotation.go:573-593 [trustConfirmationClasses] *)
Definition trustConfirmationClasses (confirmation : TrustStateConfirmation) : result goerr (string * string) :=
  wrap_err EMsg (parseExactCertificate (tf_ReporterCertificateDER confirmation)) ≫= fun certificate =>
  wrap_err EMsg (ParseCertificateIdentity (Some certificate)) ≫= fun '(reporterClass, _) =>
  let claimedClass := tc_ClaimedClass (tf_Claim confirmation) in
  fail_if (negb (validCertificateClass reporterClass) || negb (validCertificateClass claimedClass))
    ErrTrustStateRejected ≫= fun _ => Ok (reporterClass, claimedClass).

(** server/internal/pki/rotation.go:688-699 [currentReporterCertificate] *)
Definition currentReporterCertificate (class reporterID : string) (fault : option goerr) (t : LeafTables)
    : result goerr (string * bool) :=
  if String.eqb class CertificateClassAgent then
    ReadDevice fault reporterID t ≫= fun device =>
    Ok (dv_CertificateDER device, negb (String.eqb (dv_LifecycleState device) DeviceLifecycleRevoked))
  else
    ReadGateway fault reporterID t ≫= fun gateway =>
    Ok (gw_CertificateDER gateway, negb (String.eqb (gw_LifecycleState gateway) GatewayLifecycleRevoked)).

(** server/internal/pki/rotation.go:701-709 [verifiedLeafIssuer] *)
Definition verifiedLeafIssuer (certificate : Certificate) (roots : list string) : option string :=
  Sum256 <$> find (fun rootDER => match parseExactCertificate rootDER with
                                  | Ok root => CheckSignatureFrom certificate root
                                  | Err _ => false
                                  end) roots.

(** The receipt that a claim amounts to, given the state it is about. *)
Inductive ValidatedReceipt :=
| LeafReceipt (c : LeafTrustConfirmation)
| ConsumerReceipt (c : ConsumerTrustConfirmation).

(** server/internal/pki/rotation.go:644-685 [validateTrustStateConfirmation]: the
    comparison of a claim with the durable state *)
Definition receipt_of (confirmation : TrustStateConfirmation) (certificate : Certificate) (reporterID : string)
    (snapshot : AuthoritySnapshot) : option ValidatedReceipt :=
  let claim := tf_Claim confirmation in
  let reporterClass := tc_ReporterClass claim in
  let claimedClass := tc_ClaimedClass claim in
  if negb ((tc_Generation claim =? as_Generation snapshot) && (tc_Revision claim =? as_Revision snapshot)
           && equalRootFingerprintBytes (tc_RootFingerprints claim) (as_DesiredRootDER snapshot)) then None
  else if String.eqb reporterClass claimedClass then
    if negb (len (tc_CRLIssuerFingerprint claim) =? 0) || negb (tc_CRLSequence claim =? 0) then None
    else (fun issuer => LeafReceipt (mkLeafTrustConfirmation reporterClass reporterID
                          (tf_ReporterCertificateDER confirmation) (as_Generation snapshot) issuer))
           <$> verifiedLeafIssuer certificate (as_DesiredRootDER snapshot)
  else if (String.eqb reporterClass CertificateClassAgent && negb (String.eqb claimedClass CertificateClassGateway))
          || (String.eqb reporterClass CertificateClassGateway && negb (String.eqb claimedClass CertificateClassAgent))
  then None
  else if (if String.eqb reporterClass CertificateClassGateway
           then negb (String.eqb (tc_CRLIssuerFingerprint claim) (as_RequiredCRLIssuerFingerprint snapshot))
                || (tc_CRLSequence claim <? as_RequiredCRLSequence snapshot)
                || (as_PublishedCRLSequence snapshot <? tc_CRLSequence claim)
           else negb (len (tc_CRLIssuerFingerprint claim) =? 0) || negb (tc_CRLSequence claim =? 0))
  then None
  else
    let fingerprint := as_RequiredCRLIssuerFingerprint snapshot in
    Some (ConsumerReceipt (mkConsumerTrustConfirmation reporterClass claimedClass reporterID
            (tf_ReporterCertificateDER confirmation) (as_Generation snapshot) (as_Revision snapshot)
            (rootFingerprintArrays (as_DesiredRootDER snapshot))
            (if len fingerprint =? 32 then fingerprint else zero_fingerprint) (wrap_s 64 (tc_CRLSequence claim)))).

(** server/internal/pki/rotation.go:619-633 [validateTrustStateConfirmation]: the
    reporter's identity *)
Definition claim_reporter (confirmation : TrustStateConfirmation) : result goerr (Certificate * string) :=
  let claim := tf_Claim confirmation in
  wrap_err EMsg (parseExactCertificate (tf_ReporterCertificateDER confirmation)) ≫= fun certificate =>
  fail_if (len (tf_Signature confirmation) =? 0) ErrTrustStateRejected ≫= fun _ =>
  wrap_err EMsg (ParseCertificateIdentity (Some certificate)) ≫= fun '(reporterClass, reporterID) =>
  fail_if (negb (validCertificateClass reporterClass) || negb (validCertificateClass (tc_ClaimedClass claim))
           || negb (String.eqb (tc_ReporterClass claim) reporterClass)) ErrTrustStateRejected ≫= fun _ =>
  Ok (certificate, reporterID).

(** server/internal/pki/rotation.go:634-642 [validateTrustStateConfirmation]: the
    reporter's stored certificate, and its signature over the claim *)
Definition claim_signed (confirmation : TrustStateConfirmation) (certificate : Certificate) (reporterID : string)
    (fault : option goerr) (db : PKIDB) : result goerr unit :=
  let claim := tf_Claim confirmation in
  let der := tf_ReporterCertificateDER confirmation in
  currentReporterCertificate (tc_ReporterClass claim) reporterID fault (pk_leaves (td_tables db)) ≫= fun '(storedDER, active) =>
  fail_if (negb active || negb (String.eqb storedDER der)) ErrTrustStateRejected ≫= fun _ =>
  fail_if (negb (String.eqb (tc_ReporterCertificateFingerprint claim) (Sum256 der))) ErrTrustStateRejected ≫= fun _ =>
  wrap_err EMsg (VerifyTrustState (PublicKey certificate) claim (tf_Signature confirmation)).

(** An error becomes the rejection that hides it. *)
Definition rejected {A B} (r : result A B) : result goerr B :=
  match r with Ok b => Ok b | Err _ => Err ErrTrustStateRejected end.

(** server/internal/pki/rotation.go:615-686 [validateTrustStateConfirmation] *)
Definition validateTrustStateConfirmation (confirmation : TrustStateConfirmation) : RotProg ValidatedReceipt :=
  let claim := tf_Claim confirmation in
  try_prog (Ret (rejected (claim_reporter confirmation))) (fun '(certificate, reporterID) =>
  try_prog (look (fun env w => rejected (claim_signed confirmation certificate reporterID (pe_read env) (w_db w)))) (fun _ =>
  try_prog (bind_prog (Snapshot (tc_ClaimedClass claim)) (fun r => Ret (rejected r))) (fun snapshot =>
  Ret (or_err (receipt_of confirmation certificate reporterID snapshot) ErrTrustStateRejected)))).

(** A validated receipt's record. *)
Definition record_receipt (receipt : ValidatedReceipt) : RotProg unit :=
  lift_store (match receipt with
              | LeafReceipt c => RecordValidatedTrustConfirmation (Some c) None
              | ConsumerReceipt c => RecordValidatedTrustConfirmation None (Some c)
              end).

(** server/internal/pki/rotation.go:555-571 [ConfirmTrustState]: the classes of a
    validated receipt are those the fences were taken for *)
Definition ConfirmTrustState (session : nat) (confirmation : TrustStateConfirmation) : RotProg unit :=
  try_prog (Ret (rejected (trustConfirmationClasses confirmation))) (fun '(reporterClass, claimedClass) =>
  withTrustStateFences session reporterClass claimedClass
    (try_prog (validateTrustStateConfirmation confirmation) record_receipt)).

(** server/internal/pki/rotation.go:596-613 [ConfirmControlTrustState] *)
Definition ConfirmControlTrustState (session : nat) (confirmation : ControlTrustStateConfirmation) : RotProg unit :=
  if negb (String.eqb (tn_ClaimedClass confirmation) CertificateClassGateway) then Ret (Err ErrTrustStateRejected)
  else
    try_prog (bind_prog (Snapshot (tn_ClaimedClass confirmation)) (fun r => Ret (rejected r))) (fun snapshot =>
    if negb ((tn_Generation confirmation =? as_Generation snapshot) && (tn_Revision confirmation =? as_Revision snapshot)
             && equalRootFingerprintBytes (tn_RootFingerprints confirmation) (as_DesiredRootDER snapshot)
             && (len (tn_CRLIssuerFingerprint confirmation) =? 0) && (tn_CRLSequence confirmation =? 0))
    then Ret (Err ErrTrustStateRejected)
    else
      let stored := mkControlTrustConfirmation (tn_ClaimedClass confirmation) (tn_Generation confirmation)
        (tn_Revision confirmation) (rootFingerprintArrays (as_DesiredRootDER snapshot)) zero_fingerprint 0 in
      withTrustStateFences session CertificateClassGateway CertificateClassGateway
        (lift_store (RecordControlTrustConfirmation stored))).

(** ** Construction *)

(** server/internal/pki/rotation.go:130-138 [NewRotationManager]: the configured
    signers; the order of a Go map is unspecified, and any order gives the same
    map or an error *)
Definition configured_signers (signers : list (string * SigningKey)) : result goerr (gmap string SigningKey) :=
  map_result (fun '(class, signer) =>
    fail_if (negb (validCertificateClass class)) (EMsg "pki: invalid configured successor certificate class") ≫= fun _ =>
    wrap_err (fun m => EWrap "pki: validate configured successor signer" (EMsg m)) (ValidateSigningKey signer) ≫= fun _ =>
    Ok (class, signer)) signers ≫= fun valid => Ok (list_to_map valid).

(** server/internal/pki/rotation.go:116-157 [NewRotationManager] *)
Definition NewRotationManager (signers : list (string * SigningKey)) : RotProg unit :=
  try_prog (Ret (configured_signers signers)) (fun configured =>
  bind_prog (act (fun _ w => (with_signers w configured, tt))) (fun _ =>
  try_prog (each_prog (fun class =>
              try_prog (read_state class) (fun found =>
              match found with None => Ret (Ok tt) | Some state => restoreAuthorities state end))
              [CertificateClassAgent; CertificateClassGateway]) (fun _ =>
  bind_prog (look (fun _ w => currentAuthority (w_authorities w) CertificateClassAgent)) (fun authority =>
  match authority with
  | None => Ret (Ok tt)
  | Some authority =>
      bind_prog (ensureInitialCRL CertificateClassAgent authority) (fun r =>
      Ret (wrap_err (EWrap "pki: initialize agent CRL") r))
  end)))).
End Rotation.
