(* ===== verification/RotationSpec.v ===== *)
(** * What a rotation promises

    The abstract rotation of a class has one root, or two while one follows the
    other.  Its steps are those of the continuity graph, each with the gate
    that the world must pass at the commit.  However the calls of the manager
    interleave with each other and with the rest of the server, the durable
    states of every class move along these steps only. *)

From Stdlib Require Import Ascii String ZArith Lia.
From S2P Require Export Rotation.

(** ** The abstract rotation *)

Inductive Phase :=
| Stable
| Trusting (successor : string)
| Withdrawing (discarded : string)
| Migrating (successor : string)
| Retiring (successor : string).

Record Rotation := mkRotation { r_root : string; r_phase : Phase; r_generation : Z; r_revision : Z }.

(** The roots that consumers must trust, and the one that issues. *)
Definition desired (r : Rotation) : list string :=
  match r_phase r with
  | Stable | Withdrawing _ => [r_root r]
  | Trusting s | Migrating s => [r_root r; s]
  | Retiring s => [s]
  end.

Definition issuing (r : Rotation) : string :=
  match r_phase r with Stable | Trusting _ | Withdrawing _ => r_root r | Migrating s | Retiring s => s end.

(** The abstract rotation of a durable state. *)
Definition abs (s : CARotationState) : Rotation :=
  mkRotation (cs_CurrentRootDER s)
    (if String.eqb (cs_Phase s) RotationPhaseTrust then
       if len (cs_SuccessorRootDER s) =? 0 then Withdrawing (cs_DiscardedRootDER s) else Trusting (cs_SuccessorRootDER s)
     else if String.eqb (cs_Phase s) RotationPhaseMigrate then Migrating (cs_SuccessorRootDER s)
     else if String.eqb (cs_Phase s) RotationPhaseRetire then Retiring (cs_SuccessorRootDER s)
     else Stable)
    (cs_Generation s) (cs_Revision s).

Section Spec.
Context {x509 : X509} {schemes : Schemes} {x509crl : X509CRL} {x25519 : X25519}.

(** ** The gates *)

(** A certificate in service. *)
Definition in_service (class id der : string) (t : LeafTables) : Prop :=
  if String.eqb class CertificateClassAgent
  then exists d, lf_devices t !! id = Some d /\ dr_LifecycleState d <> "revoked"%string /\ dr_CertificateDer d = der
  else exists g, lf_gateways t !! id = Some g /\ gt_LifecycleState g <> "revoked"%string /\ gt_CertificateDer g = der.

Definition other_class (class : string) : string :=
  if String.eqb class CertificateClassAgent then CertificateClassGateway else CertificateClassAgent.

(** A consumer's receipt of the desired roots, for the certificate it has. *)
Definition trusts (class id der : string) (r : Rotation) (log : list PKIRow) : Prop :=
  exists c, c ∈ consumer_receipts (to_upper id) (consumer_event_type (other_class class)) log
    /\ ct_ClaimedClass c = class /\ ct_ReporterCertificateDER c = der
    /\ ct_Generation c = r_generation r /\ ct_Revision c = r_revision r
    /\ ct_RootFingerprints c = Sum256 <$> desired r.

Definition control_trusts (class : string) (r : Rotation) (log : list PKIRow) : Prop :=
  exists c, c ∈ control_receipts log /\ nt_ClaimedClass c = class
    /\ nt_Generation c = r_generation r /\ nt_Revision c = r_revision r /\ nt_RootFingerprints c = Sum256 <$> desired r.

(** Every consumer in service trusts the desired roots, and so does control
    where gateways connect to it. *)
Definition consumers_follow (class : string) (r : Rotation) (db : PKIDB) : Prop :=
  (forall id der, in_service (other_class class) id der (pk_leaves (td_tables db)) -> trusts class id der r (td_log db))
  /\ (class = CertificateClassGateway -> control_trusts class r (td_log db)).

(** Every leaf in service was issued by the successor and has said that it
    trusts it. *)
Definition leaves_follow (class successor : string) (r : Rotation) (db : PKIDB) : Prop :=
  forall id der, in_service class id der (pk_leaves (td_tables db)) ->
    (exists certificate root, ParseCertificate der = Some certificate /\ Raw certificate = der
       /\ parseExactCertificate successor = Ok root /\ CheckSignatureFrom certificate root = true)
    /\ exists c, c ∈ leaf_receipts id (leaf_event_type class) (td_log db)
         /\ lt_CertificateClass c = class /\ lt_ReporterID c = id /\ lt_ReporterCertificateDER c = der
         /\ lt_Generation c = r_generation r /\ lt_IssuerFingerprint c = Sum256 successor.

(** ** The steps *)

Inductive rotates (class : string) (db : PKIDB) : option Rotation -> Rotation -> Prop :=
| rot_first root s : s <> root ->
    rotates class db None (mkRotation root (Trusting s) 2 1)
| rot_begin root s g v : s <> root ->
    rotates class db (Some (mkRotation root Stable g v)) (mkRotation root (Trusting s) (g + 1) 1)
| rot_abort root s g v :
    rotates class db (Some (mkRotation root (Trusting s) g v)) (mkRotation root (Withdrawing s) g (v + 1))
| rot_migrate root s g v : consumers_follow class (mkRotation root (Trusting s) g v) db ->
    rotates class db (Some (mkRotation root (Trusting s) g v)) (mkRotation root (Migrating s) g v)
| rot_retire root s g v : leaves_follow class s (mkRotation root (Migrating s) g v) db ->
    rotates class db (Some (mkRotation root (Migrating s) g v)) (mkRotation root (Retiring s) g (v + 1))
| rot_restore root d g v : consumers_follow class (mkRotation root (Withdrawing d) g v) db ->
    rotates class db (Some (mkRotation root (Withdrawing d) g v)) (mkRotation root Stable g v)
| rot_finish root s g v : consumers_follow class (mkRotation root (Retiring s) g v) db ->
    rotates class db (Some (mkRotation root (Retiring s) g v)) (mkRotation s Stable g v).

(** The durable rotation of a class. *)
Definition rotation_of (class : string) (db : PKIDB) : option Rotation :=
  (fun row => abs (ro_State row)) <$> pk_rotation (td_tables db) !! class.

(** A class that never rotated is at its first generation and revision. *)
Definition generation_of (r : option Rotation) : Z := from_option r_generation 1 r.
Definition revision_of (r : option Rotation) : Z := from_option r_revision 1 r.

(** A receipt of an agent or a gateway is about the rotation that is durable when
    it is recorded.  Nothing is asked of control's own receipts: their snapshot is
    read before the fence is taken. *)
Definition receipt_current (row : PKIRow) (db : PKIDB) : Prop :=
  match te_Payload (ty_Event row) with
  | PLeafTrust _ c =>
      let r := rotation_of (lt_CertificateClass c) db in
      lt_Generation c = generation_of r
      /\ from_option (fun r => exists root, root ∈ desired r /\ lt_IssuerFingerprint c = Sum256 root) True r
  | PConsumerTrust _ c =>
      let r := rotation_of (ct_ClaimedClass c) db in
      ct_Generation c = generation_of r /\ ct_Revision c = revision_of r
      /\ from_option (fun r => ct_RootFingerprints c = Sum256 <$> desired r) True r
  | _ => True
  end.

(** One step of the specification: each class stays or rotates, the log grows,
    and new receipts of agents and gateways are current. *)
Record machine_step (db db' : PKIDB) : Prop := {
  ms_log : exists rows, td_log db' = td_log db ++ rows /\ forall row, row ∈ rows -> receipt_current row db;
  ms_rotation : forall class, rotation_of class db' = rotation_of class db
                \/ exists r, rotation_of class db' = Some r /\ rotates class db (rotation_of class db) r;
}.

(** ** What a session relies on, and what it guarantees *)

Definition fence_key (class : string) : Z :=
  if String.eqb class CertificateClassAgent then agentRotationFenceKey else gatewayRotationFenceKey.

Definition holds (session : nat) (class : string) (shared : bool) (w : World) : Prop :=
  mkAdvisoryLock session (fence_key class) shared ∈ w_locks w.

(** The certificate that an event puts into service, after the one it replaces. *)
Definition issuance (p : leafPayload) : option (string * string) :=
  match p with
  | agentEnrolled p => Some (""%string, ae_CertificateDER p)
  | agentCertificateRenewed p => Some (ar_SupersededCertificateDER p, ar_CertificateDER p)
  | gatewayEnrolled p => Some (""%string, ge_CertificateDER p)
  | gatewayCertificateRenewed p => Some (gr_SupersededCertificateDER p, gr_CertificateDER p)
  | _ => None
  end.

Definition issued_in (stream id : string) (issued : string * string) (log : list PKIRow) : Prop :=
  exists row p, row ∈ log /\ of_stream stream id row /\ te_Payload (ty_Event row) = PLeaf p /\ issuance p = Some issued.

(** A row's version and certificates come from events of its stream. *)
Definition recorded_row (stream id : string) (issued : string * string) (version : Z) (log : list PKIRow) : Prop :=
  version <= typed_version stream id log /\ issued_in stream id issued log.

Definition device_leaf (d : DeviceRow) : string * string := (dr_PreviousCertificateDer d, dr_CertificateDer d).
Definition gateway_leaf (g : GatewayRow) : string * string := (gt_PreviousCertificateDer g, gt_CertificateDer g).

(** The leaves are projected from their streams. *)
Definition leaves_recorded (t : LeafTables) (log : list PKIRow) : Prop :=
  (forall id d, lf_devices t !! id = Some d -> recorded_row deviceStreamType id (device_leaf d) (dr_ProjectionVersion d) log)
  /\ (forall id g, lf_gateways t !! id = Some g -> recorded_row gatewayStreamType id (gateway_leaf g) (gt_ProjectionVersion g) log).

Lemma issued_in_app stream id issued log rows : issued_in stream id issued log -> issued_in stream id issued (log ++ rows).
Proof. intros (row & p & H & Hp). exists row, p. split; [|done]. apply elem_of_app. by left. Qed.

Lemma recorded_row_app stream id issued version log rows :
  recorded_row stream id issued version log -> recorded_row stream id issued version (log ++ rows).
Proof. intros [H1 H2]. split; [etrans; [exact H1|apply typed_version_app]|by apply issued_in_app]. Qed.

Lemma leaves_recorded_app t log rows : leaves_recorded t log -> leaves_recorded t (log ++ rows).
Proof. intros [H1 H2]. split; intros id r Hr; apply recorded_row_app; eauto. Qed.

(** An exclusive lock excludes every other lock of its key; stored numbers
    are 64-bit, the keys of the leaves are ULIDs, and their rows come from
    events. *)
Record world_inv (w : World) : Prop := {
  wi_locks : forall l1 l2, l1 ∈ w_locks w -> l2 ∈ w_locks w -> al_key l1 = al_key l2 -> al_shared l1 = false -> l2 = l1;
  wi_bounds : forall class row, pk_rotation (w_tables w) !! class = Some row ->
    0 <= cs_Generation (ro_State row) < 2 ^ 64 /\ 0 <= cs_Revision (ro_State row) < 2 ^ 64;
  wi_keys : forall id, is_Some (lf_devices (pk_leaves (w_tables w)) !! id) \/ is_Some (lf_gateways (pk_leaves (w_tables w)) !! id) ->
    ULIDPathID id = Ok tt /\ to_upper id = id;
  wi_leaves : leaves_recorded (pk_leaves (w_tables w)) (td_log (w_db w));
}.

Definition service_shrinks (w w' : World) : Prop :=
  forall class id der, in_service class id der (pk_leaves (w_tables w')) -> in_service class id der (pk_leaves (w_tables w)).

(** The others leave a session's locks alone, leave the durable state of the
    classes it has locked, and put no certificate into service while it holds
    an exclusive lock. *)
Record relies (s : nat) (w w' : World) : Prop := {
  re_log : exists rows, td_log (w_db w') = td_log (w_db w) ++ rows;
  re_locks : forall l, al_session l = s -> (l ∈ w_locks w <-> l ∈ w_locks w');
  re_rotation : forall class shared, holds s class shared w ->
    pk_rotation (w_tables w') !! class = pk_rotation (w_tables w) !! class;
  re_service : forall class, holds s class false w -> service_shrinks w w';
}.

(** A session touches its own locks only, rotates a class under its exclusive
    lock only, and puts certificates into service under both shared locks. *)
Record guarantees (s : nat) (w w' : World) : Prop := {
  gu_machine : machine_step (w_db w) (w_db w');
  gu_locks : forall l, al_session l <> s -> (l ∈ w_locks w <-> l ∈ w_locks w');
  gu_rotation : forall class, validCertificateClass class = true ->
    pk_rotation (w_tables w') !! class = pk_rotation (w_tables w) !! class \/ holds s class false w;
  gu_other : forall class, validCertificateClass class = false ->
    pk_rotation (w_tables w') !! class = pk_rotation (w_tables w) !! class;
  gu_service : service_shrinks w w' \/ forall class, holds s class true w;
}.

#[export] Instance relies_preorder s : PreOrder (relies s).
Proof.
  split.
  - intros w. split; [by exists []; rewrite app_nil_r|done..|by intros class _ class' id der].
  - intros w1 w2 w3 [(l1 & H1) L1 R1 S1] [(l2 & H2) L2 R2 S2].
    assert (K : forall class shared, holds s class shared w1 -> holds s class shared w2) by (intros class sh; by apply L1).
    split.
    + exists (l1 ++ l2). by rewrite H2, H1, app_assoc.
    + intros l Hl. by rewrite L1, L2.
    + intros class sh Hh. by rewrite (R2 class sh (K _ _ Hh)), (R1 class sh Hh).
    + intros class Hh c id der Hs. eapply (S1 class), (S2 class); eauto.
Qed.

Lemma machine_step_refl db : machine_step db db.
Proof. split; [|by left]. exists []. rewrite app_nil_r. split; [done|]. intros row Hr. by apply elem_of_nil in Hr. Qed.

#[export] Instance guarantees_refl s : Reflexive (guarantees s).
Proof. intros w. split; [apply machine_step_refl|done|by left|done|by left; intros class id der]. Qed.

Lemma fence_key_class class class' :
  validCertificateClass class = true -> validCertificateClass class' = true -> fence_key class = fence_key class' -> class = class'.
Proof.
  unfold validCertificateClass, fence_key. intros H1%orb_true_iff H2%orb_true_iff.
  destruct H1 as [->%String.eqb_eq| ->%String.eqb_eq], H2 as [->%String.eqb_eq| ->%String.eqb_eq]; done.
Qed.

(** What one session guarantees is what another relies on. *)
Lemma guarantees_relies s s' w w' : s <> s' -> world_inv w -> guarantees s w w' -> relies s' w w'.
Proof.
  intros Hne [HL _ _ _] [[(rows & Hlog & _) _] GL GR GO GS]. split.
  - eauto.
  - intros l Hl. apply GL. congruence.
  - intros class sh Hh. destruct (validCertificateClass class) eqn:Ev; [|by apply GO].
    destruct (GR class Ev) as [H|H]; [done|]. pose proof (HL _ _ H Hh eq_refl eq_refl) as Heq. congruence.
  - intros class Hh. destruct GS as [H|H]; [done|]. pose proof (HL _ _ Hh (H class) eq_refl eq_refl). congruence.
Qed.
End Spec.
