(* ===== verification/RotationGates.v ===== *)
(** * The gates of a rotation, under its fence

    The judgement of a session's programs: what holds under its lock stays
    true while others move, the steps that the machine does not see change
    nothing of it, and the two gates establish what they check. *)

From Stdlib Require Import Ascii String ZArith Lia.
From S2P Require Export RotationSpec.

Section Spec.
Context {x509 : X509} {schemes : Schemes} {x509crl : X509CRL} {x25519 : X25519}.

(** ** Steps that the specification does not see

    Revocation lists, memory and publications are outside of it. *)
Record quiet (w w' : World) : Prop := {
  qu_log : td_log (w_db w') = td_log (w_db w);
  qu_rotation : pk_rotation (w_tables w') = pk_rotation (w_tables w);
  qu_devices : lf_devices (pk_leaves (w_tables w')) = lf_devices (pk_leaves (w_tables w));
  qu_gateways : lf_gateways (pk_leaves (w_tables w')) = lf_gateways (pk_leaves (w_tables w));
  qu_locks : w_locks w' = w_locks w;
}.

Lemma quiet_refl w : quiet w w.
Proof. done. Qed.

Lemma in_service_same class id der t t' :
  lf_devices t' = lf_devices t -> lf_gateways t' = lf_gateways t -> in_service class id der t' -> in_service class id der t.
Proof. unfold in_service. by intros -> ->. Qed.

Lemma machine_same db rows t t' :
  pk_rotation t' = pk_rotation t -> (forall row, row ∈ rows -> receipt_current row (mkTypedDB db t)) ->
  machine_step (mkTypedDB db t) (mkTypedDB (db ++ rows) t').
Proof. intros Hr Hc. split; [by exists rows|]. intros class. left. unfold rotation_of. cbn [td_tables]. by rewrite Hr. Qed.

Lemma quiet_guarantees s w w' : quiet w w' -> guarantees s w w'.
Proof.
  intros [H1 H2 H3 H4 H5]. split.
  - unfold w_tables in *. destruct (w_db w) as [l t], (w_db w') as [l' t']. cbn [td_log td_tables] in *. subst l'.
    rewrite <- (app_nil_r l) at 2. apply machine_same; [done|]. intros row Hr. by apply elem_of_nil in Hr.
  - intros l _. by rewrite H5.
  - intros class _. left. by rewrite H2.
  - intros class _. by rewrite H2.
  - left. intros class id der. by apply in_service_same.
Qed.

Lemma quiet_inv w w' : quiet w w' -> world_inv w -> world_inv w'.
Proof. intros [H1 H2 H3 H4 H5] [I1 I2 I3 I4]. split; [by rewrite H5|by rewrite H2|by rewrite H3, H4|]. unfold leaves_recorded. by rewrite H1, H3, H4. Qed.

(** A program of quiet steps whose results satisfy [R]. *)
Fixpoint yields {A} (R : A -> Prop) (p : prog PKIEnv World A) : Prop :=
  match p with
  | Ret a => R a
  | Act op k => forall env w w' x, op env w = (w', x) -> quiet w w' /\ yields R (k x)
  end.

Lemma yields_bind {A B} (R : A -> Prop) (R' : B -> Prop) p (f : A -> prog PKIEnv World B) :
  yields R p -> (forall a, R a -> yields R' (f a)) -> yields R' (bind_prog p f).
Proof.
  intros Hp Hf. induction p as [a|X op k IH]; cbn in *; [by apply Hf|].
  intros env w w' x Hop. destruct (Hp env w w' x Hop). split; [done|]. by apply IH.
Qed.

Lemma yields_weaken {A} (R R' : A -> Prop) p : (forall a, R a -> R' a) -> yields R p -> yields R' p.
Proof.
  intros HR. induction p as [a|X op k IH]; cbn; [apply HR|]. intros H env w w' x Hop.
  destruct (H env w w' x Hop). split; [done|by apply IH].
Qed.

(** The results of a fallible program that end well. *)
Definition oks {A} (R : A -> Prop) (r : result goerr A) : Prop := match r with Ok a => R a | Err _ => True end.

Lemma oks_true {A} (r : result goerr A) : oks (fun _ => True) r.
Proof. by destruct r. Qed.

Lemma yields_try {A B} (R : A -> Prop) (R' : B -> Prop) (p : RotProg A) (f : A -> RotProg B) :
  yields (oks R) p -> (forall a, R a -> yields (oks R') (f a)) -> yields (oks R') (try_prog p f).
Proof. intros Hp Hf. eapply yields_bind; [exact Hp|]. by intros [a|e] Ha; [apply Hf|]. Qed.

Lemma yields_look {X} (R : X -> Prop) (q : PKIEnv -> World -> X) : (forall env w, R (q env w)) -> yields R (look q).
Proof. intros H env w w' x [= <- <-]. split; [apply quiet_refl|apply H]. Qed.

Lemma yields_act {X} (R : X -> Prop) (op : PKIEnv -> World -> World * X) :
  (forall env w w' x, op env w = (w', x) -> quiet w w' /\ R x) -> yields R (act op).
Proof. intros H env w w' x Hop. by apply (H env). Qed.

(** What holds while other sessions move survives a quiet program. *)
Lemma yields_rg {A} s (R : A -> Prop) (P : World -> Prop) p :
  stable world_inv (relies s) P -> (forall w w', quiet w w' -> P w -> P w') -> yields R p ->
  rg world_inv (relies s) (guarantees s) (fun a w => R a /\ P w) P p.
Proof.
  intros Hst Hq. induction p as [a|X op k IH]; cbn; [done|]. intros Hp env w w' x HI HP Hop.
  destruct (Hp env w w' x Hop) as [Hw Hk]. split; [by apply quiet_guarantees|]. split; [by eapply quiet_inv|].
  exists P. split; [done|]. split; [by eapply Hq|by apply IH].
Qed.

(** *** The manager's quiet programs *)

Lemma yields_on_authorities msg op : yields (oks (fun _ => True)) (on_authorities msg op).
Proof.
  apply yields_act. intros env w w' x. destruct (op (pe_now env) (w_authorities w)) as [a r]. intros [= <- <-].
  split; [done|apply oks_true].
Qed.

Lemma yields_install m b class der : yields (oks (fun _ => True)) (install_durable m b class der).
Proof.
  eapply (yields_bind (fun _ => True)); [by apply yields_look|]. intros [k|] _; [apply yields_on_authorities|done].
Qed.

Lemma yields_restore state : yields (oks (fun _ => True)) (restoreAuthorities state).
Proof.
  unfold restoreAuthorities. eapply (yields_try (fun _ => True)).
  { case_match; [apply yields_install|]. apply yields_look. intros env w. apply oks_true. }
  intros _ _. eapply (yields_try (fun _ => True)); [case_match; [done|apply yields_install]|].
  intros _ _. eapply (yields_try (fun _ => True)); [case_match; [done|apply yields_install]|].
  intros _ _. apply yields_on_authorities.
Qed.

Lemma yields_latest class issuer : yields (oks (fun _ => True)) (latest_crl class issuer).
Proof. apply yields_look. intros env w. apply oks_true. Qed.

(** A snapshot is its state's, but for the published sequence. *)
Definition snapshot_for (state : CARotationState) (snapshot : AuthoritySnapshot) : Prop :=
  exists s, snapshot_of state = Ok s /\ (snapshot = s \/ exists sequence, snapshot = with_published s sequence).

Lemma yields_snapshot state : yields (oks (snapshot_for state)) (snapshotFromState state).
Proof.
  unfold snapshotFromState. apply (yields_try (fun s => snapshot_of state = Ok s)); [by destruct (snapshot_of state)|].
  intros s Hs. case_match; [|by exists s; auto]. eapply yields_try; [apply yields_latest|].
  intros crl _. exists s. eauto.
Qed.

Lemma yields_baseline class der : yields (oks (fun _ => True)) (requiredCRLBaseline class der).
Proof. unfold requiredCRLBaseline. case_match; [done|]. eapply yields_try; [apply yields_latest|done]. Qed.

Lemma yields_publish snapshot already : yields (oks (fun _ => True)) (publishSnapshot snapshot already).
Proof.
  unfold publishSnapshot. case_match; [done|]. apply yields_act. intros env w w' x.
  destruct (pe_publish env); intros [= <- <-]; by split.
Qed.

Lemma yields_initial class authority : yields (oks (fun _ => True)) (ensureInitialCRL class authority).
Proof.
  unfold ensureInitialCRL. eapply yields_try; [apply yields_latest|]. intros crl _. case_match; [done|].
  eapply (yields_try (fun _ => True)); [apply yields_look; intros; apply oks_true|]. intros [der issuedAt] _.
  eapply (yields_try (fun _ => True)).
  - apply yields_act. intros env w w' x. destruct (InitializeCRL _ _ _ _ _ _) as [t r]. intros [= <- <-].
    split; [done|apply oks_true].
  - intros [] _; [done|]. eapply yields_bind; [apply yields_latest|]. intros [c|e] _; cbn; [by destruct (fail_if _ _)|done].
Qed.

Lemma yields_call class : yields (oks (fun _ => validCertificateClass class = true)) (validateCall class).
Proof.
  apply yields_look. intros env w. destruct (check_call class (pe_ctx env)) as [u|e] eqn:E; [|done].
  cbn. unfold check_call in E. apply bind_ok in E as (v & H%fail_if_ok & _). unfold validCertificateClass.
  destruct (String.eqb class CertificateClassAgent), (String.eqb class CertificateClassGateway); done.
Qed.

(** ** Calls under a fence *)

(** An assertion of a session that the others, and quiet steps, leave true. *)
Record framed (s : nat) (P : World -> Prop) : Prop := {
  fr_stable : stable world_inv (relies s) P;
  fr_quiet : forall w w', quiet w w' -> P w -> P w';
}.

Lemma framed_and s P Q : framed s P -> framed s Q -> framed s (fun w => P w /\ Q w).
Proof. intros [H1 H2] [H3 H4]. split; [by apply stable_and|]. intros w w' Hq [? ?]. split; eauto. Qed.

Lemma framed_const s (F : Prop) : framed s (fun _ => F).
Proof. split; [apply stable_const|done]. Qed.

Lemma framed_holds s class shared : framed s (holds s class shared).
Proof.
  split.
  - intros w w' _ _ [_ HL _ _]. by apply HL.
  - intros w w' [_ _ _ _ H]. unfold holds. by rewrite H.
Qed.

(** What depends on a locked row only. *)
Lemma framed_row s class shared (F : option RotationRow -> Prop) :
  framed s (fun w => holds s class shared w /\ F (pk_rotation (w_tables w) !! class)).
Proof.
  split.
  - intros w w' HI HI' HR [Hh HF]. split; [exact (fr_stable _ _ (framed_holds s class shared) w w' HI HI' HR Hh)|]. by rewrite (re_rotation _ _ _ HR class shared Hh).
  - intros w w' Hq [Hh HF]. split; [exact (fr_quiet _ _ (framed_holds s class shared) w w' Hq Hh)|]. by rewrite (qu_rotation _ _ Hq).
Qed.

(** The judgement of a session's programs. *)
Definition judged {A} (s : nat) (Q : A -> World -> Prop) (P : World -> Prop) (p : prog PKIEnv World A) : Prop :=
  rg world_inv (relies s) (guarantees s) Q P p.

Lemma judged_quiet {A B} s (R : A -> Prop) (Q : result goerr B -> World -> Prop) P p f :
  framed s P -> fails_freely Q -> yields (oks R) p -> (forall a, R a -> judged s Q P (f a)) -> judged s Q P (try_prog p f).
Proof.
  intros [Hst Hq] He Hp Hf. eapply rg_bind; [by apply yields_rg|]. intros [a|e]; cbn.
  - apply rg_pure_pre. exact (Hf a).
  - intros w _ _. apply He.
Qed.

Lemma judged_quiet_bind {A B} s (R : A -> Prop) (Q : B -> World -> Prop) P p (f : A -> prog PKIEnv World B) :
  framed s P -> yields R p -> (forall a, R a -> judged s Q P (f a)) -> judged s Q P (bind_prog p f).
Proof. intros [Hst Hq] Hp Hf. eapply rg_bind; [by apply yields_rg|]. intros a. apply rg_pure_pre. exact (Hf a). Qed.

Lemma judged_look_try {X B} s (q : PKIEnv -> World -> result goerr X) (Q : X -> World -> Prop)
    (Q' : result goerr B -> World -> Prop) P f :
  fails_freely Q' -> (forall x, framed s (Q x)) -> (forall env w x, world_inv w -> P w -> q env w = Ok x -> Q x w) ->
  (forall x, judged s Q' (Q x) (f x)) -> judged s Q' P (try_prog (look q) f).
Proof. intros He Hf Hq Hk. eapply rg_look_try; [apply _|done|intros x; apply Hf|done|done]. Qed.

Lemma judged_act_try {X B} s (op : PKIEnv -> World -> World * result goerr X) (Q : X -> World -> Prop)
    (Q' : result goerr B -> World -> Prop) P f :
  fails_freely Q' -> (forall x, framed s (Q x)) ->
  (forall env w w' r, world_inv w -> P w -> op env w = (w', r) ->
     guarantees s w w' /\ world_inv w' /\ match r with Ok x => Q x w' | Err _ => True end) ->
  (forall x, judged s Q' (Q x) (f x)) -> judged s Q' P (try_prog (act op) f).
Proof. intros He Hf Hq Hk. eapply rg_act_try; [exact He|intros x; apply Hf|exact Hq|exact Hk]. Qed.

(** The durable state of a class. *)
Definition durable (class : string) (state : CARotationState) (row : option RotationRow) : Prop :=
  match row with
  | Some r => state = with_version (ro_State r) (ro_Version r) /\ validateCARotationState (ro_State r) = Ok tt
              /\ cs_CertificateClass (ro_State r) = class
  | None => exists root, state = initial_state class root
  end.

Definition observed (class : string) (snapshot : AuthoritySnapshot) (row : option RotationRow) : Prop :=
  exists state, durable class state row /\ snapshot_for state snapshot.

Lemma ReadCARotationState_durable fault class t state :
  ReadCARotationState fault class t = Ok state -> exists row, pk_rotation t !! class = Some row /\ durable class state (Some row).
Proof.
  unfold ReadCARotationState. intros (u1 & _ & H)%bind_ok. apply bind_ok in H as (row & Hrow%wrap_err_ok & H).
  apply bind_ok in Hrow as (u2 & _ & Hrow%or_err_ok). apply bind_ok in H as ([] & Hv%wrap_err_ok & H).
  apply bind_ok in H as (u3 & Hc%fail_if_ok & [= <-]). apply orb_false_iff in Hc as [Hc%negb_false_iff%String.eqb_eq _].
  exists row. done.
Qed.

(** An invalid row is an error of its own. *)
Lemma validate_not_missing state e : validateCARotationState state = Err e -> IsNotFound e = false.
Proof.
  unfold validateCARotationState.
  repeat match goal with
         | |- fail_if ?b _ ≫= _ = Err _ -> _ => destruct b; cbn [fail_if mbind result_bind]; [by intros [= <-]|]
         | |- fail_if ?b _ = Err _ -> _ => destruct b; cbn [fail_if]; [by intros [= <-]|done]
         | |- (if ?b then _ else _) = Err _ -> _ => destruct b
         end.
  by intros [= <-].
Qed.

Lemma durable_state_ok fault class t found :
  validCertificateClass class = true -> durable_state fault class t = Ok found ->
  match found with
  | Some state => durable class state (pk_rotation t !! class)
  | None => pk_rotation t !! class = None
  end.
Proof.
  unfold durable_state. intros Hv (u & _ & H)%bind_ok. destruct (ReadCARotationState None class t) as [state|e] eqn:E.
  - injection H as <-. apply ReadCARotationState_durable in E as (row & -> & Hd). done.
  - destruct (IsNotFound e) eqn:En; [injection H as <-|done]. unfold ReadCARotationState in E. rewrite Hv in E. cbn in E.
    destruct (pk_rotation t !! class) as [row|]; [|done]. exfalso. revert E En. cbn.
    destruct (validateCARotationState (ro_State row)) as [[]|e'] eqn:Ev; cbn.
    + destruct (_ || _); cbn; [by intros [= <-]|done].
    + intros [= <-] En. rewrite (validate_not_missing _ _ Ev : IsNotFound (EWrap _ e') = false) in En. done.
Qed.

Lemma judged_Snapshot s class shared :
  judged s (fun r w => match r with
                       | Ok snapshot => validCertificateClass class = true
                           /\ holds s class shared w /\ observed class snapshot (pk_rotation (w_tables w) !! class)
                       | Err _ => True
                       end) (holds s class shared) (Snapshot class).
Proof.
  unfold Snapshot. eapply judged_quiet; [apply framed_holds|by intros e w|apply yields_call|]. intros u Hv. cbn beta in Hv. clear u.
  eapply judged_look_try with (Q := fun found w => holds s class shared w /\
      match found with Some state => durable class state (pk_rotation (w_tables w) !! class)
                     | None => pk_rotation (w_tables w) !! class = None end).
  - by intros e w.
  - intros found. apply (framed_row s class shared (fun row =>
      match found with Some state => durable class state row | None => row = None end)).
  - intros env w found _ Hh Hf. split; [done|]. by eapply durable_state_ok.
  - intros [state|].
    + pose proof (framed_row s class shared (durable class state)) as Hfr.
      eapply judged_quiet; [exact Hfr|by intros e w|apply yields_restore|]. intros _ _.
      eapply rg_post; [|apply yields_rg; [apply Hfr|apply Hfr|apply yields_snapshot]].
      intros [snapshot|e] w _ [Hs [Hh Hd]]; [|done]. split; [done|]. split; [done|]. by exists state.
    + pose proof (framed_row s class shared (fun row => row = None)) as Hfr.
      eapply (judged_quiet s (fun _ => True)); [exact Hfr|by intros e w|apply yields_look; intros; apply oks_true|]. intros authority _.
      eapply rg_post; [|apply yields_rg; [apply Hfr|apply Hfr|apply yields_snapshot]].
      intros [snapshot|e] w _ [Hs [Hh Hn]]; [|done]. split; [done|]. split; [done|]. rewrite Hn.
      exists (initial_state class (Raw (ca_certificate authority))). split; [by eexists|done].
Qed.

(** *** Taking and releasing the fences *)

Definition locked (s : nat) (shared : bool) (keys : list Z) (w : World) : Prop :=
  forall k, k ∈ keys -> mkAdvisoryLock s k shared ∈ w_locks w.

Lemma framed_locked s shared keys : framed s (locked s shared keys).
Proof.
  split.
  - intros w w' _ _ HR H k Hk. apply (re_locks _ _ _ HR); [done|by apply H].
  - intros w w' Hq H k Hk. rewrite (qu_locks _ _ Hq). by apply H.
Qed.

Lemma guarantees_locks s w locks :
  (forall l, al_session l <> s -> (l ∈ w_locks w <-> l ∈ locks)) -> guarantees s w (with_locks w locks).
Proof. intros H. split; [apply machine_step_refl|done|by left|done|by left; intros class id der]. Qed.

Lemma acquire_inv s key shared w :
  world_inv w -> grants key shared (w_locks w) = true ->
  world_inv (with_locks w (mkAdvisoryLock s key shared :: w_locks w)).
Proof.
  intros [HL HB HK HV] Hg. split; [|exact HB|exact HK|exact HV]. cbn [with_locks w_locks]. unfold grants in Hg. rewrite forallb_forall in Hg.
  assert (K : forall l, l ∈ w_locks w -> al_key l = key -> shared = true /\ al_shared l = true).
  { intros l Hl%list_elem_of_In Hk. specialize (Hg l Hl). rewrite Hk, Z.eqb_refl in Hg. cbn in Hg. by apply andb_prop in Hg. }
  intros l1 l2 H1 H2 Hk Hs. apply elem_of_cons in H1 as [->|H1], H2 as [->|H2]; cbn in *; [done| | |by eapply HL].
  - destruct (K l2 H2 (eq_sym Hk)). congruence.
  - destruct (K l1 H1 Hk). congruence.
Qed.

Lemma release_inv (F : AdvisoryLock -> Prop) `{forall l, Decision (F l)} w :
  world_inv w -> world_inv (with_locks w (filter F (w_locks w))).
Proof.
  intros [HL HB HK HV]. split; [|exact HB|exact HK|exact HV]. cbn [with_locks w_locks]. intros l1 l2 [_ H1]%list_elem_of_filter [_ H2]%list_elem_of_filter.
  by apply HL.
Qed.

(** What a result says, whatever the locks are and the others do. *)
Record unlocked {A} (s : nat) (Q : result goerr A -> World -> Prop) : Prop := {
  ul_fails : fails_freely Q;
  ul_framed : forall r, framed s (Q r);
  ul_locks : forall r w locks, Q r w -> Q r (with_locks w locks);
}.

Lemma unlocked_oks {A} s (R : A -> Prop) : unlocked s (fun r (_ : World) => oks R r).
Proof. split; [by intros e w|intros r; apply framed_const|done]. Qed.

Lemma judged_locks {A} s shared keys held (Q : result goerr A -> World -> Prop) (action : RotProg A) :
  unlocked s Q -> judged s Q (locked s shared (held ++ keys)) action ->
  judged s Q (locked s shared held) (locked_action s shared keys action).
Proof.
  intros [He Hf Hl]. revert held. induction keys as [|key keys IH]; intros held Ha; cbn [locked_action]; [by rewrite app_nil_r in Ha|].
  unfold acquire_lock. eapply judged_act_try with (Q := fun _ => locked s shared (held ++ [key])).
  - exact He.
  - intros _. apply framed_locked.
  - intros env w w' r HI Hh Hop. destruct (pe_ctx env); [injection Hop as <- <-; by split_and!; [apply guarantees_refl|..]|].
    destruct (grants key shared (w_locks w)) eqn:Eg; injection Hop as <- <-; [|by split_and!; [apply guarantees_refl|..]].
    split_and!.
    + apply guarantees_locks. intros l Hne. rewrite elem_of_cons. split; [by right|]. intros [->|H]; [done|done].
    + by apply acquire_inv.
    + intros k [Hk|Hk]%elem_of_app; cbn; [right; by apply Hh|apply list_elem_of_singleton in Hk as ->; left].
  - intros _. eapply rg_bind.
    { apply (IH (held ++ [key])). by rewrite <- app_assoc. }
    intros r. eapply rg_bind with (Q := fun _ => Q r).
    + eapply rg_act; [intros; apply Hf|]. intros env w w' x HI Hr [= <- <-]. split_and!; [|by apply release_inv|by apply Hl].
      apply guarantees_locks. intros l Hne. rewrite list_elem_of_filter. split; [|by intros [_ ?]].
      intros Hin. split; [|done]. intros [? _]. done.
    + intros released. intros w _ Hr. unfold join_result. destruct released, r; [done|done|apply He|apply He].
Qed.

Lemma judged_fences {A} s shared keys (Q : result goerr A -> World -> Prop) (action : RotProg A) :
  unlocked s Q -> judged s Q (locked s shared keys) action -> judged s Q (fun _ => True) (WithAdvisoryLocks s keys shared action).
Proof.
  intros HQ Ha. unfold WithAdvisoryLocks. case_match; [intros w _ _; apply HQ|].
  eapply (judged_quiet s (fun _ => True)); [apply framed_const|apply HQ|apply yields_look; intros; apply oks_true|].
  intros _ _. eapply rg_weaken; [|apply (judged_locks s shared _ []); [done|]].
  - intros w _ _ k Hk. by apply elem_of_nil in Hk.
  - eapply rg_weaken; [|exact Ha]. intros w _ Hl k Hk. apply Hl. by rewrite elem_of_app, elem_of_compact, merge_sort_Permutation; right.
Qed.

Lemma rotationFenceKey_ok class key :
  rotationFenceKey class = Ok key -> validCertificateClass class = true /\ key = fence_key class.
Proof.
  unfold rotationFenceKey, validCertificateClass, fence_key.
  destruct (String.eqb class CertificateClassAgent); [by intros [= <-]|].
  by destruct (String.eqb class CertificateClassGateway); [intros [= <-]|].
Qed.

Lemma judged_exclusive {A} s class (R : A -> Prop) (action : RotProg A) :
  (validCertificateClass class = true -> judged s (fun r _ => oks R r) (holds s class false) action) ->
  judged s (fun r _ => oks R r) (fun _ => True) (withExclusiveRotationFence s class action).
Proof.
  intros Ha. unfold withExclusiveRotationFence. eapply rg_pure_try; [by intros e w|].
  intros key [Hv ->]%rotationFenceKey_ok. apply judged_fences; [apply unlocked_oks|]. eapply rg_weaken; [|by apply Ha].
  intros w _ Hl. apply Hl. by left.
Qed.

Lemma judged_shared {A} s class1 class2 (R : A -> Prop) (action : RotProg A) :
  judged s (fun r _ => oks R r) (fun w => holds s class1 true w /\ holds s class2 true w) action ->
  judged s (fun r _ => oks R r) (fun _ => True) (withTrustStateFences s class1 class2 action).
Proof.
  intros Ha. unfold withTrustStateFences. eapply rg_pure_try; [by intros e w|]. intros k1 [_ ->]%rotationFenceKey_ok.
  eapply rg_pure_try; [by intros e w|]. intros k2 [_ ->]%rotationFenceKey_ok.
  apply judged_fences; [apply unlocked_oks|]. eapply rg_weaken; [|exact Ha]. intros w _ Hl. split; apply Hl; set_solver.
Qed.

(** *** Committing a state *)

Definition bounded (state : CARotationState) : Prop :=
  0 <= cs_Generation state < 2 ^ 64 /\ 0 <= cs_Revision state < 2 ^ 64.

Lemma abs_with_version state version : abs (with_version state version) = abs state.
Proof. done. Qed.

Lemma CARotationStateEvent_ok operation state event :
  CARotationStateEvent operation state = Ok event ->
  validateCARotationState state = Ok tt
  /\ exists eventType, event = mkTypedEvent caRotationStreamType (cs_CertificateClass state)
                                 (PRotation eventType (with_version state 0)).
Proof.
  unfold CARotationStateEvent. intros ([] & Hv & H)%bind_ok. apply bind_ok in H as (t & _ & [= <-]). eauto.
Qed.

(** What a committed state leaves in the database. *)
Lemma appended_state operation state event db db' :
  CARotationStateEvent operation state = Ok event -> appended (projectPKI false) event db db' ->
  exists row new, td_log db' = td_log db ++ [row] /\ ro_State new = with_version state 0
    /\ (exists eventType, te_Payload (ty_Event row) = PRotation eventType (with_version state 0))
    /\ pk_leaves (td_tables db') = pk_leaves (td_tables db)
    /\ pk_rotation (td_tables db') = <[cs_CertificateClass state := new]> (pk_rotation (td_tables db)).
Proof.
  intros [_ [eventType ->]]%CARotationStateEvent_ok (now & tables & _ & Hp & ->). cbn [td_log td_tables].
  cbn [projectPKI te_Payload ty_Event te_StreamID te_StreamType] in Hp. unfold projectCARotationState in Hp.
  apply bind_ok in Hp as (u1 & _ & Hp). apply bind_ok in Hp as (u2 & _ & Hp).
  unfold UpsertCARotationState in Hp. cbn [with_version cs_CertificateClass ty_Version ty_CreatedAt] in Hp.
  eexists _, (mkRotationRow _ (with_version state 0) _). split; [done|]. split; [done|]. split; [by eexists|].
  destruct (pk_rotation (td_tables db) !! cs_CertificateClass state) as [r|].
  - destruct (ro_Version r =? _); cbn in Hp; [|done]. by injection Hp as <-.
  - cbn in Hp. by injection Hp as <-.
Qed.

Lemma commit_state s class operation state event w db' :
  CARotationStateEvent operation state = Ok event -> cs_CertificateClass state = class -> bounded state ->
  holds s class false w -> rotates class (w_db w) (rotation_of class (w_db w)) (abs state) ->
  appended (projectPKI false) event (w_db w) db' -> world_inv w ->
  guarantees s w (with_db w db') /\ world_inv (with_db w db').
Proof.
  intros He Hc Hb Hh Hr Ha [IL IB IK IV]. destruct (appended_state _ _ _ _ _ He Ha) as (row & new & Hlog & Hnew & (t & Hpay) & Hlv & Hrot).
  assert (Hsame : forall c, c <> class -> pk_rotation (td_tables db') !! c = pk_rotation (td_tables (w_db w)) !! c).
  { intros c Hne. by rewrite Hrot, Hc, lookup_insert_ne. }
  assert (Hval : validCertificateClass class = true).
  { apply CARotationStateEvent_ok in He as [Hv _]. unfold validateCARotationState in Hv.
    apply bind_ok in Hv as (u & Hv%fail_if_ok%negb_false_iff & _). by rewrite <- Hc. }
  split; [split|split; [exact IL| | |]]; cbn [with_db w_db w_locks].
  - split.
    + exists [row]. split; [done|]. intros r ->%list_elem_of_singleton. unfold receipt_current. by rewrite Hpay.
    + intros c. destruct (decide (c = class)) as [->|Hne].
      * right. exists (abs state). split; [|done]. unfold rotation_of. rewrite Hrot, Hc, lookup_insert_eq. cbn.
        by rewrite Hnew, abs_with_version.
      * left. unfold rotation_of. by rewrite Hsame.
  - done.
  - intros c _. destruct (decide (c = class)) as [->|Hne]; [by right|left; by apply Hsame].
  - intros c Hv. apply Hsame. intros ->. congruence.
  - left. intros c id der. unfold w_tables. cbn [with_db w_db]. by rewrite Hlv.
  - intros c r. unfold w_tables. cbn [with_db w_db]. destruct (decide (c = class)) as [->|Hne]; [|rewrite Hsame by done; apply IB].
    rewrite Hrot, Hc, lookup_insert_eq. intros [= <-]. by rewrite Hnew.
  - unfold w_tables. cbn [with_db w_db]. by rewrite Hlv.
  - unfold w_tables. cbn [with_db w_db]. rewrite Hlv, Hlog. by apply leaves_recorded_app.
Qed.

Lemma judged_append {B} s class operation state cb (P : World -> Prop) (Q : result goerr B -> World -> Prop) f :
  fails_freely Q -> framed s P -> cs_CertificateClass state = class -> bounded state ->
  (validateCARotationState state = Ok tt -> forall w, world_inv w -> P w ->
     holds s class false w /\ rotates class (w_db w) (rotation_of class (w_db w)) (abs state)) ->
  yields (oks (fun _ => True)) cb -> judged s Q (fun _ => True) (f tt) ->
  judged s Q P (try_prog (append_state operation state cb) f).
Proof.
  intros He HP Hc Hb Hr Hcb Hf. unfold append_state.
  eapply rg_bind with (Q := fun r _ => True).
  2:{ intros [[]|e]; [exact Hf|]. intros w _ _. apply He. }
  eapply rg_pure_try; [by intros e w|]. intros event Hev. unfold AppendEventBeforeCommit.
  destruct (CARotationStateEvent_ok _ _ _ Hev) as [Hvalid _].
  eapply (judged_quiet s (fun _ => True)); [done|by intros e w|apply yields_look; intros; apply oks_true|].
  intros version _. eapply (judged_quiet s (fun _ => True)); [done|by intros e w| |].
  { eapply yields_bind; [exact Hcb|]. intros r _. apply oks_true. }
  intros _ _. eapply rg_act; [intros; apply stable_const|]. intros env w w' x HI Hw Hop.
  destruct (AppendPinned _ _ _ _ _) as [db r] eqn:Ea. injection Hop as <- <-.
  apply AppendPinned_ok in Ea as [[-> _]|[_ Ha]].
  - replace (with_db w (w_db w)) with w by (by destruct w). by split_and!; [apply guarantees_refl|..].
  - destruct (Hr Hvalid w HI Hw) as [Hh Hrot]. destruct (commit_state s class operation state event w db Hev Hc Hb Hh Hrot Ha HI).
    by split_and!.
Qed.

(** ** The consumers' gate *)

Lemma log_grows s w w' :
  guarantees s w w' \/ relies s w w' -> exists rows, td_log (w_db w') = td_log (w_db w) ++ rows.
Proof. intros [[[(rows & H & _) _] _ _ _ _]|[H _ _ _]]; eauto. Qed.

Lemma omap_grows {A B} (f : A -> option B) l k x : x ∈ omap f l -> x ∈ omap f (l ++ k).
Proof. rewrite omap_app, elem_of_app. by left. Qed.

Lemma trusts_grows class id der r log rows : trusts class id der r log -> trusts class id der r (log ++ rows).
Proof. intros (c & Hc & H). exists c. split; [by apply omap_grows|done]. Qed.

Lemma control_grows class r log rows : control_trusts class r log -> control_trusts class r (log ++ rows).
Proof. intros (c & Hc & H). exists c. split; [by apply omap_grows|done]. Qed.

(** A fact that is there for ever once the log has it. *)
Lemma kept_log s (F : list PKIRow -> Prop) :
  (forall l rows, F l -> F (l ++ rows)) -> kept world_inv (relies s) (guarantees s) (fun w => F (td_log (w_db w))).
Proof. intros HF w w' _ _ H Hl. apply log_grows in H as [rows ->]. by apply HF. Qed.

Lemma framed_log s (F : list PKIRow -> Prop) :
  (forall l rows, F l -> F (l ++ rows)) -> framed s (fun w => F (td_log (w_db w))).
Proof.
  intros HF. split.
  - intros w w' HI HI' HR. by apply (kept_log s F HF w w' HI HI'); right.
  - intros w w' Hq. by rewrite (qu_log _ _ Hq).
Qed.

(** A fact about all certificates in service, under an exclusive lock. *)
Lemma framed_service s class served (F : string -> string -> list PKIRow -> Prop) :
  (forall id der l rows, F id der l -> F id der (l ++ rows)) ->
  framed s (fun w => holds s class false w
                     /\ forall id der, in_service served id der (pk_leaves (w_tables w)) -> F id der (td_log (w_db w))).
Proof.
  intros HF. split.
  - intros w w' HI HI' HR [Hh H]. split; [exact (fr_stable _ _ (framed_holds s class false) w w' HI HI' HR Hh)|].
    intros id der Hs. destruct (re_log _ _ _ HR) as [rows ->]. apply HF, H. by apply (re_service _ _ _ HR class Hh).
  - intros w w' Hq [Hh H]. split; [exact (fr_quiet _ _ (framed_holds s class false) w w' Hq Hh)|].
    intros id der Hs. rewrite (qu_log _ _ Hq). apply H. by eapply in_service_same; [apply Hq|apply Hq|].
Qed.

Lemma ActiveTrustConsumers_all fault class db consumers id der :
  ActiveTrustConsumers fault class db = Ok consumers -> in_service (other_class class) id der (pk_leaves (td_tables db)) ->
  mkTrustConsumer id (other_class class) der ∈ consumers.
Proof.
  unfold ActiveTrustConsumers. intros (u1 & Hv%fail_if_ok%negb_false_iff & H)%bind_ok. apply bind_ok in H as (u2 & _ & H).
  assert (consumers = ListActiveTrustConsumers class (pk_leaves (td_tables db))) as ->.
  { apply map_result_ok in H. induction H as [|x y xs ys Hxy _ IH]; [done|]. rewrite IH. f_equal.
    by apply bind_ok in Hxy as (u & _ & [= <-]). }
  unfold ListActiveTrustConsumers, in_service, other_class. unfold validCertificateClass in Hv.
  destruct (String.eqb_spec class CertificateClassAgent) as [->|Hne]; cbn.
  - intros (g & Hg & Hl & <-). apply list_elem_of_fmap. exists id. rewrite Hg. split; [done|].
    rewrite sort_strings_perm. apply list_elem_of_fmap. exists (id, g). split; [done|]. apply list_elem_of_filter.
    split; [done|]. by apply elem_of_map_to_list.
  - cbn in Hv. rewrite Hv. intros (d & Hd & Hl & <-). apply list_elem_of_fmap. exists id. rewrite Hd. split; [done|].
    rewrite sort_strings_perm. apply list_elem_of_fmap. exists (id, d). split; [done|]. apply list_elem_of_filter.
    split; [done|]. by apply elem_of_map_to_list.
Qed.

(** The snapshot of a rotation, as the gates read it. *)
Definition matches (class : string) (snapshot : AuthoritySnapshot) (r : Rotation) : Prop :=
  as_Class snapshot = class /\ as_Generation snapshot = r_generation r /\ as_Revision snapshot = r_revision r
  /\ as_DesiredRootDER snapshot = desired r.

Lemma HasConsumerTrustState_trusts fault class snapshot r consumer maximum db :
  matches class snapshot r -> ac_ReporterClass consumer = other_class class ->
  HasConsumerTrustState fault (required_receipt snapshot consumer) maximum db = Ok true ->
  trusts class (ac_ReporterID consumer) (ac_ReporterCertificateDER consumer) r (td_log db).
Proof.
  intros (Hc & Hg & Hv & Hd) Ho. unfold HasConsumerTrustState. intros ([payload eventType] & Hp & H)%bind_ok.
  apply bind_ok in H as (u1 & _ & H). unfold answer in H. apply bind_ok in H as (u2 & _ & [= H]).
  apply existsb_exists in H as (c & Hin%list_elem_of_In & Hs). unfold same_trust_state in Hs. rewrite !andb_true_iff in Hs.
  destruct Hs as [[[[[[[[[H1 H2] H3] H4] H5] H6] H7] H8] H9] H10].
  unfold validatedConsumerTrustConfirmation in Hp. apply bind_ok in Hp as (v1 & _ & Hp).
  apply bind_ok in Hp as ([reporterID cert] & Hrep & Hp). apply bind_ok in Hp as (v2 & _ & Hp). apply bind_ok in Hp as (v3 & _ & [= <- <-]).
  assert (reporterID = to_upper (ac_ReporterID consumer)) as ->.
  { unfold validateConfirmationReporter in Hrep. cbn [required_receipt ct_ReporterID ct_ReporterClass ct_ReporterCertificateDER] in Hrep.
    apply bind_ok in Hrep as (x1 & _ & Hrep). apply bind_ok in Hrep as (x2 & _ & Hrep). apply bind_ok in Hrep as (x3 & _ & Hrep).
    apply bind_ok in Hrep as ([x4 x5] & _ & Hrep). by apply bind_ok in Hrep as (x6 & _ & [= <- <-]). }
  cbn [required_receipt ct_ReporterClass ct_ClaimedClass ct_ReporterID ct_ReporterCertificateDER ct_Generation ct_Revision ct_RootFingerprints] in *.
  apply String.eqb_eq in H2, H6. apply Z.eqb_eq in H4, H5. apply bool_decide_eq_true in H7. rewrite Ho in Hin.
  exists c. split; [exact Hin|]. unfold rootFingerprintArrays in H7. split_and!; congruence.
Qed.

Lemma judged_consumers {B} s class snapshot r (P : World -> Prop) (Q : result goerr B -> World -> Prop) f :
  validCertificateClass class = true -> matches class snapshot r -> fails_freely Q -> framed s P ->
  (forall w, P w -> holds s class false w) ->
  judged s Q (fun w => P w /\ consumers_follow class r (w_db w)) (f tt) ->
  judged s Q P (try_prog (requireConsumerConfirmations snapshot) f).
Proof.
  intros Hval Hm HQ HP Hlock Hf. pose proof Hm as (Hc & _). unfold requireConsumerConfirmations. rewrite Hc.
  set (all := fun w => forall id der, in_service (other_class class) id der (pk_leaves (w_tables w)) ->
                       trusts class id der r (td_log (w_db w))).
  eapply rg_bind with (Q := fun res w => match res with
    | Ok _ => P w /\ consumers_follow class r (w_db w) | Err _ => True end).
  2:{ intros [[]|e]; [exact Hf|]. intros w _ _. apply HQ. }
  unfold store_read. eapply judged_look_try with (Q := fun consumers w => P w /\ holds s class false w
    /\ forall id der, in_service (other_class class) id der (pk_leaves (w_tables w)) ->
        mkTrustConsumer id (other_class class) der ∈ consumers).
  - by intros e w.
  - intros consumers. apply framed_and; [done|].
    by apply (framed_service s class (other_class class) (fun id der _ => mkTrustConsumer id (other_class class) der ∈ consumers)).
  - intros env w consumers _ Hp Hq. split; [done|]. split; [by apply Hlock|]. intros id der. by eapply ActiveTrustConsumers_all.
  - intros consumers.
    pose proof (framed_service s class (other_class class)
      (fun id der _ => mkTrustConsumer id (other_class class) der ∈ consumers) (fun _ _ _ _ H => H)) as Hlist.
    pose proof (framed_and s _ _ HP Hlist) as HPl.
    eapply rg_bind with (Q := fun res w => match res with Ok _ => P w /\ all w | Err _ => True end).
    + eapply rg_post; [|apply (rg_each world_inv (relies s) (guarantees s) _
        (fun c w => ac_ReporterClass c = other_class class ->
                    trusts class (ac_ReporterID c) (ac_ReporterCertificateDER c) r (td_log (w_db w))))].
      * intros [u|e] w _; [|done]. intros [(Hp & Hh & Hl) Hall]. split; [exact Hp|].
        intros id der Hs. exact (Hall _ (Hl id der Hs) eq_refl).
      * intros c. apply (kept_log s (fun log => ac_ReporterClass c = other_class class -> trusts _ _ _ r log)).
        intros l rows H Hcl. by apply trusts_grows, H.
      * intros c _. eapply judged_look_try with (Q := fun (found : bool) w => (P w /\ holds s class false w /\
            forall id der, in_service (other_class class) id der (pk_leaves (w_tables w)) ->
            mkTrustConsumer id (other_class class) der ∈ consumers) /\
          (found = true -> ac_ReporterClass c = other_class class ->
           trusts class (ac_ReporterID c) (ac_ReporterCertificateDER c) r (td_log (w_db w)))).
        -- by intros e w.
        -- intros found. apply framed_and; [exact HPl|]. apply (framed_log s (fun log => found = true -> _ -> trusts _ _ _ r log)).
           intros l rows H H1 H2. by apply trusts_grows, H.
        -- intros env w found _ Hp Hq. split; [exact Hp|]. intros -> Hcl. by eapply HasConsumerTrustState_trusts.
        -- intros [] w _ [Hp Ht]; [|done]. split; [exact Hp|]. by apply Ht.
    + intros [u|e]; [|by intros w _ _].
      assert (framed s (fun w => P w /\ all w)) as Hfr.
      { pose proof (framed_and s _ _ HP (framed_service s class (other_class class) (fun id der log => trusts class id der r log)
          ltac:(intros; by apply trusts_grows))) as [F1 F2].
        split; [intros w w' HI HI' HR [Hp Ha]|intros w w' Hq [Hp Ha]].
        - destruct (F1 w w' HI HI' HR) as (? & _ & ?); [by auto|]. by split.
        - destruct (F2 w w' Hq) as (? & _ & ?); [by auto|]. by split. }
      destruct (String.eqb_spec class CertificateClassGateway) as [Hgw|Hgw].
      * eapply judged_look_try with (Q := fun (found : bool) w => (P w /\ all w) /\ (found = true -> control_trusts class r (td_log (w_db w)))).
        -- by intros e w.
        -- intros found. apply framed_and; [done|]. apply (framed_log s (fun log => found = true -> control_trusts class r log)).
           intros l rows H H1. by apply control_grows, H.
        -- intros env w found _ Hp Hq. split; [done|]. intros ->. unfold HasControlTrustConfirmation in Hq.
           apply bind_ok in Hq as (u1 & _ & Hq). unfold answer in Hq. apply bind_ok in Hq as (u2 & _ & [= Hq]).
           apply bool_decide_eq_true in Hq. exists (required_control snapshot). split; [done|].
           destruct Hm as (E1 & E2 & E3 & E4). unfold rootFingerprintArrays. cbn. rewrite E4. by split_and!.
        -- intros [] w _ [[Hp Ha] Ht]; [|done]. split; [done|]. split; [exact Ha|]. intros _. by apply Ht.
      * intros w _ [Hp Ha]. split; [done|]. split; [exact Ha|]. by intros ?.
Qed.

(** ** The leaves' gate *)

Lemma judged_lift_bind {A B} s (Q : A -> World -> Prop) (Q' : B -> World -> Prop) P (p : prog PKIEnv PKIDB A) f :
  judged s Q P (lift_store p) -> (forall a, judged s Q' (Q a) (lift_store (f a))) ->
  judged s Q' P (lift_store (bind_prog p f)).
Proof.
  unfold judged. revert P. induction p as [a|X op k IH]; intros P Hp Hf; cbn in *.
  - eapply rg_weaken; [|apply Hf]. exact Hp.
  - intros env w w' x HI HP Hop. destruct (Hp env w w' x HI HP Hop) as (HR & HI' & P' & Hst & HP' & Hk). eauto 10.
Qed.

Lemma judged_lift_try {A B} s (Q : A -> World -> Prop) (Q' : result goerr B -> World -> Prop) P
    (p : prog PKIEnv PKIDB (result goerr A)) f :
  fails_freely Q' -> judged s (fun r w => match r with Ok a => Q a w | Err _ => True end) P (lift_store p) ->
  (forall a, judged s Q' (Q a) (lift_store (f a))) -> judged s Q' P (lift_store (try_prog p f)).
Proof. intros He Hp Hf. eapply judged_lift_bind; [exact Hp|]. intros [a|e]; [apply Hf|]. intros w _ _. apply He. Qed.

Lemma with_db_same w : with_db w (w_db w) = w.
Proof. by destruct w. Qed.

Lemma judged_lift_look {X} s (q : PKIEnv -> PKIDB -> result goerr X) (Q : X -> World -> Prop) P :
  (forall x, framed s (Q x)) -> (forall env w x, world_inv w -> P w -> q env (w_db w) = Ok x -> Q x w) ->
  judged s (fun r w => match r with Ok x => Q x w | Err _ => True end) P (lift_store (look q)).
Proof.
  intros Hf Hq env w w' x HI HP Hop. cbn in Hop. rewrite with_db_same in Hop. injection Hop as <- <-.
  split; [apply guarantees_refl|]. split; [done|].
  exists (fun w1 => match q env (w_db w) with Ok x => Q x w1 | Err _ => True end).
  destruct (q env (w_db w)) as [x|e] eqn:E.
  - split; [apply Hf|]. split; [by eapply Hq|]. by intros w1 _ H.
  - split; [apply stable_const|]. split; [done|]. by intros w1 _ H.
Qed.

(** The rows of a report and their entries. *)
Lemma judged_lift_map {X Y} s (f : X -> TrustProg Y) (R : X -> Y -> list PKIRow -> Prop) P l :
  (forall x y l rows, R x y l -> R x y (l ++ rows)) ->
  (forall x, x ∈ l -> judged s (fun r w => match r with Ok y => P w /\ R x y (td_log (w_db w)) | Err _ => True end) P (lift_store (f x))) ->
  judged s (fun r w => match r with Ok ys => P w /\ Forall2 (fun x y => R x y (td_log (w_db w))) l ys | Err _ => True end) P
    (lift_store (map_prog f l)).
Proof.
  intros HR. induction l as [|x l IH]; intros Hf; cbn [map_prog]; [by intros w _ Hp; split|].
  eapply judged_lift_try with (Q := fun y w => P w /\ R x y (td_log (w_db w))).
  - by intros e w.
  - apply Hf. left.
  - intros y. eapply judged_lift_try with (Q := fun ys w => (P w /\ Forall2 (fun x y => R x y (td_log (w_db w))) l ys) /\ R x y (td_log (w_db w))).
    + by intros e w.
    + eapply rg_post; [|apply (rg_frame world_inv (relies s) (guarantees s) (fun w => R x y (td_log (w_db w)))); [|apply IH]].
      * intros [ys|e] w _ [H1 H2]; done.
      * apply (kept_log s (R x y)), HR.
      * intros z Hz. apply Hf. by right.
    + intros ys w _ [[Hp Hl] Hx]. split; [done|by constructor].
Qed.

(** A leaf that has followed to the successor. *)
Definition leaf_follows (class successor : string) (r : Rotation) (id der : string) (log : list PKIRow) : Prop :=
  (exists certificate root, ParseCertificate der = Some certificate /\ Raw certificate = der
     /\ parseExactCertificate successor = Ok root /\ CheckSignatureFrom certificate root = true)
  /\ exists c, c ∈ leaf_receipts id (leaf_event_type class) log
       /\ lt_CertificateClass c = class /\ lt_ReporterID c = id /\ lt_ReporterCertificateDER c = der
       /\ lt_Generation c = r_generation r /\ lt_IssuerFingerprint c = Sum256 successor.

Lemma leaf_follows_grows class successor r id der l rows :
  leaf_follows class successor r id der l -> leaf_follows class successor r id der (l ++ rows).
Proof. intros (H & c & Hc & Hd). split; [done|]. exists c. split; [by apply omap_grows|done]. Qed.

(** What an entry says of its row. *)
Definition entry_of (class successor : string) (r : Rotation) (row : LeafEntry) (e : CAMigrationReportEntry)
    (log : list PKIRow) : Prop :=
  me_ReporterID e = le_ReporterID row
  /\ (le_LifecycleState row <> "revoked"%string -> me_Status e <> CAMigrationStatusRevoked)
  /\ (me_Status e = CAMigrationStatusSuccessorConfirmed ->
      leaf_follows class successor r (le_ReporterID row) (le_CertificateDer row) log).

Lemma entry_of_grows class successor r row e l rows :
  entry_of class successor r row e l -> entry_of class successor r row e (l ++ rows).
Proof. intros (H1 & H2 & H3). split; [done|]. split; [done|]. intros H. by apply leaf_follows_grows, H3. Qed.

Lemma judged_classify s query r row current root (P : World -> Prop) :
  framed s P -> mq_Generation query = r_generation r ->
  parseExactCertificate (mq_SuccessorRootDER query) = Ok root ->
  mq_SuccessorIssuerFingerprint query = Sum256 (mq_SuccessorRootDER query) ->
  judged s (fun res w => match res with
    | Ok e => P w /\ entry_of (mq_CertificateClass query) (mq_SuccessorRootDER query) r row e (td_log (w_db w))
    | Err _ => True end) P
    (lift_store (try_prog (classifyCAMigrationEntry query row current root) (fun status =>
       Ret (Ok (mkCAMigrationReportEntry (le_ReporterID row) (le_CertificateDer row) status))))).
Proof.
  intros HP Hg Hroot Hfp. unfold classifyCAMigrationEntry.
  destruct (String.eqb_spec (le_LifecycleState row) "revoked") as [Hrev|Hrev].
  { intros w _ Hp. split; [done|]. split_and!; [done|by intros ?|done]. }
  destruct (ParseCertificate (le_CertificateDer row)) as [certificate|] eqn:Ep.
  2:{ intros w _ Hp. split; [done|]. by split_and!. }
  destruct (String.eqb_spec (Raw certificate) (le_CertificateDer row)) as [Hraw|Hraw]; cbn [negb].
  2:{ intros w _ Hp. split; [done|]. by split_and!. }
  destruct (CheckSignatureFrom certificate root) eqn:Es.
  2:{ destruct (CheckSignatureFrom certificate current); intros w _ Hp; (split; [done|]); by split_and!. }
  eapply judged_lift_try with (Q := fun status w => P w /\ entry_of (mq_CertificateClass query) (mq_SuccessorRootDER query) r row
      (mkCAMigrationReportEntry (le_ReporterID row) (le_CertificateDer row) status) (td_log (w_db w))).
  - by intros e w.
  - eapply judged_lift_try with (Q := fun (confirmed : bool) w => P w /\ (confirmed = true ->
      leaf_follows (mq_CertificateClass query) (mq_SuccessorRootDER query) r (le_ReporterID row) (le_CertificateDer row) (td_log (w_db w)))).
    + by intros e w.
    + apply judged_lift_look.
      * intros confirmed. apply framed_and; [done|]. apply (framed_log s (fun log => confirmed = true -> leaf_follows _ _ r _ _ log)).
        intros l rows H Hc. by apply leaf_follows_grows, H.
      * intros env w confirmed _ Hp Hq. split; [done|]. intros ->. unfold answer in Hq.
        apply bind_ok in Hq as (u & _ & [= Hq]). apply existsb_exists in Hq as (c & Hin%list_elem_of_In & Hc).
        rewrite !andb_true_iff in Hc. destruct Hc as [[[[H1%String.eqb_eq H2%String.eqb_eq] H3%Z.eqb_eq] H4%String.eqb_eq] H5%String.eqb_eq].
        split; [by exists certificate, root|]. exists c. split; [done|]. split_and!; congruence.
    + intros confirmed w _ [Hp Hf]. split; [done|]. split_and!; [done|by destruct confirmed|]. destruct confirmed; [|done].
      intros _. by apply Hf.
  - intros status w _ H. exact H.
Qed.

(** *** Pages *)

Lemma ltb_of_le x y : String.le x y -> x <> y -> String.ltb x y = true.
Proof.
  unfold String.le, String.leb, String.ltb. destruct (String.compare x y) eqn:E; [|done|done].
  intros _ Hne. by apply String.compare_eq_iff in E.
Qed.

(** In a sorted list without duplicates, what is not beyond the last element
    of a page is on the page. *)
Lemma sorted_page n l x y :
  StronglySorted String.le l -> NoDup l -> x ∈ l -> last (take n l) = Some y -> String.ltb y x = false -> x ∈ take n l.
Proof.
  intros Hs Hd Hx Hy Hlt. rewrite <- (take_drop n l) in Hx. apply elem_of_app in Hx as [Hx|Hx]; [done|].
  exfalso. apply last_Some_elem_of in Hy. rewrite <- (take_drop n l) in Hs, Hd. apply NoDup_app in Hd as (_ & Hd & _).
  assert (String.le y x) as Hle.
  { clear Hd Hlt. induction (take n l) as [|z k IH]; cbn in *; [by apply elem_of_nil in Hy|].
    apply StronglySorted_inv in Hs as [Hs Hall]. apply elem_of_cons in Hy as [->|Hy]; [|by apply IH].
    rewrite Forall_forall in Hall. apply Hall, elem_of_app. by right. }
  assert (y <> x) as Hne by (intros ->; by eapply Hd). by rewrite (ltb_of_le y x Hle Hne) in Hlt.
Qed.

Definition canonical_key (id : string) : Prop := to_upper id = id /\ id <> ""%string.

Lemma elem_of_keys_after {A} cursor (m : gmap string A) id :
  id ∈ keys_after cursor m <-> String.ltb cursor id = true /\ is_Some (m !! id).
Proof.
  unfold keys_after. rewrite sort_strings_perm, list_elem_of_filter. apply and_iff_compat_l. rewrite list_elem_of_fmap. split.
  - intros ([k v] & -> & Hin). apply elem_of_map_to_list in Hin. by exists v.
  - intros [v Hv]. exists (id, v). split; [done|]. by apply elem_of_map_to_list.
Qed.

Lemma omap_keys {A} (f : string -> A -> LeafEntry) (m : gmap string A) keys :
  (forall id v, le_ReporterID (f id v) = id) -> Forall (fun id => is_Some (m !! id)) keys ->
  le_ReporterID <$> omap (fun id => f id <$> m !! id) keys = keys.
Proof.
  intros Hf Hk. induction Hk as [|id keys [v Hv] _ IH]; [done|]. cbn. rewrite Hv. cbn. by rewrite Hf, IH.
Qed.

Lemma keys_after_sorted {A} cursor (m : gmap string A) :
  StronglySorted String.le (keys_after cursor m) /\ NoDup (keys_after cursor m).
Proof.
  split; [apply sort_strings_sorted|]. unfold keys_after. rewrite sort_strings_perm.
  apply NoDup_filter, NoDup_fst_map_to_list.
Qed.

Lemma report_rows_keys class cursor t :
  StronglySorted String.le (le_ReporterID <$> report_rows class cursor t) /\ NoDup (le_ReporterID <$> report_rows class cursor t)
  /\ (forall row, row ∈ report_rows class cursor t ->
        is_Some (lf_devices t !! le_ReporterID row) \/ is_Some (lf_gateways t !! le_ReporterID row)).
Proof.
  unfold report_rows. case_match; [|case_match]; [..|by split_and!; [constructor|constructor|intros row Hr; apply elem_of_nil in Hr]].
  1: rewrite (omap_keys (fun id d => mkLeafEntry id (dr_CertificateDer d) (dr_LifecycleState d)));
    [|done|apply Forall_forall; intros id Hid%elem_of_keys_after; by destruct Hid].
  2: rewrite (omap_keys (fun id g => mkLeafEntry id (gt_CertificateDer g) (gt_LifecycleState g)));
    [|done|apply Forall_forall; intros id Hid%elem_of_keys_after; by destruct Hid].
  all: split; [apply keys_after_sorted|]; split; [apply keys_after_sorted|].
  all: intros row (id & Hid & Hrow)%list_elem_of_omap; apply elem_of_keys_after in Hid as [_ Hs];
    apply fmap_Some in Hrow as (v & Hv & ->); cbn; rewrite Hv; eauto.
Qed.

Lemma report_rows_in class cursor t id der :
  validCertificateClass class = true -> in_service class id der t -> String.ltb cursor id = true ->
  exists lifecycle, lifecycle <> "revoked"%string /\ mkLeafEntry id der lifecycle ∈ report_rows class cursor t.
Proof.
  unfold in_service, report_rows, validCertificateClass. intros Hv Hs Hlt.
  destruct (String.eqb class CertificateClassAgent); [|cbn in Hv; rewrite Hv].
  - destruct Hs as (d & Hd & Hl & <-). exists (dr_LifecycleState d). split; [done|]. apply list_elem_of_omap. exists id.
    rewrite Hd. split; [|done]. by apply elem_of_keys_after.
  - destruct Hs as (g & Hg & Hl & <-). exists (gt_LifecycleState g). split; [done|]. apply list_elem_of_omap. exists id.
    rewrite Hg. split; [|done]. by apply elem_of_keys_after.
Qed.

(** What one page of rows says of the certificates in service. *)
Definition listed (n : nat) (rows : list LeafEntry) (cursor id der : string) : Prop :=
  String.ltb cursor id = true ->
  (length rows <= n)%nat \/ (exists row, last (take n rows) = Some row /\ String.ltb (le_ReporterID row) id = false) ->
  exists lifecycle, lifecycle <> "revoked"%string /\ mkLeafEntry id der lifecycle ∈ take n rows.

Lemma listed_page n class cursor t id der :
  validCertificateClass class = true -> in_service class id der t -> listed n (take (S n) (report_rows class cursor t)) cursor id der.
Proof.
  intros Hv Hs Hlt Hpage. destruct (report_rows_in class cursor t id der Hv Hs Hlt) as (l & Hl & Hin). exists l. split; [done|].
  rewrite take_take, Nat.min_l in * by lia. destruct Hpage as [Hlen|(row & Hrow & Hle)].
  - rewrite length_take in Hlen. rewrite take_ge by lia. done.
  - destruct (report_rows_keys class cursor t) as (Hso & Hnd & _).
    assert (id ∈ take n (le_ReporterID <$> report_rows class cursor t)) as Hid.
    { eapply (sorted_page n _ id (le_ReporterID row)); [done|done| | |done].
      - apply list_elem_of_fmap. by eexists (mkLeafEntry id der l).
      - by rewrite <- fmap_take, fmap_last, Hrow. }
    rewrite <- fmap_take in Hid. apply list_elem_of_fmap in Hid as (row' & Heq & Hrow').
    assert (row' = mkLeafEntry id der l) as ->; [|done].
    apply list_elem_of_lookup in Hin as [i Hi], Hrow' as [j Hj]. apply lookup_take_Some in Hj as [Hj _].
    assert (i = j) as ->; [|congruence]. eapply NoDup_lookup; [exact Hnd| |]; rewrite list_lookup_fmap; [by rewrite Hi|by rewrite Hj, Heq].
Qed.

Lemma validate_query_ok query current successor :
  validateCAMigrationReportQuery query = Ok (current, successor) ->
  validCertificateClass (mq_CertificateClass query) = true /\ 0 < mq_Limit query <= 500
  /\ parseExactCertificate (mq_SuccessorRootDER query) = Ok successor
  /\ mq_SuccessorIssuerFingerprint query = Sum256 (mq_SuccessorRootDER query).
Proof.
  unfold validateCAMigrationReportQuery. intros (u1 & Hc%fail_if_ok%negb_false_iff & H)%bind_ok. apply bind_ok in H as (u2 & _ & H).
  apply bind_ok in H as (u3 & Hl%fail_if_ok & H). apply bind_ok in H as (u4 & _ & H). apply bind_ok in H as (u5 & _ & H).
  apply bind_ok in H as (c & _ & H). apply bind_ok in H as (s & Hs & [= <- <-]).
  unfold validateReportRoot in Hs. apply bind_ok in Hs as (root & Hp%or_err_ok & Hs). apply bind_ok in Hs as (u6 & Hr%fail_if_ok & Hs).
  apply bind_ok in Hs as (u7 & Hf%fail_if_ok%negb_false_iff%String.eqb_eq & [= <-]).
  apply orb_false_iff in Hr as [[Hr%negb_false_iff _]%orb_false_iff _]. apply orb_false_iff in Hl as [Hl1%Z.leb_gt Hl2%Z.ltb_ge].
  unfold MaxCAMigrationReportPageSize in Hl2. split_and!; [done|lia|lia| |done].
  unfold parseExactCertificate. rewrite Hp. cbn. by rewrite Hr.
Qed.

(** The entries of a page cover the certificates in service up to the page's
    end. *)
Definition page_covers (class successor : string) (r : Rotation) (page : CAMigrationReportPage) (cursor id der : string)
    (log : list PKIRow) : Prop :=
  String.ltb cursor id = true ->
  mp_NextCursor page = ""%string \/ String.ltb (mp_NextCursor page) id = false ->
  exists e, e ∈ mp_Entries page /\ me_Status e <> CAMigrationStatusRevoked
    /\ (me_Status e = CAMigrationStatusSuccessorConfirmed -> leaf_follows class successor r id der log).

Lemma page_of_rows class successor r n rows entries cursor id der log :
  (0 < n)%nat -> (forall row, row ∈ rows -> canonical_key (le_ReporterID row)) -> (length rows <= S n)%nat ->
  Forall2 (fun row e => entry_of class successor r row e log) rows entries -> listed n rows cursor id der ->
  page_covers class successor r
    (if Z.of_nat n <? zlen entries
     then mkCAMigrationReportPage (take n entries) (from_option me_ReporterID ""%string (last (take n entries)))
     else mkCAMigrationReportPage entries ""%string) cursor id der log.
Proof.
  intros Hn Hkeys Hlen Hall Hlist Hlt. pose proof (Forall2_length _ _ _ Hall) as Hl. unfold zlen.
  assert (Htake : forall row, row ∈ take n rows -> le_LifecycleState row <> "revoked"%string ->
            le_ReporterID row = id -> le_CertificateDer row = der ->
            exists e, e ∈ take n entries /\ me_Status e <> CAMigrationStatusRevoked
              /\ (me_Status e = CAMigrationStatusSuccessorConfirmed -> leaf_follows class successor r id der log)).
  { intros row [i Hi]%list_elem_of_lookup Hs <- <-. pose proof (Forall2_take _ _ _ n Hall) as Ht.
    destruct (Forall2_lookup_l _ _ _ _ _ Ht Hi) as (e & He & _ & H1 & H2). exists e. split; [by eapply list_elem_of_lookup_2|]. eauto. }
  destruct (Z.ltb_spec (Z.of_nat n) (Z.of_nat (length entries))) as [Hmore|Hless]; cbn [mp_Entries mp_NextCursor].
  - assert (exists row, last (take n rows) = Some row) as [row Hrow].
    { apply last_is_Some. intros Hnil. apply (f_equal length) in Hnil. rewrite length_take in Hnil. cbn in Hnil. lia. }
    pose proof (Forall2_take _ _ _ n Hall) as Ht. pose proof (Forall2_last _ _ _ Ht) as Hlast. rewrite Hrow in Hlast.
    inversion Hlast as [? e (Heq & _) He|]; subst. cbn [from_option]. rewrite Heq.
    intros Hend. assert (row ∈ rows) as Hin by (apply (subseteq_take n), last_Some_elem_of, Hrow).
    destruct (Hkeys row Hin) as [_ Hne]. destruct Hend as [Hend|Hend]; [done|].
    destruct (Hlist Hlt) as (l & Hl1 & Hl2); [right; by exists row|]. by apply (Htake _ Hl2).
  - intros _. destruct (Hlist Hlt) as (l & Hl1 & Hl2); [left; lia|]. destruct (Htake _ Hl2 Hl1 eq_refl eq_refl) as (e & He & H).
    exists e. split; [|done]. by rewrite take_ge in He by lia.
Qed.

Lemma canonical_keys w class cursor row :
  world_inv w -> row ∈ report_rows class cursor (pk_leaves (w_tables w)) -> canonical_key (le_ReporterID row).
Proof.
  intros [_ _ HK] Hrow. destruct (report_rows_keys class cursor (pk_leaves (w_tables w))) as (_ & _ & Hin).
  destruct (HK _ (Hin row Hrow)) as [Hid Hup]. split; [done|]. intros Heq. by rewrite Heq in Hid.
Qed.

Lemma page_covers_grows class successor r page cursor id der l rows :
  page_covers class successor r page cursor id der l -> page_covers class successor r page cursor id der (l ++ rows).
Proof.
  intros H Hlt Hend. destruct (H Hlt Hend) as (e & He & Hr & Hc). exists e. split; [done|]. split; [done|].
  intros H1. by apply leaf_follows_grows, Hc.
Qed.

(** A page under an exclusive lock. *)
Definition page_known (s : nat) (class successor : string) (r : Rotation) (page : CAMigrationReportPage) (cursor : string)
    (w : World) : Prop :=
  holds s class false w /\ forall id der, in_service class id der (pk_leaves (w_tables w)) ->
    page_covers class successor r page cursor id der (td_log (w_db w)).

Definition cursor_known (page : CAMigrationReportPage) : Prop :=
  mp_NextCursor page = ""%string \/ canonical_key (mp_NextCursor page).

Lemma judged_report s class successor r query (P : World -> Prop) :
  framed s P -> (forall w, P w -> holds s class false w) ->
  mq_CertificateClass query = class -> mq_SuccessorRootDER query = successor -> mq_Generation query = r_generation r ->
  to_upper (mq_Cursor query) = mq_Cursor query ->
  judged s (fun res w => match res with
    | Ok page => (P w /\ cursor_known page) /\ page_known s class successor r page (mq_Cursor query) w
    | Err _ => True end) P (lift_store (CAMigrationReport query)).
Proof.
  intros HP Hh <- <- Hg Hup. unfold CAMigrationReport.
  eapply judged_lift_try with (Q := fun v w => validateCAMigrationReportQuery query = Ok v /\ P w).
  { by intros e w. }
  { intros w _ Hp. by destruct (validateCAMigrationReportQuery query). }
  intros [current root]. apply rg_pure_pre. intros (Hv & Hlim & Hroot & Hfp)%validate_query_ok.
  set (n := Z.to_nat (mq_Limit query)). set (class := mq_CertificateClass query) in *.
  eapply judged_lift_try with (Q := fun rows w =>
    ((forall row, row ∈ rows -> canonical_key (le_ReporterID row)) /\ (length rows <= S n)%nat) /\
    (P w /\ holds s class false w /\ forall id der, in_service class id der (pk_leaves (w_tables w)) ->
       listed n rows (mq_Cursor query) id der)).
  { by intros e w. }
  { apply judged_lift_look.
    - intros rows. apply framed_and; [apply framed_const|]. apply framed_and; [done|].
      by apply (framed_service s class class (fun id der _ => listed n rows (mq_Cursor query) id der)).
    - intros env w rows HI Hp Hq. unfold answer in Hq. apply bind_ok in Hq as (u & _ & [= <-]).
      rewrite Hup. unfold ListCAMigrationReportEntries. replace (wrap_s 32 (mq_Limit query + 1)) with (mq_Limit query + 1)
        by (symmetry; apply wrap_s_id; lia).
      replace (Z.to_nat (mq_Limit query + 1)) with (S n) by lia. split_and!.
      + intros row Hrow. eapply canonical_keys; [done|]. by eapply (subseteq_take (S n)).
      + rewrite length_take. lia.
      + done.
      + by apply Hh.
      + intros id der Hs. by apply listed_page. }
  intros rows. apply rg_pure_pre. intros [Hkeys Hlen].
  pose proof (framed_service s class class (fun id der _ => listed n rows (mq_Cursor query) id der) (fun _ _ _ _ H => H)) as Hfr.
  pose proof (framed_and s _ _ HP Hfr) as HPl.
  eapply judged_lift_try; [by intros e w|apply (judged_lift_map s _ (entry_of class (mq_SuccessorRootDER query) r))|].
  - apply entry_of_grows.
  - intros row _. by apply (judged_classify s query r row current root).
  - intros entries w _ [(Hp & Hl & Hlist) Hall]. pose proof (Forall2_length _ _ _ Hall) as Hlen2.
    replace (mq_Limit query) with (Z.of_nat n) by lia. split.
    + split; [done|]. unfold cursor_known. destruct (Z.ltb_spec (Z.of_nat n) (zlen entries)) as [Hmore|]; [|by left]. right. cbn [mp_NextCursor].
      destruct (last (take n entries)) as [e|] eqn:El.
      2:{ apply last_None, (f_equal length) in El. rewrite length_take in El. cbn in El. unfold zlen in Hmore. lia. }
      apply last_Some_elem_of, (subseteq_take n), list_elem_of_lookup in El as [i Hi].
      destruct (Forall2_lookup_r _ _ _ _ _ Hall Hi) as (row & Hrow & Heq & _). cbn. rewrite Heq.
      apply Hkeys. by eapply list_elem_of_lookup_2.
    + split; [done|]. intros id der Hs. eapply page_of_rows; [lia|done|done|done|by apply Hlist].
Qed.

Lemma check_entries_ok entries e :
  check_entries entries = Ok tt -> e ∈ entries -> me_Status e <> CAMigrationStatusRevoked ->
  me_Status e = CAMigrationStatusSuccessorConfirmed.
Proof.
  unfold check_entries. destruct (find _ entries) eqn:E; [done|]. intros _ Hin%list_elem_of_In Hr.
  pose proof (find_none _ _ E e Hin) as H. cbn in H.
  destruct (String.eqb_spec (me_Status e) CAMigrationStatusSuccessorConfirmed); [done|].
  by destruct (String.eqb_spec (me_Status e) CAMigrationStatusRevoked).
Qed.

(** What the pages up to a cursor have shown, under an exclusive lock. *)
Definition shown (s : nat) (class successor : string) (r : Rotation) (upto : string -> Prop) (w : World) : Prop :=
  holds s class false w /\ forall id der, in_service class id der (pk_leaves (w_tables w)) -> upto id ->
    leaf_follows class successor r id der (td_log (w_db w)).

Lemma framed_shown s class successor r upto : framed s (shown s class successor r upto).
Proof.
  apply (framed_service s class class (fun id der log => upto id -> leaf_follows class successor r id der log)).
  intros id der l rows H Hu. by apply leaf_follows_grows, H.
Qed.

Lemma page_shown s class successor r page cursor w :
  check_entries (mp_Entries page) = Ok tt -> page_known s class successor r page cursor w ->
  shown s class successor r (fun id => String.ltb cursor id = false) w ->
  shown s class successor r (fun id => mp_NextCursor page = ""%string \/ String.ltb (mp_NextCursor page) id = false) w.
Proof.
  intros Hc [Hh Hp] [_ Hs]. split; [done|]. intros id der Hin Hend. destruct (String.ltb cursor id) eqn:Elt; [|by apply Hs].
  destruct (Hp id der Hin Elt Hend) as (e & He & Hr & Hf). by apply Hf, (check_entries_ok _ _ Hc He).
Qed.

Lemma judged_pages s class successor r fuel query (P : World -> Prop) :
  framed s P -> (forall w, P w -> holds s class false w) ->
  mq_CertificateClass query = class -> mq_SuccessorRootDER query = successor -> mq_Generation query = r_generation r ->
  to_upper (mq_Cursor query) = mq_Cursor query ->
  judged s (fun res w => match res with Ok _ => P w /\ shown s class successor r (fun _ => True) w | Err _ => True end)
    (fun w => P w /\ shown s class successor r (fun id => String.ltb (mq_Cursor query) id = false) w)
    (migration_pages fuel query).
Proof.
  intros HP Hh. revert query. induction fuel as [|fuel IH]; intros query Hc Hs Hg Hup; cbn [migration_pages]; [by intros w _ _|].
  set (here := shown s class successor r (fun id => String.ltb (mq_Cursor query) id = false)).
  pose proof (framed_and s _ _ HP (framed_shown s class successor r (fun id => String.ltb (mq_Cursor query) id = false))) as HPh.
  eapply rg_try; [apply (judged_report s class successor r query _ HPh)|]; [|done..|].
  { intros w [Hp _]. by apply Hh. }
  intros page. eapply rg_pure_try; [by intros e w|]. intros [] Hentries.
  eapply rg_weaken with (P := fun w => cursor_known page /\ (P w /\ shown s class successor r
      (fun id => mp_NextCursor page = ""%string \/ String.ltb (mp_NextCursor page) id = false) w)).
  { intros w _ [[[Hp Hsh] Hck] Hpk]. split; [done|]. split; [done|]. by eapply page_shown. }
  apply rg_pure_pre. intros Hck. destruct (String.eqb_spec (mp_NextCursor page) "") as [Hend|Hend].
  - intros w _ [Hp [Hl Hf]]. split; [done|]. split; [done|]. intros id der Hin _. apply Hf; [done|by left].
  - destruct Hck as [|[Hcan _]]; [done|]. eapply rg_weaken; [|apply (IH (with_cursor query (mp_NextCursor page))); done].
    intros w _ [Hp [Hl Hf]]. split; [done|]. split; [done|]. intros id der Hin Hle. apply Hf; [done|by right].
Qed.

Lemma leaves_follow_shown s class successor r w :
  shown s class successor r (fun _ => True) w <-> holds s class false w /\ leaves_follow class successor r (w_db w).
Proof.
  unfold shown, leaves_follow, leaf_follows, w_tables. split; intros [H1 H2]; (split; [done|]); intros id der Hin; [by apply H2|].
  intros _. by apply H2.
Qed.

Lemma in_service_key w class id der : world_inv w -> in_service class id der (pk_leaves (w_tables w)) -> canonical_key id.
Proof.
  intros [_ _ HK] Hs. assert (ULIDPathID id = Ok tt /\ to_upper id = id) as [Hid Hup].
  { apply HK. unfold in_service in Hs. case_match; [left|right]; destruct Hs as (v & -> & _); eauto. }
  split; [done|]. intros ->. done.
Qed.

Lemma judged_leaves {B} s fuel class snapshot root successor r (P : World -> Prop) (Q : result goerr B -> World -> Prop) f :
  matches class snapshot r -> as_DesiredRootDER snapshot = [root; successor] -> as_SuccessorRootDER snapshot = successor ->
  fails_freely Q -> framed s P -> (forall w, P w -> holds s class false w) ->
  judged s Q (fun w => P w /\ leaves_follow class successor r (w_db w)) (f tt) ->
  judged s Q P (try_prog (requireLeafMigration fuel snapshot) f).
Proof.
  intros (Hc & Hg & _ & _) Hd Hs HQ HP Hlock Hf. unfold requireLeafMigration. case_match; [intros w _ _; apply HQ|].
  eapply rg_bind with (Q := fun res w => match res with
    | Ok _ => P w /\ shown s class successor r (fun _ => True) w | Err _ => True end).
  - eapply rg_weaken; [|apply (judged_pages s class successor r fuel (migration_query snapshot) P HP Hlock)]; try done.
    intros w HI Hp. split; [done|]. split; [by apply Hlock|]. intros id der Hin Hle.
    destruct (in_service_key w class id der HI Hin) as [_ Hne]. cbn in Hle. by destruct id.
  - intros [[]|e]; [|intros w _ _; apply HQ]. eapply rg_weaken; [|exact Hf].
    intros w _ [Hp Hsh]. split; [done|]. by apply leaves_follow_shown in Hsh as [_ ?].
Qed.
End Spec.
