(* ===== verification/RotationProof.v ===== *)
(** * Every call of the rotation manager refines the machine

    Each operation starts from a snapshot taken under its fence, passes its
    gate, and commits one edge of the continuity graph; receipts are compared
    with the durable rotation under a shared fence. *)

From Stdlib Require Import Ascii String ZArith Lia.
From S2P Require Export RotationGates.

Section Spec.
Context {x509 : X509} {schemes : Schemes} {x509crl : X509CRL} {x25519 : X25519}.

(** ** The operations *)

(** What a snapshot tells of a rotation. *)
Record describes (class : string) (snapshot : AuthoritySnapshot) (r : Rotation) : Prop := {
  de_matches : matches class snapshot r;
  de_issuing : as_IssuingRootDER snapshot = issuing r;
  de_phase : match r_phase r with
             | Stable => as_Phase snapshot = RotationPhaseStable
             | Trusting s => as_Phase snapshot = RotationPhaseTrust /\ as_SuccessorRootDER snapshot = s
                             /\ (len s =? 0) = false
             | Withdrawing _ => as_Phase snapshot = RotationPhaseTrust /\ as_SuccessorRootDER snapshot = ""%string
             | Migrating s => as_Phase snapshot = RotationPhaseMigrate /\ as_SuccessorRootDER snapshot = s
             | Retiring s => as_Phase snapshot = RotationPhaseRetire
             end;
}.

(** The rotation a class is at: durable, or the one it starts with. *)
Definition started (r : Rotation) (row : option RotationRow) : Prop :=
  match row with
  | Some row => r = abs (ro_State row)
  | None => exists root, r = mkRotation root Stable 1 1
  end.

Definition in_range (r : Rotation) : Prop := 0 <= r_generation r < 2 ^ 64 /\ 0 <= r_revision r < 2 ^ 64.

Lemma valid_phase state :
  validateCARotationState state = Ok tt ->
  cs_Phase state = RotationPhaseStable \/ cs_Phase state = RotationPhaseTrust \/ cs_Phase state = RotationPhaseMigrate
  \/ cs_Phase state = RotationPhaseRetire.
Proof.
  unfold validateCARotationState. intros H. repeat (apply bind_ok in H as (? & _ & H)).
  destruct (String.eqb_spec (cs_Phase state) "stable"); [by left|].
  destruct (String.eqb_spec (cs_Phase state) "trust"); [by right; left|].
  destruct (String.eqb_spec (cs_Phase state) "migrate"); [by do 2 right; left|].
  destruct (String.eqb_spec (cs_Phase state) "retire"); [by do 3 right|done].
Qed.

(** A snapshot, but for the required and the published list. *)
Definition drop_crl (s : AuthoritySnapshot) : AuthoritySnapshot :=
  mkAuthoritySnapshot (as_Class s) (as_Phase s) (as_Generation s) (as_Revision s) (as_DesiredRootDER s)
    (as_IssuingRootDER s) (as_SuccessorRootDER s) (as_PredecessorRootDER s) (as_TransitionCertificateDER s) "" 0 0.

Lemma describes_drop class s r : describes class (drop_crl s) r -> describes class s r.
Proof. by intros [H1 H2 H3]. Qed.

Lemma snapshot_describes state snapshot :
  (cs_Phase state = RotationPhaseStable \/ cs_Phase state = RotationPhaseTrust \/ cs_Phase state = RotationPhaseMigrate
   \/ cs_Phase state = RotationPhaseRetire) ->
  snapshot_for state snapshot -> describes (cs_CertificateClass state) snapshot (abs state).
Proof.
  intros Hp (s & Hs & Hsn). apply describes_drop.
  assert (drop_crl snapshot = drop_crl s) as -> by (destruct Hsn as [->|[q ->]]; done). clear snapshot Hsn.
  unfold snapshot_of in Hs. destruct Hp as [Hp|[Hp|[Hp|Hp]]]; rewrite Hp in Hs; cbn in Hs.
  - destruct (_ && _); injection Hs as <-; (split; [split_and!|..]; unfold desired, issuing, abs; rewrite ?Hp; done).
  - destruct (len (cs_SuccessorRootDER state) =? 0) eqn:El; destruct (_ && _); injection Hs as <-;
      (split; [split_and!|..]; unfold desired, issuing, abs; rewrite ?Hp, ?El; done).
  - destruct (_ && _); injection Hs as <-; (split; [split_and!|..]; unfold desired, issuing, abs; rewrite ?Hp; done).
  - destruct (_ && _); injection Hs as <-; (split; [split_and!|..]; unfold desired, issuing, abs; rewrite ?Hp; done).
Qed.

Lemma observed_describes class snapshot row :
  observed class snapshot row -> exists r, describes class snapshot r /\ started r row.
Proof.
  intros (state & Hd & Hs). destruct row as [row|]; cbn in Hd.
  - destruct Hd as (-> & Hv & Hc). exists (abs (ro_State row)). split; [|done].
    rewrite <- Hc. exact (snapshot_describes (with_version (ro_State row) (ro_Version row)) snapshot (valid_phase _ Hv) Hs).
  - destruct Hd as [root ->]. eexists. split; [apply (snapshot_describes (initial_state class root)); [by left|exact Hs]|].
    by exists root.
Qed.

(** A snapshot under a lock: the class stays at the rotation it describes. *)
Definition placed (s : nat) (class : string) (shared : bool) (res : result goerr AuthoritySnapshot) (w : World) : Prop :=
  match res with
  | Ok snapshot => exists r, (validCertificateClass class = true /\ describes class snapshot r /\ in_range r)
      /\ (holds s class shared w /\ started r (pk_rotation (w_tables w) !! class))
  | Err _ => True
  end.

Lemma judged_placed s class shared : judged s (placed s class shared) (holds s class shared) (Snapshot class).
Proof.
  eapply rg_post; [|apply (judged_Snapshot s class shared)]. intros [snapshot|e] w [_ HB _ _]; [|done].
  intros (Hv & Hh & Ho). destruct (observed_describes _ _ _ Ho) as (r & Hd & Hs). exists r. split; [|done]. split; [done|].
  split; [done|]. destruct (pk_rotation (w_tables w) !! class) as [row|] eqn:E; cbn in Hs; [subst r; apply (HB _ _ E)|].
  destruct Hs as [root ->]. by split; cbn.
Qed.

(** Every operation starts from a snapshot of its class. *)
Lemma judged_start {B} s class shared (Q : result goerr B -> World -> Prop) f :
  fails_freely Q ->
  (forall snapshot r, validCertificateClass class = true -> describes class snapshot r -> in_range r ->
     judged s Q (fun w => holds s class shared w /\ started r (pk_rotation (w_tables w) !! class)) (f snapshot)) ->
  judged s Q (holds s class shared) (try_prog (Snapshot class) f).
Proof.
  intros HQ Hf. eapply rg_bind; [apply (judged_placed s class shared)|]. intros [snapshot|e]; [|intros w _ _; apply HQ].
  apply rg_exists. intros r. apply rg_pure_pre. intros (Hv & Hd & Hr). by apply Hf.
Qed.

(** A call that keeps to its guarantees, whatever it returns. *)
Definition lawful {A} (s : nat) (P : World -> Prop) (p : RotProg A) : Prop := judged s (fun _ _ => True) P p.

Lemma lawful_oks {A} s P (p : RotProg A) : lawful s P p -> judged s (fun r _ => oks (fun _ => True) r) P p.
Proof. intros H. eapply rg_post; [|exact H]. intros r w _ _. apply oks_true. Qed.

Lemma lawful_quiet {A} s P (p : RotProg A) : framed s P -> yields (fun _ => True) p -> lawful s P p.
Proof. intros [H1 H2] Hp. eapply rg_post; [|by apply yields_rg]. done. Qed.

Lemma lawful_exclusive {A B} s class (action : RotProg A) (f : A -> RotProg B) :
  (validCertificateClass class = true -> lawful s (holds s class false) action) ->
  (forall a, yields (fun _ => True) (f a)) -> lawful s (fun _ => True) (try_prog (withExclusiveRotationFence s class action) f).
Proof.
  intros Ha Hf. eapply rg_bind; [apply (judged_exclusive s class (fun _ => True)); intros Hv; by apply lawful_oks, Ha|].
  intros [a|e]; [|by intros w _ _]. cbn beta iota. eapply rg_weaken; [|apply lawful_quiet; [apply (framed_const s True)|apply Hf]]. done.
Qed.

Lemma any_oks {A} (p : RotProg A) : yields (oks (fun _ => True)) p -> yields (fun _ => True) p.
Proof. by apply yields_weaken. Qed.

Lemma yields_select msg class fingerprint snapshot :
  yields (fun _ => True) (try_prog (select_authority msg class fingerprint) (fun _ => publishSnapshot snapshot true)).
Proof. apply any_oks. eapply yields_try; [apply yields_on_authorities|]. intros _ _. apply yields_publish. Qed.

Definition at_rotation (s : nat) (class : string) (r : Rotation) (w : World) : Prop :=
  holds s class false w /\ started r (pk_rotation (w_tables w) !! class).

Lemma framed_at s class r : framed s (at_rotation s class r).
Proof. apply (framed_row s class false (started r)). Qed.

(** A class that is not at its first rotation has a durable one. *)
Lemma rotation_of_started class r w :
  started r (pk_rotation (w_tables w) !! class) ->
  rotation_of class (w_db w) = Some r \/ rotation_of class (w_db w) = None /\ exists root, r = mkRotation root Stable 1 1.
Proof.
  unfold rotation_of, w_tables. destruct (pk_rotation (td_tables (w_db w)) !! class) as [row|]; cbn; [intros ->; by left|by right].
Qed.

Lemma rotation_of_moving class r w :
  started r (pk_rotation (w_tables w) !! class) -> r_phase r <> Stable -> rotation_of class (w_db w) = Some r.
Proof. intros [H|[_ [root ->]]]%rotation_of_started Hp; [done|by destruct Hp]. Qed.

Lemma wrap_bounds z : 0 <= wrap_u 64 z < 2 ^ 64.
Proof. unfold wrap_u. apply Z.mod_pos_bound. lia. Qed.

(** A count that wraps is refused. *)
Lemma wrap_next z : 0 <= z < 2 ^ 64 -> wrap_u 64 (z + 1) <> 0 -> wrap_u 64 (z + 1) = z + 1.
Proof.
  intros Hz Hne. unfold wrap_u in *. destruct (decide (z + 1 = 2 ^ 64)) as [E|]; [|apply Z.mod_small; lia].
  rewrite E in Hne. by rewrite Z_mod_same_full in Hne.
Qed.

Lemma valid_counts state :
  validateCARotationState state = Ok tt -> cs_Generation state <> 0 /\ cs_Revision state <> 0.
Proof.
  unfold validateCARotationState. intros (u1 & _ & H)%bind_ok. apply bind_ok in H as (u2 & Hz%fail_if_ok & _).
  apply orb_false_iff in Hz as [[Hg%Z.eqb_neq Hr%Z.eqb_neq]%orb_false_iff _]. done.
Qed.

Lemma valid_trust state :
  validateCARotationState state = Ok tt -> cs_Phase state = RotationPhaseTrust -> cs_DiscardedRootDER state = ""%string ->
  (len (cs_SuccessorRootDER state) =? 0) = false.
Proof.
  unfold validateCARotationState. intros H Hp Hd. repeat (apply bind_ok in H as (? & _ & H)).
  rewrite Hp, Hd in H. cbn in H. apply fail_if_ok in H. by rewrite andb_true_r in H.
Qed.

Lemma parseExact_raw der certificate : parseExactCertificate der = Ok certificate -> Raw certificate = der.
Proof. unfold parseExactCertificate. intros (c & _ & H)%bind_ok. by apply bind_ok in H as (u & Hr%fail_if_ok%negb_false_iff%String.eqb_eq & [= <-]). Qed.

Lemma validateRotationSuccessor_differs current successor transition signer now :
  validateRotationSuccessor current successor transition signer now = Ok tt -> successor <> current.
Proof.
  unfold validateRotationSuccessor. intros (c & Hc%wrap_err_ok%parseExact_raw & H)%bind_ok.
  apply bind_ok in H as (s & Hs%wrap_err_ok%parseExact_raw & H). apply bind_ok in H as (u & Hf%fail_if_ok & _).
  intros Heq. rewrite !orb_false_iff in Hf. destruct Hf as [[[[[[[[[Hf _] _] _] _] _] _] _] _] _].
  apply String.eqb_neq in Hf. congruence.
Qed.

Lemma BeginTrust_lawful s class successor transition signer :
  lawful s (fun _ => True) (BeginTrust s class successor transition signer).
Proof.
  unfold BeginTrust. eapply judged_quiet; [apply framed_const|by intros e w|apply yields_call|]. intros u _.
  apply lawful_exclusive.
  2:{ intros next. apply any_oks. eapply (yields_try (fun _ => True)); [apply yields_on_authorities|]. intros _ _.
      eapply (yields_bind (fun _ => True)); [apply yields_act; by intros env w w' x [= <- <-]|]. intros _ _. apply yields_publish. }
  intros Hv. apply judged_start; [by intros e w|]. intros snapshot r _ Hd Hr.
  destruct (String.eqb_spec (as_Phase snapshot) RotationPhaseStable) as [Hp|]; cbn [negb]; [|by intros w _ _].
  pose proof (framed_at s class r) as Hfr.
  apply (judged_quiet s (fun _ => successor <> as_IssuingRootDER snapshot)); [done|by intros e w| |].
  { apply yields_look. intros env w. destruct (validateRotationSuccessor _ _ _ _ _) as [[]|e] eqn:E; [|done].
    by apply validateRotationSuccessor_differs in E. }
  intros _ Hne. eapply judged_quiet; [done|by intros e w|apply yields_baseline|]. intros [fingerprint sequence] _.
  cbv zeta. eapply judged_quiet; [done|by intros e w|apply yields_snapshot|]. intros next _.
  destruct Hd as [(Hc & Hg & _ & _) Hi Hph]. destruct r as [root phase g v]. cbn in Hi, Hph, Hg, Hr.
  assert (phase = Stable) as -> by (rewrite Hp in Hph; destruct phase; [done|by destruct Hph..|done]).
  cbn in Hi. rewrite Hi in Hne.
  eapply (judged_append s class); [by intros e w|exact Hfr|done| | | |by intros w _ _].
  - split; cbn; [apply wrap_bounds|lia].
  - intros Hvalid w _ [Hh Hs]. split; [done|]. pose proof (valid_trust _ Hvalid eq_refl eq_refl) as Hlen.
    apply valid_counts in Hvalid as [Hg0 _]. unfold abs. cbn in Hg0, Hlen |- *. rewrite Hlen, Hi, Hg. rewrite Hg in Hg0.
    rewrite wrap_next by (done || apply Hr). destruct (rotation_of_started _ _ _ Hs) as [->|[-> [root' [= -> -> ->]]]]; by constructor.
  - eapply (yields_try (fun _ => True)); [apply yields_publish|]. intros _ _. case_match; [done|].
    eapply (yields_try (fun _ => True)); [apply yields_look; intros; apply oks_true|]. intros authority _. apply yields_initial.
Qed.

(** A gate stays open under the exclusive lock. *)
Lemma framed_under s class (P F : World -> Prop) :
  framed s P -> (forall w, P w -> holds s class false w) -> framed s (fun w => holds s class false w /\ F w) ->
  framed s (fun w => P w /\ F w).
Proof.
  intros [P1 P2] Hh [F1 F2]. split.
  - intros w w' HI HI' HR [Hp Hf]. split; [exact (P1 w w' HI HI' HR Hp)|]. by apply (F1 w w' HI HI' HR (conj (Hh w Hp) Hf)).
  - intros w w' Hq [Hp Hf]. split; [exact (P2 w w' Hq Hp)|]. by apply (F2 w w' Hq (conj (Hh w Hp) Hf)).
Qed.

Lemma framed_consumers s class r : framed s (fun w => holds s class false w /\ consumers_follow class r (w_db w)).
Proof.
  pose proof (framed_service s class (other_class class) (fun id der log => trusts class id der r log)
    (fun id der l rows => trusts_grows class id der r l rows)) as Hs.
  pose proof (framed_log s (fun log => class = CertificateClassGateway -> control_trusts class r log)
    (fun l rows H Hc => control_grows _ _ _ _ (H Hc))) as Hl.
  destruct (framed_and s _ _ Hs Hl) as [H1 H2]. split.
  - intros w w' HI HI' HR [Hh [Ha Hb]]. by destruct (H1 w w' HI HI' HR (conj (conj Hh Ha) Hb)) as [[? ?] ?].
  - intros w w' Hq [Hh [Ha Hb]]. by destruct (H2 w w' Hq (conj (conj Hh Ha) Hb)) as [[? ?] ?].
Qed.

Lemma framed_leaves s class successor r : framed s (fun w => holds s class false w /\ leaves_follow class successor r (w_db w)).
Proof.
  destruct (framed_shown s class successor r (fun _ => True)) as [H1 H2]. split.
  - intros w w' HI HI' HR H%leaves_follow_shown. by apply leaves_follow_shown, (H1 w w').
  - intros w w' Hq H%leaves_follow_shown. by apply leaves_follow_shown, (H2 w w').
Qed.

(** The common end of the other transitions. *)
Lemma lawful_commit {A} s class operation state (P : World -> Prop) (ret : AuthoritySnapshot -> A) :
  framed s P -> cs_CertificateClass state = class -> bounded state ->
  (validateCARotationState state = Ok tt -> forall w, world_inv w -> P w ->
     holds s class false w /\ rotates class (w_db w) (rotation_of class (w_db w)) (abs state)) ->
  lawful s P (try_prog (snapshotFromState state) (fun next =>
    try_prog (append_state operation state (publishSnapshot next false)) (fun _ => Ret (Ok (ret next))))).
Proof.
  intros HP Hc Hb Hr. eapply judged_quiet; [done|by intros e w|apply yields_snapshot|]. intros next _.
  by eapply (judged_append s class); [intros e w| | | | |apply yields_publish|intros w _ _].
Qed.

Ltac phase_is Hph Hp :=
  rewrite Hp in Hph; match type of Hph with match ?phase with _ => _ end => destruct phase end;
  try (match type of Hph with _ /\ _ => destruct Hph as [Hph _] | _ => idtac end; discriminate Hph).

Lemma Abort_lawful s class : lawful s (fun _ => True) (Abort s class).
Proof.
  unfold Abort. apply lawful_exclusive; [|intros next; apply any_oks, yields_publish].
  intros Hv. apply judged_start; [by intros e w|]. intros snapshot r _ [(Hc & Hg & Hrev & _) Hi Hph] Hr.
  destruct (String.eqb_spec (as_Phase snapshot) RotationPhaseTrust) as [Hp|]; cbn [negb orb]; [|by intros w _ _].
  destruct (len (as_SuccessorRootDER snapshot) =? 0) eqn:Hlen; [by intros w _ _|].
  pose proof (framed_at s class r) as Hfr. destruct r as [root phase g v]. cbn in Hi, Hph, Hg, Hrev, Hr. phase_is Hph Hp.
  2:{ by destruct Hph as [_ Hs]; rewrite Hs in Hlen. }
  destruct Hph as (_ & Hs & _). cbn in Hi. eapply judged_quiet; [done|by intros e w|apply yields_baseline|]. intros [fp sequence] _.
  apply (lawful_commit s class); [done|done| |].
  - split; cbn; [rewrite Hg; apply Hr|apply wrap_bounds].
  - intros [_ Hv0]%valid_counts w _ [Hh Hst]. split; [done|]. cbn in Hv0. rewrite Hrev in Hv0. unfold abs. cbn.
    rewrite Hi, Hg, Hrev, Hs, wrap_next by (done || apply Hr). rewrite (rotation_of_moving _ _ _ Hst) by done. constructor.
Qed.

Lemma Migrate_lawful s class : lawful s (fun _ => True) (Migrate s class).
Proof.
  unfold Migrate. apply lawful_exclusive; [|intros next; apply yields_select].
  intros Hv. apply judged_start; [by intros e w|]. intros snapshot r _ [Hm Hi Hph] Hr.
  destruct (String.eqb_spec (as_Phase snapshot) RotationPhaseTrust) as [Hp|]; cbn [negb orb]; [|by intros w _ _].
  destruct (len (as_SuccessorRootDER snapshot) =? 0) eqn:Hlen; [by intros w _ _|].
  pose proof (framed_at s class r) as Hfr. eapply (judged_consumers s class snapshot r); [done|done|by intros e w|done|by intros w []|].
  destruct r as [root phase g v]. pose proof Hm as (Hc & Hg & Hrev & _). cbn in Hi, Hph, Hg, Hrev, Hr. phase_is Hph Hp.
  2:{ by destruct Hph as [_ Hs]; rewrite Hs in Hlen. }
  destruct Hph as (_ & Hs & _). cbn in Hi.
  apply (lawful_commit s class); [|done| |].
  - apply (framed_under s class); [done|by intros w []|apply framed_consumers].
  - split; cbn; [rewrite Hg|rewrite Hrev]; apply Hr.
  - intros _ w _ [[Hh Hst] Hgate]. split; [done|]. unfold abs. cbn. rewrite Hi, Hg, Hrev, Hs.
    rewrite (rotation_of_moving _ _ _ Hst) by done. by constructor.
Qed.

Lemma Retire_lawful fuel s class : lawful s (fun _ => True) (Retire fuel s class).
Proof.
  unfold Retire. apply lawful_exclusive; [|intros next; apply yields_select].
  intros Hv. apply judged_start; [by intros e w|]. intros snapshot r _ [Hm Hi Hph] Hr.
  destruct (String.eqb_spec (as_Phase snapshot) RotationPhaseMigrate) as [Hp|]; cbn [negb]; [|by intros w _ _].
  pose proof (framed_at s class r) as Hfr. destruct r as [root phase g v].
  pose proof Hm as (Hc & Hg & Hrev & Hd). cbn in Hi, Hph, Hg, Hrev, Hr, Hd. phase_is Hph Hp.
  destruct Hph as [_ Hs]. cbn in Hi, Hd.
  eapply (judged_leaves s fuel class snapshot); [exact Hm|exact Hd|exact Hs|by intros e w|exact Hfr|by intros w []|].
  assert (framed s (fun w => at_rotation s class (mkRotation root (Migrating successor) g v) w
            /\ leaves_follow class successor (mkRotation root (Migrating successor) g v) (w_db w))) as Hfl
    by (apply (framed_under s class); [done|by intros w []|apply framed_leaves]).
  eapply judged_quiet; [exact Hfl|by intros e w|apply yields_baseline|]. intros [fp sequence] _.
  apply (lawful_commit s class); [exact Hfl|done| |].
  - split; cbn; [rewrite Hg; apply Hr|apply wrap_bounds].
  - intros [_ Hv0]%valid_counts w _ [[Hh Hst] Hgate]. split; [done|]. cbn in Hv0. rewrite Hrev in Hv0. unfold abs. cbn.
    rewrite Hd, Hg, Hrev, Hs, wrap_next by (done || apply Hr). rewrite (rotation_of_moving _ _ _ Hst) by done. by constructor.
Qed.

Lemma Normalize_lawful s class : lawful s (fun _ => True) (Normalize s class).
Proof.
  unfold Normalize. apply lawful_exclusive.
  2:{ intros [next fp]. apply any_oks. eapply (yields_bind (fun _ => True)); [apply yields_act; by intros env w w' x [= <- <-]|].
      intros _ _. apply yields_publish. }
  intros Hv. apply judged_start; [by intros e w|]. intros snapshot r _ [Hm Hi Hph] Hr.
  pose proof (framed_at s class r) as Hfr.
  eapply (judged_quiet s (fun _ => True)); [exact Hfr|by intros e w|apply yields_look; intros; apply oks_true|]. intros state _.
  pose proof Hm as (Hc & Hg & Hrev & Hd).
  cbv zeta. destruct (String.eqb_spec (as_Phase snapshot) RotationPhaseRetire) as [Hp|Hp]; cbn [negb andb].
  - eapply (judged_consumers s class snapshot r); [done|done|by intros e w|done|by intros w []|].
    destruct r as [root phase g v]. cbn in Hi, Hph, Hg, Hrev, Hr. phase_is Hph Hp. cbn in Hi.
    apply (lawful_commit s class _ _ _ (fun next => (next, _))); [|done| |].
    + apply (framed_under s class); [done|by intros w []|apply framed_consumers].
    + split; cbn; [rewrite Hg|rewrite Hrev]; apply Hr.
    + intros _ w _ [[Hh Hst] Hgate]. split; [done|]. unfold abs. cbn. rewrite Hi, Hg, Hrev.
      rewrite (rotation_of_moving _ _ _ Hst) by done. by constructor.
  - destruct (_ && _) eqn:Ew; cbn [negb]; [|by intros w _ _].
    apply andb_prop in Ew as [[Hp2%String.eqb_eq Hl]%andb_prop _].
    eapply (judged_consumers s class snapshot r); [done|done|by intros e w|done|by intros w []|].
    destruct r as [root phase g v]. cbn in Hi, Hph, Hg, Hrev, Hr. phase_is Hph Hp2.
    { destruct Hph as (_ & Hs & Hl2). rewrite Hs in Hl. congruence. }
    cbn in Hi. apply (lawful_commit s class _ _ _ (fun next => (next, _))); [|done| |].
    + apply (framed_under s class); [done|by intros w []|apply framed_consumers].
    + split; cbn; [rewrite Hg|rewrite Hrev]; apply Hr.
    + intros _ w _ [[Hh Hst] Hgate]. split; [done|]. unfold abs. cbn. rewrite Hi, Hg, Hrev.
      rewrite (rotation_of_moving _ _ _ Hst) by done. by constructor.
Qed.

(** ** Receipts *)

(** A receipt leaves the tables alone. *)
Lemma lawful_receipt s reporterID payload (P : World -> Prop) :
  framed s P -> match payload with PLeafTrust _ _ | PConsumerTrust _ _ | PControlTrust _ => True | _ => False end ->
  (forall w row, P w -> te_Payload (ty_Event row) = payload -> receipt_current row (w_db w)) ->
  lawful s P (lift_store (append_receipt reporterID payload)).
Proof.
  intros HP Hp Hr env w w' x HI Hw Hop. cbn in Hop. destruct (AppendNext _ _ _ _) as [db r] eqn:Ea.
  injection Hop as <- <-. apply AppendNext_ok in Ea as [[-> _]|(now & tables & _ & Hpr & ->)].
  { rewrite with_db_same. split; [apply guarantees_refl|]. split; [done|]. exists (fun _ => True). split; [apply stable_const|done]. }
  assert (tables = td_tables (w_db w)) as -> by (destruct payload; cbn in Hpr; try done; by injection Hpr).
  split; [|split].
  - split; cbn [with_db w_db w_locks].
    + split; [|by left]. eexists [_]. split; [done|]. intros row ->%list_elem_of_singleton. by apply Hr.
    + done.
    + by left.
    + done.
    + left. by intros class id der.
  - destruct HI. split; [done..|]. by apply leaves_recorded_app.
  - exists (fun _ => True). split; [apply stable_const|done].
Qed.

(** Recording a payload that may be there already. *)
Lemma lawful_exists {V} s (validated : result goerr (V * string)) (found : V -> string -> list PKIRow -> bool) reporterID
    (payload : V -> string -> pkiPayload) (P : World -> Prop) :
  framed s P ->
  (forall v t, validated = Ok (v, t) -> lawful s P (lift_store (append_receipt reporterID (payload v t)))) ->
  lawful s P (lift_store
    (try_prog (Ret validated) (fun '(v, t) =>
     try_prog (confirmationEventExists (found v t)) (fun there : bool =>
     if there then Ret (Ok tt) else append_receipt reporterID (payload v t))))).
Proof.
  intros HP Hv. unfold try_prog at 1. cbn [bind_prog]. destruct validated as [[v t]|e]; [|by intros w _ _].
  eapply judged_lift_try with (Q := fun _ => P); [by intros e w| |].
  - apply judged_lift_look; [done|by intros env w x _ ?].
  - intros []; [by intros w _ _|]. by apply Hv.
Qed.

Definition receipt_about (receipt : ValidatedReceipt) (class : string) (r : Rotation) : Prop :=
  match receipt with
  | LeafReceipt c => lt_CertificateClass c = class /\ lt_Generation c = r_generation r
                     /\ exists root, root ∈ desired r /\ lt_IssuerFingerprint c = Sum256 root
  | ConsumerReceipt c => ct_ClaimedClass c = class /\ ct_Generation c = r_generation r /\ ct_Revision c = r_revision r
                         /\ ct_RootFingerprints c = Sum256 <$> desired r
  end.

Lemma receipt_of_about confirmation certificate reporterID snapshot r receipt :
  matches (tc_ClaimedClass (tf_Claim confirmation)) snapshot r ->
  receipt_of confirmation certificate reporterID snapshot = Some receipt ->
  receipt_about receipt (tc_ClaimedClass (tf_Claim confirmation)) r.
Proof.
  intros (_ & Hg & Hrev & Hd). unfold receipt_of. case_match; [done|].
  destruct (String.eqb_spec (tc_ReporterClass (tf_Claim confirmation)) (tc_ClaimedClass (tf_Claim confirmation))) as [Heq|_].
  - case_match; [done|]. intros (issuer & Hi & ->)%fmap_Some. unfold verifiedLeafIssuer in Hi.
    apply fmap_Some in Hi as (root & Hroot & ->). apply find_some in Hroot as [Hin%list_elem_of_In _].
    cbn. split; [done|]. split; [done|]. exists root. by rewrite <- Hd.
  - case_match; [done|]. case_match; [done|]. intros [= <-]. cbn. split; [done|]. split; [done|]. split; [done|].
    unfold rootFingerprintArrays. by rewrite Hd.
Qed.

(** The durable state a receipt was compared with, under the shared lock. *)
Definition compared (s : nat) (class : string) (r : Rotation) (w : World) : Prop :=
  holds s class true w /\ started r (pk_rotation (w_tables w) !! class).

Lemma framed_compared s class r : framed s (compared s class r).
Proof. apply (framed_row s class true (started r)). Qed.

Lemma compared_current s class receipt r w row t :
  receipt_about receipt class r -> compared s class r w ->
  te_Payload (ty_Event row) = match receipt with LeafReceipt c => PLeafTrust t c | ConsumerReceipt c => PConsumerTrust t c end ->
  receipt_current row (w_db w).
Proof.
  intros Ha [_ Hs%rotation_of_started] Hp. unfold receipt_current. rewrite Hp. destruct receipt as [c|c]; cbn in Ha.
  - destruct Ha as (Hc & Hg & Hroot). rewrite Hc. by destruct Hs as [->|[-> [root ->]]].
  - destruct Ha as (Hc & Hg & Hrev & Hroots). rewrite Hc. by destruct Hs as [->|[-> [root ->]]].
Qed.

Lemma record_receipt_lawful s class r receipt :
  receipt_about receipt class r -> lawful s (compared s class r) (record_receipt receipt).
Proof.
  intros Ha. unfold record_receipt. destruct receipt as [c|c]; cbn [RecordValidatedTrustConfirmation].
  - apply (lawful_exists s (validatedLeafTrustConfirmation c) _ _ (fun p t => PLeafTrust t p)); [apply framed_compared|].
    intros p t Hv. apply lawful_receipt; [apply framed_compared|done|]. intros w row Hw Hp.
    eapply (compared_current s class (LeafReceipt p)); [|done|done].
    unfold validatedLeafTrustConfirmation in Hv. repeat (apply bind_ok in Hv as (? & ? & Hv)). case_match. 
    repeat (apply bind_ok in Hv as (? & ? & Hv)). by injection Hv as <- <-.
  - apply (lawful_exists s (validatedConsumerTrustConfirmation c) _ _ (fun p t => PConsumerTrust t p)); [apply framed_compared|].
    intros p t Hv. apply lawful_receipt; [apply framed_compared|done|]. intros w row Hw Hp.
    eapply (compared_current s class (ConsumerReceipt p)); [|done|done].
    unfold validatedConsumerTrustConfirmation in Hv. repeat (apply bind_ok in Hv as (? & ? & Hv)). case_match.
    repeat (apply bind_ok in Hv as (? & ? & Hv)). by injection Hv as <- <-.
Qed.

Lemma lawful_rejected {A} s (P : World -> Prop) (p : RotProg A) :
  lawful s P p -> lawful s P (bind_prog p (fun r => Ret (rejected r))).
Proof. intros H. eapply rg_bind; [exact H|]. by intros r w _ _. Qed.

Lemma judged_start_rejected {B} s class shared (Q : result goerr B -> World -> Prop) f :
  fails_freely Q ->
  (forall snapshot r, validCertificateClass class = true -> describes class snapshot r -> in_range r ->
     judged s Q (fun w => holds s class shared w /\ started r (pk_rotation (w_tables w) !! class)) (f snapshot)) ->
  judged s Q (holds s class shared) (try_prog (bind_prog (Snapshot class) (fun r => Ret (rejected r))) f).
Proof.
  intros HQ Hf. apply rg_assoc. eapply rg_bind; [apply (judged_placed s class shared)|].
  intros [snapshot|e]; cbn [rejected bind_prog]; [|intros w _ _; apply HQ].
  apply rg_exists. intros r. apply rg_pure_pre. intros (Hv & Hd & Hr). by apply Hf.
Qed.

Lemma trustConfirmationClasses_ok confirmation reporterClass claimedClass :
  trustConfirmationClasses confirmation = Ok (reporterClass, claimedClass) -> claimedClass = tc_ClaimedClass (tf_Claim confirmation).
Proof.
  unfold trustConfirmationClasses. intros (c & _ & H)%bind_ok. apply bind_ok in H as ([cls id] & _ & H).
  by apply bind_ok in H as (u & _ & [= <- <-]).
Qed.

Lemma rejected_ok {A B} (r : result A B) b : rejected r = Ok b -> r = Ok b.
Proof. by destruct r; [intros [= ->]|]. Qed.

Lemma judged_validate s confirmation :
  let class := tc_ClaimedClass (tf_Claim confirmation) in
  judged s (fun res w => match res with
    | Ok receipt => exists r, receipt_about receipt class r /\ compared s class r w
    | Err _ => True end) (holds s class true) (validateTrustStateConfirmation confirmation).
Proof.
  intros class. unfold validateTrustStateConfirmation. cbv zeta.
  eapply rg_pure_try; [by intros e w|]. intros [certificate reporterID] _.
  eapply (judged_quiet s (fun _ => True)); [apply framed_holds|by intros e w|apply yields_look; intros; apply oks_true|]. intros _ _.
  apply judged_start_rejected; [by intros e w|]. intros snapshot r _ [Hm _ _] _ w _ Hw.
  destruct (receipt_of confirmation certificate reporterID snapshot) as [receipt|] eqn:Er; cbn; [|done].
  exists r. split; [by eapply receipt_of_about|exact Hw].
Qed.

Lemma lawful_shared {A} s class1 class2 (action : RotProg A) :
  lawful s (fun w => holds s class1 true w /\ holds s class2 true w) action ->
  lawful s (fun _ => True) (withTrustStateFences s class1 class2 action).
Proof.
  intros Ha. eapply rg_post; [|apply (judged_shared s class1 class2 (fun _ => True)), lawful_oks, Ha]. done.
Qed.

Lemma ConfirmTrustState_lawful s confirmation : lawful s (fun _ => True) (ConfirmTrustState s confirmation).
Proof.
  unfold ConfirmTrustState. eapply rg_pure_try; [by intros e w|]. intros [reporterClass claimedClass] Hcl%rejected_ok.
  apply trustConfirmationClasses_ok in Hcl. subst claimedClass. apply lawful_shared.
  eapply rg_weaken with (P := holds s (tc_ClaimedClass (tf_Claim confirmation)) true); [by intros w _ [_ ?]|].
  eapply rg_bind; [apply judged_validate|]. intros [receipt|e]; [|by intros w _ _].
  apply rg_exists. intros r. apply rg_pure_pre. by apply record_receipt_lawful.
Qed.

Lemma yields_Snapshot class : yields (oks (fun _ => True)) (Snapshot class).
Proof.
  unfold Snapshot. eapply yields_try; [apply yields_call|]. intros _ _.
  eapply (yields_try (fun _ => True)); [apply yields_look; intros; apply oks_true|]. intros [state|] _.
  - eapply yields_try; [apply yields_restore|]. intros _ _. eapply yields_weaken; [|apply yields_snapshot]. intros r _. apply oks_true.
  - eapply (yields_try (fun _ => True)); [apply yields_look; intros; apply oks_true|]. intros a _.
    eapply yields_weaken; [|apply yields_snapshot]. intros r _. apply oks_true.
Qed.

Lemma ConfirmControlTrustState_lawful s confirmation : lawful s (fun _ => True) (ConfirmControlTrustState s confirmation).
Proof.
  unfold ConfirmControlTrustState. case_match; [by intros w _ _|].
  eapply (judged_quiet s (fun _ => True)); [apply framed_const|by intros e w| |].
  { eapply yields_bind; [apply yields_Snapshot|]. intros r _. apply oks_true. }
  intros snapshot _. case_match; [by intros w _ _|]. apply lawful_shared. unfold RecordControlTrustConfirmation.
  case_match; [by intros w _ _|].
  eapply judged_lift_try with (Q := fun _ _ => True); [by intros e w| |].
  - apply judged_lift_look; [intros; apply framed_const|done].
  - intros []; [by intros w _ _|]. apply lawful_receipt; [apply framed_const|done|]. intros w row _ Hp. unfold receipt_current. by rewrite Hp.
Qed.

Lemma yields_New signers : yields (oks (fun _ => True)) (NewRotationManager signers).
Proof.
  unfold NewRotationManager. apply (yields_try (fun _ => True)); [apply oks_true|]. intros configured _.
  eapply (yields_bind (fun _ => True)); [apply yields_act; by intros env w w' x [= <- <-]|]. intros _ _.
  eapply (yields_try (fun _ => True)).
  { assert (forall class : string, yields (oks (fun _ => True)) (try_prog (read_state class) (fun found =>
      match found with None => Ret (Ok tt) | Some state => restoreAuthorities state end))) as Hf.
    { intros class. eapply (yields_try (fun _ => True)); [apply yields_look; intros; apply oks_true|].
      intros [state|] _; [apply yields_restore|done]. }
    cbn [each_prog]. eapply yields_try; [apply Hf|]. intros _ _. eapply yields_try; [apply Hf|]. done. }
  intros _ _. eapply (yields_bind (fun _ => True)); [by apply yields_look|]. intros [authority|] _; [|done].
  eapply yields_bind; [apply yields_initial|]. intros r _. apply oks_true.
Qed.

(** ** All calls of a manager *)
Inductive Call :=
| CallNew (signers : list (string * SigningKey))
| CallSnapshot (class : string)
| CallBeginTrust (class successor transition : string) (signer : SigningKey)
| CallAbort (class : string)
| CallMigrate (class : string)
| CallRetire (fuel : nat) (class : string)
| CallNormalize (class : string)
| CallConfirm (confirmation : TrustStateConfirmation)
| CallConfirmControl (confirmation : ControlTrustStateConfirmation).

Definition run_call (session : nat) (c : Call) : RotProg unit :=
  match c with
  | CallNew signers => NewRotationManager signers
  | CallSnapshot class => try_prog (Snapshot class) (fun _ => Ret (Ok tt))
  | CallBeginTrust class successor transition signer => BeginTrust session class successor transition signer
  | CallAbort class => Abort session class
  | CallMigrate class => Migrate session class
  | CallRetire fuel class => Retire fuel session class
  | CallNormalize class => Normalize session class
  | CallConfirm confirmation => ConfirmTrustState session confirmation
  | CallConfirmControl confirmation => ConfirmControlTrustState session confirmation
  end.

Lemma run_call_lawful s c : lawful s (fun _ => True) (run_call s c).
Proof.
  destruct c; cbn [run_call].
  - apply lawful_quiet; [apply framed_const|]. apply any_oks, yields_New.
  - apply lawful_quiet; [apply framed_const|]. apply any_oks. eapply yields_try; [apply yields_Snapshot|done].
  - apply BeginTrust_lawful.
  - apply Abort_lawful.
  - apply Migrate_lawful.
  - apply Retire_lawful.
  - apply Normalize_lawful.
  - apply ConfirmTrustState_lawful.
  - apply ConfirmControlTrustState_lawful.
Qed.

(** What the others do meanwhile leaves the locks of the calls alone, and what the
    calls have locked. *)
Definition respectful (n : nat) (Other : World -> World -> Prop) : Prop :=
  forall w w', world_inv w -> Other w w' -> world_inv w' /\ forall s, (s < n)%nat -> relies s w w'.

(** Threads that are judged on their own, together: each step is one of the
    machine or one of the others. *)
Lemma threads_refine {C A} (Other : World -> World -> Prop) (run : nat -> C -> prog PKIEnv World A)
    (post : C -> A -> World -> Prop) (calls : list C) w0 w ts :
  (forall s c, judged s (post c) (fun _ => True) (run s c)) -> world_inv w0 -> respectful (length calls) Other ->
  rtc (sched_step Other) (w0, imap run calls) (w, ts) ->
  world_inv w /\ rtc (fun w w' => world_inv w /\ (machine_step (w_db w) (w_db w') \/ Other w w')) w0 w
  /\ forall i c a, calls !! i = Some c -> ts !! i = Some (Ret a) -> post c a w.
Proof.
  intros Hj HI Ho Hr. set (iQs := imap (fun i (c : C) => (i, post c)) calls).
  assert (Hfst : iQs.*1 = seq 0 (length calls)).
  { apply list_eq. intros i. unfold iQs. rewrite list_lookup_fmap, list_lookup_imap. destruct (decide (i < length calls)%nat) as [Hlt|Hge].
    - destruct (lookup_lt_is_Some_2 calls i Hlt) as [c ->]. cbn. by rewrite lookup_seq_lt.
    - rewrite (lookup_ge_None_2 calls) by lia. cbn. by rewrite lookup_seq_ge by lia. }
  destruct (rg_sound_indexed world_inv relies guarantees iQs Other (w0, imap run calls) (w, ts)) as (HI' & Hsteps & Hall).
  - rewrite Hfst. apply NoDup_seq.
  - intros i j s s' _ _ Hne HIs _ Hg. by eapply guarantees_relies.
  - intros s s' HIs Hs. destruct (Ho s s' HIs Hs) as (H1 & H3). split; [done|]. intros i Hi. apply H3.
    rewrite Hfst in Hi. apply elem_of_seq in Hi. lia.
  - exact Hr.
  - exact HI.
  - apply Forall2_same_length_lookup. cbn [fst snd]. split; [by unfold iQs; rewrite !length_imap|].
    intros i iQ p Hi Hp. unfold iQs in Hi. apply list_lookup_imap_Some in Hi as (c & Hc & ->).
    apply list_lookup_imap_Some in Hp as (c' & Hc' & ->). rewrite Hc in Hc'. injection Hc' as <-.
    exists (fun _ => True). split; [apply stable_const|]. split; [done|]. apply Hj.
  - split; [exact HI'|]. split.
    + cbn [fst] in Hsteps. clear - Hsteps Ho. induction Hsteps as [|s1 s2 s3 (H1 & H2 & H) _ IH]; [apply rtc_refl|].
      eapply rtc_l; [|exact IH]. cbn. split; [exact H1|]. destruct H as [(i & _ & Hg)|Hs]; [left; apply Hg|by right].
    + intros i c a Hc Ht. assert (iQs !! i = Some (i, post c)) as HiQ by (unfold iQs; rewrite list_lookup_imap, Hc; done).
      destruct (Forall2_lookup_lr _ _ _ _ _ _ Hall HiQ Ht) as (P & _ & HP & Hret). cbn in Hret, HP. by apply Hret.
Qed.

(** Where the others take steps of the machine, all together do. *)
Lemma machine_steps (Other : World -> World -> Prop) w0 w :
  (forall w w', world_inv w -> Other w w' -> machine_step (w_db w) (w_db w')) ->
  rtc (fun w w' => world_inv w /\ (machine_step (w_db w) (w_db w') \/ Other w w')) w0 w -> rtc machine_step (w_db w0) (w_db w).
Proof.
  intros Ho. induction 1 as [|w1 w2 w3 (HI & H) _ IH]; [apply rtc_refl|]. eapply rtc_l; [|exact IH].
  destruct H as [H|H]; [done|by apply Ho].
Qed.

(** The steps of a manager's sessions, when nothing else happens. *)
Lemma calls_refine (calls : list Call) w0 w ts :
  world_inv w0 -> rtc (sched_step (fun _ _ => False)) (w0, imap run_call calls) (w, ts) ->
  world_inv w /\ rtc machine_step (w_db w0) (w_db w).
Proof.
  intros HI Hr. assert (respectful (length calls) (fun _ _ => False)) as Ho by done.
  destruct (threads_refine _ run_call (fun _ _ _ => True) calls w0 w ts run_call_lawful HI Ho Hr) as (? & ? & _).
  split; [done|]. apply (machine_steps (fun _ _ => False)); [by intros ? ? _ []|assumption].
Qed.

End Spec.
