(* ===== verification/RotationRuns.v ===== *)
(** * Rotation calls that run alone

    What the gates decide and that they end, the order that trust intent
    keeps along every history, and a whole rotation as an example. *)

From Stdlib Require Import Ascii String ZArith Lia.
From S2P Require Export RotationProof.

Section Runs.
Context {x509 : X509} {schemes : Schemes} {x509crl : X509CRL} {x25519 : X25519}.

(** ** The order of trust intent *)

(** Generations, and revisions within a generation, only grow; while both stay,
    the desired roots do too. *)
Definition ordered (r r' : option Rotation) : Prop :=
  generation_of r < generation_of r'
  \/ generation_of r = generation_of r' /\ (revision_of r < revision_of r'
     \/ revision_of r = revision_of r'
        /\ forall x, r = Some x -> exists x', r' = Some x' /\ desired x' = desired x).

Lemma ordered_refl r : ordered r r.
Proof. right. split; [done|]. right. split; [done|]. intros x ->. by exists x. Qed.

Lemma ordered_trans r1 r2 r3 : ordered r1 r2 -> ordered r2 r3 -> ordered r1 r3.
Proof.
  unfold ordered. intros [H|[H1 [H|[H2 H3]]]] [K|[K1 [K|[K2 K3]]]]; try (left; lia); try (right; split; [lia|left; lia]).
  right. split; [lia|]. right. split; [lia|]. intros x Hx. destruct (H3 x Hx) as (y & Hy & Hd).
  destruct (K3 y Hy) as (z & Hz & Hd2). exists z. split; [done|congruence].
Qed.

Lemma rotates_ordered class db r r' : rotates class db r r' -> ordered r (Some r').
Proof.
  unfold ordered. destruct 1; cbn; try (left; lia); try (right; split; [lia|left; lia]);
    right; (split; [done|]); right; (split; [done|]); intros x [= <-]; by eexists.
Qed.

Lemma ordered_history class db db' :
  rtc machine_step db db' -> ordered (rotation_of class db) (rotation_of class db').
Proof.
  induction 1 as [db|db1 db2 db3 [_ Hs] _ IH]; [apply ordered_refl|]. eapply ordered_trans; [|exact IH].
  destruct (Hs class) as [->|(r & -> & Hr)]; [apply ordered_refl|by eapply rotates_ordered].
Qed.

(** ** Running alone *)

Lemma run_lift {A} env w (p : prog PKIEnv PKIDB A) :
  run_prog env w (lift_store p) = (with_db w (run_prog env (w_db w) p).1, (run_prog env (w_db w) p).2).
Proof.
  revert w. induction p as [a|X op k IH]; intros w; cbn [lift_store run_prog]; [by rewrite with_db_same|].
  destruct (op env (w_db w)) as [db x] eqn:E. rewrite IH. cbn [with_db w_db]. by destruct w.
Qed.

(** A judgement holds of the run that nobody disturbs. *)
Lemma judged_run {A} s (Q : A -> World -> Prop) P p env w :
  judged s Q P p -> world_inv w -> P w -> world_inv (run_prog env w p).1 /\ Q (run_prog env w p).2 (run_prog env w p).1.
Proof.
  unfold judged. revert P w. induction p as [a|X op k IH]; intros P w Hp HI HP; cbn in *; [split; [done|by apply Hp]|].
  destruct (op env w) as [w' x] eqn:E. destruct (Hp env w w' x HI HP E) as (_ & HI' & P' & _ & HP' & Hk). by eapply IH.
Qed.

(** ** The leaves' gate, decided *)

(** The status a report gives a row. *)
Definition status_of (query : CAMigrationReportQuery) (current successor : Certificate) (log : list PKIRow) (row : LeafEntry)
    : string :=
  if String.eqb (le_LifecycleState row) "revoked" then CAMigrationStatusRevoked
  else match ParseCertificate (le_CertificateDer row) with
       | Some certificate =>
           if negb (String.eqb (Raw certificate) (le_CertificateDer row)) then CAMigrationStatusInvalidIssuerSignature
           else if CheckSignatureFrom certificate successor then
             if existsb (fun p => String.eqb (lt_CertificateClass p) (mq_CertificateClass query)
                   && String.eqb (lt_ReporterID p) (le_ReporterID row) && (lt_Generation p =? mq_Generation query)
                   && String.eqb (lt_ReporterCertificateDER p) (le_CertificateDer row)
                   && String.eqb (lt_IssuerFingerprint p) (mq_SuccessorIssuerFingerprint query))
                 (leaf_receipts (le_ReporterID row) (leaf_event_type (mq_CertificateClass query)) log)
             then CAMigrationStatusSuccessorConfirmed else CAMigrationStatusSuccessorIssued
           else if CheckSignatureFrom certificate current then CAMigrationStatusCurrentIssued
           else CAMigrationStatusInvalidIssuerSignature
       | None => CAMigrationStatusInvalidIssuerSignature
       end.

Lemma run_classify env query row current successor db :
  pe_read env = None ->
  run_prog env db (classifyCAMigrationEntry query row current successor)
  = (db, Ok (status_of query current successor (td_log db) row)).
Proof.
  intros Hr. unfold classifyCAMigrationEntry, status_of. case_match; [done|]. destruct (ParseCertificate _) as [c|]; [|done].
  case_match; [done|]. destruct (CheckSignatureFrom c successor); [|by case_match].
  unfold hasLeafTrustConfirmation. erewrite run_try by (cbn; by rewrite Hr). by case_match.
Qed.

Definition entry_at (query : CAMigrationReportQuery) (current successor : Certificate) (log : list PKIRow) (row : LeafEntry)
    : CAMigrationReportEntry :=
  mkCAMigrationReportEntry (le_ReporterID row) (le_CertificateDer row) (status_of query current successor log row).

Definition page_at (n : nat) (entries : list CAMigrationReportEntry) : CAMigrationReportPage :=
  if Z.of_nat n <? zlen entries
  then mkCAMigrationReportPage (take n entries) (from_option me_ReporterID ""%string (last (take n entries)))
  else mkCAMigrationReportPage entries ""%string.

Lemma run_report env query current successor db :
  pe_read env = None -> validateCAMigrationReportQuery query = Ok (current, successor) ->
  run_prog env db (CAMigrationReport query)
  = (db, Ok (page_at (Z.to_nat (mq_Limit query))
               (entry_at query current successor (td_log db) <$>
                  take (S (Z.to_nat (mq_Limit query)))
                    (report_rows (mq_CertificateClass query) (to_upper (mq_Cursor query)) (pk_leaves (td_tables db)))))).
Proof.
  intros Hr Hv. pose proof (validate_query_ok _ _ _ Hv) as (_ & Hlim & _). unfold CAMigrationReport.
  erewrite run_try by (cbn; by rewrite Hv). cbn beta iota. erewrite run_try by (cbn; by rewrite Hr).
  unfold ListCAMigrationReportEntries. rewrite wrap_s_id by lia.
  replace (Z.to_nat (mq_Limit query + 1)) with (S (Z.to_nat (mq_Limit query))) by lia.
  erewrite run_try; [|apply run_map; intros row _; erewrite run_try by (by apply run_classify); reflexivity].
  unfold page_at. rewrite Z2Nat.id by lia. done.
Qed.

Lemma report_rows_service class cursor t row :
  row ∈ report_rows class cursor t -> le_LifecycleState row <> "revoked"%string ->
  in_service class (le_ReporterID row) (le_CertificateDer row) t.
Proof.
  unfold report_rows, in_service. intros Hin Hl. destruct (String.eqb class CertificateClassAgent).
  - apply list_elem_of_omap in Hin as (id & _ & (d & Hd & ->)%fmap_Some). by exists d.
  - destruct (String.eqb class CertificateClassGateway); [|by apply elem_of_nil in Hin].
    apply list_elem_of_omap in Hin as (id & _ & (g & Hg & ->)%fmap_Some). by exists g.
Qed.

Definition migrated_status (status : string) : Prop :=
  status = CAMigrationStatusSuccessorConfirmed \/ status = CAMigrationStatusRevoked.

Lemma status_of_follows query current successor r db cursor row :
  leaves_follow (mq_CertificateClass query) (mq_SuccessorRootDER query) r db ->
  parseExactCertificate (mq_SuccessorRootDER query) = Ok successor ->
  mq_SuccessorIssuerFingerprint query = Sum256 (mq_SuccessorRootDER query) -> mq_Generation query = r_generation r ->
  row ∈ report_rows (mq_CertificateClass query) cursor (pk_leaves (td_tables db)) ->
  migrated_status (status_of query current successor (td_log db) row).
Proof.
  intros Hf Hs Hfp Hg Hrow. unfold status_of, migrated_status.
  destruct (String.eqb_spec (le_LifecycleState row) "revoked") as [|Hl]; [by right|].
  destruct (Hf _ _ (report_rows_service _ _ _ _ Hrow Hl)) as [(certificate & root & Hp & Hraw & Hroot & Hsig) (c & Hc & H1 & H2 & H3 & H4 & H5)].
  rewrite Hs in Hroot. injection Hroot as ->. rewrite Hp, Hraw, String.eqb_refl, Hsig. cbn [negb]. left.
  replace (existsb _ _) with true; [done|]. symmetry. apply existsb_exists. exists c. split; [by apply list_elem_of_In|].
  by rewrite H1, H2, H3, H4, H5, Hg, Hfp, !String.eqb_refl, Z.eqb_refl.
Qed.

Lemma check_entries_migrated entries :
  (forall e, e ∈ entries -> migrated_status (me_Status e)) -> check_entries entries = Ok tt.
Proof.
  intros H. unfold check_entries. destruct (find _ entries) as [e|] eqn:E; [|done].
  apply find_some in E as [Hin%list_elem_of_In Hn]. destruct (H e Hin) as [Hm|Hm]; by rewrite Hm in Hn.
Qed.

Lemma ltb_le x y : String.ltb x y = true <-> String.le x y /\ x <> y.
Proof.
  split; [|intros [H1 H2]; by apply ltb_of_le]. unfold String.ltb, String.le, String.leb.
  destruct (String.compare x y) eqn:E; [done| |done]. split; [done|]. intros ->.
  pose proof (String.compare_antisym y y) as Ha. by rewrite E in Ha.
Qed.

Lemma ltb_trans x y z : String.ltb x y = true -> String.ltb y z = true -> String.ltb x z = true.
Proof.
  rewrite !ltb_le. intros [H1 N1] [H2 N2]. split; [by etrans|]. intros ->. apply N1. by apply (anti_symm String.le).
Qed.

Lemma ltb_irrefl x : String.ltb x x = false.
Proof. apply not_true_iff_false. rewrite ltb_le. by intros [_ ?]. Qed.

(** The rows after one of the rows are fewer. *)
Lemma keys_after_shrink {A} cursor (m : gmap string A) y :
  y ∈ keys_after cursor m -> (length (keys_after y m) < length (keys_after cursor m))%nat.
Proof.
  intros Hy. assert (y :: keys_after y m ⊆+ keys_after cursor m) as Hs; [|by apply submseteq_length in Hs].
  apply NoDup_submseteq.
  - constructor; [|apply keys_after_sorted]. rewrite elem_of_keys_after. intros [H _]. by rewrite ltb_irrefl in H.
  - intros x [->|Hx]%elem_of_cons; [done|]. apply elem_of_keys_after in Hx as [Hlt Hx].
    apply elem_of_keys_after in Hy as [Hlt2 _]. apply elem_of_keys_after. split; [by eapply ltb_trans|done].
Qed.

Lemma report_rows_ids class cursor t :
  le_ReporterID <$> report_rows class cursor t
  = if String.eqb class CertificateClassAgent then keys_after cursor (lf_devices t)
    else if String.eqb class CertificateClassGateway then keys_after cursor (lf_gateways t) else [].
Proof.
  unfold report_rows. destruct (String.eqb class CertificateClassAgent); [|destruct (String.eqb class CertificateClassGateway); [|done]].
  - apply (omap_keys (fun id d => mkLeafEntry id (dr_CertificateDer d) (dr_LifecycleState d))); [done|].
    apply Forall_forall. intros id Hid%elem_of_keys_after. by destruct Hid.
  - apply (omap_keys (fun id g => mkLeafEntry id (gt_CertificateDer g) (gt_LifecycleState g))); [done|].
    apply Forall_forall. intros id Hid%elem_of_keys_after. by destruct Hid.
Qed.

Lemma report_rows_shrink class cursor t y :
  y ∈ le_ReporterID <$> report_rows class cursor t ->
  (length (report_rows class y t) < length (report_rows class cursor t))%nat.
Proof.
  rewrite <- !(length_fmap le_ReporterID), !report_rows_ids. case_match; [apply keys_after_shrink|].
  case_match; [apply keys_after_shrink|]. intros H1. by apply elem_of_nil in H1.
Qed.

(** A page that has a successor ends in one of its rows. *)
Lemma page_at_next n query current successor log rows :
  (0 < n)%nat -> mp_NextCursor (page_at n (entry_at query current successor log <$> take (S n) rows)) <> ""%string ->
  exists row, row ∈ rows /\ mp_NextCursor (page_at n (entry_at query current successor log <$> take (S n) rows)) = le_ReporterID row.
Proof.
  intros Hn. unfold page_at. destruct (Z.ltb_spec (Z.of_nat n) (zlen (entry_at query current successor log <$> take (S n) rows)))
    as [Hlt|]; [|done]. cbn [mp_NextCursor]. intros _.
  rewrite <- fmap_take, fmap_last, take_take, Nat.min_l by lia.
  destruct (last (take n rows)) as [row|] eqn:El.
  - exists row. split; [|done]. by apply last_Some_elem_of, (subseteq_take n) in El.
  - apply last_None, (f_equal length) in El. rewrite length_take in El. cbn [length] in El.
    unfold zlen in Hlt. rewrite length_fmap, length_take in Hlt. lia.
Qed.

Lemma page_at_entries n query current successor log rows e :
  e ∈ mp_Entries (page_at n (entry_at query current successor log <$> take (S n) rows)) ->
  exists row, row ∈ rows /\ me_Status e = status_of query current successor log row.
Proof.
  intros He. assert (e ∈ entry_at query current successor log <$> take (S n) rows) as Hin.
  { unfold page_at in He. destruct (_ <? _); cbn in He; [by eapply (subseteq_take n)|done]. }
  apply list_elem_of_fmap in Hin as (row & -> & Hrow). exists row. split; [by eapply (subseteq_take (S n))|done].
Qed.

Lemma validate_with_cursor query cursor v :
  ULIDPathID cursor = Ok tt -> validateCAMigrationReportQuery query = Ok v ->
  validateCAMigrationReportQuery (with_cursor query cursor) = Ok v.
Proof.
  intros Hc. unfold validateCAMigrationReportQuery. cbn [with_cursor mq_CertificateClass mq_Generation mq_Limit mq_Cursor
    mq_CurrentIssuerFingerprint mq_SuccessorIssuerFingerprint mq_CurrentRootDER mq_SuccessorRootDER].
  intros (u1 & -> & H)%bind_ok. apply bind_ok in H as (u2 & -> & H). apply bind_ok in H as (u3 & -> & H).
  apply bind_ok in H as (u4 & _ & H). cbn [mbind result_bind]. rewrite Hc. destruct (String.eqb cursor ""); exact H.
Qed.

Lemma run_pages env w query current successor r fuel :
  pe_read env = None -> world_inv w -> validateCAMigrationReportQuery query = Ok (current, successor) ->
  mq_Generation query = r_generation r -> to_upper (mq_Cursor query) = mq_Cursor query ->
  (length (report_rows (mq_CertificateClass query) (mq_Cursor query) (pk_leaves (w_tables w))) < fuel)%nat ->
  exists res, run_prog env w (migration_pages fuel query) = (w, res) /\ res <> Err out_of_pages
    /\ (leaves_follow (mq_CertificateClass query) (mq_SuccessorRootDER query) r (w_db w) -> res = Ok tt).
Proof.
  intros Hr HI. revert query. induction fuel as [|fuel IH]; intros query Hv Hg Hup Hfuel; [lia|].
  pose proof (validate_query_ok _ _ _ Hv) as (_ & Hlim & Hs & Hfp). cbn [migration_pages].
  set (rows := report_rows (mq_CertificateClass query) (mq_Cursor query) (pk_leaves (w_tables w))) in *.
  set (n := Z.to_nat (mq_Limit query)).
  set (page := page_at n (entry_at query current successor (td_log (w_db w)) <$> take (S n) rows)).
  assert (run_prog env w (lift_store (CAMigrationReport query)) = (w, Ok page)) as Hrun.
  { rewrite run_lift, (run_report env query current successor) by done. cbn [fst snd]. rewrite with_db_same, Hup. done. }
  erewrite run_try by exact Hrun. destruct (check_entries (mp_Entries page)) as [[]|e] eqn:Ec; cbn [try_prog bind_prog].
  2:{ exists (Err e). split; [done|]. split.
      - unfold check_entries in Ec. destruct (find _ _); [|done]. injection Ec as <-. done.
      - intros Hf. rewrite check_entries_migrated in Ec; [done|]. intros e' (row & Hrow & ->)%page_at_entries.
        by eapply status_of_follows. }
  destruct (String.eqb_spec (mp_NextCursor page) "") as [Hend|Hend]; [by exists (Ok tt)|].
  destruct (page_at_next n query current successor (td_log (w_db w)) rows ltac:(lia) Hend) as (row & Hrow & Hnext).
  fold page in Hnext. destruct (report_rows_keys (mq_CertificateClass query) (mq_Cursor query) (pk_leaves (w_tables w))) as (_ & _ & Hkeys).
  destruct (wi_keys _ HI _ (Hkeys row Hrow)) as [Hulid Hcanon].
  destruct (IH (with_cursor query (mp_NextCursor page))) as (res & Hres & Hne & Hok).
  - rewrite Hnext. by apply validate_with_cursor.
  - done.
  - cbn [with_cursor mq_Cursor]. by rewrite Hnext.
  - cbn [with_cursor mq_Cursor mq_CertificateClass]. rewrite Hnext.
    pose proof (report_rows_shrink (mq_CertificateClass query) (mq_Cursor query) (pk_leaves (w_tables w)) (le_ReporterID row)) as Hlt.
    specialize (Hlt (list_elem_of_fmap_2 _ _ _ Hrow)). fold rows in Hlt. lia.
  - exists res. split; [exact Hres|]. split; [done|]. exact Hok.
Qed.

(** The gate of the leaves ends, and passes when they all followed. *)
Lemma leaf_gate env w class snapshot root successor r fuel v :
  world_inv w -> pe_read env = None -> matches class snapshot r ->
  as_DesiredRootDER snapshot = [root; successor] -> as_SuccessorRootDER snapshot = successor -> successor <> ""%string ->
  validateCAMigrationReportQuery (migration_query snapshot) = Ok v ->
  (length (report_rows class "" (pk_leaves (w_tables w))) < fuel)%nat ->
  exists res, run_prog env w (requireLeafMigration fuel snapshot) = (w, res)
    /\ run_prog env w (migration_pages fuel (migration_query snapshot)) = (w, res)
    /\ res <> Err out_of_pages /\ (leaves_follow class successor r (w_db w) -> res = Ok tt).
Proof.
  intros HI Hr Hm Hd Hs Hne Hv Hfuel. pose proof Hm as (Hc & Hg & _ & _). destruct v as [current sc].
  assert (Hlen : (len successor =? 0) = false) by (destruct successor; [done|]; apply Z.eqb_neq; unfold len; cbn; lia).
  destruct (run_pages env w (migration_query snapshot) current sc r fuel) as (res & Hrun & Hout & Hok);
    [done|done|done|done|done|cbn; by rewrite Hc|]. cbn [migration_query mq_CertificateClass mq_SuccessorRootDER] in Hok.
  rewrite Hc, Hs in Hok. exists res. split_and!; [|exact Hrun|exact Hout|exact Hok].
  unfold requireLeafMigration. rewrite Hd, Hs, Hlen. exact Hrun.
Qed.

(** C38. Termination and exactness of the leaves' gate: with a readable store, a
    rotation whose pair of roots the migration report accepts, and more fuel than
    the class has certificates, [requireLeafMigration] ends without running out of
    pages, whatever their number, and it passes exactly when every certificate
    in service was issued by the successor and has a recorded receipt of it;
    no page boundary hides a certificate. *)
Theorem migration_gate_decides s env w class snapshot root successor r fuel v :
  world_inv w -> holds s class false w -> pe_read env = None -> matches class snapshot r ->
  as_DesiredRootDER snapshot = [root; successor] -> as_SuccessorRootDER snapshot = successor -> successor <> ""%string ->
  validateCAMigrationReportQuery (migration_query snapshot) = Ok v ->
  (length (report_rows class "" (pk_leaves (w_tables w))) < fuel)%nat ->
  exists res, run_prog env w (requireLeafMigration fuel snapshot) = (w, res) /\ res <> Err out_of_pages
    /\ (res = Ok tt <-> leaves_follow class successor r (w_db w)).
Proof.
  intros HI Hh Hr Hm Hd Hs Hne Hv Hfuel.
  destruct (leaf_gate env w class snapshot root successor r fuel v) as (res & Hres & Hrun & Hout & Hok); [done..|].
  exists res. split; [exact Hres|]. split; [exact Hout|]. split; [|exact Hok]. intros ->. destruct Hm as (Hc & Hg & _ & _).
  pose proof (judged_pages s class successor r fuel (migration_query snapshot) (holds s class false)
    (framed_holds s class false) (fun _ H => H) Hc Hs Hg eq_refl) as Hj.
  destruct (judged_run s _ _ _ env w Hj HI) as [_ Hq].
  - split; [exact Hh|]. split; [exact Hh|]. intros id der Hin Hle.
    destruct (in_service_key w class id der HI Hin) as [_ Hid]. cbn in Hle. by destruct id.
  - rewrite Hrun in Hq. cbn in Hq. by destruct Hq as [_ [_ ?]%leaves_follow_shown].
Qed.

(** ** Transitions that nothing disturbs *)

(** An environment in which nothing fails. *)
Record calm (env : PKIEnv) : Prop := {
  ca_read : pe_read env = None;
  ca_ctx : pe_ctx env = None;
  ca_publish : pe_publish env = None;
  ca_fault : ae_fault (pe_append env) = None;
  ca_commit : ae_commit (pe_append env) = Committed;
}.

Definition fenced (s : nat) (class : string) (w : World) : World :=
  with_locks w (mkAdvisoryLock s (fence_key class) false :: w_locks w).

Lemma rotationFenceKey_valid class : validCertificateClass class = true -> rotationFenceKey class = Ok (fence_key class).
Proof.
  unfold rotationFenceKey, validCertificateClass, fence_key. destruct (String.eqb class CertificateClassAgent); [done|].
  cbn. by intros ->.
Qed.

Lemma run_exclusive {A} s env class (action : RotProg A) w w1 r :
  calm env -> validCertificateClass class = true -> grants (fence_key class) false (w_locks w) = true ->
  run_prog env (fenced s class w) action = (w1, r) ->
  exists locks, run_prog env w (withExclusiveRotationFence s class action) = (with_locks w1 locks, r).
Proof.
  intros Hc Hv Hg Hrun. unfold withExclusiveRotationFence. rewrite (rotationFenceKey_valid class Hv).
  eexists. erewrite run_try by reflexivity.
  assert (forall key, WithAdvisoryLocks s [key] false action
    = try_prog (look (fun env _ => wrap_err (EWrap "store: acquire advisory-lock connection") (may_fault (pe_read env))))
        (fun _ => locked_action s false [key] action)) as -> by done.
  erewrite run_try by (cbn; by rewrite (ca_read _ Hc)). cbn [locked_action].
  erewrite run_try by (cbn; rewrite (ca_ctx _ Hc), Hg; reflexivity). rewrite run_bind.
  change (with_locks w _) with (fenced s class w). rewrite Hrun, run_bind. cbn. rewrite (ca_read _ Hc). cbn. reflexivity.
Qed.

(** The projection of a class is at its stream's version. *)
Definition stream_ready (class : string) (w : World) : Prop :=
  typed_version caRotationStreamType class (td_log (w_db w)) < max_int64
  /\ match pk_rotation (w_tables w) !! class with
     | Some row => ro_Version row = typed_version caRotationStreamType class (td_log (w_db w))
     | None => True
     end.

Lemma project_state_ok class state row t :
  validateCARotationState state = Ok tt -> te_StreamID (ty_Event row) = class -> cs_CertificateClass state = class ->
  match pk_rotation t !! class with Some r => ro_Version r = ty_Version row - 1 | None => True end ->
  projectCARotationState row (with_version state 0) t
  = Ok (mkPKITables (pk_leaves t) (<[class := mkRotationRow (ty_Version row) (with_version state 0) (ty_CreatedAt row)]> (pk_rotation t))).
Proof.
  intros Hv Hs Hc Hrow. unfold projectCARotationState. change (validateCARotationState (with_version state 0)) with (validateCARotationState state).
  rewrite Hv. cbn [mbind result_bind]. cbn [with_version cs_CertificateClass]. rewrite Hc, Hs, String.eqb_refl. cbn [negb fail_if mbind result_bind].
  unfold UpsertCARotationState. destruct (pk_rotation t !! class) as [r|]; [rewrite Hrow, Z.eqb_refl|]; done.
Qed.

Lemma run_append env operation class state event cb w w1 :
  calm env -> CARotationStateEvent operation state = Ok event -> cs_CertificateClass state = class -> stream_ready class w ->
  run_prog env w cb = (w1, Ok tt) -> w_db w1 = w_db w ->
  exists db, run_prog env w (append_state operation state cb) = (with_db w1 db, Ok tt)
    /\ rotation_of class db = Some (abs state).
Proof.
  intros Hcalm Hev Hc [Hmax Hrow] Hcb Hdb. destruct (CARotationStateEvent_ok _ _ _ Hev) as (Hv & t & Hevent).
  set (version := typed_version caRotationStreamType class (td_log (w_db w))) in *.
  assert (Hpos : 0 <= version) by apply typed_version_nonneg.
  assert (Hins : forall now, exists db, insert_typed (projectPKI false) now event (version + 1) (w_db w) = Ok db
            /\ rotation_of class db = Some (abs state)).
  { intros now. eexists. unfold insert_typed. replace (_ || _) with false
      by (symmetry; apply orb_false_iff; split; [apply Z.leb_gt|apply Z.ltb_ge]; lia). cbn [fail_if mbind result_bind].
    rewrite Hevent. cbn [projectPKI te_Payload ty_Event]. erewrite (project_state_ok class); [|done|done|done|].
    - split; [reflexivity|]. unfold rotation_of. cbn. by rewrite lookup_insert_eq.
    - cbn [ty_Version]. unfold w_tables in Hrow. destruct (pk_rotation _ !! class); [lia|done]. }
  assert (Hver : typed_version (te_StreamType event) (te_StreamID event) (td_log (w_db w)) = version)
    by (rewrite Hevent; cbn; by rewrite Hc).
  destruct (Hins (ae_now (pe_append env))) as (db & Hdb2 & Hrot). exists db. split; [|exact Hrot].
  unfold append_state, AppendEventBeforeCommit. erewrite run_try by (cbn; by rewrite Hev).
  erewrite run_try by (cbn; unfold open_append; rewrite (ca_fault _ Hcalm), Hver, Hdb2; reflexivity).
  erewrite run_try by (rewrite run_bind, Hcb; reflexivity). cbn.
  unfold AppendPinned. rewrite (ca_fault _ Hcalm), Hdb, Hver, Z.eqb_refl, Hdb2. cbn.
  replace (version <? 0) with false by (symmetry; apply Z.ltb_ge; lia). cbn. unfold commit_typed. by rewrite (ca_commit _ Hcalm).
Qed.

Lemma quiet_trans w1 w2 w3 : quiet w1 w2 -> quiet w2 w3 -> quiet w1 w3.
Proof. intros [A1 A2 A3 A4 A5] [B1 B2 B3 B4 B5]. split; congruence. Qed.

Lemma yields_run {A} (R : A -> Prop) p env w :
  yields R p -> quiet w (run_prog env w p).1 /\ R (run_prog env w p).2.
Proof.
  revert w. induction p as [a|X op k IH]; intros w Hp; cbn in *; [by split; [apply quiet_refl|]|].
  destruct (op env w) as [w' x] eqn:E. destruct (Hp env w w' x E) as [Hq Hk]. destruct (IH x w' Hk) as [Hq2 HR].
  split; [by eapply quiet_trans|done].
Qed.

Lemma quiet_tables w w' :
  quiet w w' -> td_log (w_db w') = td_log (w_db w) /\ pk_rotation (td_tables (w_db w')) = pk_rotation (td_tables (w_db w))
  /\ forall class cursor, report_rows class cursor (pk_leaves (td_tables (w_db w'))) = report_rows class cursor (pk_leaves (td_tables (w_db w))).
Proof.
  intros [H1 H2 H3 H4 _]. unfold w_tables in *. split; [done|]. split; [done|]. intros class cursor. unfold report_rows. by rewrite H3, H4.
Qed.

Lemma quiet_leaves class successor r w w' :
  quiet w w' -> leaves_follow class successor r (w_db w) -> leaves_follow class successor r (w_db w').
Proof.
  intros Hq H id der Hs. rewrite (qu_log _ _ Hq). apply H. eapply in_service_same; [apply Hq|apply Hq|exact Hs].
Qed.

Lemma LatestCRL_sequence class issuer env t crl : LatestCRL class issuer env t = Ok crl -> 0 <= sl_Sequence crl.
Proof.
  unfold LatestCRL. intros (u1 & _ & H)%bind_ok. apply bind_ok in H as (u2 & _ & H). apply bind_ok in H as (u3 & _ & H).
  destruct (t_crl t !! _) as [row|]; [|by injection H as <-]. destruct (cr_Sequence row =? 0).
  { apply bind_ok in H as (u & _ & [= <-]). done. }
  apply bind_ok in H as (u4 & Hz%fail_if_ok%orb_false_iff & H). destruct Hz as [Hz%Z.ltb_ge _].
  apply bind_ok in H as (t1 & _ & H). apply bind_ok in H as (u5 & _ & H). apply bind_ok in H as (u6 & _ & H).
  destruct (cr_Source row); [apply bind_ok in H as (u7 & _ & [= <-])|injection H as <-]; done.
Qed.

(** The lists of a class can be read. *)
Definition lists_readable (env : PKIEnv) (class : string) (w : World) : Prop :=
  forall issuer, exists crl, LatestCRL class [issuer] (crl_env env) (w_crl w) = Ok crl.

Lemma run_baseline env class der w :
  lists_readable env class w ->
  exists fingerprint sequence, run_prog env w (requiredCRLBaseline class der) = (w, Ok (fingerprint, sequence))
    /\ 0 <= sequence /\ (fingerprint = ""%string \/ fingerprint = Sum256 der).
Proof.
  intros Hl. unfold requiredCRLBaseline. case_match; [exists ""%string, 0; by split_and!; [done|lia|left]|].
  destruct (Hl (Sum256 der)) as [crl Hcrl]. exists (Sum256 der), (sl_Sequence crl).
  erewrite run_try by (cbn; by rewrite Hcrl). split; [done|]. split; [by eapply LatestCRL_sequence|by right].
Qed.

Lemma run_snapshot env state w :
  lists_readable env (cs_CertificateClass state) w -> is_ok (snapshot_of state) = true ->
  exists snapshot, run_prog env w (snapshotFromState state) = (w, Ok snapshot) /\ snapshot_for state snapshot.
Proof.
  intros Hl Hs. destruct (snapshot_of state) as [s|] eqn:E; [|done]. unfold snapshotFromState. erewrite run_try by (cbn; by rewrite E).
  case_match; [|exists s; split; [done|]; exists s; auto].
  destruct (Hl (as_RequiredCRLIssuerFingerprint s)) as [crl Hcrl].
  erewrite run_try by (cbn; by rewrite Hcrl). eexists. split; [reflexivity|]. exists s. eauto.
Qed.

(** The certificates of a valid state. *)
Lemma valid_material state :
  validateCARotationState state = Ok tt ->
  validCertificateClass (cs_CertificateClass state) = true /\ (len (cs_CurrentRootDER state) =? 0) = false
  /\ (maxCertificateDERBytes <? len (cs_CurrentRootDER state)) = false
  /\ (maxCertificateDERBytes <? len (cs_SuccessorRootDER state)) = false
  /\ (cs_Phase state = RotationPhaseMigrate -> (len (cs_SuccessorRootDER state) =? 0) = false).
Proof.
  unfold validateCARotationState. intros (u1 & Hc%fail_if_ok%negb_false_iff & H)%bind_ok.
  apply bind_ok in H as (u2 & Hz%fail_if_ok & H). apply bind_ok in H as (u3 & Hs%fail_if_ok & H).
  apply bind_ok in H as (u4 & _ & H). 
  apply orb_false_iff in Hz as [_ Hz]. apply orb_false_iff in Hs as [[[Hs1 Hs2]%orb_false_iff _]%orb_false_iff _]. split; [done|]. split; [done|]. split; [done|]. split; [done|].
  intros Hp. rewrite Hp in H. cbn in H. apply fail_if_ok in H. by apply orb_false_iff in H as [? _].
Qed.

(** The state that [Retire] commits is valid. *)
Lemma retired_state_valid state class fingerprint sequence v :
  validateCARotationState state = Ok tt -> cs_CertificateClass state = class -> cs_Phase state = RotationPhaseMigrate ->
  (len fingerprint =? 0) = true \/ (len fingerprint =? 32) = true -> 0 <= sequence -> v <> 0 ->
  validateCARotationState (mkCARotationState class RotationPhaseRetire (cs_Generation state) v (cs_CurrentRootDER state) false
    (cs_SuccessorRootDER state) "" "" fingerprint sequence 0) = Ok tt.
Proof.
  intros Hv <- Hp Hf Hq Hne. destruct (valid_counts _ Hv) as [Hg _]. destruct (valid_material _ Hv) as (Hc & H1 & H2 & H3 & H4).
  unfold validateCARotationState. cbn [cs_CertificateClass cs_Generation cs_Revision cs_CurrentRootDER cs_SuccessorRootDER
    cs_DiscardedRootDER cs_TransitionCertificateDER cs_RequiredCRLIssuerFingerprint cs_RequiredCRLSequence cs_Phase].
  rewrite Hc, (proj2 (Z.eqb_neq _ _) Hg), (proj2 (Z.eqb_neq _ _) Hne), H1, H2, H3, (H4 Hp), (proj2 (Z.ltb_ge _ _) Hq).
  by destruct Hf as [-> | ->]; rewrite ?andb_false_r.
Qed.

Lemma fenced_inv s class w :
  world_inv w -> grants (fence_key class) false (w_locks w) = true -> world_inv (fenced s class w) /\ holds s class false (fenced s class w).
Proof. intros HI Hg. split; [by apply acquire_inv|by left]. Qed.

(** What a snapshot read under the fence says of a migrating class. *)
Lemma snapshot_migrating s env w class snapshot w1 root successor g v :
  world_inv w -> grants (fence_key class) false (w_locks w) = true ->
  run_prog env (fenced s class w) (Snapshot class) = (w1, Ok snapshot) ->
  rotation_of class (w_db w) = Some (mkRotation root (Migrating successor) g v) ->
  quiet (fenced s class w) w1 /\ world_inv w1 /\ holds s class false w1
  /\ describes class snapshot (mkRotation root (Migrating successor) g v)
  /\ exists state, validateCARotationState state = Ok tt /\ cs_CertificateClass state = class
       /\ cs_Phase state = RotationPhaseMigrate /\ abs state = mkRotation root (Migrating successor) g v.
Proof.
  intros HI Hg Hrun Hrot. destruct (fenced_inv s class w HI Hg) as [HIf Hh].
  destruct (yields_run _ _ env (fenced s class w) (yields_Snapshot class)) as [Hq _]. rewrite Hrun in Hq.
  destruct (judged_run s _ _ _ env (fenced s class w) (judged_Snapshot s class false) HIf Hh) as [HI1 Hj].
  rewrite Hrun in HI1, Hj. cbn [fst snd] in *. destruct Hj as (Hv & Hh1 & Ho). split; [done|]. split; [done|]. split; [done|].
  unfold rotation_of in Hrot. destruct (pk_rotation (td_tables (w_db w)) !! class) as [row|] eqn:Erow; [|done].
  assert (abs (ro_State row) = mkRotation root (Migrating successor) g v) as Habs by (cbn in Hrot; congruence).
  assert (pk_rotation (w_tables w1) !! class = Some row) as E1 by (rewrite (qu_rotation _ _ Hq); exact Erow).
  rewrite E1 in Ho. destruct (observed_describes _ _ _ Ho) as (r & Hd & Hs). cbn in Hs. subst r. rewrite Habs in Hd. split; [done|].
  destruct Ho as (state & (-> & Hvalid & Hcl) & _). exists (ro_State row). split; [done|]. split; [done|]. split; [|done].
  destruct (valid_phase _ Hvalid) as [Hp|[Hp|[Hp|Hp]]]; [|..]; [|..]; try done; unfold abs in Habs; rewrite Hp in Habs; cbn in Habs;
    try (destruct (len _ =? 0)); done.
Qed.

Definition retiring_state (class root successor fingerprint : string) (g v sequence : Z) : CARotationState :=
  mkCARotationState class RotationPhaseRetire g v root false successor "" "" fingerprint sequence 0.

(** The commit of [Retire]: the baseline, the snapshot and the event. *)
Lemma retire_commits env w class state root successor g v :
  calm env -> validateCARotationState state = Ok tt -> cs_CertificateClass state = class ->
  cs_Phase state = RotationPhaseMigrate -> abs state = mkRotation root (Migrating successor) g v -> 0 <= v ->
  stream_ready class w -> lists_readable env class w -> len (Sum256 successor) = 32 ->
  exists fingerprint sequence next w',
    run_prog env w (requiredCRLBaseline class successor) = (w, Ok (fingerprint, sequence))
    /\ run_prog env w (snapshotFromState (retiring_state class root successor fingerprint g (v + 1) sequence)) = (w, Ok next)
    /\ run_prog env w (append_state "retire" (retiring_state class root successor fingerprint g (v + 1) sequence)
                         (publishSnapshot next false)) = (w', Ok tt)
    /\ w_authorities w' = w_authorities w /\ as_IssuingRootDER next = successor
    /\ rotation_of class (w_db w') = Some (mkRotation root (Retiring successor) g (v + 1)).
Proof.
  intros Hcalm Hvalid Hcl Hp Habs Hv Hready Hlists Hsum.
  unfold abs in Habs. rewrite Hp in Habs. injection Habs as Hroot Hst Hg Hrev.
  destruct (run_baseline env class successor w Hlists) as (fp & seq & Hbase & Hseq & Hfp). exists fp, seq.
  set (next_state := retiring_state class root successor fp g (v + 1) seq).
  assert (validateCARotationState next_state = Ok tt) as Hnv.
  { unfold next_state, retiring_state. rewrite <- Hroot, <- Hst, <- Hg. apply retired_state_valid; [done|done|done| |done|lia].
    destruct Hfp as [->| ->]; [by left|right; by rewrite Hsum]. }
  assert (is_ok (snapshot_of next_state) = true) as Hok by done.
  destruct (run_snapshot env next_state w Hlists Hok) as (next & Hnext & Hnfor).
  assert (is_ok (CARotationStateEvent "retire" next_state) = true) as Hev by (unfold CARotationStateEvent; by rewrite Hnv).
  destruct (CARotationStateEvent "retire" next_state) as [event|] eqn:Eev; [|done].
  destruct (run_append env "retire" class next_state event (publishSnapshot next false) w
              (with_bundles w (w_bundles w ++ [mkTrustBundlePublication (as_Class next)
                 (as_Generation next) (as_Revision next) (as_DesiredRootDER next) (as_TransitionCertificateDER next)
                 (Sum256 <$> activeCRLRoots next)]))) as (db & Happ & Hnew); [done|done|done|done| |done|].
  { cbn. by rewrite (ca_publish _ Hcalm). }
  pose proof (snapshot_describes next_state next (or_intror (or_intror (or_intror eq_refl))) Hnfor) as [_ Hissue _].
  eexists next, _. split; [exact Hbase|]. split; [exact Hnext|]. split; [exact Happ|]. done.
Qed.

(** A root that the migration report accepts: a self-signed authority in exact
    DER. *)
Definition reportable (der : string) : Prop :=
  exists root, ParseCertificate der = Some root /\ Raw root = der /\ IsCA root = true /\ CheckSignatureFrom root root = true.

Lemma reportable_valid name der : reportable der -> exists root, validateReportRoot name der (Sum256 der) = Ok root.
Proof.
  intros (root & Hp & Hr & Hca & Hs). exists root. unfold validateReportRoot.
  rewrite Hp. cbn [or_err mbind result_bind]. by rewrite Hr, Hca, Hs, !String.eqb_refl.
Qed.

Lemma migration_query_valid snapshot root successor :
  validCertificateClass (as_Class snapshot) = true -> as_Generation snapshot <> 0 ->
  as_DesiredRootDER snapshot = [root; successor] -> as_SuccessorRootDER snapshot = successor ->
  reportable root -> reportable successor -> Sum256 root <> Sum256 successor ->
  exists v, validateCAMigrationReportQuery (migration_query snapshot) = Ok v.
Proof.
  intros Hc Hg Hd Hs [c1 H1]%(reportable_valid "current") [c2 H2]%(reportable_valid "successor") Hne%String.eqb_neq. exists (c1, c2).
  apply Z.eqb_neq in Hg. unfold validateCAMigrationReportQuery, migration_query.
  cbn [mq_CertificateClass mq_Generation mq_Limit mq_Cursor mq_CurrentIssuerFingerprint mq_SuccessorIssuerFingerprint mq_CurrentRootDER mq_SuccessorRootDER].
  rewrite Hc, Hg, Hd, Hs. cbn [head default id]. rewrite Hne, H1, H2. done.
Qed.

(** C37. Liveness of [Retire]: once every certificate in service has followed to
    the successor - each was issued by it and has a receipt of it on record - a
    call returns success, and the class is durably retiring its predecessor at
    the next revision.  The call must meet a calm environment and a free fence,
    a process that can restore the class and has the successor's authority,
    readable revocation lists and a projection at its stream's version; and the
    two roots must have different fingerprints and still parse as self-signed
    authorities in exact DER, which the gate checks once more. *)
Theorem Retire_completes s env w w1 class snapshot fuel root successor g v :
  calm env -> world_inv w -> stream_ready class w -> grants (fence_key class) false (w_locks w) = true ->
  rotation_of class (w_db w) = Some (mkRotation root (Migrating successor) g v) -> 0 <= v < 2 ^ 64 - 1 ->
  leaves_follow class successor (mkRotation root (Migrating successor) g v) (w_db w) ->
  run_prog env (fenced s class w) (Snapshot class) = (w1, Ok snapshot) ->
  is_Some (authorityForIssuer (w_authorities w1) class (Sum256 successor)) ->
  lists_readable env class w1 -> len (Sum256 successor) = 32 ->
  reportable root -> reportable successor -> Sum256 root <> Sum256 successor ->
  (length (report_rows class "" (pk_leaves (w_tables w))) < fuel)%nat ->
  exists w', run_prog env w (Retire fuel s class) = (w', Ok tt)
    /\ rotation_of class (w_db w') = Some (mkRotation root (Retiring successor) g (v + 1)).
Proof.
  intros Hcalm HI [Hmax Hrow] Hg Hrot Hvb Hleaves Hsnap [authority Hauth] Hlists Hsum Hr1 Hr2 Hne Hfuel.
  destruct (snapshot_migrating s env w class snapshot w1 root successor g v HI Hg Hsnap Hrot)
    as (Hquiet & HI1 & Hh1 & [Hm Hi [Hph Hsucc]] & state & Hvalid & Hcl & Hp & Habs).
  pose proof Hm as (Hc & Hgen & Hrev & Hd). cbn in Hi, Hgen, Hrev, Hd, Hph, Hsucc.
  destruct (quiet_tables _ _ Hquiet) as (Hlog & Hrt & Hrows). cbn [fenced with_locks w_db] in Hlog, Hrt, Hrows.
  destruct (valid_material _ Hvalid) as (Hv & _ & _ & _ & Hs0). pose proof Habs as Habs2. unfold abs in Habs2. rewrite Hp in Habs2.
  injection Habs2 as _ Hst _ _. specialize (Hs0 Hp). rewrite Hst in Hs0.
  pose proof (valid_counts _ Hvalid) as [Hgpos _]. rewrite (f_equal r_generation Habs : cs_Generation state = g) in Hgpos.
  destruct (migration_query_valid snapshot root successor) as [q Hq]; [by rewrite Hc, <- Hcl|by rewrite Hgen|done..|].
  destruct (leaf_gate env w1 class snapshot root successor (mkRotation root (Migrating successor) g v) fuel q)
    as (res & Hgate & _ & _ & Hok); [done|apply Hcalm|done|done|done|by intros ->|done|unfold w_tables; by rewrite Hrows|].
  rewrite Hok in Hgate by (by apply (quiet_leaves class successor _ _ _ Hquiet)).
  assert (stream_ready class w1) as Hready by (unfold stream_ready, w_tables in *; by rewrite Hlog, Hrt).
  destruct (retire_commits env w1 class state root successor g v)
    as (fp & seq & next & w2 & Hbase & Hnext & Happ & Hauths & Hissue & Hnew); [done|done|done|done|done|lia|done|done|done|].
  unfold Retire. match goal with
  | |- context [withExclusiveRotationFence s class ?a] => pose proof (run_exclusive s env class a w w2 (Ok next)) as Hex
  end. destruct Hex as [locks Hex]; [done|by rewrite <- Hcl|done| |].
  - erewrite run_try by exact Hsnap. rewrite Hph, String.eqb_refl. cbn [negb].
    erewrite run_try by exact Hgate. rewrite Hsucc. erewrite run_try by exact Hbase. cbv beta iota zeta.
    unfold wrap_u. rewrite Hgen, Hrev, Hd, Z.mod_small by lia. cbn [desired r_phase head default from_option].
    erewrite run_try by exact Hnext. erewrite run_try by exact Happ. reflexivity.
  - assert (selectAuthority (w_authorities w2) class (Sum256 successor) = (with_current (w_authorities w2) class authority, Ok tt)) as Hsel.
    { unfold selectAuthority. rewrite <- Hcl, Hv, Hcl. unfold authorityForIssuer in Hauth. by rewrite Hauths, Hauth. }
    eexists. split.
    + erewrite run_try by exact Hex. rewrite Hissue. erewrite run_try; [reflexivity|].
      cbn. cbn in Hsel. rewrite Hsel. reflexivity.
    + cbn. exact Hnew.
Qed.

End Runs.

(** ** A whole rotation *)

Module RotationExample.

Definition gateway : string := CertificateClassGateway.

(** Two roots, the second one's proof, which the first one signed, and a
    certificate that the second one issued. *)
Definition authority (der subject issuer key issuer_key : string) : Certificate :=
  mkCertificate der subject issuer "" [] (Some 1) key issuer_key true true 0 false 96 [] 0 (2000000000 * second)
    (KeyECDSAPublic (Some sample_pub)) [] [] [] [] [] [] [] [].

#[export] Instance x509 : X509 := {|
  ParseCertificate der :=
    if String.eqb der "old" then Some (authority "old" "old" "old" "ko" "")
    else if String.eqb der "new" then Some (authority "new" "new" "new" "kn" "")
    else if String.eqb der "proof" then Some (authority "proof" "new" "old" "kn" "ko")
    else if String.eqb der "leaf" then Some (authority "leaf" "leaf" "new" "kl" "kn") else None;
  CheckSignatureFrom child parent := String.eqb (RawIssuer child) (RawSubject parent);
  MarshalPKIXPublicKey _ := Some "key"%string;
  unmarshalRawValues _ := None;
|}.

#[export] Instance schemes : Schemes := {|
  sha256 material := string_of_bytes (take 32 (material ++ repeat 0 32));
  signDigest _ _ := Err "no key"%string;
  verifyASN1 _ _ _ := false;
  verifyPKCS1v15 _ _ _ := false;
  parsesASN1 _ := false;
|}.
#[export] Instance x25519 : X25519 := {| NewPublicKey _ := true; ECDH_usable _ := true |}.
#[export] Instance x509crl : X509CRL := {|
  ParseRevocationList _ := None;
  CreateRevocationList _ _ _ := Err "unused"%string;
  ListCheckSignatureFrom _ _ := false;
|}.

Definition signer : SigningKey := KeyECDSAPrivate (Some sample_key).
Definition service_env : ServiceEnv := mkServiceEnv (mkTokenEnv (mkAppendEnv None Committed 0) None second None None) None None.
Definition env : PKIEnv := mkPKIEnv (mkAppendEnv None Committed 0) None second None None service_env.

Definition old_authority : certificateAuthority := mkCertificateAuthority (authority "old" "old" "old" "ko" "") signer "key".
Definition start : World :=
  mkWorld (mkTypedDB [] (mkPKITables (mkLeafTables ∅ ∅ (mkCRLTables ∅ ∅ [] []) ∅) ∅)) []
    (mkAuthorities old_authority old_authority signer {[Sum256 "old" := old_authority]} {[Sum256 "old" := old_authority]})
    ∅ [] (mkServiceState (mkTypedDB [] ∅) None []).

(** Control's receipts of the roots of a generation and revision. *)
Definition control (g v : Z) (roots : list string) : Call :=
  CallConfirmControl (mkControlTrustStateConfirmation gateway g v (Sum256 <$> roots) "" 0).

Definition rotation_calls : list Call :=
  [CallBeginTrust gateway "new" "proof" signer; control 2 1 ["old"; "new"]; CallMigrate gateway; CallRetire 1 gateway;
   control 2 2 ["new"]; CallNormalize gateway].

Definition after (n : nat) : World := (run_all env start (imap run_call (take n rotation_calls))).1.
Definition rotated : World := after 6.
Definition migrating : World := after 3.

Lemma start_inv : world_inv start.
Proof. split; [intros l1 l2 H; by apply elem_of_nil in H|done|by intros id [[? ?]|[? ?]]|by split]. Qed.

Lemma schedule n :
  rtc (sched_step (fun _ _ => False)) (start, imap run_call (take n rotation_calls))
    (after n, Ret <$> (run_all env start (imap run_call (take n rotation_calls))).2).
Proof. exact (run_all_schedule _ env start [] (imap run_call (take n rotation_calls))). Qed.

Lemma migrating_inv : world_inv migrating.
Proof. eapply calls_refine; [exact start_inv|exact (schedule 3)]. Qed.

Lemma migrating_rotation : rotation_of gateway (w_db migrating) = Some (mkRotation "old" (Migrating "new") 2 1).
Proof. vm_compute. reflexivity. Qed.

(** The same world with a gateway, and with more receipts. *)
Definition identity : string := "01ARZ3NDEKTSV4RRFFQ69G5FAV".
Definition enrolled (der : string) : PKIRow :=
  mkTypedRow (mkTypedEvent gatewayStreamType identity (PLeaf (gatewayEnrolled (mkGatewayEnrolledPayload der identity "ops" [])))) 1 0.
Definition one_gateway (der : string) : LeafTables :=
  mkLeafTables ∅ {[identity := mkGatewayRow 1 der "" "" identity "ops" [] "active" 0]} (mkCRLTables ∅ ∅ [] []) ∅.
Definition with_gateway (der : string) (receipts : list PKIRow) (w : World) : World :=
  with_db w (mkTypedDB (td_log (w_db w) ++ enrolled der :: receipts) (mkPKITables (one_gateway der) (pk_rotation (w_tables w)))).

Lemma with_gateway_inv der receipts w : world_inv w -> world_inv (with_gateway der receipts w).
Proof.
  intros [HL HB _ _]. split; [exact HL|exact HB| |split; [done|]].
  - intros id [[d Hd]|[g Hg]]; [done|]. cbn in Hg. apply lookup_singleton_Some in Hg as [<- _]. by vm_compute.
  - cbn. intros id g [<- <-]%lookup_singleton_Some. split.
    + apply (typed_version_ge (enrolled der)). apply elem_of_app. right. by left.
    + exists (enrolled der), (gatewayEnrolled (mkGatewayEnrolledPayload der identity "ops" [])).
      split; [apply elem_of_app; right; by left|done].
Qed.

(** A gateway that still has a certificate of the old root, and one that has
    followed: its certificate is the new root's, and it has confirmed. *)
Definition waiting : World := with_gateway "old" [] migrating.
Lemma waiting_inv : world_inv waiting.
Proof. apply with_gateway_inv, migrating_inv. Qed.

Definition receipt : PKIRow :=
  mkTypedRow (mkTypedEvent caTrustConfirmationStreamType identity
    (PLeafTrust (leaf_event_type gateway) (mkLeafTrustConfirmation gateway identity "leaf" 2 (Sum256 "new")))) 1 0.
Definition followed : World := with_gateway "leaf" [receipt] migrating.
Lemma followed_inv : world_inv followed.
Proof. apply with_gateway_inv, migrating_inv. Qed.

Lemma followed_rotation : rotation_of gateway (w_db followed) = Some (mkRotation "old" (Migrating "new") 2 1).
Proof. vm_compute. reflexivity. Qed.

Lemma followed_serves : in_service gateway identity "leaf" (pk_leaves (td_tables (w_db followed))).
Proof. eexists. split; [vm_compute; reflexivity|]. by split. Qed.

Lemma gateways_followed : leaves_follow gateway "new" (mkRotation "old" (Migrating "new") 2 1) (w_db followed).
Proof.
  intros id der H. cbn in H. destruct H as (g & Hg & _ & Hd). apply lookup_singleton_Some in Hg as [<- <-]. cbn in Hd. subst der. split.
  - exists (authority "leaf" "leaf" "new" "kl" "kn"), (authority "new" "new" "new" "kn" ""). vm_compute. split_and!; reflexivity.
  - exists (mkLeafTrustConfirmation gateway identity "leaf" 2 (Sum256 "new")). split; [|vm_compute; split_and!; reflexivity].
    apply list_elem_of_omap. exists receipt. split; [|vm_compute; reflexivity].
    apply elem_of_app. right. right. by left.
Qed.

Lemma old_reportable : reportable "old".
Proof. eexists. vm_compute. split_and!; reflexivity. Qed.
Lemma new_reportable : reportable "new".
Proof. eexists. vm_compute. split_and!; reflexivity. Qed.

Definition observed : AuthoritySnapshot :=
  Eval vm_compute in
    match (run_prog env (fenced 0 gateway migrating) (Snapshot gateway)).2 with
    | Ok s => s
    | Err _ => mkAuthoritySnapshot "" "" 0 0 [] "" "" "" "" "" 0 0
    end.

Lemma readable w : w_crl w = mkCRLTables ∅ ∅ [] [] -> lists_readable env gateway w.
Proof. intros H issuer. rewrite H. eexists. unfold LatestCRL. cbn. rewrite lookup_empty. reflexivity. Qed.
End RotationExample.

Import RotationExample.

(** The bundle of a transition is published before its event commits: when the
    commit fails, distributors have a generation that was never durable. *)
Example published_without_commit :
  let env := mkPKIEnv (mkAppendEnv None (CommitFailed (EMsg "lost")) 0) None second None None service_env in
  let w := (run_prog env start (run_call 0 (CallBeginTrust gateway "new" "proof" signer))).1 in
  rotation_of gateway (w_db w) = None /\ (tb_Generation <$> w_bundles w) = [2].
Proof. vm_compute. split; reflexivity. Qed.

Example whole_rotation :
  (run_all env start (imap run_call rotation_calls)).2 = replicate 6 (Ok tt)
  /\ rotation_of gateway (w_db rotated) = Some (mkRotation "new" Stable 2 2).
Proof. vm_compute. split; reflexivity. Qed.

Lemma migration_gate_decides_witness :
  exists res, run_prog env (fenced 0 gateway waiting) (requireLeafMigration 2 observed) = (fenced 0 gateway waiting, res)
    /\ res <> Err out_of_pages
    /\ (res = Ok tt <-> leaves_follow gateway "new" (mkRotation "old" (Migrating "new") 2 1) (w_db (fenced 0 gateway waiting))).
Proof.
  eapply (migration_gate_decides 0 env (fenced 0 gateway waiting) gateway observed "old" "new"
            (mkRotation "old" (Migrating "new") 2 1) 2).
  - apply fenced_inv; [exact waiting_inv|vm_compute; reflexivity].
  - by left.
  - reflexivity.
  - vm_compute. split_and!; reflexivity.
  - vm_compute. reflexivity.
  - vm_compute. reflexivity.
  - discriminate.
  - vm_compute. reflexivity.
  - vm_compute. lia.
Defined.

Lemma Retire_completes_witness :
  in_service gateway identity "leaf" (pk_leaves (td_tables (w_db followed)))
  /\ exists w', run_prog env followed (Retire 2 0 gateway) = (w', Ok tt)
    /\ rotation_of gateway (w_db w') = Some (mkRotation "old" (Retiring "new") 2 2).
Proof.
  split; [exact followed_serves|]. eapply (Retire_completes 0 env followed _ gateway observed 2 "old" "new" 2 1).
  - by split.
  - exact followed_inv.
  - vm_compute. by split.
  - vm_compute. reflexivity.
  - exact followed_rotation.
  - by split.
  - exact gateways_followed.
  - vm_compute. reflexivity.
  - vm_compute. by eexists.
  - apply readable. vm_compute. reflexivity.
  - vm_compute. reflexivity.
  - exact old_reportable.
  - exact new_reportable.
  - vm_compute. discriminate.
  - vm_compute. lia.
Defined.
