(* ===== verification/Issuance.v ===== *)
(** * [server/internal/pki]: issuing, renewing and revoking leaf certificates

    [enrollment.go], [gateway.go], [renewal.go], [revocation.go],
    [confirmation.go] and [public_auth.go], over [store/device_lifecycle.go]:
    the public certificate-lifecycle calls, as programs on the world of the
    rotation manager.  A call holds both rotation fences from its snapshots to
    its append, so that a certificate is put into service under the authorities
    it was issued by. *)

From Stdlib Require Import Ascii String ZArith Lia.
From S2P Require Export Rotation.

(** ** Interfaces *)

(** The fields of an [x509.CertificateRequest] the program reads; its
    extensions are kept as their identifiers. *)
Record CertificateRequest := mkCertificateRequest {
  cq_Raw : string;
  cq_PublicKey : SigningKey;
  cq_DNSNames : list string;
  cq_EmailAddresses : list string;
  cq_IPAddresses : list string;
  cq_URIs : list string;
  cq_Extensions : list OID;
}.

(** What the program uses of [crypto/x509] to issue certificates; a signature
    may consume random bytes. *)
Class X509Issue := {
  ParseCertificateRequest : string -> option CertificateRequest;
  CheckRequestSignature : CertificateRequest -> bool;
  CreateCertificate : list Z -> Certificate -> Certificate -> SigningKey -> SigningKey -> result string string;
}.

(** What it uses of [net] and [net/netip]: the host of a host and port, and the
    parsed and printed forms of an address. *)
Class NetIP := {
  SplitHost : string -> option string;
  ParseAddr : string -> option Addr;
  AddrString : Addr -> string;
}.

(** ** Replies *)

(** The codes of a [connect.Error]. *)
Inductive connect_code :=
| CodeCanceled
| CodeInvalidArgument
| CodeDeadlineExceeded
| CodeResourceExhausted
| CodeInternal
| CodeUnauthenticated.

#[export] Instance connect_code_eq_dec : EqDecision connect_code.
Proof. solve_decision. Defined.

Record ConnectError := mkConnectError { cn_Code : connect_code; cn_Error : goerr }.

Definition RpcProg (A : Type) : Type := prog PKIEnv World (result ConnectError A).

(** server/internal/pki/enrollment.go:42-47 [errEnrollmentRequestRejected] *)
Definition errEnrollmentRequestRejected : goerr := ESentinel "enrollment request rejected".
Definition errEnrollmentAuthRejected : goerr := ESentinel "enrollment authorization rejected".
Definition errEnrollmentRateLimited : goerr := ESentinel "enrollment rate limited".
Definition errEnrollmentTemporarilyFailed : goerr := ESentinel "enrollment temporarily unavailable".

(** server/internal/pki/renewal.go:23-28 [errRenewalRequestRejected] *)
Definition errRenewalRequestRejected : goerr := ESentinel "renewal request rejected".
Definition errRenewalAuthRejected : goerr := ESentinel "renewal authorization rejected".
Definition errRenewalRateLimited : goerr := ESentinel "renewal rate limited".
Definition errRenewalTemporarilyFailed : goerr := ESentinel "renewal temporarily unavailable".

(** server/internal/pki/revocation.go:21-26 [errLifecycleRequestRejected] *)
Definition errLifecycleRequestRejected : goerr := ESentinel "certificate lifecycle request rejected".
Definition errLifecycleAuthRejected : goerr := ESentinel "certificate lifecycle authorization rejected".
Definition errLifecycleRateLimited : goerr := ESentinel "certificate lifecycle rate limited".
Definition errLifecycleTemporarilyFailed : goerr := ESentinel "certificate lifecycle temporarily unavailable".
Definition maxLifecycleAuthorizationBytes : Z := 8192.

(** server/internal/pki/confirmation.go:17-17 [errTrustConfirmationRateLimited] *)
Definition errTrustConfirmationRateLimited : goerr := ESentinel "trust confirmation rate limited".
Definition errTrustConfirmationUnavailable : goerr := EMsg "trust confirmation unavailable".

(** The errors of contexts, by the name [errors.Is] knows them under. *)
Definition Canceled : string := "context.Canceled".
Definition DeadlineExceeded : string := "context.DeadlineExceeded".

(** The switch that all mappings end with. *)
Definition map_context_error (otherwise e : goerr) : ConnectError :=
  if errors_is Canceled e then mkConnectError CodeCanceled (ESentinel Canceled)
  else if errors_is DeadlineExceeded e then mkConnectError CodeDeadlineExceeded (ESentinel DeadlineExceeded)
  else mkConnectError CodeInternal otherwise.

(** server/internal/pki/gateway.go:315-326 [mapEnrollmentTokenError] *)
Definition mapEnrollmentTokenError (e : goerr) : ConnectError :=
  if errors_is "registration token rejected" e then mkConnectError CodeUnauthenticated errEnrollmentAuthRejected
  else map_context_error errEnrollmentTemporarilyFailed e.

(** server/internal/pki/gateway.go:328-339 [mapRenewalError] *)
Definition mapRenewalError (e : goerr) : ConnectError :=
  if errors_is "renewal authorization rejected" e then mkConnectError CodeUnauthenticated errRenewalAuthRejected
  else map_context_error errRenewalTemporarilyFailed e.

(** server/internal/pki/revocation.go:197-211 [mapLifecycleError] *)
Definition mapLifecycleError (e : goerr) : ConnectError :=
  if errors_is "certificate lifecycle authorization rejected" e
  then mkConnectError CodeUnauthenticated errLifecycleAuthRejected
  else map_context_error errLifecycleTemporarilyFailed e.

(** server/internal/pki/confirmation.go:120-131 [mapTrustConfirmationError] *)
Definition mapTrustConfirmationError (e : goerr) : ConnectError :=
  if errors_is "trust state confirmation rejected" e then mkConnectError CodeUnauthenticated ErrTrustStateRejected
  else map_context_error errTrustConfirmationUnavailable e.

(** A program whose errors travel as replies. *)
Definition replying {A} (map : goerr -> ConnectError) (p : RotProg A) : RpcProg A :=
  bind_prog p (fun r => Ret (match r with Ok a => Ok a | Err e => Err (map e) end)).

(** An error that is replied at once. *)
Definition or_reply {A E} (code : connect_code) (error : goerr) (r : result E A) : result ConnectError A :=
  wrap_err (fun _ => mkConnectError code error) r.

Section Issuance.
Context {x509 : X509} {schemes : Schemes} {x509crl : X509CRL} {x25519 : X25519} {issue : X509Issue} {netip : NetIP}.

(** ** The service *)

(** server/internal/pki/enrollment.go:50-60 [EnrollmentService]: the trusted
    proxies, and whether a rotation manager is wired; the other fields are the
    world's.  [NewEnrollmentService] makes no service with a missing part *)
Record EnrollmentService := mkEnrollmentService { es_trustedProxies : list Prefix; es_rotationManaged : bool }.

(** What the transport says of a request: the peer and the headers. *)
Record Transport := mkTransport { tr_Peer : string; tr_ForwardedFor : list string; tr_Authorization : list string }.

(** *** The client and its account *)

(** server/internal/pki/public_auth.go:33-46 [resolvePublicClientIP] *)
Definition resolvePublicClientIP (s : EnrollmentService) (peerAddress : string) (forwardedFor : list string) : result goerr Addr :=
  or_err (SplitHost peerAddress) (EMsg "pki: enrollment peer address is invalid") ≫= fun host =>
  or_err (ParseAddr host) (EMsg "pki: enrollment peer address is invalid") ≫= fun peer =>
  wrap_err EMsg (ResolveClientIP ParseAddr (Some (es_trustedProxies s)) peer (String.concat "," forwardedFor)).

(** [hex.EncodeToString]. *)
Definition hex_digit (v : Z) : ascii := default "0"%char (list_ascii_of_string "0123456789abcdef" !! Z.to_nat v).
Definition hex_string (s : string) : string :=
  string_of_list_ascii (bytes s ≫= fun b => [hex_digit (b / 16); hex_digit (b mod 16)]).

(** server/internal/pki/public_auth.go:94-97 [hashedAuthenticationAccountKey] *)
Definition hashedAuthenticationAccountKey (namespace material : string) : string :=
  namespace +:+ ":" +:+ hex_string (Sum256 material).

(** server/internal/pki/public_auth.go:72-78 [registrationTokenAccountKey] *)
Definition registrationTokenAccountKey (rawToken : string) : string :=
  let '(tokenID, _, wellFormed) := parseRegistrationToken rawToken in
  if wellFormed then "registration-token:" +:+ tokenID else hashedAuthenticationAccountKey "registration-token" rawToken.

(** *** Profiles *)

(** server/internal/pki/renewal.go:153-175 [parseRenewalCertificate] *)
Definition parseRenewalCertificate (der : string) : result goerr (Certificate * string) :=
  wrap_err (fun m => EWrap "pki: parse renewal certificate" (EMsg m)) (parseExactCertificate der) ≫= fun certificate =>
  wrap_err (fun m => EWrap "pki: parse renewal certificate identity" (EMsg m))
    (ParseCertificateIdentity (Some certificate)) ≫= fun '(class, deviceID) =>
  fail_if (negb (String.eqb class AgentClass)) (EMsg "pki: renewal certificate class is not agent") ≫= fun _ =>
  fail_if (IsCA certificate || negb (BasicConstraintsValid certificate)
           || (Z.land (KeyUsage certificate) KeyUsageDigitalSignature =? 0)
           || negb (bool_decide (ExtKeyUsage certificate = [ExtKeyUsageClientAuth]))
           || negb (NotBefore certificate <? NotAfter certificate))
    (EMsg "pki: renewal certificate has an invalid agent profile") ≫= fun _ =>
  wrap_err (fun m => EWrap "pki: validate renewal certificate key" (EMsg m))
    (ValidateSigningKey (PublicKey certificate)) ≫= fun _ =>
  Ok (certificate, deviceID).

(** server/internal/pki/gateway.go:416-418 [exactGatewayEKUs] *)
Definition exactGatewayEKUs (usages : list Z) : bool :=
  (zlen usages =? 2) && bool_decide (ExtKeyUsageServerAuth ∈ usages) && bool_decide (ExtKeyUsageClientAuth ∈ usages).

(** server/internal/pki/gateway.go:341-363 [parseGatewayRenewalCertificate] *)
Definition parseGatewayRenewalCertificate (der : string) : result goerr (Certificate * string) :=
  wrap_err (fun m => EWrap "pki: parse gateway renewal certificate" (EMsg m)) (parseExactCertificate der) ≫= fun certificate =>
  wrap_err (fun _ => EMsg "pki: gateway renewal certificate identity is invalid")
    (ParseCertificateIdentity (Some certificate)) ≫= fun '(class, gatewayID) =>
  fail_if (negb (String.eqb class GatewayClass)) (EMsg "pki: gateway renewal certificate identity is invalid") ≫= fun _ =>
  fail_if (IsCA certificate || negb (BasicConstraintsValid certificate)
           || (Z.land (KeyUsage certificate) KeyUsageDigitalSignature =? 0)
           || negb (NotAfter certificate - NotBefore certificate =? gatewayCertificateLifetime)
           || negb (exactGatewayEKUs (ExtKeyUsage certificate)) || negb (zlen (UnknownExtKeyUsage certificate) =? 0)
           || (zlen (DNSNames certificate) =? 0) || negb (zlen (EmailAddresses certificate) =? 0)
           || negb (zlen (IPAddresses certificate) =? 0))
    (EMsg "pki: gateway renewal certificate profile is invalid") ≫= fun _ =>
  wrap_err (fun m => EWrap "pki: gateway renewal certificate profile is invalid" (EMsg m))
    (RequireDNSAndURISANs (Some certificate)) ≫= fun _ =>
  wrap_err (fun m => EWrap "pki: validate gateway renewal certificate key" (EMsg m))
    (ValidateSigningKey (PublicKey certificate)) ≫= fun _ =>
  Ok (certificate, gatewayID).

(** server/internal/pki/renewal.go:177-184 [renewalPublicKeysEqual] *)
Definition renewalPublicKeysEqual (first second : SigningKey) : bool :=
  match MarshalPKIXPublicKey first, MarshalPKIXPublicKey second with
  | Some firstDER, Some secondDER => String.eqb firstDER secondDER
  | _, _ => false
  end.

(** server/internal/pki/renewal.go:188-197 [verifiedCertificateIssuerRoot] *)
Definition verifiedCertificateIssuerRoot (certificate : Certificate) (roots : list string) : result goerr string :=
  or_err (find (fun rootDER => match parseExactCertificate rootDER with
                               | Ok root => CheckSignatureFrom certificate root
                               | Err _ => false
                               end) roots)
    (EMsg "pki: renewed certificate issuer is absent from its committed trust bundle").

(** server/internal/pki/public_auth.go:80-92 [certificateAccountKey] *)
Definition certificateAccountKey (class certificateDER : string) : string :=
  let hashed := hashedAuthenticationAccountKey (class +:+ "-certificate") certificateDER in
  if String.eqb class CertificateClassAgent then
    match parseRenewalCertificate certificateDER with Ok (_, id) => class +:+ ":" +:+ id | Err _ => hashed end
  else if String.eqb class CertificateClassGateway then
    match parseGatewayRenewalCertificate certificateDER with Ok (_, id) => class +:+ ":" +:+ id | Err _ => hashed end
  else hashed.

(** server/internal/pki/enrollment.go:259-269 [enrollmentCSRHasSAN] *)
Definition enrollmentCSRHasSAN (request : CertificateRequest) : bool :=
  negb (zlen (cq_DNSNames request) =? 0) || negb (zlen (cq_EmailAddresses request) =? 0)
  || negb (zlen (cq_IPAddresses request) =? 0) || negb (zlen (cq_URIs request) =? 0)
  || existsb (fun id => bool_decide (id = subjectAlternativeNameOID)) (cq_Extensions request).

(** server/internal/pki/enrollment.go:238-257 [parseEnrollmentCSR] *)
Definition parseEnrollmentCSR (der : string) : result goerr CertificateRequest :=
  or_err (ParseCertificateRequest der) (EMsg "pki: parse enrollment CSR") ≫= fun request =>
  fail_if (negb (String.eqb (cq_Raw request) der)) (EMsg "pki: enrollment CSR contains trailing data") ≫= fun _ =>
  fail_if (negb (CheckRequestSignature request)) (EMsg "pki: verify enrollment CSR signature") ≫= fun _ =>
  fail_if (enrollmentCSRHasSAN request) (EMsg "pki: enrollment CSR contains a subject alternative name") ≫= fun _ =>
  wrap_err (fun m => EWrap "pki: validate enrollment CSR public key" (EMsg m)) (ValidateSigningKey (cq_PublicKey request)) ≫= fun _ =>
  Ok request.

(** ** Issuing *)

(** server/internal/pki/enrollment.go:34-38 [agentCertificateLifetime] *)
Definition agentCertificateLifetime : Z := 365 * 24 * hour.
Definition certificateClockSkew : Z := 5 * minute.
Definition certificateSerialBytes : Z := 16.

(** [io.ReadFull] of [n] bytes: the bytes, and those the source still has. *)
Definition read_full (n : Z) (error : string) (random : option (list Z)) : result goerr (list Z * list Z) :=
  or_err random (EMsg error) ≫= fun bytes =>
  fail_if (zlen bytes <? n) (EMsg error) ≫= fun _ => Ok (take (Z.to_nat n) bytes, drop (Z.to_nat n) bytes).

(** server/internal/pki/enrollment.go:305-308 [issueAgentCertificate]: the serial
    number, never zero *)
Definition certificate_serial (bytes : list Z) : Z := if SetBytes bytes =? 0 then 1 else SetBytes bytes.

(** server/internal/pki/enrollment.go:319-328 [issueAgentCertificate]: the validity
    and the template, which for gateways also names both usages and the DNS names *)
Definition leaf_template (serial notBefore notAfter : Z) (usages : list Z) (keyID : string) (dnsNames : list string) : Certificate :=
  mkCertificate "" "" "" "" [] (Some serial) (substring 0 20 keyID) "" false true 0 false KeyUsageDigitalSignature []
    notBefore notAfter KeyOther [] [] [] usages [] dnsNames [] [].

(** The body that both classes share, after the checks of the subject. *)
Definition issue_leaf (authority : certificateAuthority) (class name id : string) (lifetime : Z) (usages : list Z)
    (dnsNames : list string) (publicKey : SigningKey) (now : time) (random : option (list Z)) : result goerr (string * string) :=
  read_full certificateSerialBytes ("pki: generate " +:+ name +:+ " certificate serial") random ≫= fun '(serialBytes, random) =>
  let notBefore := truncate_second now - certificateClockSkew in
  let notAfter := notBefore + lifetime in
  fail_if ((notBefore <? NotBefore (ca_certificate authority)) || (NotAfter (ca_certificate authority) <? notAfter))
    (EMsg ("pki: " +:+ name +:+ " CA validity does not cover the certificate lifetime")) ≫= fun _ =>
  or_err (MarshalPKIXPublicKey publicKey) (EMsg ("pki: marshal " +:+ name +:+ " certificate public key")) ≫= fun publicKeyDER =>
  let template := leaf_template (certificate_serial serialBytes) notBefore notAfter usages (Sum256 publicKeyDER) dnsNames in
  wrap_err (fun m => EWrap ("pki: stamp " +:+ name +:+ " certificate identity") (EMsg m))
    (StampCertificateIdentity (Some template) class id) ≫= fun template =>
  wrap_err (fun m => EWrap ("pki: issue " +:+ name +:+ " certificate") (EMsg m))
    (CreateCertificate random template (ca_certificate authority) publicKey (ca_signer authority)) ≫= fun certificateDER =>
  Ok (certificateDER, Raw (ca_certificate authority)).

(** server/internal/pki/enrollment.go:282-337 [issueAgentCertificate] *)
Definition issueAgentCertificate (a : Authorities) (publicKey : SigningKey) (deviceID : string) (now : time)
    (random : option (list Z)) : result goerr (string * string) :=
  or_err (currentAuthority a CertificateClassAgent) (EMsg "pki: agent certificate authority is not wired") ≫= fun authority =>
  wrap_err (fun m => EWrap "pki: validate agent certificate public key" (EMsg m)) (ValidateSigningKey publicKey) ≫= fun _ =>
  fail_if (negb (IsCanonicalULID deviceID)) (EMsg "pki: agent certificate device ID is not a canonical ULID") ≫= fun _ =>
  issue_leaf authority AgentClass "agent" deviceID agentCertificateLifetime [ExtKeyUsageClientAuth] [] publicKey now random.

(** server/internal/pki/gateway.go:365-414 [issueGatewayCertificate] *)
Definition issueGatewayCertificate (a : Authorities) (publicKey : SigningKey) (gatewayID : string) (dnsNames : list string)
    (now : time) (random : option (list Z)) : result goerr (string * string) :=
  or_err (currentAuthority a CertificateClassGateway) (EMsg "pki: gateway certificate authority is not wired") ≫= fun authority =>
  wrap_err (fun m => EWrap "pki: validate gateway certificate public key" (EMsg m)) (ValidateSigningKey publicKey) ≫= fun _ =>
  fail_if (negb (IsCanonicalULID gatewayID) || (zlen dnsNames =? 0)) (EMsg "pki: gateway certificate input is invalid") ≫= fun _ =>
  issue_leaf authority GatewayClass "gateway" gatewayID gatewayCertificateLifetime [ExtKeyUsageServerAuth; ExtKeyUsageClientAuth]
    dnsNames publicKey now random.

(** One call of either, under the authorities' mutex. *)
Definition issue_with (f : Authorities -> time -> option (list Z) -> result goerr (string * string)) : RotProg (string * string) :=
  look (fun env w => f (w_authorities w) (pe_now env) (sn_random (pe_service env))).

(** server/internal/pki/enrollment.go:271-280 [newEnrollmentDeviceID] *)
Definition newEnrollmentDeviceID (now : time) (random : option (list Z)) : result goerr string :=
  read_full registrationTokenEntropyBytes "pki: generate enrollment device ID" random ≫= fun '(entropy, _) =>
  newRegistrationTokenID now entropy.

Definition new_leaf_id : RotProg string := look (fun env _ => newEnrollmentDeviceID (pe_now env) (sn_random (pe_service env))).

(** ** The lifecycle transaction

    [store.WithDeviceLifecycleLock] opens a transaction and locks the leaf in
    it; the operation's append is its last statement, and takes the commit with
    it here.  The end of the transaction releases the lock. *)

Definition with_lifecycle (w : World) (locks : list (nat * string)) : World :=
  with_service w (mkServiceState (sv_tokens (w_service w)) (sv_ladder (w_service w)) locks).

(** server/internal/store/queries/devices.sql:68-69 [AcquireDeviceLifecycleLock] *)
Definition AcquireDeviceLifecycleLock (session : nat) (id : string) : RotProg unit :=
  act (fun env w =>
    let locks := sv_lifecycle (w_service w) in
    match pe_ctx env with
    | Some e => (w, Err (EWrap "store: acquire device lifecycle lock" e))
    | None => if existsb (fun l => String.eqb l.2 id) locks
              then (w, Err (EWrap "store: acquire device lifecycle lock" (ESentinel DeadlineExceeded)))
              else (with_lifecycle w ((session, id) :: locks), Ok tt)
    end).

Definition end_transaction (session : nat) (id : string) : prog PKIEnv World unit :=
  act (fun _ w => (with_lifecycle w (filter (fun l => l <> (session, id)) (sv_lifecycle (w_service w))), tt)).

(** server/internal/store/device_lifecycle.go:27-71 [Store.WithDeviceLifecycleLock]:
    the operation is given the canonical identifier *)
Definition WithDeviceLifecycleLock {A} (session : nat) (id : string) (operation : string -> RotProg A) : RotProg A :=
  try_prog (look (fun env _ => may_fault (pe_ctx env))) (fun _ =>
  try_prog (Ret (canonicalDeviceID id)) (fun id =>
  try_prog (look (fun env _ => wrap_err (EWrap "store: begin device lifecycle transaction") (may_fault (pe_read env)))) (fun _ =>
  try_prog (AcquireDeviceLifecycleLock session id) (fun _ =>
  bind_prog (operation id) (fun r =>
  bind_prog (end_transaction session id) (fun _ => Ret r)))))).

(** A read of the held leaf. *)
Definition read_locked {Row X} (msg id : string) (rows : LeafTables -> gmap string Row) (decode : Row -> result goerr X)
    (env : PKIEnv) (w : World) : result goerr X :=
  may_fault (pe_ctx env) ≫= fun _ =>
  wrap_err (EWrap msg) (may_fault (pe_read env) ≫= fun _ => or_err (rows (pk_leaves (w_tables w)) !! id) ErrNoRows) ≫= decode.

(** server/internal/store/device_lifecycle.go:74-83 [DeviceLifecycle.Device] *)
Definition LockedDevice (id : string) : RotProg Device :=
  look (read_locked "store: read locked device" id lf_devices (fun row => deviceFromValues id id row false)).

(** server/internal/store/device_lifecycle.go:86-95 [DeviceLifecycle.Gateway] *)
Definition LockedGateway (id : string) : RotProg Gateway :=
  look (read_locked "store: read locked gateway" id lf_gateways (fun row => gatewayFromRow id id row false)).

(** server/internal/store/device_lifecycle.go:109-151 [appendEventFor]: one
    append per operation, whose errors are those of [AppendPinned] *)
Definition appendEventFor (id : string) (event : LeafEvent) (expectedVersion : Z) (agent : bool) : RotProg unit :=
  try_prog (look (fun env _ => may_fault (pe_ctx env))) (fun _ =>
  if expectedVersion <? 0 then Ret (Err (EMsg "store: expected version must not be negative"))
  else if negb (String.eqb (te_StreamType event) (if agent then deviceStreamType else gatewayStreamType))
          || negb (String.eqb (te_StreamID event) id) || negb (Bool.eqb (is_agent (te_Payload event)) agent)
  then Ret (Err (EMsg "store: device lifecycle event does not belong to the locked device"))
  else
    act (fun env w =>
      let pki_event := mkTypedEvent (te_StreamType event) (te_StreamID event) (PLeaf (te_Payload event)) in
      let '(db, r) := AppendPinned (projectPKI false) (pe_append env) pki_event expectedVersion (w_db w) in
      (with_db w db, r))).

(** server/internal/store/device_lifecycle.go:99-101 [DeviceLifecycle.AppendEvent] *)
Definition AppendDeviceEvent (id : string) (event : LeafEvent) (expectedVersion : Z) : RotProg unit :=
  appendEventFor id event expectedVersion true.

(** server/internal/store/device_lifecycle.go:105-107 [DeviceLifecycle.AppendGatewayEvent] *)
Definition AppendGatewayEvent (id : string) (event : LeafEvent) (expectedVersion : Z) : RotProg unit :=
  appendEventFor id event expectedVersion false.

(** An event that was validated, appended; then the reply. *)
Definition append_made {A} (append : LeafEvent -> RotProg unit) (event : result goerr LeafEvent) (reply : A) : RotProg A :=
  try_prog (Ret event) (fun event => try_prog (append event) (fun _ => Ret (Ok reply))).

(** ** The fences *)

(** server/internal/pki/rotation.go:843-862 [EnrollmentService.withIssuanceFences] *)
Definition withServiceFences {A} (s : EnrollmentService) (session : nat)
    (action : AuthoritySnapshot -> AuthoritySnapshot -> RotProg A) : RotProg A :=
  if es_rotationManaged s then withIssuanceFences session action
  else
    let unmanaged (class : string) (authority : certificateAuthority) :=
      mkAuthoritySnapshot class RotationPhaseStable 1 1 [Raw (ca_certificate authority)] (Raw (ca_certificate authority))
        "" "" "" "" 0 0 in
    try_prog (look (fun _ w => or_err (currentAuthority (w_authorities w) CertificateClassAgent)
                                 (EMsg "pki: issuance authorities are not wired"))) (fun agent =>
    try_prog (look (fun _ w => or_err (currentAuthority (w_authorities w) CertificateClassGateway)
                                 (EMsg "pki: issuance authorities are not wired"))) (fun gateway =>
    action (unmanaged CertificateClassAgent agent) (unmanaged CertificateClassGateway gateway))).

(** [CATrustBundle], as the contract's messages have it. *)
Record CATrustBundle := mkCATrustBundle {
  cb_Generation : Z;
  cb_Revision : Z;
  cb_RootCertificateDer : list string;
  cb_TransitionCertificateDer : string;
  cb_CrlIssuerFingerprint : string;
  cb_CrlSequence : Z;
}.

(** server/internal/pki/rotation.go:830-838 [trustBundleFromSnapshot] *)
Definition trustBundleFromSnapshot (s : AuthoritySnapshot) : CATrustBundle :=
  mkCATrustBundle (as_Generation s) (as_Revision s) (as_DesiredRootDER s) (as_TransitionCertificateDER s)
    (as_RequiredCRLIssuerFingerprint s) (as_PublishedCRLSequence s).

(** What a call that issues found out, and the reply of the four of them. *)
Record Issued := mkIssued {
  is_CertificateDER : string;
  is_CertificateAuthorityDER : string;
  is_AgentTrust : AuthoritySnapshot;
  is_GatewayTrust : AuthoritySnapshot;
}.

Record IssuedResponse := mkIssuedResponse {
  ir_CertificateDer : string;
  ir_CertificateAuthorityDer : string;
  ir_GatewayCertificateAuthorityDer : string;
  ir_AgentTrustBundle : CATrustBundle;
  ir_GatewayTrustBundle : CATrustBundle;
}.

(** The reply to an agent names the gateways' authority too. *)
Definition issued_response (agent : bool) (i : Issued) : IssuedResponse :=
  mkIssuedResponse (is_CertificateDER i) (is_CertificateAuthorityDER i)
    (if agent then as_IssuingRootDER (is_GatewayTrust i) else "") (trustBundleFromSnapshot (is_AgentTrust i))
    (trustBundleFromSnapshot (is_GatewayTrust i)).

(** ** The limit of failed authentications *)

(** server/internal/pki/public_auth.go:48-70 [applyPublicAuthenticationLimit]: every
    outcome but an error of another kind is an attempt *)
Definition applyPublicAuthenticationLimit {A} (procedure : string) (clientIP : Addr) (accountKey : string)
    (rateLimited : goerr) (result : result ConnectError A) : RpcProg A :=
  let attempt :=
    act (fun env w =>
      let '(ladder, allowed) := Allow AddrString (sv_ladder (w_service w))
        (mkAuthenticationAttempt procedure clientIP accountKey (is_ok result)) (pe_now env) in
      (with_service w (mkServiceState (sv_tokens (w_service w)) ladder (sv_lifecycle (w_service w))),
       if allowed : bool then result else Err (mkConnectError CodeResourceExhausted rateLimited))) in
  match result with
  | Err e => if bool_decide (cn_Code e = CodeUnauthenticated) then attempt else Ret result
  | Ok _ => attempt
  end.

(** The end of every public call. *)
Definition limited {A} (procedure : string) (clientIP : Addr) (accountKey : string) (rateLimited : goerr) (p : RpcProg A) : RpcProg A :=
  bind_prog p (applyPublicAuthenticationLimit procedure clientIP accountKey rateLimited).

(** *** Procedures *)

(** contract/gen/go/powermanage/v1/powermanagev1connect/pki.connect.go:36-66 [PkiServiceEnrollAgentProcedure] *)
Definition PkiServiceEnrollAgentProcedure : string := "/powermanage.v1.PkiService/EnrollAgent".
Definition PkiServiceRenewAgentProcedure : string := "/powermanage.v1.PkiService/RenewAgent".
Definition PkiServiceRevokeAgentProcedure : string := "/powermanage.v1.PkiService/RevokeAgent".
Definition PkiServiceForceRenewAgentProcedure : string := "/powermanage.v1.PkiService/ForceRenewAgent".
Definition PkiServiceEnrollGatewayProcedure : string := "/powermanage.v1.PkiService/EnrollGateway".
Definition PkiServiceRenewGatewayProcedure : string := "/powermanage.v1.PkiService/RenewGateway".
Definition PkiServiceRevokeGatewayProcedure : string := "/powermanage.v1.PkiService/RevokeGateway".
Definition PkiServiceConfirmAgentTrustStateProcedure : string := "/powermanage.v1.PkiService/ConfirmAgentTrustState".
Definition PkiServiceConfirmGatewayTrustStateProcedure : string := "/powermanage.v1.PkiService/ConfirmGatewayTrustState".

Definition registrationAttemptsPerMinute : Z := 5.

(** server/internal/pki/procedures.go:16-53 [publicProcedureLimits] *)
Definition publicProcedureLimits : gmap string FailureLimit :=
  list_to_map ((fun procedure => (procedure, mkFailureLimit registrationAttemptsPerMinute minute)) <$>
    [PkiServiceEnrollAgentProcedure; PkiServiceRenewAgentProcedure; PkiServiceRevokeAgentProcedure;
     PkiServiceForceRenewAgentProcedure; PkiServiceEnrollGatewayProcedure; PkiServiceRenewGatewayProcedure;
     PkiServiceRevokeGatewayProcedure; PkiServiceConfirmAgentTrustStateProcedure;
     PkiServiceConfirmGatewayTrustStateProcedure]).

(** server/internal/pki/public_auth.go:17-31 [newPublicFailureLadder] *)
Definition newPublicFailureLadder : result string FailureLadder :=
  NewFailureLadder ((fun limit => mkRateLimitPolicy limit limit) <$> publicProcedureLimits).

(** ** Enrollment *)

Record EnrollAgentRequest := mkEnrollAgentRequest {
  ea_RegistrationToken : string; ea_CertificateSigningRequestDer : string; ea_SealingPublicKey : list Z }.
Record EnrollGatewayRequest := mkEnrollGatewayRequest {
  eg_RegistrationToken : string; eg_CertificateSigningRequestDer : string }.

(** A program of the token service, on its tables. *)
Fixpoint lift_tokens {A} (p : prog TokenEnv TokenDB A) : prog PKIEnv World A :=
  match p with
  | Ret a => Ret a
  | Act op k =>
      Act (fun env w => let '(db, x) := op (sn_tokens (pe_service env)) (sv_tokens (w_service w)) in
                        (with_service w (mkServiceState db (sv_ladder (w_service w)) (sv_lifecycle (w_service w))), x))
        (fun x => lift_tokens (k x))
  end.

(** A request is refused before it costs anything. *)
Definition reply_first {E A B} (code : connect_code) (error : goerr) (r : result E A) (p : A -> RpcProg B) : RpcProg B :=
  try_prog (Ret (or_reply code error r)) p.

(** server/internal/pki/enrollment.go:149-236 [EnrollAgent] *)
Definition EnrollAgent (s : EnrollmentService) (session : nat) (t : Transport) (request : EnrollAgentRequest)
    : RpcProg IssuedResponse :=
  reply_first CodeInvalidArgument errEnrollmentRequestRejected (parseEnrollmentCSR (ea_CertificateSigningRequestDer request)) (fun csr =>
  reply_first CodeInvalidArgument errEnrollmentRequestRejected (ValidateX25519PublicKey (ea_SealingPublicKey request)) (fun _ =>
  reply_first CodeInternal errEnrollmentTemporarilyFailed (resolvePublicClientIP s (tr_Peer t) (tr_ForwardedFor t)) (fun clientIP =>
  limited PkiServiceEnrollAgentProcedure clientIP (registrationTokenAccountKey (ea_RegistrationToken request)) errEnrollmentRateLimited
    (replying mapEnrollmentTokenError
      (try_prog (withServiceFences s session (fun agent gateway =>
        try_prog (lift_tokens (Consume (ea_RegistrationToken request) RegistrationTokenPurposeAgent)) (fun grant =>
        try_prog new_leaf_id (fun deviceID =>
        WithDeviceLifecycleLock session deviceID (fun id =>
          try_prog (issue_with (fun a => issueAgentCertificate a (cq_PublicKey csr) deviceID)) (fun '(certificateDER, authorityDER) =>
          append_made (fun event => AppendDeviceEvent id event 0)
            (AgentEnrolledEvent deviceID certificateDER (ea_SealingPublicKey request) (rg_TokenID grant) (rg_Owner grant))
            (mkIssued certificateDER authorityDER agent gateway)))))))
        (fun issued => Ret (Ok (issued_response true issued)))))))).

(** server/internal/pki/gateway.go:32-114 [EnrollGateway] *)
Definition EnrollGateway (s : EnrollmentService) (session : nat) (t : Transport) (request : EnrollGatewayRequest)
    : RpcProg IssuedResponse :=
  reply_first CodeInvalidArgument errEnrollmentRequestRejected (parseEnrollmentCSR (eg_CertificateSigningRequestDer request)) (fun csr =>
  reply_first CodeInternal errEnrollmentTemporarilyFailed (resolvePublicClientIP s (tr_Peer t) (tr_ForwardedFor t)) (fun clientIP =>
  limited PkiServiceEnrollGatewayProcedure clientIP (registrationTokenAccountKey (eg_RegistrationToken request)) errEnrollmentRateLimited
    (replying mapEnrollmentTokenError
      (try_prog (withServiceFences s session (fun agent gateway =>
        try_prog (lift_tokens (Consume (eg_RegistrationToken request) RegistrationTokenPurposeGateway)) (fun grant =>
        try_prog new_leaf_id (fun gatewayID =>
        WithDeviceLifecycleLock session gatewayID (fun id =>
          try_prog (issue_with (fun a => issueGatewayCertificate a (cq_PublicKey csr) gatewayID (rg_DNSNames grant)))
            (fun '(certificateDER, authorityDER) =>
          append_made (fun event => AppendGatewayEvent id event 0)
            (GatewayEnrolledEvent gatewayID certificateDER (rg_TokenID grant) (rg_Owner grant) (rg_DNSNames grant))
            (mkIssued certificateDER authorityDER agent gateway)))))))
        (fun issued => Ret (Ok (issued_response false issued))))))).

(** ** Renewal *)

Record RenewAgentRequest := mkRenewAgentRequest {
  ra_CertificateDer : string; ra_CertificateSigningRequestDer : string; ra_SealingPublicKey : list Z }.
Record RenewGatewayRequest := mkRenewGatewayRequest {
  rw_CertificateDer : string; rw_CertificateSigningRequestDer : string }.

(** A missing leaf is a refused renewal. *)
Definition found_or (rejection : goerr) {A} (r : result goerr A) : result goerr A :=
  match r with Ok a => Ok a | Err e => Err (if IsNotFound e then rejection else e) end.

(** server/internal/pki/renewal.go:106-113 [RenewAgent]: the trust that the
    renewal committed under, where the service can tell *)
Definition committed_trust (s : EnrollmentService) (streamType id : string) (version : Z) (agent gateway : AuthoritySnapshot)
    : RotProg (AuthoritySnapshot * AuthoritySnapshot) :=
  if es_rotationManaged s then snapshotsAtLifecycleEvent streamType id version else Ret (Ok (agent, gateway)).

(** server/internal/pki/renewal.go:91-118 [RenewAgent]: the presented certificate
    is not the current one, so it may be a retry of the renewal that replaced it *)
Definition retry_agent (s : EnrollmentService) (current : Device) (presented : Certificate) (deviceID : string)
    (publicKey : SigningKey) (sealing : list Z) (agent gateway : AuthoritySnapshot) : RotProg Issued :=
  if negb (String.eqb (dv_LifecycleState current) DeviceLifecycleActive)
     || negb (String.eqb (dv_CertificateFingerprint current) (Sum256 (dv_CertificateDER current)))
     || negb (String.eqb (dv_PreviousCertificateDER current) (Raw presented))
     || negb (bool_decide (dv_SealingPublicKey current = sealing))
  then Ret (Err errRenewalAuthRejected)
  else
    try_prog (Ret (parseRenewalCertificate (dv_CertificateDER current))) (fun '(certificate, currentID) =>
    if negb (String.eqb currentID deviceID) || negb (renewalPublicKeysEqual (PublicKey certificate) publicKey)
    then Ret (Err errRenewalAuthRejected)
    else
      try_prog (committed_trust s "device" deviceID (dv_ProjectionVersion current) agent gateway) (fun '(agent, gateway) =>
      try_prog (Ret (verifiedCertificateIssuerRoot certificate (as_DesiredRootDER agent))) (fun authorityDER =>
      Ret (Ok (mkIssued (dv_CertificateDER current) authorityDER agent gateway))))).

(** server/internal/pki/renewal.go:78-139 [RenewAgent]: under the lock of the device *)
Definition renew_agent (s : EnrollmentService) (id deviceID : string) (presented : Certificate) (publicKey : SigningKey)
    (sealing : list Z) (agent gateway : AuthoritySnapshot) : RotProg Issued :=
  try_prog (bind_prog (LockedDevice id) (fun r => Ret (found_or errRenewalAuthRejected r))) (fun current =>
  if String.eqb (dv_LifecycleState current) DeviceLifecycleRevoked then Ret (Err errRenewalAuthRejected)
  else if negb (String.eqb (dv_CertificateFingerprint current) (Sum256 (Raw presented)))
          || negb (String.eqb (dv_CertificateDER current) (Raw presented))
  then retry_agent s current presented deviceID publicKey sealing agent gateway
  else
    try_prog (issue_with (fun a => issueAgentCertificate a publicKey deviceID)) (fun '(certificateDER, authorityDER) =>
    append_made (fun event => AppendDeviceEvent id event (dv_ProjectionVersion current))
      (AgentCertificateRenewedEvent deviceID certificateDER sealing (Raw presented))
      (mkIssued certificateDER authorityDER agent gateway))).

(** server/internal/pki/renewal.go:32-151 [RenewAgent] *)
Definition RenewAgent (s : EnrollmentService) (session : nat) (t : Transport) (request : RenewAgentRequest)
    : RpcProg IssuedResponse :=
  reply_first CodeInvalidArgument errRenewalRequestRejected (parseRenewalCertificate (ra_CertificateDer request)) (fun '(presented, deviceID) =>
  reply_first CodeInvalidArgument errRenewalRequestRejected (parseEnrollmentCSR (ra_CertificateSigningRequestDer request)) (fun csr =>
  reply_first CodeInvalidArgument errRenewalRequestRejected (ValidateX25519PublicKey (ra_SealingPublicKey request)) (fun _ =>
  reply_first CodeInternal errRenewalTemporarilyFailed (resolvePublicClientIP s (tr_Peer t) (tr_ForwardedFor t)) (fun clientIP =>
  limited PkiServiceRenewAgentProcedure clientIP ("agent:" +:+ deviceID) errRenewalRateLimited
    (if negb (renewalPublicKeysEqual (PublicKey presented) (cq_PublicKey csr))
     then Ret (Err (mkConnectError CodeUnauthenticated errRenewalAuthRejected))
     else
       replying mapRenewalError
         (try_prog (withServiceFences s session (fun agent gateway =>
            WithDeviceLifecycleLock session deviceID (fun id =>
              renew_agent s id deviceID presented (cq_PublicKey csr) (ra_SealingPublicKey request) agent gateway)))
           (fun issued => Ret (Ok (issued_response true issued))))))))).

(** server/internal/pki/gateway.go:173-195 [RenewGateway]: the same for a gateway *)
Definition retry_gateway (s : EnrollmentService) (current : Gateway) (presented : Certificate) (gatewayID : string)
    (publicKey : SigningKey) (agent gateway : AuthoritySnapshot) : RotProg Issued :=
  if negb (String.eqb (gw_CertificateFingerprint current) (Sum256 (gw_CertificateDER current)))
     || negb (String.eqb (gw_PreviousCertificateDER current) (Raw presented))
  then Ret (Err errRenewalAuthRejected)
  else
    match parseGatewayRenewalCertificate (gw_CertificateDER current) with
    | Err _ => Ret (Err errRenewalAuthRejected)
    | Ok (certificate, currentID) =>
        if negb (String.eqb currentID gatewayID) || negb (renewalPublicKeysEqual (PublicKey certificate) publicKey)
        then Ret (Err errRenewalAuthRejected)
        else
          try_prog (committed_trust s "gateway" gatewayID (gw_ProjectionVersion current) agent gateway) (fun '(agent, gateway) =>
          try_prog (Ret (verifiedCertificateIssuerRoot certificate (as_DesiredRootDER gateway))) (fun authorityDER =>
          Ret (Ok (mkIssued (gw_CertificateDER current) authorityDER agent gateway))))
    end.

(** server/internal/pki/gateway.go:160-212 [RenewGateway]: under the lock of the gateway *)
Definition renew_gateway (s : EnrollmentService) (id gatewayID : string) (presented : Certificate) (publicKey : SigningKey)
    (agent gateway : AuthoritySnapshot) : RotProg Issued :=
  try_prog (bind_prog (LockedGateway id) (fun r => Ret (found_or errRenewalAuthRejected r))) (fun current =>
  if negb (String.eqb (gw_LifecycleState current) GatewayLifecycleActive) then Ret (Err errRenewalAuthRejected)
  else if negb (String.eqb (gw_CertificateFingerprint current) (Sum256 (Raw presented)))
          || negb (String.eqb (gw_CertificateDER current) (Raw presented))
  then retry_gateway s current presented gatewayID publicKey agent gateway
  else
    try_prog (issue_with (fun a => issueGatewayCertificate a publicKey gatewayID (gw_DNSNames current)))
      (fun '(certificateDER, authorityDER) =>
    append_made (fun event => AppendGatewayEvent id event (gw_ProjectionVersion current))
      (GatewayCertificateRenewedEvent gatewayID certificateDER (Raw presented))
      (mkIssued certificateDER authorityDER agent gateway))).

(** server/internal/pki/gateway.go:118-221 [RenewGateway] *)
Definition RenewGateway (s : EnrollmentService) (session : nat) (t : Transport) (request : RenewGatewayRequest)
    : RpcProg IssuedResponse :=
  reply_first CodeInvalidArgument errRenewalRequestRejected (parseGatewayRenewalCertificate (rw_CertificateDer request)) (fun '(presented, gatewayID) =>
  reply_first CodeInvalidArgument errRenewalRequestRejected (parseEnrollmentCSR (rw_CertificateSigningRequestDer request)) (fun csr =>
  reply_first CodeInternal errRenewalTemporarilyFailed (resolvePublicClientIP s (tr_Peer t) (tr_ForwardedFor t)) (fun clientIP =>
  limited PkiServiceRenewGatewayProcedure clientIP ("gateway:" +:+ gatewayID) errRenewalRateLimited
    (if negb (renewalPublicKeysEqual (PublicKey presented) (cq_PublicKey csr))
     then Ret (Err (mkConnectError CodeUnauthenticated errRenewalAuthRejected))
     else
       replying mapRenewalError
         (try_prog (withServiceFences s session (fun agent gateway =>
            WithDeviceLifecycleLock session gatewayID (fun id =>
              renew_gateway s id gatewayID presented (cq_PublicKey csr) agent gateway)))
           (fun issued => Ret (Ok (issued_response false issued)))))))).

(** ** Revocation *)

(** server/internal/pki/revocation.go:132-159 [authorizeAgentCertificateLifecycle],
    and gateway.go:279-307 for gateways: the operator's one credential, the
    presented certificate, and the authorizer's verdict about its leaf *)
Definition authorize_lifecycle (parse : string -> result goerr (Certificate * string)) (headers : list string) (der : string)
    : RpcProg (Certificate * string) :=
  match headers with
  | [header] =>
      if String.eqb (trim_space header) "" || (maxLifecycleAuthorizationBytes <? len header)
      then Ret (Err (mkConnectError CodeUnauthenticated errLifecycleAuthRejected))
      else
        try_prog (replying mapLifecycleError (look (fun env _ => may_fault (pe_ctx env)))) (fun _ =>
        try_prog (Ret (or_reply CodeInvalidArgument errLifecycleRequestRejected (parse der))) (fun presented =>
        bind_prog (look (fun env _ => may_fault (sn_authorize (pe_service env)))) (fun verdict =>
        match verdict with
        | Ok _ => Ret (Ok presented)
        | Err _ =>
            try_prog (replying mapLifecycleError (look (fun env _ => may_fault (pe_ctx env)))) (fun _ =>
            Ret (Err (mkConnectError CodeUnauthenticated errLifecycleAuthRejected)))
        end)))
  | _ => Ret (Err (mkConnectError CodeUnauthenticated errLifecycleAuthRejected))
  end.

(** server/internal/pki/revocation.go:132-159 [authorizeAgentCertificateLifecycle] *)
Definition authorizeAgentCertificateLifecycle (headers : list string) (der : string) : RpcProg (Certificate * string) :=
  authorize_lifecycle parseRenewalCertificate headers der.

(** server/internal/pki/gateway.go:287-313 [authorizeGatewayLifecycle] *)
Definition authorizeGatewayLifecycle (headers : list string) (der : string) : RpcProg (Certificate * string) :=
  authorize_lifecycle parseGatewayRenewalCertificate headers der.

(** server/internal/pki/revocation.go:157-195 [appendAgentLifecycleEvent]: [revoke],
    or else require a renewal *)
Definition appendAgentLifecycleEvent (id deviceID : string) (presented : Certificate) (revoke : bool) : RotProg unit :=
  try_prog (bind_prog (LockedDevice id) (fun r => Ret (found_or errLifecycleAuthRejected r))) (fun current =>
  let allowedState := String.eqb (dv_LifecycleState current) DeviceLifecycleActive
                      || revoke && String.eqb (dv_LifecycleState current) DeviceLifecycleForceRenewal in
  if negb (String.eqb (dv_CertificateFingerprint current) (Sum256 (Raw presented)))
     || negb (String.eqb (dv_CertificateDER current) (Raw presented)) || negb allowedState
  then Ret (Err errLifecycleAuthRejected)
  else
    append_made (fun event => AppendDeviceEvent id event (dv_ProjectionVersion current))
      ((if revoke then AgentCertificateRevokedEvent else AgentCertificateForceRenewalRequiredEvent) deviceID (Raw presented))
      tt).

(** The frame that the three operator calls share. *)
Definition lifecycle_call (s : EnrollmentService) (session : nat) (t : Transport) (procedure class der : string)
    (authorize : RpcProg (Certificate * string)) (operation : string -> string -> Certificate -> RotProg unit) : RpcProg unit :=
  try_prog (replying mapLifecycleError (look (fun env _ => may_fault (pe_ctx env)))) (fun _ =>
  reply_first CodeInternal errLifecycleTemporarilyFailed (resolvePublicClientIP s (tr_Peer t) (tr_ForwardedFor t)) (fun clientIP =>
  limited procedure clientIP (certificateAccountKey class der) errLifecycleRateLimited
    (try_prog authorize (fun '(presented, leafID) =>
     replying mapLifecycleError (WithDeviceLifecycleLock session leafID (fun id => operation id leafID presented)))))).

(** server/internal/pki/revocation.go:36-81 [RevokeAgent] *)
Definition RevokeAgent (s : EnrollmentService) (session : nat) (t : Transport) (certificateDer : string) : RpcProg unit :=
  lifecycle_call s session t PkiServiceRevokeAgentProcedure CertificateClassAgent certificateDer
    (authorizeAgentCertificateLifecycle (tr_Authorization t) certificateDer)
    (fun id deviceID presented => appendAgentLifecycleEvent id deviceID presented true).

(** server/internal/pki/revocation.go:85-130 [ForceRenewAgent] *)
Definition ForceRenewAgent (s : EnrollmentService) (session : nat) (t : Transport) (certificateDer : string) : RpcProg unit :=
  lifecycle_call s session t PkiServiceForceRenewAgentProcedure CertificateClassAgent certificateDer
    (authorizeAgentCertificateLifecycle (tr_Authorization t) certificateDer)
    (fun id deviceID presented => appendAgentLifecycleEvent id deviceID presented false).

(** server/internal/pki/gateway.go:261-280 [RevokeGateway]: under the lock of the gateway *)
Definition revoke_gateway (id gatewayID : string) (presented : Certificate) : RotProg unit :=
  try_prog (bind_prog (LockedGateway id) (fun r => Ret (found_or errLifecycleAuthRejected r))) (fun current =>
  if negb (String.eqb (gw_LifecycleState current) GatewayLifecycleActive)
     || negb (String.eqb (gw_CertificateFingerprint current) (Sum256 (Raw presented)))
     || negb (String.eqb (gw_CertificateDER current) (Raw presented))
  then Ret (Err errLifecycleAuthRejected)
  else
    append_made (fun event => AppendGatewayEvent id event (gw_ProjectionVersion current))
      (GatewayCertificateRevokedEvent gatewayID (Raw presented)) tt).

(** server/internal/pki/gateway.go:224-285 [RevokeGateway] *)
Definition RevokeGateway (s : EnrollmentService) (session : nat) (t : Transport) (certificateDer : string) : RpcProg unit :=
  lifecycle_call s session t PkiServiceRevokeGatewayProcedure CertificateClassGateway certificateDer
    (authorizeGatewayLifecycle (tr_Authorization t) certificateDer) revoke_gateway.

(** ** Confirmation *)

Record ConfirmTrustStateRequest := mkConfirmTrustStateRequest {
  cf_CertificateDer : string;
  cf_ClaimedClass : string;
  cf_Generation : Z;
  cf_Revision : Z;
  cf_RootFingerprints : list string;
  cf_CrlIssuerFingerprint : string;
  cf_CrlSequence : Z;
  cf_Signature : string;
}.

(** server/internal/pki/confirmation.go:101-118 [trustStateConfirmationFromRequest] *)
Definition trustStateConfirmationFromRequest (reporterClass : string) (request : ConfirmTrustStateRequest) : TrustStateConfirmation :=
  mkTrustStateConfirmation (cf_CertificateDer request)
    (mkTrustStateClaim reporterClass (cf_ClaimedClass request) (Sum256 (cf_CertificateDer request)) (cf_Generation request)
       (cf_Revision request) (cf_RootFingerprints request) (cf_CrlIssuerFingerprint request) (cf_CrlSequence request))
    (cf_Signature request).

(** server/internal/pki/confirmation.go:73-94 [confirmTrustState]: under the fences.
    A validated receipt is of the classes of its claim, which are these *)
Definition confirm_fenced (confirmation : TrustStateConfirmation) : RotProg unit :=
  try_prog (bind_prog (validateTrustStateConfirmation confirmation) (fun r =>
      Ret (match r with
           | Ok receipt => Ok receipt
           | Err e => Err (if errors_is Canceled e || errors_is DeadlineExceeded e then e else ErrTrustStateRejected)
           end))) (fun receipt =>
  try_prog (lift_store (match receipt with
                        | LeafReceipt c => RecordLeafTrustConfirmation c
                        | ConsumerReceipt c => RecordConsumerTrustConfirmation c
                        end)) (fun _ =>
  look (fun env _ => may_fault (pe_ctx env)))).

(** server/internal/pki/confirmation.go:45-99 [confirmTrustState] *)
Definition confirmTrustState (s : EnrollmentService) (session : nat) (t : Transport) (reporterClass procedure : string)
    (request : ConfirmTrustStateRequest) : RpcProg unit :=
  if negb (es_rotationManaged s) then Ret (Err (mkConnectError CodeInternal errTrustConfirmationUnavailable))
  else
    reply_first CodeInternal errTrustConfirmationUnavailable (resolvePublicClientIP s (tr_Peer t) (tr_ForwardedFor t)) (fun clientIP =>
    limited procedure clientIP (certificateAccountKey reporterClass (cf_CertificateDer request)) errTrustConfirmationRateLimited
      (replying mapTrustConfirmationError
         (withTrustStateFences session reporterClass (cf_ClaimedClass request)
            (confirm_fenced (trustStateConfirmationFromRequest reporterClass request))))).

(** server/internal/pki/confirmation.go:20-30 [ConfirmAgentTrustState] *)
Definition ConfirmAgentTrustState (s : EnrollmentService) (session : nat) (t : Transport) (request : ConfirmTrustStateRequest) : RpcProg unit :=
  confirmTrustState s session t CertificateClassAgent PkiServiceConfirmAgentTrustStateProcedure request.

(** server/internal/pki/confirmation.go:33-43 [ConfirmGatewayTrustState] *)
Definition ConfirmGatewayTrustState (s : EnrollmentService) (session : nat) (t : Transport) (request : ConfirmTrustStateRequest) : RpcProg unit :=
  confirmTrustState s session t CertificateClassGateway PkiServiceConfirmGatewayTrustStateProcedure request.
End Issuance.
