(* ===== verification/IssuanceProof.v ===== *)
(** * The public service keeps to the rotation's promises

    Every call of the service takes the steps of the abstract rotation only,
    puts certificates into service under both fences, and hands out no
    certificate whose event is not durable. *)

From Stdlib Require Import Ascii String ZArith Lia.
From S2P Require Export Issuance RotationProof.

Section Spec.
Context {x509 : X509} {schemes : Schemes} {x509crl : X509CRL} {x25519 : X25519} {issue : X509Issue} {netip : NetIP}.

(** ** Appending a leaf's event *)

(** An event without a new certificate changes no certificate, and revives none. *)
Lemma device_step_kept p version old d :
  device_step p version old (Some d) -> issuance p = None ->
  exists r, old = Some r /\ dr_CertificateDer r = dr_CertificateDer d
    /\ (dr_LifecycleState d <> DeviceLifecycleRevoked -> dr_LifecycleState r <> DeviceLifecycleRevoked).
Proof. inversion 1; subst; intros He; try done; eexists; (split; [done|]); split; congruence. Qed.

Lemma gateway_step_kept p version old d :
  gateway_step p version old (Some d) -> issuance p = None ->
  exists r, old = Some r /\ gt_CertificateDer r = gt_CertificateDer d
    /\ (gt_LifecycleState d <> GatewayLifecycleRevoked -> gt_LifecycleState r <> GatewayLifecycleRevoked).
Proof. inversion 1; subst; intros He; try done; eexists; (split; [done|]); split; congruence. Qed.

Lemma leaf_service row t t' class id der :
  leaf_effect false row t t' -> issuance (te_Payload (ty_Event row)) = None -> in_service class id der t' -> in_service class id der t.
Proof.
  intros [Hd Hg _] He. unfold in_service. destruct (String.eqb class CertificateClassAgent).
  - destruct (is_agent (te_Payload (ty_Event row))); [|by rewrite Hd]. destruct Hd as [Hd Ho]. intros (d & Hl & Hs & <-).
    destruct (decide (id = te_StreamID (ty_Event row))) as [->|Hne]; [|exists d; by rewrite <- Ho].
    rewrite Hl in Hd. destruct (device_step_kept _ _ _ _ Hd He) as (r & -> & <- & Hr). exists r. auto.
  - destruct (is_agent (te_Payload (ty_Event row))); [by rewrite Hg|]. destruct Hg as [Hg Ho]. intros (d & Hl & Hs & <-).
    destruct (decide (id = te_StreamID (ty_Event row))) as [->|Hne]; [|exists d; by rewrite <- Ho].
    rewrite Hl in Hg. destruct (gateway_step_kept _ _ _ _ Hg He) as (r & -> & <- & Hr). exists r. auto.
Qed.

Definition pki_event (event : LeafEvent) : PKIEvent :=
  mkTypedEvent (te_StreamType event) (te_StreamID event) (PLeaf (te_Payload event)).

(** The row of an appended event: at its version, with the certificate that it
    or an earlier event put into service. *)
Lemma device_step_recorded p version old d :
  device_step p version old (Some d) ->
  dr_ProjectionVersion d = version
  /\ (issuance p = Some (device_leaf d) \/ exists r, old = Some r /\ device_leaf r = device_leaf d).
Proof.
  unfold device_leaf. inversion 1; subst; (split; [done|]); cbn; try (left; congruence); right; eexists; (split; [done|congruence]).
Qed.

Lemma gateway_step_recorded p version old d :
  gateway_step p version old (Some d) ->
  gt_ProjectionVersion d = version
  /\ (issuance p = Some (gateway_leaf d) \/ exists r, old = Some r /\ gateway_leaf r = gateway_leaf d).
Proof.
  unfold gateway_leaf. inversion 1; subst; (split; [done|]); cbn; try (left; congruence); right; eexists; (split; [done|congruence]).
Qed.

Lemma issued_new log event version now p der :
  te_Payload event = PLeaf p -> issuance p = Some der ->
  issued_in (te_StreamType event) (te_StreamID event) der (log ++ [mkTypedRow event version now]).
Proof.
  intros Hp Hd. exists (mkTypedRow event version now), p. split; [apply elem_of_app; right; by left|]. done.
Qed.

(** The tables and the log after one more event of a leaf. *)
Lemma appended_leaf w event db :
  world_inv w -> leaf_typed event -> appended (projectPKI false) (pki_event event) (w_db w) db ->
  exists row t, td_log db = td_log (w_db w) ++ [row] /\ te_Payload (ty_Event row) = PLeaf (te_Payload event)
    /\ ty_Event row = pki_event event
    /\ pk_rotation (td_tables db) = pk_rotation (w_tables w) /\ pk_leaves (td_tables db) = t
    /\ leaf_effect false (leaf_row row (te_Payload event)) (pk_leaves (w_tables w)) t.
Proof.
  intros HI [Hst Hid] (now & tables & Hb & Hp & ->). cbn [td_log td_tables].
  eexists _, (pk_leaves tables). split; [reflexivity|]. split; [done|]. split; [done|].
  cbn [projectPKI te_Payload ty_Event pki_event] in Hp. apply bind_ok in Hp as (leaves & Hl & [= <-]).
  split; [done|]. split; [done|]. cbn [pk_leaves].
  destruct (wi_leaves _ HI) as [Hd Hg].
  eapply projectLeaf_effect; [exact Hid| | |exact Hl]; cbn [leaf_row ty_Event te_Payload te_StreamID ty_Version pki_event].
  - intros Ha r Hr. destruct (Hd _ _ Hr) as [Hv _]. change (te_StreamType (pki_event event)) with (te_StreamType event).
    rewrite Hst. unfold stream_of. rewrite Ha. cbn. lia.
  - intros Ha r Hr. destruct (Hg _ _ Hr) as [Hv _]. change (te_StreamType (pki_event event)) with (te_StreamType event).
    rewrite Hst. unfold stream_of. rewrite Ha. cbn. lia.
Qed.

(** A table whose one row an event replaced. *)
Lemma moved_recorded {Row} (der : Row -> string * string) (version : Row -> Z) (m m' : gmap string Row) stream row p log :
  te_StreamType (ty_Event row) = stream -> te_Payload (ty_Event row) = PLeaf p ->
  (forall d, m' !! te_StreamID (ty_Event row) = Some d -> version d = ty_Version row
     /\ (issuance p = Some (der d) \/ exists r, m !! te_StreamID (ty_Event row) = Some r /\ der r = der d)) ->
  (forall j, j <> te_StreamID (ty_Event row) -> m' !! j = m !! j) ->
  (forall j d, m !! j = Some d -> recorded_row stream j (der d) (version d) log) ->
  forall j d, m' !! j = Some d -> recorded_row stream j (der d) (version d) (log ++ [row]).
Proof.
  intros <- Hp Hn Ho Hm j d Hd. destruct (decide (j = te_StreamID (ty_Event row))) as [->|Hne].
  2:{ rewrite Ho in Hd by done. apply recorded_row_app. by apply Hm. }
  destruct (Hn d Hd) as [Hv Hi]. split.
  - rewrite Hv. apply (typed_version_ge row). apply elem_of_app. right. by left.
  - destruct Hi as [Hi|(r & Hr & <-)]; [|apply issued_in_app, (Hm _ _ Hr)].
    exists row, p. split; [apply elem_of_app; right; by left|]. done.
Qed.

Lemma is_some_moved {Row} (m m' : gmap string Row) id j :
  (forall j, j <> id -> m' !! j = m !! j) -> is_Some (m' !! j) -> j = id \/ is_Some (m !! j).
Proof. intros Ho Hj. destruct (decide (j = id)) as [->|Hne]; [by left|]. right. by rewrite <- Ho. Qed.

(** An event of a leaf keeps the invariant and the guarantees, if its session
    holds both fences whenever it puts a certificate into service. *)
Lemma leaf_commit s w event db :
  world_inv w -> leaf_typed event -> (issuance (te_Payload event) <> None -> forall class, holds s class true w) ->
  appended (projectPKI false) (pki_event event) (w_db w) db ->
  guarantees s w (with_db w db) /\ world_inv (with_db w db).
Proof.
  intros HI Ht Hh Ha. destruct (appended_leaf w event db HI Ht Ha) as (row & t & Hlog & Hp & Hev & Hrot & <- & Heff).
  destruct Ht as [Hst Hid], HI as [IL IB IK [IDv IG]].
  assert (te_StreamType (ty_Event row) = te_StreamType event) as Htype by (by rewrite Hev).
  assert (te_StreamID (ty_Event row) = te_StreamID event) as Hsid by (by rewrite Hev).
  destruct (Heff) as [Hd Hg _]. cbn [leaf_row ty_Event te_Payload] in Hd, Hg. unfold w_tables in *.
  split; split; cbn [with_db w_db w_locks]; unfold w_tables; cbn [with_db w_db].
  - split; [exists [row]; split; [done|]; intros r ->%list_elem_of_singleton; unfold receipt_current; by rewrite Hp|].
    intros class. left. unfold rotation_of. by rewrite Hrot.
  - done.
  - intros class _. left. by rewrite Hrot.
  - intros class _. by rewrite Hrot.
  - destruct (issuance (te_Payload event)) eqn:E; [right; intros class; by apply Hh|left].
    intros class id der. by apply (leaf_service _ _ _ class id der Heff).
  - exact IL.
  - intros class r. rewrite Hrot. apply IB.
  - assert (forall j, j = te_StreamID event -> ULIDPathID j = Ok tt /\ to_upper j = j) as Hc by (intros j ->; apply Hid).
    intros j Hj. destruct (is_agent (te_Payload event)).
    + rewrite Hg in Hj. destruct Hd as [_ Ho]. destruct Hj as [Hj|Hj]; [|apply IK; by right].
      apply (is_some_moved _ _ _ _ Ho) in Hj as [Hj|Hj]; [apply Hc; by rewrite Hj, <- Hsid|apply IK; by left].
    + rewrite Hd in Hj. destruct Hg as [_ Ho]. destruct Hj as [Hj|Hj]; [apply IK; by left|].
      apply (is_some_moved _ _ _ _ Ho) in Hj as [Hj|Hj]; [apply Hc; by rewrite Hj, <- Hsid|apply IK; by right].
  - rewrite Hlog. destruct (is_agent (te_Payload event)) eqn:Eg.
    + split; [|rewrite Hg; intros id g Hl; by apply recorded_row_app, IG]. destruct Hd as [Hd Ho].
      apply (moved_recorded device_leaf dr_ProjectionVersion (lf_devices (pk_leaves (td_tables (w_db w)))) _ _ row (te_Payload event));
        [rewrite Htype, Hst; unfold stream_of; by rewrite Eg|done| |exact Ho|exact IDv].
      intros d Hl. cbn in Hd. rewrite Hl in Hd. by apply device_step_recorded in Hd.
    + split; [rewrite Hd; intros id d Hl; by apply recorded_row_app, IDv|]. destruct Hg as [Hg Ho].
      apply (moved_recorded gateway_leaf gt_ProjectionVersion (lf_gateways (pk_leaves (td_tables (w_db w)))) _ _ row (te_Payload event));
        [rewrite Htype, Hst; unfold stream_of; by rewrite Eg|done| |exact Ho|exact IG].
      intros d Hl. cbn in Hg. rewrite Hl in Hg. by apply gateway_step_recorded in Hg.
Qed.

(** ** The lifecycle transaction *)

(** An event in the log. *)
Definition event_in (event : LeafEvent) (log : list PKIRow) : Prop := exists row, row ∈ log /\ ty_Event row = pki_event event.

Lemma judged_appendEventFor s (P : World -> Prop) id event expected agent :
  framed s P -> canonical_ulid id ->
  (issuance (te_Payload event) <> None -> forall w, P w -> forall class, holds s class true w) ->
  judged s (fun r w => oks (fun _ => event_in event (td_log (w_db w))) r) P (appendEventFor id event expected agent).
Proof.
  intros HP Hid Hh. unfold appendEventFor.
  eapply (judged_quiet s (fun _ => True)); [exact HP|by intros e w|apply yields_look; intros; apply oks_true|]. intros _ _.
  case_match; [by intros w _ _|]. destruct (_ || _) eqn:E; [by intros w _ _|].
  apply orb_false_iff in E as [E Ha%negb_false_iff%eqb_prop]. apply orb_false_iff in E as [Hst%negb_false_iff%String.eqb_eq Hi%negb_false_iff%String.eqb_eq].
  assert (leaf_typed event) as Ht by (split; [by rewrite Hst; unfold stream_of; rewrite Ha|by rewrite Hi]).
  eapply rg_act.
  { intros [[]|e]; [|by intros w1 w2 _ _ _ _]. apply (fr_stable s), (framed_log s (event_in event)).
    intros l rows (row & Hr & Hev). exists row. split; [apply elem_of_app; by left|done]. }
  intros env w w' r HI Hw Hop. cbv zeta in Hop. fold (pki_event event) in Hop.
  destruct (AppendPinned _ _ _ _ _) as [db r0] eqn:Ea. injection Hop as <- <-.
  apply AppendPinned_ok in Ea as [[-> Hr]|[_ Hap]].
  - rewrite with_db_same. split; [apply guarantees_refl|]. split; [done|]. by destruct r0.
  - destruct (leaf_commit s w event db HI Ht (fun Hne => Hh Hne w Hw) Hap) as [HG HI']. split; [done|]. split; [done|].
    destruct (appended_leaf w event db HI Ht Hap) as (row & _ & Hlog & _ & Hev & _).
    destruct r0; [|done]. exists row. cbn. rewrite Hlog. split; [apply elem_of_app; right; by left|done].
Qed.

Lemma judged_append_made {A} s (Q : result goerr A -> World -> Prop) (P : World -> Prop) id expected agent event (reply : A) :
  unlocked s Q -> framed s P -> canonical_ulid id ->
  (forall e, event = Ok e -> issuance (te_Payload e) <> None -> forall w, P w -> forall class, holds s class true w) ->
  (forall e w, event = Ok e -> event_in e (td_log (w_db w)) -> Q (Ok reply) w) ->
  judged s Q P (append_made (fun e => appendEventFor id e expected agent) event reply).
Proof.
  intros HQ HP Hid Hh Hr. unfold append_made. eapply rg_pure_try; [apply HQ|]. intros e He.
  eapply rg_bind; [apply judged_appendEventFor; [exact HP|exact Hid|intros Hne; by apply (Hh e)]|].
  intros [[]|er] w _ Hw; [by apply (Hr e)|apply HQ].
Qed.

Lemma canonicalDeviceID_ok id id' : canonicalDeviceID id = Ok id' -> canonical_ulid id' /\ id' = to_upper id.
Proof. unfold canonicalDeviceID. intros ([] & Hu%wrap_err_ok & [= <-])%bind_ok. split; [split; [by apply ULIDPathID_upper|apply to_upper_idem]|done]. Qed.

Lemma yields_end session id : yields (fun _ => True) (end_transaction session id).
Proof. apply yields_act. by intros env w w' x [= <- <-]. Qed.

(** The operation runs under its lock, which the rotation does not see. *)
Lemma judged_lifecycle {A} s (Q : result goerr A -> World -> Prop) (P : World -> Prop) id (operation : string -> RotProg A) :
  unlocked s Q -> framed s P -> (forall id', canonical_ulid id' -> id' = to_upper id -> judged s Q P (operation id')) ->
  judged s Q P (WithDeviceLifecycleLock s id operation).
Proof.
  intros HQ HP Hop. unfold WithDeviceLifecycleLock.
  eapply (judged_quiet s (fun _ => True)); [exact HP|apply HQ|apply yields_look; intros; apply oks_true|]. intros _ _.
  eapply rg_pure_try; [apply HQ|]. intros id' [Hc Hid]%canonicalDeviceID_ok.
  eapply (judged_quiet s (fun _ => True)); [exact HP|apply HQ|apply yields_look; intros; apply oks_true|]. intros _ _.
  eapply (judged_quiet s (fun _ => True)); [exact HP|apply HQ| |].
  { apply yields_act. intros env w w' x. cbv zeta. repeat case_match; by intros [= <- <-]. }
  intros _ _. eapply rg_bind; [by apply Hop|]. intros r.
  eapply (judged_quiet_bind s (fun _ => True)); [apply HQ|apply yields_end|]. by intros _ _ w _ Hw.
Qed.

(** ** The fences *)

Lemma framed_fences s : framed s (fun w => forall class, holds s class true w).
Proof.
  split; [intros w w' HI HI' HR Hw class; apply (fr_stable s _ (framed_holds s class true) w w' HI HI' HR), Hw|].
  intros w w' Hq Hw class. apply (fr_quiet s _ (framed_holds s class true) w w' Hq), Hw.
Qed.

(** The trust of a snapshot that a call works under. *)
Lemma judged_issuance {A} s (Q : result goerr A -> World -> Prop) action :
  unlocked s Q ->
  (forall agent gateway, judged s Q (fun w => forall class, holds s class true w) (action agent gateway)) ->
  judged s Q (fun _ => True) (withIssuanceFences s action).
Proof.
  intros HQ Ha. unfold withIssuanceFences. apply judged_fences; [done|].
  eapply rg_weaken with (P := fun w => forall class, holds s class true w).
  { intros w _ Hl class. apply Hl. unfold fence_key. case_match; set_solver. }
  eapply (judged_quiet s (fun _ => True)); [apply framed_fences|apply HQ|apply yields_Snapshot|]. intros agent _.
  eapply (judged_quiet s (fun _ => True)); [apply framed_fences|apply HQ|apply yields_Snapshot|]. intros gateway _. apply Ha.
Qed.

(** Steps on the tokens are outside of the rotation. *)
Lemma yields_tokens {A} (p : prog TokenEnv TokenDB A) : yields (fun _ => True) (lift_tokens p).
Proof.
  induction p as [a|X op k IH]; cbn; [done|]. intros env w w' x. destruct (op _ _) as [db y]. intros [= <- <-]. split; [done|apply IH].
Qed.

Lemma yields_oks {A} (p : RotProg A) : yields (fun _ => True) p -> yields (oks (fun _ => True)) p.
Proof. apply yields_weaken. intros r _. apply oks_true. Qed.

(** ** Certificates that leave the service *)

(** A reply's certificate was put into service by an event of a leaf that [ids]
    allows, in its class's stream. *)
Definition handed_out (stream : string) (ids : string -> string -> Prop) (der : string) (log : list PKIRow) : Prop :=
  exists id previous, ids id previous /\ issued_in stream id (previous, der) log.

Definition released (stream : string) (ids : string -> string -> Prop) (r : result goerr Issued) (w : World) : Prop :=
  match r with Ok i => handed_out stream ids (is_CertificateDER i) (td_log (w_db w)) | Err _ => True end.

Lemma handed_out_app stream ids der l rows : handed_out stream ids der l -> handed_out stream ids der (l ++ rows).
Proof. intros (id & previous & Hi & H). exists id, previous. split; [done|by apply issued_in_app]. Qed.

Lemma unlocked_released s stream ids : unlocked s (released stream ids).
Proof.
  split; [by intros e w| |by intros [i|e] w locks].
  intros [i|e]; [|apply (framed_const s True)]. apply (framed_log s (handed_out stream ids (is_CertificateDER i))). intros l rows. apply handed_out_app.
Qed.

(** *** Events and rows of a certificate *)

Lemma validateAgentEnrollment_der id p id' p' : validateAgentEnrollment id p = Ok (id', p') -> ae_CertificateDER p' = ae_CertificateDER p.
Proof.
  unfold validateAgentEnrollment. intros ([i c] & _ & H)%bind_ok. repeat apply bind_ok in H as (? & _ & H). by injection H as _ <-.
Qed.

Lemma validateGatewayEnrollment_der id p id' p' : validateGatewayEnrollment id p = Ok (id', p') -> ge_CertificateDER p' = ge_CertificateDER p.
Proof.
  unfold validateGatewayEnrollment. intros ([i c] & _ & H)%bind_ok. repeat apply bind_ok in H as (? & _ & H). by injection H as _ <-.
Qed.

Lemma AgentEnrolledEvent_issues id der sealing token owner e :
  AgentEnrolledEvent id der sealing token owner = Ok e -> te_StreamType e = deviceStreamType /\ issuance (te_Payload e) = Some (""%string, der).
Proof. intros ([i p] & Hv%validateAgentEnrollment_der & [= <-])%bind_ok. split; [done|]. cbn. by rewrite Hv. Qed.

Lemma GatewayEnrolledEvent_issues id der token owner names e :
  GatewayEnrolledEvent id der token owner names = Ok e -> te_StreamType e = gatewayStreamType /\ issuance (te_Payload e) = Some (""%string, der).
Proof. intros ([i p] & Hv%validateGatewayEnrollment_der & [= <-])%bind_ok. split; [done|]. cbn. by rewrite Hv. Qed.

Lemma len_empty x : len x <= 0 -> x = ""%string.
Proof. unfold len. destruct x; [done|]. cbn. lia. Qed.

Lemma previous_of {A} (present : bool) x (check : result goerr A) y :
  (present = false -> len x <= 0) -> (if present then check ≫= fun _ => Ok x else Ok ""%string) = Ok y -> y = x.
Proof. intros Hp. destruct present; [by intros (u & _ & [= <-])%bind_ok|]. intros [= <-]. by rewrite len_empty by auto. Qed.

Lemma deviceFromValues_leaf id id' row b d :
  deviceFromValues id id' row b = Ok d -> (dv_PreviousCertificateDER d, dv_CertificateDER d) = device_leaf row.
Proof.
  unfold deviceFromValues. intros (u & _ & H)%bind_ok. apply bind_ok in H as ([i p] & Hv%wrap_err_ok%validateAgentEnrollment_der & H).
  do 4 apply bind_ok in H as (? & _ & H). apply bind_ok in H as (previous & Hp & [= <-]).
  apply previous_of in Hp; [|apply Z.ltb_ge]. cbn. by rewrite Hp, Hv.
Qed.

Lemma gatewayFromRow_leaf id id' row b g :
  gatewayFromRow id id' row b = Ok g -> (gw_PreviousCertificateDER g, gw_CertificateDER g) = gateway_leaf row.
Proof.
  unfold gatewayFromRow. intros (u & _ & H)%bind_ok. apply bind_ok in H as ([i p] & Hv%wrap_err_ok%validateGatewayEnrollment_der & H).
  do 3 apply bind_ok in H as (? & _ & H). apply bind_ok in H as (previous & Hp & [= <-]).
  apply previous_of in Hp; [|intros E%negb_false_iff%Z.eqb_eq; lia]. cbn. by rewrite Hp, Hv.
Qed.

Lemma event_issued e der log :
  event_in e log -> issuance (te_Payload e) = Some der -> issued_in (te_StreamType e) (te_StreamID e) der log.
Proof. intros (row & Hr & Hev) Hd. exists row, (te_Payload e). unfold of_stream. by rewrite Hev. Qed.

(** *** The wrappers of a reply *)

Lemma judged_reply_first {E A B} s (Q : result ConnectError B -> World -> Prop) P code error (r : result E A) p :
  fails_freely Q -> (forall a, r = Ok a -> judged s Q P (p a)) -> judged s Q P (reply_first code error r p).
Proof. intros HQ Hp. unfold reply_first. eapply rg_pure_try; [done|]. intros a Ha%wrap_err_ok. by apply Hp. Qed.

Lemma judged_replying {A} s (Q : result ConnectError A -> World -> Prop) (Q' : result goerr A -> World -> Prop) P map (p : RotProg A) :
  fails_freely Q -> (forall a w, Q' (Ok a) w -> Q (Ok a) w) -> judged s Q' P p -> judged s Q P (replying map p).
Proof. intros HQ HQ' Hp. eapply rg_bind; [exact Hp|]. intros [a|e] w _ Hw; [by apply HQ'|apply HQ]. Qed.

Lemma judged_limited {A} s (Q : result ConnectError A -> World -> Prop) P procedure ip key error (p : RpcProg A) :
  fails_freely Q -> (forall r, framed s (Q r)) -> judged s Q P p -> judged s Q P (limited procedure ip key error p).
Proof.
  intros HQ Hf Hp. eapply rg_bind; [exact Hp|]. intros r.
  assert (forall (rest : RpcProg A), rest = Ret r \/ (exists f, rest = act f /\ forall env w w' x, f env w = (w', x) -> quiet w w' /\ (x = r \/ is_ok x = false)) ->
            judged s Q (Q r) rest) as Hrest.
  { intros rest [->|(f & -> & Hop)]; [by intros w _ Hw|]. eapply rg_act; [intros; apply Hf|]. intros env w w' x HI Hw He.
    destruct (Hop _ _ _ _ He) as [Hq Hx]. split; [by apply quiet_guarantees|]. split; [by eapply quiet_inv|].
    destruct Hx as [->|Hx]; [by apply (fr_quiet s _ (Hf r) w w' Hq)|]. destruct x; [done|apply HQ]. }
  apply Hrest. unfold applyPublicAuthenticationLimit.
  assert (forall env (w w' : World) x,
    (let '(ladder, allowed) := Allow AddrString (sv_ladder (w_service w)) (mkAuthenticationAttempt procedure ip key (is_ok r)) (pe_now env) in
      (with_service w (mkServiceState (sv_tokens (w_service w)) ladder (sv_lifecycle (w_service w))),
       if allowed : bool then r else Err (mkConnectError CodeResourceExhausted error))) = (w', x) ->
    quiet w w' /\ (x = r \/ is_ok x = false)) as Hop.
  { intros env w w' x. destruct (Allow _ _ _ _) as [ladder []]; intros [= <- <-]; (split; [done|]); auto. }
  destruct r as [a|e]; [right; by eexists|]. case_match; [right; by eexists|by left].
Qed.

(** ** Enrollment and renewal *)

Definition replied (stream : string) (ids : string -> string -> Prop) (r : result ConnectError IssuedResponse) (w : World) : Prop :=
  match r with Ok i => handed_out stream ids (ir_CertificateDer i) (td_log (w_db w)) | Err _ => True end.

Lemma framed_replied s stream ids r : framed s (replied stream ids r).
Proof.
  destruct r as [i|e]; [|apply (framed_const s True)]. apply (framed_log s (handed_out stream ids (ir_CertificateDer i))).
  intros l rows. apply handed_out_app.
Qed.

Definition managed (trustedProxies : list Prefix) : EnrollmentService := mkEnrollmentService trustedProxies true.

(** The frame of the four calls that issue. *)
Lemma judged_issuing s trusted stream ids agent procedure ip key error map
    (action : AuthoritySnapshot -> AuthoritySnapshot -> RotProg Issued) :
  (forall a g, judged s (released stream ids) (fun w => forall class, holds s class true w) (action a g)) ->
  judged s (replied stream ids) (fun _ => True)
    (limited procedure ip key error
       (replying map (try_prog (withServiceFences (managed trusted) s action)
                        (fun issued => Ret (Ok (issued_response agent issued)))))).
Proof.
  intros Ha. apply judged_limited; [by intros e w|apply framed_replied|].
  apply (judged_replying s _ (fun r w => match r with Ok i => handed_out stream ids (ir_CertificateDer i) (td_log (w_db w)) | Err _ => True end));
    [by intros e w|done|].
  eapply rg_bind; [apply judged_issuance; [apply (unlocked_released s stream ids)|exact Ha]|].
  by intros [i|e] w _ Hw.
Qed.

(** The end of an issuance under its lock. *)
Definition issues (stream : string) (ids : string -> string -> Prop) (event : string -> result goerr LeafEvent) : Prop :=
  forall der e, event der = Ok e -> te_StreamType e = stream /\ exists previous, ids (te_StreamID e) previous /\ issuance (te_Payload e) = Some (previous, der).

Lemma judged_issue s stream ids id agent expected sign (event : string -> result goerr LeafEvent) a g :
  canonical_ulid id -> issues stream ids event ->
  judged s (released stream ids) (fun w => forall class, holds s class true w)
    (try_prog (issue_with sign) (fun '(der, root) =>
       append_made (fun e => appendEventFor id e expected agent) (event der) (mkIssued der root a g))).
Proof.
  intros Hc He. pose proof (unlocked_released s stream ids) as HQ.
  eapply (judged_quiet s (fun _ => True)); [apply framed_fences|apply HQ|apply yields_look; intros; apply oks_true|]. intros [der root] _.
  apply judged_append_made; [done|apply framed_fences|done|by intros e _ _ w Hw|].
  intros e w Hev Hin. destruct (He der e Hev) as (<- & previous & Hi & Hd). exists (te_StreamID e), previous. split; [done|by apply event_issued].
Qed.

(** Enrollment, once its token is consumed. *)
Lemma judged_enroll {G} s stream (consume : RotProg G) agent sign event (a g : AuthoritySnapshot) :
  yields (fun _ => True) consume -> (forall grant id, issues stream (fun _ previous => previous = ""%string) (event grant id)) ->
  judged s (released stream (fun _ previous => previous = ""%string)) (fun w => forall class, holds s class true w)
    (try_prog consume (fun grant =>
     try_prog new_leaf_id (fun leafID =>
     WithDeviceLifecycleLock s leafID (fun id =>
       try_prog (issue_with (sign grant leafID)) (fun '(der, root) =>
       append_made (fun e => appendEventFor id e 0 agent) (event grant leafID der) (mkIssued der root a g)))))).
Proof.
  intros Hc He. pose proof (unlocked_released s stream (fun _ previous => previous = ""%string)) as HQ.
  eapply (judged_quiet s (fun _ => True)); [apply framed_fences|apply HQ|by apply yields_oks|]. intros grant _.
  eapply (judged_quiet s (fun _ => True)); [apply framed_fences|apply HQ|apply yields_look; intros; apply oks_true|]. intros leafID _.
  apply judged_lifecycle; [done|apply framed_fences|]. intros id Hid _. by apply judged_issue.
Qed.

Lemma EnrollAgent_judged s trusted t request :
  judged s (replied deviceStreamType (fun _ previous => previous = ""%string)) (fun _ => True) (EnrollAgent (managed trusted) s t request).
Proof.
  unfold EnrollAgent. do 3 (apply judged_reply_first; [by intros e w|]; intros ? _). apply judged_issuing. intros ag gw.
  apply judged_enroll; [apply yields_tokens|]. intros grant id der e [Hs Hi]%AgentEnrolledEvent_issues. split; [done|]. by exists ""%string.
Qed.

Lemma EnrollGateway_judged s trusted t request :
  judged s (replied gatewayStreamType (fun _ previous => previous = ""%string)) (fun _ => True) (EnrollGateway (managed trusted) s t request).
Proof.
  unfold EnrollGateway. do 2 (apply judged_reply_first; [by intros e w|]; intros ? _). apply judged_issuing. intros ag gw.
  apply judged_enroll; [apply yields_tokens|]. intros grant id der e [Hs Hi]%GatewayEnrolledEvent_issues. split; [done|]. by exists ""%string.
Qed.

Lemma yields_at_event streamType id version : yields (oks (fun _ => True)) (snapshotsAtLifecycleEvent streamType id version).
Proof.
  assert (forall class (state : option CARotationState),
            yields (oks (fun _ => True)) (match state with Some state => snapshotFromState state | None => Snapshot class end)) as Hs.
  { intros class [state|]; [|apply yields_Snapshot]. eapply yields_weaken; [|apply yields_snapshot]. intros r _. apply oks_true. }
  unfold snapshotsAtLifecycleEvent. eapply (yields_try (fun _ => True)); [apply yields_look; intros; apply oks_true|]. intros [agent gateway] _.
  eapply yields_try; [apply Hs|]. intros ? _. eapply yields_try; [apply Hs|]. done.
Qed.

Lemma yields_committed trusted streamType id version a g :
  yields (oks (fun _ => True)) (committed_trust (managed trusted) streamType id version a g).
Proof. apply yields_at_event. Qed.

(** A locked leaf's certificate was put into service by its stream. *)
Lemma judged_locked {Row X B} s (Q : result goerr B -> World -> Prop) msg id stream rejection (rows : LeafTables -> gmap string Row)
    (decode : Row -> result goerr X) (row_der : Row -> string * string) (der : X -> string * string) (f : X -> RotProg B) :
  fails_freely Q -> (forall w r, world_inv w -> rows (pk_leaves (w_tables w)) !! id = Some r -> issued_in stream id (row_der r) (td_log (w_db w))) ->
  (forall r x, decode r = Ok x -> der x = row_der r) ->
  (forall x, judged s Q (fun w => (forall class, holds s class true w) /\ issued_in stream id (der x) (td_log (w_db w))) (f x)) ->
  judged s Q (fun w => forall class, holds s class true w)
    (try_prog (bind_prog (look (read_locked msg id rows decode)) (fun r => Ret (found_or rejection r))) f).
Proof.
  intros HQ Hrow Hder Hf. apply rg_assoc.
  set (known := fun x w => (forall class, holds s class true w) /\ issued_in stream id (der x) (td_log (w_db w))) in *.
  assert (forall x, framed s (known x)) as Hk.
  { intros x. apply framed_and; [apply framed_fences|]. apply (framed_log s (issued_in stream id (der x))). intros l k. apply issued_in_app. }
  eapply rg_bind with (Q := fun (r : result goerr X) w => match r with Ok x => known x w | Err _ => True end).
  - apply rg_look; [apply _|intros [x|e]; [apply Hk|apply stable_const]|]. intros env w HI Hw.
    destruct (read_locked msg id rows decode env w) as [x|e] eqn:E; [|done]. split; [done|].
    unfold read_locked in E. apply bind_ok in E as (u & _ & E). apply bind_ok in E as (r & Hr%wrap_err_ok & E).
    apply bind_ok in Hr as (u2 & _ & Hr%or_err_ok). rewrite (Hder _ _ E). by apply Hrow.
  - intros [x|e]; [apply Hf|]. intros w _ _. apply HQ.
Qed.

Lemma renewed_agent_issues deviceID sealing superseded :
  issues deviceStreamType (fun id previous => id = to_upper deviceID /\ previous = superseded) (fun der => AgentCertificateRenewedEvent deviceID der sealing superseded).
Proof.
  intros der e (id & Hv & [= <-])%bind_ok. split; [done|]. exists superseded. split; [split; [|done]|done]. cbn.
  unfold validateAgentCertificateRenewal, validateAgentCertificate in Hv. apply bind_ok in Hv as ([i c] & Hi & Hv).
  apply bind_ok in Hi as (j & [_ ->]%canonicalDeviceID_ok & Hi).
  repeat (apply bind_ok in Hi as (? & _ & Hi) || case_match || injection Hi as <- _).
  apply bind_ok in Hv as ([? ?] & _ & Hv). repeat apply bind_ok in Hv as (? & _ & Hv). by injection Hv as <-.
Qed.

Lemma renewed_gateway_issues gatewayID superseded :
  issues gatewayStreamType (fun id previous => id = to_upper gatewayID /\ previous = superseded) (fun der => GatewayCertificateRenewedEvent gatewayID der superseded).
Proof.
  intros der e (id & Hv & [= <-])%bind_ok. split; [done|]. exists superseded. split; [split; [|done]|done]. cbn.
  unfold validateGatewayRenewal, validateGatewayCertificate in Hv. apply bind_ok in Hv as ([i c] & Hi & Hv).
  apply bind_ok in Hi as (j & Hj & Hi). unfold canonicalGatewayID in Hj. apply bind_ok in Hj as (? & _ & [= <-]).
  repeat (apply bind_ok in Hi as (? & _ & Hi) || case_match || injection Hi as <- _).
  apply bind_ok in Hv as ([? ?] & _ & Hv). repeat apply bind_ok in Hv as (? & _ & Hv). by injection Hv as <-.
Qed.

(** A retry hands out what the current row has. *)
Lemma retry_judged s stream ids trusted streamType id version der certificate pick (a g : AuthoritySnapshot) :
  judged s (released stream ids) (fun w => (forall class, holds s class true w) /\ handed_out stream ids der (td_log (w_db w)))
    (try_prog (committed_trust (managed trusted) streamType id version a g) (fun '(agent, gateway) =>
     try_prog (Ret (verifiedCertificateIssuerRoot certificate (as_DesiredRootDER (pick agent gateway)))) (fun root =>
     Ret (Ok (mkIssued der root agent gateway))))).
Proof.
  eapply (judged_quiet s (fun _ => True)); [|by intros e w|apply yields_committed|].
  - apply framed_and; [apply framed_fences|]. apply (framed_log s (handed_out stream ids der)). intros l k. apply handed_out_app.
  - intros [agent gateway] _. eapply rg_pure_try; [by intros e w|]. intros root _ w _ [_ Hw]. exact Hw.
Qed.

Lemma device_issued w id d :
  world_inv w -> lf_devices (pk_leaves (w_tables w)) !! id = Some d -> issued_in deviceStreamType id (device_leaf d) (td_log (w_db w)).
Proof. intros HI Hd. by destruct (proj1 (wi_leaves _ HI) _ _ Hd). Qed.

Lemma gateway_issued w id g :
  world_inv w -> lf_gateways (pk_leaves (w_tables w)) !! id = Some g -> issued_in gatewayStreamType id (gateway_leaf g) (td_log (w_db w)).
Proof. intros HI Hd. by destruct (proj2 (wi_leaves _ HI) _ _ Hd). Qed.

Lemma renew_agent_judged s trusted id deviceID presented key sealing a g :
  canonical_ulid id -> id = to_upper deviceID ->
  judged s (released deviceStreamType (fun j previous => j = to_upper deviceID /\ previous = Raw presented)) (fun w => forall class, holds s class true w)
    (renew_agent (managed trusted) id deviceID presented key sealing a g).
Proof.
  intros Hc Hid. unfold renew_agent.
  apply (judged_locked s _ _ id deviceStreamType _ _ _ device_leaf (fun d => (dv_PreviousCertificateDER d, dv_CertificateDER d)));
    [by intros e w|intros w r; apply device_issued|intros r x; apply deviceFromValues_leaf|]. intros current.
  case_match; [by intros w _ _|]. case_match.
  - unfold retry_agent. case_match eqn:E; [by intros w _ _|]. apply orb_false_iff in E as [[_ Hprev%negb_false_iff%String.eqb_eq]%orb_false_iff _].
    eapply rg_pure_try; [by intros e w|]. intros [certificate currentID] _.
    case_match; [by intros w _ _|]. eapply rg_weaken; [|by apply (retry_judged s _ _ _ _ _ _ _ _ (fun agent _ => agent))].
    intros w _ [Hh Hi]. split; [done|]. exists id, (Raw presented). split; [done|]. by rewrite <- Hprev.
  - eapply rg_weaken with (P := fun w => forall class, holds s class true w); [by intros w _ [? _]|].
    apply judged_issue; [done|apply renewed_agent_issues].
Qed.

Lemma renew_gateway_judged s trusted id gatewayID presented key a g :
  canonical_ulid id -> id = to_upper gatewayID ->
  judged s (released gatewayStreamType (fun j previous => j = to_upper gatewayID /\ previous = Raw presented)) (fun w => forall class, holds s class true w)
    (renew_gateway (managed trusted) id gatewayID presented key a g).
Proof.
  intros Hc Hid. unfold renew_gateway.
  apply (judged_locked s _ _ id gatewayStreamType _ _ _ gateway_leaf (fun g => (gw_PreviousCertificateDER g, gw_CertificateDER g)));
    [by intros e w|intros w r; apply gateway_issued|intros r x; apply gatewayFromRow_leaf|]. intros current.
  case_match; [by intros w _ _|]. case_match.
  - unfold retry_gateway. case_match eqn:E; [by intros w _ _|]. apply orb_false_iff in E as [_ Hprev%negb_false_iff%String.eqb_eq].
    case_match; [|by intros w _ _]. case_match.
    case_match; [by intros w _ _|]. eapply rg_weaken; [|by apply (retry_judged s _ _ _ _ _ _ _ _ (fun _ gateway => gateway))].
    intros w _ [Hh Hi]. split; [done|]. exists id, (Raw presented). split; [done|]. by rewrite <- Hprev.
  - eapply rg_weaken with (P := fun w => forall class, holds s class true w); [by intros w _ [? _]|].
    apply judged_issue; [done|apply renewed_gateway_issues].
Qed.

(** The leaf that a presented certificate names. *)
Definition names_leaf (parse : string -> result goerr (Certificate * string)) (der id previous : string) : Prop :=
  exists certificate leafID, parse der = Ok (certificate, leafID) /\ id = to_upper leafID /\ previous = Raw certificate.

Lemma RenewAgent_judged s trusted t request :
  judged s (replied deviceStreamType (names_leaf parseRenewalCertificate (ra_CertificateDer request))) (fun _ => True)
    (RenewAgent (managed trusted) s t request).
Proof.
  unfold RenewAgent. apply judged_reply_first; [by intros e w|]. intros [presented deviceID] Hp.
  do 3 (apply judged_reply_first; [by intros e w|]; intros ? _). case_match.
  - apply judged_limited; [by intros e w|apply framed_replied|by intros w _ _].
  - apply judged_issuing. intros ag gw. apply judged_lifecycle; [apply unlocked_released|apply framed_fences|].
    intros id Hc Hid. eapply rg_post; [|by apply renew_agent_judged]. intros [i|e] w _; [|done].
    intros (j & p & [-> ->] & Hi). exists (to_upper deviceID), (Raw presented). split; [|done]. by exists presented, deviceID.
Qed.

Lemma RenewGateway_judged s trusted t request :
  judged s (replied gatewayStreamType (names_leaf parseGatewayRenewalCertificate (rw_CertificateDer request))) (fun _ => True)
    (RenewGateway (managed trusted) s t request).
Proof.
  unfold RenewGateway. apply judged_reply_first; [by intros e w|]. intros [presented gatewayID] Hp.
  do 2 (apply judged_reply_first; [by intros e w|]; intros ? _). case_match.
  - apply judged_limited; [by intros e w|apply framed_replied|by intros w _ _].
  - apply judged_issuing. intros ag gw. apply judged_lifecycle; [apply unlocked_released|apply framed_fences|].
    intros id Hc Hid. eapply rg_post; [|by apply renew_gateway_judged]. intros [i|e] w _; [|done].
    intros (j & p & [-> ->] & Hi). exists (to_upper gatewayID), (Raw presented). split; [|done]. by exists presented, gatewayID.
Qed.

(** ** Revocation and confirmation *)

(** A call that keeps to its guarantees, whatever it replies. *)
Definition orderly {A} (s : nat) (p : RpcProg A) : Prop := judged s (fun _ _ => True) (fun _ => True) p.

Lemma unlocked_true {A} s : unlocked s (fun (_ : result goerr A) (_ : World) => True).
Proof. split; [by intros e w|intros r; apply framed_const|done]. Qed.

Lemma yields_replying {A} (R : A -> Prop) map (p : RotProg A) :
  yields (oks R) p -> yields (fun r => match r with Ok a => R a | Err _ => True end) (replying map p).
Proof. intros Hp. eapply yields_bind; [exact Hp|]. by intros [a|e]. Qed.

Lemma judged_first {A B} s (Q : result ConnectError B -> World -> Prop) P (p : RpcProg A) f :
  framed s P -> fails_freely Q -> yields (fun _ => True) p -> (forall a, judged s Q P (f a)) -> judged s Q P (try_prog p f).
Proof.
  intros HP HQ Hp Hf. eapply (judged_quiet_bind s (fun _ => True)); [exact HP|exact Hp|].
  intros [a|e] _; [apply Hf|]. intros w _ _. apply HQ.
Qed.

Lemma yields_context map : yields (fun _ : result ConnectError unit => True) (replying map (look (fun env _ => may_fault (pe_ctx env)))).
Proof.
  eapply yields_weaken; [|apply (yields_replying (fun _ => True))]; [done|]. apply yields_look. intros; apply oks_true.
Qed.

Lemma yields_try_reply {A B} (p : RpcProg A) (f : A -> RpcProg B) :
  yields (fun _ => True) p -> (forall a, yields (fun _ => True) (f a)) -> yields (fun _ => True) (try_prog p f).
Proof. intros Hp Hf. eapply yields_bind; [exact Hp|]. by intros [a|e] _; [apply Hf|]. Qed.

Lemma yields_authorize parse headers der : yields (fun _ => True) (authorize_lifecycle parse headers der).
Proof.
  unfold authorize_lifecycle. destruct headers as [|header [|]]; [done| |done]. case_match; [done|].
  apply yields_try_reply; [apply yields_context|]. intros _. apply yields_try_reply; [done|]. intros presented.
  eapply (yields_bind (fun _ => True)); [by apply yields_look|]. intros [_|e] _; [done|].
  apply yields_try_reply; [apply yields_context|done].
Qed.

Lemma lifecycle_call_orderly s trusted t procedure class der authorize (operation : string -> string -> Certificate -> RotProg unit) :
  yields (fun _ => True) authorize ->
  (forall id leafID presented, canonical_ulid id -> lawful s (fun _ => True) (operation id leafID presented)) ->
  orderly s (lifecycle_call (managed trusted) s t procedure class der authorize operation).
Proof.
  intros Ha Hop. unfold lifecycle_call. apply judged_first; [apply framed_const|by intros e w|apply yields_context|]. intros _.
  apply judged_reply_first; [by intros e w|]. intros ip _.
  apply judged_limited; [by intros e w|intros; apply framed_const|].
  apply judged_first; [apply framed_const|by intros e w|exact Ha|]. intros [presented leafID].
  apply (judged_replying s _ (fun _ _ => True)); [by intros e w|done|].
  apply judged_lifecycle; [apply unlocked_true|apply framed_const|]. intros id Hc _. by apply Hop.
Qed.

(** A read, a check and an event that puts nothing into service. *)
Lemma lawful_withdrawal {X} s (read : RotProg X) rejection (refused : X -> bool) id (version : X -> Z) agent event :
  canonical_ulid id -> yields (oks (fun _ => True)) read -> (forall e, event = Ok e -> issuance (te_Payload e) = None) ->
  lawful s (fun _ => True)
    (try_prog (bind_prog read (fun r => Ret (found_or rejection r))) (fun current =>
     if refused current then Ret (Err rejection)
     else append_made (fun e => appendEventFor id e (version current) agent) event tt)).
Proof.
  intros Hc Hr He. eapply (judged_quiet s (fun _ => True)); [apply framed_const|by intros e w| |].
  { eapply yields_bind; [exact Hr|]. intros r _. apply oks_true. }
  intros current _. case_match; [by intros w _ _|].
  apply judged_append_made; [apply unlocked_true|apply framed_const|done| |done]. intros e Hev Hne. by destruct (Hne (He e Hev)).
Qed.

Lemma withdrawal_event deviceID der payload e :
  agentCertificateLifecycleEvent deviceID der payload = Ok e -> te_Payload e = payload der.
Proof. intros ([i c] & _ & [= <-])%bind_ok. done. Qed.

Lemma appendAgentLifecycleEvent_lawful s id deviceID presented revoke :
  canonical_ulid id -> lawful s (fun _ => True) (appendAgentLifecycleEvent id deviceID presented revoke).
Proof.
  intros Hc. apply (lawful_withdrawal s _ _ _ id dv_ProjectionVersion true); [done|apply yields_look; intros; apply oks_true|].
  intros e He. destruct revoke; by apply withdrawal_event in He as ->.
Qed.

Lemma revoke_gateway_lawful s id gatewayID presented :
  canonical_ulid id -> lawful s (fun _ => True) (revoke_gateway id gatewayID presented).
Proof.
  intros Hc. apply (lawful_withdrawal s _ _ _ id gw_ProjectionVersion false); [done|apply yields_look; intros; apply oks_true|].
  intros e He. apply bind_ok in He as ([i c] & _ & [= <-]). done.
Qed.

Lemma confirm_fenced_lawful s confirmation :
  lawful s (holds s (tc_ClaimedClass (tf_Claim confirmation)) true) (confirm_fenced confirmation).
Proof.
  unfold confirm_fenced. apply rg_assoc. eapply rg_bind; [apply judged_validate|]. intros [receipt|e]; [|by intros w _ _].
  cbn [bind_prog]. apply rg_exists. intros r. apply rg_pure_pre. intros Hr.
  eapply rg_bind with (Q := fun _ _ => True).
  - pose proof (record_receipt_lawful s _ r receipt Hr) as Hl. unfold record_receipt in Hl.
    destruct receipt; cbn [RecordValidatedTrustConfirmation] in Hl; exact Hl.
  - intros [[]|e]; [|by intros w _ _]. apply rg_look; [apply _|intros; apply stable_const|done].
Qed.

Lemma confirmTrustState_orderly s trusted t class procedure request :
  orderly s (confirmTrustState (managed trusted) s t class procedure request).
Proof.
  unfold confirmTrustState. cbn [managed es_rotationManaged negb]. apply judged_reply_first; [by intros e w|]. intros ip _.
  apply judged_limited; [by intros e w|intros; apply framed_const|].
  apply (judged_replying s _ (fun _ _ => True)); [by intros e w|done|]. apply lawful_shared.
  eapply rg_weaken with (P := holds s (cf_ClaimedClass request) true); [by intros w _ [_ ?]|].
  exact (confirm_fenced_lawful s (trustStateConfirmationFromRequest class request)).
Qed.
(** ** What happens beside the calls *)

(** What the others do while [n] calls run: the memory of a process is that of
    another control process, or of a restarted one, with its tokens and failures;
    lists and work are written; sessions of their own take locks that are free
    and release them; and any event of a leaf is appended, by a session that holds
    both fences if it puts a certificate into service. *)
Inductive outside (n : nat) (w : World) : World -> Prop :=
| outside_memory authorities signers bundles service :
    outside n w (mkWorld (w_db w) (w_locks w) authorities signers bundles service)
| outside_lists crl work :
    let leaves := pk_leaves (w_tables w) in
    outside n w (with_db w (mkTypedDB (td_log (w_db w))
      (mkPKITables (mkLeafTables (lf_devices leaves) (lf_gateways leaves) crl work) (pk_rotation (w_tables w)))))
| outside_lock session key shared : (n <= session)%nat -> grants key shared (w_locks w) = true ->
    outside n w (with_locks w (mkAdvisoryLock session key shared :: w_locks w))
| outside_unlock session key : (n <= session)%nat ->
    outside n w (with_locks w (filter (fun l => ~ (al_session l = session /\ al_key l = key)) (w_locks w)))
| outside_event session event db : (n <= session)%nat -> leaf_typed event ->
    (issuance (te_Payload event) <> None -> forall class, holds session class true w) ->
    appended (projectPKI false) (pki_event event) (w_db w) db -> outside n w (with_db w db).

Lemma outside_guarantees n w w' :
  world_inv w -> outside n w w' -> world_inv w' /\ exists session, (n <= session)%nat /\ guarantees session w w'.
Proof.
  intros HI Ho. pose proof HI as [HL HB HK HV].
  destruct Ho as [a g b v|crl work leaves|session key shared Hs Hg|session key Hs|session event db Hs Ht Hh Ha].
  - split; [by split|]. exists n. split; [done|]. split; [apply machine_step_refl|done|by left|done|by left; intros class id der].
  - split; [by split|]. exists n. split; [done|]. split; [|done|by left|done|by left; intros class id der].
    split; [|by left]. exists []. cbn. rewrite app_nil_r. split; [done|]. intros row Hr. by apply elem_of_nil in Hr.
  - split; [by apply acquire_inv|]. exists session. split; [done|].
    split; [apply machine_step_refl| |by left|done|by left; intros class id der].
    intros l Hl. cbn. rewrite elem_of_cons. split; [by right|]. intros [->|?]; [by cbn in Hl|done].
  - split; [by apply release_inv|]. exists session. split; [done|].
    split; [apply machine_step_refl| |by left|done|by left; intros class id der].
    intros l Hl. cbn. rewrite list_elem_of_filter. naive_solver.
  - destruct (leaf_commit session w event db HI Ht Hh Ha) as [HG HI']. split; [done|]. by exists session.
Qed.

Lemma outside_respectful n : respectful n (outside n).
Proof.
  intros w w' HI Ho. destruct (outside_guarantees n w w' HI Ho) as (HI' & session & Hs & HG). split; [done|].
  intros s Hlt. eapply guarantees_relies; [|done|exact HG]. lia.
Qed.

Lemma outside_machine n w w' : world_inv w -> outside n w w' -> machine_step (w_db w) (w_db w').
Proof. intros HI Ho. by destruct (outside_guarantees n w w' HI Ho) as (_ & session & _ & [HG]). Qed.
End Spec.
