(* ===== verification/ServiceRuns.v ===== *)
(** * The whole public key infrastructure, interleaved

    Rotation calls and public service calls as one server: what any number of
    them promises together, and a run of them as an example. *)

From Stdlib Require Import Ascii String ZArith Lia.
From S2P Require Export IssuanceProof RotationRuns.

Section Service.
Context {x509 : X509} {schemes : Schemes} {x509crl : X509CRL} {x25519 : X25519} {issue : X509Issue} {netip : NetIP}.

(** ** The calls *)

Inductive ServerCall :=
| Rotate (call : Call)
| CallEnrollAgent (t : Transport) (request : EnrollAgentRequest)
| CallEnrollGateway (t : Transport) (request : EnrollGatewayRequest)
| CallRenewAgent (t : Transport) (request : RenewAgentRequest)
| CallRenewGateway (t : Transport) (request : RenewGatewayRequest)
| CallRevokeAgent (t : Transport) (certificateDer : string)
| CallForceRenewAgent (t : Transport) (certificateDer : string)
| CallRevokeGateway (t : Transport) (certificateDer : string)
| CallConfirmAgent (t : Transport) (request : ConfirmTrustStateRequest)
| CallConfirmGateway (t : Transport) (request : ConfirmTrustStateRequest).

Inductive Reply :=
| Rotated (r : result goerr unit)
| Released (r : result ConnectError IssuedResponse)
| Done (r : result ConnectError unit).

Definition answer {A} (p : prog PKIEnv World A) (reply : A -> Reply) : prog PKIEnv World Reply :=
  bind_prog p (fun r => Ret (reply r)).

Definition run_server_call (trustedProxies : list Prefix) (session : nat) (call : ServerCall) : prog PKIEnv World Reply :=
  let s := managed trustedProxies in
  match call with
  | Rotate call => answer (run_call session call) Rotated
  | CallEnrollAgent t request => answer (EnrollAgent s session t request) Released
  | CallEnrollGateway t request => answer (EnrollGateway s session t request) Released
  | CallRenewAgent t request => answer (RenewAgent s session t request) Released
  | CallRenewGateway t request => answer (RenewGateway s session t request) Released
  | CallRevokeAgent t der => answer (RevokeAgent s session t der) Done
  | CallForceRenewAgent t der => answer (ForceRenewAgent s session t der) Done
  | CallRevokeGateway t der => answer (RevokeGateway s session t der) Done
  | CallConfirmAgent t request => answer (ConfirmAgentTrustState s session t request) Done
  | CallConfirmGateway t request => answer (ConfirmGatewayTrustState s session t request) Done
  end.

(** The leaf and the previous certificate that a certificate must have been
    issued after, for a call to hand it out. *)
Definition entitled (call : ServerCall) : option (string * (string -> string -> Prop)) :=
  match call with
  | CallEnrollAgent _ _ => Some (deviceStreamType, fun _ previous => previous = ""%string)
  | CallEnrollGateway _ _ => Some (gatewayStreamType, fun _ previous => previous = ""%string)
  | CallRenewAgent _ request => Some (deviceStreamType, names_leaf parseRenewalCertificate (ra_CertificateDer request))
  | CallRenewGateway _ request => Some (gatewayStreamType, names_leaf parseGatewayRenewalCertificate (rw_CertificateDer request))
  | _ => None
  end.

(** What the log says about a reply: a certificate that is handed out was put
    into service by an event that the call is entitled to. *)
Definition accounted (call : ServerCall) (reply : Reply) (w : World) : Prop :=
  match reply with
  | Released (Ok response) =>
      exists stream ids, entitled call = Some (stream, ids)
        /\ handed_out stream ids (ir_CertificateDer response) (td_log (w_db w))
  | _ => True
  end.

Lemma judged_answer {A} s (Q : A -> World -> Prop) (R : Reply -> World -> Prop) (p : prog PKIEnv World A) reply :
  judged s Q (fun _ => True) p -> (forall a w, Q a w -> R (reply a) w) -> judged s R (fun _ => True) (answer p reply).
Proof. intros Hp HR. eapply rg_bind; [exact Hp|]. intros a w _ Hw. by apply HR. Qed.

Lemma judged_orderly {A} s call (p : RpcProg A) reply :
  orderly s p -> (forall a, match reply a with Released _ => False | _ => True end) ->
  judged s (accounted call) (fun _ => True) (answer p reply).
Proof.
  intros Hp Hr. eapply judged_answer; [exact Hp|]. intros a w _. specialize (Hr a). by destruct (reply a).
Qed.

Lemma judged_released s call stream ids (p : RpcProg IssuedResponse) :
  entitled call = Some (stream, ids) -> judged s (replied stream ids) (fun _ => True) p ->
  judged s (accounted call) (fun _ => True) (answer p Released).
Proof. intros He Hp. eapply judged_answer; [exact Hp|]. intros [r|e] w Hw; [|done]. by exists stream, ids. Qed.

Lemma server_call_judged trusted s call : judged s (accounted call) (fun _ => True) (run_server_call trusted s call).
Proof.
  destruct call; cbn [run_server_call].
  - eapply judged_answer; [apply run_call_lawful|done].
  - eapply judged_released; [reflexivity|apply EnrollAgent_judged].
  - eapply judged_released; [reflexivity|apply EnrollGateway_judged].
  - eapply judged_released; [reflexivity|apply RenewAgent_judged].
  - eapply judged_released; [reflexivity|apply RenewGateway_judged].
  - apply judged_orderly; [|done]. apply lifecycle_call_orderly; [apply yields_authorize|].
    intros. by apply appendAgentLifecycleEvent_lawful.
  - apply judged_orderly; [|done]. apply lifecycle_call_orderly; [apply yields_authorize|].
    intros. by apply appendAgentLifecycleEvent_lawful.
  - apply judged_orderly; [|done]. apply lifecycle_call_orderly; [apply yields_authorize|].
    intros. by apply revoke_gateway_lawful.
  - apply judged_orderly; [apply confirmTrustState_orderly|done].
  - apply judged_orderly; [apply confirmTrustState_orderly|done].
Qed.

Lemma calls_judged (Other : World -> World -> Prop) trusted (calls : list ServerCall) w0 w ts :
  world_inv w0 -> respectful (length calls) Other ->
  rtc (sched_step Other) (w0, imap (run_server_call trusted) calls) (w, ts) ->
  world_inv w /\ rtc (fun w w' => world_inv w /\ (machine_step (w_db w) (w_db w') \/ Other w w')) w0 w
  /\ forall i c a, calls !! i = Some c -> ts !! i = Some (Ret a) -> accounted c a w.
Proof. exact (threads_refine Other _ accounted calls w0 w ts (server_call_judged trusted)). Qed.

(** C1. Refinement, of services that have a rotation manager.  Any number of
    calls of rotation managers ([BeginTrust], [Abort], [Migrate], [Retire],
    [Normalize], confirmations, snapshots and restarts) and of public services
    (enrollments, renewals, revocations, forced renewals and confirmations of
    agents and gateways) may interleave, statement by statement, with each other,
    with the turns of other control processes, each with a memory of its own, and
    with what other sessions do: take free locks, release theirs, write lists
    and work, and append events of leaves, under both fences if the event puts a
    certificate into service.  Whatever fails and whenever contexts end, the
    database then moves along the steps of the abstract machine only: a class
    stays or takes one edge of the continuity graph, through its gate in the very
    state that the event commits in, and every receipt of an agent or a gateway
    is, when it is recorded, about the rotation that is durable then.  Control's
    own receipts are excepted: their snapshot is read before the fence is
    taken. *)
Theorem server_refines_the_machine trusted (calls : list ServerCall) w0 w ts :
  world_inv w0 -> rtc (sched_step (outside (length calls))) (w0, imap (run_server_call trusted) calls) (w, ts) ->
  world_inv w /\ rtc machine_step (w_db w0) (w_db w).
Proof.
  intros HI Hr. destruct (calls_judged _ trusted calls w0 w ts HI (outside_respectful _) Hr) as (? & H & _).
  split; [done|]. eapply machine_steps; [|exact H]. apply outside_machine.
Qed.

(** C2. Safety of what is handed out: in every such interleaving, a certificate
    that a finished call replied is one that the log puts into service, on the
    stream of the leaf that the request named; the reply to a renewal, a retried
    one too, is always a certificate that was renewed from exactly the presented
    one, and the reply to an enrollment one that replaced none. *)
Theorem released_certificates_are_accounted (Other : World -> World -> Prop) trusted (calls : list ServerCall) w0 w ts i call response :
  world_inv w0 -> respectful (length calls) Other ->
  rtc (sched_step Other) (w0, imap (run_server_call trusted) calls) (w, ts) ->
  calls !! i = Some call -> ts !! i = Some (Ret (Released (Ok response))) ->
  exists stream leaves, entitled call = Some (stream, leaves)
    /\ exists id previous, leaves id previous
         /\ issued_in stream id (previous, ir_CertificateDer response) (td_log (w_db w)).
Proof.
  intros HI Ho Hr Hc Hi. destruct (calls_judged Other trusted calls w0 w ts HI Ho Hr) as (_ & _ & H).
  exact (H i call _ Hc Hi).
Qed.

(** C3. Order of trust intent, for services that have a rotation manager: along
    every interleaving of rotation and public service calls with each other and
    with what other sessions do ([outside]: lock traffic, restarts of other
    processes, lists and work, events of leaves, under both fences if they
    issue), the durable generation of a class never decreases, neither does the
    revision within a generation, and a generation and revision that stay name
    the same desired roots. *)
Theorem trust_intent_is_ordered trusted (calls : list ServerCall) w0 w ts class :
  world_inv w0 -> rtc (sched_step (outside (length calls))) (w0, imap (run_server_call trusted) calls) (w, ts) ->
  ordered (rotation_of class (w_db w0)) (rotation_of class (w_db w)).
Proof.
  intros HI Hr. destruct (calls_judged _ trusted calls w0 w ts HI (outside_respectful _) Hr) as (_ & H & _).
  apply ordered_history. eapply machine_steps; [|exact H]. apply outside_machine.
Qed.
End Service.

(** ** An agent's certificates *)

Module ServiceExample.

Definition device : string := "01ARZ3NDEKTSV4RRFFQ69G5FAV".

Definition root (der : string) : Certificate := RotationExample.authority der der der der "".

Definition leaf (der : string) (serial : Z) : Certificate :=
  mkCertificate der "" "agents" device [] (Some serial) "" "agents" false true 0 false 1 [] 0 hour
    (KeyECDSAPublic (Some sample_pub)) [Some AgentSPIFFEURI] [] [] [ExtKeyUsageClientAuth] [] [] [] [].

#[export] Instance x509 : X509 := {|
  ParseCertificate der :=
    if String.eqb der "agents" then Some (root "agents")
    else if String.eqb der "gateways" then Some (root "gateways")
    else if String.eqb der "successor" then Some (root "successor")
    else if String.eqb der "proof" then Some (RotationExample.authority "proof" "successor" "gateways" "successor" "gateways")
    else if String.eqb der "first" then Some (leaf "first" 5)
    else if String.eqb der "second" then Some (leaf "second" 6) else None;
  CheckSignatureFrom child parent := String.eqb (RawIssuer child) (RawSubject parent);
  MarshalPKIXPublicKey _ := Some "key"%string;
  unmarshalRawValues _ := None;
|}.

#[export] Instance schemes : Schemes := {|
  sha256 material := string_of_bytes (take 32 (material ++ repeat 0 32));
  signDigest _ _ := Err "no key"%string;
  verifyASN1 _ _ signature := String.eqb signature "signed";
  verifyPKCS1v15 _ _ _ := false;
  parsesASN1 _ := true;
|}.
#[export] Instance x25519 : X25519 := RotationExample.x25519.
#[export] Instance x509crl : X509CRL := RotationExample.x509crl.
#[export] Instance issue : X509Issue := {|
  ParseCertificateRequest der := Some (mkCertificateRequest der (KeyECDSAPublic (Some sample_pub)) [] [] [] [] []);
  CheckRequestSignature _ := true;
  CreateCertificate _ _ _ _ _ := Ok "second"%string;
|}.
#[export] Instance netip : NetIP := {|
  SplitHost peer := Some peer;
  ParseAddr _ := Some (Addr4 1);
  AddrString _ := "0.0.0.1"%string;
|}.

Definition service_env : ServiceEnv :=
  mkServiceEnv (mkTokenEnv (mkAppendEnv None Committed 0) None second None None) (Some (repeat 1 16)) None.
Definition env : PKIEnv := mkPKIEnv (mkAppendEnv None Committed 0) None (400 * 24 * hour) None None service_env.

Definition authority (der : string) : certificateAuthority :=
  mkCertificateAuthority (root der) (KeyECDSAPrivate (Some sample_key)) "key".

Definition sealing : list Z := repeat 9 32.
Definition enrolled : PKIRow :=
  mkTypedRow (mkTypedEvent deviceStreamType device (PLeaf (agentEnrolled (mkAgentEnrolledPayload "first" sealing device "ops")))) 1 0.

Definition agents : gmap string DeviceRow :=
  {[device := mkDeviceRow 1 "first" (Sum256 "first") sealing device "ops" "active" 0 ""]}.

Lemma agents_only id d : agents !! id = Some d -> device = id /\ mkDeviceRow 1 "first" (Sum256 "first") sealing device "ops" "active" 0 "" = d.
Proof. apply lookup_singleton_Some. Qed.

(** A server with one agent, whose certificate is [first]. *)
Definition start : World :=
  mkWorld
    (mkTypedDB [enrolled]
       (mkPKITables
          (mkLeafTables agents ∅
             (mkCRLTables ∅ ∅ [] []) ∅) ∅)) []
    (mkAuthorities (authority "agents") (authority "gateways") (KeyECDSAPrivate (Some sample_key))
       {[Sum256 "agents" := authority "agents"]} {[Sum256 "gateways" := authority "gateways"]})
    ∅ [] (mkServiceState (mkTypedDB [] ∅) (match newPublicFailureLadder with Ok l => Some l | Err _ => None end) []).

Definition control (g v : Z) (roots : list string) : ServerCall :=
  Rotate (CallConfirmControl (mkControlTrustStateConfirmation CertificateClassGateway g v (Sum256 <$> roots) "" 0)).
Definition transport : Transport := mkTransport "192.0.2.1" [] ["Bearer operator"].
Definition renewal : ServerCall := CallRenewAgent transport (mkRenewAgentRequest "first" "request" sealing).

Definition confirmation (g v : Z) (roots : list string) : ServerCall :=
  CallConfirmAgent transport
    (mkConfirmTrustStateRequest "second" CertificateClassGateway g v (Sum256 <$> roots) "" 0 "signed").

(** The gateways' root is rotated once the agent and control have confirmed each
    stage; the agent renews its certificate meanwhile, asks again because the
    reply was lost, and is revoked in the end. *)
Definition calls : list ServerCall :=
  [Rotate (CallBeginTrust CertificateClassGateway "successor" "proof" (KeyECDSAPrivate (Some sample_key))); renewal;
   control 2 1 ["gateways"; "successor"]; confirmation 2 1 ["gateways"; "successor"]; Rotate (CallMigrate CertificateClassGateway); renewal;
   Rotate (CallRetire 1 CertificateClassGateway); control 2 2 ["successor"]; confirmation 2 2 ["successor"];
   Rotate (CallNormalize CertificateClassGateway);
   CallRevokeAgent transport "second"; renewal].

Definition finish : World := (run_all env start (imap (run_server_call []) calls)).1.
Definition replies : list Reply := (run_all env start (imap (run_server_call []) calls)).2.

(** Control confirms the roots of a rotation that is aborted after it has read its
    snapshot and before it has the fence. *)
Definition begun : World :=
  (run_prog env start (run_server_call [] 0 (Rotate (CallBeginTrust CertificateClassGateway "successor" "proof" (KeyECDSAPrivate (Some sample_key)))))).1.
Definition confirming : World * prog PKIEnv World Reply :=
  exec (replicate 7 env) begun (run_server_call [] 1 (control 2 1 ["gateways"; "successor"])).
Definition aborted : World := (run_prog env confirming.1 (run_server_call [] 2 (Rotate (CallAbort CertificateClassGateway)))).1.
Definition confirmed : World * Reply := run_prog env aborted confirming.2.

Lemma service_start_inv : world_inv start.
Proof.
  split; [intros l1 l2 H; by apply elem_of_nil in H|done| |].
  - intros id [[d Hd]|[g Hg]]; [|done]. apply agents_only in Hd as [<- _]. by vm_compute.
  - split; [|done]. intros id d [<- <-]%agents_only. split; [by vm_compute|].
    exists enrolled, (agentEnrolled (mkAgentEnrolledPayload "first" sealing device "ops")). split; [by left|done].
Qed.

Lemma no_other_step : respectful (length calls) (fun _ _ => False).
Proof. by intros w w' _ H. Qed.

Lemma service_schedule Other : rtc (sched_step Other) (start, imap (run_server_call []) calls) (finish, Ret <$> replies).
Proof. exact (run_all_schedule _ env start [] (imap (run_server_call []) calls)). Qed.
End ServiceExample.

Import ServiceExample.

(** The retry is given the renewed certificate and the trust that it was renewed
    under, and appends nothing. *)
Example lost_reply_is_recovered :
  replies !! 5%nat = replies !! 1%nat
  /\ match replies !! 1%nat with
     | Some (Released (Ok r)) => ir_CertificateDer r = "second"%string /\ cb_Generation (ir_GatewayTrustBundle r) = 2
     | _ => False
     end
  /\ length (td_log (w_db finish)) = 11%nat.
Proof. vm_compute. split_and!; reflexivity. Qed.

(** A confirmation of a bundle that a rotation has overtaken is refused. *)
Example superseded_confirmation_is_refused :
  (run_all env start (imap (run_server_call [])
     [Rotate (CallBeginTrust CertificateClassGateway "successor" "proof" (KeyECDSAPrivate (Some sample_key)));
      renewal; confirmation 1 1 ["gateways"%string]])).2 !! 2%nat
  = Some (Done (Err (mkConnectError CodeUnauthenticated (ESentinel "trust state confirmation rejected")))).
Proof. vm_compute. reflexivity. Qed.

(** Its receipt is recorded although it is not about the durable rotation. *)
Example stale_control_receipt_is_recorded :
  w_locks confirming.1 = [] /\ rotation_of CertificateClassGateway (w_db aborted) = Some (mkRotation "gateways" (Withdrawing "successor") 2 2)
  /\ confirmed.2 = Rotated (Ok tt)
  /\ match te_Payload ∘ ty_Event <$> last (td_log (w_db confirmed.1)) with
     | Some (PControlTrust c) => nt_Generation c = 2 /\ nt_Revision c = 1
     | _ => False
     end.
Proof. vm_compute. split_and!; reflexivity. Qed.

Lemma server_refines_the_machine_witness :
  rtc machine_step (w_db start) (w_db finish)
  /\ rotation_of CertificateClassGateway (w_db finish) = Some (mkRotation "successor" Stable 2 2).
Proof.
  split; [|vm_compute; reflexivity].
  exact (proj2 (server_refines_the_machine [] calls start finish _ service_start_inv (service_schedule _))).
Defined.

Lemma released_certificates_are_accounted_witness :
  exists stream leaves, entitled renewal = Some (stream, leaves)
    /\ exists id previous, leaves id previous /\ issued_in stream id (previous, "second"%string) (td_log (w_db finish)).
Proof.
  assert (exists response, (Ret <$> replies : list (prog PKIEnv World Reply)) !! 5%nat = Some (Ret (Released (Ok response)))
            /\ ir_CertificateDer response = "second"%string) as (response & Hi & Hd).
  { vm_compute. eexists. split; reflexivity. }
  rewrite <- Hd.
  exact (released_certificates_are_accounted (fun _ _ => False) [] calls start finish _ 5 renewal response
           service_start_inv no_other_step (service_schedule _) eq_refl Hi).
Defined.

Lemma trust_intent_is_ordered_witness :
  ordered (rotation_of CertificateClassGateway (w_db start)) (rotation_of CertificateClassGateway (w_db finish)).
Proof.
  exact (trust_intent_is_ordered [] calls start finish _ CertificateClassGateway service_start_inv (service_schedule _)).
Defined.
