(* ===== verification/Users.v ===== *)
(** * [server/internal/store/users.go], [session_invalidation.go]: users

    The directory of people: users, the identities that OIDC and SCIM providers
    link to them, and the tables of groups and providers that Groups.v projects.
    This file has the events of the directory, the statements over users and
    identities, their projectors with the invalidation of sessions, and the
    reads.

    [UnicodeLower] is the part of Unicode's table that [strings.ToLower] needs
    beyond ASCII, and [URLs] the parser of [net/url]. *)

From Stdlib Require Import Ascii String ZArith Lia.
From S2P Require Export Tokens.

(** server/internal/store/users.go:18-29 [userStreamType] *)
Definition userStreamType : string := "user".
Definition maxOIDCIssuerBytes : Z := 2048.
Definition maxOIDCExternalSubjectBytes : Z := 1024.
Definition maxCanonicalUserEmailBytes : Z := 320.

(** server/internal/store/scim.go:19-38 [scimProviderStreamType] *)
Definition scimProviderStreamType : string := "scim-provider".
Definition scimGroupStreamType : string := "scim-group".
Definition maxSCIMExternalIDBytes : Z := 1024.
Definition maxSCIMGroupDisplayNameBytes : Z := 512.
Definition maxSCIMGroupMembers : Z := 1000.
Definition maxSCIMPageSize : Z := 1000.

(** server/internal/store/user_groups.go:16-27 [userGroupStreamType] *)
Definition userGroupStreamType : string := "managed-user-group".
Definition maxUserGroupNameBytes : Z := 512.
Definition maxUserGroupMembers : Z := 1000.

Definition errUserExists : goerr := ESentinel "store: user already exists".

(** server/internal/store/users.go:36-43 [User] *)
Record StoredUser := mkStoredUser {
  su_UserID : string;
  su_Email : string;
  su_SessionVersion : Z;
  su_Disabled : bool;
  su_ProjectionVersion : Z;
}.

(** ** Events and tables *)

(** The payloads of the directory's event types. *)
Inductive directoryPayload :=
| userCreated (Email : string)
| userManagedUpdated (Email : string)
| userManagedDeleted
| bootstrapAdminRoleGranted (Role : string)
| oidcIdentityLinked (ProviderSlug Issuer ExternalSubject Email : string)
| userDisabled
| roleRevoked (Role : string)
| oidcIdentityUnlinked (ProviderSlug Issuer ExternalSubject : string)
| scimIdentityLinked (ProviderSlug ExternalID Email : string)
| scimIdentityUnlinked (ProviderSlug ExternalID : string)
| scimUserDeprovisioned
| scimProviderCreated (ProviderSlug TokenHash : string)
| scimProviderTokenRotated (ProviderSlug TokenHash : string)
| scimProviderDisabled (ProviderSlug TokenHash : string)
| scimProviderDeleted (ProviderSlug TokenHash : string)
| scimGroupCreated (ProviderSlug ExternalID DisplayName : string)
| scimGroupUpdated (ProviderSlug ExternalID DisplayName : string)
| scimGroupMembershipsReplaced (UserIDs : list string)
| scimGroupDeleted (ProviderSlug : string)
| userGroupCreated (Name : string) (MemberUserIDs : list string)
| userGroupUpdated (Name : string) (MemberUserIDs : list string)
| userGroupMetadataUpdated (Name : string) (MemberUserIDs : list string)
| userGroupDeleted.

(** The stream type an event type belongs to. *)
Definition directory_stream (payload : directoryPayload) : string :=
  match payload with
  | scimProviderCreated _ _ | scimProviderTokenRotated _ _ | scimProviderDisabled _ _ | scimProviderDeleted _ _ => scimProviderStreamType
  | scimGroupCreated _ _ _ | scimGroupUpdated _ _ _ | scimGroupMembershipsReplaced _ | scimGroupDeleted _ => scimGroupStreamType
  | userGroupCreated _ _ | userGroupUpdated _ _ | userGroupMetadataUpdated _ _ | userGroupDeleted => userGroupStreamType
  | _ => userStreamType
  end.

(** server/internal/store/migrations/016_oidc.sql:5-18 [users], with the columns
    of migration 019 *)
Record UserRow := mkUserRow {
  ur_Email : string;
  ur_SessionVersion : Z;
  ur_Disabled : bool;
  ur_ProjectionVersion : Z;
  ur_UpdatedAt : time;
}.

(** server/internal/store/migrations/016_oidc.sql:20-42 [oidc_identities], but
    for its key of issuer and subject *)
Record OIDCIdentityRow := mkOIDCIdentityRow {
  oi_ProviderSlug : string;
  oi_UserID : string;
  oi_Email : string;
  oi_ProjectionVersion : Z;
  oi_UpdatedAt : time;
}.

(** server/internal/store/migrations/018_scim.sql:19-38 [scim_identities], but
    for its key of provider and external identifier *)
Record SCIMIdentityRow := mkSCIMIdentityRow {
  si_UserID : string;
  si_Email : string;
  si_ProjectionVersion : Z;
  si_UpdatedAt : time;
}.

(** server/internal/store/migrations/018_scim.sql:4-17 [scim_providers] *)
Record SCIMProviderRow := mkSCIMProviderRow {
  sp_TokenHash : string;
  sp_Disabled : bool;
  sp_ProjectionVersion : Z;
  sp_UpdatedAt : time;
}.

(** server/internal/store/migrations/018_scim.sql:40-59 [scim_groups] *)
Record SCIMGroupRow := mkSCIMGroupRow {
  sg_ProviderSlug : string;
  sg_ExternalID : string;
  sg_DisplayName : string;
  sg_ProjectionVersion : Z;
  sg_UpdatedAt : time;
}.

(** server/internal/store/migrations/023_management_identity.sql:14-27 [managed_user_groups] *)
Record UserGroupRow := mkUserGroupRow {
  ug_Name : string;
  ug_ProjectionVersion : Z;
  ug_UpdatedAt : time;
}.

(** The tables; those of members map a group and a user to the version that
    wrote the row. *)
Record DirTables := mkDirTables {
  dt_users : gmap string UserRow;
  dt_oidc : gmap (string * string) OIDCIdentityRow;
  dt_scim : gmap (string * string) SCIMIdentityRow;
  dt_providers : gmap string SCIMProviderRow;
  dt_groups : gmap string SCIMGroupRow;
  dt_members : gmap (string * string) Z;
  dt_managed : gmap string UserGroupRow;
  dt_managed_members : gmap (string * string) Z;
}.

Definition with_users (t : DirTables) (users : gmap string UserRow) : DirTables :=
  mkDirTables users (dt_oidc t) (dt_scim t) (dt_providers t) (dt_groups t) (dt_members t) (dt_managed t) (dt_managed_members t).
Definition with_identities (t : DirTables) (oidc : gmap (string * string) OIDCIdentityRow)
    (scim : gmap (string * string) SCIMIdentityRow) : DirTables :=
  mkDirTables (dt_users t) oidc scim (dt_providers t) (dt_groups t) (dt_members t) (dt_managed t) (dt_managed_members t).
Definition with_members (t : DirTables) (members managed : gmap (string * string) Z) : DirTables :=
  mkDirTables (dt_users t) (dt_oidc t) (dt_scim t) (dt_providers t) (dt_groups t) members (dt_managed t) managed.

Notation DirEvent := (TypedEvent directoryPayload).
Notation DirEventRow := (TypedRow directoryPayload).
Notation DirDB := (TypedDB directoryPayload DirTables).

(** ** Validation *)

(** server/internal/store/oidc_states.go:131-144 [validProviderSlug] *)
Definition validProviderSlug (value : string) : bool :=
  negb ((len value =? 0) || (64 <? len value)) &&
  match value with
  | EmptyString => false
  | String a rest => is_lower a && string_forallb (fun c => is_lower c || is_digit c || Ascii.eqb c "-") rest
  end.

(** server/internal/store/oidc_states.go:146-151 [validBoundedText] *)
Definition validBoundedText (value : string) (maximum : Z) : bool :=
  (0 <? len value) && (len value <=? maximum) && valid_utf8 value && negb (contains_byte "000" value).

(** server/internal/store/users.go:396-401 [canonicalUserID] *)
Definition canonicalUserID (userID : string) : result goerr string :=
  wrap_err (fun m => EWrap "store: user ID is invalid" (EMsg m)) (ULIDPathID userID) ≫= fun _ => Ok (to_upper userID).

(** server/internal/store/users.go:403-414 [normalizeUserScopeIDs] *)
Definition normalizeUserScopeIDs (ids : list string) : result goerr (list string) :=
  map_result canonicalUserID ids ≫= fun normalized => Ok (compact (sort_strings normalized)).

(** The optional identifier of the caller of a scoped read. *)
Definition canonical_self (selfID : string) : result goerr string :=
  if String.eqb selfID "" then Ok ""%string else canonicalUserID selfID.

(** The check [id, err := canonicalUserID(x); err != nil || id != x]. *)
Definition is_canonical_user (id : string) : bool :=
  match canonicalUserID id with Ok canonical => String.eqb canonical id | Err _ => false end.

(** [unicode.ToLower] of the runes above ASCII. *)
Class UnicodeLower := lower_rune : Z -> Z.

(** What [url.Parse] finds in a text, and its text again. *)
Record URL := mkURL {
  url_Scheme : string;
  url_Host : string;
  url_User : bool;
  url_RawQuery : string;
  url_Fragment : string;
  url_String : string;
}.
Class URLs := url_Parse : string -> option URL.

(** [utf8.AppendRune]. *)
Definition encode_rune (r : Z) : list Z :=
  if (r <? 0) || (1114111 <? r) || in_range 55296 57343 r then [239; 191; 189]
  else if r <? 128 then [r]
  else if r <? 2048 then [192 + r / 64; 128 + r mod 64]
  else if r <? 65536 then [224 + r / 4096; 128 + r / 64 mod 64; 128 + r mod 64]
  else [240 + r / 262144; 128 + r / 4096 mod 64; 128 + r / 64 mod 64; 128 + r mod 64].

(** [unicode.IsControl]. *)
Definition is_control (r : Z) : bool := in_range 0 31 r || in_range 127 159 r.

Section Texts.
Context {unicode : UnicodeLower} {urls : URLs}.

Definition to_lower_rune (r : Z) : Z :=
  if r <? 128 then (if in_range 65 90 r then r + 32 else r) else lower_rune r.

(** [strings.ToLower]: byte by byte on an ASCII text, and rune by rune on any
    other one, where what is not UTF-8 becomes U+FFFD. *)
Definition ToLower (s : string) : string :=
  if string_forallb (fun c => byte_of c <? 128) s then to_lower s
  else string_of_bytes (concat (encode_rune ∘ to_lower_rune <$> runes s)).

(** server/internal/store/users.go:417-435 [CanonicalUserEmail] *)
Definition CanonicalUserEmail (email : string) : result goerr string :=
  let invalid := EMsg "store: user email is invalid" in
  let email := ToLower (trim_space email) in
  fail_if (negb (valid_utf8 email) || (len email <? 3) || (maxCanonicalUserEmailBytes <? len email)
           || negb (count_byte "@" email =? 1)) invalid ≫= fun _ =>
  let '(local, domain, _) := cut "@" email in
  fail_if (String.eqb local "" || String.eqb domain "" || has_prefix "." domain || has_suffix "." domain) invalid ≫= fun _ =>
  fail_if (existsb (fun r => is_control r || is_space r) (runes email)) invalid ≫= fun _ =>
  Ok email.

(** server/internal/store/users.go:437-447 [canonicalOIDCIssuer] *)
Definition canonicalOIDCIssuer (issuer : string) : result goerr string :=
  let invalid := EMsg "store: OIDC issuer is invalid" in
  fail_if (negb (validBoundedText issuer maxOIDCIssuerBytes)) invalid ≫= fun _ =>
  or_err (url_Parse issuer) invalid ≫= fun parsed =>
  fail_if (negb (String.eqb (url_Scheme parsed) "https") || String.eqb (url_Host parsed) "" || url_User parsed
           || negb (String.eqb (url_RawQuery parsed) "") || negb (String.eqb (url_Fragment parsed) "")) invalid ≫= fun _ =>
  Ok (url_String parsed).

Definition is_canonical_email (email : string) : bool :=
  match CanonicalUserEmail email with Ok canonical => String.eqb canonical email | Err _ => false end.
Definition is_canonical_issuer (issuer : string) : bool :=
  match canonicalOIDCIssuer issuer with Ok canonical => String.eqb canonical issuer | Err _ => false end.

(** ** Event constructors *)

(** server/internal/store/users.go:386-394 [userEvent] *)
Definition userEvent (userID : string) (payload : directoryPayload) : DirEvent := mkTypedEvent userStreamType userID payload.

(** server/internal/store/users.go:63-77 [UserCreatedEvent] *)
Definition UserCreatedEvent (userID email : string) : result goerr DirEvent :=
  canonicalUserID userID ≫= fun userID => CanonicalUserEmail email ≫= fun email => Ok (userEvent userID (userCreated email)).

(** server/internal/store/users.go:80-94 [UserManagedUpdatedEvent] *)
Definition UserManagedUpdatedEvent (userID email : string) : result goerr DirEvent :=
  canonicalUserID userID ≫= fun userID => CanonicalUserEmail email ≫= fun email => Ok (userEvent userID (userManagedUpdated email)).

(** server/internal/store/users.go:97-107 [UserManagedDeletedEvent] *)
Definition UserManagedDeletedEvent (userID : string) : result goerr DirEvent :=
  canonicalUserID userID ≫= fun userID => Ok (userEvent userID userManagedDeleted).

(** server/internal/store/users.go:111-121 [BootstrapAdminRoleGrantedEvent] *)
Definition BootstrapAdminRoleGrantedEvent (userID : string) : result goerr DirEvent :=
  canonicalUserID userID ≫= fun userID => Ok (userEvent userID (bootstrapAdminRoleGranted "admin")).

(** server/internal/store/users.go:124-159 [OIDCIdentityLinkedEvent] *)
Definition OIDCIdentityLinkedEvent (userID providerSlug issuer externalSubject email : string) : result goerr DirEvent :=
  canonicalUserID userID ≫= fun userID =>
  fail_if (negb (validProviderSlug providerSlug)) (EMsg "store: OIDC provider slug is invalid") ≫= fun _ =>
  canonicalOIDCIssuer issuer ≫= fun issuer =>
  fail_if (negb (validBoundedText externalSubject maxOIDCExternalSubjectBytes))
    (EMsg "store: OIDC external subject is invalid") ≫= fun _ =>
  CanonicalUserEmail email ≫= fun email =>
  Ok (userEvent userID (oidcIdentityLinked providerSlug issuer externalSubject email)).

(** server/internal/store/session_invalidation.go:33-43 [UserDisabledEvent] *)
Definition UserDisabledEvent (userID : string) : result goerr DirEvent :=
  canonicalUserID userID ≫= fun userID => Ok (userEvent userID userDisabled).

(** server/internal/store/session_invalidation.go:45-60 [RoleRevokedEvent] *)
Definition RoleRevokedEvent (userID role : string) : result goerr DirEvent :=
  canonicalUserID userID ≫= fun userID =>
  fail_if (negb (validRoleName (trim_space role))) (EMsg "store: revoked role is invalid") ≫= fun _ =>
  Ok (userEvent userID (roleRevoked (trim_space role))).

(** server/internal/store/session_invalidation.go:62-92 [OIDCIdentityUnlinkedEvent] *)
Definition OIDCIdentityUnlinkedEvent (userID providerSlug issuer externalSubject : string) : result goerr DirEvent :=
  canonicalUserID userID ≫= fun userID =>
  fail_if (negb (validProviderSlug providerSlug)) (EMsg "store: OIDC provider slug is invalid") ≫= fun _ =>
  canonicalOIDCIssuer issuer ≫= fun issuer =>
  fail_if (negb (validBoundedText externalSubject maxOIDCExternalSubjectBytes))
    (EMsg "store: OIDC external subject is invalid") ≫= fun _ =>
  Ok (userEvent userID (oidcIdentityUnlinked providerSlug issuer externalSubject)).

(** server/internal/store/scim.go:193-220 [SCIMIdentityLinkedEvent] *)
Definition SCIMIdentityLinkedEvent (userID providerSlug externalID email : string) : result goerr DirEvent :=
  canonicalUserID userID ≫= fun userID =>
  fail_if (negb (validProviderSlug providerSlug) || negb (validBoundedText externalID maxSCIMExternalIDBytes))
    (EMsg "store: SCIM identity is invalid") ≫= fun _ =>
  CanonicalUserEmail email ≫= fun email =>
  Ok (userEvent userID (scimIdentityLinked providerSlug externalID email)).

(** server/internal/store/scim.go:222-239 [SCIMIdentityUnlinkedEvent] *)
Definition SCIMIdentityUnlinkedEvent (userID providerSlug externalID : string) : result goerr DirEvent :=
  canonicalUserID userID ≫= fun userID =>
  fail_if (negb (validProviderSlug providerSlug) || negb (validBoundedText externalID maxSCIMExternalIDBytes))
    (EMsg "store: SCIM identity is invalid") ≫= fun _ =>
  Ok (userEvent userID (scimIdentityUnlinked providerSlug externalID)).

(** server/internal/store/scim.go:241-252 [SCIMUserDeprovisionedEvent] *)
Definition SCIMUserDeprovisionedEvent (userID : string) : result goerr DirEvent :=
  canonicalUserID userID ≫= fun userID => Ok (userEvent userID scimUserDeprovisioned).
End Texts.

(** ** Statements *)

(** A statement that must affect exactly one row. *)
Definition affected_one {T} (e : goerr) (p : T * Z) : result goerr T := fail_if (negb (p.2 =? 1)) e ≫= fun _ => Ok p.1.

(** server/internal/store/queries/oidc.sql:1-16 [InsertUser], under the
    constraints that the projector leaves to the table *)
Definition InsertUser (id email : string) (version : Z) (now : time) (t : DirTables) : result goerr (DirTables * Z) :=
  fail_if (bool_decide (is_Some (dt_users t !! id))) (EPg "23505" "users_pkey") ≫= fun _ =>
  fail_if (existsb (fun p => String.eqb (ur_Email p.2) email) (map_to_list (dt_users t))) (EPg "23505" "users_email_key") ≫= fun _ =>
  Ok (with_users t (<[id := mkUserRow email 1 false version now]> (dt_users t)), 1).

(** server/internal/store/queries/oidc.sql:91-97 [ReplaceManagedUser] *)
Definition ReplaceManagedUser (id email : string) (version : Z) (now : time) (t : DirTables) : result goerr (DirTables * Z) :=
  match dt_users t !! id with
  | Some u =>
      if ur_ProjectionVersion u =? version - 1 then
        fail_if (existsb (fun p => negb (String.eqb p.1 id) && String.eqb (ur_Email p.2) email) (map_to_list (dt_users t)))
          (EPg "23505" "users_email_key") ≫= fun _ =>
        Ok (with_users t (<[id := mkUserRow email (ur_SessionVersion u) (ur_Disabled u) version now]> (dt_users t)), 1)
      else Ok (t, 0)
  | None => Ok (t, 0)
  end.

(** server/internal/store/queries/oidc.sql:99-103 [ReplaceOIDCIdentityEmailsForManagedUser] *)
Definition ReplaceOIDCIdentityEmailsForManagedUser (id email : string) (now : time) (t : DirTables) : DirTables :=
  with_identities t
    ((fun i => if String.eqb (oi_UserID i) id
               then mkOIDCIdentityRow (oi_ProviderSlug i) (oi_UserID i) email (oi_ProjectionVersion i) now else i) <$> dt_oidc t)
    (dt_scim t).

(** server/internal/store/queries/scim.sql:92-96 [ReplaceSCIMIdentityEmailsForManagedUser] *)
Definition ReplaceSCIMIdentityEmailsForManagedUser (id email : string) (now : time) (t : DirTables) : DirTables :=
  with_identities t (dt_oidc t)
    ((fun i => if String.eqb (si_UserID i) id
               then mkSCIMIdentityRow (si_UserID i) email (si_ProjectionVersion i) now else i) <$> dt_scim t).

(** server/internal/store/migrations/016_oidc.sql:30-31 [oidc_identities]: a
    deleted user takes the identities that refer to it along *)
Definition delete_user (id : string) (t : DirTables) : DirTables :=
  with_identities (with_users t (delete id (dt_users t)))
    (filter (fun p => oi_UserID p.2 <> id) (dt_oidc t)) (filter (fun p => si_UserID p.2 <> id) (dt_scim t)).

(** server/internal/store/queries/oidc.sql:105-108 [DeleteManagedUser] *)
Definition DeleteManagedUser (id : string) (version : Z) (t : DirTables) : DirTables * Z :=
  match dt_users t !! id with
  | Some u => if ur_ProjectionVersion u =? version then (delete_user id t, 1) else (t, 0)
  | None => (t, 0)
  end.

(** server/internal/store/queries/session_invalidation.sql:18-21 [DeleteUserProjectionAfterInvalidation] *)
Definition DeleteUserProjectionAfterInvalidation (id : string) (version : Z) (t : DirTables) : DirTables * Z :=
  DeleteManagedUser id version t.

(** server/internal/store/queries/oidc.sql:37-43 [AdvanceUserProjectionVersion];
    queries/scim.sql:111-117 is the same statement *)
Definition AdvanceUserProjectionVersion (id email : string) (version : Z) (now : time) (t : DirTables) : DirTables * Z :=
  match dt_users t !! id with
  | Some u =>
      if String.eqb (ur_Email u) email && (ur_ProjectionVersion u =? version - 1)
      then (with_users t (<[id := mkUserRow (ur_Email u) (ur_SessionVersion u) (ur_Disabled u) version now]> (dt_users t)), 1)
      else (t, 0)
  | None => (t, 0)
  end.

(** server/internal/store/queries/bootstrap_admin.sql:54-59 [AdvanceUserProjectionVersionForBootstrapAdmin] *)
Definition AdvanceUserProjectionVersionForBootstrapAdmin (id : string) (version : Z) (now : time) (t : DirTables) : DirTables * Z :=
  match dt_users t !! id with
  | Some u => AdvanceUserProjectionVersion id (ur_Email u) version now t
  | None => (t, 0)
  end.

(** server/internal/store/queries/oidc.sql:18-35 [InsertOIDCIdentity], under the
    constraints that the projector leaves to the table *)
Definition InsertOIDCIdentity (issuer subject : string) (row : OIDCIdentityRow) (t : DirTables) : result goerr (DirTables * Z) :=
  fail_if (bool_decide (is_Some (dt_oidc t !! (issuer, subject)))) (EPg "23505" "oidc_identities_pkey") ≫= fun _ =>
  fail_if (existsb (fun p => String.eqb (oi_UserID p.2) (oi_UserID row) && String.eqb (oi_ProviderSlug p.2) (oi_ProviderSlug row))
             (map_to_list (dt_oidc t))) (EPg "23505" "oidc_identities_user_provider_key") ≫= fun _ =>
  Ok (with_identities t (<[(issuer, subject) := row]> (dt_oidc t)) (dt_scim t), 1).

(** server/internal/store/queries/session_invalidation.sql:11-16 [DeleteOIDCIdentityForInvalidation] *)
Definition DeleteOIDCIdentityForInvalidation (issuer subject slug id : string) (t : DirTables) : DirTables * Z :=
  match dt_oidc t !! (issuer, subject) with
  | Some i =>
      if String.eqb (oi_ProviderSlug i) slug && String.eqb (oi_UserID i) id
      then (with_identities t (delete (issuer, subject) (dt_oidc t)) (dt_scim t), 1) else (t, 0)
  | None => (t, 0)
  end.

(** server/internal/store/queries/scim.sql:57-72 [InsertSCIMIdentity], under the
    constraints that the projector leaves to the table *)
Definition InsertSCIMIdentity (slug externalID : string) (row : SCIMIdentityRow) (t : DirTables) : result goerr (DirTables * Z) :=
  fail_if (bool_decide (is_Some (dt_scim t !! (slug, externalID)))) (EPg "23505" "scim_identities_pkey") ≫= fun _ =>
  fail_if (existsb (fun p => String.eqb (si_UserID p.2) (si_UserID row) && String.eqb p.1.1 slug) (map_to_list (dt_scim t)))
    (EPg "23505" "scim_identities_user_provider_key") ≫= fun _ =>
  Ok (with_identities t (dt_oidc t) (<[(slug, externalID) := row]> (dt_scim t)), 1).

(** server/internal/store/queries/scim.sql:74-78 [DeleteSCIMIdentity] *)
Definition DeleteSCIMIdentity (slug externalID id : string) (t : DirTables) : DirTables * Z :=
  match dt_scim t !! (slug, externalID) with
  | Some i =>
      if String.eqb (si_UserID i) id then (with_identities t (dt_oidc t) (delete (slug, externalID) (dt_scim t)), 1) else (t, 0)
  | None => (t, 0)
  end.

(** server/internal/store/queries/session_invalidation.sql:1-9 [InvalidateUserSession] *)
Definition InvalidateUserSession (disable : bool) (id : string) (version : Z) (now : time) (t : DirTables) : DirTables * Z :=
  match dt_users t !! id with
  | Some u =>
      if (ur_ProjectionVersion u =? version - 1) && (ur_SessionVersion u <? max_int64)
      then (with_users t (<[id := mkUserRow (ur_Email u) (ur_SessionVersion u + 1) (ur_Disabled u || disable) version now]> (dt_users t)), 1)
      else (t, 0)
  | None => (t, 0)
  end.

(** server/internal/store/queries/oidc.sql:127-130 [CountUserOIDCIdentities] *)
Definition CountUserOIDCIdentities (id : string) (t : DirTables) : Z :=
  zlen (filter (fun p => oi_UserID p.2 = id) (map_to_list (dt_oidc t))).

(** server/internal/store/queries/scim.sql:112-116 [CountUserIdentityLinks] *)
Definition CountUserIdentityLinks (id : string) (t : DirTables) : Z :=
  CountUserOIDCIdentities id t + zlen (filter (fun p => si_UserID p.2 = id) (map_to_list (dt_scim t))).

(** server/internal/store/queries/scim.sql:126-128 [DeleteSCIMGroupMembershipsForUser] *)
Definition DeleteSCIMGroupMembershipsForUser (id : string) (t : DirTables) : DirTables :=
  with_members t (filter (fun p => p.1.2 <> id) (dt_members t)) (dt_managed_members t).

(** server/internal/store/queries/user_groups.sql:31-33 [DeleteManagedUserGroupMembershipsForUser] *)
Definition DeleteManagedUserGroupMembershipsForUser (id : string) (t : DirTables) : DirTables :=
  with_members t (dt_members t) (filter (fun p => p.1.2 <> id) (dt_managed_members t)).

(** ** Projectors *)

Section Projectors.
Context {unicode : UnicodeLower} {urls : URLs}.
Context (id : string) (version : Z) (now : time).

(** server/internal/store/users.go:545-596 [projectBootstrapAdminRoleGrant] *)
Definition projectBootstrapAdminRoleGrant (role : string) (t : DirTables) : result goerr DirTables :=
  fail_if (negb (version =? 2)) (EMsg "store: bootstrap admin role grant must be stream version 2") ≫= fun _ =>
  fail_if (negb (is_canonical_user id)) (EMsg "store: bootstrap admin role grant stream ID is not canonical") ≫= fun _ =>
  fail_if (negb (String.eqb role "admin")) (EMsg "store: bootstrap admin role grant is invalid") ≫= fun _ =>
  or_err (dt_users t !! id) (EWrap "store: bootstrap admin role grant requires a prior user" ErrNoRows) ≫= fun user =>
  fail_if (negb (ur_ProjectionVersion user =? version - 1)) (EMsg "store: user projection version is inconsistent") ≫= fun _ =>
  affected_one (EMsg "store: bootstrap admin role grant affected other than one user")
    (AdvanceUserProjectionVersionForBootstrapAdmin id version now t).

(** server/internal/store/users.go:598-627 [projectUserCreation] *)
Definition projectUserCreation (email : string) (t : DirTables) : result goerr DirTables :=
  fail_if (negb (version =? 1)) errUserExists ≫= fun _ =>
  fail_if (negb (is_canonical_user id)) (EMsg "store: user creation stream ID is not canonical") ≫= fun _ =>
  fail_if (negb (is_canonical_email email)) (EMsg "store: user creation email is not canonical") ≫= fun _ =>
  wrap_err (EWrap "store: project user creation") (InsertUser id email version now t) ≫= affected_one errUserExists.

(** server/internal/store/users.go:629-684 [projectManagedUserUpdate] *)
Definition projectManagedUserUpdate (email : string) (t : DirTables) : result goerr DirTables :=
  fail_if (version <? 2) (EMsg "store: managed user update version is invalid") ≫= fun _ =>
  fail_if (negb (is_canonical_user id)) (EMsg "store: managed user update stream ID is not canonical") ≫= fun _ =>
  fail_if (negb (is_canonical_email email)) (EMsg "store: managed user email is not canonical") ≫= fun _ =>
  (wrap_err (EWrap "store: project managed user update") (ReplaceManagedUser id email version now t) ≫=
   affected_one (EMsg "store: managed user update projection version mismatch")) ≫= fun t =>
  Ok (ReplaceSCIMIdentityEmailsForManagedUser id email now (ReplaceOIDCIdentityEmailsForManagedUser id email now t)).

(** server/internal/store/users.go:686-729 [projectManagedUserDeletion] *)
Definition projectManagedUserDeletion (t : DirTables) : result goerr DirTables :=
  fail_if (version <? 2) (EMsg "store: managed user deletion version is invalid") ≫= fun _ =>
  fail_if (negb (is_canonical_user id)) (EMsg "store: managed user deletion stream ID is not canonical") ≫= fun _ =>
  let t := DeleteSCIMGroupMembershipsForUser id (DeleteManagedUserGroupMembershipsForUser id t) in
  affected_one (EMsg "store: managed user deletion projection version mismatch") (DeleteManagedUser id (version - 1) t).

(** server/internal/store/users.go:739-811 [projectOIDCIdentityLink] *)
Definition projectOIDCIdentityLink (slug issuer subject email : string) (t : DirTables) : result goerr DirTables :=
  fail_if (version <=? 1) (EMsg "store: OIDC identity link requires a prior user") ≫= fun _ =>
  fail_if (negb (is_canonical_user id)) (EMsg "store: OIDC identity link stream ID is not canonical") ≫= fun _ =>
  fail_if (negb (validProviderSlug slug)) (EMsg "store: OIDC provider slug is invalid") ≫= fun _ =>
  fail_if (negb (is_canonical_issuer issuer)) (EMsg "store: OIDC issuer is not canonical") ≫= fun _ =>
  fail_if (negb (validBoundedText subject maxOIDCExternalSubjectBytes)) (EMsg "store: OIDC external subject is invalid") ≫= fun _ =>
  fail_if (negb (is_canonical_email email)) (EMsg "store: OIDC identity email is not canonical") ≫= fun _ =>
  or_err (dt_users t !! id) (EMsg "store: OIDC identity link requires a prior user") ≫= fun user =>
  fail_if (negb (ur_ProjectionVersion user =? version - 1)) (EMsg "store: user projection version is inconsistent") ≫= fun _ =>
  fail_if (negb (String.eqb (ur_Email user) email)) (EMsg "store: OIDC identity email does not match user") ≫= fun _ =>
  (wrap_err (EWrap "store: project OIDC identity link")
     (InsertOIDCIdentity issuer subject (mkOIDCIdentityRow slug id email version now) t) ≫=
   affected_one (EMsg "store: OIDC identity link affected other than one identity")) ≫= fun t =>
  affected_one (EMsg "store: OIDC identity link advanced other than one user") (AdvanceUserProjectionVersion id email version now t).

(** server/internal/store/scim.go:1126-1149 [advanceSCIMUser] *)
Definition advanceSCIMUser (email : string) (t : DirTables) : result goerr DirTables :=
  affected_one (EMsg "store: SCIM identity change affected other than one user") (AdvanceUserProjectionVersion id email version now t).

(** server/internal/store/scim.go:1045-1086 [projectSCIMIdentityLinked] *)
Definition projectSCIMIdentityLinked (slug externalID email : string) (t : DirTables) : result goerr DirTables :=
  fail_if (version <=? 1) (EMsg "store: SCIM identity link requires a prior user") ≫= fun _ =>
  fail_if (negb (is_canonical_user id)) (EMsg "store: SCIM identity stream ID is invalid") ≫= fun _ =>
  fail_if (negb (is_canonical_email email) || negb (validProviderSlug slug)
           || negb (validBoundedText externalID maxSCIMExternalIDBytes)) (EMsg "store: SCIM identity link is invalid") ≫= fun _ =>
  or_err (dt_users t !! id) (EWrap "store: SCIM identity link requires a prior user" ErrNoRows) ≫= fun user =>
  fail_if (negb (String.eqb (ur_Email user) email) || negb (ur_ProjectionVersion user =? version - 1))
    (EMsg "store: SCIM identity link user is inconsistent") ≫= fun _ =>
  (wrap_err (EWrap "store: project SCIM identity link")
     (InsertSCIMIdentity slug externalID (mkSCIMIdentityRow id email version now) t) ≫=
   affected_one (EMsg "store: SCIM identity link affected other than one identity")) ≫= advanceSCIMUser email.

(** server/internal/store/scim.go:1088-1124 [projectSCIMIdentityUnlinked] *)
Definition projectSCIMIdentityUnlinked (slug externalID : string) (t : DirTables) : result goerr DirTables :=
  fail_if (version <=? 1) (EMsg "store: SCIM identity unlink requires a prior user") ≫= fun _ =>
  fail_if (negb (is_canonical_user id)) (EMsg "store: SCIM identity stream ID is invalid") ≫= fun _ =>
  fail_if (negb (validProviderSlug slug) || negb (validBoundedText externalID maxSCIMExternalIDBytes))
    (EMsg "store: SCIM identity unlink is invalid") ≫= fun _ =>
  or_err (dt_users t !! id) (EWrap "store: SCIM identity unlink requires a prior user" ErrNoRows) ≫= fun user =>
  fail_if (negb (ur_ProjectionVersion user =? version - 1)) (EMsg "store: SCIM identity unlink user version is inconsistent") ≫= fun _ =>
  affected_one (EMsg "store: SCIM identity unlink affected other than one identity") (DeleteSCIMIdentity slug externalID id t) ≫=
  advanceSCIMUser (ur_Email user).

(** server/internal/store/session_invalidation.go:281-293 [validateOIDCIdentityUnlink] *)
Definition validateOIDCIdentityUnlink (slug issuer subject : string) : result goerr unit :=
  fail_if (negb (is_canonical_issuer issuer) || negb (validProviderSlug slug)
           || negb (validBoundedText subject maxOIDCExternalSubjectBytes)) (EMsg "store: OIDC identity unlink is invalid").

(** server/internal/store/session_invalidation.go:162-279 [projectSessionInvalidation] *)
Definition projectSessionInvalidation (payload : directoryPayload) (t : DirTables) : result goerr DirTables :=
  fail_if (version <=? 1) (EMsg "store: session invalidation requires a prior user") ≫= fun _ =>
  fail_if (negb (is_canonical_user id)) (EMsg "store: session invalidation user ID is invalid") ≫= fun _ =>
  or_err (dt_users t !! id) (EWrap "store: session invalidation requires a prior user" ErrNoRows) ≫= fun user =>
  fail_if (negb (ur_ProjectionVersion user =? version - 1)) (EMsg "store: session invalidation user version is inconsistent") ≫= fun _ =>
  match payload with
  | userDisabled => Ok true
  | roleRevoked role => fail_if (negb (validRoleName role)) (EMsg "store: revoked role is invalid") ≫= fun _ => Ok false
  | oidcIdentityUnlinked slug issuer subject => validateOIDCIdentityUnlink slug issuer subject ≫= fun _ => Ok false
  | scimUserDeprovisioned =>
      fail_if (negb (CountUserIdentityLinks id t =? 0)) (EMsg "store: SCIM user deprovision requires zero remaining links") ≫= fun _ => Ok false
  | _ => Err (EMsg "store: event cannot invalidate sessions")
  end ≫= fun disableUser =>
  affected_one (EMsg "store: session invalidation affected other than one user") (InvalidateUserSession disableUser id version now t) ≫= fun t =>
  match payload with
  | oidcIdentityUnlinked slug issuer subject =>
      affected_one (EMsg "store: OIDC identity unlink affected other than one identity")
        (DeleteOIDCIdentityForInvalidation issuer subject slug id t)
  | scimUserDeprovisioned =>
      let t := DeleteSCIMGroupMembershipsForUser id t in
      affected_one (EMsg "store: SCIM user deprovision affected other than one user")
        (DeleteUserProjectionAfterInvalidation id version t)
  | _ => Ok t
  end.

(** server/internal/store/users.go:449-509 [userEventDefinitions]: the projectors,
    with those of session_invalidation.go and of the SCIM identities *)
Definition projectUser (payload : directoryPayload) : DirTables -> result goerr DirTables :=
  match payload with
  | userCreated email => projectUserCreation email
  | userManagedUpdated email => projectManagedUserUpdate email
  | userManagedDeleted => projectManagedUserDeletion
  | bootstrapAdminRoleGranted role => projectBootstrapAdminRoleGrant role
  | oidcIdentityLinked slug issuer subject email => projectOIDCIdentityLink slug issuer subject email
  | scimIdentityLinked slug externalID email => projectSCIMIdentityLinked slug externalID email
  | scimIdentityUnlinked slug externalID => projectSCIMIdentityUnlinked slug externalID
  | _ => projectSessionInvalidation payload
  end.
End Projectors.

(** server/internal/store/users.go:839-851 [resetUsers] *)
Definition resetUsers (t : DirTables) : DirTables := with_identities (with_users t ∅) ∅ ∅.

(** ** Reads *)

(** Whom a scoped query shows: everybody, the caller, or the members of the
    caller's groups; [members] are the pairs of a group and a user. *)
Definition in_scope (global : bool) (selfID : string) (groups : list string) (members : list (string * string))
    (subject : string) : bool :=
  global || String.eqb subject selfID
  || existsb (fun m => bool_decide (m.1 ∈ groups) && String.eqb m.2 subject) members.

(** The members of both kinds of groups. *)
Definition group_memberships (t : DirTables) : list (string * string) :=
  (map_to_list (dt_managed_members t)).*1 ++ (map_to_list (dt_members t)).*1.

Section Reads.
Context {unicode : UnicodeLower} {urls : URLs}.

(** server/internal/store/users.go:813-837 [validateUserProjection] *)
Definition validateUserProjection (userID : string) (row : UserRow) : result goerr StoredUser :=
  fail_if (negb (is_canonical_user userID)) (EMsg "store: user projection has an invalid user ID") ≫= fun _ =>
  fail_if (negb (is_canonical_email (ur_Email row))) (EMsg "store: user projection has an invalid email") ≫= fun _ =>
  fail_if ((ur_SessionVersion row <=? 0) || (ur_ProjectionVersion row <=? 0))
    (EMsg "store: user projection has an invalid version") ≫= fun _ =>
  Ok (mkStoredUser userID (ur_Email row) (ur_SessionVersion row) (ur_Disabled row) (ur_ProjectionVersion row)).

(** server/internal/store/users.go:162-184 [Store.UserByID] *)
Definition UserByID (fault : option goerr) (userID : string) (t : DirTables) : result goerr StoredUser :=
  canonicalUserID userID ≫= fun userID =>
  wrap_err (EWrap "store: read user by ID") (may_fault fault ≫= fun _ => or_err (dt_users t !! userID) ErrNoRows) ≫=
  validateUserProjection userID.

(** server/internal/store/users.go:187-233 [Store.ScopedUserByID] *)
Definition ScopedUserByID (fault : option goerr) (userID : string) (global : bool) (userGroupIDs : list string)
    (selfID : string) (t : DirTables) : result goerr StoredUser :=
  canonicalUserID userID ≫= fun userID =>
  normalizeUserScopeIDs userGroupIDs ≫= fun groups =>
  canonical_self selfID ≫= fun selfID =>
  wrap_err (EWrap "store: read scoped user")
    (may_fault fault ≫= fun _ =>
     or_err (r ← dt_users t !! userID; if in_scope global selfID groups (group_memberships t) userID then Some r else None)
       ErrNoRows) ≫=
  validateUserProjection userID.

(** server/internal/store/users.go:236-285 [Store.ListScopedUsers] *)
Definition ListScopedUsers (fault : option goerr) (global : bool) (userGroupIDs : list string) (selfID : string)
    (limit : Z) (t : DirTables) : result goerr (list StoredUser) :=
  fail_if ((limit <? 1) || (200 <? limit)) (EMsg "store: invalid user list") ≫= fun _ =>
  normalizeUserScopeIDs userGroupIDs ≫= fun groups =>
  canonical_self selfID ≫= fun selfID =>
  wrap_err (EWrap "store: list scoped users") (may_fault fault) ≫= fun _ =>
  let shown := filter (fun id => in_scope global selfID groups (group_memberships t) id = true)
                 (sort_strings (map_to_list (dt_users t)).*1) in
  map_result (fun p => validateUserProjection p.1 p.2)
    (omap (fun id => (id,.) <$> dt_users t !! id) (take (Z.to_nat limit) shown)).

(** server/internal/store/queries/oidc.sql:110-113 [GetUserByEmail] *)
Definition GetUserByEmail (email : string) (t : DirTables) : option (string * UserRow) :=
  find (fun p => String.eqb (ur_Email p.2) email) (map_to_list (dt_users t)).

(** server/internal/store/users.go:302-324 [Store.UserByEmail] *)
Definition UserByEmail (fault : option goerr) (email : string) (t : DirTables) : result goerr StoredUser :=
  CanonicalUserEmail email ≫= fun email =>
  wrap_err (EWrap "store: read user by email")
    (may_fault fault ≫= fun _ => or_err (GetUserByEmail email t) ErrNoRows) ≫= fun '(id, row) =>
  validateUserProjection id row.

(** server/internal/store/users.go:327-362 [Store.UserByOIDCIdentity] *)
Definition UserByOIDCIdentity (fault : option goerr) (issuer externalSubject : string) (t : DirTables) : result goerr StoredUser :=
  canonicalOIDCIssuer issuer ≫= fun issuer =>
  fail_if (negb (validBoundedText externalSubject maxOIDCExternalSubjectBytes))
    (EMsg "store: OIDC external subject is invalid") ≫= fun _ =>
  wrap_err (EWrap "store: read user by OIDC identity")
    (may_fault fault ≫= fun _ =>
     or_err (i ← dt_oidc t !! (issuer, externalSubject); (oi_UserID i,.) <$> dt_users t !! oi_UserID i) ErrNoRows) ≫= fun '(id, row) =>
  validateUserProjection id row.

(** server/internal/store/users.go:365-384 [Store.UserOIDCIdentityCount] *)
Definition UserOIDCIdentityCount (fault : option goerr) (userID : string) (t : DirTables) : result goerr Z :=
  canonicalUserID userID ≫= fun userID =>
  wrap_err (EWrap "store: count user OIDC identities") (may_fault fault) ≫= fun _ =>
  fail_if (CountUserOIDCIdentities userID t <? 0) (EMsg "store: user OIDC identity count is invalid") ≫= fun _ =>
  Ok (CountUserOIDCIdentities userID t).

(** server/internal/store/scim.go:588-607 [Store.UserIdentityLinkCount] *)
Definition UserIdentityLinkCount (fault : option goerr) (userID : string) (t : DirTables) : result goerr Z :=
  canonicalUserID userID ≫= fun userID =>
  wrap_err (EWrap "store: count user identity links") (may_fault fault) ≫= fun _ =>
  fail_if (CountUserIdentityLinks userID t <? 0) (EMsg "store: user identity link count is invalid") ≫= fun _ =>
  Ok (CountUserIdentityLinks userID t).

(** server/internal/store/scim.go:69-75 [SCIMUser] *)
Record SCIMUserView := mkSCIMUserView {
  sv_ProviderSlug : string;
  sv_ExternalID : string;
  sv_UserID : string;
  sv_Email : string;
  sv_ProjectionVersion : Z;
}.

(** server/internal/store/scim.go:564-585 [validateSCIMUser] *)
Definition validateSCIMUser (slug externalID userID email : string) (version : Z) : result goerr SCIMUserView :=
  fail_if (negb (is_canonical_user userID) || negb (validProviderSlug slug) || negb (validBoundedText externalID maxSCIMExternalIDBytes))
    (EMsg "store: SCIM user projection is invalid") ≫= fun _ =>
  fail_if (negb (is_canonical_email email) || (version <=? 1)) (EMsg "store: SCIM user projection is invalid") ≫= fun _ =>
  Ok (mkSCIMUserView slug externalID userID email version).

(** server/internal/store/queries/scim.sql:86-90 [GetSCIMIdentityByUser] *)
Definition GetSCIMIdentityByUser (slug userID : string) (t : DirTables) : option (string * string * SCIMIdentityRow) :=
  find (fun p => String.eqb p.1.1 slug && String.eqb (si_UserID p.2) userID) (map_to_list (dt_scim t)).

(** server/internal/store/scim.go:482-514 [Store.SCIMUser]: two reads, of the
    identity and then of the user, each of the tables it finds *)
Definition SCIMUser (fault1 fault2 : option goerr) (providerSlug userID : string) (t1 t2 : DirTables) : result goerr SCIMUserView :=
  fail_if (negb (validProviderSlug providerSlug)) (EMsg "store: invalid SCIM user lookup") ≫= fun _ =>
  canonicalUserID userID ≫= fun userID =>
  wrap_err (EWrap "store: read SCIM user")
    (may_fault fault1 ≫= fun _ => or_err (GetSCIMIdentityByUser providerSlug userID t1) ErrNoRows) ≫= fun '(slug, externalID, row) =>
  UserByID fault2 userID t2 ≫= fun user =>
  validateSCIMUser slug externalID (si_UserID row) (si_Email row) (su_ProjectionVersion user).

(** server/internal/store/queries/scim.sql:98-110 [ListSCIMUsers]: the join, in
    the order of the users *)
Definition ListSCIMUsers (slug email : string) (limit : Z) (t : DirTables) : list (string * string * string * UserRow) :=
  let joined := omap (fun p => if String.eqb p.1.1 slug then (fun u => (p.1.1, p.1.2, si_UserID p.2, u)) <$> dt_users t !! si_UserID p.2 else None)
                  (map_to_list (dt_scim t)) in
  let kept := filter (fun p => email = ""%string \/ ur_Email p.2 = email) joined in
  take (Z.to_nat limit)
    (omap (fun id => find (fun p => String.eqb p.1.2 id) kept) (compact (sort_strings ((fun p => p.1.2) <$> kept)))).

(** server/internal/store/scim.go:516-562 [Store.SCIMUsers] *)
Definition SCIMUsers (fault : option goerr) (providerSlug email : string) (limit : Z) (t : DirTables)
    : result goerr (list SCIMUserView) :=
  fail_if (negb (validProviderSlug providerSlug) || (limit <=? 0) || (maxSCIMPageSize <? limit))
    (EMsg "store: invalid SCIM user list") ≫= fun _ =>
  (if String.eqb email "" then Ok email else CanonicalUserEmail email) ≫= fun email =>
  wrap_err (EWrap "store: list SCIM users") (may_fault fault) ≫= fun _ =>
  map_result (fun p => validateSCIMUser p.1.1.1 p.1.1.2 p.1.2 (ur_Email p.2) (ur_ProjectionVersion p.2))
    (ListSCIMUsers providerSlug email limit t).
End Reads.

(** ** Facts *)

Lemma one_affected_ok {T} e (p : T * Z) t : affected_one e p = Ok t -> p.2 = 1 /\ p.1 = t.
Proof. unfold affected_one. intros (u & H%fail_if_ok%negb_false_iff%Z.eqb_eq & [= <-])%bind_ok. done. Qed.

Lemma compact_length (l : list string) : (length (compact l) <= length l)%nat.
Proof.
  induction l as [|x l IH]; [done|]. destruct l as [|y l]; [done|]. rewrite compact_cons2. case_decide; cbn [length] in *; lia.
Qed.
