(* ===== verification/Groups.v ===== *)
(** * [server/internal/store/scim.go], [user_groups.go]: providers and groups

    The SCIM providers with their bearer verifiers, the groups that a provider
    owns, and the groups managed here: events, statements, projectors, reads, and
    the projection of the whole directory.  [Bcrypt] is the password hash. *)

From Stdlib Require Import Ascii String ZArith Lia.
From S2P Require Export Users.

(** [bcrypt.Cost], [bcrypt.CompareHashAndPassword] and a hash with its salt. *)
Class Bcrypt := {
  bcrypt_Cost : string -> option Z;
  bcrypt_compare : string -> string -> bool;
}.
Definition bcrypt_MinCost : Z := 4.

Definition ErrSCIMInvalid : goerr := ESentinel "store: invalid SCIM transition".
Definition errSCIMProviderExists : goerr := ESentinel "store: SCIM provider already exists".
Definition errUserGroupExists : goerr := ESentinel "store: user group already exists".

(** server/internal/store/scim.go:54-59 [SCIMProvider] *)
Record SCIMProvider := mkSCIMProvider {
  pv_Slug : string;
  pv_TokenHash : string;
  pv_Disabled : bool;
  pv_ProjectionVersion : Z;
}.

(** server/internal/store/scim.go:62-66 [SCIMProviderMetadata] *)
Record SCIMProviderMetadata := mkSCIMProviderMetadata {
  pmd_Slug : string;
  pmd_Disabled : bool;
  pmd_ProjectionVersion : Z;
}.

(** server/internal/store/scim.go:78-85 [SCIMGroup] *)
Record SCIMGroup := mkSCIMGroup {
  gv_GroupID : string;
  gv_ProviderSlug : string;
  gv_ExternalID : string;
  gv_DisplayName : string;
  gv_Members : list string;
  gv_ProjectionVersion : Z;
}.

(** server/internal/store/user_groups.go:33-38 [UserGroup] *)
Record UserGroup := mkUserGroup {
  ugv_ID : string;
  ugv_Name : string;
  ugv_MemberUserIDs : list string;
  ugv_ProjectionVersion : Z;
}.

Definition with_providers (t : DirTables) (providers : gmap string SCIMProviderRow) : DirTables :=
  mkDirTables (dt_users t) (dt_oidc t) (dt_scim t) providers (dt_groups t) (dt_members t) (dt_managed t) (dt_managed_members t).
Definition with_groups (t : DirTables) (groups : gmap string SCIMGroupRow) (members : gmap (string * string) Z) : DirTables :=
  mkDirTables (dt_users t) (dt_oidc t) (dt_scim t) (dt_providers t) groups members (dt_managed t) (dt_managed_members t).
Definition with_managed (t : DirTables) (managed : gmap string UserGroupRow) (members : gmap (string * string) Z) : DirTables :=
  mkDirTables (dt_users t) (dt_oidc t) (dt_scim t) (dt_providers t) (dt_groups t) (dt_members t) managed members.

(** ** Statements *)

(** server/internal/store/queries/scim.sql:1-15 [InsertSCIMProvider] *)
Definition InsertSCIMProvider (slug hash : string) (version : Z) (now : time) (t : DirTables) : result goerr (DirTables * Z) :=
  fail_if (negb (len hash =? 60)) (EPg "23514" "scim_providers_token_hash_len_check") ≫= fun _ =>
  if bool_decide (is_Some (dt_providers t !! slug)) then Ok (t, 0)
  else Ok (with_providers t (<[slug := mkSCIMProviderRow hash false version now]> (dt_providers t)), 1).

(** server/internal/store/queries/scim.sql:17-23 [RotateSCIMProviderToken] *)
Definition RotateSCIMProviderToken (slug hash : string) (version : Z) (now : time) (t : DirTables) : result goerr (DirTables * Z) :=
  match dt_providers t !! slug with
  | Some p =>
      if sp_ProjectionVersion p =? version - 1 then
        fail_if (negb (len hash =? 60)) (EPg "23514" "scim_providers_token_hash_len_check") ≫= fun _ =>
        Ok (with_providers t (<[slug := mkSCIMProviderRow hash (sp_Disabled p) version now]> (dt_providers t)), 1)
      else Ok (t, 0)
  | None => Ok (t, 0)
  end.

(** server/internal/store/queries/scim.sql:25-31 [DisableSCIMProvider] *)
Definition DisableSCIMProvider (slug : string) (version : Z) (now : time) (t : DirTables) : DirTables * Z :=
  match dt_providers t !! slug with
  | Some p =>
      if sp_ProjectionVersion p =? version - 1
      then (with_providers t (<[slug := mkSCIMProviderRow (sp_TokenHash p) true version now]> (dt_providers t)), 1) else (t, 0)
  | None => (t, 0)
  end.

(** server/internal/store/queries/scim.sql:49-52 [DeleteSCIMProvider] *)
Definition DeleteSCIMProvider (slug : string) (version : Z) (t : DirTables) : DirTables * Z :=
  match dt_providers t !! slug with
  | Some p =>
      if sp_ProjectionVersion p =? version - 1 then (with_providers t (delete slug (dt_providers t)), 1) else (t, 0)
  | None => (t, 0)
  end.

(** Another group of the provider with that external identifier. *)
Definition external_taken (slug externalID id : string) (t : DirTables) : bool :=
  existsb (fun p => negb (String.eqb p.1 id) && String.eqb (sg_ProviderSlug p.2) slug && String.eqb (sg_ExternalID p.2) externalID)
    (map_to_list (dt_groups t)).

(** server/internal/store/queries/scim.sql:133-148 [InsertSCIMGroup] *)
Definition InsertSCIMGroup (id : string) (row : SCIMGroupRow) (t : DirTables) : result goerr (DirTables * Z) :=
  fail_if (bool_decide (is_Some (dt_groups t !! id))) (EPg "23505" "scim_groups_pkey") ≫= fun _ =>
  fail_if (external_taken (sg_ProviderSlug row) (sg_ExternalID row) id t) (EPg "23505" "scim_groups_provider_external_key") ≫= fun _ =>
  Ok (with_groups t (<[id := row]> (dt_groups t)) (dt_members t), 1).

(** server/internal/store/queries/scim.sql:150-158 [UpdateSCIMGroup] *)
Definition UpdateSCIMGroup (id slug externalID displayName : string) (version : Z) (now : time) (t : DirTables)
    : result goerr (DirTables * Z) :=
  match dt_groups t !! id with
  | Some g =>
      if String.eqb (sg_ProviderSlug g) slug && (sg_ProjectionVersion g =? version - 1) then
        fail_if (external_taken slug externalID id t) (EPg "23505" "scim_groups_provider_external_key") ≫= fun _ =>
        Ok (with_groups t (<[id := mkSCIMGroupRow slug externalID displayName version now]> (dt_groups t)) (dt_members t), 1)
      else Ok (t, 0)
  | None => Ok (t, 0)
  end.

(** server/internal/store/queries/scim.sql:160-165 [AdvanceSCIMGroupProjectionVersion] *)
Definition AdvanceSCIMGroupProjectionVersion (id : string) (version : Z) (now : time) (t : DirTables) : DirTables * Z :=
  match dt_groups t !! id with
  | Some g =>
      if sg_ProjectionVersion g =? version - 1
      then (with_groups t (<[id := mkSCIMGroupRow (sg_ProviderSlug g) (sg_ExternalID g) (sg_DisplayName g) version now]> (dt_groups t))
              (dt_members t), 1)
      else (t, 0)
  | None => (t, 0)
  end.

(** server/internal/store/queries/scim.sql:167-171 [DeleteSCIMGroup]: its
    members go with it *)
Definition DeleteSCIMGroup (id slug : string) (version : Z) (t : DirTables) : DirTables * Z :=
  match dt_groups t !! id with
  | Some g =>
      if String.eqb (sg_ProviderSlug g) slug && (sg_ProjectionVersion g =? version - 1)
      then (with_groups t (delete id (dt_groups t)) (filter (fun p => p.1.1 <> id) (dt_members t)), 1) else (t, 0)
  | None => (t, 0)
  end.

(** server/internal/store/queries/scim.sql:173-175 [DeleteSCIMGroupMembers] *)
Definition DeleteSCIMGroupMembers (id : string) (t : DirTables) : DirTables :=
  with_groups t (dt_groups t) (filter (fun p => p.1.1 <> id) (dt_members t)).

(** server/internal/store/queries/scim.sql:177-181 [InsertSCIMGroupMember]: a row
    for a user that exists *)
Definition InsertSCIMGroupMember (id userID : string) (version : Z) (t : DirTables) : result goerr (DirTables * Z) :=
  match dt_users t !! userID with
  | None => Ok (t, 0)
  | Some _ =>
      fail_if (bool_decide (is_Some (dt_members t !! (id, userID)))) (EPg "23505" "scim_group_members_pkey") ≫= fun _ =>
      fail_if (negb (bool_decide (is_Some (dt_groups t !! id)))) (EPg "23503" "scim_group_members_group_id_fkey") ≫= fun _ =>
      Ok (with_groups t (dt_groups t) (<[(id, userID) := version]> (dt_members t)), 1)
  end.

(** Another managed group with that name. *)
Definition name_taken (name id : string) (t : DirTables) : bool :=
  existsb (fun p => negb (String.eqb p.1 id) && String.eqb (ug_Name p.2) name) (map_to_list (dt_managed t)).

(** server/internal/store/queries/user_groups.sql:1-12 [InsertManagedUserGroup] *)
Definition InsertManagedUserGroup (id name : string) (version : Z) (now : time) (t : DirTables) : result goerr (DirTables * Z) :=
  fail_if (bool_decide (is_Some (dt_managed t !! id))) (EPg "23505" "managed_user_groups_pkey") ≫= fun _ =>
  fail_if (name_taken name id t) (EPg "23505" "managed_user_groups_name_key") ≫= fun _ =>
  Ok (with_managed t (<[id := mkUserGroupRow name version now]> (dt_managed t)) (dt_managed_members t), 1).

(** server/internal/store/queries/user_groups.sql:14-20 [ReplaceManagedUserGroup] *)
Definition ReplaceManagedUserGroup (id name : string) (version : Z) (now : time) (t : DirTables) : result goerr (DirTables * Z) :=
  match dt_managed t !! id with
  | Some g =>
      if ug_ProjectionVersion g =? version - 1 then
        fail_if (name_taken name id t) (EPg "23505" "managed_user_groups_name_key") ≫= fun _ =>
        Ok (with_managed t (<[id := mkUserGroupRow name version now]> (dt_managed t)) (dt_managed_members t), 1)
      else Ok (t, 0)
  | None => Ok (t, 0)
  end.

(** server/internal/store/queries/user_groups.sql:22-25 [DeleteManagedUserGroup]:
    its members go with it *)
Definition DeleteManagedUserGroup (id : string) (version : Z) (t : DirTables) : DirTables * Z :=
  match dt_managed t !! id with
  | Some g =>
      if ug_ProjectionVersion g =? version
      then (with_managed t (delete id (dt_managed t)) (filter (fun p => p.1.1 <> id) (dt_managed_members t)), 1) else (t, 0)
  | None => (t, 0)
  end.

(** server/internal/store/queries/user_groups.sql:27-29 [DeleteManagedUserGroupMembers] *)
Definition DeleteManagedUserGroupMembers (id : string) (t : DirTables) : DirTables :=
  with_managed t (dt_managed t) (filter (fun p => p.1.1 <> id) (dt_managed_members t)).

(** server/internal/store/queries/user_groups.sql:35-45 [InsertManagedUserGroupMember]:
    a row for a user that exists *)
Definition InsertManagedUserGroupMember (id userID : string) (version : Z) (t : DirTables) : result goerr (DirTables * Z) :=
  match dt_users t !! userID with
  | None => Ok (t, 0)
  | Some _ =>
      fail_if (bool_decide (is_Some (dt_managed_members t !! (id, userID)))) (EPg "23505" "managed_user_group_members_pkey") ≫= fun _ =>
      Ok (with_managed t (dt_managed t) (<[(id, userID) := version]> (dt_managed_members t)), 1)
  end.

(** ** Validation and events *)

Section Events.
Context {schemes : Schemes} {bcrypt : Bcrypt}.

(** server/internal/store/scim.go:716-722 [validateSCIMTokenHash] *)
Definition validateSCIMTokenHash (tokenHash : string) : result goerr unit :=
  fail_if (match bcrypt_Cost tokenHash with Some cost => cost <? bcrypt_MinCost | None => true end)
    (EMsg "store: SCIM token hash is invalid").

(** server/internal/store/scim.go:184-191 [scimProviderStreamID] *)
Definition scimProviderStreamID (slug : string) : result goerr string :=
  wrap_err (fun m => EWrap "store: derive SCIM provider stream ID" (EMsg m))
    (NewWithReader 0 (Some (take 10 (bytes (sha256 (bytes slug)))))) ≫= fun '(id, _) => Ok id.

(** server/internal/store/scim.go:170-182 [scimProviderEvent] *)
Definition scimProviderEvent (slug : string) (payload : directoryPayload) : result goerr DirEvent :=
  scimProviderStreamID slug ≫= fun id => Ok (mkTypedEvent scimProviderStreamType id payload).

(** server/internal/store/scim.go:153-168 [newSCIMProviderEvent] *)
Definition newSCIMProviderEvent (slug tokenHash : string) (payload : string -> string -> directoryPayload) : result goerr DirEvent :=
  fail_if (negb (validProviderSlug slug)) (EMsg "store: SCIM provider slug is invalid") ≫= fun _ =>
  validateSCIMTokenHash tokenHash ≫= fun _ =>
  scimProviderEvent slug (payload slug tokenHash).

(** server/internal/store/scim.go:119-122 [SCIMProviderCreatedEvent] *)
Definition SCIMProviderCreatedEvent (slug tokenHash : string) : result goerr DirEvent :=
  newSCIMProviderEvent slug tokenHash scimProviderCreated.

(** server/internal/store/scim.go:124-127 [SCIMProviderTokenRotatedEvent] *)
Definition SCIMProviderTokenRotatedEvent (slug tokenHash : string) : result goerr DirEvent :=
  newSCIMProviderEvent slug tokenHash scimProviderTokenRotated.

(** server/internal/store/scim.go:129-139 [SCIMProviderDisabledEvent] *)
Definition SCIMProviderDisabledEvent (slug : string) : result goerr DirEvent :=
  fail_if (negb (validProviderSlug slug)) (EMsg "store: SCIM provider slug is invalid") ≫= fun _ =>
  scimProviderEvent slug (scimProviderDisabled slug "").

(** server/internal/store/scim.go:141-151 [SCIMProviderDeletedEvent] *)
Definition SCIMProviderDeletedEvent (slug : string) : result goerr DirEvent :=
  fail_if (negb (validProviderSlug slug)) (EMsg "store: SCIM provider slug is invalid") ≫= fun _ =>
  scimProviderEvent slug (scimProviderDeleted slug "").

(** server/internal/store/scim.go:286-317 [newSCIMGroupEvent] *)
Definition newSCIMGroupEvent (groupID slug externalID displayName : string)
    (payload : string -> string -> string -> directoryPayload) : result goerr DirEvent :=
  wrap_err (fun _ => EMsg "store: SCIM group ID is invalid") (canonicalUserID groupID) ≫= fun groupID =>
  fail_if (negb (validProviderSlug slug) || negb (validBoundedText externalID maxSCIMExternalIDBytes)
           || negb (validBoundedText displayName maxSCIMGroupDisplayNameBytes)) (EMsg "store: SCIM group is invalid") ≫= fun _ =>
  Ok (mkTypedEvent scimGroupStreamType groupID (payload slug externalID displayName)).

(** server/internal/store/scim.go:254-268 [SCIMGroupCreatedEvent] *)
Definition SCIMGroupCreatedEvent (groupID slug externalID displayName : string) : result goerr DirEvent :=
  newSCIMGroupEvent groupID slug externalID displayName scimGroupCreated.

(** server/internal/store/scim.go:270-284 [SCIMGroupUpdatedEvent] *)
Definition SCIMGroupUpdatedEvent (groupID slug externalID displayName : string) : result goerr DirEvent :=
  newSCIMGroupEvent groupID slug externalID displayName scimGroupUpdated.

(** server/internal/store/scim.go:319-350 [SCIMGroupMembershipsReplacedEvent] *)
Definition SCIMGroupMembershipsReplacedEvent (groupID : string) (userIDs : list string) : result goerr DirEvent :=
  wrap_err (fun _ => EMsg "store: SCIM group ID is invalid") (canonicalUserID groupID) ≫= fun groupID =>
  fail_if (maxSCIMGroupMembers <? zlen userIDs) (EMsg "store: SCIM group membership is too large") ≫= fun _ =>
  wrap_err (fun _ => EMsg "store: SCIM group member ID is invalid") (map_result canonicalUserID userIDs) ≫= fun canonical =>
  let canonical := sort_strings canonical in
  fail_if (negb (zlen (compact canonical) =? zlen canonical)) (EMsg "store: SCIM group membership contains duplicates") ≫= fun _ =>
  Ok (mkTypedEvent scimGroupStreamType groupID (scimGroupMembershipsReplaced canonical)).

(** server/internal/store/scim.go:352-372 [SCIMGroupDeletedEvent] *)
Definition SCIMGroupDeletedEvent (groupID slug : string) : result goerr DirEvent :=
  wrap_err (fun _ => EMsg "store: SCIM group ID is invalid") (canonicalUserID groupID) ≫= fun groupID =>
  fail_if (negb (validProviderSlug slug)) (EMsg "store: SCIM provider slug is invalid") ≫= fun _ =>
  Ok (mkTypedEvent scimGroupStreamType groupID (scimGroupDeleted slug)).

(** server/internal/store/user_groups.go:223-228 [canonicalUserGroupID] *)
Definition canonicalUserGroupID (id : string) : result goerr string :=
  wrap_err (fun m => EWrap "store: user-group ID is invalid" (EMsg m)) (ULIDPathID id) ≫= fun _ => Ok (to_upper id).

(** server/internal/store/user_groups.go:226-266 [normalizeUserGroup] *)
Definition normalizeUserGroup (id name : string) (memberUserIDs : list string) (version : Z) : result goerr UserGroup :=
  canonicalUserGroupID id ≫= fun id =>
  fail_if (negb (valid_utf8 name) || (len name <? 1) || (maxUserGroupNameBytes <? len name))
    (EMsg "store: user-group name is invalid") ≫= fun _ =>
  fail_if (maxUserGroupMembers <? zlen memberUserIDs) (EMsg "store: user-group membership is too large") ≫= fun _ =>
  wrap_err (fun _ => EMsg "store: user-group member is invalid") (map_result canonicalUserID memberUserIDs) ≫= fun members =>
  let members := sort_strings members in
  fail_if (negb (zlen (compact members) =? zlen members)) (EMsg "store: user-group membership contains duplicates") ≫= fun _ =>
  fail_if (version <? 1) (EMsg "store: user-group projection version is invalid") ≫= fun _ =>
  Ok (mkUserGroup id name members version).

(** server/internal/store/user_groups.go:213-221 [userGroupEvent] *)
Definition userGroupEvent (id : string) (payload : directoryPayload) : DirEvent := mkTypedEvent userGroupStreamType id payload.

(** server/internal/store/user_groups.go:83-101 [newUserGroupEvent] *)
Definition newUserGroupEvent (id name : string) (memberUserIDs : list string)
    (payload : string -> list string -> directoryPayload) : result goerr DirEvent :=
  normalizeUserGroup id name memberUserIDs 1 ≫= fun group =>
  Ok (userGroupEvent (ugv_ID group) (payload (ugv_Name group) (ugv_MemberUserIDs group))).

(** server/internal/store/user_groups.go:48-50 [UserGroupCreatedEvent] *)
Definition UserGroupCreatedEvent (id name : string) (memberUserIDs : list string) : result goerr DirEvent :=
  newUserGroupEvent id name memberUserIDs userGroupCreated.

(** server/internal/store/user_groups.go:53-55 [UserGroupUpdatedEvent] *)
Definition UserGroupUpdatedEvent (id name : string) (memberUserIDs : list string) : result goerr DirEvent :=
  newUserGroupEvent id name memberUserIDs userGroupUpdated.

(** server/internal/store/user_groups.go:58-68 [UserGroupMetadataUpdatedEvent] *)
Definition UserGroupMetadataUpdatedEvent (id name : string) : result goerr DirEvent :=
  normalizeUserGroup id name [] 1 ≫= fun group =>
  Ok (userGroupEvent (ugv_ID group) (userGroupMetadataUpdated (ugv_Name group) [])).

(** server/internal/store/user_groups.go:71-81 [UserGroupDeletedEvent] *)
Definition UserGroupDeletedEvent (id : string) : result goerr DirEvent :=
  canonicalUserGroupID id ≫= fun id => Ok (userGroupEvent id userGroupDeleted).
End Events.

(** ** Projectors *)

Section Projectors.
Context {unicode : UnicodeLower} {urls : URLs} {schemes : Schemes} {bcrypt : Bcrypt}.
Context (skip : bool) (id : string) (version : Z) (now : time).

(** server/internal/store/scim.go:1024-1043 [validateSCIMProviderEvent] *)
Definition validateSCIMProviderEvent (slug tokenHash : string) (requireHash : bool) : result goerr unit :=
  fail_if (negb (validProviderSlug slug)) (EMsg "store: SCIM provider slug is invalid") ≫= fun _ =>
  fail_if (match scimProviderStreamID slug with Ok streamID => negb (String.eqb streamID id) | Err _ => true end)
    (EMsg "store: SCIM provider stream ID is invalid") ≫= fun _ =>
  if requireHash then validateSCIMTokenHash tokenHash
  else fail_if (negb (String.eqb tokenHash "")) (EMsg "store: SCIM provider disable contains a token hash").

(** server/internal/store/scim.go:909-936 [projectSCIMProviderCreated] *)
Definition projectSCIMProviderCreated (slug tokenHash : string) (t : DirTables) : result goerr DirTables :=
  fail_if (version <? 1) errSCIMProviderExists ≫= fun _ =>
  validateSCIMProviderEvent slug tokenHash true ≫= fun _ =>
  wrap_err (EWrap "store: project SCIM provider creation") (InsertSCIMProvider slug tokenHash version now t) ≫=
  affected_one errSCIMProviderExists.

(** server/internal/store/scim.go:938-966 [projectSCIMProviderTokenRotated] *)
Definition projectSCIMProviderTokenRotated (slug tokenHash : string) (t : DirTables) : result goerr DirTables :=
  fail_if (version <=? 1) (EMsg "store: SCIM provider rotation requires a prior provider") ≫= fun _ =>
  validateSCIMProviderEvent slug tokenHash true ≫= fun _ =>
  wrap_err (EWrap "store: project SCIM provider rotation") (RotateSCIMProviderToken slug tokenHash version now t) ≫=
  affected_one (EMsg "store: SCIM provider rotation affected other than one row").

(** server/internal/store/scim.go:968-995 [projectSCIMProviderDisabled] *)
Definition projectSCIMProviderDisabled (slug tokenHash : string) (t : DirTables) : result goerr DirTables :=
  fail_if (version <=? 1) (EMsg "store: SCIM provider disable requires a prior provider") ≫= fun _ =>
  validateSCIMProviderEvent slug tokenHash false ≫= fun _ =>
  affected_one (EMsg "store: SCIM provider disable affected other than one row") (DisableSCIMProvider slug version now t).

(** server/internal/store/scim.go:997-1022 [projectSCIMProviderDeleted] *)
Definition projectSCIMProviderDeleted (slug tokenHash : string) (t : DirTables) : result goerr DirTables :=
  fail_if (version <=? 1) (EMsg "store: SCIM provider deletion requires a prior provider") ≫= fun _ =>
  validateSCIMProviderEvent slug tokenHash false ≫= fun _ =>
  affected_one (EMsg "store: SCIM provider deletion conflicts with projection") (DeleteSCIMProvider slug version t).

(** server/internal/store/scim.go:1304-1313 [validateSCIMGroupPayload] *)
Definition validateSCIMGroupPayload (slug externalID displayName : string) : result goerr unit :=
  fail_if (negb (is_canonical_user id) || negb (validProviderSlug slug)
           || negb (validBoundedText externalID maxSCIMExternalIDBytes)
           || negb (validBoundedText displayName maxSCIMGroupDisplayNameBytes)) (EMsg "store: SCIM group payload is invalid").

(** server/internal/store/scim.go:1151-1177 [projectSCIMGroupCreated] *)
Definition projectSCIMGroupCreated (slug externalID displayName : string) (t : DirTables) : result goerr DirTables :=
  fail_if (negb (version =? 1)) (EMsg "store: SCIM group creation must be stream version one") ≫= fun _ =>
  validateSCIMGroupPayload slug externalID displayName ≫= fun _ =>
  wrap_err (EWrap "store: project SCIM group creation")
    (InsertSCIMGroup id (mkSCIMGroupRow slug externalID displayName version now) t) ≫=
  affected_one (EMsg "store: SCIM group creation affected other than one row").

(** server/internal/store/scim.go:1179-1206 [projectSCIMGroupUpdated] *)
Definition projectSCIMGroupUpdated (slug externalID displayName : string) (t : DirTables) : result goerr DirTables :=
  fail_if (version <=? 1) (EMsg "store: SCIM group update requires a prior group") ≫= fun _ =>
  validateSCIMGroupPayload slug externalID displayName ≫= fun _ =>
  wrap_err (EWrap "store: project SCIM group update") (UpdateSCIMGroup id slug externalID displayName version now t) ≫=
  affected_one (EMsg "store: SCIM group update affected other than one row").

(** server/internal/store/scim.go:1230-1251 [projectSCIMGroupMembershipsReplaced]:
    the body of the loop; a rebuild passes over the users that are gone *)
Definition insert_scim_member (t : DirTables) (userID : string) : result goerr DirTables :=
  fail_if (negb (is_canonical_user userID)) (EMsg "store: SCIM group member ID is invalid") ≫= fun _ =>
  wrap_err (EWrap "store: insert SCIM group member") (InsertSCIMGroupMember id userID version t) ≫= fun '(t, affected) =>
  fail_if (negb (affected =? 1) && negb skip) (EWrap "group membership requires existing users" ErrSCIMInvalid) ≫= fun _ => Ok t.

(** server/internal/store/scim.go:1208-1268 [projectSCIMGroupMembershipsReplaced] *)
Definition projectSCIMGroupMembershipsReplaced (userIDs : list string) (t : DirTables) : result goerr DirTables :=
  fail_if (version <=? 1) (EMsg "store: SCIM group membership requires a prior group") ≫= fun _ =>
  fail_if ((maxSCIMGroupMembers <? zlen userIDs) || negb (is_sorted_strings userIDs)
           || negb (zlen (compact userIDs) =? zlen userIDs)) (EMsg "store: SCIM group membership payload is invalid") ≫= fun _ =>
  fold_result insert_scim_member (DeleteSCIMGroupMembers id t) userIDs ≫= fun t =>
  affected_one (EMsg "store: SCIM group membership affected other than one group") (AdvanceSCIMGroupProjectionVersion id version now t).

(** server/internal/store/scim.go:1270-1296 [projectSCIMGroupDeleted] *)
Definition projectSCIMGroupDeleted (slug : string) (t : DirTables) : result goerr DirTables :=
  fail_if (version <=? 1) (EMsg "store: SCIM group deletion requires a prior group") ≫= fun _ =>
  fail_if (negb (validProviderSlug slug)) (EMsg "store: SCIM group deletion provider is invalid") ≫= fun _ =>
  affected_one (EMsg "store: SCIM group deletion affected other than one row") (DeleteSCIMGroup id slug version t).

(** server/internal/store/user_groups.go:487-511 [replaceUserGroupMembers] *)
Definition replaceUserGroupMembers (group : UserGroup) (t : DirTables) : result goerr DirTables :=
  fold_result (fun t userID =>
    wrap_err (EWrap "store: project user-group member") (InsertManagedUserGroupMember (ugv_ID group) userID version t) ≫=
    affected_one (EMsg "store: user-group member does not exist")) t (ugv_MemberUserIDs group).

(** server/internal/store/user_groups.go:341-369 [projectUserGroupCreated] *)
Definition projectUserGroupCreated (name : string) (members : list string) (t : DirTables) : result goerr DirTables :=
  fail_if (negb (version =? 1)) errUserGroupExists ≫= fun _ =>
  normalizeUserGroup id name members version ≫= fun group =>
  (wrap_err (EWrap "store: project user-group creation") (InsertManagedUserGroup (ugv_ID group) (ugv_Name group) version now t) ≫=
   affected_one errUserGroupExists) ≫= replaceUserGroupMembers group.

(** server/internal/store/user_groups.go:371-404 [projectUserGroupUpdated] *)
Definition projectUserGroupUpdated (name : string) (members : list string) (t : DirTables) : result goerr DirTables :=
  fail_if (version <? 2) (EMsg "store: user-group update version is invalid") ≫= fun _ =>
  normalizeUserGroup id name members version ≫= fun group =>
  (wrap_err (EWrap "store: project user-group update") (ReplaceManagedUserGroup (ugv_ID group) (ugv_Name group) version now t) ≫=
   affected_one (EMsg "store: user-group update projection version mismatch")) ≫= fun t =>
  replaceUserGroupMembers group (DeleteManagedUserGroupMembers (ugv_ID group) t).

(** server/internal/store/user_groups.go:406-442 [projectUserGroupMetadataUpdated] *)
Definition projectUserGroupMetadataUpdated (name : string) (members : list string) (t : DirTables) : result goerr DirTables :=
  fail_if (version <? 2) (EMsg "store: user-group metadata update version is invalid") ≫= fun _ =>
  fail_if (negb (zlen members =? 0)) (EMsg "store: user-group metadata update carries members") ≫= fun _ =>
  normalizeUserGroup id name [] version ≫= fun group =>
  wrap_err (EWrap "store: project user-group metadata update") (ReplaceManagedUserGroup (ugv_ID group) (ugv_Name group) version now t) ≫=
  affected_one (EMsg "store: user-group metadata update projection version mismatch").

(** server/internal/store/user_groups.go:444-472 [projectUserGroupDeleted] *)
Definition projectUserGroupDeleted (t : DirTables) : result goerr DirTables :=
  fail_if (version <? 2) (EMsg "store: user-group deletion version is invalid") ≫= fun _ =>
  affected_one (EMsg "store: user-group deletion projection version mismatch") (DeleteManagedUserGroup id (version - 1) t).

(** server/internal/store/scim.go:724-766 [scimProviderEventDefinitions] and
    [scimGroupEventDefinitions]: the projectors, with those of user_groups.go *)
Definition projectDirectoryPayload (payload : directoryPayload) : DirTables -> result goerr DirTables :=
  match payload with
  | scimProviderCreated slug hash => projectSCIMProviderCreated slug hash
  | scimProviderTokenRotated slug hash => projectSCIMProviderTokenRotated slug hash
  | scimProviderDisabled slug hash => projectSCIMProviderDisabled slug hash
  | scimProviderDeleted slug hash => projectSCIMProviderDeleted slug hash
  | scimGroupCreated slug externalID name => projectSCIMGroupCreated slug externalID name
  | scimGroupUpdated slug externalID name => projectSCIMGroupUpdated slug externalID name
  | scimGroupMembershipsReplaced userIDs => projectSCIMGroupMembershipsReplaced userIDs
  | scimGroupDeleted slug => projectSCIMGroupDeleted slug
  | userGroupCreated name members => projectUserGroupCreated name members
  | userGroupUpdated name members => projectUserGroupUpdated name members
  | userGroupMetadataUpdated name members => projectUserGroupMetadataUpdated name members
  | userGroupDeleted => projectUserGroupDeleted
  | _ => projectUser id version now payload
  end.
End Projectors.

(** The projection of a row, in a rebuild or live. *)
Definition projectDirectory {unicode : UnicodeLower} {urls : URLs} {schemes : Schemes} {bcrypt : Bcrypt} (skip : bool)
    (row : DirEventRow) : DirTables -> result goerr DirTables :=
  projectDirectoryPayload skip (te_StreamID (ty_Event row)) (ty_Version row) (ty_CreatedAt row) (te_Payload (ty_Event row)).

(** server/internal/store/scim.go:1315-1320 [resetSCIMProviders] *)
Definition resetSCIMProviders (t : DirTables) : DirTables := with_providers t ∅.

(** server/internal/store/scim.go:1322-1331 [resetSCIMGroups] *)
Definition resetSCIMGroups (t : DirTables) : DirTables := with_groups t ∅ ∅.

(** server/internal/store/user_groups.go:510-522 [resetUserGroups] *)
Definition resetUserGroups (t : DirTables) : DirTables := with_managed t ∅ ∅.

(** ** Reads *)

Section Reads.
Context {schemes : Schemes} {bcrypt : Bcrypt}.

(** server/internal/store/scim.go:462-479 [validateSCIMProviderProjection] *)
Definition validateSCIMProviderProjection (slug : string) (row : SCIMProviderRow) : result goerr SCIMProvider :=
  fail_if (negb (validProviderSlug slug) || negb (is_ok (validateSCIMTokenHash (sp_TokenHash row))) || (sp_ProjectionVersion row <=? 0))
    (EMsg "store: SCIM provider projection is invalid") ≫= fun _ =>
  Ok (mkSCIMProvider slug (sp_TokenHash row) (sp_Disabled row) (sp_ProjectionVersion row)).

(** server/internal/store/scim.go:374-392 [Store.SCIMProvider] *)
Definition ReadSCIMProvider (fault : option goerr) (slug : string) (t : DirTables) : result goerr SCIMProvider :=
  fail_if (negb (validProviderSlug slug)) (EMsg "store: invalid SCIM provider lookup") ≫= fun _ =>
  wrap_err (EWrap "store: read SCIM provider") (may_fault fault ≫= fun _ => or_err (dt_providers t !! slug) ErrNoRows) ≫=
  validateSCIMProviderProjection slug.

(** server/internal/store/scim.go:432-445 [validateSCIMProviderMetadata] *)
Definition validateSCIMProviderMetadata (slug : string) (row : SCIMProviderRow) : result goerr SCIMProviderMetadata :=
  fail_if (negb (validProviderSlug slug) || (sp_ProjectionVersion row <? 1)) (EMsg "store: SCIM provider metadata is invalid") ≫= fun _ =>
  Ok (mkSCIMProviderMetadata slug (sp_Disabled row) (sp_ProjectionVersion row)).

(** server/internal/store/scim.go:394-407 [Store.SCIMProviderMetadataBySlug] *)
Definition SCIMProviderMetadataBySlug (fault : option goerr) (slug : string) (t : DirTables) : result goerr SCIMProviderMetadata :=
  fail_if (negb (validProviderSlug slug)) (EMsg "store: invalid SCIM provider metadata lookup") ≫= fun _ =>
  wrap_err (EWrap "store: read SCIM provider metadata") (may_fault fault ≫= fun _ => or_err (dt_providers t !! slug) ErrNoRows) ≫=
  validateSCIMProviderMetadata slug.

(** server/internal/store/scim.go:409-430 [Store.ListSCIMProviders] *)
Definition ListSCIMProviders (fault : option goerr) (limit : Z) (t : DirTables) : result goerr (list SCIMProviderMetadata) :=
  fail_if ((limit <? 1) || (200 <? limit)) (EMsg "store: invalid SCIM provider list") ≫= fun _ =>
  wrap_err (EWrap "store: list SCIM providers") (may_fault fault) ≫= fun _ =>
  map_result (fun p => validateSCIMProviderMetadata p.1 p.2)
    (omap (fun slug => (slug,.) <$> dt_providers t !! slug)
       (take (Z.to_nat limit) (sort_strings (map_to_list (dt_providers t)).*1))).

(** The members of a group, in their order. *)
Definition members_of (id : string) (members : gmap (string * string) Z) : list string :=
  sort_strings (map_to_list (filter (fun p => p.1.1 = id) members)).*1.*2.

(** server/internal/store/scim.go:687-714 [validateSCIMGroup] *)
Definition validateSCIMGroup (id : string) (row : SCIMGroupRow) (members : list string) : result goerr SCIMGroup :=
  fail_if (negb (is_canonical_user id) || negb (validProviderSlug (sg_ProviderSlug row))
           || negb (validBoundedText (sg_ExternalID row) maxSCIMExternalIDBytes)
           || negb (validBoundedText (sg_DisplayName row) maxSCIMGroupDisplayNameBytes)
           || (sg_ProjectionVersion row <=? 0) || (maxSCIMGroupMembers <? zlen members))
    (EMsg "store: SCIM group projection is invalid") ≫= fun _ =>
  check_each (fun member => fail_if (negb (is_canonical_user member)) (EMsg "store: SCIM group member projection is invalid")) members ≫= fun _ =>
  Ok (mkSCIMGroup id (sg_ProviderSlug row) (sg_ExternalID row) (sg_DisplayName row) members (sg_ProjectionVersion row)).

(** server/internal/store/scim.go:610-643 [Store.SCIMGroup]: two statements, each
    of the tables it finds *)
Definition ReadSCIMGroup (fault1 fault2 : option goerr) (slug groupID : string) (t1 t2 : DirTables) : result goerr SCIMGroup :=
  fail_if (negb (validProviderSlug slug)) (EMsg "store: invalid SCIM group lookup") ≫= fun _ =>
  wrap_err (fun _ => EMsg "store: SCIM group ID is invalid") (canonicalUserID groupID) ≫= fun groupID =>
  wrap_err (EWrap "store: read SCIM group")
    (may_fault fault1 ≫= fun _ =>
     or_err (g ← dt_groups t1 !! groupID; if String.eqb (sg_ProviderSlug g) slug then Some g else None) ErrNoRows) ≫= fun row =>
  wrap_err (EWrap "store: read SCIM group members") (may_fault fault2) ≫= fun _ =>
  validateSCIMGroup groupID row (members_of groupID (dt_members t2)).

(** server/internal/store/scim.go:646-685 [Store.SCIMGroups]: the members of each
    group are read from the tables then; [later] are those tables *)
Definition SCIMGroups (fault : option goerr) (later : string -> result goerr DirTables) (slug : string) (limit : Z) (t : DirTables)
    : result goerr (list SCIMGroup) :=
  fail_if (negb (validProviderSlug slug) || (limit <=? 0) || (maxSCIMPageSize <? limit)) (EMsg "store: invalid SCIM group list") ≫= fun _ =>
  wrap_err (EWrap "store: list SCIM groups") (may_fault fault) ≫= fun _ =>
  map_result (fun p => wrap_err (EWrap "store: list SCIM group members") (later p.1) ≫= fun t2 =>
                       validateSCIMGroup p.1 p.2 (members_of p.1 (dt_members t2)))
    (take (Z.to_nat limit)
       (omap (fun id => g ← dt_groups t !! id; if String.eqb (sg_ProviderSlug g) slug then Some (id, g) else None)
          (sort_strings (map_to_list (dt_groups t)).*1))).

(** The groups that a scoped query shows. *)
Definition group_in_scope (global : bool) (userGroupIDs : list string) (id : string) : bool := global || bool_decide (id ∈ userGroupIDs).

(** server/internal/store/user_groups.go:104-138 [Store.UserGroupByID]: two
    statements *)
Definition UserGroupByID (fault1 fault2 : option goerr) (id : string) (global : bool) (userGroupIDs : list string) (t1 t2 : DirTables)
    : result goerr UserGroup :=
  canonicalUserGroupID id ≫= fun id =>
  normalizeUserScopeIDs userGroupIDs ≫= fun userGroupIDs =>
  wrap_err (EWrap "store: read user group")
    (may_fault fault1 ≫= fun _ =>
     or_err (g ← dt_managed t1 !! id; if group_in_scope global userGroupIDs id then Some g else None) ErrNoRows) ≫= fun row =>
  wrap_err (EWrap "store: list user-group members") (may_fault fault2) ≫= fun _ =>
  normalizeUserGroup id (ug_Name row) (members_of id (dt_managed_members t2)) (ug_ProjectionVersion row).

(** server/internal/store/user_groups.go:141-196 [Store.ListUserGroups]: two
    statements, the second only if the first finds a group *)
Definition ListUserGroups (fault1 fault2 : option goerr) (global : bool) (userGroupIDs : list string) (limit : Z) (t1 t2 : DirTables)
    : result goerr (list UserGroup) :=
  fail_if ((limit <? 1) || (200 <? limit)) (EMsg "store: invalid user-group list") ≫= fun _ =>
  normalizeUserScopeIDs userGroupIDs ≫= fun userGroupIDs =>
  wrap_err (EWrap "store: list user groups") (may_fault fault1) ≫= fun _ =>
  let rows := omap (fun id => (id,.) <$> dt_managed t1 !! id)
                (take (Z.to_nat limit)
                   (filter (fun id => group_in_scope global userGroupIDs id = true) (sort_strings (map_to_list (dt_managed t1)).*1))) in
  wrap_err (EWrap "store: list user-group members") (if zlen rows =? 0 then Ok tt else may_fault fault2) ≫= fun _ =>
  map_result (fun p => normalizeUserGroup p.1 (ug_Name p.2) (members_of p.1 (dt_managed_members t2)) (ug_ProjectionVersion p.2)) rows.
End Reads.
