(* ===== verification/Directory.v ===== *)
(** * The directory as a whole

    An abstract directory: what one event does to one user, seen apart from all
    others, and that the projectors implement it; the invariant of the tables
    that every append keeps; and what a rebuild gives. *)

From Stdlib Require Import Ascii String ZArith Lia.
From S2P Require Export Groups.

(** ** Rows by their owner *)

Section Owned.
Context {K V : Type} `{Countable K} (owner : V -> string).

Definition owned (id : string) (m : gmap K V) : gmap K V := filter (fun p => owner p.2 = id) m.

Lemma owned_lookup id m k v : owned id m !! k = Some v <-> m !! k = Some v /\ owner v = id.
Proof. apply map_lookup_filter_Some. Qed.

Ltac owned_solve :=
  apply map_eq; intros k'; apply option_eq; intros v'; rewrite ?owned_lookup, ?map_lookup_filter_Some; cbn.

Lemma owned_empty id : owned id ∅ = ∅.
Proof. apply map_filter_empty. Qed.

Lemma owned_ext m m' : (forall id, owned id m = owned id m') -> m = m'.
Proof.
  intros He. apply map_eq. intros k. apply option_eq. intros v.
  transitivity (owned (owner v) m !! k = Some v); [|rewrite He]; rewrite owned_lookup; naive_solver.
Qed.

(** A change of the rows of one owner. *)
Definition on_owned (id : string) (g : V -> V) (m : gmap K V) : gmap K V :=
  (fun v => if String.eqb (owner v) id then g v else v) <$> m.

Lemma owned_on_owned id g m : (forall v, owner (g v) = owner v) -> owned id (on_owned id g m) = g <$> owned id m.
Proof.
  intros Hg. owned_solve. unfold on_owned. rewrite !lookup_fmap, !fmap_Some. setoid_rewrite owned_lookup. split.
  - intros [(v & Hv & ->) Ho]. exists v. destruct (String.eqb_spec (owner v) id); [done|done].
  - intros (v & [Hv <-] & ->). split; [|apply Hg]. exists v. by rewrite String.eqb_refl.
Qed.

Lemma owned_on_other id j g m : (forall v, owner (g v) = owner v) -> j <> id -> owned j (on_owned id g m) = owned j m.
Proof.
  intros Hg Hj. owned_solve. unfold on_owned. rewrite lookup_fmap, fmap_Some. split.
  - intros [(v & Hv & ->) Ho]. destruct (String.eqb_spec (owner v) id) as [He|]; [|done]. rewrite Hg in Ho. congruence.
  - intros [Hv Ho]. split; [|done]. exists v'. split; [done|]. destruct (String.eqb_spec (owner v') id); [congruence|done].
Qed.

Lemma owned_drop id m : owned id (filter (fun p => owner p.2 <> id) m) = ∅.
Proof. owned_solve. rewrite lookup_empty. naive_solver. Qed.

Lemma owned_drop_other id j m : j <> id -> owned j (filter (fun p => owner p.2 <> id) m) = owned j m.
Proof. intros Hj. owned_solve. naive_solver congruence. Qed.

Lemma owned_insert id k v m : owner v = id -> owned id (<[k := v]> m) = <[k := v]> (owned id m).
Proof. intros Ho. by apply map_filter_insert_True. Qed.

Lemma owned_insert_other id j k v m : owner v = id -> m !! k = None -> j <> id -> owned j (<[k := v]> m) = owned j m.
Proof. intros Ho Hk Hj. apply map_filter_insert_not'; cbn; [congruence|]. intros v' Hv. congruence. Qed.

Lemma owned_delete id k m : owned id (delete k m) = delete k (owned id m).
Proof. apply map_filter_delete. Qed.

Lemma owned_delete_other id j k v m : m !! k = Some v -> owner v = id -> j <> id -> owned j (delete k m) = owned j m.
Proof. intros Hk Ho Hj. rewrite owned_delete. apply delete_id. apply eq_None_not_Some. intros [v' Hv%owned_lookup]. naive_solver congruence. Qed.
End Owned.

(** ** One user *)

(** What the tables hold of one user. *)
Record UserView := mkUserView {
  uv_user : option UserRow;
  uv_oidc : gmap (string * string) OIDCIdentityRow;
  uv_scim : gmap (string * string) SCIMIdentityRow;
}.

Definition no_user : UserView := mkUserView None ∅ ∅.
Definition user_view (t : DirTables) (id : string) : UserView :=
  mkUserView (dt_users t !! id) (owned oi_UserID id (dt_oidc t)) (owned si_UserID id (dt_scim t)).

(** The row of a user whose stream moved to a version. *)
Definition moved (u : UserRow) (version : Z) (now : time) : UserRow :=
  mkUserRow (ur_Email u) (ur_SessionVersion u) (ur_Disabled u) version now.
Definition invalidated (u : UserRow) (disable : bool) (version : Z) (now : time) : UserRow :=
  mkUserRow (ur_Email u) (ur_SessionVersion u + 1) (ur_Disabled u || disable) version now.

Definition with_oidc_email (email : string) (now : time) (i : OIDCIdentityRow) : OIDCIdentityRow :=
  mkOIDCIdentityRow (oi_ProviderSlug i) (oi_UserID i) email (oi_ProjectionVersion i) now.
Definition with_scim_email (email : string) (now : time) (i : SCIMIdentityRow) : SCIMIdentityRow :=
  mkSCIMIdentityRow (si_UserID i) email (si_ProjectionVersion i) now.

(** The specification of the user events: a user is created once, keeps its
    session version but for invalidations, which raise it by one, and is removed
    with its identities. *)
Definition user_effect (id : string) (version : Z) (now : time) (payload : directoryPayload) (v : UserView) : option UserView :=
  match payload, uv_user v with
  | userCreated email, None =>
      if version =? 1 then Some (mkUserView (Some (mkUserRow email 1 false version now)) (uv_oidc v) (uv_scim v)) else None
  | userManagedUpdated email, Some u =>
      Some (mkUserView (Some (mkUserRow email (ur_SessionVersion u) (ur_Disabled u) version now))
              (with_oidc_email email now <$> uv_oidc v) (with_scim_email email now <$> uv_scim v))
  | userManagedDeleted, Some u => Some no_user
  | bootstrapAdminRoleGranted _, Some u => Some (mkUserView (Some (moved u version now)) (uv_oidc v) (uv_scim v))
  | oidcIdentityLinked slug issuer subject email, Some u =>
      Some (mkUserView (Some (moved u version now)) (<[(issuer, subject) := mkOIDCIdentityRow slug id email version now]> (uv_oidc v)) (uv_scim v))
  | scimIdentityLinked slug externalID email, Some u =>
      Some (mkUserView (Some (moved u version now)) (uv_oidc v) (<[(slug, externalID) := mkSCIMIdentityRow id email version now]> (uv_scim v)))
  | scimIdentityUnlinked slug externalID, Some u =>
      Some (mkUserView (Some (moved u version now)) (uv_oidc v) (delete (slug, externalID) (uv_scim v)))
  | userDisabled, Some u =>
      if ur_SessionVersion u <? max_int64
      then Some (mkUserView (Some (invalidated u true version now)) (uv_oidc v) (uv_scim v)) else None
  | roleRevoked _, Some u =>
      if ur_SessionVersion u <? max_int64
      then Some (mkUserView (Some (invalidated u false version now)) (uv_oidc v) (uv_scim v)) else None
  | oidcIdentityUnlinked slug issuer subject, Some u =>
      if ur_SessionVersion u <? max_int64
      then Some (mkUserView (Some (invalidated u false version now)) (delete (issuer, subject) (uv_oidc v)) (uv_scim v)) else None
  | scimUserDeprovisioned, Some u => if decide (uv_oidc v = ∅ /\ uv_scim v = ∅) then Some no_user else None
  | _, _ => None
  end.

(** ** The projectors implement it *)

Section Refinement.
Context {unicode : UnicodeLower} {urls : URLs} {schemes : Schemes} {bcrypt : Bcrypt}.

(** What the event must bring, and find free. *)
Definition user_admissible (id : string) (payload : directoryPayload) (t : DirTables) : Prop :=
  match payload with
  | userCreated email | userManagedUpdated email =>
      is_canonical_email email = true /\ forall j u, j <> id -> dt_users t !! j = Some u -> ur_Email u <> email
  | oidcIdentityLinked slug issuer subject email =>
      validProviderSlug slug = true /\ is_canonical_issuer issuer = true
      /\ validBoundedText subject maxOIDCExternalSubjectBytes = true
      /\ ur_Email <$> (dt_users t !! id) = Some email /\ dt_oidc t !! (issuer, subject) = None
      /\ forall k i, dt_oidc t !! k = Some i -> oi_UserID i = id -> oi_ProviderSlug i <> slug
  | scimIdentityLinked slug externalID email =>
      validProviderSlug slug = true /\ validBoundedText externalID maxSCIMExternalIDBytes = true
      /\ ur_Email <$> (dt_users t !! id) = Some email /\ dt_scim t !! (slug, externalID) = None
      /\ forall k i, dt_scim t !! k = Some i -> si_UserID i = id -> k.1 <> slug
  | _ => True
  end.

(** What the projection of a user event does to the tables. *)
Record user_step (id : string) (version : Z) (now : time) (payload : directoryPayload) (t t' : DirTables) : Prop := {
  us_id : is_canonical_user id = true;
  us_version : match dt_users t !! id with
               | Some u => ur_ProjectionVersion u = version - 1
               | None => version = 1
               end;
  us_admissible : user_admissible id payload t;
  us_self : user_effect id version now payload (user_view t id) = Some (user_view t' id);
  us_other : forall j, j <> id -> user_view t' j = user_view t j;
  us_rest : dt_providers t' = dt_providers t /\ dt_groups t' = dt_groups t /\ dt_managed t' = dt_managed t;
  us_members : dt_members t' = match dt_users t' !! id with
                               | Some _ => dt_members t
                               | None => filter (fun p => p.1.2 <> id) (dt_members t)
                               end;
  us_managed : dt_managed_members t' = match payload with
                                       | userManagedDeleted => filter (fun p => p.1.2 <> id) (dt_managed_members t)
                                       | _ => dt_managed_members t
                                       end;
}.

Lemma not_taken {K V} `{Countable K} (f : K * V -> bool) (m : gmap K V) k v :
  existsb f (map_to_list m) = false -> m !! k = Some v -> f (k, v) = false.
Proof.
  intros He Hk. destruct (f (k, v)) eqn:Ef; [|done]. rewrite <- He. symmetry. apply existsb_exists.
  exists (k, v). split; [by apply list_elem_of_In, elem_of_map_to_list|done].
Qed.

Lemma advance_ok e id email version now t t' :
  affected_one e (AdvanceUserProjectionVersion id email version now t) = Ok t' ->
  exists u, dt_users t !! id = Some u /\ ur_Email u = email /\ ur_ProjectionVersion u = version - 1
    /\ t' = with_users t (<[id := moved u version now]> (dt_users t)).
Proof.
  intros [Hn <-]%one_affected_ok. revert Hn. unfold AdvanceUserProjectionVersion. destruct (dt_users t !! id) as [u|]; [|done].
  destruct (_ && _) eqn:E; [|done]. intros _. apply andb_true_iff in E as [He%String.eqb_eq Hv%Z.eqb_eq]. by exists u.
Qed.

Lemma invalidate_ok e disable id version now t t' :
  affected_one e (InvalidateUserSession disable id version now t) = Ok t' ->
  exists u, dt_users t !! id = Some u /\ ur_ProjectionVersion u = version - 1 /\ ur_SessionVersion u < max_int64
    /\ t' = with_users t (<[id := invalidated u disable version now]> (dt_users t)).
Proof.
  intros [Hn <-]%one_affected_ok. revert Hn. unfold InvalidateUserSession. destruct (dt_users t !! id) as [u|]; [|done].
  destruct (_ && _) eqn:E; [|done]. intros _. apply andb_true_iff in E as [Hv%Z.eqb_eq Hs%Z.ltb_lt]. by exists u.
Qed.

Lemma delete_ok e id version t t' :
  affected_one e (DeleteManagedUser id version t) = Ok t' ->
  exists u, dt_users t !! id = Some u /\ ur_ProjectionVersion u = version /\ t' = delete_user id t.
Proof.
  intros [Hn <-]%one_affected_ok. revert Hn. unfold DeleteManagedUser. destruct (dt_users t !! id) as [u|]; [|done].
  destruct (_ =? _) eqn:E; [|done]. intros _. apply Z.eqb_eq in E. by exists u.
Qed.

(** The views of tables whose user rows changed at one place. *)
Lemma view_with_user t id u j :
  user_view (with_users t (<[id := u]> (dt_users t))) j
  = mkUserView (if decide (j = id) then Some u else dt_users t !! j) (uv_oidc (user_view t j)) (uv_scim (user_view t j)).
Proof. unfold user_view; cbn. case_decide as Hj; [subst; by rewrite lookup_insert_eq|by rewrite lookup_insert_ne]. Qed.

Lemma view_delete t id j : user_view (delete_user id t) j = if decide (j = id) then no_user else user_view t j.
Proof.
  unfold user_view, delete_user; cbn. case_decide as Hj.
  - subst. by rewrite lookup_delete_eq, !owned_drop.
  - rewrite lookup_delete_ne, (owned_drop_other oi_UserID), (owned_drop_other si_UserID) by done. done.
Qed.

(** A step that writes only the user's row. *)
Lemma row_step id version now payload t u' :
  is_canonical_user id = true -> payload <> userManagedDeleted ->
  match dt_users t !! id with Some u => ur_ProjectionVersion u = version - 1 | None => version = 1 end ->
  user_admissible id payload t ->
  user_effect id version now payload (user_view t id)
  = Some (mkUserView (Some u') (uv_oidc (user_view t id)) (uv_scim (user_view t id))) ->
  user_step id version now payload t (with_users t (<[id := u']> (dt_users t))).
Proof.
  intros Hid Hp Hv Ha He. split; [done|done|done| | |done| |].
  - rewrite view_with_user, decide_True by done. exact He.
  - intros j Hj. rewrite view_with_user, decide_False by done. done.
  - cbn. by rewrite lookup_insert_eq.
  - by destruct payload.
Qed.

(** A step that removes the user. *)
Lemma removal_step id version now payload t t1 u :
  is_canonical_user id = true -> dt_users t !! id = Some u -> ur_ProjectionVersion u = version - 1 ->
  user_admissible id payload t -> user_effect id version now payload (user_view t id) = Some no_user ->
  (forall j, j <> id -> user_view t1 j = user_view t j) ->
  (dt_providers t1 = dt_providers t /\ dt_groups t1 = dt_groups t /\ dt_managed t1 = dt_managed t) ->
  dt_members t1 = filter (fun p => p.1.2 <> id) (dt_members t) ->
  dt_managed_members t1 = match payload with
                          | userManagedDeleted => filter (fun p => p.1.2 <> id) (dt_managed_members t)
                          | _ => dt_managed_members t
                          end ->
  user_step id version now payload t (delete_user id t1).
Proof.
  intros Hid Hu Hv Ha He Ho Hr Hm Hg. split; [done|by rewrite Hu|done| | |done| |done].
  - by rewrite view_delete, decide_True.
  - intros j Hj. rewrite view_delete, decide_False by done. by apply Ho.
  - cbn. by rewrite lookup_delete_eq.
Qed.

Lemma creation_step id version now email t t' :
  projectUserCreation id version now email t = Ok t' -> user_step id version now (userCreated email) t t'.
Proof.
  unfold projectUserCreation. intros (u1 & Hv%fail_if_ok%negb_false_iff%Z.eqb_eq & H)%bind_ok. subst version.
  apply bind_ok in H as (u2 & Hid%fail_if_ok%negb_false_iff & H). apply bind_ok in H as (u3 & Hem%fail_if_ok%negb_false_iff & H).
  apply bind_ok in H as (p & Hi%wrap_err_ok & [_ <-]%one_affected_ok). unfold InsertUser in Hi.
  apply bind_ok in Hi as (u4 & Hn%fail_if_ok%bool_decide_eq_false & Hi). apply bind_ok in Hi as (u5 & Hf%fail_if_ok & [= <-]).
  apply eq_None_not_Some in Hn. apply row_step; [done|done|by rewrite Hn| |].
  - split; [done|]. intros j u _ Hj. pose proof (not_taken _ _ _ _ Hf Hj) as Ht. cbn in Ht. by apply String.eqb_neq in Ht.
  - unfold user_effect. cbn [user_view uv_user]. by rewrite Hn.
Qed.

Lemma bootstrap_step id version now role t t' :
  projectBootstrapAdminRoleGrant id version now role t = Ok t' -> user_step id version now (bootstrapAdminRoleGranted role) t t'.
Proof.
  unfold projectBootstrapAdminRoleGrant. intros (u1 & _ & H)%bind_ok.
  apply bind_ok in H as (u2 & Hid%fail_if_ok%negb_false_iff & H). apply bind_ok in H as (u3 & _ & H).
  apply bind_ok in H as (u & Hu%or_err_ok & H). apply bind_ok in H as (u4 & _ & H).
  unfold AdvanceUserProjectionVersionForBootstrapAdmin in H. rewrite Hu in H.
  apply advance_ok in H as (u' & Hu' & _ & Hv & ->). assert (u' = u) as -> by congruence.
  apply row_step; [done|done|by rewrite Hu|done|]. unfold user_effect. cbn [user_view uv_user]. by rewrite Hu.
Qed.

Lemma deletion_step id version now t t' :
  projectManagedUserDeletion id version t = Ok t' -> user_step id version now userManagedDeleted t t'.
Proof.
  unfold projectManagedUserDeletion. intros (u1 & _ & H)%bind_ok. apply bind_ok in H as (u2 & Hid%fail_if_ok%negb_false_iff & H).
  apply delete_ok in H as (u & Hu & Hv & ->). cbn in Hu.
  apply (removal_step _ _ _ _ _ _ u); [done|done|lia|done| |done|done|done|done].
  unfold user_effect. cbn [user_view uv_user]. by rewrite Hu.
Qed.

Lemma replace_managed_ok id email version now t p e :
  ReplaceManagedUser id email version now t = Ok p -> affected_one e p = Ok p.1 ->
  exists u, dt_users t !! id = Some u /\ ur_ProjectionVersion u = version - 1
    /\ (forall j u', j <> id -> dt_users t !! j = Some u' -> ur_Email u' <> email)
    /\ p.1 = with_users t (<[id := mkUserRow email (ur_SessionVersion u) (ur_Disabled u) version now]> (dt_users t)).
Proof.
  unfold ReplaceManagedUser. destruct (dt_users t !! id) as [u|]; [|intros [= <-] H; by apply one_affected_ok in H as [? _]].
  destruct (_ =? _) eqn:Ev; [|intros [= <-] H; by apply one_affected_ok in H as [? _]].
  apply Z.eqb_eq in Ev. intros (u1 & Hf%fail_if_ok & [= <-])%bind_ok _. exists u. split; [done|]. split; [done|]. split; [|done].
  intros j u' Hj Hu' He. pose proof (not_taken _ _ _ _ Hf Hu') as Ht. cbn in Ht. rewrite He, String.eqb_refl, andb_true_r in Ht.
  apply negb_false_iff, String.eqb_eq in Ht. done.
Qed.

Lemma update_step id version now email t t' :
  projectManagedUserUpdate id version now email t = Ok t' -> user_step id version now (userManagedUpdated email) t t'.
Proof.
  unfold projectManagedUserUpdate. intros (u1 & _ & H)%bind_ok.
  apply bind_ok in H as (u2 & Hid%fail_if_ok%negb_false_iff & H). apply bind_ok in H as (u3 & Hem%fail_if_ok%negb_false_iff & H).
  apply bind_ok in H as (t1 & (p & Hp%wrap_err_ok & Ha)%bind_ok & [= <-]).
  pose proof (one_affected_ok _ _ _ Ha) as [_ <-]. apply (replace_managed_ok _ _ _ _ _ _ _ Hp) in Ha as (u & Hu & Hv & Hf & Ht1). rewrite Ht1.
  set (oidc := with_oidc_email email now). set (scim := with_scim_email email now).
  assert (forall t0, ReplaceOIDCIdentityEmailsForManagedUser id email now t0 = with_identities t0 (on_owned oi_UserID id oidc (dt_oidc t0)) (dt_scim t0)) as Ho by done.
  assert (forall t0, ReplaceSCIMIdentityEmailsForManagedUser id email now t0 = with_identities t0 (dt_oidc t0) (on_owned si_UserID id scim (dt_scim t0))) as Hsc by done.
  rewrite Ho, Hsc. split; [done|by rewrite Hu|done| | |done| |done].
  - unfold user_effect, user_view; cbn [dt_users dt_oidc dt_scim with_identities with_users uv_user uv_oidc uv_scim].
    rewrite Hu, lookup_insert_eq, (owned_on_owned oi_UserID), (owned_on_owned si_UserID) by done. done.
  - intros j Hj. unfold user_view; cbn [dt_users dt_oidc dt_scim with_identities with_users].
    rewrite lookup_insert_ne, (owned_on_other oi_UserID), (owned_on_other si_UserID) by done. done.
  - cbn. by rewrite lookup_insert_eq.
Qed.

(** The insert of an identity, and of a link to its user. *)
Lemma oidc_link_step id version now slug issuer subject email t t' :
  projectOIDCIdentityLink id version now slug issuer subject email t = Ok t' ->
  user_step id version now (oidcIdentityLinked slug issuer subject email) t t'.
Proof.
  unfold projectOIDCIdentityLink. intros (u1 & _ & H)%bind_ok.
  apply bind_ok in H as (u2 & Hid%fail_if_ok%negb_false_iff & H). apply bind_ok in H as (u3 & Hs%fail_if_ok%negb_false_iff & H).
  apply bind_ok in H as (u4 & Hi%fail_if_ok%negb_false_iff & H). apply bind_ok in H as (u5 & Hx%fail_if_ok%negb_false_iff & H).
  apply bind_ok in H as (u6 & _ & H). apply bind_ok in H as (u & Hu%or_err_ok & H). apply bind_ok in H as (u7 & _ & H).
  apply bind_ok in H as (u8 & He%fail_if_ok%negb_false_iff%String.eqb_eq & H).
  apply bind_ok in H as (t1 & (p & Hp%wrap_err_ok & [_ <-]%one_affected_ok)%bind_ok & H). unfold InsertOIDCIdentity in Hp.
  apply bind_ok in Hp as (u9 & Hn%fail_if_ok%bool_decide_eq_false & Hp). apply bind_ok in Hp as (u10 & Hf%fail_if_ok & [= <-]).
  apply advance_ok in H as (u' & Hu' & _ & Hv & ->). cbn in Hu'. assert (u' = u) as -> by congruence. apply eq_None_not_Some in Hn.
  split; [done|by rewrite Hu| | | |done| |done].
  - split_and!; [done|done|done|by rewrite Hu, <- He|done|]. intros k i Hk Ho Hsl. pose proof (not_taken _ _ _ _ Hf Hk) as Ht. cbn in Ht.
    by rewrite Ho, Hsl, !String.eqb_refl in Ht.
  - unfold user_effect, user_view; cbn. rewrite Hu, lookup_insert_eq. by rewrite owned_insert.
  - intros j Hj. unfold user_view; cbn. rewrite lookup_insert_ne by done. by rewrite (owned_insert_other oi_UserID id).
  - cbn. by rewrite lookup_insert_eq.
Qed.

Lemma scim_link_step id version now slug externalID email t t' :
  projectSCIMIdentityLinked id version now slug externalID email t = Ok t' ->
  user_step id version now (scimIdentityLinked slug externalID email) t t'.
Proof.
  unfold projectSCIMIdentityLinked. intros (u1 & _ & H)%bind_ok.
  apply bind_ok in H as (u2 & Hid%fail_if_ok%negb_false_iff & H). apply bind_ok in H as (u3 & Hs%fail_if_ok & H).
  apply orb_false_iff in Hs as [[_ Hs%negb_false_iff]%orb_false_iff Hx%negb_false_iff].
  apply bind_ok in H as (u & Hu%or_err_ok & H). apply bind_ok in H as (u4 & He%fail_if_ok & H).
  apply orb_false_iff in He as [He%negb_false_iff%String.eqb_eq _].
  apply bind_ok in H as (t1 & (p & Hp%wrap_err_ok & [_ <-]%one_affected_ok)%bind_ok & H). unfold InsertSCIMIdentity in Hp.
  apply bind_ok in Hp as (u9 & Hn%fail_if_ok%bool_decide_eq_false & Hp). apply bind_ok in Hp as (u10 & Hf%fail_if_ok & [= <-]).
  apply advance_ok in H as (u' & Hu' & _ & Hv & ->). cbn in Hu'. assert (u' = u) as -> by congruence. apply eq_None_not_Some in Hn.
  split; [done|by rewrite Hu| | | |done| |done].
  - split_and!; [done|done|by rewrite Hu, <- He|done|]. intros k i Hk Ho Hsl. pose proof (not_taken _ _ _ _ Hf Hk) as Ht. cbn in Ht.
    by rewrite Ho, Hsl, !String.eqb_refl in Ht.
  - unfold user_effect, user_view; cbn. rewrite Hu, lookup_insert_eq. by rewrite owned_insert.
  - intros j Hj. unfold user_view; cbn. rewrite lookup_insert_ne by done. by rewrite (owned_insert_other si_UserID id).
  - cbn. by rewrite lookup_insert_eq.
Qed.

Lemma scim_unlink_step id version now slug externalID t t' :
  projectSCIMIdentityUnlinked id version now slug externalID t = Ok t' ->
  user_step id version now (scimIdentityUnlinked slug externalID) t t'.
Proof.
  unfold projectSCIMIdentityUnlinked. intros (u1 & _ & H)%bind_ok.
  apply bind_ok in H as (u2 & Hid%fail_if_ok%negb_false_iff & H). apply bind_ok in H as (u3 & _ & H).
  apply bind_ok in H as (u & Hu%or_err_ok & H). apply bind_ok in H as (u4 & _ & H). apply bind_ok in H as (t1 & [Hn <-]%one_affected_ok & H).
  revert Hn H. unfold DeleteSCIMIdentity. destruct (dt_scim t !! _) as [i|] eqn:Hi; [|done].
  destruct (String.eqb_spec (si_UserID i) id) as [Ho|]; [|done]. intros _ H.
  apply advance_ok in H as (u' & Hu' & _ & Hv & ->). cbn in Hu'. assert (u' = u) as -> by congruence.
  split; [done|by rewrite Hu|done| | |done| |done].
  - unfold user_effect, user_view; cbn. rewrite Hu, lookup_insert_eq. by rewrite owned_delete.
  - intros j Hj. unfold user_view; cbn. rewrite lookup_insert_ne by done. by rewrite (owned_delete_other si_UserID id _ _ i).
  - cbn. by rewrite lookup_insert_eq.
Qed.

(** No identity is linked to a user exactly when the counts are zero. *)
Lemma zlen_nil {A} (l : list A) : zlen l = 0 <-> l = [].
Proof. unfold zlen. destruct l; cbn; split; intros; [done|done|lia|done]. Qed.

Lemma count_zero {K V} `{Countable K} (owner : V -> string) id (m : gmap K V) :
  zlen (filter (fun p => owner p.2 = id) (map_to_list m)) = 0 <-> owned owner id m = ∅.
Proof.
  rewrite zlen_nil. split.
  - intros Hf. apply map_empty. intros k. apply eq_None_not_Some. intros [v [Hv Ho]%owned_lookup].
    assert ((k, v) ∈ filter (fun p => owner p.2 = id) (map_to_list m)) as Hin.
    { apply list_elem_of_filter. split; [done|]. by apply elem_of_map_to_list. }
    rewrite Hf in Hin. by apply elem_of_nil in Hin.
  - intros He. destruct (filter _ _) as [|[k v] l] eqn:Ef; [done|].
    assert ((k, v) ∈ filter (fun p => owner p.2 = id) (map_to_list m)) as [Ho Hin]%list_elem_of_filter by (rewrite Ef; left).
    apply elem_of_map_to_list in Hin. assert (owned owner id m !! k = Some v) as Hk by by apply owned_lookup. by rewrite He, lookup_empty in Hk.
Qed.

Lemma links_zero id t : CountUserIdentityLinks id t = 0 -> uv_oidc (user_view t id) = ∅ /\ uv_scim (user_view t id) = ∅.
Proof.
  unfold CountUserIdentityLinks, CountUserOIDCIdentities. intros Hn. unfold user_view; cbn [uv_oidc uv_scim].
  split; apply count_zero; unfold zlen in *; lia.
Qed.

(** The events that invalidate the sessions of their user. *)
Lemma invalidation_step id version now payload t t' :
  projectSessionInvalidation id version now payload t = Ok t' -> user_step id version now payload t t'.
Proof.
  unfold projectSessionInvalidation. intros (u1 & _ & H)%bind_ok.
  apply bind_ok in H as (u2 & Hid%fail_if_ok%negb_false_iff & H). apply bind_ok in H as (u & Hu%or_err_ok & H).
  apply bind_ok in H as (u3 & Hv%fail_if_ok%negb_false_iff%Z.eqb_eq & H). apply bind_ok in H as (disable & Hd & H).
  apply bind_ok in H as (t1 & (u' & Hu' & _ & Hs & ->)%invalidate_ok & H). assert (u' = u) as -> by congruence. clear Hu'. apply Z.ltb_lt in Hs.
  assert (match dt_users t !! id with Some u => ur_ProjectionVersion u = version - 1 | None => version = 1 end) as Hver by by rewrite Hu.
  destruct payload; try done.
  - injection Hd as <-. injection H as <-. apply row_step; [done..|]. unfold user_effect. cbn [user_view uv_user]. by rewrite Hu, Hs.
  - apply bind_ok in Hd as (u4 & _ & [= <-]). injection H as <-. apply row_step; [done..|]. unfold user_effect. cbn [user_view uv_user]. by rewrite Hu, Hs.
  - apply bind_ok in Hd as (u4 & _ & [= <-]). apply one_affected_ok in H as [Hn <-]. revert Hn. unfold DeleteOIDCIdentityForInvalidation.
    cbn [dt_oidc with_users]. destruct (dt_oidc t !! _) as [i|] eqn:Hi; [|done]. destruct (_ && _) eqn:E; [|done]. intros _.
    apply andb_true_iff in E as [_ Ho%String.eqb_eq]. split; [done|done|done| | |done| |done].
    + unfold user_effect, user_view; cbn. rewrite Hu, Hs, lookup_insert_eq. by rewrite owned_delete.
    + intros j Hj. unfold user_view; cbn. rewrite lookup_insert_ne by done. by rewrite (owned_delete_other oi_UserID id _ _ i).
    + cbn. by rewrite lookup_insert_eq.
  - apply bind_ok in Hd as (u4 & Hc%fail_if_ok%negb_false_iff%Z.eqb_eq%links_zero & [= <-]).
    apply delete_ok in H as (u' & _ & _ & ->).
    split; [done|done|done| | |done| |done].
    + rewrite view_delete, decide_True by done. unfold user_effect. cbn [user_view uv_user]. rewrite Hu. by rewrite decide_True.
    + intros j Hj. rewrite view_delete, decide_False by done. unfold user_view; cbn. by rewrite lookup_insert_ne.
    + cbn. by rewrite lookup_delete_eq.
Qed.

(** Every projection of an event of a user is the step of that user. *)
Lemma projectUser_step id version now payload t t' :
  projectUser id version now payload t = Ok t' -> user_step id version now payload t t'.
Proof.
  destruct payload; cbn [projectUser]; try apply invalidation_step;
    [apply creation_step|apply update_step|apply deletion_step|apply bootstrap_step|apply oidc_link_step|apply scim_link_step|apply scim_unlink_step].
Qed.

(** ** Groups *)

(** What an event does to the row of its SCIM group. *)
Definition group_effect (version : Z) (now : time) (payload : directoryPayload) (row : option SCIMGroupRow) : option (option SCIMGroupRow) :=
  match payload, row with
  | scimGroupCreated slug externalID name, None =>
      if version =? 1 then Some (Some (mkSCIMGroupRow slug externalID name version now)) else None
  | scimGroupUpdated slug externalID name, Some g =>
      if String.eqb (sg_ProviderSlug g) slug then Some (Some (mkSCIMGroupRow slug externalID name version now)) else None
  | scimGroupMembershipsReplaced _, Some g =>
      Some (Some (mkSCIMGroupRow (sg_ProviderSlug g) (sg_ExternalID g) (sg_DisplayName g) version now))
  | scimGroupDeleted slug, Some g => if String.eqb (sg_ProviderSlug g) slug then Some None else None
  | _, _ => None
  end.

(** The members an event leaves to its group, for those who are users. *)
Definition members_after (version : Z) (payload : directoryPayload) (alive : string -> Prop) (old : Z -> Prop) (user : string) (v : Z) : Prop :=
  match payload with
  | scimGroupMembershipsReplaced ids => user ∈ ids /\ alive user /\ v = version
  | scimGroupDeleted _ => False
  | _ => old v
  end.

Definition scim_group_admissible (skip : bool) (id : string) (payload : directoryPayload) (t : DirTables) : Prop :=
  match payload with
  | scimGroupCreated slug externalID name | scimGroupUpdated slug externalID name =>
      is_canonical_user id = true /\ validProviderSlug slug = true /\ validBoundedText externalID maxSCIMExternalIDBytes = true
      /\ validBoundedText name maxSCIMGroupDisplayNameBytes = true
      /\ forall j g, j <> id -> dt_groups t !! j = Some g -> sg_ProviderSlug g = slug -> sg_ExternalID g <> externalID
  | scimGroupMembershipsReplaced ids =>
      zlen ids <= maxSCIMGroupMembers /\ NoDup ids /\ Forall (fun u => is_canonical_user u = true) ids
      /\ (skip = false -> Forall (fun u => is_Some (dt_users t !! u)) ids)
  | _ => True
  end.

(** What the projection of an event of a SCIM group does to the tables. *)
Record scim_group_step (skip : bool) (id : string) (version : Z) (now : time) (payload : directoryPayload) (t t' : DirTables) : Prop := {
  gs_version : match dt_groups t !! id with Some g => sg_ProjectionVersion g = version - 1 | None => version = 1 end;
  gs_admissible : scim_group_admissible skip id payload t;
  gs_self : group_effect version now payload (dt_groups t !! id) = Some (dt_groups t' !! id);
  gs_other : forall j, j <> id -> dt_groups t' !! j = dt_groups t !! j;
  gs_members : forall j user v, dt_members t' !! (j, user) = Some v <->
    if decide (j = id)
    then members_after version payload (fun user => is_Some (dt_users t !! user)) (fun v => dt_members t !! (j, user) = Some v) user v
    else dt_members t !! (j, user) = Some v;
  gs_rest : dt_users t' = dt_users t /\ dt_oidc t' = dt_oidc t /\ dt_scim t' = dt_scim t /\ dt_providers t' = dt_providers t
    /\ dt_managed t' = dt_managed t /\ dt_managed_members t' = dt_managed_members t;
}.

Lemma external_free slug externalID id t :
  external_taken slug externalID id t = false ->
  forall j g, j <> id -> dt_groups t !! j = Some g -> sg_ProviderSlug g = slug -> sg_ExternalID g <> externalID.
Proof.
  intros Hf j g Hj Hg Hs He. pose proof (not_taken _ _ _ _ Hf Hg) as Ht. cbn in Ht.
  rewrite Hs, He, !String.eqb_refl, !andb_true_r in Ht. by apply negb_false_iff, String.eqb_eq in Ht.
Qed.

(** A step that writes only the row of the group. *)
Lemma group_row_step skip id version now payload t row :
  match dt_groups t !! id with Some g => sg_ProjectionVersion g = version - 1 | None => version = 1 end ->
  scim_group_admissible skip id payload t -> group_effect version now payload (dt_groups t !! id) = Some (Some row) ->
  (forall user v, members_after version payload (fun user => is_Some (dt_users t !! user)) (fun v => dt_members t !! (id, user) = Some v) user v
                  <-> dt_members t !! (id, user) = Some v) ->
  scim_group_step skip id version now payload t (with_groups t (<[id := row]> (dt_groups t)) (dt_members t)).
Proof.
  intros Hv Ha He Hm. split; [done|done| | | |by split_and!]; cbn.
  - by rewrite lookup_insert_eq.
  - intros j Hj. by rewrite lookup_insert_ne.
  - intros j user v. case_decide as Hj; [subst; by rewrite Hm|done].
Qed.

Lemma scim_group_created_step skip id version now slug externalID name t t' :
  projectSCIMGroupCreated id version now slug externalID name t = Ok t' ->
  scim_group_step skip id version now (scimGroupCreated slug externalID name) t t'.
Proof.
  unfold projectSCIMGroupCreated. intros (u1 & Hv%fail_if_ok%negb_false_iff%Z.eqb_eq & H)%bind_ok. subst version.
  apply bind_ok in H as (u2 & Hp%fail_if_ok & H).
  apply orb_false_iff in Hp as [[[Hid%negb_false_iff Hs%negb_false_iff]%orb_false_iff Hx%negb_false_iff]%orb_false_iff Hd%negb_false_iff].
  apply bind_ok in H as (p & Hi%wrap_err_ok & [_ <-]%one_affected_ok). unfold InsertSCIMGroup in Hi.
  apply bind_ok in Hi as (u3 & Hn%fail_if_ok%bool_decide_eq_false & Hi). apply bind_ok in Hi as (u4 & Hf%fail_if_ok & [= <-]).
  apply eq_None_not_Some in Hn. cbn [sg_ProviderSlug sg_ExternalID] in Hf. cbn [fst].
  apply group_row_step; [by rewrite Hn| |by rewrite Hn|done]. split_and!; [done..|]. by apply external_free.
Qed.

Lemma scim_group_updated_step skip id version now slug externalID name t t' :
  projectSCIMGroupUpdated id version now slug externalID name t = Ok t' ->
  scim_group_step skip id version now (scimGroupUpdated slug externalID name) t t'.
Proof.
  unfold projectSCIMGroupUpdated. intros (u1 & _ & H)%bind_ok. apply bind_ok in H as (u2 & Hp%fail_if_ok & H).
  apply orb_false_iff in Hp as [[[Hid%negb_false_iff Hs%negb_false_iff]%orb_false_iff Hx%negb_false_iff]%orb_false_iff Hd%negb_false_iff].
  apply bind_ok in H as (p & Hi%wrap_err_ok & [Hn <-]%one_affected_ok). revert Hi Hn. unfold UpdateSCIMGroup.
  destruct (dt_groups t !! id) as [g|] eqn:Hg; [|by intros [= <-]]. destruct (_ && _) eqn:E; [|by intros [= <-]].
  intros (u3 & Hf%fail_if_ok & [= <-])%bind_ok _. apply andb_true_iff in E as [Hsl%String.eqb_eq Hv%Z.eqb_eq].
  apply group_row_step; [by rewrite Hg| | |done].
  - split_and!; [done..|]. by apply external_free.
  - rewrite Hg. cbn. by rewrite Hsl, String.eqb_refl.
Qed.

Lemma scim_group_deleted_step skip id version now slug t t' :
  projectSCIMGroupDeleted id version slug t = Ok t' -> scim_group_step skip id version now (scimGroupDeleted slug) t t'.
Proof.
  unfold projectSCIMGroupDeleted. intros (u1 & _ & H)%bind_ok. apply bind_ok in H as (u2 & _ & [Hn <-]%one_affected_ok).
  revert Hn. unfold DeleteSCIMGroup. destruct (dt_groups t !! id) as [g|] eqn:Hg; [|done]. destruct (_ && _) eqn:E; [|done]. intros _.
  apply andb_true_iff in E as [Hsl Hv%Z.eqb_eq]. split; [by rewrite Hg|done| | | |by split_and!]; cbn.
  - by rewrite Hg, Hsl, lookup_delete_eq.
  - intros j Hj. by rewrite lookup_delete_ne.
  - intros j user v. rewrite map_lookup_filter_Some. cbn. case_decide; naive_solver.
Qed.

(** The loop over the members. *)
Lemma insert_members_ok skip id version ids t t' :
  fold_result (insert_scim_member skip id version) t ids = Ok t' ->
  t' = with_groups t (dt_groups t) (dt_members t')
  /\ Forall (fun u => is_canonical_user u = true) ids
  /\ (skip = false -> Forall (fun u => is_Some (dt_users t !! u)) ids)
  /\ forall j user v, dt_members t' !! (j, user) = Some v <->
       dt_members t !! (j, user) = Some v \/ j = id /\ user ∈ ids /\ is_Some (dt_users t !! user) /\ v = version.
Proof.
  revert t. induction ids as [|x ids IH]; intros t; cbn [fold_result].
  { intros [= <-]. split_and!; [by destruct t|constructor|constructor|]. intros j user v. set_solver. }
  intros (t1 & Hx & H)%bind_ok. apply IH in H as (Ht' & Hc & Ha & Hm). unfold insert_scim_member in Hx.
  apply bind_ok in Hx as (u1 & Hcx%fail_if_ok%negb_false_iff & Hx). apply bind_ok in Hx as ([t2 affected] & Hi%wrap_err_ok & Hx).
  apply bind_ok in Hx as (u2 & Hs%fail_if_ok & [= <-]). revert Hi Hs. unfold InsertSCIMGroupMember.
  destruct (dt_users t !! x) as [u|] eqn:Hu.
  - intros (u3 & Hn%fail_if_ok%bool_decide_eq_false & Hi)%bind_ok. apply bind_ok in Hi as (u4 & _ & [= <- <-]). intros _.
    apply eq_None_not_Some in Hn. cbn [dt_users dt_members with_groups] in *. split; [by rewrite Ht'|].
    split; [by constructor|]. split; [intros Hk; constructor; [by rewrite Hu|by apply Ha]|].
    intros j user v. rewrite Hm. destruct (decide ((j, user) = (id, x))) as [[= -> ->]|Hne].
    + rewrite lookup_insert_eq, Hn, Hu. set_solver.
    + rewrite lookup_insert_ne by done. set_solver.
  - intros [= <- <-]. cbn. rewrite negb_false_iff. intros ->. split; [done|]. split; [by constructor|].
    split; [done|]. intros j user v. rewrite Hm. split; [set_solver|]. intros [?|(-> & Hin & Hl & ->)]; [by left|right].
    split_and!; try done. apply elem_of_cons in Hin as [->|]; [|done]. rewrite Hu in Hl. by destruct Hl.
Qed.

Lemma compact_same_nodup (l : list string) : is_sorted_strings l = true -> zlen (compact l) = zlen l -> NoDup l.
Proof.
  intros Hs%is_sorted_strings_spec Hl. enough (compact l = l) as <- by by apply compact_sorted_nodup.
  clear Hs. induction l as [|x l IH]; [done|]. destruct l as [|y l]; [done|]. rewrite compact_cons2 in *. case_decide.
  - exfalso. pose proof (compact_length (y :: l)). unfold zlen in Hl. cbn [length] in *. lia.
  - f_equal. apply IH. unfold zlen in *. cbn [length] in *. lia.
Qed.

Lemma scim_members_step skip id version now ids t t' :
  projectSCIMGroupMembershipsReplaced skip id version now ids t = Ok t' ->
  scim_group_step skip id version now (scimGroupMembershipsReplaced ids) t t'.
Proof.
  unfold projectSCIMGroupMembershipsReplaced. intros (u1 & _ & H)%bind_ok. apply bind_ok in H as (u2 & Hp%fail_if_ok & H).
  apply orb_false_iff in Hp as [[Hn%Z.ltb_ge Hso%negb_false_iff]%orb_false_iff Hd%negb_false_iff%Z.eqb_eq].
  apply bind_ok in H as (t1 & Hf & [Haf <-]%one_affected_ok). apply insert_members_ok in Hf as (Ht1 & Hc & Ha & Hm).
  assert (dt_users t1 = dt_users t /\ dt_groups t1 = dt_groups t) as [Hus Hgr] by by rewrite Ht1.
  revert Haf. unfold AdvanceSCIMGroupProjectionVersion. rewrite Hgr. destruct (dt_groups t !! id) as [g|] eqn:Hg; [|done].
  destruct (_ =? _) eqn:Ev; [|done]. apply Z.eqb_eq in Ev. intros _. cbn [fst].
  split; [by rewrite Hg| | | | |by rewrite Ht1]; cbn.
  - split_and!; [done|by apply compact_same_nodup|done|done].
  - rewrite Hg, lookup_insert_eq. done.
  - intros j Hj. by rewrite lookup_insert_ne.
  - intros j user v. rewrite Hm. unfold DeleteSCIMGroupMembers; cbn [dt_members dt_users with_groups].
    rewrite map_lookup_filter_Some. cbn. case_decide; naive_solver.
Qed.

(** Every projection of an event of a SCIM group is a step of that group. *)
Lemma project_scim_group_step skip id version now payload t t' :
  directory_stream payload = scimGroupStreamType -> projectDirectoryPayload skip id version now payload t = Ok t' ->
  scim_group_step skip id version now payload t t'.
Proof.
  destruct payload; try done; intros _; cbn [projectDirectoryPayload];
    [apply scim_group_created_step|apply scim_group_updated_step|apply scim_members_step|apply scim_group_deleted_step].
Qed.

(** ** Managed groups *)

Definition managed_effect (version : Z) (now : time) (payload : directoryPayload) (row : option UserGroupRow) : option (option UserGroupRow) :=
  match payload, row with
  | userGroupCreated name _, None => if version =? 1 then Some (Some (mkUserGroupRow name version now)) else None
  | userGroupUpdated name _, Some g | userGroupMetadataUpdated name _, Some g => Some (Some (mkUserGroupRow name version now))
  | userGroupDeleted, Some g => Some None
  | _, _ => None
  end.

(** The members an event leaves to its group. *)
Definition managed_after (version : Z) (payload : directoryPayload) (old : Z -> Prop) (user : string) (v : Z) : Prop :=
  match payload with
  | userGroupCreated _ ids => old v \/ (exists id, id ∈ ids /\ canonicalUserID id = Ok user) /\ v = version
  | userGroupUpdated _ ids => (exists id, id ∈ ids /\ canonicalUserID id = Ok user) /\ v = version
  | userGroupDeleted => False
  | _ => old v
  end.

Definition managed_admissible (id : string) (payload : directoryPayload) (t : DirTables) : Prop :=
  match payload with
  | userGroupCreated name ids | userGroupUpdated name ids | userGroupMetadataUpdated name ids =>
      valid_utf8 name = true /\ 1 <= len name <= maxUserGroupNameBytes
      /\ (forall j g, j <> id -> dt_managed t !! j = Some g -> ug_Name g <> name)
      /\ exists members, map_result canonicalUserID ids = Ok members /\ NoDup members /\ zlen members <= maxUserGroupMembers
           /\ Forall (fun u => is_Some (dt_users t !! u)) members
  | _ => True
  end.

(** What the projection of an event of a managed group does to the tables. *)
Record managed_step (id : string) (version : Z) (now : time) (payload : directoryPayload) (t t' : DirTables) : Prop := {
  ms_version : match dt_managed t !! id with Some g => ug_ProjectionVersion g = version - 1 | None => version = 1 end;
  ms_admissible : managed_admissible id payload t;
  ms_self : managed_effect version now payload (dt_managed t !! id) = Some (dt_managed t' !! id);
  ms_other : forall j, j <> id -> dt_managed t' !! j = dt_managed t !! j;
  ms_members : forall j user v, dt_managed_members t' !! (j, user) = Some v <->
    if decide (j = id) then managed_after version payload (fun v => dt_managed_members t !! (j, user) = Some v) user v
    else dt_managed_members t !! (j, user) = Some v;
  ms_rest : dt_users t' = dt_users t /\ dt_oidc t' = dt_oidc t /\ dt_scim t' = dt_scim t /\ dt_providers t' = dt_providers t
    /\ dt_groups t' = dt_groups t /\ dt_members t' = dt_members t;
}.

Lemma name_free name id t :
  name_taken name id t = false -> forall j g, j <> id -> dt_managed t !! j = Some g -> ug_Name g <> name.
Proof.
  intros Hf j g Hj Hg He. pose proof (not_taken _ _ _ _ Hf Hg) as Ht. cbn in Ht. rewrite He, String.eqb_refl, andb_true_r in Ht.
  by apply negb_false_iff, String.eqb_eq in Ht.
Qed.

Lemma canonical_id id : is_canonical_user id = true -> canonicalUserID id = Ok id.
Proof. unfold is_canonical_user. destruct (canonicalUserID id) as [c|]; [|done]. by intros ->%String.eqb_eq. Qed.

Lemma normalize_group_ok id name ids version g :
  is_canonical_user id = true -> normalizeUserGroup id name ids version = Ok g ->
  ugv_ID g = id /\ ugv_Name g = name /\ valid_utf8 name = true /\ 1 <= len name <= maxUserGroupNameBytes
  /\ exists members, map_result canonicalUserID ids = Ok members /\ NoDup members /\ zlen members <= maxUserGroupMembers
       /\ ugv_MemberUserIDs g ≡ₚ members.
Proof.
  intros Hid%canonical_id. unfold normalizeUserGroup. intros (i & Hi & H)%bind_ok.
  assert (i = id) as ->.
  { unfold canonicalUserGroupID in Hi. apply bind_ok in Hi as ([] & Hu%wrap_err_ok & [= <-]).
    unfold canonicalUserID in Hid. rewrite Hu in Hid. by injection Hid. }
  apply bind_ok in H as (u1 & Hn%fail_if_ok & H). apply orb_false_iff in Hn as [[Hu%negb_false_iff H1%Z.ltb_ge]%orb_false_iff H2%Z.ltb_ge].
  apply bind_ok in H as (u2 & Hl%fail_if_ok%Z.ltb_ge & H). apply bind_ok in H as (members & Hm%wrap_err_ok & H).
  apply bind_ok in H as (u3 & Hd%fail_if_ok%negb_false_iff%Z.eqb_eq & H). apply bind_ok in H as (u4 & _ & [= <-]). cbn.
  split_and!; [done..|]. exists members. split_and!; [done| |..].
  - rewrite <- (sort_strings_perm members). apply compact_same_nodup; [|done]. apply is_sorted_strings_spec, sort_strings_sorted.
  - apply map_result_ok, Forall2_length in Hm. unfold zlen in *. lia.
  - apply sort_strings_perm.
Qed.

Lemma insert_managed_ok version g t t' :
  replaceUserGroupMembers version g t = Ok t' ->
  t' = with_managed t (dt_managed t) (dt_managed_members t')
  /\ Forall (fun u => is_Some (dt_users t !! u)) (ugv_MemberUserIDs g)
  /\ forall j user v, dt_managed_members t' !! (j, user) = Some v <->
       dt_managed_members t !! (j, user) = Some v \/ j = ugv_ID g /\ user ∈ ugv_MemberUserIDs g /\ v = version.
Proof.
  unfold replaceUserGroupMembers. generalize (ugv_MemberUserIDs g) as ids. intros ids.
  revert t. induction ids as [|x ids IH]; intros t; cbn [fold_result].
  { intros [= <-]. split_and!; [by destruct t|constructor|]. intros j user v. set_solver. }
  intros (t1 & (p & Hx%wrap_err_ok & [Hn <-]%one_affected_ok)%bind_ok & H)%bind_ok. apply IH in H as (Ht' & Ha & Hm).
  revert Hx Hn. unfold InsertManagedUserGroupMember. destruct (dt_users t !! x) as [u|] eqn:Hu; [|by intros [= <-]].
  intros (u3 & Hnone%fail_if_ok%bool_decide_eq_false%eq_None_not_Some & [= <-])%bind_ok _.
  cbn [fst dt_users dt_managed_members with_managed] in *. split; [by rewrite Ht'|].
  split; [constructor; [by rewrite Hu|done]|].
  intros j user v. rewrite Hm. destruct (decide ((j, user) = (ugv_ID g, x))) as [[= -> ->]|Hne].
  - rewrite lookup_insert_eq, Hnone. set_solver.
  - rewrite lookup_insert_ne by done. set_solver.
Qed.

Lemma members_made ids members user :
  map_result canonicalUserID ids = Ok members -> user ∈ members <-> exists id, id ∈ ids /\ canonicalUserID id = Ok user.
Proof.
  intros H%map_result_ok. induction H as [|x y l k Hxy _ IH]; [|rewrite elem_of_cons, IH].
  - split; [by intros ?%elem_of_nil|by intros (id & ?%elem_of_nil & _)].
  - split.
    + intros [->|(i & Hi & Hu)]; [exists x|exists i]; (split; [|done]); [by left|by right].
    + intros (i & [->|Hi]%elem_of_cons & Hu); [left; congruence|right; by exists i].
Qed.

Lemma user_group_created_step id version now name ids t t' :
  is_canonical_user id = true -> projectUserGroupCreated id version now name ids t = Ok t' ->
  managed_step id version now (userGroupCreated name ids) t t'.
Proof.
  intros Hid. unfold projectUserGroupCreated. intros (u1 & Hv%fail_if_ok%negb_false_iff%Z.eqb_eq & H)%bind_ok. subst version.
  apply bind_ok in H as (g & Hg & H). apply normalize_group_ok in Hg as (Hgi & Hgn & Hu & Hl & members & Hm & Hnd & Hlen & Hperm); [|done].
  rewrite Hgi, Hgn in H. apply bind_ok in H as (t1 & (p & Hi%wrap_err_ok & [_ <-]%one_affected_ok)%bind_ok & H). unfold InsertManagedUserGroup in Hi.
  apply bind_ok in Hi as (u2 & Hn%fail_if_ok%bool_decide_eq_false%eq_None_not_Some & Hi). apply bind_ok in Hi as (u3 & Hf%fail_if_ok & [= <-]).
  apply insert_managed_ok in H as (Ht' & Ha & Hmem). rewrite Hgi in Hmem. cbn [fst dt_users dt_managed dt_managed_members with_managed] in *.
  rewrite Ht'. split; cbn; [by rewrite Hn| |by rewrite Hn, lookup_insert_eq|intros j Hj; by rewrite lookup_insert_ne| |by split_and!].
  - split_and!; [done|lia|lia|by apply name_free|]. exists members. split_and!; [done..|]. by rewrite <- Hperm.
  - intros j user v. rewrite Hmem, Hperm, (members_made _ _ _ Hm). case_decide; naive_solver.
Qed.

Lemma replace_group_ok e f id name version now t t' :
  (wrap_err f (ReplaceManagedUserGroup id name version now t) ≫= affected_one e) = Ok t' ->
  exists g, dt_managed t !! id = Some g /\ ug_ProjectionVersion g = version - 1 /\ name_taken name id t = false
    /\ t' = with_managed t (<[id := mkUserGroupRow name version now]> (dt_managed t)) (dt_managed_members t).
Proof.
  intros (p & Hi%wrap_err_ok & [Hn <-]%one_affected_ok)%bind_ok. revert Hi Hn. unfold ReplaceManagedUserGroup.
  destruct (dt_managed t !! id) as [g|]; [|by intros [= <-]]. destruct (_ =? _) eqn:Ev; [|by intros [= <-]].
  intros (u & Hf%fail_if_ok & [= <-])%bind_ok _. exists g. split_and!; [done|by apply Z.eqb_eq|done|done].
Qed.

Lemma user_group_updated_step id version now name ids t t' :
  is_canonical_user id = true -> projectUserGroupUpdated id version now name ids t = Ok t' ->
  managed_step id version now (userGroupUpdated name ids) t t'.
Proof.
  intros Hid. unfold projectUserGroupUpdated. intros (u1 & _ & H)%bind_ok.
  apply bind_ok in H as (g & Hg & H). apply normalize_group_ok in Hg as (Hgi & Hgn & Hu & Hl & members & Hm & Hnd & Hlen & Hperm); [|done].
  rewrite Hgi, Hgn in H. apply bind_ok in H as (t1 & Hrep & H).
  apply replace_group_ok in Hrep as (g0 & Hg0 & Hv & Hf & ->).
  apply insert_managed_ok in H as (Ht' & Ha & Hmem). rewrite Hgi in Hmem.
  unfold DeleteManagedUserGroupMembers in *. cbn [dt_users dt_managed dt_managed_members with_managed] in *.
  rewrite Ht'. split; cbn; [by rewrite Hg0| |by rewrite Hg0, lookup_insert_eq|intros j Hj; by rewrite lookup_insert_ne| |by split_and!].
  - split_and!; [done|lia|lia|by apply name_free|]. exists members. split_and!; [done..|]. by rewrite <- Hperm.
  - intros j user v. rewrite Hmem, Hperm, (members_made _ _ _ Hm), map_lookup_filter_Some. cbn. case_decide; naive_solver.
Qed.

Lemma user_group_metadata_step id version now name ids t t' :
  is_canonical_user id = true -> projectUserGroupMetadataUpdated id version now name ids t = Ok t' ->
  managed_step id version now (userGroupMetadataUpdated name ids) t t'.
Proof.
  intros Hid. unfold projectUserGroupMetadataUpdated. intros (u1 & _ & H)%bind_ok.
  apply bind_ok in H as (u2 & Hz%fail_if_ok%negb_false_iff%Z.eqb_eq & H).
  apply bind_ok in H as (g & Hg & H). apply normalize_group_ok in Hg as (Hgi & Hgn & Hu & Hl & _); [|done].
  rewrite Hgi, Hgn in H. apply replace_group_ok in H as (g0 & Hg0 & Hv & Hf & ->). assert (ids = []) as -> by by apply zlen_nil.
  split; cbn; [by rewrite Hg0| |by rewrite Hg0, lookup_insert_eq|intros j Hj; by rewrite lookup_insert_ne| |by split_and!].
  - split_and!; [done|lia|lia|by apply name_free|]. exists []. split_and!; [done|constructor|done|constructor].
  - intros j user v. by case_decide.
Qed.

Lemma user_group_deleted_step id version now t t' :
  projectUserGroupDeleted id version t = Ok t' -> managed_step id version now userGroupDeleted t t'.
Proof.
  unfold projectUserGroupDeleted. intros (u1 & _ & [Hn <-]%one_affected_ok)%bind_ok. revert Hn. unfold DeleteManagedUserGroup.
  destruct (dt_managed t !! id) as [g|] eqn:Hg; [|done]. destruct (_ =? _) eqn:E; [|done]. intros _. apply Z.eqb_eq in E.
  split; cbn; [by rewrite Hg|done|by rewrite Hg, lookup_delete_eq|intros j Hj; by rewrite lookup_delete_ne| |by split_and!].
  intros j user v. rewrite map_lookup_filter_Some. cbn. case_decide; naive_solver.
Qed.

(** Every projection of an event of a managed group is a step of that group. *)
Lemma project_managed_step skip id version now payload t t' :
  is_canonical_user id = true -> directory_stream payload = userGroupStreamType ->
  projectDirectoryPayload skip id version now payload t = Ok t' -> managed_step id version now payload t t'.
Proof.
  intros Hid. destruct payload; try done; intros _; cbn [projectDirectoryPayload];
    [by apply user_group_created_step|by apply user_group_updated_step|by apply user_group_metadata_step|apply user_group_deleted_step].
Qed.

(** ** Providers *)

Definition provider_of (payload : directoryPayload) : string :=
  match payload with
  | scimProviderCreated slug _ | scimProviderTokenRotated slug _ | scimProviderDisabled slug _ | scimProviderDeleted slug _ => slug
  | _ => ""
  end.

(** A provider that was disabled stays so: a rotation keeps the flag, and only a
    deletion makes room for another creation. *)
Definition provider_effect (version : Z) (now : time) (payload : directoryPayload) (row : option SCIMProviderRow) : option (option SCIMProviderRow) :=
  match payload, row with
  | scimProviderCreated _ hash, None => Some (Some (mkSCIMProviderRow hash false version now))
  | scimProviderTokenRotated _ hash, Some p => Some (Some (mkSCIMProviderRow hash (sp_Disabled p) version now))
  | scimProviderDisabled _ _, Some p => Some (Some (mkSCIMProviderRow (sp_TokenHash p) true version now))
  | scimProviderDeleted _ _, Some p => Some None
  | _, _ => None
  end.

Record provider_step (id : string) (version : Z) (now : time) (payload : directoryPayload) (t t' : DirTables) : Prop := {
  ps_slug : validProviderSlug (provider_of payload) = true;
  ps_stream : scimProviderStreamID (provider_of payload) = Ok id;
  ps_version : forall p, dt_providers t !! provider_of payload = Some p -> sp_ProjectionVersion p = version - 1;
  ps_positive : 1 <= version;
  ps_hash : match payload with
            | scimProviderCreated _ hash | scimProviderTokenRotated _ hash => is_ok (validateSCIMTokenHash hash) = true /\ len hash = 60
            | _ => True
            end;
  ps_self : provider_effect version now payload (dt_providers t !! provider_of payload) = Some (dt_providers t' !! provider_of payload);
  ps_other : forall slug, slug <> provider_of payload -> dt_providers t' !! slug = dt_providers t !! slug;
  ps_rest : dt_users t' = dt_users t /\ dt_oidc t' = dt_oidc t /\ dt_scim t' = dt_scim t /\ dt_groups t' = dt_groups t
    /\ dt_members t' = dt_members t /\ dt_managed t' = dt_managed t /\ dt_managed_members t' = dt_managed_members t;
}.

Lemma provider_event_ok id slug hash required :
  validateSCIMProviderEvent id slug hash required = Ok tt ->
  validProviderSlug slug = true /\ scimProviderStreamID slug = Ok id /\ (required = true -> is_ok (validateSCIMTokenHash hash) = true).
Proof.
  unfold validateSCIMProviderEvent. intros (u1 & Hs%fail_if_ok%negb_false_iff & H)%bind_ok.
  apply bind_ok in H as (u2 & Hid%fail_if_ok & H). split; [done|]. split.
  - destruct (scimProviderStreamID slug) as [sid|]; [|done]. by apply negb_false_iff, String.eqb_eq in Hid as ->.
  - intros ->. by rewrite H.
Qed.

Lemma project_provider_step skip id version now payload t t' :
  directory_stream payload = scimProviderStreamType -> projectDirectoryPayload skip id version now payload t = Ok t' ->
  provider_step id version now payload t t'.
Proof.
  destruct payload as [| | | | | | | | | | |slug hash|slug hash|slug hash|slug hash| | | | | | | |]; try done; intros _; cbn [projectDirectoryPayload].
  - unfold projectSCIMProviderCreated. intros (u1 & Hv%fail_if_ok%Z.ltb_ge & H)%bind_ok.
    apply bind_ok in H as ([] & (Hs & Hst & Hh)%provider_event_ok & H). apply bind_ok in H as (p & Hi%wrap_err_ok & [Hn <-]%one_affected_ok).
    unfold InsertSCIMProvider in Hi. apply bind_ok in Hi as (u2 & Hl%fail_if_ok%negb_false_iff%Z.eqb_eq & Hi).
    case_bool_decide as Hnone; [by injection Hi as <-|]. injection Hi as <-. apply eq_None_not_Some in Hnone.
    split; cbn; [done|done|by rewrite Hnone|done|split; [by apply Hh|done]|by rewrite Hnone, lookup_insert_eq|intros j Hj; by rewrite lookup_insert_ne|by split_and!].
  - unfold projectSCIMProviderTokenRotated. intros (u1 & Hv%fail_if_ok%Z.leb_gt & H)%bind_ok.
    apply bind_ok in H as ([] & (Hs & Hst & Hh)%provider_event_ok & H). apply bind_ok in H as (p & Hi%wrap_err_ok & [Hn <-]%one_affected_ok).
    revert Hi Hn. unfold RotateSCIMProviderToken. destruct (dt_providers t !! slug) as [r|] eqn:Hr; [|by intros [= <-]].
    destruct (_ =? _) eqn:Ev; [|by intros [= <-]]. apply Z.eqb_eq in Ev. intros (u2 & Hl%fail_if_ok%negb_false_iff%Z.eqb_eq & [= <-])%bind_ok _.
    split; cbn; [done|done|rewrite Hr; by intros ? [= <-]|lia|split; [by apply Hh|done]|by rewrite Hr, lookup_insert_eq|intros j Hj; by rewrite lookup_insert_ne|by split_and!].
  - unfold projectSCIMProviderDisabled. intros (u1 & Hv%fail_if_ok%Z.leb_gt & H)%bind_ok.
    apply bind_ok in H as ([] & (Hs & Hst & Hh)%provider_event_ok & [Hn <-]%one_affected_ok).
    revert Hn. unfold DisableSCIMProvider. destruct (dt_providers t !! slug) as [r|] eqn:Hr; [|done].
    destruct (_ =? _) eqn:Ev; [|done]. apply Z.eqb_eq in Ev. intros _.
    split; cbn; [done|done|rewrite Hr; by intros ? [= <-]|lia|done|by rewrite Hr, lookup_insert_eq|intros j Hj; by rewrite lookup_insert_ne|by split_and!].
  - unfold projectSCIMProviderDeleted. intros (u1 & Hv%fail_if_ok%Z.leb_gt & H)%bind_ok.
    apply bind_ok in H as ([] & (Hs & Hst & Hh)%provider_event_ok & [Hn <-]%one_affected_ok).
    revert Hn. unfold DeleteSCIMProvider. destruct (dt_providers t !! slug) as [r|] eqn:Hr; [|done].
    destruct (_ =? _) eqn:Ev; [|done]. apply Z.eqb_eq in Ev. intros _.
    split; cbn; [done|done|rewrite Hr; by intros ? [= <-]|lia|done|by rewrite Hr, lookup_delete_eq|intros j Hj; by rewrite lookup_delete_ne|by split_and!].
Qed.
End Refinement.
