(* ===== verification/DirectoryProof.v ===== *)
(** * The invariant of the directory

    What holds of the tables after any history of appends: users are valid and
    told apart by their emails, every identity belongs to a live user and carries
    the user's email, groups are valid, and their members are live users.  The
    invalidation of sessions and the removal of users are final. *)

From Stdlib Require Import Ascii String ZArith Lia.
From S2P Require Export Directory.

Section Invariant.
Context {unicode : UnicodeLower} {urls : URLs} {schemes : Schemes} {bcrypt : Bcrypt}.

(** Any event of the directory, appended; identifiers reach the log in upper
    case. *)
Definition dir_append (db db' : DirDB) : Prop :=
  exists event, te_StreamType event = directory_stream (te_Payload event) /\ is_canonical_user (te_StreamID event) = true
    /\ appended (projectDirectory false) event db db'.

Definition no_directory : DirTables := mkDirTables ∅ ∅ ∅ ∅ ∅ ∅ ∅ ∅.
Definition empty_directory : DirDB := mkTypedDB [] no_directory.

(** ** One user *)

(** What is seen of a user is coherent. *)
Record user_ok (id : string) (v : UserView) : Prop := {
  uo_row : forall u, uv_user v = Some u -> is_canonical_user id = true /\ is_canonical_email (ur_Email u) = true
    /\ 1 <= ur_SessionVersion u <= max_int64 /\ 1 <= ur_ProjectionVersion u;
  uo_none : uv_user v = None -> uv_oidc v = ∅ /\ uv_scim v = ∅;
  uo_oidc : forall k i, uv_oidc v !! k = Some i -> ur_Email <$> uv_user v = Some (oi_Email i)
    /\ validProviderSlug (oi_ProviderSlug i) = true /\ is_canonical_issuer k.1 = true
    /\ validBoundedText k.2 maxOIDCExternalSubjectBytes = true;
  uo_oidc_key : forall k k' i i', uv_oidc v !! k = Some i -> uv_oidc v !! k' = Some i' -> oi_ProviderSlug i = oi_ProviderSlug i' -> k = k';
  uo_scim : forall k i, uv_scim v !! k = Some i -> ur_Email <$> uv_user v = Some (si_Email i)
    /\ validProviderSlug k.1 = true /\ validBoundedText k.2 maxSCIMExternalIDBytes = true;
  uo_scim_key : forall k k' i i', uv_scim v !! k = Some i -> uv_scim v !! k' = Some i' -> k.1 = k'.1 -> k = k';
}.

Lemma no_user_ok id : user_ok id no_user.
Proof. split; cbn; try done; intros *; rewrite lookup_empty; done. Qed.

(** A row that replaces another, with the same email and identities. *)
Lemma user_ok_row id u u' oidc scim :
  user_ok id (mkUserView (Some u) oidc scim) -> ur_Email u' = ur_Email u -> 1 <= ur_SessionVersion u' <= max_int64 ->
  1 <= ur_ProjectionVersion u' -> user_ok id (mkUserView (Some u') oidc scim).
Proof.
  intros [Hr _ Ho Hok Hs Hsk] He Hsv Hv. destruct (Hr u eq_refl) as (Hid & Hem & _ & _).
  split; cbn in *; rewrite ?He; try done. intros x [= <-]. by rewrite He.
Qed.

Lemma user_ok_unlink id u oidc scim oidc' scim' :
  user_ok id (mkUserView (Some u) oidc scim) -> oidc' ⊆ oidc -> scim' ⊆ scim -> user_ok id (mkUserView (Some u) oidc' scim').
Proof.
  intros [Hr _ Ho Hok Hs Hsk] H1 H2. split; cbn in *; try done.
  - intros k i Hk. by eapply Ho, lookup_weaken.
  - intros k k' i i' Hk Hk'. eapply Hok; by eapply lookup_weaken.
  - intros k i Hk. by eapply Hs, lookup_weaken.
  - intros k k' i i' Hk Hk'. eapply Hsk; by eapply lookup_weaken.
Qed.

Lemma user_ok_oidc id u oidc scim slug issuer subject row :
  user_ok id (mkUserView (Some u) oidc scim) -> oi_Email row = ur_Email u -> oi_ProviderSlug row = slug ->
  validProviderSlug slug = true -> is_canonical_issuer issuer = true -> validBoundedText subject maxOIDCExternalSubjectBytes = true ->
  (forall k i, oidc !! k = Some i -> oi_ProviderSlug i <> slug) ->
  user_ok id (mkUserView (Some u) (<[(issuer, subject) := row]> oidc) scim).
Proof.
  intros [Hr _ Ho Hok Hs Hsk] He Hsl H1 H2 H3 Hfree. split; cbn in *; try done.
  - intros k i [[<- <-]|[_ Hk]]%lookup_insert_Some; [cbn; rewrite He, Hsl|by apply Ho]. by split_and!.
  - intros k k' i i' [[<- <-]|[_ Hk]]%lookup_insert_Some [[<- <-]|[_ Hk']]%lookup_insert_Some Heq; [done| | |by eapply Hok].
    + destruct (Hfree _ _ Hk'). congruence.
    + destruct (Hfree _ _ Hk). congruence.
Qed.

Lemma user_ok_scim id u oidc scim slug externalID row :
  user_ok id (mkUserView (Some u) oidc scim) -> si_Email row = ur_Email u ->
  validProviderSlug slug = true -> validBoundedText externalID maxSCIMExternalIDBytes = true ->
  (forall k i, scim !! k = Some i -> k.1 <> slug) ->
  user_ok id (mkUserView (Some u) oidc (<[(slug, externalID) := row]> scim)).
Proof.
  intros [Hr _ Ho Hok Hs Hsk] He H1 H2 Hfree. split; cbn in *; try done.
  - intros k i [[<- <-]|[_ Hk]]%lookup_insert_Some; [cbn; rewrite He|by apply Hs]. by split_and!.
  - intros k k' i i' [[<- <-]|[_ Hk]]%lookup_insert_Some [[<- <-]|[_ Hk']]%lookup_insert_Some Heq; [done| | |by eapply Hsk].
    + by destruct (Hfree _ _ Hk').
    + by destruct (Hfree _ _ Hk).
Qed.

Lemma user_ok_email id u u' oidc scim email now :
  user_ok id (mkUserView (Some u) oidc scim) -> is_canonical_email email = true -> ur_Email u' = email ->
  ur_SessionVersion u' = ur_SessionVersion u -> 1 <= ur_ProjectionVersion u' ->
  user_ok id (mkUserView (Some u') (with_oidc_email email now <$> oidc) (with_scim_email email now <$> scim)).
Proof.
  intros [Hr _ Ho Hok Hs Hsk] Hc He Hsv Hv. destruct (Hr u eq_refl) as (Hid & _ & Hv1 & _).
  split; cbn in *; try done.
  - intros x [= <-]. by rewrite He, Hsv.
  - intros k i. rewrite lookup_fmap, fmap_Some. intros (i0 & Hk & ->). cbn. rewrite He. split; [done|]. by apply (Ho k i0).
  - intros k k' i i'. rewrite !lookup_fmap, !fmap_Some. intros (i0 & Hk & ->) (i1 & Hk' & ->). cbn. by eapply Hok.
  - intros k i. rewrite lookup_fmap, fmap_Some. intros (i0 & Hk & ->). cbn. rewrite He. split; [done|]. by apply (Hs k i0).
  - intros k k' i i'. rewrite !lookup_fmap, !fmap_Some. intros (i0 & Hk & ->) (i1 & Hk' & ->). by eapply Hsk.
Qed.

(** A step keeps its user coherent. *)
Lemma user_step_ok id version now payload t t' :
  1 <= version -> user_step id version now payload t t' -> user_ok id (user_view t id) -> user_ok id (user_view t' id).
Proof.
  intros Hv1 [Hid _ Ha He _ _ _ _] Hok. revert Ha He. generalize (user_view t' id) as v'. intros v'. destruct (user_view t id) as [row oidc scim] eqn:Hview.
  assert (row = dt_users t !! id /\ oidc = owned oi_UserID id (dt_oidc t) /\ scim = owned si_UserID id (dt_scim t)) as (Hrow & Hoidc & Hscim)
    by (unfold user_view in Hview; by injection Hview as <- <- <-).
  destruct row as [u|]; [pose proof (uo_row _ _ Hok u eq_refl) as (_ & _ & Hs & _)|]; destruct payload; try done;
    cbn [user_admissible user_effect uv_user uv_oidc uv_scim moved]; intros Ha;
    try match goal with |- context [if ?b then _ else _] => destruct b eqn:Eb; [|done] end; intros [= <-].
  - destruct Ha as [Hc _]. by apply (user_ok_email id u).
  - apply no_user_ok.
  - by apply (user_ok_row id u).
  - destruct Ha as (H1 & H2 & H3 & Hem & _ & Hfree). rewrite <- Hrow in Hem. injection Hem as <-.
    apply user_ok_oidc with (slug := ProviderSlug); [by apply (user_ok_row id u)|done..|].
    intros k i. rewrite Hoidc, owned_lookup. intros [Hk Ho]. by apply (Hfree k i).
  - apply Z.ltb_lt in Eb. apply (user_ok_row id u); cbn; [done|done|lia|done].
  - apply Z.ltb_lt in Eb. apply (user_ok_row id u); cbn; [done|done|lia|done].
  - apply Z.ltb_lt in Eb. apply (user_ok_unlink id _ oidc scim); [|apply delete_subseteq|done].
    apply (user_ok_row id u); cbn; [done|done|lia|done].
  - destruct Ha as (H1 & H2 & Hem & _ & Hfree). rewrite <- Hrow in Hem. injection Hem as <-.
    apply user_ok_scim; [by apply (user_ok_row id u)|done..|].
    intros k i. rewrite Hscim, owned_lookup. intros [Hk Ho]. by apply (Hfree k i).
  - apply (user_ok_unlink id _ oidc scim); [|done|apply delete_subseteq]. by apply (user_ok_row id u).
  - apply no_user_ok.
  - destruct Ha as [Hc _]. destruct (uo_none _ _ Hok eq_refl) as [Hn1 Hn2]. cbn in Hn1, Hn2. rewrite Hn1, Hn2. apply Z.eqb_eq in Eb as ->.
    split; cbn; try done; try (intros *; by rewrite lookup_empty). by intros u [= <-].
Qed.

(** ** The members of a group *)

Lemma elem_of_members g u m : u ∈ members_of g m <-> is_Some (m !! (g, u)).
Proof.
  unfold members_of. rewrite sort_strings_perm, list_elem_of_fmap. split.
  - intros ([g' u'] & -> & Hin). apply list_elem_of_fmap in Hin as ([[g2 u2] v] & [= -> ->] & Hin).
    apply elem_of_map_to_list, map_lookup_filter_Some in Hin as [Hm He]. cbn in He. subst. by exists v.
  - intros [v Hv]. exists (g, u). split; [done|]. apply list_elem_of_fmap. exists ((g, u), v). split; [done|].
    by apply elem_of_map_to_list, map_lookup_filter_Some.
Qed.

Lemma members_nodup g m : NoDup (members_of g m).
Proof.
  unfold members_of. rewrite sort_strings_perm. apply NoDup_fmap_2_strong; [|apply NoDup_fst_map_to_list].
  intros [g1 u1] [g2 u2] H1 H2 Heq.
  apply list_elem_of_fmap in H1 as ([[a b] v1] & E1 & H1%elem_of_map_to_list). apply list_elem_of_fmap in H2 as ([[c d] v2] & E2 & H2%elem_of_map_to_list).
  apply map_lookup_filter_Some in H1 as [_ H1], H2 as [_ H2]. cbn in *. by simplify_eq.
Qed.

Lemma member_count_le g m l : (forall u, is_Some (m !! (g, u)) -> u ∈ l) -> zlen (members_of g m) <= zlen l.
Proof.
  intros Hl. unfold zlen. apply inj_le, submseteq_length, NoDup_submseteq; [apply members_nodup|].
  intros u Hu%elem_of_members. by apply Hl.
Qed.

(** ** The invariant *)

Definition group_ok (id : string) (g : SCIMGroupRow) : Prop :=
  is_canonical_user id = true /\ validProviderSlug (sg_ProviderSlug g) = true
  /\ validBoundedText (sg_ExternalID g) maxSCIMExternalIDBytes = true
  /\ validBoundedText (sg_DisplayName g) maxSCIMGroupDisplayNameBytes = true /\ 1 <= sg_ProjectionVersion g.

Definition managed_ok (id : string) (g : UserGroupRow) : Prop :=
  is_canonical_user id = true /\ valid_utf8 (ug_Name g) = true /\ 1 <= len (ug_Name g) <= maxUserGroupNameBytes
  /\ 1 <= ug_ProjectionVersion g.

(** An event of a user, in the log. *)
Definition logged (db : DirDB) (id : string) (payload : directoryPayload) : Prop :=
  exists row, row ∈ td_log db /\ of_stream userStreamType id row /\ te_Payload (ty_Event row) = payload.

Record dir_inv (db : DirDB) : Prop := {
  di_contiguous : typed_contiguous (td_log db);
  di_users : forall id, user_ok id (user_view (td_tables db) id);
  di_user_version : forall id u, dt_users (td_tables db) !! id = Some u ->
    ur_ProjectionVersion u = typed_version userStreamType id (td_log db);
  di_emails : forall id j u u', dt_users (td_tables db) !! id = Some u -> dt_users (td_tables db) !! j = Some u' ->
    ur_Email u = ur_Email u' -> id = j;
  di_deleted : forall id, logged db id userManagedDeleted ->
    dt_users (td_tables db) !! id = None /\ forall g, dt_managed_members (td_tables db) !! (g, id) = None;
  di_providers : forall slug p, dt_providers (td_tables db) !! slug = Some p -> is_ok (validateSCIMProviderProjection slug p) = true;
  di_groups : forall id g, dt_groups (td_tables db) !! id = Some g ->
    group_ok id g /\ sg_ProjectionVersion g = typed_version scimGroupStreamType id (td_log db);
  di_group_keys : forall id j g g', dt_groups (td_tables db) !! id = Some g -> dt_groups (td_tables db) !! j = Some g' ->
    sg_ProviderSlug g = sg_ProviderSlug g' -> sg_ExternalID g = sg_ExternalID g' -> id = j;
  di_members : forall g u, is_Some (dt_members (td_tables db) !! (g, u)) ->
    is_Some (dt_groups (td_tables db) !! g) /\ is_Some (dt_users (td_tables db) !! u);
  di_member_count : forall g, zlen (members_of g (dt_members (td_tables db))) <= maxSCIMGroupMembers;
  di_managed : forall id g, dt_managed (td_tables db) !! id = Some g ->
    managed_ok id g /\ ug_ProjectionVersion g = typed_version userGroupStreamType id (td_log db);
  di_managed_keys : forall id j g g', dt_managed (td_tables db) !! id = Some g -> dt_managed (td_tables db) !! j = Some g' ->
    ug_Name g = ug_Name g' -> id = j;
  di_managed_members : forall g u, is_Some (dt_managed_members (td_tables db) !! (g, u)) ->
    is_Some (dt_managed (td_tables db) !! g) /\ is_canonical_user u = true
    /\ (is_Some (dt_users (td_tables db) !! u) \/ logged db u scimUserDeprovisioned);
  di_managed_count : forall g, zlen (members_of g (dt_managed_members (td_tables db))) <= maxUserGroupMembers;
}.

(** The log after an append. *)
Lemma logged_snoc db row id payload tables :
  logged (mkTypedDB (td_log db ++ [row]) tables) id payload
  <-> logged db id payload \/ of_stream userStreamType id row /\ te_Payload (ty_Event row) = payload.
Proof.
  unfold logged; cbn [td_log]. setoid_rewrite elem_of_app. setoid_rewrite list_elem_of_singleton. naive_solver.
Qed.

Lemma logged_version db id payload : typed_contiguous (td_log db) -> logged db id payload -> 0 < typed_version userStreamType id (td_log db).
Proof. intros Hc (row & Hin & [<- <-] & _). by apply typed_version_pos. Qed.

(** ** Appends keep it *)

(** What an effect says of the row it leaves. *)
Lemma effect_row id version now payload v v' u' :
  user_effect id version now payload v = Some v' -> uv_user v' = Some u' ->
  ur_ProjectionVersion u' = version
  /\ (payload = userCreated (ur_Email u') \/ payload = userManagedUpdated (ur_Email u') \/ ur_Email <$> uv_user v = Some (ur_Email u')).
Proof.
  destruct v as [[u|] oidc scim], payload; cbn; try done;
    try (case_match; [|done]); intros [= <-]; cbn; try done; intros [= <-]; cbn; auto.
Qed.

Lemma effect_gone id version now payload v v' :
  user_effect id version now payload v = Some v' -> uv_user v' = None ->
  payload = userManagedDeleted \/ payload = scimUserDeprovisioned.
Proof.
  destruct v as [[u|] oidc scim], payload; cbn; try done; try (case_match; [|done]); intros [= <-]; cbn; auto; done.
Qed.

Section Append.
Context (db : DirDB) (HI : dir_inv db) (event : DirEvent) (now : time) (tables : DirTables).
Notation t := (td_tables db).
Notation id := (te_StreamID event).
Notation version := (typed_version (te_StreamType event) (te_StreamID event) (td_log db) + 1).
Notation row := (mkTypedRow event version now).
Notation db' := (mkTypedDB (td_log db ++ [row]) tables).

Lemma next_contiguous : typed_contiguous (td_log db').
Proof. apply typed_contiguous_snoc, HI. Qed.

Lemma next_version stype sid :
  typed_version stype sid (td_log db') = if decide (of_stream stype sid row) then version else typed_version stype sid (td_log db).
Proof. apply typed_version_snoc; [apply HI|done]. Qed.

Lemma next_version_same sid : sid = id -> typed_version (te_StreamType event) sid (td_log db') = version.
Proof. intros ->. by rewrite next_version, decide_True. Qed.

Lemma next_version_other stype sid :
  stype <> te_StreamType event \/ sid <> id -> typed_version stype sid (td_log db') = typed_version stype sid (td_log db).
Proof. intros Hne. rewrite next_version, decide_False; [done|]. intros [? ?]. cbn in *. naive_solver. Qed.

Lemma version_positive : 1 <= version.
Proof. pose proof (typed_version_nonneg (te_StreamType event) (te_StreamID event) (td_log db)). lia. Qed.

Lemma user_append_inv :
  te_StreamType event = userStreamType -> user_step id version now (te_Payload event) t tables -> dir_inv db'.
Proof.
  intros Hs Hstep. pose proof (user_step_ok _ _ _ _ _ _ version_positive Hstep (di_users _ HI id)) as Hok.
  destruct Hstep as [Hid Hver Ha He Hother (Hp & Hg & Hm) Hmem Hman].
  assert (forall j, j <> id -> dt_users tables !! j = dt_users t !! j) as Hrow by (intros j Hj; exact (f_equal uv_user (Hother j Hj))).
  assert (forall stype sid, stype <> userStreamType -> typed_version stype sid (td_log db') = typed_version stype sid (td_log db)) as Hnv
    by (intros stype sid Hst; apply next_version_other; left; congruence).
  assert (forall g u, is_Some (dt_members tables !! (g, u)) -> is_Some (dt_members t !! (g, u)) /\ (u = id -> is_Some (dt_users tables !! id))) as Hsub.
  { intros g u. rewrite Hmem. destruct (dt_users tables !! id) as [u'|]; [done|]. intros [v [Hv Hne]%map_lookup_filter_Some].
    cbn in Hne. split; [by exists v|done]. }
  assert (forall g u, is_Some (dt_managed_members tables !! (g, u)) ->
            is_Some (dt_managed_members t !! (g, u)) /\ (te_Payload event = userManagedDeleted -> u <> id)) as Hsubm.
  { intros g u. rewrite Hman. destruct (te_Payload event); try done. intros [v [Hv Hne]%map_lookup_filter_Some]. split; [by exists v|done]. }
  split; cbn [td_tables]; rewrite ?Hp, ?Hg, ?Hm.
  - apply next_contiguous.
  - intros j. destruct (decide (j = id)) as [->|Hj]; [exact Hok|]. rewrite Hother by done. apply HI.
  - intros j u Hu. destruct (decide (j = id)) as [->|Hj].
    + apply (effect_row _ _ _ _ _ _ u) in He as [-> _]; [|exact Hu]. symmetry. rewrite <- Hs at 1. by apply next_version_same.
    + rewrite next_version_other by by right. apply HI. by rewrite <- Hrow.
  - assert (forall j u u', j <> id -> dt_users tables !! id = Some u -> dt_users t !! j = Some u' -> ur_Email u <> ur_Email u') as Hnew.
    { intros j u u' Hj Hu Hu' Heq. apply (effect_row _ _ _ _ _ _ u) in He as [_ [Hc|[Hc|Hc]]]; [| | |exact Hu].
      - rewrite Hc in Ha. destruct Ha as [_ Ha]. by apply (Ha j u').
      - rewrite Hc in Ha. destruct Ha as [_ Ha]. by apply (Ha j u').
      - cbn in Hc. apply fmap_Some in Hc as (u0 & Hu0 & Hem). apply Hj. symmetry. apply (di_emails _ HI id j u0 u'); congruence. }
    intros i j u u' Hu Hu' Heq. destruct (decide (i = id)) as [->|Hi], (decide (j = id)) as [->|Hj]; [done| | |].
    + rewrite Hrow in Hu' by done. by destruct (Hnew j u u' Hj Hu Hu').
    + rewrite Hrow in Hu by done. by destruct (Hnew i u' u Hi Hu' Hu).
    + rewrite Hrow in Hu, Hu' by done. by apply (di_emails _ HI i j u u').
  - intros j [Hl|[[_ Hj] Hpl]]%logged_snoc.
    + pose proof (di_deleted _ HI j Hl) as [Hn Hg0]. pose proof (logged_version db j _ (di_contiguous _ HI) Hl) as Hv. split.
      * destruct (decide (j = id)) as [->|Hj]; [|by rewrite Hrow]. rewrite Hn in Hver. rewrite Hs in Hver. lia.
      * intros g. apply eq_None_not_Some. intros [Hsome _]%Hsubm. by rewrite Hg0 in Hsome; destruct Hsome.
    + cbn in Hj, Hpl. subst j. split.
      * rewrite Hpl in He. unfold user_effect in He. destruct (uv_user _); [|done]. by injection He as He.
      * intros g. apply eq_None_not_Some. intros [_ Hne]%Hsubm. by apply Hne.
  - apply HI.
  - intros j g Hj. rewrite Hnv by done. by apply HI.
  - apply HI.
  - intros g u [Hold Hlive]%Hsub. split; [by apply (di_members _ HI g u)|].
    destruct (decide (u = id)) as [->|Hu]; [by apply Hlive|]. rewrite Hrow by done. by apply (di_members _ HI g u).
  - intros g. etrans; [|apply (di_member_count _ HI g)]. apply member_count_le. intros u [Hold _]%Hsub. by apply elem_of_members.
  - intros j g Hj. rewrite Hnv by done. by apply HI.
  - apply HI.
  - intros g u [Hold Hne]%Hsubm. destruct (di_managed_members _ HI g u Hold) as (Hgr & Hc & Hl). split; [done|]. split; [done|].
    rewrite logged_snoc. destruct (decide (u = id)) as [->|Hu].
    + destruct (dt_users tables !! id) as [u'|] eqn:Hgone; [by left; eexists|]. right.
      destruct (effect_gone _ _ _ _ _ _ He Hgone) as [Hc'|Hc']; [by destruct (Hne Hc')|]. right. by split.
    + rewrite Hrow by done. destruct Hl as [?|?]; [by left|by right; left].
  - intros g. etrans; [|apply (di_managed_count _ HI g)]. apply member_count_le. intros u [Hold _]%Hsubm. by apply elem_of_members.
Qed.

(** Events of other streams leave what is logged of the users. *)
Lemma logged_same j payload : te_StreamType event <> userStreamType -> logged db' j payload -> logged db j payload.
Proof. intros Hs [Hl|[[Hst _] _]]%logged_snoc; [done|]. by cbn in Hst. Qed.

Lemma logged_more j payload : logged db j payload -> logged db' j payload.
Proof. intros Hl. apply logged_snoc. by left. Qed.

Lemma group_effect_version payload g g' :
  group_effect version now payload g = Some (Some g') -> sg_ProjectionVersion g' = version.
Proof. destruct g, payload; cbn; try done; try (case_match; [|done]); by intros [= <-]. Qed.

Lemma group_effect_ok payload g g' :
  group_effect version now payload g = Some (Some g') -> scim_group_admissible false id payload t ->
  (forall g0, g = Some g0 -> group_ok id g0) -> group_ok id g'.
Proof.
  pose proof version_positive as Hv.
  destruct g as [g|], payload; cbn; try done; try (case_match; [|done]); intros [= <-] Ha Hold; unfold group_ok; cbn.
  - naive_solver.
  - destruct (Hold g eq_refl) as (? & ? & ? & ? & _). by split_and!.
  - naive_solver.
Qed.

(** The external identifier of a group that an event leaves is its own. *)
Lemma group_effect_key payload g' :
  group_effect version now payload (dt_groups t !! id) = Some (Some g') -> scim_group_admissible false id payload t ->
  forall j h, j <> id -> dt_groups t !! j = Some h -> sg_ProviderSlug g' = sg_ProviderSlug h -> sg_ExternalID g' = sg_ExternalID h -> False.
Proof.
  destruct (dt_groups t !! id) as [g|] eqn:Hg, payload; cbn; try done; try (case_match; [|done]); intros [= <-] Ha j h Hj Hh H1 H2; cbn in *.
  - destruct Ha as (_ & _ & _ & _ & Ha). by apply (Ha j h).
  - apply Hj. symmetry. by apply (di_group_keys _ HI id j g h).
  - destruct Ha as (_ & _ & _ & _ & Ha). by apply (Ha j h).
Qed.

Lemma scim_group_append_inv :
  te_StreamType event = scimGroupStreamType -> scim_group_step false id version now (te_Payload event) t tables -> dir_inv db'.
Proof.
  intros Hs [_ Ha He Hother Hmem (Hu & Ho & Hsc & Hp & Hm & Hmm)].
  assert (forall stype sid, stype <> scimGroupStreamType -> typed_version stype sid (td_log db') = typed_version stype sid (td_log db)) as Hnv
    by (intros stype sid Hst; apply next_version_other; left; congruence).
  assert (te_StreamType event <> userStreamType) as Hnu by by rewrite Hs.
  assert (forall j, user_view tables j = user_view t j) as Hview by (intros j; unfold user_view; by rewrite Hu, Ho, Hsc).
  split; cbn [td_tables]; rewrite ?Hu, ?Hp, ?Hm, ?Hmm.
  - apply next_contiguous.
  - intros j. rewrite Hview. apply HI.
  - intros j u Hj. rewrite Hnv by done. by apply HI.
  - apply HI.
  - intros j Hl%logged_same; [|done]. by apply HI.
  - apply HI.
  - intros j g Hg. destruct (decide (j = id)) as [->|Hj].
    + rewrite Hg in He. split; [apply (group_effect_ok _ _ _ He Ha); intros g0 Hg0; by apply HI|].
      rewrite (group_effect_version _ _ _ He). pose proof (next_version_same id eq_refl) as Hv. rewrite Hs in Hv |- *. by rewrite Hv.
    + rewrite next_version_other by by right. apply HI. by rewrite <- Hother.
  - intros i j g g' Hg Hg' H1 H2. destruct (decide (i = id)) as [->|Hi], (decide (j = id)) as [->|Hj]; [done| | |].
    + rewrite Hg in He. rewrite Hother in Hg' by done. by destruct (group_effect_key _ _ He Ha j g').
    + rewrite Hg' in He. rewrite Hother in Hg by done. by destruct (group_effect_key _ _ He Ha i g).
    + rewrite Hother in Hg, Hg' by done. by apply (di_group_keys _ HI i j g g').
  - intros g u [v Hv%Hmem]. revert Hv. case_decide as Hg; [subst g|]; intros Hv.
    + assert (is_Some (dt_members t !! (id, u)) \/ exists ids, te_Payload event = scimGroupMembershipsReplaced ids /\ is_Some (dt_users t !! u)) as Hor.
      { destruct (te_Payload event); cbn in Hv; try (left; by exists v); try done. right. exists UserIDs. by destruct Hv as (_ & ? & _). }
      split; [|destruct Hor as [Hor|(ids & _ & Hor)]; [by apply (di_members _ HI id u)|done]].
      revert He Hv. destruct (dt_groups tables !! id) as [g'|]; [by exists g'|].
      destruct (dt_groups t !! id) as [g|], (te_Payload event); cbn; try done; by case_match.
    + rewrite Hother by done. apply (di_members _ HI g u). by exists v.
  - intros g. destruct (decide (g = id)) as [->|Hg].
    + assert ((exists ids, te_Payload event = scimGroupMembershipsReplaced ids) \/ forall u, is_Some (dt_members tables !! (id, u)) -> is_Some (dt_members t !! (id, u))) as [[ids Hpl]|Hsub].
      { destruct (te_Payload event); try (right; intros u [v Hv%Hmem]; rewrite decide_True in Hv by done; (done || by exists v)). left. by exists UserIDs. }
      * rewrite Hpl in Ha. destruct Ha as (Hlen & _). etrans; [|exact Hlen]. apply member_count_le. intros u [v Hv%Hmem].
        rewrite decide_True in Hv by done. rewrite Hpl in Hv. apply Hv.
      * etrans; [|apply (di_member_count _ HI id)]. apply member_count_le. intros u Hold%Hsub. by apply elem_of_members.
    + etrans; [|apply (di_member_count _ HI g)]. apply member_count_le. intros u [v Hv%Hmem]. rewrite decide_False in Hv by done.
      apply elem_of_members. by exists v.
  - intros j g Hg. rewrite Hnv by done. by apply HI.
  - apply HI.
  - intros g u Hold. destruct (di_managed_members _ HI g u Hold) as (Hgr & Hc & Hl). split; [done|]. split; [done|].
    destruct Hl as [?|Hl]; [by left|right]. by apply logged_more.
  - apply HI.
Qed.

Lemma managed_effect_row payload g g' :
  managed_effect version now payload g = Some (Some g') ->
  ug_ProjectionVersion g' = version
  /\ exists ids, payload = userGroupCreated (ug_Name g') ids \/ payload = userGroupUpdated (ug_Name g') ids
                 \/ payload = userGroupMetadataUpdated (ug_Name g') ids.
Proof.
  destruct g as [g|], payload; cbn; try done; try (case_match; [|done]); intros [= <-]; (split; [done|]); exists MemberUserIDs; cbn; auto.
Qed.

(** The canonical members that an event names are users. *)
Lemma named_members ids members u :
  map_result canonicalUserID ids = Ok members -> (exists i, i ∈ ids /\ canonicalUserID i = Ok u) ->
  Forall (fun u => is_Some (dt_users t !! u)) members -> is_Some (dt_users t !! u) /\ is_canonical_user u = true /\ u ∈ members.
Proof.
  intros Hm Hin Hf. pose proof (proj2 (members_made ids members u Hm) Hin) as Hu. split; [by eapply Forall_forall in Hf|]. split; [|done].
  eapply Forall_forall in Hf as [r Hr]; [|exact Hu]. by apply (uo_row _ _ (di_users _ HI u) r Hr).
Qed.

(** Who may be a member of the group afterwards. *)
Lemma managed_after_ok payload u v :
  managed_admissible id payload t -> managed_after version payload (fun v => dt_managed_members t !! (id, u) = Some v) u v ->
  is_Some (dt_managed_members t !! (id, u)) \/ is_Some (dt_users t !! u) /\ is_canonical_user u = true.
Proof.
  destruct payload; cbn; try (intros _ Hv; left; by exists v); try done.
  - intros (_ & _ & _ & members & Hm & _ & _ & Hf) [Hv|[Hin _]]; [left; by exists v|right].
    by destruct (named_members _ _ _ Hm Hin Hf) as (? & ? & _).
  - intros (_ & _ & _ & members & Hm & _ & _ & Hf) [Hin _]. right. by destruct (named_members _ _ _ Hm Hin Hf) as (? & ? & _).
Qed.

Lemma no_managed_members g : dt_managed t !! g = None -> forall u v, dt_managed_members t !! (g, u) = Some v -> False.
Proof. intros Hg u v Hv. destruct (di_managed_members _ HI g u ltac:(by exists v)) as [[x Hx] _]. congruence. Qed.

Lemma managed_after_count payload :
  managed_admissible id payload t -> is_Some (managed_effect version now payload (dt_managed t !! id)) ->
  exists l, zlen l <= maxUserGroupMembers
    /\ forall u v, managed_after version payload (fun v => dt_managed_members t !! (id, u) = Some v) u v -> u ∈ l.
Proof.
  assert (exists l, zlen l <= maxUserGroupMembers /\ forall u v, dt_managed_members t !! (id, u) = Some v -> u ∈ l) as (old & Hlo & Hold).
  { exists (members_of id (dt_managed_members t)). split; [apply HI|]. intros u v Hv. apply elem_of_members. by exists v. }
  destruct payload as [| | | | | | | | | | | | | | | | | | |name ids|name ids| |]; cbn; intros Ha He; try (exists old; split; [done|]; intros u v Hv; first [done|by apply (Hold u v)]).
  - destruct Ha as (_ & _ & _ & members & Hm & _ & Hlm & Hf). exists members. split; [done|]. intros u v [Hv|[Hin _]].
    + destruct (dt_managed t !! id) as [g|] eqn:Hg; [by destruct He|]. by apply (no_managed_members id Hg u) in Hv.
    + by destruct (named_members _ _ _ Hm Hin Hf) as (_ & _ & ?).
  - destruct Ha as (_ & _ & _ & members & Hm & _ & Hlm & Hf). exists members. split; [done|]. intros u v [Hin _].
    by destruct (named_members _ _ _ Hm Hin Hf) as (_ & _ & ?).
Qed.

Lemma managed_append_inv :
  is_canonical_user id = true ->
  te_StreamType event = userGroupStreamType -> managed_step id version now (te_Payload event) t tables -> dir_inv db'.
Proof.
  intros Hid Hs [_ Ha He Hother Hmem (Hu & Ho & Hsc & Hp & Hg & Hm)].
  assert (forall stype sid, stype <> userGroupStreamType -> typed_version stype sid (td_log db') = typed_version stype sid (td_log db)) as Hnv
    by (intros stype sid Hst; apply next_version_other; left; congruence).
  assert (te_StreamType event <> userStreamType) as Hnu by by rewrite Hs.
  assert (forall j, user_view tables j = user_view t j) as Hview by (intros j; unfold user_view; by rewrite Hu, Ho, Hsc).
  assert (forall g u, is_Some (dt_managed_members tables !! (g, u)) ->
            is_Some (dt_managed_members t !! (g, u)) \/ g = id /\ is_Some (dt_users t !! u) /\ is_canonical_user u = true) as Hwho.
  { intros g u [v Hv%Hmem]. revert Hv. case_decide as Hj; [subst g|intros Hv; left; by exists v]. intros Hv.
    destruct (managed_after_ok _ _ _ Ha Hv) as [?|?]; [by left|by right]. }
  split; cbn [td_tables]; rewrite ?Hu, ?Hp, ?Hg, ?Hm.
  - apply next_contiguous.
  - intros j. rewrite Hview. apply HI.
  - intros j u Hj. rewrite Hnv by done. by apply HI.
  - apply HI.
  - intros j Hl%logged_same; [|done]. destruct (di_deleted _ HI j Hl) as [Hn Hnm]. split; [done|]. intros g.
    apply eq_None_not_Some. intros [Hsome|(_ & [x Hx] & _)]%Hwho; [by rewrite Hnm in Hsome; destruct Hsome|congruence].
  - apply HI.
  - intros j g Hj. rewrite Hnv by done. by apply HI.
  - apply HI.
  - apply HI.
  - apply HI.
  - intros j g Hj. destruct (decide (j = id)) as [->|Hne].
    + rewrite Hj in He. destruct (managed_effect_row _ _ _ He) as [Hv (ids & Hpl)]. split.
      * assert (valid_utf8 (ug_Name g) = true /\ 1 <= len (ug_Name g) <= maxUserGroupNameBytes) as [H1 H2].
        { destruct Hpl as [Hpl|[Hpl|Hpl]]; rewrite Hpl in Ha; by destruct Ha as (H1 & H2 & _). }
        split; [done|]. split; [done|]. split; [done|]. rewrite Hv. apply version_positive.
      * rewrite Hv. pose proof (next_version_same id eq_refl) as Hx. rewrite Hs in Hx |- *. by rewrite Hx.
    + rewrite next_version_other by by right. apply HI. by rewrite <- Hother.
  - assert (forall j g g', j <> id -> dt_managed tables !! id = Some g -> dt_managed t !! j = Some g' -> ug_Name g' <> ug_Name g) as Hnew.
    { intros j g g' Hj Hgi Hgj. rewrite Hgi in He. destruct (managed_effect_row _ _ _ He) as [_ (ids & Hpl)].
      destruct Hpl as [Hpl|[Hpl|Hpl]]; rewrite Hpl in Ha; destruct Ha as (_ & _ & Hfree & _); by apply (Hfree j g'). }
    intros i j g g' Hgi Hgj Heq. destruct (decide (i = id)) as [->|Hi], (decide (j = id)) as [->|Hj]; [done| | |].
    + rewrite Hother in Hgj by done. by destruct (Hnew j g g' Hj Hgi Hgj).
    + rewrite Hother in Hgi by done. by destruct (Hnew i g' g Hi Hgj Hgi).
    + rewrite Hother in Hgi, Hgj by done. by apply (di_managed_keys _ HI i j g g').
  - intros g u Hsome. pose proof Hsome as [v Hv%Hmem]. split.
    + revert Hv. case_decide as Hj; [subst g|intros Hv; rewrite Hother by done; by apply (di_managed_members _ HI g u); exists v].
      intros Hv. revert He Hv. destruct (dt_managed tables !! id) as [g'|]; [by exists g'|].
      destruct (dt_managed t !! id) as [g|], (te_Payload event); cbn; try done; by case_match.
    + destruct (Hwho g u Hsome) as [Hold|(_ & Hl & Hc)]; [|by split; [|left]].
      destruct (di_managed_members _ HI g u Hold) as (_ & Hc & Hl). split; [done|].
      destruct Hl as [?|Hl]; [by left|right; by apply logged_more].
  - intros g. destruct (decide (g = id)) as [->|Hj].
    + destruct (managed_after_count _ Ha) as (l & Hlen & Hl); [by rewrite He; eexists|]. etrans; [|exact Hlen].
      apply member_count_le. intros u [v Hv%Hmem]. rewrite decide_True in Hv by done. by eapply Hl.
    + etrans; [|apply (di_managed_count _ HI g)]. apply member_count_le. intros u [v Hv%Hmem]. rewrite decide_False in Hv by done.
      apply elem_of_members. by exists v.
Qed.

Lemma provider_effect_ok payload p p' slug :
  provider_effect version now payload p = Some (Some p') -> 
  (forall p0, p = Some p0 -> is_ok (validateSCIMProviderProjection slug p0) = true) ->
  validProviderSlug slug = true ->
  match payload with
  | scimProviderCreated _ hash | scimProviderTokenRotated _ hash => is_ok (validateSCIMTokenHash hash) = true /\ len hash = 60
  | _ => True
  end -> is_ok (validateSCIMProviderProjection slug p') = true.
Proof.
  pose proof version_positive as Hv. assert (forall hash disabled, is_ok (validateSCIMTokenHash hash) = true -> validProviderSlug slug = true ->
    is_ok (validateSCIMProviderProjection slug (mkSCIMProviderRow hash disabled version now)) = true) as Hok.
  { intros hash disabled Hh Hs. unfold validateSCIMProviderProjection. cbn [sp_TokenHash sp_ProjectionVersion]. rewrite Hh, Hs.
    cbn [negb orb]. by rewrite (proj2 (Z.leb_gt _ 0)) by lia. }
  destruct p as [p|], payload; cbn; try done; intros [= <-] Hold Hs Hh; [by apply Hok; [apply Hh|]| |by apply Hok; [apply Hh|]].
  specialize (Hold p eq_refl). unfold validateSCIMProviderProjection in Hold.
  destruct (_ || _) eqn:E in Hold; [done|]. apply orb_false_iff in E as [[_ E%negb_false_iff]%orb_false_iff _]. by apply Hok.
Qed.

Lemma provider_append_inv :
  te_StreamType event = scimProviderStreamType -> provider_step id version now (te_Payload event) t tables -> dir_inv db'.
Proof.
  intros Hs [Hslug _ _ _ Hh He Hother (Hu & Ho & Hsc & Hg & Hm & Hgm & Hmm)].
  assert (forall stype sid, stype <> scimProviderStreamType -> typed_version stype sid (td_log db') = typed_version stype sid (td_log db)) as Hnv
    by (intros stype sid Hst; apply next_version_other; left; congruence).
  assert (te_StreamType event <> userStreamType) as Hnu by by rewrite Hs.
  assert (forall j, user_view tables j = user_view t j) as Hview by (intros j; unfold user_view; by rewrite Hu, Ho, Hsc).
  split; cbn [td_tables]; rewrite ?Hu, ?Hg, ?Hm, ?Hgm, ?Hmm; try apply HI.
  - apply next_contiguous.
  - intros j. rewrite Hview. apply HI.
  - intros j u Hj. rewrite Hnv by done. by apply HI.
  - intros j Hl%logged_same; [|done]. by apply HI.
  - intros slug p Hp. destruct (decide (slug = provider_of (te_Payload event))) as [->|Hne]; [|apply HI; by rewrite <- Hother].
    rewrite Hp in He. apply (provider_effect_ok _ _ _ _ He); [|done|done]. intros p0 Hp0. by apply HI.
  - intros j g Hj. rewrite Hnv by done. by apply HI.
  - intros j g Hj. rewrite Hnv by done. by apply HI.
  - intros g u Hold. destruct (di_managed_members _ HI g u Hold) as (Hgr & Hc & Hl). split; [done|]. split; [done|].
    destruct Hl as [?|Hl]; [by left|right]. by apply logged_more.
Qed.
End Append.

Lemma dir_inv_empty : dir_inv empty_directory.
Proof.
  split; cbn; try done; try (intros *; rewrite lookup_empty; done).
Qed.

(** Every event's projection is a step of its kind. *)
Lemma dir_append_inv db db' : dir_inv db -> dir_append db db' -> dir_inv db'.
Proof.
  intros HI (event & Hs & Hid & now & tables & _ & Hp & ->). cbv zeta in Hp. unfold projectDirectory in Hp. cbn [ty_Event ty_Version ty_CreatedAt] in Hp.
  destruct (decide (directory_stream (te_Payload event) = userStreamType)) as [Hk|Hk].
  { apply user_append_inv; [done|congruence|]. apply projectUser_step. revert Hp Hk. by destruct (te_Payload event). }
  destruct (decide (directory_stream (te_Payload event) = scimGroupStreamType)) as [Hk1|Hk1].
  { apply scim_group_append_inv; [done|congruence|]. by apply project_scim_group_step. }
  destruct (decide (directory_stream (te_Payload event) = userGroupStreamType)) as [Hk2|Hk2].
  { apply managed_append_inv; [done|done|congruence|]. by eapply project_managed_step. }
  assert (directory_stream (te_Payload event) = scimProviderStreamType) as Hk3 by (revert Hk Hk1 Hk2; by destruct (te_Payload event)).
  apply provider_append_inv; [done|congruence|]. by eapply project_provider_step.
Qed.

Lemma reachable_inv db : rtc dir_append empty_directory db -> dir_inv db.
Proof.
  intros H. assert (forall a b, rtc dir_append a b -> dir_inv a -> dir_inv b) as Hm; [|by apply (Hm _ _ H), dir_inv_empty].
  intros a b Hr. induction Hr; [done|]. eauto using dir_append_inv.
Qed.

(** ** Reads under the invariant *)

Lemma read_row_ok db id u :
  dir_inv db -> dt_users (td_tables db) !! id = Some u ->
  canonicalUserID id = Ok id
  /\ validateUserProjection id u = Ok (mkStoredUser id (ur_Email u) (ur_SessionVersion u) (ur_Disabled u) (ur_ProjectionVersion u)).
Proof.
  intros HI Hu. destruct (uo_row _ _ (di_users _ HI id) u Hu) as (Hid & Hem & Hs & Hv). split; [by apply canonical_id|].
  unfold validateUserProjection. rewrite Hid, Hem. cbn. by rewrite (proj2 (Z.leb_gt _ 0)), (proj2 (Z.leb_gt _ 0)) by lia.
Qed.

Lemma read_group_ok db id g :
  dir_inv db -> dt_groups (td_tables db) !! id = Some g ->
  validateSCIMGroup id g (members_of id (dt_members (td_tables db)))
  = Ok (mkSCIMGroup id (sg_ProviderSlug g) (sg_ExternalID g) (sg_DisplayName g) (members_of id (dt_members (td_tables db))) (sg_ProjectionVersion g)).
Proof.
  intros HI Hg. destruct (di_groups _ HI id g Hg) as [(H1 & H2 & H3 & H4 & Hv) _]. unfold validateSCIMGroup. rewrite H1, H2, H3, H4.
  rewrite (proj2 (Z.leb_gt _ 0)) by lia. rewrite (proj2 (Z.ltb_ge _ _)) by apply HI. cbn [negb orb fail_if mbind result_bind].
  assert (check_each (fun member => fail_if (negb (is_canonical_user member)) (EMsg "store: SCIM group member projection is invalid"))
            (members_of id (dt_members (td_tables db))) = Ok tt) as ->; [|done].
  apply check_each_ok. apply Forall_forall. intros u [_ [x Hx]]%elem_of_members%(di_members _ HI).
  by destruct (uo_row _ _ (di_users _ HI u) x Hx) as [-> _].
Qed.

(** ** Sessions *)

(** The events after which no older session of their user may go on. *)
Definition invalidates (payload : directoryPayload) : bool :=
  match payload with
  | userDisabled | roleRevoked _ | oidcIdentityUnlinked _ _ _ | scimUserDeprovisioned | userManagedDeleted => true
  | _ => false
  end.

(** The user's sessions up to a version are over: the stream has begun, and the
    row, if there is one, has a later version. *)
Definition retired (id : string) (n : Z) (db : DirDB) : Prop :=
  0 < typed_version userStreamType id (td_log db)
  /\ forall u, dt_users (td_tables db) !! id = Some u -> n < ur_SessionVersion u.

(** What an effect does to the session version. *)
Lemma effect_session id version now payload v v' u' :
  user_effect id version now payload v = Some v' -> uv_user v' = Some u' ->
  match uv_user v with
  | None => version = 1
  | Some u => if invalidates payload then ur_SessionVersion u' = ur_SessionVersion u + 1 else ur_SessionVersion u' = ur_SessionVersion u
  end.
Proof.
  destruct v as [[u|] oidc scim], payload; cbn; try done; try (case_match; [|done]); intros [= <-]; cbn; try done; intros [= <-]; cbn; try done.
  by match goal with H : (_ =? 1) = true |- _ => apply Z.eqb_eq in H as -> end.
Qed.

(** An append is a step of its user, or leaves the users alone. *)
Lemma dir_append_users db db' :
  dir_inv db -> dir_append db db' ->
  exists event now tables, db' = mkTypedDB (td_log db ++ [mkTypedRow event (typed_version (te_StreamType event) (te_StreamID event) (td_log db) + 1) now]) tables
    /\ te_StreamType event = directory_stream (te_Payload event)
    /\ (te_StreamType event = userStreamType /\ user_step (te_StreamID event) (typed_version userStreamType (te_StreamID event) (td_log db) + 1) now
                                                   (te_Payload event) (td_tables db) tables
        \/ te_StreamType event <> userStreamType /\ dt_users tables = dt_users (td_tables db) /\ dt_oidc tables = dt_oidc (td_tables db)
           /\ dt_scim tables = dt_scim (td_tables db)).
Proof.
  intros HI (event & Hs & Hid & now & tables & _ & Hp & ->). cbv zeta in Hp. unfold projectDirectory in Hp. cbn [ty_Event ty_Version ty_CreatedAt] in Hp.
  exists event, now, tables. split; [done|]. split; [done|].
  destruct (decide (directory_stream (te_Payload event) = userStreamType)) as [Hk|Hk].
  { left. split; [congruence|]. rewrite Hs, Hk in Hp. apply projectUser_step. revert Hp Hk. by destruct (te_Payload event). }
  right. split; [congruence|].
  destruct (decide (directory_stream (te_Payload event) = scimGroupStreamType)) as [Hk1|Hk1].
  { destruct (project_scim_group_step _ _ _ _ _ _ _ Hk1 Hp) as [_ _ _ _ _ (? & ? & ? & _)]. by split_and!. }
  destruct (decide (directory_stream (te_Payload event) = userGroupStreamType)) as [Hk2|Hk2].
  { destruct (project_managed_step _ _ _ _ _ _ _ Hid Hk2 Hp) as [_ _ _ _ _ (? & ? & ? & _)]. by split_and!. }
  assert (directory_stream (te_Payload event) = scimProviderStreamType) as Hk3 by (revert Hk Hk1 Hk2; by destruct (te_Payload event)).
  destruct (project_provider_step _ _ _ _ _ _ _ Hk3 Hp) as [_ _ _ _ _ _ _ (? & ? & ? & _)]. by split_and!.
Qed.

(** Retired sessions stay retired: a user that is gone does not come back. *)
Lemma retired_append id n db db' : dir_inv db -> dir_append db db' -> retired id n db -> retired id n db'.
Proof.
  intros HI Ha [Hpos Hn]. destruct (dir_append_users _ _ HI Ha) as (event & now & tables & -> & _ & Hcase).
  split; cbn [td_log td_tables]; [eapply Z.lt_le_trans; [exact Hpos|apply typed_version_app]|]. intros u Hu.
  destruct Hcase as [[_ Hstep]|(_ & He & _)]; [|apply Hn; by rewrite <- He].
  destruct (decide (id = te_StreamID event)) as [->|Hne].
  - destruct Hstep as [_ _ _ He _ _ _ _]. pose proof (effect_session _ _ _ _ _ _ u He Hu) as Hs. cbn [user_view uv_user] in Hs.
    destruct (dt_users (td_tables db) !! _) as [u0|] eqn:Hu0; [|lia]. specialize (Hn u0 eq_refl). destruct (invalidates _); lia.
  - apply Hn. pose proof (f_equal uv_user (us_other _ _ _ _ _ _ Hstep id Hne)) as Ho. cbn in Ho. congruence.
Qed.

(** An invalidation retires the sessions of its user. *)
Lemma invalidation_retires event db db' u :
  dir_inv db -> te_StreamType event = userStreamType -> is_canonical_user (te_StreamID event) = true ->
  invalidates (te_Payload event) = true -> appended (projectDirectory false) event db db' ->
  dt_users (td_tables db) !! te_StreamID event = Some u -> retired (te_StreamID event) (ur_SessionVersion u) db'.
Proof.
  intros HI Hs Hid Hinv (now & tables & Hv & Hp & ->) Hu. cbv zeta in *. unfold projectDirectory in Hp. cbn [ty_Event ty_Version ty_CreatedAt] in Hp.
  assert (projectUser (te_StreamID event) (typed_version (te_StreamType event) (te_StreamID event) (td_log db) + 1) now (te_Payload event) (td_tables db) = Ok tables) as Hp'
    by (revert Hp Hinv; by destruct (te_Payload event)).
  apply projectUser_step in Hp'. destruct Hp' as [_ _ _ He _ _ _ _]. split; cbn [td_log td_tables].
  - rewrite <- Hs, (typed_version_snoc _ _ _ event _ now (di_contiguous _ HI) eq_refl), decide_True by done. lia.
  - intros u' Hu'. pose proof (effect_session _ _ _ _ _ _ u' He Hu') as Hsv. cbn [user_view uv_user] in Hsv. rewrite Hu, Hinv in Hsv. lia.
Qed.

(** ** Histories *)

(** A list of events with their times, appended one after the other. *)
Definition run_events (events : list (time * DirEvent)) (db : DirDB) : result goerr DirDB :=
  fold_result (fun db e => insert_typed (projectDirectory false) e.1 e.2
                             (typed_version (te_StreamType e.2) (te_StreamID e.2) (td_log db) + 1) db) db events.

Definition event_wf (event : DirEvent) : bool :=
  String.eqb (te_StreamType event) (directory_stream (te_Payload event)) && is_canonical_user (te_StreamID event).

Lemma run_events_reach events db db' :
  forallb (fun e => event_wf e.2) events = true -> run_events events db = Ok db' -> rtc dir_append db db'.
Proof.
  unfold run_events. revert db. induction events as [|[now event] events IH]; intros db; cbn [forallb fold_result].
  - intros _ [= <-]. apply rtc_refl.
  - intros [[Hs%String.eqb_eq Hid]%andb_true_iff Hall]%andb_true_iff (db1 & Hi & Hr)%bind_ok. eapply rtc_l; [|by apply IH].
    exists event. split; [done|]. split; [done|]. by eapply insert_typed_ok.
Qed.
End Invariant.

(** C27. The directory is consistent after any history of events: besides the
    coherence of its tables - emails that tell users apart, identities that belong
    to live users and carry their emails, members of provider groups that are live
    users of live groups, versions that are those of the streams - every read of
    something the tables hold succeeds: of a user, of a user by one of its
    identities, and of a group with its members. *)
Theorem directory_stays_consistent {unicode : UnicodeLower} {urls : URLs} {schemes : Schemes} {bcrypt : Bcrypt} db :
  rtc dir_append empty_directory db ->
  let t := td_tables db in
  dir_inv db
  /\ (forall id u, dt_users t !! id = Some u ->
        UserByID None id t = Ok (mkStoredUser id (ur_Email u) (ur_SessionVersion u) (ur_Disabled u) (ur_ProjectionVersion u)))
  /\ (forall issuer subject i, dt_oidc t !! (issuer, subject) = Some i ->
        exists u, UserByOIDCIdentity None issuer subject t = Ok u /\ su_UserID u = oi_UserID i /\ su_Email u = oi_Email i)
  /\ (forall id g, dt_groups t !! id = Some g ->
        ReadSCIMGroup None None (sg_ProviderSlug g) id t t
        = Ok (mkSCIMGroup id (sg_ProviderSlug g) (sg_ExternalID g) (sg_DisplayName g) (members_of id (dt_members t)) (sg_ProjectionVersion g))).
Proof.
  intros Hr t. pose proof (reachable_inv db Hr) as HI. split; [done|]. split; [|split].
  - intros id u Hu. destruct (read_row_ok db id u HI Hu) as [Hid Hv]. unfold UserByID. rewrite Hid. cbn [mbind result_bind may_fault].
    fold t in Hu. by rewrite Hu.
  - intros issuer subject i Hi. assert (owned oi_UserID (oi_UserID i) (dt_oidc t) !! (issuer, subject) = Some i) as Ho by by apply owned_lookup.
    destruct (uo_oidc _ _ (di_users _ HI (oi_UserID i)) _ _ Ho) as (Hem & _ & Hiss & Hsub). cbn in Hem, Hiss, Hsub.
    apply fmap_Some in Hem as (u & Hu & Hem). destruct (read_row_ok db _ u HI Hu) as [_ Hv].
    exists (mkStoredUser (oi_UserID i) (ur_Email u) (ur_SessionVersion u) (ur_Disabled u) (ur_ProjectionVersion u)).
    split; [|by split].
    unfold UserByOIDCIdentity. unfold is_canonical_issuer in Hiss. destruct (canonicalOIDCIssuer issuer) as [c|]; [|done].
    apply String.eqb_eq in Hiss as ->. rewrite Hsub. cbn [mbind result_bind may_fault negb fail_if]. rewrite Hi.
    cbn [mbind option_bind]. fold t in Hu. rewrite Hu. exact Hv.
  - intros id g Hg. destruct (di_groups _ HI id g Hg) as [(Hid & Hsl & _) _]. unfold ReadSCIMGroup. rewrite Hsl, (canonical_id _ Hid).
    cbn [mbind result_bind may_fault negb fail_if wrap_err]. rewrite Hg. cbn [mbind option_bind or_err]. rewrite String.eqb_refl.
    cbn [mbind result_bind or_err wrap_err]. by apply read_group_ok.
Qed.

(** ** A history *)

Module DirectoryExample.
#[export] Instance schemes : Schemes := example_schemes.
#[export] Instance unicode : UnicodeLower := fun r => r.
(** The address of one path-less host. *)
#[export] Instance urls : URLs := fun s =>
  if has_prefix "https://" s then Some (mkURL "https" (String.substring 8 (String.length s) s) false "" "" s) else None.
#[export] Instance bcrypt : Bcrypt := {| bcrypt_Cost _ := Some 10; bcrypt_compare hash password := String.eqb hash password |}.

Definition ann : string := "01HZZZZZZZZZZZZZZZZZZZZZZA".
Definition bob : string := "01HZZZZZZZZZZZZZZZZZZZZZZB".
Definition provider : string := Eval vm_compute in match scimProviderStreamID "corp" with Ok id => id | Err _ => "" end.
Definition group : string := "01HZZZZZZZZZZZZZZZZZZZZZZD".
Definition team : string := "01HZZZZZZZZZZZZZZZZZZZZZZE".

Definition on_user (id : string) (payload : directoryPayload) : time * DirEvent := (0, userEvent id payload).

(** Two users with identities, a provider with a group of both, a managed group of
    both, a user disabled, and one removed. *)
Definition history : list (time * DirEvent) :=
  [on_user ann (userCreated "ann@example.org");
   on_user bob (userCreated "bob@example.org");
   on_user ann (oidcIdentityLinked "corp" "https://login.example.org" "subject-1" "ann@example.org");
   (0, mkTypedEvent scimProviderStreamType provider (scimProviderCreated "corp" "$2a$10$abcdefghijklmnopqrstuvwxyzabcdefghijklmnopqrstuvwxyz0"));
   on_user bob (scimIdentityLinked "corp" "bob-1" "bob@example.org");
   (0, mkTypedEvent scimGroupStreamType group (scimGroupCreated "corp" "staff" "Staff"));
   (0, mkTypedEvent scimGroupStreamType group (scimGroupMembershipsReplaced [ann; bob]));
   (0, userGroupEvent team (userGroupCreated "Operators" [ann; bob]));
   on_user ann userDisabled;
   on_user bob userManagedDeleted].

Definition db : DirDB := Eval vm_compute in match run_events history empty_directory with Ok db => db | Err _ => empty_directory end.

Lemma history_runs : run_events history empty_directory = Ok db.
Proof. vm_compute. reflexivity. Qed.

Lemma history_wf : forallb (fun e => event_wf e.2) history = true.
Proof. vm_compute. reflexivity. Qed.

Lemma db_reached : rtc dir_append empty_directory db.
Proof. exact (run_events_reach history empty_directory db history_wf history_runs). Qed.

(** Two addresses that are not UTF-8, made one: lowering replaces the invalid byte
    of each before the text is checked. *)
Lemma invalid_emails_merge :
  CanonicalUserEmail (String "a" (String "255" "@example.org")) = CanonicalUserEmail (String "a" (String "254" "@example.org"))
  /\ is_ok (CanonicalUserEmail (String "a" (String "255" "@example.org"))) = true.
Proof. vm_compute. by split. Qed.
End DirectoryExample.

Lemma directory_stays_consistent_witness :
  UserByOIDCIdentity (unicode := DirectoryExample.unicode) (urls := DirectoryExample.urls) None "https://login.example.org" "subject-1" (td_tables DirectoryExample.db)
  = Ok (mkStoredUser DirectoryExample.ann "ann@example.org" 2 true 3)
  /\ dir_inv (unicode := DirectoryExample.unicode) (urls := DirectoryExample.urls)
       (bcrypt := DirectoryExample.bcrypt) DirectoryExample.db.
Proof.
  split; [vm_compute; reflexivity|]. exact (proj1 (directory_stays_consistent (unicode := DirectoryExample.unicode) (urls := DirectoryExample.urls)
    (schemes := DirectoryExample.schemes) (bcrypt := DirectoryExample.bcrypt) DirectoryExample.db DirectoryExample.db_reached)).
Defined.
