(* ===== verification/DirectoryRebuild.v ===== *)
(** * Rebuilding the directory

    A rebuild resets the tables of a target and replays the target's events,
    stream after stream.  What it gives, when every event replays, is what the
    appends left; and what a live history commits and a replay refuses. *)

From Stdlib Require Import Ascii String ZArith Lia.
From S2P Require Export DirectoryProof.

Section Replay.
Context {unicode : UnicodeLower} {urls : URLs} {schemes : Schemes} {bcrypt : Bcrypt}.

(** Rows replayed one after the other. *)
Definition replay_rows (rows : list DirEventRow) (t : DirTables) : result goerr DirTables :=
  fold_result (fun t row => projectDirectory true row t) t rows.

(** The rows of a target's stream type, in any arrangement that keeps the order
    of every stream. *)
Definition arranges (stype : string) (rows log : list DirEventRow) : Prop :=
  Forall (fun row => te_StreamType (ty_Event row) = stype) rows
  /\ forall id, typed_stream stype id rows = typed_stream stype id log.

Lemma arranges_in stype rows log row : arranges stype rows log -> row ∈ rows -> row ∈ log.
Proof.
  intros [Ht Hs] Hin. rewrite Forall_forall in Ht. specialize (Ht row Hin).
  assert (row ∈ typed_stream stype (te_StreamID (ty_Event row)) rows) as H by (by apply list_elem_of_filter).
  rewrite Hs in H. by apply list_elem_of_filter in H as [_ H].
Qed.

(** The rows of a stream carry the versions that follow some version. *)
Definition numbered (stype : string) (rows : list DirEventRow) : Prop :=
  forall id, exists k, 1 <= k /\ ty_Version <$> typed_stream stype id rows = seqZ k (zlen (typed_stream stype id rows)).

Lemma arranges_numbered stype rows log : arranges stype rows log -> typed_contiguous log -> numbered stype rows.
Proof. intros [_ Hs] Hc id. exists 1. split; [done|]. rewrite Hs. apply Hc. Qed.

Lemma numbered_tail stype row rows : numbered stype (row :: rows) -> numbered stype rows.
Proof.
  intros H id. destruct (H id) as (k & Hk & Hv). rewrite typed_stream_cons in Hv.
  destruct (decide _); [|by exists k]. exists (k + 1). split; [lia|]. unfold zlen in *. cbn [length fmap list_fmap] in Hv.
  rewrite seqZ_cons in Hv by lia. injection Hv as _ Hv. rewrite Hv. f_equal; lia.
Qed.

(** Rows after another of their stream are not the first. *)
Lemma numbered_later stype row rows row' :
  numbered stype (row :: rows) -> of_stream stype (te_StreamID (ty_Event row)) row -> row' ∈ rows ->
  of_stream stype (te_StreamID (ty_Event row)) row' -> 1 < ty_Version row'.
Proof.
  intros H Hrow Hin Hrow'. destruct (H (te_StreamID (ty_Event row))) as (k & Hk & Hv).
  rewrite typed_stream_cons, decide_True in Hv by done. unfold zlen in *. cbn [length] in Hv. rewrite fmap_cons, seqZ_cons in Hv by lia.
  injection Hv as _ Hv. assert (ty_Version row' ∈ ty_Version <$> typed_stream stype (te_StreamID (ty_Event row)) rows) as Hin'.
  { apply list_elem_of_fmap_2. by apply list_elem_of_filter. }
  rewrite Hv in Hin'. apply elem_of_seqZ in Hin'. lia.
Qed.

(** ** Users *)

Definition view_step (id : string) (v : UserView) (row : DirEventRow) : option UserView :=
  user_effect id (ty_Version row) (ty_CreatedAt row) (te_Payload (ty_Event row)) v.

(** What the events of one user leave of it. *)
Fixpoint view_fold (id : string) (rows : list DirEventRow) (v : UserView) : option UserView :=
  match rows with
  | [] => Some v
  | row :: rows => v ← view_step id v row; view_fold id rows v
  end.

Lemma view_fold_snoc id rows row v : view_fold id (rows ++ [row]) v = (v ← view_fold id rows v; view_step id v row).
Proof.
  revert v. induction rows as [|r rows IH]; intros v; cbn [app view_fold].
  - cbn. by destruct (view_step id v row).
  - destruct (view_step id v r) as [v'|]; [|done]. cbn. apply IH.
Qed.

(** The live tables hold of a user what its events leave. *)
Lemma live_views db id :
  rtc dir_append empty_directory db ->
  view_fold id (typed_stream userStreamType id (td_log db)) no_user = Some (user_view (td_tables db) id).
Proof.
  revert db. apply rtc_ind_r; [done|]. intros db db' Hr Ha IH.
  destruct (dir_append_users _ _ (reachable_inv _ Hr) Ha) as (event & now & tables & -> & _ & Hcase). cbn [td_log td_tables].
  rewrite typed_stream_app, typed_stream_one. destruct Hcase as [[Hs Hstep]|(Hs & H1 & H2 & H3)].
  - destruct (decide _) as [[_ Hid]|Hne]; cbn [ty_Event] in *.
    + subst id. rewrite view_fold_snoc, IH, Hs. exact (us_self _ _ _ _ _ _ Hstep).
    + rewrite app_nil_r, (us_other _ _ _ _ _ _ Hstep); [done|]. intros ->. by apply Hne.
  - rewrite decide_False, app_nil_r by (intros [? _]; by apply Hs). rewrite IH. unfold user_view. by rewrite H1, H2, H3.
Qed.

(** Every row of the log has the stream type of its payload, and an identifier in
    upper case. *)
Lemma log_ids db :
  rtc dir_append empty_directory db ->
  Forall (fun row => te_StreamType (ty_Event row) = directory_stream (te_Payload (ty_Event row)) /\ is_canonical_user (te_StreamID (ty_Event row)) = true)
    (td_log db).
Proof.
  revert db. apply rtc_ind_r; [constructor|]. intros db db' Hr (event & Hs & Hid & now & tables & _ & _ & ->) IH. cbn [td_log].
  apply Forall_app_2; [done|]. by constructor; [|constructor].
Qed.

Definition managed_row (row : DirEventRow) : Prop :=
  directory_stream (te_Payload (ty_Event row)) = userGroupStreamType /\ is_canonical_user (te_StreamID (ty_Event row)) = true.

Definition user_row (row : DirEventRow) : Prop :=
  te_StreamType (ty_Event row) = userStreamType /\ directory_stream (te_Payload (ty_Event row)) = userStreamType.

Lemma replay_user_step skip row t t' :
  user_row row -> projectDirectory skip row t = Ok t' ->
  user_step (te_StreamID (ty_Event row)) (ty_Version row) (ty_CreatedAt row) (te_Payload (ty_Event row)) t t'.
Proof. intros [_ Hk] H. apply projectUser_step. revert H Hk. unfold projectDirectory. by destruct (te_Payload (ty_Event row)). Qed.

(** A replay of user rows, step by step. *)
Inductive user_replay : list DirEventRow -> DirTables -> DirTables -> Prop :=
| user_replay_nil t : user_replay [] t t
| user_replay_cons row rows t t1 t' :
    te_StreamType (ty_Event row) = userStreamType ->
    user_step (te_StreamID (ty_Event row)) (ty_Version row) (ty_CreatedAt row) (te_Payload (ty_Event row)) t t1 ->
    user_replay rows t1 t' -> user_replay (row :: rows) t t'.

Lemma replay_steps rows t t' : Forall user_row rows -> replay_rows rows t = Ok t' -> user_replay rows t t'.
Proof.
  intros Hrows. revert t. induction Hrows as [|row rows Hrow _ IH]; intros t; cbn.
  - intros [= <-]. constructor.
  - intros (t1 & H1 & H2)%bind_ok. econstructor; [apply Hrow|by eapply replay_user_step|by apply IH].
Qed.

Lemma replay_views rows t t' id :
  user_replay rows t t' -> view_fold id (typed_stream userStreamType id rows) (user_view t id) = Some (user_view t' id).
Proof.
  induction 1 as [t|row rows t t1 t' Hs Hstep _ IH]; [done|]. rewrite typed_stream_cons. destruct (decide _) as [[_ Hid]|Hne].
  - cbn [view_fold]. unfold view_step. subst id. rewrite (us_self _ _ _ _ _ _ Hstep). exact IH.
  - rewrite <- (us_other _ _ _ _ _ _ Hstep id); [exact IH|]. intros ->. by apply Hne.
Qed.

Lemma replay_rest rows t t' :
  user_replay rows t t' -> dt_providers t' = dt_providers t /\ dt_groups t' = dt_groups t /\ dt_managed t' = dt_managed t.
Proof.
  induction 1 as [t|row rows t t1 t' _ Hstep _ (H1 & H2 & H3)]; [done|]. destruct (us_rest _ _ _ _ _ _ Hstep) as (? & ? & ?). split_and!; congruence.
Qed.

(** A user that is gone before its stream ends does not come back. *)
Lemma replay_gone rows t t' id :
  user_replay rows t t' -> (forall row, row ∈ rows -> of_stream userStreamType id row -> 1 < ty_Version row) ->
  dt_users t !! id = None -> dt_users t' !! id = None.
Proof.
  induction 1 as [t|row rows t t1 t' Hs Hstep _ IH]; [done|]. intros Hv Hn. apply IH; [intros; apply Hv; [by right|done]|].
  destruct (decide (te_StreamID (ty_Event row) = id)) as [Hid|Hne].
  - pose proof (us_version _ _ _ _ _ _ Hstep) as H1. rewrite Hid, Hn in H1. specialize (Hv row ltac:(by left) (conj Hs Hid)). lia.
  - pose proof (f_equal uv_user (us_other _ _ _ _ _ _ Hstep id ltac:(congruence))) as Ho. cbn in Ho. congruence.
Qed.

(** Members that are users in the end stay members. *)
Lemma replay_members rows t t' :
  user_replay rows t t' -> numbered userStreamType rows ->
  (forall g u, is_Some (dt_members t !! (g, u)) -> is_Some (dt_users t' !! u)) -> dt_members t' = dt_members t.
Proof.
  induction 1 as [t|row rows t t1 t' Hs Hstep Hr IH]; [done|]. intros Hn Hm.
  assert (dt_members t1 = dt_members t) as He.
  { pose proof (us_members _ _ _ _ _ _ Hstep) as H1. destruct (dt_users t1 !! _) eqn:Hu; [done|]. rewrite H1. apply map_filter_id.
    intros [g u] n Hg. cbn. intros ->. destruct (Hm g _ (ex_intro _ n Hg)) as [x Hx].
    rewrite (replay_gone rows t1 t' _ Hr) in Hx; [done| |done]. intros row' Hin Hrow'.
    by apply (numbered_later userStreamType row rows row' Hn). }
  rewrite <- He. apply IH; [by apply numbered_tail in Hn|]. by rewrite He.
Qed.

Lemma replay_managed rows t t' :
  user_replay rows t t' ->
  (forall row g, row ∈ rows -> te_Payload (ty_Event row) = userManagedDeleted -> dt_managed_members t !! (g, te_StreamID (ty_Event row)) = None) ->
  dt_managed_members t' = dt_managed_members t.
Proof.
  induction 1 as [t|row rows t t1 t' Hs Hstep Hr IH]; [done|]. intros Hd.
  assert (dt_managed_members t1 = dt_managed_members t) as He.
  { pose proof (us_managed _ _ _ _ _ _ Hstep) as H1. destruct (te_Payload (ty_Event row)) eqn:Hp; try done. rewrite H1. apply map_filter_id.
    intros [g u] n Hg. cbn. intros ->. by rewrite (Hd row g ltac:(by left) Hp) in Hg. }
  rewrite <- He. apply IH. intros row' g Hin Hp. rewrite He. apply Hd; [by right|done].
Qed.

Lemma views_same_tables t t' :
  (forall id, user_view t id = user_view t' id) -> dt_providers t = dt_providers t' -> dt_groups t = dt_groups t' -> dt_managed t = dt_managed t' ->
  dt_members t = dt_members t' -> dt_managed_members t = dt_managed_members t' -> t = t'.
Proof.
  intros Hv. assert (dt_users t = dt_users t') as H1 by (apply map_eq; intros id; exact (f_equal uv_user (Hv id))).
  assert (dt_oidc t = dt_oidc t') as H2 by (apply (owned_ext oi_UserID); intros id; exact (f_equal uv_oidc (Hv id))).
  assert (dt_scim t = dt_scim t') as H3 by (apply (owned_ext si_UserID); intros id; exact (f_equal uv_scim (Hv id))).
  destruct t, t'; cbn in *. congruence.
Qed.

(** C30. Rebuilding the users restores them. After any history of the directory,
    take the rows of the user streams in any arrangement that keeps the order of
    each stream - the order of a rebuild is one - and replay them over the reset
    tables: if every event replays, the result is the live directory, with every
    identity, and with the members of the groups, which the target does not
    reset, untouched by the removals that are replayed. *)
Theorem users_rebuild_restores_live db rows t' :
  rtc dir_append empty_directory db -> arranges userStreamType rows (td_log db) ->
  replay_rows rows (resetUsers (td_tables db)) = Ok t' -> t' = td_tables db.
Proof.
  intros Hr Hrows H. pose proof (reachable_inv db Hr) as HI. pose proof (arranges_numbered _ _ _ Hrows (di_contiguous _ HI)) as Hn.
  pose proof (log_ids db Hr) as Hlog. rewrite Forall_forall in Hlog.
  assert (Forall user_row rows) as Hrow.
  { apply Forall_forall. intros row Hin. pose proof (proj1 (Forall_forall _ _) (proj1 Hrows) row Hin) as Hs.
    split; [done|]. by rewrite <- (proj1 (Hlog row ltac:(by eapply arranges_in))). }
  pose proof (replay_steps _ _ _ Hrow H) as Hsteps.
  assert (forall id, user_view t' id = user_view (td_tables db) id) as Hviews.
  { intros id. pose proof (replay_views _ _ _ id Hsteps) as Hv. rewrite (proj2 Hrows id) in Hv.
    assert (user_view (resetUsers (td_tables db)) id = no_user) as He.
    { unfold user_view, resetUsers, no_user. cbn. by rewrite lookup_empty, !owned_empty. }
    rewrite He, (live_views db id Hr) in Hv. congruence. }
  assert (forall id, dt_users t' !! id = dt_users (td_tables db) !! id) as Husers by (intros id; exact (f_equal uv_user (Hviews id))).
  destruct (replay_rest _ _ _ Hsteps) as (H1 & H2 & H3). apply views_same_tables; [done|done|done|done| |].
  - apply (replay_members _ _ _ Hsteps Hn). intros g u Hm. rewrite Husers. by apply (di_members _ HI g u).
  - apply (replay_managed _ _ _ Hsteps). intros row g Hin Hp. apply (di_deleted _ HI). exists row.
    split; [by eapply arranges_in|]. split; [|done]. split; [|done]. exact (proj1 (proj1 (Forall_forall _ _) Hrow row Hin)).
Qed.

(** ** SCIM groups *)

Definition group_step (g : option SCIMGroupRow) (row : DirEventRow) : option (option SCIMGroupRow) :=
  group_effect (ty_Version row) (ty_CreatedAt row) (te_Payload (ty_Event row)) g.

(** What the events of one group leave of its row. *)
Fixpoint group_fold (rows : list DirEventRow) (g : option SCIMGroupRow) : option (option SCIMGroupRow) :=
  match rows with
  | [] => Some g
  | row :: rows => g ← group_step g row; group_fold rows g
  end.

(** And of its members, of whom only the users that [alive] holds of are taken. *)
Fixpoint members_fold (alive : string -> Prop) (rows : list DirEventRow) (old : string -> Z -> Prop) : string -> Z -> Prop :=
  match rows with
  | [] => old
  | row :: rows =>
      members_fold alive rows (fun user v => members_after (ty_Version row) (te_Payload (ty_Event row)) alive (old user) user v)
  end.

Definition no_members (user : string) (v : Z) : Prop := False.
Definition anybody (user : string) : Prop := True.

Lemma group_fold_snoc rows row g : group_fold (rows ++ [row]) g = (g ← group_fold rows g; group_step g row).
Proof.
  revert g. induction rows as [|r rows IH]; intros g; cbn [app group_fold].
  - cbn. by destruct (group_step g row).
  - destruct (group_step g r) as [g'|]; [|done]. cbn. apply IH.
Qed.

Lemma members_fold_snoc alive rows row old user v :
  members_fold alive (rows ++ [row]) old user v
  <-> members_after (ty_Version row) (te_Payload (ty_Event row)) alive (members_fold alive rows old user) user v.
Proof. revert old. induction rows as [|r rows IH]; intros old; cbn [app members_fold]; [done|apply IH]. Qed.

(** Taking the live users while replaying is taking them in the end. *)
Lemma members_fold_alive (alive : string -> Prop) rows old old' user v :
  (forall user v, old user v <-> old' user v /\ alive user) ->
  members_fold alive rows old user v <-> members_fold anybody rows old' user v /\ alive user.
Proof.
  revert old old'. induction rows as [|r rows IH]; intros old old' Ho; cbn [members_fold]; [apply Ho|]. apply IH.
  intros u w. unfold members_after, anybody. destruct (te_Payload (ty_Event r)); try apply Ho; naive_solver.
Qed.

(** An append is a step of its SCIM group, or leaves the groups alone. *)
Lemma dir_append_groups db db' :
  dir_append db db' ->
  exists event now tables, db' = mkTypedDB (td_log db ++ [mkTypedRow event (typed_version (te_StreamType event) (te_StreamID event) (td_log db) + 1) now]) tables
    /\ (te_StreamType event = scimGroupStreamType
        /\ scim_group_step false (te_StreamID event) (typed_version scimGroupStreamType (te_StreamID event) (td_log db) + 1) now
             (te_Payload event) (td_tables db) tables
        \/ te_StreamType event <> scimGroupStreamType /\ dt_groups tables = dt_groups (td_tables db)
           /\ (te_StreamType event = userStreamType
                /\ user_step (te_StreamID event) (typed_version userStreamType (te_StreamID event) (td_log db) + 1) now
                     (te_Payload event) (td_tables db) tables
                \/ dt_users tables = dt_users (td_tables db) /\ dt_members tables = dt_members (td_tables db))).
Proof.
  intros (event & Hs & Hid & now & tables & _ & Hp & ->). cbv zeta in Hp. exists event, now, tables. split; [done|].
  destruct (decide (directory_stream (te_Payload event) = scimGroupStreamType)) as [Hk|Hk].
  { left. split; [congruence|]. rewrite Hs, Hk in Hp. by apply project_scim_group_step in Hp. }
  right. split; [congruence|].
  destruct (decide (directory_stream (te_Payload event) = userStreamType)) as [Hk1|Hk1].
  { rewrite Hs, Hk1 in Hp. assert (user_row (mkTypedRow event (typed_version userStreamType (te_StreamID event) (td_log db) + 1) now)) as Hrow.
    { split; cbn; congruence. }
    pose proof (replay_user_step _ _ _ _ Hrow Hp) as Hstep. split; [by apply (us_rest _ _ _ _ _ _ Hstep)|]. left. split; [congruence|exact Hstep]. }
  destruct (decide (directory_stream (te_Payload event) = userGroupStreamType)) as [Hk2|Hk2].
  { destruct (project_managed_step _ _ _ _ _ _ _ Hid Hk2 Hp) as [_ _ _ _ _ (? & ? & ? & ? & ? & ?)]. split; [done|]. by right. }
  assert (directory_stream (te_Payload event) = scimProviderStreamType) as Hk3 by (revert Hk Hk1 Hk2; by destruct (te_Payload event)).
  destruct (project_provider_step _ _ _ _ _ _ _ Hk3 Hp) as [_ _ _ _ _ _ _ Hrest]. destruct Hrest as (? & ? & ? & ? & ? & ? & ?).
  split; [done|]. by right.
Qed.
Notation group_stream := (typed_stream scimGroupStreamType).

(** Only users that exist at the time are listed. *)
Lemma members_after_anybody version payload old user v :
  members_after version payload anybody old user v -> old v \/ exists ids, payload = scimGroupMembershipsReplaced ids /\ user ∈ ids.
Proof. destruct payload; cbn; try (intros H; by left); try done. intros (H & _ & _). right. by eexists. Qed.

(** What the live tables hold of the SCIM groups: the rows that their events
    leave, and of the members that they leave the live users. *)
Record live_groups (db : DirDB) : Prop := {
  lg_row : forall id, group_fold (group_stream id (td_log db)) None = Some (dt_groups (td_tables db) !! id);
  lg_members : forall id user v, dt_members (td_tables db) !! (id, user) = Some v
    <-> members_fold anybody (group_stream id (td_log db)) no_members user v /\ is_Some (dt_users (td_tables db) !! user);
  lg_known : forall id user v, members_fold anybody (group_stream id (td_log db)) no_members user v ->
    0 < typed_version userStreamType user (td_log db);
}.

Lemma known_grows log rows (user : string) :
  0 < typed_version userStreamType user log -> 0 < typed_version (P := directoryPayload) userStreamType user (log ++ rows).
Proof. intros H. eapply Z.lt_le_trans; [exact H|apply typed_version_app]. Qed.

Lemma live_users_known db user :
  dir_inv db -> is_Some (dt_users (td_tables db) !! user) -> 0 < typed_version userStreamType user (td_log db).
Proof.
  intros HI [u Hu]. rewrite <- (di_user_version _ HI _ _ Hu). pose proof (uo_row _ _ (di_users _ HI user) u Hu). lia.
Qed.

(** An event of a group. *)
Lemma live_groups_step db event now tables version :
  dir_inv db -> live_groups db -> te_StreamType event = scimGroupStreamType ->
  scim_group_step false (te_StreamID event) version now (te_Payload event) (td_tables db) tables ->
  live_groups (mkTypedDB (td_log db ++ [mkTypedRow event version now]) tables).
Proof.
  intros HI [Hrow Hmem Hkn] Hs [_ Had Hself Hother Hm (Hu & _)].
  assert (forall id, group_stream id (td_log db ++ [mkTypedRow event version now])
    = if decide (id = te_StreamID event) then group_stream id (td_log db) ++ [mkTypedRow event version now] else group_stream id (td_log db)) as Hst.
  { intros id. rewrite typed_stream_app, typed_stream_one. destruct (decide (id = te_StreamID event)) as [->|Hne]; [by rewrite decide_True|].
    rewrite decide_False, app_nil_r; [done|]. intros [_ He]. by apply Hne. }
  split; cbn [td_log td_tables]; intros id; rewrite Hst.
  - case_decide as Hid; [subst id|rewrite Hother by done; apply Hrow]. by rewrite group_fold_snoc, Hrow.
  - intros user v. rewrite Hm, Hu. case_decide as Hid; [subst id|apply Hmem]. rewrite members_fold_snoc. cbn [ty_Version ty_Event].
    unfold scim_group_admissible in Had. unfold members_after, anybody in *. destruct (te_Payload event); try apply Hmem; naive_solver.
  - intros user v. case_decide as Hid; [subst id|intros H; by apply known_grows, (Hkn id user v)].
    rewrite members_fold_snoc. cbn [ty_Version ty_Event]. intros [H|(ids & Hp & Hin)]%members_after_anybody; [by apply known_grows, (Hkn _ _ _ H)|].
    apply known_grows, live_users_known; [done|]. rewrite Hp in Had. destruct Had as (_ & _ & _ & Hall). specialize (Hall eq_refl).
    rewrite Forall_forall in Hall. by apply Hall.
Qed.

(** Any other event. *)
Lemma live_groups_other db event now tables version :
  live_groups db -> te_StreamType event <> scimGroupStreamType -> dt_groups tables = dt_groups (td_tables db) ->
  (forall user, 0 < typed_version userStreamType user (td_log db) -> is_Some (dt_users tables !! user) ->
     is_Some (dt_users (td_tables db) !! user)) ->
  (forall id user v, dt_members tables !! (id, user) = Some v
     <-> dt_members (td_tables db) !! (id, user) = Some v /\ is_Some (dt_users tables !! user)) ->
  live_groups (mkTypedDB (td_log db ++ [mkTypedRow event version now]) tables).
Proof.
  intros [Hrow Hmem Hkn] Hs Hg Hu Hm.
  assert (forall id, group_stream id (td_log db ++ [mkTypedRow event version now]) = group_stream id (td_log db)) as Hst.
  { intros id. rewrite typed_stream_app, typed_stream_one, decide_False, app_nil_r; [done|]. by intros [? _]. }
  split; cbn [td_log td_tables]; intros id; rewrite Hst.
  - rewrite Hg. apply Hrow.
  - intros user v. rewrite Hm, Hmem. split; [naive_solver|]. intros [Hf Hx]. split; [|done]. split; [done|].
    apply (Hu user); [by apply (Hkn id user v)|done].
  - intros user v H. by apply known_grows, (Hkn id user v).
Qed.

Lemma live_groups_append db db' : dir_inv db -> dir_append db db' -> live_groups db -> live_groups db'.
Proof.
  intros HI Ha HL. destruct (dir_append_groups _ _ Ha) as (event & now & tables & -> & [[Hs Hstep]|(Hs & Hg & Hcase)]).
  { rewrite Hs. by apply live_groups_step. }
  apply live_groups_other; [done|done|done| |]; destruct Hcase as [[Hu Hstep]|[Hu Hm]].
  - intros user Hk Hx. destruct (decide (user = te_StreamID event)) as [->|Hne].
    + apply not_eq_None_Some. intros Hn. pose proof (us_version _ _ _ _ _ _ Hstep) as Hv. rewrite Hn in Hv. lia.
    + pose proof (f_equal uv_user (us_other _ _ _ _ _ _ Hstep user Hne)) as Ho. cbn in Ho. by rewrite <- Ho.
  - intros user _. by rewrite Hu.
  - intros id user v. rewrite (us_members _ _ _ _ _ _ Hstep).
    assert (user <> te_StreamID event -> dt_users tables !! user = dt_users (td_tables db) !! user) as Ho.
    { intros Hne. exact (f_equal uv_user (us_other _ _ _ _ _ _ Hstep user Hne)). }
    assert (is_Some (dt_members (td_tables db) !! (id, user)) -> is_Some (dt_users (td_tables db) !! user)) as Hmu
      by apply (di_members _ HI).
    destruct (dt_users tables !! te_StreamID event) eqn:Ht.
    + split; [|naive_solver]. intros H. split; [done|]. destruct (decide (user = te_StreamID event)) as [->|Hne]; [by rewrite Ht|].
      rewrite Ho by done. apply Hmu. by eexists.
    + rewrite map_lookup_filter_Some. cbn. split.
      * intros [H Hne]. split; [done|]. rewrite Ho by done. apply Hmu. by eexists.
      * intros [H [x Hx]]. split; [done|]. intros ->. congruence.
  - intros id user v. rewrite Hu, Hm. split; [|naive_solver]. intros H. split; [done|]. apply (di_members _ HI id). by eexists.
Qed.

Lemma live_groups_reached db : rtc dir_append empty_directory db -> live_groups db.
Proof.
  revert db. apply rtc_ind_r.
  - split; cbn; [done| |done]. intros id user v. unfold no_members. rewrite lookup_empty. naive_solver.
  - intros db db' Hr Ha IH. eapply live_groups_append; [by apply reachable_inv|done|done].
Qed.

(** A replay of group rows, step by step. *)
Inductive group_replay : list DirEventRow -> DirTables -> DirTables -> Prop :=
| group_replay_nil t : group_replay [] t t
| group_replay_cons row rows t t1 t' :
    te_StreamType (ty_Event row) = scimGroupStreamType ->
    scim_group_step true (te_StreamID (ty_Event row)) (ty_Version row) (ty_CreatedAt row) (te_Payload (ty_Event row)) t t1 ->
    group_replay rows t1 t' -> group_replay (row :: rows) t t'.

Lemma replay_group_steps rows t t' :
  Forall (fun row => te_StreamType (ty_Event row) = scimGroupStreamType /\ directory_stream (te_Payload (ty_Event row)) = scimGroupStreamType) rows ->
  replay_rows rows t = Ok t' -> group_replay rows t t'.
Proof.
  intros Hrows. revert t. induction Hrows as [|row rows [H0 Hk] _ IH]; intros t; cbn.
  - intros [= <-]. constructor.
  - intros (t1 & H1 & H2)%bind_ok. econstructor; [done|by apply project_scim_group_step in H1|by apply IH].
Qed.

Lemma group_replay_rest rows t t' :
  group_replay rows t t' -> dt_users t' = dt_users t /\ dt_oidc t' = dt_oidc t /\ dt_scim t' = dt_scim t /\ dt_providers t' = dt_providers t
    /\ dt_managed t' = dt_managed t /\ dt_managed_members t' = dt_managed_members t.
Proof.
  induction 1 as [t|row rows t t1 t' _ Hstep _ (H1 & H2 & H3 & H4 & H5 & H6)]; [done|].
  destruct (gs_rest _ _ _ _ _ _ _ Hstep) as (? & ? & ? & ? & ? & ?). split_and!; congruence.
Qed.

Lemma group_replay_rows rows t t' id :
  group_replay rows t t' -> group_fold (group_stream id rows) (dt_groups t !! id) = Some (dt_groups t' !! id).
Proof.
  induction 1 as [t|row rows t t1 t' Hs Hstep _ IH]; [done|]. rewrite typed_stream_cons. destruct (decide _) as [[_ Hid]|Hne].
  - cbn [group_fold]. unfold group_step. subst id. rewrite (gs_self _ _ _ _ _ _ _ Hstep). exact IH.
  - rewrite <- (gs_other _ _ _ _ _ _ _ Hstep id); [exact IH|]. intros ->. by apply Hne.
Qed.

Lemma members_fold_iff alive rows old old' user v :
  (forall user v, old user v <-> old' user v) -> members_fold alive rows old user v <-> members_fold alive rows old' user v.
Proof.
  revert old old'. induction rows as [|r rows IH]; intros old old' Ho; cbn [members_fold]; [apply Ho|]. apply IH.
  intros u w. unfold members_after. by destruct (te_Payload (ty_Event r)).
Qed.

Lemma group_replay_members rows t t' id user v :
  group_replay rows t t' ->
  dt_members t' !! (id, user) = Some v
  <-> members_fold (fun u => is_Some (dt_users t !! u)) (group_stream id rows) (fun u w => dt_members t !! (id, u) = Some w) user v.
Proof.
  induction 1 as [t|row rows t t1 t' Hs Hstep _ IH]; [done|]. rewrite IH. clear IH.
  destruct (gs_rest _ _ _ _ _ _ _ Hstep) as (Hu & _). rewrite Hu, typed_stream_cons.
  pose proof (gs_members _ _ _ _ _ _ _ Hstep id) as Hm. destruct (decide (of_stream _ id row)) as [[_ Hid]|Hne]; cbn [members_fold].
  - apply members_fold_iff. intros u w. rewrite Hm, decide_True by done. done.
  - apply members_fold_iff. intros u w. rewrite Hm, decide_False; [done|]. intros ->. by apply Hne.
Qed.

(** Rebuilding the SCIM groups restores them. After any history of the
    directory, the rows of the group streams, in any arrangement that keeps the
    order of each stream, replayed over the reset tables, give the live directory
    if every event replays: a membership event that lists users who have since
    been removed replays without them, which is what their removal left. *)
Theorem scim_groups_rebuild_restores_live db rows t' :
  rtc dir_append empty_directory db -> arranges scimGroupStreamType rows (td_log db) ->
  replay_rows rows (resetSCIMGroups (td_tables db)) = Ok t' -> t' = td_tables db.
Proof.
  intros Hr Hrows H. pose proof (log_ids db Hr) as Hlog. rewrite Forall_forall in Hlog.
  destruct (live_groups_reached db Hr) as [Hg Hm _].
  assert (group_replay rows (resetSCIMGroups (td_tables db)) t') as Hsteps.
  { apply replay_group_steps; [|done]. apply Forall_forall. intros row Hin.
    pose proof (proj1 (Forall_forall _ _) (proj1 Hrows) row Hin) as Hs. split; [done|].
    by rewrite <- (proj1 (Hlog row ltac:(by eapply arranges_in))). }
  assert (dt_groups t' = dt_groups (td_tables db)) as H1.
  { apply map_eq. intros id. pose proof (group_replay_rows _ _ _ id Hsteps) as Hf. cbn in Hf.
    rewrite lookup_empty, (proj2 Hrows id), Hg in Hf. congruence. }
  assert (dt_members t' = dt_members (td_tables db)) as H2.
  { apply map_eq. intros [id user]. apply option_eq. intros v. rewrite (group_replay_members _ _ _ id user v Hsteps), Hm, (proj2 Hrows id).
    apply members_fold_alive. intros u w. cbn. rewrite lookup_empty. unfold no_members. naive_solver. }
  destruct (group_replay_rest _ _ _ Hsteps) as (? & ? & ? & ? & ? & ?). destruct t', (td_tables db); cbn in *. congruence.
Qed.
End Replay.

(** ** The order of a rebuild *)

(** The rows that a rebuild of a stream type replays: stream after stream in the
    order of their identifiers, each in the order of its versions. *)
Definition rebuild_rows {P} (stype : string) (log : list (TypedRow P)) : list (TypedRow P) :=
  concat ((fun id => typed_stream stype id log)
          <$> sort_strings (remove_dups ((fun row => te_StreamID (ty_Event row))
                                         <$> filter (fun row => te_StreamType (ty_Event row) = stype) log))).

Lemma typed_stream_concat stype id ids (log : list DirEventRow) :
  NoDup ids ->
  typed_stream stype id (concat ((fun id => typed_stream stype id log) <$> ids)) = if decide (id ∈ ids) then typed_stream stype id log else [].
Proof.
  induction 1 as [|i ids Hi _ IH]; [by rewrite decide_False by apply not_elem_of_nil|]. cbn [fmap list_fmap concat]. rewrite typed_stream_app, IH.
  unfold typed_stream at 1 2. rewrite list_filter_filter. destruct (decide (id = i)) as [->|Hne].
  - rewrite (decide_True (P := i ∈ i :: ids)) by by left. rewrite (decide_False (P := i ∈ ids)), app_nil_r by done.
    apply list_filter_iff. tauto.
  - rewrite filter_none; [|intros row _ [[_ H1] [_ H2]]; congruence]. cbn [app].
    destruct (decide (id ∈ ids)); [rewrite decide_True by by right|rewrite decide_False by set_solver]; done.
Qed.

Lemma rebuild_rows_arranges stype log : arranges stype (rebuild_rows stype log) log.
Proof.
  unfold rebuild_rows. set (ids := remove_dups _). assert (sort_strings ids ≡ₚ ids) as Hp by apply sort_strings_perm. split.
  - apply Forall_concat, Forall_fmap, Forall_forall. intros id _. cbn. apply Forall_forall. by intros row [[H _] _]%list_elem_of_filter.
  - intros id. rewrite typed_stream_concat by (rewrite Hp; apply NoDup_remove_dups). case_decide as Hin; [done|]. symmetry. apply filter_none.
    intros row Hrow [H1 H2]. apply Hin. rewrite Hp. apply elem_of_remove_dups, list_elem_of_fmap. exists row.
    split; [done|]. by apply list_elem_of_filter.
Qed.

(** ** What does not replay *)

(** The users that an event of a managed group lists. *)
Definition listed_members (payload : directoryPayload) : list string :=
  match payload with
  | userGroupCreated _ ids | userGroupUpdated _ ids | userGroupMetadataUpdated _ ids => ids
  | _ => []
  end.

Lemma listed_admissible id payload t user :
  managed_admissible id payload t -> (exists listed, listed ∈ listed_members payload /\ canonicalUserID listed = Ok user) ->
  is_Some (dt_users t !! user).
Proof.
  intros Had (listed & Hl & Hc). destruct payload; cbn in *; try by apply elem_of_nil in Hl.
  all: destruct Had as (_ & _ & _ & members & Hmap & _ & _ & Hall); rewrite Forall_forall in Hall; apply Hall.
  all: apply (members_made _ _ user Hmap); by exists listed.
Qed.

(** C31. A managed group that has ever listed a user who was removed since cannot
    be rebuilt: whatever the arrangement of the rows, the replay of the committed
    events fails, because the projector demands that every listed member exists
    now - unlike that of the SCIM groups, which replays without the removed ones. *)
Theorem former_members_block_managed_rebuild {unicode : UnicodeLower} {urls : URLs} {schemes : Schemes} {bcrypt : Bcrypt} db rows row user :
  rtc dir_append empty_directory db -> arranges userGroupStreamType rows (td_log db) ->
  row ∈ rows -> (exists listed, listed ∈ listed_members (te_Payload (ty_Event row)) /\ canonicalUserID listed = Ok user) ->
  dt_users (td_tables db) !! user = None ->
  exists e, replay_rows rows (resetUserGroups (td_tables db)) = Err e.
Proof.
  intros Hr Hrows Hin Hl Hnone. destruct (replay_rows rows _) as [t'|e] eqn:H; [|by exists e]. exfalso.
  pose proof (log_ids db Hr) as Hlog. rewrite Forall_forall in Hlog.
  assert (Forall (fun row => managed_row row) rows) as Hall.
  { apply Forall_forall. intros r Hr'. pose proof (proj1 (Forall_forall _ _) (proj1 Hrows) r Hr') as Hs.
    destruct (Hlog r) as [Hk Hid]; [by eapply arranges_in|]. split; [by rewrite <- Hk|done]. }
  assert (dt_users (resetUserGroups (td_tables db)) !! user = None) as Hn by exact Hnone. clear Hnone.
  revert H Hn. generalize (resetUserGroups (td_tables db)). clear Hrows. revert Hin Hall. induction rows as [|r rows IH]; [by intros ?%elem_of_nil|].
  intros Hin [Hr0 Hall]%Forall_cons t (t1 & H1 & H2)%bind_ok Hn.
  pose proof (project_managed_step _ _ _ _ _ _ _ (proj2 Hr0) (proj1 Hr0) H1) as Hstep.
  apply elem_of_cons in Hin as [->|Hin].
  - destruct (listed_admissible _ _ _ _ (ms_admissible _ _ _ _ _ _ Hstep) Hl). congruence.
  - apply (IH Hin Hall t1 H2). destruct (ms_rest _ _ _ _ _ _ Hstep) as (-> & _). done.
Qed.

Module RebuildExample.
Import DirectoryExample.

Definition user_rows : list DirEventRow := rebuild_rows userStreamType (td_log db).
Definition group_rows : list DirEventRow := rebuild_rows scimGroupStreamType (td_log db).
Definition managed_rows : list DirEventRow := rebuild_rows userGroupStreamType (td_log db).

Definition tables_of (r : result goerr DirTables) : DirTables := match r with Ok t => t | Err _ => no_directory end.
Definition users_rebuilt : DirTables := Eval vm_compute in tables_of (replay_rows user_rows (resetUsers (td_tables db))).
Definition groups_rebuilt : DirTables := Eval vm_compute in tables_of (replay_rows group_rows (resetSCIMGroups (td_tables db))).

Lemma users_replay : replay_rows user_rows (resetUsers (td_tables db)) = Ok users_rebuilt.
Proof. vm_compute. reflexivity. Qed.

Lemma groups_replay : replay_rows group_rows (resetSCIMGroups (td_tables db)) = Ok groups_rebuilt.
Proof. vm_compute. reflexivity. Qed.

(** An address that the second user gave up and the first one took: the history
    commits, and in the order of a rebuild the first user finds it taken. *)
Definition moved_email : list (time * DirEvent) :=
  [on_user ann (userCreated "ann@example.org"); on_user bob (userCreated "shared@example.org");
   on_user bob (userManagedUpdated "bob@example.org"); on_user ann (userManagedUpdated "shared@example.org")].

Lemma moved_email_blocks_rebuild :
  match run_events moved_email empty_directory with
  | Ok db => replay_rows (rebuild_rows userStreamType (td_log db)) (resetUsers (td_tables db))
             = Err (EWrap "store: project user creation" (EPg "23505" "users_email_key"))
  | Err _ => False
  end.
Proof. vm_compute. reflexivity. Qed.
End RebuildExample.

Lemma users_rebuild_restores_live_witness : RebuildExample.users_rebuilt = td_tables DirectoryExample.db.
Proof.
  exact (users_rebuild_restores_live (unicode := DirectoryExample.unicode) (urls := DirectoryExample.urls)
    (schemes := DirectoryExample.schemes) (bcrypt := DirectoryExample.bcrypt)
    DirectoryExample.db RebuildExample.user_rows RebuildExample.users_rebuilt DirectoryExample.db_reached
    (rebuild_rows_arranges userStreamType (td_log DirectoryExample.db)) RebuildExample.users_replay).
Defined.

Lemma scim_groups_rebuild_restores_live_witness : RebuildExample.groups_rebuilt = td_tables DirectoryExample.db.
Proof.
  exact (scim_groups_rebuild_restores_live (unicode := DirectoryExample.unicode) (urls := DirectoryExample.urls)
    (schemes := DirectoryExample.schemes) (bcrypt := DirectoryExample.bcrypt)
    DirectoryExample.db RebuildExample.group_rows RebuildExample.groups_rebuilt DirectoryExample.db_reached
    (rebuild_rows_arranges scimGroupStreamType (td_log DirectoryExample.db)) RebuildExample.groups_replay).
Defined.

Lemma former_members_block_managed_rebuild_witness :
  exists e, replay_rows (unicode := DirectoryExample.unicode) (urls := DirectoryExample.urls)
    (schemes := DirectoryExample.schemes) (bcrypt := DirectoryExample.bcrypt) RebuildExample.managed_rows
    (resetUserGroups (td_tables DirectoryExample.db)) = Err e.
Proof.
  refine (former_members_block_managed_rebuild (unicode := DirectoryExample.unicode) (urls := DirectoryExample.urls)
    (schemes := DirectoryExample.schemes) (bcrypt := DirectoryExample.bcrypt)
    DirectoryExample.db RebuildExample.managed_rows
    (mkTypedRow (userGroupEvent DirectoryExample.team (userGroupCreated "Operators" [DirectoryExample.ann; DirectoryExample.bob])) 1 0)
    DirectoryExample.bob DirectoryExample.db_reached (rebuild_rows_arranges userGroupStreamType (td_log DirectoryExample.db)) _ _ eq_refl).
  - unfold RebuildExample.managed_rows. vm_compute. left.
  - exists DirectoryExample.bob. split; [right; left|reflexivity].
Defined.
