(* ===== verification/Sessions.v ===== *)
(** * [server/internal/auth/tokens.go], [session_invalidation.go]: sessions

    Signed access and refresh tokens, and the authentication of an access token
    against the current state of its user: a program of a clock reading and a
    read of the directory, among which any event of the directory may be
    appended.  [ES256] is the signature scheme and [SessionJSON] the JSON codec of
    the header and the claims, each with its laws. *)

From Stdlib Require Import Ascii String ZArith Lia.
From S2P Require Export Refresh.
From S2P Require Export DirectoryProof.

(** server/internal/auth/tokens.go:23-30 [accessTokenLifetime]; the lifetime of refresh
    tokens is in Refresh.v *)
Definition accessTokenLifetime : Z := 5 * minute.
Definition maxTokenBytes : Z := 8 * 1024.
Definition tokenTypeAccess : string := "access".
Definition tokenTypeRefresh : string := "refresh".

Definition ErrExpired : goerr := ESentinel "access token expired".
Definition ErrInvalid : goerr := ESentinel "authentication token rejected".
Definition ErrInvalidKey : goerr := ESentinel "auth: invalid ES256 key".
Definition ErrClockNotWired : goerr := ESentinel "auth: token clock is not wired".
Definition ErrSessionUnavailable : goerr := ESentinel "auth: session authentication unavailable".

(** server/internal/auth/tokens.go:48-51 [tokenHeader] *)
Record tokenHeader := mkTokenHeader { th_Algorithm : string; th_Type : string }.

(** server/internal/auth/tokens.go:53-59 [tokenClaims] *)
Record tokenClaims := mkTokenClaims {
  tc_Subject : string;
  tc_TokenType : string;
  tc_SessionVersion : Z;
  tc_IssuedAt : Z;
  tc_ExpiresAt : Z;
}.

(** server/internal/auth/tokens.go:61-65 [Signer]: a nil receiver is [None] where one is
    taken, and the clock is wired or not *)
Record Signer := mkSigner { sg_key : option ECDSAPrivateKey; sg_now : bool }.

(** server/internal/auth/tokens.go:67-71 [Verifier] *)
Record Verifier := mkVerifier { vf_key : option ECDSAPublicKey; vf_now : bool }.

(** [ecdsa.Sign] with its randomness, and [ecdsa.Verify]. *)
Class ES256 := {
  ecdsa_Sign : ECDSAPrivateKey -> string -> list Z -> result string (Z * Z);
  ecdsa_Verify : ECDSAPublicKey -> string -> Z * Z -> bool;
}.

(** [json.Marshal] of the two structures, and the strict decoding of one value. *)
Class SessionJSON := {
  marshal_header : tokenHeader -> list Z;
  marshal_claims : tokenClaims -> list Z;
  decode_header : list Z -> option tokenHeader;
  decode_claims : list Z -> option tokenClaims;
}.

(** ** Keys *)

(** server/internal/auth/tokens.go:309-317 [publicKeyBytes]: a panic is an error; the
    point that [Bytes] encodes is parsed back as the same key *)
Definition publicKeyBytes (key : ECDSAPublicKey) : result string unit := fine (ep_Bytes key) "invalid ECDSA public key".

(** server/internal/auth/tokens.go:319-327 [privateKeyBytes] *)
Definition privateKeyBytes (key : ECDSAPrivateKey) : result string unit := fine (ek_Bytes key) "invalid ECDSA private key".

(** server/internal/auth/tokens.go:269-279 [validPublicKey] *)
Definition validPublicKey (key : option ECDSAPublicKey) : bool :=
  match key with
  | Some key => match ep_Curve key with P256 => is_ok (publicKeyBytes key) | _ => false end
  | None => false
  end.

(** server/internal/auth/tokens.go:281-291 [validPrivateKey] *)
Definition validPrivateKey (key : option ECDSAPrivateKey) : bool :=
  match key with
  | Some key =>
      validPublicKey (Some (ek_Public key))
      && is_ok (privateKeyBytes key ≫= fun _ => fine (ek_Parse key) "invalid ECDSA private key")
      && String.eqb (ek_Derived key) (ep_Point (ek_Public key))
  | None => false
  end.

(** server/internal/auth/tokens.go:293-299 [copyPublicKey] *)
Definition copyPublicKey (key : ECDSAPublicKey) : result string ECDSAPublicKey := publicKeyBytes key ≫= fun _ => Ok key.

(** server/internal/auth/tokens.go:301-307 [copyPrivateKey] *)
Definition copyPrivateKey (key : ECDSAPrivateKey) : result string ECDSAPrivateKey :=
  privateKeyBytes key ≫= fun _ => fine (ek_Parse key) "invalid ECDSA private key" ≫= fun _ => Ok key.

(** server/internal/auth/tokens.go:83-95 [NewSigner] *)
Definition NewSigner (key : option ECDSAPrivateKey) (now : bool) : result goerr Signer :=
  fail_if (negb (validPrivateKey key)) ErrInvalidKey ≫= fun _ =>
  fail_if (negb now) ErrClockNotWired ≫= fun _ =>
  or_err key ErrInvalidKey ≫= fun key =>
  wrap_err (fun _ => ErrInvalidKey) (copyPrivateKey key) ≫= fun key =>
  Ok (mkSigner (Some key) now).

(** server/internal/auth/tokens.go:98-110 [NewVerifier] *)
Definition NewVerifier (key : option ECDSAPublicKey) (now : bool) : result goerr Verifier :=
  fail_if (negb (validPublicKey key)) ErrInvalidKey ≫= fun _ =>
  fail_if (negb now) ErrClockNotWired ≫= fun _ =>
  or_err key ErrInvalidKey ≫= fun key =>
  wrap_err (fun _ => ErrInvalidKey) (copyPublicKey key) ≫= fun key =>
  Ok (mkVerifier (Some key) now).

(** ** Tokens *)

(** server/internal/auth/tokens.go:231-233 [encodeSegment] *)
Definition encodeSegment (value : list Z) : string := RawURLEncode value.

(** server/internal/auth/tokens.go:237-243 [decodeSegment] *)
Definition decodeSegment (value : string) : option (list Z) :=
  RawURLDecode value ≫= fun decoded => if String.eqb (encodeSegment decoded) value then Some decoded else None.

Section Tokens.
Context {schemes : Schemes} {es256 : ES256} {json : SessionJSON}.

(** The digest that is signed. *)
Definition session_digest (signingInput : string) : string := sha256 (bytes signingInput).

(** server/internal/auth/tokens.go:122-169 [Signer.mint] *)
Definition mint (s : option Signer) (now : time) (random : list Z) (subject : string) (sessionVersion : Z)
    (tokenType : string) (lifetime : Z) : result goerr string :=
  or_err (s ≫= fun s => if sg_now s then sg_key s else None) ErrInvalid ≫= fun key =>
  fail_if (negb (validSubject subject) || (sessionVersion <=? 0)) ErrInvalid ≫= fun _ =>
  fail_if (negb (validTime now)) ErrInvalid ≫= fun _ =>
  let issuedAt := time_unix now in
  let expiresAt := time_unix (now + lifetime) in
  fail_if (expiresAt <=? issuedAt) ErrInvalid ≫= fun _ =>
  let header := marshal_header (mkTokenHeader "ES256" "JWT") in
  let payload := marshal_claims (mkTokenClaims subject tokenType sessionVersion issuedAt expiresAt) in
  let signingInput := encodeSegment header +:+ "." +:+ encodeSegment payload in
  wrap_err (fun m => EWrap "auth: sign token" (EMsg m)) (ecdsa_Sign key (session_digest signingInput) random) ≫= fun '(r, signatureS) =>
  let signature := big_endian 32 r ++ big_endian 32 signatureS in
  let token := signingInput +:+ "." +:+ encodeSegment signature in
  fail_if (maxTokenBytes <? len token) ErrInvalid ≫= fun _ =>
  Ok token.

(** server/internal/auth/tokens.go:112-115 [Signer.MintAccess] *)
Definition MintAccess (s : option Signer) (now : time) (random : list Z) (subject : string) (sessionVersion : Z) : result goerr string :=
  mint s now random subject sessionVersion tokenTypeAccess accessTokenLifetime.

(** server/internal/auth/tokens.go:117-120 [Signer.MintRefresh] *)
Definition MintRefresh (s : option Signer) (now : time) (random : list Z) (subject : string) (sessionVersion : Z) : result goerr string :=
  mint s now random subject sessionVersion tokenTypeRefresh refreshTokenLifetime.

(** server/internal/auth/tokens.go:216-221 [Verifier.verify]: the checks of the claims
    themselves *)
Definition claims_fit (raw : tokenClaims) (expectedType : string) (lifetime : Z) : bool :=
  validSubject (tc_Subject raw) && String.eqb (tc_TokenType raw) expectedType && (0 <? tc_SessionVersion raw)
  && (0 <? tc_IssuedAt raw) && (tc_IssuedAt raw <? tc_ExpiresAt raw)
  && (tc_ExpiresAt raw - tc_IssuedAt raw =? lifetime / second).

(** server/internal/auth/tokens.go:190-229 [Verifier.verify] *)
Definition verify (v : option Verifier) (now : time) (token expectedType : string) (lifetime : Z) (exposeExpiry : bool)
    : result goerr Claims :=
  or_err (v ≫= fun v => if vf_now v then vf_key v else None) ErrInvalid ≫= fun key =>
  fail_if ((len token =? 0) || (maxTokenBytes <? len token)) ErrInvalid ≫= fun _ =>
  fail_if (negb (validTime now)) ErrInvalid ≫= fun _ =>
  match split_on "." token with
  | [part0; part1; part2] =>
      fail_if (String.eqb part0 "" || String.eqb part1 "" || String.eqb part2 "") ErrInvalid ≫= fun _ =>
      or_err (decodeSegment part0 ≫= decode_header) ErrInvalid ≫= fun header =>
      fail_if (negb (String.eqb (th_Algorithm header) "ES256") || negb (String.eqb (th_Type header) "JWT")) ErrInvalid ≫= fun _ =>
      or_err (decodeSegment part2) ErrInvalid ≫= fun signature =>
      fail_if (negb (zlen signature =? 64)) ErrInvalid ≫= fun _ =>
      let digest := session_digest (part0 +:+ "." +:+ part1) in
      fail_if (negb (ecdsa_Verify key digest (from_big_endian (take 32 signature), from_big_endian (drop 32 signature)))) ErrInvalid ≫= fun _ =>
      or_err (decodeSegment part1 ≫= decode_claims) ErrInvalid ≫= fun raw =>
      fail_if (negb (claims_fit raw expectedType lifetime)) ErrInvalid ≫= fun _ =>
      fail_if (tc_ExpiresAt raw <=? time_unix now) (if exposeExpiry then ErrExpired else ErrInvalid) ≫= fun _ =>
      Ok (mkClaims (tc_Subject raw) (tc_SessionVersion raw))
  | _ => Err ErrInvalid
  end.

(** server/internal/auth/tokens.go:173-175 [Verifier.VerifyAccess] *)
Definition VerifyAccess (v : option Verifier) (now : time) (token : string) : result goerr Claims :=
  verify v now token tokenTypeAccess accessTokenLifetime true.

(** server/internal/auth/tokens.go:178-180 [Verifier.VerifyRefresh] *)
Definition VerifyRefresh (v : option Verifier) (now : time) (token : string) : result goerr Claims :=
  verify v now token tokenTypeRefresh refreshTokenLifetime false.

(** ** Authentication *)

Context {unicode : UnicodeLower}.

Definition SessionProg (A : Type) : Type := prog TokenEnv DirDB (result goerr A).

(** server/internal/auth/session_invalidation.go:37-59
    [SessionAuthenticator.AuthenticateAccess] *)
Definition AuthenticateAccess (wired : bool) (v : option Verifier) (token : string) : SessionProg Claims :=
  if negb wired then Ret (Err ErrSessionUnavailable)
  else
    try_prog (look (fun env _ => VerifyAccess v (tn_now env) token)) (fun claims =>
    bind_prog (look (fun env db => UserByID (tn_read env) (cl_Subject claims) (td_tables db))) (fun user =>
    Ret (match user with
         | Err e => Err (if IsNotFound e then ErrInvalid else EWrap "read user session" ErrSessionUnavailable)
         | Ok user =>
             if su_Disabled user || negb (su_SessionVersion user =? cl_SessionVersion claims) then Err ErrInvalid
             else Ok claims
         end))).
End Tokens.

(** ** Laws *)

(** What a key signs, its public half verifies; the scalars of a P-256 signature
    have 256 bits. *)
Class ES256Correct {es256 : ES256} : Prop := {
  ecdsa_range : forall key digest random r s, validPrivateKey (Some key) = true -> ecdsa_Sign key digest random = Ok (r, s) ->
    0 <= r < 2 ^ 256 /\ 0 <= s < 2 ^ 256;
  ecdsa_verifies : forall key digest random rs, validPrivateKey (Some key) = true -> ecdsa_Sign key digest random = Ok rs ->
    ecdsa_Verify (ek_Public key) digest rs = true;
}.

Definition in_int64 (n : Z) : Prop := - max_int64 - 1 <= n <= max_int64.

(** A value is encoded as a text, and read back; strings that are not UTF-8 are
    not kept. *)
Class SessionJSONCorrect {json : SessionJSON} : Prop := {
  header_text : forall h, marshal_header h <> [] /\ Forall is_byte (marshal_header h);
  claims_text : forall c, marshal_claims c <> [] /\ Forall is_byte (marshal_claims c);
  header_back : forall h, valid_utf8 (th_Algorithm h) = true -> valid_utf8 (th_Type h) = true -> decode_header (marshal_header h) = Some h;
  claims_back : forall c, valid_utf8 (tc_Subject c) = true -> valid_utf8 (tc_TokenType c) = true -> in_int64 (tc_SessionVersion c) ->
    in_int64 (tc_IssuedAt c) -> in_int64 (tc_ExpiresAt c) -> decode_claims (marshal_claims c) = Some c;
}.

(** ** Segments *)

Lemma decodeSegment_encode bs : Forall is_byte bs -> decodeSegment (encodeSegment bs) = Some bs.
Proof. intros H. unfold decodeSegment, encodeSegment. rewrite RawURLDecode_encode by done. cbn. by rewrite String.eqb_refl. Qed.

Lemma encodeSegment_plain bs : Forall is_byte bs -> contains_byte "." (encodeSegment bs) = false.
Proof.
  intros H. destruct (encode_groups_ok bs H) as [Hr _]. apply not_true_is_false. rewrite contains_byte_spec.
  unfold encodeSegment, RawURLEncode. rewrite list_ascii_of_string_of_list_ascii. intros (v & Hv & Hin)%list_elem_of_fmap.
  rewrite Forall_forall in Hr. specialize (Hr v Hin). cbn beta in Hr.
  assert (negb (Ascii.eqb (sextet_char v) ".") = true) as Hc.
  { revert Hr. apply (forallb_seqZ (fun v => negb (Ascii.eqb (sextet_char v) "."))). by vm_compute. }
  by rewrite <- Hv in Hc.
Qed.

Lemma encodeSegment_some bs : bs <> [] -> String.eqb (encodeSegment bs) "" = false.
Proof. destruct bs as [|a [|b [|c bs]]]; try done; intros _; done. Qed.

Lemma split_on_last c s : contains_byte c s = false -> split_on c s = [s].
Proof.
  induction s as [|a s IH]; [done|]. intros [Ha Hs]%orb_false_iff. cbn [split_on]. by rewrite Ha, (IH Hs).
Qed.

(** A text of three segments is split into them. *)
Lemma split_segments a b c :
  contains_byte "." a = false -> contains_byte "." b = false -> contains_byte "." c = false ->
  split_on "." ((a +:+ "." +:+ b) +:+ "." +:+ c) = [a; b; c].
Proof.
  intros Ha Hb Hc. rewrite !text_app_assoc.
  change (a +:+ ("." +:+ (b +:+ ("." +:+ c)))) with (a +:+ String "." (b +:+ String "." c)).
  by rewrite !split_on_app_no_sep, split_on_last by done.
Qed.

Lemma from_big_endian_fits n : 0 <= n < 2 ^ 256 -> from_big_endian (big_endian 32 n) = n.
Proof. intros H. rewrite big_endian_value. by apply Z.mod_small. Qed.

Lemma big_endian_bytes k n : Forall is_byte (big_endian k n).
Proof.
  induction k as [|k IH]; constructor; [|done]. unfold is_byte. change 255 with (Z.ones 8). rewrite Z.land_ones by lia.
  pose proof (Z.mod_pos_bound (Z.shiftr n (8 * Z.of_nat k)) (2 ^ 8) ltac:(lia)). lia.
Qed.

(** ** What a minted token is *)

Section Minted.
Context {schemes : Schemes} {es256 : ES256} {json : SessionJSON} {es256_correct : ES256Correct} {json_correct : SessionJSONCorrect}.

Definition minted_claims (now : time) (subject : string) (version : Z) (tokenType : string) (lifetime : Z) : tokenClaims :=
  mkTokenClaims subject tokenType version (time_unix now) (time_unix (now + lifetime)).

(** What [mint] checked, and the token's three segments. *)
Record minted_token (key : ECDSAPrivateKey) (now : time) (random : list Z) (subject : string) (version : Z) (tokenType : string)
    (lifetime : Z) (token : string) : Prop := {
  mt_subject : validSubject subject = true;
  mt_version : 0 < version;
  mt_time : validTime now = true;
  mt_len : len token <= maxTokenBytes;
  mt_segments : exists r s,
    let input := encodeSegment (marshal_header (mkTokenHeader "ES256" "JWT")) +:+ "." +:+
                 encodeSegment (marshal_claims (minted_claims now subject version tokenType lifetime)) in
    ecdsa_Sign key (session_digest input) random = Ok (r, s)
    /\ token = input +:+ "." +:+ encodeSegment (big_endian 32 r ++ big_endian 32 s);
}.

Lemma NewSigner_ok key signer : NewSigner (Some key) true = Ok signer -> signer = mkSigner (Some key) true /\ validPrivateKey (Some key) = true.
Proof.
  unfold NewSigner. intros (u & Hv%fail_if_ok%negb_false_iff & H)%bind_ok. cbn [negb fail_if mbind result_bind or_err] in H.
  apply bind_ok in H as (k & Hk%wrap_err_ok & [= <-]). apply bind_ok in Hk as (? & _ & Hk). by apply bind_ok in Hk as (? & _ & [= <-]).
Qed.

Lemma NewVerifier_ok key verifier : NewVerifier (Some key) true = Ok verifier -> verifier = mkVerifier (Some key) true.
Proof.
  unfold NewVerifier. intros (u & _ & H)%bind_ok. cbn [negb fail_if mbind result_bind or_err] in H.
  apply bind_ok in H as (k & Hk%wrap_err_ok & [= <-]). by apply bind_ok in Hk as (? & _ & [= <-]).
Qed.

Lemma mint_token key now random subject version tokenType lifetime token :
  mint (Some (mkSigner (Some key) true)) now random subject version tokenType lifetime = Ok token ->
  minted_token key now random subject version tokenType lifetime token.
Proof.
  unfold mint. cbn [mbind option_bind sg_now sg_key or_err result_bind].
  intros (u1 & [Hs%negb_false_iff Hv%Z.leb_gt]%fail_if_ok%orb_false_iff & H)%bind_ok.
  apply bind_ok in H as (u2 & Ht%fail_if_ok%negb_false_iff & H). cbv zeta in H. apply bind_ok in H as (u3 & _ & H).
  apply bind_ok in H as ([r s] & Hsign%wrap_err_ok & H). apply bind_ok in H as (u4 & Hl%fail_if_ok%Z.ltb_ge & [= <-]).
  split; [done|done|done|done|]. by exists r, s.
Qed.

(** What [verify] reads in it. *)
Lemma verify_minted key now random subject version tokenType lifetime token now' expectedType lifetime' exposeExpiry :
  validPrivateKey (Some key) = true -> minted_token key now random subject version tokenType lifetime token ->
  valid_utf8 tokenType = true -> version <= max_int64 -> 0 <= lifetime -> time_unix (now + lifetime) <= max_int64 ->
  verify (Some (mkVerifier (Some (ek_Public key)) true)) now' token expectedType lifetime' exposeExpiry
  = (fail_if (negb (validTime now')) ErrInvalid ≫= fun _ =>
     fail_if (negb (claims_fit (minted_claims now subject version tokenType lifetime) expectedType lifetime')) ErrInvalid ≫= fun _ =>
     fail_if (time_unix (now + lifetime) <=? time_unix now') (if exposeExpiry then ErrExpired else ErrInvalid) ≫= fun _ =>
     Ok (mkClaims subject version)).
Proof.
  intros Hkey [Hs Hv Ht Hl (r & s & Hsign & Heq)] Htt Hvm Hlt Hmax.
  destruct (ecdsa_range _ _ _ _ _ Hkey Hsign) as [Hr Hss]. pose proof (ecdsa_verifies _ _ _ _ Hkey Hsign) as Hver.
  set (h := mkTokenHeader "ES256" "JWT") in *. set (c := minted_claims now subject version tokenType lifetime) in *.
  destruct (header_text h) as [Hh0 Hhb]. destruct (claims_text c) as [Hc0 Hcb].
  pose proof (Forall_app_2 _ _ _ (big_endian_bytes 32 r) (big_endian_bytes 32 s)) as Hsb.
  assert (length (big_endian 32 r) = 32%nat) as Hlr by apply length_big_endian.
  assert (time_unix now <= time_unix (now + lifetime)) as Hmono by (apply Z.div_le_mono; [done|lia]).
  assert (0 < time_unix now) as Hpos by (apply andb_true_iff in Ht as [_ Ht]; lia).
  assert (decode_claims (marshal_claims c) = Some c) as Hdc.
  { apply claims_back; cbn; unfold in_int64; [|done|lia..]. unfold validSubject in Hs. by apply andb_true_iff in Hs as [_ Hs]. }
  assert (split_on "." token = [encodeSegment (marshal_header h); encodeSegment (marshal_claims c);
                                encodeSegment (big_endian 32 r ++ big_endian 32 s)]) as Hsplit.
  { rewrite Heq. apply split_segments; by apply encodeSegment_plain. }
  unfold verify. cbn [mbind option_bind vf_now vf_key or_err result_bind]. rewrite Hsplit.
  assert ((len token =? 0) || (maxTokenBytes <? len token) = false) as ->.
  { rewrite (proj2 (Z.ltb_ge _ _)) by done. rewrite orb_false_r. apply Z.eqb_neq.
    rewrite Heq, !len_app. change (len ".") with 1. pose proof (fun t => Zle_0_nat (String.length t)) as Hn.
    unfold len. repeat match goal with |- context [Z.of_nat (String.length ?t)] => pose proof (Hn t); generalize dependent (Z.of_nat (String.length t)); intros end. lia. }
  cbn [fail_if mbind result_bind]. rewrite !encodeSegment_some by (try done; by destruct (big_endian 32 r)).
  cbn [orb fail_if]. rewrite !decodeSegment_encode by done. cbn [mbind option_bind]. rewrite header_back by done.
  cbn [or_err mbind result_bind th_Algorithm th_Type h String.eqb Ascii.eqb Bool.eqb negb orb fail_if].
  assert (zlen (big_endian 32 r ++ big_endian 32 s) =? 64 = true) as ->.
  { unfold zlen. by rewrite length_app, !length_big_endian. }
  rewrite take_app_length', drop_app_length', !from_big_endian_fits by done.
  rewrite Hver, Hdc. cbn [negb fail_if mbind result_bind or_err].
  done.
Qed.

Lemma time_unix_add now lifetime : 0 <= lifetime -> lifetime mod second = 0 -> time_unix (now + lifetime) = time_unix now + lifetime / second.
Proof.
  intros H0 Hm. unfold time_unix. rewrite (Z.div_mod lifetime second) at 1 by done. rewrite Hm, Z.add_0_r.
  by rewrite Z.mul_comm, Z.div_add by done.
Qed.

(** The claims that [mint] writes fit their own purpose only. *)
Lemma minted_fit now subject version tokenType lifetime expectedType lifetime' :
  validSubject subject = true -> 0 < version -> validTime now = true -> 0 < lifetime / second -> lifetime mod second = 0 -> 0 <= lifetime ->
  claims_fit (minted_claims now subject version tokenType lifetime) expectedType lifetime'
  = String.eqb tokenType expectedType && (lifetime / second =? lifetime' / second).
Proof.
  intros Hs Hv Ht Hl Hm H0. unfold claims_fit. cbn [minted_claims tc_Subject tc_TokenType tc_SessionVersion tc_IssuedAt tc_ExpiresAt].
  rewrite Hs, (proj2 (Z.ltb_lt _ _) Hv), time_unix_add by done. apply andb_true_iff in Ht as [_ Ht]. rewrite Ht, (proj2 (Z.ltb_lt _ _)) by lia.
  rewrite Z.add_simpl_l. by destruct (String.eqb tokenType expectedType).
Qed.

Lemma verify_own key now random subject version tokenType lifetime token now' exposeExpiry :
  validPrivateKey (Some key) = true -> minted_token key now random subject version tokenType lifetime token ->
  valid_utf8 tokenType = true -> version <= max_int64 -> 0 < lifetime / second -> lifetime mod second = 0 -> 0 <= lifetime ->
  time_unix (now + lifetime) <= max_int64 -> validTime now' = true ->
  verify (Some (mkVerifier (Some (ek_Public key)) true)) now' token tokenType lifetime exposeExpiry
  = if time_unix now' <? time_unix now + lifetime / second then Ok (mkClaims subject version)
    else Err (if exposeExpiry then ErrExpired else ErrInvalid).
Proof.
  intros Hk Hm Htt Hv Hl Hmod H0 Hmax Hn. pose proof Hm as [Hs Hv0 Ht _ _]. rewrite (verify_minted key now random subject version tokenType lifetime) by done.
  rewrite minted_fit, String.eqb_refl, Z.eqb_refl, Hn by done. cbn [andb negb fail_if mbind result_bind]. rewrite time_unix_add by done.
  rewrite Z.ltb_antisym. by destruct (_ <=? _).
Qed.

Lemma verify_other key now random subject version tokenType lifetime token now' expectedType lifetime' exposeExpiry :
  validPrivateKey (Some key) = true -> minted_token key now random subject version tokenType lifetime token ->
  valid_utf8 tokenType = true -> version <= max_int64 -> 0 < lifetime / second -> lifetime mod second = 0 -> 0 <= lifetime ->
  time_unix (now + lifetime) <= max_int64 -> String.eqb tokenType expectedType = false ->
  verify (Some (mkVerifier (Some (ek_Public key)) true)) now' token expectedType lifetime' exposeExpiry = Err ErrInvalid.
Proof.
  intros Hk Hm Htt Hv Hl Hmod H0 Hmax Hne. pose proof Hm as [Hs Hv0 Ht _ _]. rewrite (verify_minted key now random subject version tokenType lifetime) by done.
  rewrite minted_fit, Hne by done. by destruct (validTime now').
Qed.
End Minted.

(** C26. A session token is what it was minted for and nothing else. With one
    ES256 key on both sides, an access token minted for a subject and a session
    version verifies as an access token, with that subject and version, at every
    instant before five minutes have passed, and afterwards gives the distinct
    expiry error; at no instant does it verify as a refresh token. A refresh token
    verifies for seven days and then is rejected like any other failure, and it is
    never an access token. *)
Theorem minted_session_verifies {schemes : Schemes} {es256 : ES256} {json : SessionJSON} {es256_correct : ES256Correct}
    {json_correct : SessionJSONCorrect} key signer verifier now now' random subject version access refresh :
  NewSigner (Some key) true = Ok signer -> NewVerifier (Some (ek_Public key)) true = Ok verifier ->
  version <= max_int64 -> time_unix now <= max_int64 - 604800 -> validTime now' = true ->
  MintAccess (Some signer) now random subject version = Ok access ->
  MintRefresh (Some signer) now random subject version = Ok refresh ->
  VerifyAccess (Some verifier) now' access
    = (if time_unix now' <? time_unix now + 300 then Ok (mkClaims subject version) else Err ErrExpired)
  /\ VerifyRefresh (Some verifier) now' access = Err ErrInvalid
  /\ VerifyRefresh (Some verifier) now' refresh
     = (if time_unix now' <? time_unix now + 604800 then Ok (mkClaims subject version) else Err ErrInvalid)
  /\ VerifyAccess (Some verifier) now' refresh = Err ErrInvalid.
Proof.
  intros [-> Hk]%NewSigner_ok ->%NewVerifier_ok Hv Hmax Hn Ha%mint_token Hr%mint_token.
  assert (forall lifetime, 0 <= lifetime -> lifetime mod second = 0 -> lifetime / second <= 604800 -> time_unix (now + lifetime) <= max_int64) as Hfit.
  { intros l H0 Hm Hl. rewrite time_unix_add by done. lia. }
  assert (accessTokenLifetime / second = 300 /\ refreshTokenLifetime / second = 604800) as [Ea Er] by by split.
  unfold VerifyAccess, VerifyRefresh. split_and!.
  - erewrite verify_own by (try done; by apply Hfit). by rewrite Ea.
  - eapply verify_other; try done; by apply Hfit.
  - erewrite verify_own by (try done; by apply Hfit). by rewrite Er.
  - eapply verify_other; try done; by apply Hfit.
Qed.

(** ** Authentication and the directory *)

Section Authentication.
Context {schemes : Schemes} {es256 : ES256} {json : SessionJSON} {unicode : UnicodeLower} {urls : URLs} {bcrypt : Bcrypt}.

(** What a read of a user by identifier shows. *)
Lemma UserByID_shows fault userID t user :
  UserByID fault userID t = Ok user ->
  exists row, canonicalUserID userID = Ok (to_upper userID) /\ dt_users t !! to_upper userID = Some row
    /\ su_SessionVersion user = ur_SessionVersion row /\ su_Disabled user = ur_Disabled row.
Proof.
  unfold UserByID. intros (id & Hid & H)%bind_ok. assert (id = to_upper userID) as ->.
  { unfold canonicalUserID in Hid. by apply bind_ok in Hid as (? & _ & [= <-]). }
  apply bind_ok in H as (row & Hr%wrap_err_ok & H). apply bind_ok in Hr as (u & _ & Hr%or_err_ok). exists row. split; [done|]. split; [done|].
  unfold validateUserProjection in H. apply bind_ok in H as (? & _ & H). apply bind_ok in H as (? & _ & H). by apply bind_ok in H as (? & _ & [= <-]).
Qed.

(** C25. What [AuthenticateAccess] decides, in a directory reached by any history:
    with a readable database a token is accepted exactly when it verifies at this
    instant and its user - whatever the case of the identifier it names - has a
    row that is not disabled and has the token's own session version. *)
Theorem AuthenticateAccess_decides_exactly env db v token claims :
  rtc dir_append empty_directory db -> tn_read env = None ->
  run_prog env db (AuthenticateAccess true v token) = (db, Ok claims)
  <-> VerifyAccess v (tn_now env) token = Ok claims
      /\ exists row, canonicalUserID (cl_Subject claims) = Ok (to_upper (cl_Subject claims))
           /\ dt_users (td_tables db) !! to_upper (cl_Subject claims) = Some row
           /\ ur_Disabled row = false /\ ur_SessionVersion row = cl_SessionVersion claims.
Proof.
  intros Hr Hq. pose proof (reachable_inv db Hr) as HI. unfold AuthenticateAccess. cbn [negb].
  unfold try_prog. rewrite run_bind. cbn [run_prog look]. destruct (VerifyAccess v (tn_now env) token) as [c|e]; [|naive_solver].
  rewrite run_bind. cbn [run_prog look]. rewrite Hq. destruct (UserByID None (cl_Subject c) (td_tables db)) as [user|e] eqn:Hu; split.
  - intros [= H]. destruct (su_Disabled user) eqn:Hd; [done|]. destruct (su_SessionVersion user =? cl_SessionVersion c) eqn:Hs; [|done].
    cbn in H. injection H as <-. apply Z.eqb_eq in Hs. destruct (UserByID_shows _ _ _ _ Hu) as (row & H1 & H2 & H3 & H4).
    split; [done|]. exists row. split_and!; congruence.
  - intros ([= <-] & row & _ & Hrow & Hd & Hs). destruct (UserByID_shows _ _ _ _ Hu) as (row' & _ & H2 & H3 & H4).
    assert (row' = row) as -> by congruence. by rewrite H3, H4, Hd, Hs, Z.eqb_refl.
  - intros [= H].
  - intros ([= <-] & row & Hc & Hrow & _ & _). exfalso. revert Hu. unfold UserByID. rewrite Hc. cbn [mbind result_bind may_fault]. rewrite Hrow.
    cbn [or_err wrap_err mbind result_bind]. by rewrite (proj2 (read_row_ok db _ row HI Hrow)).
Qed.

Notation moves := (rtc dir_append).

Lemma retired_stable id n : stable dir_inv moves (retired id n).
Proof.
  intros db db' HI _ Hm. induction Hm as [db|db1 db2 db3 H12 H23 IH]; [done|]. intros H.
  apply IH; [by eapply dir_append_inv|by eapply retired_append].
Qed.

(** A call that begins when a user's sessions are retired accepts only later ones. *)
Lemma AuthenticateAccess_judged id n wired v token :
  rg dir_inv moves moves (fun r _ => match r with Ok claims => to_upper (cl_Subject claims) = id -> n < cl_SessionVersion claims | Err _ => True end)
    (retired id n) (AuthenticateAccess wired v token).
Proof.
  unfold AuthenticateAccess. destruct (negb wired); [by intros db _ _|].
  eapply rg_look_try with (Q := fun _ => retired id n); [apply _|by intros e db|intros; apply retired_stable|done|]. intros claims.
  eapply rg_bind with (Q := fun r _ => match r with
    | Ok user => to_upper (cl_Subject claims) = id -> n < su_SessionVersion user | Err _ => True end).
  - apply rg_look; [apply _|intros; apply stable_const|]. intros env db HI [_ Hn].
    destruct (UserByID _ _ _) as [user|e] eqn:Hu; [|done]. destruct (UserByID_shows _ _ _ _ Hu) as (row & _ & Hrow & -> & _). naive_solver.
  - intros [user|e]; [|by intros db _ _]. intros db _ Hn. cbv beta iota.
    destruct (su_Disabled user); [done|]. destruct (_ =? _) eqn:Hs; [|done]. apply Z.eqb_eq in Hs. cbn. by rewrite <- Hs.
Qed.

Lemma session_calls id n (calls : list (bool * option Verifier * string)) db db' ts :
  dir_inv db -> retired id n db ->
  rtc (sched_step dir_append) (db, (fun c => AuthenticateAccess c.1.1 c.1.2 c.2) <$> calls) (db', ts) ->
  forall j claims, ts !! j = Some (Ret (Ok claims)) -> to_upper (cl_Subject claims) = id -> n < cl_SessionVersion claims.
Proof.
  intros HI Hret Hr j claims Hj.
  set (Q := fun (r : result goerr Claims) (_ : DirDB) =>
    match r with Ok claims => to_upper (cl_Subject claims) = id -> n < cl_SessionVersion claims | Err _ => True end).
  destruct (rg_sound dir_inv moves moves ((fun _ => Q) <$> calls) dir_append _ _ (fun _ _ H => H)
              ltac:(intros s s' Hs Ha; split; [by apply rtc_once|by eapply dir_append_inv]) Hr) as (HI' & _ & Hall).
  - exact HI.
  - apply Forall2_fmap, Forall_Forall2_diag, Forall_true. intros call. exists (retired id n).
    split; [apply retired_stable|split; [done|apply AuthenticateAccess_judged]].
  - destruct (Forall2_lookup_r _ _ _ _ _ Hall Hj) as (Q' & HQ & Hp). rewrite list_lookup_fmap in HQ.
    destruct (calls !! j); [|done]. injection HQ as <-. exact (on_track_done _ _ _ Q db' (Ok claims) HI' Hp).
Qed.

(** C24. An invalidation ends the sessions of its user for good. Once one of the
    five invalidating events is appended to the user's stream - the user is
    disabled, a role of the user is revoked, an OIDC identity of the user is
    unlinked, a SCIM user is deprovisioned or a managed user is deleted; the
    unlinking of a SCIM identity is not among them - no call of
    [AuthenticateAccess] that begins afterwards - however calls interleave with
    each other and with any later events of the directory, and whatever fails -
    accepts a token for that user whose session version is not newer than the
    one the user had: no token minted before the invalidation is ever accepted
    again. *)
Theorem invalidated_sessions_stay_invalid event (calls : list (bool * option Verifier * string)) db db1 db2 row ts j claims :
  rtc dir_append empty_directory db ->
  te_StreamType event = userStreamType -> is_canonical_user (te_StreamID event) = true -> invalidates (te_Payload event) = true ->
  dt_users (td_tables db) !! te_StreamID event = Some row ->
  appended (projectDirectory false) event db db1 ->
  rtc (sched_step dir_append) (db1, (fun c => AuthenticateAccess c.1.1 c.1.2 c.2) <$> calls) (db2, ts) ->
  ts !! j = Some (Ret (Ok claims)) -> to_upper (cl_Subject claims) = te_StreamID event ->
  ur_SessionVersion row < cl_SessionVersion claims.
Proof.
  intros Hreach Hs Hid Hinv Hrow Happ Hr Hj. pose proof (reachable_inv db Hreach) as HI.
  assert (dir_inv db1) as HI1.
  { apply (dir_append_inv db); [done|]. exists event. split; [|done]. revert Hs Hinv. by destruct (te_Payload event). }
  apply (session_calls (te_StreamID event) (ur_SessionVersion row) calls db1 db2 ts HI1) with (j := j); [|done|done].
  by apply (invalidation_retires event db).
Qed.
End Authentication.

(** ** A session *)

Module SessionExample.
Import DirectoryExample.

(** A signature of a digest, as a number that anybody could compute. *)
#[export] Instance es256 : ES256 := {|
  ecdsa_Sign key digest random := Ok (from_big_endian (bytes digest) mod 2 ^ 256, 1);
  ecdsa_Verify key digest rs := bool_decide (rs = (from_big_endian (bytes digest) mod 2 ^ 256, 1));
|}.

#[export] Instance es256_correct : ES256Correct.
Proof.
  split.
  - intros key digest random r s _ [= <- <-]. split; [apply Z.mod_pos_bound|]; done.
  - intros key digest random rs _ [= <-]. by apply bool_decide_eq_true.
Qed.

(** A codec: the bits of a number that stands for the value. *)
Fixpoint bits (p : positive) : list Z :=
  match p with xH => [2] | xO p => 0 :: bits p | xI p => 1 :: bits p end.
Fixpoint unbits (l : list Z) : option positive :=
  match l with
  | [] => None
  | b :: l => if b =? 2 then Some xH else p ← unbits l; Some (if b =? 0 then xO p else xI p)
  end.

Lemma unbits_bits p : unbits (bits p) = Some p.
Proof. induction p as [p IH|p IH|]; cbn; [by rewrite IH|by rewrite IH|done]. Qed.

Lemma bits_bytes p : bits p <> [] /\ Forall is_byte (bits p).
Proof. split; [by destruct p|]. induction p; cbn; repeat constructor; try done; unfold is_byte; lia. Qed.

#[export] Instance json : SessionJSON := {|
  marshal_header h := bits (countable.encode (th_Algorithm h, th_Type h));
  marshal_claims c := bits (countable.encode (tc_Subject c, tc_TokenType c, (tc_SessionVersion c, tc_IssuedAt c, tc_ExpiresAt c)));
  decode_header text := p ← unbits text; '(a, t) ← countable.decode p; Some (mkTokenHeader a t);
  decode_claims text := p ← unbits text; '(s, t, (v, i, e)) ← countable.decode p; Some (mkTokenClaims s t v i e);
|}.

#[export] Instance json_correct : SessionJSONCorrect.
Proof.
  split.
  - intros h. apply bits_bytes.
  - intros c. apply bits_bytes.
  - intros [a t] _ _. cbn [marshal_header decode_header json]. rewrite unbits_bits. cbn [mbind option_bind]. by rewrite decode_encode.
  - intros [s t v i e] _ _ _ _ _. cbn [marshal_claims decode_claims json]. rewrite unbits_bits. cbn [mbind option_bind]. by rewrite decode_encode.
Qed.

Definition public : ECDSAPublicKey := mkECDSAPublicKey P256 Fine "point".
Definition key : ECDSAPrivateKey := mkECDSAPrivateKey public Fine Fine "point".
Definition signer : Signer := mkSigner (Some key) true.
Definition verifier : Verifier := mkVerifier (Some public) true.

Definition now : time := 1700000000 * second.
Definition later : time := 1700000100 * second.
Definition env : TokenEnv := mkTokenEnv (mkAppendEnv None Committed 0) None later None None.

Definition token (r : result goerr string) : string := match r with Ok t => t | Err _ => "" end.
Definition access1 : string := Eval vm_compute in token (MintAccess (Some signer) now [] ann 1).
Definition access2 : string := Eval vm_compute in token (MintAccess (Some signer) now [] ann 2).
Definition refresh1 : string := Eval vm_compute in token (MintRefresh (Some signer) now [] ann 1).

Lemma access1_minted : MintAccess (Some signer) now [] ann 1 = Ok access1.
Proof. vm_compute. reflexivity. Qed.

Lemma refresh1_minted : MintRefresh (Some signer) now [] ann 1 = Ok refresh1.
Proof. vm_compute. reflexivity. Qed.

(** The directory before a role of the first user is revoked, and after. *)
Definition before : DirDB := Eval vm_compute in match run_events (take 8 history) empty_directory with Ok db => db | Err _ => empty_directory end.
Definition revocation : DirEvent := userEvent ann (roleRevoked "operator").
Definition after : DirDB := Eval vm_compute in match run_events [(0, revocation)] before with Ok db => db | Err _ => before end.

Lemma before_reached : rtc dir_append empty_directory before.
Proof. apply (run_events_reach (take 8 history)); vm_compute; reflexivity. Qed.

Lemma revoked : appended (projectDirectory false) revocation before after.
Proof. apply (insert_typed_ok (projectDirectory false) 0 revocation (typed_version userStreamType ann (td_log before) + 1)); [|reflexivity]. vm_compute. reflexivity. Qed.

Definition calls : list (bool * option Verifier * string) := [(true, Some verifier, access1); (true, Some verifier, access2)].

(** The old token is refused, a new one accepted. *)
Lemma calls_run :
  run_all env after ((fun c => AuthenticateAccess c.1.1 c.1.2 c.2) <$> calls) = (after, [Err ErrInvalid; Ok (mkClaims ann 2)]).
Proof. vm_compute. reflexivity. Qed.

Lemma calls_schedule :
  rtc (sched_step dir_append) (after, (fun c => AuthenticateAccess c.1.1 c.1.2 c.2) <$> calls)
    (after, [Ret (Err ErrInvalid); Ret (Ok (mkClaims ann 2))]).
Proof.
  pose proof (run_all_schedule dir_append env after [] ((fun c => AuthenticateAccess c.1.1 c.1.2 c.2) <$> calls)) as H.
  rewrite calls_run in H. exact H.
Qed.
End SessionExample.

Lemma minted_session_verifies_witness :
  VerifyAccess (schemes := DirectoryExample.schemes) (es256 := SessionExample.es256) (json := SessionExample.json) (Some SessionExample.verifier) SessionExample.later SessionExample.access1
    = Ok (mkClaims DirectoryExample.ann 1)
  /\ VerifyRefresh (schemes := DirectoryExample.schemes) (es256 := SessionExample.es256) (json := SessionExample.json) (Some SessionExample.verifier) SessionExample.later SessionExample.access1 = Err ErrInvalid.
Proof.
  destruct (minted_session_verifies (schemes := DirectoryExample.schemes) (es256 := SessionExample.es256) (json := SessionExample.json)
    (es256_correct := SessionExample.es256_correct) (json_correct := SessionExample.json_correct) SessionExample.key SessionExample.signer
    SessionExample.verifier SessionExample.now SessionExample.later [] DirectoryExample.ann 1 SessionExample.access1 SessionExample.refresh1
    eq_refl eq_refl ltac:(done) ltac:(done) eq_refl SessionExample.access1_minted SessionExample.refresh1_minted) as (H1 & H2 & _).
  split; [exact H1|exact H2].
Defined.

Lemma AuthenticateAccess_decides_exactly_witness :
  run_prog SessionExample.env SessionExample.before
    (AuthenticateAccess (schemes := DirectoryExample.schemes) (es256 := SessionExample.es256) (json := SessionExample.json) (unicode := DirectoryExample.unicode) true (Some SessionExample.verifier)
       SessionExample.access1)
  = (SessionExample.before, Ok (mkClaims DirectoryExample.ann 1)).
Proof.
  apply (AuthenticateAccess_decides_exactly (schemes := DirectoryExample.schemes) (es256 := SessionExample.es256) (json := SessionExample.json)
    (unicode := DirectoryExample.unicode) (urls := DirectoryExample.urls) (bcrypt := DirectoryExample.bcrypt) SessionExample.env
    SessionExample.before (Some SessionExample.verifier) SessionExample.access1 (mkClaims DirectoryExample.ann 1)
    SessionExample.before_reached eq_refl).
  split; [vm_compute; reflexivity|]. exists (mkUserRow "ann@example.org" 1 false 2 0). split_and!; vm_compute; reflexivity.
Defined.

Lemma invalidated_sessions_stay_invalid_witness : ur_SessionVersion (mkUserRow "ann@example.org" 1 false 2 0) < 2.
Proof.
  exact (invalidated_sessions_stay_invalid (schemes := DirectoryExample.schemes) (es256 := SessionExample.es256) (json := SessionExample.json)
    (unicode := DirectoryExample.unicode) (urls := DirectoryExample.urls) (bcrypt := DirectoryExample.bcrypt) SessionExample.revocation
    SessionExample.calls SessionExample.before SessionExample.after SessionExample.after (mkUserRow "ann@example.org" 1 false 2 0)
    _ 1 (mkClaims DirectoryExample.ann 2) SessionExample.before_reached eq_refl eq_refl eq_refl eq_refl SessionExample.revoked
    SessionExample.calls_schedule eq_refl eq_refl).
Defined.
