(* ===== verification/Pats.v ===== *)
(** * [server/internal/store/personal_access_tokens.go],
    [server/internal/auth/pats.go]: personal access tokens

    The token table with its projectors, and the service that mints,
    authenticates and revokes tokens: programs of reads, clock readings and
    pinned appends that interleave with each other and with the management of
    tokens.  Only a token's hash is stored. *)

From Stdlib Require Import Ascii String ZArith Lia.
From S2P Require Export AuthGate.
From S2P Require Export Users.

(** server/internal/store/personal_access_tokens.go:18-28 [personalAccessTokenStreamType] *)
Definition personalAccessTokenStreamType : string := "personal-access-token".
Definition maxPATSubjectBytes : Z := 1024.

(** server/internal/store/personal_access_tokens.go:34-42 [PersonalAccessToken] *)
Record PersonalAccessToken := mkPersonalAccessToken {
  pt_TokenID : string;
  pt_Subject : string;
  pt_Hash : string;
  pt_Scopes : list string;
  pt_ExpiresAt : time;
  pt_Revoked : bool;
  pt_ProjectionVersion : Z;
}.

(** server/internal/store/personal_access_tokens.go:45-52 [PersonalAccessTokenMetadata] *)
Record PersonalAccessTokenMetadata := mkPersonalAccessTokenMetadata {
  pm_TokenID : string;
  pm_Subject : string;
  pm_Scopes : list string;
  pm_ExpiresAt : time;
  pm_Revoked : bool;
  pm_ProjectionVersion : Z;
}.

(** server/internal/store/personal_access_tokens.go:54-68 [personalAccessTokenMintedPayload]:
    the payloads of the four event types *)
Inductive patPayload :=
| personalAccessTokenMinted (Subject : string) (Scopes : list string) (TokenHash : string) (ExpiresAt : time)
| personalAccessTokenRevoked
| personalAccessTokenUpdated (Subject : string) (Scopes : list string) (ExpiresAt : time) (Revoked : bool)
| personalAccessTokenDeleted.

(** server/internal/store/migrations/015_personal_access_tokens.sql:5-27 [personal_access_tokens] *)
Record PATRow := mkPATRow {
  pw_Subject : string;
  pw_Scopes : list string;
  pw_TokenHash : string;
  pw_ExpiresAt : time;
  pw_Revoked : bool;
  pw_ProjectionVersion : Z;
  pw_UpdatedAt : time;
}.

Notation PATTable := (gmap string PATRow).
Definition PATEvent : Type := TypedEvent patPayload.
Definition PATEventRow : Type := TypedRow patPayload.
Definition PATDB : Type := TypedDB patPayload PATTable.

Definition errPersonalAccessTokenExists : goerr := ESentinel "store: personal access token already exists".

(** ** Validation *)

(** server/internal/store/personal_access_tokens.go:318-323 [canonicalPATID] *)
Definition canonicalPATID (tokenID : string) : result goerr string :=
  wrap_err (fun m => EWrap "store: PAT ID is invalid" (EMsg m)) (ULIDPathID tokenID) ≫= fun _ => Ok (to_upper tokenID).

(** server/internal/store/personal_access_tokens.go:325-331 [validatePATSubject] *)
Definition validatePATSubject (subject : string) : result goerr unit :=
  fail_if ((len subject =? 0) || (maxPATSubjectBytes <? len subject) || negb (valid_utf8 subject)
           || contains_byte "000" subject) (EMsg "store: PAT subject is invalid").

(** server/internal/store/personal_access_tokens.go:333-343 [validatePATScopes]: the
    loop, over the scope before *)
Fixpoint check_pat_scopes (before : option string) (scopes : list string) : result goerr unit :=
  match scopes with
  | [] => Ok tt
  | scope :: rest =>
      fail_if (negb (validPATScope scope)
               || match before with Some p => negb (String.ltb p scope) | None => false end)
        (EMsg "store: PAT scopes are invalid") ≫= fun _ => check_pat_scopes (Some scope) rest
  end.

(** server/internal/store/personal_access_tokens.go:333-343 [validatePATScopes] *)
Definition validatePATScopes (scopes : list string) : result goerr unit :=
  fail_if ((zlen scopes =? 0) || (maxPATScopes <? zlen scopes)) (EMsg "store: PAT scopes are invalid") ≫= fun _ =>
  check_pat_scopes None scopes.

(** server/internal/store/personal_access_tokens.go:361-366 [validatePATExpiry] *)
Definition validatePATExpiry (expiresAt : time) : result goerr unit :=
  fail_if (time_is_zero expiresAt || (time_unix expiresAt <=? 0)) (EMsg "store: PAT expiry is invalid").

(** The checks that the events with metadata share. *)
Definition validate_pat_metadata (subject : string) (scopes : list string) (expiresAt : time) : result goerr unit :=
  validatePATSubject subject ≫= fun _ => validatePATScopes scopes ≫= fun _ => validatePATExpiry expiresAt.

(** ** Events *)

(** server/internal/store/personal_access_tokens.go:308-316 [personalAccessTokenEvent] *)
Definition personalAccessTokenEvent (tokenID : string) (payload : patPayload) : PATEvent :=
  mkTypedEvent personalAccessTokenStreamType tokenID payload.

(** server/internal/store/personal_access_tokens.go:73-103 [PersonalAccessTokenMintedEvent] *)
Definition PersonalAccessTokenMintedEvent (tokenID subject : string) (scopes : list string) (tokenHash : string)
    (expiresAt : time) : result goerr PATEvent :=
  canonicalPATID tokenID ≫= fun tokenID =>
  validate_pat_metadata subject scopes expiresAt ≫= fun _ =>
  wrap_err (EWrap "store: encode PAT mint") (marshal_time expiresAt) ≫= fun _ =>
  Ok (personalAccessTokenEvent tokenID (personalAccessTokenMinted subject scopes tokenHash expiresAt)).

(** server/internal/store/personal_access_tokens.go:106-116 [PersonalAccessTokenRevokedEvent] *)
Definition PersonalAccessTokenRevokedEvent (tokenID : string) : result goerr PATEvent :=
  canonicalPATID tokenID ≫= fun tokenID => Ok (personalAccessTokenEvent tokenID personalAccessTokenRevoked).

(** server/internal/store/personal_access_tokens.go:120-150 [PersonalAccessTokenUpdatedEvent] *)
Definition PersonalAccessTokenUpdatedEvent (tokenID subject : string) (scopes : list string) (expiresAt : time)
    (revoked : bool) : result goerr PATEvent :=
  canonicalPATID tokenID ≫= fun tokenID =>
  validate_pat_metadata subject scopes expiresAt ≫= fun _ =>
  wrap_err (EWrap "store: encode PAT update") (marshal_time expiresAt) ≫= fun _ =>
  Ok (personalAccessTokenEvent tokenID (personalAccessTokenUpdated subject scopes expiresAt revoked)).

(** server/internal/store/personal_access_tokens.go:153-163 [PersonalAccessTokenDeletedEvent] *)
Definition PersonalAccessTokenDeletedEvent (tokenID : string) : result goerr PATEvent :=
  canonicalPATID tokenID ≫= fun tokenID => Ok (personalAccessTokenEvent tokenID personalAccessTokenDeleted).

(** ** Statements *)

(** server/internal/store/queries/personal_access_tokens.sql:1-20 [InsertPersonalAccessToken],
    under the constraints of the table that the projector leaves to it *)
Definition InsertPersonalAccessToken (id : string) (row : PATRow) (t : PATTable) : result goerr (PATTable * Z) :=
  fail_if (negb (is_ok (ULIDPathID id) && String.eqb (to_upper id) id)) (EPg "23514" "personal_access_tokens_token_id_ulid_check") ≫= fun _ =>
  fail_if (bool_decide (is_Some (t !! id))) (EPg "23505" "personal_access_tokens_pkey") ≫= fun _ =>
  fail_if (existsb (fun p => String.eqb (pw_TokenHash p.2) (pw_TokenHash row)) (map_to_list t))
    (EPg "23505" "personal_access_tokens_token_hash_key") ≫= fun _ =>
  Ok (<[id := row]> t, 1).

(** server/internal/store/queries/personal_access_tokens.sql:22-29 [ProjectPersonalAccessTokenRevocation] *)
Definition ProjectPersonalAccessTokenRevocation (id : string) (version : Z) (now : time) (t : PATTable) : PATTable * Z :=
  match t !! id with
  | Some r =>
      if (pw_ProjectionVersion r <? version) && negb (pw_Revoked r)
      then (<[id := mkPATRow (pw_Subject r) (pw_Scopes r) (pw_TokenHash r) (pw_ExpiresAt r) true version now]> t, 1)
      else (t, 0)
  | None => (t, 0)
  end.

(** server/internal/store/queries/personal_access_tokens.sql:108-116 [ReplacePersonalAccessTokenMetadata] *)
Definition ReplacePersonalAccessTokenMetadata (id : string) (version : Z) (scopes : list string) (expiresAt : time)
    (revoked : bool) (now : time) (t : PATTable) : PATTable * Z :=
  match t !! id with
  | Some r =>
      if pw_ProjectionVersion r =? version - 1
      then (<[id := mkPATRow (pw_Subject r) scopes (pw_TokenHash r) expiresAt (pw_Revoked r || revoked) version now]> t, 1)
      else (t, 0)
  | None => (t, 0)
  end.

(** server/internal/store/queries/personal_access_tokens.sql:118-121 [DeletePersonalAccessTokenProjection] *)
Definition DeletePersonalAccessTokenProjection (id : string) (version : Z) (t : PATTable) : PATTable * Z :=
  match t !! id with
  | Some r => if pw_ProjectionVersion r =? version - 1 then (delete id t, 1) else (t, 0)
  | None => (t, 0)
  end.

(** server/internal/store/queries/personal_access_tokens.sql:31-41 [GetPersonalAccessTokenByHash] *)
Definition GetPersonalAccessTokenByHash (tokenHash : string) (t : PATTable) : option (string * PATRow) :=
  find (fun p => String.eqb (pw_TokenHash p.2) tokenHash) (map_to_list t).

(** ** Projectors *)

(** server/internal/store/personal_access_tokens.go:438-488 [projectPersonalAccessTokenMint] *)
Definition projectPersonalAccessTokenMint (id : string) (version : Z) (now : time) (subject : string)
    (scopes : list string) (tokenHash : string) (expiresAt : time) (t : PATTable) : result goerr PATTable :=
  fail_if (negb (version =? 1)) (EWrap "store: PAT mint must be stream version 1" errPersonalAccessTokenExists) ≫= fun _ =>
  validatePATSubject subject ≫= fun _ =>
  validatePATScopes scopes ≫= fun _ =>
  fail_if (negb (len tokenHash =? 32)) (EMsg "store: PAT mint payload has an invalid hash") ≫= fun _ =>
  validatePATExpiry expiresAt ≫= fun _ =>
  wrap_err (EWrap "store: project PAT mint")
    (InsertPersonalAccessToken id (mkPATRow subject scopes tokenHash expiresAt false version now) t) ≫=
  affected_one (EMsg "store: PAT mint affected other than one token").

(** server/internal/store/personal_access_tokens.go:490-533 [projectPersonalAccessTokenRevocation] *)
Definition projectPersonalAccessTokenRevocation (id : string) (version : Z) (now : time) (t : PATTable)
    : result goerr PATTable :=
  fail_if (version <=? 1) (EMsg "store: PAT revocation requires a prior mint") ≫= fun _ =>
  or_err (t !! id) (EMsg "store: PAT revocation requires a prior mint") ≫= fun current =>
  fail_if (pw_Revoked current) (EMsg "store: PAT is already revoked") ≫= fun _ =>
  fail_if (negb (pw_ProjectionVersion current =? version - 1)) (EMsg "store: PAT projection version is inconsistent") ≫= fun _ =>
  affected_one (EMsg "store: PAT revocation affected other than one token") (ProjectPersonalAccessTokenRevocation id version now t).

(** server/internal/store/personal_access_tokens.go:535-587 [projectPersonalAccessTokenUpdate] *)
Definition projectPersonalAccessTokenUpdate (id : string) (version : Z) (now : time) (subject : string)
    (scopes : list string) (expiresAt : time) (revoked : bool) (t : PATTable) : result goerr PATTable :=
  fail_if (version <=? 1) (EMsg "store: PAT update requires a prior mint") ≫= fun _ =>
  validate_pat_metadata subject scopes expiresAt ≫= fun _ =>
  or_err (t !! id) (EWrap "store: read PAT before update" ErrNoRows) ≫= fun current =>
  fail_if (negb (String.eqb (pw_Subject current) subject) || negb (pw_ProjectionVersion current =? version - 1)
           || pw_Revoked current && negb revoked)
    (EMsg "store: PAT update conflicts with the current projection") ≫= fun _ =>
  affected_one (EMsg "store: PAT update affected other than one token")
    (ReplacePersonalAccessTokenMetadata id version scopes expiresAt revoked now t).

(** server/internal/store/personal_access_tokens.go:589-617 [projectPersonalAccessTokenDelete] *)
Definition projectPersonalAccessTokenDelete (id : string) (version : Z) (t : PATTable) : result goerr PATTable :=
  fail_if (version <=? 1) (EMsg "store: PAT deletion requires a prior mint") ≫= fun _ =>
  affected_one (EMsg "store: PAT deletion affected other than one token") (DeletePersonalAccessTokenProjection id version t).

(** server/internal/store/personal_access_tokens.go:368-413 [personalAccessTokenEventDefinitions]:
    the projector of each event type *)
Definition projectPAT (row : PATEventRow) : PATTable -> result goerr PATTable :=
  let id := te_StreamID (ty_Event row) in
  let version := ty_Version row in
  match te_Payload (ty_Event row) with
  | personalAccessTokenMinted subject scopes tokenHash expiresAt =>
      projectPersonalAccessTokenMint id version (ty_CreatedAt row) subject scopes tokenHash expiresAt
  | personalAccessTokenRevoked => projectPersonalAccessTokenRevocation id version (ty_CreatedAt row)
  | personalAccessTokenUpdated subject scopes expiresAt revoked =>
      projectPersonalAccessTokenUpdate id version (ty_CreatedAt row) subject scopes expiresAt revoked
  | personalAccessTokenDeleted => projectPersonalAccessTokenDelete id version
  end.

(** server/internal/store/personal_access_tokens.go:719-724 [resetPersonalAccessTokens] *)
Definition resetPersonalAccessTokens (_ : PATTable) : PATTable := ∅.

(** ** Reads *)

(** server/internal/store/personal_access_tokens.go:647-684 [validatePersonalAccessTokenProjection] *)
Definition validatePersonalAccessTokenProjection (tokenID : string) (row : PATRow) : result goerr PersonalAccessToken :=
  wrap_err (fun _ => EMsg "store: PAT projection has an invalid token ID") (canonicalPATID tokenID) ≫= fun _ =>
  wrap_err (EWrap "store: invalid PAT projection") (validatePATSubject (pw_Subject row)) ≫= fun _ =>
  wrap_err (EWrap "store: invalid PAT projection") (validatePATScopes (pw_Scopes row)) ≫= fun _ =>
  fail_if (negb (len (pw_TokenHash row) =? 32)) (EMsg "store: PAT projection has an invalid hash") ≫= fun _ =>
  wrap_err (EWrap "store: invalid PAT projection") (validatePATExpiry (pw_ExpiresAt row)) ≫= fun _ =>
  fail_if (pw_ProjectionVersion row <? 1) (EMsg "store: PAT projection has an invalid version") ≫= fun _ =>
  Ok (mkPersonalAccessToken tokenID (pw_Subject row) (pw_TokenHash row) (pw_Scopes row) (pw_ExpiresAt row)
        (pw_Revoked row) (pw_ProjectionVersion row)).

(** server/internal/store/personal_access_tokens.go:696-717 [validatePersonalAccessTokenMetadataProjection] *)
Definition validatePersonalAccessTokenMetadataProjection (tokenID : string) (row : PATRow)
    : result goerr PersonalAccessTokenMetadata :=
  wrap_err (fun _ => EMsg "store: PAT metadata has an invalid token ID") (canonicalPATID tokenID) ≫= fun _ =>
  wrap_err (EWrap "store: invalid PAT metadata")
    (validate_pat_metadata (pw_Subject row) (pw_Scopes row) (pw_ExpiresAt row)) ≫= fun _ =>
  fail_if (pw_ProjectionVersion row <? 1) (EMsg "store: PAT metadata has an invalid version") ≫= fun _ =>
  Ok (mkPersonalAccessTokenMetadata tokenID (pw_Subject row) (pw_Scopes row) (pw_ExpiresAt row) (pw_Revoked row)
        (pw_ProjectionVersion row)).

(** server/internal/store/personal_access_tokens.go:166-181 [Store.PersonalAccessTokenByHash] *)
Definition PersonalAccessTokenByHash (fault : option goerr) (tokenHash : string) (t : PATTable) : result goerr PersonalAccessToken :=
  wrap_err (EWrap "store: read PAT by hash")
    (may_fault fault ≫= fun _ => or_err (GetPersonalAccessTokenByHash tokenHash t) ErrNoRows) ≫= fun '(id, row) =>
  validatePersonalAccessTokenProjection id row.

(** server/internal/store/personal_access_tokens.go:184-203 [Store.PersonalAccessTokenByID] *)
Definition PersonalAccessTokenByID (fault : option goerr) (tokenID : string) (t : PATTable) : result goerr PersonalAccessToken :=
  canonicalPATID tokenID ≫= fun tokenID =>
  wrap_err (EWrap "store: read PAT by ID") (may_fault fault ≫= fun _ => or_err (t !! tokenID) ErrNoRows) ≫=
  validatePersonalAccessTokenProjection tokenID.

(** server/internal/store/personal_access_tokens.go:206-246 [Store.ScopedPersonalAccessTokenByID] *)
Definition ScopedPersonalAccessTokenByID (fault : option goerr) (tokenID : string) (global : bool)
    (userGroupIDs : list string) (selfID : string) (members : list (string * string)) (t : PATTable)
    : result goerr PersonalAccessTokenMetadata :=
  canonicalPATID tokenID ≫= fun tokenID =>
  normalizeUserScopeIDs userGroupIDs ≫= fun groups =>
  canonical_self selfID ≫= fun selfID =>
  wrap_err (EWrap "store: read scoped PAT")
    (may_fault fault ≫= fun _ =>
     or_err (r ← t !! tokenID; if in_scope global selfID groups members (pw_Subject r) then Some r else None) ErrNoRows) ≫=
  validatePersonalAccessTokenMetadataProjection tokenID.

(** server/internal/store/personal_access_tokens.go:249-292 [Store.ListScopedPersonalAccessTokens] *)
Definition ListScopedPersonalAccessTokens (fault : option goerr) (global : bool) (userGroupIDs : list string)
    (selfID : string) (limit : Z) (members : list (string * string)) (t : PATTable)
    : result goerr (list PersonalAccessTokenMetadata) :=
  fail_if ((limit <? 1) || (200 <? limit)) (EMsg "store: invalid scoped PAT list") ≫= fun _ =>
  normalizeUserScopeIDs userGroupIDs ≫= fun groups =>
  canonical_self selfID ≫= fun selfID =>
  wrap_err (EWrap "store: list scoped PATs") (may_fault fault) ≫= fun _ =>
  let visible := omap (fun id => (id,.) <$> (r ← t !! id; if in_scope global selfID groups members (pw_Subject r) then Some r else None))
                   (sort_strings (map_to_list t).*1) in
  map_result (fun p => validatePersonalAccessTokenMetadataProjection p.1 p.2) (take (Z.to_nat limit) visible).

(** ** The service *)

(** server/internal/auth/pats.go:19-25 [patPrefix] *)
Definition patPrefix : string := "pm_pat_".
Definition patSecretBytes : Z := 32.

(** server/internal/auth/pats.go:27-35 [ErrPATInvalid] *)
Definition ErrPATInvalid : goerr := ESentinel "personal access token input is invalid".
Definition ErrPATRejected : goerr := ESentinel "personal access token rejected".
Definition ErrPATUnavailable : goerr := ESentinel "personal access token service unavailable".

(** server/internal/auth/pats.go:39-44 [PATCredential] *)
Record PATCredential := mkPATCredential {
  pc_TokenID : string;
  pc_Secret : string;
  pc_Scopes : list string;
  pc_ExpiresAt : time;
}.

(** server/internal/auth/pats.go:223-225 [validPATSubject] *)
Definition validPATSubject (subject : string) : bool := validSubject subject && negb (contains_byte "000" subject).

(** server/internal/auth/pats.go:263-273 [validPATSecret] *)
Definition validPATSecret (secret : string) : bool :=
  (len secret =? 7 + 43) && has_prefix patPrefix secret
  && (let encoded := substring 7 (String.length secret - 7) secret in
      match RawURLDecode encoded with
      | Some raw => (zlen raw =? patSecretBytes) && String.eqb (RawURLEncode raw) encoded
      | None => false
      end).

Definition PATProg (A : Type) : Type := prog TokenEnv PATDB (result goerr A).

Definition pat_now : prog TokenEnv PATDB time := look (fun env _ => tn_now env).
Definition append_pat (event : PATEvent) (expected : Z) : PATProg unit :=
  act (fun env db => AppendPinned projectPAT (tn_append env) event expected db).

(** server/internal/auth/pats.go:205-217 [PATService.newCredential]: under its
    mutex, from the bytes the source still has *)
Definition newCredential (now : time) (random : option (list Z)) : result goerr (string * string) :=
  wrap_err EMsg (NewWithReader now random) ≫= fun '(tokenID, rest) =>
  fail_if (zlen rest <? patSecretBytes) (EMsg "read PAT entropy") ≫= fun _ =>
  Ok (tokenID, patPrefix +:+ RawURLEncode (take 32 rest)).

Section Service.
Context {schemes : Schemes}.

(** [sha256.Sum256] of a text. *)
Definition text_hash (s : string) : string := sha256 (bytes s).

(** server/internal/auth/pats.go:81-125 [PATService.Mint] *)
Definition Mint (subject : string) (scopes : list string) (expiresAt : time) : PATProg PATCredential :=
  let subject := trim_space subject in
  match canonicalPATScopes scopes with
  | Err _ => Ret (Err ErrPATInvalid)
  | Ok canonicalScopes =>
      if negb (validPATSubject subject) then Ret (Err ErrPATInvalid)
      else
        bind_prog pat_now (fun now =>
        if negb (validTime now) || negb (validTime expiresAt) || (expiresAt <=? now) then Ret (Err ErrPATInvalid)
        else
          try_prog (look (fun env _ => wrap_err (fun _ => EWrap "mint credential" ErrPATUnavailable)
                                         (newCredential now (tn_random env)))) (fun '(tokenID, secret) =>
          try_prog (Ret (wrap_err (fun _ => EWrap "create mint event" ErrPATUnavailable)
                           (PersonalAccessTokenMintedEvent tokenID subject canonicalScopes (text_hash secret) expiresAt)))
            (fun event =>
          bind_prog (append_pat event 0) (fun r =>
          Ret (wrap_err (fun _ => EWrap "persist mint" ErrPATUnavailable) r ≫= fun _ =>
               Ok (mkPATCredential tokenID secret canonicalScopes expiresAt))))))
  end.

(** server/internal/auth/pats.go:275-287 [rejectPAT]: the wait, or its interruption *)
Definition rejectPAT {A} : PATProg A :=
  look (fun env _ => match tn_wait env with
                     | Some _ => Err (EWrap "rejection wait interrupted" ErrPATUnavailable)
                     | None => Err ErrPATRejected
                     end).

(** server/internal/auth/pats.go:128-158 [PATService.Authenticate] *)
Definition Authenticate (presented : string) : PATProg PATPrincipal :=
  let presented := trim_space presented in
  if negb (validPATSecret presented) then rejectPAT
  else
    bind_prog (look (fun env db => PersonalAccessTokenByHash (tn_read env) (text_hash presented) (td_tables db))) (fun state =>
    match state with
    | Err e => if IsNotFound e then bind_prog pat_now (fun _ => rejectPAT)
               else Ret (Err (EWrap "read token" ErrPATUnavailable))
    | Ok state =>
        bind_prog pat_now (fun now =>
        if pt_Revoked state || negb (validTime now) || (pt_ExpiresAt state <=? now) then rejectPAT
        else Ret (Ok (mkPATPrincipal (pt_Subject state) (pt_TokenID state) (pt_Scopes state) ("pat:" +:+ pt_TokenID state))))
    end).

(** server/internal/auth/pats.go:162-203 [PATService.Revoke] *)
Definition Revoke (tokenID : string) : PATProg unit :=
  let tokenID := trim_space tokenID in
  if negb (is_ok (ULIDPathID tokenID)) then Ret (Err ErrPATInvalid)
  else
    bind_prog (look (fun env db => PersonalAccessTokenByID (tn_read env) tokenID (td_tables db))) (fun state =>
    match state with
    | Err e => Ret (Err (if IsNotFound e then ErrPATInvalid else EWrap "read token" ErrPATUnavailable))
    | Ok state =>
        if pt_Revoked state then Ret (Ok tt)
        else
          try_prog (Ret (wrap_err (fun _ => EWrap "create revocation" ErrPATUnavailable)
                           (PersonalAccessTokenRevokedEvent (pt_TokenID state)))) (fun event =>
          bind_prog (append_pat event (pt_ProjectionVersion state)) (fun r =>
          match r with
          | Ok _ => Ret (Ok tt)
          | Err e =>
              if negb (IsVersionConflict e) then Ret (Err (EWrap "persist revocation" ErrPATUnavailable))
              else
                bind_prog (look (fun env db => PersonalAccessTokenByID (tn_read env) (pt_TokenID state) (td_tables db))) (fun state =>
                Ret (match state with
                     | Err _ => Err (EWrap "confirm revocation" ErrPATUnavailable)
                     | Ok state => if pt_Revoked state then Ok tt
                                   else Err (EWrap "PAT revocation contention" ErrPATUnavailable)
                     end))
          end))
    end).
End Service.

(** ** The life of a token *)

(** What one event does to its token: it is minted once, its public data may be
    replaced, it is revoked for ever, and it is deleted. *)
Inductive pat_step : patPayload -> Z -> option PATRow -> option PATRow -> Prop :=
| pat_minted subject scopes hash expiresAt now :
    len hash = 32 ->
    pat_step (personalAccessTokenMinted subject scopes hash expiresAt) 1 None
      (Some (mkPATRow subject scopes hash expiresAt false 1 now))
| pat_revoked r version now :
    pw_Revoked r = false ->
    pat_step personalAccessTokenRevoked version (Some r)
      (Some (mkPATRow (pw_Subject r) (pw_Scopes r) (pw_TokenHash r) (pw_ExpiresAt r) true version now))
| pat_updated r version scopes expiresAt revoked now :
    (pw_Revoked r = true -> revoked = true) ->
    pat_step (personalAccessTokenUpdated (pw_Subject r) scopes expiresAt revoked) version (Some r)
      (Some (mkPATRow (pw_Subject r) scopes (pw_TokenHash r) expiresAt revoked version now))
| pat_deleted r version : pat_step personalAccessTokenDeleted version (Some r) None.

(** A row that every read accepts. *)
Definition pat_valid (id : string) (r : PATRow) : Prop := is_ok (validatePersonalAccessTokenProjection id r) = true.

(** The rows are those of their streams, valid, and told apart by their hashes. *)
Record pat_inv (db : PATDB) : Prop := {
  pi_contiguous : typed_contiguous (td_log db);
  pi_rows : forall id r, td_tables db !! id = Some r ->
    pat_valid id r /\ pw_ProjectionVersion r = typed_version personalAccessTokenStreamType id (td_log db);
  pi_hashes : forall id j r r', td_tables db !! id = Some r -> td_tables db !! j = Some r' ->
    pw_TokenHash r = pw_TokenHash r' -> id = j;
}.

(** A token that was revoked or deleted: its stream exists, and its row, if it
    is still there, is revoked. *)
Definition pat_dead (id : string) (db : PATDB) : Prop :=
  0 < typed_version personalAccessTokenStreamType id (td_log db)
  /\ forall r, td_tables db !! id = Some r -> pw_Revoked r = true.

(** Any event of a token, appended. *)
Definition pat_append (db db' : PATDB) : Prop :=
  exists event, te_StreamType event = personalAccessTokenStreamType /\ appended projectPAT event db db'.

(** ** Facts *)

Lemma validate_metadata_ok subject scopes expiresAt :
  validate_pat_metadata subject scopes expiresAt = Ok tt <->
  validatePATSubject subject = Ok tt /\ validatePATScopes scopes = Ok tt /\ validatePATExpiry expiresAt = Ok tt.
Proof.
  unfold validate_pat_metadata. split.
  - intros ([] & H1 & H)%bind_ok. by apply bind_ok in H as ([] & H2 & H3).
  - by intros (-> & -> & ->).
Qed.

Lemma pat_valid_ok id r :
  pat_valid id r <-> is_ok (canonicalPATID id) = true /\ validate_pat_metadata (pw_Subject r) (pw_Scopes r) (pw_ExpiresAt r) = Ok tt
    /\ len (pw_TokenHash r) = 32 /\ 1 <= pw_ProjectionVersion r.
Proof.
  unfold pat_valid, validatePersonalAccessTokenProjection. rewrite validate_metadata_ok. split.
  - destruct (_ ≫= _) as [token|e] eqn:E; [|done]. intros _. apply bind_ok in E as (id' & Hi%wrap_err_ok & E).
    apply bind_ok in E as ([] & H1%wrap_err_ok & E). apply bind_ok in E as ([] & H2%wrap_err_ok & E).
    apply bind_ok in E as (u & Hl%fail_if_ok%negb_false_iff%Z.eqb_eq & E). apply bind_ok in E as ([] & H3%wrap_err_ok & E).
    apply bind_ok in E as (u2 & Hv%fail_if_ok%Z.ltb_ge & _). rewrite Hi. by split_and!.
  - intros (Hi & (H1 & H2 & H3) & Hl & Hv). destruct (canonicalPATID id) as [id'|]; [|done].
    rewrite H1, H2, H3, Hl. cbn [wrap_err mbind result_bind fail_if Z.eqb Pos.eqb negb].
    by rewrite (proj2 (Z.ltb_ge _ _) Hv).
Qed.

(** What the projection of one event does: a step of its token, to a valid row,
    whose hash is new if the token is. *)
Record pat_effect (id : string) (payload : patPayload) (version : Z) (t t' : PATTable) : Prop := {
  pe_step : pat_step payload version (t !! id) (t' !! id);
  pe_version : forall r, t' !! id = Some r -> pw_ProjectionVersion r = version;
  pe_valid : (forall r, t !! id = Some r -> pat_valid id r) -> forall r, t' !! id = Some r -> pat_valid id r;
  pe_hash : forall r, t !! id = None -> t' !! id = Some r -> forall j r', t !! j = Some r' -> pw_TokenHash r' <> pw_TokenHash r;
  pe_other : forall j, j <> id -> t' !! j = t !! j;
}.

(** A row that replaces another one of its token. *)
Lemma pat_replaced id payload version (t : PATTable) r r' :
  t !! id = Some r -> pat_step payload version (Some r) (Some r') -> pw_ProjectionVersion r' = version ->
  (pat_valid id r -> pat_valid id r') -> pat_effect id payload version t (<[id := r']> t).
Proof.
  intros Hr Hs Hv Hok. split.
  - by rewrite Hr, lookup_insert_eq.
  - intros x. rewrite lookup_insert_eq. by intros [= <-].
  - intros Hold x. rewrite lookup_insert_eq. intros [= <-]. by apply Hok, Hold.
  - intros x. by rewrite Hr.
  - intros j Hj. by apply lookup_insert_ne.
Qed.

Lemma find_hash_none (h : string) (t : PATTable) :
  existsb (fun p => String.eqb (pw_TokenHash p.2) h) (map_to_list t) = false ->
  forall j r, t !! j = Some r -> pw_TokenHash r <> h.
Proof.
  intros He j r Hr Heq. assert (existsb (fun p => String.eqb (pw_TokenHash p.2) h) (map_to_list t) = true) as Ht; [|congruence].
  apply existsb_exists. exists (j, r). split; [by apply list_elem_of_In, elem_of_map_to_list|]. by apply String.eqb_eq.
Qed.

Lemma mint_effect id version now subject scopes hash expiresAt t t' :
  projectPersonalAccessTokenMint id version now subject scopes hash expiresAt t = Ok t' ->
  pat_effect id (personalAccessTokenMinted subject scopes hash expiresAt) version t t'.
Proof.
  unfold projectPersonalAccessTokenMint. intros (u1 & Hv%fail_if_ok%negb_false_iff%Z.eqb_eq & H)%bind_ok. subst version.
  apply bind_ok in H as ([] & H1 & H). apply bind_ok in H as ([] & H2 & H).
  apply bind_ok in H as (u2 & Hl%fail_if_ok%negb_false_iff%Z.eqb_eq & H). apply bind_ok in H as ([] & H3 & H).
  apply bind_ok in H as (p & Hi%wrap_err_ok & [_ <-]%one_affected_ok). unfold InsertPersonalAccessToken in Hi.
  apply bind_ok in Hi as (u3 & Hc%fail_if_ok%negb_false_iff%andb_true_iff & Hi).
  apply bind_ok in Hi as (u4 & Hn%fail_if_ok%bool_decide_eq_false & Hi).
  apply bind_ok in Hi as (u5 & Hf%fail_if_ok & [= <-]). cbn [fst pw_TokenHash] in *.
  assert (t !! id = None) as Hnone by (by apply eq_None_not_Some).
  destruct Hc as [Hid Hu]. split.
  - rewrite Hnone, lookup_insert_eq. by apply pat_minted.
  - intros x. rewrite lookup_insert_eq. by intros [= <-].
  - intros _ x. rewrite lookup_insert_eq. intros [= <-]. apply pat_valid_ok. rewrite validate_metadata_ok.
    unfold canonicalPATID. destruct (ULIDPathID id); [|done]. by split_and!.
  - intros x _. rewrite lookup_insert_eq. intros [= <-]. by apply find_hash_none.
  - intros j Hj. by apply lookup_insert_ne.
Qed.

Lemma revocation_effect id version now t t' :
  projectPersonalAccessTokenRevocation id version now t = Ok t' -> pat_effect id personalAccessTokenRevoked version t t'.
Proof.
  unfold projectPersonalAccessTokenRevocation. intros (u1 & Hv%fail_if_ok%Z.leb_gt & H)%bind_ok.
  apply bind_ok in H as (r & Hr%or_err_ok & H). apply bind_ok in H as (u2 & Hrev%fail_if_ok & H).
  apply bind_ok in H as (u3 & _ & H). apply one_affected_ok in H. revert H. unfold ProjectPersonalAccessTokenRevocation.
  rewrite Hr. destruct (_ && _); [|by intros [? _]]. cbn [fst snd]. intros [_ <-].
  eapply pat_replaced; [done|by apply pat_revoked|done|]. rewrite !pat_valid_ok. cbn. intuition lia.
Qed.

Lemma update_effect id version now subject scopes expiresAt revoked t t' :
  projectPersonalAccessTokenUpdate id version now subject scopes expiresAt revoked t = Ok t' ->
  pat_effect id (personalAccessTokenUpdated subject scopes expiresAt revoked) version t t'.
Proof.
  unfold projectPersonalAccessTokenUpdate. intros (u1 & Hv%fail_if_ok%Z.leb_gt & H)%bind_ok.
  apply bind_ok in H as ([] & Hm & H). apply bind_ok in H as (r & Hr%or_err_ok & H).
  apply bind_ok in H as (u2 & Hc%fail_if_ok & H). apply orb_false_iff in Hc as [Hc Hrev].
  apply orb_false_iff in Hc as [Hsub%negb_false_iff%String.eqb_eq _]. subst subject.
  apply one_affected_ok in H. revert H. unfold ReplacePersonalAccessTokenMetadata.
  rewrite Hr. destruct (_ =? _); [|by intros [? _]]. cbn [fst snd]. intros [_ <-].
  assert (pw_Revoked r || revoked = revoked) as -> by (by destruct (pw_Revoked r), revoked).
  eapply pat_replaced; [done|apply pat_updated; by destruct (pw_Revoked r), revoked|done|].
  rewrite !pat_valid_ok. cbn. intuition lia.
Qed.

Lemma pat_deletion_effect id version t t' :
  projectPersonalAccessTokenDelete id version t = Ok t' -> pat_effect id personalAccessTokenDeleted version t t'.
Proof.
  unfold projectPersonalAccessTokenDelete. intros (u1 & _ & H%one_affected_ok)%bind_ok. revert H.
  unfold DeletePersonalAccessTokenProjection. destruct (t !! id) as [r|] eqn:Hr; [|by intros [? _]].
  destruct (_ =? _); [|by intros [? _]]. intros [_ <-]. split; cbn [fst].
  - rewrite Hr, lookup_delete_eq. apply pat_deleted.
  - intros x. by rewrite lookup_delete_eq.
  - intros _ x. by rewrite lookup_delete_eq.
  - intros x. by rewrite Hr.
  - intros j Hj. by apply lookup_delete_ne.
Qed.

Lemma projectPAT_effect row t t' :
  projectPAT row t = Ok t' -> pat_effect (te_StreamID (ty_Event row)) (te_Payload (ty_Event row)) (ty_Version row) t t'.
Proof.
  unfold projectPAT. destruct (te_Payload (ty_Event row));
    [apply mint_effect|apply revocation_effect|apply update_effect|apply pat_deletion_effect].
Qed.

(** ** Invariant *)

Lemma pat_append_inv db db' : pat_inv db -> pat_append db db' -> pat_inv db'.
Proof.
  intros [Hc Hr Hh] (event & Hs & now & tables & Hv & Hp & ->). cbv zeta in Hv, Hp.
  set (version := typed_version _ _ _ + 1) in *. set (row := mkTypedRow event version now) in *.
  destruct (projectPAT_effect row _ _ Hp) as [_ Hver Hvalid Hhash Hother]. cbn [ty_Event ty_Version row] in *.
  assert (forall id r, id <> te_StreamID event -> tables !! id = Some r -> td_tables db !! id = Some r) as Hold
    by (intros id r Hne; by rewrite Hother).
  split; cbn [td_log td_tables].
  - by apply typed_contiguous_snoc.
  - intros id r H. rewrite (typed_version_snoc _ _ _ event version now Hc eq_refl).
    destruct (decide (id = te_StreamID event)) as [->|Hne].
    + rewrite decide_True by done. split; [|by apply Hver]. apply Hvalid; [|done]. intros r0 H0. by apply Hr.
    + rewrite decide_False by (intros [_ ?]; cbn in *; congruence). apply Hr. by apply Hold.
  - assert (forall id r j r', id = te_StreamID event -> j <> te_StreamID event -> tables !! id = Some r ->
              tables !! j = Some r' -> pw_TokenHash r = pw_TokenHash r' -> False) as Hnew.
    { intros id r j r' -> Hj H H' Heq. apply Hold in H'; [|done]. destruct (td_tables db !! te_StreamID event) as [r0|] eqn:E.
      - apply Hj. symmetry. apply (Hh _ _ r0 r' E H'). rewrite <- Heq.
        pose proof (pe_step _ _ _ _ _ (projectPAT_effect row _ _ Hp)) as Hst. cbn in Hst. rewrite E, H in Hst. by inversion Hst.
      - by apply (Hhash r eq_refl H j r' H'). }
    intros id j r r' H H' Heq. destruct (decide (id = te_StreamID event)) as [Hi|Hi], (decide (j = te_StreamID event)) as [Hj|Hj].
    + congruence.
    + destruct (Hnew id r j r' Hi Hj H H' Heq).
    + destruct (Hnew j r' id r Hj Hi H' H (eq_sym Heq)).
    + apply (Hh id j r r'); auto.
Qed.

Lemma pat_inv_empty : pat_inv (mkTypedDB [] ∅).
Proof.
  split; [apply typed_contiguous_nil|intros id r H|intros id j r r' H]; cbn in H; by rewrite lookup_empty in H.
Qed.

(** The dead stay dead. *)
Lemma pat_dead_append id db db' : pat_inv db -> pat_append db db' -> pat_dead id db -> pat_dead id db'.
Proof.
  intros [Hc Hr _] (event & Hs & now & tables & Hv & Hp & ->) [Hpos Hd]. cbv zeta in Hv, Hp.
  set (version := typed_version _ _ _ + 1) in *.
  destruct (projectPAT_effect _ _ _ Hp) as [Hstep _ _ _ Hother]. cbn [ty_Event ty_Version] in *.
  split; cbn [td_log td_tables].
  - eapply Z.lt_le_trans; [exact Hpos|]. apply typed_version_app.
  - intros r H. destruct (decide (id = te_StreamID event)) as [->|Hne]; [|apply Hd; by rewrite <- Hother].
    rewrite H in Hstep. unfold version in Hstep. rewrite Hs in Hstep. inversion Hstep; subst; cbn; try done; [lia|].
    match goal with Hi : pw_Revoked _ = true -> _ |- _ => apply Hi, Hd end. done.
Qed.

(** ** Reading by hash *)

Lemma by_hash_some h t id r : GetPersonalAccessTokenByHash h t = Some (id, r) -> t !! id = Some r /\ pw_TokenHash r = h.
Proof.
  intros [Hin Heq%String.eqb_eq]%find_some. split; [|done]. by apply elem_of_map_to_list, list_elem_of_In.
Qed.

Lemma by_hash_found db id r :
  pat_inv db -> td_tables db !! id = Some r -> GetPersonalAccessTokenByHash (pw_TokenHash r) (td_tables db) = Some (id, r).
Proof.
  intros HI Hr. unfold GetPersonalAccessTokenByHash. destruct (find _ _) as [[j r']|] eqn:E.
  - apply by_hash_some in E as [Hj He]. assert (j = id) as -> by (by apply (pi_hashes _ HI j id r' r)). congruence.
  - eapply find_none in E; [|apply list_elem_of_In, elem_of_map_to_list, Hr]. cbn in E. by rewrite String.eqb_refl in E.
Qed.

(** A read accepts every row of the invariant. *)
Lemma valid_read id r :
  pat_valid id r ->
  validatePersonalAccessTokenProjection id r
  = Ok (mkPersonalAccessToken id (pw_Subject r) (pw_TokenHash r) (pw_Scopes r) (pw_ExpiresAt r) (pw_Revoked r) (pw_ProjectionVersion r)).
Proof.
  unfold pat_valid. destruct (validatePersonalAccessTokenProjection id r) as [token|e] eqn:E; [|done]. intros _.
  unfold validatePersonalAccessTokenProjection in E. repeat apply bind_ok in E as (? & _ & E). by injection E as <-.
Qed.

Lemma by_hash_read db h :
  pat_inv db ->
  PersonalAccessTokenByHash None h (td_tables db)
  = match GetPersonalAccessTokenByHash h (td_tables db) with
    | Some (id, r) => Ok (mkPersonalAccessToken id (pw_Subject r) (pw_TokenHash r) (pw_Scopes r) (pw_ExpiresAt r) (pw_Revoked r)
                            (pw_ProjectionVersion r))
    | None => Err (EWrap "store: read PAT by hash" ErrNoRows)
    end.
Proof.
  intros HI. unfold PersonalAccessTokenByHash. destruct (GetPersonalAccessTokenByHash h _) as [[id r]|] eqn:E; [|done].
  apply by_hash_some in E as [Hr _]. cbn [may_fault mbind result_bind or_err wrap_err]. apply valid_read, (pi_rows _ HI), Hr.
Qed.

Section Verdicts.
Context {schemes : Schemes}.

(** The token that a secret opens at an instant, if there is one. *)
Definition opens (secret : string) (now : time) (db : PATDB) (id : string) (r : PATRow) : Prop :=
  td_tables db !! id = Some r /\ pw_TokenHash r = text_hash secret /\ pw_Revoked r = false
  /\ validTime now = true /\ now < pw_ExpiresAt r.

Definition principal_of (id : string) (r : PATRow) : PATPrincipal :=
  mkPATPrincipal (pw_Subject r) id (pw_Scopes r) ("pat:" +:+ id).

Lemma run_authenticate env db presented :
  pat_inv db -> tn_read env = None -> tn_wait env = None ->
  run_prog env db (Authenticate presented)
  = (db, if validPATSecret (trim_space presented) then
           match GetPersonalAccessTokenByHash (text_hash (trim_space presented)) (td_tables db) with
           | Some (id, r) =>
               if pw_Revoked r || negb (validTime (tn_now env)) || (pw_ExpiresAt r <=? tn_now env)
               then Err ErrPATRejected else Ok (principal_of id r)
           | None => Err ErrPATRejected
           end
         else Err ErrPATRejected).
Proof.
  intros HI Hq Hw. unfold Authenticate. destruct (validPATSecret _); cbn [negb]; [|cbn; by rewrite Hw].
  rewrite run_bind. cbn [run_prog look]. rewrite Hq, by_hash_read by done.
  destruct (GetPersonalAccessTokenByHash _ _) as [[id r]|]; cbn; [|by rewrite Hw].
  destruct (_ || _); cbn; [by rewrite Hw|done].
Qed.

(** C33. What [Authenticate] decides: with a readable database, a presented text
    is accepted exactly when it is a well-formed token whose hash belongs to a
    token that is neither revoked nor expired, and then as that token's subject
    with that token's scopes; everything else gets the one static rejection, and
    nothing is written. *)
Theorem Authenticate_decides_exactly env db presented :
  pat_inv db -> tn_read env = None -> tn_wait env = None ->
  let secret := trim_space presented in
  exists verdict, run_prog env db (Authenticate presented) = (db, verdict)
    /\ (verdict = Err ErrPATRejected \/ is_ok verdict = true)
    /\ forall principal, verdict = Ok principal <->
         validPATSecret secret = true /\ exists id r, opens secret (tn_now env) db id r /\ principal = principal_of id r.
Proof.
  intros HI Hq Hw secret. eexists. split; [by apply run_authenticate|]. fold secret. unfold opens.
  destruct (validPATSecret secret); [|split; [by left|]; naive_solver].
  destruct (GetPersonalAccessTokenByHash _ _) as [[id r]|] eqn:E.
  - apply by_hash_some in E as [Hr Hh]. destruct (_ || _) eqn:Ed.
    + split; [by left|]. intros p. split; [done|]. intros (_ & j & r' & (Hj & Hh' & Hrev & Ht & Hx) & _).
      assert (id = j) as <- by (apply (pi_hashes _ HI id j r r'); congruence). assert (r' = r) as -> by congruence.
      rewrite Hrev, Ht in Ed. cbn in Ed. lia.
    + split; [by right|]. apply orb_false_iff in Ed as [[Hrev Ht%negb_false_iff]%orb_false_iff Hx%Z.leb_gt].
      intros p. split; [intros [= <-]; split; [done|]; by exists id, r|].
      intros (_ & j & r' & (Hj & Hh' & _) & ->).
      assert (id = j) as <- by (apply (pi_hashes _ HI id j r r'); congruence). by assert (r' = r) as -> by congruence.
  - split; [by left|]. intros p. split; [done|]. intros (_ & j & r' & (Hj & Hh & _) & _).
    pose proof (by_hash_found db j r' HI Hj) as Hf. congruence.
Qed.
End Verdicts.

(** ** Calls that interleave *)

Section Calls.
Context {schemes : Schemes}.

Inductive PATCall :=
| CallMint (subject : string) (scopes : list string) (expiresAt : time)
| CallAuthenticate (presented : string)
| CallRevoke (tokenID : string).

Inductive PATReply :=
| Minted (r : result goerr PATCredential)
| Authenticated (r : result goerr PATPrincipal)
| Revoked (r : result goerr unit).

Definition pat_answer {A} (p : PATProg A) (reply : result goerr A -> PATReply) : prog TokenEnv PATDB PATReply :=
  bind_prog p (fun r => Ret (reply r)).

Definition run_pat_call (call : PATCall) : prog TokenEnv PATDB PATReply :=
  match call with
  | CallMint subject scopes expiresAt => pat_answer (Mint subject scopes expiresAt) Minted
  | CallAuthenticate presented => pat_answer (Authenticate presented) Authenticated
  | CallRevoke tokenID => pat_answer (Revoke tokenID) Revoked
  end.

Notation moves := (rtc pat_append).
Notation prg := (rg pat_inv moves moves).

Lemma pat_moves_keep (P : PATDB -> Prop) :
  (forall db db', pat_inv db -> pat_append db db' -> P db -> P db') -> stable pat_inv moves P.
Proof.
  intros HP db db' HI _ Hm. induction Hm as [db|db1 db2 db3 H12 H23 IH]; [done|]. intros H.
  apply IH; [by eapply pat_append_inv|by eapply HP].
Qed.

Lemma dead_stable id : stable pat_inv moves (pat_dead id).
Proof. apply pat_moves_keep. apply pat_dead_append. Qed.

(** An append of a token's event, and what its success shows. *)
Lemma pat_judged_append event expected (Q : PATDB -> Prop) (P : PATDB -> Prop) :
  te_StreamType event = personalAccessTokenStreamType -> stable pat_inv moves Q ->
  (forall db db', pat_inv db -> appended projectPAT event db db' -> Q db') ->
  prg (fun r db => match r with Ok _ => Q db | Err _ => True end) P (append_pat event expected).
Proof.
  intros Hs HQ Ha. apply rg_act; [by intros [u|e]; [|apply stable_const]|].
  intros env db db' r HI _ Hop. apply AppendPinned_ok in Hop as [[-> Hr]|[_ Hap]].
  - split; [done|]. split; [done|]. by destruct r.
  - assert (pat_append db db') as Hpa by (by exists event). split; [by apply rtc_once|]. split; [by eapply pat_append_inv|].
    destruct r; [|done]. by eapply Ha.
Qed.

Lemma revocation_kills id db db' :
  appended projectPAT (personalAccessTokenEvent id personalAccessTokenRevoked) db db' -> pat_dead id db'.
Proof.
  intros (now & tables & Hv & Hp & ->). cbv zeta in *. set (event := personalAccessTokenEvent _ _) in *.
  set (version := typed_version _ _ _ + 1) in *. pose proof (projectPAT_effect _ _ _ Hp) as [Hstep _ _ _ _].
  cbn [ty_Event ty_Version te_StreamID te_Payload event personalAccessTokenEvent] in Hstep. split; cbn [td_log td_tables].
  - eapply Z.lt_le_trans; [apply Hv|]. change version with (ty_Version (mkTypedRow event version now)).
    apply (typed_version_ge (mkTypedRow event version now)). apply elem_of_app. right. by left.
  - intros r Hr. rewrite Hr in Hstep. by inversion Hstep.
Qed.

(** What a read by identifier shows. *)
Lemma read_by_id fault tokenID db state :
  pat_inv db -> PersonalAccessTokenByID fault tokenID (td_tables db) = Ok state ->
  pt_TokenID state = to_upper tokenID /\ canonicalPATID (pt_TokenID state) = Ok (pt_TokenID state)
  /\ (pt_Revoked state = true -> pat_dead (pt_TokenID state) db).
Proof.
  intros HI. unfold PersonalAccessTokenByID. intros (id & Hid & H)%bind_ok. apply bind_ok in H as (r & Hr%wrap_err_ok & H).
  apply bind_ok in Hr as (u & _ & Hr%or_err_ok). destruct (pi_rows _ HI _ _ Hr) as [Hvalid Hver].
  rewrite (valid_read _ _ Hvalid) in H. injection H as <-. cbn [pt_TokenID pt_Revoked].
  unfold canonicalPATID in Hid |- *. apply bind_ok in Hid as ([] & Hu%wrap_err_ok & [= <-]).
  split; [done|]. split; [by rewrite (ULIDPathID_upper _ Hu), to_upper_idem|].
  intros Hrev. split; [|intros r' Hr'; congruence]. apply pat_valid_ok in Hvalid as (_ & _ & _ & Hv). lia.
Qed.

(** A successful revocation leaves the token dead. *)
Lemma Revoke_judged tokenID :
  prg (fun r db => match r with Ok _ => pat_dead (to_upper (trim_space tokenID)) db | Err _ => True end) (fun _ => True)
    (Revoke tokenID).
Proof.
  unfold Revoke. destruct (negb _); [by intros db _ _|]. set (id := to_upper (trim_space tokenID)).
  set (known := fun (r : result goerr PersonalAccessToken) db => match r with
    | Ok state => pt_TokenID state = id /\ canonicalPATID id = Ok id /\ (pt_Revoked state = true -> pat_dead id db)
    | Err _ => True end).
  assert (forall r, stable pat_inv moves (known r)) as Hst.
  { intros [state|e]; [|apply stable_const]. intros db db' HI HI' HR (H1 & H2 & H3). split; [done|]. split; [done|].
    intros Hrev. by apply (dead_stable id db db'), H3. }
  assert (forall env db text, to_upper text = id -> pat_inv db -> known (PersonalAccessTokenByID (tn_read env) text (td_tables db)) db) as Hread.
  { intros env db text Ht HI. destruct (PersonalAccessTokenByID _ _ _) as [state|e] eqn:E; [|done].
    apply read_by_id in E as (H1 & H2 & H3); [|done]. rewrite Ht in H1. rewrite H1 in H2, H3. by split_and!. }
  eapply rg_bind with (Q := known); [apply rg_look; [apply _|exact Hst|intros env db HI _; by apply Hread]|].
  intros [state|e]; [|by intros db _ _]. apply rg_pure_pre. intros Hid. apply rg_pure_pre. intros Hc.
  case_match eqn:Erev; [intros db _ Hd; by apply Hd|].
  unfold PersonalAccessTokenRevokedEvent. rewrite Hid, Hc. cbn [mbind result_bind wrap_err try_prog bind_prog].
  eapply rg_bind; [apply (pat_judged_append _ _ (pat_dead id)); [done|apply dead_stable|intros db db' _; apply revocation_kills]|].
  intros [u|e]; [by intros db _ Hd|]. case_match; [by intros db _ _|].
  eapply rg_bind with (Q := known).
  - apply rg_look; [apply _|exact Hst|]. intros env db HI _. apply Hread; [|done]. apply to_upper_idem.
  - intros [state'|e']; [|by intros db _ _]. intros db _ (_ & _ & Hd). cbv beta iota. by destruct (pt_Revoked state'); [apply Hd|].
Qed.

(** A dead token authenticates nobody. *)
Lemma Authenticate_judged (F : Prop) id presented :
  prg (fun r _ => match r with Ok p => F -> pp_TokenID p <> id | Err _ => True end) (fun db => F -> pat_dead id db)
    (Authenticate presented).
Proof.
  assert (forall P : PATDB -> Prop, prg (fun r _ => match r with Ok p => F -> pp_TokenID p <> id | Err _ => True end) P rejectPAT) as Hrej.
  { intros P. apply rg_look; [apply _|intros; apply stable_const|]. intros env db _ _. by destruct (tn_wait env). }
  unfold Authenticate. destruct (negb _); [apply Hrej|].
  eapply rg_bind with (Q := fun r _ => match r with Ok state => F -> pt_TokenID state = id -> pt_Revoked state = true | Err _ => True end).
  - apply rg_look; [apply _|intros; apply stable_const|]. intros env db HI Hdead.
    destruct (PersonalAccessTokenByHash _ _ _) as [state|e] eqn:E; [|done].
    unfold PersonalAccessTokenByHash in E. apply bind_ok in E as ([j r] & Hr%wrap_err_ok & E).
    apply bind_ok in Hr as (u & _ & [Hr _]%or_err_ok%by_hash_some). destruct (pi_rows _ HI _ _ Hr) as [Hvalid _].
    rewrite (valid_read _ _ Hvalid) in E. injection E as <-. cbn. intros HF ->. by apply (Hdead HF).
  - intros [state|e].
    + eapply rg_bind with (Q := fun _ _ => F -> pt_TokenID state = id -> pt_Revoked state = true).
      { apply rg_look; [apply _|intros; apply stable_const|]. by intros env db _ Hs. }
      intros now. case_match eqn:Ed; [apply Hrej|]. intros db _ Hs. cbn. intros HF Heq. by rewrite (Hs HF Heq) in Ed.
    + destruct (IsNotFound e); [|by intros db _ _].
      eapply rg_bind with (Q := fun _ _ => True); [apply rg_look; [apply _|intros; apply stable_const|done]|]. intros now. apply Hrej.
Qed.

Lemma Mint_judged subject scopes expiresAt (P : PATDB -> Prop) : prg (fun _ _ => True) P (Mint subject scopes expiresAt).
Proof.
  unfold Mint. destruct (canonicalPATScopes scopes); [|by intros db _ _]. destruct (negb _); [by intros db _ _|].
  eapply rg_bind with (Q := fun _ _ => True); [apply rg_look; [apply _|intros; apply stable_const|done]|]. intros now.
  destruct (_ || _); [by intros db _ _|].
  eapply rg_bind with (Q := fun _ _ => True); [apply rg_look; [apply _|intros; apply stable_const|done]|]. intros [[tokenID secret]|e]; [|by intros db _ _].
  eapply rg_pure_try; [by intros e db|]. intros event He%wrap_err_ok.
  assert (te_StreamType event = personalAccessTokenStreamType) as Hs.
  { apply bind_ok in He as (? & _ & He). apply bind_ok in He as (? & _ & He). by apply bind_ok in He as (? & _ & [= <-]). }
  eapply rg_bind; [apply (pat_judged_append _ _ (fun _ => True)); [done|apply stable_const|done]|]. by intros r db _ _.
Qed.

(** What a finished call shows, if a token was dead when it began. *)
Definition pat_outcome (F : Prop) (id : string) (call : PATCall) (reply : PATReply) (db : PATDB) : Prop :=
  match reply with
  | Minted _ => True
  | Authenticated r => match r with Ok p => F -> pp_TokenID p <> id | Err _ => True end
  | Revoked r => match call, r with
                 | CallRevoke tokenID, Ok _ => pat_dead (to_upper (trim_space tokenID)) db
                 | _, _ => True
                 end
  end.

Lemma pat_call_judged F id call : prg (pat_outcome F id call) (fun db => F -> pat_dead id db) (run_pat_call call).
Proof.
  destruct call; cbn [run_pat_call].
  - eapply rg_bind; [apply Mint_judged|]. by intros r db _ _.
  - eapply rg_bind; [apply Authenticate_judged|]. by intros r db _ Hp.
  - eapply rg_bind; [eapply rg_weaken; [|apply Revoke_judged]; done|]. by intros r db _ Hp.
Qed.

Lemma pat_calls F id (calls : list PATCall) db db' ts :
  pat_inv db -> (F -> pat_dead id db) -> rtc (sched_step pat_append) (db, run_pat_call <$> calls) (db', ts) ->
  pat_inv db' /\ moves db db' /\ forall i call reply, calls !! i = Some call -> ts !! i = Some (Ret reply) -> pat_outcome F id call reply db'.
Proof.
  intros HI Hd Hr.
  destruct (rg_sound pat_inv moves moves (pat_outcome F id <$> calls) pat_append (db, run_pat_call <$> calls) (db', ts)) as (HI' & Hm & Hall).
  - done.
  - intros s s' Hs Ha. split; [by apply rtc_once|by eapply pat_append_inv].
  - exact Hr.
  - exact HI.
  - apply Forall2_fmap, Forall_Forall2_diag, Forall_true. intros call. exists (fun db => F -> pat_dead id db).
    split; [|split; [done|apply pat_call_judged]]. intros s s' H1 H2 H3 H4 HF. by apply (dead_stable id s s'), H4.
  - split; [done|]. split; [done|]. intros i call reply Hc Ht. cbn [snd fst] in *.
    assert ((pat_outcome F id <$> calls) !! i = Some (pat_outcome F id call)) as HQ by (by rewrite list_lookup_fmap, Hc).
    destruct (Forall2_lookup_lr _ _ _ _ _ _ Hall HQ Ht) as (P & _ & HP & Hret). by apply Hret.
Qed.
End Calls.

(** C32. Revocation is final, whatever interleaves: once some call of [Revoke]
    has returned success, no call that begins afterwards authenticates that
    token again, however calls of the service interleave with each other and
    with any management of tokens (mints, updates, deletions), and whatever
    fails. *)
Theorem revoked_token_authenticates_nobody {schemes : Schemes} (calls calls' : list PATCall) db db1 db2 ts ts' i j tokenID principal :
  pat_inv db ->
  rtc (sched_step pat_append) (db, run_pat_call <$> calls) (db1, ts) ->
  calls !! i = Some (CallRevoke tokenID) -> ts !! i = Some (Ret (Revoked (Ok tt))) ->
  rtc (sched_step pat_append) (db1, run_pat_call <$> calls') (db2, ts') ->
  ts' !! j = Some (Ret (Authenticated (Ok principal))) ->
  pp_TokenID principal <> to_upper (trim_space tokenID).
Proof.
  intros HI Hr Hi Ht Hr' Hj. destruct (pat_calls False "" calls db db1 ts HI) as (HI1 & _ & H1); [done|done|].
  specialize (H1 i _ _ Hi Ht). cbn in H1.
  destruct (pat_calls True (to_upper (trim_space tokenID)) calls' db1 db2 ts' HI1) as (_ & _ & H2); [done|done|].
  assert (length ts' = length calls') as Hl.
  { clear -Hr'. remember (db1, run_pat_call <$> calls') as c. remember (db2, ts') as c'.
    assert (length c.2 = length calls') as Hc by (subst; cbn; by rewrite length_fmap).
    assert (length c'.2 = length calls') as H; [|by subst]. clear Heqc Heqc'.
    induction Hr' as [|c1 c2 c3 Hs _ IH]; [done|]. apply IH. destruct Hs; cbn in *; [by rewrite length_insert|done]. }
  destruct (lookup_lt_is_Some_2 calls' j) as [call Hcall]; [rewrite <- Hl; by eapply lookup_lt_Some|].
  exact (H2 j call _ Hcall Hj I).
Qed.

(** ** Round trip *)

Lemma scope_char_visible c :
  is_lower c || is_digit c || Ascii.eqb c "." || Ascii.eqb c "_" || Ascii.eqb c "-" = true -> visible c = true.
Proof. by destruct c as [[] [] [] [] [] [] [] []]; vm_compute. Qed.

Lemma scope_visible scope : validPATScope scope = true -> trim_space scope = scope.
Proof.
  intros H. apply trim_visible. unfold validPATScope in H. apply andb_true_iff in H as [_ H].
  destruct scope as [|a rest]; [done|]. apply andb_true_iff in H as [Ha H]. cbn [string_forallb].
  apply andb_true_iff. split; [apply scope_char_visible; by rewrite Ha|].
  rewrite string_forallb_spec in *. eapply Forall_impl; [exact H|]. apply scope_char_visible.
Qed.

Lemma compact_nodup (l : list string) : NoDup l -> compact l = l.
Proof.
  induction 1 as [|x l Hx Hl IH]; [done|]. destruct l as [|y l]; [done|]. rewrite compact_cons2, decide_False by set_solver. by rewrite IH.
Qed.

(** The canonical scopes are what they normalize to. *)
Lemma canonicalPATScopes_idem scopes canonical :
  canonicalPATScopes scopes = Ok canonical -> canonicalPATScopes canonical = Ok canonical.
Proof.
  unfold canonicalPATScopes. 
  set (f := fun scope => fail_if (negb (validPATScope (trim_space scope))) "ErrPATInvalid"%string ≫= fun _ => Ok (trim_space scope)).
  intros (u & Hn%fail_if_ok & H)%bind_ok.
  apply bind_ok in H as (trimmed & Ht & H). apply bind_ok in H as (u2 & Hz%fail_if_ok & [= <-]).
  pose proof (proj1 (map_result_ok _ _ _) Ht) as H2. pose proof (Forall2_length _ _ _ H2) as Hl.
  destruct (compact_sorted_nodup _ (sort_strings_sorted trimmed)) as [Hs Hnd].
  assert (Forall (fun y => f y = Ok y) trimmed) as Hf.
  { apply (map_result_idem f scopes); [|exact Ht]. intros x y. unfold f. intros (v & Hv%fail_if_ok%negb_false_iff & [= <-])%bind_ok.
    by rewrite (scope_visible _ Hv), Hv. }
  rewrite (map_result_fixed f).
  - cbn [mbind result_bind]. assert (sort_strings (compact (sort_strings trimmed)) = compact (sort_strings trimmed)) as ->.
    { apply sort_canonical. by split. }
    rewrite (compact_nodup _ Hnd), Hz. apply orb_false_iff in Hn as [_ Hn%Z.ltb_ge].
    assert (zlen (compact (sort_strings trimmed)) <= zlen trimmed) as Hlen.
    { unfold zlen. pose proof (compact_length (sort_strings trimmed)). pose proof (Permutation_length (sort_strings_perm trimmed)). lia. }
    unfold zlen in *. by rewrite (proj2 (Z.ltb_ge maxPATScopes _)) by lia.
  - apply Forall_forall. intros x Hx. rewrite elem_of_compact, sort_strings_perm in Hx. by eapply Forall_forall in Hf.
Qed.

Lemma sextet_char_visible v : 0 <= v < 64 -> visible (sextet_char v) = true.
Proof. apply (forallb_seqZ (fun v => visible (sextet_char v))). by vm_compute. Qed.

(** The text of a fresh secret is one. *)
Lemma secret_text raw :
  Forall is_byte raw -> zlen raw = 32 ->
  let secret := patPrefix +:+ RawURLEncode raw in trim_space secret = secret /\ validPATSecret secret = true.
Proof.
  intros Hb Hl secret. destruct (encode_groups_ok raw Hb) as [Hr _]. split.
  - apply trim_visible. transitivity (string_forallb visible (RawURLEncode raw)); [done|]. apply string_forallb_spec.
    unfold RawURLEncode. rewrite list_ascii_of_string_of_list_ascii. apply Forall_fmap.
    eapply Forall_impl; [exact Hr|]. apply sextet_char_visible.
  - unfold validPATSecret. assert (String.length (RawURLEncode raw) = 43%nat) as Hlen.
    { unfold RawURLEncode. rewrite length_string_of_list, length_fmap. pose proof (length_encode_groups raw) as H.
      rewrite Hl in H. change ((32 * 4 + 2) / 3) with 43 in H. unfold zlen in H. lia. }
    assert (String.length secret = 50%nat) as Hs by (unfold secret; by rewrite string_length_app, Hlen).
    assert (len secret =? 7 + 43 = true) as -> by (unfold len; by rewrite Hs).
    assert (has_prefix patPrefix secret = true) as -> by (apply has_prefix_spec; by eexists).
    pose proof (substring_app_drop patPrefix (RawURLEncode raw)) as Hd. fold secret in Hd.
    change (String.length patPrefix) with 7%nat in Hd. cbn [andb]. rewrite Hd, RawURLDecode_encode, Hl by done.
    by rewrite String.eqb_refl.
Qed.

Section RoundTrip.
Context {schemes : Schemes}.

(** What a mint that succeeds leaves. *)
Lemma pat_mint_ok env db db1 subject scopes expiresAt c :
  (forall random, tn_random env = Some random -> Forall is_byte random) ->
  run_prog env db (Mint subject scopes expiresAt) = (db1, Ok c) ->
  pc_ExpiresAt c = expiresAt
  /\ canonicalPATScopes scopes = Ok (pc_Scopes c)
  /\ canonical_ulid (pc_TokenID c)
  /\ trim_space (pc_Secret c) = pc_Secret c /\ validPATSecret (pc_Secret c) = true
  /\ appended projectPAT (personalAccessTokenEvent (pc_TokenID c)
       (personalAccessTokenMinted (trim_space subject) (pc_Scopes c) (text_hash (pc_Secret c)) expiresAt)) db db1
  /\ typed_version personalAccessTokenStreamType (pc_TokenID c) (td_log db) = 0.
Proof.
  intros Hrandom. unfold Mint. destruct (canonicalPATScopes scopes) as [canonical|]; [|done]. destruct (negb _); [done|].
  unfold pat_now, append_pat, look, act. cbn [run_prog bind_prog try_prog]. destruct (_ || _); [done|].
  cbn [run_prog bind_prog try_prog]. destruct (wrap_err _ (newCredential _ _)) as [[id secret]|e] eqn:Ec; [|done].
  apply wrap_err_ok in Ec. unfold newCredential in Ec. destruct (tn_random env) as [random|]; [|done].
  apply bind_ok in Ec as ([id' rest] & Hid%wrap_err_ok & Ec). apply bind_ok in Ec as (u & Hz%fail_if_ok%Z.ltb_ge & [= <- <-]).
  specialize (Hrandom _ eq_refl). destruct (NewWithReader_value _ _ _ _ Hrandom Hid) as (Hcanon & -> & _).
  destruct (secret_text (take 32 (drop 10 random))) as [Htrim Hvalid].
  { by apply Forall_take, Forall_drop. }
  { unfold patSecretBytes, zlen in *. rewrite length_take. lia. }
  cbn [run_prog bind_prog try_prog]. destruct (wrap_err _ (PersonalAccessTokenMintedEvent _ _ _ _ _)) as [event|] eqn:Ev; [|done].
  apply wrap_err_ok in Ev. unfold PersonalAccessTokenMintedEvent, canonicalPATID in Ev.
  apply bind_ok in Ev as (id & Hci & Ev). pose proof Hcanon as [Hpath Hup].
  rewrite Hpath, Hup in Hci. cbn in Hci. injection Hci as <-. apply bind_ok in Ev as ([] & _ & Ev). apply bind_ok in Ev as (u2 & _ & [= <-]).
  cbn [run_prog bind_prog]. destruct (AppendPinned _ _ _ 0 db) as [db' r] eqn:Ea. intros H. injection H as -> H.
  apply bind_ok in H as (u3 & Hr%wrap_err_ok & [= <-]). cbn [pc_TokenID pc_Secret pc_Scopes pc_ExpiresAt].
  destruct (AppendPinned_ok _ _ _ _ _ _ _ Ea) as [[_ Hf]|[Hv Happ]]; [by rewrite Hr in Hf|]. by split_and!.
Qed.

(** The live row that a mint leaves is the one its secret opens. *)
Lemma minted_opens id subject scopes secret expiresAt now db db1 :
  pat_inv db -> validTime now = true -> now < expiresAt ->
  appended projectPAT (personalAccessTokenEvent id (personalAccessTokenMinted subject scopes (text_hash secret) expiresAt)) db db1 ->
  exists r, opens secret now db1 id r /\ pw_Subject r = subject /\ pw_Scopes r = scopes.
Proof.
  intros HI Hnow Hexp (instant & tables & _ & Hp & ->). cbv zeta in Hp. set (row := mkTypedRow _ _ _) in *.
  pose proof (pe_step _ _ _ _ _ (projectPAT_effect row _ _ Hp)) as Hstep. cbn [ty_Event te_StreamID te_Payload personalAccessTokenEvent row] in Hstep.
  inversion Hstep; subst. eexists. by split_and!.
Qed.

Lemma Authenticate_opens env db presented id r :
  pat_inv db -> tn_read env = None -> validPATSecret (trim_space presented) = true -> opens (trim_space presented) (tn_now env) db id r ->
  run_prog env db (Authenticate presented) = (db, Ok (principal_of id r)).
Proof.
  intros HI Hq Hs (Hr & Hh & Hrev & Ht & Hx). unfold Authenticate. rewrite Hs. cbn [negb]. rewrite run_bind. cbn [run_prog look].
  rewrite Hq, by_hash_read, <- Hh, (by_hash_found db id r) by done. cbn. rewrite Hrev, Ht, (proj2 (Z.leb_gt _ _)) by lia. done.
Qed.
End RoundTrip.

(** C34. A token that was minted is the token that opens: whatever else the
    database holds, the text a successful mint hands out authenticates, until it
    expires, as the trimmed subject with the canonical form of the requested
    scopes and under the token's own audit identity, without a write; and when
    the subject is a user's identifier the gate takes that principal and bounds
    the request to exactly those scopes. *)
Theorem minted_token_authenticates {schemes : Schemes} env env' db db1 subject scopes expiresAt c :
  pat_inv db -> (forall random, tn_random env = Some random -> Forall is_byte random) ->
  run_prog env db (Mint subject scopes expiresAt) = (db1, Ok c) ->
  tn_read env' = None -> validTime (tn_now env') = true -> tn_now env' < expiresAt ->
  let principal := mkPATPrincipal (trim_space subject) (pc_TokenID c) (pc_Scopes c) ("pat:" +:+ pc_TokenID c) in
  run_prog env' db1 (Authenticate (pc_Secret c)) = (db1, Ok principal)
  /\ canonicalPATScopes scopes = Ok (pc_Scopes c)
  /\ forall ctx, validAuthorizationSubject (trim_space subject) = true ->
       ContextWithPATPrincipal (Some ctx) principal
       = Ok (mkCtx (Some (mkAuthenticatedPrincipal (trim_space subject) ("pat:" +:+ pc_TokenID c) (list_to_set (pc_Scopes c)) true))
               (cx_decision ctx)).
Proof.
  intros HI Hrandom Hrun Hq Hnow Hexp principal.
  destruct (pat_mint_ok _ _ _ _ _ _ _ Hrandom Hrun) as (_ & Hsc & [Hpath Hup] & Htrim & Hvalid & Happ & _).
  split; [|split; [done|]].
  - destruct (minted_opens _ _ _ _ _ (tn_now env') db db1 HI Hnow Hexp Happ) as (r & Hopen & Hsub & Hscopes).
    rewrite (Authenticate_opens env' db1 _ (pc_TokenID c) r).
    + unfold principal_of. by rewrite Hsub, Hscopes.
    + apply (pat_append_inv db); [done|]. eexists. by split; [|exact Happ].
    + done.
    + by rewrite Htrim.
    + by rewrite Htrim.
  - intros ctx Hsubject. unfold ContextWithPATPrincipal, principal. cbn [or_err mbind result_bind pp_Subject pp_TokenID pp_Scopes pp_AuditIdentity].
    rewrite Hsubject, Hpath, Hup, !String.eqb_refl, (canonicalPATScopes_idem _ _ Hsc). cbn. by rewrite bool_decide_true.
Qed.

(** ** Witnesses *)

Module PATExample.
#[local] Existing Instance example_schemes.

Definition subject : string := "01HZZZZZZZZZZZZZZZZZZZZZZZ".
Definition expires : time := 1800000000 * second.

(** Two readings of the clock and of the random source. *)
Definition env_at (seed : Z) : TokenEnv :=
  mkTokenEnv (mkAppendEnv None Committed 0) None (1700000000 * second) (Some (seqZ seed 42)) None.

Notation minted seed db :=
  (run_prog (env_at seed) db (Mint (" " +:+ subject) ["devices.read"; " audit.read"; "devices.read"] expires)).
Definition credential (m : PATDB * result goerr PATCredential) : PATCredential :=
  match m.2 with Ok c => c | Err _ => mkPATCredential "" "" [] 0 end.

Definition db1 : PATDB := Eval vm_compute in (minted 1 (mkTypedDB [] ∅)).1.
Definition first : PATCredential := Eval vm_compute in credential (minted 1 (mkTypedDB [] ∅)).
Definition db2 : PATDB := Eval vm_compute in (minted 2 db1).1.
Definition other : PATCredential := Eval vm_compute in credential (minted 2 db1).

Lemma first_minted : minted 1 (mkTypedDB [] ∅) = (db1, Ok first).
Proof. vm_compute. reflexivity. Qed.

Lemma other_minted : minted 2 db1 = (db2, Ok other).
Proof. vm_compute. reflexivity. Qed.

Example first_scopes : pc_Scopes first = ["audit.read"; "devices.read"].
Proof. reflexivity. Qed.

Lemma random_bytes seed random : 0 <= seed < 100 -> tn_random (env_at seed) = Some random -> Forall is_byte random.
Proof. intros Hs [= <-]. apply Forall_forall. intros b Hb%elem_of_seqZ. unfold is_byte. lia. Qed.

Lemma minted_inv seed db db' c : 0 <= seed < 100 -> pat_inv db -> minted seed db = (db', Ok c) -> pat_inv db'.
Proof.
  intros Hs HI H. apply pat_mint_ok in H as (_ & _ & _ & _ & _ & Ha & _); [|by intros random; apply random_bytes].
  apply (pat_append_inv db); [done|]. eexists. by split; [|exact Ha].
Qed.

Lemma db1_inv : pat_inv db1.
Proof. apply (minted_inv 1 (mkTypedDB [] ∅) db1 first); [lia|apply pat_inv_empty|apply first_minted]. Qed.

Lemma db2_inv : pat_inv db2.
Proof. apply (minted_inv 2 db1 db2 other); [lia|apply db1_inv|apply other_minted]. Qed.

Definition revoke : list PATCall := [CallRevoke (pc_TokenID first)].
Definition attempts : list PATCall := [CallAuthenticate (pc_Secret first); CallAuthenticate (pc_Secret other)].
Definition db3 : PATDB := Eval vm_compute in (run_all (env_at 3) db2 (run_pat_call <$> revoke)).1.
Definition principal : PATPrincipal :=
  mkPATPrincipal subject (pc_TokenID other) (pc_Scopes other) ("pat:" +:+ pc_TokenID other).

Lemma revoked_run : run_all (env_at 3) db2 (run_pat_call <$> revoke) = (db3, [Revoked (Ok tt)]).
Proof. vm_compute. reflexivity. Qed.

Lemma attempts_run : run_all (env_at 3) db3 (run_pat_call <$> attempts)
  = (db3, [Authenticated (Err ErrPATRejected); Authenticated (Ok principal)]).
Proof. vm_compute. reflexivity. Qed.

Lemma revoked_schedule : rtc (sched_step pat_append) (db2, run_pat_call <$> revoke) (db3, [Ret (Revoked (Ok tt))]).
Proof.
  pose proof (run_all_schedule pat_append (env_at 3) db2 [] (run_pat_call <$> revoke)) as H. rewrite revoked_run in H. exact H.
Qed.

Lemma attempts_schedule : rtc (sched_step pat_append) (db3, run_pat_call <$> attempts)
  (db3, [Ret (Authenticated (Err ErrPATRejected)); Ret (Authenticated (Ok principal))]).
Proof.
  pose proof (run_all_schedule pat_append (env_at 3) db3 [] (run_pat_call <$> attempts)) as H. rewrite attempts_run in H. exact H.
Qed.

(** A revocation that loses its append to a replacement of the token's metadata
    reports that the service is unavailable, and leaves the token live. *)
Definition updated (db : PATDB) : PATDB :=
  match PersonalAccessTokenUpdatedEvent (pc_TokenID first) subject ["audit.read"] expires false with
  | Ok event => (AppendPinned projectPAT (mkAppendEnv None Committed 0) event 1 db).1
  | Err _ => db
  end.

Definition read_first (db : PATDB) : PATDB * prog TokenEnv PATDB (result goerr unit) :=
  step_prog (env_at 3) db (Revoke (pc_TokenID first)).

Lemma revoke_lost_to_update :
  let '(db, p) := read_first db1 in
  let result := run_prog (env_at 3) (updated db) p in
  result.2 = Err (EWrap "PAT revocation contention" ErrPATUnavailable)
  /\ pw_Revoked <$> (td_tables result.1 !! pc_TokenID first) = Some false
  /\ pw_Scopes <$> (td_tables result.1 !! pc_TokenID first) = Some ["audit.read"].
Proof. vm_compute. by split_and!. Qed.
End PATExample.

Lemma Authenticate_decides_exactly_witness :
  exists verdict, run_prog (PATExample.env_at 3) PATExample.db1 (@Authenticate example_schemes (pc_Secret PATExample.first))
      = (PATExample.db1, verdict)
    /\ (verdict = Err ErrPATRejected \/ is_ok verdict = true)
    /\ forall principal, verdict = Ok principal <->
         validPATSecret (trim_space (pc_Secret PATExample.first)) = true
         /\ exists id r, @opens example_schemes (trim_space (pc_Secret PATExample.first)) (tn_now (PATExample.env_at 3)) PATExample.db1 id r
              /\ principal = principal_of id r.
Proof. exact (Authenticate_decides_exactly (PATExample.env_at 3) PATExample.db1 (pc_Secret PATExample.first) PATExample.db1_inv eq_refl eq_refl). Defined.

Lemma revoked_token_authenticates_nobody_witness :
  pp_TokenID PATExample.principal <> to_upper (trim_space (pc_TokenID PATExample.first)).
Proof.
  exact (revoked_token_authenticates_nobody (schemes := example_schemes) PATExample.revoke PATExample.attempts PATExample.db2
    PATExample.db3 PATExample.db3 _ _ 0 1 (pc_TokenID PATExample.first) PATExample.principal PATExample.db2_inv
    PATExample.revoked_schedule eq_refl eq_refl PATExample.attempts_schedule eq_refl).
Defined.

Lemma minted_token_authenticates_witness :
  let principal := mkPATPrincipal PATExample.subject (pc_TokenID PATExample.first) ["audit.read"; "devices.read"]
                     ("pat:" +:+ pc_TokenID PATExample.first) in
  run_prog (PATExample.env_at 3) PATExample.db1 (@Authenticate example_schemes (pc_Secret PATExample.first)) = (PATExample.db1, Ok principal)
  /\ ContextWithPATPrincipal (Some (mkCtx None None)) principal
     = Ok (mkCtx (Some (mkAuthenticatedPrincipal PATExample.subject ("pat:" +:+ pc_TokenID PATExample.first)
             (list_to_set ["audit.read"; "devices.read"]) true)) None).
Proof.
  destruct (minted_token_authenticates (schemes := example_schemes) (PATExample.env_at 1) (PATExample.env_at 3) (mkTypedDB [] ∅) PATExample.db1
    (" " +:+ PATExample.subject) ["devices.read"; " audit.read"; "devices.read"] PATExample.expires PATExample.first
    pat_inv_empty (fun random => PATExample.random_bytes 1 random ltac:(lia)) PATExample.first_minted eq_refl eq_refl ltac:(reflexivity))
    as (H1 & _ & H2).
  split; [exact H1|]. exact (H2 (mkCtx None None) eq_refl).
Defined.
