(* ===== verification/AccessStore.v ===== *)
(** * [server/internal/store/authorization.go], [last_admin.go]: roles and grants

    The roles and the grants with their events, statements, projectors and reads,
    over the directory whose users and groups the grants name; the resolution of
    what a user may do; the count of the enabled administrators, and the append
    that keeps the last one. *)

From Stdlib Require Import Ascii String ZArith Lia.
From S2P Require Export AuthGate.
From S2P Require Export DirectoryProof.

(** server/internal/store/authorization.go:15-26 [authorizationRoleStreamType] *)
Definition authorizationRoleStreamType : string := "authorization-role".
Definition authorizationGrantStreamType : string := "authorization-grant".

Definition errAuthorizationRoleExists : goerr := ESentinel "store: authorization role already exists".
Definition errAuthorizationGrantExists : goerr := ESentinel "store: authorization grant already exists".
Definition errAuthorizationRoleMissing : goerr := ESentinel "store: authorization role is missing".
Definition errAuthorizationPrincipalMissing : goerr := ESentinel "store: authorization principal is missing".

(** [authz.ErrInvalidRole] and [authz.ErrInvalidGrant] as Go errors. *)
Definition authz_err (e : authz_error) : goerr :=
  match e with
  | ErrInvalidRole reason => EWrap reason (ESentinel "authz: invalid role")
  | ErrInvalidGrant reason => EWrap reason (ESentinel "authz: invalid grant")
  | _ => EMsg "authz: catalog"
  end.

(** server/internal/store/authorization.go:56-61 [AuthorizationRole] *)
Record AuthorizationRole := mkAuthorizationRole {
  ar_ID : string;
  ar_Name : string;
  ar_Permissions : list string;
  ar_ProjectionVersion : Z;
}.

(** server/internal/store/authorization.go:64-71 [AuthorizationGrant] *)
Record AuthorizationGrant := mkAuthorizationGrant {
  ag_ID : string;
  ag_PrincipalType : string;
  ag_PrincipalID : string;
  ag_RoleID : string;
  ag_Scope : Scope;
  ag_ProjectionVersion : Z;
}.

(** ** Tables and events *)

(** server/internal/store/migrations/021_authorization.sql:4-23 [authorization_roles];
    its other checks repeat what the projectors validate *)
Record RoleRow := mkRoleRow {
  rr_Name : string;
  rr_Permissions : list string;
  rr_ProjectionVersion : Z;
  rr_UpdatedAt : time;
}.

(** server/internal/store/migrations/021_authorization.sql:25-58 [authorization_grants] *)
Record GrantRow := mkGrantRow {
  gr_PrincipalType : string;
  gr_PrincipalID : string;
  gr_RoleID : string;
  gr_Scope : Scope;
  gr_ProjectionVersion : Z;
  gr_UpdatedAt : time;
}.

(** The directory, and the tables of roles and grants. *)
Record AccessTables := mkAccessTables {
  at_directory : DirTables;
  at_roles : gmap string RoleRow;
  at_grants : gmap string GrantRow;
}.

Definition with_roles (t : AccessTables) (roles : gmap string RoleRow) : AccessTables := mkAccessTables (at_directory t) roles (at_grants t).
Definition with_grants (t : AccessTables) (grants : gmap string GrantRow) : AccessTables := mkAccessTables (at_directory t) (at_roles t) grants.

(** server/internal/store/authorization.go:40-54 [authorizationRoleCreatedPayload], and
    the other event payloads, beside those of the directory *)
Inductive accessPayload :=
| directoryEvent (payload : directoryPayload)
| authorizationRoleCreated (Name : string) (Permissions : list string)
| authorizationRoleUpdated (Name : string) (Permissions : list string)
| authorizationRoleDeleted
| authorizationGrantCreated (PrincipalType PrincipalID RoleID ScopeKind : string) (ScopeIDs : list string)
| authorizationGrantUpdated (PrincipalType PrincipalID RoleID ScopeKind : string) (ScopeIDs : list string)
| authorizationGrantDeleted.

Notation AccessEvent := (TypedEvent accessPayload).
Notation AccessEventRow := (TypedRow accessPayload).
Notation AccessDB := (TypedDB accessPayload AccessTables).

(** The stream type that an event type belongs to. *)
Definition access_stream (payload : accessPayload) : string :=
  match payload with
  | directoryEvent payload => directory_stream payload
  | authorizationRoleCreated _ _ | authorizationRoleUpdated _ _ | authorizationRoleDeleted => authorizationRoleStreamType
  | _ => authorizationGrantStreamType
  end.

(** The name of the event type of a payload. *)
Definition access_event_type (payload : accessPayload) : string :=
  match payload with
  | directoryEvent (userCreated _) => userCreatedEventType
  | directoryEvent (userManagedUpdated _) => userManagedUpdatedEventType
  | directoryEvent userManagedDeleted => userManagedDeletedEventType
  | directoryEvent (bootstrapAdminRoleGranted _) => bootstrapAdminGrantedType
  | directoryEvent (oidcIdentityLinked _ _ _ _) => oidcIdentityLinkedEventType
  | directoryEvent userDisabled => userDisabledEventType
  | directoryEvent (roleRevoked _) => roleRevokedEventType
  | directoryEvent (oidcIdentityUnlinked _ _ _) => oidcIdentityUnlinkedEventType
  | directoryEvent (scimIdentityLinked _ _ _) => scimIdentityLinkedEventType
  | directoryEvent (scimIdentityUnlinked _ _) => scimIdentityUnlinkedEventType
  | directoryEvent scimUserDeprovisioned => scimUserDeprovisionedEventType
  | directoryEvent (scimProviderCreated _ _) => scimProviderCreatedEventType
  | directoryEvent (scimProviderTokenRotated _ _) => scimProviderTokenRotatedEventType
  | directoryEvent (scimProviderDisabled _ _) => scimProviderDisabledEventType
  | directoryEvent (scimProviderDeleted _ _) => scimProviderDeletedEventType
  | directoryEvent (scimGroupCreated _ _ _) => scimGroupCreatedEventType
  | directoryEvent (scimGroupUpdated _ _ _) => scimGroupUpdatedEventType
  | directoryEvent (scimGroupMembershipsReplaced _) => scimGroupMembershipsEventType
  | directoryEvent (scimGroupDeleted _) => scimGroupDeletedEventType
  | directoryEvent (userGroupCreated _ _) => userGroupCreatedEventType
  | directoryEvent (userGroupUpdated _ _) => userGroupUpdatedEventType
  | directoryEvent (userGroupMetadataUpdated _ _) => userGroupMetadataUpdatedEventType
  | directoryEvent userGroupDeleted => userGroupDeletedEventType
  | authorizationRoleCreated _ _ => authorizationRoleCreatedType
  | authorizationRoleUpdated _ _ => authorizationRoleUpdatedType
  | authorizationRoleDeleted => authorizationRoleDeletedType
  | authorizationGrantCreated _ _ _ _ _ => authorizationGrantCreatedType
  | authorizationGrantUpdated _ _ _ _ _ => authorizationGrantUpdatedType
  | authorizationGrantDeleted => authorizationGrantDeletedType
  end.

(** ** Event constructors *)

(** server/internal/store/authorization.go:912-917 [canonicalAuthorizationID] *)
Definition canonicalAuthorizationID (value : string) : result goerr string :=
  wrap_err EMsg (ULIDPathID value) ≫= fun _ => Ok (to_upper value).

(** server/internal/store/authorization.go:74-101 [AuthorizationRoleCreatedEvent] *)
Definition AuthorizationRoleCreatedEvent (roleID name : string) (permissions : list string) : result goerr AccessEvent :=
  wrap_err authz_err (NormalizeRole (mkRole roleID name permissions)) ≫= fun role =>
  Ok (mkTypedEvent authorizationRoleStreamType (role_ID role) (authorizationRoleCreated (role_Name role) (role_Permissions role))).

(** server/internal/store/authorization.go:104-115 [AuthorizationRoleUpdatedEvent] *)
Definition AuthorizationRoleUpdatedEvent (roleID name : string) (permissions : list string) : result goerr AccessEvent :=
  wrap_err authz_err (NormalizeRole (mkRole roleID name permissions)) ≫= fun role =>
  Ok (mkTypedEvent authorizationRoleStreamType (role_ID role) (authorizationRoleUpdated (role_Name role) (role_Permissions role))).

(** server/internal/store/authorization.go:118-134 [AuthorizationRoleDeletedEvent] *)
Definition AuthorizationRoleDeletedEvent (roleID : string) : result goerr AccessEvent :=
  canonicalAuthorizationID roleID ≫= fun roleID => Ok (mkTypedEvent authorizationRoleStreamType roleID authorizationRoleDeleted).

(** The grant of the two constructors below, normalized. *)
Definition grant_event (grantID principalType principalID roleID : string) (scope : Scope)
    (payload : string -> string -> string -> string -> list string -> accessPayload) : result goerr AccessEvent :=
  let invalid field e := EWrap field (ESentinel "authz: invalid grant") in
  wrap_err (invalid "ID") (canonicalAuthorizationID grantID) ≫= fun grantID =>
  wrap_err authz_err (NormalizePrincipal principalType principalID) ≫= fun principalID =>
  wrap_err (invalid "role ID") (canonicalAuthorizationID roleID) ≫= fun roleID =>
  wrap_err authz_err (NormalizeScope scope) ≫= fun scope =>
  Ok (mkTypedEvent authorizationGrantStreamType grantID (payload principalType principalID roleID (sc_Kind scope) (sc_IDs scope))).

(** server/internal/store/authorization.go:136-177 [AuthorizationGrantCreatedEvent] *)
Definition AuthorizationGrantCreatedEvent (grantID principalType principalID roleID : string) (scope : Scope) : result goerr AccessEvent :=
  grant_event grantID principalType principalID roleID scope authorizationGrantCreated.

(** server/internal/store/authorization.go:180-199 [AuthorizationGrantUpdatedEvent] *)
Definition AuthorizationGrantUpdatedEvent (grantID principalType principalID roleID : string) (scope : Scope) : result goerr AccessEvent :=
  grant_event grantID principalType principalID roleID scope authorizationGrantUpdated.

(** server/internal/store/authorization.go:202-218 [AuthorizationGrantDeletedEvent] *)
Definition AuthorizationGrantDeletedEvent (grantID : string) : result goerr AccessEvent :=
  canonicalAuthorizationID grantID ≫= fun grantID => Ok (mkTypedEvent authorizationGrantStreamType grantID authorizationGrantDeleted).

(** ** Statements *)

(** The unique name of another role. *)
Definition role_name_taken (id name : string) (t : AccessTables) : bool :=
  existsb (fun p => negb (String.eqb p.1 id) && String.eqb (rr_Name p.2) name) (map_to_list (at_roles t)).

(** server/internal/store/queries/authorization.sql:1-14 [InsertAuthorizationRole] *)
Definition InsertAuthorizationRole (id : string) (row : RoleRow) (t : AccessTables) : result goerr (AccessTables * Z) :=
  fail_if (bool_decide (is_Some (at_roles t !! id))) (EPg "23505" "authorization_roles_pkey") ≫= fun _ =>
  fail_if (role_name_taken id (rr_Name row) t) (EPg "23505" "authorization_roles_name_key") ≫= fun _ =>
  Ok (with_roles t (<[id := row]> (at_roles t)), 1).

(** server/internal/store/queries/authorization.sql:27-34 [ReplaceAuthorizationRole] *)
Definition ReplaceAuthorizationRole (id name : string) (permissions : list string) (version : Z) (now : time) (t : AccessTables)
    : result goerr (AccessTables * Z) :=
  match at_roles t !! id with
  | Some r =>
      if rr_ProjectionVersion r =? version - 1 then
        fail_if (role_name_taken id name t) (EPg "23505" "authorization_roles_name_key") ≫= fun _ =>
        Ok (with_roles t (<[id := mkRoleRow name permissions version now]> (at_roles t)), 1)
      else Ok (t, 0)
  | None => Ok (t, 0)
  end.

(** server/internal/store/queries/authorization.sql:36-39 [DeleteAuthorizationRole] *)
Definition DeleteAuthorizationRole (id : string) (version : Z) (t : AccessTables) : AccessTables * Z :=
  match at_roles t !! id with
  | Some r => if rr_ProjectionVersion r =? version then (with_roles t (delete id (at_roles t)), 1) else (t, 0)
  | None => (t, 0)
  end.

(** server/internal/store/queries/authorization.sql:41-60 [InsertAuthorizationGrant] *)
Definition InsertAuthorizationGrant (id : string) (row : GrantRow) (t : AccessTables) : result goerr (AccessTables * Z) :=
  fail_if (bool_decide (is_Some (at_grants t !! id))) (EPg "23505" "authorization_grants_pkey") ≫= fun _ =>
  Ok (with_grants t (<[id := row]> (at_grants t)), 1).

(** server/internal/store/queries/authorization.sql:75-85 [ReplaceAuthorizationGrant] *)
Definition ReplaceAuthorizationGrant (id principalType principalID roleID : string) (scope : Scope) (version : Z) (now : time)
    (t : AccessTables) : AccessTables * Z :=
  match at_grants t !! id with
  | Some g =>
      if gr_ProjectionVersion g =? version - 1
      then (with_grants t (<[id := mkGrantRow principalType principalID roleID scope version now]> (at_grants t)), 1) else (t, 0)
  | None => (t, 0)
  end.

(** server/internal/store/queries/authorization.sql:87-90 [DeleteAuthorizationGrant] *)
Definition DeleteAuthorizationGrant (id : string) (version : Z) (t : AccessTables) : AccessTables * Z :=
  match at_grants t !! id with
  | Some g => if gr_ProjectionVersion g =? version then (with_grants t (delete id (at_grants t)), 1) else (t, 0)
  | None => (t, 0)
  end.

(** server/internal/store/queries/authorization.sql:92-109 [AuthorizationPrincipalExists] *)
Definition AuthorizationPrincipalExists (principalType principalID : string) (t : AccessTables) : bool :=
  let d := at_directory t in
  if String.eqb principalType "user" then bool_decide (is_Some (dt_users d !! principalID))
  else if String.eqb principalType "user-group"
  then bool_decide (is_Some (dt_groups d !! principalID)) || bool_decide (is_Some (dt_managed d !! principalID))
  else false.

(** server/internal/store/migrations/021_authorization.sql:35-37
    [authorization_grants_role_id_fkey]: checked when the transaction commits *)
Definition roles_present (t : AccessTables) : bool :=
  forallb (fun p => bool_decide (is_Some (at_roles t !! gr_RoleID p.2))) (map_to_list (at_grants t)).

(** ** Projectors *)

Section Projectors.
Context (skip : bool) (id : string) (version : Z) (now : time).

(** The check [normalized, err := ...; err != nil || normalized != value]. *)
Definition is_canonical_access (value : string) : bool :=
  match canonicalAuthorizationID value with Ok canonical => String.eqb canonical value | Err _ => false end.
Definition is_canonical_principal (kind value : string) : bool :=
  match NormalizePrincipal kind value with Ok canonical => String.eqb canonical value | Err _ => false end.
Definition is_canonical_scope (scope : Scope) : bool :=
  match NormalizeScope scope with Ok normalized => bool_decide (normalized = scope) | Err _ => false end.
Definition is_canonical_role (role : Role) : bool :=
  match NormalizeRole role with
  | Ok normalized => String.eqb (role_ID normalized) (role_ID role) && String.eqb (role_Name normalized) (role_Name role)
                     && bool_decide (role_Permissions normalized = role_Permissions role)
  | Err _ => false
  end.

(** server/internal/store/authorization.go:517-562 [projectAuthorizationRoleCreated] *)
Definition projectAuthorizationRoleCreated (name : string) (permissions : list string) (t : AccessTables) : result goerr AccessTables :=
  fail_if (negb (version =? 1)) errAuthorizationRoleExists ≫= fun _ =>
  fail_if (negb (is_canonical_role (mkRole id name permissions))) (EMsg "store: authorization role payload is invalid") ≫= fun _ =>
  wrap_err (EWrap "store: project authorization role creation") (InsertAuthorizationRole id (mkRoleRow name permissions version now) t) ≫=
  affected_one errAuthorizationRoleExists.

(** server/internal/store/authorization.go:644-690 [projectAuthorizationRoleUpdated] *)
Definition projectAuthorizationRoleUpdated (name : string) (permissions : list string) (t : AccessTables) : result goerr AccessTables :=
  fail_if (version <? 2) (EMsg "store: authorization role update version is invalid") ≫= fun _ =>
  fail_if (negb (is_canonical_role (mkRole id name permissions))) (EMsg "store: authorization role payload is invalid") ≫= fun _ =>
  wrap_err (EWrap "store: project authorization role update") (ReplaceAuthorizationRole id name permissions version now t) ≫=
  affected_one (EMsg "store: authorization role update projection version mismatch").

(** server/internal/store/authorization.go:692-724 [projectAuthorizationRoleDeleted] *)
Definition projectAuthorizationRoleDeleted (t : AccessTables) : result goerr AccessTables :=
  fail_if (version <? 2) (EMsg "store: authorization role deletion version is invalid") ≫= fun _ =>
  fail_if (negb (is_canonical_access id)) (EMsg "store: authorization role stream ID is invalid") ≫= fun _ =>
  affected_one (EMsg "store: authorization role deletion projection version mismatch") (DeleteAuthorizationRole id (version - 1) t).

(** The role and the principal that a grant names, looked up but in a replay. *)
Definition check_grant_references (principalType principalID roleID : string) (t : AccessTables) : result goerr unit :=
  fail_if (negb skip && negb (bool_decide (is_Some (at_roles t !! roleID)))) (EWrap "no rows" errAuthorizationRoleMissing) ≫= fun _ =>
  fail_if (negb skip && negb (AuthorizationPrincipalExists principalType principalID t)) errAuthorizationPrincipalMissing.

(** server/internal/store/authorization.go:564-642 [projectAuthorizationGrantCreated] *)
Definition projectAuthorizationGrantCreated (principalType principalID roleID : string) (scope : Scope) (t : AccessTables)
    : result goerr AccessTables :=
  fail_if (negb (version =? 1)) errAuthorizationGrantExists ≫= fun _ =>
  fail_if (negb (is_canonical_access id)) (EMsg "store: authorization grant stream ID is invalid") ≫= fun _ =>
  fail_if (negb (is_canonical_principal principalType principalID)) (EMsg "store: authorization grant principal is invalid") ≫= fun _ =>
  fail_if (negb (is_canonical_access roleID)) (EMsg "store: authorization grant role ID is invalid") ≫= fun _ =>
  fail_if (negb (is_canonical_scope scope)) (EMsg "store: authorization grant scope is invalid") ≫= fun _ =>
  check_grant_references principalType principalID roleID t ≫= fun _ =>
  wrap_err (EWrap "store: project authorization grant creation")
    (InsertAuthorizationGrant id (mkGrantRow principalType principalID roleID scope version now) t) ≫=
  affected_one errAuthorizationGrantExists.

(** server/internal/store/authorization.go:857-899 [validateAuthorizationGrantProjection] *)
Definition validateAuthorizationGrantProjection (id principalType principalID roleID : string) (scope : Scope) (version : Z)
    : result goerr AuthorizationGrant :=
  fail_if (negb (is_canonical_access id)) (EMsg "store: authorization grant projection ID is invalid") ≫= fun _ =>
  fail_if (negb (is_canonical_principal principalType principalID)) (EMsg "store: authorization grant projection principal is invalid") ≫= fun _ =>
  fail_if (negb (is_canonical_access roleID)) (EMsg "store: authorization grant projection role ID is invalid") ≫= fun _ =>
  fail_if (negb (is_canonical_scope scope)) (EMsg "store: authorization grant projection scope is invalid") ≫= fun _ =>
  fail_if (version <? 1) (EMsg "store: authorization grant projection version is invalid") ≫= fun _ =>
  Ok (mkAuthorizationGrant id principalType principalID roleID scope version).

(** server/internal/store/authorization.go:726-794 [projectAuthorizationGrantUpdated] *)
Definition projectAuthorizationGrantUpdated (principalType principalID roleID : string) (scope : Scope) (t : AccessTables)
    : result goerr AccessTables :=
  fail_if (version <? 2) (EMsg "store: authorization grant update version is invalid") ≫= fun _ =>
  validateAuthorizationGrantProjection id principalType principalID roleID scope version ≫= fun grant =>
  check_grant_references (ag_PrincipalType grant) (ag_PrincipalID grant) (ag_RoleID grant) t ≫= fun _ =>
  affected_one (EMsg "store: authorization grant update projection version mismatch")
    (ReplaceAuthorizationGrant (ag_ID grant) (ag_PrincipalType grant) (ag_PrincipalID grant) (ag_RoleID grant) (ag_Scope grant) version now t).

(** server/internal/store/authorization.go:796-828 [projectAuthorizationGrantDeleted] *)
Definition projectAuthorizationGrantDeleted (t : AccessTables) : result goerr AccessTables :=
  fail_if (version <? 2) (EMsg "store: authorization grant deletion version is invalid") ≫= fun _ =>
  fail_if (negb (is_canonical_access id)) (EMsg "store: authorization grant stream ID is invalid") ≫= fun _ =>
  affected_one (EMsg "store: authorization grant deletion projection version mismatch") (DeleteAuthorizationGrant id (version - 1) t).
End Projectors.

Section Access.
Context {unicode : UnicodeLower} {urls : URLs} {schemes : Schemes} {bcrypt : Bcrypt}.

(** server/internal/store/authorization.go:403-478 [authorizationEventDefinitions]: the
    projectors, beside those of the directory *)
Definition projectAccess (skip : bool) (row : AccessEventRow) (t : AccessTables) : result goerr AccessTables :=
  let id := te_StreamID (ty_Event row) in
  let version := ty_Version row in
  let now := ty_CreatedAt row in
  match te_Payload (ty_Event row) with
  | directoryEvent payload =>
      projectDirectory skip (mkTypedRow (mkTypedEvent (te_StreamType (ty_Event row)) id payload) version now) (at_directory t) ≫= fun d =>
      Ok (mkAccessTables d (at_roles t) (at_grants t))
  | authorizationRoleCreated name permissions => projectAuthorizationRoleCreated id version now name permissions t
  | authorizationRoleUpdated name permissions => projectAuthorizationRoleUpdated id version now name permissions t
  | authorizationRoleDeleted => projectAuthorizationRoleDeleted id version t
  | authorizationGrantCreated principalType principalID roleID kind ids =>
      projectAuthorizationGrantCreated skip id version now principalType principalID roleID (mkScope kind ids) t
  | authorizationGrantUpdated principalType principalID roleID kind ids =>
      projectAuthorizationGrantUpdated skip id version now principalType principalID roleID (mkScope kind ids) t
  | authorizationGrantDeleted => projectAuthorizationGrantDeleted id version t
  end.

(** server/internal/store/authorization.go:901-910 [resetAuthorization] *)
Definition resetAuthorization (t : AccessTables) : AccessTables := mkAccessTables (at_directory t) ∅ ∅.

(** ** Reads *)

(** server/internal/store/authorization.go:830-855 [validateAuthorizationRoleProjection] *)
Definition validateAuthorizationRoleProjection (id : string) (row : RoleRow) : result goerr AuthorizationRole :=
  fail_if (negb (is_canonical_role (mkRole id (rr_Name row) (rr_Permissions row))) || (rr_ProjectionVersion row <? 1))
    (EMsg "store: authorization role projection is invalid") ≫= fun _ =>
  Ok (mkAuthorizationRole id (rr_Name row) (rr_Permissions row) (rr_ProjectionVersion row)).

(** server/internal/store/authorization.go:221-242 [Store.AuthorizationRoleByID] *)
Definition AuthorizationRoleByID (fault : option goerr) (roleID : string) (t : AccessTables) : result goerr AuthorizationRole :=
  canonicalAuthorizationID roleID ≫= fun roleID =>
  wrap_err (EWrap "store: read authorization role") (may_fault fault ≫= fun _ => or_err (at_roles t !! roleID) ErrNoRows) ≫=
  validateAuthorizationRoleProjection roleID.

(** The first rows of a table, in the order of their keys. *)
Definition key_page {V} (limit : Z) (m : gmap string V) : list (string * V) :=
  take (Z.to_nat limit) (omap (fun id => (id,.) <$> m !! id) (sort_strings (map_to_list m).*1)).

(** server/internal/store/authorization.go:245-269 [Store.ListAuthorizationRoles] *)
Definition ListAuthorizationRoles (fault : option goerr) (limit : Z) (t : AccessTables) : result goerr (list AuthorizationRole) :=
  fail_if ((limit <? 1) || (200 <? limit)) (EMsg "store: invalid authorization role list") ≫= fun _ =>
  wrap_err (EWrap "store: list authorization roles") (may_fault fault) ≫= fun _ =>
  map_result (fun p => validateAuthorizationRoleProjection p.1 p.2) (key_page limit (at_roles t)).

Definition validate_grant_row (id : string) (row : GrantRow) : result goerr AuthorizationGrant :=
  validateAuthorizationGrantProjection id (gr_PrincipalType row) (gr_PrincipalID row) (gr_RoleID row) (gr_Scope row) (gr_ProjectionVersion row).

(** server/internal/store/authorization.go:272-296 [Store.AuthorizationGrantByID] *)
Definition AuthorizationGrantByID (fault : option goerr) (grantID : string) (t : AccessTables) : result goerr AuthorizationGrant :=
  canonicalAuthorizationID grantID ≫= fun grantID =>
  wrap_err (EWrap "store: read authorization grant") (may_fault fault ≫= fun _ => or_err (at_grants t !! grantID) ErrNoRows) ≫=
  validate_grant_row grantID.

(** server/internal/store/authorization.go:299-326 [Store.ListAuthorizationGrants] *)
Definition ListAuthorizationGrants (fault : option goerr) (limit : Z) (t : AccessTables) : result goerr (list AuthorizationGrant) :=
  fail_if ((limit <? 1) || (200 <? limit)) (EMsg "store: invalid authorization grant list") ≫= fun _ =>
  wrap_err (EWrap "store: list authorization grants") (may_fault fault) ≫= fun _ =>
  map_result (fun p => validate_grant_row p.1 p.2) (key_page limit (at_grants t)).

(** The principal of a grant is the user, or a group of the user's. *)
Definition grants_to (userID : string) (t : DirTables) (g : GrantRow) : bool :=
  (String.eqb (gr_PrincipalType g) "user" && String.eqb (gr_PrincipalID g) userID)
  || (String.eqb (gr_PrincipalType g) "user-group" && bool_decide ((gr_PrincipalID g, userID) ∈ group_memberships t)).

(** server/internal/store/queries/authorization.sql:111-138 [ListResolvedAuthorizationGrants] *)
Definition ListResolvedAuthorizationGrants (userID : string) (t : AccessTables) : list Grant :=
  omap (fun id => g ← at_grants t !! id; r ← at_roles t !! gr_RoleID g;
                  if grants_to userID (at_directory t) g
                  then Some (mkGrant id (gr_PrincipalType g) (gr_PrincipalID g) (gr_RoleID g) (rr_Permissions r) (gr_Scope g)) else None)
    (sort_strings (map_to_list (at_grants t)).*1).

(** server/internal/store/authorization.go:356-401 [Store.ResolveEffectiveAccess]: two
    statements, each with its own view of the database *)
Definition ResolveEffectiveAccess (sort : list Grant -> list Grant) (fault1 fault2 : option goerr) (userID : string) (t1 t2 : AccessTables)
    : result goerr EffectiveAccess :=
  UserByID fault1 userID (at_directory t1) ≫= fun user =>
  fail_if (su_Disabled user) ErrUserDisabled ≫= fun _ =>
  wrap_err (EWrap "store: list resolved authorization grants") (may_fault fault2) ≫= fun _ =>
  wrap_err (fun e => EWrap "store: resolve authorization grants" (authz_err e)) (Resolve sort (ListResolvedAuthorizationGrants (su_UserID user) t2)).

(** ** The administrators *)

(** The user's own events granted the bootstrap role, and none since revoked it. *)
Definition bootstrap_admin (log : list AccessEventRow) (userID : string) : bool :=
  existsb (fun granted =>
      bool_decide (of_stream userStreamType userID granted)
      && (match te_Payload (ty_Event granted) with directoryEvent (bootstrapAdminRoleGranted _) => true | _ => false end)
      && negb (existsb (fun revoked =>
                 bool_decide (of_stream userStreamType userID revoked) && (ty_Version granted <? ty_Version revoked)
                 && (match te_Payload (ty_Event revoked) with directoryEvent (roleRevoked role) => String.eqb role "admin" | _ => false end)) log)) log.

(** A global grant of a role with the permission, to the user or a group of it. *)
Definition dynamic_admin (permission : string) (t : AccessTables) (userID : string) : bool :=
  existsb (fun p =>
      String.eqb (sc_Kind (gr_Scope p.2)) "global" && grants_to userID (at_directory t) p.2
      && (match at_roles t !! gr_RoleID p.2 with Some r => bool_decide (permission ∈ rr_Permissions r) | None => false end))
    (map_to_list (at_grants t)).

Definition is_enabled_admin (permission : string) (db : AccessDB) (userID : string) : bool :=
  match dt_users (at_directory (td_tables db)) !! userID with
  | Some u => negb (ur_Disabled u) && (dynamic_admin permission (td_tables db) userID || bootstrap_admin (td_log db) userID)
  | None => false
  end.

(** server/internal/store/queries/authorization.sql:146-208 [CountEnabledAdmins] *)
Definition CountEnabledAdmins (permission : string) (db : AccessDB) : Z :=
  zlen (filter (fun id => is_enabled_admin permission db id = true) (map_to_list (dt_users (at_directory (td_tables db)))).*1).

(** server/internal/store/store.go:643-643 [prepareEvent]: the event types that may
    reduce the administrators, from the production catalogue *)
Definition may_reduce (payload : accessPayload) : bool :=
  bool_decide (access_event_type payload ∈ lastAdminReductionEventSet productionEventDefinitions).

(** server/internal/store/last_admin.go:135-169 [protectLastAdminMutation], around the
    insert and the projection, with the deferred constraint of the commit *)
Definition append_guarded (now : time) (event : AccessEvent) (version : Z) (db : AccessDB) : result goerr AccessDB :=
  insert_typed (projectAccess false) now event version db ≫= fun db' =>
  fail_if (may_reduce (te_Payload event) && negb (CountEnabledAdmins lastAdminPermission db =? 0)
           && (CountEnabledAdmins lastAdminPermission db' =? 0)) ErrLastAdmin ≫= fun _ =>
  fail_if (negb (roles_present (td_tables db'))) (EWrap "commit" (EPg "23503" "authorization_grants_role_id_fkey")) ≫= fun _ =>
  Ok db'.
End Access.
