(* ===== verification/AccessProof.v ===== *)
(** * Roles and grants over the directory

    The directory inside the database of roles and grants is a directory of its
    own; its tables and those of the roles and grants stay consistent; the users
    that the database counts as administrators are those whose resolved access
    says so; and an enabled administrator remains. *)

From Stdlib Require Import Ascii String ZArith Lia.
From S2P Require Export DirectoryRebuild.
From S2P Require Export AccessStore.

(** The events that may reduce the administrators. *)
Definition reduces (payload : accessPayload) : bool :=
  match payload with
  | directoryEvent (userManagedDeleted | userDisabled | roleRevoked _ | scimUserDeprovisioned | scimGroupMembershipsReplaced _
                    | scimGroupDeleted _ | userGroupUpdated _ _ | userGroupDeleted)
  | authorizationRoleUpdated _ _ | authorizationRoleDeleted | authorizationGrantUpdated _ _ _ _ _ | authorizationGrantDeleted => true
  | _ => false
  end.

Lemma may_reduce_reduces payload : may_reduce payload = reduces payload.
Proof. destruct payload as [payload| | | | | |]; [destruct payload|..]; vm_compute; reflexivity. Qed.

#[local] Opaque may_reduce.

(** ** What the projectors do *)

Definition role_effect (version : Z) (now : time) (payload : accessPayload) (row : option RoleRow) : option (option RoleRow) :=
  match payload, row with
  | authorizationRoleCreated name permissions, None => if version =? 1 then Some (Some (mkRoleRow name permissions version now)) else None
  | authorizationRoleUpdated name permissions, Some r => Some (Some (mkRoleRow name permissions version now))
  | authorizationRoleDeleted, Some r => Some None
  | _, _ => None
  end.

Definition role_admissible (id : string) (payload : accessPayload) (t : AccessTables) : Prop :=
  match payload with
  | authorizationRoleCreated name permissions | authorizationRoleUpdated name permissions =>
      is_canonical_role (mkRole id name permissions) = true
      /\ forall j r, j <> id -> at_roles t !! j = Some r -> rr_Name r <> name
  | _ => True
  end.

(** The projection of an event of a role, to the tables. *)
Record role_step (id : string) (version : Z) (now : time) (payload : accessPayload) (t t' : AccessTables) : Prop := {
  rs_version : match at_roles t !! id with Some r => rr_ProjectionVersion r = version - 1 | None => version = 1 end;
  rs_admissible : role_admissible id payload t;
  rs_self : role_effect version now payload (at_roles t !! id) = Some (at_roles t' !! id);
  rs_other : forall j, j <> id -> at_roles t' !! j = at_roles t !! j;
  rs_rest : at_directory t' = at_directory t /\ at_grants t' = at_grants t;
}.

Definition grant_effect (version : Z) (now : time) (payload : accessPayload) (row : option GrantRow) : option (option GrantRow) :=
  match payload, row with
  | authorizationGrantCreated kind principal role scope ids, None =>
      if version =? 1 then Some (Some (mkGrantRow kind principal role (mkScope scope ids) version now)) else None
  | authorizationGrantUpdated kind principal role scope ids, Some g => Some (Some (mkGrantRow kind principal role (mkScope scope ids) version now))
  | authorizationGrantDeleted, Some g => Some None
  | _, _ => None
  end.

Definition grant_admissible (id : string) (payload : accessPayload) (t : AccessTables) : Prop :=
  match payload with
  | authorizationGrantCreated kind principal role scope ids | authorizationGrantUpdated kind principal role scope ids =>
      is_canonical_access id = true /\ is_canonical_principal kind principal = true /\ is_canonical_access role = true
      /\ is_canonical_scope (mkScope scope ids) = true /\ is_Some (at_roles t !! role)
      /\ AuthorizationPrincipalExists kind principal t = true
  | _ => True
  end.

(** The projection of an event of a grant, to the tables. *)
Record grant_step (id : string) (version : Z) (now : time) (payload : accessPayload) (t t' : AccessTables) : Prop := {
  gn_version : match at_grants t !! id with Some g => gr_ProjectionVersion g = version - 1 | None => version = 1 end;
  gn_admissible : grant_admissible id payload t;
  gn_self : grant_effect version now payload (at_grants t !! id) = Some (at_grants t' !! id);
  gn_other : forall j, j <> id -> at_grants t' !! j = at_grants t !! j;
  gn_rest : at_directory t' = at_directory t /\ at_roles t' = at_roles t;
}.

Lemma role_name_free name id t :
  role_name_taken id name t = false -> forall j r, j <> id -> at_roles t !! j = Some r -> rr_Name r <> name.
Proof.
  intros Hf j r Hj Hr He. pose proof (not_taken _ _ _ _ Hf Hr) as Ht. cbn in Ht. rewrite He, String.eqb_refl, andb_true_r in Ht.
  by apply negb_false_iff, String.eqb_eq in Ht.
Qed.

(** Every projection of an event of a role is a step of that role. *)
Lemma role_created_step id version now name permissions t t' :
  projectAuthorizationRoleCreated id version now name permissions t = Ok t' ->
  role_step id version now (authorizationRoleCreated name permissions) t t'.
Proof.
  unfold projectAuthorizationRoleCreated. intros (u1 & Hv%fail_if_ok%negb_false_iff%Z.eqb_eq & H)%bind_ok. subst version.
  apply bind_ok in H as (u2 & Hc%fail_if_ok%negb_false_iff & H). apply bind_ok in H as (p & Hi%wrap_err_ok & [_ <-]%one_affected_ok).
  unfold InsertAuthorizationRole in Hi. apply bind_ok in Hi as (u3 & Hn%fail_if_ok%bool_decide_eq_false%eq_None_not_Some & Hi).
  apply bind_ok in Hi as (u4 & Hf%fail_if_ok & [= <-]). cbn [rr_Name] in Hf.
  split; cbn; [by rewrite Hn|split; [done|by apply role_name_free]|by rewrite Hn, lookup_insert_eq|intros j Hj; by rewrite lookup_insert_ne|done].
Qed.

Lemma role_updated_step id version now name permissions t t' :
  projectAuthorizationRoleUpdated id version now name permissions t = Ok t' ->
  role_step id version now (authorizationRoleUpdated name permissions) t t'.
Proof.
  unfold projectAuthorizationRoleUpdated. intros (u1 & _ & H)%bind_ok.
  apply bind_ok in H as (u2 & Hc%fail_if_ok%negb_false_iff & H). apply bind_ok in H as (p & Hi%wrap_err_ok & [Hn <-]%one_affected_ok).
  revert Hi Hn. unfold ReplaceAuthorizationRole. destruct (at_roles t !! id) as [r|] eqn:Hr; [|by intros [= <-]].
  destruct (_ =? _) eqn:Ev; [|by intros [= <-]]. intros (u3 & Hf%fail_if_ok & [= <-])%bind_ok _.
  split; cbn; [rewrite Hr; by apply Z.eqb_eq|split; [done|by apply role_name_free]|by rewrite Hr, lookup_insert_eq|intros j Hj; by rewrite lookup_insert_ne|done].
Qed.

Lemma role_deleted_step id version now t t' :
  projectAuthorizationRoleDeleted id version t = Ok t' -> role_step id version now authorizationRoleDeleted t t'.
Proof.
  unfold projectAuthorizationRoleDeleted. intros (u1 & _ & H)%bind_ok. apply bind_ok in H as (u2 & _ & [Hn <-]%one_affected_ok).
  revert Hn. unfold DeleteAuthorizationRole. destruct (at_roles t !! id) as [r|] eqn:Hr; [|done]. destruct (_ =? _) eqn:Ev; [|done]. intros _.
  split; cbn; [rewrite Hr; by apply Z.eqb_eq|done|by rewrite Hr, lookup_delete_eq|intros j Hj; by rewrite lookup_delete_ne|done].
Qed.

Lemma references_ok kind principal role t :
  check_grant_references false kind principal role t = Ok tt -> is_Some (at_roles t !! role) /\ AuthorizationPrincipalExists kind principal t = true.
Proof.
  unfold check_grant_references. cbn [negb andb]. intros (u & Hr%fail_if_ok%negb_false_iff%bool_decide_eq_true & Hp%fail_if_ok%negb_false_iff)%bind_ok. done.
Qed.

(** Every projection of an event of a grant is a step of that grant. *)
Lemma grant_created_step id version now kind principal role scope ids t t' :
  projectAuthorizationGrantCreated false id version now kind principal role (mkScope scope ids) t = Ok t' ->
  grant_step id version now (authorizationGrantCreated kind principal role scope ids) t t'.
Proof.
  unfold projectAuthorizationGrantCreated. intros (u1 & Hv%fail_if_ok%negb_false_iff%Z.eqb_eq & H)%bind_ok. subst version.
  apply bind_ok in H as (u2 & Hid%fail_if_ok%negb_false_iff & H). apply bind_ok in H as (u3 & Hp%fail_if_ok%negb_false_iff & H).
  apply bind_ok in H as (u4 & Hr%fail_if_ok%negb_false_iff & H). apply bind_ok in H as (u5 & Hs%fail_if_ok%negb_false_iff & H).
  apply bind_ok in H as ([] & [Hrole Hprin]%references_ok & H). apply bind_ok in H as (p & Hi%wrap_err_ok & [_ <-]%one_affected_ok).
  unfold InsertAuthorizationGrant in Hi. apply bind_ok in Hi as (u6 & Hn%fail_if_ok%bool_decide_eq_false%eq_None_not_Some & [= <-]).
  split; cbn; [by rewrite Hn|by split_and!|by rewrite Hn, lookup_insert_eq|intros j Hj; by rewrite lookup_insert_ne|done].
Qed.

Lemma validate_grant_ok id kind principal role scope version g :
  validateAuthorizationGrantProjection id kind principal role scope version = Ok g ->
  g = mkAuthorizationGrant id kind principal role scope version /\ is_canonical_access id = true
  /\ is_canonical_principal kind principal = true /\ is_canonical_access role = true /\ is_canonical_scope scope = true /\ 1 <= version.
Proof.
  unfold validateAuthorizationGrantProjection. intros (u1 & Hid%fail_if_ok%negb_false_iff & H)%bind_ok.
  apply bind_ok in H as (u3 & Hp%fail_if_ok%negb_false_iff & H). apply bind_ok in H as (u4 & Hr%fail_if_ok%negb_false_iff & H).
  apply bind_ok in H as (u5 & Hs%fail_if_ok%negb_false_iff & H). apply bind_ok in H as (u6 & Hv%fail_if_ok%Z.ltb_ge & [= <-]). done.
Qed.

Lemma grant_updated_step id version now kind principal role scope ids t t' :
  projectAuthorizationGrantUpdated false id version now kind principal role (mkScope scope ids) t = Ok t' ->
  grant_step id version now (authorizationGrantUpdated kind principal role scope ids) t t'.
Proof.
  unfold projectAuthorizationGrantUpdated. intros (u1 & _ & H)%bind_ok.
  apply bind_ok in H as (g & (-> & Hid & Hp & Hr & Hs & _)%validate_grant_ok & H). cbn [ag_PrincipalType ag_PrincipalID ag_RoleID ag_ID ag_Scope] in H.
  apply bind_ok in H as ([] & [Hrole Hprin]%references_ok & [Hn <-]%one_affected_ok). revert Hn. unfold ReplaceAuthorizationGrant.
  destruct (at_grants t !! id) as [g|] eqn:Hg; [|done]. destruct (_ =? _) eqn:Ev; [|done]. intros _.
  split; cbn; [rewrite Hg; by apply Z.eqb_eq|by split_and!|by rewrite Hg, lookup_insert_eq|intros j Hj; by rewrite lookup_insert_ne|done].
Qed.

Lemma grant_deleted_step id version now t t' :
  projectAuthorizationGrantDeleted id version t = Ok t' -> grant_step id version now authorizationGrantDeleted t t'.
Proof.
  unfold projectAuthorizationGrantDeleted. intros (u1 & _ & H)%bind_ok. apply bind_ok in H as (u2 & _ & [Hn <-]%one_affected_ok).
  revert Hn. unfold DeleteAuthorizationGrant. destruct (at_grants t !! id) as [g|] eqn:Hg; [|done]. destruct (_ =? _) eqn:Ev; [|done]. intros _.
  split; cbn; [rewrite Hg; by apply Z.eqb_eq|done|by rewrite Hg, lookup_delete_eq|intros j Hj; by rewrite lookup_delete_ne|done].
Qed.

Section Invariant.
Context {unicode : UnicodeLower} {urls : URLs} {schemes : Schemes} {bcrypt : Bcrypt}.

(** Any event, appended behind the guard. *)
Definition access_append (db db' : AccessDB) : Prop :=
  exists event now, te_StreamType event = access_stream (te_Payload event) /\ is_canonical_user (te_StreamID event) = true
    /\ append_guarded now event (typed_version (te_StreamType event) (te_StreamID event) (td_log db) + 1) db = Ok db'.

Definition empty_access : AccessDB := mkTypedDB [] (mkAccessTables no_directory ∅ ∅).

(** ** The directory inside *)

Definition directory_row (row : AccessEventRow) : option DirEventRow :=
  match te_Payload (ty_Event row) with
  | directoryEvent payload =>
      Some (mkTypedRow (mkTypedEvent (te_StreamType (ty_Event row)) (te_StreamID (ty_Event row)) payload) (ty_Version row) (ty_CreatedAt row))
  | _ => None
  end.

Definition directory_of (db : AccessDB) : DirDB := mkTypedDB (omap directory_row (td_log db)) (at_directory (td_tables db)).

Definition row_typed (row : AccessEventRow) : Prop := te_StreamType (ty_Event row) = access_stream (te_Payload (ty_Event row)).

Lemma directory_stream_other payload :
  directory_stream payload <> authorizationRoleStreamType /\ directory_stream payload <> authorizationGrantStreamType.
Proof. by destruct payload. Qed.

(** The rows of a stream of the directory are those of the directory inside. *)
Lemma directory_versions log payload sid :
  Forall row_typed log ->
  ty_Version <$> typed_stream (directory_stream payload) sid (omap directory_row log)
  = ty_Version <$> typed_stream (directory_stream payload) sid log.
Proof.
  intros Hlog. destruct (directory_stream_other payload) as [H1 H2]. induction Hlog as [|row log Hrow _ IH]; [done|].
  rewrite typed_stream_cons. cbn [omap list_omap]. unfold directory_row at 1. unfold row_typed in Hrow.
  destruct (te_Payload (ty_Event row)) as [p| | | | | |] eqn:Hp; cbn [access_stream] in Hrow.
  1: { rewrite typed_stream_cons. destruct (decide (of_stream _ _ row)) as [Hi|Hn].
       - rewrite decide_True by exact Hi. rewrite !fmap_cons. by rewrite IH.
       - rewrite decide_False by exact Hn. exact IH. }
  all: rewrite decide_False; [exact IH|]; intros [Hs _]; congruence.
Qed.

Lemma directory_version log payload sid :
  Forall row_typed log ->
  typed_version (directory_stream payload) sid (omap directory_row log) = typed_version (directory_stream payload) sid log.
Proof. intros H. unfold typed_version. by rewrite directory_versions. Qed.

(** What an append did. *)
Lemma access_append_ok db db' :
  access_append db db' ->
  exists event now tables, let version := typed_version (te_StreamType event) (te_StreamID event) (td_log db) + 1 in
    te_StreamType event = access_stream (te_Payload event) /\ is_canonical_user (te_StreamID event) = true
    /\ 0 < version <= max_int64 /\ projectAccess false (mkTypedRow event version now) (td_tables db) = Ok tables
    /\ db' = mkTypedDB (td_log db ++ [mkTypedRow event version now]) tables
    /\ (may_reduce (te_Payload event) = true -> CountEnabledAdmins lastAdminPermission db <> 0 ->
        CountEnabledAdmins lastAdminPermission db' <> 0)
    /\ roles_present tables = true.
Proof.
  intros (event & now & Hs & Hid & H). unfold append_guarded in H. apply bind_ok in H as (db1 & Hi & H).
  apply bind_ok in H as (u1 & Hg%fail_if_ok & H). apply bind_ok in H as (u2 & Hf%fail_if_ok%negb_false_iff & [= <-]).
  unfold insert_typed in Hi. apply bind_ok in Hi as (u3 & Hv%fail_if_ok & Hi). apply orb_false_iff in Hv as [Hv1%Z.leb_gt Hv2%Z.ltb_ge].
  apply bind_ok in Hi as (tables & Hp%wrap_err_ok & [= <-]). exists event, now, tables. cbv zeta. cbn [td_tables] in Hf.
  split; [exact Hs|]. split; [exact Hid|]. split; [lia|]. split; [exact Hp|]. split; [reflexivity|]. split; [|exact Hf].
  intros Hr Hb Ha. rewrite Hr, Ha in Hg. apply Z.eqb_neq in Hb. rewrite Hb in Hg. discriminate Hg.
Qed.

(** The three kinds of events, and what the projection of each does. *)
Lemma project_access_kind row t t' :
  te_StreamType (ty_Event row) = access_stream (te_Payload (ty_Event row)) -> projectAccess false row t = Ok t' ->
  let id := te_StreamID (ty_Event row) in
  (exists payload d, te_Payload (ty_Event row) = directoryEvent payload /\ t' = mkAccessTables d (at_roles t) (at_grants t)
     /\ projectDirectory false (mkTypedRow (mkTypedEvent (te_StreamType (ty_Event row)) id payload) (ty_Version row) (ty_CreatedAt row)) (at_directory t) = Ok d)
  \/ (te_StreamType (ty_Event row) = authorizationRoleStreamType
      /\ role_step id (ty_Version row) (ty_CreatedAt row) (te_Payload (ty_Event row)) t t')
  \/ (te_StreamType (ty_Event row) = authorizationGrantStreamType
      /\ grant_step id (ty_Version row) (ty_CreatedAt row) (te_Payload (ty_Event row)) t t').
Proof.
  intros Hs Hp. cbv zeta. unfold projectAccess in Hp. rewrite Hs. destruct (te_Payload (ty_Event row)) as [payload| | | | | |]; cbn [access_stream].
  - left. apply bind_ok in Hp as (d & Hp & [= <-]). exists payload, d. split; [done|]. split; [done|]. by rewrite Hs in Hp.
  - right; left. split; [done|]. by apply role_created_step.
  - right; left. split; [done|]. by apply role_updated_step.
  - right; left. split; [done|]. by apply role_deleted_step.
  - right; right. split; [done|]. by apply grant_created_step.
  - right; right. split; [done|]. by apply grant_updated_step.
  - right; right. split; [done|]. by apply grant_deleted_step.
Qed.

Lemma directory_rows_snoc log row : omap directory_row (log ++ [row]) = omap directory_row log ++ option_list (directory_row row).
Proof. rewrite omap_app. cbn [omap list_omap]. by destruct (directory_row row). Qed.

(** An append is an append of the directory inside, or leaves it alone. *)
Lemma directory_append db db' :
  Forall row_typed (td_log db) -> access_append db db' ->
  Forall row_typed (td_log db') /\ (dir_append (directory_of db) (directory_of db') \/ directory_of db' = directory_of db).
Proof.
  intros Hlog (event & now & tables & Hs & Hid & Hv & Hp & -> & _ & _)%access_append_ok. split.
  { cbn [td_log]. apply Forall_app_2; [done|]. by constructor; [|constructor]. }
  unfold directory_of. cbn [td_log td_tables]. rewrite directory_rows_snoc.
  apply project_access_kind in Hp; [|done]. cbn [ty_Event ty_Version ty_CreatedAt] in Hp.
  destruct Hp as [(payload & d & He & -> & Hp)|[[Hst [_ _ _ _ [Hd _]]]|[Hst [_ _ _ _ [Hd _]]]]].
  - unfold directory_row. cbn [ty_Event ty_Version ty_CreatedAt]. rewrite He in Hs |- *. cbn [access_stream at_directory option_list] in *. left. exists (mkTypedEvent (te_StreamType event) (te_StreamID event) payload).
    split; [done|]. split; [done|]. exists now, d. cbn [te_StreamType te_StreamID td_log td_tables].
    rewrite Hs in *. by rewrite directory_version.
  - right. unfold directory_row. cbn [ty_Event]. destruct (te_Payload event) as [payload| | | | | |]; cbn in Hs; [|by rewrite app_nil_r, Hd..].
    destruct (directory_stream_other payload). congruence.
  - right. unfold directory_row. cbn [ty_Event]. destruct (te_Payload event) as [payload| | | | | |]; cbn in Hs; [|by rewrite app_nil_r, Hd..].
    destruct (directory_stream_other payload). congruence.
Qed.

(** ** The invariant *)

Record access_inv (db : AccessDB) : Prop := {
  ac_typed : Forall row_typed (td_log db);
  ac_contiguous : typed_contiguous (td_log db);
  ac_directory : rtc dir_append empty_directory (directory_of db);
  ac_roles : forall id r, at_roles (td_tables db) !! id = Some r ->
    is_canonical_role (mkRole id (rr_Name r) (rr_Permissions r)) = true
    /\ rr_ProjectionVersion r = typed_version authorizationRoleStreamType id (td_log db);
  ac_names : forall id j r r', at_roles (td_tables db) !! id = Some r -> at_roles (td_tables db) !! j = Some r' -> rr_Name r = rr_Name r' -> id = j;
  ac_grants : forall id g, at_grants (td_tables db) !! id = Some g ->
    is_canonical_access id = true /\ is_canonical_principal (gr_PrincipalType g) (gr_PrincipalID g) = true
    /\ is_canonical_access (gr_RoleID g) = true /\ is_canonical_scope (gr_Scope g) = true
    /\ gr_ProjectionVersion g = typed_version authorizationGrantStreamType id (td_log db);
  ac_present : forall id g, at_grants (td_tables db) !! id = Some g -> is_Some (at_roles (td_tables db) !! gr_RoleID g);
}.

Lemma role_effect_row version now payload row r' :
  role_effect version now payload row = Some (Some r') ->
  rr_ProjectionVersion r' = version
  /\ (payload = authorizationRoleCreated (rr_Name r') (rr_Permissions r') \/ payload = authorizationRoleUpdated (rr_Name r') (rr_Permissions r')).
Proof. destruct row, payload; cbn; try done; try (case_match; [|done]); intros [= <-]; cbn; auto. Qed.

Lemma grant_effect_row version now payload row g' :
  grant_effect version now payload row = Some (Some g') ->
  gr_ProjectionVersion g' = version
  /\ exists kind ids, gr_Scope g' = mkScope kind ids
     /\ (payload = authorizationGrantCreated (gr_PrincipalType g') (gr_PrincipalID g') (gr_RoleID g') kind ids
         \/ payload = authorizationGrantUpdated (gr_PrincipalType g') (gr_PrincipalID g') (gr_RoleID g') kind ids).
Proof.
  destruct row, payload; cbn; try done; try (case_match; [|done]); intros [= <-]; (split; [done|]); exists ScopeKind, ScopeIDs; cbn; auto.
Qed.

Lemma roles_present_ok t : roles_present t = true <-> forall id g, at_grants t !! id = Some g -> is_Some (at_roles t !! gr_RoleID g).
Proof.
  unfold roles_present. rewrite forallb_forall. split.
  - intros H id g Hg. apply elem_of_map_to_list, list_elem_of_In in Hg. specialize (H _ Hg). by apply bool_decide_eq_true in H.
  - intros H [id g] Hin. apply list_elem_of_In, elem_of_map_to_list in Hin. apply bool_decide_eq_true. by apply (H id).
Qed.

Section Append.
Context (db : AccessDB) (HI : access_inv db) (event : AccessEvent) (now : time) (tables : AccessTables).
Notation t := (td_tables db).
Notation id := (te_StreamID event).
Notation version := (typed_version (te_StreamType event) (te_StreamID event) (td_log db) + 1).
Notation row := (mkTypedRow event version now).

Lemma access_version stype sid :
  typed_version stype sid (td_log db ++ [row]) = if decide (of_stream stype sid row) then version else typed_version stype sid (td_log db).
Proof. apply typed_version_snoc; [apply HI|done]. Qed.

Lemma access_version_other stype sid :
  te_StreamType event <> stype \/ sid <> id -> typed_version stype sid (td_log db ++ [row]) = typed_version stype sid (td_log db).
Proof. intros Hne. rewrite access_version, decide_False; [done|]. intros [? ?]. cbn in *. naive_solver. Qed.

Lemma access_version_same stype : te_StreamType event = stype -> typed_version stype id (td_log db ++ [row]) = version.
Proof. intros Hs. by rewrite access_version, decide_True. Qed.

(** The streams of the roles and of the grants are apart from those of the
    directory. *)
Lemma directory_streams payload :
  te_StreamType event = access_stream (te_Payload event) -> te_Payload event = directoryEvent payload ->
  te_StreamType event <> authorizationRoleStreamType /\ te_StreamType event <> authorizationGrantStreamType.
Proof. intros -> ->. apply directory_stream_other. Qed.

Lemma roles_kept :
  (exists d, tables = mkAccessTables d (at_roles t) (at_grants t)) ->
  te_StreamType event <> authorizationRoleStreamType -> te_StreamType event <> authorizationGrantStreamType ->
  Forall row_typed (td_log db ++ [row]) -> rtc dir_append empty_directory (directory_of (mkTypedDB (td_log db ++ [row]) tables)) ->
  access_inv (mkTypedDB (td_log db ++ [row]) tables).
Proof.
  intros [d ->] H1 H2 Hlog Hd. split; cbn [td_log td_tables at_roles at_grants]; try done.
  - apply typed_contiguous_snoc, HI.
  - intros j r Hr. rewrite access_version_other by by left. by apply HI.
  - apply HI.
  - intros j g Hg. rewrite access_version_other by by left. by apply HI.
  - apply HI.
Qed.

Lemma role_append_inv :
  te_StreamType event = authorizationRoleStreamType -> role_step id version now (te_Payload event) t tables -> roles_present tables = true ->
  Forall row_typed (td_log db ++ [row]) -> rtc dir_append empty_directory (directory_of (mkTypedDB (td_log db ++ [row]) tables)) ->
  access_inv (mkTypedDB (td_log db ++ [row]) tables).
Proof.
  intros Hs [_ Ha He Hother [_ Hg]] Hf Hlog Hd. split; cbn [td_log td_tables]; rewrite ?Hg; try done.
  - apply typed_contiguous_snoc, HI.
  - intros j r Hr. destruct (decide (j = id)) as [->|Hj].
    + rewrite Hr in He. apply role_effect_row in He as [-> Hp]. split; [|by rewrite access_version_same].
      destruct Hp as [Hp|Hp]; rewrite Hp in Ha; apply Ha.
    + rewrite access_version_other by by right. apply HI. by rewrite <- Hother.
  - assert (forall j r r', j <> id -> at_roles tables !! id = Some r -> at_roles t !! j = Some r' -> rr_Name r' <> rr_Name r) as Hnew.
    { intros j r r' Hj Hr Hr'. rewrite Hr in He. apply role_effect_row in He as [_ [Hp|Hp]]; rewrite Hp in Ha; destruct Ha as [_ Ha]; by apply (Ha j). }
    intros i j r r' Hr Hr' Heq. destruct (decide (i = id)) as [->|Hi], (decide (j = id)) as [->|Hj]; [done| | |].
    + rewrite Hother in Hr' by done. by destruct (Hnew j r r' Hj Hr Hr').
    + rewrite Hother in Hr by done. by destruct (Hnew i r' r Hi Hr' Hr).
    + rewrite Hother in Hr, Hr' by done. by apply (ac_names _ HI i j r r').
  - intros j g Hj. rewrite access_version_other by (left; by rewrite Hs). by apply HI.
  - rewrite <- Hg. by apply roles_present_ok.
Qed.

Lemma grant_append_inv :
  te_StreamType event = authorizationGrantStreamType -> grant_step id version now (te_Payload event) t tables -> roles_present tables = true ->
  Forall row_typed (td_log db ++ [row]) -> rtc dir_append empty_directory (directory_of (mkTypedDB (td_log db ++ [row]) tables)) ->
  access_inv (mkTypedDB (td_log db ++ [row]) tables).
Proof.
  intros Hs [_ Ha He Hother [_ Hr]] Hf Hlog Hd. split; cbn [td_log td_tables]; rewrite ?Hr; try done.
  - apply typed_contiguous_snoc, HI.
  - intros j r Hj. rewrite access_version_other by (left; by rewrite Hs). by apply HI.
  - apply HI.
  - intros j g Hg. destruct (decide (j = id)) as [->|Hj].
    + rewrite Hg in He. apply grant_effect_row in He as [-> (kind & ids & -> & Hp)]. rewrite (access_version_same _ Hs).
      destruct Hp as [Hp|Hp]; rewrite Hp in Ha; destruct Ha as (? & ? & ? & ? & _); done.
    + rewrite access_version_other by by right. apply HI. by rewrite <- Hother.
  - rewrite <- Hr. by apply roles_present_ok.
Qed.
End Append.

Lemma access_inv_empty : access_inv empty_access.
Proof. by split. Qed.

Lemma access_append_inv db db' : access_inv db -> access_append db db' -> access_inv db'.
Proof.
  intros HI Happ. destruct (directory_append db db' (ac_typed _ HI) Happ) as [Hlog Hd].
  assert (rtc dir_append empty_directory (directory_of db')) as Hreach
    by (destruct Hd as [Hd| ->]; [eapply rtc_r; [apply HI|exact Hd]|apply HI]).
  apply access_append_ok in Happ as (event & now & tables & Hs & Hid & Hv & Hp & -> & _ & Hf).
  apply project_access_kind in Hp; [|done]. cbn [ty_Event ty_Version ty_CreatedAt] in Hp.
  destruct Hp as [(payload & d & He & -> & Hp)|[[Hst Hstep]|[Hst Hstep]]].
  - destruct (directory_streams event payload Hs He). apply roles_kept; try done. by exists d.
  - by apply role_append_inv.
  - by apply grant_append_inv.
Qed.

Lemma access_reachable db : rtc access_append empty_access db -> access_inv db.
Proof.
  intros H. assert (forall a b, rtc access_append a b -> access_inv a -> access_inv b) as Hm; [|by apply (Hm _ _ H), access_inv_empty].
  intros a b Hr. induction Hr; [done|]. eauto using access_append_inv.
Qed.
(** ** What a user may do *)

Lemma canonical_access_ok id : is_canonical_access id = true -> canonicalULID id = Ok id.
Proof.
  unfold is_canonical_access, canonicalAuthorizationID, canonicalULID. destruct (ULIDPathID id); [|done]. cbn. by intros ->%String.eqb_eq.
Qed.

Lemma canonical_principal_ok kind id : is_canonical_principal kind id = true -> NormalizePrincipal kind id = Ok id.
Proof. unfold is_canonical_principal. destruct (NormalizePrincipal kind id); [|done]. by intros ->%String.eqb_eq. Qed.

Lemma canonical_scope_ok scope : is_canonical_scope scope = true -> NormalizeScope scope = Ok scope.
Proof. unfold is_canonical_scope. destruct (NormalizeScope scope); [|done]. by intros ->%bool_decide_eq_true. Qed.

Lemma canonical_permissions_ok role :
  is_canonical_role role = true -> normalizePermissions (role_Permissions role) = Ok (role_Permissions role).
Proof.
  unfold is_canonical_role. destruct (NormalizeRole role) as [r|] eqn:E; [|done].
  intros [_ Hp%bool_decide_eq_true]%andb_true_iff. unfold NormalizeRole in E. apply bind_ok in E as (id & _ & E).
  apply bind_ok in E as (u & _ & E). apply bind_ok in E as (ps & Hn%wrap_err_ok & [= <-]). cbn in Hp. by rewrite Hp in Hn.
Qed.

(** The grants resolved for a user: those to it or to a group of it. *)
Lemma elem_of_resolved g userID t :
  g ∈ ListResolvedAuthorizationGrants userID t
  <-> exists id row r, at_grants t !! id = Some row /\ at_roles t !! gr_RoleID row = Some r /\ grants_to userID (at_directory t) row = true
        /\ g = mkGrant id (gr_PrincipalType row) (gr_PrincipalID row) (gr_RoleID row) (rr_Permissions r) (gr_Scope row).
Proof.
  unfold ListResolvedAuthorizationGrants. rewrite list_elem_of_omap. setoid_rewrite sort_strings_perm. split.
  - intros (id & _ & H). destruct (at_grants t !! id) as [row|] eqn:Hg; [|done]. cbn in H.
    destruct (at_roles t !! gr_RoleID row) as [r|] eqn:Hr; [|done]. cbn in H. destruct (grants_to _ _ _) eqn:Ht; [|done].
    injection H as <-. by exists id, row, r.
  - intros (id & row & r & Hg & Hr & Ht & ->). exists id. split.
    + apply list_elem_of_fmap. exists (id, row). split; [done|]. by apply elem_of_map_to_list.
    + rewrite Hg. cbn. rewrite Hr. cbn. by rewrite Ht.
Qed.

(** The rows resolve as they stand. *)
Lemma resolved_fixed db userID : access_inv db ->
  let l := ListResolvedAuthorizationGrants userID (td_tables db) in map_result NormalizeGrant l = Ok l.
Proof.
  intros HI. cbv zeta. apply map_result_ok, Forall_Forall2_diag, Forall_forall. intros g.
  intros (id & row & r & Hg & Hr & _ & ->)%elem_of_resolved. destruct (ac_grants _ HI id row Hg) as (H1 & H2 & H3 & H4 & _).
  destruct (ac_roles _ HI _ r Hr) as [H5%canonical_permissions_ok _]. unfold NormalizeGrant. cbn [g_ID g_PrincipalType g_PrincipalID g_RoleID g_Permissions g_Scope] in *.
  rewrite (canonical_access_ok _ H1). cbn [wrap_err mbind result_bind]. rewrite (canonical_principal_ok _ _ H2). cbn [mbind result_bind].
  rewrite (canonical_access_ok _ H3). cbn [wrap_err mbind result_bind]. cbn [role_Permissions] in H5. rewrite H5. cbn [wrap_err mbind result_bind].
  by rewrite (canonical_scope_ok _ H4).
Qed.

Lemma dynamic_admin_ok permission t userID :
  dynamic_admin permission t userID = true
  <-> exists g, g ∈ ListResolvedAuthorizationGrants userID t /\ permission ∈ g_Permissions g /\ sc_Kind (g_Scope g) = ScopeGlobal.
Proof.
  unfold dynamic_admin. rewrite existsb_exists. setoid_rewrite elem_of_resolved. split.
  - intros ([id row] & Hin & [[Hk%String.eqb_eq Ht]%andb_true_iff Hp]%andb_true_iff). apply list_elem_of_In, elem_of_map_to_list in Hin. cbn in *.
    destruct (at_roles t !! gr_RoleID row) as [r|] eqn:Hr; [|done]. apply bool_decide_eq_true in Hp.
    exists (mkGrant id (gr_PrincipalType row) (gr_PrincipalID row) (gr_RoleID row) (rr_Permissions r) (gr_Scope row)).
    split; [by exists id, row, r|done].
  - intros (g & (id & row & r & Hg & Hr & Ht & ->) & Hp & Hk). exists (id, row). cbn in *. split; [by apply list_elem_of_In, elem_of_map_to_list|].
    rewrite Hr, Hk, Ht. cbn. by apply bool_decide_eq_true.
Qed.

Lemma resolve_global sort `{!SortsByID sort} gs p :
  map_result NormalizeGrant gs = Ok gs ->
  exists access, Resolve sort gs = Ok access
    /\ ((exists g, g ∈ gs /\ p ∈ g_Permissions g /\ sc_Kind (g_Scope g) = ScopeGlobal)
        <-> exists r, ea_Permissions access !! p = Some r /\ Global r = true).
Proof.
  intros Hn. destruct (Resolve sort gs) as [access|e] eqn:E; [|unfold Resolve in E; by rewrite Hn in E].
  exists access. split; [done|]. apply Resolve_ok in E as (ns & Hn' & _ & Hp). rewrite Hn in Hn'. injection Hn' as <-. specialize (Hp p).
  assert (forall s, s ∈ contributions (sort gs) p <-> exists g, g ∈ gs /\ p ∈ g_Permissions g /\ stripped g p = false /\ s = g_Scope g) as Hc.
  { intros s. rewrite elem_of_contributions. by setoid_rewrite sort_perm. }
  split.
  - intros (g & Hg & Hin & Hk). assert (g_Scope g ∈ contributions (sort gs) p) as Hs.
    { apply Hc. exists g. split_and!; try done. unfold stripped. by rewrite Hk. }
    destruct (ea_Permissions access !! p) as [r|]; cbn in Hp; [|rewrite Hp in Hs; by apply elem_of_nil in Hs].
    exists r. split; [done|]. destruct Hp as [_ [Hgl _]]. apply Hgl. by exists (g_Scope g).
  - intros (r & Hr & Hgl). rewrite Hr in Hp. destruct Hp as [_ [Hiff _]]. apply Hiff in Hgl as (s & (g & Hg & Hin & _ & ->)%Hc & Hk). by exists g.
Qed.
(** ** An administrator remains *)

Lemma admins_counted permission db : 0 < CountEnabledAdmins permission db <-> exists id, is_enabled_admin permission db id = true.
Proof.
  unfold CountEnabledAdmins. split.
  - intros H. destruct (filter _ _) as [|id l] eqn:E; [done|]. exists id.
    assert (id ∈ id :: l) as Hin by by left. rewrite <- E in Hin. by apply list_elem_of_filter in Hin as [? _].
  - intros [id Hid]. assert (id ∈ filter (fun id => is_enabled_admin permission db id = true) (map_to_list (dt_users (at_directory (td_tables db)))).*1) as Hin.
    { apply list_elem_of_filter. split; [done|]. unfold is_enabled_admin in Hid. destruct (dt_users _ !! id) as [u|] eqn:Hu; [|done].
      apply list_elem_of_fmap. exists (id, u). split; [done|]. by apply elem_of_map_to_list. }
    unfold zlen. destruct (filter _ _); [by apply elem_of_nil in Hin|cbn; lia].
Qed.

Lemma elem_of_memberships g u t :
  (g, u) ∈ group_memberships t <-> is_Some (dt_managed_members t !! (g, u)) \/ is_Some (dt_members t !! (g, u)).
Proof.
  unfold group_memberships. rewrite elem_of_app, !list_elem_of_fmap. unfold is_Some. setoid_rewrite <- elem_of_map_to_list. split.
  - intros [([k v] & -> & H)|([k v] & -> & H)]; [left|right]; by exists v.
  - intros [[v H]|[v H]]; [left|right]; by exists ((g, u), v).
Qed.

(** What an event that does not reduce keeps of the directory: users that are not
    disabled, and members. *)
Record directory_kept (t t' : DirTables) : Prop := {
  dk_users : forall id u, dt_users t !! id = Some u -> ur_Disabled u = false -> exists u', dt_users t' !! id = Some u' /\ ur_Disabled u' = false;
  dk_members : forall g u, is_Some (dt_members t !! (g, u)) -> is_Some (dt_members t' !! (g, u));
  dk_managed : forall g u, is_Some (dt_managed_members t !! (g, u)) -> is_Some (dt_managed_members t' !! (g, u));
}.

Lemma user_kept id version now payload t t' :
  reduces (directoryEvent payload) = false -> user_step id version now payload t t' -> directory_kept t t'.
Proof.
  intros Hr [_ _ _ He Hother _ Hm Hg].
  assert (forall u, dt_users t !! id = Some u -> exists u', dt_users t' !! id = Some u' /\ ur_Disabled u' = ur_Disabled u) as Hself.
  { intros u Hu. unfold user_effect in He. cbn [user_view uv_user] in He. rewrite Hu in He.
    destruct payload; try done; try (destruct (_ <? _) in He; [|done]); injection He as He _ _; rewrite <- He; (eexists; split; [done|]); cbn; by rewrite ?orb_false_r. }
  split.
  - intros j u Hu Hd. destruct (decide (j = id)) as [->|Hj]; [destruct (Hself u Hu) as (u' & ? & Hd'); exists u'; by rewrite Hd'|].
    exists u. split; [|done]. pose proof (f_equal uv_user (Hother j Hj)) as Ho. cbn in Ho. by rewrite Ho.
  - intros g u. rewrite Hm. destruct (dt_users t' !! id) as [u'|] eqn:Hu'; [done|]. exfalso.
    destruct (dt_users t !! id) as [u0|] eqn:Hu; [destruct (Hself u0 eq_refl) as (? & ? & _); congruence|].
    unfold user_effect in He. cbn [user_view uv_user] in He. rewrite Hu in He. destruct payload; try done.
    destruct (_ =? _) in He; [|done]. injection He as He _ _. congruence.
  - intros g u. rewrite Hg. by destruct payload.
Qed.

Lemma directory_event_kept row payload t t' :
  reduces (directoryEvent payload) = false -> te_Payload (ty_Event row) = payload ->
  te_StreamType (ty_Event row) = directory_stream payload -> is_canonical_user (te_StreamID (ty_Event row)) = true ->
  projectDirectory false row t = Ok t' -> directory_kept t t'.
Proof.
  intros Hr He Hs Hid Hp. unfold projectDirectory in Hp. rewrite He in Hp.
  destruct (decide (directory_stream payload = userStreamType)) as [Hk|Hk].
  { eapply user_kept; [exact Hr|]. apply projectUser_step. revert Hp Hk. by destruct payload. }
  destruct (decide (directory_stream payload = scimGroupStreamType)) as [Hk1|Hk1].
  { destruct (project_scim_group_step _ _ _ _ _ _ _ Hk1 Hp) as [_ _ _ _ Hm (Hu & _ & _ & _ & _ & Hg)]. split.
    - intros j u. rewrite Hu. by exists u.
    - intros g u [v Hv]. exists v. apply Hm. case_decide; [|done]. destruct payload; done || by cbn.
    - by rewrite Hg. }
  destruct (decide (directory_stream payload = userGroupStreamType)) as [Hk2|Hk2].
  { destruct (project_managed_step _ _ _ _ _ _ _ Hid Hk2 Hp) as [_ _ _ _ Hm (Hu & _ & _ & _ & _ & Hg)]. split.
    - intros j u. rewrite Hu. by exists u.
    - by rewrite Hg.
    - intros g u [v Hv]. exists v. apply Hm. case_decide; [|done]. destruct payload; try done. by left. }
  assert (directory_stream payload = scimProviderStreamType) as Hk3 by (revert Hk Hk1 Hk2; by destruct payload).
  destruct (project_provider_step _ _ _ _ _ _ _ Hk3 Hp) as [_ _ _ _ _ _ _ (Hu & _ & _ & _ & Hm & _ & Hg)].
  split; rewrite ?Hu, ?Hm, ?Hg; [by intros j u ? ?; exists u|done|done].
Qed.
(** What an event that does not reduce keeps of everything. *)
Record access_kept (db db' : AccessDB) : Prop := {
  ak_directory : directory_kept (at_directory (td_tables db)) (at_directory (td_tables db'));
  ak_grants : forall id g, at_grants (td_tables db) !! id = Some g -> at_grants (td_tables db') !! id = Some g;
  ak_roles : forall id r, at_roles (td_tables db) !! id = Some r -> at_roles (td_tables db') !! id = Some r;
  ak_log : exists row, td_log db' = td_log db ++ [row] /\ reduces (te_Payload (ty_Event row)) = false;
}.

Lemma directory_kept_refl t : directory_kept t t.
Proof. split; [by intros id u Hu Hd; exists u|done|done]. Qed.

(** An append keeps the last administrator, or everything. *)
Lemma append_keeps db db' :
  access_append db db' ->
  (0 < CountEnabledAdmins lastAdminPermission db -> 0 < CountEnabledAdmins lastAdminPermission db') \/ access_kept db db'.
Proof.
  intros (event & now & tables & Hs & Hid & Hv & Hp & -> & Hg & _)%access_append_ok. rewrite may_reduce_reduces in Hg.
  destruct (reduces (te_Payload event)) eqn:Hr.
  { left. intros H. specialize (Hg eq_refl). unfold CountEnabledAdmins, zlen in *. lia. }
  right. apply project_access_kind in Hp; [|done]. cbn [ty_Event ty_Version ty_CreatedAt] in Hp.
  destruct Hp as [(payload & d & He & -> & Hp)|[[_ [_ _ He Hother [Hd Hgr]]]|[_ [_ _ He Hother [Hd Hro]]]]]; split; cbn [td_tables td_log at_directory at_grants at_roles];
    rewrite ?Hd, ?Hgr, ?Hro; try apply directory_kept_refl; try done; try (eexists; split; [reflexivity|exact Hr]).
  - rewrite He in Hr, Hs. by eapply directory_event_kept in Hp.
  - intros j r Hj. rewrite Hother; [done|]. intros ->. rewrite Hj in He. by destruct (te_Payload event).
  - intros j g Hj. rewrite Hother; [done|]. intros ->. rewrite Hj in He. by destruct (te_Payload event).
Qed.

Lemma admin_kept permission db db' id :
  access_kept db db' -> is_enabled_admin permission db id = true -> is_enabled_admin permission db' id = true.
Proof.
  intros [[Hu Hm Hg] Hgr Hro (row & Hl & Hr)] H. unfold is_enabled_admin in *.
  destruct (dt_users (at_directory (td_tables db)) !! id) as [u|] eqn:E; [|done]. apply andb_true_iff in H as [Hd%negb_true_iff H].
  destruct (Hu id u E Hd) as (u' & -> & ->). cbn [negb andb]. apply orb_true_iff. apply orb_true_iff in H as [H|H]; [left|right].
  - apply dynamic_admin_ok in H as (g & (gid & grow & r & Hg1 & Hr1 & Ht & ->)%elem_of_resolved & Hp & Hk). apply dynamic_admin_ok.
    exists (mkGrant gid (gr_PrincipalType grow) (gr_PrincipalID grow) (gr_RoleID grow) (rr_Permissions r) (gr_Scope grow)).
    split; [|done]. apply elem_of_resolved. exists gid, grow, r. split; [by apply Hgr|]. split; [by apply Hro|]. split; [|done].
    unfold grants_to in *. apply orb_true_iff in Ht as [Ht|Ht]; apply orb_true_iff; [by left|right].
    apply andb_true_iff in Ht as [-> Ht%bool_decide_eq_true]. apply bool_decide_eq_true. apply elem_of_memberships.
    apply elem_of_memberships in Ht as [?|?]; [left; by apply Hg|right; by apply Hm].
  - unfold bootstrap_admin in *. rewrite Hl. apply existsb_exists in H as (granted & Hin & [H1 Hn%negb_true_iff]%andb_true_iff).
    apply existsb_exists. exists granted. split; [apply in_or_app; by left|]. rewrite H1. cbn [andb]. apply negb_true_iff.
    rewrite existsb_app, Hn. cbn [orb existsb]. rewrite orb_false_r. destruct (te_Payload (ty_Event row)) as [[]| | | | | |]; try done; apply andb_false_r.
Qed.
(** ** Histories *)

(** A list of events with their times, appended one after the other. *)
Definition run_access (events : list (time * AccessEvent)) (db : AccessDB) : result goerr AccessDB :=
  fold_result (fun db e => append_guarded e.1 e.2 (typed_version (te_StreamType e.2) (te_StreamID e.2) (td_log db) + 1) db) db events.

Definition access_wf (event : AccessEvent) : bool :=
  String.eqb (te_StreamType event) (access_stream (te_Payload event)) && is_canonical_user (te_StreamID event).

Lemma run_access_reach events db db' :
  forallb (fun e => access_wf e.2) events = true -> run_access events db = Ok db' -> rtc access_append db db'.
Proof.
  unfold run_access. revert db. induction events as [|[now event] events IH]; intros db; cbn [forallb fold_result].
  - intros _ [= <-]. apply rtc_refl.
  - intros [[Hs%String.eqb_eq Hid]%andb_true_iff Hall]%andb_true_iff (db1 & Hi & Hr)%bind_ok. eapply rtc_l; [|by apply IH].
    by exists event, now.
Qed.
End Invariant.

(** C28. An enabled administrator remains: in every reachable database that has
    one - a user who is not disabled, with a global grant of the administrators'
    permission, its own or a group's, or with the bootstrap role - no append of
    any event of users, groups, providers, roles or grants leaves none.  The
    events that the catalogue marks as reducing are counted before and after; of
    the others it is proved that they keep every administrator. *)
Theorem an_administrator_remains {unicode : UnicodeLower} {urls : URLs} {schemes : Schemes} {bcrypt : Bcrypt} db db' :
  rtc access_append db db' -> 0 < CountEnabledAdmins lastAdminPermission db ->
  0 < CountEnabledAdmins lastAdminPermission db'
  /\ exists id u, dt_users (at_directory (td_tables db')) !! id = Some u /\ ur_Disabled u = false
       /\ (dynamic_admin lastAdminPermission (td_tables db') id = true \/ bootstrap_admin (td_log db') id = true).
Proof.
  intros Hrun Hpos. assert (0 < CountEnabledAdmins lastAdminPermission db') as Hpos'.
  { induction Hrun as [|a b c Happ _ IH]; [done|]. apply IH. destruct (append_keeps a b Happ) as [Hk|Hk]; [by apply Hk|].
    apply admins_counted. apply admins_counted in Hpos as [id Hid]. exists id. by eapply admin_kept. }
  split; [done|]. apply admins_counted in Hpos' as [id Hid]. unfold is_enabled_admin in Hid.
  destruct (dt_users (at_directory (td_tables db')) !! id) as [u|] eqn:Hu; [|done]. apply andb_true_iff in Hid as [Hd%negb_true_iff Ha%orb_true_iff].
  by exists id, u.
Qed.

(** C29. Whom the database counts as administrators are those whose resolved access
    says so: in every reachable database the access of a user resolves - the
    tables hold nothing that the reads refuse - unless the user is disabled, and
    then it is refused; and the user counts for a permission exactly if that access
    holds it globally, or the user's stream grants the bootstrap role. *)
Theorem counted_admins_are_resolved {unicode : UnicodeLower} {urls : URLs} {schemes : Schemes} {bcrypt : Bcrypt} sort `{!SortsByID sort} db id u permission :
  rtc access_append empty_access db -> dt_users (at_directory (td_tables db)) !! id = Some u ->
  let resolved := ResolveEffectiveAccess sort None None id (td_tables db) (td_tables db) in
  if ur_Disabled u then resolved = Err ErrUserDisabled /\ is_enabled_admin permission db id = false
  else exists access, resolved = Ok access
    /\ (is_enabled_admin permission db id = true
        <-> (exists r, ea_Permissions access !! permission = Some r /\ Global r = true) \/ bootstrap_admin (td_log db) id = true).
Proof.
  intros HI%access_reachable Hu. cbv zeta. destruct (read_row_ok (directory_of db) id u) as [Hid Hv]; [by apply reachable_inv, HI|done|].
  unfold ResolveEffectiveAccess, UserByID, is_enabled_admin. rewrite Hid. cbn [mbind result_bind may_fault]. rewrite Hu.
  cbn [mbind result_bind or_err wrap_err]. rewrite Hv. cbn [mbind result_bind su_Disabled su_UserID]. destruct (ur_Disabled u); [done|].
  cbn [fail_if mbind result_bind wrap_err may_fault negb andb].
  destruct (resolve_global sort (ListResolvedAuthorizationGrants id (td_tables db)) permission) as (access & -> & Hiff); [by apply resolved_fixed|].
  exists access. split; [done|]. rewrite orb_true_iff, dynamic_admin_ok. by rewrite Hiff.
Qed.

(** ** A history *)

Module AccessExample.
Export DirectoryExample.

Definition role : string := "01HZZZZZZZZZZZZZZZZZZZZZZF".
Definition grant : string := "01HZZZZZZZZZZZZZZZZZZZZZZG".

Definition on_directory (e : time * DirEvent) : time * AccessEvent :=
  (e.1, mkTypedEvent (te_StreamType e.2) (te_StreamID e.2) (directoryEvent (te_Payload e.2))).

(** Two users, the first with the bootstrap role; a managed group of the second; a
    role with the administrators' permission, granted globally to the group. *)
Definition granted : list (time * AccessEvent) :=
  [on_directory (on_user ann (userCreated "ann@example.org"));
   on_directory (on_user bob (userCreated "bob@example.org"));
   on_directory (on_user ann (bootstrapAdminRoleGranted "admin"));
   on_directory (0, userGroupEvent team (userGroupCreated "Operators" [bob]));
   (0, mkTypedEvent authorizationRoleStreamType role (authorizationRoleCreated "operators" (sort_strings ["pki.manage"; lastAdminPermission])));
   (0, mkTypedEvent authorizationGrantStreamType grant (authorizationGrantCreated "user-group" team role "global" []))].

(** The first loses its bootstrap role, and its account. *)
Definition handed_over : list (time * AccessEvent) :=
  [on_directory (on_user ann (roleRevoked "admin")); on_directory (on_user ann userDisabled)].

Definition db1 : AccessDB := Eval vm_compute in match run_access granted empty_access with Ok db => db | Err _ => empty_access end.
Definition db2 : AccessDB := Eval vm_compute in match run_access handed_over db1 with Ok db => db | Err _ => empty_access end.

Lemma granted_runs : run_access granted empty_access = Ok db1.
Proof. vm_compute. reflexivity. Qed.
Lemma handed_over_runs : run_access handed_over db1 = Ok db2.
Proof. vm_compute. reflexivity. Qed.
Lemma events_wf : forallb (fun e => access_wf e.2) (granted ++ handed_over) = true.
Proof. vm_compute. reflexivity. Qed.

Lemma counts : CountEnabledAdmins lastAdminPermission db1 = 2 /\ CountEnabledAdmins lastAdminPermission db2 = 1.
Proof. vm_compute. by split. Qed.

Lemma db1_reached : rtc access_append empty_access db1.
Proof. refine (run_access_reach granted empty_access db1 _ granted_runs). vm_compute. reflexivity. Qed.
Lemma db2_reached : rtc access_append db1 db2.
Proof. refine (run_access_reach handed_over db1 db2 _ handed_over_runs). vm_compute. reflexivity. Qed.

(** The second user, the last administrator, cannot be disabled, nor leave the
    group, nor can the group, the grant or the role go. *)
Lemma last_refused :
  forallb (fun e => match run_access [e] db2 with Err e => errors_is "store: at least one enabled administrator is required" e | Ok _ => false end)
    [on_directory (on_user bob userDisabled); on_directory (on_user bob userManagedDeleted);
     on_directory (0, userGroupEvent team (userGroupUpdated "Operators" [ann])); on_directory (0, userGroupEvent team userGroupDeleted);
     (0, mkTypedEvent authorizationGrantStreamType grant authorizationGrantDeleted);
     (0, mkTypedEvent authorizationRoleStreamType role (authorizationRoleUpdated "operators" ["pki.manage"]))] = true.
Proof. vm_compute. reflexivity. Qed.

(** A name that one role gave up and a role with a smaller identifier took: the
    history commits, and in the order of a rebuild the role that had the name first
    finds it taken. *)
Definition renamed : list (time * AccessEvent) :=
  [(0, mkTypedEvent authorizationRoleStreamType grant (authorizationRoleCreated "operators" ["pki.manage"]));
   (0, mkTypedEvent authorizationRoleStreamType grant (authorizationRoleUpdated "former-operators" ["pki.manage"]));
   (0, mkTypedEvent authorizationRoleStreamType role (authorizationRoleCreated "operators" ["pki.manage"]))].

Lemma renamed_role_blocks_rebuild :
  match run_access renamed empty_access with
  | Ok db => fold_result (fun t row => projectAccess true row t) (resetAuthorization (td_tables db)) (rebuild_rows authorizationRoleStreamType (td_log db))
             = Err (EWrap "store: project authorization role creation" (EPg "23505" "authorization_roles_name_key"))
  | Err _ => False
  end.
Proof. vm_compute. reflexivity. Qed.
End AccessExample.

Lemma an_administrator_remains_witness :
  0 < CountEnabledAdmins lastAdminPermission AccessExample.db1
  /\ 0 < CountEnabledAdmins lastAdminPermission AccessExample.db2.
Proof.
  split; [vm_compute; reflexivity|].
  refine (proj1 (an_administrator_remains (unicode := DirectoryExample.unicode) (urls := DirectoryExample.urls) (schemes := DirectoryExample.schemes)
    (bcrypt := DirectoryExample.bcrypt) AccessExample.db1 AccessExample.db2 AccessExample.db2_reached _)).
  vm_compute. reflexivity.
Defined.

Lemma counted_admins_are_resolved_witness :
  is_enabled_admin lastAdminPermission AccessExample.db1 DirectoryExample.bob = true
  /\ exists access, ResolveEffectiveAccess (unicode := DirectoryExample.unicode) sort_by_id None None DirectoryExample.bob (td_tables AccessExample.db1) (td_tables AccessExample.db1) = Ok access.
Proof.
  split; [vm_compute; reflexivity|].
  destruct (counted_admins_are_resolved (unicode := DirectoryExample.unicode) (urls := DirectoryExample.urls) (schemes := DirectoryExample.schemes)
    (bcrypt := DirectoryExample.bcrypt) sort_by_id AccessExample.db1 DirectoryExample.bob (mkUserRow "bob@example.org" 1 false 1 0) lastAdminPermission
    AccessExample.db1_reached ltac:(vm_compute; reflexivity)) as (access & Ha & _).
  exists access. exact Ha.
Defined.
