(* ===== verification/Continuity.v ===== *)
(** * [agent/internal/enroll]: the continuity of trust

    The agent's credentials with the trust bundles of both certificate classes,
    the checks that a bundle continues the one before, and the signed
    confirmations of what was adopted.  DER byte strings and fingerprints are
    strings; an [x509.Certificate] is the record of Identity.v. *)

From Stdlib Require Import Ascii String ZArith Lia.
From S2P Require Export Issuance.

(** agent/internal/enroll/client.go:34-34 [maxRegistrationTokenBytes] *)
Definition maxRegistrationTokenBytes : Z := 512.
(** agent/internal/enroll/client.go:35-35 [agentCertificateLifetime] *)
Definition agentCertificateLifetime : Z := 365 * 24 * hour.

(** An [ecdh.PrivateKey]: the bytes of its public key, and its scalar. *)
Record SealingKey := mkSealingKey { sk_Public : list Z; sk_Scalar : string }.

(** agent/internal/enroll/continuity.go:22-27 [StoredTrustBundle] *)
Record StoredTrustBundle := mkStoredTrustBundle {
  sb_Generation : Z;
  sb_Revision : Z;
  sb_RootCertificateDER : list string;
  sb_TransitionCertificateDER : string;
}.
Definition no_trust_bundle : StoredTrustBundle := mkStoredTrustBundle 0 0 [] "".

(** agent/internal/enroll/continuity.go:31-38 [PendingTrustConfirmation] *)
Record PendingTrustConfirmation := mkPendingTrustConfirmation {
  pf_Generation : Z;
  pf_Revision : Z;
  pf_RootFingerprints : list string;
  pf_CRLIssuerFingerprint : string;
  pf_CRLSequence : Z;
  pf_Signature : string;
}.

(** agent/internal/enroll/client.go:40-51 [CredentialBundle] *)
Record CredentialBundle := mkCredentialBundle {
  bd_DeviceID : string;
  bd_CertificateDER : string;
  bd_CertificateAuthorityDER : string;
  bd_GatewayCertificateAuthorityDER : string;
  bd_PrivateKey : SigningKey;
  bd_SealingPrivateKey : option SealingKey;
  bd_AgentTrustBundle : StoredTrustBundle;
  bd_GatewayTrustBundle : StoredTrustBundle;
  bd_PendingAgent : option PendingTrustConfirmation;
  bd_PendingGateway : option PendingTrustConfirmation;
}.

(** Of a class: the bundle, and the confirmation that is pending. *)
Definition bundle_of (class : string) (b : CredentialBundle) : StoredTrustBundle :=
  if String.eqb class "agent" then bd_AgentTrustBundle b else bd_GatewayTrustBundle b.
Definition pending_of (class : string) (b : CredentialBundle) : option PendingTrustConfirmation :=
  if String.eqb class "agent" then bd_PendingAgent b else bd_PendingGateway b.
Definition with_pending (class : string) (p : option PendingTrustConfirmation) (b : CredentialBundle) : CredentialBundle :=
  if String.eqb class "agent"
  then mkCredentialBundle (bd_DeviceID b) (bd_CertificateDER b) (bd_CertificateAuthorityDER b) (bd_GatewayCertificateAuthorityDER b)
         (bd_PrivateKey b) (bd_SealingPrivateKey b) (bd_AgentTrustBundle b) (bd_GatewayTrustBundle b) p (bd_PendingGateway b)
  else mkCredentialBundle (bd_DeviceID b) (bd_CertificateDER b) (bd_CertificateAuthorityDER b) (bd_GatewayCertificateAuthorityDER b)
         (bd_PrivateKey b) (bd_SealingPrivateKey b) (bd_AgentTrustBundle b) (bd_GatewayTrustBundle b) (bd_PendingAgent b) p.

#[export] Instance stored_bundle_eq_dec : EqDecision StoredTrustBundle.
Proof. solve_decision. Defined.

(** [certificate.Verify] of a leaf for client authentication, with one root and
    no intermediates, at a time. *)
Class ChainVerify := VerifyClientChain : Certificate -> Certificate -> time -> bool.

(** The reply to an enrollment and to a renewal, with the bundles when present. *)
Record CredentialResponse := mkCredentialResponse {
  cp_CertificateDer : string;
  cp_CertificateAuthorityDer : string;
  cp_GatewayCertificateAuthorityDer : string;
  cp_AgentTrustBundle : option CATrustBundle;
  cp_GatewayTrustBundle : option CATrustBundle;
}.

(** agent/internal/enroll/continuity.go:405-407 [containsExactDER] *)
Definition containsExactDER (values : list string) (wanted : string) : bool := existsb (fun value => String.eqb value wanted) values.

(** agent/internal/enroll/continuity.go:409-420 [equalStoredTrustBundles] *)
Definition equalStoredTrustBundles (first second : StoredTrustBundle) : bool :=
  (sb_Generation first =? sb_Generation second) && (sb_Revision first =? sb_Revision second)
  && String.eqb (sb_TransitionCertificateDER first) (sb_TransitionCertificateDER second)
  && bool_decide (sb_RootCertificateDER first = sb_RootCertificateDER second).

Section Continuity.
Context {x509 : X509} {schemes : Schemes} {x25519 : X25519} {chain : ChainVerify}.

(** agent/internal/enroll/client.go:446-456 [parseExactCertificate] *)
Definition parseExactCertificate (der : string) : result goerr Certificate :=
  or_err (ParseCertificate der) (EMsg "x509: malformed certificate") ≫= fun certificate =>
  fail_if (negb (String.eqb (Raw certificate) der)) (EMsg "certificate DER contains trailing data") ≫= fun _ =>
  Ok certificate.

(** agent/internal/enroll/client.go:458-465 [publicKeysEqual] *)
Definition publicKeysEqual (first second : SigningKey) : bool :=
  match MarshalPKIXPublicKey first, MarshalPKIXPublicKey second with
  | Some firstDER, Some secondDER => String.eqb firstDER secondDER
  | _, _ => false
  end.

(** agent/internal/enroll/continuity.go:132-168 [parseContinuityRoot] *)
Definition parseContinuityRoot (der : string) (now : time) : result goerr Certificate :=
  fail_if (time_is_zero now) (EMsg "validation clock is zero") ≫= fun _ =>
  wrap_err (EWrap "is not exact DER") (parseExactCertificate der) ≫= fun root =>
  fail_if (negb (IsCA root)) (EMsg "is not a CA") ≫= fun _ =>
  fail_if (negb (BasicConstraintsValid root)) (EMsg "has invalid basic constraints") ≫= fun _ =>
  fail_if (negb (MaxPathLen root =? 0) || negb (MaxPathLenZero root)) (EMsg "has an invalid path length") ≫= fun _ =>
  fail_if (negb (KeyUsage root =? Z.lor KeyUsageCertSign KeyUsageCRLSign)) (EMsg "has invalid key usage") ≫= fun _ =>
  fail_if (negb (zlen (UnhandledCriticalExtensions root) =? 0)) (EMsg "has an unsupported critical extension") ≫= fun _ =>
  wrap_err (fun m => EWrap "has an invalid public key" (EMsg m)) (ValidateSigningKey (PublicKey root)) ≫= fun _ =>
  fail_if (now <? NotBefore root) (EMsg "is not yet valid") ≫= fun _ =>
  fail_if (NotAfter root <? now) (EMsg "is expired") ≫= fun _ =>
  fail_if (negb (CheckSignatureFrom root root)) (EMsg "is not self-signed") ≫= fun _ =>
  Ok root.

(** agent/internal/enroll/continuity.go:170-221 [validateTransitionProof] *)
Definition validateTransitionProof (current successor : Certificate) (der : string) (now : time) : result goerr unit :=
  fail_if (time_is_zero now) (EMsg "enroll: transition-proof validation clock is zero") ≫= fun _ =>
  wrap_err (EWrap "enroll: transition proof is not exact DER") (parseExactCertificate der) ≫= fun proof =>
  fail_if (now <? NotBefore proof) (EMsg "enroll: transition proof is not yet valid") ≫= fun _ =>
  fail_if (NotAfter proof <? now) (EMsg "enroll: transition proof is expired") ≫= fun _ =>
  fail_if (negb (String.eqb (RawSubject proof) (RawSubject successor)))
    (EMsg "enroll: transition proof subject does not match root order") ≫= fun _ =>
  fail_if (negb (publicKeysEqual (PublicKey proof) (PublicKey successor)))
    (EMsg "enroll: transition proof public key does not match successor") ≫= fun _ =>
  fail_if (publicKeysEqual (PublicKey current) (PublicKey successor))
    (EMsg "enroll: successor authority reused the current public key") ≫= fun _ =>
  fail_if (negb (String.eqb (SubjectKeyId proof) (SubjectKeyId successor)))
    (EMsg "enroll: transition proof subject key identifier drift") ≫= fun _ =>
  fail_if (negb (BasicConstraintsValid proof)) (EMsg "enroll: transition proof has invalid basic constraints") ≫= fun _ =>
  fail_if (negb (IsCA proof)) (EMsg "enroll: transition proof is not a CA") ≫= fun _ =>
  fail_if (negb (MaxPathLen proof =? MaxPathLen successor) || negb (Bool.eqb (MaxPathLenZero proof) (MaxPathLenZero successor)))
    (EMsg "enroll: transition proof path length drift") ≫= fun _ =>
  fail_if (negb (KeyUsage proof =? KeyUsage successor)) (EMsg "enroll: transition proof key usage drift") ≫= fun _ =>
  fail_if (negb (zlen (UnhandledCriticalExtensions proof) =? 0))
    (EMsg "enroll: transition proof has an unsupported critical extension") ≫= fun _ =>
  fail_if (negb (String.eqb (RawIssuer proof) (RawSubject current)))
    (EMsg "enroll: transition proof issuer does not match current root") ≫= fun _ =>
  fail_if (negb (String.eqb (AuthorityKeyId proof) (SubjectKeyId current)))
    (EMsg "enroll: transition proof authority key identifier drift") ≫= fun _ =>
  fail_if (negb (CheckSignatureFrom proof current)) (EMsg "enroll: transition proof signature is invalid").

(** agent/internal/enroll/continuity.go:74-86 [validateTrustBundle], the loop over
    the roots *)
Fixpoint parse_roots (now : time) (earlier : list Certificate) (ders : list string) : result goerr (list Certificate) :=
  match ders with
  | [] => Ok earlier
  | der :: rest =>
      wrap_err (EWrap "enroll: root certificate") (parseContinuityRoot der now) ≫= fun root =>
      fail_if (existsb (fun r => String.eqb (Raw r) (Raw root)) earlier)
        (EMsg "enroll: CA root bundle contains a duplicate root") ≫= fun _ =>
      parse_roots now (earlier ++ [root]) rest
  end.

(** agent/internal/enroll/continuity.go:64-97 [validateTrustBundle], of the bundle by
    itself *)
Definition validate_bundle_contents (next : StoredTrustBundle) (now : time) : result goerr unit :=
  fail_if (sb_Generation next =? 0) (EMsg "enroll: CA bundle generation must be greater than zero") ≫= fun _ =>
  fail_if (sb_Revision next =? 0) (EMsg "enroll: CA bundle revision must be greater than zero") ≫= fun _ =>
  fail_if ((zlen (sb_RootCertificateDER next) <? 1) || (2 <? zlen (sb_RootCertificateDER next)))
    (EMsg "enroll: CA root bundle must contain one or two roots") ≫= fun _ =>
  parse_roots now [] (sb_RootCertificateDER next) ≫= fun roots =>
  fail_if ((zlen roots =? 1) && negb (len (sb_TransitionCertificateDER next) =? 0))
    (EMsg "enroll: unchanged single-root bundle must not carry a transition proof") ≫= fun _ =>
  match roots with
  | [current; successor] =>
      fail_if (len (sb_TransitionCertificateDER next) =? 0) (EMsg "enroll: dual-root bundle is missing its transition proof") ≫= fun _ =>
      validateTransitionProof current successor (sb_TransitionCertificateDER next) now
  | _ => Ok tt
  end.

(** agent/internal/enroll/continuity.go:99-129 [validateTrustBundle], against the one
    before *)
Definition validate_bundle_succession (current next : StoredTrustBundle) : result goerr unit :=
  if sb_Generation current =? 0 then Ok tt
  else if sb_Generation next <? sb_Generation current then Err (EMsg "enroll: CA bundle generation rollback")
  else if (sb_Generation next =? sb_Generation current) && (sb_Revision next <? sb_Revision current)
  then Err (EMsg "enroll: CA bundle revision rollback")
  else if (sb_Generation next =? sb_Generation current) && (sb_Revision next =? sb_Revision current) then
    fail_if (negb (equalStoredTrustBundles current next)) (EMsg "enroll: CA bundle version reused for different contents")
  else if sb_Generation current <? sb_Generation next then
    fail_if (zlen (sb_RootCertificateDER current) =? 0) (EMsg "enroll: current CA bundle has no roots to transition from") ≫= fun _ =>
    fail_if (negb (zlen (sb_RootCertificateDER next) =? 2)
             || negb (bool_decide (head (sb_RootCertificateDER next) = last (sb_RootCertificateDER current))))
      (EMsg "enroll: new CA generation lacks a transition proof from the exact pending root")
  else
    fail_if (match sb_RootCertificateDER next with
             | [root] => negb (containsExactDER (sb_RootCertificateDER current) root)
             | _ => true
             end) (EMsg "enroll: higher CA revision must normalize to an already trusted root").

(** agent/internal/enroll/continuity.go:64-130 [validateTrustBundle] *)
Definition validateTrustBundle (current next : StoredTrustBundle) (now : time) : result goerr unit :=
  validate_bundle_contents next now ≫= fun _ => validate_bundle_succession current next.

(** agent/internal/enroll/continuity.go:40-62 [storedTrustBundle] *)
Definition storedTrustBundle (message : option CATrustBundle) (legacyRoot : string) (current : StoredTrustBundle) (now : time)
    : result goerr StoredTrustBundle :=
  match message with
  | Some m => Ok (mkStoredTrustBundle (cb_Generation m) (cb_Revision m) (cb_RootCertificateDer m) (cb_TransitionCertificateDer m))
  | None =>
      fail_if (len legacyRoot =? 0) (EMsg "enroll: CA root bundle is absent") ≫= fun _ =>
      Ok (if sb_Generation current =? 0 then mkStoredTrustBundle 1 1 [legacyRoot] ""
          else mkStoredTrustBundle (sb_Generation current) (sb_Revision current) [legacyRoot] "")
  end ≫= fun bundle =>
  validateTrustBundle current bundle now ≫= fun _ => Ok bundle.

(** agent/internal/enroll/continuity.go:223-235 [selectIssuingRoot] *)
Definition selectIssuingRoot (certificateDER : string) (bundle : StoredTrustBundle) : result goerr string :=
  wrap_err (EWrap "enroll: parse issued certificate") (parseExactCertificate certificateDER) ≫= fun certificate =>
  or_err (find (fun der => match parseExactCertificate der with
                           | Ok root => CheckSignatureFrom certificate root
                           | Err _ => false
                           end) (sb_RootCertificateDER bundle))
    (EMsg "enroll: issued certificate is not signed by the published agent root bundle").

(** agent/internal/enroll/continuity.go:237-254 [validateSeparatedTrustBundles] *)
Definition validateSeparatedTrustBundles (agent gateway : StoredTrustBundle) : result goerr unit :=
  check_each (fun agentDER =>
    parseExactCertificate agentDER ≫= fun agentRoot =>
    check_each (fun gatewayDER =>
      parseExactCertificate gatewayDER ≫= fun gatewayRoot =>
      fail_if (String.eqb (Raw agentRoot) (Raw gatewayRoot) || publicKeysEqual (PublicKey agentRoot) (PublicKey gatewayRoot))
        (EMsg "enroll: agent and gateway certificate authorities are not distinct")) (sb_RootCertificateDER gateway))
    (sb_RootCertificateDER agent).

(** agent/internal/enroll/continuity.go:388-395 [fingerprintsForRoots] *)
Definition fingerprintsForRoots (roots : list string) : list string := Sum256 <$> roots.

(** agent/internal/enroll/continuity.go:256-275 [newPendingTrustConfirmation] *)
Definition newPendingTrustConfirmation (bundle : CredentialBundle) (claimedClass : string) (trust : StoredTrustBundle)
    : result goerr PendingTrustConfirmation :=
  let claim := mkTrustStateClaim "agent" claimedClass (Sum256 (bd_CertificateDER bundle)) (sb_Generation trust) (sb_Revision trust)
                 (fingerprintsForRoots (sb_RootCertificateDER trust)) "" 0 in
  wrap_err (fun m => EWrap "enroll: sign trust-state confirmation" (EMsg m)) (SignTrustState (bd_PrivateKey bundle) claim) ≫= fun signature =>
  Ok (mkPendingTrustConfirmation (tc_Generation claim) (tc_Revision claim) (tc_RootFingerprints claim)
        (tc_CRLIssuerFingerprint claim) (tc_CRLSequence claim) signature).

(** agent/internal/enroll/continuity.go:314-342 [pendingTrustRequest] *)
Definition pendingTrustRequest (bundle : CredentialBundle) (claimedClass : string) (pending : PendingTrustConfirmation)
    : result goerr ConfirmTrustStateRequest :=
  wrap_err (EWrap "pending reporter certificate") (parseExactCertificate (bd_CertificateDER bundle)) ≫= fun certificate =>
  let claim := mkTrustStateClaim "agent" claimedClass (Sum256 (bd_CertificateDER bundle)) (pf_Generation pending) (pf_Revision pending)
                 (pf_RootFingerprints pending) (pf_CRLIssuerFingerprint pending) (pf_CRLSequence pending) in
  wrap_err (fun m => EWrap "pending trust-state signature" (EMsg m))
    (VerifyTrustState (PublicKey certificate) claim (pf_Signature pending)) ≫= fun _ =>
  Ok (mkConfirmTrustStateRequest (bd_CertificateDER bundle) claimedClass (pf_Generation pending) (pf_Revision pending)
        (pf_RootFingerprints pending) (pf_CRLIssuerFingerprint pending) (pf_CRLSequence pending) (pf_Signature pending)).

Definition classes : list string := ["agent"; "gateway"].

(** agent/internal/enroll/continuity.go:344-356 [validatePendingTrustConfirmations]:
    the order of the map only chooses between two errors *)
Definition validatePendingTrustConfirmations (bundle : CredentialBundle) : result goerr unit :=
  check_each (fun class => match pending_of class bundle with
                           | Some pending => pendingTrustRequest bundle class pending ≫= fun _ => Ok tt
                           | None => Ok tt
                           end) classes.

Definition absent_bundle (b : StoredTrustBundle) : bool := (sb_Generation b =? 0) && (zlen (sb_RootCertificateDER b) =? 0).

(** agent/internal/enroll/continuity.go:358-386 [validateCredentialContinuity] *)
Definition validateCredentialContinuity (bundle : CredentialBundle) (now : time) : result goerr unit :=
  let agentAbsent := absent_bundle (bd_AgentTrustBundle bundle) in
  let gatewayAbsent := absent_bundle (bd_GatewayTrustBundle bundle) in
  if agentAbsent && gatewayAbsent then
    fail_if (bool_decide (is_Some (bd_PendingAgent bundle)) || bool_decide (is_Some (bd_PendingGateway bundle)))
      (EMsg "enroll: pending trust confirmation has no stored CA bundle")
  else if agentAbsent || gatewayAbsent then Err (EMsg "enroll: agent and gateway CA bundles must be stored atomically")
  else
    wrap_err (EWrap "agent trust bundle") (validateTrustBundle no_trust_bundle (bd_AgentTrustBundle bundle) now) ≫= fun _ =>
    wrap_err (EWrap "gateway trust bundle") (validateTrustBundle no_trust_bundle (bd_GatewayTrustBundle bundle) now) ≫= fun _ =>
    fail_if (negb (containsExactDER (sb_RootCertificateDER (bd_AgentTrustBundle bundle)) (bd_CertificateAuthorityDER bundle)))
      (EMsg "enroll: active agent issuer is absent from the stored trust bundle") ≫= fun _ =>
    fail_if (negb (containsExactDER (sb_RootCertificateDER (bd_GatewayTrustBundle bundle)) (bd_GatewayCertificateAuthorityDER bundle)))
      (EMsg "enroll: compatibility gateway root is absent from the stored trust bundle") ≫= fun _ =>
    validateSeparatedTrustBundles (bd_AgentTrustBundle bundle) (bd_GatewayTrustBundle bundle).

(** agent/internal/enroll/client.go:439-442 [parseCAFingerprint], the decoding of hexadecimal
    digits *)
Definition hex_value (c : ascii) : option Z :=
  if is_digit c then Some (byte_of c - 48)
  else if byte_between "a" "f" c then Some (byte_of c - 87)
  else if byte_between "A" "F" c then Some (byte_of c - 55)
  else None.

(** [hex.DecodeString]. *)
Fixpoint DecodeHex (s : string) : option string :=
  match s with
  | EmptyString => Some ""%string
  | String a (String b rest) =>
      high ← hex_value a; low ← hex_value b; tail ← DecodeHex rest; Some (String (ascii_of_byte (16 * high + low)) tail)
  | String _ EmptyString => None
  end.

(** ASCII lower case: on a value with other bytes [strings.ToLower] keeps the first
    seven from being the prefix, or they are ASCII. *)
Definition lower_ascii (c : ascii) : ascii := if is_upper c then ascii_of_byte (byte_of c + 32) else c.
Fixpoint lower_string (s : string) : string :=
  match s with EmptyString => ""%string | String c rest => String (lower_ascii c) (lower_string rest) end.

(** agent/internal/enroll/client.go:428-444 [parseCAFingerprint]; no pin is the empty string *)
Definition parseCAFingerprint (value : string) : result goerr string :=
  if String.eqb value "" then Ok ""%string
  else
    let encoded := if has_prefix "sha256:" (lower_string value) then String.substring 7 (String.length value) value else value in
    fail_if (negb (len encoded =? 64)) (EMsg "enroll: CA fingerprint must contain 64 hexadecimal characters") ≫= fun _ =>
    or_err (DecodeHex encoded) (EMsg "enroll: CA fingerprint is not hexadecimal").

(** The profile of an authority, and of an agent's certificate. *)
Definition authority_profile (c : Certificate) : bool :=
  IsCA c && BasicConstraintsValid c && negb (Z.land (KeyUsage c) KeyUsageCertSign =? 0).
Definition agent_profile (c : Certificate) : bool :=
  negb (IsCA c) && BasicConstraintsValid c && negb (Z.land (KeyUsage c) KeyUsageDigitalSignature =? 0)
  && bool_decide (ExtKeyUsage c = [ExtKeyUsageClientAuth]) && (time_sub (NotAfter c) (NotBefore c) =? agentCertificateLifetime).

(** agent/internal/enroll/client.go:373-426 [validateEnrollmentResponse] *)
Definition validateEnrollmentResponse (certificateDER certificateAuthorityDER : string) (expectedPublicKey : SigningKey) (pin : string)
    (now : time) : result goerr string :=
  wrap_err (EWrap "enroll: parse certificate authority") (parseExactCertificate certificateAuthorityDER) ≫= fun authority =>
  fail_if (negb (authority_profile authority)) (EMsg "enroll: certificate authority has an invalid profile") ≫= fun _ =>
  wrap_err (fun m => EWrap "enroll: validate certificate authority key" (EMsg m)) (ValidateSigningKey (PublicKey authority)) ≫= fun _ =>
  fail_if ((now <? NotBefore authority) || (NotAfter authority <? now))
    (EMsg "enroll: certificate authority is not currently valid") ≫= fun _ =>
  fail_if (negb (len pin =? 0) && negb (String.eqb (Sum256 (Raw authority)) pin))
    (EMsg "enroll: certificate authority fingerprint mismatch") ≫= fun _ =>
  wrap_err (EWrap "enroll: parse issued certificate") (parseExactCertificate certificateDER) ≫= fun certificate =>
  fail_if (negb (publicKeysEqual (PublicKey certificate) expectedPublicKey))
    (EMsg "enroll: issued certificate public key mismatch") ≫= fun _ =>
  wrap_err (fun m => EWrap "enroll: parse issued certificate identity" (EMsg m)) (ParseCertificateIdentity (Some certificate))
  ≫= fun '(class, deviceID) =>
  fail_if (negb (String.eqb class AgentClass)) (EMsg "enroll: issued certificate class is not agent") ≫= fun _ =>
  fail_if (negb (agent_profile certificate)) (EMsg "enroll: issued certificate has an invalid agent profile") ≫= fun _ =>
  fail_if (negb (VerifyClientChain certificate authority now)) (EMsg "enroll: verify issued certificate") ≫= fun _ =>
  Ok deviceID.

(** agent/internal/enroll/client.go:566-588 [validateGatewayTrustAnchor]; every call
    requires a current certificate *)
Definition validateGatewayTrustAnchor (gatewayDER agentDER : string) (now : time) : result goerr unit :=
  wrap_err (EWrap "enroll: parse gateway certificate authority") (parseExactCertificate gatewayDER) ≫= fun gatewayCA =>
  fail_if (negb (authority_profile gatewayCA)) (EMsg "enroll: gateway certificate authority has an invalid profile") ≫= fun _ =>
  wrap_err (fun m => EWrap "enroll: validate gateway certificate authority key" (EMsg m)) (ValidateSigningKey (PublicKey gatewayCA)) ≫= fun _ =>
  fail_if ((now <? NotBefore gatewayCA) || (NotAfter gatewayCA <? now))
    (EMsg "enroll: gateway certificate authority is not currently valid") ≫= fun _ =>
  wrap_err (EWrap "enroll: parse agent certificate authority for gateway separation") (parseExactCertificate agentDER) ≫= fun agentCA =>
  fail_if (String.eqb (Raw gatewayCA) (Raw agentCA) || publicKeysEqual (PublicKey gatewayCA) (PublicKey agentCA))
    (EMsg "enroll: agent and gateway certificate authorities are not distinct").

(** agent/internal/enroll/client.go:467-478 [isNilEnrollmentDependency], of a signer *)
Definition is_nil_signer (key : SigningKey) : bool :=
  match key with
  | KeyNil | KeyECDSAPrivate None | KeyRSAPrivate None | KeyECDSAPublic None | KeyRSAPublic None | KeySigner true _ => true
  | _ => false
  end.

(** The checks of both private keys that two validations below begin with. *)
Definition validate_own_keys (bundle : CredentialBundle) : result goerr SealingKey :=
  fail_if (is_nil_signer (bd_PrivateKey bundle)) (EMsg "enroll: credential bundle has a nil private key") ≫= fun _ =>
  or_err (bd_SealingPrivateKey bundle) (EMsg "enroll: credential bundle has a nil private key") ≫= fun sealing =>
  wrap_err (fun m => EWrap "enroll: validate credential private key" (EMsg m)) (ValidateSigningKey (bd_PrivateKey bundle)) ≫= fun _ =>
  Ok sealing.

(** agent/internal/enroll/client.go:480-513 [validateCredentialBundle] *)
Definition validateCredentialBundle (bundle : CredentialBundle) (now : time) : result goerr unit :=
  validate_own_keys bundle ≫= fun sealing =>
  validateEnrollmentResponse (bd_CertificateDER bundle) (bd_CertificateAuthorityDER bundle) (signer_public (bd_PrivateKey bundle)) "" now
  ≫= fun deviceID =>
  fail_if (negb (String.eqb deviceID (bd_DeviceID bundle))) (EMsg "enroll: credential bundle device ID mismatch") ≫= fun _ =>
  validateGatewayTrustAnchor (bd_GatewayCertificateAuthorityDER bundle) (bd_CertificateAuthorityDER bundle) now ≫= fun _ =>
  wrap_err (EWrap "enroll: validate sealing private key") (ValidateX25519PublicKey (sk_Public sealing)) ≫= fun _ =>
  validateCredentialContinuity bundle now ≫= fun _ =>
  wrap_err (EWrap "enroll: pending trust confirmation is invalid") (validatePendingTrustConfirmations bundle).

(** agent/internal/enroll/client.go:515-564 [validateStoredCredentialBundle] *)
Definition validateStoredCredentialBundle (bundle : CredentialBundle) (now : time) : result goerr unit :=
  fail_if (time_is_zero now) (EMsg "enroll: stored credential validation clock is zero") ≫= fun _ =>
  validate_own_keys bundle ≫= fun sealing =>
  wrap_err (EWrap "enroll: parse stored certificate authority") (parseExactCertificate (bd_CertificateAuthorityDER bundle)) ≫= fun authority =>
  fail_if (negb (authority_profile authority)) (EMsg "enroll: stored certificate authority has an invalid profile") ≫= fun _ =>
  wrap_err (fun m => EWrap "enroll: validate stored certificate authority key" (EMsg m)) (ValidateSigningKey (PublicKey authority)) ≫= fun _ =>
  validateGatewayTrustAnchor (bd_GatewayCertificateAuthorityDER bundle) (bd_CertificateAuthorityDER bundle) now ≫= fun _ =>
  wrap_err (EWrap "enroll: parse stored certificate") (parseExactCertificate (bd_CertificateDER bundle)) ≫= fun certificate =>
  fail_if (negb (publicKeysEqual (PublicKey certificate) (signer_public (bd_PrivateKey bundle))))
    (EMsg "enroll: stored certificate public key mismatch") ≫= fun _ =>
  wrap_err (fun m => EWrap "enroll: parse stored certificate identity" (EMsg m)) (ParseCertificateIdentity (Some certificate))
  ≫= fun '(class, deviceID) =>
  fail_if (negb (String.eqb class AgentClass) || negb (String.eqb deviceID (bd_DeviceID bundle)))
    (EMsg "enroll: stored certificate identity mismatch") ≫= fun _ =>
  fail_if (negb (agent_profile certificate)) (EMsg "enroll: stored certificate has an invalid agent profile") ≫= fun _ =>
  fail_if (negb (CheckSignatureFrom certificate authority)) (EMsg "enroll: verify stored certificate authority") ≫= fun _ =>
  wrap_err (EWrap "enroll: validate stored sealing private key") (ValidateX25519PublicKey (sk_Public sealing)) ≫= fun _ =>
  validateCredentialContinuity bundle now.
End Continuity.
