(* ===== verification/AgentStore.v ===== *)
(** * [agent/internal/enroll/store.go]: the credential file

    One file holds the credentials as PEM blocks.  PEM, PKCS #8 and JSON are the
    interface [CredentialCodec] of the standard library's packages; reading and
    the atomic writing of the file are the promises of sdk/fsafe.  A file that was
    encoded from valid credentials decodes to them. *)

From Stdlib Require Import Ascii String ZArith Lia.
From S2P Require Export Continuity.

(** agent/internal/enroll/store.go:26-26 [continuityPEMType] *)
Definition continuityPEMType : string := "POWER MANAGE CA CONTINUITY".
(** agent/internal/enroll/store.go:28-34 [credentialPEMTypes] *)
Definition credentialPEMTypes : list string :=
  ["POWER MANAGE AGENT CERTIFICATE"; "POWER MANAGE AGENT PRIVATE KEY"; "POWER MANAGE AGENT CA CERTIFICATE";
   "POWER MANAGE GATEWAY CA CERTIFICATE"; "POWER MANAGE SEALING PRIVATE KEY"].
(** agent/internal/enroll/store.go:24-24 [maxCredentialBundleBytes] *)
Definition maxCredentialBundleBytes : Z := 256 * 1024.

(** agent/internal/enroll/store.go:36-41 [storedCredentialContinuity]; a missing bundle
    decodes to a nil pointer *)
Record storedCredentialContinuity := mkStoredCredentialContinuity {
  so_AgentTrustBundle : option StoredTrustBundle;
  so_GatewayTrustBundle : option StoredTrustBundle;
  so_PendingAgent : option PendingTrustConfirmation;
  so_PendingGateway : option PendingTrustConfirmation;
}.

(** A [pem.Block], and what a PKCS #8 encoding holds. *)
Record PEMBlock := mkPEMBlock { pb_Type : string; pb_Headers : bool; pb_Bytes : string }.
Inductive PKCS8Key := PKSigner (key : SigningKey) | PKSealing (key : SealingKey) | PKOther.

(** [pem.EncodeToMemory], [pem.Decode], [x509.MarshalPKCS8PrivateKey],
    [x509.ParsePKCS8PrivateKey], [json.Marshal] and the strict decoding of one
    value, with whether only that value is there. *)
Class CredentialCodec := {
  pem_Encode : string -> string -> string;
  pem_Decode : string -> option (PEMBlock * string);
  MarshalPKCS8Signer : SigningKey -> option string;
  MarshalPKCS8Sealing : SealingKey -> option string;
  ParsePKCS8 : string -> option PKCS8Key;
  json_MarshalContinuity : storedCredentialContinuity -> option string;
  json_DecodeContinuity : string -> option (storedCredentialContinuity * bool);
}.

Definition begin_line (type : string) : string := "-----BEGIN " +:+ type +:+ "-----
".

(** What those packages document: a block of one of the types in use decodes to
    itself, before the end of the text or another block; a private key and a JSON
    value decode to themselves; no encoding is empty, and the empty text is not a
    certificate. *)
Definition blockPEMTypes : list string := credentialPEMTypes ++ [continuityPEMType].
Class CodecLaws {x509 : X509} {codec : CredentialCodec} : Prop := {
  pem_begins type data : type ∈ blockPEMTypes -> exists rest, pem_Encode type data = begin_line type +:+ rest;
  pem_round type data rest : type ∈ blockPEMTypes -> data <> ""%string -> rest = ""%string \/ has_prefix "-----BEGIN " rest = true ->
    pem_Decode (pem_Encode type data +:+ rest) = Some (mkPEMBlock type false data, rest);
  pkcs8_signer key der : MarshalPKCS8Signer key = Some der -> der <> ""%string /\ ParsePKCS8 der = Some (PKSigner key);
  pkcs8_sealing key der : MarshalPKCS8Sealing key = Some der -> der <> ""%string /\ ParsePKCS8 der = Some (PKSealing key);
  json_round value text : json_MarshalContinuity value = Some text -> text <> ""%string /\ json_DecodeContinuity text = Some (value, true);
  empty_certificate : ParseCertificate "" = None;
}.

Section Codec.
Context {x509 : X509} {schemes : Schemes} {x25519 : X25519} {chain : ChainVerify} {codec : CredentialCodec}.

(** Whether a bundle is written with a continuity block. *)
Definition has_continuity (b : CredentialBundle) : bool :=
  negb (sb_Generation (bd_AgentTrustBundle b) =? 0) || negb (sb_Generation (bd_GatewayTrustBundle b) =? 0)
  || bool_decide (is_Some (bd_PendingAgent b)) || bool_decide (is_Some (bd_PendingGateway b)).

Definition continuity_of (b : CredentialBundle) : storedCredentialContinuity :=
  mkStoredCredentialContinuity (Some (bd_AgentTrustBundle b)) (Some (bd_GatewayTrustBundle b)) (bd_PendingAgent b) (bd_PendingGateway b).

(** agent/internal/enroll/store.go:268-271 [encodeCredentialBundle], the blocks one after
    the other, before what follows them *)
Definition encode_blocks (following : string) (blocks : list (string * string)) : string :=
  foldr (fun block encoded => pem_Encode block.1 block.2 +:+ encoded) following blocks.

(** agent/internal/enroll/store.go:240-273 [encodeCredentialBundle]; the sealing key is
    there when it was validated *)
Definition encodeCredentialBundle (bundle : CredentialBundle) : result goerr string :=
  or_err (MarshalPKCS8Signer (bd_PrivateKey bundle)) (EMsg "enroll: marshal mTLS private key") ≫= fun privateKeyDER =>
  or_err (bd_SealingPrivateKey bundle ≫= MarshalPKCS8Sealing) (EMsg "enroll: marshal sealing private key") ≫= fun sealingPrivateKeyDER =>
  let blocks := zip credentialPEMTypes
    [bd_CertificateDER bundle; privateKeyDER; bd_CertificateAuthorityDER bundle; bd_GatewayCertificateAuthorityDER bundle; sealingPrivateKeyDER] in
  (if has_continuity bundle
   then or_err (json_MarshalContinuity (continuity_of bundle)) (EMsg "enroll: encode CA continuity") ≫= fun continuityDER =>
        Ok (blocks ++ [(continuityPEMType, continuityDER)])
   else Ok blocks) ≫= fun blocks =>
  Ok (encode_blocks ""%string blocks).

(** agent/internal/enroll/store.go:148-162 [decodeStoredCredentialBundle], the loop over
    the ordered blocks *)
Fixpoint decode_blocks (types : list string) (remaining : string) : result goerr (list string * string) :=
  match types with
  | [] => Ok ([], remaining)
  | expectedType :: types =>
      fail_if (negb (has_prefix (begin_line expectedType) remaining))
        (EMsg "enroll: credential bundle must contain exact ordered block") ≫= fun _ =>
      or_err (pem_Decode remaining) (EMsg "enroll: credential bundle has an invalid block") ≫= fun '(block, rest) =>
      fail_if (negb (String.eqb (pb_Type block) expectedType) || pb_Headers block || (len (pb_Bytes block) =? 0))
        (EMsg "enroll: credential bundle has an invalid block") ≫= fun _ =>
      decode_blocks types rest ≫= fun '(blocks, rest) => Ok (pb_Bytes block :: blocks, rest)
  end.

(** agent/internal/enroll/store.go:163-192 [decodeStoredCredentialBundle], what may follow
    them *)
Definition decode_continuity (remaining : string) : result goerr storedCredentialContinuity :=
  if len remaining =? 0 then Ok (mkStoredCredentialContinuity None None None None)
  else
    fail_if (negb (has_prefix (begin_line continuityPEMType) remaining))
      (EMsg "enroll: credential bundle contains duplicate, unknown, or trailing data") ≫= fun _ =>
    or_err (pem_Decode remaining) (EMsg "enroll: credential bundle has an invalid CA continuity block") ≫= fun '(block, rest) =>
    fail_if (negb (String.eqb (pb_Type block) continuityPEMType) || pb_Headers block || (len (pb_Bytes block) =? 0) || negb (len rest =? 0))
      (EMsg "enroll: credential bundle has an invalid CA continuity block") ≫= fun _ =>
    or_err (json_DecodeContinuity (pb_Bytes block)) (EMsg "enroll: decode stored CA continuity") ≫= fun '(continuity, only) =>
    fail_if (negb only) (EMsg "enroll: stored CA continuity contains trailing JSON data") ≫= fun _ =>
    match so_AgentTrustBundle continuity, so_GatewayTrustBundle continuity with
    | Some agent, Some gateway =>
        fail_if (absent_bundle agent && absent_bundle gateway)
          (EMsg "enroll: stored CA continuity cannot encode legacy-empty trust state") ≫= fun _ => Ok continuity
    | _, _ => Err (EMsg "enroll: stored CA continuity requires non-null agent and gateway trust bundles")
    end.

(** agent/internal/enroll/store.go:193-238 [decodeStoredCredentialBundle], the keys and
    the certificates *)
Definition decode_identity (blocks : list string) (continuity : storedCredentialContinuity) : result goerr CredentialBundle :=
  match blocks with
  | [certificateDER; privateKeyDER; authorityDER; gatewayDER; sealingDER] =>
      wrap_err (EWrap "enroll: parse stored agent certificate") (parseExactCertificate certificateDER) ≫= fun certificate =>
      wrap_err (fun _ => EMsg "enroll: stored agent certificate identity is invalid") (ParseCertificateIdentity (Some certificate))
      ≫= fun '(class, deviceID) =>
      fail_if (negb (String.eqb class AgentClass)) (EMsg "enroll: stored agent certificate identity is invalid") ≫= fun _ =>
      or_err (ParsePKCS8 privateKeyDER) (EMsg "enroll: parse stored mTLS private key") ≫= fun privateKeyValue =>
      match privateKeyValue with
      | PKSigner privateKey => fail_if (is_nil_signer privateKey) (EMsg "enroll: stored mTLS private key is not a signer") ≫= fun _ => Ok privateKey
      | _ => Err (EMsg "enroll: stored mTLS private key is not a signer")
      end ≫= fun privateKey =>
      fail_if (negb (publicKeysEqual (PublicKey certificate) (signer_public privateKey)))
        (EMsg "enroll: stored certificate public key mismatch") ≫= fun _ =>
      wrap_err (EWrap "enroll: parse stored agent CA certificate") (parseExactCertificate authorityDER) ≫= fun _ =>
      wrap_err (EWrap "enroll: parse stored gateway CA certificate") (parseExactCertificate gatewayDER) ≫= fun _ =>
      or_err (ParsePKCS8 sealingDER) (EMsg "enroll: parse stored sealing private key") ≫= fun sealingKeyValue =>
      match sealingKeyValue with
      | PKSealing key => Ok key
      | _ => Err (EMsg "enroll: stored sealing private key is not X25519")
      end ≫= fun sealing =>
      Ok (mkCredentialBundle deviceID certificateDER authorityDER gatewayDER privateKey (Some sealing)
            (default no_trust_bundle (so_AgentTrustBundle continuity)) (default no_trust_bundle (so_GatewayTrustBundle continuity))
            (so_PendingAgent continuity) (so_PendingGateway continuity))
  | _ => Err (EMsg "enroll: credential bundle must contain exact ordered block")
  end.

(** agent/internal/enroll/store.go:148-238 [decodeStoredCredentialBundle] *)
Definition decodeStoredCredentialBundle (encoded : string) : result goerr CredentialBundle :=
  decode_blocks credentialPEMTypes encoded ≫= fun '(blocks, remaining) =>
  decode_continuity remaining ≫= fun continuity =>
  decode_identity blocks continuity.
End Codec.

(** ** The agent and its surroundings *)

(** What surrounds one action of the agent: the clock, its context, what reading
    and writing the file comes to, the keys it generates, and the replies of the
    control plane, which may be anything. *)
Record AgentEnv := mkAgentEnv {
  av_now : time;
  av_ctx : option goerr;
  av_read : option goerr;
  av_write : commit_outcome;
  av_key : result goerr SigningKey;
  av_csr : result goerr string;
  av_sealing : result goerr SealingKey;
  av_reply : result goerr (option CredentialResponse);
  av_confirm : result goerr unit;
}.

(** The memory of the agent's process: the sealing key that an unfinished renewal
    keeps, and whether the renewal loop runs. *)
Record AgentMemory := mkAgentMemory { am_sealing : option SealingKey; am_running : bool }.

(** The credential file, the memory of the process, the requests for credentials
    that were sent, the confirmations that the control plane acknowledged, and the
    delays that the renewal loop waited for. *)
Record AgentWorld := mkAgentWorld {
  aw_file : option string;
  aw_memory : AgentMemory;
  aw_requests : list string;
  aw_acks : list ConfirmTrustStateRequest;
  aw_waits : list Z;
}.
Definition with_file (file : option string) (w : AgentWorld) : AgentWorld :=
  mkAgentWorld file (aw_memory w) (aw_requests w) (aw_acks w) (aw_waits w).
Definition with_memory (m : AgentMemory) (w : AgentWorld) : AgentWorld :=
  mkAgentWorld (aw_file w) m (aw_requests w) (aw_acks w) (aw_waits w).

Notation AgentProg A := (prog AgentEnv AgentWorld (result goerr A)).

(** Look at the surroundings only. *)
Definition observe {A} (f : AgentEnv -> result goerr A) : AgentProg A := look (fun env _ => f env).
Definition check_context : AgentProg unit := observe (fun env => match av_ctx env with None => Ok tt | Some e => Err e end).

(** [fsafe.WriteFileNew] and [fsafe.WriteFileAtomic]: all or nothing, but an error may
    come after the file is in place. *)
Definition write_file (new : bool) (encoded : string) : AgentProg unit :=
  act (fun env w =>
    if new && bool_decide (is_Some (aw_file w)) then (w, Err (EMsg "fsafe: file exists"))
    else match av_write env with
         | Committed => (with_file (Some encoded) w, Ok tt)
         | CommitFailed e => (w, Err e)
         | CommitLost e => (with_file (Some encoded) w, Err e)
         end).

(** [fsafe.ReadRootFile]. *)
Definition read_file : AgentProg string :=
  look (fun env w =>
    match av_read env with
    | Some e => Err e
    | None => or_err (aw_file w) (ESentinel "file does not exist") ≫= fun encoded =>
              fail_if (maxCredentialBundleBytes <? len encoded) (EMsg "fsafe: file is too large") ≫= fun _ => Ok encoded
    end).

(** The context of an error from a program. *)
Definition wrap_prog {A} (m : string) (p : AgentProg A) : AgentProg A := bind_prog p (fun r => Ret (wrap_err (EWrap m) r)).

Section Store.
Context {x509 : X509} {schemes : Schemes} {x25519 : X25519} {chain : ChainVerify} {codec : CredentialCodec}.

(** agent/internal/enroll/store.go:75-96 [FileCredentialStore.Create] *)
Definition FileCreate (bundle : CredentialBundle) : AgentProg unit :=
  try_prog check_context (fun _ =>
  try_prog (observe (fun env => wrap_err (EWrap "enroll: validate credential bundle") (validateCredentialBundle bundle (av_now env)))) (fun _ =>
  try_prog (Ret (encodeCredentialBundle bundle)) (fun encoded =>
  wrap_prog "enroll: create credential bundle" (write_file true encoded)))).

(** agent/internal/enroll/store.go:100-122 [FileCredentialStore.Load] *)
Definition FileLoad : AgentProg CredentialBundle :=
  try_prog check_context (fun _ =>
  try_prog (wrap_prog "enroll: read credential bundle" read_file) (fun encoded =>
  try_prog (Ret (decodeStoredCredentialBundle encoded)) (fun bundle =>
  try_prog (observe (fun env => wrap_err (EWrap "enroll: validate stored credential bundle") (validateStoredCredentialBundle bundle (av_now env)))) (fun _ =>
  Ret (Ok bundle))))).

(** agent/internal/enroll/store.go:125-146 [FileCredentialStore.Replace] *)
Definition FileReplace (bundle : CredentialBundle) : AgentProg unit :=
  try_prog check_context (fun _ =>
  try_prog (observe (fun env => wrap_err (EWrap "enroll: validate renewed credential bundle") (validateCredentialBundle bundle (av_now env)))) (fun _ =>
  try_prog (Ret (encodeCredentialBundle bundle)) (fun encoded =>
  wrap_prog "enroll: replace credential bundle" (write_file false encoded)))).
End Store.

(** ** The file holds what was encoded *)

Section RoundTrip.
Context {x509 : X509} {schemes : Schemes} {x25519 : X25519} {chain : ChainVerify} {codec : CredentialCodec} {laws : CodecLaws}.

(** A bundle of generation zero is not written. *)
Definition settle_bundle (b : StoredTrustBundle) : StoredTrustBundle := if sb_Generation b =? 0 then no_trust_bundle else b.
Definition settle (b : CredentialBundle) : CredentialBundle :=
  mkCredentialBundle (bd_DeviceID b) (bd_CertificateDER b) (bd_CertificateAuthorityDER b) (bd_GatewayCertificateAuthorityDER b)
    (bd_PrivateKey b) (bd_SealingPrivateKey b) (settle_bundle (bd_AgentTrustBundle b)) (settle_bundle (bd_GatewayTrustBundle b))
    (bd_PendingAgent b) (bd_PendingGateway b).

Lemma parse_exact_nonempty der c : parseExactCertificate der = Ok c -> der <> ""%string.
Proof. intros (c' & H%or_err_ok & _)%bind_ok ->. by rewrite empty_certificate in H. Qed.

Lemma anchor_parses gatewayDER agentDER now :
  validateGatewayTrustAnchor gatewayDER agentDER now = Ok tt -> exists c, parseExactCertificate gatewayDER = Ok c.
Proof. intros (c & H%wrap_err_ok & _)%bind_ok. by exists c. Qed.

Lemma response_parses certificateDER authorityDER key pin now deviceID :
  validateEnrollmentResponse certificateDER authorityDER key pin now = Ok deviceID ->
  (exists a, parseExactCertificate authorityDER = Ok a)
  /\ exists c, parseExactCertificate certificateDER = Ok c /\ publicKeysEqual (PublicKey c) key = true
       /\ ParseCertificateIdentity (Some c) = Ok (AgentClass, deviceID).
Proof.
  unfold validateEnrollmentResponse. intros H.
  apply bind_ok in H as (a & Ha%wrap_err_ok & H).
  do 4 (apply bind_ok in H as (? & _ & H)). apply bind_ok in H as (c & Hc%wrap_err_ok & H).
  apply bind_ok in H as (? & Hk%fail_if_ok%negb_false_iff & H). apply bind_ok in H as ([class id] & Hi%wrap_err_ok & H).
  apply bind_ok in H as (? & Hcl%fail_if_ok%negb_false_iff%String.eqb_eq & H). subst class.
  do 2 (apply bind_ok in H as (? & _ & H)). injection H as ->. eauto 10.
Qed.

(** What a bundle that may be written consists of. *)
Lemma validated_parts bundle now :
  validateCredentialBundle bundle now = Ok tt ->
  is_nil_signer (bd_PrivateKey bundle) = false
  /\ (exists a, parseExactCertificate (bd_CertificateAuthorityDER bundle) = Ok a)
  /\ (exists g, parseExactCertificate (bd_GatewayCertificateAuthorityDER bundle) = Ok g)
  /\ (exists c, parseExactCertificate (bd_CertificateDER bundle) = Ok c
        /\ publicKeysEqual (PublicKey c) (signer_public (bd_PrivateKey bundle)) = true
        /\ ParseCertificateIdentity (Some c) = Ok (AgentClass, bd_DeviceID bundle))
  /\ validateCredentialContinuity bundle now = Ok tt.
Proof.
  intros H. apply bind_ok in H as (sealing & Hown & H). apply bind_ok in Hown as (_ & Hnil%fail_if_ok & _).
  apply bind_ok in H as (id & Hr & H). apply bind_ok in H as (_ & Hid%fail_if_ok%negb_false_iff%String.eqb_eq & H).
  apply bind_ok in H as ([] & Hg & H). apply bind_ok in H as (_ & _ & H). apply bind_ok in H as ([] & Hc & _).
  apply response_parses in Hr as [Ha Hcert]. subst id. apply anchor_parses in Hg. done.
Qed.

(** Both bundles have a generation, or nothing of them is to be written. *)
Lemma continuity_whole bundle now :
  validateCredentialContinuity bundle now = Ok tt ->
  (has_continuity bundle = true /\ absent_bundle (bd_AgentTrustBundle bundle) && absent_bundle (bd_GatewayTrustBundle bundle) = false
   /\ settle bundle = bundle)
  \/ (has_continuity bundle = false /\ bd_PendingAgent bundle = None /\ bd_PendingGateway bundle = None
      /\ sb_Generation (bd_AgentTrustBundle bundle) = 0 /\ sb_Generation (bd_GatewayTrustBundle bundle) = 0).
Proof.
  unfold validateCredentialContinuity. intros H.
  destruct (absent_bundle (bd_AgentTrustBundle bundle)) eqn:Ea, (absent_bundle (bd_GatewayTrustBundle bundle)) eqn:Eg; cbn [andb orb] in H; [|done..|].
  - right. apply fail_if_ok in H as [Ha Hg]%orb_false_iff. unfold has_continuity. rewrite Ha, Hg.
    unfold absent_bundle in *. apply andb_prop in Ea as [Ea _], Eg as [Eg _]. rewrite Ea, Eg. apply Z.eqb_eq in Ea, Eg.
    apply bool_decide_eq_false in Ha, Hg. rewrite <- eq_None_not_Some in Ha, Hg. done.
  - left. apply bind_ok in H as ([] & Ha%wrap_err_ok & H). apply bind_ok in H as ([] & Hg%wrap_err_ok & _).
    apply bind_ok in Ha as ([] & Ha & _), Hg as ([] & Hg & _).
    apply bind_ok in Ha as ([] & Ha%fail_if_ok & _), Hg as ([] & Hg%fail_if_ok & _).
    split_and!; [|done|]; [by unfold has_continuity; rewrite Ha|]. unfold settle, settle_bundle. rewrite Ha, Hg. by destruct bundle.
Qed.
Definition begins (text : string) : Prop := text = ""%string \/ has_prefix "-----BEGIN " text = true.

Lemma begins_blocks following blocks :
  Forall (fun block => block.1 ∈ blockPEMTypes) blocks -> begins following -> begins (encode_blocks following blocks).
Proof.
  intros [|[type data] rest Ht _] Hf; [done|]. right. destruct (pem_begins type data Ht) as [r Hr].
  apply has_prefix_spec. cbn [encode_blocks foldr fst snd]. rewrite Hr. unfold begin_line. rewrite !text_app_assoc. by eexists.
Qed.

(** Blocks decode to the data they were encoded from. *)
Lemma decode_encoded_blocks following blocks :
  Forall (fun block => block.1 ∈ blockPEMTypes /\ block.2 <> ""%string) blocks -> begins following ->
  decode_blocks blocks.*1 (encode_blocks following blocks) = Ok (blocks.*2, following).
Proof.
  intros Hall Hf. induction blocks as [|[type data] blocks IH]; [done|].
  apply Forall_cons in Hall as [[Ht Hd] Hall]. cbn [fst snd] in Ht, Hd. specialize (IH Hall).
  cbn [fmap list_fmap encode_blocks foldr fst snd decode_blocks]. fold (encode_blocks following blocks).
  rewrite (pem_round type data _ Ht Hd) by (apply begins_blocks; [|done]; by eapply Forall_impl; [exact Hall|intros ? [? _]]).
  destruct (pem_begins type data Ht) as [r Hr].
  replace (has_prefix _ _) with true by (symmetry; apply has_prefix_spec; rewrite Hr, text_app_assoc; by eexists).
  cbn [negb fail_if or_err mbind result_bind pb_Type pb_Headers pb_Bytes]. rewrite String.eqb_refl.
  replace (len data =? 0) with false by (symmetry; apply Z.eqb_neq; by destruct data).
  cbn [negb orb fail_if mbind result_bind]. change (list_fmap _ _ fst blocks) with blocks.*1. rewrite IH. done.
Qed.

Lemma decode_identity_encoded bundle now privateKeyDER sealing sealingDER continuity :
  validateCredentialBundle bundle now = Ok tt -> bd_SealingPrivateKey bundle = Some sealing ->
  ParsePKCS8 privateKeyDER = Some (PKSigner (bd_PrivateKey bundle)) -> ParsePKCS8 sealingDER = Some (PKSealing sealing) ->
  decode_identity [bd_CertificateDER bundle; privateKeyDER; bd_CertificateAuthorityDER bundle; bd_GatewayCertificateAuthorityDER bundle; sealingDER] continuity
  = Ok (mkCredentialBundle (bd_DeviceID bundle) (bd_CertificateDER bundle) (bd_CertificateAuthorityDER bundle)
          (bd_GatewayCertificateAuthorityDER bundle) (bd_PrivateKey bundle) (bd_SealingPrivateKey bundle)
          (default no_trust_bundle (so_AgentTrustBundle continuity)) (default no_trust_bundle (so_GatewayTrustBundle continuity))
          (so_PendingAgent continuity) (so_PendingGateway continuity)).
Proof.
  intros (Hnil & [a Ha] & [g Hg] & (c & Hc & Hk & Hi) & _)%validated_parts Hs Hp1 Hp2.
  unfold decode_identity. rewrite Hc. cbn [wrap_err mbind result_bind]. rewrite Hi. cbn [wrap_err mbind result_bind].
  rewrite String.eqb_refl, Hp1. cbn [negb fail_if or_err mbind result_bind]. rewrite Hnil. cbn [negb fail_if or_err mbind result_bind].
  rewrite Hk, Ha, Hg, Hp2, Hs. done.
Qed.

(** What was encoded from a valid bundle decodes to it. *)
Lemma encoded_decodes bundle now encoded :
  validateCredentialBundle bundle now = Ok tt -> encodeCredentialBundle bundle = Ok encoded ->
  decodeStoredCredentialBundle encoded = Ok (settle bundle).
Proof.
  intros Hv He. pose proof (validated_parts _ _ Hv) as (_ & [a Ha] & [g Hg] & (c & Hc & _) & Hcont).
  apply bind_ok in He as (privateKeyDER & [Hp1 Hp1']%or_err_ok%pkcs8_signer & He).
  apply bind_ok in He as (sealingDER & Hs%or_err_ok & He). apply bind_Some in Hs as (sealing & Hs & [Hp2 Hp2']%pkcs8_sealing).
  set (blocks := zip credentialPEMTypes _) in He.
  assert (Forall (fun block => block.1 ∈ blockPEMTypes /\ block.2 <> ""%string) blocks) as Hall.
  { repeat apply Forall_cons_2; try apply Forall_nil_2; (split; [set_solver|]); cbn [snd]; try done; by eapply parse_exact_nonempty. }
  assert (forall following continuity, begins following -> decode_continuity following = Ok continuity ->
    decodeStoredCredentialBundle (encode_blocks following blocks) = decode_identity blocks.*2 continuity) as Hdec.
  { intros following continuity Hb Hd. unfold decodeStoredCredentialBundle.
    change credentialPEMTypes with blocks.*1. rewrite (decode_encoded_blocks _ _ Hall Hb). cbn [mbind result_bind]. by rewrite Hd. }
  apply bind_ok in He as (all & Hb & [= <-]).
  destruct (continuity_whole _ _ Hcont) as [(Hhas & Habs & Hset)|(Hhas & Hpa & Hpg & Hga & Hgg)]; rewrite Hhas in Hb.
  - apply bind_ok in Hb as (text & [Hne Hround]%or_err_ok%json_round & [= <-]).
    change (decodeStoredCredentialBundle (encode_blocks (encode_blocks "" [(continuityPEMType, text)]) blocks) = Ok (settle bundle)).
    rewrite (Hdec _ (continuity_of bundle)).
    + rewrite (decode_identity_encoded _ _ _ sealing _ _ Hv Hs Hp1' Hp2'). cbn. rewrite Hset. by destruct bundle.
    + apply begins_blocks; [|by left]. repeat constructor.
    + assert (continuityPEMType ∈ blockPEMTypes) as Hin by set_solver. destruct (pem_begins _ text Hin) as [r Hr].
      cbn [encode_blocks foldr fst snd]. unfold decode_continuity. rewrite (pem_round _ _ _ Hin Hne (or_introl eq_refl)), Hr.
      replace (len _ =? 0) with false by done.
      replace (has_prefix _ _) with true by (symmetry; apply has_prefix_spec; rewrite text_app_assoc; by eexists).
      cbn [negb fail_if or_err mbind result_bind pb_Type pb_Headers pb_Bytes]. rewrite String.eqb_refl.
      replace (len text =? 0) with false by (symmetry; apply Z.eqb_neq; by destruct text).
      cbn [negb orb fail_if or_err mbind result_bind]. rewrite Hround. cbn. by rewrite Habs.
  - injection Hb as <-. rewrite (Hdec _ (mkStoredCredentialContinuity None None None None)) by (done || by left).
    rewrite (decode_identity_encoded _ _ _ sealing _ _ Hv Hs Hp1' Hp2'). unfold settle, settle_bundle. cbn. by rewrite Hga, Hgg, Hpa, Hpg.
Qed.

(** C12. The credential file that [Create] or [Replace] writes for a bundle that
    they accept decodes, in [Load], to that same bundle: identity, certificates,
    keys, the trust bundles of both classes and both pending confirmations. *)
Theorem credential_file_round_trips bundle now encoded :
  validateCredentialBundle bundle now = Ok tt -> encodeCredentialBundle bundle = Ok encoded ->
  decodeStoredCredentialBundle encoded = Ok (settle bundle).
Proof. intros Hv He. by apply (encoded_decodes _ now). Qed.
End RoundTrip.

(** ** A concrete agent *)

Module AgentExample.

Definition device : string := "01ARZ3NDEKTSV4RRFFQ69G5FAV".

(** Keys are told apart by their points; names of authorities are their DER. *)
Definition key (point : string) : SigningKey := KeyECDSAPublic (Some (mkECDSAPublicKey P256 Fine point)).
Definition agent_key : ECDSAPrivateKey := mkECDSAPrivateKey (mkECDSAPublicKey P256 Fine "agent") Fine Fine "agent".
Definition signed_authority (der subject issuer : string) : Certificate :=
  mkCertificate der subject issuer "" [] (Some 1) subject issuer true true 0 true 96 [] 0 (2000 * 24 * hour)
    (key subject) [] [] [] [] [] [] [] [].
Definition leaf (der issuer : string) : Certificate :=
  mkCertificate der "" issuer device [] (Some 5) "" issuer false true 0 false 1 [] 0 (365 * 24 * hour)
    (key "agent") [Some AgentSPIFFEURI] [] [] [ExtKeyUsageClientAuth] [] [] [] [].

(** Three authorities, a proof by the first of them for [successor], two
    certificates of the agent. *)
#[export] Instance x509 : X509 := {|
  ParseCertificate der :=
    if existsb (String.eqb der) ["agents"; "gateways"; "successor"; "strangers"; "others"] then Some (signed_authority der der der)
    else if String.eqb der "proof" then Some (signed_authority "proof" "successor" "agents")
    else if String.eqb der "first" then Some (leaf "first" "agents")
    else if String.eqb der "second" then Some (leaf "second" "agents")
    else if String.eqb der "third" then Some (leaf "third" "strangers") else None;
  CheckSignatureFrom child parent := String.eqb (RawIssuer child) (RawSubject parent);
  MarshalPKIXPublicKey k := match k with KeyECDSAPublic (Some p) => Some (ep_Point p) | _ => None end;
  unmarshalRawValues _ := None;
|}.
#[export] Instance schemes : Schemes := {|
  sha256 material := string_of_bytes (take 32 (material ++ repeat 0 32));
  signDigest _ _ := Ok "signed"%string;
  verifyASN1 _ _ signature := String.eqb signature "signed";
  verifyPKCS1v15 _ _ _ := false;
  parsesASN1 _ := true;
|}.
#[export] Instance x25519 : X25519 := {| NewPublicKey _ := true; ECDH_usable _ := true |}.
#[export] Instance chain : ChainVerify := fun certificate root _ => CheckSignatureFrom certificate root.

(** *** A text format: every byte is marked, a dash ends a text *)

Fixpoint escape (s : string) : string :=
  match s with EmptyString => "-"%string | String c s => String "+" (String c (escape s)) end.
Fixpoint unescape (s : string) : option (string * string) :=
  match s with
  | String mark rest =>
      if Ascii.eqb mark "-" then Some (""%string, rest)
      else match rest with
           | String c rest => '(data, rest) ← unescape rest; Some (String c data, rest)
           | EmptyString => None
           end
  | EmptyString => None
  end.

Lemma unescape_escape s rest : unescape (escape s +:+ rest) = Some (s, rest).
Proof.
  induction s as [|c s IH]; [done|].
  change (unescape (escape (String c s) +:+ rest)) with ('(data, r) ← unescape (escape s +:+ rest); Some (String c data, r)).
  by rewrite IH.
Qed.

Definition pack (l : list string) : string := foldr (fun s text => escape s +:+ text) ""%string l.
Fixpoint unpack (fuel : nat) (text : string) : option (list string) :=
  match text, fuel with
  | EmptyString, _ => Some []
  | _, O => None
  | _, S fuel => '(s, rest) ← unescape text; l ← unpack fuel rest; Some (s :: l)
  end.
Definition unpack_all (text : string) : option (list string) := unpack (String.length text) text.

Lemma length_pack l : (length l <= String.length (pack l))%nat.
Proof.
  induction l as [|s l IH]; [done|]. cbn [pack foldr length]. rewrite string_length_app. fold (pack l).
  assert (1 <= String.length (escape s))%nat by (destruct s; cbn; lia). lia.
Qed.

Lemma unpack_pack l : unpack_all (pack l) = Some l.
Proof.
  unfold unpack_all. pose proof (length_pack l) as Hl. revert Hl. generalize (String.length (pack l)) as fuel.
  induction l as [|s l IH]; intros fuel Hl; [by destruct fuel|]. destruct fuel as [|fuel]; [cbn in Hl; lia|].
  cbn [pack foldr]. fold (pack l).
  assert (exists c rest, escape s +:+ pack l = String c rest) as (c & rest & E) by (destruct s; by eexists _, _).
  rewrite E. cbn [unpack]. rewrite <- E, unescape_escape. cbn [mbind option_bind]. rewrite IH by (cbn in Hl; lia). done.
Qed.

Fixpoint bits (p : positive) : string :=
  match p with xH => "!"%string | xO p => String "0" (bits p) | xI p => String "1" (bits p) end.
Fixpoint of_bits (s : string) : option positive :=
  match s with
  | EmptyString => None
  | String c s => if Ascii.eqb c "!" then Some xH else p ← of_bits s; Some (if Ascii.eqb c "0" then xO p else xI p)
  end.
Lemma of_bits_bits p : of_bits (bits p) = Some p.
Proof. induction p as [p IH|p IH|]; cbn; [by rewrite IH|by rewrite IH|done]. Qed.
Definition number (z : Z) : string := bits (encode z).
Definition of_number (s : string) : option Z := of_bits s ≫= decode.
Lemma of_number_number z : of_number (number z) = Some z.
Proof. unfold of_number, number. rewrite of_bits_bits. apply decode_encode. Qed.

Definition bundle_fields (b : StoredTrustBundle) : list string :=
  [number (sb_Generation b); number (sb_Revision b); pack (sb_RootCertificateDER b); sb_TransitionCertificateDER b].
Definition of_bundle_fields (l : list string) : option StoredTrustBundle :=
  match l with
  | [g; r; roots; t] => g ← of_number g; r ← of_number r; roots ← unpack_all roots; Some (mkStoredTrustBundle g r roots t)
  | _ => None
  end.
Definition pending_fields (p : PendingTrustConfirmation) : list string :=
  [number (pf_Generation p); number (pf_Revision p); pack (pf_RootFingerprints p); pf_CRLIssuerFingerprint p; number (pf_CRLSequence p); pf_Signature p].
Definition of_pending_fields (l : list string) : option PendingTrustConfirmation :=
  match l with
  | [g; r; fps; i; q; s] =>
      g ← of_number g; r ← of_number r; fps ← unpack_all fps; q ← of_number q; Some (mkPendingTrustConfirmation g r fps i q s)
  | _ => None
  end.
Definition optional {A} (f : A -> list string) (o : option A) : string := match o with Some a => pack (f a) | None => ""%string end.
Definition of_optional {A} (f : list string -> option A) (s : string) : option (option A) :=
  if String.eqb s "" then Some None else l ← unpack_all s; a ← f l; Some (Some a).

Lemma of_optional_optional {A} f g (o : option A) :
  (forall a, g (f a) = Some a /\ f a <> []) -> of_optional g (optional f o) = Some o.
Proof.
  intros H. destruct o as [a|]; [|done]. destruct (H a) as [Hg Hn]. unfold of_optional, optional.
  replace (String.eqb (pack (f a)) "") with false by (destruct (f a) as [|[|c s] l]; done).
  rewrite unpack_pack. cbn [mbind option_bind]. by rewrite Hg.
Qed.

#[export] Instance ecdsa_public_eq : EqDecision ECDSAPublicKey.
Proof. unfold EqDecision, Decision. repeat decide equality. Defined.
#[export] Instance ecdsa_private_eq : EqDecision ECDSAPrivateKey.
Proof. unfold EqDecision, Decision. repeat decide equality. Defined.
#[export] Instance sealing_eq : EqDecision SealingKey.
Proof. solve_decision. Defined.

Definition first_sealing : SealingKey := mkSealingKey (repeat 9 32) "first scalar".
Definition next_sealing : SealingKey := mkSealingKey (repeat 8 32) "next scalar".

Fixpoint strip (prefix s : string) : option string :=
  match prefix, s with
  | EmptyString, _ => Some s
  | String a prefix, String b s => if Ascii.eqb a b then strip prefix s else None
  | _, EmptyString => None
  end.
Lemma strip_app prefix s : strip prefix (prefix +:+ s) = Some s.
Proof. induction prefix as [|a p IH]; [done|]. change (strip (String a p) (String a p +:+ s)) with (if Ascii.eqb a a then strip p (p +:+ s) else None). by rewrite Ascii.eqb_refl. Qed.

Fixpoint decode_types (types : list string) (text : string) : option (PEMBlock * string) :=
  match types with
  | [] => None
  | type :: types =>
      match strip (begin_line type) text with
      | Some body => '(data, rest) ← unescape body; Some (mkPEMBlock type false data, rest)
      | None => decode_types types text
      end
  end.

#[export] Instance codec : CredentialCodec := {|
  pem_Encode type data := begin_line type +:+ escape data;
  pem_Decode := decode_types blockPEMTypes;
  MarshalPKCS8Signer k :=
    match k with KeyECDSAPrivate (Some k) => if decide (k = agent_key) then Some "signer"%string else None | _ => None end;
  MarshalPKCS8Sealing k :=
    if decide (k = first_sealing) then Some "first seal"%string else if decide (k = next_sealing) then Some "next seal"%string else None;
  ParsePKCS8 der :=
    if String.eqb der "signer" then Some (PKSigner (KeyECDSAPrivate (Some agent_key)))
    else if String.eqb der "first seal" then Some (PKSealing first_sealing)
    else if String.eqb der "next seal" then Some (PKSealing next_sealing) else None;
  json_MarshalContinuity v :=
    Some (pack [optional bundle_fields (so_AgentTrustBundle v); optional bundle_fields (so_GatewayTrustBundle v);
                optional pending_fields (so_PendingAgent v); optional pending_fields (so_PendingGateway v)]);
  json_DecodeContinuity text :=
    l ← unpack_all text;
    match l with
    | [a; g; p; q] =>
        a ← of_optional of_bundle_fields a; g ← of_optional of_bundle_fields g;
        p ← of_optional of_pending_fields p; q ← of_optional of_pending_fields q;
        Some (mkStoredCredentialContinuity a g p q, true)
    | _ => None
    end;
|}.

Lemma bundle_fields_round b : of_bundle_fields (bundle_fields b) = Some b /\ bundle_fields b <> [].
Proof. split; [|done]. destruct b. cbn [of_bundle_fields bundle_fields]. rewrite !of_number_number. cbn [mbind option_bind]. by rewrite unpack_pack. Qed.
Lemma pending_fields_round p : of_pending_fields (pending_fields p) = Some p /\ pending_fields p <> [].
Proof. split; [|done]. destruct p. cbn [of_pending_fields pending_fields]. rewrite !of_number_number. cbn [mbind option_bind].
  by rewrite unpack_pack. Qed.

Lemma types_apart type data rest :
  type ∈ blockPEMTypes -> decode_types blockPEMTypes (begin_line type +:+ escape data +:+ rest) = Some (mkPEMBlock type false data, rest).
Proof.
  intros Ht. repeat (apply elem_of_cons in Ht as [->|Ht]; [|]); [..|by apply elem_of_nil in Ht];
    cbn [decode_types blockPEMTypes credentialPEMTypes app]; rewrite strip_app, unescape_escape; reflexivity.
Qed.

#[export] Instance laws : CodecLaws.
Proof.
  split.
  - intros type data _. by eexists.
  - intros type data rest Ht _ _. cbn [pem_Encode pem_Decode codec]. rewrite text_app_assoc. by apply types_apart.
  - intros k der. cbn. destruct k as [| |[k|]| | | | |]; try done. destruct (decide (k = agent_key)) as [->|]; [|done]. by intros [= <-].
  - intros k der. cbn. destruct (decide (k = first_sealing)) as [->|]; [by intros [= <-]|].
    destruct (decide (k = next_sealing)) as [->|]; [by intros [= <-]|done].
  - intros v text. cbn [json_MarshalContinuity json_DecodeContinuity codec]. intros <-%(inj Some).
    split; [cbn [pack foldr]; by destruct (optional bundle_fields (so_AgentTrustBundle v))|]. rewrite unpack_pack. cbn [mbind option_bind].
    rewrite !(of_optional_optional _ _ _ bundle_fields_round). cbn [mbind option_bind].
    rewrite !(of_optional_optional _ _ _ pending_fields_round). by destruct v.
  - done.
Qed.

Definition now : time := 100 * 24 * hour.
Definition pending (class : string) (roots : list string) : PendingTrustConfirmation :=
  mkPendingTrustConfirmation 1 1 (fingerprintsForRoots roots) "" 0 "signed".

(** The credentials of a fresh enrollment. *)
Definition enrolled : CredentialBundle :=
  mkCredentialBundle device "first" "agents" "gateways" (KeyECDSAPrivate (Some agent_key)) (Some first_sealing)
    (mkStoredTrustBundle 1 1 ["agents"%string] "") (mkStoredTrustBundle 1 1 ["gateways"%string] "")
    (Some (pending "agent" ["agents"%string])) (Some (pending "gateway" ["gateways"%string])).
Definition enrolled_file : string := match encodeCredentialBundle enrolled with Ok text => text | Err _ => ""%string end.
End AgentExample.
Import AgentExample.

Lemma credential_file_round_trips_witness : decodeStoredCredentialBundle enrolled_file = Ok enrolled.
Proof.
  assert (settle enrolled = enrolled) as Hs by (vm_compute; reflexivity). rewrite <- Hs.
  apply (credential_file_round_trips enrolled now); vm_compute; reflexivity.
Defined.
