(* ===== verification/AgentClient.v ===== *)
(** * [agent/internal/enroll/client.go]: enrollment and renewal

    The calls of the agent's client as programs of atomic actions: reading and
    replacing the credential file, generating keys, and the exchanges with the
    control plane, whose replies may be anything.  The client and its store are
    wired. *)

From Stdlib Require Import Ascii String ZArith Lia.
From S2P Require Export AgentStore.

(** The first error of several. *)
Definition first_error (first : option goerr) (e : goerr) : option goerr := match first with Some f => Some f | None => Some e end.

Definition append_request (csr : string) (w : AgentWorld) : AgentWorld :=
  mkAgentWorld (aw_file w) (aw_memory w) (aw_requests w ++ [csr]) (aw_acks w) (aw_waits w).
Definition acknowledge (request : ConfirmTrustStateRequest) (w : AgentWorld) : AgentWorld :=
  mkAgentWorld (aw_file w) (aw_memory w) (aw_requests w) (aw_acks w ++ [request]) (aw_waits w).
Definition with_sealing (key : option SealingKey) (w : AgentWorld) : AgentWorld :=
  with_memory (mkAgentMemory key (am_running (aw_memory w))) w.

(** [remote.EnrollAgent] and [remote.RenewAgent] with a signing request. *)
Definition request_credentials (m csr : string) : AgentProg (option CredentialResponse) :=
  act (fun env w => (append_request csr w, wrap_err (EWrap m) (av_reply env))).

(** [remote.ConfirmAgentTrustState]. *)
Definition confirm_remote (request : ConfirmTrustStateRequest) : AgentProg unit :=
  act (fun env w => match av_confirm env with Ok _ => (acknowledge request w, Ok tt) | Err e => (w, Err e) end).

(** [c.pendingRenewalSealingKey], generated unless an unfinished renewal left one. *)
Definition renewal_sealing_key : AgentProg SealingKey :=
  act (fun env w => match am_sealing (aw_memory w) with
                    | Some key => (w, Ok key)
                    | None => match av_sealing env with
                              | Ok key => (with_sealing (Some key) w, Ok key)
                              | Err e => (w, Err (EWrap "enroll: generate renewed sealing private key" e))
                              end
                    end).
Definition clear_sealing_key : AgentProg unit := act (fun _ w => (with_sealing None w, Ok tt)).

Section Client.
Context {x509 : X509} {schemes : Schemes} {x25519 : X25519} {chain : ChainVerify} {codec : CredentialCodec}.

(** agent/internal/enroll/continuity.go:279-311 [Client.sendPendingConfirmations], one
    class; the bundle is the one the caller holds, with what was acknowledged
    cleared *)
Definition send_pending (class : string) (bundle : CredentialBundle) (firstErr : option goerr)
    : prog AgentEnv AgentWorld (CredentialBundle * option goerr) :=
  match pending_of class bundle with
  | None => Ret (bundle, firstErr)
  | Some pending =>
      match pendingTrustRequest bundle class pending with
      | Err e => Ret (bundle, first_error firstErr (EWrap "enroll: validate pending trust confirmation" e))
      | Ok request =>
          bind_prog (confirm_remote request) (fun r =>
          match r with
          | Err e => Ret (bundle, first_error firstErr e)
          | Ok _ =>
              bind_prog (FileReplace (with_pending class None bundle)) (fun r =>
              Ret (match r with
                   | Ok _ => (with_pending class None bundle, firstErr)
                   | Err e => (bundle, first_error firstErr (EWrap "enroll: clear acknowledged trust confirmation" e))
                   end))
          end)
      end
  end.

(** agent/internal/enroll/continuity.go:277-312 [Client.sendPendingConfirmations] *)
Definition sendPendingConfirmations (bundle : CredentialBundle) : prog AgentEnv AgentWorld (CredentialBundle * option goerr) :=
  bind_prog (send_pending "agent" bundle None) (fun '(bundle, firstErr) => send_pending "gateway" bundle firstErr).

(** The end of a call that returns the error of the confirmations. *)
Definition confirmations_sent {A} (a : A) (r : CredentialBundle * option goerr) : AgentProg A :=
  Ret (match r.2 with Some e => Err e | None => Ok a end).

(** A reply carries both bundles or none. *)
Definition carries_bundles (response : CredentialResponse) : result goerr bool :=
  let hasAgentBundle := bool_decide (is_Some (cp_AgentTrustBundle response)) in
  let hasGatewayBundle := bool_decide (is_Some (cp_GatewayTrustBundle response)) in
  fail_if (xorb hasAgentBundle hasGatewayBundle) (EMsg "enroll: agent and gateway CA bundles must be published atomically") ≫= fun _ =>
  Ok hasAgentBundle.

(** ** Enrollment *)

(** agent/internal/enroll/client.go:143-186 [Client.Enroll], the credentials of a reply with
    bundles *)
Definition enrolled_bundle (response : CredentialResponse) (privateKey : SigningKey) (sealing : SealingKey) (pin : string) (now : time)
    : result goerr CredentialBundle :=
  storedTrustBundle (cp_AgentTrustBundle response) (cp_CertificateAuthorityDer response) no_trust_bundle now ≫= fun agentTrust =>
  storedTrustBundle (cp_GatewayTrustBundle response) (cp_GatewayCertificateAuthorityDer response) no_trust_bundle now ≫= fun gatewayTrust =>
  validateSeparatedTrustBundles agentTrust gatewayTrust ≫= fun _ =>
  fail_if (negb (len pin =? 0) && negb (bool_decide (Sum256 <$> head (sb_RootCertificateDER agentTrust) = Some pin)))
    (EMsg "enroll: certificate authority fingerprint mismatch") ≫= fun _ =>
  selectIssuingRoot (cp_CertificateDer response) agentTrust ≫= fun issuingRoot =>
  validateEnrollmentResponse (cp_CertificateDer response) issuingRoot (signer_public privateKey) "" now ≫= fun deviceID =>
  let bundle := mkCredentialBundle deviceID (cp_CertificateDer response) issuingRoot (hd ""%string (sb_RootCertificateDER gatewayTrust))
                  privateKey (Some sealing) agentTrust gatewayTrust None None in
  newPendingTrustConfirmation bundle "agent" agentTrust ≫= fun pendingAgent =>
  let bundle := with_pending "agent" (Some pendingAgent) bundle in
  newPendingTrustConfirmation bundle "gateway" gatewayTrust ≫= fun pendingGateway =>
  Ok (with_pending "gateway" (Some pendingGateway) bundle).

(** agent/internal/enroll/client.go:196-224 [Client.storeLegacyEnrollment] *)
Definition storeLegacyEnrollment (response : CredentialResponse) (privateKey : SigningKey) (sealing : SealingKey) (pin : string) : AgentProg string :=
  try_prog (observe (fun env =>
    validateEnrollmentResponse (cp_CertificateDer response) (cp_CertificateAuthorityDer response) (signer_public privateKey) pin (av_now env))) (fun deviceID =>
  try_prog (observe (fun env =>
    validateGatewayTrustAnchor (cp_GatewayCertificateAuthorityDer response) (cp_CertificateAuthorityDer response) (av_now env))) (fun _ =>
  try_prog (wrap_prog "enroll: store credentials" (FileCreate
    (mkCredentialBundle deviceID (cp_CertificateDer response) (cp_CertificateAuthorityDer response)
       (cp_GatewayCertificateAuthorityDer response) privateKey (Some sealing) no_trust_bundle no_trust_bundle None None))) (fun _ =>
  Ret (Ok deviceID)))).

(** agent/internal/enroll/client.go:105-194 [Client.Enroll], without usable credentials; the
    identifier that accompanies an error is dropped *)
Definition enroll_fresh (token caFingerprint : string) : AgentProg string :=
  try_prog (Ret (fail_if ((len token =? 0) || (maxRegistrationTokenBytes <? len token)) (EMsg "enroll: registration token is invalid"))) (fun _ =>
  try_prog (Ret (parseCAFingerprint caFingerprint)) (fun pin =>
  try_prog (observe (fun env => wrap_err (EWrap "enroll: generate mTLS private key") (av_key env))) (fun privateKey =>
  try_prog (observe (fun env => wrap_err (EWrap "enroll: create certificate signing request") (av_csr env))) (fun csrDER =>
  try_prog (observe (fun env => wrap_err (EWrap "enroll: generate sealing private key") (av_sealing env))) (fun sealing =>
  try_prog (request_credentials "enroll: PkiService enrollment" csrDER) (fun response =>
  try_prog (Ret (or_err response (EMsg "enroll: PkiService returned an empty response"))) (fun response =>
  try_prog (Ret (carries_bundles response)) (fun hasBundles =>
  if negb hasBundles then storeLegacyEnrollment response privateKey sealing pin
  else
    try_prog (observe (fun env => enrolled_bundle response privateKey sealing pin (av_now env))) (fun bundle =>
    try_prog (wrap_prog "enroll: store credentials" (FileCreate bundle)) (fun _ =>
    bind_prog (sendPendingConfirmations bundle) (confirmations_sent (bd_DeviceID bundle)))))))))))).

(** agent/internal/enroll/client.go:84-194 [Client.Enroll] *)
Definition Enroll (token caFingerprint : string) : AgentProg string :=
  try_prog check_context (fun _ =>
  bind_prog FileLoad (fun loaded =>
  match loaded with
  | Ok existing =>
      if len (bd_CertificateDER existing) =? 0 then enroll_fresh token caFingerprint
      else
        try_prog (observe (fun env => wrap_err (EWrap "enroll: validate locally committed enrollment")
                                        (validateStoredCredentialBundle existing (av_now env)))) (fun _ =>
        match bd_PendingAgent existing, bd_PendingGateway existing with
        | None, None => enroll_fresh token caFingerprint
        | _, _ => bind_prog (sendPendingConfirmations existing) (confirmations_sent (bd_DeviceID existing))
        end)
  | Err _ => enroll_fresh token caFingerprint
  end)).

(** ** Renewal *)

(** agent/internal/enroll/client.go:284-326 [Client.Renew], the credentials of a reply with
    bundles *)
Definition renewed_bundle (current : CredentialBundle) (response : CredentialResponse) (sealing : SealingKey) (now : time)
    : result goerr CredentialBundle :=
  wrap_err (EWrap "enroll: validate renewal agent trust bundle")
    (storedTrustBundle (cp_AgentTrustBundle response) (cp_CertificateAuthorityDer response) (bd_AgentTrustBundle current) now) ≫= fun agentTrust =>
  wrap_err (EWrap "enroll: validate renewal gateway trust bundle")
    (storedTrustBundle (cp_GatewayTrustBundle response) (cp_GatewayCertificateAuthorityDer response) (bd_GatewayTrustBundle current) now) ≫= fun gatewayTrust =>
  validateSeparatedTrustBundles agentTrust gatewayTrust ≫= fun _ =>
  selectIssuingRoot (cp_CertificateDer response) agentTrust ≫= fun issuingRoot =>
  wrap_err (EWrap "enroll: validate renewal response")
    (validateEnrollmentResponse (cp_CertificateDer response) issuingRoot (signer_public (bd_PrivateKey current)) "" now) ≫= fun deviceID =>
  fail_if (negb (String.eqb deviceID (bd_DeviceID current))) (EMsg "enroll: renewed certificate device ID mismatch") ≫= fun _ =>
  let replacement := mkCredentialBundle (bd_DeviceID current) (cp_CertificateDer response) issuingRoot
                       (hd ""%string (sb_RootCertificateDER gatewayTrust)) (bd_PrivateKey current) (Some sealing) agentTrust gatewayTrust None None in
  newPendingTrustConfirmation replacement "agent" agentTrust ≫= fun pendingAgent =>
  let replacement := with_pending "agent" (Some pendingAgent) replacement in
  if equalStoredTrustBundles (bd_GatewayTrustBundle current) gatewayTrust then Ok replacement
  else newPendingTrustConfirmation replacement "gateway" gatewayTrust ≫= fun pendingGateway =>
       Ok (with_pending "gateway" (Some pendingGateway) replacement).

(** agent/internal/enroll/client.go:334-371 [Client.replaceLegacyRenewal] *)
Definition replaceLegacyRenewal (current : CredentialBundle) (sealing : SealingKey) (response : CredentialResponse) : AgentProg unit :=
  try_prog (observe (fun env => wrap_err (EWrap "enroll: validate renewal response")
    (validateEnrollmentResponse (cp_CertificateDer response) (cp_CertificateAuthorityDer response) (signer_public (bd_PrivateKey current)) "" (av_now env)))) (fun deviceID =>
  try_prog (Ret (fail_if (negb (String.eqb deviceID (bd_DeviceID current))) (EMsg "enroll: renewed certificate device ID mismatch"))) (fun _ =>
  try_prog (Ret (fail_if (negb (String.eqb (cp_CertificateAuthorityDer response) (bd_CertificateAuthorityDER current)))
    (EMsg "enroll: renewed certificate authority differs from enrolled authority"))) (fun _ =>
  try_prog (observe (fun env => wrap_err (EWrap "enroll: validate renewal gateway certificate authority")
    (validateGatewayTrustAnchor (cp_GatewayCertificateAuthorityDer response) (cp_CertificateAuthorityDer response) (av_now env)))) (fun _ =>
  try_prog (Ret (fail_if (negb (String.eqb (cp_GatewayCertificateAuthorityDer response) (bd_GatewayCertificateAuthorityDER current)))
    (EMsg "enroll: renewed gateway certificate authority differs from enrolled authority"))) (fun _ =>
  try_prog (wrap_prog "enroll: replace renewed credentials" (FileReplace
    (mkCredentialBundle (bd_DeviceID current) (cp_CertificateDer response) (cp_CertificateAuthorityDer response)
       (cp_GatewayCertificateAuthorityDer response) (bd_PrivateKey current) (Some sealing) no_trust_bundle no_trust_bundle None None))) (fun _ =>
  clear_sealing_key)))))).

(** agent/internal/enroll/client.go:250-332 [Client.Renew], after the pending confirmations *)
Definition renew_current (current : CredentialBundle) : AgentProg unit :=
  try_prog (observe (fun env => wrap_err (EWrap "enroll: create renewal certificate signing request") (av_csr env))) (fun csrDER =>
  try_prog renewal_sealing_key (fun sealing =>
  try_prog (request_credentials "enroll: PkiService renewal" csrDER) (fun response =>
  try_prog (Ret (or_err response (EMsg "enroll: PkiService returned an empty renewal response"))) (fun response =>
  try_prog (Ret (carries_bundles response)) (fun hasBundles =>
  if negb hasBundles then
    try_prog (Ret (fail_if (negb (sb_Generation (bd_AgentTrustBundle current) =? 0) || negb (sb_Generation (bd_GatewayTrustBundle current) =? 0))
      (EMsg "enroll: renewal omitted previously adopted CA trust bundles"))) (fun _ =>
    replaceLegacyRenewal current sealing response)
  else
    try_prog (observe (fun env => renewed_bundle current response sealing (av_now env))) (fun replacement =>
    try_prog (wrap_prog "enroll: replace renewed credentials" (FileReplace replacement)) (fun _ =>
    try_prog clear_sealing_key (fun _ =>
    bind_prog (sendPendingConfirmations replacement) (confirmations_sent tt))))))))).

(** agent/internal/enroll/client.go:228-332 [Client.Renew]: under the client's mutex *)
Definition Renew : AgentProg unit :=
  try_prog check_context (fun _ =>
  try_prog (wrap_prog "enroll: load credentials for renewal" FileLoad) (fun current =>
  try_prog (observe (fun env => wrap_err (EWrap "enroll: validate credentials for renewal") (validateStoredCredentialBundle current (av_now env)))) (fun _ =>
  bind_prog (sendPendingConfirmations current) (fun '(current, err) =>
  match err with
  | Some e => Ret (Err e)
  | None => renew_current current
  end)))).
End Client.
