(* ===== verification/AgentLoop.v ===== *)
(** * [agent/internal/enroll/renewal_loop.go], [relay.go]: when the agent acts

    The loop that renews at four fifths of a certificate's lifetime, and the relay
    through which a local user submits a registration token: its limit of attempts
    and what it answers. *)

From Stdlib Require Import Ascii String ZArith Lia.
From S2P Require Export AgentClient.

(** ** The renewal loop *)

(** agent/internal/enroll/renewal_loop.go:12-12 [renewalRetryDelay] *)
Definition renewalRetryDelay : Z := hour.

(** agent/internal/enroll/renewal_loop.go:117-128 [renewalDelay]; integer division
    truncates *)
Definition renewalDelay (certificate : option Certificate) (now : time) : Z :=
  match certificate with
  | None => 0
  | Some c =>
      if negb (NotBefore c <? NotAfter c) then 0
      else
        let lifetime := time_sub (NotAfter c) (NotBefore c) in
        let eightyPercent := wrap_s 64 (wrap_s 64 (Z.quot lifetime 5 * 4) + Z.quot (wrap_s 64 (Z.rem lifetime 5 * 4)) 5) in
        let renewAt := NotBefore c + eightyPercent in
        if negb (now <? renewAt) then 0 else time_sub renewAt now
  end.

(** agent/internal/enroll/renewal_loop.go:130-152 [waitForRenewal]: the context's error
    when it ends before the timer fires *)
Definition waitForRenewal (delay : Z) : AgentProg unit :=
  act (fun env w =>
    match av_ctx env with
    | Some e => (w, Err e)
    | None => (mkAgentWorld (aw_file w) (aw_memory w) (aw_requests w) (aw_acks w) (aw_waits w ++ [delay]), Ok tt)
    end).

Section Loop.
Context {x509 : X509} {schemes : Schemes} {x25519 : X25519} {chain : ChainVerify} {codec : CredentialCodec}.

(** agent/internal/enroll/renewal_loop.go:102-115 [RenewalLoop.loadCertificate] *)
Definition loadCertificate : AgentProg Certificate :=
  try_prog (wrap_prog "enroll: load credentials for renewal schedule" FileLoad) (fun bundle =>
  try_prog (Ret (wrap_err (EWrap "enroll: parse certificate for renewal schedule") (parseExactCertificate (bd_CertificateDER bundle)))) (fun certificate =>
  Ret (fail_if (negb (NotBefore certificate <? NotAfter certificate)) (EMsg "enroll: certificate has an invalid renewal lifetime")
       ≫= fun _ => Ok certificate))).

(** agent/internal/enroll/renewal_loop.go:76-98 [RenewalLoop.Run]: waiting for the
    schedule or, after a failure, for an hour, then renewing.  The code loops
    until an error ends it; here the attempts are counted down, and [Ok] is only
    returned when they are used up. *)
Fixpoint renewal_loop (renewals : nat) (certificate : Certificate) (retry : bool) : AgentProg unit :=
  match renewals with
  | O => Ret (Ok tt)
  | S renewals =>
      try_prog (if retry then Ret (Ok renewalRetryDelay) else observe (fun env => Ok (renewalDelay (Some certificate) (av_now env)))) (fun delay =>
      try_prog (waitForRenewal delay) (fun _ =>
      bind_prog Renew (fun renewed =>
      match renewed with
      | Ok _ => try_prog loadCertificate (fun certificate => renewal_loop renewals certificate false)
      | Err _ => try_prog check_context (fun _ => renewal_loop renewals certificate true)
      end)))
  end.

Definition with_running (running : bool) (w : AgentWorld) : AgentWorld := with_memory (mkAgentMemory (am_sealing (aw_memory w)) running) w.

(** agent/internal/enroll/renewal_loop.go:54-100 [RenewalLoop.Run] *)
Definition RenewalLoopRun (renewals : nat) : AgentProg unit :=
  try_prog (act (fun _ w => if am_running (aw_memory w) then (w, Err (EMsg "enroll: renewal loop is already running"))
                            else (with_running true w, Ok tt))) (fun _ =>
  bind_prog (try_prog loadCertificate (fun certificate => renewal_loop renewals certificate false)) (fun r =>
  bind_prog (act (fun _ w => (with_running false w, tt))) (fun _ => Ret r))).
End Loop.

(** ** The relay *)

(** agent/internal/enroll/relay.go:19-25 [localAttemptsPerMinute] *)
Definition localAttemptsPerMinute : Z := 5.
Definition maxLocalEnrollmentBytes : Z := 4096.

(** agent/internal/enroll/relay.go:28-29 [ErrLocalRateLimited] *)
Definition ErrLocalRateLimited : goerr := ESentinel "enroll: local enrollment rate limited".
Definition ErrEnrollmentRejected : goerr := ESentinel "enroll: enrollment rejected".

(** agent/internal/enroll/relay.go:275-281 [localRateLimiter.Allow], dropping what is a
    minute old *)
Fixpoint live_attempts (cutoff : time) (attempts : list time) : list time :=
  match attempts with
  | [] => []
  | t :: rest => if cutoff <? t then attempts else live_attempts cutoff rest
  end.

(** agent/internal/enroll/relay.go:271-287 [localRateLimiter.Allow] *)
Definition LocalAllow (attempts : list time) (now : time) : list time * bool :=
  let live := live_attempts (now - minute) attempts in
  if localAttemptsPerMinute <=? zlen live then (live, false) else (live ++ [now], true).

(** agent/internal/enroll/relay.go:214-217 [localEnrollmentRequest] *)
Record localEnrollmentRequest := mkLocalEnrollmentRequest { lq_Token : string; lq_CAFingerprint : string }.

(** agent/internal/enroll/relay.go:219-222 [localEnrollmentResponse] *)
Record localEnrollmentResponse := mkLocalEnrollmentResponse { ls_DeviceID : string; ls_Error : string }.

(** The strict decoding of one JSON value, with whether only that value is there. *)
Class RelayCodec := {
  json_DecodeRequest : string -> option (localEnrollmentRequest * bool);
  json_DecodeResponse : string -> option (localEnrollmentResponse * bool);
}.

Section Relay.
Context {x509 : X509} {schemes : Schemes} {x25519 : X25519} {chain : ChainVerify} {codec : CredentialCodec} {relay : RelayCodec}.

(** The bytes that the limited reader lets through, and whether they are all it
    would let through. *)
Definition limited (text : string) : string * bool :=
  (String.substring 0 (Z.to_nat (maxLocalEnrollmentBytes + 1)) text, maxLocalEnrollmentBytes <? len text).

(** agent/internal/enroll/relay.go:224-243 [decodeLocalEnrollmentRequest] *)
Definition decodeLocalEnrollmentRequest (text : string) : result goerr localEnrollmentRequest :=
  let '(text, full) := limited text in
  or_err (json_DecodeRequest text) (EMsg "malformed local request") ≫= fun '(request, only) =>
  fail_if (negb only) (EMsg "enroll: local request contains trailing data") ≫= fun _ =>
  fail_if (full || (len (lq_Token request) =? 0) || (maxRegistrationTokenBytes <? len (lq_Token request)))
    (EMsg "enroll: local request token is invalid") ≫= fun _ =>
  parseCAFingerprint (lq_CAFingerprint request) ≫= fun _ => Ok request.

Definition rejected : localEnrollmentResponse := mkLocalEnrollmentResponse "" "rejected".

(** agent/internal/enroll/relay.go:129-153 [Relay.handleConnection]: what is answered to
    the bytes that a connection carries *)
Definition handleConnection (text : string) (allowed : bool) : prog AgentEnv AgentWorld localEnrollmentResponse :=
  if negb allowed then Ret (mkLocalEnrollmentResponse "" "rate_limited")
  else match decodeLocalEnrollmentRequest text with
       | Err _ => Ret rejected
       | Ok request =>
           bind_prog (Enroll (lq_Token request) (lq_CAFingerprint request)) (fun r =>
           Ret (match r with
                | Ok deviceID => if IsCanonicalULID deviceID then mkLocalEnrollmentResponse deviceID "" else rejected
                | Err _ => rejected
                end))
       end.

(** agent/internal/enroll/relay.go:245-264 [decodeLocalEnrollmentResponse] *)
Definition decodeLocalEnrollmentResponse (text : string) : result goerr localEnrollmentResponse :=
  let '(text, full) := limited text in
  or_err (json_DecodeResponse text) (EMsg "malformed local response") ≫= fun '(response, only) =>
  fail_if (negb only) (ESentinel "enroll: local response contains trailing data") ≫= fun _ =>
  fail_if full (EMsg "enroll: local response is too large") ≫= fun _ =>
  fail_if (negb (len (ls_Error response) =? 0) && negb (len (ls_DeviceID response) =? 0))
    (EMsg "enroll: local response is ambiguous") ≫= fun _ => Ok response.

(** agent/internal/enroll/relay.go:164-169 [Submit], before it connects *)
Definition submit_request (token caFingerprint : string) : result goerr localEnrollmentRequest :=
  fail_if ((len token =? 0) || (maxRegistrationTokenBytes <? len token)) (EMsg "enroll: registration token is invalid") ≫= fun _ =>
  parseCAFingerprint caFingerprint ≫= fun _ => Ok (mkLocalEnrollmentRequest token caFingerprint).

(** agent/internal/enroll/relay.go:194-211 [Submit], of the bytes that are answered *)
Definition submit_reply (text : string) : result goerr string :=
  wrap_err (EWrap "enroll: read local enrollment response") (decodeLocalEnrollmentResponse text) ≫= fun response =>
  if String.eqb (ls_Error response) "" then
    fail_if (negb (IsCanonicalULID (ls_DeviceID response))) ErrEnrollmentRejected ≫= fun _ => Ok (ls_DeviceID response)
  else if String.eqb (ls_Error response) "rate_limited" then Err ErrLocalRateLimited
  else Err ErrEnrollmentRejected.
End Relay.

(** ** The schedule *)

(** The wait for a certificate ends when four fifths of its lifetime have passed,
    or at once when they have. *)
Definition renewal_time (c : Certificate) : time := NotBefore c + 4 * (NotAfter c - NotBefore c) / 5.

Lemma eighty_percent lifetime : lifetime / 5 * 4 + (lifetime mod 5 * 4) / 5 = 4 * lifetime / 5.
Proof.
  rewrite <- Z.div_add_l by lia. rewrite (Z.div_mod lifetime 5) at 3 by lia. f_equal. lia.
Qed.

(** C13. Renewal is due at exactly four fifths of a certificate's lifetime: the
    machine arithmetic of the schedule neither overflows nor loses a nanosecond
    for any lifetime that a duration can hold, the wait is what is left until
    then, and nothing once it has passed; the certificate is then still valid. *)
Theorem renewal_at_eighty_percent c now :
  NotBefore c < NotAfter c -> NotAfter c - NotBefore c <= max_int64 -> renewal_time c - now <= max_int64 ->
  renewalDelay (Some c) now = Z.max 0 (renewal_time c - now) /\ NotBefore c <= renewal_time c < NotAfter c.
Proof.
  intros Hv Hl Hw. unfold renewal_time in *. set (L := NotAfter c - NotBefore c) in *.
  assert (0 <= 4 * L / 5 < L) as HL by (split; [apply Z.div_pos|apply Z.div_lt_upper_bound]; lia).
  split; [|lia]. unfold renewalDelay. replace (NotBefore c <? NotAfter c) with true by lia. cbn [negb].
  assert (time_sub (NotAfter c) (NotBefore c) = L) as -> by (unfold time_sub, min_int64, max_int64 in *; lia).
  rewrite Z.quot_div_nonneg, Z.rem_mod_nonneg by lia.
  pose proof (Z.mod_pos_bound L 5 ltac:(lia)) as Hm. pose proof (Z.div_mod L 5 ltac:(lia)) as Hd.
  unfold max_int64 in *.
  rewrite (wrap_s64_id (L mod 5 * 4)), (wrap_s64_id (L / 5 * 4)) by (unfold min_int64, max_int64; lia).
  rewrite Z.quot_div_nonneg by lia. rewrite eighty_percent, wrap_s64_id by (unfold min_int64, max_int64; lia).
  cbv zeta. destruct (now <? NotBefore c + 4 * L / 5) eqn:E; cbn [negb]; unfold time_sub, min_int64, max_int64; lia.
Qed.

Definition certificate_for (days : Z) : Certificate :=
  mkCertificate "" "" "" "" [] None "" "" false true 0 false 1 [] 0 (days * 24 * hour) KeyNil [] [] [] [] [] [] [] [].

Lemma renewal_at_eighty_percent_witness : renewalDelay (Some (certificate_for 365)) (100 * 24 * hour) = 192 * 24 * hour.
Proof.
  refine (eq_trans (proj1 (renewal_at_eighty_percent (certificate_for 365) (100 * 24 * hour) _ _ _)) _); vm_compute; congruence || reflexivity.
Defined.

(** ** At most five attempts in a minute *)

(** The limiter after attempts at given times, and the attempts that it allowed. *)
Inductive attempted : list time -> list time -> time -> Prop :=
| attempted_none t : attempted [] [] t
| attempted_next attempts admitted t now attempts' ok :
    attempted attempts admitted t -> t <= now -> LocalAllow attempts now = (attempts', ok) ->
    attempted attempts' (if ok then admitted ++ [now] else admitted) now.

Definition within_minute (now : time) (l : list time) : list time := filter (fun t => now - minute < t) l.

Lemma filter_later cutoff l : Forall (fun t => cutoff < t) l -> filter (fun t => cutoff < t) l = l.
Proof. induction 1 as [|t l Ht _ IH]; [done|]. by rewrite filter_cons_True, IH. Qed.

Lemma live_is_filter cutoff l : StronglySorted Z.le l -> live_attempts cutoff l = filter (fun t => cutoff < t) l.
Proof.
  induction 1 as [|t l Hs IH Hall]; [done|]. cbn [live_attempts]. rewrite filter_cons.
  destruct (cutoff <? t) eqn:E; case_decide as Hd; try lia; [|done].
  f_equal. symmetry. apply filter_later. eapply Forall_impl; [exact Hall|]. cbn. intros x Hx. lia.
Qed.

Lemma sorted_filter (P : time -> Prop) `{!forall t, Decision (P t)} l : StronglySorted Z.le l -> StronglySorted Z.le (filter P l).
Proof.
  induction 1 as [|t l Hs IH Hall]; [constructor|]. rewrite filter_cons. case_decide; [|done]. constructor; [done|].
  apply Forall_forall. intros x [_ Hx]%list_elem_of_filter. rewrite Forall_forall in Hall. by apply Hall.
Qed.

(** The limiter remembers the admitted attempts that are not older than some
    instant, a minute or more ago. *)
Lemma attempted_inv attempts admitted t :
  attempted attempts admitted t ->
  StronglySorted Z.le admitted /\ Forall (fun x => x <= t) admitted
  /\ exists cutoff, cutoff <= t - minute /\ attempts = filter (fun x => cutoff < x) admitted.
Proof.
  induction 1 as [t|attempts admitted t now attempts' ok _ (Hs & Hle & cutoff & Hc & ->) Hnow Hallow].
  { split_and!; [constructor|done|]. by exists (t - minute). }
  unfold LocalAllow in Hallow. rewrite live_is_filter in Hallow by (by apply sorted_filter).
  rewrite (list_filter_filter_l (fun x => now - minute < x) (fun x => cutoff < x)) in Hallow by (intros; lia).
  assert (Forall (fun x => x <= now) admitted) as Hle' by (eapply Forall_impl; [exact Hle|]; cbn; lia).
  destruct (localAttemptsPerMinute <=? _); injection Hallow as <- <-.
  - split_and!; [done|done|]. by exists (now - minute).
  - split_and!.
    + apply StronglySorted_app. split_and!; [|done|by repeat constructor].
      intros x y Hx ->%list_elem_of_singleton. rewrite Forall_forall in Hle'. by apply Hle'.
    + apply Forall_app. split; [done|]. by constructor.
    + exists (now - minute). split; [done|]. rewrite filter_app. f_equal. symmetry.
      apply filter_later. constructor; [unfold minute, second; lia|done].
Qed.

(** With a clock that does not go back, an attempt is allowed exactly when fewer
    than five were allowed in the minute before it. *)
Lemma local_attempts_are_limited attempts admitted t now attempts' ok :
  attempted attempts admitted t -> t <= now -> LocalAllow attempts now = (attempts', ok) ->
  ok = true <-> zlen (within_minute now admitted) < localAttemptsPerMinute.
Proof.
  intros (Hs & _ & cutoff & Hc & ->)%attempted_inv Hnow Hallow.
  assert (live_attempts (now - minute) (filter (fun x => cutoff < x) admitted) = within_minute now admitted) as Hw.
  { rewrite live_is_filter by (by apply sorted_filter). apply list_filter_filter_l. intros x Hx. lia. }
  unfold LocalAllow in Hallow. rewrite Hw in Hallow.
  destruct (Z.leb_spec localAttemptsPerMinute (zlen (within_minute now admitted))) as [E|E]; injection Hallow as _ <-.
  - split; [done|lia].
  - by split.
Qed.
