(* ===== verification/AgentProof.v ===== *)
(** * The agent's trust over its history

    What the calls of the agent's client leave on disk, one call after another,
    each of which may be cut short anywhere: the trust of an agent descends from
    what it enrolled with, and what it adopted is confirmed or about to be. *)

From Stdlib Require Import Ascii String ZArith Lia.
From S2P Require Export AgentLoop.

Section History.
Context {x509 : X509} {schemes : Schemes} {x25519 : X25519} {chain : ChainVerify} {codec : CredentialCodec} {laws : CodecLaws}.

(** The credentials that the file holds. *)
Definition held (w : AgentWorld) : option CredentialBundle :=
  aw_file w ≫= fun encoded => match decodeStoredCredentialBundle encoded with Ok b => Some b | Err _ => None end.

(** A call that was cut short or ran to its end, the renewal loop for any number of
    renewals, and a restart of the agent. *)
Inductive agent_step : AgentWorld -> AgentWorld -> Prop :=
| step_enroll token caFingerprint envs w : agent_step w (exec envs w (Enroll token caFingerprint)).1
| step_renew envs w : agent_step w (exec envs w Renew).1
| step_loop renewals envs w : agent_step w (exec envs w (RenewalLoopRun renewals)).1
| step_restart w : agent_step w (with_memory (mkAgentMemory None false) w).

(** ** Adoption *)

(** The first root's authority signed a certificate for the second root's key and
    name. *)
Definition vouched (first second : string) : Prop :=
  exists current successor proofDER proof, parseExactCertificate first = Ok current /\ parseExactCertificate second = Ok successor
    /\ parseExactCertificate proofDER = Ok proof /\ CheckSignatureFrom proof current = true
    /\ RawSubject proof = RawSubject successor /\ publicKeysEqual (PublicKey proof) (PublicKey successor) = true.

(** How a class's bundle may follow another. *)
Inductive adopts (current next : StoredTrustBundle) : Prop :=
| adopt_same : next = current -> adopts current next
| adopt_first : sb_Generation current = 0 -> adopts current next
| adopt_successor first second :
    sb_Generation current < sb_Generation next -> sb_RootCertificateDER next = [first; second] ->
    last (sb_RootCertificateDER current) = Some first -> vouched first second -> adopts current next
| adopt_pruned root :
    sb_Generation next = sb_Generation current -> sb_Revision current < sb_Revision next ->
    sb_RootCertificateDER next = [root] -> root ∈ sb_RootCertificateDER current -> adopts current next.

Lemma equal_bundles first second : equalStoredTrustBundles first second = true <-> first = second.
Proof.
  unfold equalStoredTrustBundles. rewrite !andb_true_iff, !Z.eqb_eq, String.eqb_eq, bool_decide_eq_true.
  destruct first, second; cbn. split; [intros (((-> & ->) & ->) & ->); done|by intros [= -> -> -> ->]].
Qed.

Lemma contains_der values wanted : containsExactDER values wanted = true <-> wanted ∈ values.
Proof.
  unfold containsExactDER. rewrite existsb_exists. setoid_rewrite String.eqb_eq. setoid_rewrite <- list_elem_of_In.
  split; [by intros (? & ? & ->)|eauto].
Qed.

Lemma transition_vouches first second current successor der now :
  parseExactCertificate first = Ok current -> parseExactCertificate second = Ok successor ->
  validateTransitionProof current successor der now = Ok tt -> vouched first second.
Proof.
  intros H1 H2 H. apply bind_ok in H as (_ & _ & H). apply bind_ok in H as (proof & Hp%wrap_err_ok & H).
  do 2 (apply bind_ok in H as (_ & _ & H)). apply bind_ok in H as (_ & Hs%fail_if_ok%negb_false_iff%String.eqb_eq & H).
  apply bind_ok in H as (_ & Hk%fail_if_ok%negb_false_iff & H). do 9 (apply bind_ok in H as (_ & _ & H)).
  apply fail_if_ok, negb_false_iff in H. exists current, successor, der, proof. done.
Qed.

Lemma parse_roots_ok now earlier ders roots :
  parse_roots now earlier ders = Ok roots ->
  exists new, roots = earlier ++ new /\ Forall2 (fun der root => parseExactCertificate der = Ok root) ders new.
Proof.
  revert earlier. induction ders as [|der ders IH]; intros earlier H; cbn [parse_roots] in H.
  - injection H as <-. exists []. by rewrite app_nil_r.
  - apply bind_ok in H as (root & Hr%wrap_err_ok & H). apply bind_ok in H as (_ & _ & H). apply IH in H as (new & -> & Hall).
    apply bind_ok in Hr as (_ & _ & Hr). apply bind_ok in Hr as (c & Hc%wrap_err_ok & Hr).
    do 9 (apply bind_ok in Hr as (? & _ & Hr)). injection Hr as ->.
    exists (root :: new). by rewrite <- app_assoc; split; [|constructor].
Qed.

(** What the validation of a bundle against the one before accepts. *)
Lemma validated_adopts current next now :
  validateTrustBundle current next now = Ok tt -> sb_Generation next <> 0 /\ adopts current next.
Proof.
  intros H. apply bind_ok in H as ([] & Hc & Hs).
  apply bind_ok in Hc as (_ & Hg%fail_if_ok%Z.eqb_neq & Hc). split; [done|].
  do 2 (apply bind_ok in Hc as (_ & _ & Hc)). apply bind_ok in Hc as (roots & (new & -> & Hroots)%parse_roots_ok & Hc).
  apply bind_ok in Hc as (_ & _ & Hc). cbn [app] in Hc. unfold validate_bundle_succession in Hs.
  destruct (sb_Generation current =? 0) eqn:E0; [by apply adopt_first, Z.eqb_eq|].
  destruct (sb_Generation next <? sb_Generation current) eqn:E1; [done|].
  destruct (_ && (sb_Revision next <? _)) eqn:E2 in Hs; [done|].
  destruct (_ && (sb_Revision next =? _)) eqn:E3 in Hs.
  { apply fail_if_ok, negb_false_iff, equal_bundles in Hs. by apply adopt_same. }
  apply Z.ltb_ge in E1. destruct (sb_Generation current <? sb_Generation next) eqn:E4 in Hs.
  - apply bind_ok in Hs as (_ & _ & Hs). apply fail_if_ok, orb_false_iff in Hs as [H2%negb_false_iff Hl%negb_false_iff].
    apply Z.eqb_eq in H2. apply bool_decide_eq_true in Hl. apply Z.ltb_lt in E4.
    destruct (sb_RootCertificateDER next) as [|first [|second [|]]] eqn:En; try (unfold zlen in H2; cbn in H2; lia).
    inversion Hroots as [|? c1 ? ? Hc1 Hr1]; subst. inversion Hr1 as [|? c2 ? ? Hc2 Hr2]; subst. inversion Hr2; subst.
    apply bind_ok in Hc as (_ & _ & Hc). apply (adopt_successor _ _ first second); try done.
    by eapply transition_vouches.
  - apply fail_if_ok in Hs. destruct (sb_RootCertificateDER next) as [|root [|]] eqn:En; try done.
    apply negb_false_iff, contains_der in Hs. apply Z.ltb_ge in E4.
    apply (adopt_pruned _ _ root); try done; [lia|].
    assert (sb_Generation next = sb_Generation current) as Heq by lia. rewrite Heq, Z.eqb_refl in E2, E3. cbn [andb] in E2, E3.
    apply Z.ltb_ge in E2. apply Z.eqb_neq in E3. lia.
Qed.

(** ** Moves of the file *)

Definition evolves (b b' : CredentialBundle) : Prop :=
  bd_DeviceID b' = bd_DeviceID b /\ bd_PrivateKey b' = bd_PrivateKey b
  /\ forall class, adopts (bundle_of class b) (bundle_of class b').

(** Credentials are enrolled once; from then on they only evolve. *)
Definition moves (w w' : AgentWorld) : Prop :=
  match held w, held w' with
  | Some b, Some b' => evolves b b'
  | Some _, None => False
  | None, _ => True
  end.

#[export] Instance evolves_refl : Reflexive evolves.
Proof. intros b. split_and!; [done..|]. intros class. by apply adopt_same. Qed.

Lemma moves_same w w' : held w' = held w -> moves w w'.
Proof. unfold moves. intros ->. by destruct (held w). Qed.

#[export] Instance moves_refl : Reflexive moves.
Proof. intros w. by apply moves_same. Qed.

(** *** What is stored of a class, and what is said of it *)

(** A claim of exactly this bundle. *)
Definition claims (generation revision : Z) (fingerprints : list string) (b : StoredTrustBundle) : Prop :=
  generation = sb_Generation b /\ revision = sb_Revision b /\ fingerprints = fingerprintsForRoots (sb_RootCertificateDER b).

(** A confirmation that its reporter signed. *)
Definition signed_by_reporter (r : ConfirmTrustStateRequest) : Prop :=
  exists certificate, parseExactCertificate (cf_CertificateDer r) = Ok certificate
    /\ VerifyTrustState (PublicKey certificate)
         (mkTrustStateClaim "agent" (cf_ClaimedClass r) (Sum256 (cf_CertificateDer r)) (cf_Generation r) (cf_Revision r)
            (cf_RootFingerprints r) (cf_CrlIssuerFingerprint r) (cf_CrlSequence r)) (cf_Signature r) = Ok tt.

Definition acknowledged (acks : list ConfirmTrustStateRequest) (class : string) (b : StoredTrustBundle) : Prop :=
  exists r, r ∈ acks /\ cf_ClaimedClass r = class /\ claims (cf_Generation r) (cf_Revision r) (cf_RootFingerprints r) b
    /\ signed_by_reporter r.

(** Every adopted bundle is claimed by a pending confirmation or was acknowledged. *)
Definition grounded (acks : list ConfirmTrustStateRequest) (b : CredentialBundle) : Prop :=
  forall class, class ∈ classes -> sb_Generation (bundle_of class b) <> 0 ->
    match pending_of class b with
    | Some p => claims (pf_Generation p) (pf_Revision p) (pf_RootFingerprints p) (bundle_of class b)
    | None => acknowledged acks class (bundle_of class b)
    end.

Definition all_grounded (w : AgentWorld) : Prop := forall b, held w = Some b -> grounded (aw_acks w) b.

Lemma acknowledged_more acks acks' class b : acknowledged acks class b -> acknowledged (acks ++ acks') class b.
Proof. intros (r & Hr & H). exists r. split; [|done]. apply elem_of_app. by left. Qed.

Lemma grounded_more acks acks' b : grounded acks b -> grounded (acks ++ acks') b.
Proof.
  intros H class Hc Hg. specialize (H class Hc Hg). destruct (pending_of class b); [done|]. by apply acknowledged_more.
Qed.

Lemma bundle_of_settle class b : bundle_of class (settle b) = settle_bundle (bundle_of class b).
Proof. unfold bundle_of. by destruct (String.eqb class "agent"). Qed.
Lemma pending_of_settle class b : pending_of class (settle b) = pending_of class b.
Proof. unfold pending_of. by destruct (String.eqb class "agent"). Qed.
Lemma settle_bundle_gen b : sb_Generation b <> 0 -> settle_bundle b = b.
Proof. unfold settle_bundle. intros ->%Z.eqb_neq. done. Qed.
Lemma settle_bundle_zero b : sb_Generation b = 0 -> settle_bundle b = no_trust_bundle.
Proof. unfold settle_bundle. intros ->. done. Qed.

Lemma bundle_of_pending class class' p b : bundle_of class (with_pending class' p b) = bundle_of class b.
Proof. unfold bundle_of, with_pending. by destruct (String.eqb class "agent"), (String.eqb class' "agent"). Qed.
Lemma pending_same class p b : pending_of class (with_pending class p b) = p.
Proof. unfold pending_of, with_pending. by destruct (String.eqb class "agent"). Qed.
Lemma pending_other class class' p b :
  class ∈ classes -> class' ∈ classes -> class <> class' -> pending_of class (with_pending class' p b) = pending_of class b.
Proof. unfold pending_of, with_pending, classes. intros. set_solver. Qed.

Lemma grounded_settle acks b : grounded acks b -> grounded acks (settle b).
Proof.
  intros H class Hc. rewrite bundle_of_settle, pending_of_settle.
  destruct (decide (sb_Generation (bundle_of class b) = 0)) as [->%settle_bundle_zero|Hn]; [done|].
  rewrite settle_bundle_gen by done. by apply H.
Qed.

(** Two bundles with the same trust: they differ in pending confirmations, in the
    certificate and its issuers, and in what is not written. *)
Definition kin (b b' : CredentialBundle) : Prop :=
  bd_DeviceID b = bd_DeviceID b' /\ bd_PrivateKey b = bd_PrivateKey b'
  /\ forall class, settle_bundle (bundle_of class b) = settle_bundle (bundle_of class b').

#[export] Instance kin_equiv : Equivalence kin.
Proof.
  split; [done| |].
  - intros a b (H1 & H2 & H3). done.
  - intros a b c (H1 & H2 & H3) (H4 & H5 & H6). split_and!; [congruence..|]. intros class. by rewrite H3.
Qed.

Lemma settle_twice b : settle_bundle (settle_bundle b) = settle_bundle b.
Proof. unfold settle_bundle. by destruct (sb_Generation b =? 0) eqn:E; [|rewrite E]. Qed.

Lemma kin_settle b : kin (settle b) b.
Proof. split_and!; [done..|]. intros class. by rewrite bundle_of_settle, settle_twice. Qed.

Lemma kin_pending class p b : kin (with_pending class p b) b.
Proof.
  split_and!; [unfold with_pending; by destruct (String.eqb class "agent")..|]. intros class'. by rewrite bundle_of_pending.
Qed.

Lemma settled_eq b b' : settle_bundle b = settle_bundle b' -> b = b' \/ (sb_Generation b = 0 /\ sb_Generation b' = 0).
Proof.
  unfold settle_bundle. destruct (sb_Generation b =? 0) eqn:E, (sb_Generation b' =? 0) eqn:E'; intros H; subst; auto.
  - apply Z.eqb_eq in E, E'. auto.
  - done.
  - done.
Qed.

Lemma kin_evolves b b' : kin b b' -> evolves b (settle b').
Proof.
  intros (H1 & H2 & H3). split_and!; [done..|]. intros class. rewrite bundle_of_settle.
  destruct (settled_eq _ _ (H3 class)) as [<-|[H0 _]]; [|by apply adopt_first].
  destruct (decide (sb_Generation (bundle_of class b) = 0)); [by apply adopt_first|].
  apply adopt_same. by apply settle_bundle_gen.
Qed.

(** What may follow a bundle may follow its kin. *)
Lemma evolves_from b b' new : kin b b' -> evolves b' new -> evolves b new.
Proof.
  intros (H1 & H2 & H3) (H4 & H5 & H6). split_and!; [by rewrite H4|by rewrite H5|]. intros class.
  destruct (settled_eq _ _ (H3 class)) as [->|[H0 _]]; [done|by apply adopt_first].
Qed.

(** *** The credentials that the calls make *)

Lemma pending_claims bundle class trust p :
  newPendingTrustConfirmation bundle class trust = Ok p -> claims (pf_Generation p) (pf_Revision p) (pf_RootFingerprints p) trust.
Proof. intros (signature & _ & [= <-])%bind_ok. done. Qed.

Lemma stored_adopts message legacy current now trust :
  storedTrustBundle message legacy current now = Ok trust -> sb_Generation trust <> 0 /\ adopts current trust.
Proof. intros (b & _ & (u & H & [= <-])%bind_ok)%bind_ok. destruct u. by eapply validated_adopts. Qed.

Lemma grounded_pending acks b p q :
  pending_of "agent" b = Some p -> pending_of "gateway" b = Some q ->
  claims (pf_Generation p) (pf_Revision p) (pf_RootFingerprints p) (bd_AgentTrustBundle b) ->
  claims (pf_Generation q) (pf_Revision q) (pf_RootFingerprints q) (bd_GatewayTrustBundle b) -> grounded acks b.
Proof.
  intros Hp Hq H1 H2 class Hc _. apply elem_of_cons in Hc as [->|Hc]; [by rewrite Hp|].
  apply list_elem_of_singleton in Hc as ->. by rewrite Hq.
Qed.

Lemma enrolled_grounded acks response key sealing pin now b :
  enrolled_bundle response key sealing pin now = Ok b -> grounded acks b.
Proof.
  intros H. apply bind_ok in H as (agentTrust & _ & H). apply bind_ok in H as (gatewayTrust & _ & H).
  do 4 (apply bind_ok in H as (? & _ & H)). apply bind_ok in H as (p & Hp%pending_claims & H).
  apply bind_ok in H as (q & Hq%pending_claims & [= <-]). by apply (grounded_pending _ _ p q).
Qed.

(** A renewed bundle follows the one before, and leaves nothing unclaimed when
    nothing was pending. *)
Lemma renewed_follows acks current response sealing now b :
  renewed_bundle current response sealing now = Ok b -> grounded acks current ->
  (forall class, class ∈ classes -> pending_of class current = None) ->
  evolves current (settle b) /\ grounded acks b.
Proof.
  intros H Hg Hnone. apply bind_ok in H as (agentTrust & [Ha1 Ha2]%wrap_err_ok%stored_adopts & H).
  apply bind_ok in H as (gatewayTrust & [Hb1 Hb2]%wrap_err_ok%stored_adopts & H).
  apply bind_ok in H as (_ & _ & H). apply bind_ok in H as (issuer & _ & H). do 2 (apply bind_ok in H as (? & _ & H)). apply bind_ok in H as (p & Hp%pending_claims & H).
  assert (forall q, evolves current (settle (with_pending "gateway" q (with_pending "agent" (Some p)
    (mkCredentialBundle (bd_DeviceID current) (cp_CertificateDer response) issuer (hd ""%string (sb_RootCertificateDER gatewayTrust))
       (bd_PrivateKey current) (Some sealing) agentTrust gatewayTrust None None))))) as He.
  { intros q. split_and!; [done..|]. intros class. rewrite bundle_of_settle, !bundle_of_pending.
    unfold bundle_of. destruct (String.eqb class "agent"); by rewrite settle_bundle_gen. }
  destruct (equalStoredTrustBundles _ _) eqn:Heq in H.
  - injection H as <-. split; [apply (He None)|]. apply equal_bundles in Heq.
    intros class Hc Hgen. apply elem_of_cons in Hc as [->|Hc]; [done|]. apply list_elem_of_singleton in Hc as ->.
    cbn in Hgen |- *. rewrite <- Heq. specialize (Hg "gateway"%string ltac:(set_solver)). rewrite (Hnone "gateway"%string) in Hg by set_solver.
    apply Hg. cbn. by rewrite Heq.
  - apply bind_ok in H as (q & Hq%pending_claims & [= <-]). split; [apply (He (Some q))|]. by apply (grounded_pending _ _ p q).
Qed.

(** An acknowledged confirmation grounds the bundle without it. *)
Lemma acknowledged_grounds acks class b p request :
  class ∈ classes -> pending_of class b = Some p -> pendingTrustRequest b class p = Ok request -> request ∈ acks ->
  grounded acks b -> grounded acks (with_pending class None b).
Proof.
  intros Hc Hp Hr Hin Hg class' Hc' Hgen. rewrite bundle_of_pending in Hgen |- *.
  destruct (decide (class' = class)) as [->|Hne]; [|by rewrite pending_other; [apply Hg|..]].
  rewrite pending_same. specialize (Hg class Hc Hgen). rewrite Hp in Hg. exists request. split; [done|].
  apply bind_ok in Hr as (certificate & Hcert%wrap_err_ok & Hr). apply bind_ok in Hr as ([] & Hv%wrap_err_ok & [= <-]).
  split_and!; [done| |exists certificate; split; [done|exact Hv]]. exact Hg.
Qed.

(** ** The calls *)

(** One call at a time: nothing else moves the file. *)
Definition judged {X} (Q : X -> AgentWorld -> Prop) (P : AgentWorld -> Prop) (p : prog AgentEnv AgentWorld X) : Prop :=
  rg all_grounded eq moves Q P p.

Lemma any_stable (P : AgentWorld -> Prop) : stable all_grounded eq P.
Proof. by intros w w' _ _ <-. Qed.

Lemma judged_look {X} (q : AgentEnv -> AgentWorld -> X) P :
  judged (fun x w => P w /\ exists env, q env w = x) P (look q).
Proof. apply rg_look; [apply moves_refl|intros x; apply any_stable|eauto]. Qed.

(** An action that leaves the file alone. *)
Lemma judged_act {X} (op : AgentEnv -> AgentWorld -> AgentWorld * X) (Q : X -> AgentWorld -> Prop) P :
  (forall env w w' x, P w -> op env w = (w', x) -> aw_file w' = aw_file w /\ (exists more, aw_acks w' = aw_acks w ++ more) /\ Q x w') ->
  judged Q P (act op).
Proof.
  intros H. apply rg_act; [intros; apply any_stable|]. intros env w w' x HI HP Hop.
  destruct (H env w w' x HP Hop) as (Hf & [more Ha] & HQ).
  assert (held w' = held w) as Hh by (unfold held; by rewrite Hf). split_and!; [by apply moves_same| |done].
  intros b. rewrite Hh, Ha. intros Hb. apply grounded_more. by apply HI.
Qed.

(** A look at the surroundings: its error ends the call, its value is known. *)
Lemma judged_observe {A B} (f : AgentEnv -> result goerr A) (Q : result goerr B -> AgentWorld -> Prop) P k :
  (forall e w, P w -> Q (Err e) w) -> (forall env a, f env = Ok a -> judged Q P (k a)) -> judged Q P (try_prog (observe f) k).
Proof.
  intros He Hk. eapply rg_bind; [apply (judged_look _ P)|]. intros [a|e].
  - eapply (rg_weaken _ _ _ _ (fun w => (exists env, f env = Ok a) /\ P w)); [tauto|].
    apply rg_pure_pre. intros [env Hf]. by eapply Hk.
  - intros w _ [HP _]. by apply He.
Qed.

Lemma judged_pure {A B} (r : result goerr A) (Q : result goerr B -> AgentWorld -> Prop) P k :
  (forall e w, P w -> Q (Err e) w) -> (forall a, r = Ok a -> judged Q P (k a)) -> judged Q P (try_prog (Ret r) k).
Proof. intros He Hk. unfold try_prog. cbn [bind_prog]. destruct r as [a|e]; [by apply Hk|]. intros w _ HP. by apply He. Qed.

Lemma judged_wrap {A} m (Q : result goerr A -> AgentWorld -> Prop) P p :
  judged (fun r w => Q (wrap_err (EWrap m) r) w) P p -> judged Q P (wrap_prog m p).
Proof. intros H. eapply rg_bind; [exact H|]. by intros r w _ HQ. Qed.

(** Loading: the credentials are those in the file. *)
Lemma judged_load P : judged (fun r w => P w /\ match r with Ok b => held w = Some b | Err _ => True end) P FileLoad.
Proof.
  apply judged_observe; [done|]. intros _ _ _.
  eapply (rg_bind _ _ _ (fun (r : result goerr string) w => P w /\ match r with Ok encoded => aw_file w = Some encoded | Err _ => True end)).
  { apply judged_wrap. eapply rg_post; [|apply judged_look]. intros r w _ [HP [env <-]]. split; [done|].
    destruct (av_read env); [done|]. destruct (aw_file w) as [encoded|]; cbn; [|done]. by destruct (maxCredentialBundleBytes <? len encoded). }
  intros [encoded|e]; [|by intros w _ [HP _]].
  apply judged_pure; [by intros e w [HP _]|]. intros b Hb. apply judged_observe; [by intros e w [HP _]|]. intros _ _ _ w _ [HP Hf].
  split; [done|]. unfold held. rewrite Hf. cbn [mbind option_bind]. by rewrite Hb.
Qed.

(** The file that is put in place. *)
Lemma write_moves w encoded bundle :
  decodeStoredCredentialBundle encoded = Ok (settle bundle) -> grounded (aw_acks w) (settle bundle) ->
  (forall b, held w = Some b -> evolves b (settle bundle)) ->
  moves w (with_file (Some encoded) w) /\ all_grounded (with_file (Some encoded) w) /\ held (with_file (Some encoded) w) = Some (settle bundle).
Proof.
  intros Hdec Hg He. assert (held (with_file (Some encoded) w) = Some (settle bundle)) as Hh.
  { unfold held, with_file. cbn [aw_file mbind option_bind]. by rewrite Hdec. }
  split_and!; [|intros b; rewrite Hh; by intros [= <-]|done].
  unfold moves. rewrite Hh. destruct (held w) as [b|]; [by apply He|done].
Qed.

(** Creating: the file was not there. *)
Lemma judged_create bundle (P : AgentWorld -> Prop) :
  (forall acks, grounded acks (settle bundle)) ->
  judged (fun r w => r = Ok tt -> held w = Some (settle bundle)) P (FileCreate bundle).
Proof.
  intros Hg. apply judged_observe; [done|]. intros _ _ _. apply judged_observe; [done|]. intros env [] Hv%wrap_err_ok.
  apply judged_pure; [done|]. intros encoded He. pose proof (encoded_decodes _ _ _ Hv He) as Hdec.
  apply judged_wrap, rg_act; [intros x; apply any_stable|]. intros env' w w' r HI _ Hop. cbn [andb] in Hop.
  destruct (aw_file w) as [text|] eqn:Hf; cbn in Hop.
  { injection Hop as <- <-. split_and!; [apply moves_refl|done|done]. }
  destruct (write_moves w encoded bundle Hdec (Hg _)) as (Hm & HI' & Hh); [unfold held; by rewrite Hf|].
  destruct (av_write env'); injection Hop as <- <-; (split_and!; [|done..]); done || apply moves_refl.
Qed.

(** Replacing: the file is as it was, or holds the new bundle; a success means the
    new bundle. *)
Lemma judged_replace bundle b acks :
  evolves b (settle bundle) -> grounded acks (settle bundle) ->
  judged (fun r w => aw_acks w = acks /\ (r = Ok tt -> held w = Some (settle bundle))
            /\ (held w = Some b \/ held w = Some (settle bundle)))
    (fun w => held w = Some b /\ aw_acks w = acks) (FileReplace bundle).
Proof.
  intros Hev Hg. apply judged_observe; [intros e w [Hh Ha]; split_and!; [done|done|by left]|]. intros _ _ _.
  apply judged_observe; [intros e w [Hh Ha]; split_and!; [done|done|by left]|]. intros env [] Hv%wrap_err_ok.
  apply judged_pure; [intros e w [Hh Ha]; split_and!; [done|done|by left]|]. intros encoded He. pose proof (encoded_decodes _ _ _ Hv He) as Hdec.
  apply judged_wrap, rg_act; [intros x; apply any_stable|]. intros env' w w' r HI [Hh Ha] Hop. cbn [andb] in Hop.
  destruct (write_moves w encoded bundle Hdec) as (Hm & HI' & Hh'); [by rewrite Ha|intros b'; rewrite Hh; by intros [= <-]|].
  destruct (av_write env'); injection Hop as <- <-; split_and!; try done; auto using moves_refl.
Qed.

(** *** Sending what is pending *)

(** The bundle that a call holds while it sends confirmations: it is grounded, and
    the file holds its kin. *)
Definition in_step (b : CredentialBundle) (w : AgentWorld) : Prop :=
  grounded (aw_acks w) b /\ exists stored, held w = Some stored /\ kin stored b.

Lemma in_step_held b w : all_grounded w -> held w = Some b -> in_step b w.
Proof. intros HI Hh. split; [by apply HI|]. by exists b. Qed.

Lemma in_step_settled b w : all_grounded w -> held w = Some (settle b) -> grounded (aw_acks w) b -> in_step b w.
Proof. intros HI Hh Hg. split; [done|]. exists (settle b). split; [done|apply kin_settle]. Qed.

Definition sent (class : string) (bundle : CredentialBundle) (first : option goerr) (r : CredentialBundle * option goerr) (w : AgentWorld) : Prop :=
  in_step r.1 w /\ (r.1 = bundle \/ r.1 = with_pending class None bundle)
  /\ (r.2 = None -> first = None /\ pending_of class r.1 = None).

Lemma sent_failed class bundle first e w : in_step bundle w -> sent class bundle first (bundle, first_error first e) w.
Proof. intros H. split_and!; [done|by left|by destruct first]. Qed.

Lemma judged_send class bundle first :
  class ∈ classes -> judged (sent class bundle first) (in_step bundle) (send_pending class bundle first).
Proof.
  intros Hc. unfold send_pending. destruct (pending_of class bundle) as [p|] eqn:Hp.
  2: { intros w _ H. split_and!; [done|by left|done]. }
  destruct (pendingTrustRequest bundle class p) as [request|e] eqn:Hr; [|intros w _; apply sent_failed].
  eapply (rg_bind _ _ _ (fun r w => in_step bundle w /\ (r = Ok tt -> request ∈ aw_acks w))).
  { apply judged_act. intros env w w' r [Hg Hh] Hop. unfold in_step. destruct (av_confirm env); injection Hop as <- <-.
    - cbn. split_and!; [done|by eexists|by apply grounded_more|done|intros _; apply elem_of_app; right; by left].
    - split_and!; [done|exists []; by rewrite app_nil_r|done|done|done]. }
  intros [[]|e]; [|intros w _ [H _]; by apply sent_failed].
  eapply (rg_bind _ _ _ (fun r w => in_step bundle w /\ (r = Ok tt -> in_step (with_pending class None bundle) w))).
  2: { intros [[]|e] w _ [H1 H2]; [|by apply sent_failed]. split; [by apply H2|]. split; [by right|]. intros Hf. split; [exact Hf|apply pending_same]. }
  eapply (rg_weaken _ _ _ _ (fun w => exists b, exists acks, (kin b bundle /\ grounded acks bundle /\ request ∈ acks) /\ held w = Some b /\ aw_acks w = acks)).
  { intros w _ ([Hg (b & Hh & Hk)] & Hin). exists b, (aw_acks w). specialize (Hin eq_refl). done. }
  apply rg_exists. intros b. apply rg_exists. intros acks. apply rg_pure_pre. intros (Hk & Hg & Hin).
  pose proof (acknowledged_grounds _ _ _ _ _ Hc Hp Hr Hin Hg) as Hg'.
  eapply rg_post; [|apply (judged_replace (with_pending class None bundle) b acks)].
  - intros r w HI (Ha & Hok & Hh). split.
    + split; [by rewrite Ha|]. destruct Hh as [Hh|Hh]; eexists; (split; [exact Hh|]); [done|].
      rewrite kin_settle. apply kin_pending.
    + intros Hr0. apply in_step_settled; [done|by apply Hok|by rewrite Ha].
  - apply kin_evolves. rewrite Hk. symmetry. apply kin_pending.
  - by apply grounded_settle.
Qed.

Lemma judged_sendPending bundle :
  judged (fun r w => in_step r.1 w /\ (r.2 = None -> forall class, class ∈ classes -> pending_of class r.1 = None))
    (in_step bundle) (sendPendingConfirmations bundle).
Proof.
  assert ("agent"%string ∈ classes /\ "gateway"%string ∈ classes) as [Ha Hg] by set_solver.
  eapply rg_bind; [apply (judged_send _ bundle None Ha)|]. intros [b first]. cbn [fst snd].
  eapply (rg_weaken _ _ _ _ (fun w => (first = None -> pending_of "agent" b = None) /\ in_step b w)).
  { intros w _ (H1 & _ & H3). cbn [fst snd] in *. tauto. }
  apply rg_pure_pre. intros Hfirst. eapply rg_post; [|apply (judged_send _ b first Hg)].
  intros [b' err] w _ (H1 & H2 & H3). cbn [fst snd] in *. split; [done|]. intros [Hf Hpg]%H3 class Hc.
  apply elem_of_cons in Hc as [->|Hc]; [|by apply list_elem_of_singleton in Hc as ->].
  destruct H2 as [->| ->]; [by apply Hfirst|]. rewrite pending_other by done. by apply Hfirst.
Qed.

(** *** Enrollment and renewal *)

Definition anything {X} (_ : X) (_ : AgentWorld) : Prop := True.
Definition anywhere (_ : AgentWorld) : Prop := True.

Lemma judged_confirm {A} (a : A) b : judged anything (in_step b) (bind_prog (sendPendingConfirmations b) (confirmations_sent a)).
Proof. eapply rg_bind; [apply judged_sendPending|]. by intros r w _ _. Qed.

Lemma judged_keep {X A} (op : AgentEnv -> AgentWorld -> AgentWorld * result goerr X) (P : AgentWorld -> Prop)
    (k : X -> AgentProg A) :
  (forall env w, aw_file (op env w).1 = aw_file w /\ aw_acks (op env w).1 = aw_acks w) ->
  (forall x, judged anything P (k x)) ->
  (forall w w', aw_file w' = aw_file w -> aw_acks w' = aw_acks w -> P w -> P w') -> judged anything P (try_prog (act op) k).
Proof.
  intros Hop Hk HP. eapply (rg_bind _ _ _ (fun _ => P)).
  - apply judged_act. intros env w w' r Hw He. specialize (Hop env w). rewrite He in Hop. cbn in Hop. destruct Hop as [Hf Ha].
    split_and!; [done|exists []; by rewrite app_nil_r|by apply (HP w)].
  - intros [x|e]; [apply Hk|by intros w _ _].
Qed.

Lemma in_step_same b w w' : aw_file w' = aw_file w -> aw_acks w' = aw_acks w -> in_step b w -> in_step b w'.
Proof. unfold in_step, held. by intros -> ->. Qed.

Lemma legacy_grounded acks b :
  sb_Generation (bd_AgentTrustBundle b) = 0 -> sb_Generation (bd_GatewayTrustBundle b) = 0 -> grounded acks b.
Proof. intros H1 H2 class _. unfold bundle_of. by destruct (String.eqb class "agent"). Qed.

Lemma judged_legacy_enrollment response privateKey sealing pin (P : AgentWorld -> Prop) :
  judged anything P (storeLegacyEnrollment response privateKey sealing pin).
Proof.
  apply judged_observe; [done|]. intros _ deviceID _. apply judged_observe; [done|]. intros _ _ _.
  eapply rg_bind; [eapply (judged_wrap _ anything), rg_post, judged_create; [done|]|].
  - intros acks. by apply grounded_settle, legacy_grounded.
  - by intros [u|e] w _ _.
Qed.

Lemma judged_enroll_fresh token caFingerprint (P : AgentWorld -> Prop) : judged anything P (enroll_fresh token caFingerprint).
Proof.
  apply (rg_weaken _ _ _ _ anywhere); [done|].
  apply judged_pure; [done|]. intros _ _. apply judged_pure; [done|]. intros pin _.
  apply judged_observe; [done|]. intros _ privateKey _. apply judged_observe; [done|]. intros _ csrDER _.
  apply judged_observe; [done|]. intros _ sealing _. apply judged_keep; [done| |done]. intros response.
  apply judged_pure; [done|]. intros response' _. apply judged_pure; [done|]. intros bundles _.
  destruct bundles; cbn [negb]; [|apply judged_legacy_enrollment].
  apply judged_observe; [done|]. intros env bundle Hb.
  eapply (rg_bind _ _ _ (fun r w => r = Ok tt -> in_step bundle w)).
  - apply judged_wrap. eapply rg_post; [|apply judged_create].
    + intros [[]|e] w HI Hh; [|done]. intros _. apply in_step_settled; [done|by apply Hh|]. by eapply enrolled_grounded.
    + intros acks. apply grounded_settle. by eapply enrolled_grounded.
  - intros [[]|e]; [|by intros w _ _]. eapply rg_weaken; [|apply judged_confirm]. intros w _ H. by apply H.
Qed.

Lemma judged_Enroll token caFingerprint : judged anything anywhere (Enroll token caFingerprint).
Proof.
  apply judged_observe; [done|]. intros _ _ _. eapply rg_bind; [apply judged_load|].
  intros [existing|e]; [|apply judged_enroll_fresh]. destruct (len _ =? 0); [apply judged_enroll_fresh|].
  apply judged_observe; [done|]. intros _ _ _.
  assert (judged anything (fun w => anywhere w /\ held w = Some existing)
            (bind_prog (sendPendingConfirmations existing) (confirmations_sent (bd_DeviceID existing)))) as Hs.
  { eapply rg_weaken; [|apply judged_confirm]. intros w HI [_ Hh]. by apply in_step_held. }
  destruct (bd_PendingAgent existing), (bd_PendingGateway existing); try exact Hs. apply judged_enroll_fresh.
Qed.

(** Replacing the credentials of a renewal. *)
Lemma judged_renewed {A} m current bundle (k : AgentProg A) :
  (forall acks, grounded acks current -> evolves current (settle bundle) /\ grounded acks bundle) ->
  judged anything (in_step bundle) k ->
  judged anything (in_step current) (try_prog (wrap_prog m (FileReplace bundle)) (fun _ => k)).
Proof.
  intros Hb Hk.
  eapply (rg_weaken _ _ _ _ (fun w => exists b, exists acks, (kin b current /\ grounded acks current) /\ held w = Some b /\ aw_acks w = acks)).
  { intros w _ [Hg (b & Hh & Hkin)]. by exists b, (aw_acks w). }
  apply rg_exists. intros b. apply rg_exists. intros acks. apply rg_pure_pre. intros [Hkin Hg]. destruct (Hb acks Hg) as [Hev Hg'].
  eapply (rg_bind _ _ _ (fun r w => r = Ok tt -> in_step bundle w)).
  - apply judged_wrap. eapply rg_post; [|apply (judged_replace bundle b acks)].
    + intros [[]|e] w HI (Ha & Hh & _); [|done]. intros _. apply in_step_settled; [done|by apply Hh|by rewrite Ha].
    + by eapply evolves_from.
    + by apply grounded_settle.
  - intros [[]|e]; [|by intros w _ _]. eapply rg_weaken; [|exact Hk]. intros w _ H. by apply H.
Qed.

Lemma judged_clear b : judged anything (in_step b) clear_sealing_key.
Proof. apply judged_act. intros env w w' r _ [= <- <-]. split_and!; [done|exists []; by rewrite app_nil_r|done]. Qed.

Lemma judged_legacy_renewal current sealing response :
  sb_Generation (bd_AgentTrustBundle current) = 0 -> sb_Generation (bd_GatewayTrustBundle current) = 0 ->
  judged anything (in_step current) (replaceLegacyRenewal current sealing response).
Proof.
  intros Ha Hg. apply judged_observe; [done|]. intros _ deviceID _. do 2 (apply judged_pure; [done|]; intros _ _).
  apply judged_observe; [done|]. intros _ _ _. apply judged_pure; [done|]. intros _ _.
  apply judged_renewed; [|apply judged_clear]. intros acks _. split; [|by apply legacy_grounded].
  split_and!; [done..|]. intros class. apply adopt_first. unfold bundle_of. by destruct (String.eqb class "agent").
Qed.

Lemma judged_renew_current current :
  (forall class, class ∈ classes -> pending_of class current = None) -> judged anything (in_step current) (renew_current current).
Proof.
  intros Hnone. apply judged_observe; [done|]. intros _ csrDER _.
  apply judged_keep; [|intros sealing|apply in_step_same].
  { intros env w. destruct (am_sealing (aw_memory w)), (av_sealing env); done. }
  apply judged_keep; [done| |apply in_step_same]. intros response.
  apply judged_pure; [done|]. intros response' _. apply judged_pure; [done|]. intros bundles _.
  destruct bundles; cbn [negb].
  - apply judged_observe; [done|]. intros env replacement Hr. apply judged_renewed.
    + intros acks Hg. by eapply renewed_follows.
    + apply judged_keep; [done|intros _; apply judged_confirm|apply in_step_same].
  - apply judged_pure; [done|]. intros [] [Ha Hg]%fail_if_ok%orb_false_iff. apply judged_legacy_renewal.
    + by apply negb_false_iff, Z.eqb_eq in Ha.
    + by apply negb_false_iff, Z.eqb_eq in Hg.
Qed.

Lemma judged_Renew : judged anything anywhere Renew.
Proof.
  apply judged_observe; [done|]. intros _ _ _.
  eapply (rg_bind _ _ _ (fun (r : result goerr CredentialBundle) w => match r with Ok b => held w = Some b | Err _ => True end)).
  { apply judged_wrap. eapply rg_post; [|apply (judged_load anywhere)]. intros [b|e] w _ [_ H]; exact H. }
  intros [current|e]; [|by intros w _ _]. apply judged_observe; [done|]. intros _ _ _.
  eapply rg_bind; [eapply rg_weaken; [|apply judged_sendPending]; intros w HI Hh; by apply in_step_held|].
  intros [current' [e|]]; [by intros w _ _|].
  eapply (rg_weaken _ _ _ _ (fun w => (forall class, class ∈ classes -> pending_of class current' = None) /\ in_step current' w)).
  { intros w _ [H1 H2]. split; [by apply H2|done]. }
  apply rg_pure_pre. apply judged_renew_current.
Qed.

Lemma judged_loadCertificate : judged anything anywhere loadCertificate.
Proof.
  eapply rg_bind; [eapply (judged_wrap _ anything), rg_post, (judged_load anywhere); done|].
  intros [b|e]; [|by intros w _ _]. apply judged_pure; [done|]. by intros c _ w _ _.
Qed.

Lemma judged_renewal_loop renewals certificate retry : judged anything anywhere (renewal_loop renewals certificate retry).
Proof.
  revert certificate retry. induction renewals as [|n IH]; intros certificate retry; [by intros w _ _|]. cbn [renewal_loop].
  assert (forall delay : Z, judged anything anywhere
    (try_prog (waitForRenewal delay) (fun _ => bind_prog Renew (fun renewed => match renewed with
      | Ok _ => try_prog loadCertificate (fun certificate => renewal_loop n certificate false)
      | Err _ => try_prog check_context (fun _ => renewal_loop n certificate true) end)))) as Hrest.
  { intros delay. apply judged_keep; [|intros _|done].
    { intros env w. by destruct (av_ctx env). }
    eapply rg_bind; [apply judged_Renew|]. intros [u|e].
    - eapply rg_bind; [apply judged_loadCertificate|]. intros [c|e]; [apply IH|by intros w _ _].
    - apply (rg_weaken _ _ _ _ anywhere); [done|]. apply judged_observe; [done|]. intros _ _ _. apply IH. }
  destruct retry; [apply judged_pure; [done|]; intros delay _; apply Hrest|].
  apply judged_observe; [done|]. intros _ delay _. apply Hrest.
Qed.

Lemma judged_loop renewals : judged anything anywhere (RenewalLoopRun renewals).
Proof.
  apply judged_keep; [|intros _|done].
  { intros env w. by destruct (am_running (aw_memory w)). }
  eapply rg_bind.
  - eapply rg_bind; [apply judged_loadCertificate|]. intros [c|e]; [apply judged_renewal_loop|by intros w _ _].
  - intros r. eapply (rg_bind _ _ _ anything); [|by intros u w _ _].
    apply judged_act. intros env w w' u _ [= <- <-]. split_and!; [done|exists []; by rewrite app_nil_r|done].
Qed.

(** ** Histories *)

Lemma call_moves {A} (p : AgentProg A) envs w :
  judged anything anywhere p -> all_grounded w -> all_grounded (exec envs w p).1 /\ rtc moves w (exec envs w p).1.
Proof.
  intros Hp HI.
  destruct (rg_alone all_grounded eq moves anything (fun _ _ => False) (w, [p]) _ (fun _ _ _ F => match F with end)
              (exec_schedule _ envs w p) HI p eq_refl) as (HI' & Hr & _).
  { exists anywhere. split_and!; [apply any_stable|done|exact Hp]. }
  split; [exact HI'|]. eapply rtc_subrel; [|exact Hr]. intros s s' (_ & _ & [H| ->]); [exact H|apply moves_refl].
Qed.

Lemma agent_step_moves w w' : agent_step w w' -> all_grounded w -> all_grounded w' /\ rtc moves w w'.
Proof.
  intros [token fp envs s|envs s|n envs s|s] HI.
  - by apply call_moves; [apply judged_Enroll|].
  - by apply call_moves; [apply judged_Renew|].
  - by apply call_moves; [apply judged_loop|].
  - split; [exact HI|]. apply rtc_once. by apply moves_same.
Qed.

Lemma history_moves w w' : rtc agent_step w w' -> all_grounded w -> all_grounded w' /\ rtc moves w w'.
Proof.
  induction 1 as [w|w1 w2 w3 Hs _ IH]; intros HI; [done|].
  destruct (agent_step_moves _ _ Hs HI) as [HI2 H12]. destruct (IH HI2) as [HI3 H23]. split; [done|by transitivity w2].
Qed.

(** An agent without credentials has nothing to ground. *)
Lemma nothing_held w : held w = None -> all_grounded w.
Proof. intros Hn b. by rewrite Hn. Qed.

(** *** Descent *)

Definition precedes (b b' : StoredTrustBundle) : Prop :=
  sb_Generation b < sb_Generation b' \/ (sb_Generation b' = sb_Generation b /\ sb_Revision b < sb_Revision b').

(** Of a class: the bundle is the same or newer, and each of its roots is one of
    the older bundle's, or vouched for, root after root, from one of them. *)
Definition descends (b b' : StoredTrustBundle) : Prop :=
  (b' = b \/ precedes b b')
  /\ forall root, root ∈ sb_RootCertificateDER b' -> exists first, first ∈ sb_RootCertificateDER b /\ rtc vouched first root.

Lemma descends_refl b : descends b b.
Proof. split; [by left|]. intros root Hr. exists root. split; [done|apply rtc_refl]. Qed.

Lemma descends_adopts b0 b b' : 0 < sb_Generation b0 -> descends b0 b -> adopts b b' -> descends b0 b'.
Proof.
  intros Hpos [Hord Hroots] Had.
  assert (0 < sb_Generation b) as Hb by (destruct Hord as [->|[?|[? ?]]]; lia).
  assert (forall r, precedes b r -> b' = r -> b' = b0 \/ precedes b0 b') as Hnext.
  { intros r Hr ->. right. unfold precedes in *. destruct Hord as [->|[?|[? ?]]]; lia. }
  destruct Had as [->|H0|first second Hgen Hnew Hlast Hv|root Hgen Hrev Hnew Hin]; [done|lia| |]; (split; [by eapply Hnext; [|done]; unfold precedes; auto|]); rewrite Hnew.
  - assert (first ∈ sb_RootCertificateDER b) as Hf by (apply last_Some in Hlast as [l ->]; set_solver).
    destruct (Hroots first Hf) as (r0 & H0 & Hc).
    intros root [->|[->|[]%elem_of_nil]%elem_of_cons]%elem_of_cons; exists r0; (split; [done|]); [done|]. by eapply rtc_r.
  - intros r ->%list_elem_of_singleton. by apply Hroots.
Qed.

(** Of the credentials: whose they are and their key never change. *)
Definition follows (b0 b : CredentialBundle) : Prop :=
  bd_DeviceID b = bd_DeviceID b0 /\ bd_PrivateKey b = bd_PrivateKey b0
  /\ forall class, 0 < sb_Generation (bundle_of class b0) -> descends (bundle_of class b0) (bundle_of class b).

Lemma moves_follow b0 w w' b :
  rtc moves w w' -> held w = Some b -> follows b0 b -> exists b', held w' = Some b' /\ follows b0 b'.
Proof.
  intros Hr. revert b. induction Hr as [w|w1 w2 w3 Hm _ IH]; intros b Hb Hf; [eauto|].
  unfold moves in Hm. rewrite Hb in Hm. destruct (held w2) as [b2|] eqn:H2; [|done].
  apply (IH b2 eq_refl). destruct Hf as (H3 & H4 & H5), Hm as (H6 & H7 & H8).
  split_and!; [congruence..|]. intros class Hpos. by eapply descends_adopts; [|apply H5|apply H8].
Qed.

(** C4. An agent's trust descends from its enrollment.  As long as the agent's
    calls run one after another, whatever replies it is given, wherever a call is
    cut short and however often it restarts: once it holds credentials it always holds credentials, of the same device
    with the same key, and for each certificate class whose bundle it adopted,
    the bundle it holds later is the same or a newer version, and every root it
    then trusts is one of those it trusted or was vouched for, root after root,
    starting from one of them.  An enrollment resumed while a renewal runs is
    not such a history, and can undo the renewal ([enrollment_undoes_renewal]). *)
Theorem trust_descends_from_enrollment start w0 w b0 :
  held start = None -> rtc agent_step start w0 -> held w0 = Some b0 -> rtc agent_step w0 w ->
  exists b, held w = Some b /\ follows b0 b.
Proof.
  intros Hn H0 Hb Hw. destruct (history_moves _ _ H0 (nothing_held _ Hn)) as [HI0 _].
  destruct (history_moves _ _ Hw HI0) as [_ Hm]. apply (moves_follow b0 w0 w b0 Hm Hb).
  split_and!; [done..|]. intros class _. apply descends_refl.
Qed.

(** C5. Adoption is confirmed or about to be.  At any point of an agent's history,
    each class's bundle that it holds is named, with its generation, revision
    and root fingerprints, by the stored confirmation that is still pending, or
    by a confirmation that the control plane acknowledged and that the reporting
    certificate's key signed. *)
Theorem adoption_is_confirmed_or_pending start w b class :
  held start = None -> rtc agent_step start w -> held w = Some b -> class ∈ classes -> sb_Generation (bundle_of class b) <> 0 ->
  match pending_of class b with
  | Some p => claims (pf_Generation p) (pf_Revision p) (pf_RootFingerprints p) (bundle_of class b)
  | None => acknowledged (aw_acks w) class (bundle_of class b)
  end.
Proof.
  intros Hn Hr Hb Hc Hg. destruct (history_moves _ _ Hr (nothing_held _ Hn)) as [HI _]. by apply (HI b Hb class Hc).
Qed.
End History.

(** ** A rotation, seen by an agent *)

Module HistoryExample.
Import AgentExample.

Definition bundle (generation revision : Z) (roots : list string) (proof : string) : option CATrustBundle :=
  Some (mkCATrustBundle generation revision roots proof "" 0).
Definition respond (certificate : string) (agent gateway : option CATrustBundle) : CredentialResponse :=
  mkCredentialResponse certificate "agents" "gateways" agent gateway.
Definition env (sealing : SealingKey) (response : CredentialResponse) (confirm : result goerr unit) : AgentEnv :=
  mkAgentEnv now None None Committed (Ok (KeyECDSAPrivate (Some agent_key))) (Ok "request"%string) (Ok sealing)
    (Ok (Some response)) confirm.
Definition empty : AgentWorld := mkAgentWorld None (mkAgentMemory None false) [] [] [].

(** Enrollment; then a renewal while the agents' authority is being replaced,
    whose last confirmation the control plane does not take. *)
Definition gateways : option CATrustBundle := bundle 1 1 ["gateways"%string] "".
Definition after_enrollment : AgentWorld :=
  Eval vm_compute in
  (exec (replicate 40 (env first_sealing (respond "first" (bundle 1 1 ["agents"%string] "") gateways) (Ok tt))) empty (Enroll "token" "")).1.
Definition rotated : CredentialResponse := respond "second" (bundle 2 1 ["agents"; "successor"] "proof") gateways.
Definition after_renewal : AgentWorld :=
  Eval vm_compute in (exec (replicate 40 (env next_sealing rotated (Err (EMsg "unavailable")))) after_enrollment Renew).1.
Definition confirmed : CredentialBundle := with_pending "agent" None (with_pending "gateway" None enrolled).

Lemma enrollment_history : rtc agent_step empty after_enrollment.
Proof.
  apply rtc_once. refine (eq_ind _ (agent_step empty) (step_enroll "token" ""
    (replicate 40 (env first_sealing (respond "first" (bundle 1 1 ["agents"%string] "") gateways) (Ok tt))) empty) _ _).
  vm_compute. reflexivity.
Qed.

Lemma renewal_history : rtc agent_step after_enrollment after_renewal.
Proof.
  apply rtc_once. refine (eq_ind _ (agent_step after_enrollment)
    (step_renew (replicate 40 (env next_sealing rotated (Err (EMsg "unavailable")))) after_enrollment) _ _).
  vm_compute. reflexivity.
Qed.

Lemma confirmed_held : held after_enrollment = Some confirmed.
Proof. vm_compute. reflexivity. Qed.

(** An enrollment whose confirmations the control plane refuses, as it does when a
    rotation has begun since. *)
Definition refusal : result goerr unit := Err (EMsg "trust state confirmation rejected").
Definition unconfirmed : AgentWorld :=
  Eval vm_compute in
  (exec (replicate 40 (env first_sealing (respond "first" (bundle 1 1 ["agents"%string] "") gateways) refusal)) empty (Enroll "token" "")).1.

(** An enrollment without trust bundles, and a renewal with bundles that nothing
    vouches for. *)
Definition legacy : AgentWorld :=
  Eval vm_compute in (exec (replicate 40 (env first_sealing (respond "first" None None) (Ok tt))) empty (Enroll "token" "")).1.
Definition strange : CredentialResponse := respond "third" (bundle 7 1 ["strangers"%string] "") (bundle 1 1 ["others"%string] "").

(** An enrollment that resumes its confirmations has sent the first one when a
    renewal runs; then it goes on. *)
Definition resumed : AgentWorld * AgentProg string :=
  exec (replicate 7 (env first_sealing rotated (Ok tt))) unconfirmed (Enroll "token" "").
Definition renewed_between : AgentWorld := (exec (replicate 60 (env next_sealing rotated (Ok tt))) resumed.1 Renew).1.
Definition resumed_end : AgentWorld * AgentProg string := exec (replicate 40 (env first_sealing rotated (Ok tt))) renewed_between resumed.2.
End HistoryExample.

Import AgentExample HistoryExample.

Lemma trust_descends_from_enrollment_witness :
  exists b, held after_renewal = Some b /\ follows confirmed b.
Proof.
  exact (trust_descends_from_enrollment empty after_enrollment after_renewal confirmed eq_refl enrollment_history confirmed_held renewal_history).
Defined.

Lemma adoption_is_confirmed_or_pending_witness : acknowledged (aw_acks after_enrollment) "gateway" (bundle_of "gateway" confirmed).
Proof.
  assert ("gateway"%string ∈ classes) as Hc by (right; left).
  exact (adoption_is_confirmed_or_pending empty after_enrollment confirmed "gateway" eq_refl enrollment_history confirmed_held Hc
           ltac:(cbn; discriminate)).
Defined.

(** A confirmation that the control plane refuses stops every renewal before it is
    requested: the pending claim is not superseded. *)
Example stale_confirmation_blocks_renewal :
  let after := exec (replicate 60 (env next_sealing rotated refusal)) unconfirmed Renew in
  after.2 = Ret (Err (EMsg "trust state confirmation rejected"))
  /\ aw_requests after.1 = aw_requests unconfirmed /\ aw_file after.1 = aw_file unconfirmed.
Proof. vm_compute. split_and!; reflexivity. Qed.

(** An agent that enrolled without bundles adopts a root that its own does not
    vouch for. *)
Example legacy_agent_adopts_strangers :
  let after := exec (replicate 60 (env next_sealing strange (Ok tt))) legacy Renew in
  after.2 = Ret (Ok tt) /\ (bd_CertificateAuthorityDER <$> held legacy) = Some "agents"%string
  /\ ((fun b => sb_RootCertificateDER (bd_AgentTrustBundle b)) <$> held after.1) = Some ["strangers"%string].
Proof. vm_compute. split_and!; reflexivity. Qed.

(** An enrollment that overlaps with a renewal undoes it: the file holds the older
    trust and the older keys again. *)
Example enrollment_undoes_renewal :
  ((fun b => (sb_Generation (bd_AgentTrustBundle b), bd_SealingPrivateKey b)) <$> held renewed_between) = Some (2, Some next_sealing)
  /\ ((fun b => (sb_Generation (bd_AgentTrustBundle b), bd_SealingPrivateKey b)) <$> held resumed_end.1) = Some (1, Some first_sealing).
Proof. vm_compute. split_and!; reflexivity. Qed.
