(* ===== verification/Redos.v ===== *)
(** * [sdk/redos]: vetting regular expressions

    The scanner that refuses patterns whose shape makes a backtracking engine
    run away, and a reference: the syntax trees of regular expressions, their
    text, and the refused shapes as a property of the tree.  The scanner decides
    that property of every tree's text. *)

From Stdlib Require Import Ascii String ZArith Lia.
From S2P Require Export GoText.

(** ** The scanner *)

(** The index of a two-byte text, [strings.Index]. *)
Fixpoint index_of (sub s : string) : option nat :=
  if String.prefix sub s then Some 0%nat
  else match s with EmptyString => None | String _ rest => S <$> index_of sub rest end.

(** sdk/redos/redos.go:265-281 [quantifierUnbounded] *)
Definition quantifierUnbounded (p : string) : bool :=
  match p with
  | String c rest =>
      Ascii.eqb c "{" && (let '(body, _, closed) := cut "}" rest in
                          let '(_, after, comma) := cut "," body in closed && comma && String.eqb after "")
  | EmptyString => false
  end.

(** [strconv.Atoi]. *)
Fixpoint digits_value (acc : Z) (s : string) : option Z :=
  match s with
  | EmptyString => Some acc
  | String c rest => if is_digit c then digits_value (10 * acc + (byte_of c - 48)) rest else None
  end.
Definition signed_value (s : string) : option Z :=
  match s with
  | EmptyString => None
  | String c rest =>
      if Ascii.eqb c "-" then (if String.eqb rest "" then None else Z.opp <$> digits_value 0 rest)
      else if Ascii.eqb c "+" then (if String.eqb rest "" then None else digits_value 0 rest)
      else digits_value 0 s
  end.
Definition Atoi (s : string) : option Z :=
  n ← signed_value s; if (min_int64 <=? n) && (n <=? max_int64) then Some n else None.

(** sdk/redos/redos.go:232-263 [boundedRepeatBounds] *)
Definition boundedRepeatBounds (p : string) : option (Z * Z) :=
  match p with
  | String c rest =>
      if negb (Ascii.eqb c "{") then None
      else
        let '(body, _, closed) := cut "}" rest in
        if negb closed || has_suffix "," body then None
        else
          let '(low, high, comma) := cut "," body in
          if negb comma then n ← Atoi (trim_space body); Some (n, n)
          else n ← Atoi (trim_space low); m ← Atoi (trim_space high); Some (n, m)
  | EmptyString => None
  end.

(** sdk/redos/redos.go:210-218 [skipClass], a sub-expression such as [[:alpha:]]: the
    bytes after its bracket up to the end of its closer *)
Definition sub_expression (rest : string) : option nat :=
  match rest with
  | String d rest => if Ascii.eqb d ":" || Ascii.eqb d "." || Ascii.eqb d "=" then (fun k => k + 3)%nat <$> index_of (String d "]") rest else None
  | EmptyString => None
  end.

(** sdk/redos/redos.go:205-222 [skipClass], the loop: the index of the closing bracket.
    A byte that the code jumps over is counted down *)
Fixpoint class_end (jump index : nat) (s : string) : option nat :=
  match s with
  | EmptyString => None
  | String c rest =>
      match jump with
      | S jump => class_end jump (S index) rest
      | O =>
          if Ascii.eqb c "\" && negb (String.eqb rest "") then class_end 1 (S index) rest
          else if Ascii.eqb c "[" then class_end (default 0%nat (sub_expression rest)) (S index) rest
          else if Ascii.eqb c "]" then Some index
          else class_end 0 (S index) rest
      end
  end.

(** A byte that may be there. *)
Definition accept (c : ascii) (index : nat) (s : string) : nat * string :=
  match s with String a rest => if Ascii.eqb a c then (S index, rest) else (index, s) | EmptyString => (index, s) end.

(** sdk/redos/redos.go:197-224 [skipClass], of the pattern from the opening bracket on *)
Definition skipClass (p : string) : nat :=
  match p with
  | EmptyString => 0%nat
  | String _ rest =>
      let '(index, rest) := accept "^" 1 rest in
      let '(index, rest) := accept "]" index rest in
      default (String.length p - 1)%nat (class_end 0 index rest)
  end.

(** sdk/redos/redos.go:78-97 [pathologicalReason], the number of unbounded quantifiers *)
Fixpoint count_unbounded (jump : nat) (p : string) : Z :=
  match p with
  | EmptyString => 0
  | String c rest =>
      match jump with
      | S jump => count_unbounded jump rest
      | O =>
          if Ascii.eqb c "\" && negb (String.eqb rest "") then count_unbounded 1 rest
          else if Ascii.eqb c "[" then count_unbounded (skipClass p) rest
          else (if Ascii.eqb c "*" || Ascii.eqb c "+" || (Ascii.eqb c "{" && quantifierUnbounded p) then 1 else 0) + count_unbounded 0 rest
      end
  end.

(** sdk/redos/redos.go:105-109 [groupState]; nothing reads where a group starts *)
Record groupState := mkGroupState { hasAlt : bool; hasInnerQuant : bool }.

(** The innermost group that is open takes on what is seen. *)
Definition note (alt quant : bool) (stack : list groupState) : list groupState :=
  match stack with [] => [] | top :: stack => mkGroupState (hasAlt top || alt) (hasInnerQuant top || quant) :: stack end.

Definition nested_quantifier : string := "nested unbounded quantifier (catastrophic backtracking shape)".
Definition quantified_alternation : string := "alternation under unbounded quantifier (catastrophic backtracking shape)".
Definition repeated_unbounded : string := "bounded repetition of an unbounded group (catastrophic backtracking shape)".
Definition too_many : string := "too many unbounded quantifiers (max 5)".

(** sdk/redos/redos.go:143-166 [pathologicalReason], what follows a group that closes;
    no reason is the empty string *)
Definition close_reason (top : groupState) (following : string) : string :=
  match following with
  | EmptyString => ""
  | String next _ =>
      let unbounded := Ascii.eqb next "*" || Ascii.eqb next "+" || (Ascii.eqb next "{" && quantifierUnbounded following) in
      if unbounded && hasInnerQuant top then nested_quantifier
      else if unbounded && hasAlt top then quantified_alternation
      else if Ascii.eqb next "{" && hasInnerQuant top
              && (match boundedRepeatBounds following with Some (_, high) => 2 <=? high | None => false end)
           then repeated_unbounded else ""
  end.

(** sdk/redos/redos.go:102-184 [pathologicalReason], the walk over the groups.  The depth is
    the length of the stack *)
Fixpoint walk_groups (jump : nat) (stack : list groupState) (p : string) : string :=
  match p with
  | EmptyString => ""
  | String c rest =>
      match jump with
      | S jump => walk_groups jump stack rest
      | O =>
          if Ascii.eqb c "\" && negb (String.eqb rest "") then walk_groups 1 stack rest
          else if Ascii.eqb c "[" then walk_groups (skipClass p) stack rest
          else if Ascii.eqb c "(" then walk_groups 0 (mkGroupState false false :: stack) rest
          else if Ascii.eqb c ")" then
            match stack with
            | [] => walk_groups 0 stack rest
            | top :: stack =>
                let reason := close_reason top rest in
                if String.eqb reason "" then walk_groups 0 (note (hasAlt top) (hasInnerQuant top) stack) rest else reason
            end
          else if Ascii.eqb c "|" then walk_groups 0 (note true false stack) rest
          else if Ascii.eqb c "*" || Ascii.eqb c "+" then walk_groups 0 (note false true stack) rest
          else if Ascii.eqb c "{" && quantifierUnbounded p
               then walk_groups (S (String.length (cut "}" rest).1.1)) (note false true stack) rest
          else walk_groups 0 stack rest
      end
  end.

(** sdk/redos/redos.go:75-185 [pathologicalReason] *)
Definition pathologicalReason (p : string) : string :=
  if 5 <? count_unbounded 0 p then too_many else walk_groups 0 [] p.

(** sdk/redos/redos.go:28-28 [ErrPathological] *)
Definition ErrPathological : goerr := ESentinel "pathological regex pattern".

(** sdk/redos/redos.go:48-53 [Vet] *)
Definition Vet (pattern : string) : result goerr unit :=
  let reason := pathologicalReason pattern in
  fail_if (negb (String.eqb reason "")) (EWrap reason ErrPathological).

(** sdk/redos/redos.go:58-63 [Compile]; the engine's compiler is given *)
Definition Compile {R} (regexp_Compile : string -> result goerr R) (pattern : string) : result goerr R :=
  Vet pattern ≫= fun _ => regexp_Compile pattern.

(** sdk/redos/redos.go:68-73 [MustVet]; [None] is a panic *)
Definition MustVet {R} (regexp_Compile : string -> result goerr R) (pattern : string) : option R :=
  match Compile regexp_Compile pattern with Ok r => Some r | Err _ => None end.

(** ** Regular expressions as trees *)

(** Numbers are texts of digits. *)
Inductive quantifier :=
| Once | Star | Plus | Optional | AtLeast (n : string) | Exactly (n : string) | Between (n m : string).

(** Of a class: a byte, an escaped byte, a named class. *)
Inductive member := Member (c : ascii) | EscapedMember (c : ascii) | NamedClass (name : string).

(** A sequence of quantified bytes, escapes (with a name in braces or without),
    classes and groups, and bars between alternatives. *)
Inductive regex :=
| Done
| Byte (c : ascii) (q : quantifier) (lazy : bool) (rest : regex)
| Escaped (c : ascii) (name : option string) (q : quantifier) (lazy : bool) (rest : regex)
| Class_ (negated closing : bool) (members : list member) (q : quantifier) (lazy : bool) (rest : regex)
| Group (flags : string) (inner : regex) (q : quantifier) (lazy : bool) (rest : regex)
| Bar (rest : regex).

(** *** Their text, before what follows *)

Definition print_lazy (lazy : bool) (k : string) : string := if lazy then String "?" k else k.
Definition print_quantifier (q : quantifier) (lazy : bool) (k : string) : string :=
  match q with
  | Once => k
  | Star => String "*" (print_lazy lazy k)
  | Plus => String "+" (print_lazy lazy k)
  | Optional => String "?" (print_lazy lazy k)
  | AtLeast n => String "{" (n +:+ String "," (String "}" (print_lazy lazy k)))
  | Exactly n => String "{" (n +:+ String "}" (print_lazy lazy k))
  | Between n m => String "{" (n +:+ String "," (m +:+ String "}" (print_lazy lazy k)))
  end.
Definition print_member (m : member) (k : string) : string :=
  match m with
  | Member c => String c k
  | EscapedMember c => String "\" (String c k)
  | NamedClass name => String "[" (String ":" (name +:+ String ":" (String "]" k)))
  end.
Definition print_class (negated closing : bool) (members : list member) (k : string) : string :=
  let body := foldr print_member (String "]" k) members in
  let body := if closing then String "]" body else body in
  if negated then String "^" body else body.
Fixpoint print (r : regex) (k : string) : string :=
  match r with
  | Done => k
  | Byte c q lazy rest => String c (print_quantifier q lazy (print rest k))
  | Escaped c name q lazy rest =>
      let k := print_quantifier q lazy (print rest k) in
      String "\" (String c (match name with Some name => String "{" (name +:+ String "}" k) | None => k end))
  | Class_ negated closing members q lazy rest => String "[" (print_class negated closing members (print_quantifier q lazy (print rest k)))
  | Group flags inner q lazy rest => String "(" (flags +:+ print inner (String ")" (print_quantifier q lazy (print rest k))))
  | Bar rest => String "|" (print rest k)
  end.
Definition text (r : regex) : string := print r "".

(** *** Trees that the text determines *)

Definition special (c : ascii) : bool := contains_byte c "\[()*+{|?".
Definition plain (c : ascii) : bool := negb (special c).
Definition number (n : string) : bool := negb (String.eqb n "") && string_forallb is_digit n && (String.length n <=? 18)%nat.
Definition well_quantified (q : quantifier) : bool :=
  match q with Once | Star | Plus | Optional => true | AtLeast n | Exactly n => number n | Between n m => number n && number m end.
Definition well_membered (m : member) : bool :=
  match m with Member c => negb (contains_byte c "\[]") | EscapedMember _ => true | NamedClass name => string_forallb is_lower name end.
Definition starts_negation (members : list member) : bool := match members with Member c :: _ => Ascii.eqb c "^" | _ => false end.
Definition word (c : ascii) : bool := is_lower c || is_upper c || is_digit c.

(** A text in quotes, [\Q...\E], is not a tree, and neither is a class that spells
    its own bracket without a backslash. *)
Fixpoint well_formed (r : regex) : bool :=
  match r with
  | Done => true
  | Byte c q _ rest => plain c && well_quantified q && well_formed rest
  | Escaped c name q _ rest =>
      negb (Ascii.eqb c "Q") && match name with Some name => string_forallb word name | None => true end
      && well_quantified q && well_formed rest
  | Class_ negated closing members q _ rest =>
      (closing || negb (bool_decide (members = []))) && (negated || closing || negb (starts_negation members))
      && forallb well_membered members && well_quantified q && well_formed rest
  | Group flags inner q _ rest =>
      string_forallb (fun c => plain c || Ascii.eqb c "?") flags && well_formed inner && well_quantified q && well_formed rest
  | Bar rest => well_formed rest
  end.

(** *** The refused shapes *)

Definition unbounded (q : quantifier) : bool := match q with Star | Plus | AtLeast _ => true | _ => false end.
(** How often a bounded quantifier repeats. *)
Definition repeats (q : quantifier) : Z :=
  match q with Exactly n | Between _ n => default 0 (digits_value 0 n) | _ => 0 end.

(** An unbounded quantifier, and a bar, anywhere in the tree. *)
Fixpoint quantified (r : regex) : bool :=
  match r with
  | Done => false
  | Byte _ q _ rest | Escaped _ _ q _ rest | Class_ _ _ _ q _ rest => unbounded q || quantified rest
  | Group _ inner q _ rest => quantified inner || unbounded q || quantified rest
  | Bar rest => quantified rest
  end.
Fixpoint alternates (r : regex) : bool :=
  match r with
  | Done => false
  | Byte _ _ _ rest | Escaped _ _ _ _ rest | Class_ _ _ _ _ _ rest => alternates rest
  | Group _ inner _ _ rest => alternates inner || alternates rest
  | Bar _ => true
  end.
Definition one_if (b : bool) : Z := if b then 1 else 0.
Fixpoint unbounded_quantifiers (r : regex) : Z :=
  match r with
  | Done => 0
  | Byte _ q _ rest | Escaped _ _ q _ rest | Class_ _ _ _ q _ rest => one_if (unbounded q) + unbounded_quantifiers rest
  | Group _ inner q _ rest => unbounded_quantifiers inner + one_if (unbounded q) + unbounded_quantifiers rest
  | Bar rest => unbounded_quantifiers rest
  end.

(** A group that repeats without bound and has an unbounded quantifier or an
    alternative inside, or that repeats and has an unbounded quantifier inside. *)
Definition runaway (inner : regex) (q : quantifier) : bool :=
  (unbounded q && (quantified inner || alternates inner)) || ((2 <=? repeats q) && quantified inner).
Fixpoint has_runaway (r : regex) : bool :=
  match r with
  | Done => false
  | Byte _ _ _ rest | Escaped _ _ _ _ rest | Class_ _ _ _ _ _ rest | Bar rest => has_runaway rest
  | Group _ inner q _ rest => has_runaway inner || runaway inner q || has_runaway rest
  end.
Definition pathological (r : regex) : bool := (5 <? unbounded_quantifiers r) || has_runaway r.

(** ** The scanner decides the shapes *)

Lemma cut_app c a k : contains_byte c a = false -> cut c (a +:+ String c k) = (a, k, true).
Proof.
  induction a as [|x a IH]; intros H.
  - change (cut c (String c k) = (""%string, k, true)). cbn [cut]. by rewrite Ascii.eqb_refl.
  - change (cut c (String x (a +:+ String c k)) = (String x a, k, true)). cbn [contains_byte] in H. apply orb_false_iff in H as [Hx Ha].
    cbn [cut]. by rewrite Hx, IH.
Qed.

Lemma cut_none c a : contains_byte c a = false -> cut c a = (a, ""%string, false).
Proof.
  induction a as [|x a IH]; intros H; [done|]. cbn [contains_byte] in H. apply orb_false_iff in H as [Hx Ha].
  cbn [cut]. by rewrite Hx, IH.
Qed.

Lemma forallb_excludes (f : ascii -> bool) c s : string_forallb f s = true -> f c = false -> contains_byte c s = false.
Proof.
  induction s as [|x s IH]; [done|]. cbn. intros [Hx Hs]%andb_true_iff Hc. rewrite IH by done.
  destruct (Ascii.eqb_spec x c) as [->|]; [by rewrite Hx in Hc|done].
Qed.

Lemma number_parts n : number n = true -> n <> ""%string /\ string_forallb is_digit n = true /\ (String.length n <= 18)%nat.
Proof. unfold number. rewrite !andb_true_iff, negb_true_iff, String.eqb_neq, Nat.leb_le. tauto. Qed.

Lemma digit_visible c : is_digit c = true -> visible c = true.
Proof. unfold is_digit, byte_between, visible. change (byte_of "0") with 48. change (byte_of "9") with 57. lia. Qed.

Lemma trim_number n : number n = true -> trim_space n = n.
Proof.
  intros (_ & Hd & _)%number_parts. apply trim_visible. rewrite string_forallb_spec in *.
  eapply Forall_impl; [exact Hd|]. apply digit_visible.
Qed.

Lemma digits_value_bound n acc : string_forallb is_digit n = true -> 0 <= acc ->
  exists v, digits_value acc n = Some v /\ 0 <= v < (acc + 1) * 10 ^ Z.of_nat (String.length n).
Proof.
  revert acc. induction n as [|c n IH]; intros acc; cbn [string_forallb digits_value String.length].
  - intros _ Ha. exists acc. change (10 ^ Z.of_nat 0) with 1. split; [done|lia].
  - intros [Hc Hn]%andb_true_iff Ha. rewrite Hc. unfold is_digit, byte_between in Hc.
    change (byte_of "0") with 48 in Hc. change (byte_of "9") with 57 in Hc.
    destruct (IH (10 * acc + (byte_of c - 48)) Hn ltac:(lia)) as (v & Hv & Hb). exists v. split; [done|].
    rewrite Nat2Z.inj_succ, Z.pow_succ_r by lia. pose proof (Z.pow_pos_nonneg 10 (Z.of_nat (String.length n)) ltac:(lia) ltac:(lia)). nia.
Qed.

Lemma Atoi_number n : number n = true -> exists v, digits_value 0 n = Some v /\ Atoi n = Some v.
Proof.
  intros (Hne & Hd & Hl)%number_parts. destruct (digits_value_bound n 0 Hd ltac:(lia)) as (v & Hv & Hb). exists v. split; [done|].
  assert (10 ^ Z.of_nat (String.length n) <= 10 ^ 18) as Hp by (apply Z.pow_le_mono_r; lia).
  unfold Atoi. assert (signed_value n = Some v) as ->.
  { destruct n as [|c n]; [done|]. pose proof Hd as Hc. cbn [string_forallb] in Hc. apply andb_true_iff in Hc as [Hc _]. unfold signed_value.
    destruct (Ascii.eqb_spec c "-") as [->|_]; [done|]. by destruct (Ascii.eqb_spec c "+") as [->|_]. }
  cbn [mbind option_bind]. unfold min_int64, max_int64.
  rewrite (proj2 (Z.leb_le _ _)), (proj2 (Z.leb_le v _)) by lia. done.
Qed.

Lemma no_comma_suffix n : string_forallb is_digit n = true -> n <> ""%string -> has_suffix "," n = false.
Proof.
  intros Hd Hn. destruct (has_suffix "," n) eqn:E; [|done]. apply has_suffix_spec in E as [t ->].
  exfalso. clear Hn. induction t as [|x t IH]; [done|]. apply IH. change (string_forallb is_digit (String x (t +:+ ",")) = true) in Hd.
  cbn [string_forallb] in Hd. by apply andb_true_iff in Hd as [_ Hd].
Qed.

(** *** Quantifiers *)

Lemma comma_body n : string_forallb is_digit n = true -> contains_byte "}" (n +:+ ",") = false.
Proof.
  intros Hd. apply (forallb_excludes (fun c => is_digit c || Ascii.eqb c ",")); [|done]. induction n as [|c n IH]; [done|].
  cbn [string_forallb] in Hd. apply andb_true_iff in Hd as [Hc Hd].
  change ((is_digit c || Ascii.eqb c ",") && string_forallb (fun c => is_digit c || Ascii.eqb c ",") (n +:+ ",") = true). by rewrite Hc, IH.
Qed.

Lemma unbounded_token n k : number n = true -> quantifierUnbounded (String "{" (n +:+ String "," (String "}" k))) = true.
Proof.
  intros (_ & Hd & _)%number_parts. unfold quantifierUnbounded. rewrite Ascii.eqb_refl.
  replace (n +:+ String "," (String "}" k)) with ((n +:+ ",") +:+ String "}" k) by (by rewrite text_app_assoc).
  rewrite cut_app.
  - by rewrite (cut_app "," n "") by (by eapply forallb_excludes).
  - by apply comma_body.
Qed.

Lemma between_body n m : number n = true -> number m = true ->
  contains_byte "}" (n +:+ String "," m) = false /\ has_suffix "," (n +:+ String "," m) = false.
Proof.
  intros (_ & Hn & _)%number_parts (Hne & Hm & _)%number_parts.
  assert (string_forallb (fun c => is_digit c || Ascii.eqb c ",") (n +:+ String "," m) = true) as Hall.
  { induction n as [|c n IH].
    - change (string_forallb (fun c => is_digit c || Ascii.eqb c ",") m = true). apply string_forallb_spec in Hm. apply string_forallb_spec.
      eapply Forall_impl; [exact Hm|]. cbn. intros c ->. done.
    - cbn [string_forallb] in Hn. apply andb_true_iff in Hn as [Hc Hn].
      change ((is_digit c || Ascii.eqb c ",") && string_forallb (fun c => is_digit c || Ascii.eqb c ",") (n +:+ String "," m) = true).
      by rewrite Hc, IH. }
  split; [by eapply forallb_excludes|].
  destruct (has_suffix "," (n +:+ String "," m)) eqn:E; [|done]. exfalso.
  apply has_suffix_spec in E as [t Ht].
  assert (exists t', m = t' +:+ ",") as [t' Hm'].
  { clear Hall Hn. revert t Ht. induction n as [|c n IH]; intros t Ht.
    - change (String "," m = t +:+ ",") in Ht. destruct t as [|x t]; [by injection Ht|]. exists t. by injection Ht.
    - change (String c (n +:+ String "," m) = t +:+ ",") in Ht. destruct t as [|x t]; [injection Ht; by destruct n|].
      injection Ht as _ Ht. by apply (IH t). }
  pose proof (no_comma_suffix m Hm Hne) as Hs. enough (has_suffix "," m = true) by congruence.
  apply has_suffix_spec. by exists t'.
Qed.

Lemma bounded_token q l k : well_quantified q = true -> repeats q = match boundedRepeatBounds (print_quantifier q l k) with
    Some (_, high) => match q with Exactly _ | Between _ _ => high | _ => 0 end | None => 0 end.
Proof.
  destruct q as [| | | |n|n|n m]; intros Hq; cbn [repeats]; try (by destruct (boundedRepeatBounds _) as [[]|]).
  - destruct (Atoi_number n Hq) as (v & Hv & Ha). cbn [well_quantified] in Hq. pose proof (number_parts n Hq) as (Hne & Hd & _).
    cbn [print_quantifier boundedRepeatBounds]. rewrite Ascii.eqb_refl. cbn [negb].
    rewrite cut_app by (by eapply forallb_excludes). rewrite no_comma_suffix by done. cbn [negb orb].
    rewrite cut_none by (by eapply forallb_excludes). cbn [negb]. rewrite trim_number, Ha, Hv by done. done.
  - apply andb_true_iff in Hq as [Hn Hm]. destruct (Atoi_number m Hm) as (v & Hv & Ha), (Atoi_number n Hn) as (u & Hu & Hb).
    cbn [print_quantifier boundedRepeatBounds]. rewrite Ascii.eqb_refl. cbn [negb].
    replace (n +:+ String "," (m +:+ String "}" (print_lazy l k))) with ((n +:+ String "," m) +:+ String "}" (print_lazy l k)) by (by rewrite text_app_assoc).
    destruct (between_body n m Hn Hm) as [Hc Hs]. rewrite cut_app, Hs by done. cbn [negb orb].
    rewrite cut_app by (apply number_parts in Hn as (_ & Hn & _); by eapply forallb_excludes). cbn [negb].
    rewrite !trim_number, Ha, Hb, Hv by done. done.
Qed.

Lemma bounded_not_unbounded body k :
  contains_byte "}" body = false -> (contains_byte "," body = false \/ exists n m, body = n +:+ String "," m /\ contains_byte "," n = false /\ m <> ""%string) ->
  quantifierUnbounded (String "{" (body +:+ String "}" k)) = false.
Proof.
  intros Hb Hc. unfold quantifierUnbounded. rewrite Ascii.eqb_refl, cut_app by done.
  destruct Hc as [Hc|(n & m & -> & Hc & Hm)]; [by rewrite cut_none|]. rewrite cut_app by done. by destruct m.
Qed.

Lemma quantifier_token q l k : well_quantified q = true ->
  match q with AtLeast _ | Exactly _ | Between _ _ => quantifierUnbounded (print_quantifier q l k) = unbounded q | _ => True end.
Proof.
  destruct q as [| | | |n|n|n m]; intros Hq; try done; cbn [print_quantifier unbounded].
  - by apply unbounded_token.
  - apply number_parts in Hq as (_ & Hd & _). apply bounded_not_unbounded; [by eapply forallb_excludes|]. left. by eapply forallb_excludes.
  - apply andb_true_iff in Hq as [Hn Hm]. destruct (between_body n m Hn Hm) as [Hc _].
    replace (n +:+ String "," (m +:+ String "}" (print_lazy l k))) with ((n +:+ String "," m) +:+ String "}" (print_lazy l k)) by (by rewrite text_app_assoc).
    apply bounded_not_unbounded; [done|]. right. exists n, m. apply number_parts in Hn as (_ & Hn & _), Hm as (Hm & _).
    split_and!; [done|by eapply forallb_excludes|done].
Qed.

(** *** Bytes that neither scan looks at *)

Definition inert (c : ascii) : bool := negb (contains_byte c "\[()*+{|").

Lemma plain_inert c : plain c = true -> inert c = true.
Proof. unfold plain, special, inert. cbn [contains_byte]. rewrite !negb_true_iff, !orb_false_iff. tauto. Qed.

Lemma inert_parts c : inert c = true ->
  Ascii.eqb c "\" = false /\ Ascii.eqb c "[" = false /\ Ascii.eqb c "(" = false /\ Ascii.eqb c ")" = false
  /\ Ascii.eqb c "*" = false /\ Ascii.eqb c "+" = false /\ Ascii.eqb c "{" = false /\ Ascii.eqb c "|" = false.
Proof. unfold inert. cbn [contains_byte]. rewrite negb_true_iff, !orb_false_iff, !(Ascii.eqb_sym c). tauto. Qed.

Lemma digit_inert n : string_forallb is_digit n = true -> string_forallb inert n = true.
Proof.
  rewrite !string_forallb_spec. intros H. eapply Forall_impl; [exact H|]. intros c. unfold is_digit, byte_between, inert.
  change (byte_of "0") with 48. change (byte_of "9") with 57. intros Hc. apply negb_true_iff.
  destruct (contains_byte c _) eqn:E; [|done]. apply contains_byte_spec in E.
  repeat (apply elem_of_cons in E as [->|E]; [vm_compute in Hc; discriminate|]). by apply elem_of_nil in E.
Qed.

Lemma word_inert n : string_forallb word n = true -> string_forallb inert n = true.
Proof.
  rewrite !string_forallb_spec. intros H. eapply Forall_impl; [exact H|]. intros c Hc. unfold inert. apply negb_true_iff.
  destruct (contains_byte c _) eqn:E; [|done]. apply contains_byte_spec in E.
  repeat (apply elem_of_cons in E as [->|E]; [vm_compute in Hc; discriminate|]). by apply elem_of_nil in E.
Qed.

Lemma count_inert_byte c k : inert c = true -> count_unbounded 0 (String c k) = count_unbounded 0 k.
Proof. intros (H1 & H2 & _ & _ & H3 & H4 & H5 & _)%inert_parts. cbn [count_unbounded]. by rewrite H1, H2, H3, H4, H5. Qed.

Lemma walk_inert_byte st c k : inert c = true -> walk_groups 0 st (String c k) = walk_groups 0 st k.
Proof. intros (H1 & H2 & H3 & H4 & H5 & H6 & H7 & H8)%inert_parts. cbn [walk_groups]. by rewrite H1, H2, H3, H4, H5, H6, H7, H8. Qed.

Lemma count_inert s k : string_forallb inert s = true -> count_unbounded 0 (s +:+ k) = count_unbounded 0 k.
Proof.
  induction s as [|c s IH]; [done|]. cbn [string_forallb]. intros [Hc Hs]%andb_true_iff.
  change (count_unbounded 0 (String c (s +:+ k)) = count_unbounded 0 k). by rewrite count_inert_byte, IH.
Qed.
Lemma walk_inert st s k : string_forallb inert s = true -> walk_groups 0 st (s +:+ k) = walk_groups 0 st k.
Proof.
  induction s as [|c s IH]; [done|]. cbn [string_forallb]. intros [Hc Hs]%andb_true_iff.
  change (walk_groups 0 st (String c (s +:+ k)) = walk_groups 0 st k). by rewrite walk_inert_byte, IH.
Qed.

Lemma flags_inert flags : string_forallb (fun c => plain c || Ascii.eqb c "?") flags = true -> string_forallb inert flags = true.
Proof.
  rewrite !string_forallb_spec. intros H. eapply Forall_impl; [exact H|]. cbn. intros c [Hc|Hc]%orb_true_iff; [by apply plain_inert|].
  by apply Ascii.eqb_eq in Hc as ->.
Qed.

Lemma name_token name k : string_forallb word name = true -> quantifierUnbounded (String "{" (name +:+ String "}" k)) = false.
Proof. intros Hn. apply bounded_not_unbounded; [|left]; by eapply (forallb_excludes word). Qed.

Lemma count_named c name k : string_forallb word name = true ->
  count_unbounded 0 (String "\" (String c (String "{" (name +:+ String "}" k)))) = count_unbounded 0 k.
Proof.
  intros Hn. transitivity ((if quantifierUnbounded (String "{" (name +:+ String "}" k)) then 1 else 0) + count_unbounded 0 (name +:+ String "}" k)); [done|].
  by rewrite name_token, count_inert, count_inert_byte by (done || by apply word_inert).
Qed.
Lemma walk_named st c name k : string_forallb word name = true ->
  walk_groups 0 st (String "\" (String c (String "{" (name +:+ String "}" k)))) = walk_groups 0 st k.
Proof.
  intros Hn. transitivity (if quantifierUnbounded (String "{" (name +:+ String "}" k))
    then walk_groups (S (String.length (cut "}" (name +:+ String "}" k)).1.1)) (note false true st) (name +:+ String "}" k)
    else walk_groups 0 st (name +:+ String "}" k)); [done|].
  by rewrite name_token, walk_inert, walk_inert_byte by (done || by apply word_inert).
Qed.

Lemma count_jump s k : count_unbounded (String.length s) (s +:+ k) = count_unbounded 0 k.
Proof. induction s as [|c s IH]; [done|exact IH]. Qed.
Lemma walk_jump st s k : walk_groups (String.length s) st (s +:+ k) = walk_groups 0 st k.
Proof. induction s as [|c s IH]; [done|exact IH]. Qed.
Lemma class_jump index s k : class_end (String.length s) index (s +:+ k) = class_end 0 (index + String.length s) k.
Proof.
  revert index. induction s as [|c s IH]; intros index; [by rewrite Nat.add_0_r|].
  change (class_end (String.length s) (S index) (s +:+ k) = class_end 0 (index + S (String.length s)) k).
  rewrite IH. f_equal. lia.
Qed.

Lemma count_lazy l k : count_unbounded 0 (print_lazy l k) = count_unbounded 0 k.
Proof. destruct l; [by apply count_inert_byte|done]. Qed.
Lemma walk_lazy st l k : walk_groups 0 st (print_lazy l k) = walk_groups 0 st k.
Proof. destruct l; [by apply walk_inert_byte|done]. Qed.

Lemma count_quantifier q l k : well_quantified q = true ->
  count_unbounded 0 (print_quantifier q l k) = one_if (unbounded q) + count_unbounded 0 k.
Proof.
  intros Hq. pose proof (quantifier_token q l k Hq) as Ht.
  assert (forall n k', number n = true -> count_unbounded 0 (n +:+ k') = count_unbounded 0 k') as Hnum.
  { intros n k' (_ & Hd & _)%number_parts. by apply count_inert, digit_inert. }
  destruct q as [| | | |n|n|n m]; cbn [unbounded one_if]; cbn [print_quantifier] in *.
  - done.
  - cbn [count_unbounded]. by rewrite count_lazy.
  - cbn [count_unbounded]. by rewrite count_lazy.
  - cbn [count_unbounded]. by rewrite count_lazy.
  - cbn [count_unbounded]. rewrite Ht. cbn. by rewrite Hnum, !count_inert_byte, count_lazy.
  - cbn [count_unbounded]. rewrite Ht. cbn. by rewrite Hnum, count_inert_byte, count_lazy.
  - apply andb_true_iff in Hq as [Hn Hm]. cbn [count_unbounded]. rewrite Ht. cbn.
    by rewrite Hnum, count_inert_byte, Hnum, count_inert_byte, count_lazy.
Qed.

Lemma note_nothing st : note false false st = st.
Proof. destruct st as [|[a b] st]; [done|]. cbn. by rewrite !orb_false_r. Qed.

Lemma note_note a b c d st : note a b (note c d st) = note (c || a) (d || b) st.
Proof. destruct st as [|[x y] st]; [done|]. cbn. by rewrite !orb_assoc. Qed.

Lemma walk_quantifier st q l k : well_quantified q = true ->
  walk_groups 0 st (print_quantifier q l k) = walk_groups 0 (note false (unbounded q) st) k.
Proof.
  intros Hq. pose proof (quantifier_token q l k Hq) as Ht.
  assert (forall st n k', number n = true -> walk_groups 0 st (n +:+ k') = walk_groups 0 st k') as Hnum.
  { intros st' n k' (_ & Hd & _)%number_parts. by apply walk_inert, digit_inert. }
  destruct q as [| | | |n|n|n m]; cbn [unbounded]; rewrite ?note_nothing; cbn [print_quantifier] in *.
  - done.
  - exact (walk_lazy (note false true st) l k).
  - exact (walk_lazy (note false true st) l k).
  - exact (walk_lazy st l k).
  - pose proof (number_parts n Hq) as (_ & Hd & _).
    cbn [walk_groups]. rewrite Ht. cbn [Ascii.eqb andb orb negb Bool.eqb].
    replace (n +:+ String "," (String "}" (print_lazy l k))) with ((n +:+ ",") +:+ String "}" (print_lazy l k)) by (by rewrite text_app_assoc).
    rewrite cut_app by (by apply comma_body). cbn [fst].
    replace ((n +:+ ",") +:+ String "}" (print_lazy l k)) with (((n +:+ ",") +:+ "}") +:+ print_lazy l k) by (by rewrite text_app_assoc).
    replace (S (String.length (n +:+ ","))) with (String.length ((n +:+ ",") +:+ "}")) by (rewrite (string_length_app _ "}"); cbn; lia).
    by rewrite walk_jump, walk_lazy.
  - cbn [walk_groups]. rewrite Ht. cbn. by rewrite Hnum, walk_inert_byte, walk_lazy.
  - apply andb_true_iff in Hq as [Hn Hm]. cbn [walk_groups]. rewrite Ht. cbn.
    by rewrite Hnum, walk_inert_byte, Hnum, walk_inert_byte, walk_lazy.
Qed.

(** *** Classes *)

Lemma index_of_closer name k : string_forallb is_lower name = true -> index_of ":]" (name +:+ String ":" (String "]" k)) = Some (String.length name).
Proof.
  induction name as [|c name IH].
  { intros _. change (index_of ":]" (String ":" (String "]" k)) = Some 0%nat). cbn [index_of].
    by replace (String.prefix ":]" (String ":" (String "]" k))) with true by (vm_compute; by destruct k). }
  cbn [string_forallb]. intros [Hc Hn]%andb_true_iff.
  change (index_of ":]" (String c (name +:+ String ":" (String "]" k))) = Some (S (String.length name))).
  cbn [index_of]. rewrite IH by done.
  replace (String.prefix ":]" (String c (name +:+ String ":" (String "]" k)))) with false; [done|].
  cbn [String.prefix]. destruct (ascii_dec ":" c) as [<-|]; [by vm_compute in Hc|done].
Qed.

Definition member_text (m : member) : string := print_member m "".
Lemma print_member_app m k : print_member m k = member_text m +:+ k.
Proof. destruct m as [c|c|name]; [done..|]. unfold member_text. cbn [print_member]. change (String "[" (String ":" (name +:+ String ":" (String "]" k))) = String "[" (String ":" ((name +:+ ":]") +:+ k))). by rewrite text_app_assoc. Qed.

Lemma class_member m index k : well_membered m = true ->
  class_end 0 index (print_member m k) = class_end 0 (index + String.length (member_text m)) k.
Proof.
  destruct m as [c|c|name]; cbn [well_membered]; intros Hm.
  - cbn [contains_byte] in Hm. rewrite negb_true_iff, !orb_false_iff, !(Ascii.eqb_sym _ c) in Hm. destruct Hm as (H1 & H2 & H3 & _).
    cbn [print_member class_end]. rewrite H1, H2, H3. cbn. f_equal. lia.
  - cbn [print_member class_end]. cbn. f_equal. lia.
  - transitivity (class_end (default 0%nat (sub_expression (String ":" (name +:+ String ":" (String "]" k))))) (S index) (String ":" (name +:+ String ":" (String "]" k)))); [done|].
    assert (sub_expression (String ":" (name +:+ String ":" (String "]" k))) = Some (String.length name + 3)%nat) as ->.
    { cbn [sub_expression]. rewrite (eq_refl : Ascii.eqb ":" ":" = true). cbn [orb]. by rewrite index_of_closer. }
    unfold member_text. cbn [print_member].
    replace (String ":" (name +:+ String ":" (String "]" k))) with (String ":" (name +:+ ":]") +:+ k)
      by (change (String ":" ((name +:+ ":]") +:+ k) = String ":" (name +:+ String ":" (String "]" k))); by rewrite text_app_assoc).
    assert (String.length (String ":" (name +:+ ":]")) = String.length name + 3)%nat as Hl by (cbn [String.length]; rewrite string_length_app; cbn; lia).
    transitivity (class_end (String.length (String ":" (name +:+ ":]"))) (S index) (String ":" (name +:+ ":]") +:+ k)); [by rewrite Hl|].
    rewrite class_jump. f_equal. cbn [String.length]. lia.
Qed.

Definition members_text (members : list member) : string := foldr print_member "" members.
Lemma print_members_app members k : foldr print_member k members = members_text members +:+ k.
Proof.
  induction members as [|m members IH]; [done|]. cbn [foldr members_text]. fold (members_text members).
  by rewrite IH, (print_member_app m (_ +:+ _)), (print_member_app m (members_text members)), text_app_assoc.
Qed.

Lemma class_members members index k : forallb well_membered members = true ->
  class_end 0 index (foldr print_member (String "]" k) members) = Some (index + String.length (members_text members))%nat.
Proof.
  revert index. induction members as [|m members IH]; intros index.
  - intros _. cbn. f_equal. lia.
  - cbn [forallb]. intros [Hm Hms]%andb_true_iff. cbn [foldr members_text]. fold (members_text members).
    rewrite class_member, IH, (print_member_app m (members_text members)), string_length_app by done. f_equal. lia.
Qed.

Lemma first_member members k c : forallb well_membered members = true -> members <> [] ->
  (forall c', Member c' = hd (Member "]") members -> Ascii.eqb c' c = false) -> Ascii.eqb "\" c = false -> Ascii.eqb "[" c = false ->
  exists a rest, foldr print_member (String "]" k) members = String a rest /\ Ascii.eqb a c = false.
Proof.
  destruct members as [|[c'|c'|name] members]; intros Hw Hne Hc H1 H2; [done|..]; cbn [foldr print_member]; eexists _, _; (split; [reflexivity|]).
  - by apply Hc.
  - done.
  - done.
Qed.

Lemma accept_found c index s : accept c index (String c s) = (S index, s).
Proof. cbn [accept]. by rewrite Ascii.eqb_refl. Qed.
Lemma accept_missed c index s : (exists a rest, s = String a rest /\ Ascii.eqb a c = false) -> accept c index s = (index, s).
Proof. intros (a & rest & -> & Ha). cbn [accept]. by rewrite Ha. Qed.

(** A printed class is skipped as a whole. *)
Lemma skip_printed negated closing members k :
  (closing || negb (bool_decide (members = []))) && (negated || closing || negb (starts_negation members)) = true ->
  forallb well_membered members = true ->
  exists body, print_class negated closing members k = body +:+ k /\ skipClass (String "[" (print_class negated closing members k)) = String.length body.
Proof.
  intros [Hne Hneg]%andb_true_iff Hw.
  set (tail := foldr print_member (String "]" k) members).
  assert (forall index, class_end 0 index tail = Some (index + String.length (members_text members))%nat) as Hend by (intros; by apply class_members).
  assert (tail = (members_text members +:+ "]") +:+ k) as Ht by (unfold tail; by rewrite print_members_app, text_app_assoc).
  assert (closing = false -> exists a rest, tail = String a rest /\ Ascii.eqb a "]" = false) as Hclose.
  { intros ->. apply first_member; [done| | |done|done].
    - cbn [orb] in Hne. apply negb_true_iff, bool_decide_eq_false in Hne. done.
    - destruct members as [|[c|c|name] members]; [done|..|done|done]. intros c' [= ->]. cbn [forallb well_membered] in Hw.
      apply andb_true_iff in Hw as [Hc _]. cbn [contains_byte] in Hc. rewrite negb_true_iff, !orb_false_iff, (Ascii.eqb_sym _ c) in Hc. tauto. }
  assert (negated = false -> closing = false -> exists a rest, tail = String a rest /\ Ascii.eqb a "^" = false) as Hcaret.
  { intros -> ->. apply first_member; [done| | |done|done].
    - cbn [orb] in Hne. apply negb_true_iff, bool_decide_eq_false in Hne. done.
    - destruct members as [|[c|c|name] members]; [done|..|done|done]. intros c' [= ->]. cbn [orb starts_negation] in Hneg. by apply negb_true_iff in Hneg. }
  unfold print_class. fold tail. unfold skipClass.
  destruct negated, closing;
    [exists (String "^" (String "]" (members_text members +:+ "]")))|exists (String "^" (members_text members +:+ "]"))
    |exists (String "]" (members_text members +:+ "]"))|exists (members_text members +:+ "]")];
    (split; [by rewrite Ht|]).
  - rewrite !accept_found, Hend. cbn [default id String.length]. rewrite string_length_app. cbn. lia.
  - rewrite accept_found, accept_missed, Hend by auto. cbn [default id String.length]. rewrite string_length_app. cbn. lia.
  - rewrite accept_missed by (by eexists _, _). rewrite accept_found, Hend. cbn [default id String.length]. rewrite string_length_app. cbn. lia.
  - rewrite !accept_missed, Hend by auto. cbn [default id String.length]. rewrite string_length_app. cbn. lia.
Qed.

(** *** The scans of a tree's text *)

Lemma count_print r k : well_formed r = true -> count_unbounded 0 (print r k) = unbounded_quantifiers r + count_unbounded 0 k.
Proof.
  revert k. induction r as [|c q l rest IH|c name q l rest IH|neg clo members q l rest IH|flags inner IHi q l rest IH|rest IH];
    intros k Hw; cbn [well_formed] in Hw; rewrite ?andb_true_iff in Hw; cbn [print unbounded_quantifiers].
  - done.
  - destruct Hw as [[Hc Hq] Hr]. rewrite count_inert_byte, count_quantifier, IH by (done || by apply plain_inert). lia.
  - destruct Hw as [[[_ Hn] Hq] Hr].
    assert (forall k', count_unbounded 0 (print_quantifier q l (print rest k')) = one_if (unbounded q) + (unbounded_quantifiers rest + count_unbounded 0 k')) as Hq'
      by (intros; by rewrite count_quantifier, IH).
    destruct name as [name|]; [rewrite count_named by done|]; cbn [count_unbounded Ascii.eqb Bool.eqb String.eqb andb negb]; rewrite Hq'; lia.
  - destruct Hw as [[[Hs Hm] Hq] Hr]. rewrite <- andb_true_iff in Hs. 
    set (k1 := print_quantifier q l (print rest k)). destruct (skip_printed neg clo members k1 Hs Hm) as (body & Hb & Hskip).
    transitivity (count_unbounded (skipClass (String "[" (print_class neg clo members k1))) (print_class neg clo members k1)); [done|].
    rewrite Hskip, Hb, count_jump. unfold k1. rewrite count_quantifier, IH by done. lia.
  - destruct Hw as [[[Hf Hi] Hq] Hr]. transitivity (count_unbounded 0 (flags +:+ print inner (String ")" (print_quantifier q l (print rest k))))); [done|].
    rewrite count_inert, IHi by (done || by apply flags_inert).
    transitivity (unbounded_quantifiers inner + count_unbounded 0 (print_quantifier q l (print rest k))); [done|].
    rewrite count_quantifier, IH by done. lia.
  - transitivity (count_unbounded 0 (print rest k)); [done|]. by apply IH.
Qed.

(** *** What follows a group *)

(** A text that does not go on with a quantifier that the scan reads. *)
Definition calm (k : string) : bool :=
  match k with EmptyString => true | String c _ => negb (Ascii.eqb c "*" || Ascii.eqb c "+" || Ascii.eqb c "{") end.

Lemma inert_calm c k : inert c = true -> calm (String c k) = true.
Proof. intros (_ & _ & _ & _ & H5 & H6 & H7 & _)%inert_parts. cbn [calm]. by rewrite H5, H6, H7. Qed.

Lemma print_calm r k : well_formed r = true -> calm k = true -> calm (print r k) = true.
Proof.
  destruct r as [|c q l rest|c name q l rest|neg clo members q l rest|flags inner q l rest|rest]; intros Hw Hk; [done| |done..].
  cbn [well_formed] in Hw. apply andb_true_iff in Hw as [[Hc _]%andb_true_iff _]. cbn [print]. by apply inert_calm, plain_inert.
Qed.

Lemma calm_reason top k : calm k = true -> close_reason top k = ""%string.
Proof.
  destruct k as [|c k]; [done|]. cbn [calm]. rewrite negb_true_iff, !orb_false_iff. intros ([H1 H2] & H3).
  cbn [close_reason]. by rewrite H1, H2, H3.
Qed.

Lemma braces_reason top p : match p with String c _ => Ascii.eqb c "{" = true | EmptyString => False end ->
  String.eqb (close_reason top p) "" = negb (
    (quantifierUnbounded p && (hasInnerQuant top || hasAlt top))
    || (hasInnerQuant top && match boundedRepeatBounds p with Some (_, high) => 2 <=? high | None => false end)).
Proof.
  destruct p as [|c p]; [done|]. intros Hc. cbn [close_reason]. rewrite Hc.
  apply Ascii.eqb_eq in Hc as ->. cbn [Ascii.eqb Bool.eqb orb andb].
  by destruct (quantifierUnbounded _), (hasInnerQuant top), (hasAlt top), (match boundedRepeatBounds _ with Some _ => _ | None => _ end).
Qed.

(** The closing of a group is refused exactly when the group runs away. *)
Lemma close_printed inner q l k : well_quantified q = true -> calm k = true ->
  String.eqb (close_reason (mkGroupState (alternates inner) (quantified inner)) (print_quantifier q l k)) "" = negb (runaway inner q).
Proof.
  intros Hq Hk. pose proof (quantifier_token q l k Hq) as Ht. pose proof (bounded_token q l k Hq) as Hb. unfold runaway.
  destruct q as [| | | |n|n|n m]; cbn [print_quantifier] in *.
  - rewrite calm_reason by done. done.
  - cbn. by destruct (quantified inner), (alternates inner).
  - cbn. by destruct (quantified inner), (alternates inner).
  - done.
  - rewrite braces_reason by done. rewrite Ht. cbn [hasInnerQuant hasAlt unbounded repeats].
    assert (boundedRepeatBounds (String "{" (n +:+ String "," (String "}" (print_lazy l k)))) = None) as ->; [|by destruct (quantified inner), (alternates inner)].
    cbn [boundedRepeatBounds]. rewrite Ascii.eqb_refl. cbn [negb].
    replace (n +:+ String "," (String "}" (print_lazy l k))) with ((n +:+ ",") +:+ String "}" (print_lazy l k)) by (by rewrite text_app_assoc).
    rewrite cut_app by (apply comma_body; apply (number_parts n Hq)). rewrite (proj2 (has_suffix_spec _ _)) by (by exists n). done.
  - rewrite braces_reason by done. rewrite Ht, Hb. cbn [hasInnerQuant hasAlt unbounded]. rewrite andb_false_l, !orb_false_l.
    by destruct (boundedRepeatBounds _) as [[]|], (quantified inner); rewrite ?andb_true_r, ?andb_false_r.
  - rewrite braces_reason by done. rewrite Ht, Hb. cbn [hasInnerQuant hasAlt unbounded]. rewrite andb_false_l, !orb_false_l.
    by destruct (boundedRepeatBounds _) as [[]|], (quantified inner); rewrite ?andb_true_r, ?andb_false_r.
Qed.

(** The walk over a tree's text stops at a group that runs away, and otherwise
    goes on with the tree's bars and quantifiers noted. *)
Lemma walk_print r k st : well_formed r = true -> calm k = true ->
  if has_runaway r then walk_groups 0 st (print r k) <> ""%string
  else walk_groups 0 st (print r k) = walk_groups 0 (note (alternates r) (quantified r) st) k.
Proof.
  revert k st. induction r as [|c q l rest IH|c name q l rest IH|neg clo members q l rest IH|flags inner IHi q l rest IH|rest IH];
    intros k st Hw Hk; cbn [well_formed] in Hw; rewrite ?andb_true_iff in Hw; cbn [has_runaway print alternates quantified].
  - by rewrite note_nothing.
  - destruct Hw as [[Hc Hq] Hr]. rewrite walk_inert_byte, walk_quantifier by (done || by apply plain_inert).
    specialize (IH k (note false (unbounded q) st) Hr Hk). by rewrite note_note in IH.
  - destruct Hw as [[[_ Hn] Hq] Hr].
    assert (walk_groups 0 st (print (Escaped c name q l rest) k) = walk_groups 0 (note false (unbounded q) st) (print rest k)) as E.
    { rewrite <- (walk_quantifier st q l) by done. destruct name as [name|]; [|done]. by apply walk_named. }
    cbn [print] in E. rewrite E. specialize (IH k (note false (unbounded q) st) Hr Hk). by rewrite note_note in IH.
  - destruct Hw as [[[Hs Hm] Hq] Hr]. rewrite <- andb_true_iff in Hs.
    set (k1 := print_quantifier q l (print rest k)). destruct (skip_printed neg clo members k1 Hs Hm) as (body & Hb & Hskip).
    assert (walk_groups 0 st (String "[" (print_class neg clo members k1)) = walk_groups 0 (note false (unbounded q) st) (print rest k)) as E.
    { transitivity (walk_groups (skipClass (String "[" (print_class neg clo members k1))) st (print_class neg clo members k1)); [done|].
      rewrite Hskip, Hb, walk_jump. by apply walk_quantifier. }
    rewrite E. specialize (IH k (note false (unbounded q) st) Hr Hk). by rewrite note_note in IH.
  - destruct Hw as [[[Hf Hi] Hq] Hr].
    set (k1 := print_quantifier q l (print rest k)).
    assert (walk_groups 0 st (String "(" (flags +:+ print inner (String ")" k1))) = walk_groups 0 (mkGroupState false false :: st) (print inner (String ")" k1))) as E.
    { transitivity (walk_groups 0 (mkGroupState false false :: st) (flags +:+ print inner (String ")" k1))); [done|]. by apply walk_inert, flags_inert. }
    rewrite E. specialize (IHi (String ")" k1) (mkGroupState false false :: st) Hi eq_refl).
    destruct (has_runaway inner); [exact IHi|]. cbn [orb]. rewrite IHi. cbn [note hasAlt hasInnerQuant orb].
    assert (walk_groups 0 (mkGroupState (alternates inner) (quantified inner) :: st) (String ")" k1)
      = (let reason := close_reason (mkGroupState (alternates inner) (quantified inner)) k1 in
         if String.eqb reason "" then walk_groups 0 (note (alternates inner) (quantified inner) st) k1 else reason)) as -> by done.
    pose proof (close_printed inner q l (print rest k) Hq (print_calm rest k Hr Hk)) as Hc. fold k1 in Hc. cbn zeta.
    destruct (runaway inner q); cbn [negb orb] in *; rewrite Hc; [by apply String.eqb_neq|].
    unfold k1. rewrite walk_quantifier, note_note by done.
    specialize (IH k (note (alternates inner) (quantified inner || unbounded q) st) Hr Hk). rewrite note_note in IH. by rewrite orb_false_r.
  - specialize (IH k (note true false st) Hw Hk). rewrite note_note in IH. exact IH.
Qed.

Lemma vet_by_reason p : Vet p = if String.eqb (pathologicalReason p) "" then Ok tt else Err (EWrap (pathologicalReason p) ErrPathological).
Proof. unfold Vet. cbn zeta. by destruct (String.eqb (pathologicalReason p) ""). Qed.


(** ** Examples *)

Module RedosExample.

(** [(?:[[:alpha:])\]]{2,}|\p{Lu}){3}] *)
Definition repeated_tree : regex :=
  Group "?:" (Class_ false false [NamedClass "alpha"; Member ")"; EscapedMember "]"] (AtLeast "2") false (Bar (Escaped "p" (Some "Lu"%string) Once false Done)))
    (Exactly "3") false Done.

(** [^a[)+]{1,20}(b|c)?d+$] *)
Definition harmless_tree : regex :=
  Byte "^" Once false (Byte "a" Once false (Class_ false false [Member ")"; Member "+"] (Between "1" "20") false
    (Group "" (Byte "b" Once false (Bar (Byte "c" Once false Done))) Optional false (Byte "d" Plus false (Byte "$" Once false Done))))).

Example repeated_text : text repeated_tree = "(?:[[:alpha:])\]]{2,}|\p{Lu}){3}"%string.
Proof. reflexivity. Qed.
Example harmless_text : text harmless_tree = "^a[)+]{1,20}(b|c)?d+$"%string.
Proof. reflexivity. Qed.

(** A parenthesis in quotes closes the group for the scanner, and it misses the
    nested quantifier. *)
Example quoted_group_is_missed : Vet "(\Q)\Ea+)+" = Ok tt /\ Vet "(\)a+)+" = Err (EWrap nested_quantifier ErrPathological).
Proof. split; reflexivity. Qed.

(** A class with a bracket and a dot swallows the pattern up to the next dot before a bracket. *)
Example swallowed_group_is_missed : Vet "([[.]a+)+[b.]" = Ok tt /\ Vet "([.[]a+)+[b.]" = Err (EWrap nested_quantifier ErrPathological).
Proof. split; reflexivity. Qed.

End RedosExample.

